(* ===== verification/_CoqProject ===== *)
-Q . S2P
Prelude.v
GoStrings.v
PollSchedule.v
PollWindow.v
Types.v
Inflight.v
DuePauses.v
HostLimiter.v
TtlCache.v
FilterEngine.v
FeedStore.v
WebhookStore.v
EntryStore.v
Tables.v
FilterStore.v
FilterStoreSpec.v
Catalog.v
CatalogSpec.v
Reading.v
ReadingSpec.v
Search.v
SearchSpec.v
Overviews.v
HookOverview.v
Outbound.v
PollLog.v
FeedRules.v
Refresher.v
PollFrames.v
RefresherSpec.v
LibraryPolls.v
Worker.v
WebhookWorker.v
HookDispatch.v
PageDiff.v
NetIP.v
SsrfGuard.v
ClientIP.v
UrlDedup.v
Inbound.v
Xml.v
Opml.v
Version.v
WsHub.v
Retention.v
SystemAlerts.v
UserStore.v
ApiAuth.v
CatalogApi.v
CatalogApiSpec.v
OpmlImport.v
FilterApi.v
WebhookApi.v
WebhookApiSpec.v
UiAuth.v
FetchSlots.v
Bridges.v
Config.v
GoDuration.v
EnvFile.v
SavedSettings.v
Pages.v
PagesSpec.v
FilterForm.v
FilterPages.v
WebhookPages.v
AdminPages.v
Migrations.v
