(* ===== verification/Prelude.v ===== *)
(** * rssam: polling, storing, filtering and delivering feeds

    rssam ([cmd/rssam], Go) is a self-hosted feed reader.  A single poller process
    claims due feeds from PostgreSQL, fetches them, stores their new items,
    applies the subscribers' filters and hands matching entries to webhooks; a
    second loop delivers those; an HTTP API, pages and a websocket serve its users.
    This development models that core, from the due query to the delivered row,
    with what guards it (accounts, the API's gate, outgoing connections) and what
    keeps it small (retention), and proves what makes it correct.  Paths
    below are relative to [src/internal].

    ** The program and its model

    - [worker/runner.go] (dispatcher and workers): [Worker.v].  One round of
      [dispatchLoop] is [dispatch_round] on the state [Dispatcher] (the
      in-flight set and the deferrals of feeds and bridges); a worker is
      [processPollFeed] in the monad of the refresher and [worker_done] on the
      dispatcher's state.  Channels and goroutines appear as sequences of these
      steps.
    - [worker/inflight.go], [worker/webhook_flood.go]: [Inflight.v] and
      [DuePauses.v].  Both guard a map with a mutex, so a run is a list of
      operations.
    - [service/feed_refresher.go] and its neighbours: [Refresher.v].  A
      computation is [M A := World → World * A]; the world holds the tables
      ([Db]), the refresher's memory ([Mem]), the published events and an oracle
      of storage faults.  Every call to the store goes through [call], which
      first takes a boolean from the oracle: [true] makes it fail with nothing
      written.  [refreshLoaded] is the whole poll.  The class [Env] holds what
      a poll takes from outside: the network fetch, [regexp], the sanitizer,
      hashing, the time zone and the configuration.
    - [service/host_limit.go], [service/ttl_cache.go]: [HostLimiter.v],
      [TtlCache.v].
    - [filter/engine.go], [filter/query.go]: [FilterEngine.v]; [reader/rules.go]:
      [FeedRules.v].
    - [storage]: a statement is a function on tables held as finite maps.
      [FeedStore.v] has feeds, poll state, subscriptions and categories;
      [EntryStore.v] entries, kept hashes, unread rows and per-user state;
      [WebhookStore.v] webhooks and delivery rows; [PollLog.v] the poll history;
      [Tables.v] tables with a serial key, [FilterStore.v] filters, labels and matches on them.
      [PollSchedule.v] and [PollWindow.v] are the pure parts.
    - The library on those tables: [Catalog.v] creates, edits, files and deletes feeds and
      categories, with who reads and follows what; [Reading.v] lists and marks entries;
      [Search.v] finds entries and feeds; [LibraryPolls.v] has the polls that a request sets off, of one
      feed or of a list, as the poll of [Refresher.v] on the same tables; [Overviews.v] and [HookOverview.v] are what the
      pages about feeds and webhooks count and list.  A [...Spec] file beside a component
      holds its abstract specification or its larger proofs.
    - The JSON API of the library: [CatalogApi.v] (feeds, subscriptions, categories,
      entries), [FilterApi.v] (filters, labels, with the cache of filters of the server's refresher, the store behind an interface),
      [WebhookApi.v], [OpmlImport.v] (import in the request or as a job, export).
      A handler is a function from the request, the caller and the state to the new state and the answer;
      those that refresh a feed or read an article run the poll, or take the fetched text from a parameter.
    - [opml]: [Opml.v], over [Xml.v], the part of [encoding/xml] it uses.
    - [worker/webhooks.go], [worker/webhook_digest.go]: [WebhookWorker.v], in the
      refresher's monad; the class [HookEnv] holds the payload builder, the
      HTTP client and the providers' JSON.  [HookDispatch.v] is the loop around it, as a
      step relation on rounds, workers and the pauses they hand back; [Outbound.v] the texts the
      messengers are sent.
    - [http/inbound.go]: [Inbound.v], a delivery to an inbound feed from the address of its
      caller to the items it stores, on the refresher's ingest.
    - [bridgeconfig]: [Bridges.v], the settings of the bridges from the environment and from the
      settings pages, the manager that merges, saves and applies them, and the handlers' side of it.
    - [config/config.go]: [Config.v], the environment read key by key with every fault recorded, the
      checks of [Validate], and the settings [cmd/rssam/main.go] starts each part with.
    - The pages that change the library ([http/ui]): [Pages.v] for feeds, categories, subscriptions and
      entries, behind the routes and guards of [UiAuth.v]; [FilterForm.v] for the form of a filter and
      what a browser sends for it; [FilterPages.v] for filters and labels, and for the two refreshers of a
      process, the server's and the worker's, each with its own cache of filters; [WebhookPages.v] for webhooks.  A page is what it answers, as data.
    - The administrator's pages ([http/ui/admin_feeds.go], [admin_retention.go], part of [admin.go]) and the file of
      settings they write ([envfile]): [AdminPages.v] for the handlers, [SavedSettings.v] for the forms and what the
      configuration makes of them, [EnvFile.v] for the file; [GoDuration.v] has [time.ParseDuration].
    - [migrations/migrate.go]: [Migrations.v], a start as a function of how each statement and commit ends.
    - [storage/cleanup.go], [worker/cleanup.go]: [Retention.v], a pass over all the
      tables with any statement failing between two batches.
    - [worker/system_alerts.go]: [SystemAlerts.v], one [pass] per tick on the saved
      alert state, with the messages as data.
    - [ws]: [WsHub.v].  The hub's mutex makes a run a list of operations; a client
      is its subscriptions and its bounded send buffer, which can be closed.
    - [ssrf]: [SsrfGuard.v], on addresses as 128-bit integers; [NetIP.v] has the parts of
      [net] and [netip] used by it and by [ClientIP.v] ([http/middleware/clientip.go]).
    - [storage/users.go], [storage/sessions.go], [auth/role.go], [quota]: [UserStore.v];
      [http/auth_middleware.go], [http/users.go], the route table of [http/server.go]
      and the rest of [auth]: [ApiAuth.v], where a whole API request is
      [api_request] (gate, routing, handler); [http/ui/auth.go] and the account pages:
      [UiAuth.v], where a request is [ui_request] (routing, guards, handler).
    - [reader/telegram/slots.go]: [FetchSlots.v], a mutex and a condition variable as a
      step relation on the calls that wait.
    - [reader] (web-page bridge): [PageDiff.v]; [model]: [UrlDedup.v]; [version] and
      [githubrel]: [Version.v].
    - [Types.v] has the shared rows and the error values, whose wrapping
      [errors.As] and [errors.Is] inspect; [GoStrings.v] the parts of Go's string
      library the code relies on; this file the integers, the clock and
      shared lemmas.

    ** What the theorems show

    - Scheduling: the due query serves exactly the feeds that are ready, oldest
      first; the dispatcher hands out no feed whose poll still runs within its time (a poll
      older than that is given up as stuck and its feed may go out again), never claims a deferred
      feed, and never sleeps past the next due feed; a worker leaves its feed
      not due on every exit; backoff and adaptive interval stay in their bounds
      and have a closed form; a polling window opens when it says.
    - A poll: whatever storage call fails, a poll touches its own feed only and
      returns its host slot; a poll that returns an error has stored nothing; one
      that succeeds has made every item known; a relay feed keeps no
      undelivered row, only its hash; a failure is recorded with its backoff and opens the
      circuit at the threshold.  [PollFrames.v] proves the frame conditions once, by
      the kinds of statement a poll issues; [RefresherSpec.v] cuts runs into their parts.
    - Storage: entries are created exactly once; a hash, once known, stays known
      through every way of leaving the table but the retention pass; deletions spare open
      deliveries; the filtered poll commits all or nothing; the poll history is
      the bounded list of the transitions.
    - Filters: the compiled cache is transparent, the fold of rules is the one
      specified, validated rules compile, batched query evaluation agrees with
      the pointwise one.
    - Webhooks: enqueueing is exactly-once; a claim takes the oldest row of each
      webhook; digests lose and repeat no row; each answer of the endpoint has
      its effect on the row and on no other; on-success actions wait for the
      last delivery; retries follow the capped exponential; reserved headers
      cannot be overridden.

    - The delivery loop: two deliveries to one webhook never run at once, no row is claimed twice, and the loop
      wakes for the next retry, the next window and the end of every pause.
    - The library: the tables stay consistent under everything that polls, edits,
      subscribes and reads; every list and every search is a page of what it says, whichever table
      drives it; marking does what it says and no more; followers read what their category holds.
    - The API: whoever is no editor changes their own reading only, apart from setting off a poll of a feed
      they read and fetching the full text of an entry of it; filters and webhooks are their
      owners'; a request is a sequence of library steps (lemma [requests_are_library_steps]).
    - The pages: they change the library for the callers the API lets change it, and keep its tables
      consistent; any signed-in user may set off a poll of a feed there, as the API lets its readers.
      The filters a request's poll applies are the stored ones after every request to the API or to a page of
      filters; those the worker applies are at most five seconds old.
      Saving the page of a filter unchanged keeps its rules exactly when they are joined by "and" and the
      negated ones come first, for a filter the form can show and whose targets it still offers; filters and webhooks are their owners' on the pages too.
    - Configuration: an environment is accepted only when everything in it parses, and then every
      setting is within the bounds the parts rely on; what an administrator saves from a page is what the program
      runs with after a restart, and does not keep it from starting, when the file of settings holds no quotes, no joined
      lines and one line a setting; the file is replaced whole or not at all, and
      keeps every other line (lemmas [set_keys_atomic], [upsert_all_lines]).
    - Migrations: at every moment the database is what the scripts up to some file make of the first one,
      each run once; a start in which nothing fails finishes.
    - Import and export: the file written reads back as the feeds it was written from; what
      one account exports, another imports; every feed of a file is created, or skipped or reported for a
      reason that holds of it (already read, twice in the file, refused by a check or by the store);
      the quota holds through an import.
    - Inbound deliveries are stored only with the feed's secret and under its limits.
    - Bridge settings survive a restart, and the page of one bridge leaves the others alone
      (lemma [bridge_page_changes_its_own]).
    - Retention: a pass ends, deletes exactly what is past its age and what goes with it (the matches of an
      entry), never a starred entry that is not stripped, and a failing statement leaves less deleted, never more; what it forgets
      with an entry is the lemma [retention_forgets_hash].
    - Outside world: unless private networks are allowed, the guarded transport dials no address inside the operator's
      network, however it is written or embedded (the static proxy of the messenger bridge does not dial through it);
      the client's address cannot be forged past trusted proxies that append to the list they are given; a websocket message reaches its own user's
      subscribers only, and a client that cannot keep up is evicted.
    - Accounts: whoever reaches a handler was named by a live key or session, inside its
      scope and from the application's origin; accounts change only by an admin, by
      their owner or by the bootstrap, through the API and through the pages; an admin
      always remains; signing in opens its user's session and no other; the tables keep
      what their schema declares; sessions slide with use and end without it; form
      tokens are exact; query numbers wrap (lemma [atoi_wraps_around]).
    - Fetch slots lose no wake-up in any interleaving.
    - Page diffs are a smallest set of changed lines, of which the block shows the first fifty of each kind, escaped; alerts fire on changes only and
      survive a restart; versions are ordered by their numbers and then by the order of
      their suffixes.

    ** Bounds

    Durations and the counters that multiply them are 64-bit: [wrap64] is written
    where Go multiplies or adds them, [time_sub] saturates as [Time.Sub] does.
    Instants are unbounded nanoseconds, as [Time.Add] on representable instants.
    Loops whose recursion is not structural take their iteration count from the
    code: [adaptive_double] runs once per silent week after the first, [backoff_double]
    [attempt - 1] times.  Fuel is counted elsewhere: a batched deletion takes a unit a
    batch ([enough_fuel]: the batches hold more rows than any table), the walk of a page
    diff [n + m] units for the lengths of its texts, the parser of an IPv6 address one a
    group.

    ** What is not modelled

    Interleaving of two storage transactions (PostgreSQL is the sequence of
    statements; row locks serve several pollers, and the program runs one).
    What the pages show, which is what the modelled statements return; of the administrator's pages, the
    audit log, restart and update, and the cleanup on demand.  Feed parsers, most bridges, the scraper and
    the proxies, which transform third-party data over third-party parsers.  What PostgreSQL's
    full-text search makes of a query, its collations and its lower case are parameters, like
    [regexp], JSON, [text/template], cryptography and the text of durations (where [ParseDuration] is not used).  The model of
    [encoding/xml] knows ASCII names and no limit of depth.  The rate limiter and
    the capacity figures (floating point), the progress counter of a running import, logging, metrics
    and the scripts of the migrations are left out. *)

From stdpp Require Export prelude gmap strings sorting numbers list.

(** * Notation scope and hint databases *)

Declare Scope go_scope.
Delimit Scope go_scope with go.

Create HintDb go discriminated.
Create Rewrite HintDb go_rw.

(** * Tactics *)

(** Case analysis on the discriminee of the first [match] or [if] of the goal. *)
Ltac case_match_goal :=
  match goal with
  | |- context [match ?x with _ => _ end] => let E := fresh "E" in destruct x eqn:E
  end.

Ltac case_match_hyp H :=
  match type of H with
  | context [match ?x with _ => _ end] => let E := fresh "E" in destruct x eqn:E
  end.

(** Turns the boolean comparisons of the code into the arithmetic facts they
    decide, in the hypotheses and in the goal. *)
Ltac bool_to_prop :=
  repeat match goal with
  | H : (_ && _)%bool = true |- _ => apply andb_prop in H as [? ?]
  | H : (_ || _)%bool = false |- _ => apply orb_false_elim in H as [? ?]
  | H : negb _ = true |- _ => apply negb_true_iff in H
  | H : negb _ = false |- _ => apply negb_false_iff in H
  | H : (_ <? _)%Z = true |- _ => apply Z.ltb_lt in H
  | H : (_ <? _)%Z = false |- _ => apply Z.ltb_ge in H
  | H : (_ <=? _)%Z = true |- _ => apply Z.leb_le in H
  | H : (_ <=? _)%Z = false |- _ => apply Z.leb_gt in H
  | H : (_ =? _)%Z = true |- _ => apply Z.eqb_eq in H
  | H : (_ =? _)%Z = false |- _ => apply Z.eqb_neq in H
  | H : (_ =? _)%string = true |- _ => apply String.eqb_eq in H
  | H : (_ =? _)%string = false |- _ => apply String.eqb_neq in H
  | H : (_ || _)%bool = true |- _ => apply orb_prop in H
  | H : bool_decide _ = true |- _ => apply bool_decide_eq_true in H
  | H : bool_decide _ = false |- _ => apply bool_decide_eq_false in H
  end.

(** Splits every boolean test of the goal and closes what arithmetic closes. *)
Ltac case_bools :=
  repeat (case_match_goal; bool_to_prop; try lia; try congruence).

Open Scope Z_scope.

(** * Go integers

    [int], [int64] and [time.Duration] are 64-bit two's complement: a value is
    a [Z] in [in64], and an operation that can leave the range is wrapped with
    [wrap64]. *)

Definition in64 (z : Z) : Prop := - 2 ^ 63 <= z < 2 ^ 63.

Definition wrap64 (z : Z) : Z := (z + 2 ^ 63) mod 2 ^ 64 - 2 ^ 63.

Definition max_int64 : Z := 2 ^ 63 - 1.
Definition min_int64 : Z := - 2 ^ 63.

#[export] Instance in64_dec z : Decision (in64 z).
Proof. unfold in64. apply _. Defined.

Lemma wrap64_in64 z : in64 (wrap64 z).
Proof.
  unfold in64, wrap64. pose proof (Z.mod_pos_bound (z + 2 ^ 63) (2 ^ 64)).
  assert (2 ^ 64 = 2 * 2 ^ 63) by reflexivity. lia.
Qed.

Lemma wrap64_id z : in64 z → wrap64 z = z.
Proof.
  unfold in64, wrap64. intros H. rewrite Z.mod_small; [lia|].
  assert (2 ^ 64 = 2 * 2 ^ 63) by reflexivity. lia.
Qed.
#[export] Hint Resolve wrap64_in64 : go.

(** * Time

    A [time.Time] is its instant in nanoseconds since the Unix epoch; the zero
    [time.Time] (January 1, year 1, UTC) is [zero_time].  A [time.Duration] is
    an int64 count of nanoseconds.  [Time.Sub] saturates, [Time.Add] does not
    overflow on representable instants. *)

Definition nanosecond : Z := 1.
Definition millisecond : Z := 1000000.
Definition second : Z := 1000000000.
Definition minute : Z := 60 * second.
Definition hour : Z := 60 * minute.

Definition zero_time : Z := -62135596800 * second.

Definition time_is_zero (t : Z) : bool := t =? zero_time.
Definition time_add (t d : Z) : Z := t + d.
Definition time_sub (t u : Z) : Z :=
  let d := t - u in
  if d <? min_int64 then min_int64 else if max_int64 <? d then max_int64 else d.
Definition time_after (t u : Z) : bool := u <? t.
Definition time_before (t u : Z) : bool := t <? u.

Lemma time_sub_exact t u : in64 (t - u) → time_sub t u = t - u.
Proof.
  unfold in64, time_sub, min_int64, max_int64. intros.
  repeat case_match; bool_to_prop; lia.
Qed.

Lemma time_sub_ge t u d : in64 d → d <= time_sub t u → d <= t - u ∨ d = min_int64.
Proof.
  unfold in64, time_sub, min_int64, max_int64. intros.
  repeat case_match; bool_to_prop; lia.
Qed.

Lemma time_sub_le_iff t u d : min_int64 < d <= max_int64 →
  (d <=? time_sub t u) = (d <=? t - u).
Proof.
  unfold time_sub. intros. apply eq_bool_prop_intro; rewrite !Is_true_true, !Z.leb_le.
  repeat case_match; bool_to_prop; lia.
Qed.

(** * Lists *)

Lemma NoDup_fmap_omap {A B C} (g : A → option B) (h : B → C) (k : A → C) (l : list A) :
  (∀ x y, g x = Some y → h y = k x) → NoDup (k <$> l) → NoDup (h <$> omap g l).
Proof.
  intros Hg. induction l as [|x l IH]; simpl; [done|]. rewrite NoDup_cons. intros [Hx Hl].
  destruct (g x) as [y|] eqn:Hy; simpl; [|by apply IH]. rewrite NoDup_cons. split; [|by apply IH].
  rewrite (Hg _ _ Hy). intros (z & Hz & Hin)%list_elem_of_fmap. apply Hx.
  apply list_elem_of_omap in Hin as (w & Hw & Hgw). rewrite Hz, (Hg _ _ Hgw).
  by apply list_elem_of_fmap_2.
Qed.

(** What a sorted list keeps of its first [n] elements is below what it drops. *)
Lemma StronglySorted_take_drop {A} (R : A → A → Prop) n (l : list A) :
  StronglySorted R l → StronglySorted R (take n l) ∧
  ∀ x y, x ∈ take n l → y ∈ drop n l → R x y.
Proof.
  rewrite <-(take_drop n l) at 1. intros H. apply StronglySorted_app in H as (H & H1 & _). done.
Qed.

Lemma existsb_all_false {A} (f : A → bool) l : existsb f l = false → ∀ x, In x l → f x = false.
Proof.
  intros H x Hx. destruct (f x) eqn:E; [|done].
  assert (existsb f l = true) by (apply existsb_exists; eauto). congruence.
Qed.

Lemma existsb_none {A} (f : A → bool) l : (∀ x, In x l → f x = false) → existsb f l = false.
Proof.
  intros H. destruct (existsb f l) eqn:E; [|done]. apply existsb_exists in E as (x & Hx & Hf).
  by rewrite H in Hf.
Qed.

Lemma Forall_forall_sub {A} (P : A → Prop) l k : (∀ x, x ∈ l → x ∈ k) → Forall P k → Forall P l.
Proof. rewrite !Forall_forall. auto. Qed.

(** Filters that agree on the elements. *)
Lemma filter_ext_in {A} (f g : A → bool) (l : list A) : (∀ x, x ∈ l → f x = g x) →
  filter (λ x, f x = true) l = filter (λ x, g x = true) l.
Proof.
  induction l as [|x l IH]; [done|]. intros H. specialize (IH (λ y Hy, H y (list_elem_of_further _ _ _ Hy))).
  pose proof (H x (list_elem_of_here _ _)) as Hx. destruct (f x) eqn:Hf.
  - by rewrite !filter_cons_True, IH.
  - rewrite !filter_cons_False, IH; [done| |]; congruence.
Qed.
