(* ===== verification/GoStrings.v ===== *)
(** Model of the parts of Go's [strings], [strconv], [unicode] and [fmt] the
    program uses.  A Go string is a [string] of bytes.  Case mapping and white
    space follow Go on UTF-8 text as far as the program can observe: letters
    are mapped inside ASCII, together with the only two non-ASCII runes whose
    lower case is an ASCII letter (U+0130 and U+212A); other runes keep their
    bytes, which no comparison of the program distinguishes since every
    constant it compares with is ASCII.  White space is the full
    [unicode.IsSpace] set. *)

From S2P Require Import Prelude.
From Stdlib Require Import Ascii.
From Stdlib Require OrdersEx.


Local Open Scope Z_scope.

(** * Bytes *)

Definition byte_of (a : ascii) : Z := Z.of_N (N_of_ascii a).
Definition is_byte (n : Z) (a : ascii) : bool := byte_of a =? n.

Definition is_digit (a : ascii) : bool := (48 <=? byte_of a) && (byte_of a <=? 57).
Definition digit_val (a : ascii) : Z := byte_of a - 48.
Definition digit_char (n : Z) : ascii := ascii_of_N (Z.to_N (48 + n)).

Lemma digit_char_spec n : 0 <= n < 10 →
  is_digit (digit_char n) = true ∧ digit_val (digit_char n) = n.
Proof.
  intros H. assert (n = 0 ∨ n = 1 ∨ n = 2 ∨ n = 3 ∨ n = 4 ∨ n = 5 ∨ n = 6 ∨ n = 7 ∨ n = 8 ∨ n = 9)
    as Hn by lia.
  repeat (destruct Hn as [->|Hn]; [split; reflexivity|]). subst; split; reflexivity.
Qed.

(** * Case mapping *)

Definition lower_byte (a : ascii) : ascii :=
  if (65 <=? byte_of a) && (byte_of a <=? 90) then ascii_of_N (Z.to_N (byte_of a + 32)) else a.

(** [strings.ToLower] *)
Fixpoint to_lower (s : string) : string :=
  match s with
  | "" => ""
  | String c s1 =>
      match s1 with
      | String d s2 =>
          if is_byte 196 c && is_byte 176 d then String "i" (to_lower s2)
          else match s2 with
               | String e s3 =>
                   if is_byte 226 c && is_byte 132 d && is_byte 170 e then String "k" (to_lower s3)
                   else String (lower_byte c) (to_lower s1)
               | "" => String (lower_byte c) (to_lower s1)
               end
      | "" => String (lower_byte c) ""
      end
  end.

(** [strings.EqualFold] against an ASCII constant: simple folding also maps
    U+212A to [k] and U+017F to [s]. *)
Fixpoint fold_case (s : string) : string :=
  match s with
  | "" => ""
  | String c s1 =>
      match s1 with
      | String d s2 =>
          if is_byte 197 c && is_byte 191 d then String "s" (fold_case s2)
          else match s2 with
               | String e s3 =>
                   if is_byte 226 c && is_byte 132 d && is_byte 170 e then String "k" (fold_case s3)
                   else String (lower_byte c) (fold_case s1)
               | "" => String (lower_byte c) (fold_case s1)
               end
      | "" => String (lower_byte c) ""
      end
  end.

Definition equal_fold (s lit : string) : bool := String.eqb (fold_case s) (fold_case lit).

(** * White space *)

Definition ws1 (a : ascii) : bool :=
  let n := byte_of a in ((9 <=? n) && (n <=? 13)) || (n =? 32).
Definition ws2 (a b : ascii) : bool :=
  is_byte 194 a && (is_byte 133 b || is_byte 160 b).
Definition ws3 (a b c : ascii) : bool :=
  (is_byte 225 a && is_byte 154 b && is_byte 128 c)
  || (is_byte 226 a && is_byte 128 b &&
      (((128 <=? byte_of c) && (byte_of c <=? 138))
       || is_byte 168 c || is_byte 169 c || is_byte 175 c))
  || (is_byte 226 a && is_byte 129 b && is_byte 159 c)
  || (is_byte 227 a && is_byte 128 b && is_byte 128 c).

(** Removes leading white space; [w2]/[w3] recognise the two- and three-byte
    runes, so that the same function on a reversed string with the reversed
    patterns removes trailing white space. *)
Fixpoint trim_with (w2 : ascii → ascii → bool) (w3 : ascii → ascii → ascii → bool)
    (s : list ascii) : list ascii :=
  match s with
  | [] => []
  | c :: s1 =>
      if ws1 c then trim_with w2 w3 s1
      else match s1 with
           | [] => s
           | d :: s2 =>
               if w2 c d then trim_with w2 w3 s2
               else match s2 with
                    | [] => s
                    | e :: s3 => if w3 c d e then trim_with w2 w3 s3 else s
                    end
           end
  end.

Definition trim_left (s : list ascii) : list ascii := trim_with ws2 ws3 s.
Definition trim_right (s : list ascii) : list ascii :=
  rev (trim_with (λ a b, ws2 b a) (λ a b c, ws3 c b a) (rev s)).

(** [strings.TrimSpace] *)
Definition trim_space (s : string) : string :=
  String.string_of_list_ascii (trim_right (trim_left (String.list_ascii_of_string s))).

(** How many bytes the rune at the head of a string takes: a malformed byte counts as one. *)
Definition rune_width (l : list Z) : nat :=
  let cont b := (128 <=? b) && (b <=? 191) in
  match l with
  | a :: b :: c :: d :: _ =>
      if (194 <=? a) && (a <=? 223) && cont b then 2
      else if (224 <=? a) && (a <=? 239) && (if a =? 224 then 160 <=? b else true) && (if a =? 237 then b <=? 159 else true)
              && cont b && cont c then 3
      else if (240 <=? a) && (a <=? 244) && (if a =? 240 then 144 <=? b else true) && (if a =? 244 then b <=? 143 else true)
              && cont b && cont c && cont d then 4
      else 1
  | [a; b; c] =>
      if (194 <=? a) && (a <=? 223) && cont b then 2
      else if (224 <=? a) && (a <=? 239) && (if a =? 224 then 160 <=? b else true) && (if a =? 237 then b <=? 159 else true)
              && cont b && cont c then 3
      else 1
  | [a; b] => if (194 <=? a) && (a <=? 223) && cont b then 2 else 1
  | _ => 1
  end.

Fixpoint rune_count_from (skip : nat) (l : list Z) : Z :=
  match l with
  | [] => 0
  | _ :: l' => match skip with
               | S k => rune_count_from k l'
               | O => 1 + rune_count_from (rune_width l - 1) l'
               end
  end.

(** [utf8.RuneCountInString] *)
Definition rune_count (s : string) : Z := rune_count_from 0 (byte_of <$> String.list_ascii_of_string s).

(** [strings.Fields]: the words between white space; [cur] is the word being read, backwards. *)
Definition end_word (cur : list ascii) (words : list string) : list string :=
  match cur with [] => words | _ => String.string_of_list_ascii (rev cur) :: words end.
Fixpoint fields_from (cur s : list ascii) : list string :=
  match s with
  | [] => end_word cur []
  | a :: s1 =>
      if ws1 a then end_word cur (fields_from [] s1)
      else match s1 with
           | [] => end_word (a :: cur) []
           | b :: s2 =>
               if ws2 a b then end_word cur (fields_from [] s2)
               else match s2 with
                    | [] => fields_from (a :: cur) s1
                    | c :: s3 => if ws3 a b c then end_word cur (fields_from [] s3) else fields_from (a :: cur) s1
                    end
           end
  end.
Definition fields (s : string) : list string := fields_from [] (String.list_ascii_of_string s).

(** No leading white space. *)
Definition ws_free (w2 : ascii → ascii → bool) (w3 : ascii → ascii → ascii → bool)
    (s : list ascii) : Prop :=
  match s with
  | [] => True
  | [c] => ws1 c = false
  | [c; d] => ws1 c = false ∧ w2 c d = false
  | c :: d :: e :: _ => ws1 c = false ∧ w2 c d = false ∧ w3 c d e = false
  end.

Lemma list_len_ind {A} (P : list A → Prop) :
  (∀ l, (∀ l', (length l' < length l)%nat → P l') → P l) → ∀ l, P l.
Proof. intros H l. induction (well_founded_ltof _ (@length A) l) as [l _ IH]. auto. Qed.

Lemma trim_with_free w2 w3 s : ws_free w2 w3 (trim_with w2 w3 s).
Proof.
  induction s as [s IH] using list_len_ind.
  destruct s as [|c [|d [|e s3]]]; simpl; repeat case_match; simpl; auto;
    apply IH; simpl; lia.
Qed.

Lemma trim_with_id w2 w3 s : ws_free w2 w3 s → trim_with w2 w3 s = s.
Proof.
  destruct s as [|c [|d [|e s3]]]; simpl; [done| | |]; intros; destruct_and?;
    repeat case_match; congruence.
Qed.

(** A byte that is part of no white space survives a trim. *)
Lemma trim_with_keeps w2 w3 x s : ws1 x = false → (∀ a, w2 a x = false ∧ w2 x a = false) →
  (∀ a b, w3 x a b = false ∧ w3 a x b = false ∧ w3 a b x = false) → x ∈ s → x ∈ trim_with w2 w3 s.
Proof.
  intros H1 H2 H3. induction s as [s IH] using list_len_ind. intros Hx.
  assert (∀ p0 r, s = p0 ++ r → p0 ≠ [] → x ∉ p0 → x ∈ trim_with w2 w3 r) as Hstep.
  { intros p0 r -> Hp0 Hn. apply IH; [rewrite length_app; destruct p0; simpl; [done|lia]|].
    apply elem_of_app in Hx as [?|?]; done. }
  destruct s as [|c s1]; [done|]. cbn [trim_with].
  destruct (ws1 c) eqn:Hc; [apply (Hstep [c]); [done|done|]|]. { intros ->%list_elem_of_singleton. congruence. }
  destruct s1 as [|d s2]; [done|].
  destruct (w2 c d) eqn:Hcd; [apply (Hstep [c; d]); [done|done|]|].
  { intros [->|[->|H]%elem_of_cons]%elem_of_cons; [|..|by apply elem_of_nil in H];
      destruct (H2 c), (H2 d); congruence. }
  destruct s2 as [|e s3]; [done|].
  destruct (w3 c d e) eqn:Hcde; [|done]. apply (Hstep [c; d; e]); [done|done|].
  intros [->|[->|[->|H]%elem_of_cons]%elem_of_cons]%elem_of_cons; [..|by apply elem_of_nil in H].
  - destruct (H3 d e). congruence.
  - destruct (H3 c e) as (? & ? & ?). congruence.
  - destruct (H3 c d) as (? & ? & ?). congruence.
Qed.

Lemma trim_space_mem x s : byte_of x < 128 → ws1 x = false →
  x ∈ String.list_ascii_of_string s → x ∈ String.list_ascii_of_string (trim_space s).
Proof.
  intros Hb H1 Hx. assert (∀ n, 128 <= n → is_byte n x = false) as Hi by (intros; unfold is_byte; lia).
  assert (∀ a, ws2 a x = false ∧ ws2 x a = false) as H2.
  { intros a. unfold ws2. rewrite !Hi by lia. cbn. by rewrite andb_false_r. }
  assert (∀ a b, ws3 x a b = false ∧ ws3 a x b = false ∧ ws3 a b x = false) as H3.
  { intros a b. unfold ws3. rewrite !Hi by lia. cbn. rewrite !andb_false_r. cbn.
    split_and!; [done|done|]. destruct (Z.leb_spec 128 (byte_of x)); [lia|]. cbn. by rewrite !andb_false_r. }
  apply (trim_with_keeps ws2 ws3) in Hx; [|done|done|done]. fold (trim_left (String.list_ascii_of_string s)) in Hx.
  apply list_elem_of_In, in_rev, list_elem_of_In in Hx.
  apply (trim_with_keeps (λ a b, ws2 b a) (λ a b c, ws3 c b a)) in Hx;
    [|done|intros a; destruct (H2 a); auto|intros a b; destruct (H3 b a) as (? & ? & ?), (H3 a b) as (? & ? & ?); auto].
  apply list_elem_of_In, in_rev, list_elem_of_In in Hx.
  unfold trim_space, trim_right. by rewrite String.list_ascii_of_string_of_list_ascii.
Qed.

(** [trim_space] empties white space only. *)
Lemma trim_space_keeps x s : byte_of x < 128 → ws1 x = false →
  x ∈ String.list_ascii_of_string s → trim_space s ≠ "".
Proof.
  intros Hb H1 Hx E. apply trim_space_mem in Hx; [|done|done]. rewrite E in Hx. by apply elem_of_nil in Hx.
Qed.

Lemma trim_with_suffix w2 w3 s : ∃ p, s = p ++ trim_with w2 w3 s.
Proof.
  induction s as [s IH] using list_len_ind.
  assert (∀ p0 r, s = p0 ++ r → p0 ≠ [] → ∃ p, s = p ++ trim_with w2 w3 r) as Hstep.
  { intros p0 r -> Hp0. destruct (IH r) as [p Hp].
    - rewrite length_app. destruct p0; simpl; [done|lia].
    - exists (p0 ++ p). rewrite <-(assoc_L app). by f_equal. }
  destruct s as [|c s1]; [by exists []|]. cbn [trim_with].
  destruct (ws1 c); [by apply (Hstep [c])|].
  destruct s1 as [|d s2]; [by exists []|].
  destruct (w2 c d); [by apply (Hstep [c; d])|].
  destruct s2 as [|e s3]; [by exists []|].
  destruct (w3 c d e); [by apply (Hstep [c; d; e])|by exists []].
Qed.

Lemma ws_free_prefix w2 w3 s t : ws_free w2 w3 (s ++ t) → ws_free w2 w3 s.
Proof. destruct s as [|c [|d [|e s3]]], t as [|? [|? ?]]; simpl; tauto. Qed.

Lemma trim_left_right_free s : ws_free ws2 ws3 s → ws_free ws2 ws3 (trim_right s).
Proof.
  intros H. unfold trim_right.
  destruct (trim_with_suffix (λ a b, ws2 b a) (λ a b c, ws3 c b a) (rev s)) as [p Hp].
  apply (f_equal (@rev _)) in Hp. rewrite rev_involutive, rev_app_distr in Hp.
  rewrite Hp in H. by eapply ws_free_prefix.
Qed.

Lemma trim_right_idemp s : trim_right (trim_right s) = trim_right s.
Proof.
  unfold trim_right. rewrite rev_involutive. f_equal.
  apply trim_with_id, trim_with_free.
Qed.

Lemma trim_space_idemp s : trim_space (trim_space s) = trim_space s.
Proof.
  unfold trim_space. rewrite String.list_ascii_of_string_of_list_ascii. f_equal.
  unfold trim_left at 1. rewrite (trim_with_id _ _ (trim_right _)).
  - apply trim_right_idemp.
  - apply trim_left_right_free, trim_with_free.
Qed.
#[export] Hint Rewrite trim_space_idemp : go_rw.

(** * Prefixes, splitting and joining *)

Definition has_prefix (s p : string) : bool := String.prefix p s.

Fixpoint str_drop (n : nat) (s : string) : string :=
  match n, s with
  | S n, String _ s => str_drop n s
  | _, _ => s
  end.

Definition trim_prefix (s p : string) : string :=
  if has_prefix s p then str_drop (String.length p) s else s.

Definition str_rev (s : string) : string :=
  String.string_of_list_ascii (rev (String.list_ascii_of_string s)).

Definition has_suffix (s p : string) : bool := has_prefix (str_rev s) (str_rev p).

Definition trim_suffix (s p : string) : string :=
  str_rev (trim_prefix (str_rev s) (str_rev p)).

Fixpoint contains (s sub : string) : bool :=
  has_prefix s sub || match s with "" => false | String _ s' => contains s' sub end.

(** [strings.Split] (and [SplitSeq]) with a one-byte separator: never empty. *)
Fixpoint split_on (c : ascii) (s : string) : list string :=
  match s with
  | "" => [""]
  | String a s' =>
      if Ascii.eqb a c then "" :: split_on c s'
      else match split_on c s' with
           | h :: t => String a h :: t
           | [] => [String a ""]
           end
  end.

(** [strings.Join] *)
Definition join (sep : string) (l : list string) : string := String.concat sep l.

(** [strings.Cut] with a one-byte separator, returning before and after. *)
Fixpoint cut (c : ascii) (s : string) : string * string * bool :=
  match s with
  | "" => ("", "", false)
  | String a s' =>
      if Ascii.eqb a c then ("", s', true)
      else let '(b, r, f) := cut c s' in (String a b, r, f)
  end.

Fixpoint has_byte (c : ascii) (s : string) : bool :=
  match s with "" => false | String a s' => Ascii.eqb a c || has_byte c s' end.

Lemma has_prefix_mem s p x :
  has_prefix s p = true → x ∈ String.list_ascii_of_string p → x ∈ String.list_ascii_of_string s.
Proof.
  unfold has_prefix. revert s. induction p as [|a p IH]; intros s H Hx; simpl in *; [by apply elem_of_nil in Hx|].
  destruct s as [|b s]; [done|]. cbn in H. destruct (ascii_dec a b) as [->|]; [|done].
  apply elem_of_cons in Hx as [->|Hx]; [apply list_elem_of_here|]. apply list_elem_of_further. by apply IH.
Qed.

Lemma has_prefix_app s p t : has_prefix s p = true → has_prefix (s +:+ t) p = true.
Proof.
  unfold has_prefix. revert s. induction p as [|a p IH]; intros s H; [by destruct (s +:+ t)|].
  destruct s as [|b s]; [done|]. change (String b s +:+ t) with (String b (s +:+ t)). cbn in *.
  destruct (ascii_dec a b); [|done]. by apply IH.
Qed.

Lemma contains_mem s sub x :
  contains s sub = true → x ∈ String.list_ascii_of_string sub → x ∈ String.list_ascii_of_string s.
Proof.
  induction s as [|a s IH]; cbn [contains]; intros H Hx; apply orb_prop in H as [H|H].
  - by apply (has_prefix_mem "" sub).
  - done.
  - by apply (has_prefix_mem (String a s) sub).
  - apply list_elem_of_further. auto.
Qed.

Lemma str_rev_mem s x : x ∈ String.list_ascii_of_string (str_rev s) ↔ x ∈ String.list_ascii_of_string s.
Proof.
  unfold str_rev. rewrite String.list_ascii_of_string_of_list_ascii, !list_elem_of_In. symmetry. apply in_rev.
Qed.

Lemma split_on_ne c s : split_on c s ≠ [].
Proof. destruct s; simpl; repeat case_match; done. Qed.

Lemma split_on_no c s : has_byte c s = false → split_on c s = [s].
Proof.
  induction s as [|a s IH]; simpl; [done|].
  intros [-> H]%orb_false_elim. by rewrite (IH H).
Qed.

Lemma split_on_app c s t :
  has_byte c s = false → split_on c (s +:+ String c t) = s :: split_on c t.
Proof.
  induction s as [|a s IH]; simpl.
  - intros _. by rewrite Ascii.eqb_refl.
  - intros [-> H]%orb_false_elim. by rewrite (IH H).
Qed.

Lemma split_on_append c s t : split_on c (s +:+ String c t) = split_on c s ++ split_on c t.
Proof.
  induction s as [|a s IH]; simpl; [by rewrite Ascii.eqb_refl|].
  rewrite IH. destruct (Ascii.eqb a c); [done|]. destruct (split_on c s) eqn:E; [by apply split_on_ne in E|done].
Qed.

Lemma split_on_has_byte c s x : x ∈ split_on c s → has_byte c x = false.
Proof.
  revert x. induction s as [|a s IH]; simpl; intros x Hx.
  - apply list_elem_of_singleton in Hx. by subst.
  - destruct (Ascii.eqb a c) eqn:E.
    + apply elem_of_cons in Hx as [->|Hx]; [done|]. by apply IH.
    + destruct (split_on c s) as [|h t] eqn:Es; [by apply split_on_ne in Es|].
      apply elem_of_cons in Hx as [->|Hx].
      * simpl. rewrite E. apply IH. left.
      * apply IH. by right.
Qed.

Lemma join_cons_ne sep x l : l ≠ [] → join sep (x :: l) = x +:+ sep +:+ join sep l.
Proof. destruct l; done. Qed.

Lemma join_split c s : join (String c "") (split_on c s) = s.
Proof.
  induction s as [|a s IH]; simpl; [done|].
  destruct (split_on c s) as [|h t] eqn:Es; [by apply split_on_ne in Es|].
  destruct (Ascii.eqb a c) eqn:E.
  - apply Ascii.eqb_eq in E as ->. rewrite join_cons_ne, IH by done. done.
  - rewrite <-IH. by destruct t.
Qed.

Lemma split_join c l : l ≠ [] → Forall (λ x, has_byte c x = false) l →
  split_on c (join (String c "") l) = l.
Proof.
  induction l as [|x l IH]; [done|]. intros _ H. apply Forall_cons_1 in H as [Hx Hl].
  destruct l as [|y l]; [by apply split_on_no|].
  rewrite join_cons_ne by done.
  change (String c "" +:+ ?t) with (String c t).
  by rewrite split_on_app, IH.
Qed.

(** * Decimal integers *)

(** The value of a string of digits, [None] when a byte is not a digit. *)
Fixpoint digits_val (acc : Z) (s : string) : option Z :=
  match s with
  | "" => Some acc
  | String a s' => if is_digit a then digits_val (acc * 10 + digit_val a) s' else None
  end.

(** [strconv.ParseInt(s, 10, 64)]; [None] is the error (syntax or range). *)
Definition parse_int64 (s : string) : option Z :=
  let '(neg, body) :=
    match s with
    | String a s' =>
        if is_byte 43 a then (false, s') else if is_byte 45 a then (true, s') else (false, s)
    | "" => (false, "")
    end in
  match body with
  | "" => None
  | _ => match digits_val 0 body with
         | Some v => let v := if (neg : bool) then - v else v in
                     if decide (in64 v) then Some v else None
         | None => None
         end
  end.

Lemma parse_int64_in64 s v : parse_int64 s = Some v → in64 v.
Proof. unfold parse_int64. intros. repeat case_match; by simplify_eq. Qed.

Lemma digits_val_nonneg acc s v : 0 <= acc → digits_val acc s = Some v → 0 <= v.
Proof.
  revert acc. induction s as [|c s IH]; intros acc Ha; cbn [digits_val]; [intros [= <-]; done|].
  destruct (is_digit c) eqn:Hd; [|done]. intros H. apply IH in H; [done|].
  unfold is_digit, digit_val in *. lia.
Qed.

Lemma digits_val_mem acc s v x :
  digits_val acc s = Some v → x ∈ String.list_ascii_of_string s → is_digit x = true.
Proof.
  revert acc. induction s as [|c s IH]; intros acc H Hx; simpl in *; [by apply elem_of_nil in Hx|].
  destruct (is_digit c) eqn:D; [|done]. apply elem_of_cons in Hx as [->|Hx]; [done|eauto].
Qed.

(** What an integer is written with. *)
Lemma parse_int64_mem s v x :
  parse_int64 s = Some v → x ∈ String.list_ascii_of_string s → is_digit x = true ∨ byte_of x = 43 ∨ byte_of x = 45.
Proof.
  unfold parse_int64. intros H Hx. destruct s as [|a s]; [done|].
  assert (∀ b, (match b with "" => None | _ =>
      match digits_val 0 b with Some v => Some v | None => None end end : option Z) ≠ None →
      x ∈ String.list_ascii_of_string b → is_digit x = true) as Hd.
  { intros b Hb Hm. destruct b; [done|]. destruct (digits_val 0 _) eqn:E; [|done]. by eapply digits_val_mem. }
  cbn [String.list_ascii_of_string] in Hx. apply elem_of_cons in Hx.
  destruct (is_byte 43 a) eqn:E1; [|destruct (is_byte 45 a) eqn:E2]; unfold is_byte in *.
  - destruct Hx as [->|Hx]; [right; left; lia|left]. apply (Hd s); [|done]. destruct s; [done|]. by destruct (digits_val 0 _).
  - destruct Hx as [->|Hx]; [right; right; lia|left]. apply (Hd s); [|done]. destruct s; [done|]. by destruct (digits_val 0 _).
  - left. apply (Hd (String a s)); [by destruct (digits_val 0 _)|]. by apply elem_of_cons.
Qed.

(** ** Printing *)

(** The digits of [n] in a base up to 16, at most [fuel] of them, before [acc]. *)
Fixpoint fmt_digits (fuel : nat) (base n : Z) (acc : string) : string :=
  match fuel with
  | O => acc
  | S fuel =>
      let d := n mod base in
      let c := if d <? 10 then digit_char d else ascii_of_N (Z.to_N (87 + d)) in
      let acc := String c acc in
      if n <? base then acc else fmt_digits fuel base (n / base) acc
  end.

(** [strconv.FormatInt(n, 10)]: an int64 has at most 19 digits. *)
Definition format_int (n : Z) : string :=
  if n <? 0 then "-" +:+ fmt_digits 20 10 (- n) "" else fmt_digits 20 10 n "".

Lemma digits_val_fmt fuel n rest : 0 <= n < 10 ^ Z.of_nat fuel →
  digits_val 0 (fmt_digits fuel 10 n rest) = digits_val n rest.
Proof.
  revert n rest. induction fuel as [|fuel IH]; intros n rest Hn; [simpl in Hn; by replace n with 0 by lia|].
  cbn [fmt_digits]. pose proof (Z.mod_pos_bound n 10 ltac:(lia)) as Hm.
  rewrite (proj2 (Z.ltb_lt (n mod 10) 10)) by lia.
  destruct (digit_char_spec (n mod 10) Hm) as [Hd Hv].
  destruct (Z.ltb_spec n 10).
  - cbn [digits_val]. rewrite Hd, Hv, Z.mod_small by lia. done.
  - rewrite Nat2Z.inj_succ, Z.pow_succ_r in Hn by lia.
    rewrite IH by (Z.to_euclidean_division_equations; lia). cbn [digits_val]. rewrite Hd, Hv.
    f_equal. pose proof (Z.div_mod n 10). lia.
Qed.

Lemma fmt_digits_first fuel n rest : (0 < fuel)%nat → 0 <= n →
  ∃ c t, fmt_digits fuel 10 n rest = String c t ∧ is_digit c = true.
Proof.
  revert n rest. induction fuel as [|fuel IH]; intros n rest Hf Hn; [lia|]. cbn [fmt_digits].
  pose proof (Z.mod_pos_bound n 10 ltac:(lia)) as Hm. rewrite (proj2 (Z.ltb_lt (n mod 10) 10)) by lia.
  destruct (digit_char_spec (n mod 10) Hm) as [Hd _].
  destruct (n <? 10); [by eexists _, _|]. destruct fuel as [|fuel]; [by eexists _, _|].
  apply IH; [lia|]. apply Z.div_pos; lia.
Qed.

Lemma format_parse_int n : in64 n → parse_int64 (format_int n) = Some n.
Proof.
  intros Hn. assert (∀ m, 0 <= m <= 2 ^ 63 → digits_val 0 (fmt_digits 20 10 m "") = Some m) as Hd.
  { intros m Hm. rewrite digits_val_fmt; [done|]. change (10 ^ Z.of_nat 20) with (10 ^ 20). lia. }
  unfold format_int, parse_int64. unfold in64 in *. destruct (Z.ltb_spec n 0).
  - destruct (fmt_digits_first 20 (- n) "" ltac:(lia) ltac:(lia)) as (c & t & Hf & Hc).
    specialize (Hd (- n) ltac:(lia)). rewrite Hf in *. change ("-" +:+ String c t) with (String "-" (String c t)).
    cbv iota beta. change (is_byte 43 "-") with false. change (is_byte 45 "-") with true. cbv iota beta.
    rewrite Hd. cbv zeta. replace (- - n) with n by lia. by rewrite decide_True.
  - destruct (fmt_digits_first 20 n "" ltac:(lia) ltac:(lia)) as (c & t & Hf & Hc).
    specialize (Hd n ltac:(lia)). rewrite Hf in *.
    assert (is_byte 43 c = false ∧ is_byte 45 c = false) as [-> ->] by (unfold is_digit, is_byte in *; lia).
    rewrite Hd. by rewrite decide_True.
Qed.

(** Bytes that are no white space, alone or at either end of a rune. *)
Definition graphic (a : ascii) : bool := (33 <=? byte_of a) && (byte_of a <=? 126).

Lemma graphic_stop w2 w3 c s :
  (w2 = ws2 ∧ w3 = ws3) ∨ (w2 = (λ a b, ws2 b a) ∧ w3 = (λ a b c, ws3 c b a)) → graphic c = true → trim_with w2 w3 (c :: s) = c :: s.
Proof.
  intros Hw Hc. unfold graphic in Hc.
  assert (ws1 c = false ∧ (∀ d, w2 c d = false) ∧ (∀ d e, w3 c d e = false)) as (H1 & H2 & H3).
  { split_and!.
    - unfold ws1. cbv zeta. lia.
    - intros d. destruct Hw as [[-> _]|[-> _]]; unfold ws2, is_byte; lia.
    - intros d e. destruct Hw as [[_ ->]|[_ ->]]; unfold ws3, is_byte; lia. }
  destruct s as [|d [|e s]]; cbn [trim_with]; rewrite ?H1, ?H2, ?H3; done.
Qed.

Lemma graphic_trim_left c s : graphic c = true → trim_left (c :: s) = c :: s.
Proof. apply graphic_stop. by left. Qed.
Lemma graphic_trim_right c s : graphic c = true → trim_right (s ++ [c]) = s ++ [c].
Proof.
  intros Hc. unfold trim_right. rewrite rev_app_distr. cbn [rev app]. rewrite graphic_stop by (by right || done).
  cbn [rev]. by rewrite rev_involutive.
Qed.

Lemma graphic_trim_space s : forallb graphic (String.list_ascii_of_string s) = true → trim_space s = s.
Proof.
  intros H. unfold trim_space. destruct (String.list_ascii_of_string s) as [|c l] eqn:E; [by rewrite <- (String.string_of_list_ascii_of_string s), E|].
  cbn [forallb] in H. apply andb_prop in H as [Hc Hl]. rewrite graphic_trim_left by done.
  assert (∃ l' d, c :: l = l' ++ [d] ∧ graphic d = true) as (l' & d & Hd & Hg).
  { destruct (exists_last (l := c :: l)) as (l' & d & Hd); [done|]. exists l', d. split; [done|].
    assert (forallb graphic (c :: l) = true) as Hf by (cbn; by rewrite Hc). rewrite Hd, forallb_app in Hf.
    apply andb_prop in Hf as [_ Hf]. cbn in Hf. by rewrite andb_true_r in Hf. }
  rewrite Hd, graphic_trim_right, <- Hd, <- E by done. apply String.string_of_list_ascii_of_string.
Qed.

Lemma graphic_fmt_digits fuel n acc : 0 <= n → forallb graphic (String.list_ascii_of_string acc) = true → forallb graphic (String.list_ascii_of_string (fmt_digits fuel 10 n acc)) = true.
Proof.
  revert n acc. induction fuel as [|fuel IH]; intros n acc Hn Ha; [done|]. cbn [fmt_digits].
  pose proof (Z.mod_pos_bound n 10 ltac:(lia)) as Hm. rewrite (proj2 (Z.ltb_lt (n mod 10) 10)) by lia.
  destruct (digit_char_spec (n mod 10) Hm) as [Hd _].
  assert (forallb graphic (String.list_ascii_of_string (String (digit_char (n mod 10)) acc)) = true) as Hc.
  { cbn. rewrite Ha, andb_true_r. unfold graphic, is_digit in *. lia. }
  destruct (n <? 10); [done|]. apply IH; [apply Z.div_pos; lia|done].
Qed.

(** An integer is written without white space. *)
Lemma graphic_format_int n : forallb graphic (String.list_ascii_of_string (format_int n)) = true.
Proof.
  unfold format_int. destruct (n <? 0) eqn:E; bool_to_prop; [change (forallb graphic (String.list_ascii_of_string (fmt_digits 20 10 (- n) "")) = true)|];
    apply graphic_fmt_digits; lia || done.
Qed.

(** The longest prefix of digits and the rest. *)
Fixpoint span_digits (s : string) : string * string :=
  match s with
  | String a s' => if is_digit a then let '(d, r) := span_digits s' in (String a d, r) else ("", s)
  | "" => ("", "")
  end.

(** [SkipSpace] of [fmt.Sscanf]: white space is skipped, a newline (not part
    of a carriage return, newline pair at the end) is an error. *)
Fixpoint scan_skip (s : list ascii) : option (list ascii) :=
  match s with
  | [] => Some []
  | c :: s1 =>
      if is_byte 10 c then None
      else if ws1 c then scan_skip s1
      else match s1 with
           | [] => Some s
           | d :: s2 =>
               if ws2 c d then scan_skip s2
               else match s2 with
                    | [] => Some s
                    | e :: s3 => if ws3 c d e then scan_skip s3 else Some s
                    end
           end
  end.

(** The [%d] verb of [fmt.Sscanf] for an [*int]: optional white space, an
    optional sign, at least one digit; the rest of the input is returned. *)
Definition scan_int (s : string) : option (Z * string) :=
  s ← String.string_of_list_ascii <$> scan_skip (String.list_ascii_of_string s);
  let '(sign, body) :=
    match s with
    | String a s' => if is_byte 43 a || is_byte 45 a then (String a "", s') else ("", s)
    | "" => ("", "")
    end in
  let '(ds, rest) := span_digits body in
  v ← parse_int64 (sign +:+ ds);
  Some (v, rest).

(** [fmt.Sscanf(s, "%d:%d", &h, &m)]; input after the second integer is
    ignored, as [Sscanf] does. *)
Definition sscanf_d_colon_d (s : string) : option (Z * Z) :=
  '(h, r) ← scan_int s;
  match r with
  | String a r' =>
      if is_byte 58 a then '(m, _) ← scan_int r'; Some (h, m) else None
  | "" => None
  end.

(** The [%02d] verb on a value in [0, 100). *)
Definition fmt_02d (n : Z) : string :=
  String (digit_char (n / 10)) (String (digit_char (n mod 10)) "").

(** [strings.Compare] *)
Definition strings_compare (a b : string) : Z :=
  match String.compare a b with Lt => -1 | Eq => 0 | Gt => 1 end.
