(* ===== verification/PollSchedule.v ===== *)
(** Poll scheduling arithmetic ([storage/poll_schedule.go] and
    [RefreshAllSpread] of [storage/polling.go]): the interval of a healthy
    feed, the exponential error backoff and the adaptive interval.  Durations
    are int64 nanoseconds, products wrap. *)

From S2P Require Import Prelude.

(** * Definitions *)

(** storage/poll_schedule.go [clampPollDuration] A non-positive bound is absent. *)
Definition clampPollDuration (d min max : Z) : Z :=
  if (0 <? min) && (d <? min) then min
  else if (0 <? max) && (max <? d) then max
  else d.

(** storage/poll_schedule.go [feedBasePollInterval] *)
Definition feedBasePollInterval (intervalMinutes min max : Z) : Z :=
  clampPollDuration (wrap64 (intervalMinutes * minute)) min max.

(** storage/poll_schedule.go [FeedNextCheckAt] *)
Definition FeedNextCheckAt (from intervalMinutes min max : Z) : Z :=
  time_add from (feedBasePollInterval intervalMinutes min max).

(** storage/poll_schedule.go [FeedErrorPollDelay] The product of the
    base and the power of two is an int64 multiplication. *)
Definition FeedErrorPollDelay (intervalMinutes errorCount min max : Z) : Z :=
  let errorCount := if errorCount <=? 0 then 1 else errorCount in
  let base := feedBasePollInterval intervalMinutes min max in
  let shift := if 30 <? errorCount then 30 else errorCount in
  let mult := wrap64 (Z.shiftl 1 shift) in
  let delay := wrap64 (base * mult) in
  clampPollDuration delay min max.

(** storage/poll_schedule.go [FeedNextCheckAfterError] *)
Definition FeedNextCheckAfterError (from intervalMinutes errorCount min max : Z) : Z :=
  time_add from (FeedErrorPollDelay intervalMinutes errorCount min max).

(** storage/poll_schedule.go [AdaptivePollWindow] *)
Definition AdaptivePollWindow : Z := 7 * 24 * hour.

(** storage/poll_schedule.go:73-75 [AdaptivePollInterval, the doubling loop]
    [fuel] iterations at most; the loop counter starts at [weeks] and the body
    runs while it exceeds one, so [weeks - 1] iterations are enough. *)
Fixpoint adaptive_double (fuel : nat) (d hardMax : Z) : Z :=
  match fuel with
  | O => d
  | S fuel => if d <? hardMax then adaptive_double fuel (wrap64 (d * 2)) hardMax else d
  end.

(** storage/poll_schedule.go [AdaptivePollInterval] *)
Definition AdaptivePollInterval (base weeklyItems silentFor max hardMax : Z) : Z :=
  if max <=? base then base
  else if 0 <? weeklyItems then
    clampPollDuration (Z.quot (Z.quot AdaptivePollWindow weeklyItems) 2) base max
  else
    let hardMax := if hardMax <? max then max else hardMax in
    let weeks := Z.quot silentFor AdaptivePollWindow in
    clampPollDuration (adaptive_double (Z.to_nat (weeks - 1)) max hardMax) base hardMax.

(** storage/polling.go [RefreshAllSpread] *)
Definition RefreshAllSpread (n : Z) : Z :=
  Z.min (wrap64 (wrap64 n * (100 * millisecond))) minute.

(** * Lemmas *)

Lemma clamp_in_bounds d min max : 0 < min → min <= max →
  min <= clampPollDuration d min max <= max.
Proof. unfold clampPollDuration. intros. repeat case_match; bool_to_prop; try lia. Qed.

(** With both bounds present clamping is [min]/[max] of the mathematics. *)
Lemma clamp_eq d min max : 0 < min → min <= max →
  clampPollDuration d min max = Z.min max (Z.max min d).
Proof. unfold clampPollDuration. intros. repeat case_match; bool_to_prop; destruct_or?; bool_to_prop; lia. Qed.

Lemma clamp_mono d e min max : 0 < min → min <= max → d <= e →
  clampPollDuration d min max <= clampPollDuration e min max.
Proof. intros. rewrite !clamp_eq by done. lia. Qed.
#[export] Hint Resolve clamp_in_bounds clamp_mono : go.

(** The backoff without overflow: [base * 2^k], cut at the maximum. *)
Definition backoff_spec (base k max : Z) : Z := Z.min max (base * 2 ^ k).

Lemma base_in_bounds m min max : 0 < min → min <= max →
  min <= feedBasePollInterval m min max <= max.
Proof. unfold feedBasePollInterval. auto with go. Qed.

Lemma shiftl_mult k : 0 <= k <= 30 → wrap64 (Z.shiftl 1 k) = 2 ^ k.
Proof.
  intros Hk. rewrite Z.shiftl_1_l. apply wrap64_id. unfold in64.
  assert (2 ^ k <= 2 ^ 30) by (apply Z.pow_le_mono_r; lia).
  assert (0 < 2 ^ k) by (apply Z.pow_pos_nonneg; lia).
  assert (2 ^ 30 < 2 ^ 63) by reflexivity. lia.
Qed.

Lemma error_delay_unfold m k min max : 1 <= k <= 30 →
  FeedErrorPollDelay m k min max =
  clampPollDuration (wrap64 (feedBasePollInterval m min max * 2 ^ k)) min max.
Proof.
  intros Hk. unfold FeedErrorPollDelay.
  destruct (Z.leb_spec k 0); [lia|]. destruct (Z.ltb_spec 30 k); [lia|].
  by rewrite shiftl_mult by lia.
Qed.

Lemma adaptive_double_spec n d h :
  0 < d → d <= h → h <= 2 ^ 62 →
  Z.min h (adaptive_double n d h) = Z.min h (d * 2 ^ Z.of_nat n) ∧
  d <= adaptive_double n d h.
Proof.
  revert d. induction n as [|n IH]; intros d Hd Hdh Hh; cbn [adaptive_double].
  - change (2 ^ Z.of_nat 0) with 1. lia.
  - assert (2 ^ Z.of_nat (S n) = 2 * 2 ^ Z.of_nat n) as Hp
      by (rewrite Nat2Z.inj_succ; apply Z.pow_succ_r; lia).
    assert (1 <= 2 ^ Z.of_nat n) by (apply (Z.pow_le_mono_r 2 0); lia).
    destruct (Z.ltb_spec d h) as [Hlt|Hge]; [|rewrite Hp; split; nia].
    rewrite wrap64_id by (unfold in64; assert (2 ^ 63 = 2 * 2 ^ 62) by reflexivity; lia).
    destruct (decide (d * 2 <= h)) as [Hle|Hgt].
    + destruct (IH (d * 2)) as [IH1 IH2]; [lia..|].
      rewrite IH1, Hp. split; [f_equal; ring|lia].
    + assert (adaptive_double n (d * 2) h = d * 2) as ->.
      { destruct n; cbn; [done|]. by destruct (Z.ltb_spec (d * 2) h); [lia|]. }
      rewrite Hp. split; nia.
Qed.

(** * Properties *)

(** With both bounds present, the error backoff always lands inside
    [min, max]; while [base * 2^errors] fits int64 it is exactly
    [min(max, base * 2^errors)] with the error count read as at least one, and
    it never shrinks when one more failure is counted. *)
Lemma error_backoff_spec (m k min max : Z)
    (Hmin : 0 < min) (Hmax : min <= max) :
  min <= FeedErrorPollDelay m k min max <= max ∧
  (Z.max 1 k <= 30 → feedBasePollInterval m min max * 2 ^ Z.max 1 k < 2 ^ 63 →
   FeedErrorPollDelay m k min max =
     backoff_spec (feedBasePollInterval m min max) (Z.max 1 k) max) ∧
  (Z.max 1 (k + 1) <= 30 → feedBasePollInterval m min max * 2 ^ Z.max 1 (k + 1) < 2 ^ 63 →
   FeedErrorPollDelay m k min max <= FeedErrorPollDelay m (k + 1) min max).
Proof.
  pose proof (base_in_bounds m min max Hmin Hmax) as Hb.
  assert (∀ j, Z.max 1 j <= 30 → feedBasePollInterval m min max * 2 ^ Z.max 1 j < 2 ^ 63 →
    FeedErrorPollDelay m j min max
    = backoff_spec (feedBasePollInterval m min max) (Z.max 1 j) max) as Hexact.
  { intros j Hj Hov.
    assert (FeedErrorPollDelay m j min max = FeedErrorPollDelay m (Z.max 1 j) min max) as ->.
    { unfold FeedErrorPollDelay. destruct (Z.leb_spec j 0), (Z.leb_spec (Z.max 1 j) 0);
        try lia; [by rewrite (Z.max_l 1 j) by lia|by rewrite (Z.max_r 1 j) by lia]. }
    rewrite error_delay_unfold by lia.
    assert (2 <= 2 ^ Z.max 1 j) by (apply (Z.pow_le_mono_r 2 1); lia).
    rewrite wrap64_id by (unfold in64; nia).
    rewrite clamp_eq by done. unfold backoff_spec. nia. }
  split; [unfold FeedErrorPollDelay; auto with go|]. split; [apply Hexact|].
  intros Hk Hov.
  assert (2 ^ Z.max 1 k <= 2 ^ Z.max 1 (k + 1)) by (apply Z.pow_le_mono_r; lia).
  rewrite !Hexact by first [lia | nia]. unfold backoff_spec. nia.
Qed.

Lemma error_backoff_spec_witness :
  FeedErrorPollDelay 60 3 minute (24 * hour) = 8 * hour ∧
  FeedErrorPollDelay 60 3 minute (24 * hour) <= FeedErrorPollDelay 60 4 minute (24 * hour).
Proof.
  split.
  - refine (eq_trans (proj1 (proj2 (error_backoff_spec 60 3 minute (24 * hour) _ _)) _ _) _);
      vm_compute; congruence.
  - apply (error_backoff_spec 60 3 minute (24 * hour)); vm_compute; congruence.
Defined.

(** The int64 product of the backoff overflows for a large error count: an
    hourly feed waits the full maximum of 24 h after its 21st consecutive
    failure and only the minimum of one minute after its 22nd.  The breaker
    hides this at its default threshold of 10 but
    [FEED_CIRCUIT_BREAKER_THRESHOLD] has no upper bound. *)
Lemma error_backoff_overflow :
  FeedErrorPollDelay 60 21 minute (24 * hour) = 24 * hour ∧
  FeedErrorPollDelay 60 22 minute (24 * hour) = minute.
Proof. split; vm_compute; reflexivity. Qed.

(** The adaptive interval never goes below the feed's own interval nor
    above the larger of the two ceilings; a publishing feed waits half its
    average gap inside [base, max]; a silent one waits [max], doubled once per
    full week of silence after the first, up to [hardMax]. *)
Lemma adaptive_interval_spec (base items silent max hardMax : Z)
    (Hbase : 0 < base) (Hsilent : 0 <= silent)
    (Hmax : max <= 2 ^ 62) (Hhard : hardMax <= 2 ^ 62) :
  let r := AdaptivePollInterval base items silent max hardMax in
  let ceiling := Z.max max hardMax in
  (max <= base → r = base) ∧
  (base < max → base <= r <= ceiling) ∧
  (base < max → 0 < items → r = Z.min max (Z.max base (Z.quot (Z.quot AdaptivePollWindow items) 2))) ∧
  (base < max → items <= 0 →
   r = Z.min ceiling (max * 2 ^ Z.max 0 (silent / AdaptivePollWindow - 1))).
Proof.
  intros r ceiling. subst r ceiling. unfold AdaptivePollInterval.
  destruct (Z.leb_spec max base) as [Hle|Hlt]; [repeat split; lia|].
  split; [lia|].
  destruct (Z.ltb_spec 0 items) as [Hi|Hi].
  { rewrite clamp_eq by lia. repeat split; intros; lia. }
  assert ((if hardMax <? max then max else hardMax) = Z.max max hardMax) as ->
    by (destruct (Z.ltb_spec hardMax max); lia).
  rewrite Z.quot_div_nonneg by (done || reflexivity).
  set (w := silent / AdaptivePollWindow). set (h := Z.max max hardMax).
  destruct (adaptive_double_spec (Z.to_nat (w - 1)) max h) as [H1 H2]; [lia..|].
  rewrite clamp_eq by lia.
  assert (Z.of_nat (Z.to_nat (w - 1)) = Z.max 0 (w - 1)) as Hw by lia.
  rewrite Hw in H1. repeat split; intros; lia.
Qed.

Lemma adaptive_interval_spec_witness :
  AdaptivePollInterval (30 * minute) 0 (3 * AdaptivePollWindow) (6 * hour) (24 * hour) = 24 * hour.
Proof.
  refine (eq_trans (proj2 (proj2 (proj2 (adaptive_interval_spec (30 * minute) 0
    (3 * AdaptivePollWindow) (6 * hour) (24 * hour) _ _ _ _))) _ _) _);
  vm_compute; congruence.
Defined.

(** The spread of a refresh-all stays within a minute. *)
Lemma refresh_spread_bounds n : 0 <= n < 2 ^ 32 → 0 <= RefreshAllSpread n <= minute.
Proof.
  intros Hn. unfold RefreshAllSpread.
  assert (2 ^ 32 < 2 ^ 63) by reflexivity.
  rewrite (wrap64_id n) by (unfold in64; lia).
  rewrite wrap64_id; [unfold millisecond, minute, second; lia|].
  unfold in64, millisecond. assert (2 ^ 32 * 100000000 < 2 ^ 63) by reflexivity. lia.
Qed.
