(* ===== verification/PollWindow.v ===== *)
(** Daily polling windows of a category ([storage/poll_window.go]): the parser
    and printer of ["HH:MM-HH:MM"], membership of an instant and the next
    opening.  The process time zone ([time.Local]) is a parameter: a function
    giving the offset in seconds east of UTC in force at a Unix second. *)

From S2P Require Import Prelude GoStrings.
From Stdlib Require Import Ascii.

(** * Definitions *)

(** storage/poll_window.go [PollWindow] *)
Record PollWindow := mkPollWindow {
  pw_start : Z; (* minutes since midnight *)
  pw_end : Z;
}.

#[export] Instance PollWindow_eq_dec : EqDecision PollWindow.
Proof. solve_decision. Defined.

(** storage/poll_window.go [parseMinuteOfDay] [None] is
    [ErrInvalidPollHours]. *)
Definition parseMinuteOfDay (s : string) : option Z :=
  '(h, m) ← sscanf_d_colon_d (trim_space s);
  if (h <? 0) || (23 <? h) || (m <? 0) || (59 <? m) then None
  else Some (h * 60 + m).

(** storage/poll_window.go [ParsePollHours] [None] is the error,
    [Some None] the empty input without a window. *)
Definition ParsePollHours (s : string) : option (option PollWindow) :=
  let s := trim_space s in
  if String.eqb s "" then Some None
  else match split_on "-"%char s with
       | [a; b] =>
           start ← parseMinuteOfDay a;
           end_ ← parseMinuteOfDay b;
           if start =? end_ then None else Some (Some (mkPollWindow start end_))
       | _ => None
       end.

(** storage/poll_window.go [NormalizePollHours] *)
Definition NormalizePollHours (s : string) : option string :=
  match ParsePollHours s with
  | None => None
  | Some None => Some ""
  | Some (Some w) =>
      Some (fmt_02d (Z.quot (pw_start w) 60) +:+ ":" +:+ fmt_02d (Z.rem (pw_start w) 60)
            +:+ "-" +:+ fmt_02d (Z.quot (pw_end w) 60) +:+ ":" +:+ fmt_02d (Z.rem (pw_end w) 60))
  end.

Section Local_time.
(** Offset of the process time zone at a Unix second. *)
Context (zone : Z → Z).

Definition unix (t : Z) : Z := t / second.

(** Seconds of the local wall clock, counted from the epoch. *)
Definition local_seconds (t : Z) : Z := unix t + zone (unix t).

(** storage/poll_window.go [minuteOfDay] [Hour()*60 + Minute()] of the local time. *)
Definition minuteOfDay (t : Z) : Z := (local_seconds t mod 86400) / 60.

(** [time.Date]: the instant whose local clock shows [local] seconds, using
    the offset in force there as Go's lookup finds it. *)
Definition time_date (local : Z) : Z :=
  (if zone local =? 0 then local else local - zone (local - zone local)) * second.

(** storage/poll_window.go [PollWindow.Contains] *)
Definition pw_contains (w : PollWindow) (t : Z) : bool :=
  let m := minuteOfDay t in
  if pw_start w <? pw_end w then (pw_start w <=? m) && (m <? pw_end w)
  else (pw_start w <=? m) || (m <? pw_end w).

(** storage/poll_window.go [PollWindow.NextOpen] *)
Definition pw_next_open (w : PollWindow) (t : Z) : Z :=
  if pw_contains w t then t
  else
    let open := time_date (local_seconds t / 86400 * 86400 + pw_start w * 60) in
    if time_after open t then open
    else time_date (local_seconds open + 86400).
End Local_time.

(** * Lemmas *)

(** What the parser guarantees: two distinct minutes of a day. *)
Definition pw_wf (w : PollWindow) : Prop :=
  0 <= pw_start w < 1440 ∧ 0 <= pw_end w < 1440 ∧ pw_start w ≠ pw_end w.

#[export] Instance pw_wf_dec w : Decision (pw_wf w).
Proof. unfold pw_wf. apply _. Defined.

Lemma parseMinuteOfDay_bounds s m : parseMinuteOfDay s = Some m → 0 <= m < 1440.
Proof.
  unfold parseMinuteOfDay. destruct (sscanf_d_colon_d _) as [[h k]|]; [|done]. simpl.
  intros. case_match; bool_to_prop; [done|]. simplify_eq. lia.
Qed.

Lemma ParsePollHours_wf s w : ParsePollHours s = Some (Some w) → pw_wf w.
Proof.
  unfold ParsePollHours. case_match; [done|].
  destruct (split_on _ _) as [|a [|b [|]]]; try done.
  destruct (parseMinuteOfDay a) as [x|] eqn:Ha; [|done].
  destruct (parseMinuteOfDay b) as [y|] eqn:Hb; [|done]. simpl.
  apply parseMinuteOfDay_bounds in Ha, Hb.
  case_match; bool_to_prop; [done|]. intros. simplify_eq. split_and!; simpl; lia.
Qed.

(** The printed form of one minute of the day. *)
Definition fmt_minute (m : Z) : string := fmt_02d (Z.quot m 60) +:+ ":" +:+ fmt_02d (Z.rem m 60).

(** Both facts are decided for all 1440 minutes by computation. *)
Definition fmt_minute_ok (m : Z) : bool :=
  bool_decide (parseMinuteOfDay (fmt_minute m) = Some m) && negb (has_byte "-"%char (fmt_minute m)).

Lemma fmt_minute_all : forallb (λ n, fmt_minute_ok (Z.of_nat n)) (seq 0 1440) = true.
Proof. vm_compute. reflexivity. Qed.

Lemma fmt_minute_spec m : 0 <= m < 1440 →
  parseMinuteOfDay (fmt_minute m) = Some m ∧ has_byte "-"%char (fmt_minute m) = false.
Proof.
  intros Hm. pose proof (proj1 (forallb_forall _ _) fmt_minute_all (Z.to_nat m)) as H.
  cbv beta in H. rewrite Z2Nat.id in H by lia. unfold fmt_minute_ok in H.
  rewrite andb_true_iff, negb_true_iff, bool_decide_eq_true in H.
  apply H, in_seq. lia.
Qed.

Definition digit_not_ws (d : ascii) : Prop :=
  ws1 d = false ∧ (∀ e, ws2 d e = false) ∧ (∀ e f, ws3 d e f = false).

Lemma is_digit_not_ws d : is_digit d = true → digit_not_ws d.
Proof.
  unfold is_digit. intros H. bool_to_prop. unfold digit_not_ws, ws1, ws2, ws3, is_byte.
  split_and!; intros; repeat match goal with
  | |- context [byte_of d <=? ?n] => destruct (Z.leb_spec (byte_of d) n); try lia
  | |- context [?n <=? byte_of d] => destruct (Z.leb_spec n (byte_of d)); try lia
  | |- context [byte_of d =? ?n] => destruct (Z.eqb_spec (byte_of d) n); try lia
  end; done.
Qed.

Lemma digit_char_not_ws n : 0 <= n < 10 → digit_not_ws (digit_char n).
Proof. intros H. by apply is_digit_not_ws, digit_char_spec. Qed.

(** A string that begins and ends with two digits around a colon is not trimmed. *)
Lemma trim_space_clock a b c d e f g h : 
  digit_not_ws a → digit_not_ws b → digit_not_ws g → digit_not_ws h →
  let s := String a (String b (String ":"%char (String c (String d (String "-"%char (String e
             (String f (String ":"%char (String g (String h "")))))))))) in
  trim_space s = s.
Proof.
  intros (Ha1 & Ha2 & Ha3) (Hb1 & Hb2 & Hb3) (Hg1 & Hg2 & Hg3) (Hh1 & Hh2 & Hh3) s. subst s.
  unfold trim_space, trim_left, trim_right. cbn [String.list_ascii_of_string].
  cbn [trim_with]. rewrite Ha1, Ha2, Ha3. cbn [rev app trim_with].
  rewrite Hh1, Hg2. done.
Qed.

Lemma fmt_window_eq x y : fmt_minute x +:+ "-" +:+ fmt_minute y =
  fmt_02d (Z.quot x 60) +:+ ":" +:+ fmt_02d (Z.rem x 60)
            +:+ "-" +:+ fmt_02d (Z.quot y 60) +:+ ":" +:+ fmt_02d (Z.rem y 60).
Proof. reflexivity. Qed.

Lemma parse_fmt_window w : pw_wf w →
  ParsePollHours (fmt_minute (pw_start w) +:+ "-" +:+ fmt_minute (pw_end w)) = Some (Some w).
Proof.
  intros (Hs & He & Hne). unfold ParsePollHours.
  set (x := fmt_minute (pw_start w) +:+ "-" +:+ fmt_minute (pw_end w)).
  assert (trim_space x = x) as ->.
  { subst x. refine (trim_space_clock _ _ _ _ _ _ _ _ _ _ _ _);
      apply digit_char_not_ws; Z.to_euclidean_division_equations; lia. }
  subst x.
  destruct (fmt_minute_spec _ Hs) as [Ps Ns], (fmt_minute_spec _ He) as [Pe Ne].
  change (String.eqb _ "") with false. cbv iota.
  change (split_on "-"%char _) with
    (split_on "-"%char (fmt_minute (pw_start w) +:+ String "-"%char (fmt_minute (pw_end w)))).
  rewrite split_on_app, (split_on_no _ _ Ne) by done. rewrite Ps, Pe. simpl.
  destruct (Z.eqb_spec (pw_start w) (pw_end w)); [done|]. by destruct w.
Qed.

(** The window test on local seconds. *)
Definition in_window (w : PollWindow) (x : Z) : bool :=
  let m := (x mod 86400) / 60 in
  if pw_start w <? pw_end w then (pw_start w <=? m) && (m <? pw_end w)
  else (pw_start w <=? m) || (m <? pw_end w).

(** The first local second of the window at or after [x], when [x] is outside. *)
Definition local_open (w : PollWindow) (x : Z) : Z :=
  let s := x / 86400 * 86400 + pw_start w * 60 in
  if x <? s then s else s + 86400.

Lemma in_window_spec w q x : 0 <= x < 86400 →
  in_window w (86400 * q + x) = true ↔
  (if decide (pw_start w < pw_end w) then 60 * pw_start w <= x ∧ x < 60 * pw_end w
   else 60 * pw_start w <= x ∨ x < 60 * pw_end w).
Proof.
  intros Hx. unfold in_window.
  assert ((86400 * q + x) mod 86400 = x) as ->
    by (rewrite Z.add_comm, Z.mul_comm, Z.mod_add by lia; by apply Z.mod_small).
  assert (60 * (x / 60) <= x < 60 * (x / 60) + 60) by (Z.to_euclidean_division_equations; lia).
  destruct (Z.ltb_spec (pw_start w) (pw_end w)); case_decide; try lia;
    rewrite ?andb_true_iff, ?orb_true_iff, !Z.leb_le, !Z.ltb_lt; lia.
Qed.

Lemma in_window_false w q x : 0 <= x < 86400 → in_window w (86400 * q + x) = false ↔
  ¬ (if decide (pw_start w < pw_end w) then 60 * pw_start w <= x ∧ x < 60 * pw_end w
     else 60 * pw_start w <= x ∨ x < 60 * pw_end w).
Proof. intros Hx. rewrite <-(in_window_spec w q x Hx). by rewrite not_true_iff_false. Qed.

Lemma local_open_spec w x : pw_wf w → in_window w x = false →
  x < local_open w x < x + 86400 ∧ in_window w (local_open w x) = true ∧
  (∀ y, x <= y < local_open w x → in_window w y = false).
Proof.
  intros (Hs & He & Hne). unfold local_open.
  pose proof (Z.div_mod x 86400 ltac:(lia)) as Hx. pose proof (Z.mod_pos_bound x 86400 ltac:(lia)).
  set (q := x / 86400) in *. set (r := x mod 86400) in *. clearbody q r. subst x.
  intros Hout. rewrite in_window_false in Hout by lia.
  assert (∀ k, k = q ∨ k = q + 1 → in_window w (k * 86400 + pw_start w * 60) = true) as Hopen.
  { intros k _. replace (k * 86400) with (86400 * k) by lia.
    apply in_window_spec; [lia|]. case_decide; lia. }
  destruct (Z.ltb_spec (86400 * q + r) (q * 86400 + pw_start w * 60)).
  - split_and!; [lia|lia|apply Hopen; lia|]. intros y Hy.
    replace y with (86400 * q + (y - 86400 * q)) by lia.
    apply in_window_false; [lia|]. case_decide; lia.
  - split_and!; [case_decide; lia|case_decide; lia| |].
    + replace (q * 86400 + pw_start w * 60 + 86400) with ((q + 1) * 86400 + pw_start w * 60) by lia.
      apply Hopen. lia.
    + intros y Hy. destruct (decide (y < 86400 * (q + 1))).
      * replace y with (86400 * q + (y - 86400 * q)) by lia.
        apply in_window_false; [lia|]. case_decide; lia.
      * replace y with (86400 * (q + 1) + (y - 86400 * (q + 1))) by lia.
        apply in_window_false; [lia|]. case_decide; lia.
Qed.

Lemma fixed_zone_contains zone o w t : (∀ u, zone u = o) →
  pw_contains zone w t = in_window w (t / second + o).
Proof. intros Hz. unfold pw_contains, in_window, minuteOfDay, local_seconds, unix. by rewrite Hz. Qed.

Lemma fixed_zone_date zone o x : (∀ u, zone u = o) → time_date zone x = (x - o) * second.
Proof.
  intros Hz. unfold time_date. rewrite !Hz. destruct (Z.eqb_spec o 0); [|done].
  subst. by rewrite Z.sub_0_r.
Qed.

Lemma fixed_zone_next_open zone o w t : (∀ u, zone u = o) → pw_contains zone w t = false →
  pw_next_open zone w t = (local_open w (t / second + o) - o) * second.
Proof.
  intros Hz Hc. unfold pw_next_open. rewrite Hc.
  rewrite !(fixed_zone_date _ o) by done.
  unfold local_seconds, unix. rewrite !Hz.
  unfold time_after, local_open, second.
  set (L := t / 1000000000 + o). set (S := L / 86400 * 86400 + pw_start w * 60).
  rewrite Z.div_mul by done.
  assert ((t <? (S - o) * 1000000000) = (L <? S)) as ->.
  { subst L. apply eq_bool_prop_intro; rewrite !Is_true_true, !Z.ltb_lt.
    Z.to_euclidean_division_equations; lia. }
  destruct (L <? S); f_equal; lia.
Qed.

(** In a zone with a fixed offset. *)
Lemma fixed_zone_open (zone : Z → Z) (o : Z) (w : PollWindow) (t : Z)
    (Hzone : ∀ u, zone u = o) (Hw : pw_wf w) :
  let r := pw_next_open zone w t in
  t <= r < t + 24 * hour ∧ pw_contains zone w r = true ∧
  (∀ u, t <= u < r → pw_contains zone w u = false).
Proof.
  intros r. subst r. destruct (pw_contains zone w t) eqn:Hc.
  { unfold pw_next_open. rewrite Hc. split_and!; [unfold hour, minute, second; lia..|done|lia]. }
  rewrite (fixed_zone_next_open zone o) by done.
  assert (∀ u, pw_contains zone w u = in_window w (u / second + o)) as Hct
    by (intros; by apply fixed_zone_contains).
  rewrite Hct in Hc |- *. setoid_rewrite Hct.
  destruct (local_open_spec _ _ Hw Hc) as (Hlt & Hin & Hmin).
  set (X := local_open w (t / second + o)) in *. clearbody X.
  unfold hour, minute, second in *. split_and!.
  - Z.to_euclidean_division_equations; lia.
  - Z.to_euclidean_division_equations; lia.
  - rewrite Z.div_mul by done. by replace (X - o + o) with X by lia.
  - intros u Hu. apply Hmin. Z.to_euclidean_division_equations; lia.
Qed.

(** * Properties *)

(** Normalising a poll-hours string keeps the window it denotes: the
    canonical text parses to the same window as the input, is its own normal
    form, and every parsed window has two distinct minutes of the day. *)
Lemma normalize_poll_hours_roundtrip (s c : string)
    (H : NormalizePollHours s = Some c) :
  ParsePollHours c = ParsePollHours s ∧ NormalizePollHours c = Some c ∧
  (∀ w, ParsePollHours s = Some (Some w) → pw_wf w).
Proof.
  unfold NormalizePollHours in *.
  destruct (ParsePollHours s) as [[w|]|] eqn:E; simplify_eq; [|by vm_compute].
  pose proof (ParsePollHours_wf _ _ E) as Hw.
  rewrite <-fmt_window_eq, parse_fmt_window by done.
  split_and!; [done|by rewrite <-fmt_window_eq|]. intros. by simplify_eq.
Qed.

Lemma normalize_poll_hours_roundtrip_witness :
  NormalizePollHours " 8:5 - 22:30 " = Some "08:05-22:30" ∧
  ParsePollHours "08:05-22:30" = ParsePollHours " 8:5 - 22:30 ".
Proof.
  split; [vm_compute; reflexivity|].
  apply (normalize_poll_hours_roundtrip " 8:5 - 22:30 " "08:05-22:30"). vm_compute. reflexivity.
Defined.

(** The parser is laxer than its documented "HH:MM-HH:MM": [Sscanf] ignores
    what follows the second integer, so trailing garbage is accepted. *)
Lemma poll_hours_trailing_garbage :
  ParsePollHours "8:30am-9:45 tomorrow" = Some (Some (mkPollWindow 510 585)).
Proof. vm_compute. reflexivity. Qed.

(** In a time zone without transitions, [NextOpen] returns the first
    instant at or after [t] inside the window: it is inside, less than a day
    away, and no earlier instant from [t] on is inside. *)
Lemma next_open_spec (zone : Z → Z) (o : Z) (w : PollWindow) (t : Z)
    (Hzone : ∀ u, zone u = o) (Hw : pw_wf w) :
  let r := pw_next_open zone w t in
  t <= r < t + 24 * hour ∧ pw_contains zone w r = true ∧
  (∀ u, t <= u < r → pw_contains zone w u = false).
Proof. exact (fixed_zone_open zone o w t Hzone Hw). Qed.

Lemma next_open_spec_witness :
  let w := mkPollWindow 1320 360 in
  pw_wf w ∧ pw_contains (λ _, 10800) w (12 * hour) = false ∧
  pw_contains (λ _, 10800) w (pw_next_open (λ _, 10800) w (12 * hour)) = true.
Proof.
  intros w. assert (pw_wf w) as Hw by (subst w; unfold pw_wf; simpl; lia).
  split; [exact Hw|]. split; [vm_compute; reflexivity|].
  apply (next_open_spec (λ _, 10800) 10800 w (12 * hour) (λ _, eq_refl) Hw).
Defined.
