(* ===== verification/Types.v ===== *)
(** The data of the program: the rows of [storage/entities.go], the bridge
    contract's entry and response ([bridge/v1/bridge.go]) and the error values
    that travel between fetcher, refresher and worker.

    A [Feed] is loaded with [feedsFrom], the join of the catalog row with its
    poll state; the record keeps that split ([FeedRow] and [PollState]).  Nullable
    columns and pointers are options.  A [bridge_state] document is modelled as
    its decoded value, the map from bridge name to the raw document. *)

From S2P Require Import Prelude GoStrings.

Abbreviation BridgeState := (gmap string string).

(** reader/bridge_state.go [IsEmpty] *)
Definition bs_is_empty (s : BridgeState) : bool := bool_decide (s = ∅).

(** reader/bridge_state.go [Raw] The empty document stands for nil. *)
Definition bs_raw (s : BridgeState) (key : string) : string := default "" (s !! key).

(** reader/bridge_state.go [With] *)
Definition bs_with (s : BridgeState) (key raw : string) : BridgeState :=
  if String.eqb raw "" then delete key s else <[key := raw]> s.

(** storage/entities.go:48-95 [Feed, the columns of the catalog row] *)
Record FeedRow := mkFeedRow {
  f_id : Z;
  f_owner_id : Z;
  f_url : string;
  f_type : string;
  f_title : string;
  f_category_id : option Z;
  f_interval_minutes : Z;
  f_manual_paused : bool;
  f_store_mode : string;
  f_adaptive_interval : bool;
  f_rewrite_rules : string;
  f_blocked_rules : string;
  f_keep_rules : string;
  f_created_at : Z;
}.

(** storage/entities.go:62-87 [Feed, the columns of feed_poll_state] *)
Record PollState := mkPollState {
  ps_etag : string;
  ps_last_modified : string;
  ps_last_checked_at : option Z;
  ps_last_error : string;
  ps_parsing_error_count : Z;
  ps_poll_paused : bool;
  ps_next_check_at : option Z;
  ps_bridge_state : BridgeState;
  ps_items_hash : string;
  ps_last_entry_at : option Z;
}.

Record Feed := mkFeed { feed_row : FeedRow; feed_ps : PollState }.

Definition with_ps (f : Feed) (ps : PollState) : Feed := mkFeed (feed_row f) ps.

Definition set_manual_paused (r : FeedRow) (b : bool) : FeedRow :=
  mkFeedRow (f_id r) (f_owner_id r) (f_url r) (f_type r) (f_title r) (f_category_id r)
    (f_interval_minutes r) b (f_store_mode r) (f_adaptive_interval r) (f_rewrite_rules r)
    (f_blocked_rules r) (f_keep_rules r) (f_created_at r).

Definition set_feed_url (r : FeedRow) (u : string) : FeedRow :=
  mkFeedRow (f_id r) (f_owner_id r) u (f_type r) (f_title r) (f_category_id r)
    (f_interval_minutes r) (f_manual_paused r) (f_store_mode r) (f_adaptive_interval r)
    (f_rewrite_rules r) (f_blocked_rules r) (f_keep_rules r) (f_created_at r).

(** bridge/v1/bridge.go [Entry] Also [storage.CreateEntryParams]. *)
Record BEntry := mkBEntry {
  be_title : string;
  be_url : string;
  be_content : string;
  be_author : option string;
  be_published_at : option Z;
  be_hash : string;
}.

(** storage/entities.go [Entry] *)
Record Entry := mkEntry {
  e_id : Z;
  e_feed_id : Z;
  e_title : string;
  e_url : string;
  e_content : string;
  e_author : option string;
  e_published_at : option Z;
  e_hash : string;
  e_status : string;
}.

(** storage/entities.go [Subscription] *)
Record Subscription := mkSubscription {
  sub_user_id : Z;
  sub_feed_id : Z;
  sub_webhook_id : option Z;
}.

(** storage/entities.go [FilterScopeItem] *)
Record FilterScopeItem := mkFilterScopeItem {
  fsi_feed_id : option Z;
  fsi_category_id : option Z;
}.

(** storage/entities.go [FilterAction] *)
Record FilterAction := mkFilterAction {
  fa_action_type : string;
  fa_action_param : string;
}.

(** storage/entities.go [FilterRule] *)
Record FilterRule := mkFilterRule {
  fr_id : Z;
  fr_field : string;
  fr_pattern : string;
  fr_negate : bool;
  fr_op : string;
}.

(** storage/entities.go [Filter] *)
Record Filter := mkFilter {
  fl_id : Z;
  fl_user_id : Z;
  fl_enabled : bool;
  fl_match_any_rule : bool;
  fl_inverse : bool;
  fl_feed_scope : string;
  fl_updated_at : Z;
  fl_rules : list FilterRule;
  fl_scope_items : list FilterScopeItem;
  fl_actions : list FilterAction;
}.

(** bridge/v1/bridge.go [Response] With the [BridgeState] the registry
    adapter returns instead of the bridge's own document. *)
Record FetchResponse := mkFetchResponse {
  res_entries : list BEntry;
  res_etag : string;
  res_last_modified : string;
  res_not_modified : bool;
  res_bridge_state : BridgeState;
  res_min_next_check : Z;
  res_new_url : string;
}.

(** * Errors

    One constructor per error type the poll path inspects; [EMsg] is any other
    error value, [EWrap] is [fmt.Errorf("text: %w", err)] and [EJoin] the
    [fmt.Errorf("%w: %w", kind, cause)] of [failPoll]. *)
Inductive err : Type :=
| EMsg (text : string)
| ENotFound
| EFetchFeed
| ECreateEntries
| EFeedCircuitOpen
| EInboundFeed
| EFeedGone
| EBotChallenge
| EOutsidePollWindow (at_ : Z)
| EHostBusy (host : string) (at_ : Z)
| EProxyUnavailable (at_ : Z) (cause : err)
| ELayoutDeferred (at_ : Z) (cause : err)
| EUnavailable (op : string) (cause : err)
| ELayout (bridge marker : string)
| ELayoutOf (bridge marker : string) (cause : err)
| ERetry (text : string) (at_ : Z) (reason : option string) (bridge_wide : bool)
| EWrap (text : string) (cause : err)
| EJoin (kind cause : err)
| EPollFailed (feed : Feed) (cause : err).

(** [errors.As]/[errors.Is]: pre-order search of the error tree for the first
    error [p] accepts. *)
Fixpoint err_find {A} (p : err → option A) (e : err) : option A :=
  match p e with
  | Some a => Some a
  | None =>
      match e with
      | EProxyUnavailable _ c | ELayoutDeferred _ c | EUnavailable _ c
      | ELayoutOf _ _ c | EWrap _ c | EPollFailed _ c => err_find p c
      | EJoin k c => match err_find p k with Some a => Some a | None => err_find p c end
      | _ => None
      end
  end.

(** The types of the program with a [RetryAt] method. *)
Definition retry_at_method (e : err) : option Z :=
  match e with
  | EOutsidePollWindow a | EHostBusy _ a | EProxyUnavailable a _ | ELayoutDeferred a _ => Some a
  | ERetry _ a _ _ => Some a
  | _ => None
  end.

(** bridge/v1/bridge.go [RetryAt] *)
Definition RetryAt (e : option err) : option Z :=
  match e with
  | None => None
  | Some e => match err_find retry_at_method e with
              | Some a => if time_is_zero a then None else Some a
              | None => None
              end
  end.

(** bridge/v1/bridge.go [AsLayout] *)
Definition AsLayout (e : err) : option (string * string) :=
  err_find (λ e, match e with ELayout b m | ELayoutOf b m _ => Some (b, m) | _ => None end) e.

(** bridge/v1/bridge.go [DeferBridgeWide] *)
Definition DeferBridgeWide (e : err) : bool :=
  default false (err_find (λ e, match e with ERetry _ _ _ w => Some w | _ => None end) e).

(** bridge/v1/bridge.go [DeferReason] *)
Definition DeferReason (e : err) : string :=
  default "rate_limit"
    (err_find (λ e, match e with
                    | EOutsidePollWindow _ => Some "poll_hours"
                    | EHostBusy _ _ => Some "host"
                    | EProxyUnavailable _ _ => Some "proxy"
                    | ELayoutDeferred _ _ => Some "layout"
                    | ERetry _ _ r _ => r
                    | _ => None
                    end) e).

(** service/poll_window.go [ErrLayoutDeferred.NextCheckPersisted] *)
Definition NextCheckPersisted (e : err) : bool :=
  default false (err_find (λ e, match e with ELayoutDeferred _ _ => Some true | _ => None end) e).

(** proxy/health.go [IsUnavailable] *)
Definition IsUnavailable (e : err) : bool :=
  default false (err_find (λ e, match e with EUnavailable _ _ => Some true | _ => None end) e).

Definition err_is_gone (e : err) : bool :=
  default false (err_find (λ e, match e with EFeedGone => Some true | _ => None end) e).
Definition err_is_bot (e : err) : bool :=
  default false (err_find (λ e, match e with EBotChallenge => Some true | _ => None end) e).
Definition err_is_not_found (e : err) : bool :=
  default false (err_find (λ e, match e with ENotFound => Some true | _ => None end) e).

(** [error.Error()] *)
Fixpoint err_text (e : err) : string :=
  match e with
  | EMsg t => t
  | ENotFound => "not found"
  | EFetchFeed => "fetch feed"
  | ECreateEntries => "create entries"
  | EFeedCircuitOpen => "feed polling paused after repeated errors; use manual refresh"
  | EInboundFeed => "inbound feed is not polled"
  | EFeedGone => "feed gone (410)"
  | EBotChallenge => "blocked by a bot challenge (Cloudflare)"
  | EOutsidePollWindow _ => "outside category poll hours"
  | EHostBusy h _ => "host busy: " +:+ h
  | EProxyUnavailable _ c | ELayoutDeferred _ c => err_text c
  | EUnavailable op c => "proxy: " +:+ op +:+ ": " +:+ err_text c
  | ELayout b m => b +:+ ": layout not recognised (" +:+ m +:+ ")"
  | ELayoutOf b m c =>
      b +:+ ": layout not recognised (" +:+ m +:+ ")" +:+ ": " +:+ err_text c
  | ERetry t _ _ _ => t
  | EWrap t c => t +:+ ": " +:+ err_text c
  | EJoin k c => err_text k +:+ ": " +:+ err_text c
  | EPollFailed _ c => err_text c
  end.

(** * Lemmas *)

Lemma bs_with_raw s k v : bs_raw (bs_with s k v) k = v.
Proof.
  unfold bs_raw, bs_with. destruct (String.eqb_spec v "") as [->|].
  - by rewrite lookup_delete_eq.
  - by rewrite lookup_insert_eq.
Qed.

(** The documents of the other bridges survive a rewrite untouched. *)
Lemma bs_with_other s k k' v : k ≠ k' → bs_with s k v !! k' = s !! k'.
Proof. intros. unfold bs_with. case_match; by rewrite ?lookup_delete_ne, ?lookup_insert_ne. Qed.
#[export] Hint Rewrite bs_with_raw : go_rw.
