(* ===== verification/Inflight.v ===== *)
(** The in-memory set of running polls and deliveries ([worker/inflight.go]).
    The mutex makes every method atomic, so a run is a sequence of operations;
    [exclude] both answers and forgets. *)

From S2P Require Import Prelude.

(** * Definitions *)

(** worker/inflight.go [inflightPoll] *)
Record inflightPoll := mkInflightPoll { startedAt : Z; doneAt : Z }.

(** worker/inflight.go [inflightPolls] *)
Record inflightPolls := mkInflightPolls {
  polls : gmap Z inflightPoll;
  staleAfter : Z;
  finishedGrace : Z;
}.

Definition with_polls (p : inflightPolls) (m : gmap Z inflightPoll) : inflightPolls :=
  mkInflightPolls m (staleAfter p) (finishedGrace p).

(** worker/inflight.go [inflightPolls.init] *)
Definition ifl_init (staleAfter finishedGrace : Z) : inflightPolls :=
  mkInflightPolls ∅ staleAfter finishedGrace.

(** worker/inflight.go [inflightPolls.start] *)
Definition ifl_start (p : inflightPolls) (feedID at_ : Z) : inflightPolls :=
  with_polls p (<[feedID := mkInflightPoll at_ zero_time]> (polls p)).

(** worker/inflight.go [inflightPolls.done] *)
Definition ifl_done (p : inflightPolls) (feedID at_ : Z) : inflightPolls :=
  match polls p !! feedID with
  | Some e => if time_is_zero (doneAt e)
              then with_polls p (<[feedID := mkInflightPoll (startedAt e) at_]> (polls p))
              else p
  | None => p
  end.

(** worker/inflight.go [inflightPolls.forget] *)
Definition ifl_forget (p : inflightPolls) (id : Z) : inflightPolls :=
  with_polls p (delete id (polls p)).

(** What one iteration of [exclude] does with an item. *)
Variant verdict := Drop | Skip | Keep.

#[export] Instance verdict_eq_dec : EqDecision verdict.
Proof. solve_decision. Defined.

Definition is_stale (p : inflightPolls) (now : Z) (e : inflightPoll) : bool :=
  (0 <? staleAfter p) && (staleAfter p <=? time_sub now (startedAt e)).

(** worker/inflight.go:69-76 [exclude, the switch of the loop] *)
Definition ifl_verdict (p : inflightPolls) (now : Z) (e : inflightPoll) : verdict :=
  if negb (time_is_zero (doneAt e)) then
    if finishedGrace p <=? time_sub now (doneAt e) then Drop else Keep
  else if is_stale p now e then Skip
  else Keep.

(** worker/inflight.go [inflightPolls.exclude] The ids the loop keeps, in map
    order, and the set without the finished items past their grace. *)
Definition ifl_exclude (p : inflightPolls) (now : Z) : list Z * inflightPolls :=
  (fst <$> filter (λ ie, ifl_verdict p now ie.2 = Keep) (map_to_list (polls p)),
   with_polls p (filter (λ ie, ifl_verdict p now ie.2 ≠ Drop) (polls p))).

(** worker/inflight.go [inflightPolls.counts] *)
Definition ifl_counts (p : inflightPolls) (now : Z) : Z * Z :=
  foldr (λ '(id, e) '(running, stale),
           if negb (time_is_zero (doneAt e)) then (running, stale)
           else (running + 1, if is_stale p now e then stale + 1 else stale))
        (0, 0) (map_to_list (polls p)).

(** worker/inflight.go [inflightPolls.since] *)
Definition ifl_since (p : inflightPolls) (feedID : Z) : option Z :=
  match polls p !! feedID with
  | Some e => if time_is_zero (doneAt e) then Some (startedAt e) else None
  | None => None
  end.

(** A run of the dispatcher and the workers: the operations in the order in
    which they take the mutex. *)
Inductive ifl_op :=
| OpStart (id at_ : Z)
| OpDone (id at_ : Z)
| OpForget (id : Z)
| OpExclude (now : Z).

Definition ifl_step (p : inflightPolls) (o : ifl_op) : inflightPolls :=
  match o with
  | OpStart id a => ifl_start p id a
  | OpDone id a => ifl_done p id a
  | OpForget id => ifl_forget p id
  | OpExclude now => (ifl_exclude p now).2
  end.

Definition ifl_run (p : inflightPolls) (ops : list ifl_op) : inflightPolls :=
  foldl ifl_step p ops.

(** * Lemmas *)

Lemma ifl_exclude_elem p now id :
  id ∈ (ifl_exclude p now).1 ↔ ∃ e, polls p !! id = Some e ∧ ifl_verdict p now e = Keep.
Proof.
  unfold ifl_exclude; simpl. rewrite list_elem_of_fmap. split.
  - intros ([i e] & -> & [Hk He]%list_elem_of_filter). apply elem_of_map_to_list in He. eauto.
  - intros (e & He & Hk). exists (id, e). split; [done|].
    apply list_elem_of_filter. split; [done|]. by apply elem_of_map_to_list.
Qed.

Lemma ifl_exclude_lookup p now id e :
  polls (ifl_exclude p now).2 !! id = Some e ↔
  polls p !! id = Some e ∧ ifl_verdict p now e ≠ Drop.
Proof. unfold ifl_exclude; simpl. by rewrite map_lookup_filter_Some. Qed.

(** The parameters of the set never change, and an operation on another id
    leaves the item alone, except that [exclude] may forget a finished one. *)
Definition op_id (o : ifl_op) : option Z :=
  match o with
  | OpStart id _ | OpDone id _ | OpForget id => Some id
  | OpExclude _ => None
  end.

Lemma ifl_step_params p o :
  staleAfter (ifl_step p o) = staleAfter p ∧ finishedGrace (ifl_step p o) = finishedGrace p.
Proof. destruct o; simpl; unfold ifl_done; repeat case_match; done. Qed.

Lemma ifl_run_params p ops :
  staleAfter (ifl_run p ops) = staleAfter p ∧ finishedGrace (ifl_run p ops) = finishedGrace p.
Proof.
  revert p. induction ops as [|o ops IH]; intros p; [done|]. simpl.
  destruct (ifl_step_params p o), (IH (ifl_step p o)). split; congruence.
Qed.

(** Every [exclude] of a run happens before the item would be forgotten. *)
Definition keeps (p : inflightPolls) (e : inflightPoll) (o : ifl_op) : Prop :=
  match o with OpExclude now => ifl_verdict p now e ≠ Drop | _ => True end.

Lemma ifl_step_other p o id e :
  op_id o ≠ Some id → polls p !! id = Some e → keeps p e o →
  polls (ifl_step p o) !! id = Some e.
Proof.
  destruct o as [i a|i a|i|now]; simpl; intros Hid He Hk.
  - rewrite lookup_insert_ne; congruence.
  - unfold ifl_done. repeat case_match; try done. simpl.
    rewrite lookup_insert_ne; congruence.
  - rewrite lookup_delete_ne; congruence.
  - by apply ifl_exclude_lookup.
Qed.

Lemma ifl_verdict_params p q now e :
  staleAfter q = staleAfter p → finishedGrace q = finishedGrace p →
  ifl_verdict q now e = ifl_verdict p now e.
Proof. unfold ifl_verdict, is_stale. by intros -> ->. Qed.

Lemma ifl_run_other p ops id e :
  polls p !! id = Some e →
  Forall (λ o, op_id o ≠ Some id ∧ keeps p e o) ops →
  polls (ifl_run p ops) !! id = Some e.
Proof.
  revert p. induction ops as [|o ops IH]; intros p He Hops; [done|].
  apply Forall_cons_1 in Hops as [[Hid Hk] Hops]. simpl.
  apply IH; [by apply ifl_step_other|].
  eapply Forall_impl; [exact Hops|]. intros o' [? Hk']. split; [done|].
  destruct o'; simpl in *; [done..|].
  destruct (ifl_step_params p o). by erewrite ifl_verdict_params.
Qed.

(** * Properties *)

(** Whatever other polls start, finish or are forgotten in between, a feed
    whose poll was started at [t0] and not finished is excluded from the next
    claim at every moment until it is stale ([staleAfter] past its start, never
    when [staleAfter] is zero), and from then on no longer blocks the feed; it
    is reported as running since [t0] all the while. *)
Lemma inflight_running_excluded (p : inflightPolls) (id t0 now : Z) (ops : list ifl_op)
    (Hops : Forall (λ o, op_id o ≠ Some id) ops) :
  let q := ifl_run (ifl_start p id t0) ops in
  (id ∈ (ifl_exclude q now).1 ↔ ¬ (0 < staleAfter p ∧ staleAfter p <= time_sub now t0)) ∧
  ifl_since q id = Some t0.
Proof.
  intros q. subst q. set (e := mkInflightPoll t0 zero_time).
  assert (polls (ifl_run (ifl_start p id t0) ops) !! id = Some e) as He.
  { apply ifl_run_other; [apply lookup_insert_eq|].
    eapply Forall_impl; [exact Hops|]. intros o Ho. split; [done|].
    destruct o as [| | |u]; simpl; try done. unfold ifl_verdict. simpl. by case_match. }
  split; [|by unfold ifl_since; rewrite He].
  rewrite ifl_exclude_elem. destruct (ifl_run_params (ifl_start p id t0) ops) as [Hs Hg].
  simpl in Hs, Hg. setoid_rewrite He. unfold ifl_verdict, is_stale. rewrite Hs.
  split.
  - intros (e' & [= <-] & Hv) [H1 H2]. simpl in Hv.
    apply Z.ltb_lt in H1. apply Z.leb_le in H2. by rewrite H1, H2 in Hv.
  - intros Hn. exists e. split; [done|]. simpl. case_match; [|done].
    bool_to_prop. by destruct Hn.
Qed.

Lemma inflight_running_excluded_witness :
  7 ∈ (ifl_exclude (ifl_run (ifl_start (ifl_init (2 * minute) second) 7 (100 * second))
         [OpStart 8 (101 * second); OpExclude (101 * second); OpForget 8]) (105 * second)).1.
Proof.
  apply (inflight_running_excluded (ifl_init (2 * minute) second) 7 (100 * second) (105 * second)
    [OpStart 8 (101 * second); OpExclude (101 * second); OpForget 8]).
  - repeat constructor; done.
  - vm_compute. by intros [_ ?].
Defined.

(** A poll finished at [t1] keeps its feed excluded for exactly the grace
    period: before [t1 + finishedGrace] it cannot be claimed, at that moment
    [exclude] forgets it. *)
Lemma inflight_grace (p : inflightPolls) (id t0 t1 now : Z) (ops : list ifl_op)
    (Ht1 : t1 ≠ zero_time) (Hgrace : min_int64 < finishedGrace p <= max_int64)
    (Hops : Forall (λ o, op_id o ≠ Some id ∧
               ∀ u, o = OpExclude u → u < t1 + finishedGrace p) ops) :
  let q := ifl_run (ifl_done (ifl_start p id t0) id t1) ops in
  (id ∈ (ifl_exclude q now).1 ↔ now < t1 + finishedGrace p) ∧
  (t1 + finishedGrace p <= now → polls (ifl_exclude q now).2 !! id = None) ∧
  ifl_since q id = None.
Proof.
  intros q. set (e := mkInflightPoll t0 t1).
  assert (time_is_zero t1 = false) as Hz by (by apply Z.eqb_neq).
  assert (∀ r u, finishedGrace r = finishedGrace p →
            ifl_verdict r u e = if t1 + finishedGrace p <=? u then Drop else Keep) as Hv.
  { intros r u Hr. unfold ifl_verdict. simpl. rewrite Hz, Hr, time_sub_le_iff by done. simpl.
    destruct (Z.leb_spec (finishedGrace p) (u - t1)), (Z.leb_spec (t1 + finishedGrace p) u);
      done || lia. }
  assert (polls q !! id = Some e) as He.
  { subst q. apply ifl_run_other.
    - unfold ifl_done. simpl. rewrite lookup_insert_eq. simpl. by rewrite lookup_insert_eq.
    - eapply Forall_impl; [exact Hops|]. intros o [? Ho]. split; [done|].
      destruct o as [| | |u]; simpl; try done.
      rewrite Hv; [|unfold ifl_done; by repeat case_match].
      specialize (Ho u eq_refl). by destruct (Z.leb_spec (t1 + finishedGrace p) u); [lia|]. }
  assert (finishedGrace q = finishedGrace p) as Hg.
  { subst q. destruct (ifl_run_params (ifl_done (ifl_start p id t0) id t1) ops) as [_ ->].
    unfold ifl_done. by repeat case_match. }
  split_and!.
  - rewrite ifl_exclude_elem. setoid_rewrite He. setoid_rewrite (Hv q now Hg) || idtac.
    split.
    + intros (e' & [= <-] & Hk). rewrite (Hv q now Hg) in Hk.
      by destruct (Z.leb_spec (t1 + finishedGrace p) now).
    + intros Hlt. exists e. split; [done|]. rewrite (Hv q now Hg).
      destruct (Z.leb_spec (t1 + finishedGrace p) now); [lia|done].
  - intros Hle. apply eq_None_ne_Some_2. intros e' He'. apply ifl_exclude_lookup in He' as [H1 H2].
    rewrite He in H1. injection H1 as <-. rewrite (Hv q now Hg) in H2.
    destruct (Z.leb_spec (t1 + finishedGrace p) now); [done|lia].
  - unfold ifl_since. rewrite He. simpl. by rewrite Hz.
Qed.

Lemma inflight_grace_witness :
  7 ∈ (ifl_exclude (ifl_run (ifl_done (ifl_start (ifl_init 0 second) 7 0) 7 (5 * second))
         [OpExclude (5 * second)]) (5 * second + 1)).1.
Proof.
  apply (inflight_grace (ifl_init 0 second) 7 0 (5 * second) (5 * second + 1)
           [OpExclude (5 * second)]).
  - done.
  - vm_compute. split; congruence.
  - repeat constructor; [done|]. intros u [= <-]. vm_compute. done.
  - vm_compute. done.
Defined.
