(* ===== verification/DuePauses.v ===== *)
(** The in-memory pauses of [worker/webhook_flood.go]: ids (webhooks waiting
    out a 429, deferred feeds and bridges) kept out of the due queries until a
    moment, and the wait a 429 asks for. *)

From S2P Require Import Prelude GoStrings.

(** * Definitions *)

Section Pauses.
Context {K : Type} `{Countable K}.

(** worker/webhook_flood.go [duePauses.pause] The zero time is the map's
    default for an absent id. *)
Definition dp_pause (p : gmap K Z) (id : K) (until : Z) : gmap K Z :=
  if time_after until (default zero_time (p !! id)) then <[id := until]> p else p.

(** worker/webhook_flood.go:47-55 [active, the loop body] The earliest
    resume moment so far, joined with one more unexpired pause. *)
Definition dp_earlier (resume : option Z) (until : Z) : option Z :=
  match resume with
  | None => Some until
  | Some r => if time_before until r then Some until else Some r
  end.

(** worker/webhook_flood.go [duePauses.active] *)
Definition dp_active (p : gmap K Z) (now : Z) : list K * option Z * gmap K Z :=
  let live := filter (λ ku, time_after ku.2 now = true) p in
  ((map_to_list live).*1, foldl dp_earlier None (map_to_list live).*2, live).

(** worker/webhook_flood.go [duePauses.pausedUntil] *)
Definition dp_paused_until (p : gmap K Z) (id : K) (now : Z) : option Z :=
  match p !! id with
  | Some u => if time_after u now then Some u else None
  | None => None
  end.

(** A run: pauses and [active] calls in the order they take the mutex. *)
Inductive dp_op :=
| DpPause (id : K) (until : Z)
| DpActive (now : Z).

Definition dp_step (p : gmap K Z) (o : dp_op) : gmap K Z :=
  match o with
  | DpPause id u => dp_pause p id u
  | DpActive now => (dp_active p now).2
  end.

Definition dp_run (p : gmap K Z) (ops : list dp_op) : gmap K Z := foldl dp_step p ops.

(** The latest moment [id] was paused until in a run. *)
Definition dp_latest (id : K) (ops : list dp_op) (start : Z) : Z :=
  foldl (λ acc o, match o with
                  | DpPause i u => if decide (i = id) then Z.max acc u else acc
                  | DpActive _ => acc
                  end) start ops.

(** * Lemmas *)

Lemma foldl_earlier l r :
  foldl dp_earlier (Some r) l = Some (foldl Z.min r l).
Proof.
  revert r. induction l as [|u l IH]; intros r; [done|]. cbn [foldl dp_earlier].
  unfold time_before. destruct (Z.ltb_spec u r).
  - rewrite IH. by replace (Z.min r u) with u by lia.
  - rewrite IH. by replace (Z.min r u) with r by lia.
Qed.

Lemma foldl_min_le l r : foldl Z.min r l <= r ∧ (∀ u, u ∈ l → foldl Z.min r l <= u) ∧
  (foldl Z.min r l = r ∨ foldl Z.min r l ∈ l).
Proof.
  revert r. induction l as [|v l IH]; intros r; cbn [foldl].
  - split_and!; [lia|by intros ? ?%elem_of_nil|by left].
  - destruct (IH (Z.min r v)) as (H1 & H2 & H3). split_and!; [lia| |].
    + intros u [->|Hu]%elem_of_cons; [lia|by apply H2].
    + destruct H3 as [H3|H3]; [|right; by right].
      destruct (Z.min_spec r v) as [[_ E]|[_ E]]; rewrite E in H3 |- *;
        [by left|right; rewrite H3; by left].
Qed.

Lemma dp_active_live p now id u :
  (dp_active p now).2 !! id = Some u ↔ p !! id = Some u ∧ now < u.
Proof.
  unfold dp_active; simpl. rewrite map_lookup_filter_Some. unfold time_after. simpl.
  by rewrite Z.ltb_lt.
Qed.

Lemma dp_active_ids p now id :
  id ∈ (dp_active p now).1.1 ↔ is_Some (dp_paused_until p id now).
Proof.
  unfold dp_active; simpl. rewrite list_elem_of_fmap. unfold dp_paused_until. split.
  - intros ([i u] & -> & Hu%elem_of_map_to_list). simpl.
    apply map_lookup_filter_Some in Hu as [-> Hu]. simpl in Hu. rewrite Hu. by eexists.
  - intros [u Hu]. repeat case_match; try done.
    exists (id, u). split; [done|]. apply elem_of_map_to_list, map_lookup_filter_Some.
    simpl. by simplify_eq.
Qed.

(** The moment [id] is paused until, the zero time when it is not paused. *)
Definition dp_until (p : gmap K Z) (id : K) : Z := default zero_time (p !! id).

(** Two moments no query at [now] can tell apart. *)
Definition same_at (now a b : Z) : Prop := a = b ∨ (a <= now ∧ b <= now).

Lemma dp_paused_until_eq p id now : zero_time <= now →
  dp_paused_until p id now = if now <? dp_until p id then Some (dp_until p id) else None.
Proof.
  unfold dp_paused_until, dp_until, time_after. intros Hz.
  destruct (p !! id); simpl; [done|]. by destruct (Z.ltb_spec now zero_time); [lia|].
Qed.

Lemma dp_pause_until p i u id :
  dp_until (dp_pause p i u) id = if decide (i = id) then Z.max (dp_until p id) u else dp_until p id.
Proof.
  unfold dp_until, dp_pause, time_after. case_decide as Hi; subst.
  - destruct (Z.ltb_spec (default zero_time (p !! id)) u).
    + rewrite lookup_insert_eq. simpl. lia.
    + simpl in *. lia.
  - case_match; [|done]. by rewrite lookup_insert_ne.
Qed.

Lemma dp_active_until p t id now : t <= now → zero_time <= now →
  same_at now (dp_until (dp_active p t).2 id) (dp_until p id).
Proof.
  intros Ht Hz. unfold dp_until. destruct ((dp_active p t).2 !! id) as [u|] eqn:E.
  - apply dp_active_live in E as [-> _]. by left.
  - simpl. destruct (p !! id) as [u|] eqn:Ep; [|by left]. right. split; [done|].
    simpl. destruct (decide (u <= t)); [lia|].
    exfalso. assert ((dp_active p t).2 !! id = Some u) by (apply dp_active_live; split; [done|lia]).
    congruence.
Qed.

Lemma dp_run_until p ops id now start : zero_time <= now →
  Forall (λ o, ∀ t, o = DpActive t → t <= now) ops →
  same_at now (dp_until p id) start →
  same_at now (dp_until (dp_run p ops) id) (dp_latest id ops start).
Proof.
  intros Hz. revert p start. induction ops as [|o ops IH]; intros p start Hops Hs; [done|].
  apply Forall_cons_1 in Hops as [Ho Hops]. apply IH; [done|].
  destruct o as [i u|t]; cbn [dp_step].
  - rewrite dp_pause_until. case_decide; [|done]. unfold same_at in *. lia.
  - pose proof (dp_active_until p t id now (Ho t eq_refl) Hz). unfold same_at in *. lia.
Qed.

(** * Properties *)

(** After any run of pauses and claims at moments up to [now], an id is
    paused at [now] exactly when the latest moment it was ever paused until is
    still ahead, and it is paused until that moment: a shorter pause never cuts
    a longer one and forgetting expired pauses loses nothing. *)
Lemma due_pauses_latest (ops : list dp_op) (id : K) (now : Z)
    (Hnow : zero_time <= now) (Hops : Forall (λ o, ∀ t, o = DpActive t → t <= now) ops) :
  let v := dp_latest id ops zero_time in
  dp_paused_until (dp_run ∅ ops) id now = if now <? v then Some v else None.
Proof.
  intros v. rewrite dp_paused_until_eq by done.
  destruct (dp_run_until ∅ ops id now zero_time Hnow Hops) as [E|[E1 E2]]; [by left| |].
  - by rewrite E.
  - fold v in E2. destruct (Z.ltb_spec now (dp_until (dp_run ∅ ops) id)); [lia|].
    by destruct (Z.ltb_spec now v); [lia|].
Qed.

(** [active] answers with exactly the ids paused past [now], names the
    earliest moment one of them resumes (none when nothing is paused) and keeps
    exactly those pauses. *)
Lemma dp_active_spec (p : gmap K Z) (now : Z) :
  let '(ids, resume, p') := dp_active p now in
  (∀ id, id ∈ ids ↔ is_Some (dp_paused_until p id now)) ∧
  (∀ id u, p' !! id = Some u ↔ p !! id = Some u ∧ now < u) ∧
  match resume with
  | None => ids = []
  | Some r => now < r ∧ (∃ id, dp_paused_until p id now = Some r) ∧
              (∀ id u, dp_paused_until p id now = Some u → r <= u)
  end.
Proof.
  pose proof (dp_active_ids p now) as Hids. pose proof (dp_active_live p now) as Hlive.
  destruct (dp_active p now) as [[ids resume] p'] eqn:E. simpl in *.
  split; [done|]. split; [done|]. clear Hids Hlive.
  unfold dp_active in E. injection E as <- <- <-. set (live := filter _ p) in *.
  assert (∀ id u, (id, u) ∈ map_to_list live ↔ dp_paused_until p id now = Some u) as Hu.
  { intros id u. rewrite elem_of_map_to_list. subst live. rewrite map_lookup_filter_Some.
    unfold dp_paused_until. simpl. destruct (p !! id); [|naive_solver].
    case_match; naive_solver congruence. }
  destruct (map_to_list live) as [|[i u] l] eqn:El; [done|]. cbn [fmap list_fmap foldl dp_earlier snd].
  rewrite foldl_earlier. destruct (foldl_min_le l.*2 u) as (H1 & H2 & H3).
  set (r := foldl Z.min u l.*2) in *.
  assert (∃ id, (id, r) ∈ (i, u) :: l) as [id Hid].
  { destruct H3 as [->|H3]; [exists i; by left|].
    apply list_elem_of_fmap in H3 as ([j v] & -> & Hj). exists j. by right. }
  split_and!.
  - apply Hu in Hid. unfold dp_paused_until, time_after in Hid. repeat case_match; simplify_eq.
    by bool_to_prop.
  - exists id. by apply Hu.
  - intros j v Hj%Hu. apply elem_of_cons in Hj as [[= -> ->]|Hj]; [done|].
    apply H2, list_elem_of_fmap. by exists (j, v).
Qed.
End Pauses.

Arguments dp_op : clear implicits.

Lemma due_pauses_latest_witness :
  dp_paused_until (dp_run ∅ [DpPause 7 (50 * second); DpActive (10 * second);
    DpPause 7 (20 * second); DpPause 8 (90 * second)]) 7 (30 * second) = Some (50 * second).
Proof.
  refine (eq_trans (due_pauses_latest [DpPause 7 (50 * second); DpActive (10 * second);
    DpPause 7 (20 * second); DpPause 8 (90 * second)] 7 (30 * second) _ _) _).
  - vm_compute. congruence.
  - repeat constructor; intros t [= <-]; vm_compute; congruence.
  - vm_compute. reflexivity.
Defined.

(** * The wait a 429 asks for *)

(** worker/webhook_flood.go:12-19 [webhookFloodDefaultWait] *)
Definition webhookFloodDefaultWait : Z := 10 * second.
(** worker/webhook_flood.go:19-19 [webhookFloodMaxWait] *)
Definition webhookFloodMaxWait : Z := hour.

Section Retry_after.
(** [encoding/json] on the body: [parameters.retry_after] as a duration when
    the body decodes and the value is positive. *)
Context (json_retry_after : string → option Z).
(** [strconv.ParseFloat] on the header, as a duration when positive. *)
Context (parse_seconds : string → option Z).
(** [http.ParseTime]. *)
Context (parse_http_time : string → option Z).

(** worker/webhook_flood.go [retryAfterOf] *)
Definition retryAfterOf (header body : string) (now : Z) : Z :=
  let d :=
    match json_retry_after body with
    | Some d => d
    | None =>
        let h := trim_space header in
        if String.eqb h "" then webhookFloodDefaultWait
        else match parse_seconds h with
             | Some d => d
             | None => match parse_http_time h with
                       | Some at_ => if time_after at_ now then time_sub at_ now
                                     else webhookFloodDefaultWait
                       | None => webhookFloodDefaultWait
                       end
             end
    end in
  Z.min (Z.max d second) webhookFloodMaxWait.

Lemma retryAfterOf_bounds header body now :
  second <= retryAfterOf header body now <= webhookFloodMaxWait.
Proof. unfold retryAfterOf, webhookFloodMaxWait, hour, minute, second. lia. Qed.
End Retry_after.
