(* ===== verification/HostLimiter.v ===== *)
(** The per-host concurrency cap of background polls
    ([service/host_limit.go]).  [Acquire] and the returned [release] run under
    one mutex; a run is an interleaving of both by any number of workers. *)

From S2P Require Import Prelude GoStrings Types.

(** * Definitions *)

(** service/host_limit.go [HostLimiter] The nil limiter is [None]. *)
Record HostLimiter := mkHostLimiter { hl_limit : Z; hl_busy : gmap string Z }.

(** service/host_limit.go [NewHostLimiter] *)
Definition NewHostLimiter (limit : Z) : option HostLimiter :=
  if limit <=? 0 then None else Some (mkHostLimiter limit ∅).

Definition busy_at (m : gmap string Z) (host : string) : Z := default 0 (m !! host).

(** service/host_limit.go:28-37 [HostLimiter.Acquire, up to the returned release]
    [None] is a refusal; otherwise the new state, with [true] when there is
    something to release. *)
Definition hl_acquire (l : option HostLimiter) (host : string) : option (option HostLimiter * bool) :=
  match l with
  | None => Some (None, false)
  | Some h =>
      if String.eqb host "" then Some (l, false)
      else if hl_limit h <=? busy_at (hl_busy h) host then None
      else Some (Some (mkHostLimiter (hl_limit h)
                         (<[host := busy_at (hl_busy h) host + 1]> (hl_busy h))), true)
  end.

(** service/host_limit.go:38-46 [HostLimiter.Acquire, the release closure] *)
Definition hl_release (h : HostLimiter) (host : string) : HostLimiter :=
  mkHostLimiter (hl_limit h)
    (if busy_at (hl_busy h) host <=? 1 then delete host (hl_busy h)
     else <[host := busy_at (hl_busy h) host - 1]> (hl_busy h)).

(** service/host_limit.go [hostBusyRetry] *)
Definition hostBusyRetry (now feedID : Z) : Z :=
  time_add now (minute + Z.rem feedID 31 * second).

(** reader/handler.go [NormalizeFeedType] *)
Definition NormalizeFeedType (t : string) : string :=
  if bool_decide (t ∈ ["rss"; "atom"; "json"; "telegram"; "vk"; "vk_search"; "vk_group"; "max";
                       "maxstat"; "rutube"; "dzen_news"; "dzen_channel"; "ok_group"; "smotrim";
                       "page"; "custom"; "inbound"]%string)
  then t else "".

(** service/host_limit.go [bridgeHosts] *)
Definition bridgeHosts : gmap string string :=
  list_to_map
    [("telegram", "t.me"); ("max", "max.ru"); ("maxstat", "maxstat.ru"); ("vk_search", "vk.com");
     ("vk_group", "vk.com"); ("rutube", "rutube.ru"); ("dzen_news", "dzen.ru");
     ("dzen_channel", "dzen.ru"); ("ok_group", "ok.ru"); ("smotrim", "smotrim.ru")]%string.

Section Poll_host.
(** [url.Parse] followed by [Hostname]: [None] when the URL does not parse. *)
Context (url_hostname : string → option string).

(** service/host_limit.go [PollHost] *)
Definition PollHost (feedURL feedType : string) : string :=
  match bridgeHosts !! NormalizeFeedType feedType with
  | Some h => h
  | None =>
      match url_hostname (trim_prefix (trim_space feedURL) "page+") with
      | None => ""
      | Some h => trim_prefix (to_lower h) "www."
      end
  end.
End Poll_host.

(** Interleavings: the limiter and the hosts whose release is still owed. *)
Inductive hl_step : HostLimiter * list string → HostLimiter * list string → Prop :=
| hl_step_acquire h h' owed host :
    hl_acquire (Some h) host = Some (Some h', true) →
    hl_step (h, owed) (h', host :: owed)
| hl_step_exempt h owed :
    hl_acquire (Some h) "" = Some (Some h, false) → hl_step (h, owed) (h, owed)
| hl_step_refused h owed host :
    hl_acquire (Some h) host = None → hl_step (h, owed) (h, owed)
| hl_step_release h owed1 owed2 host :
    hl_step (h, owed1 ++ host :: owed2) (hl_release h host, owed1 ++ owed2).

(** * Lemmas *)

Definition owed_count (host : string) (owed : list string) : Z :=
  Z.of_nat (length (filter (λ h, h = host) owed)).

Lemma owed_count_cons host x owed :
  owed_count host (x :: owed) = (if decide (x = host) then 1 else 0) + owed_count host owed.
Proof. unfold owed_count. rewrite filter_cons. case_decide; simpl; lia. Qed.

Lemma owed_count_app host l1 l2 :
  owed_count host (l1 ++ l2) = owed_count host l1 + owed_count host l2.
Proof. unfold owed_count. rewrite filter_app, length_app. lia. Qed.

Lemma owed_count_nonneg host l : 0 <= owed_count host l.
Proof. unfold owed_count. lia. Qed.

(** The counter of every host is the number of polls that hold it; a free host
    has no entry at all. *)
Definition hl_inv (s : HostLimiter * list string) : Prop :=
  0 < hl_limit s.1 ∧
  ∀ host, hl_busy s.1 !! host =
            (if decide (owed_count host s.2 = 0) then None else Some (owed_count host s.2)) ∧
          owed_count host s.2 <= hl_limit s.1.

Lemma hl_inv_busy s host : hl_inv s → busy_at (hl_busy s.1) host = owed_count host s.2.
Proof. intros [_ H]. unfold busy_at. rewrite (proj1 (H host)). case_decide; simpl; lia. Qed.

Lemma hl_step_inv s s' : hl_step s s' → hl_inv s → hl_inv s'.
Proof.
  intros Hst Hinv. pose proof (λ host, hl_inv_busy s host Hinv) as Hb.
  destruct Hinv as [Hl Hinv]. inv Hst; cbn [fst snd] in *; [|by split..|].
  - unfold hl_acquire in *. repeat case_match; simplify_eq. bool_to_prop.
    split; [done|]. intros x. cbn [fst snd hl_busy hl_limit].
    pose proof (owed_count_nonneg host owed). destruct (Hinv x) as [Hx Hle].
    rewrite owed_count_cons, Hb in *. destruct (decide (host = x)) as [->|Hne].
    + rewrite lookup_insert_eq, decide_False by lia. split; [f_equal; lia|lia].
    + rewrite lookup_insert_ne, Hx by done. rewrite Z.add_0_l. by split.
  - split; [done|]. intros x. destruct (Hinv x) as [Hx Hle]. specialize (Hb host).
    cbn [fst snd hl_busy hl_limit hl_release] in *.
    rewrite owed_count_app, owed_count_cons in Hx, Hle, Hb. rewrite decide_True in Hb by done.
    rewrite owed_count_app, Hb.
    pose proof (owed_count_nonneg host owed1). pose proof (owed_count_nonneg host owed2).
    destruct (decide (host = x)) as [->|Hne].
    + destruct (Z.leb_spec (owed_count x owed1 + (1 + owed_count x owed2)) 1).
      * rewrite lookup_delete_eq, decide_True by lia. split; [done|lia].
      * rewrite lookup_insert_eq, decide_False by lia. split; [f_equal; lia|lia].
    + rewrite Z.add_0_l in *. split; [|done].
      destruct (_ <=? 1); by rewrite ?lookup_delete_ne, ?lookup_insert_ne.
Qed.

(** * Properties *)

(** In every interleaving of acquisitions and releases that starts from a
    fresh limiter, no host ever has more polls in flight than the limit, its
    counter is exactly the number of releases still owed (so a refusal means
    the host is full, and nothing leaks: a free host has no map entry). *)
Lemma host_limiter_safe (limit : Z) (h0 h : HostLimiter) (owed : list string)
    (Hnew : NewHostLimiter limit = Some h0) (Hrun : rtc hl_step (h0, []) (h, owed)) :
  ∀ host,
    owed_count host owed <= limit ∧
    hl_busy h !! host =
      (if decide (owed_count host owed = 0) then None else Some (owed_count host owed)) ∧
    (host ≠ "" → (hl_acquire (Some h) host = None ↔ owed_count host owed = limit)).
Proof.
  unfold NewHostLimiter in Hnew. case_match; [done|]. bool_to_prop. simplify_eq.
  assert (hl_inv (h, owed) ∧ hl_limit h = limit) as [Hinv Hl].
  { assert (∀ s s', rtc hl_step s s' → hl_inv s → hl_inv s' ∧ hl_limit s'.1 = hl_limit s.1) as Hrtc.
    { induction 1 as [|s s1 s' Hst _ IH]; intros Hi; [done|].
      destruct (IH (hl_step_inv _ _ Hst Hi)) as [? ->]. split; [done|].
      inv Hst; simpl in *; try done. unfold hl_acquire in *. by repeat case_match; simplify_eq. }
    apply (Hrtc _ _ Hrun). split; [done|]. intros host. simpl. split; [done|].
    change (owed_count host []) with 0. lia. }
  intros host. pose proof (hl_inv_busy _ host Hinv) as Hb. destruct Hinv as [_ Hinv].
  destruct (Hinv host) as [H1 H2]. simpl in *. subst limit. split_and!; [done..|].
  intros Hne. unfold hl_acquire. destruct (String.eqb_spec host ""); [done|].
  rewrite Hb. destruct (Z.leb_spec (hl_limit h) (owed_count host owed)); split; try done; lia.
Qed.

Definition two_vk : HostLimiter :=
  mkHostLimiter 2 (<["vk.com" := 2]> (<["vk.com" := 1]> ∅)).

Lemma host_limiter_safe_witness :
  rtc hl_step (mkHostLimiter 2 ∅, []) (two_vk, ["vk.com"; "vk.com"]) ∧
  hl_acquire (Some two_vk) "vk.com" = None.
Proof.
  assert (rtc hl_step (mkHostLimiter 2 ∅, []) (two_vk, ["vk.com"; "vk.com"])) as Hrun.
  { apply (rtc_l _ _ (mkHostLimiter 2 (<["vk.com" := 1]> ∅), ["vk.com"])).
    - by apply hl_step_acquire.
    - apply rtc_once. by apply hl_step_acquire. }
  split; [exact Hrun|].
  apply (host_limiter_safe 2 (mkHostLimiter 2 ∅) _ _ eq_refl Hrun); done.
Defined.

(** A deferred poll comes back between one minute and one minute and 30 s later. *)
Lemma hostBusyRetry_bounds now id : 0 <= id →
  now + minute <= hostBusyRetry now id <= now + minute + 30 * second.
Proof.
  intros Hid. unfold hostBusyRetry, time_add. pose proof (Z.rem_bound_pos id 31).
  unfold minute, second. lia.
Qed.
