(* ===== verification/TtlCache.v ===== *)
(** The per-id cache with a fixed time to live ([service/ttl_cache.go]) that the
    refresher keeps its filters and subscriptions in.  Every operation runs
    under the cache's mutex, so a run is a sequence of operations, each at the
    clock's reading. *)

From S2P Require Import Prelude.

(** * Definitions *)

Section Ttl_cache.
Context {V : Type}.

(** service/ttl_cache.go [ttlCacheItem] *)
Record ttlCacheItem := mkItem { it_at : Z; it_val : V }.

(** service/ttl_cache.go [ttlCache] A nil map is the empty one. *)
Record ttlCache := mkTtlCache { tc_items : gmap Z ttlCacheItem }.

Definition ttl_new : ttlCache := mkTtlCache ∅.

(** service/ttl_cache.go [ttlCache.get] *)
Definition ttl_get (c : ttlCache) (now id ttl : Z) : ttlCache * option V :=
  match tc_items c !! id with
  | None => (c, None)
  | Some it =>
      if ttl <=? time_sub now (it_at it) then (mkTtlCache (delete id (tc_items c)), None)
      else (c, Some (it_val it))
  end.

(** service/ttl_cache.go [ttlCache.put] *)
Definition ttl_put (c : ttlCache) (now id : Z) (v : V) : ttlCache :=
  mkTtlCache (<[id := mkItem now v]> (tc_items c)).

(** service/ttl_cache.go [ttlCache.invalidate] *)
Definition ttl_invalidate (c : ttlCache) (id : Z) : ttlCache :=
  if id <=? 0 then mkTtlCache ∅ else mkTtlCache (delete id (tc_items c)).

(** The operations of a run and their effect, with one [ttl] for all reads. *)
Inductive ttl_op := OpGet (id : Z) | OpPut (id : Z) (v : V) | OpInvalidate (id : Z).

Definition ttl_do (ttl : Z) (c : ttlCache) (e : Z * ttl_op) : ttlCache :=
  match e.2 with
  | OpGet id => (ttl_get c e.1 id ttl).1
  | OpPut id v => ttl_put c e.1 id v
  | OpInvalidate id => ttl_invalidate c id
  end.

Definition ttl_run (ttl : Z) (tr : list (Z * ttl_op)) : ttlCache :=
  foldl (ttl_do ttl) ttl_new tr.

(** The specification: what the last put of [id] stored that no later
    invalidation dropped.  The history is scanned oldest first. *)
Definition spec_step (id : Z) (s : option (Z * V)) (e : Z * ttl_op) : option (Z * V) :=
  match e.2 with
  | OpGet _ => s
  | OpPut id' v => if id' =? id then Some (e.1, v) else s
  | OpInvalidate id' => if (id' <=? 0) || (id' =? id) then None else s
  end.

Definition last_stored (id : Z) (tr : list (Z * ttl_op)) : option (Z * V) :=
  foldl (spec_step id) None tr.

(** * Lemmas *)

(** The cache after a run up to [now]: an entry is what was last stored, and a
    stored value that is missing has already expired. *)
Definition ttl_inv (ttl now : Z) (c : ttlCache) (s : Z → option (Z * V)) : Prop :=
  ∀ id, match s id with
        | None => tc_items c !! id = None
        | Some (t, v) =>
            t <= now ∧ (tc_items c !! id = Some (mkItem t v) ∨
                        (tc_items c !! id = None ∧ (ttl <=? time_sub now t) = true))
        end.

Lemma time_sub_mono t u u' : u <= u' → time_sub u t <= time_sub u' t.
Proof.
  unfold time_sub, min_int64, max_int64. intros. repeat case_match; bool_to_prop; lia.
Qed.

Lemma ttl_inv_later ttl now now' c s : now <= now' → ttl_inv ttl now c s → ttl_inv ttl now' c s.
Proof.
  intros Hle Hi id. specialize (Hi id). destruct (s id) as [[t v]|]; [|done].
  destruct Hi as [Ht [?|[? Hx]]]; (split; [lia|]); [by left|right; split; [done|]].
  pose proof (time_sub_mono t now now' Hle). bool_to_prop. apply Z.leb_le. lia.
Qed.

Lemma ttl_do_inv ttl now c e s :
  e.1 = now → ttl_inv ttl now c s →
  ttl_inv ttl now (ttl_do ttl c e) (λ id, spec_step id (s id) e).
Proof.
  destruct e as [t op]. cbn [fst]. intros -> Hi. destruct op as [k|k v|k]; intros id;
    specialize (Hi id); unfold ttl_do, spec_step; cbn [fst snd].
  - unfold ttl_get. destruct (tc_items c !! k) as [it|] eqn:Hk; [|exact Hi].
    destruct (Z.leb_spec ttl (time_sub now (it_at it))) as [Hx|Hx]; [|exact Hi].
    destruct (decide (id = k)) as [->|Hne]; cbn [fst tc_items].
    + rewrite lookup_delete_eq. rewrite Hk in Hi. apply Z.leb_le in Hx.
      destruct (s k) as [[t' v]|]; [|done].
      destruct Hi as [? [?|[? ?]]]; simplify_eq/=; auto.
    + by rewrite lookup_delete_ne.
  - destruct (Z.eqb_spec k id) as [->|Hne]; cbn [tc_items ttl_put].
    + rewrite lookup_insert_eq. split; [lia|by left].
    + by rewrite lookup_insert_ne.
  - unfold ttl_invalidate. destruct (Z.leb_spec k 0); cbn [orb tc_items]; [by rewrite lookup_empty|].
    destruct (Z.eqb_spec k id) as [->|Hne]; cbn [tc_items].
    + by rewrite lookup_delete_eq.
    + by rewrite lookup_delete_ne.
Qed.

(** The clock's readings never go back ([time.Since] uses the monotonic clock). *)
Definition clock_ok (tr : list (Z * ttl_op)) (now : Z) : Prop :=
  Sorted Z.le (tr.*1 ++ [now]).

Lemma Sorted_snoc_le (l : list Z) x y : Sorted Z.le ((l ++ [x]) ++ [y]) →
  Sorted Z.le (l ++ [x]) ∧ x <= y.
Proof.
  induction l as [|a l IH]; simpl; intros Hs; inv Hs.
  - split; [by repeat constructor|]. by match goal with H : HdRel _ _ _ |- _ => inv H end.
  - destruct (IH ltac:(done)) as [? ?]. split; [|done]. constructor; [done|].
    destruct l; simpl in *; by constructor; match goal with H : HdRel _ _ _ |- _ => inv H end.
Qed.

Lemma ttl_run_inv ttl tr now : clock_ok tr now →
  ttl_inv ttl now (ttl_run ttl tr) (λ id, last_stored id tr).
Proof.
  unfold clock_ok. revert now. induction tr as [|[t op] tr IH] using rev_ind; intros now Hs.
  - intros id. done.
  - rewrite fmap_app in Hs. simpl in Hs. apply Sorted_snoc_le in Hs as [Hs Hle].
    apply (ttl_inv_later _ t); [done|]. unfold ttl_run, last_stored.
    intros id. rewrite !foldl_snoc.
    exact (ttl_do_inv ttl t (ttl_run ttl tr) (t, op) (λ id, last_stored id tr) eq_refl (IH t Hs) id).
Qed.

(** * Properties *)

(** After any run of gets, puts and invalidations, a get returns a value
    exactly when the last put of that id, not invalidated since, is younger
    than the time to live, and then it is that put's value: expiry deletes
    only what no later get could have returned, and invalidating an id [<= 0]
    empties the cache. *)
Lemma ttl_cache_fresh (ttl now id : Z) (tr : list (Z * ttl_op)) (Hclock : clock_ok tr now) :
  (ttl_get (ttl_run ttl tr) now id ttl).2 =
    match last_stored id tr with
    | Some (t, v) => if time_sub now t <? ttl then Some v else None
    | None => None
    end.
Proof.
  pose proof (ttl_run_inv ttl tr now Hclock id) as Hi. unfold ttl_get.
  destruct (last_stored id tr) as [[t v]|]; [|by rewrite Hi].
  rewrite Z.ltb_antisym. destruct Hi as [_ [->|[-> ->]]]; [|done]. simpl. by case_match.
Qed.

End Ttl_cache.
Arguments ttlCache : clear implicits.
Arguments ttl_op : clear implicits.

Lemma ttl_cache_fresh_witness :
  let tr := [(0, OpPut 7 "a"); (4, OpGet 7); (5, OpPut 7 "b"); (6, OpInvalidate 8); (7, OpGet 7)] in
  (ttl_get (ttl_run 10 tr) 14 7 10).2 = Some "b" ∧ (ttl_get (ttl_run 10 tr) 15 7 10).2 = None.
Proof.
  intros tr. split; (rewrite ttl_cache_fresh; [reflexivity|]);
    unfold clock_ok; simpl; repeat first [apply Sorted_cons | apply Sorted_nil | apply HdRel_cons
                                         | apply HdRel_nil | lia].
Defined.
