(* ===== verification/FilterEngine.v ===== *)
(** The filter engine ([filter/engine.go], [filter/query.go]): validation and
    compilation of a filter's rules, the compiled-filter cache keyed by
    [(id, updated_at)], feed scopes, the left-to-right fold of the rules and the
    batched evaluation of [query] rules.  The [regexp] package is a parameter:
    a compiled expression and its [MatchString]. *)

From S2P Require Import Prelude GoStrings Types.

(** * Definitions *)

(** filter/engine.go [Config] *)
Record Config := mkConfig { MaxRulesPerFilter : Z; MaxRegexLength : Z }.

(** The errors of the package; the two [%]-formatted ones keep their argument. *)
Inductive filter_err :=
| ErrTooManyRules (n : Z)
| ErrFirstRuleOr
| ErrEmptyRegex
| ErrRegexTooLong (n : Z)
| ErrInvalidField (field : string)
| ErrCompileRegex
| ErrQueryRulesUnsupported
| ErrQueryMatcher.

(** filter/engine.go [MatchContext] A nil [QueryHits] is [None]. *)
Record MatchContext := mkMatchContext {
  mc_feed_id : Z;
  mc_category_id : option Z;
  mc_query_hits : option (gmap string bool);
}.

(** filter/engine.go [RuleMatchInfo] *)
Record RuleMatchInfo := mkRuleMatchInfo {
  ri_rule_id : Z; ri_field : string; ri_pattern : string;
  ri_negate : bool; ri_op : string; ri_matched : bool;
}.

(** filter/engine.go [MatchResult] *)
Record MatchResult := mkMatchResult {
  mr_filter_id : Z; mr_matched : bool; mr_rules : list RuleMatchInfo;
}.

(** filter/engine.go [Match] The details before their JSON encoding. *)
Record Match := mkMatch { m_filter_id : Z; m_details : MatchResult }.

(** filter/engine.go [cacheKey] *)
Definition cacheKey : Type := Z * Z.

(** filter/engine.go [isAllowedField] *)
Definition isAllowedField (f : string) : bool :=
  bool_decide (f ∈ ["title"; "content"; "both"; "author"; "url"; "query"]%string).

(** filter/engine.go [normalizeFeedScope] *)
Definition normalizeFeedScope (scope : string) : string :=
  let s := to_lower (trim_space scope) in
  if String.eqb s "include" || String.eqb s "exclude" then s else "all".

Definition maxMatchFieldBytes : Z := 256 * 1024.

(** filter/engine.go [clipMatchField] *)
Definition clipMatchField (s : string) : string :=
  if Z.of_nat (String.length s) <=? maxMatchFieldBytes then s
  else String.substring 0 (Z.to_nat maxMatchFieldBytes) s.

(** filter/engine.go [fieldValue] *)
Definition fieldValue (e : Entry) (field : string) : string :=
  if String.eqb field "title" then clipMatchField (e_title e)
  else if String.eqb field "content" then clipMatchField (e_content e)
  else if String.eqb field "author" then
    match e_author e with None => "" | Some a => clipMatchField a end
  else if String.eqb field "url" then clipMatchField (e_url e)
  else "".

(** filter/engine.go [ParseActionParamID] *)
Definition ParseActionParamID (param : string) : option Z :=
  let param := trim_space param in
  if String.eqb param "" then None
  else match parse_int64 param with
       | None => None
       | Some id => if id <=? 0 then None else Some id
       end.

(** filter/query.go:30-43 [QueryPatterns, the loop over one filter's rules]
    [out] is the list built so far; [seen] is the set of its elements. *)
Definition query_patterns_step (out : list string) (r : FilterRule) : list string :=
  if negb (String.eqb (to_lower (trim_space (fr_field r))) "query") then out
  else let pat := trim_space (fr_pattern r) in
       if String.eqb pat "" then out
       else if bool_decide (pat ∈ out) then out
       else out ++ [pat].

(** filter/query.go [QueryPatterns] *)
Definition QueryPatterns (filters : list Filter) : list string :=
  foldl query_patterns_step [] (filters ≫= fl_rules).

(** storage/filter_query.go:13-18 [QueryMatchItem] *)
Record QueryMatchItem := mkQueryMatchItem { qi_entry_id : Z; qi_title : string; qi_content : string }.

(** filter/query.go [QueryItemFromEntry] *)
Definition QueryItemFromEntry (e : Entry) : QueryMatchItem :=
  mkQueryMatchItem (e_id e) (e_title e) (e_content e).

(** filter/query.go:66-70 [QueryHits, the map of one item] *)
Definition hits_of_row (patterns : list string) (row : option (list bool)) : gmap string bool :=
  list_to_map (reverse (imap (λ j pat, (pat, default false (row ≫= λ bs : list bool, bs !! j))) patterns)).

(** filter/query.go [QueryHits] The matcher is the batched SQL of
    [storage.MatchEntryQueries]; [None] is a nil interface. *)
Definition QueryHits (m : option (list QueryMatchItem → list string → option (list (list bool))))
    (filters : list Filter) (items : list QueryMatchItem)
    : filter_err + option (list (gmap string bool)) :=
  let patterns := QueryPatterns filters in
  match patterns, items with
  | [], _ | _, [] => inr None
  | _, _ =>
      match m with
      | None => inl ErrQueryRulesUnsupported
      | Some m =>
          match m items patterns with
          | None => inl ErrQueryMatcher
          | Some rows => inr (Some (imap (λ i _, hits_of_row patterns (rows !! i)) items))
          end
      end
  end.

Section Engine.
Context {regex : Type} (re_compile : string → option regex) (re_match : regex → string → bool).

(** filter/engine.go [compiledRule] *)
Record compiledRule := mkCompiledRule {
  cr_rule_id : Z; cr_field : string; cr_pattern : string;
  cr_negate : bool; cr_op : string; cr_re : option regex;
}.

(** filter/engine.go [compiledFilter] *)
Record compiledFilter := mkCompiledFilter {
  cf_filter_id : Z; cf_match_any : bool; cf_inverse : bool; cf_feed_scope : string;
  cf_scope_items : list FilterScopeItem; cf_rules : list compiledRule; cf_has_query : bool;
}.

(** filter/engine.go [Engine] *)
Record Engine := mkEngine { en_cfg : Config; en_cache : gmap cacheKey compiledFilter }.

(** filter/engine.go [New] *)
Definition New (cfg : Config) : Engine :=
  mkEngine
    (mkConfig (if MaxRulesPerFilter cfg <=? 0 then 50 else MaxRulesPerFilter cfg)
              (if MaxRegexLength cfg <=? 0 then 2048 else MaxRegexLength cfg)) ∅.

(** filter/engine.go [Engine.Limits] *)
Definition Limits (e : Engine) : Z * Z :=
  (MaxRulesPerFilter (en_cfg e), MaxRegexLength (en_cfg e)).

(** filter/engine.go:263-297 [compileFilter, the body of the loop] *)
Definition compileRule (maxRegexLen : Z) (r : FilterRule) : filter_err + compiledRule :=
  let pat := trim_space (fr_pattern r) in
  if String.eqb pat "" then inl ErrEmptyRegex
  else if (0 <? maxRegexLen) && (maxRegexLen <? Z.of_nat (String.length pat)) then
    inl (ErrRegexTooLong (Z.of_nat (String.length pat)))
  else
    let field := to_lower (trim_space (fr_field r)) in
    if negb (isAllowedField field) then inl (ErrInvalidField field)
    else
      let op := to_lower (trim_space (fr_op r)) in
      let op := if String.eqb op "" then "and" else op in
      let mk := mkCompiledRule (fr_id r) field pat (fr_negate r) op in
      if String.eqb field "query" then inr (mk None)
      else match re_compile pat with
           | None => inl ErrCompileRegex
           | Some re => inr (mk (Some re))
           end.

Fixpoint compileRules (maxRegexLen : Z) (rs : list FilterRule) : filter_err + list compiledRule :=
  match rs with
  | [] => inr []
  | r :: rs =>
      match compileRule maxRegexLen r with
      | inl e => inl e
      | inr cr => match compileRules maxRegexLen rs with
                  | inl e => inl e
                  | inr crs => inr (cr :: crs)
                  end
      end
  end.

(** filter/engine.go [compileFilter] *)
Definition compileFilter (f : Filter) (maxRegexLen : Z) : filter_err + compiledFilter :=
  match compileRules maxRegexLen (fl_rules f) with
  | inl e => inl e
  | inr crs =>
      inr (mkCompiledFilter (fl_id f) (fl_match_any_rule f) (fl_inverse f)
             (normalizeFeedScope (fl_feed_scope f)) (fl_scope_items f) crs
             (existsb (λ c, String.eqb (cr_field c) "query") crs))
  end.

(** filter/engine.go:216-219 [Engine.getCompiled, ver] [UnixNano] of an
    instant outside the int64 range wraps. *)
Definition filter_ver (f : Filter) : Z :=
  if time_is_zero (fl_updated_at f) then wrap64 zero_time else wrap64 (fl_updated_at f).

(** filter/engine.go [Engine.getCompiled] *)
Definition getCompiled (e : Engine) (f : Filter) : Engine * (filter_err + compiledFilter) :=
  match fl_rules f with
  | [] =>
      (e, inr (mkCompiledFilter (fl_id f) (fl_match_any_rule f) (fl_inverse f)
                 (normalizeFeedScope (fl_feed_scope f)) (fl_scope_items f) [] false))
  | _ =>
      let n := Z.of_nat (length (fl_rules f)) in
      if (0 <? MaxRulesPerFilter (en_cfg e)) && (MaxRulesPerFilter (en_cfg e) <? n) then
        (e, inl (ErrTooManyRules n))
      else
        let key := (fl_id f, filter_ver f) in
        match en_cache e !! key with
        | Some cached => (e, inr cached)
        | None =>
            match compileFilter f (MaxRegexLength (en_cfg e)) with
            | inl err => (e, inl err)
            | inr cf =>
                let kept := filter (λ kv, ¬ (kv.1.1 = fl_id f ∧ kv.1.2 ≠ filter_ver f)) (en_cache e) in
                (mkEngine (en_cfg e) (<[key := cf]> kept), inr cf)
            end
        end
  end.

(** filter/engine.go [Engine.ValidateRules] [None] is a nil error. *)
Definition ValidateRules (e : Engine) (rules : list FilterRule) : option filter_err :=
  let n := Z.of_nat (length rules) in
  if (0 <? MaxRulesPerFilter (en_cfg e)) && (MaxRulesPerFilter (en_cfg e) <? n) then
    Some (ErrTooManyRules n)
  else
    let copy r := mkFilterRule 0 (fr_field r) (fr_pattern r) (fr_negate r) (fr_op r) in
    let first_or := match rules with
                    | r :: _ => equal_fold (trim_space (fr_op r)) "or"
                    | [] => false
                    end in
    if first_or then Some ErrFirstRuleOr
    else match compileFilter
                 (mkFilter 0 0 false false false "" zero_time (copy <$> rules) [] [])
                 (MaxRegexLength (en_cfg e)) with
         | inl err => Some err
         | inr _ => None
         end.

(** filter/engine.go:180-185 [matchesFeedScope, the test of one scope item] *)
Definition scope_item_hits (ctx : MatchContext) (item : FilterScopeItem) : bool :=
  match fsi_feed_id item with Some i => i =? mc_feed_id ctx | None => false end
  || match fsi_category_id item, mc_category_id ctx with
     | Some c, Some c' => c =? c'
     | _, _ => false
     end.

(** filter/engine.go [matchesFeedScope] *)
Definition matchesFeedScope (cf : compiledFilter) (ctx : MatchContext) : bool :=
  if String.eqb (cf_feed_scope cf) "" || String.eqb (cf_feed_scope cf) "all" then true
  else if String.eqb (cf_feed_scope cf) "include" then
    match cf_scope_items cf with
    | [] => false
    | items => existsb (scope_item_hits ctx) items
    end
  else if String.eqb (cf_feed_scope cf) "exclude" then
    negb (existsb (scope_item_hits ctx) (cf_scope_items cf))
  else true.

(** The match of a rule that is never [None] for a field that needs one
    (compileFilter compiles every other rule). *)
Definition re_matches (re : option regex) (s : string) : bool :=
  match re with Some re => re_match re s | None => false end.

(** filter/engine.go [ruleMatches] *)
Definition ruleMatches (entry : Entry) (ctx : MatchContext) (r : compiledRule) : bool :=
  let ok :=
    if String.eqb (cr_field r) "query" then
      match mc_query_hits ctx with
      | None => false
      | Some hits => default false (hits !! cr_pattern r)
      end
    else if String.eqb (cr_field r) "both" then
      re_matches (cr_re r) (clipMatchField (e_title entry))
      || re_matches (cr_re r) (clipMatchField (e_content entry))
    else re_matches (cr_re r) (fieldValue entry (cr_field r)) in
  if cr_negate r then negb ok else ok.

(** filter/engine.go:314-334 [matchCompiled, the body of the loop] The
    accumulator is [agg], [None] while [initialized] is false. *)
Definition match_step (any : bool) (ok : compiledRule → bool) (agg : option bool)
    (r : compiledRule) : option bool :=
  match agg with
  | None => Some (ok r)
  | Some agg =>
      Some (if any then agg || ok r
            else if String.eqb (cr_op r) "or" then agg || ok r
            else agg && ok r)
  end.

(** filter/engine.go [matchCompiled] *)
Definition matchCompiled (entry : Entry) (ctx : MatchContext) (f : compiledFilter) : MatchResult :=
  match cf_rules f with
  | [] => mkMatchResult (cf_filter_id f) false []
  | rules =>
      let agg := default false (foldl (match_step (cf_match_any f) (ruleMatches entry ctx)) None rules) in
      mkMatchResult (cf_filter_id f) (if cf_inverse f then negb agg else agg)
        ((λ r, mkRuleMatchInfo (cr_rule_id r) (cr_field r) (cr_pattern r) (cr_negate r)
                 (cr_op r) (ruleMatches entry ctx r)) <$> rules)
  end.

(** filter/engine.go [Engine.matchEntry] *)
Fixpoint matchEntry (e : Engine) (entry : Entry) (ctx : MatchContext) (filters : list Filter)
    (strict : bool) : Engine * (filter_err + list Match) :=
  match filters with
  | [] => (e, inr [])
  | f :: fs =>
      let '(e, r) := getCompiled e f in
      match r with
      | inl err => if strict then (e, inl err) else matchEntry e entry ctx fs strict
      | inr cf =>
          if negb (matchesFeedScope cf ctx) then matchEntry e entry ctx fs strict
          else if strict && cf_has_query cf && bool_decide (mc_query_hits ctx = None) then
            (e, inl ErrQueryRulesUnsupported)
          else
            let mr := matchCompiled entry ctx cf in
            if negb (mr_matched mr) then matchEntry e entry ctx fs strict
            else match matchEntry e entry ctx fs strict with
                 | (e, inl err) => (e, inl err)
                 | (e, inr out) => (e, inr (mkMatch (fl_id f) mr :: out))
                 end
      end
  end.

(** filter/engine.go [Engine.MatchEntryWithContext] *)
Definition MatchEntryWithContext (e : Engine) entry ctx filters := matchEntry e entry ctx filters false.

(** filter/engine.go [Engine.MatchEntryWithContextStrict] *)
Definition MatchEntryWithContextStrict (e : Engine) entry ctx filters := matchEntry e entry ctx filters true.

(** filter/engine.go [Engine.MatchEntry] *)
Definition MatchEntry (e : Engine) (entry : Entry) filters :=
  MatchEntryWithContext e entry (mkMatchContext (e_feed_id entry) None None) filters.

(** filter/engine.go [Engine.MatchEntryStrict] *)
Definition MatchEntryStrict (e : Engine) (entry : Entry) filters :=
  MatchEntryWithContextStrict e entry (mkMatchContext (e_feed_id entry) None None) filters.

End Engine.

Arguments compiledRule : clear implicits.
Arguments compiledFilter : clear implicits.
Arguments Engine : clear implicits.

(** * The specification *)

Section Spec.
Context {regex : Type} (re_compile : string → option regex) (re_match : regex → string → bool).
Implicit Types (e : Engine regex) (f : Filter) (cf : compiledFilter regex) (r : compiledRule regex).

(** The compilation without the cache. *)
Definition compile_spec (cfg : Config) (f : Filter) : filter_err + compiledFilter regex :=
  (getCompiled re_compile (mkEngine cfg ∅) f).2.

(** What one filter contributes to a lenient match. *)
Definition filter_spec (cfg : Config) (entry : Entry) (ctx : MatchContext) (f : Filter)
    : option Match :=
  match compile_spec cfg f with
  | inl _ => None
  | inr cf =>
      let mr := matchCompiled re_match entry ctx cf in
      if matchesFeedScope cf ctx && mr_matched mr then Some (mkMatch (fl_id f) mr) else None
  end.

(** The strict match: the first error of any filter wins. *)
Fixpoint strict_spec (cfg : Config) (entry : Entry) (ctx : MatchContext) (fs : list Filter)
    : filter_err + list Match :=
  match fs with
  | [] => inr []
  | f :: fs =>
      match compile_spec cfg f with
      | inl err => inl err
      | inr cf =>
          if matchesFeedScope cf ctx && cf_has_query cf && bool_decide (mc_query_hits ctx = None)
          then inl ErrQueryRulesUnsupported
          else match strict_spec cfg entry ctx fs with
               | inl err => inl err
               | inr out => inr (match filter_spec cfg entry ctx f with
                                 | Some m => m :: out
                                 | None => out
                                 end)
               end
      end
  end.

(** A rule joins with "or": every rule does when the filter matches any rule. *)
Definition joins_or (any : bool) (r : compiledRule regex) : bool := any || String.eqb (cr_op r) "or".

(** [(id, updated_at)] identifies a filter among the filters the engine is
    given: what [storage.UpdateFilter] maintains by touching [updated_at]. *)
Definition versioned (U : Filter → Prop) : Prop :=
  ∀ f g, U f → U g → fl_id f = fl_id g → filter_ver f = filter_ver g → f = g.

(** A cache entry is the compilation of a filter with that key, and every
    filter id has at most one entry. *)
Definition cache_ok (U : Filter → Prop) (e : Engine regex) : Prop :=
  (∀ k cf, en_cache e !! k = Some cf →
     ∃ f, U f ∧ k = (fl_id f, filter_ver f) ∧ fl_rules f ≠ [] ∧
          compileFilter re_compile f (MaxRegexLength (en_cfg e)) = inr cf) ∧
  (∀ id v v', is_Some (en_cache e !! (id, v)) → is_Some (en_cache e !! (id, v')) → v = v').

(** The calls an engine serves over its life. *)
Definition match_call : Type := Entry * MatchContext * list Filter * bool.

Definition engine_run (e : Engine regex) (calls : list match_call) : Engine regex :=
  foldl (λ e '(entry, ctx, fs, strict),
           (matchEntry re_compile re_match e entry ctx fs strict).1) e calls.

(** * Lemmas *)

Lemma getCompiled_cfg e f : en_cfg (getCompiled re_compile e f).1 = en_cfg e.
Proof. unfold getCompiled. by repeat case_match. Qed.

Lemma getCompiled_ok U e f : versioned U → U f → cache_ok U e →
  cache_ok U (getCompiled re_compile e f).1 ∧
  (getCompiled re_compile e f).2 = compile_spec (en_cfg e) f.
Proof.
  intros HU Hf Hok. unfold compile_spec, getCompiled. cbn [en_cfg en_cache].
  destruct (fl_rules f) as [|r0 rs] eqn:Hr; [done|]. case_match; [done|].
  rewrite lookup_empty. destruct Hok as [Hok Huniq].
  destruct (en_cache e !! _) as [cached|] eqn:Hc.
  - split; [done|]. destruct (Hok _ _ Hc) as (g & Hg & Hk & _ & Hcg). simplify_eq.
    assert (f = g) as -> by (by apply HU). by rewrite Hcg.
  - destruct (compileFilter _ _ _) as [err|cf] eqn:Hcf; [done|]. split; [|done]. split.
    + cbn [en_cache en_cfg fst]. intros k cf' Hk. apply lookup_insert_Some in Hk as [[<- <-]|[_ Hk]].
      * exists f. rewrite Hr. done.
      * apply map_lookup_filter_Some in Hk as [Hk _]. by apply Hok.
    + cbn [en_cache en_cfg fst]. intros id v v' [x Hx] [y Hy].
      apply lookup_insert_Some in Hx as [[? _]|[Hn Hx]];
        apply lookup_insert_Some in Hy as [[? _]|[Hn' Hy]]; simplify_eq; try done.
      * apply map_lookup_filter_Some in Hy as [_ Hy]. simpl in Hy.
        destruct (decide (filter_ver f = v')); [done|]. destruct Hy. naive_solver.
      * apply map_lookup_filter_Some in Hx as [_ Hx]. simpl in Hx.
        destruct (decide (v = filter_ver f)); [done|]. destruct Hx. naive_solver.
      * apply map_lookup_filter_Some in Hx as [Hx _]. apply map_lookup_filter_Some in Hy as [Hy _].
        by apply (Huniq id).
Qed.

Lemma matchEntry_ok U e entry ctx fs strict :
  versioned U → (∀ f, f ∈ fs → U f) → cache_ok U e →
  let r := matchEntry re_compile re_match e entry ctx fs strict in
  cache_ok U r.1 ∧ en_cfg r.1 = en_cfg e ∧
  r.2 = if strict then strict_spec (en_cfg e) entry ctx fs
        else inr (omap (filter_spec (en_cfg e) entry ctx) fs).
Proof.
  intros HU. revert e. induction fs as [|f fs IH]; intros e Hfs Hok; [by destruct strict|].
  destruct (getCompiled_ok U e f HU (Hfs f ltac:(left)) Hok) as [Hok' Hc].
  pose proof (getCompiled_cfg e f) as Hcfg. cbn zeta. cbn [matchEntry].
  destruct (getCompiled re_compile e f) as [e' rr] eqn:Hg. cbn [fst snd] in Hok', Hc, Hcfg.
  destruct (IH e' (λ g Hg, Hfs g (list_elem_of_further _ _ _ Hg)) Hok') as (IH1 & IH2 & IH3).
  rewrite Hcfg in IH2, IH3. cbn [omap list_omap strict_spec]. unfold filter_spec at 1 2. rewrite <-Hc.
  destruct rr as [err|cf]; [by destruct strict|].
  destruct (matchesFeedScope cf ctx); cbn [negb andb].
  2:{ split; [done|]. split; [done|]. rewrite IH3. by destruct strict; [destruct (strict_spec _ _ _ _)|]. }
  destruct strict; cbn [andb].
  - case_match; [done|]. destruct (mr_matched _); cbn [negb].
    + destruct (matchEntry _ _ e' _ _ _ _) as [e2 r2]. cbn [fst snd] in *. subst r2.
      by destruct (strict_spec _ _ _ _).
    + split; [done|]. split; [done|]. rewrite IH3. by destruct (strict_spec _ _ _ _).
  - destruct (mr_matched _); cbn [negb].
    + destruct (matchEntry _ _ e' _ _ _ _) as [e2 r2]. cbn [fst snd] in *. by subst r2.
    + done.
Qed.

Lemma engine_run_ok U e calls :
  versioned U → (∀ c, c ∈ calls → ∀ f, f ∈ c.1.2 → U f) → cache_ok U e →
  cache_ok U (engine_run e calls) ∧ en_cfg (engine_run e calls) = en_cfg e.
Proof.
  intros HU. revert e. induction calls as [|[[[entry ctx] fs] strict] calls IH]; intros e Hc Hok; [done|].
  unfold engine_run. simpl. fold (engine_run (matchEntry re_compile re_match e entry ctx fs strict).1 calls).
  destruct (matchEntry_ok U e entry ctx fs strict HU) as (H1 & H2 & _);
    [intros f Hf; apply (Hc (entry, ctx, fs, strict)); [left|done]|done|].
  destruct (IH _ (λ c Hc', Hc c (list_elem_of_further _ _ _ Hc')) H1) as [? ->]. by split.
Qed.

(** A rule that decides a disjunct: it holds, it starts the filter or joins
    with "or", and every later rule that joins with "and" holds as well. *)
Definition decides (any : bool) (ok : compiledRule regex → bool) (r : compiledRule regex)
    (post : list (compiledRule regex)) : Prop :=
  ok r = true ∧ Forall (λ r', joins_or any r' = false → ok r' = true) post.

Lemma match_fold_spec any ok a rs :
  ∃ b, foldl (match_step any ok) (Some a) rs = Some b ∧
    (b = true ↔
      (a = true ∧ Forall (λ r, joins_or any r = false → ok r = true) rs) ∨
      ∃ pre r post, rs = pre ++ r :: post ∧ joins_or any r = true ∧ decides any ok r post).
Proof.
  revert a. induction rs as [|r rs IH]; intros a.
  - exists a. split; [done|]. split; [by left|]. intros [[? _]|(pre & r & post & ? & _)]; [done|].
    by destruct pre.
  - simpl. set (a' := if any then _ else _). destruct (IH a') as (b & Hb & IHb). exists b.
    split; [done|]. rewrite IHb, Forall_cons.
    assert (a' = true ↔ if joins_or any r then a = true ∨ ok r = true else a = true ∧ ok r = true)
      as Ha'.
    { unfold a', joins_or. destruct any, (String.eqb _ _), a, (ok r); naive_solver. }
    split.
    + intros [[Ha Hrs]|(pre & r' & post & -> & ?)].
      * apply Ha' in Ha. destruct (joins_or any r) eqn:Hj; [|naive_solver].
        destruct Ha as [Ha|Ha]; [left; naive_solver|]. right. exists [], r, rs. done.
      * right. by exists (r :: pre), r', post.
    + intros [(Ha & Hr & Hrs)|(pre & r' & post & Heq & Hj & Hd)].
      * left. split; [|done]. apply Ha'. destruct (joins_or any r); naive_solver.
      * destruct pre as [|x pre]; simplify_eq/=.
        -- left. destruct Hd as [? ?]. split; [|done]. apply Ha'. rewrite Hj. by right.
        -- right. by exists pre, r', post.
Qed.

Lemma compileRules_spec n rs crs : compileRules re_compile n rs = inr crs →
  Forall2 (λ fr cr, compileRule re_compile n fr = inr cr) rs crs.
Proof.
  revert crs. induction rs as [|fr rs IH]; intros crs H; simpl in H; repeat case_match; simplify_eq;
    constructor; auto.
Qed.

Lemma compileRules_ok n rs : Forall (λ fr, ∃ cr, compileRule re_compile n fr = inr cr) rs ↔
  ∃ crs, compileRules re_compile n rs = inr crs.
Proof.
  split.
  - induction 1 as [|fr rs [cr Hcr] _ [crs Hcrs]]; simpl; [by eexists|]. rewrite Hcr, Hcrs. by eexists.
  - intros [crs H]. apply compileRules_spec in H. induction H; constructor; eauto.
Qed.

(** The part of a rule that decides how it compiles. *)
Definition rule_text (fr : FilterRule) : string * string * bool * string :=
  (fr_field fr, fr_pattern fr, fr_negate fr, fr_op fr).

(** The normal form of a rule: trimmed, lower-cased, a missing op is "and". *)
Definition rule_norm (fr : FilterRule) : string * string * bool * string :=
  let op := to_lower (trim_space (fr_op fr)) in
  (to_lower (trim_space (fr_field fr)), trim_space (fr_pattern fr), fr_negate fr,
   if String.eqb op "" then "and" else op).

Definition compiled_text r : string * string * bool * string :=
  (cr_field r, cr_pattern r, cr_negate r, cr_op r).

Lemma compileRule_text n fr fr' : rule_text fr = rule_text fr' →
  (∃ cr, compileRule re_compile n fr = inr cr) → ∃ cr, compileRule re_compile n fr' = inr cr.
Proof.
  unfold rule_text, compileRule. intros Heq [cr Hcr]. injection Heq as H1 H2 H3 H4.
  rewrite H1, H2 in Hcr. repeat case_match; by eauto.
Qed.

Lemma compileRule_norm n fr cr : compileRule re_compile n fr = inr cr →
  compiled_text cr = rule_norm fr.
Proof. unfold compileRule, compiled_text, rule_norm. intros. repeat case_match; by simplify_eq/=. Qed.

Lemma compileRules_text n rs rs' : rule_text <$> rs = rule_text <$> rs' →
  (∃ crs, compileRules re_compile n rs = inr crs) →
  ∃ crs, compileRules re_compile n rs' = inr crs ∧ compiled_text <$> crs = rule_norm <$> rs'.
Proof.
  intros Heq Hok. apply compileRules_ok in Hok.
  assert (∃ crs, compileRules re_compile n rs' = inr crs) as [crs Hcrs].
  { apply compileRules_ok. revert rs' Heq. induction Hok as [|fr rs Hfr _ IH]; intros [|fr' rs'] Heq;
      try done.
    apply (f_equal list.tail) in Heq as Ht. apply (f_equal head) in Heq as Hh.
    constructor; [|by apply IH]. apply (compileRule_text n fr fr'); [|done]. simpl in Hh. congruence. }
  exists crs. split; [done|]. apply compileRules_spec in Hcrs. clear Heq Hok.
  induction Hcrs as [|fr cr rs0 crs Hfr _ IH]; [done|]. rewrite !fmap_cons, IH.
  by rewrite (compileRule_norm _ _ _ Hfr).
Qed.

Lemma new_cache_ok U cfg : cache_ok U (New cfg).
Proof.
  split; [intros k cf Hk|intros id v v' [? Hx]]; cbn [en_cache New] in *;
    by rewrite lookup_empty in *.
Qed.

(** * Properties *)

(** What a compiled filter matches.  A filter without rules matches
    nothing, inverted or not.  Otherwise the left-to-right fold holds exactly
    when some rule that starts the filter or joins with "or" holds together
    with every later rule that joins with "and" ("match any" makes every
    join an "or"; the op of the first rule is never consulted), and an
    inverse filter matches exactly when the fold does not hold. *)
Lemma match_compiled_spec (entry : Entry) (ctx : MatchContext) cf :
  mr_matched (matchCompiled re_match entry ctx cf) = true ↔
    cf_rules cf ≠ [] ∧
    ((∃ pre r post, cf_rules cf = pre ++ r :: post ∧
        (pre = [] ∨ joins_or (cf_match_any cf) r = true) ∧
        decides (cf_match_any cf) (ruleMatches re_match entry ctx) r post)
     ↔ cf_inverse cf = false).
Proof.
  unfold matchCompiled. destruct (cf_rules cf) as [|r0 rs]; [naive_solver|].
  cbn [mr_matched foldl match_step].
  destruct (match_fold_spec (cf_match_any cf) (ruleMatches re_match entry ctx)
              (ruleMatches re_match entry ctx r0) rs) as (b & -> & Hb). cbn [default].
  assert (b = true ↔ ∃ pre r post, r0 :: rs = pre ++ r :: post ∧
        (pre = [] ∨ joins_or (cf_match_any cf) r = true) ∧
        decides (cf_match_any cf) (ruleMatches re_match entry ctx) r post) as <-.
  { rewrite Hb. split.
    - intros [[? ?]|(pre & r & post & -> & ? & ?)].
      + exists [], r0, rs. split; [done|]. split; [by left|]. by split.
      + exists (r0 :: pre), r, post. split; [done|]. split; [by right|]. done.
    - intros (pre & r & post & Heq & Hp & Hd). destruct pre as [|x pre]; simplify_eq/=.
      + left. exact Hd.
      + right. exists pre, r, post. by destruct Hp. }
  destruct (cf_inverse cf), b; naive_solver.
Qed.

(** The compiled-filter cache is unobservable.  Take an engine that has
    served any calls on filters among which [(id, updated_at)] identifies the
    content.  The next lenient call returns, in order, the match of every
    filter that compiles, is in scope and matches; the next strict call
    returns the same or the first filter's error; and the cache never holds
    two versions of one filter. *)
Lemma match_entry_cache_transparent (U : Filter → Prop) (cfg : Config) (calls : list match_call)
    (entry : Entry) (ctx : MatchContext) (fs : list Filter) (strict : bool)
    (HU : versioned U) (Hcalls : ∀ c, c ∈ calls → ∀ f, f ∈ c.1.2 → U f) (Hfs : ∀ f, f ∈ fs → U f) :
  let e := engine_run (New cfg) calls in
  let c := en_cfg (New (regex := regex) cfg) in
  (matchEntry re_compile re_match e entry ctx fs strict).2 =
    (if strict then strict_spec c entry ctx fs else inr (omap (filter_spec c entry ctx) fs)) ∧
  ∀ id v v', is_Some (en_cache e !! (id, v)) → is_Some (en_cache e !! (id, v')) → v = v'.
Proof.
  intros e c. destruct (engine_run_ok U (New cfg) calls HU Hcalls (new_cache_ok U cfg)) as [Hok Hcfg].
  destruct (matchEntry_ok U e entry ctx fs strict HU Hfs Hok) as (_ & _ & ->).
  unfold e at 1 2. rewrite Hcfg. split; [done|]. apply Hok.
Qed.

(** A rule list that [ValidateRules] accepts is never skipped later: every
    stored filter with those rules compiles, on every engine with the same
    limits and whatever its cache holds, and its compiled rules are the
    stored ones in order, trimmed and lower-cased, a missing op read as
    "and". *)
Lemma validated_rules_compile (e : Engine regex) (rules : list FilterRule) (f : Filter)
    (Hvalid : ValidateRules re_compile e rules = None)
    (Hsame : rule_text <$> fl_rules f = rule_text <$> rules) :
  (∀ err, (getCompiled re_compile e f).2 ≠ inl err) ∧
  ∃ cf, compile_spec (en_cfg e) f = inr cf ∧ compiled_text <$> cf_rules cf = rule_norm <$> fl_rules f.
Proof.
  unfold ValidateRules in Hvalid. destruct (_ && _) eqn:Hn; [done|]. case_match; [done|].
  unfold compileFilter at 1 in Hvalid. cbn [fl_rules] in Hvalid.
  destruct (compileRules _ _ (_ <$> rules)) as [|crs] eqn:Hc; [done|].
  destruct (compileRules_text (MaxRegexLength (en_cfg e)) ((λ fr, mkFilterRule 0 (fr_field fr)
    (fr_pattern fr) (fr_negate fr) (fr_op fr)) <$> rules) (fl_rules f)) as (crs' & Hcrs' & Htext).
  { rewrite Hsame, <-list_fmap_compose. done. }
  { by eexists. }
  assert (length (fl_rules f) = length rules) as Hlen.
  { by rewrite <-(length_fmap rule_text (fl_rules f)), Hsame, length_fmap. }
  unfold compile_spec, getCompiled, compileFilter. cbn [en_cfg en_cache].
  rewrite Hcrs', Hlen, Hn, lookup_empty. destruct (fl_rules f) as [|r0 rs].
  - split; [done|]. eexists. split; [done|]. done.
  - split; [intros err; by destruct (en_cache e !! _); simpl|]. eexists. split; [done|]. exact Htext.
Qed.

(** ** Query rules *)

Definition is_query_rule (fr : FilterRule) : Prop := to_lower (trim_space (fr_field fr)) = "query".

Lemma query_patterns_step_spec out fr p :
  p ∈ query_patterns_step out fr ↔
    p ∈ out ∨ (is_query_rule fr ∧ p = trim_space (fr_pattern fr) ∧ p ≠ "").
Proof.
  unfold query_patterns_step, is_query_rule.
  destruct (String.eqb_spec (to_lower (trim_space (fr_field fr))) "query"); cbn [negb]; [|naive_solver].
  destruct (String.eqb_spec (trim_space (fr_pattern fr)) ""); [naive_solver congruence|].
  case_bool_decide; [naive_solver|]. rewrite elem_of_app, list_elem_of_singleton. naive_solver.
Qed.

Lemma query_patterns_step_NoDup out fr : NoDup out → NoDup (query_patterns_step out fr).
Proof.
  unfold query_patterns_step. intros H. repeat case_match; try done. bool_to_prop.
  apply NoDup_app. split; [done|]. split; [|apply NoDup_singleton].
  intros x Hx ->%list_elem_of_singleton. done.
Qed.

Lemma query_patterns_fold out rs :
  (NoDup out → NoDup (foldl query_patterns_step out rs)) ∧
  ∀ p, p ∈ foldl query_patterns_step out rs ↔
    p ∈ out ∨ ∃ fr, fr ∈ rs ∧ is_query_rule fr ∧ p = trim_space (fr_pattern fr) ∧ p ≠ "".
Proof.
  revert out. induction rs as [|fr rs IH]; intros out; simpl.
  - split; [done|]. intros p. split; [by left|]. intros [?|(? & H & _)]; [done|]. by apply elem_of_nil in H.
  - destruct (IH (query_patterns_step out fr)) as [IH1 IH2]. split.
    + intros H. by apply IH1, query_patterns_step_NoDup.
    + intros p. rewrite IH2, query_patterns_step_spec. setoid_rewrite elem_of_cons. naive_solver.
Qed.

Lemma QueryPatterns_NoDup fs : NoDup (QueryPatterns fs).
Proof. apply query_patterns_fold, NoDup_nil_2. Qed.

Lemma QueryPatterns_elem fs f fr : f ∈ fs → fr ∈ fl_rules f → is_query_rule fr →
  trim_space (fr_pattern fr) ≠ "" → trim_space (fr_pattern fr) ∈ QueryPatterns fs.
Proof.
  intros Hf Hfr Hq Hp. apply query_patterns_fold. right. exists fr. split; [|done].
  apply list_elem_of_bind. by exists f.
Qed.

Lemma hits_of_row_lookup patterns row j p : NoDup patterns → patterns !! j = Some p →
  hits_of_row patterns row !! p = Some (default false (row ≫= λ bs : list bool, bs !! j)).
Proof.
  intros Hnd Hj. unfold hits_of_row. apply elem_of_list_to_map_1'.
  - intros y Hy. rewrite elem_of_reverse, elem_of_lookup_imap in Hy.
    destruct Hy as (j' & p' & Heq & Hj'). simplify_eq.
    by rewrite (NoDup_lookup _ _ _ _ Hnd Hj Hj').
  - rewrite elem_of_reverse, elem_of_lookup_imap. by exists j, p.
Qed.

(** A query rule compiled from a filter of [fs] is one [QueryPatterns] sees. *)
Lemma compiled_query_pattern n fs f r crs : f ∈ fs → compileRules re_compile n (fl_rules f) = inr crs →
  r ∈ crs → cr_field r = "query" → cr_pattern r ∈ QueryPatterns fs.
Proof.
  intros Hf Hc Hr Hq. apply compileRules_spec in Hc.
  apply list_elem_of_lookup in Hr as [i Hi]. destruct (Forall2_lookup_r _ _ _ _ _ Hc Hi) as (fr & Hfr & Hcr).
  apply list_elem_of_lookup_2 in Hfr.
  pose proof (compileRule_norm _ _ _ Hcr) as Hn. unfold compiled_text, rule_norm in Hn.
  injection Hn as H1 H2 _ _. rewrite H2. rewrite H1 in Hq. apply (QueryPatterns_elem _ f); try done.
  unfold compileRule in Hcr. by repeat case_match; bool_to_prop.
Qed.

(** Every [query] rule is decided by the batched SQL answer of its own
    pattern.  The patterns sent to the matcher are distinct; when
    [QueryHits] returns hits, they are one map per item, and a compiled query
    rule of any of the filters reads exactly the matcher's answer for that
    item and pattern (an answer the matcher left out counts as no match),
    negated when the rule is. *)
Lemma query_rules_evaluated
    (m : list QueryMatchItem → list string → option (list (list bool)))
    (fs : list Filter) (items : list QueryMatchItem) (hits : list (gmap string bool))
    (Hhits : QueryHits (Some m) fs items = inr (Some hits)) :
  NoDup (QueryPatterns fs) ∧ length hits = length items ∧
  ∃ rows, m items (QueryPatterns fs) = Some rows ∧
  ∀ cfg f cf r i h entry feed cat,
    f ∈ fs → compile_spec cfg f = inr cf → r ∈ cf_rules cf → cr_field r = "query" →
    hits !! i = Some h →
    ∃ j, QueryPatterns fs !! j = Some (cr_pattern r) ∧
         ruleMatches re_match entry (mkMatchContext feed cat (Some h)) r =
           xorb (cr_negate r) (default false (rows !! i ≫= λ row : list bool, row !! j)).
Proof.
  split; [apply QueryPatterns_NoDup|]. unfold QueryHits in Hhits.
  destruct (QueryPatterns fs) as [|p ps] eqn:Hps; [done|]. rewrite <-Hps in *.
  destruct items as [|it items]; [done|].
  destruct (m (it :: items) (QueryPatterns fs)) as [rows|] eqn:Hm; [|done].
  assert (hits = imap (λ i _, hits_of_row (QueryPatterns fs) (rows !! i)) (it :: items)) as ->
    by congruence.
  split; [apply length_imap|]. exists rows. split; [done|].
  intros cfg f cf r i h entry feed cat Hf Hcf Hr Hq Hh.
  apply list_lookup_imap_Some in Hh as (x & _ & ->).
  assert (cr_pattern r ∈ QueryPatterns fs) as [j Hj]%list_elem_of_lookup.
  { unfold compile_spec, getCompiled, compileFilter in Hcf. cbn [en_cfg en_cache] in Hcf.
    rewrite lookup_empty in Hcf. destruct (fl_rules f) as [|r0 rs] eqn:Hrs.
    - simplify_eq/=. by apply elem_of_nil in Hr.
    - case_match; [done|]. rewrite <-Hrs in *. destruct (compileRules _ _ _) as [|crs] eqn:Hc; [done|].
      simplify_eq/=. by apply (compiled_query_pattern _ _ _ _ _ Hf Hc). }
  exists j. split; [done|]. unfold ruleMatches. rewrite Hq. cbn [String.eqb mc_query_hits].
  rewrite (hits_of_row_lookup _ _ _ _ (QueryPatterns_NoDup fs) Hj). cbn [default].
  by destruct (cr_negate r), (default false _).
Qed.

(** With the same non-empty list of scope items, "include" and "exclude" split
    the feeds; without items the first admits nothing, the second everything. *)
Lemma scope_include_exclude cf cf' ctx :
  cf_feed_scope cf = "include" → cf_feed_scope cf' = "exclude" →
  cf_scope_items cf = cf_scope_items cf' →
  matchesFeedScope cf ctx = negb (matchesFeedScope cf' ctx).
Proof.
  intros H1 H2 H3. unfold matchesFeedScope. rewrite H1, H2, H3. simpl.
  by destruct (cf_scope_items cf'); rewrite ?negb_involutive.
Qed.

End Spec.

(** ** Witnesses

    The regular expressions of the witnesses are literal substrings. *)

Definition lit_compile (p : string) : option string := Some p.
Definition lit_match (re s : string) : bool := contains s re.

Definition wit_filter : Filter :=
  mkFilter 5 1 true false false "all" 100
    [mkFilterRule 1 "Title " "go" false ""; mkFilterRule 2 "content" "rust" true "AND";
     mkFilterRule 3 "query" " war " false "or"] [] [].
Definition wit_entry : Entry := mkEntry 1 9 "go news" "" "about go" None None "h" "unread".
Definition wit_ctx : MatchContext := mkMatchContext 9 None (Some ∅).
Definition wit_engine : Engine string := New (mkConfig 0 0).

Lemma match_entry_cache_transparent_witness :
  let calls := [(wit_entry, wit_ctx, [wit_filter], false)] in
  ∃ m, (matchEntry lit_compile lit_match (engine_run lit_compile lit_match wit_engine calls)
          wit_entry wit_ctx [wit_filter; wit_filter] true).2 = inr [m; m].
Proof.
  intros calls. eexists.
  destruct (match_entry_cache_transparent lit_compile lit_match (λ f, f = wit_filter) (mkConfig 0 0)
    calls wit_entry wit_ctx [wit_filter; wit_filter] true) as [H _].
  - by intros f g -> ->.
  - intros c Hc f Hf. apply list_elem_of_singleton in Hc as ->. by apply list_elem_of_singleton in Hf.
  - intros f Hf. rewrite !elem_of_cons in Hf. destruct Hf as [?|[?|Hf]]; [done..|].
    by apply elem_of_nil in Hf.
  - unfold wit_engine. etransitivity; [exact H|]. reflexivity.
Defined.

Lemma validated_rules_compile_witness :
  ValidateRules lit_compile wit_engine (fl_rules wit_filter) = None ∧
  ∃ cf, compile_spec lit_compile (en_cfg wit_engine) wit_filter = inr cf.
Proof.
  split; [reflexivity|].
  destruct (validated_rules_compile lit_compile wit_engine (fl_rules wit_filter) wit_filter
              eq_refl eq_refl) as (_ & cf & Hcf & _).
  by exists cf.
Defined.

Lemma query_rules_evaluated_witness :
  let m := λ _ _, Some [[true]] in
  ∃ hits, QueryHits (Some m) [wit_filter] [QueryItemFromEntry wit_entry] = inr (Some hits) ∧
          length hits = 1%nat.
Proof.
  intros m. eexists. split; [reflexivity|].
  apply (query_rules_evaluated lit_compile lit_match m [wit_filter] [QueryItemFromEntry wit_entry] _
           eq_refl).
Defined.
