(* ===== verification/FeedStore.v ===== *)
(** The feed tables of the store: [feeds], [feed_poll_state], [subscriptions],
    [categories] and the statements of [storage] that read and write them —
    the circuit breaker, pauses, refresh metadata, the poll schedule and the
    polling windows of categories.  A statement is a function on the tables; an
    UPDATE that reports [RowsAffected() = 0] leaves them alone and returns
    [ErrNotFound].  Statements that fail inside PostgreSQL (a lost connection)
    are the refresher's fault injection ([Refresher.v]), not part of a
    statement's meaning. *)

From S2P Require Import Prelude GoStrings PollSchedule PollWindow Types.

(** * The tables *)

(** migrations/0041_categories_poll_hours.sql and [category_followers]. *)
Record FeedDb := mkFeedDb {
  fd_feeds : gmap Z FeedRow;
  fd_poll : gmap Z PollState;
  fd_subs : gmap (Z * Z) (option Z);      (* (user, feed) ↦ webhook_id *)
  fd_cats : gmap Z string;                (* category ↦ poll_hours *)
  fd_followers : gset (Z * Z);            (* (user, category) *)
}.

Definition with_feeds (db : FeedDb) t := mkFeedDb t (fd_poll db) (fd_subs db) (fd_cats db) (fd_followers db).
Definition with_poll (db : FeedDb) t := mkFeedDb (fd_feeds db) t (fd_subs db) (fd_cats db) (fd_followers db).
Definition with_subs (db : FeedDb) t := mkFeedDb (fd_feeds db) (fd_poll db) t (fd_cats db) (fd_followers db).
Definition with_cats (db : FeedDb) t := mkFeedDb (fd_feeds db) (fd_poll db) (fd_subs db) t (fd_followers db).

(** [UPDATE feed_poll_state SET ... WHERE feed_id = $1]. *)
Definition update_ps (db : FeedDb) (id : Z) (g : PollState → PollState) : FeedDb * option err :=
  match fd_poll db !! id with
  | None => (db, Some ENotFound)
  | Some ps => (with_poll db (<[id := g ps]> (fd_poll db)), None)
  end.

(** storage/postgres_crud.go:132-134 [feedsFrom, the join of a feed with its poll state] *)
Definition feedsFrom (db : FeedDb) : list (Z * (FeedRow * PollState)) :=
  map_to_list (map_zip (fd_feeds db) (fd_poll db)).

(** storage/postgres_crud.go [PostgresStore.GetFeedByID] *)
Definition GetFeedByID (db : FeedDb) (id : Z) : err + Feed :=
  match fd_feeds db !! id, fd_poll db !! id with
  | Some r, Some ps => inr (mkFeed r ps)
  | _, _ => inl ENotFound
  end.

(** ** Circuit breaker and pauses *)

(** storage/entities.go [RecordFeedPollFailureParams] *)
Record RecordFeedPollFailureParams := mkFailureParams {
  rf_id : Z; rf_error : string; rf_threshold : Z; rf_checked_at : Z; rf_next_check_at : Z;
  rf_bridge_state : option BridgeState;
}.

(** storage/feed_circuit.go [PostgresStore.RecordFeedPollFailure] *)
Definition RecordFeedPollFailure (db : FeedDb) (p : RecordFeedPollFailureParams)
    : FeedDb * option err :=
  let threshold := if rf_threshold p <=? 0 then 10 else rf_threshold p in
  update_ps db (rf_id p) (λ ps,
    mkPollState (ps_etag ps) (ps_last_modified ps) (Some (rf_checked_at p)) (rf_error p)
      (ps_parsing_error_count ps + 1) (threshold <=? ps_parsing_error_count ps + 1)
      (Some (rf_next_check_at p)) (default (ps_bridge_state ps) (rf_bridge_state p))
      (ps_items_hash ps) (ps_last_entry_at ps)).

Definition reset_circuit (ps : PollState) : PollState :=
  mkPollState (ps_etag ps) (ps_last_modified ps) (ps_last_checked_at ps) (ps_last_error ps)
    0 false (ps_next_check_at ps) (ps_bridge_state ps) (ps_items_hash ps) (ps_last_entry_at ps).

(** storage/feed_circuit.go [PostgresStore.ResetFeedPollCircuit] *)
Definition ResetFeedPollCircuit (db : FeedDb) (id : Z) : FeedDb * option err :=
  update_ps db id reset_circuit.

(** storage/feed_circuit.go [PostgresStore.ResetErrorFeedPollCircuits] With the
    number of rows updated. *)
Definition ResetErrorFeedPollCircuits (db : FeedDb) : FeedDb * Z :=
  let hit (ps : PollState) :=
    ps_poll_paused ps || (0 <? ps_parsing_error_count ps) || negb (String.eqb (ps_last_error ps) "") in
  (with_poll db ((λ ps, if hit ps then reset_circuit ps else ps) <$> fd_poll db),
   Z.of_nat (size (filter (λ kv, hit kv.2 = true) (fd_poll db)))).

(** storage/feed_daily_reset.go [PostgresStore.ResetFeedPollErrorsDaily] *)
Definition ResetFeedPollErrorsDaily (now : Z) (db : FeedDb) : FeedDb * Z :=
  let hit (id : Z) (ps : PollState) :=
    match fd_feeds db !! id with
    | Some f => negb (f_manual_paused f) &&
                ((0 <? ps_parsing_error_count ps) || ps_poll_paused ps
                 || negb (String.eqb (ps_last_error ps) ""))
    | None => false
    end in
  (with_poll db (map_imap (λ id ps, Some (
     if hit id ps then
       mkPollState (ps_etag ps) (ps_last_modified ps) (ps_last_checked_at ps) "" 0 false (Some now)
         (ps_bridge_state ps) (ps_items_hash ps) (ps_last_entry_at ps)
     else ps)) (fd_poll db)),
   Z.of_nat (size (filter (λ kv, hit kv.1 kv.2 = true) (fd_poll db)))).

(** storage/feed_pause.go [FeedPollingBlocked] *)
Definition FeedPollingBlocked (f : Feed) : bool :=
  f_manual_paused (feed_row f) || ps_poll_paused (feed_ps f)
  || String.eqb (f_type (feed_row f)) "inbound".

(** storage/feed_pause.go [PostgresStore.SetFeedManualPaused] *)
Definition SetFeedManualPaused (db : FeedDb) (id : Z) (paused : bool) : FeedDb * option err :=
  match fd_feeds db !! id with
  | None => (db, Some ENotFound)
  | Some r => (with_feeds db (<[id := set_manual_paused r paused]> (fd_feeds db)), None)
  end.

(** storage/store_mode.go [NormalizeStoreMode] [None] is the error. *)
Definition NormalizeStoreMode (s : string) : option string :=
  let s := to_lower (trim_space s) in
  if String.eqb s "" then Some "full"
  else if String.eqb s "full" || String.eqb s "filtered" || String.eqb s "relay" then Some s
  else None.

(** storage/cleanup.go [ValidateEntryRetentionDays] *)
Definition ValidateEntryRetentionDays (days : option Z) : bool :=
  match days with
  | None => true
  | Some d => (d =? 0) || ((1 <=? d) && (d <=? 3650))
  end.

(** storage/feed_poll_state_rows.go [PostgresStore.EnsureFeedPollStateRows] *)
Definition EnsureFeedPollStateRows (db : FeedDb) : FeedDb * Z :=
  let missing := filter (λ kv, fd_poll db !! kv.1 = None) (fd_feeds db) in
  (with_poll db (fd_poll db ∪ ((λ _, mkPollState "" "" None "" 0 false None ∅ "" None) <$> missing)),
   Z.of_nat (size missing)).

(** ** Refresh metadata *)

(** storage/entities.go [UpdateFeedRefreshMetaParams] *)
Record UpdateFeedRefreshMetaParams := mkMetaParams {
  um_id : Z; um_etag : string; um_last_modified : string; um_last_checked_at : Z;
  um_last_error : string; um_bridge_state : option BridgeState; um_next_check_at : option Z;
  um_new_entries : Z; um_new_feed_url : string; um_items_hash : option string;
}.

(** The UPDATE of the poll state, whose [$6] is never NULL: a nil
    [BridgeState] has become the empty document. *)
Definition refresh_meta_ps (p : UpdateFeedRefreshMetaParams) (ps : PollState) : PollState :=
  let ok := String.eqb (um_last_error p) "" in
  mkPollState (um_etag p) (um_last_modified p) (Some (um_last_checked_at p)) (um_last_error p)
    (if ok then 0 else ps_parsing_error_count ps)
    (if ok then false else ps_poll_paused ps)
    (match um_next_check_at p with Some t => Some t | None => ps_next_check_at ps end)
    (default ∅ (um_bridge_state p))
    (default (ps_items_hash ps) (um_items_hash p))
    (if 0 <? um_new_entries p then Some (um_last_checked_at p) else ps_last_entry_at ps).

(** storage/entry.go:397-405 [updateFeedRefreshMeta, the move of a feed URL]. *)
Definition move_feed_url (db : FeedDb) (id : Z) (url : string) : FeedDb :=
  match fd_feeds db !! id with
  | Some r =>
      if negb (String.eqb (f_url r) url)
         && bool_decide (map_Forall (λ _ o, f_url o ≠ url) (fd_feeds db))
      then with_feeds db (<[id := set_feed_url r url]> (fd_feeds db))
      else db
  | None => db
  end.

(** storage/entry.go [updateFeedRefreshMeta] *)
Definition updateFeedRefreshMeta (db : FeedDb) (p : UpdateFeedRefreshMetaParams) : FeedDb * option err :=
  match update_ps db (um_id p) (refresh_meta_ps p) with
  | (db, Some e) => (db, Some e)
  | (db, None) =>
      (if String.eqb (um_new_feed_url p) "" then db
       else move_feed_url db (um_id p) (um_new_feed_url p), None)
  end.

Definition set_next_check (ps : PollState) (t : Z) : PollState :=
  mkPollState (ps_etag ps) (ps_last_modified ps) (ps_last_checked_at ps) (ps_last_error ps)
    (ps_parsing_error_count ps) (ps_poll_paused ps) (Some t) (ps_bridge_state ps)
    (ps_items_hash ps) (ps_last_entry_at ps).

(** storage/entry.go [PostgresStore.SetFeedNextCheckAt] *)
Definition SetFeedNextCheckAt (db : FeedDb) (id t : Z) : FeedDb * option err :=
  update_ps db id (λ ps, set_next_check ps t).

(** ** The poll schedule *)

Definition subscribed (db : FeedDb) (id : Z) : bool :=
  bool_decide (map_Exists (λ k _, k.2 = id) (fd_subs db)).

(** storage/polling.go [pollableWhere] *)
Definition pollable (db : FeedDb) (id : Z) (f : FeedRow) (ps : PollState) : bool :=
  negb (ps_poll_paused ps) && negb (f_manual_paused f)
  && negb (String.eqb (f_type f) "inbound") && subscribed db id.

(** storage/polling.go [DueFeed] *)
Record DueFeed := mkDueFeed { df_id : Z; df_type : string; df_due_at : Z }.

(** [ORDER BY COALESCE(next_check_at, created_at) ASC, id ASC]. *)
Definition due_le (a b : DueFeed) : Prop :=
  df_due_at a < df_due_at b ∨ (df_due_at a = df_due_at b ∧ df_id a <= df_id b).

#[export] Instance due_le_dec : RelDecision due_le.
Proof. unfold due_le. intros a b. apply _. Defined.

Definition excluded (exclude : list Z) (excludeTypes : list string) (id : Z) (f : FeedRow) : bool :=
  bool_decide (id ∈ exclude) || bool_decide (f_type f ∈ excludeTypes).

(** The WHERE clause of [ListFeedsDue]. *)
Definition due_now (now : Z) (db : FeedDb) (exclude : list Z) (excludeTypes : list string)
    (id : Z) (f : FeedRow) (ps : PollState) : bool :=
  pollable db id f ps
  && match ps_next_check_at ps with None => true | Some t => t <=? now end
  && negb (excluded exclude excludeTypes id f).

Definition due_row (id : Z) (f : FeedRow) (ps : PollState) : DueFeed :=
  mkDueFeed id (f_type f) (default (f_created_at f) (ps_next_check_at ps)).

(** storage/polling.go [PostgresStore.ListFeedsDue] *)
Definition ListFeedsDue (now : Z) (db : FeedDb) (limit : Z) (exclude : list Z)
    (excludeTypes : list string) : list DueFeed :=
  if limit <=? 0 then []
  else take (Z.to_nat limit) (merge_sort due_le
         (omap (λ '(id, (f, ps)),
            if due_now now db exclude excludeTypes id f ps then Some (due_row id f ps) else None)
            (feedsFrom db))).

(** storage/polling.go [PostgresStore.NextFeedDueAt] *)
Definition NextFeedDueAt (now : Z) (db : FeedDb) (exclude : list Z) (excludeTypes : list string)
    : option Z :=
  foldr (λ t acc, Some (match acc with Some m => Z.min t m | None => t end)) None
    (omap (λ '(id, (f, ps)),
       if pollable db id f ps && negb (excluded exclude excludeTypes id f)
       then Some (default now (ps_next_check_at ps)) else None) (feedsFrom db)).

(** storage/polling.go [PostgresStore.RefreshAllFeeds] [jitter id spread] is
    the [random() * spread] drawn for a row. *)
Definition RefreshAllFeeds (now : Z) (jitter : Z → Z → Z) (db : FeedDb) : FeedDb * (Z * Z) :=
  let open_ (id : Z) (f : FeedRow) :=
    negb (f_manual_paused f) && negb (String.eqb (f_type f) "inbound") && subscribed db id in
  let feeds := Z.of_nat (size (filter (λ kv, open_ kv.1 kv.2 = true) (fd_feeds db))) in
  let hit (id : Z) := match fd_feeds db !! id with Some f => open_ id f | None => false end in
  (with_poll db (map_imap (λ id ps, Some (
     if hit id then
       set_next_check (reset_circuit ps) (now + jitter id (RefreshAllSpread feeds))
     else ps)) (fd_poll db)),
   (feeds, Z.of_nat (size (filter (λ kv, hit kv.1 = true) (fd_poll db))))).

(** ** Categories and subscriptions *)

(** storage/poll_window.go [PostgresStore.GetCategoryPollHours] *)
Definition GetCategoryPollHours (db : FeedDb) (cat : Z) : err + string :=
  match fd_cats db !! cat with Some v => inr v | None => inl ENotFound end.

(** storage/poll_window.go [PostgresStore.SetCategoryPollHours] *)
Definition SetCategoryPollHours (now : Z) (db : FeedDb) (cat : Z) (pollHours : string)
    : FeedDb * option err :=
  match NormalizePollHours pollHours with
  | None => (db, Some (EMsg "invalid poll hours"))
  | Some norm =>
      match fd_cats db !! cat with
      | None => (db, Some ENotFound)
      | Some old =>
          if String.eqb old norm then (db, None)
          else
            let db := with_cats db (<[cat := norm]> (fd_cats db)) in
            (with_poll db (map_imap (λ id ps, Some (
               match fd_feeds db !! id, ps_next_check_at ps with
               | Some f, Some t =>
                   let own := now + f_interval_minutes f * minute in
                   if bool_decide (f_category_id f = Some cat) && (own <? t)
                   then set_next_check ps own else ps
               | _, _ => ps
               end)) (fd_poll db)), None)
      end
  end.

Definition sub_le (a b : Subscription) : Prop := sub_user_id a <= sub_user_id b.
#[export] Instance sub_le_dec : RelDecision sub_le.
Proof. unfold sub_le. intros a b. apply _. Defined.

(** storage/subscriptions.go [PostgresStore.ListFeedSubscribers] *)
Definition ListFeedSubscribers (db : FeedDb) (feedID : Z) : list Subscription :=
  merge_sort sub_le
    (omap (λ '((u, f), w), if f =? feedID then Some (mkSubscription u f w) else None)
       (map_to_list (fd_subs db))).

(** * Lemmas *)

Lemma update_ps_lookup db id g db' : update_ps db id g = (db', None) →
  ∃ ps, fd_poll db !! id = Some ps ∧ db' = with_poll db (<[id := g ps]> (fd_poll db)).
Proof. unfold update_ps. intros. case_match; simplify_eq. eauto. Qed.

Lemma update_ps_frame db id g :
  fd_feeds (update_ps db id g).1 = fd_feeds db ∧ fd_subs (update_ps db id g).1 = fd_subs db ∧
  ∀ id', id' ≠ id → fd_poll (update_ps db id g).1 !! id' = fd_poll db !! id'.
Proof.
  unfold update_ps. case_match; simpl; [|done]. split_and!; [done..|].
  intros id' Hne. by rewrite lookup_insert_ne.
Qed.

Lemma feedsFrom_elem db id f ps :
  (id, (f, ps)) ∈ feedsFrom db ↔ fd_feeds db !! id = Some f ∧ fd_poll db !! id = Some ps.
Proof. unfold feedsFrom. by rewrite elem_of_map_to_list, map_lookup_zip_Some. Qed.

(** The rows [ListFeedsDue] selects, before the sort and the limit. *)
Definition due_rows (now : Z) (db : FeedDb) exclude excludeTypes : list DueFeed :=
  omap (λ '(id, (f, ps)),
    if due_now now db exclude excludeTypes id f ps then Some (due_row id f ps) else None)
    (feedsFrom db).

Lemma due_rows_elem now db ex exT d :
  d ∈ due_rows now db ex exT ↔
    ∃ id f ps, fd_feeds db !! id = Some f ∧ fd_poll db !! id = Some ps ∧
      due_now now db ex exT id f ps = true ∧ d = due_row id f ps.
Proof.
  unfold due_rows. rewrite list_elem_of_omap. split.
  - intros ([id [f ps]] & Hin & Hd). apply feedsFrom_elem in Hin as [? ?].
    case_match; simplify_eq. by exists id, f, ps.
  - intros (id & f & ps & H1 & H2 & H3 & ->). exists (id, (f, ps)).
    rewrite feedsFrom_elem, H3. done.
Qed.

Lemma due_rows_NoDup now db ex exT : NoDup (df_id <$> due_rows now db ex exT).
Proof.
  apply (NoDup_fmap_omap _ _ fst).
  - intros [id [f ps]] d H. by case_match; simplify_eq.
  - apply NoDup_fst_map_to_list.
Qed.

#[export] Instance due_le_trans : Transitive due_le.
Proof. intros a b c. unfold due_le. lia. Qed.
#[export] Instance due_le_total : Total due_le.
Proof. intros a b. unfold due_le. lia. Qed.

Lemma ListFeedsDue_eq now db limit ex exT : 0 < limit →
  ListFeedsDue now db limit ex exT =
    take (Z.to_nat limit) (merge_sort due_le (due_rows now db ex exT)).
Proof. intros. unfold ListFeedsDue. by rewrite (proj2 (Z.leb_gt limit 0)). Qed.

Lemma foldr_min_spec (l : list Z) :
  match foldr (λ t acc, Some (match acc with Some m => Z.min t m | None => t end)) None l with
  | None => l = []
  | Some m => m ∈ l ∧ ∀ x, x ∈ l → m <= x
  end.
Proof.
  induction l as [|x l IH]; simpl; [done|]. destruct (foldr _ _ l) as [m|].
  - destruct IH as [Hm IH]. split.
    + destruct (Z.min_spec x m) as [[_ ->]|[_ ->]]; [left|by right].
    + intros y [->|Hy]%elem_of_cons; [lia|]. specialize (IH y Hy). lia.
  - subst l. split; [left|]. intros y [->|Hy]%elem_of_cons; [lia|by apply elem_of_nil in Hy].
Qed.

Definition fail_run (db : FeedDb) (fails : list RecordFeedPollFailureParams) : FeedDb :=
  foldl (λ db p, (RecordFeedPollFailure db p).1) db fails.

Lemma fail_run_spec id thr fails : 0 < thr →
  Forall (λ p, rf_id p = id ∧ rf_threshold p = thr) fails → fails ≠ [] →
  ∀ db ps, fd_poll db !! id = Some ps →
  fd_feeds (fail_run db fails) = fd_feeds db ∧ fd_subs (fail_run db fails) = fd_subs db ∧
  (∀ id', id' ≠ id → fd_poll (fail_run db fails) !! id' = fd_poll db !! id') ∧
  ∃ ps', fd_poll (fail_run db fails) !! id = Some ps' ∧
    ps_parsing_error_count ps' = ps_parsing_error_count ps + Z.of_nat (length fails) ∧
    ps_poll_paused ps' = (thr <=? ps_parsing_error_count ps + Z.of_nat (length fails)).
Proof.
  intros Hthr Hf. induction Hf as [|p fails [Hid Hp] Hf IH]; intros Hne db ps Hps; [done|].
  set (db1 := (RecordFeedPollFailure db p).1).
  assert (∃ ps1, fd_poll db1 !! id = Some ps1 ∧
    ps_parsing_error_count ps1 = ps_parsing_error_count ps + 1 ∧
    ps_poll_paused ps1 = (thr <=? ps_parsing_error_count ps + 1)) as (ps1 & H1 & H2 & H3).
  { unfold db1, RecordFeedPollFailure, update_ps. rewrite Hid, Hps, Hp. simpl.
    rewrite lookup_insert_eq. eexists. split; [done|]. simpl. by rewrite (proj2 (Z.leb_gt thr 0)). }
  assert (fd_feeds db1 = fd_feeds db ∧ fd_subs db1 = fd_subs db ∧
    ∀ id', id' ≠ id → fd_poll db1 !! id' = fd_poll db !! id') as (F1 & F2 & F3).
  { subst id. apply update_ps_frame. }
  destruct fails as [|p2 fails]; [by eauto 10|].
  destruct (IH ltac:(done) db1 ps1 H1) as (G1 & G2 & G3 & ps' & G4 & G5 & G6).
  change (fail_run db (p :: p2 :: fails)) with (fail_run db1 (p2 :: fails)).
  rewrite G1, G2, F1, F2. split_and!; [done..| |].
  - intros id' Hid'. by rewrite G3, F3.
  - exists ps'. rewrite G4, G5, G6, H2. simpl length. split_and!; [done|lia|f_equal; lia].
Qed.

(** A feed can be claimed at [t] exactly when the earliest due time has come. *)
Lemma due_at_iff (now t : Z) (db : FeedDb) (limit : Z) (ex : list Z) (exT : list string)
    (Hlimit : 0 < limit) (Ht : now <= t) :
  ListFeedsDue t db limit ex exT ≠ [] ↔
  ∃ m, NextFeedDueAt now db ex exT = Some m ∧ m <= t.
Proof.
  rewrite ListFeedsDue_eq by done. set (s := merge_sort _ _).
  assert (s ≡ₚ due_rows t db ex exT) as Hp by apply merge_sort_Permutation.
  unfold NextFeedDueAt. set (l := omap _ _). pose proof (foldr_min_spec l) as Hmin.
  assert (take (Z.to_nat limit) s ≠ [] ↔ ∃ d, d ∈ due_rows t db ex exT) as ->.
  { split.
    - intros H. destruct s as [|d s']; [by destruct (Z.to_nat limit)|]. exists d. rewrite <-Hp. left.
    - intros [d Hd] H. rewrite <-Hp in Hd. apply (f_equal length) in H. rewrite length_take in H.
      apply list_elem_of_lookup in Hd as [i Hi]. apply lookup_lt_Some in Hi. simpl in H. lia. }
  assert (∀ m, m ∈ l ↔ ∃ id f ps, fd_feeds db !! id = Some f ∧ fd_poll db !! id = Some ps ∧
    pollable db id f ps && negb (excluded ex exT id f) = true ∧ m = default now (ps_next_check_at ps)) as Hl.
  { intros m. unfold l. rewrite list_elem_of_omap. split.
    - intros ([id [f ps]] & [? ?]%feedsFrom_elem & Hd). case_match; simplify_eq. by exists id, f, ps.
    - intros (id & f & ps & H1 & H2 & H3 & ->). exists (id, (f, ps)). rewrite feedsFrom_elem, H3. done. }
  setoid_rewrite due_rows_elem. split.
  - intros (d & id & f & ps & Hf & Hps & Hdue & _). unfold due_now in Hdue. bool_to_prop.
    assert (default now (ps_next_check_at ps) ∈ l) as Hin.
    { apply Hl. exists id, f, ps. split_and!; try done. by apply andb_true_intro; rewrite negb_true_iff. }
    destruct (foldr _ _ l) as [m|]; [|rewrite Hmin in Hin; by apply elem_of_nil in Hin].
    exists m. split; [done|]. etransitivity; [by apply Hmin|]. case_match; bool_to_prop; simpl; lia.
  - intros (m & Hm & Hle). rewrite Hm in Hmin. destruct Hmin as [Hin _].
    apply Hl in Hin as (id & f & ps & Hf & Hps & Hc & ->). bool_to_prop.
    exists (due_row id f ps), id, f, ps. split_and!; try done. unfold due_now.
    rewrite H, H0. destruct (ps_next_check_at ps); simpl in *; [|done].
    by rewrite (proj2 (Z.leb_le _ _) Hle).
Qed.

Lemma ListFeedsDue_sound now db limit ex exT :
  NoDup (df_id <$> ListFeedsDue now db limit ex exT) ∧
  Z.of_nat (length (ListFeedsDue now db limit ex exT)) <= Z.max 0 limit ∧
  ∀ d, d ∈ ListFeedsDue now db limit ex exT →
    ∃ f ps, fd_feeds db !! df_id d = Some f ∧ fd_poll db !! df_id d = Some ps ∧
      due_now now db ex exT (df_id d) f ps = true ∧ d = due_row (df_id d) f ps.
Proof.
  destruct (Z.leb_spec limit 0) as [Hl|Hl].
  { unfold ListFeedsDue. rewrite (proj2 (Z.leb_le _ _) Hl). split; [constructor|].
    split; [simpl; lia|]. by intros d ?%elem_of_nil. }
  rewrite ListFeedsDue_eq by done. set (s := merge_sort _ _).
  assert (s ≡ₚ due_rows now db ex exT) as Hp by apply merge_sort_Permutation.
  split; [|split; [rewrite length_take; lia|]].
  - rewrite fmap_take. eapply sublist_NoDup; [|apply sublist_take]. rewrite Hp. apply due_rows_NoDup.
  - intros d Hd. apply (elem_of_sublist _ _ _) with (2 := sublist_take _ _) in Hd. rewrite Hp in Hd.
    apply due_rows_elem in Hd as (id & f & ps & ? & ? & ? & ->). by exists f, ps.
Qed.

(** When the scheduler may poll a feed. *)
Record feed_ready (now : Z) (db : FeedDb) (ex : list Z) (exT : list string)
    (id : Z) (f : FeedRow) (ps : PollState) : Prop := {
  fr_circuit_closed : ps_poll_paused ps = false;
  fr_not_paused : f_manual_paused f = false;
  fr_polled : f_type f ≠ "inbound";
  fr_subscribed : ∃ user, is_Some (fd_subs db !! (user, id));
  fr_due : match ps_next_check_at ps with None => True | Some t => t <= now end;
  fr_not_excluded : id ∉ ex;
  fr_type_not_excluded : f_type f ∉ exT;
}.

Lemma subscribed_iff db id : subscribed db id = true ↔ ∃ user, is_Some (fd_subs db !! (user, id)).
Proof.
  unfold subscribed. rewrite bool_decide_eq_true. split.
  - intros ([u i] & x & Hx & <-). exists u. by exists x.
  - intros (u & x & Hx). by exists (u, id), x.
Qed.

Lemma due_now_ready now db ex exT id f ps :
  due_now now db ex exT id f ps = true ↔ feed_ready now db ex exT id f ps.
Proof.
  unfold due_now, pollable, excluded.
  rewrite !andb_true_iff, !negb_true_iff, orb_false_iff, !bool_decide_eq_false, subscribed_iff, String.eqb_neq.
  split.
  - intros [[[[[? ?] ?] ?] Ht] [? ?]]. split; try done. destruct (ps_next_check_at ps); [lia|done].
  - intros [? ? ? ? Ht ? ?]. split_and!; try done. destruct (ps_next_check_at ps); [lia|done].
Qed.

(** * Properties *)

(** C6: [ListFeedsDue] serves the schedule.  It returns at most [limit] feeds,
    each once and oldest due first; every one is pollable (not paused by the
    breaker or by hand, not inbound, subscribed), due and not excluded; and a
    due feed it leaves out lost its place to [limit] feeds that were due at
    least as early. *)
Theorem list_feeds_due_spec (now : Z) (db : FeedDb) (limit : Z) (ex : list Z) (exT : list string)
    (Hlimit : 0 < limit) :
  let l := ListFeedsDue now db limit ex exT in
  Z.of_nat (length l) <= limit ∧ NoDup (df_id <$> l) ∧ StronglySorted due_le l ∧
  (∀ d, d ∈ l → ∃ f ps, fd_feeds db !! df_id d = Some f ∧ fd_poll db !! df_id d = Some ps ∧
                 feed_ready now db ex exT (df_id d) f ps ∧ d = due_row (df_id d) f ps) ∧
  (∀ id f ps, fd_feeds db !! id = Some f → fd_poll db !! id = Some ps →
     feed_ready now db ex exT id f ps →
     due_row id f ps ∈ l ∨
     (Z.of_nat (length l) = limit ∧ ∀ d, d ∈ l → due_le d (due_row id f ps))).
Proof.
  intros l. unfold l. rewrite ListFeedsDue_eq by done. set (s := merge_sort _ _).
  assert (s ≡ₚ due_rows now db ex exT) as Hp by apply merge_sort_Permutation.
  destruct (StronglySorted_take_drop due_le (Z.to_nat limit) s (StronglySorted_merge_sort _ _))
    as [Hs Hle].
  split_and!; [rewrite length_take; lia| |done| |].
  - rewrite fmap_take. eapply sublist_NoDup; [|apply sublist_take].
    rewrite Hp. apply due_rows_NoDup.
  - intros d Hd. assert (d ∈ s) as Hds by (rewrite <-(take_drop (Z.to_nat limit) s); set_solver).
    rewrite Hp in Hds. apply due_rows_elem in Hds as (id & f & ps & ? & ? & ?%due_now_ready & ->).
    exists f, ps. done.
  - intros id f ps Hf Hps Hdue%due_now_ready.
    assert (due_row id f ps ∈ s) as Hin by (rewrite Hp; apply due_rows_elem; eauto 8).
    rewrite <-(take_drop (Z.to_nat limit) s), elem_of_app in Hin.
    destruct Hin as [?|Hin]; [by left|right]. split; [|by auto].
    apply list_elem_of_lookup in Hin as [i Hi]. rewrite lookup_drop in Hi.
    apply lookup_lt_Some in Hi. rewrite length_take. lia.
Qed.

(** The dispatcher's sleep is exact.  If the tables do not change, a feed
    can be claimed at a later instant [t] exactly when the [NextFeedDueAt] it
    slept on has come: it neither misses a due feed nor wakes for none. *)
Lemma next_feed_due_exact (now t : Z) (db : FeedDb) (limit : Z) (ex : list Z) (exT : list string)
    (Hlimit : 0 < limit) (Ht : now <= t) :
  ListFeedsDue t db limit ex exT ≠ [] ↔
  ∃ m, NextFeedDueAt now db ex exT = Some m ∧ m <= t.
Proof. exact (due_at_iff now t db limit ex exT Hlimit Ht). Qed.

(** The circuit breaker.  After a run of failures of one feed with no
    success in between, the error count has grown by their number, the feed is
    paused exactly when the count has reached the threshold, a paused feed is
    in no due list whatever the clock, the limit and the exclusions, no other
    feed is touched, and a successful refresh closes the breaker again. *)
Lemma circuit_breaker_opens (id thr : Z) (fails : list RecordFeedPollFailureParams)
    (db : FeedDb) (f : FeedRow) (ps : PollState)
    (Hthr : 0 < thr) (Hfails : Forall (λ p, rf_id p = id ∧ rf_threshold p = thr) fails)
    (Hne : fails ≠ []) (Hf : fd_feeds db !! id = Some f) (Hps : fd_poll db !! id = Some ps) :
  let db' := fail_run db fails in
  let n := ps_parsing_error_count ps + Z.of_nat (length fails) in
  (∃ ps', fd_poll db' !! id = Some ps' ∧ ps_parsing_error_count ps' = n ∧
     ps_poll_paused ps' = (thr <=? n)) ∧
  (∀ id', id' ≠ id → fd_poll db' !! id' = fd_poll db !! id') ∧
  (thr <= n → ∀ now limit ex exT, id ∉ df_id <$> ListFeedsDue now db' limit ex exT) ∧
  (∀ meta db'', um_id meta = id → um_last_error meta = "" →
     updateFeedRefreshMeta db' meta = (db'', None) →
     ∃ ps'', fd_poll db'' !! id = Some ps'' ∧ ps_parsing_error_count ps'' = 0 ∧
       ps_poll_paused ps'' = false).
Proof.
  intros db' n. destruct (fail_run_spec id thr fails Hthr Hfails Hne db ps Hps)
    as (F1 & F2 & F3 & ps' & Hps' & Hcount & Hpaused).
  fold db' in F1, F2, F3, Hps'. fold n in Hcount, Hpaused.
  split_and!; [by eauto|done| |].
  - intros Hn now limit ex exT (d & Hd & Hin)%list_elem_of_fmap. unfold ListFeedsDue in Hin.
    destruct (limit <=? 0); [by apply elem_of_nil in Hin|].
    apply (elem_of_sublist _ _ _) with (2 := sublist_take _ _) in Hin.
    rewrite merge_sort_Permutation in Hin. apply due_rows_elem in Hin as (id' & f' & p & _ & Hp & Hdue & ->).
    simpl in Hd. subst id'. rewrite Hps' in Hp. simplify_eq. unfold due_now, pollable in Hdue.
    rewrite Hpaused, (proj2 (Z.leb_le _ _) Hn) in Hdue. done.
  - intros meta db'' Hid He Hup. unfold updateFeedRefreshMeta, update_ps in Hup.
    rewrite Hid, Hps' in Hup. simplify_eq/=.
    exists (refresh_meta_ps meta ps'). unfold refresh_meta_ps. rewrite He. split; [|done].
    case_match; [|unfold move_feed_url; repeat case_match]; simpl; by rewrite lookup_insert_eq.
Qed.

(** A permanent redirect never makes two feeds share a URL: from tables
    with unique feed URLs, [updateFeedRefreshMeta] leaves them unique, moves
    the polled feed to the new address exactly when no feed has it, and
    changes nothing else of the catalog. *)
Lemma feed_move_keeps_urls_unique (db db' : FeedDb) (p : UpdateFeedRefreshMetaParams) (r : FeedRow)
    (Huniq : ∀ i j a b, fd_feeds db !! i = Some a → fd_feeds db !! j = Some b → f_url a = f_url b → i = j)
    (Hr : fd_feeds db !! um_id p = Some r) (Hok : updateFeedRefreshMeta db p = (db', None)) :
  (∀ i j a b, fd_feeds db' !! i = Some a → fd_feeds db' !! j = Some b → f_url a = f_url b → i = j) ∧
  fd_feeds db' =
    (if decide (um_new_feed_url p ≠ "" ∧ ∀ i a, fd_feeds db !! i = Some a → f_url a ≠ um_new_feed_url p)
     then <[um_id p := set_feed_url r (um_new_feed_url p)]> (fd_feeds db) else fd_feeds db).
Proof.
  assert (fd_feeds db' = if decide (um_new_feed_url p ≠ "" ∧
    ∀ i a, fd_feeds db !! i = Some a → f_url a ≠ um_new_feed_url p)
     then <[um_id p := set_feed_url r (um_new_feed_url p)]> (fd_feeds db) else fd_feeds db) as Heq.
  { unfold updateFeedRefreshMeta, update_ps in Hok.
    destruct (fd_poll db !! um_id p) as [ps|]; [|done]. simplify_eq/=.
    destruct (String.eqb_spec (um_new_feed_url p) ""); simpl; [rewrite decide_False; [done|tauto]|].
    unfold move_feed_url. simpl. rewrite Hr.
    destruct (bool_decide (map_Forall _ _)) eqn:Hall; bool_to_prop.
    - rewrite decide_True by (split; [done|exact Hall]).
      destruct (String.eqb_spec (f_url r) (um_new_feed_url p)); simpl; [|done].
      by destruct (Hall _ _ Hr).
    - rewrite andb_false_r. rewrite decide_False; [done|]. intros [_ Hno]. by apply Hall. }
  split; [|done]. rewrite Heq. case_decide as Hd; [|done]. destruct Hd as [_ Hno].
  intros i j a b Ha Hb Hab. apply lookup_insert_Some in Ha as [[<- <-]|[Hi Ha]];
    apply lookup_insert_Some in Hb as [[<- <-]|[Hj Hb]]; simpl in *; try done.
  - by destruct (Hno _ _ Hb).
  - by destruct (Hno _ _ Ha).
  - by eapply Huniq.
Qed.

(** What the daily reset looks for, and what it leaves. *)
Definition troubled (ps : PollState) : bool :=
  (0 <? ps_parsing_error_count ps) || ps_poll_paused ps || negb (String.eqb (ps_last_error ps) "").
Definition cleared (now : Z) (ps : PollState) : PollState :=
  mkPollState (ps_etag ps) (ps_last_modified ps) (ps_last_checked_at ps) "" 0 false (Some now)
    (ps_bridge_state ps) (ps_items_hash ps) (ps_last_entry_at ps).

Definition reset_hit (db : FeedDb) (id : Z) (ps : PollState) : bool :=
  match fd_feeds db !! id with Some f => negb (f_manual_paused f) && troubled ps | None => false end.

Lemma daily_reset_row now db id f ps : fd_feeds db !! id = Some f → fd_poll db !! id = Some ps →
  fd_poll (ResetFeedPollErrorsDaily now db).1 !! id =
  Some (if negb (f_manual_paused f) && troubled ps then cleared now ps else ps).
Proof.
  intros Hf Hps. unfold ResetFeedPollErrorsDaily. cbn [fst fd_poll with_poll].
  rewrite map_lookup_imap, Hps. simpl. by rewrite Hf.
Qed.

Lemma daily_reset_noop now db :
  (∀ id f ps, fd_feeds db !! id = Some f → fd_poll db !! id = Some ps →
     f_manual_paused f = true ∨ troubled ps = false) →
  ResetFeedPollErrorsDaily now db = (db, 0).
Proof.
  intros Hdb.
  assert (∀ id ps, fd_poll db !! id = Some ps → reset_hit db id ps = false) as Hnone.
  { intros id ps Hps. unfold reset_hit. destruct (fd_feeds db !! id) as [f|] eqn:Hf; [|done].
    destruct (Hdb id f ps Hf Hps) as [-> | ->]; [done|apply andb_false_r]. }
  change (ResetFeedPollErrorsDaily now db) with
    (with_poll db (map_imap (λ id ps, Some (if reset_hit db id ps then cleared now ps else ps)) (fd_poll db)),
     Z.of_nat (size (filter (λ kv, reset_hit db kv.1 kv.2 = true) (fd_poll db)))).
  f_equal.
  - destruct db as [a b c d e]. unfold with_poll. cbn in *. f_equal.
    apply map_eq. intros id. rewrite map_lookup_imap. destruct (b !! id) as [ps|] eqn:Hb; [|done].
    cbn. by rewrite (Hnone id ps Hb).
  - assert (filter (λ kv, reset_hit db kv.1 kv.2 = true) (fd_poll db) = ∅) as ->; [|done].
    apply map_empty. intros id. apply map_lookup_filter_None. right. intros ps Hps. cbn.
    by rewrite (Hnone id ps Hps).
Qed.

Lemma due_at_once now db id f ps :
  fd_feeds db !! id = Some f → fd_poll db !! id = Some (cleared now ps) →
  f_manual_paused f = false → f_type f ≠ "inbound" → subscribed db id = true →
  ∃ d limit, d ∈ ListFeedsDue now db limit [] [] ∧ df_id d = id.
Proof.
  intros Hf Hps Hm Hin Hsub. exists (due_row id f (cleared now ps)), (Z.of_nat (S (length (due_rows now db [] [])))).
  split; [|done]. rewrite ListFeedsDue_eq by lia. rewrite take_ge by (rewrite merge_sort_Permutation; lia).
  rewrite merge_sort_Permutation. apply due_rows_elem. exists id, f, (cleared now ps). split_and!; try done.
  unfold due_now, pollable, excluded. rewrite Hsub, Hm.
  destruct (String.eqb_spec (f_type f) "inbound"); [done|]. simpl. by rewrite Z.leb_refl.
Qed.

(** The daily reset clears exactly the trouble of automatic polling: a
    feed that is not paused by hand ends with no errors, an open circuit
    closed and, if anything was wrong with it, due immediately; manually
    paused feeds and healthy ones are left exactly as they were, and a second
    reset changes nothing and counts no row. *)
Lemma daily_reset_clears_errors (now now' : Z) (db : FeedDb) :
  let db' := (ResetFeedPollErrorsDaily now db).1 in
  (∀ id f ps, fd_feeds db !! id = Some f → fd_poll db !! id = Some ps →
     fd_poll db' !! id = Some (if negb (f_manual_paused f) && troubled ps then cleared now ps else ps)) ∧
  (∀ id f ps, fd_feeds db !! id = Some f → fd_poll db !! id = Some ps →
     f_manual_paused f = false → troubled ps = true → f_type f ≠ "inbound" → subscribed db id = true →
     ∃ d limit, d ∈ ListFeedsDue now db' limit [] [] ∧ df_id d = id) ∧
  fd_feeds db' = fd_feeds db ∧
  ResetFeedPollErrorsDaily now' db' = (db', 0).
Proof.
  intros db'. split_and!; [intros; by apply daily_reset_row| |done|].
  - intros id f ps Hf Hps Hm Ht Hin Hsub. pose proof (daily_reset_row now db id f ps Hf Hps) as Hrow.
    rewrite Hm, Ht in Hrow. by eapply (due_at_once now db' id f ps).
  - apply daily_reset_noop. intros id f ps' Hf Hps'.
    destruct (fd_poll db !! id) as [ps|] eqn:Hps.
    + change (fd_feeds db !! id = Some f) in Hf. pose proof (daily_reset_row now db id f ps Hf Hps) as Hrow. fold db' in Hrow.
      rewrite Hrow in Hps'. injection Hps' as <-. destruct (f_manual_paused f); [by left|right].
      by destruct (troubled ps) eqn:Ht.
    + unfold db', ResetFeedPollErrorsDaily in Hps'. cbn [fst fd_poll with_poll] in Hps'.
      rewrite map_lookup_imap, Hps in Hps'. done.
Qed.

(** [updateFeedRefreshMeta] called without a bridge state does not keep
    the stored one, as its [COALESCE] suggests and as [RecordFeedPollFailure]
    does: nil has become the empty document, so every bridge's cursor is
    erased. *)
Lemma refresh_meta_nil_state_wipes (db : FeedDb) (id : Z) (ps : PollState)
    (p : UpdateFeedRefreshMetaParams) (rf : RecordFeedPollFailureParams)
    (Hps : fd_poll db !! id = Some ps) (Hid : um_id p = id) (Hnil : um_bridge_state p = None)
    (Hrid : rf_id rf = id) (Hrnil : rf_bridge_state rf = None) :
  (ps_bridge_state <$> fd_poll (updateFeedRefreshMeta db p).1 !! id) = Some ∅ ∧
  (ps_bridge_state <$> fd_poll (RecordFeedPollFailure db rf).1 !! id) = Some (ps_bridge_state ps).
Proof.
  unfold updateFeedRefreshMeta, RecordFeedPollFailure, update_ps. rewrite Hid, Hrid, Hps. simpl.
  rewrite lookup_insert_eq. unfold refresh_meta_ps. rewrite Hnil. simpl. rewrite Hrnil. split; [|done].
  case_match; [|unfold move_feed_url; repeat case_match]; simpl; by rewrite lookup_insert_eq.
Qed.

(** ** Witnesses *)

Definition wit_row : FeedRow :=
  mkFeedRow 7 1 "https://a.example/feed" "rss" "A" None 60 false "full" false "" "" "" 100.
Definition wit_ps : PollState := mkPollState "" "" None "" 1 false (Some 50) {[ "vk" := "{}" ]} "" None.
Definition wit_feed_db : FeedDb :=
  mkFeedDb {[ 7 := wit_row ]} {[ 7 := wit_ps ]} {[ (1, 7) := None ]} ∅ ∅.

Lemma list_feeds_due_spec_witness :
  0 < 5 ∧ df_id <$> ListFeedsDue 60 wit_feed_db 5 [] [] = [7] ∧
  NoDup (df_id <$> ListFeedsDue 60 wit_feed_db 5 [] []).
Proof.
  split; [done|]. split; [reflexivity|]. apply (list_feeds_due_spec 60 wit_feed_db 5 [] []). done.
Defined.

Lemma next_feed_due_exact_witness :
  ListFeedsDue 60 wit_feed_db 5 [] [] ≠ [] ∧ NextFeedDueAt 40 wit_feed_db [] [] = Some 50.
Proof.
  split; [|reflexivity]. apply (next_feed_due_exact 40 60 wit_feed_db 5 [] []); [done..|].
  exists 50. split; [reflexivity|done].
Defined.

Lemma circuit_breaker_opens_witness :
  let fail := mkFailureParams 7 "boom" 3 60 90 None in
  let db' := fail_run wit_feed_db [fail; fail] in
  ∃ ps', fd_poll db' !! 7 = Some ps' ∧ ps_parsing_error_count ps' = 3 ∧ ps_poll_paused ps' = true.
Proof.
  intros fail db'.
  apply (circuit_breaker_opens 7 3 [fail; fail] wit_feed_db wit_row wit_ps); try done.
  repeat constructor.
Defined.

Lemma feed_move_keeps_urls_unique_witness :
  let p := mkMetaParams 7 "" "" 60 "" None None 0 "https://b.example/feed" None in
  fd_feeds (updateFeedRefreshMeta wit_feed_db p).1
    = <[7 := set_feed_url wit_row "https://b.example/feed"]> {[ 7 := wit_row ]}.
Proof.
  intros p.
  destruct (feed_move_keeps_urls_unique wit_feed_db (updateFeedRefreshMeta wit_feed_db p).1 p wit_row)
    as [_ H]; [|reflexivity|reflexivity|].
  - intros i j a b Ha Hb _. unfold wit_feed_db in Ha, Hb. cbn [fd_feeds] in Ha, Hb. apply lookup_singleton_Some in Ha as [<- _].
    by apply lookup_singleton_Some in Hb as [<- _].
  - rewrite H. apply decide_True. split; [done|].
    intros i a Ha. unfold wit_feed_db in Ha. cbn [fd_feeds] in Ha. by apply lookup_singleton_Some in Ha as [_ <-].
Defined.

Lemma refresh_meta_nil_state_wipes_witness :
  let p := mkMetaParams 7 "" "" 60 "layout" None None 0 "" None in
  ps_bridge_state wit_ps ≠ ∅ ∧
  (ps_bridge_state <$> fd_poll (updateFeedRefreshMeta wit_feed_db p).1 !! 7) = Some ∅.
Proof.
  intros p. split; [discriminate|].
  apply (refresh_meta_nil_state_wipes wit_feed_db 7 wit_ps p (mkFailureParams 7 "" 3 60 90 None));
    reflexivity.
Defined.
