(* ===== verification/WebhookStore.v ===== *)
(** The webhook tables ([webhooks], [webhook_logs]) and their statements
    ([storage/webhooks.go], [storage/webhook_digest.go],
    [storage/webhook_on_success.go], the claims and outcomes the delivery worker
    runs on).  A log row is one delivery of one entry to one webhook. *)

From S2P Require Import Prelude GoStrings PollWindow Types.

(** * The tables *)

(** migrations/0006_webhooks.sql:31-32 [webhook_logs_status_check] *)
Inductive log_status := Pending | Sent | Failed | Dead.

#[export] Instance log_status_eq_dec : EqDecision log_status.
Proof. solve_decision. Defined.

(** storage/entities.go [Webhook] With the delivery counters of migration 0031. *)
Record Webhook := mkWebhook {
  wh_id : Z;
  wh_user_id : Z;
  wh_url : string;
  wh_method : string;
  wh_headers : string;
  wh_body_template : string;
  wh_secret : string;
  wh_enabled : bool;
  wh_on_success_entry : string;
  wh_kind : string;
  wh_digest_minutes : Z;
  wh_sent_total : Z;
  wh_failed_total : Z;
  wh_last_error : option string;
}.

(** storage/entities.go [WebhookLog] The columns; digest minutes and peers are in
    [ClaimedLog]. *)
Record WLog := mkWLog {
  wl_id : Z;
  wl_webhook_id : Z;
  wl_entry_id : Z;
  wl_feed_id : Z;
  wl_status : log_status;
  wl_attempt : Z;
  wl_next_retry_at : option Z;
  wl_last_status_code : option Z;
  wl_last_error : option string;
  wl_response_snippet : option string;
}.

(** A claimed row as the dispatcher hands it to a worker. *)
Record ClaimedLog := mkClaimed { cl_log : WLog; cl_digest_minutes : Z; cl_peers : list Z }.

Record HookDb := mkHookDb {
  hd_webhooks : gmap Z Webhook;
  hd_logs : gmap Z WLog;
  hd_next_id : Z;
}.

Definition with_logs (db : HookDb) l := mkHookDb (hd_webhooks db) l (hd_next_id db).
Definition with_webhooks (db : HookDb) w := mkHookDb w (hd_logs db) (hd_next_id db).

(** [status IN ('pending','failed')]. *)
Definition is_open (s : log_status) : bool := match s with Pending | Failed => true | _ => false end.

(** * On-success actions *)

(** storage/webhook_on_success.go [NormalizeWebhookOnSuccess] [None] is the error. *)
Definition NormalizeWebhookOnSuccess (s : string) : option string :=
  let s := to_lower (trim_space s) in
  if String.eqb s "" then Some "none"
  else if String.eqb s "none" || String.eqb s "hash" || String.eqb s "delete"
          || String.eqb s "mark_read" then Some s
  else None.

(** storage/webhook_on_success.go:66-79 [MergeOnSuccessActions, the loop body]
    The three flags are [hasDelete], [hasHash], [hasRead]. *)
Definition on_success_step (flags : bool * bool * bool) (raw : string) : bool * bool * bool :=
  let '(d, h, r) := flags in
  match NormalizeWebhookOnSuccess raw with
  | None => (d, h, r)
  | Some a =>
      if String.eqb a "delete" then (true, h, r)
      else if String.eqb a "hash" then (d, true, r)
      else if String.eqb a "mark_read" then (d, h, true)
      else (d, h, r)
  end.

(** storage/webhook_on_success.go [MergeOnSuccessActions] *)
Definition MergeOnSuccessActions (actions : list string) : string :=
  let '(hasDelete, hasHash, hasRead) := foldl on_success_step (false, false, false) actions in
  if (hasDelete : bool) then "delete"
  else if (hasHash : bool) then "hash"
  else if (hasRead : bool) then "mark_read"
  else "none".

(** storage/webhook_on_success.go [NormalizeDigestMinutes] [None] is the error. *)
Definition NormalizeDigestMinutes (n : Z) : option Z :=
  if (n <? 0) || (1440 <? n) then None else Some n.

(** storage/webhook_kind.go [NormalizeWebhookKind] [None] is the error. *)
Definition NormalizeWebhookKind (s : string) : option string :=
  let s := to_lower (trim_space s) in
  if String.eqb s "" then Some "http"
  else if String.eqb s "http" || String.eqb s "telegram" || String.eqb s "max" then Some s
  else None.

(** * Enqueueing *)

Section Enqueue.
(** The process time zone, as in [PollWindow]. *)
Context (zone : Z → Z).

(** storage/webhook_digest.go [DigestWindowOrigin] *)
Definition DigestWindowOrigin (now : Z) : Z :=
  time_date zone (local_seconds zone now / 86400 * 86400).

(** PostgreSQL's [date_bin(stride, source, origin)]. *)
Definition date_bin (stride source origin : Z) : Z := origin + (source - origin) / stride * stride.

(** storage/webhooks.go:307-309 [PostgresStore.EnqueueWebhookLogs, next_retry_at of a new row] *)
Definition enqueue_due (now : Z) (w : Webhook) : Z :=
  if 0 <? wh_digest_minutes w then
    date_bin (wh_digest_minutes w * minute) now (DigestWindowOrigin now) + wh_digest_minutes w * minute
  else now.

Definition has_log (db : HookDb) (webhookID entryID : Z) : Prop :=
  map_Exists (λ _ l, wl_webhook_id l = webhookID ∧ wl_entry_id l = entryID) (hd_logs db).

#[export] Instance has_log_dec db w e : Decision (has_log db w e).
Proof. unfold has_log. apply _. Defined.

(** storage/webhooks.go:304-312 [PostgresStore.EnqueueWebhookLogs, the row of one webhook]
    With its [ON CONFLICT (webhook_id, entry_id) DO NOTHING]. *)
Definition enqueue_one (now entryID feedID : Z) (db : HookDb) (w : Webhook) : HookDb :=
  if decide (has_log db (wh_id w) entryID) then db
  else mkHookDb (hd_webhooks db)
         (<[hd_next_id db := mkWLog (hd_next_id db) (wh_id w) entryID feedID Pending 0
                               (Some (enqueue_due now w)) None None None]> (hd_logs db))
         (hd_next_id db + 1).

(** storage/webhooks.go [PostgresStore.EnqueueWebhookLogs] [feedOf] is the
    entries table: the feed of an existing entry. *)
Definition EnqueueWebhookLogs (now : Z) (db : HookDb) (feedOf : Z → option Z)
    (webhookIDs : list Z) (entryID : Z) : HookDb :=
  if (entryID <=? 0) || bool_decide (webhookIDs = []) then db
  else match feedOf entryID with
       | None => db
       | Some feedID =>
           foldl (enqueue_one now entryID feedID) db
             (map_to_list (filter (λ kv, kv.1 ∈ webhookIDs) (hd_webhooks db))).*2
       end.
End Enqueue.

(** * Claims *)

(** [ORDER BY next_retry_at ASC, id ASC] on rows that carry a retry time. *)
Definition log_due (l : WLog) : Z := default 0 (wl_next_retry_at l).
Definition log_le (a b : WLog) : Prop :=
  log_due a < log_due b ∨ (log_due a = log_due b ∧ wl_id a <= wl_id b).

#[export] Instance log_le_dec : RelDecision log_le.
Proof. unfold log_le. intros a b. apply _. Defined.

(** storage/webhooks.go:340-342 [PostgresStore.ClaimDueWebhookLogs, the WHERE clause] *)
Definition claimable (now : Z) (exclude : list Z) (l : WLog) : bool :=
  is_open (wl_status l)
  && match wl_next_retry_at l with Some t => t <=? now | None => false end
  && negb (bool_decide (wl_webhook_id l ∈ exclude)).

Definition due_logs (now : Z) (db : HookDb) (exclude : list Z) : list WLog :=
  filter (λ l, claimable now exclude l = true) (map_to_list (hd_logs db)).*2.

(** [DISTINCT ON (webhook_id) ... ORDER BY webhook_id, next_retry_at, id]. *)
Definition oldest_of_webhook (ls : list WLog) (l : WLog) : Prop :=
  Forall (λ l', wl_webhook_id l' = wl_webhook_id l → log_le l l') ls.

#[export] Instance oldest_dec ls l : Decision (oldest_of_webhook ls l).
Proof. unfold oldest_of_webhook. apply _. Defined.

(** storage/webhooks.go [PostgresStore.ClaimDueWebhookLogs] *)
Definition ClaimDueWebhookLogs (now : Z) (db : HookDb) (limit : Z) (exclude : list Z)
    : list ClaimedLog :=
  if limit <=? 0 then []
  else
    let ls := due_logs now db exclude in
    let oldest := filter (λ l, is_Some (hd_webhooks db !! wl_webhook_id l))
                    (filter (oldest_of_webhook ls) ls) in
    (λ l, mkClaimed l (default 0 (wh_digest_minutes <$> hd_webhooks db !! wl_webhook_id l)) [])
      <$> take (Z.to_nat limit) (merge_sort log_le oldest).

Definition id_le (a b : WLog) : Prop := wl_id a <= wl_id b.
#[export] Instance id_le_dec : RelDecision id_le.
Proof. unfold id_le. intros a b. apply _. Defined.

(** storage/webhook_digest.go [PostgresStore.ClaimWebhookDigestPeers] *)
Definition ClaimWebhookDigestPeers (now : Z) (db : HookDb) (webhookID : Z) (excludeIDs : list Z)
    (limit : Z) : list WLog :=
  if limit <=? 0 then []
  else take (Z.to_nat limit) (merge_sort id_le
         (filter (λ l, wl_webhook_id l = webhookID ∧ wl_id l ∉ excludeIDs)
            (due_logs now db []))).

(** storage/due_wait.go [PostgresStore.NextWebhookRetryAt] *)
Definition NextWebhookRetryAt (db : HookDb) (exclude : list Z) : option Z :=
  foldr (λ t acc, Some (match acc with Some m => Z.min t m | None => t end)) None
    (omap (λ l, if is_open (wl_status l) && negb (bool_decide (wl_webhook_id l ∈ exclude))
                then wl_next_retry_at l else None) (map_to_list (hd_logs db)).*2).

(** * Outcomes *)

Definition bump_sent (w : Webhook) : Webhook :=
  mkWebhook (wh_id w) (wh_user_id w) (wh_url w) (wh_method w) (wh_headers w) (wh_body_template w)
    (wh_secret w) (wh_enabled w) (wh_on_success_entry w) (wh_kind w) (wh_digest_minutes w)
    (wh_sent_total w + 1) (wh_failed_total w) (wh_last_error w).

Definition bump_failed (errMsg : string) (dead : bool) (w : Webhook) : Webhook :=
  if wh_enabled w || dead then
    mkWebhook (wh_id w) (wh_user_id w) (wh_url w) (wh_method w) (wh_headers w) (wh_body_template w)
      (wh_secret w) (wh_enabled w) (wh_on_success_entry w) (wh_kind w) (wh_digest_minutes w)
      (wh_sent_total w) (wh_failed_total w + (if dead then 1 else 0)) (Some errMsg)
  else w.

Definition log_sent (code : Z) (snippet : option string) (attempt : Z) (l : WLog) : WLog :=
  mkWLog (wl_id l) (wl_webhook_id l) (wl_entry_id l) (wl_feed_id l) Sent attempt None (Some code)
    None snippet.

Definition log_failed (code : option Z) (errMsg snippet : string) (attempt : Z) (next : option Z)
    (dead : bool) (l : WLog) : WLog :=
  mkWLog (wl_id l) (wl_webhook_id l) (wl_entry_id l) (wl_feed_id l) (if dead then Dead else Failed)
    attempt next code (Some errMsg) (Some snippet).

(** Updates one log and, in the same statement, its webhook. *)
Definition update_log (db : HookDb) (logID : Z) (g : WLog → WLog) (h : Webhook → Webhook) : HookDb :=
  match hd_logs db !! logID with
  | None => db
  | Some l => mkHookDb (alter h (wl_webhook_id l) (hd_webhooks db)) (<[logID := g l]> (hd_logs db))
                (hd_next_id db)
  end.

(** storage/webhooks.go [PostgresStore.MarkWebhookLogSent] *)
Definition MarkWebhookLogSent (db : HookDb) (logID attempt code : Z) (snippet : string) : HookDb :=
  update_log db logID
    (log_sent code (if String.eqb snippet "" then None else Some snippet) attempt) bump_sent.

(** storage/webhooks.go [PostgresStore.MarkWebhookLogFailed] *)
Definition MarkWebhookLogFailed (db : HookDb) (logID : Z) (code : option Z) (errMsg snippet : string)
    (attempt : Z) (next : option Z) (dead : bool) : HookDb :=
  update_log db logID (log_failed code errMsg snippet attempt next dead) (bump_failed errMsg dead).

(** The webhook of the first updated row ([SELECT webhook_id FROM l LIMIT 1]). *)
Definition batch_webhook (db : HookDb) (ids : list Z) : option Z :=
  head (omap (λ i, wl_webhook_id <$> hd_logs db !! i) ids).

Definition update_logs (db : HookDb) (ids : list Z) (g : WLog → WLog) (h : Webhook → Webhook)
    : HookDb :=
  mkHookDb
    (match batch_webhook db ids with Some w => alter h w (hd_webhooks db) | None => hd_webhooks db end)
    (map_imap (λ i l, Some (if bool_decide (i ∈ ids) then g l else l)) (hd_logs db))
    (hd_next_id db).

(** storage/webhook_digest.go [PostgresStore.MarkWebhookLogsSent] *)
Definition MarkWebhookLogsSent (db : HookDb) (ids : list Z) (code : Z) (snippet : string) : HookDb :=
  match ids with
  | [] => db
  | _ => update_logs db ids (λ l, log_sent code (Some snippet) (wl_attempt l + 1) l) bump_sent
  end.

(** storage/webhook_digest.go [PostgresStore.MarkWebhookLogsFailed] *)
Definition MarkWebhookLogsFailed (db : HookDb) (ids : list Z) (code : option Z)
    (errMsg snippet : string) (next : option Z) (dead countAttempt : bool) : HookDb :=
  match ids with
  | [] => db
  | _ => update_logs db ids
           (λ l, log_failed code errMsg snippet
                   (wl_attempt l + (if countAttempt then 1 else 0)) next dead l)
           (bump_failed errMsg dead)
  end.

(** storage/webhooks.go [PostgresStore.RetryWebhookLogNow] *)
Definition RetryWebhookLogNow (now : Z) (db : HookDb) (userID logID : Z) : HookDb * option err :=
  match hd_logs db !! logID with
  | Some l =>
      match hd_webhooks db !! wl_webhook_id l with
      | Some w =>
          if (wh_user_id w =? userID) && negb (bool_decide (wl_status l = Sent)) then
            (with_logs db (<[logID :=
               mkWLog (wl_id l) (wl_webhook_id l) (wl_entry_id l) (wl_feed_id l) Pending (wl_attempt l)
                 (Some now) (wl_last_status_code l) (wl_last_error l) (wl_response_snippet l)]>
               (hd_logs db)), None)
          else (db, Some ENotFound)
      | None => (db, Some ENotFound)
      end
  | None => (db, Some ENotFound)
  end.

(** storage/webhooks.go [PostgresStore.SetWebhookEnabled] *)
Definition SetWebhookEnabled (db : HookDb) (userID id : Z) (enabled : bool) : HookDb * option err :=
  match hd_webhooks db !! id with
  | Some w =>
      if wh_user_id w =? userID then
        (with_webhooks db (<[id :=
           mkWebhook (wh_id w) (wh_user_id w) (wh_url w) (wh_method w) (wh_headers w)
             (wh_body_template w) (wh_secret w) enabled (wh_on_success_entry w) (wh_kind w)
             (wh_digest_minutes w) (wh_sent_total w) (wh_failed_total w) (wh_last_error w)]>
           (hd_webhooks db)), None)
      else (db, Some ENotFound)
  | None => (db, Some ENotFound)
  end.

(** storage/webhook_delivery.go [PostgresStore.EntryWebhookOutcome] *)
Definition EntryWebhookOutcome (db : HookDb) (entryID excludeLogID : Z) : Z * string :=
  let rows := omap (λ l, if wl_entry_id l =? entryID
                         then w ← hd_webhooks db !! wl_webhook_id l; Some (l, w) else None)
                (map_to_list (hd_logs db)).*2 in
  (Z.of_nat (length (filter (λ lw, wl_id lw.1 ≠ excludeLogID ∧ is_open (wl_status lw.1) = true) rows)),
   MergeOnSuccessActions ((λ lw, wh_on_success_entry lw.2) <$> rows)).

(** * Lemmas *)

(** What the primary key, the sequence and the unique index guarantee. *)
Record logs_wf (db : HookDb) : Prop := {
  wf_key : ∀ i l, hd_logs db !! i = Some l → wl_id l = i;
  wf_next : ∀ i l, hd_logs db !! i = Some l → i < hd_next_id db;
  wf_uniq : ∀ i j a b, hd_logs db !! i = Some a → hd_logs db !! j = Some b →
              wl_webhook_id a = wl_webhook_id b → wl_entry_id a = wl_entry_id b → i = j;
}.

Definition hooks_wf (db : HookDb) : Prop :=
  ∀ i w, hd_webhooks db !! i = Some w → wh_id w = i.

#[export] Instance log_le_trans : Transitive log_le.
Proof. intros a b c. unfold log_le. lia. Qed.
#[export] Instance log_le_total : Total log_le.
Proof. intros a b. unfold log_le. lia. Qed.

Lemma due_logs_elem now db ex l : logs_wf db →
  l ∈ due_logs now db ex ↔ hd_logs db !! wl_id l = Some l ∧ claimable now ex l = true.
Proof.
  intros Hwf. unfold due_logs. rewrite list_elem_of_filter, list_elem_of_fmap. split.
  - intros [Hc ([i x] & -> & Hin)]. apply elem_of_map_to_list in Hin.
    simpl. by rewrite (wf_key _ Hwf _ _ Hin).
  - intros [Hl Hc]. split; [done|]. exists (wl_id l, l). by rewrite elem_of_map_to_list.
Qed.

Lemma due_logs_NoDup now db ex : logs_wf db → NoDup (due_logs now db ex).
Proof.
  intros Hwf. apply NoDup_filter, NoDup_fmap_2_strong; [|apply NoDup_map_to_list].
  intros [i a] [j b] Ha%elem_of_map_to_list Hb%elem_of_map_to_list Heq. simpl in Heq. subst b.
  by rewrite <-(wf_key _ Hwf _ _ Ha), <-(wf_key _ Hwf _ _ Hb).
Qed.

(** Among rows with a due date there is a least one. *)
Lemma least_log (P : WLog → Prop) `{∀ l, Decision (P l)} (ls : list WLog) :
  (∃ l, l ∈ ls ∧ P l) → ∃ l, l ∈ ls ∧ P l ∧ ∀ l', l' ∈ ls → P l' → log_le l l'.
Proof.
  intros (l0 & Hl0 & HP). pose proof (StronglySorted_merge_sort log_le (filter P ls)) as Hs.
  pose proof (merge_sort_Permutation log_le (filter P ls)) as Hp.
  destruct (merge_sort log_le (filter P ls)) as [|m rest].
  - apply Permutation_nil_l in Hp. assert (l0 ∈ filter P ls) as Hin by (by apply list_elem_of_filter).
    rewrite <-Hp in Hin. by apply elem_of_nil in Hin.
  - assert (m ∈ filter P ls) as Hm by (rewrite <-Hp; left). apply list_elem_of_filter in Hm as [Pm Hm].
    exists m. split_and!; [done..|]. intros l' Hl' Pl'. inv Hs.
    assert (l' ∈ m :: rest) as Hin by (rewrite Hp; by apply list_elem_of_filter).
    apply elem_of_cons in Hin as [->|Hin]; [unfold log_le; lia|].
    by eapply (proj1 (Forall_forall _ _)).
Qed.

Lemma log_le_antisym db a b : logs_wf db → hd_logs db !! wl_id a = Some a →
  hd_logs db !! wl_id b = Some b → log_le a b → log_le b a → a = b.
Proof.
  unfold log_le. intros Hwf Ha Hb H1 H2. assert (wl_id a = wl_id b) as E by lia.
  rewrite E in Ha. congruence.
Qed.

(** Enqueueing one webhook. *)
Lemma enqueue_one_wf zone now e f db w : logs_wf db → logs_wf (enqueue_one zone now e f db w).
Proof.
  intros Hwf. unfold enqueue_one. case_decide as Hno; [done|].
  assert (∀ l, hd_logs db !! hd_next_id db ≠ Some l) as Hfresh.
  { intros l Hl. apply (wf_next _ Hwf) in Hl. lia. }
  split; cbn [hd_logs hd_next_id].
  - intros i l [[<- <-]|[_ Hl]]%lookup_insert_Some; [done|]. by eapply wf_key.
  - intros i l [[<- _]|[_ Hl]]%lookup_insert_Some; [lia|]. apply (wf_next _ Hwf) in Hl. lia.
  - intros i j a b [[<- <-]|[_ Ha]]%lookup_insert_Some [[<- <-]|[_ Hb]]%lookup_insert_Some Hw He;
      simpl in *; try done.
    + destruct Hno. exists j, b. done.
    + destruct Hno. exists i, a. done.
    + by eapply wf_uniq.
Qed.

Lemma enqueue_one_keeps zone now e f db w i l : logs_wf db →
  hd_logs db !! i = Some l → hd_logs (enqueue_one zone now e f db w) !! i = Some l.
Proof.
  intros Hwf Hl. unfold enqueue_one. case_decide; [done|]. simpl.
  rewrite lookup_insert_ne; [done|]. apply (wf_next _ Hwf) in Hl. lia.
Qed.

Lemma has_log_elem db w e : has_log db w e ↔
  ∃ i l, hd_logs db !! i = Some l ∧ wl_webhook_id l = w ∧ wl_entry_id l = e.
Proof. done. Qed.

(** What enqueueing a list of webhooks leaves: the old rows, and a fresh pending
    row for each of them that had none. *)
Definition enqueued (zone : Z → Z) (now e f : Z) (ws : list Webhook) (db db' : HookDb) : Prop :=
  logs_wf db' ∧ hd_webhooks db' = hd_webhooks db ∧
  (∀ i l, hd_logs db !! i = Some l → hd_logs db' !! i = Some l) ∧
  (∀ w, w ∈ ws → has_log db' (wh_id w) e) ∧
  (∀ i l, hd_logs db' !! i = Some l → hd_logs db !! i = Some l ∨
     ∃ w, w ∈ ws ∧ ¬ has_log db (wh_id w) e ∧
          l = mkWLog i (wh_id w) e f Pending 0 (Some (enqueue_due zone now w)) None None None).

Lemma enqueue_all_spec zone now e f ws db : logs_wf db →
  enqueued zone now e f ws db (foldl (enqueue_one zone now e f) db ws).
Proof.
  revert db. induction ws as [|w ws IH]; intros db Hwf; simpl.
  - split_and!; try done; [by intros w ?%elem_of_nil|by left].
  - pose proof (enqueue_one_wf zone now e f db w Hwf) as Hwf1.
    destruct (IH _ Hwf1) as (H1 & H2 & H3 & H4 & H5). set (db1 := enqueue_one zone now e f db w) in *.
    assert (hd_webhooks db1 = hd_webhooks db) as Hw1 by (unfold db1, enqueue_one; by case_decide).
    assert (has_log db1 (wh_id w) e) as Hhas.
    { unfold db1, enqueue_one. case_decide as Hd; [done|]. eexists (hd_next_id db), _. simpl.
      by rewrite lookup_insert_eq. }
    split_and!; [done|congruence| | |].
    + intros i l Hl. by apply H3, enqueue_one_keeps.
    + intros w' [->|Hw']%elem_of_cons; [|by apply H4]. destruct Hhas as (i & l & Hl & ?).
      exists i, l. split; [by apply H3|done].
    + intros i l Hl. destruct (H5 i l Hl) as [Hl1|(w' & Hw' & Hno & ->)].
      * unfold db1, enqueue_one in Hl1. case_decide as Hd; [by left|]. simpl in Hl1.
        apply lookup_insert_Some in Hl1 as [[<- <-]|[_ ?]]; [right|by left].
        exists w. split; [left|done].
      * right. exists w'. split; [by right|]. split; [|done]. intros (j & x & Hx & ?). destruct Hno.
        exists j, x. split; [by apply enqueue_one_keeps|done].
Qed.

(** * Properties *)

(** The rows a claim may choose: the oldest due row of each existing webhook. *)
Definition oldest_due (now : Z) (db : HookDb) (ex : list Z) : list WLog :=
  filter (λ l, is_Some (hd_webhooks db !! wl_webhook_id l))
    (filter (oldest_of_webhook (due_logs now db ex)) (due_logs now db ex)).

Lemma oldest_due_elem now db ex l : l ∈ oldest_due now db ex ↔
  l ∈ due_logs now db ex ∧ is_Some (hd_webhooks db !! wl_webhook_id l) ∧
  oldest_of_webhook (due_logs now db ex) l.
Proof. unfold oldest_due. rewrite !list_elem_of_filter. tauto. Qed.

Lemma claim_due_unfold now db limit ex : 0 < limit →
  ClaimDueWebhookLogs now db limit ex =
  (λ l, mkClaimed l (default 0 (wh_digest_minutes <$> hd_webhooks db !! wl_webhook_id l)) [])
    <$> take (Z.to_nat limit) (merge_sort log_le (oldest_due now db ex)).
Proof. intros H. unfold ClaimDueWebhookLogs. by rewrite (proj2 (Z.leb_gt limit 0)). Qed.

Lemma claimed_oldest now db limit ex l :
  l ∈ take (Z.to_nat limit) (merge_sort log_le (oldest_due now db ex)) → l ∈ oldest_due now db ex.
Proof.
  intros Hl. rewrite <-(merge_sort_Permutation log_le (oldest_due now db ex)).
  by eapply elem_of_sublist; [|apply sublist_take].
Qed.

(** A claim never takes two rows of one webhook. *)
Lemma claim_due_NoDup now db limit ex : logs_wf db → 0 < limit →
  NoDup ((λ x, wl_webhook_id (cl_log x)) <$> ClaimDueWebhookLogs now db limit ex).
Proof.
  intros Hwf Hl. rewrite claim_due_unfold by done. rewrite <-list_fmap_compose. apply NoDup_fmap_2_strong.
  - intros a b Ha%claimed_oldest Hb%claimed_oldest Heq. simpl in Heq.
    apply oldest_due_elem in Ha as (Ha & _ & Hao). apply oldest_due_elem in Hb as (Hb & _ & Hbo).
    unfold oldest_of_webhook in Hao, Hbo. rewrite Forall_forall in Hao, Hbo.
    apply (log_le_antisym db); try done; try (by apply (due_logs_elem now db ex)); auto.
  - eapply sublist_NoDup; [|apply sublist_take]. rewrite (merge_sort_Permutation log_le (oldest_due now db ex)).
    by apply NoDup_filter, NoDup_filter, due_logs_NoDup.
Qed.

Lemma claim_due_elem now db limit ex x : logs_wf db → 0 < limit →
  x ∈ ClaimDueWebhookLogs now db limit ex →
  hd_logs db !! wl_id (cl_log x) = Some (cl_log x) ∧ claimable now ex (cl_log x) = true ∧
  (∃ w, hd_webhooks db !! wl_webhook_id (cl_log x) = Some w ∧
        cl_digest_minutes x = wh_digest_minutes w) ∧
  cl_peers x = [] ∧ cl_log x ∈ oldest_due now db ex.
Proof.
  intros Hwf Hl. rewrite claim_due_unfold by done.
  intros (l & -> & Ho%claimed_oldest)%list_elem_of_fmap. simpl.
  pose proof Ho as (Hd & [w Hw] & _)%oldest_due_elem.
  apply (due_logs_elem now db ex l Hwf) in Hd as [? ?]. split_and!; [done..| |done|done].
  exists w. by rewrite Hw.
Qed.

(** When a delivery may be claimed. *)
Record log_ready (now : Z) (ex : list Z) (l : WLog) : Prop := {
  lr_open : wl_status l = Pending ∨ wl_status l = Failed;
  lr_due : ∃ t, wl_next_retry_at l = Some t ∧ t <= now;
  lr_not_excluded : wl_webhook_id l ∉ ex;
}.

Lemma claimable_ready now ex l : claimable now ex l = true ↔ log_ready now ex l.
Proof.
  unfold claimable. rewrite !andb_true_iff, negb_true_iff, bool_decide_eq_false. split.
  - intros [[Ho Hd] He]. split; [by destruct (wl_status l); auto| |done].
    destruct (wl_next_retry_at l) as [t|]; [|done]. exists t. split; [done|lia].
  - intros [Ho (t & -> & Ht) He]. split_and!; [by destruct Ho as [-> | ->]|lia|done].
Qed.

(** The delivery claim.  [ClaimDueWebhookLogs] returns at most [limit]
    rows and at most one per webhook: the oldest of that webhook's due rows,
    pending or failed with its retry time reached, of a webhook that exists
    and is not excluded.  A webhook with a due row is either served or the
    limit was reached. *)
Lemma claim_due_spec (now : Z) (db : HookDb) (limit : Z) (ex : list Z)
    (Hwf : logs_wf db) (Hlimit : 0 < limit) :
  let c := ClaimDueWebhookLogs now db limit ex in
  Z.of_nat (length c) <= limit ∧
  NoDup ((λ x, wl_webhook_id (cl_log x)) <$> c) ∧
  (∀ x, x ∈ c → hd_logs db !! wl_id (cl_log x) = Some (cl_log x) ∧
     log_ready now ex (cl_log x) ∧
     (∃ w, hd_webhooks db !! wl_webhook_id (cl_log x) = Some w ∧
           cl_digest_minutes x = wh_digest_minutes w) ∧
     ∀ i l, hd_logs db !! i = Some l → log_ready now ex l →
       wl_webhook_id l = wl_webhook_id (cl_log x) → log_le (cl_log x) l) ∧
  (∀ i l w, hd_logs db !! i = Some l → log_ready now ex l →
     hd_webhooks db !! wl_webhook_id l = Some w →
     (∃ x, x ∈ c ∧ wl_webhook_id (cl_log x) = wl_webhook_id l) ∨ Z.of_nat (length c) = limit).
Proof.
  intros c. split_and!.
  - unfold c. rewrite claim_due_unfold, length_fmap, length_take by done. lia.
  - by apply claim_due_NoDup.
  - intros x Hx. apply claim_due_elem in Hx as (? & Hr%claimable_ready & ? & _ & Ho); [|done..]. split_and!; [done..|].
    apply oldest_due_elem in Ho as (_ & _ & Ho). unfold oldest_of_webhook in Ho. rewrite Forall_forall in Ho.
    intros i l' Hi Hc%claimable_ready Heq. apply Ho; [|done]. apply due_logs_elem; [done|].
    by rewrite (wf_key _ Hwf _ _ Hi).
  - intros i l w Hi Hc%claimable_ready Hw. unfold c. rewrite claim_due_unfold, length_fmap by done.
    assert (l ∈ due_logs now db ex) as Hl.
    { apply due_logs_elem; [done|]. by rewrite (wf_key _ Hwf _ _ Hi). }
    destruct (least_log (λ l', wl_webhook_id l' = wl_webhook_id l) (due_logs now db ex))
      as (m & Hm & Hmw & Hmin); [eauto|].
    assert (m ∈ merge_sort log_le (oldest_due now db ex)) as Hms.
    { rewrite (merge_sort_Permutation log_le (oldest_due now db ex)). apply oldest_due_elem.
      split_and!; [done|by rewrite Hmw, Hw|].
      apply Forall_forall. intros l' Hl' Heq. apply Hmin; [done|congruence]. }
    rewrite <-(take_drop (Z.to_nat limit) (merge_sort _ _)), elem_of_app in Hms. destruct Hms as [Hin|Hin].
    + left. eexists. split; [by apply list_elem_of_fmap_2|done].
    + right. apply list_elem_of_lookup in Hin as [k Hk]. rewrite lookup_drop in Hk.
      apply lookup_lt_Some in Hk. rewrite length_take. lia.
Qed.

(** C35: enqueueing is exactly-once.  For an existing entry, every existing
    webhook of the list ends with exactly one delivery of that entry: a fresh
    pending row, due now or at the end of its digest window, if it had none;
    rows that were there keep their state, no other row appears, and
    enqueueing again changes nothing. *)
Theorem enqueue_exactly_once (zone : Z → Z) (now now' : Z) (db : HookDb) (feedOf : Z → option Z)
    (ids : list Z) (entryID feedID : Z)
    (Hwf : logs_wf db) (Hhooks : hooks_wf db) (Hentry : 0 < entryID)
    (Hfeed : feedOf entryID = Some feedID) :
  let db' := EnqueueWebhookLogs zone now db feedOf ids entryID in
  logs_wf db' ∧
  (∀ i l, hd_logs db !! i = Some l → hd_logs db' !! i = Some l) ∧
  (∀ w, w ∈ ids → is_Some (hd_webhooks db !! w) → has_log db' w entryID) ∧
  (∀ i l, hd_logs db' !! i = Some l → hd_logs db !! i = None →
     ∃ w, wl_webhook_id l ∈ ids ∧ hd_webhooks db !! wl_webhook_id l = Some w ∧
       ¬ has_log db (wl_webhook_id l) entryID ∧
       l = mkWLog i (wl_webhook_id l) entryID feedID Pending 0 (Some (enqueue_due zone now w))
             None None None) ∧
  EnqueueWebhookLogs zone now' db' feedOf ids entryID = db'.
Proof.
  intros db'. unfold db', EnqueueWebhookLogs. rewrite Hfeed, (proj2 (Z.leb_gt entryID 0)) by done. simpl.
  case_bool_decide as Hids.
  { subst ids. split_and!; try done; [by intros w ?%elem_of_nil|congruence]. }
  set (ws := (map_to_list _).*2).
  assert (∀ w, w ∈ ws ↔ wh_id w ∈ ids ∧ hd_webhooks db !! wh_id w = Some w) as Hws.
  { intros w. unfold ws. rewrite list_elem_of_fmap. split.
    - intros ([i x] & -> & Hin%elem_of_map_to_list). apply map_lookup_filter_Some in Hin as [Hx Hi].
      simpl in *. by rewrite (Hhooks _ _ Hx).
    - intros [Hi Hw]. exists (wh_id w, w). split; [done|]. apply elem_of_map_to_list.
      by apply map_lookup_filter_Some. }
  destruct (enqueue_all_spec zone now entryID feedID ws db Hwf) as (H1 & H2 & H3 & H4 & H5).
  set (db1 := foldl _ db ws) in *. split_and!; [done..| | |].
  - intros w Hw [x Hx]. rewrite <-(Hhooks _ _ Hx). apply H4, Hws. by rewrite (Hhooks _ _ Hx).
  - intros i l Hl Hn. destruct (H5 i l Hl) as [?|(w & Hw & Hno & ->)]; [congruence|].
    apply Hws in Hw as [? ?]. by exists w.
  - rewrite H2. fold ws. clearbody db1 ws. clear -H4. induction ws as [|w ws IH]; [done|]. simpl.
    assert (enqueue_one zone now' entryID feedID db1 w = db1) as ->.
    { unfold enqueue_one. rewrite decide_True; [done|]. apply H4. left. }
    apply IH. intros w' Hw'. apply H4. by right.
Qed.

(** A digest delivery becomes due at the first boundary after now of the
    windows counted from local midnight: strictly later than now, at most one
    window away, and a whole number of windows after the origin; a webhook
    without digest is due at once. *)
Lemma enqueue_due_window (zone : Z → Z) (now : Z) (w : Webhook) :
  let due := enqueue_due zone now w in
  let d := wh_digest_minutes w * minute in
  (wh_digest_minutes w <= 0 → due = now) ∧
  (0 < wh_digest_minutes w →
     now < due <= now + d ∧ ∃ k, due = DigestWindowOrigin zone now + k * d ∧
     ∀ k', now < DigestWindowOrigin zone now + k' * d → k <= k').
Proof.
  intros due d. unfold due, enqueue_due. fold d. split; intros Hd.
  - by rewrite (proj2 (Z.ltb_ge _ _)).
  - rewrite (proj2 (Z.ltb_lt _ _)) by done. assert (0 < d) as Hpos by (unfold d, minute, second; lia).
    unfold date_bin. set (o := DigestWindowOrigin zone now).
    pose proof (Z.div_mod (now - o) d ltac:(lia)). pose proof (Z.mod_pos_bound (now - o) d Hpos).
    split; [nia|]. exists ((now - o) / d + 1). split; [nia|]. intros k' Hk'.
    apply Z.le_succ_l, Z.div_lt_upper_bound; nia.
Qed.

(** The strength of an action. *)
Definition action_rank (a : string) : Z :=
  if String.eqb a "delete" then 3 else if String.eqb a "hash" then 2
  else if String.eqb a "mark_read" then 1 else 0.

Definition raw_rank (raw : string) : Z :=
  match NormalizeWebhookOnSuccess raw with Some a => action_rank a | None => 0 end.

(** [MergeOnSuccessActions] is the maximum of the actions in the order
    none < mark_read < hash < delete, whatever their order, spelling and
    repetition; an invalid action counts as none. *)
Lemma merge_on_success_max (actions : list string) :
  MergeOnSuccessActions actions ∈ ["none"; "mark_read"; "hash"; "delete"] ∧
  action_rank (MergeOnSuccessActions actions) = foldr Z.max 0 (raw_rank <$> actions).
Proof.
  unfold MergeOnSuccessActions.
  assert (∀ d h r, ∃ d' h' r', foldl on_success_step (d, h, r) actions = (d', h', r') ∧
    (if d' then 3 else if h' then 2 else if r' then 1 else 0) =
    Z.max (if d then 3 else if h then 2 else if r then 1 else 0)
      (foldr Z.max 0 (raw_rank <$> actions))) as H.
  { induction actions as [|a l IH]; intros d h r; cbn [foldl fmap list_fmap foldr].
    - exists d, h, r. split; [done|]. by destruct d, h, r.
    - set (st := on_success_step (d, h, r) a).
      assert (∃ d1 h1 r1, st = (d1, h1, r1) ∧
        (if d1 then 3 else if h1 then 2 else if r1 then 1 else 0) =
        Z.max (if d then 3 else if h then 2 else if r then 1 else 0) (raw_rank a)) as (d1 & h1 & r1 & E1 & E2).
      { unfold st, on_success_step, raw_rank, action_rank.
        destruct (NormalizeWebhookOnSuccess a) as [x|]; [|exists d, h, r; split; [done|by destruct d, h, r]].
        repeat case_match; do 3 eexists; (split; [done|]); repeat case_match; done. }
      rewrite E1. destruct (IH d1 h1 r1) as (d' & h' & r' & -> & E3). exists d', h', r'.
      split; [done|]. rewrite E3, E2. lia. }
  destruct (H false false false) as (d' & h' & r' & -> & E). split.
  - destruct d', h', r'; set_solver.
  - assert (0 <= foldr Z.max 0 (raw_rank <$> actions)) as Hpos.
    { clear. induction actions as [|a l IH]; [done|]. rewrite fmap_cons. cbn [foldr]. lia. }
    transitivity (if d' then 3 else if h' then 2 else if r' then 1 else 0).
    { by destruct d', h', r'. }
    cbn beta iota in E. lia.
Qed.

(** A row that was delivered never comes back: not by a manual retry, not by a claim. *)
Lemma retry_keeps_sent now db u i j l : hd_logs db !! i = Some l → wl_status l = Sent →
  hd_logs (RetryWebhookLogNow now db u j).1 !! i = Some l.
Proof.
  intros Hl Hs. unfold RetryWebhookLogNow.
  destruct (hd_logs db !! j) as [x|] eqn:Hj; [|done].
  destruct (hd_webhooks db !! _) as [w|]; [|done].
  destruct (_ && _) eqn:Hc; [|done]. bool_to_prop. cbn [fst with_logs hd_logs].
  destruct (decide (j = i)) as [->|Hne]; [|by rewrite lookup_insert_ne]. congruence.
Qed.

(** ** Witnesses *)

Definition wit_hook (id digest : Z) : Webhook :=
  mkWebhook id 1 "https://h.example" "POST" "{}" "" "" true "none" "http" digest 0 0 None.
Definition wit_log (id w e : Z) (next : Z) : WLog :=
  mkWLog id w e 7 Pending 0 (Some next) None None None.
Definition wit_hooks : HookDb :=
  mkHookDb {[ 1 := wit_hook 1 0 ]} (<[3 := wit_log 3 1 30 50]> {[ 4 := wit_log 4 1 31 40 ]}) 5.

Lemma wit_hooks_wf : logs_wf wit_hooks.
Proof.
  split; cbn [wit_hooks hd_logs hd_next_id].
  - intros i l [[<- <-]|[_ [<- <-]%lookup_singleton_Some]]%lookup_insert_Some; done.
  - intros i l [[<- <-]|[_ [<- <-]%lookup_singleton_Some]]%lookup_insert_Some; done.
  - intros i j a b [[<- <-]|[_ [<- <-]%lookup_singleton_Some]]%lookup_insert_Some
      [[<- <-]|[_ [<- <-]%lookup_singleton_Some]]%lookup_insert_Some; done.
Defined.

Lemma claim_due_spec_witness :
  (λ x, wl_id (cl_log x)) <$> ClaimDueWebhookLogs 60 wit_hooks 5 [] = [4] ∧
  Z.of_nat (length (ClaimDueWebhookLogs 60 wit_hooks 5 [])) <= 5.
Proof.
  split; [reflexivity|]. apply (claim_due_spec 60 wit_hooks 5 [] wit_hooks_wf). done.
Defined.

Lemma enqueue_exactly_once_witness :
  let db' := EnqueueWebhookLogs (λ _, 0) 60 wit_hooks (λ _, Some 7) [1; 9] 32 in
  size (hd_logs db') = 3%nat ∧ EnqueueWebhookLogs (λ _, 0) 70 db' (λ _, Some 7) [1; 9] 32 = db'.
Proof.
  intros db'. split; [reflexivity|].
  apply (enqueue_exactly_once (λ _, 0) 60 70 wit_hooks (λ _, Some 7) [1; 9] 32 7 wit_hooks_wf);
    [|done|done].
  intros i w Hw. cbn [wit_hooks hd_webhooks] in Hw. by apply lookup_singleton_Some in Hw as [<- <-].
Defined.
