(* ===== verification/EntryStore.v ===== *)
(** The entry tables ([entries], [feed_entry_dedup], [user_unread],
    [user_entries], [entry_labels]) and the statements of [storage/entry.go],
    [storage/entry_dedup.go], [storage/webhook_delivery.go] and
    [storage/subscriptions.go] that fill and empty them.  Enclosures and the text of
    the search vector are left out.  [rssam_dedup_key], a SQL function of the
    migrations over sha256, is a parameter. *)

From S2P Require Import Prelude GoStrings Types FeedStore WebhookStore.

(** * The tables *)

Record EntryRow := mkEntryRow {
  er_id : Z;
  er_feed_id : Z;
  er_title : string;
  er_url : string;
  er_content : string;
  er_original_content : string;
  er_content_fetched : bool;
  er_author : option string;
  er_published_at : option Z;
  er_hash : string;
  er_indexed : bool;          (* the search vector is the one of the text *)
  er_sort_at : Z;
  er_removed_at : option Z;
}.

(** A row of [user_entries]: status read or removed, and the star. *)
Record UserEntry := mkUserEntry { ue_removed : bool; ue_starred : bool; ue_sort_at : Z }.

Record EntryDb := mkEntryDb {
  ed_entries : gmap Z EntryRow;
  ed_next_id : Z;
  ed_dedup : gset (Z * string);             (* (feed, key) *)
  ed_unread : gmap (Z * Z) (Z * Z);         (* (entry, user) ↦ (feed, sort_at) *)
  ed_user : gmap (Z * Z) UserEntry;         (* (entry, user) *)
  ed_labels : gmap (Z * Z) Z;               (* (entry, label) ↦ the label's user *)
}.

(** [FeedEntryDedupParams] is its hash. *)
Definition with_entries (db : EntryDb) e :=
  mkEntryDb e (ed_next_id db) (ed_dedup db) (ed_unread db) (ed_user db) (ed_labels db).
Definition with_dedup (db : EntryDb) d :=
  mkEntryDb (ed_entries db) (ed_next_id db) d (ed_unread db) (ed_user db) (ed_labels db).
Definition with_unread (db : EntryDb) u :=
  mkEntryDb (ed_entries db) (ed_next_id db) (ed_dedup db) u (ed_user db) (ed_labels db).
Definition with_user (db : EntryDb) u :=
  mkEntryDb (ed_entries db) (ed_next_id db) (ed_dedup db) (ed_unread db) u (ed_labels db).

(** Deleting entries cascades to the rows that reference them. *)
Definition delete_entries (db : EntryDb) (gone : Z → Prop) `{∀ i, Decision (gone i)} : EntryDb :=
  mkEntryDb (filter (λ kv, ¬ gone kv.1) (ed_entries db)) (ed_next_id db) (ed_dedup db)
    (filter (λ kv, ¬ gone kv.1.1) (ed_unread db)) (filter (λ kv, ¬ gone kv.1.1) (ed_user db))
    (filter (λ kv, ¬ gone kv.1.1) (ed_labels db)).

Definition has_entry (db : EntryDb) (feedID : Z) (hash : string) : Prop :=
  map_Exists (λ _ e, er_feed_id e = feedID ∧ er_hash e = hash) (ed_entries db).

#[export] Instance has_entry_dec db f h : Decision (has_entry db f h).
Proof. unfold has_entry. apply _. Defined.

(** storage/tx.go [withTx] A failing body leaves the state it started from. *)
Definition withTx {S A : Type} (s : S) (fn : S → S * (err + A)) : S * (err + A) :=
  match fn s with
  | (_, inl e) => (s, inl e)
  | (s', inr a) => (s', inr a)
  end.

Section Entries.
Context (dedup_key : string → string).

Definition in_dedup (db : EntryDb) (feedID : Z) (hash : string) : Prop :=
  (feedID, dedup_key hash) ∈ ed_dedup db.

(** The hash of an item is known to the feed. *)
Definition known (db : EntryDb) (feedID : Z) (hash : string) : Prop :=
  in_dedup db feedID hash ∨ has_entry db feedID hash.

#[export] Instance known_dec db f h : Decision (known db f h).
Proof. unfold known, in_dedup. apply _. Defined.

(** storage/entry_dedup.go [PostgresStore.FilterKnownEntryHashes] *)
Definition FilterKnownEntryHashes (db : EntryDb) (feedID : Z) (hashes : list string) : gset string :=
  list_to_set (filter (known db feedID) hashes).

(** storage/entry_dedup.go [recordFeedEntryDedup] *)
Definition recordFeedEntryDedup (db : EntryDb) (feedID : Z) (items : list string)
    : EntryDb * (err + Z) :=
  match items with
  | [] => (db, inr 0)
  | _ =>
      if existsb (λ h, String.eqb (trim_space h) "") items then
        (db, inl (EMsg "dedup hash is required"))
      else
        let keys : gset (Z * string) := list_to_set ((λ h, (feedID, dedup_key h)) <$> items) in
        (with_dedup db (ed_dedup db ∪ keys), inr (Z.of_nat (size (keys ∖ ed_dedup db))))
  end.

(** * Creating entries *)

(** storage/entry.go:164-168 [createEntries, one row of the INSERT] *)
Definition new_row (now feedID id : Z) (relay : bool) (x : BEntry) : EntryRow :=
  mkEntryRow id feedID (be_title x) (be_url x) (be_content x) "" false
    (match be_author x with Some "" | None => None | a => a end)
    (be_published_at x) (be_hash x) (negb relay) (default now (be_published_at x))
    (if relay then Some now else None).

(** storage/entry.go:163-171 [createEntries, INSERT ... ON CONFLICT DO NOTHING]
    The rows are inserted one by one: an item whose hash an earlier row of the
    same statement took is skipped like any other conflict. *)
Definition insert_row (now feedID : Z) (relay : bool) (acc : EntryDb * list EntryRow) (x : BEntry)
    : EntryDb * list EntryRow :=
  let '(db, ins) := acc in
  if decide (known db feedID (be_hash x)) then (db, ins)
  else
    let row := new_row now feedID (ed_next_id db) relay x in
    (mkEntryDb (<[ed_next_id db := row]> (ed_entries db)) (ed_next_id db + 1) (ed_dedup db)
       (ed_unread db) (ed_user db) (ed_labels db), ins ++ [row]).

(** storage/entry.go:172-178 [createEntries, unread rows of the subscribers] *)
Definition fan_out (users : list Z) (db : EntryDb) (rows : list EntryRow) : EntryDb :=
  with_unread db
    (list_to_map (rows ≫= λ r, (λ u, ((er_id r, u), (er_feed_id r, er_sort_at r))) <$> users)
     ∪ ed_unread db).

(** storage/entry.go:195-225 [createEntries, the returned entry]
    The content comes from [byHash], where a later item of the batch replaces
    an earlier one with the same hash. *)
Definition created_entry (entries : list BEntry) (r : EntryRow) : Entry :=
  mkEntry (er_id r) (er_feed_id r) (er_title r) (er_url r)
    (match last (filter (λ x, be_hash x = er_hash r) entries) with
     | Some src => be_content src
     | None => ""
     end)
    (er_author r) (er_published_at r) (er_hash r) "unread".

Definition subscribers (fdb : FeedDb) (feedID : Z) : list Z :=
  sub_user_id <$> ListFeedSubscribers fdb feedID.

(** storage/entry.go [PostgresStore.createEntries] *)
Definition createEntries (now : Z) (fdb : FeedDb) (db : EntryDb) (feedID : Z) (entries : list BEntry)
    (relay : bool) : EntryDb * (err + Z * list Entry) :=
  match entries with
  | [] => (db, inr (0, []))
  | _ =>
      if existsb (λ e, String.eqb (be_hash e) "") entries then
        (db, inl (EMsg "entry hash is required"))
      else
        let kn := FilterKnownEntryHashes db feedID (be_hash <$> entries) in
        match filter (λ e, be_hash e ∉ kn) entries with
        | [] => (db, inr (0, []))
        | fresh =>
            match fd_feeds fdb !! feedID with
            | None => (db, inl ENotFound)
            | Some _ =>
                let '(db, rows) := foldl (insert_row now feedID relay) (db, []) fresh in
                let db := if relay then db else fan_out (subscribers fdb feedID) db rows in
                (db, inr (Z.of_nat (length rows), created_entry fresh <$> rows))
            end
        end
  end.

(** storage/entry.go [PostgresStore.CreateEntries] *)
Definition CreateEntries now fdb db feedID entries := createEntries now fdb db feedID entries false.

(** storage/entry.go [FilteredPollParams] *)
Record FilteredPollParams := mkFilteredPoll {
  fp_feed_id : Z;
  fp_entries : list BEntry;
  fp_dedup : list string;
  fp_relay : bool;
  fp_meta : option UpdateFeedRefreshMetaParams;
}.

Definition lift_meta (r : FeedDb * option err) (db : EntryDb) {A} (a : A)
    : (FeedDb * EntryDb) * (err + A) :=
  match r with
  | (fdb, Some e) => ((fdb, db), inl e)
  | (fdb, None) => ((fdb, db), inr a)
  end.

(** storage/entry.go:61-76 [PostgresStore.StoreFilteredPoll, the transaction] *)
Definition filtered_body (now : Z) (p : FilteredPollParams) (s : FeedDb * EntryDb)
    : (FeedDb * EntryDb) * (err + Z * list Entry) :=
  let '(fdb, db) := s in
  match createEntries now fdb db (fp_feed_id p) (fp_entries p) (fp_relay p) with
  | (db, inl e) => ((fdb, db), inl e)
  | (db, inr ins) =>
      match recordFeedEntryDedup db (fp_feed_id p) (fp_dedup p) with
      | (db, inl e) => ((fdb, db), inl e)
      | (db, inr _) =>
          match fp_meta p with
          | None => ((fdb, db), inr ins)
          | Some m => lift_meta (updateFeedRefreshMeta fdb m) db ins
          end
      end
  end.

(** storage/entry.go [PostgresStore.StoreFilteredPoll] *)
Definition StoreFilteredPoll (now : Z) (s : FeedDb * EntryDb) (p : FilteredPollParams)
    : (FeedDb * EntryDb) * (err + Z * list Entry) :=
  match fp_entries p, fp_dedup p with
  | [], [] =>
      match fp_meta p with
      | None => (s, inr (0, []))
      | Some m => lift_meta (updateFeedRefreshMeta s.1 m) s.2 (0, [])
      end
  | _, _ =>
      withTx s (filtered_body now p)
  end.

Definition set_new_entries (m : UpdateFeedRefreshMetaParams) (n : Z) : UpdateFeedRefreshMetaParams :=
  mkMetaParams (um_id m) (um_etag m) (um_last_modified m) (um_last_checked_at m) (um_last_error m)
    (um_bridge_state m) (um_next_check_at m) n (um_new_feed_url m) (um_items_hash m).

(** storage/entry.go [PostgresStore.CreateEntriesWithRefreshMeta] *)
Definition CreateEntriesWithRefreshMeta (now : Z) (s : FeedDb * EntryDb) (feedID : Z)
    (entries : list BEntry) (meta : UpdateFeedRefreshMetaParams)
    : (FeedDb * EntryDb) * (err + Z * list Entry) :=
  withTx s (λ '(fdb, db),
    match createEntries now fdb db feedID entries false with
    | (db, inl e) => ((fdb, db), inl e)
    | (db, inr ins) => lift_meta (updateFeedRefreshMeta fdb (set_new_entries meta ins.1)) db ins
    end).

(** * Leaving entries *)

(** Keeps the hashes of removed rows ([INSERT INTO feed_entry_dedup ... WHERE hash <> '']). *)
Definition keep_hashes (db : EntryDb) (rows : list EntryRow) : EntryDb :=
  with_dedup db (ed_dedup db ∪
    list_to_set ((λ r, (er_feed_id r, dedup_key (er_hash r))) <$> filter (λ r, er_hash r ≠ "") rows)).

(** storage/entry_dedup.go [PostgresStore.StripEntryPayloadAfterWebhook] *)
Definition StripEntryPayloadAfterWebhook (now : Z) (db : EntryDb) (entryID : Z) : EntryDb * option err :=
  match ed_entries db !! entryID with
  | None => (db, Some ENotFound)
  | Some r =>
      let r' := mkEntryRow (er_id r) (er_feed_id r) "" (er_url r) "" "" false None (er_published_at r)
                  (er_hash r) false (er_sort_at r) (Some (default now (er_removed_at r))) in
      (keep_hashes
         (mkEntryDb (<[entryID := r']> (ed_entries db)) (ed_next_id db) (ed_dedup db)
            (filter (λ kv, kv.1.1 ≠ entryID) (ed_unread db))
            (filter (λ kv, kv.1.1 ≠ entryID) (ed_user db)) (ed_labels db)) [r], None)
  end.

(** storage/webhook_delivery.go [PostgresStore.DeleteRelayEntryAfterWebhook]
    With whether the row went. *)
Definition DeleteRelayEntryAfterWebhook (hdb : HookDb) (db : EntryDb) (entryID excludeLogID : Z)
    : EntryDb * bool :=
  match ed_entries db !! entryID with
  | None => (db, false)
  | Some r =>
      if decide (map_Exists (λ _ l, wl_entry_id l = entryID ∧ wl_id l ≠ excludeLogID ∧
                                    is_open (wl_status l) = true) (hd_logs hdb))
      then (db, false)
      else (keep_hashes (delete_entries db (λ i, i = entryID)) [r], true)
  end.

(** storage/webhook_delivery.go [PostgresStore.DropUndeliveredRelayEntries] *)
Definition DropUndeliveredRelayEntries (hdb : HookDb) (db : EntryDb) (entryIDs : list Z)
    : EntryDb * Z :=
  match entryIDs with
  | [] => (db, 0)
  | _ =>
      let gone := λ i, i ∈ entryIDs ∧ ¬ map_Exists (λ _ l, wl_entry_id l = i) (hd_logs hdb) in
      let rows := filter (λ kv, gone kv.1) (ed_entries db) in
      (keep_hashes (delete_entries db gone) (map_to_list rows).*2, Z.of_nat (size rows))
  end.

(** storage/webhook_delivery.go [PostgresStore.MarkEntryRemovedKeepPayload] *)
Definition MarkEntryRemovedKeepPayload (db : EntryDb) (userID entryID : Z) : EntryDb :=
  let db := with_unread db (delete (entryID, userID) (ed_unread db)) in
  match ed_entries db !! entryID with
  | None => db
  | Some e =>
      match ed_user db !! (entryID, userID) with
      | None => with_user db (<[(entryID, userID) := mkUserEntry true false (er_sort_at e)]> (ed_user db))
      | Some ue => with_user db (<[(entryID, userID) :=
                     mkUserEntry true (ue_starred ue) (ue_sort_at ue)]> (ed_user db))
      end
  end.

(** storage/webhook_delivery.go [PostgresStore.MarkEntryReadIfActive] *)
Definition MarkEntryReadIfActive (db : EntryDb) (userID entryID : Z) : EntryDb :=
  with_unread db (delete (entryID, userID) (ed_unread db)).

(** ** Collapsing to hashes *)

(** storage/entities.go [CollapseEntriesParams] *)
Record CollapseEntriesParams := mkCollapse {
  ce_user_id : Z; ce_feed_id : option Z; ce_category_id : option Z;
  ce_only_hash_only : bool; ce_include_labeled : bool;
}.

Definition collapseEntriesBatchSize : nat := Z.to_nat 5000.

(** storage/entry_dedup.go:148-165 [collapseEntriesBatch, the doomed rows] *)
Definition doomed (fdb : FeedDb) (hdb : HookDb) (db : EntryDb) (p : CollapseEntriesParams)
    (id : Z) (e : EntryRow) : Prop :=
  match fd_feeds fdb !! er_feed_id e with
  | None => False
  | Some f =>
      (ce_user_id p = 0 ∨
       (is_Some (fd_subs fdb !! (ce_user_id p, er_feed_id e)) ∧
        match ce_category_id p with
        | None => True
        | Some c => (c = 0 ∧ f_category_id f = None) ∨ f_category_id f = Some c
        end)) ∧
      (match ce_feed_id p with None => True | Some fid => er_feed_id e = fid end) ∧
      ¬ map_Exists (λ k ue, k.1 = id ∧ ue_starred ue = true) (ed_user db) ∧
      (ce_include_labeled p = true ∨ ¬ map_Exists (λ k _, k.1 = id) (ed_labels db)) ∧
      ¬ map_Exists (λ _ l, wl_entry_id l = id ∧ is_open (wl_status l) = true) (hd_logs hdb) ∧
      (ce_only_hash_only p = true → f_store_mode f ≠ "full")
  end.

#[export] Instance doomed_dec fdb hdb db p id e : Decision (doomed fdb hdb db p id e).
Proof.
  unfold doomed. destruct (fd_feeds fdb !! er_feed_id e) as [f|]; [|apply _].
  destruct (ce_category_id p), (ce_feed_id p); apply _.
Defined.

(** storage/entry_dedup.go [PostgresStore.collapseEntriesBatch] *)
Definition collapseEntriesBatch (fdb : FeedDb) (hdb : HookDb) (db : EntryDb)
    (p : CollapseEntriesParams) : EntryDb * Z :=
  let rows := take collapseEntriesBatchSize
                (map_to_list (filter (λ kv, doomed fdb hdb db p kv.1 kv.2) (ed_entries db))) in
  (keep_hashes (delete_entries db (λ i, i ∈ rows.*1)) rows.*2, Z.of_nat (length rows)).

(** storage/entry_dedup.go:122-134 [PostgresStore.CollapseEntriesToHashes, the loop] *)
Fixpoint collapse_loop (fuel : nat) (fdb : FeedDb) (hdb : HookDb) (db : EntryDb)
    (p : CollapseEntriesParams) (total : Z) : option (EntryDb * Z) :=
  match fuel with
  | O => None
  | S fuel =>
      let '(db, n) := collapseEntriesBatch fdb hdb db p in
      if n <? Z.of_nat collapseEntriesBatchSize then Some (db, total + n)
      else collapse_loop fuel fdb hdb db p (total + n)
  end.

(** storage/entry_dedup.go [PostgresStore.CollapseEntriesToHashes] *)
Definition CollapseEntriesToHashes (fuel : nat) (fdb : FeedDb) (hdb : HookDb) (db : EntryDb)
    (p : CollapseEntriesParams) : option (EntryDb * (err + Z)) :=
  if (ce_user_id p <=? 0) && bool_decide (is_Some (ce_category_id p)) then
    Some (db, inl (EMsg "category scope needs a user"))
  else '(db, n) ← collapse_loop fuel fdb hdb db p 0; Some (db, inr n).
End Entries.

(** * Subscriptions *)

Definition SubscribeUnreadBackfill : nat := 100.

(** [ORDER BY e.sort_at DESC, e.id DESC]. *)
Definition newest_le (a b : EntryRow) : Prop :=
  er_sort_at b < er_sort_at a ∨ (er_sort_at b = er_sort_at a ∧ er_id b <= er_id a).
#[export] Instance newest_le_dec : RelDecision newest_le.
Proof. unfold newest_le. intros a b. apply _. Defined.

Definition err_already_subscribed : err := EMsg "already subscribed".
Definition err_invalid_reference : err := EMsg "invalid reference".
Definition err_follows_category : err := EMsg "feed is read through a followed category".

(** storage/subscriptions.go [checkSubscriptionRefs] *)
Definition checkSubscriptionRefs (hdb : HookDb) (userID : Z) (webhookID : option Z) : bool :=
  match webhookID with
  | None => true
  | Some w => match hd_webhooks hdb !! w with Some h => wh_user_id h =? userID | None => false end
  end.

(** storage/subscriptions.go:109-117 [subscribeTx, the unread backfill] *)
Definition backfill (db : EntryDb) (userID feedID : Z) : list EntryRow :=
  take SubscribeUnreadBackfill (merge_sort newest_le
    (filter (λ e, er_feed_id e = feedID ∧ er_removed_at e = None) (map_to_list (ed_entries db)).*2)).

(** storage/subscriptions.go [subscribeTx] *)
Definition subscribeTx (hdb : HookDb) (s : FeedDb * EntryDb) (userID feedID : Z)
    (webhookID : option Z) : (FeedDb * EntryDb) * (err + Subscription) :=
  let '(fdb, db) := s in
  if negb (checkSubscriptionRefs hdb userID webhookID) then (s, inl err_invalid_reference)
  else match fd_subs fdb !! (userID, feedID), fd_feeds fdb !! feedID with
  | Some _, _ => (s, inl err_already_subscribed)
  | None, None => (s, inl err_invalid_reference)
  | None, Some _ =>
      ((with_subs fdb (<[(userID, feedID) := webhookID]> (fd_subs fdb)),
        with_unread db (ed_unread db ∪
          list_to_map ((λ e, ((er_id e, userID), (er_feed_id e, er_sort_at e)))
                         <$> backfill db userID feedID))),
       inr (mkSubscription userID feedID webhookID))
  end.

(** storage/subscriptions.go [PostgresStore.Subscribe] *)
Definition Subscribe (hdb : HookDb) (s : FeedDb * EntryDb) (userID feedID : Z) (webhookID : option Z)
    : (FeedDb * EntryDb) * (err + Subscription) :=
  withTx s (λ s, subscribeTx hdb s userID feedID webhookID).

(** storage/subscriptions.go [unsubscribeTx] *)
Definition unsubscribeTx (s : FeedDb * EntryDb) (userID feedID : Z) : (FeedDb * EntryDb) * (err + unit) :=
  let '(fdb, db) := s in
  match fd_subs fdb !! (userID, feedID) with
  | None => (s, inl ENotFound)
  | Some _ =>
      let of_feed (i : Z) := er_feed_id <$> ed_entries db !! i = Some feedID in
      ((with_subs fdb (delete (userID, feedID) (fd_subs fdb)),
        mkEntryDb (ed_entries db) (ed_next_id db) (ed_dedup db)
          (filter (λ kv, ¬ (kv.1.2 = userID ∧ kv.2.1 = feedID)) (ed_unread db))
          (filter (λ kv, ¬ (kv.1.2 = userID ∧ of_feed kv.1.1)) (ed_user db))
          (filter (λ kv, ¬ (kv.2 = userID ∧ of_feed kv.1.1)) (ed_labels db))), inr tt)
  end.

(** storage/subscriptions.go [PostgresStore.Unsubscribe] *)
Definition Unsubscribe (s : FeedDb * EntryDb) (userID feedID : Z) : (FeedDb * EntryDb) * (err + unit) :=
  withTx s (λ s,
    let follows := match fd_feeds s.1 !! feedID with
                   | Some f => match f_category_id f with
                               | Some c => bool_decide ((userID, c) ∈ fd_followers s.1)
                               | None => false
                               end
                   | None => false
                   end in
    if follows then (s, inl err_follows_category) else unsubscribeTx s userID feedID).

(** * Lemmas *)

Section Entry_lemmas.
Context (dedup_key : string → string).
Notation known := (known dedup_key).
Notation keep_hashes := (keep_hashes dedup_key).
Notation createEntries := (createEntries dedup_key).

(** Primary key, sequence, the unique index on (feed, hash), and hashes are
    never empty ([createEntries] refuses an empty one). *)
Record entries_wf (db : EntryDb) : Prop := {
  ewf_key : ∀ i e, ed_entries db !! i = Some e → er_id e = i;
  ewf_next : ∀ i e, ed_entries db !! i = Some e → i < ed_next_id db;
  ewf_uniq : ∀ i j a b, ed_entries db !! i = Some a → ed_entries db !! j = Some b →
               er_feed_id a = er_feed_id b → er_hash a = er_hash b → i = j;
  ewf_hash : ∀ i e, ed_entries db !! i = Some e → er_hash e ≠ "";
}.

(** Nothing that was known is forgotten. *)
Definition remembers (db db' : EntryDb) : Prop := ∀ f h, h ≠ "" → known db f h → known db' f h.

#[export] Instance remembers_preorder : PreOrder remembers.
Proof. split; [by intros db f h|intros a b c H1 H2 f h Hh H; auto]. Qed.

(** Rows that go leave their hash; rows that stay, stay. *)
Lemma keep_hashes_remembers db db1 rows :
  ed_dedup db1 = ed_dedup db →
  (∀ i e, ed_entries db !! i = Some e →
     e ∈ rows ∨ ∃ j e', ed_entries db1 !! j = Some e' ∧ er_feed_id e' = er_feed_id e ∧ er_hash e' = er_hash e) →
  remembers db (keep_hashes db1 rows).
Proof.
  intros Hd Hrows f h Hh [Hin|(i & e & He & Hf & Heh)].
  - left. unfold in_dedup, EntryStore.keep_hashes in *. simpl. rewrite Hd. set_solver.
  - destruct (Hrows i e He) as [Hr|(j & e' & Hj & Hf' & Hh')].
    + left. unfold in_dedup, EntryStore.keep_hashes. simpl. apply elem_of_union_r, elem_of_list_to_set.
      apply list_elem_of_fmap. exists e. rewrite Hf, Heh. split; [done|].
      apply list_elem_of_filter. by rewrite Heh.
    + right. exists j, e'. cbn [EntryStore.keep_hashes with_dedup ed_entries]. split; [done|].
      split; congruence.
Qed.

Lemma delete_entries_lookup db gone `{∀ i, Decision (gone i)} i e :
  ed_entries (delete_entries db gone) !! i = Some e ↔ ed_entries db !! i = Some e ∧ ¬ gone i.
Proof. unfold delete_entries. simpl. by rewrite map_lookup_filter_Some. Qed.

Lemma entries_wf_sub db db' : ed_next_id db' = ed_next_id db →
  (∀ i e', ed_entries db' !! i = Some e' → ∃ e, ed_entries db !! i = Some e ∧
     er_id e' = er_id e ∧ er_feed_id e' = er_feed_id e ∧ er_hash e' = er_hash e) →
  entries_wf db → entries_wf db'.
Proof.
  intros Hn Hsub Hwf. split.
  - intros i e' He'. destruct (Hsub i e' He') as (e & He & -> & _). by eapply ewf_key.
  - intros i e' He'. destruct (Hsub i e' He') as (e & He & _). rewrite Hn. by eapply ewf_next.
  - intros i j a b Ha Hb Hf Hh. destruct (Hsub i a Ha) as (a' & Ha' & _ & Hfa & Hha).
    destruct (Hsub j b Hb) as (b' & Hb' & _ & Hfb & Hhb). eapply ewf_uniq; try done; congruence.
  - intros i e' He'. destruct (Hsub i e' He') as (e & He & _ & _ & ->). by eapply ewf_hash.
Qed.

Lemma insert_row_spec now feed relay db ins x : be_hash x ≠ "" → entries_wf db →
  let '(db', ins') := insert_row dedup_key now feed relay (db, ins) x in
  entries_wf db' ∧ remembers db db' ∧ known db' feed (be_hash x) ∧
  ed_unread db' = ed_unread db ∧ ed_dedup db' = ed_dedup db ∧
  (∀ i e, ed_entries db !! i = Some e → ed_entries db' !! i = Some e) ∧
  ((db' = db ∧ ins' = ins) ∨
   (¬ known db feed (be_hash x) ∧ ∃ id, ins' = ins ++ [new_row now feed id relay x] ∧
      ed_entries db' !! id = Some (new_row now feed id relay x) ∧ ed_entries db !! id = None)).
Proof.
  intros Hh Hwf. unfold insert_row. case_decide as Hk.
  { split_and!; try done. by left. }
  assert (ed_entries db !! ed_next_id db = None) as Hfresh.
  { destruct (ed_entries db !! ed_next_id db) eqn:E; [|done]. apply (ewf_next _ Hwf) in E. lia. }
  assert (∀ i e, ed_entries db !! i = Some e →
    <[ed_next_id db:=new_row now feed (ed_next_id db) relay x]> (ed_entries db) !! i = Some e) as Hkeep.
  { intros i e He. rewrite lookup_insert_ne; [done|]. congruence. }
  assert (∀ i e, ed_entries db !! i = Some e → er_feed_id e = feed → er_hash e = be_hash x → False) as Hno.
  { intros i e He Hf Hx. apply Hk. right. by exists i, e. }
  split_and!.
  - split; cbn [ed_entries ed_next_id].
    + intros i e [[<- <-]|[_ He]]%lookup_insert_Some; [done|by eapply ewf_key].
    + intros i e [[<- _]|[_ He]]%lookup_insert_Some; [lia|]. apply (ewf_next _ Hwf) in He. lia.
    + intros i j a b [[<- <-]|[_ Ha]]%lookup_insert_Some [[<- <-]|[_ Hb]]%lookup_insert_Some Hf Hhh;
        simpl in *; [done|by edestruct Hno|by edestruct Hno|by eapply ewf_uniq].
    + intros i e [[<- <-]|[_ He]]%lookup_insert_Some; [done|by eapply ewf_hash].
  - intros f h _ [Hin|(i & e & He & ?)]; [by left|]. right. exists i, e. split; [by apply Hkeep|done].
  - right. exists (ed_next_id db), (new_row now feed (ed_next_id db) relay x). simpl.
    by rewrite lookup_insert_eq.
  - done.
  - done.
  - done.
  - right. split; [done|]. exists (ed_next_id db). simpl. by rewrite lookup_insert_eq.
Qed.

Lemma insert_rows_spec now feed relay xs : Forall (λ x, be_hash x ≠ "") xs →
  ∀ db ins, entries_wf db →
  let '(db', ins') := foldl (insert_row dedup_key now feed relay) (db, ins) xs in
  entries_wf db' ∧ remembers db db' ∧ (∀ x, x ∈ xs → known db' feed (be_hash x)) ∧
  ed_unread db' = ed_unread db ∧ ed_dedup db' = ed_dedup db ∧
  (∀ i e, ed_entries db !! i = Some e → ed_entries db' !! i = Some e) ∧
  ∃ rows, ins' = ins ++ rows ∧ NoDup (er_hash <$> rows) ∧
    ∀ r, r ∈ rows → ¬ known db feed (er_hash r) ∧ ed_entries db' !! er_id r = Some r ∧
      ed_entries db !! er_id r = None ∧
      ∃ x, x ∈ xs ∧ r = new_row now feed (er_id r) relay x.
Proof.
  induction 1 as [|x xs Hx Hxs IH]; intros db ins Hwf; cbn [foldl].
  { split_and!; try done; [by intros x ?%elem_of_nil|].
    exists []. rewrite app_nil_r. split_and!; [done|constructor|by intros r ?%elem_of_nil]. }
  pose proof (insert_row_spec now feed relay db ins x Hx Hwf) as Hrow.
  destruct (insert_row _ now feed relay (db, ins) x) as [db1 ins1].
  destruct Hrow as (W1 & R1 & K1 & U1 & D1 & E1 & Hcase).
  specialize (IH db1 ins1 W1). destruct (foldl _ (db1, ins1) xs) as [db2 ins2].
  destruct IH as (W2 & R2 & K2 & U2 & D2 & E2 & rows & -> & Hnd & Hrows).
  split_and!; [done|by etransitivity| |congruence|congruence|by auto|].
  - intros y [->|Hy]%elem_of_cons; [|by apply K2]. by apply R2.
  - destruct Hcase as [[-> ->]|(Hnk & id & -> & Hid & Hnone)].
    + exists rows. split_and!; [done..|]. intros r Hr. destruct (Hrows r Hr) as (? & ? & ? & y & ? & ?).
      split_and!; [done..|]. exists y. split; [by right|done].
    + exists (new_row now feed id relay x :: rows). split_and!.
      * by rewrite <-app_assoc.
      * rewrite fmap_cons. apply NoDup_cons. split; [|done].
        intros (r & Hr & Hin)%list_elem_of_fmap. destruct (Hrows r Hin) as (Hnk' & _).
        apply Hnk'. by rewrite <-Hr.
      * intros r [->|Hr]%elem_of_cons.
        -- split; [done|]. split; [by apply E2|]. split; [done|]. exists x. split; [left|done].
        -- destruct (Hrows r Hr) as (Hnk' & Hr' & Hnone' & y & ? & ?). split_and!.
           ++ intros Hk. apply Hnk'. apply R1; [|done].
              intros Heq. by destruct (ewf_hash _ W2 _ _ Hr').
           ++ done.
           ++ destruct (ed_entries db !! er_id r) eqn:E; [|done]. apply E1 in E. congruence.
           ++ exists y. split; [by right|done].
Qed.

Lemma fan_out_entries users db rows : ed_entries (fan_out users db rows) = ed_entries db ∧
  ed_dedup (fan_out users db rows) = ed_dedup db ∧ ed_next_id (fan_out users db rows) = ed_next_id db.
Proof. done. Qed.

Lemma FilterKnown_elem db f hs h : h ∈ FilterKnownEntryHashes dedup_key db f hs ↔ h ∈ hs ∧ known db f h.
Proof. unfold FilterKnownEntryHashes. rewrite elem_of_list_to_set, list_elem_of_filter. tauto. Qed.

(** A batch without empty hashes whose items are all known inserts nothing. *)
Lemma createEntries_all_known now fdb db feed entries relay :
  Forall (λ x, be_hash x ≠ "") entries → (∀ x, x ∈ entries → known db feed (be_hash x)) →
  createEntries now fdb db feed entries relay = (db, inr (0, [])).
Proof.
  intros Hne Hk. unfold EntryStore.createEntries. destruct entries as [|x0 xs] eqn:Hxs; [done|].
  rewrite <-Hxs in *.
  assert (existsb (λ e, String.eqb (be_hash e) "") entries = false) as ->.
  { apply existsb_none. intros x Hx. rewrite Forall_forall in Hne. apply String.eqb_neq, Hne.
    by apply list_elem_of_In. }
  destruct (filter _ entries) as [|y ys] eqn:Hf; [done|]. exfalso.
  assert (y ∈ y :: ys) as Hy by left. rewrite <-Hf in Hy. apply list_elem_of_filter in Hy as [Hn Hy].
  apply Hn, FilterKnown_elem. split; [by apply list_elem_of_fmap_2|by apply Hk].
Qed.

(** What a successful [createEntries] does, in terms of the rows it adds. *)
Lemma createEntries_spec now fdb db feed entries relay db' n created :
  entries_wf db → createEntries now fdb db feed entries relay = (db', inr (n, created)) →
  Forall (λ x, be_hash x ≠ "") entries ∧ entries_wf db' ∧ remembers db db' ∧
  (∀ x, x ∈ entries → known db' feed (be_hash x)) ∧
  (∀ i e, ed_entries db !! i = Some e → ed_entries db' !! i = Some e) ∧
  n = Z.of_nat (length created) ∧
  ∃ fresh rows, created = created_entry fresh <$> rows ∧ (∀ x, x ∈ fresh → x ∈ entries) ∧
    NoDup (er_hash <$> rows) ∧
    ed_unread db' = (if relay then ed_unread db
                     else list_to_map (rows ≫= λ r, (λ u, ((er_id r, u), (er_feed_id r, er_sort_at r)))
                            <$> subscribers fdb feed) ∪ ed_unread db) ∧
    ∀ r, r ∈ rows → ¬ known db feed (er_hash r) ∧ ed_entries db' !! er_id r = Some r ∧
      ed_entries db !! er_id r = None ∧
      ∃ x, x ∈ entries ∧ r = new_row now feed (er_id r) relay x.
Proof.
  intros Hwf. unfold EntryStore.createEntries. destruct entries as [|x0 xs] eqn:Hxs.
  { intros [= <- <- <-]. split_and!; try done; [by intros x ?%elem_of_nil|]. exists [], []. simpl.
    split_and!; try done; [constructor| |by intros r ?%elem_of_nil].
    destruct relay; [done|]. by rewrite (left_id_L ∅ (∪)). }
  rewrite <-Hxs in *. destruct (existsb _ entries) eqn:Hex; [done|].
  assert (Forall (λ x, be_hash x ≠ "") entries) as Hne.
  { apply Forall_forall. intros x Hx. apply String.eqb_neq.
    apply (existsb_all_false _ _ Hex). by apply list_elem_of_In. }
  set (fresh := filter _ entries).
  assert (∀ x, x ∈ entries → x ∈ fresh ∨ known db feed (be_hash x)) as Hsplit.
  { intros x Hx. destruct (decide (known db feed (be_hash x))) as [?|Hn]; [by right|left].
    apply list_elem_of_filter. split; [|done]. rewrite FilterKnown_elem. tauto. }
  assert (∀ x, x ∈ fresh → x ∈ entries) as Hsub.
  { intros x Hx. by apply list_elem_of_filter in Hx as [_ ?]. }
  clearbody fresh. destruct fresh as [|y0 ys] eqn:Hys.
  { intros [= <- <- <-]. split_and!; try done.
    - intros x Hx. by destruct (Hsplit x Hx) as [?%elem_of_nil|].
    - exists [], []. simpl. split_and!; try done; [constructor| |by intros r ?%elem_of_nil].
      destruct relay; [done|]. by rewrite (left_id_L ∅ (∪)). }
  rewrite <-Hys in *. destruct (fd_feeds fdb !! feed); [|done].
  pose proof (insert_rows_spec now feed relay fresh) as Hins.
  specialize (Hins (Forall_forall_sub _ _ _ Hsub Hne) db [] Hwf).
  destruct (foldl _ (db, []) fresh) as [db1 rows].
  destruct Hins as (W & R & K & U & D & E & rows' & -> & Hnd & Hrows). simpl app.
  intros [= <- <- <-].
  assert (∀ (P : EntryDb → Prop), P db1 → P (fan_out (subscribers fdb feed) db1 rows') →
    P (if relay then db1 else fan_out (subscribers fdb feed) db1 rows')) as Hcase by (by destruct relay).
  split; [done|]. split; [|split; [|split; [|split; [|split]]]].
  - apply Hcase; [done|]. by destruct W; split.
  - apply Hcase; done.
  - intros x Hx. destruct (Hsplit x Hx) as [Hf|Hk].
    + apply (Hcase (λ db, known db feed (be_hash x))); by apply K.
    + rewrite Forall_forall in Hne.
      apply (Hcase (λ db, known db feed (be_hash x))); by apply R; [apply Hne|].
  - intros i e He. apply (Hcase (λ db, ed_entries db !! i = Some e)); by apply E.
  - by rewrite length_fmap.
  - exists fresh, rows'. split; [done|]. split; [done|]. split; [done|]. split.
    + destruct relay; simpl; by rewrite U.
    + intros r Hr. destruct (Hrows r Hr) as (? & ? & ? & x & ? & ?). split; [done|].
      split; [by apply (Hcase (λ db, ed_entries db !! er_id r = Some r))|]. split; [done|].
      exists x. auto.
Qed.

(** No row appears that is not returned. *)
Lemma insert_rows_new now feed relay xs db0 : ∀ db ins,
  (∀ i r, ed_entries db !! i = Some r → ed_entries db0 !! i = Some r ∨ ∃ r', r' ∈ ins ∧ er_id r' = i) →
  let '(db', ins') := foldl (insert_row dedup_key now feed relay) (db, ins) xs in
  ∀ i r, ed_entries db' !! i = Some r → ed_entries db0 !! i = Some r ∨ ∃ r', r' ∈ ins' ∧ er_id r' = i.
Proof.
  induction xs as [|x xs IH]; intros db ins Hinv; cbn [foldl]; [done|].
  unfold insert_row at 2. case_decide; [by apply IH|]. apply IH. cbn [ed_entries].
  intros i r [[<- <-]|[_ Hr]]%lookup_insert_Some.
  - right. eexists. split; [apply elem_of_app; right; left|done].
  - destruct (Hinv i r Hr) as [?|(r' & ? & ?)]; [by left|right]. exists r'.
    split; [apply elem_of_app; by left|done].
Qed.

Lemma createEntries_new now fdb db feed entries relay db' n created :
  createEntries now fdb db feed entries relay = (db', inr (n, created)) →
  ∀ i r, ed_entries db' !! i = Some r → ed_entries db !! i = Some r ∨ ∃ e, e ∈ created ∧ e_id e = i.
Proof.
  unfold EntryStore.createEntries. destruct entries as [|x0 xs] eqn:Hxs; [intros [= <- _ _]; by left|].
  rewrite <-Hxs. destruct (existsb _ entries); [done|]. destruct (filter _ entries) as [|y ys] eqn:Hf;
    [intros [= <- _ _]; by left|]. rewrite <-Hf. clear Hf. destruct (fd_feeds fdb !! feed); [|done].
  pose proof (insert_rows_new now feed relay (filter (λ e, be_hash e ∉
    FilterKnownEntryHashes dedup_key db feed (be_hash <$> entries)) entries) db db []) as Hnew.
  destruct (foldl _ _ _) as [db1 rows]. specialize (Hnew ltac:(by left)).
  intros [= <- _ <-] i r Hr.
  assert (ed_entries db1 !! i = Some r) as Hr1 by (by destruct relay).
  destruct (Hnew i r Hr1) as [?|(r' & Hin & Hid)]; [by left|right].
  eexists. split; [by apply list_elem_of_fmap_2|done].
Qed.

(** The statements that change the entry tables between polls: storing,
    recording hashes, the webhook outcomes and the collapse.  The feed and
    webhook tables may change freely between two of them. *)
Inductive entry_step : EntryDb → EntryDb → Prop :=
| es_create now fdb feed entries relay db :
    entry_step db (createEntries now fdb db feed entries relay).1
| es_dedup feed items db : entry_step db (recordFeedEntryDedup dedup_key db feed items).1
| es_strip now id db : entry_step db (StripEntryPayloadAfterWebhook dedup_key now db id).1
| es_delete_relay hdb id log db :
    entry_step db (DeleteRelayEntryAfterWebhook dedup_key hdb db id log).1
| es_drop hdb ids db : entry_step db (DropUndeliveredRelayEntries dedup_key hdb db ids).1
| es_collapse fdb hdb p db : entry_step db (collapseEntriesBatch dedup_key fdb hdb db p).1
| es_removed user id db : entry_step db (MarkEntryRemovedKeepPayload db user id)
| es_read user id db : entry_step db (MarkEntryReadIfActive db user id).

Lemma recordDedup_known db feed items db' n :
  recordFeedEntryDedup dedup_key db feed items = (db', inr n) →
  ∀ h, h ∈ items → in_dedup dedup_key db' feed h.
Proof.
  unfold recordFeedEntryDedup. intros H h Hh. destruct items as [|h0 hs] eqn:Hi; [by apply elem_of_nil in Hh|].
  rewrite <-Hi in *. destruct (existsb _ _); [done|]. injection H as <- _.
  unfold in_dedup, with_dedup. cbn [ed_dedup].
  apply elem_of_union_r, elem_of_list_to_set, list_elem_of_fmap. by exists h.
Qed.

Lemma strip_spec now id db r : ed_entries db !! id = Some r →
  let db' := (StripEntryPayloadAfterWebhook dedup_key now db id).1 in
  ed_next_id db' = ed_next_id db ∧
  (∀ i e', ed_entries db' !! i = Some e' → ∃ e, ed_entries db !! i = Some e ∧
     er_id e' = er_id e ∧ er_feed_id e' = er_feed_id e ∧ er_hash e' = er_hash e) ∧
  remembers db db'.
Proof.
  intros Hr. unfold StripEntryPayloadAfterWebhook. rewrite Hr. cbn [fst]. split; [done|]. split.
  - cbn [EntryStore.keep_hashes with_dedup ed_entries].
    intros i e' [[<- <-]|[_ He]]%lookup_insert_Some; [by exists r|by exists e'].
  - apply keep_hashes_remembers; [done|]. cbn [ed_entries]. intros i e He. right.
    destruct (decide (id = i)) as [->|Hne].
    + rewrite Hr in He. injection He as <-. exists i. rewrite lookup_insert_eq. by eexists.
    + exists i, e. by rewrite lookup_insert_ne.
Qed.

(** Deleting rows whose hashes are kept. *)
Lemma delete_keep_spec db gone `{∀ i, Decision (gone i)} rows :
  (∀ i e, ed_entries db !! i = Some e → gone i → e ∈ rows) →
  let db' := keep_hashes (delete_entries db gone) rows in
  (entries_wf db → entries_wf db') ∧ remembers db db'.
Proof.
  intros Hrows db'. split.
  - apply entries_wf_sub; [done|]. intros i e He. exists e. split; [|done].
    by apply (delete_entries_lookup db gone) in He as [? _].
  - apply keep_hashes_remembers; [done|]. intros i e He. destruct (decide (gone i)) as [Hg|Hg].
    + left. by eapply Hrows.
    + right. exists i, e. by rewrite delete_entries_lookup.
Qed.

Lemma same_tables db db' : ed_entries db' = ed_entries db → ed_dedup db' = ed_dedup db →
  ed_next_id db' = ed_next_id db → entries_wf db → entries_wf db' ∧ remembers db db'.
Proof.
  intros He Hd Hn [H1 H2 H3 H4]. split.
  - split; rewrite ?He, ?Hn; done.
  - intros f h _ [Hin|[i Hi]]; [left|right]; unfold in_dedup, has_entry in *; [by rewrite Hd|].
    exists i. by rewrite He.
Qed.

Lemma entry_step_ok db db' : entry_step db db' → entries_wf db → entries_wf db' ∧ remembers db db'.
Proof.
  intros Hst Hwf. inv Hst.
  - destruct (createEntries now fdb db feed entries relay) as [db1 [e|[n created]]] eqn:Hc.
    + assert (db1 = db) as ->; [|done]. unfold EntryStore.createEntries in Hc.
      repeat (case_match; try congruence).
    + destruct (createEntries_spec _ _ _ _ _ _ _ _ _ Hwf Hc) as (_ & ? & ? & _). done.
  - unfold recordFeedEntryDedup. repeat case_match; try done. cbn [fst]. split.
    + by destruct Hwf; split.
    + intros f h _ [Hin|He]; [left|by right]. unfold in_dedup in *. simpl. set_solver.
  - destruct (ed_entries db !! id) as [r|] eqn:Hr.
    + destruct (strip_spec now id db r Hr) as (Hn & Hsub & Hrem). split; [|done].
      by eapply entries_wf_sub.
    + unfold StripEntryPayloadAfterWebhook. by rewrite Hr.
  - unfold DeleteRelayEntryAfterWebhook. destruct (ed_entries db !! id) as [r|] eqn:Hr; [|done].
    case_decide; [done|]. cbn [fst]. destruct (delete_keep_spec db (λ i, i = id) [r]) as [Hw Hrem].
    + intros i e He ->. rewrite Hr in He. injection He as <-. left.
    + by split; [apply Hw|].
  - unfold DropUndeliveredRelayEntries. destruct ids as [|i0 ids]; [done|]. cbn [fst].
    destruct (delete_keep_spec db
      (λ i, i ∈ i0 :: ids ∧ ¬ map_Exists (λ _ l, wl_entry_id l = i) (hd_logs hdb))
      (map_to_list (filter (λ kv, kv.1 ∈ i0 :: ids ∧
         ¬ map_Exists (λ _ l, wl_entry_id l = kv.1) (hd_logs hdb)) (ed_entries db))).*2) as [Hw Hrem].
    + intros i e He Hg. apply list_elem_of_fmap. exists (i, e). split; [done|].
      apply elem_of_map_to_list, map_lookup_filter_Some. done.
    + by split; [apply Hw|].
  - unfold collapseEntriesBatch. cbn [fst]. set (rows := take _ _).
    destruct (delete_keep_spec db (λ i, i ∈ rows.*1) rows.*2) as [Hw Hrem].
    + intros i e He ([i' e'] & -> & Hin)%list_elem_of_fmap. apply list_elem_of_fmap.
      exists (i', e'). split; [|done]. simpl in *.
      assert ((i', e') ∈ map_to_list (filter (λ kv, doomed fdb hdb db p kv.1 kv.2) (ed_entries db)))
        as Hin' by (by eapply elem_of_sublist; [|apply sublist_take]).
      apply elem_of_map_to_list, map_lookup_filter_Some in Hin' as [Hin' _]. congruence.
    + by split; [apply Hw|].
  - apply same_tables; unfold MarkEntryRemovedKeepPayload; by repeat case_match.
  - by apply same_tables.
Qed.

Lemma entry_steps_ok db db' : rtc entry_step db db' → entries_wf db → entries_wf db' ∧ remembers db db'.
Proof.
  induction 1 as [|db db1 db2 Hst _ IH]; intros Hwf; [done|].
  destruct (entry_step_ok _ _ Hst Hwf) as [Hwf1 Hr1]. destruct (IH Hwf1) as [? ?].
  split; [done|]. by etransitivity.
Qed.

(** What [StoreFilteredPoll] does, on every branch. *)
Lemma StoreFilteredPoll_spec (now : Z) (fdb fdb' : FeedDb) (db db' : EntryDb)
    (p : FilteredPollParams) (res : err + Z * list Entry) (Hwf : entries_wf db)
    (Hrun : StoreFilteredPoll dedup_key now (fdb, db) p = ((fdb', db'), res)) :
  match res with
  | inl _ => fdb' = fdb ∧ db' = db
  | inr (n, created) =>
      entries_wf db' ∧
      (∀ x, x ∈ fp_entries p → known db' (fp_feed_id p) (be_hash x)) ∧
      (∀ h, h ∈ fp_dedup p → in_dedup dedup_key db' (fp_feed_id p) h) ∧
      (match fp_meta p with
       | None => fdb' = fdb
       | Some m => updateFeedRefreshMeta fdb m = (fdb', None)
       end)
  end.
Proof.
  assert (∀ m a, match lift_meta (updateFeedRefreshMeta fdb m) db (A := Z * list Entry) a with
    | (s, inl _) => s = (fdb, db)
    | (s, inr a') => a' = a ∧ s.2 = db ∧ updateFeedRefreshMeta fdb m = (s.1, None) end) as Hlift0.
  { intros m a. unfold lift_meta, updateFeedRefreshMeta, update_ps. by repeat case_match; simplify_eq. }
  unfold StoreFilteredPoll in Hrun.
  destruct (decide (fp_entries p = [] ∧ fp_dedup p = [])) as [[He Hd]|Hne].
  - rewrite He, Hd in Hrun. cbn [fst snd] in Hrun. destruct (fp_meta p) as [m|] eqn:Hm.
    + specialize (Hlift0 m (0, [])). rewrite Hrun in Hlift0. cbn [fst snd] in Hlift0.
      destruct res as [e|[n created]]; [by injection Hlift0|].
      destruct Hlift0 as (_ & -> & Hu). rewrite He, Hd.
      split; [done|]. split; [by intros x ?%elem_of_nil|]. by split; [intros x ?%elem_of_nil|].
    + injection Hrun as <- <- <-. rewrite He, Hd.
      split; [done|]. split; [by intros x ?%elem_of_nil|]. by split; [intros x ?%elem_of_nil|].
  - assert (withTx (fdb, db) (filtered_body dedup_key now p) = ((fdb', db'), res)) as Htx.
    { rewrite <-Hrun. destruct (fp_entries p), (fp_dedup p); try done. by destruct Hne. }
    clear Hrun Hlift0. unfold withTx in Htx.
    destruct (filtered_body dedup_key now p (fdb, db)) as [s' [e|[n created]]] eqn:Hb;
      simplify_eq/=; [done|]. unfold filtered_body in Hb.
    destruct (createEntries now fdb db (fp_feed_id p) (fp_entries p) (fp_relay p))
      as [db1 [e|[n1 created1]]] eqn:Hc; [done|].
    destruct (createEntries_spec _ _ _ _ _ _ _ _ _ Hwf Hc) as (Hne' & Hwf1 & _ & Hk1 & _).
    destruct (recordFeedEntryDedup dedup_key db1 (fp_feed_id p) (fp_dedup p)) as [db2 [e|k]] eqn:Hd; [done|].
    assert (db2 = (recordFeedEntryDedup dedup_key db1 (fp_feed_id p) (fp_dedup p)).1) as Hdb2 by (by rewrite Hd).
    destruct (entry_step_ok db1 db2) as [Hwf2 Hrem]; [rewrite Hdb2; constructor|done|].
    assert (∀ h, h ∈ fp_dedup p → in_dedup dedup_key db2 (fp_feed_id p) h) as Hdd.
    { by eapply recordDedup_known. }
    assert (∀ x, x ∈ fp_entries p → known db2 (fp_feed_id p) (be_hash x)) as Hk2.
    { intros x Hx. apply Hrem; [|by apply Hk1]. rewrite Forall_forall in Hne'. by apply Hne'. }
    destruct (fp_meta p) as [m|] eqn:Hm.
    + unfold lift_meta in Hb. destruct (updateFeedRefreshMeta fdb m) as [fdb2 [e|]] eqn:Hu; [done|].
      injection Hb as <- <- <- <-. done.
    + injection Hb as <- <- <- <-. done.
Qed.

(** * Properties *)

(** C3: storing a poll's items is exactly-once.  The new rows are exactly
    fresh: every returned entry was unknown to the feed (no row, no kept
    hash), two returned entries never share a hash, every item of the batch is
    known afterwards, the tables keep the unique (feed, hash) index, no stored
    row changes, and storing the same batch again, later and in either mode,
    inserts nothing. *)
Theorem create_entries_exactly_once (now now' : Z) (fdb fdb' : FeedDb) (db db' : EntryDb) (feed n : Z)
    (entries : list BEntry) (relay relay' : bool) (created : list Entry)
    (Hwf : entries_wf db) (Hok : createEntries now fdb db feed entries relay = (db', inr (n, created))) :
  entries_wf db' ∧ n = Z.of_nat (length created) ∧ NoDup (e_hash <$> created) ∧
  (∀ e, e ∈ created → ¬ known db feed (e_hash e) ∧ e_hash e ∈ be_hash <$> entries ∧
     ∃ r, ed_entries db' !! e_id e = Some r ∧ er_hash r = e_hash e ∧ er_feed_id r = feed ∧
          ed_entries db !! e_id e = None) ∧
  (∀ x, x ∈ entries → known db' feed (be_hash x)) ∧
  (∀ i r, ed_entries db !! i = Some r → ed_entries db' !! i = Some r) ∧
  createEntries now' fdb' db' feed entries relay' = (db', inr (0, [])).
Proof.
  destruct (createEntries_spec _ _ _ _ _ _ _ _ _ Hwf Hok)
    as (Hne & Hwf' & Hrem & Hk & Hkeep & Hn & fresh & rows & Hcr & _ & Hnd & _ & Hrows).
  split; [done|]. split; [done|]. split; [|split; [|split; [done|split; [done|]]]].
  - subst created. rewrite <-list_fmap_compose. exact Hnd.
  - subst created. intros e (r & -> & Hr)%list_elem_of_fmap. simpl.
    destruct (Hrows r Hr) as (Hnk & Hr' & Hnone & x & Hx & Heq). split; [done|]. split.
    + rewrite Heq. simpl. by apply list_elem_of_fmap_2.
    + exists r. split; [done|]. split; [done|]. split; [|done]. by rewrite Heq.
  - by apply createEntries_all_known.
Qed.

(** C7: a hash once known to a feed is not stored again by a poll.  Through any
    sequence of polls, recorded hashes, webhook outcomes (strip, relay
    deletion, dropped relay entries, removed and read marks) and collapses,
    the tables stay well-formed, the hash stays known, and no later [createEntries]
    returns an entry with that hash: delivering an item, or dropping it from a relay
    feed, does not bring it back.  The retention pass is not one of these
    steps: it forgets the hashes of what it deletes and of kept hashes past their
    age (lemma [retention_forgets_hash]), so an item still in its source can come
    back after it. *)
Theorem known_hash_never_returns (db db' : EntryDb) (feed : Z) (h : string)
    (Hwf : entries_wf db) (Hrun : rtc entry_step db db') (Hh : h ≠ "") (Hk : known db feed h) :
  entries_wf db' ∧ known db' feed h ∧
  ∀ now fdb entries relay db'' n created,
    createEntries now fdb db' feed entries relay = (db'', inr (n, created)) →
    h ∉ e_hash <$> created.
Proof.
  destruct (entry_steps_ok _ _ Hrun Hwf) as [Hwf' Hrem]. pose proof (Hrem feed h Hh Hk) as Hk'.
  split; [done|]. split; [done|]. intros now fdb entries relay db'' n created Hc (e & -> & He)%list_elem_of_fmap.
  destruct (createEntries_spec _ _ _ _ _ _ _ _ _ Hwf' Hc)
    as (_ & _ & _ & _ & _ & _ & fresh & rows & -> & _ & _ & _ & Hrows).
  apply list_elem_of_fmap in He as (r & -> & Hr). by destruct (Hrows r Hr) as [? _].
Qed.

(** Who sees a new entry.  A full or filtered poll gives every subscriber
    exactly one unread row per returned entry, dated like the entry; a relay
    poll touches no reader, indexes nothing and marks its rows removed from
    the start. *)
Lemma new_entry_visibility (now : Z) (fdb : FeedDb) (db db' : EntryDb) (feed n : Z)
    (entries : list BEntry) (relay : bool) (created : list Entry)
    (Hwf : entries_wf db) (Hok : createEntries now fdb db feed entries relay = (db', inr (n, created))) :
  ∀ e, e ∈ created → ∃ x r, x ∈ entries ∧ ed_entries db' !! e_id e = Some r ∧
    r = new_row now feed (e_id e) relay x ∧ er_hash r = e_hash e ∧
    er_removed_at r = (if relay then Some now else None) ∧ er_indexed r = negb relay ∧
    (relay = true → ed_unread db' = ed_unread db) ∧
    (relay = false → ∀ u,
       ed_unread db' !! (e_id e, u) =
         if decide (u ∈ subscribers fdb feed) then Some (feed, default now (be_published_at x))
         else ed_unread db !! (e_id e, u)).
Proof.
  destruct (createEntries_spec _ _ _ _ _ _ _ _ _ Hwf Hok)
    as (_ & _ & _ & _ & _ & _ & fresh & rows & -> & _ & _ & Hun & Hrows).
  intros e (r & -> & Hr)%list_elem_of_fmap. destruct (Hrows r Hr) as (_ & Hr' & _ & x & Hx & Heq).
  exists x, r. split; [done|]. split; [done|]. split; [done|]. split; [done|].
  split; [by rewrite Heq|]. split; [by rewrite Heq|]. split; [by intros ->|]. intros -> u. rewrite Hun.
  cbn [e_id created_entry]. set (kvs := rows ≫= _).
  assert (∀ i v y, ((i, v), y) ∈ kvs ↔ ∃ r', r' ∈ rows ∧ i = er_id r' ∧ v ∈ subscribers fdb feed ∧
    y = (er_feed_id r', er_sort_at r')) as Hkvs.
  { intros i v y. unfold kvs. rewrite list_elem_of_bind. split.
    - intros (r' & (u' & Heq' & Hu')%list_elem_of_fmap & Hin). injection Heq' as -> -> ->. by exists r'.
    - intros (r' & Hin & -> & Hv & ->). exists r'. split; [|done].
      by apply (list_elem_of_fmap_2 (λ u, ((er_id r', u), (er_feed_id r', er_sort_at r')))). }
  assert (∀ y, ((er_id r, u), y) ∈ kvs → (feed, default now (be_published_at x)) = y) as Huniq.
  { intros y (r' & Hin & Hid & _ & ->)%Hkvs. destruct (Hrows r' Hin) as (_ & Hr'' & _).
    rewrite <-Hid, Hr' in Hr''. injection Hr'' as <-. by rewrite Heq. }
  case_decide as Hu.
  - apply lookup_union_Some_l, elem_of_list_to_map_1'; [done|]. apply Hkvs. exists r.
    split_and!; [done..|by rewrite Heq].
  - apply lookup_union_r, not_elem_of_list_to_map_1.
    intros ([[i v] y] & Hk & Hin)%list_elem_of_fmap. simpl in Hk. simplify_eq.
    apply Hkvs in Hin as (_ & _ & _ & ? & _). done.
Qed.

(** No pending delivery loses its entry.  Dropping relay entries spares
    every entry with a delivery on record, collapsing to hashes spares every
    entry with an open (pending or failed) delivery and every starred entry,
    and the deletion of a relay entry after one delivery spares it while
    another delivery of it is open. *)
Lemma deletions_spare_open_deliveries (fdb : FeedDb) (hdb : HookDb) (db : EntryDb) (id : Z)
    (r : EntryRow) (l : WLog) (Hid : ed_entries db !! id = Some r)
    (Hl : hd_logs hdb !! wl_id l = Some l) (Hentry : wl_entry_id l = id)
    (Hopen : is_open (wl_status l) = true) :
  (∀ ids, ed_entries (DropUndeliveredRelayEntries dedup_key hdb db ids).1 !! id = Some r) ∧
  (∀ p, ed_entries (collapseEntriesBatch dedup_key fdb hdb db p).1 !! id = Some r) ∧
  (∀ log, log ≠ wl_id l → DeleteRelayEntryAfterWebhook dedup_key hdb db id log = (db, false)).
Proof.
  split; [|split].
  - intros ids. unfold DropUndeliveredRelayEntries. destruct ids as [|i0 ids]; [done|].
    apply (delete_entries_lookup db _). split; [done|]. intros [_ Hno]. apply Hno.
    by exists (wl_id l), l.
  - intros p. unfold collapseEntriesBatch. apply (delete_entries_lookup db _). split; [done|].
    intros ([i e] & Heq & Hin)%list_elem_of_fmap. simpl in Heq. subst i.
    assert ((id, e) ∈ map_to_list (filter (λ kv, doomed fdb hdb db p kv.1 kv.2) (ed_entries db)))
      as Hin' by (by eapply elem_of_sublist; [|apply sublist_take]).
    apply elem_of_map_to_list, map_lookup_filter_Some in Hin' as [_ Hd]. simpl in Hd.
    unfold doomed in Hd. case_match; [|done]. destruct Hd as (_ & _ & _ & _ & Hno & _). apply Hno.
    by exists (wl_id l), l.
  - intros log Hlog. unfold DeleteRelayEntryAfterWebhook. rewrite Hid. apply decide_True.
    by exists (wl_id l), l.
Qed.

(** A filtered or relay poll is stored atomically.  When
    [StoreFilteredPoll] fails, no table has changed; when it succeeds, every
    matched item and every hash of the rest is known to the feed, and the
    refresh metadata, if given, is what [updateFeedRefreshMeta] writes. *)
Lemma store_filtered_poll_atomic (now : Z) (fdb fdb' : FeedDb) (db db' : EntryDb)
    (p : FilteredPollParams) (res : err + Z * list Entry) (Hwf : entries_wf db)
    (Hrun : StoreFilteredPoll dedup_key now (fdb, db) p = ((fdb', db'), res)) :
  match res with
  | inl _ => fdb' = fdb ∧ db' = db
  | inr (n, created) =>
      entries_wf db' ∧
      (∀ x, x ∈ fp_entries p → known db' (fp_feed_id p) (be_hash x)) ∧
      (∀ h, h ∈ fp_dedup p → in_dedup dedup_key db' (fp_feed_id p) h) ∧
      (match fp_meta p with
       | None => fdb' = fdb
       | Some m => updateFeedRefreshMeta fdb m = (fdb', None)
       end)
  end.
Proof. exact (StoreFilteredPoll_spec now fdb fdb' db db' p res Hwf Hrun). Qed.
End Entry_lemmas.

(** * Witnesses *)

Definition wit_item (h c : string) : BEntry := mkBEntry "t" "https://a.example/1" c None (Some 40) h.
Definition empty_entries : EntryDb := mkEntryDb ∅ 1 ∅ ∅ ∅ ∅.

Lemma empty_entries_wf : entries_wf empty_entries.
Proof. split; intros *; cbn [empty_entries ed_entries]; by rewrite lookup_empty. Defined.

Definition wit_batch : list BEntry := [wit_item "a" "x"; wit_item "b" "y"; wit_item "a" "z"].
Definition wit_stored : EntryDb := (createEntries id 60 wit_feed_db empty_entries 7 wit_batch false).1.
Definition wit_created : list Entry :=
  [mkEntry 1 7 "t" "https://a.example/1" "z" None (Some 40) "a" "unread";
   mkEntry 2 7 "t" "https://a.example/1" "y" None (Some 40) "b" "unread"].

Lemma wit_stored_wf : entries_wf wit_stored.
Proof.
  apply (createEntries_spec id 60 wit_feed_db empty_entries 7 wit_batch false wit_stored 2 wit_created
           empty_entries_wf eq_refl).
Qed.

Lemma create_entries_exactly_once_witness :
  createEntries id 60 wit_feed_db empty_entries 7 wit_batch false = (wit_stored, inr (2, wit_created)) ∧
  createEntries id 90 wit_feed_db wit_stored 7 wit_batch true = (wit_stored, inr (0, [])).
Proof.
  split; [reflexivity|].
  apply (create_entries_exactly_once id 60 90 wit_feed_db wit_feed_db empty_entries wit_stored 7 2
           wit_batch false true wit_created empty_entries_wf).
  reflexivity.
Defined.

Lemma known_hash_never_returns_witness :
  let db' := (StripEntryPayloadAfterWebhook id 80 wit_stored 1).1 in
  known id db' 7 "a" ∧ entries_wf db'.
Proof.
  intros db'.
  destruct (known_hash_never_returns id wit_stored db' 7 "a") as (H1 & H2 & _); [| |done| |done].
  - apply wit_stored_wf.
  - apply rtc_once, es_strip.
  - right. exists 1. by eexists.
Defined.

Lemma new_entry_visibility_witness :
  ∃ x, x ∈ wit_batch ∧ ed_unread wit_stored !! (1, 1) = Some (7, default 60 (be_published_at x)).
Proof.
  destruct (new_entry_visibility id 60 wit_feed_db empty_entries wit_stored 7 2 wit_batch false
    wit_created empty_entries_wf eq_refl (mkEntry 1 7 "t" "https://a.example/1" "z" None (Some 40) "a" "unread"))
    as (x & r & Hx & _ & _ & _ & _ & _ & _ & Hun); [left|].
  exists x. split; [exact Hx|]. exact (Hun eq_refl 1).
Defined.

Lemma deletions_spare_open_deliveries_witness :
  let hooks := mkHookDb {[ 1 := wit_hook 1 0 ]} {[ 3 := wit_log 3 1 1 50 ]} 4 in
  DeleteRelayEntryAfterWebhook id hooks wit_stored 1 9 = (wit_stored, false).
Proof.
  intros hooks.
  apply (deletions_spare_open_deliveries id wit_feed_db hooks wit_stored 1
           (new_row 60 7 1 false (wit_item "a" "x")) (wit_log 3 1 1 50)); reflexivity || done.
Defined.

Lemma store_filtered_poll_atomic_witness :
  let p := mkFilteredPoll 7 [wit_item "a" "x"] ["b"; "c"] true None in
  let s' := (StoreFilteredPoll id 60 (wit_feed_db, empty_entries) p).1 in
  known id s'.2 7 "a" ∧ in_dedup id s'.2 7 "c".
Proof.
  intros p s'.
  destruct (store_filtered_poll_atomic id 60 wit_feed_db s'.1 empty_entries s'.2 p
    (inr (1, [mkEntry 1 7 "t" "https://a.example/1" "x" None (Some 40) "a" "unread"])) empty_entries_wf)
    as (_ & H1 & H2 & _); [reflexivity|].
  split; [apply (H1 (wit_item "a" "x")); left|apply H2; right; left].
Defined.
