(* ===== verification/Tables.v ===== *)
(** Tables with a serial key: the rows by id and the next number of the sequence, with
    the statements the stores issue on them (insertion, deletion and update by a
    condition, ordered selection) and the paging of listings. *)

From S2P Require Import Prelude.

(** * Definitions *)

Record Table (A : Type) := mkTable { t_rows : gmap Z A; t_next : Z }.
#[global] Arguments mkTable {A} _ _.
#[global] Arguments t_rows {A} _.
#[global] Arguments t_next {A} _.

Definition t_empty {A} : Table A := mkTable ∅ 1.

(** [INSERT … RETURNING id] *)
Definition t_insert {A} (t : Table A) (a : A) : Table A * Z :=
  (mkTable (<[t_next t := a]> (t_rows t)) (t_next t + 1), t_next t).

(** [INSERT … VALUES (…), (…)] *)
Definition t_insert_all {A} (t : Table A) (rows : list A) : Table A :=
  foldl (λ t a, fst (t_insert t a)) t rows.

(** [DELETE … WHERE p] *)
Definition t_delete {A} (p : A → bool) (t : Table A) : Table A :=
  mkTable (filter (λ kv, p kv.2 = false) (t_rows t)) (t_next t).

(** [DELETE … WHERE id = $1] *)
Definition t_remove {A} (id : Z) (t : Table A) : Table A := mkTable (delete id (t_rows t)) (t_next t).

(** [UPDATE … WHERE id = $1] *)
Definition t_update {A} (id : Z) (g : A → A) (t : Table A) : Table A := mkTable (alter g id (t_rows t)) (t_next t).

(** The rows a condition keeps. *)
Definition t_view {A} (p : A → bool) (t : Table A) : gmap Z A := filter (λ kv, p kv.2 = true) (t_rows t).

(** [SELECT … WHERE p ORDER BY le] *)
Definition t_select {A} (p : A → bool) (le : relation (Z * A)) `{!RelDecision le} (t : Table A) : list (Z * A) :=
  merge_sort le (map_to_list (t_view p t)).

(** [ORDER BY key ASC, id ASC] *)
Definition key_le {A} (key : A → Z) (x y : Z * A) : Prop :=
  key x.2 < key y.2 ∨ (key x.2 = key y.2 ∧ x.1 <= y.1).

(** [ORDER BY key DESC, id DESC] *)
Definition key_ge {A} (key : A → Z) (x y : Z * A) : Prop := key_le key y x.

#[export] Instance key_le_dec {A} (key : A → Z) : RelDecision (key_le key).
Proof. unfold key_le. intros x y. apply _. Defined.
#[export] Instance key_ge_dec {A} (key : A → Z) : RelDecision (key_ge key).
Proof. unfold key_ge. intros x y. apply _. Defined.
#[export] Instance key_le_total {A} (key : A → Z) : Total (key_le key).
Proof. intros x y. unfold key_le. lia. Qed.
#[export] Instance key_le_trans {A} (key : A → Z) : Transitive (key_le key).
Proof. intros x y z. unfold key_le. lia. Qed.
#[export] Instance key_ge_total {A} (key : A → Z) : Total (key_ge key).
Proof. intros x y. unfold key_ge, key_le. lia. Qed.
#[export] Instance key_ge_trans {A} (key : A → Z) : Transitive (key_ge key).
Proof. intros x y z. unfold key_ge, key_le. lia. Qed.

(** The rows the insertion of [rows] adds, with their numbers. *)
Definition numbered {A} (next : Z) (rows : list A) : list (Z * A) := imap (λ i a, (next + Z.of_nat i, a)) rows.

(** The limit of a listing: 100 unless one is given, never more than 10000. *)
Definition clamp_limit (limit : Z) : Z :=
  if limit <=? 0 then 100 else if 10000 <? limit then 10000 else limit.

Definition clamp_offset (offset : Z) : Z := if offset <? 0 then 0 else offset.

(** [LIMIT $2 OFFSET $3] with [count( * ) OVER()]: the total comes with the rows of the page. *)
Definition page_of {A} (limit offset : Z) (rows : list A) : list A * Z :=
  let page := take (Z.to_nat (clamp_limit limit)) (drop (Z.to_nat (clamp_offset offset)) rows) in
  (page, match page with [] => 0 | _ => Z.of_nat (length rows) end).

(** The sequence is ahead of the rows. *)
Definition t_wf {A} (t : Table A) : Prop := 1 <= t_next t ∧ ∀ k a, t_rows t !! k = Some a → 1 <= k < t_next t.

(** * Lemmas *)

Section Table.
Context {A : Type}.
Implicit Types (t : Table A) (p q : A → bool).

Lemma t_empty_wf : t_wf (A := A) t_empty.
Proof. split; [done|]. intros k a H. simpl in H. by rewrite lookup_empty in H. Qed.

Lemma t_fresh t : t_wf t → t_rows t !! t_next t = None.
Proof. intros [_ W]. destruct (t_rows t !! t_next t) eqn:E; [|done]. apply W in E. lia. Qed.

Lemma t_insert_wf t a : t_wf t → t_wf (t_insert t a).1.
Proof.
  intros [N W]. split; cbn [t_insert fst t_next t_rows]; [lia|].
  intros k b [[<- _]|[_ H]]%lookup_insert_Some; [lia|]. apply W in H. lia.
Qed.

Lemma t_insert_all_wf t rows : t_wf t → t_wf (t_insert_all t rows).
Proof. revert t. induction rows as [|a rows IH]; [done|]. intros t W. by apply IH, t_insert_wf. Qed.

Lemma t_delete_wf p t : t_wf t → t_wf (t_delete p t).
Proof. intros [N W]. split; [done|]. intros k a [H _]%map_lookup_filter_Some. eauto. Qed.

Lemma t_remove_wf id t : t_wf t → t_wf (t_remove id t).
Proof. intros [N W]. split; [done|]. intros k a H. cbn [t_remove t_rows] in H. apply lookup_delete_Some in H as [_ H]. eauto. Qed.

Lemma t_update_wf id g t : t_wf t → t_wf (t_update id g t).
Proof.
  intros [N W]. split; [done|]. intros k a H. cbn [t_update t_rows] in H.
  apply lookup_alter_Some in H as [(-> & b & H & _)|[_ H]]; eauto.
Qed.

(** What a condition sees of a changed table. *)
Lemma t_view_insert t p a : t_wf t →
  t_view p (t_insert t a).1 = if p a then <[t_next t := a]> (t_view p t) else t_view p t.
Proof.
  intros W. unfold t_view. cbn [t_insert fst t_rows]. destruct (p a) eqn:E.
  - by rewrite map_filter_insert_True.
  - rewrite map_filter_insert_False by (simpl; congruence). by rewrite delete_id by by apply t_fresh.
Qed.

Lemma t_view_insert_all_out t p rows : t_wf t → Forall (λ a, p a = false) rows →
  t_view p (t_insert_all t rows) = t_view p t.
Proof.
  revert t. induction rows as [|a rows IH]; [done|]. intros t W H. inv H. cbn [t_insert_all foldl].
  change (foldl _ ?t' rows) with (t_insert_all t' rows). rewrite IH by (by try apply t_insert_wf).
  rewrite t_view_insert by done. by case_match; [congruence|].
Qed.

Lemma t_view_delete p q t : t_view p (t_delete q t) = filter (λ kv, q kv.2 = false) (t_view p t).
Proof. unfold t_view. simpl. apply map_filter_comm. Qed.

Lemma t_view_delete_out p q t : (∀ a, p a = true → q a = false) → t_view p (t_delete q t) = t_view p t.
Proof.
  intros H. rewrite t_view_delete. apply map_filter_id. intros k a [_ P]%map_lookup_filter_Some. by apply H.
Qed.

Lemma t_view_delete_same p t : t_view p (t_delete p t) = ∅.
Proof.
  rewrite t_view_delete. apply map_eq. intros k. rewrite lookup_empty. unfold t_view.
  apply eq_None_not_Some. intros [a H]. apply map_lookup_filter_Some in H as [H1 H2].
  apply map_lookup_filter_Some in H1 as [_ H1]. simpl in *. congruence.
Qed.

Lemma t_view_remove_out p id t : (∀ a, t_rows t !! id = Some a → p a = false) → t_view p (t_remove id t) = t_view p t.
Proof.
  intros H. unfold t_view. simpl. rewrite map_filter_delete. apply delete_id.
  apply map_lookup_filter_None. destruct (t_rows t !! id) as [a|] eqn:E; [|by left]. right.
  intros b [= <-]. simpl. rewrite (H a eq_refl). done.
Qed.

Lemma t_view_update_out p id g t : (∀ a, t_rows t !! id = Some a → p a = false ∧ p (g a) = false) →
  t_view p (t_update id g t) = t_view p t.
Proof.
  intros H. apply map_eq. intros k. apply option_eq. intros a. unfold t_view. cbn [t_update t_rows].
  rewrite !map_lookup_filter_Some, lookup_alter_Some. simpl. split.
  - intros [[(-> & b & L & ->)|[_ L]] P]; [|done]. destruct (H _ L). congruence.
  - intros [L P]. split; [|done]. destruct (decide (id = k)) as [->|N]; [|by right].
    destruct (H _ L). congruence.
Qed.

(** A selection is what the condition sees. *)
Lemma t_select_ext p (le : relation (Z * A)) `{!RelDecision le} t t' :
  t_view p t = t_view p t' → t_select p le t = t_select p le t'.
Proof. unfold t_select. by intros ->. Qed.

Lemma elem_of_t_select p (le : relation (Z * A)) `{!RelDecision le} t k a :
  (k, a) ∈ t_select p le t ↔ t_rows t !! k = Some a ∧ p a = true.
Proof.
  unfold t_select. rewrite merge_sort_Permutation, elem_of_map_to_list. unfold t_view.
  by rewrite map_lookup_filter_Some.
Qed.

Lemma t_select_NoDup p (le : relation (Z * A)) `{!RelDecision le} t : NoDup (t_select p le t).*1.
Proof. unfold t_select. rewrite merge_sort_Permutation. apply NoDup_fst_map_to_list. Qed.

Lemma t_select_perm p (le : relation (Z * A)) `{!RelDecision le} t :
  t_select p le t ≡ₚ map_to_list (t_view p t).
Proof. apply merge_sort_Permutation. Qed.

Lemma t_view_insert_all_in t p rows : t_wf t → t_view p t = ∅ → Forall (λ a, p a = true) rows →
  map_to_list (t_view p (t_insert_all t rows)) ≡ₚ numbered (t_next t) rows.
Proof.
  intros W E H. cut (map_to_list (t_view p (t_insert_all t rows)) ≡ₚ map_to_list (t_view p t) ++ numbered (t_next t) rows).
  { by rewrite E, map_to_list_empty. }
  clear E. revert t W. induction rows as [|a rows IH]; intros t W; [by rewrite app_nil_r|].
  inv H. cbn [t_insert_all foldl]. change (foldl _ ?t' rows) with (t_insert_all t' rows).
  rewrite IH by (by try apply t_insert_wf). rewrite t_view_insert by done. case_match; [|congruence].
  rewrite map_to_list_insert
    by (apply map_lookup_filter_None; left; by apply t_fresh).
  cbn [t_insert fst t_next]. unfold numbered. cbn [imap]. rewrite Z.add_0_r. cbn [app].
  rewrite <-Permutation_middle. f_equiv. f_equiv. apply reflexive_eq, imap_ext. intros i b _. simpl. f_equal. lia.
Qed.

Lemma numbered_fst_bound n (rows : list A) k a : (k, a) ∈ numbered n rows → n <= k.
Proof. unfold numbered. intros (i & b & [= -> ->] & _)%elem_of_lookup_imap. lia. Qed.

Lemma numbered_snd n (rows : list A) : (numbered n rows).*2 = rows.
Proof.
  unfold numbered. rewrite fmap_imap. generalize 0%nat. induction rows as [|a rows IH]; [done|].
  intros i. simpl. f_equal. apply (IH i).
Qed.

End Table.

(** The rows just inserted are selected in the order of their keys, those of one key in the
    order they were written. *)
Lemma t_select_insert_all {A} (key : A → Z) (p : A → bool) (t : Table A) rows :
  t_wf t → t_view p t = ∅ → Forall (λ a, p a = true) rows →
  t_select p (key_le key) (t_insert_all t rows) = merge_sort (key_le key) (numbered (t_next t) rows).
Proof.
  intros W E H. unfold t_select. pose proof (t_view_insert_all_in t p rows W E H) as P.
  eapply (StronglySorted_unique_strong (key_le key)).
  - intros [k a] [k' b] I J L1 L2. assert (k = k') as -> by (unfold key_le in *; simpl in *; lia).
    rewrite merge_sort_Permutation in I. rewrite merge_sort_Permutation, <-P in J.
    apply elem_of_map_to_list in I, J. congruence.
  - apply StronglySorted_merge_sort; apply _.
  - apply StronglySorted_merge_sort; apply _.
  - by rewrite !merge_sort_Permutation.
Qed.

Lemma page_of_total {A} limit offset (rows : list A) : (page_of limit offset rows).2 <= Z.of_nat (length rows).
Proof. unfold page_of. simpl. case_match; lia. Qed.

Lemma page_of_sub {A} limit offset (rows : list A) x : x ∈ (page_of limit offset rows).1 → x ∈ rows.
Proof. simpl. intros H%elem_of_take. destruct H as (i & H & _). rewrite lookup_drop in H. by eapply list_elem_of_lookup_2. Qed.

Lemma page_of_bound {A} limit offset (rows : list A) : Z.of_nat (length (page_of limit offset rows).1) <= 10000.
Proof. simpl. rewrite length_take. unfold clamp_limit. repeat case_match; bool_to_prop; lia. Qed.
