(* ===== verification/FilterStore.v ===== *)
(** The tables of filters, their rules, scope items, actions and matches, and of labels
    ([storage/filters.go], [storage/labels.go]) with every statement on them.  A statement
    that violates a constraint of the schema fails with nothing written; the numbers a
    rolled-back transaction took from a sequence are used again. *)

From S2P Require Import Prelude GoStrings Types FeedStore EntryStore Tables.
From S2P Require FilterEngine.

(** * The tables *)

(** storage/entities.go:130-141 [Filter, the columns of its row] *)
Record FilterRow := mkFilterRow {
  ft_UserID : Z; ft_Name : string; ft_Enabled : bool; ft_MatchAnyRule : bool; ft_Inverse : bool;
  ft_OrderID : Z; ft_FeedScope : string; ft_MatchCount : Z; ft_CreatedAt : Z; ft_UpdatedAt : Z;
}.

(** A row of [filter_rules]. *)
Record RuleRow := mkRuleRow {
  rl_FilterID : Z; rl_Field : string; rl_Pattern : string; rl_Negate : bool; rl_Op : string; rl_Priority : Z;
}.

(** A row of [filter_scope_items]. *)
Record ScopeRow := mkScopeRow { si_FilterID : Z; si_FeedID : option Z; si_CategoryID : option Z }.

(** A row of [filter_actions]. *)
Record ActionRow := mkActionRow { ac_FilterID : Z; ac_ActionType : string; ac_ActionParam : string; ac_Priority : Z }.

(** storage/entities.go [FilterMatch] *)
Record MatchRow := mkMatchRow { mt_FilterID : Z; mt_EntryID : Z; mt_MatchedAt : Z; mt_Details : option string }.

(** storage/entities.go [Label] *)
Record LabelRow := mkLabelRow { lb_UserID : Z; lb_Caption : string; lb_FgColor : string; lb_BgColor : string }.

(** What the store hands out: the row with its parts. *)
Record StoredFilter := mkStored {
  sf_ID : Z; sf_row : FilterRow; sf_Rules : list (Z * RuleRow); sf_ScopeItems : list (Z * ScopeRow);
  sf_Actions : list (Z * ActionRow);
}.

Record FilterDb := mkFilterDb {
  fb_filters : Table FilterRow; fb_rules : Table RuleRow; fb_scope : Table ScopeRow; fb_actions : Table ActionRow;
  fb_matches : Table MatchRow; fb_labels : Table LabelRow; fb_entry_labels : gset (Z * Z) (* (entry, label) *);
}.

Definition set_filters db x := mkFilterDb x (fb_rules db) (fb_scope db) (fb_actions db) (fb_matches db) (fb_labels db) (fb_entry_labels db).
Definition set_rules db x := mkFilterDb (fb_filters db) x (fb_scope db) (fb_actions db) (fb_matches db) (fb_labels db) (fb_entry_labels db).
Definition set_scope db x := mkFilterDb (fb_filters db) (fb_rules db) x (fb_actions db) (fb_matches db) (fb_labels db) (fb_entry_labels db).
Definition set_actions db x := mkFilterDb (fb_filters db) (fb_rules db) (fb_scope db) x (fb_matches db) (fb_labels db) (fb_entry_labels db).
Definition set_matches db x := mkFilterDb (fb_filters db) (fb_rules db) (fb_scope db) (fb_actions db) x (fb_labels db) (fb_entry_labels db).
Definition set_labels db x := mkFilterDb (fb_filters db) (fb_rules db) (fb_scope db) (fb_actions db) (fb_matches db) x (fb_entry_labels db).
Definition set_entry_labels db x := mkFilterDb (fb_filters db) (fb_rules db) (fb_scope db) (fb_actions db) (fb_matches db) (fb_labels db) x.

Definition empty_filters : FilterDb := mkFilterDb t_empty t_empty t_empty t_empty t_empty t_empty ∅.

(** What the filter engine reads of a stored filter. *)
Definition engine_filter (f : StoredFilter) : Filter :=
  mkFilter (sf_ID f) (ft_UserID (sf_row f)) (ft_Enabled (sf_row f)) (ft_MatchAnyRule (sf_row f)) (ft_Inverse (sf_row f))
    (ft_FeedScope (sf_row f)) (ft_UpdatedAt (sf_row f))
    ((λ r, mkFilterRule r.1 (rl_Field r.2) (rl_Pattern r.2) (rl_Negate r.2) (rl_Op r.2)) <$> sf_Rules f)
    ((λ i, mkFilterScopeItem (si_FeedID i.2) (si_CategoryID i.2)) <$> sf_ScopeItems f)
    ((λ a, mkFilterAction (ac_ActionType a.2) (ac_ActionParam a.2)) <$> sf_Actions f).

(** * Parameters *)

(** storage/entities.go [CreateFilterRuleParams] *)
Record CreateFilterRuleParams := mkRuleParams {
  cr_Field : string; cr_Pattern : string; cr_Negate : bool; cr_Op : string; cr_Priority : Z;
}.
(** storage/entities.go [CreateFilterScopeItemParams] *)
Record CreateFilterScopeItemParams := mkScopeParams { cs_FeedID : option Z; cs_CategoryID : option Z }.
(** storage/entities.go [CreateFilterActionParams] *)
Record CreateFilterActionParams := mkActionParams { ca_ActionType : string; ca_ActionParam : string; ca_Priority : Z }.

(** storage/entities.go [CreateFilterParams] *)
Record CreateFilterParams := mkCreateFilter {
  cf_UserID : Z; cf_Name : string; cf_Enabled : bool; cf_MatchAnyRule : bool; cf_Inverse : bool; cf_OrderID : Z;
  cf_FeedScope : string; cf_Rules : list CreateFilterRuleParams; cf_ScopeItems : list CreateFilterScopeItemParams;
  cf_Actions : list CreateFilterActionParams;
}.

(** storage/entities.go [UpdateFilterParams] The id, and the rest as for a creation. *)
Record UpdateFilterParams := mkUpdateFilter { uf_ID : Z; uf_params : CreateFilterParams }.

(** storage/entities.go [CreateFilterMatchParams] *)
Record CreateFilterMatchParams := mkMatchParams { cm_FilterID : Z; cm_EntryID : Z; cm_MatchedAt : Z; cm_Details : string }.

(** storage/entities.go [CreateLabelParams] *)
Record CreateLabelParams := mkCreateLabel { cl_UserID : Z; cl_Caption : string; cl_FgColor : string; cl_BgColor : string }.

(** storage/entities.go [UpdateLabelParams] *)
Record UpdateLabelParams := mkUpdateLabel {
  ul_ID : Z; ul_UserID : Z; ul_Caption : string; ul_FgColor : string; ul_BgColor : string;
}.

(** The range of a 4-byte column. *)
Definition in32 (z : Z) : bool := (- 2 ^ 31 <=? z) && (z <? 2 ^ 31).

Definition sql_error : err := EMsg "the statement violates a constraint".

(** * Filters *)

(** storage/filters.go [normalizeFeedScope] *)
Definition normalizeFeedScope (scope : string) : string :=
  let s := to_lower (trim_space scope) in
  if String.eqb s "include" || String.eqb s "exclude" then s else "all".

(** storage/filters.go [getFilterRules] *)
Definition getFilterRules (db : FilterDb) (filterID : Z) : list (Z * RuleRow) :=
  t_select (λ r, rl_FilterID r =? filterID) (key_le rl_Priority) (fb_rules db).

(** storage/filters.go [getFilterScopeItems] *)
Definition getFilterScopeItems (db : FilterDb) (filterID : Z) : list (Z * ScopeRow) :=
  t_select (λ r, si_FilterID r =? filterID) (key_le (λ _, 0)) (fb_scope db).

(** storage/filters.go [getFilterActions] *)
Definition getFilterActions (db : FilterDb) (filterID : Z) : list (Z * ActionRow) :=
  t_select (λ r, ac_FilterID r =? filterID) (key_le ac_Priority) (fb_actions db).

(** storage/filters.go [loadFilterScopeAndActions] *)
Definition loadFilterScopeAndActions (db : FilterDb) (f : StoredFilter) : StoredFilter :=
  mkStored (sf_ID f) (sf_row f) (sf_Rules f) (getFilterScopeItems db (sf_ID f)) (getFilterActions db (sf_ID f)).

(** storage/filters.go [loadFilterParts] *)
Definition loadFilterParts (db : FilterDb) (f : StoredFilter) : StoredFilter :=
  loadFilterScopeAndActions db
    (mkStored (sf_ID f) (sf_row f) (getFilterRules db (sf_ID f)) (sf_ScopeItems f) (sf_Actions f)).

(** A scanned row: its parts are nil. *)
Definition bare (r : Z * FilterRow) : StoredFilter := mkStored r.1 r.2 [] [] [].

(** storage/filters.go [PostgresStore.ListFilters] *)
Definition ListFilters (db : FilterDb) (userID limit offset : Z) : list StoredFilter * Z :=
  let '(rows, total) := page_of limit offset (t_select (λ r, ft_UserID r =? userID) (key_le ft_OrderID) (fb_filters db)) in
  (bare <$> rows, total).

(** storage/filters.go [PostgresStore.GetFilter] *)
Definition GetFilter (db : FilterDb) (userID id : Z) : err + StoredFilter :=
  match t_rows (fb_filters db) !! id with
  | Some f => if ft_UserID f =? userID then inr (loadFilterParts db (bare (id, f))) else inl ENotFound
  | None => inl ENotFound
  end.

Definition rule_row (filterID : Z) (r : CreateFilterRuleParams) : RuleRow :=
  mkRuleRow filterID (trim_space (cr_Field r)) (cr_Pattern r) (cr_Negate r) (to_lower (trim_space (cr_Op r))) (cr_Priority r).

(** storage/filters.go [insertFilterRules] One statement: a priority outside the column or more
    than 65535 parameters fail it. *)
Definition insertFilterRules (db : FilterDb) (filterID : Z) (rules : list CreateFilterRuleParams) : FilterDb * (err + unit) :=
  if forallb (λ r, in32 (cr_Priority r)) rules && (6 * Z.of_nat (length rules) <=? 65535)
  then (set_rules db (t_insert_all (fb_rules db) (rule_row filterID <$> rules)), inr tt)
  else (db, inl (EWrap "insert filter rules" sql_error)).

Definition target_exists (fdb : FeedDb) (feed cat : option Z) : bool :=
  match feed, cat with
  | Some f, None => match fd_feeds fdb !! f with Some _ => true | None => false end
  | None, Some c => match fd_cats fdb !! c with Some _ => true | None => false end
  | _, _ => false (* the target check of the table *)
  end.

(** storage/filters.go [insertFilterScopeItems] *)
Fixpoint insertFilterScopeItems (fdb : FeedDb) (db : FilterDb) (filterID : Z) (items : list CreateFilterScopeItemParams)
    : FilterDb * (err + unit) :=
  match items with
  | [] => (db, inr tt)
  | item :: items =>
      match cs_FeedID item, cs_CategoryID item with
      | None, None => insertFilterScopeItems fdb db filterID items
      | feed, cat =>
          if target_exists fdb feed cat
          then insertFilterScopeItems fdb (set_scope db (fst (t_insert (fb_scope db) (mkScopeRow filterID feed cat)))) filterID items
          else (db, inl (EWrap "insert filter scope item" sql_error))
      end
  end.

Definition is_action_type (t : string) : bool := String.eqb t "label" || String.eqb t "webhook" || String.eqb t "delete".

(** storage/filters.go [insertFilterActions] *)
Fixpoint insertFilterActions (db : FilterDb) (filterID : Z) (actions : list CreateFilterActionParams) : FilterDb * (err + unit) :=
  match actions with
  | [] => (db, inr tt)
  | a :: actions =>
      let actionType := to_lower (trim_space (ca_ActionType a)) in
      if String.eqb actionType "" then insertFilterActions db filterID actions
      else if is_action_type actionType && in32 (ca_Priority a)
      then insertFilterActions
             (set_actions db (fst (t_insert (fb_actions db) (mkActionRow filterID actionType (trim_space (ca_ActionParam a)) (ca_Priority a)))))
             filterID actions
      else (db, inl (EWrap "insert filter action" sql_error))
  end.

(** storage/filters.go:70-85 [PostgresStore.CreateFilter, the parts] Also lines 155-170 of
    [UpdateFilter]: an empty list inserts nothing. *)
Definition insertParts (fdb : FeedDb) (db : FilterDb) (id : Z) (p : CreateFilterParams) : FilterDb * (err + unit) :=
  match insertFilterRules db id (cf_Rules p) with
  | (db, inl e) => (db, inl e)
  | (db, inr _) =>
      match insertFilterScopeItems fdb db id (cf_ScopeItems p) with
      | (db, inl e) => (db, inl e)
      | (db, inr _) => insertFilterActions db id (cf_Actions p)
      end
  end.

Definition withParts (fdb : FeedDb) (db : FilterDb) (id : Z) (row : FilterRow) (p : CreateFilterParams)
    : FilterDb * (err + StoredFilter) :=
  match insertParts fdb db id p with
  | (db, inl e) => (db, inl e)
  | (db, inr _) => (db, inr (loadFilterParts db (bare (id, row))))
  end.

Definition new_filter_row (now : Z) (p : CreateFilterParams) : FilterRow :=
  mkFilterRow (cf_UserID p) (trim_space (cf_Name p)) (cf_Enabled p) (cf_MatchAnyRule p) (cf_Inverse p)
    (cf_OrderID p) (normalizeFeedScope (cf_FeedScope p)) 0 now now.

Definition createFilterTx (now : Z) (fdb : FeedDb) (p : CreateFilterParams) (db : FilterDb) : FilterDb * (err + StoredFilter) :=
  if in32 (cf_OrderID p) then
    let row := new_filter_row now p in
    let '(t, id) := t_insert (fb_filters db) row in
    withParts fdb (set_filters db t) id row p
  else (db, inl (EWrap "insert filter" sql_error)).

(** storage/filters.go [PostgresStore.CreateFilter] *)
Definition CreateFilter (now : Z) (fdb : FeedDb) (db : FilterDb) (p : CreateFilterParams) : FilterDb * (err + StoredFilter) :=
  if String.eqb (trim_space (cf_Name p)) "" then (db, inl (EMsg "name is required"))
  else match withTx db (createFilterTx now fdb p) with
       | (db, inl e) => (db, inl (EWrap "create filter" e))
       | r => r
       end.

Definition update_row (now : Z) (p : CreateFilterParams) (f : FilterRow) : FilterRow :=
  mkFilterRow (ft_UserID f) (trim_space (cf_Name p)) (cf_Enabled p) (cf_MatchAnyRule p) (cf_Inverse p) (cf_OrderID p)
    (normalizeFeedScope (cf_FeedScope p)) (ft_MatchCount f) (ft_CreatedAt f) now.

(** The rules, scope items and actions of a filter go. *)
Definition clear_parts (db : FilterDb) (id : Z) : FilterDb :=
  set_actions (set_scope (set_rules db (t_delete (λ r, rl_FilterID r =? id) (fb_rules db)))
    (t_delete (λ r, si_FilterID r =? id) (fb_scope db)))
    (t_delete (λ r, ac_FilterID r =? id) (fb_actions db)).

Definition updateFilterTx (now : Z) (fdb : FeedDb) (p : UpdateFilterParams) (db : FilterDb) : FilterDb * (err + StoredFilter) :=
  let c := uf_params p in
  if in32 (cf_OrderID c) then
    match t_rows (fb_filters db) !! uf_ID p with
    | None => (db, inl ENotFound)
    | Some f =>
        if ft_UserID f =? cf_UserID c then
          let row := update_row now c f in
          let db := clear_parts (set_filters db (t_update (uf_ID p) (λ _, row) (fb_filters db))) (uf_ID p) in
          withParts fdb db (uf_ID p) row c
        else (db, inl ENotFound)
    end
  else (db, inl (EWrap "update filter" sql_error)).

(** storage/filters.go [PostgresStore.UpdateFilter] *)
Definition UpdateFilter (now : Z) (fdb : FeedDb) (db : FilterDb) (p : UpdateFilterParams) : FilterDb * (err + StoredFilter) :=
  if String.eqb (trim_space (cf_Name (uf_params p))) "" then (db, inl (EMsg "name is required"))
  else match withTx db (updateFilterTx now fdb p) with
       | (db, inl e) => (db, inl (if err_is_not_found e then ENotFound else EWrap "update filter" e))
       | r => r
       end.

(** storage/filters.go [PostgresStore.DeleteFilter] The rows that reference the filter go with it. *)
Definition DeleteFilter (db : FilterDb) (userID id : Z) : FilterDb * option err :=
  match t_rows (fb_filters db) !! id with
  | Some f =>
      if ft_UserID f =? userID
      then (set_matches (clear_parts (set_filters db (t_remove id (fb_filters db))) id)
              (t_delete (λ m, mt_FilterID m =? id) (fb_matches db)), None)
      else (db, Some ENotFound)
  | None => (db, Some ENotFound)
  end.

(** * The filters of a poll *)

(** The rows of the left join of a filter with its rules. *)
Definition joined (db : FilterDb) (f : Z * FilterRow) : list ((Z * FilterRow) * option (Z * RuleRow)) :=
  match getFilterRules db f.1 with
  | [] => [(f, None)]
  | rules => (λ r, (f, Some r)) <$> rules
  end.

Definition enabled_rows (db : FilterDb) (userID : Z) : list (Z * FilterRow) :=
  t_select (λ r, (ft_UserID r =? userID) && ft_Enabled r) (key_le ft_OrderID) (fb_filters db).

Definition add_rule (r : option (Z * RuleRow)) (f : StoredFilter) : StoredFilter :=
  mkStored (sf_ID f) (sf_row f) (sf_Rules f ++ option_list r) (sf_ScopeItems f) (sf_Actions f).

Fixpoint add_rule_at (id : Z) (r : option (Z * RuleRow)) (out : list StoredFilter) : list StoredFilter :=
  match out with
  | [] => []
  | f :: out => if sf_ID f =? id then add_rule r f :: out else f :: add_rule_at id r out
  end.

(** storage/filters.go:214-267 [PostgresStore.ListEnabledFilters, one row of the join] [out] is
    [order] with what [byID] holds. *)
Definition group_row (out : list StoredFilter) (row : (Z * FilterRow) * option (Z * RuleRow)) : list StoredFilter :=
  let id := row.1.1 in
  let out := if existsb (λ f, sf_ID f =? id) out then out else out ++ [bare row.1] in
  add_rule_at id row.2 out.

(** storage/filters.go [PostgresStore.ListEnabledFilters] The limit counts rows of the join. *)
Definition ListEnabledFilters (db : FilterDb) (userID limit : Z) : list StoredFilter :=
  let limit := if limit <=? 0 then 1000 else limit in
  let rows := take (Z.to_nat limit) (enabled_rows db userID ≫= joined db) in
  loadFilterScopeAndActions db <$> foldl group_row [] rows.

(** * Matches *)

Definition match_row (m : CreateFilterMatchParams) : MatchRow :=
  mkMatchRow (cm_FilterID m) (cm_EntryID m) (cm_MatchedAt m) (if String.eqb (cm_Details m) "" then None else Some (cm_Details m)).

Definition same_match (a b : MatchRow) : bool := (mt_FilterID a =? mt_FilterID b) && (mt_EntryID a =? mt_EntryID b).

(** [ON CONFLICT (filter_id, entry_id) DO NOTHING RETURNING filter_id], one row. *)
Definition insert_match (acc : Table MatchRow * list Z) (m : MatchRow) : Table MatchRow * list Z :=
  match map_to_list (t_view (same_match m) acc.1) with
  | [] => (fst (t_insert acc.1 m), acc.2 ++ [mt_FilterID m])
  | _ => acc
  end.

(** storage/filters.go [PostgresStore.IncrementFilterMatchCount] *)
Definition IncrementFilterMatchCount (db : FilterDb) (filterID delta : Z) : FilterDb :=
  if (filterID <=? 0) || (delta <=? 0) then db
  else set_filters db (t_update filterID (λ f,
    mkFilterRow (ft_UserID f) (ft_Name f) (ft_Enabled f) (ft_MatchAnyRule f) (ft_Inverse f) (ft_OrderID f) (ft_FeedScope f)
      (ft_MatchCount f + delta) (ft_CreatedAt f) (ft_UpdatedAt f)) (fb_filters db)).

(** How often each filter was returned. *)
Definition count_returned (ids : list Z) : gmap Z Z :=
  foldl (λ m id, <[id := default 0 (m !! id) + 1]> m) ∅ ids.

(** storage/filters.go [PostgresStore.CreateFilterMatches] A filter or an entry that is gone
    fails the statement. *)
Definition CreateFilterMatches (edb : EntryDb) (db : FilterDb) (ms : list CreateFilterMatchParams) : FilterDb * (err + Z) :=
  match ms with
  | [] => (db, inr 0)
  | _ =>
      if forallb (λ m, bool_decide (is_Some (t_rows (fb_filters db) !! cm_FilterID m)) &&
                       bool_decide (is_Some (ed_entries edb !! cm_EntryID m))) ms
      then
        let '(t, ids) := foldl insert_match (fb_matches db, []) (match_row <$> ms) in
        let counts := map_to_list (count_returned ids) in
        (foldl (λ db c, IncrementFilterMatchCount db c.1 c.2) (set_matches db t) counts,
         inr (foldl (λ n c, n + c.2) 0 counts))
      else (db, inl (EWrap "create filter matches" sql_error))
  end.

(** storage/entry_bulk.go:18 [entryStatusExpr] *)
Definition entryStatus (edb : EntryDb) (userID : Z) (e : EntryRow) : string :=
  match ed_unread edb !! (er_id e, userID) with
  | Some _ => "unread"
  | None => match er_removed_at e with
            | Some _ => "removed"
            | None => match ed_user edb !! (er_id e, userID) with
                      | Some ue => if ue_removed ue then "removed" else "read"
                      | None => "read"
                      end
            end
  end.

Definition entry_of (edb : EntryDb) (userID : Z) (e : EntryRow) : Entry :=
  mkEntry (er_id e) (er_feed_id e) (er_title e) (er_url e) (er_content e) (er_author e) (er_published_at e) (er_hash e)
    (entryStatus edb userID e).

(** storage/filters.go [PostgresStore.ListFilterMatches] With the entries, as the filter's user has them. *)
Definition ListFilterMatches (edb : EntryDb) (db : FilterDb) (filterID limit offset : Z)
    : list (Z * MatchRow * Entry) * Z :=
  page_of limit offset
    (omap (λ m, f ← t_rows (fb_filters db) !! filterID;
                e ← ed_entries edb !! mt_EntryID m.2;
                Some (m.1, m.2, entry_of edb (ft_UserID f) e))
       (t_select (λ m, mt_FilterID m =? filterID) (key_ge mt_MatchedAt) (fb_matches db))).

(** * Labels *)

Section Labels.
(** The database's collation. *)
Context (collate : relation string) `{!RelDecision collate}.

Definition caption_le (a b : Z * LabelRow) : Prop :=
  collate (lb_Caption a.2) (lb_Caption b.2) ∧ (collate (lb_Caption b.2) (lb_Caption a.2) → a.1 <= b.1).
#[export] Instance caption_le_dec : RelDecision caption_le.
Proof. unfold caption_le. intros a b. apply _. Defined.

(** storage/labels.go [PostgresStore.ListLabels] *)
Definition ListLabels (db : FilterDb) (userID limit offset : Z) : list (Z * LabelRow) * Z :=
  page_of limit offset (t_select (λ l, lb_UserID l =? userID) caption_le (fb_labels db)).

End Labels.

(** The unique index on (user, caption). *)
Definition caption_taken (db : FilterDb) (id userID : Z) (caption : string) : bool :=
  existsb (λ kv, negb (kv.1 =? id))
    (map_to_list (t_view (λ l, (lb_UserID l =? userID) && String.eqb (lb_Caption l) caption) (fb_labels db))).

Definition or_default (s d : string) : string := if String.eqb (trim_space s) "" then d else s.

(** storage/labels.go [PostgresStore.CreateLabel] *)
Definition CreateLabel (db : FilterDb) (p : CreateLabelParams) : FilterDb * (err + Z * LabelRow) :=
  let caption := trim_space (cl_Caption p) in
  if String.eqb caption "" then (db, inl (EMsg "caption is required"))
  else
    let l := mkLabelRow (cl_UserID p) caption (or_default (cl_FgColor p) "#ffffff") (or_default (cl_BgColor p) "#2980b9") in
    if caption_taken db 0 (cl_UserID p) caption then (db, inl (EWrap "create label" sql_error))
    else let '(t, id) := t_insert (fb_labels db) l in (set_labels db t, inr (id, l)).

(** storage/labels.go [PostgresStore.GetLabel] *)
Definition GetLabel (db : FilterDb) (userID id : Z) : err + Z * LabelRow :=
  match t_rows (fb_labels db) !! id with
  | Some l => if lb_UserID l =? userID then inr (id, l) else inl ENotFound
  | None => inl ENotFound
  end.

(** storage/labels.go [PostgresStore.UpdateLabel] *)
Definition UpdateLabel (db : FilterDb) (p : UpdateLabelParams) : FilterDb * (err + Z * LabelRow) :=
  let caption := trim_space (ul_Caption p) in
  if String.eqb caption "" then (db, inl (EMsg "caption is required"))
  else match GetLabel db (ul_UserID p) (ul_ID p) with
       | inl _ => (db, inl ENotFound)
       | inr _ =>
           let l := mkLabelRow (ul_UserID p) caption (ul_FgColor p) (ul_BgColor p) in
           if caption_taken db (ul_ID p) (ul_UserID p) caption then (db, inl (EWrap "update label" sql_error))
           else (set_labels db (t_update (ul_ID p) (λ _, l) (fb_labels db)), inr (ul_ID p, l))
       end.

(** storage/labels.go [PostgresStore.DeleteLabel] With the entries' marks. *)
Definition DeleteLabel (db : FilterDb) (userID id : Z) : FilterDb * option err :=
  match GetLabel db userID id with
  | inl _ => (db, Some ENotFound)
  | inr _ => (set_entry_labels (set_labels db (t_remove id (fb_labels db)))
                (filter (λ el, el.2 ≠ id) (fb_entry_labels db)), None)
  end.

(** storage/labels.go [PostgresStore.AssignEntryLabel] *)
Definition AssignEntryLabel (edb : EntryDb) (db : FilterDb) (entryID labelID : Z) : FilterDb * option err :=
  match ed_entries edb !! entryID, t_rows (fb_labels db) !! labelID with
  | Some _, Some _ => (set_entry_labels db ({[ (entryID, labelID) ]} ∪ fb_entry_labels db), None)
  | _, _ => (db, Some (EWrap "assign entry label" sql_error))
  end.

(** storage/labels.go [PostgresStore.countsByLabel] [scope] is the join on the labelled entry. *)
Definition countsByLabel (db : FilterDb) (userID : Z) (scope : Z → bool) : gmap Z Z :=
  count_returned (snd <$> filter (λ el, match t_rows (fb_labels db) !! el.2 with
                                        | Some l => (lb_UserID l =? userID) && scope el.1
                                        | None => false
                                        end = true) (elements (fb_entry_labels db))).

(** storage/labels.go [PostgresStore.EntryCountsByLabel] The entries of subscribed feeds that the
    user has not removed. *)
Definition EntryCountsByLabel (fdb : FeedDb) (edb : EntryDb) (db : FilterDb) (userID : Z) : gmap Z Z :=
  countsByLabel db userID (λ id, match ed_entries edb !! id with
    | Some e => bool_decide (is_Some (fd_subs fdb !! (userID, er_feed_id e))) &&
                match er_removed_at e with None => true | Some _ => false end &&
                match ed_user edb !! (id, userID) with Some ue => negb (ue_removed ue) | None => true end
    | None => false
    end).

(** storage/labels.go [PostgresStore.UnreadCountsByLabel] *)
Definition UnreadCountsByLabel (edb : EntryDb) (db : FilterDb) (userID : Z) : gmap Z Z :=
  countsByLabel db userID (λ id, bool_decide (is_Some (ed_unread edb !! (id, userID)))).
