(* ===== verification/FilterStoreSpec.v ===== *)
(** What the store of filters and labels guarantees: a write is read back as it was written,
    matches are counted, the constraints of the schema hold after every statement, one user's
    operations leave what another reads, and which filters a poll loads. *)

From S2P Require Import Prelude GoStrings Types FeedStore EntryStore Tables FilterStore.
From S2P Require FilterEngine.

(** * What a write leaves *)

(** The rows a request's scope items and actions become. *)
Definition scope_row (id : Z) (i : CreateFilterScopeItemParams) : option ScopeRow :=
  match cs_FeedID i, cs_CategoryID i with
  | None, None => None
  | feed, cat => Some (mkScopeRow id feed cat)
  end.

Definition action_row (id : Z) (a : CreateFilterActionParams) : option ActionRow :=
  let t := to_lower (trim_space (ca_ActionType a)) in
  if String.eqb t "" then None else Some (mkActionRow id t (trim_space (ca_ActionParam a)) (ca_Priority a)).

Definition add_parts (db : FilterDb) (id : Z) (p : CreateFilterParams) : FilterDb :=
  set_actions (set_scope (set_rules db (t_insert_all (fb_rules db) (rule_row id <$> cf_Rules p)))
    (t_insert_all (fb_scope db) (omap (scope_row id) (cf_ScopeItems p))))
    (t_insert_all (fb_actions db) (omap (action_row id) (cf_Actions p))).

(** The filter a write request describes, its parts numbered from the sequences and in the
    order of their priorities. *)
Definition written_filter (db : FilterDb) (id : Z) (row : FilterRow) (p : CreateFilterParams) : StoredFilter :=
  mkStored id row
    (merge_sort (key_le rl_Priority) (numbered (t_next (fb_rules db)) (rule_row id <$> cf_Rules p)))
    (merge_sort (key_le (λ _, 0)) (numbered (t_next (fb_scope db)) (omap (scope_row id) (cf_ScopeItems p))))
    (merge_sort (key_le ac_Priority) (numbered (t_next (fb_actions db)) (omap (action_row id) (cf_Actions p)))).

Definition scope_ok (s : ScopeRow) : Prop :=
  match si_FeedID s, si_CategoryID s with Some _, None | None, Some _ => True | _, _ => False end.

(** The constraints of the schema. *)
Record filters_wf (db : FilterDb) : Prop := {
  fw_filters : t_wf (fb_filters db);
  fw_rules : t_wf (fb_rules db);
  fw_scope : t_wf (fb_scope db);
  fw_actions : t_wf (fb_actions db);
  fw_matches : t_wf (fb_matches db);
  fw_labels : t_wf (fb_labels db);
  fw_name : ∀ k f, t_rows (fb_filters db) !! k = Some f → ft_Name f ≠ "" ∧ ft_FeedScope f ∈ ["all"; "include"; "exclude"]%string;
  fw_rule_ref : ∀ k r, t_rows (fb_rules db) !! k = Some r → is_Some (t_rows (fb_filters db) !! rl_FilterID r);
  fw_scope_ref : ∀ k r, t_rows (fb_scope db) !! k = Some r → is_Some (t_rows (fb_filters db) !! si_FilterID r) ∧ scope_ok r;
  fw_action_ref : ∀ k r, t_rows (fb_actions db) !! k = Some r →
    is_Some (t_rows (fb_filters db) !! ac_FilterID r) ∧ is_action_type (ac_ActionType r) = true;
  fw_match_ref : ∀ k r, t_rows (fb_matches db) !! k = Some r → is_Some (t_rows (fb_filters db) !! mt_FilterID r);
  fw_match_once : ∀ j k r s, t_rows (fb_matches db) !! j = Some r → t_rows (fb_matches db) !! k = Some s →
    same_match r s = true → j = k;
  fw_caption : ∀ k l, t_rows (fb_labels db) !! k = Some l → lb_Caption l ≠ "";
  fw_caption_once : ∀ j k l m, t_rows (fb_labels db) !! j = Some l → t_rows (fb_labels db) !! k = Some m →
    lb_UserID l = lb_UserID m → lb_Caption l = lb_Caption m → j = k;
  fw_marks : ∀ e l, (e, l) ∈ fb_entry_labels db → is_Some (t_rows (fb_labels db) !! l);
}.

(** * Lemmas *)

Lemma normalizeFeedScope_ok s : normalizeFeedScope s ∈ ["all"; "include"; "exclude"]%string.
Proof.
  unfold normalizeFeedScope. destruct (String.eqb_spec (to_lower (trim_space s)) "include") as [->|];
    [|destruct (String.eqb_spec (to_lower (trim_space s)) "exclude") as [->|]]; simpl; set_solver.
Qed.

(** The store and the filter engine normalise alike. *)
Lemma normalizeFeedScope_engine s : FilterEngine.normalizeFeedScope s = normalizeFeedScope s.
Proof. done. Qed.

Lemma insertFilterScopeItems_inv fdb db id items db' :
  insertFilterScopeItems fdb db id items = (db', inr tt) →
  db' = set_scope db (t_insert_all (fb_scope db) (omap (scope_row id) items)) ∧ Forall scope_ok (omap (scope_row id) items).
Proof.
  revert db. induction items as [|i items IH]; intros db H.
  - simpl in H. injection H as <-. split; [by destruct db|constructor].
  - cbn [insertFilterScopeItems] in H. cbn [omap list_omap]. destruct (scope_row id i) as [s|] eqn:E; unfold scope_row in E;
      destruct (cs_FeedID i), (cs_CategoryID i); cbn [target_exists] in H; try done; try (by apply IH);
      injection E as <-; (case_match; [|done]); apply IH in H as [-> H]; (split; [done|]); by constructor.
Qed.

Lemma insertFilterActions_inv db id actions db' :
  insertFilterActions db id actions = (db', inr tt) →
  db' = set_actions db (t_insert_all (fb_actions db) (omap (action_row id) actions)) ∧
  Forall (λ a, is_action_type (ac_ActionType a) = true) (omap (action_row id) actions).
Proof.
  revert db. induction actions as [|a actions IH]; intros db H.
  - simpl in H. injection H as <-. split; [by destruct db|constructor].
  - cbn [insertFilterActions] in H. cbn [omap list_omap]. destruct (action_row id a) as [r|] eqn:E; unfold action_row in E;
      destruct (String.eqb (to_lower (trim_space (ca_ActionType a))) ""); try done; try (by apply IH).
    destruct (is_action_type _) eqn:T; [|done]. destruct (in32 _); [|done].
    injection E as <-. cbn [andb] in H. apply IH in H as [-> H]. split; [done|]. by constructor.
Qed.

Lemma withParts_inv fdb db id row p db' f :
  withParts fdb db id row p = (db', inr f) →
  db' = add_parts db id p ∧ f = loadFilterParts db' (bare (id, row)) ∧
  Forall scope_ok (omap (scope_row id) (cf_ScopeItems p)) ∧
  Forall (λ a, is_action_type (ac_ActionType a) = true) (omap (action_row id) (cf_Actions p)).
Proof.
  unfold withParts, insertParts, insertFilterRules. destruct (_ && _); [|done].
  destruct (insertFilterScopeItems _ _ _ _) as [db1 [?|[]]] eqn:S; [done|].
  destruct (insertFilterActions _ _ _) as [db2 [?|[]]] eqn:A; [done|].
  intros [= <- <-]. apply insertFilterScopeItems_inv in S as [-> S]. apply insertFilterActions_inv in A as [-> A]. done.
Qed.

(** A creation fails with nothing written, or adds the row and its parts. *)
Lemma CreateFilter_inv now fdb db p db' r :
  CreateFilter now fdb db p = (db', r) →
  (db' = db ∧ ∃ e, r = inl e) ∨
  ∃ f, r = inr f ∧ trim_space (cf_Name p) ≠ "" ∧
    let row := new_filter_row now p in
    let db1 := set_filters db (t_insert (fb_filters db) row).1 in
    withParts fdb db1 (t_next (fb_filters db)) row p = (db', inr f).
Proof.
  unfold CreateFilter. destruct (String.eqb_spec (trim_space (cf_Name p)) "") as [|N]; [intros [= <- <-]; left; eauto|].
  unfold withTx, createFilterTx. destruct (in32 _).
  - cbn [t_insert fst]. destruct (withParts _ _ _ _ _) as [db1 [e|f]] eqn:W; intros [= <- <-]; [left; eauto|].
    right. exists f. done.
  - intros [= <- <-]. left. eauto.
Qed.

Lemma UpdateFilter_inv now fdb db p db' r :
  UpdateFilter now fdb db p = (db', r) →
  (db' = db ∧ ∃ e, r = inl e) ∨
  ∃ f old, r = inr f ∧ trim_space (cf_Name (uf_params p)) ≠ "" ∧
    t_rows (fb_filters db) !! uf_ID p = Some old ∧ ft_UserID old = cf_UserID (uf_params p) ∧
    let row := update_row now (uf_params p) old in
    withParts fdb (clear_parts (set_filters db (t_update (uf_ID p) (λ _, row) (fb_filters db))) (uf_ID p))
      (uf_ID p) row (uf_params p) = (db', inr f).
Proof.
  unfold UpdateFilter. destruct (String.eqb_spec (trim_space (cf_Name (uf_params p))) "") as [|N]; [intros [= <- <-]; left; eauto|].
  unfold withTx, updateFilterTx. destruct (in32 _); [|intros [= <- <-]; left; eauto].
  destruct (t_rows (fb_filters db) !! uf_ID p) as [old|] eqn:L; [|intros [= <- <-]; left; eauto].
  destruct (Z.eqb_spec (ft_UserID old) (cf_UserID (uf_params p))) as [U|]; [|intros [= <- <-]; left; eauto].
  destruct (withParts _ _ _ _ _) as [db1 [e|f]] eqn:W; intros [= <- <-]; [left; eauto|].
  right. exists f, old. done.
Qed.

Lemma omap_forall {A B} (g : A → option B) (P : B → Prop) l : (∀ x y, g x = Some y → P y) → Forall P (omap g l).
Proof. intros H. apply Forall_forall. intros y (x & _ & E)%list_elem_of_omap. eauto. Qed.

Lemma rules_of id rs : Forall (λ r, (rl_FilterID r =? id) = true) (rule_row id <$> rs).
Proof. apply Forall_fmap, Forall_forall. intros r _. apply Z.eqb_refl. Qed.
Lemma scope_of id its : Forall (λ r, (si_FilterID r =? id) = true) (omap (scope_row id) its).
Proof.
  apply omap_forall. intros i y. unfold scope_row. destruct (cs_FeedID i), (cs_CategoryID i); intros [= <-]; apply Z.eqb_refl.
Qed.
Lemma actions_of id acts : Forall (λ r, (ac_FilterID r =? id) = true) (omap (action_row id) acts).
Proof. apply omap_forall. intros a y. unfold action_row. case_match; intros [= <-]. apply Z.eqb_refl. Qed.

(** What is read back right after the parts were written. *)
Lemma loaded_parts db id row p : t_wf (fb_rules db) → t_wf (fb_scope db) → t_wf (fb_actions db) →
  t_view (λ r, rl_FilterID r =? id) (fb_rules db) = ∅ → t_view (λ r, si_FilterID r =? id) (fb_scope db) = ∅ →
  t_view (λ r, ac_FilterID r =? id) (fb_actions db) = ∅ →
  loadFilterParts (add_parts db id p) (bare (id, row)) = written_filter db id row p.
Proof.
  intros W1 W2 W3 E1 E2 E3.
  unfold loadFilterParts, loadFilterScopeAndActions, bare, getFilterRules, getFilterScopeItems, getFilterActions, written_filter.
  cbn [sf_ID sf_row sf_Rules add_parts set_actions set_scope set_rules fb_rules fb_scope fb_actions fst snd].
  by rewrite !t_select_insert_all by (done || apply rules_of || apply scope_of || apply actions_of).
Qed.

Lemma view_empty_fresh {A} (ref : A → Z) (t : Table A) id :
  (∀ k a, t_rows t !! k = Some a → ref a ≠ id) → t_view (λ a, ref a =? id) t = ∅.
Proof.
  intros H. apply map_eq. intros k. rewrite lookup_empty. apply map_lookup_filter_None.
  destruct (t_rows t !! k) as [a|] eqn:E; [|by left]. right. intros b [= <-]. simpl. apply H in E. lia.
Qed.

Lemma t_insert_all_next_ge {A} (t : Table A) rows : t_next t <= t_next (t_insert_all t rows).
Proof. revert t. induction rows as [|a rows IH]; intros t; [done|]. specialize (IH (t_insert t a).1). simpl in *. lia. Qed.

Lemma t_insert_all_lookup {A} (t : Table A) rows k a :
  t_rows (t_insert_all t rows) !! k = Some a → t_rows t !! k = Some a ∨ a ∈ rows.
Proof.
  revert t. induction rows as [|b rows IH]; intros t H; [by left|].
  apply IH in H as [H|H]; [|right; by right]. cbn [t_insert fst t_rows] in H.
  apply lookup_insert_Some in H as [[_ <-]|[_ H]]; [right; left|by left].
Qed.

(** The tables of the parts, read through the setters. *)
Ltac fb_cbn := cbn [set_filters set_rules set_scope set_actions set_matches set_labels set_entry_labels clear_parts add_parts
  fb_filters fb_rules fb_scope fb_actions fb_matches fb_labels fb_entry_labels t_insert t_delete t_remove t_update
  t_rows t_next fst snd].
Ltac fb_cbn_in H := cbn [set_filters set_rules set_scope set_actions set_matches set_labels set_entry_labels clear_parts add_parts
  fb_filters fb_rules fb_scope fb_actions fb_matches fb_labels fb_entry_labels t_insert t_delete t_remove t_update
  t_rows t_next fst snd] in H.

Lemma refs_fresh db : filters_wf db → ∀ id, t_rows (fb_filters db) !! id = None →
  t_view (λ r, rl_FilterID r =? id) (fb_rules db) = ∅ ∧ t_view (λ r, si_FilterID r =? id) (fb_scope db) = ∅ ∧
  t_view (λ r, ac_FilterID r =? id) (fb_actions db) = ∅ ∧ t_view (λ r, mt_FilterID r =? id) (fb_matches db) = ∅.
Proof.
  intros W id N. split_and!; apply view_empty_fresh; intros k a H <-.
  - apply (fw_rule_ref _ W) in H. rewrite N in H. by destruct H.
  - apply (fw_scope_ref _ W) in H as [H _]. rewrite N in H. by destruct H.
  - apply (fw_action_ref _ W) in H as [H _]. rewrite N in H. by destruct H.
  - apply (fw_match_ref _ W) in H. rewrite N in H. by destruct H.
Qed.

Lemma GetFilter_row db u id f : t_rows (fb_filters db) !! id = Some f → ft_UserID f = u →
  GetFilter db u id = inr (loadFilterParts db (bare (id, f))).
Proof. unfold GetFilter. intros -> ->. by rewrite Z.eqb_refl. Qed.

Lemma create_reads now fdb db p db' f : filters_wf db → CreateFilter now fdb db p = (db', inr f) →
  f = written_filter db (t_next (fb_filters db)) (new_filter_row now p) p ∧ GetFilter db' (cf_UserID p) (sf_ID f) = inr f.
Proof.
  intros W [[_ [e H]]|(g & [= <-] & _ & H)]%CreateFilter_inv; [done|]. apply withParts_inv in H as (-> & F & _).
  destruct (refs_fresh db W _ (t_fresh _ (fw_filters _ W))) as (E1 & E2 & E3 & _).
  split.
  - rewrite F, loaded_parts; [done|..]; fb_cbn; try done; apply W.
  - rewrite F. apply GetFilter_row; [|done]. cbn [bare sf_ID loadFilterParts loadFilterScopeAndActions fst]. fb_cbn.
    by rewrite lookup_insert_eq.
Qed.

Lemma update_reads now fdb db p db' f : filters_wf db → UpdateFilter now fdb db p = (db', inr f) →
  ∃ old, t_rows (fb_filters db) !! uf_ID p = Some old ∧ ft_UserID old = cf_UserID (uf_params p) ∧
    f = written_filter db (uf_ID p) (update_row now (uf_params p) old) (uf_params p) ∧
    GetFilter db' (cf_UserID (uf_params p)) (sf_ID f) = inr f.
Proof.
  intros W [[_ [e H]]|(g & old & [= <-] & _ & L & U & H)]%UpdateFilter_inv; [done|].
  apply withParts_inv in H as (-> & F & _). exists old. split; [done|]. split; [done|]. split.
  - rewrite F, loaded_parts; [done|..]; fb_cbn; try (apply t_delete_wf; apply W); apply t_view_delete_same.
  - rewrite F. apply GetFilter_row; [|done]. cbn [bare sf_ID loadFilterParts loadFilterScopeAndActions fst]. fb_cbn.
    by rewrite lookup_alter_eq, L.
Qed.

(** ** The constraints hold after every statement *)

Lemma wf_insert_filter db row : filters_wf db → ft_Name row ≠ "" → ft_FeedScope row ∈ ["all"; "include"; "exclude"]%string →
  filters_wf (set_filters db (t_insert (fb_filters db) row).1).
Proof.
  intros W N S. assert (M : ∀ id, is_Some (t_rows (fb_filters db) !! id) →
    is_Some (t_rows (t_insert (fb_filters db) row).1 !! id)).
  { intros id I. cbn [t_insert fst t_rows]. by apply lookup_insert_is_Some'; right. }
  destruct W. constructor; fb_cbn; try assumption.
  - by apply t_insert_wf.
  - intros k f [[_ <-]|[_ H]]%lookup_insert_Some; eauto.
  - intros k r H. apply M. eauto.
  - intros k r H. destruct (fw_scope_ref0 _ _ H). split; [by apply M|done].
  - intros k r H. destruct (fw_action_ref0 _ _ H). split; [by apply M|done].
  - intros k r H. apply M. eauto.
Qed.

Lemma alter_is_Some {A} (g : A → A) id (m : gmap Z A) j : is_Some (m !! j) → is_Some (alter g id m !! j).
Proof.
  intros [a H]. destruct (decide (id = j)) as [->|N]; [rewrite lookup_alter_eq, H|rewrite lookup_alter_ne, H by done]; eauto.
Qed.

Lemma wf_update_filter db id g : filters_wf db →
  (∀ f, t_rows (fb_filters db) !! id = Some f → ft_Name (g f) ≠ "" ∧ ft_FeedScope (g f) ∈ ["all"; "include"; "exclude"]%string) →
  filters_wf (set_filters db (t_update id g (fb_filters db))).
Proof.
  intros W G. destruct W. constructor; fb_cbn; try assumption.
  - by apply t_update_wf.
  - intros k f [(-> & f' & H & ->)|[_ H]]%lookup_alter_Some; eauto.
  - intros k r H. apply alter_is_Some. eauto.
  - intros k r H. destruct (fw_scope_ref0 _ _ H). split; [by apply alter_is_Some|done].
  - intros k r H. destruct (fw_action_ref0 _ _ H). split; [by apply alter_is_Some|done].
  - intros k r H. apply alter_is_Some. eauto.
Qed.

Lemma wf_clear_parts db id : filters_wf db → filters_wf (clear_parts db id).
Proof.
  intros W. destruct W. constructor; fb_cbn; try assumption.
  - by apply t_delete_wf.
  - by apply t_delete_wf.
  - by apply t_delete_wf.
  - intros k r [H _]%map_lookup_filter_Some. eauto.
  - intros k r [H _]%map_lookup_filter_Some. eauto.
  - intros k r [H _]%map_lookup_filter_Some. eauto.
Qed.

Lemma wf_add_parts db id p : filters_wf db → is_Some (t_rows (fb_filters db) !! id) →
  Forall scope_ok (omap (scope_row id) (cf_ScopeItems p)) →
  Forall (λ a, is_action_type (ac_ActionType a) = true) (omap (action_row id) (cf_Actions p)) →
  filters_wf (add_parts db id p).
Proof.
  intros W I S T. rewrite Forall_forall in S. rewrite Forall_forall in T.
  pose proof (rules_of id (cf_Rules p)) as F1. pose proof (scope_of id (cf_ScopeItems p)) as F2.
  pose proof (actions_of id (cf_Actions p)) as F3. rewrite Forall_forall in F1. rewrite Forall_forall in F2. rewrite Forall_forall in F3.
  destruct W. constructor; fb_cbn; try assumption.
  - by apply t_insert_all_wf.
  - by apply t_insert_all_wf.
  - by apply t_insert_all_wf.
  - intros k r [H|H]%t_insert_all_lookup; [eauto|]. apply F1 in H. bool_to_prop. by rewrite H.
  - intros k r [H|H]%t_insert_all_lookup; [eauto|]. split; [|by apply S]. apply F2 in H. bool_to_prop. by rewrite H.
  - intros k r [H|H]%t_insert_all_lookup; [eauto|]. split; [|by apply T]. apply F3 in H. bool_to_prop. by rewrite H.
Qed.

(** One match row: the tables stay as declared, and a pair is recorded once. *)
Definition matches_ok (db : FilterDb) (t : Table MatchRow) : Prop :=
  t_wf t ∧ (∀ k r, t_rows t !! k = Some r → is_Some (t_rows (fb_filters db) !! mt_FilterID r)) ∧
  (∀ j k r s, t_rows t !! j = Some r → t_rows t !! k = Some s → same_match r s = true → j = k).

Definition matches_of (t : Table MatchRow) (id : Z) : gmap Z MatchRow := t_view (λ m, mt_FilterID m =? id) t.

Lemma same_match_sym a b : same_match a b = same_match b a.
Proof. unfold same_match. by rewrite (Z.eqb_sym (mt_FilterID a)), (Z.eqb_sym (mt_EntryID a)). Qed.

(** Either the pair is there already, or one row more. *)
Lemma insert_match_inv t ids m :
  (insert_match (t, ids) m = (t, ids) ∧ ∃ k r, t_rows t !! k = Some r ∧ same_match m r = true) ∨
  (insert_match (t, ids) m = ((t_insert t m).1, ids ++ [mt_FilterID m]) ∧
   ∀ k r, t_rows t !! k = Some r → same_match m r = false).
Proof.
  unfold insert_match. cbn [fst snd]. destruct (map_to_list (t_view (same_match m) t)) as [|[k r] l] eqn:E; [right|left].
  - split; [done|]. intros k r H. apply map_to_list_empty_iff in E. destruct (same_match m r) eqn:S; [|done].
    assert (t_view (same_match m) t !! k = Some r) as F by (by apply map_lookup_filter_Some).
    by rewrite E, lookup_empty in F.
  - split; [done|]. exists k, r. assert ((k, r) ∈ map_to_list (t_view (same_match m) t)) as F by (rewrite E; left).
    by apply elem_of_map_to_list, map_lookup_filter_Some in F.
Qed.

Lemma insert_match_ok db t ids m : matches_ok db t → is_Some (t_rows (fb_filters db) !! mt_FilterID m) →
  matches_ok db (insert_match (t, ids) m).1.
Proof.
  intros (W & R & U) I. destruct (insert_match_inv t ids m) as [[-> _]|[-> N]]; [done|].
  split; [by apply t_insert_wf|]. split.
  - intros k r H. cbn [t_insert fst t_rows] in H. apply lookup_insert_Some in H as [[_ <-]|[_ H]]; eauto.
  - intros j k r s Hj Hk S. cbn [t_insert fst t_rows] in Hj, Hk.
    apply lookup_insert_Some in Hj as [[<- <-]|[Nj Hj]]; apply lookup_insert_Some in Hk as [[<- <-]|[Nk Hk]]; eauto.
    + rewrite (N _ _ Hk) in S. done.
    + rewrite same_match_sym, (N _ _ Hj) in S. done.
Qed.

Ltac conjs := repeat match goal with |- _ ∧ _ => split end.

(** What the whole statement inserts: [news] are the filters of the new rows. *)
Lemma insert_matches db t ids ms : matches_ok db t →
  Forall (λ m, is_Some (t_rows (fb_filters db) !! mt_FilterID m)) ms →
  ∃ t' news, foldl insert_match (t, ids) ms = (t', ids ++ news) ∧ matches_ok db t' ∧
    (∀ id, size (matches_of t' id) = (size (matches_of t id) + length (filter (λ i, i = id) news))%nat) ∧
    Forall (λ id, is_Some (t_rows (fb_filters db) !! id)) news ∧
    (∀ m, m ∈ ms → ∃ k r, t_rows t' !! k = Some r ∧ same_match m r = true) ∧
    (∀ k r, t_rows t !! k = Some r → t_rows t' !! k = Some r) ∧
    (∀ k r, t_rows t' !! k = Some r → t_rows t !! k = Some r ∨ r ∈ ms).
Proof.
  revert t ids. induction ms as [|m ms IH]; intros t ids OK F.
  { exists t, []. rewrite app_nil_r. conjs; [done|done|intros id; simpl; lia|constructor|set_solver|done|by left]. }
  inv F. cbn [foldl]. pose proof (insert_match_ok db t ids m OK H1) as OK'. assert (W : t_wf t) by apply OK.
  destruct (insert_match_inv t ids m) as [[E (k0 & r0 & L & S)]|[E N]]; rewrite E in *; cbn [fst] in *.
  - destruct (IH t ids OK H2) as (t' & news & E' & O & C & Fn & P & K & Q).
    exists t', news. conjs; [done|done|done|done| |done|].
    + intros m' [->|H]%elem_of_cons; [|auto]. exists k0, r0. auto.
    + intros k r H. apply Q in H as [H|H]; [by left|right; by right].
  - destruct (IH _ (ids ++ [mt_FilterID m]) OK' H2) as (t' & news & E' & O & C & Fn & P & K & Q).
    exists t', (mt_FilterID m :: news). rewrite <-app_assoc in E'. conjs; [done|done| | | | |].
    + intros id. rewrite C. unfold matches_of. rewrite t_view_insert by done. rewrite filter_cons.
      destruct (Z.eqb_spec (mt_FilterID m) id) as [D|D]; [rewrite decide_True by done|rewrite decide_False by done; done].
      rewrite map_size_insert_None by (apply map_lookup_filter_None; left; by apply t_fresh). simpl. lia.
    + by constructor.
    + intros m' [->|H]%elem_of_cons; [|auto]. exists (t_next t), m. split.
      * apply K. cbn [t_insert fst t_rows]. by rewrite lookup_insert_eq.
      * unfold same_match. by rewrite !Z.eqb_refl.
    + intros k r H. apply K. cbn [t_insert fst t_rows]. rewrite lookup_insert_ne; [done|].
      intros <-. rewrite (t_fresh t W) in H. done.
    + intros k r H. apply Q in H as [H|H]; [|right; by right]. cbn [t_insert fst t_rows] in H.
      apply lookup_insert_Some in H as [[_ <-]|[_ H]]; [right; left|by left].
Qed.

(** [count_returned] is the number of occurrences. *)
Lemma count_returned_from (m : gmap Z Z) ids id :
  default 0 (foldl (λ m id, <[id := default 0 (m !! id) + 1]> m) m ids !! id)
  = default 0 (m !! id) + Z.of_nat (length (filter (λ i, i = id) ids)).
Proof.
  revert m. induction ids as [|i ids IH]; intros m; [simpl; lia|]. cbn [foldl]. rewrite IH, filter_cons.
  destruct (decide (i = id)) as [->|N]; [rewrite lookup_insert_eq|rewrite lookup_insert_ne by done]; simpl; lia.
Qed.

Lemma count_returned_spec ids id : default 0 (count_returned ids !! id) = Z.of_nat (length (filter (λ i, i = id) ids)).
Proof. unfold count_returned. rewrite count_returned_from, lookup_empty. simpl. lia. Qed.

Lemma count_returned_pos_from (m : gmap Z Z) ids id n : (∀ i k, m !! i = Some k → 0 < k) →
  foldl (λ m id, <[id := default 0 (m !! id) + 1]> m) m ids !! id = Some n → 0 < n.
Proof.
  revert m. induction ids as [|i ids IH]; intros m P H; [eauto|]. cbn [foldl] in H. eapply IH; [|exact H].
  intros j k [[_ <-]|[_ L]]%lookup_insert_Some; [|eauto]. destruct (m !! i) as [v|] eqn:E; simpl; [apply P in E|]; lia.
Qed.

Lemma count_returned_pos ids id n : count_returned ids !! id = Some n → 0 < n.
Proof. apply count_returned_pos_from. intros i k H. by rewrite lookup_empty in H. Qed.

Definition add_count (f : FilterRow) (n : Z) : FilterRow :=
  mkFilterRow (ft_UserID f) (ft_Name f) (ft_Enabled f) (ft_MatchAnyRule f) (ft_Inverse f) (ft_OrderID f) (ft_FeedScope f)
    (ft_MatchCount f + n) (ft_CreatedAt f) (ft_UpdatedAt f).

Lemma add_count_0 f : add_count f 0 = f.
Proof. destruct f. unfold add_count. simpl. by rewrite Z.add_0_r. Qed.

(** The increments touch the counters only, each filter's once. *)
Lemma increments_spec counts db : NoDup counts.*1 → Forall (λ c, 0 < c.1 ∧ 0 < c.2) counts →
  let db' := foldl (λ db c, IncrementFilterMatchCount db c.1 c.2) db counts in
  db' = set_filters db (fb_filters db') ∧ t_next (fb_filters db') = t_next (fb_filters db) ∧
  ∀ id, t_rows (fb_filters db') !! id =
    (λ f, add_count f (default 0 ((list_to_map counts : gmap Z Z) !! id))) <$> t_rows (fb_filters db) !! id.
Proof.
  revert db. induction counts as [|[i n] counts IH]; intros db N P.
  - simpl. split; [by destruct db|]. split; [done|]. intros id. rewrite lookup_empty. simpl.
    destruct (t_rows (fb_filters db) !! id); simpl; [by rewrite add_count_0|done].
  - inv P. inv N. cbn [foldl fst snd] in *. destruct H1 as [H1 H1'].
    unfold IncrementFilterMatchCount at 2 4 6 8. rewrite (proj2 (Z.leb_gt _ _) H1), (proj2 (Z.leb_gt _ _) H1'). cbn [orb].
    destruct (IH (set_filters db (t_update i (λ f, add_count f n) (fb_filters db))) H4 H2) as (E1 & E2 & E3).
    change (λ f, mkFilterRow _ _ _ _ _ _ _ (_ + n) _ _) with (λ f, add_count f n).
    split; [exact E1|]. split; [exact E2|]. intros id. rewrite E3. fb_cbn.
    destruct (decide (i = id)) as [->|D].
    + rewrite lookup_alter_eq. rewrite list_to_map_cons, lookup_insert_eq.
      rewrite not_elem_of_list_to_map_1 by done. simpl.
      destruct (t_rows (fb_filters db) !! id); [|done]. simpl. by rewrite add_count_0.
    + rewrite lookup_alter_ne by done. rewrite list_to_map_cons. by rewrite lookup_insert_ne by done.
Qed.

Lemma sum_from n (l : list (Z * Z)) : foldl (λ n c, n + c.2) n l = n + foldr (λ c n, c.2 + n) 0 l.
Proof. revert n. induction l as [|c l IH]; intros n; simpl; [lia|]. rewrite IH. lia. Qed.

Definition total (m : gmap Z Z) : Z := foldr (λ c n, c.2 + n) 0 (map_to_list m).

Lemma sum_perm (l k : list (Z * Z)) : l ≡ₚ k → foldr (λ c n, c.2 + n) 0 l = foldr (λ c n, c.2 + n) 0 k.
Proof. induction 1; simpl; lia. Qed.

Lemma total_insert m i v : total (<[i := v]> m) = total m - default 0 (m !! i) + v.
Proof.
  unfold total. destruct (m !! i) as [w|] eqn:E.
  - rewrite <-(insert_delete_eq m i v). rewrite (sum_perm _ _ (map_to_list_insert (delete i m) i v (lookup_delete_eq m i))).
    rewrite <-(sum_perm _ _ (map_to_list_delete m i w E)). simpl. lia.
  - rewrite (sum_perm _ _ (map_to_list_insert m i v E)). simpl. lia.
Qed.

Lemma total_count_from (m : gmap Z Z) ids :
  total (foldl (λ m id, <[id := default 0 (m !! id) + 1]> m) m ids) = total m + Z.of_nat (length ids).
Proof. revert m. induction ids as [|i ids IH]; intros m; simpl; [lia|]. rewrite IH, total_insert. lia. Qed.

(** The counts add up to the rows returned. *)
Lemma sum_counts ids : foldl (λ n c, n + c.2) 0 (map_to_list (count_returned ids)) = Z.of_nat (length ids).
Proof. rewrite sum_from. change (foldr _ 0 _) with (total (count_returned ids)). unfold count_returned. by rewrite total_count_from. Qed.

(** The whole of [CreateFilterMatches] when it succeeds. *)
Lemma CreateFilterMatches_inv edb db ms db' n : filters_wf db → CreateFilterMatches edb db ms = (db', inr n) →
  ∃ news, matches_ok db (fb_matches db') ∧
    db' = set_filters (set_matches db (fb_matches db')) (fb_filters db') ∧ t_wf (fb_filters db') ∧
    n = Z.of_nat (length news) ∧
    (∀ id, size (matches_of (fb_matches db') id) = (size (matches_of (fb_matches db) id) + length (filter (λ i, i = id) news))%nat) ∧
    (∀ m, m ∈ ms → ∃ k r, t_rows (fb_matches db') !! k = Some r ∧ same_match (match_row m) r = true) ∧
    (∀ k r, t_rows (fb_matches db) !! k = Some r → t_rows (fb_matches db') !! k = Some r) ∧
    ∀ id, t_rows (fb_filters db') !! id =
      (λ f, add_count f (Z.of_nat (length (filter (λ i, i = id) news)))) <$> t_rows (fb_filters db) !! id.
Proof.
  intros W H. assert (OK : matches_ok db (fb_matches db)).
  { split; [apply W|]. split; [apply W|apply W]. }
  destruct ms as [|m0 ms']; [|remember (m0 :: ms') as ms eqn:Ems].
  { injection H as <- <-. exists []. conjs; [exact OK|by destruct db|apply W|done|intros id; simpl; lia|set_solver|done|].
    intros id. simpl. destruct (t_rows (fb_filters db) !! id); simpl; [by rewrite add_count_0|done]. }
  assert (H' : (if forallb (λ m, bool_decide (is_Some (t_rows (fb_filters db) !! cm_FilterID m)) &&
                       bool_decide (is_Some (ed_entries edb !! cm_EntryID m))) ms
      then
        let '(t, ids) := foldl insert_match (fb_matches db, []) (match_row <$> ms) in
        let counts := map_to_list (count_returned ids) in
        (foldl (λ db c, IncrementFilterMatchCount db c.1 c.2) (set_matches db t) counts,
         inr (foldl (λ n c, n + c.2) 0 counts))
      else (db, inl (EWrap "create filter matches" sql_error))) = (db', inr n)) by (by rewrite Ems in *).
  clear H Ems m0 ms'. destruct (forallb _ ms) eqn:F; [|done].
  assert (Fm : Forall (λ m, is_Some (t_rows (fb_filters db) !! mt_FilterID m)) (match_row <$> ms)).
  { apply Forall_fmap, Forall_forall. intros m I. rewrite forallb_forall in F. specialize (F m).
    rewrite <-list_elem_of_In in F. apply F in I. bool_to_prop. done. }
  destruct (insert_matches db (fb_matches db) [] (match_row <$> ms) OK Fm) as (t' & news & E & O & C & Fn & P & K & _).
  rewrite E in H'. cbn [app] in H'. injection H' as Hdb Hn.
  destruct (increments_spec (map_to_list (count_returned news)) (set_matches db t')) as (E1 & E2 & E3).
  { apply NoDup_fst_map_to_list. }
  { apply Forall_forall. intros [i k] I. apply elem_of_map_to_list in I. split; simpl; [|by eapply count_returned_pos].
    assert (i ∈ news) as J.
    { pose proof (count_returned_pos _ _ _ I) as Q. pose proof (count_returned_spec news i) as S. rewrite I in S. simpl in S.
      destruct (filter (λ i0, i0 = i) news) as [|j l] eqn:Fi; [simpl in S; lia|].
      assert (j ∈ filter (λ i0, i0 = i) news) as J by (rewrite Fi; left). by apply list_elem_of_filter in J as [-> J]. }
    rewrite Forall_forall in Fn. apply Fn in J as [f J]. apply (fw_filters _ W) in J. lia. }
  rewrite Hdb in E1, E2, E3. fb_cbn_in E2. assert (EM : fb_matches db' = t') by (by rewrite E1).
  exists news. rewrite EM. conjs; [exact O|exact E1| | |exact C| |exact K|].
  - split; [rewrite E2; apply W|]. intros k a L. rewrite E3 in L. fb_cbn_in L.
    destruct (t_rows (fb_filters db) !! k) eqn:L'; [|done]. rewrite E2. by eapply (fw_filters _ W).
  - rewrite <-Hn. apply sum_counts.
  - intros m I. apply P. by apply list_elem_of_fmap_2.
  - intros id. rewrite E3. fb_cbn. rewrite list_to_map_to_list, count_returned_spec. done.
Qed.

(** ** Operations *)

Inductive filter_op :=
| OpCreateFilter (now : Z) (p : CreateFilterParams)
| OpUpdateFilter (now : Z) (p : UpdateFilterParams)
| OpDeleteFilter (userID id : Z)
| OpCreateMatches (ms : list CreateFilterMatchParams)
| OpCreateLabel (p : CreateLabelParams)
| OpUpdateLabel (p : UpdateLabelParams)
| OpDeleteLabel (userID id : Z)
| OpAssignLabel (entryID labelID : Z).

Definition run_op (fdb : FeedDb) (edb : EntryDb) (op : filter_op) (db : FilterDb) : FilterDb :=
  match op with
  | OpCreateFilter now p => fst (CreateFilter now fdb db p)
  | OpUpdateFilter now p => fst (UpdateFilter now fdb db p)
  | OpDeleteFilter u id => fst (DeleteFilter db u id)
  | OpCreateMatches ms => fst (CreateFilterMatches edb db ms)
  | OpCreateLabel p => fst (CreateLabel db p)
  | OpUpdateLabel p => fst (UpdateLabel db p)
  | OpDeleteLabel u id => fst (DeleteLabel db u id)
  | OpAssignLabel e l => fst (AssignEntryLabel edb db e l)
  end.

(** The user an operation acts for; the poll acts for none. *)
Definition op_user (op : filter_op) : option Z :=
  match op with
  | OpCreateFilter _ p => Some (cf_UserID p)
  | OpUpdateFilter _ p => Some (cf_UserID (uf_params p))
  | OpDeleteFilter u _ | OpDeleteLabel u _ => Some u
  | OpCreateLabel p => Some (cl_UserID p)
  | OpUpdateLabel p => Some (ul_UserID p)
  | OpCreateMatches _ | OpAssignLabel _ _ => None
  end.

Lemma caption_free db id u c : caption_taken db id u c = false →
  ∀ k l, t_rows (fb_labels db) !! k = Some l → lb_UserID l = u → lb_Caption l = c → k = id.
Proof.
  intros F k l L U C. unfold caption_taken in F. pose proof (existsb_all_false _ _ F (k, l)) as E. simpl in E.
  destruct (Z.eqb_spec k id); [done|]. assert (I : In (k, l) (map_to_list (t_view (λ l, (lb_UserID l =? u) && String.eqb (lb_Caption l) c) (fb_labels db)))); [|by apply E in I]. apply list_elem_of_In, elem_of_map_to_list, map_lookup_filter_Some.
  split; [done|]. simpl. subst. by rewrite Z.eqb_refl, String.eqb_refl.
Qed.

Lemma wf_create_filter now fdb db p : filters_wf db → filters_wf (CreateFilter now fdb db p).1.
Proof.
  intros W. destruct (CreateFilter now fdb db p) as [db' r] eqn:E. cbn [fst].
  apply CreateFilter_inv in E as [[-> _]|(f & _ & N & H)]; [done|]. apply withParts_inv in H as (-> & _ & S & T).
  apply wf_add_parts; [|fb_cbn; by rewrite lookup_insert_eq|done|done].
  apply wf_insert_filter; [done|done|apply normalizeFeedScope_ok].
Qed.

Lemma wf_update_filter_op now fdb db p : filters_wf db → filters_wf (UpdateFilter now fdb db p).1.
Proof.
  intros W. destruct (UpdateFilter now fdb db p) as [db' r] eqn:E. cbn [fst].
  apply UpdateFilter_inv in E as [[-> _]|(f & old & _ & N & L & U & H)]; [done|]. apply withParts_inv in H as (-> & _ & S & T).
  apply wf_add_parts; [|fb_cbn; by rewrite lookup_alter_eq, L|done|done].
  apply wf_clear_parts, wf_update_filter; [done|]. intros g _. split; [done|apply normalizeFeedScope_ok].
Qed.

Lemma wf_delete_filter db u id : filters_wf db → filters_wf (DeleteFilter db u id).1.
Proof.
  intros W. unfold DeleteFilter. destruct (t_rows (fb_filters db) !! id) as [f|] eqn:L; [|done].
  destruct (_ =? _); [|done]. cbn [fst]. destruct W. constructor; fb_cbn; try assumption.
  - by apply t_remove_wf.
  - by apply t_delete_wf.
  - by apply t_delete_wf.
  - by apply t_delete_wf.
  - by apply t_delete_wf.
  - intros k g [_ H]%lookup_delete_Some. eauto.
  - intros k r [H N]%map_lookup_filter_Some. simpl in N. rewrite lookup_delete_ne by (bool_to_prop; done). eauto.
  - intros k r [H N]%map_lookup_filter_Some. simpl in N. rewrite lookup_delete_ne by (bool_to_prop; done). eauto.
  - intros k r [H N]%map_lookup_filter_Some. simpl in N. rewrite lookup_delete_ne by (bool_to_prop; done). eauto.
  - intros k r [H N]%map_lookup_filter_Some. simpl in N. rewrite lookup_delete_ne by (bool_to_prop; done). eauto.
  - intros j k r s [H1 _]%map_lookup_filter_Some [H2 _]%map_lookup_filter_Some. eauto.
Qed.

Lemma wf_matches edb db ms : filters_wf db → filters_wf (CreateFilterMatches edb db ms).1.
Proof.
  intros W. destruct (CreateFilterMatches edb db ms) as [db' [e|n]] eqn:E; cbn [fst].
  { unfold CreateFilterMatches in E. destruct ms; [done|]. destruct (forallb _ _); [|by injection E as <-].
    destruct (foldl insert_match _ _). done. }
  destruct (CreateFilterMatches_inv _ _ _ _ _ W E) as (news & (M1 & M2 & M3) & -> & F & _ & _ & _ & _ & R).
  assert (I : ∀ id, is_Some (t_rows (fb_filters db) !! id) → is_Some (t_rows (fb_filters db') !! id)).
  { intros id [f L]. rewrite R, L. eauto. }
  destruct W. constructor; fb_cbn; try assumption.
  - intros k f L. rewrite R in L. destruct (t_rows (fb_filters db) !! k) eqn:L'; [|done]. injection L as <-. simpl. eauto.
  - intros k r H. apply I. eauto.
  - intros k r H. destruct (fw_scope_ref0 _ _ H). auto.
  - intros k r H. destruct (fw_action_ref0 _ _ H). auto.
  - intros k r H. apply I. eauto.
Qed.

Lemma wf_labels db op : filters_wf db →
  match op with OpCreateLabel _ | OpUpdateLabel _ | OpDeleteLabel _ _ => True | _ => False end →
  ∀ fdb edb, filters_wf (run_op fdb edb op db).
Proof.
  intros W Hop fdb edb. destruct op as [| | | |p|p|u id|]; try done; cbn [run_op].
  - unfold CreateLabel. destruct (String.eqb_spec (trim_space (cl_Caption p)) "") as [|N]; [done|].
    destruct (caption_taken _ _ _ _) eqn:C; [done|]. cbn [t_insert fst]. pose proof (caption_free _ _ _ _ C) as F.
    assert (P : ∀ k l, t_rows (fb_labels db) !! k = Some l → k ≠ 0) by (intros k l H ->; apply (fw_labels _ W) in H; lia).
    destruct W. constructor; fb_cbn; try assumption.
    + apply (t_insert_wf (fb_labels db)). done.
    + intros k l [[_ <-]|[_ H]]%lookup_insert_Some; eauto.
    + intros j k l m [[<- <-]|[Nj Hj]]%lookup_insert_Some [[<- <-]|[Nk Hk]]%lookup_insert_Some U K; simpl in U, K; eauto.
      * exfalso. eapply P; [exact Hk|]. eapply F; eauto.
      * exfalso. eapply P; [exact Hj|]. eapply F; eauto.
    + intros e l H. apply lookup_insert_is_Some'. right. eauto.
  - unfold UpdateLabel, GetLabel. destruct (String.eqb_spec (trim_space (ul_Caption p)) "") as [|N]; [done|].
    destruct (t_rows (fb_labels db) !! ul_ID p) as [o|] eqn:L; [|done]. destruct (_ =? _); [|done].
    destruct (caption_taken _ _ _ _) eqn:C; [done|]. cbn [fst]. pose proof (caption_free _ _ _ _ C) as F.
    destruct W. constructor; fb_cbn; try assumption.
    + by apply t_update_wf.
    + intros k l [(_ & o' & _ & ->)|[_ H]]%lookup_alter_Some; [done|eauto].
    + intros j k l m [(Ej & o' & _ & ->)|[Nj Hj]]%lookup_alter_Some [(Ek & o'' & _ & ->)|[Nk Hk]]%lookup_alter_Some U K;
        simpl in U, K; [congruence| | |eauto].
      * rewrite <-Ej. symmetry. eapply F; eauto.
      * rewrite <-Ek. eapply F; eauto.
    + intros e l H. apply alter_is_Some. eauto.
  - unfold DeleteLabel, GetLabel. destruct (t_rows (fb_labels db) !! id) as [o|] eqn:L; [|done]. destruct (_ =? _); [|done].
    cbn [fst]. destruct W. constructor; fb_cbn; try assumption.
    + by apply t_remove_wf.
    + intros k l [_ H]%lookup_delete_Some. eauto.
    + intros j k l m [_ Hj]%lookup_delete_Some [_ Hk]%lookup_delete_Some. eauto.
    + intros e l [N H]%elem_of_filter. simpl in N. rewrite lookup_delete_ne by done. eauto.
Qed.

Lemma wf_run_op fdb edb op db : filters_wf db → filters_wf (run_op fdb edb op db).
Proof.
  intros W. destruct op; try (by apply wf_labels); cbn [run_op].
  - by apply wf_create_filter.
  - by apply wf_update_filter_op.
  - by apply wf_delete_filter.
  - by apply wf_matches.
  - unfold AssignEntryLabel. destruct (ed_entries edb !! entryID); [|done].
    destruct (t_rows (fb_labels db) !! labelID) eqn:L; [|done]. cbn [fst].
    destruct W. constructor; fb_cbn; try assumption.
    intros x k [[= -> ->]%elem_of_singleton|H]%elem_of_union; eauto.
Qed.

Lemma empty_filters_wf : filters_wf empty_filters.
Proof.
  constructor; try apply t_empty_wf; cbn [empty_filters fb_filters fb_rules fb_scope fb_actions fb_matches fb_labels
    fb_entry_labels t_empty t_rows]; intros *; rewrite ?lookup_empty; done.
Qed.

(** C39: After any sequence of statements of the filter and label store, from empty tables, the
    schema's promises hold: every rule, scope item, action and match belongs to a filter that
    exists, scope items name one target, an entry is matched by a filter once, names and captions
    are not empty, captions are unique for a user, and every number is behind its sequence. *)
Theorem filter_tables_well_formed (ops : list (FeedDb * EntryDb * filter_op)) :
  filters_wf (foldl (λ db o, run_op o.1.1 o.1.2 o.2 db) empty_filters ops).
Proof.
  generalize empty_filters, empty_filters_wf. induction ops as [|o ops IH]; intros db W; [done|].
  cbn [foldl]. by apply IH, wf_run_op.
Qed.

(** ** What one user sees *)

(** The rows a user reads are the same. *)
Record same_for (v : Z) (db db' : FilterDb) : Prop := {
  sm_filters : t_view (λ f, ft_UserID f =? v) (fb_filters db') = t_view (λ f, ft_UserID f =? v) (fb_filters db);
  sm_parts : ∀ id f, t_rows (fb_filters db) !! id = Some f → ft_UserID f = v →
    t_view (λ r, rl_FilterID r =? id) (fb_rules db') = t_view (λ r, rl_FilterID r =? id) (fb_rules db) ∧
    t_view (λ r, si_FilterID r =? id) (fb_scope db') = t_view (λ r, si_FilterID r =? id) (fb_scope db) ∧
    t_view (λ r, ac_FilterID r =? id) (fb_actions db') = t_view (λ r, ac_FilterID r =? id) (fb_actions db) ∧
    t_view (λ r, mt_FilterID r =? id) (fb_matches db') = t_view (λ r, mt_FilterID r =? id) (fb_matches db);
  sm_labels : t_view (λ l, lb_UserID l =? v) (fb_labels db') = t_view (λ l, lb_UserID l =? v) (fb_labels db);
}.

Lemma same_for_refl v db : same_for v db db.
Proof. by constructor. Qed.

Lemma view_lookup {A} (p : A → bool) (t t' : Table A) k a : t_view p t' = t_view p t → p a = true →
  t_rows t' !! k = Some a ↔ t_rows t !! k = Some a.
Proof.
  intros E P. assert (∀ t0, t_rows t0 !! k = Some a ↔ t_view p t0 !! k = Some a) as V.
  { intros t0. unfold t_view. rewrite map_lookup_filter_Some. simpl. naive_solver. }
  by rewrite !V, E.
Qed.

Lemma owner_row {A} (owner : A → Z) v (t t' : Table A) k :
  t_view (λ a, owner a =? v) t' = t_view (λ a, owner a =? v) t →
  (match t_rows t' !! k with Some a => if owner a =? v then Some a else None | None => None end)
  = (match t_rows t !! k with Some a => if owner a =? v then Some a else None | None => None end).
Proof.
  intros E. apply option_eq. intros a.
  assert (∀ t0, (match t_rows t0 !! k with Some a => if owner a =? v then Some a else None | None => None end) = Some a
    ↔ t_rows t0 !! k = Some a ∧ (owner a =? v) = true) as V.
  { intros t0. destruct (t_rows t0 !! k) as [b|]; [|naive_solver]. destruct (owner b =? v) eqn:O; split; [by intros [= ->]|by intros [[= ->] _]|done|intros [[= ->] H]; congruence]. }
  rewrite !V. split; intros [L P]; (split; [|done]);
    pose proof (view_lookup (λ a, owner a =? v) t t' k a E P); tauto.
Qed.

Lemma load_same db db' id row :
  t_view (λ r, rl_FilterID r =? id) (fb_rules db') = t_view (λ r, rl_FilterID r =? id) (fb_rules db) →
  t_view (λ r, si_FilterID r =? id) (fb_scope db') = t_view (λ r, si_FilterID r =? id) (fb_scope db) →
  t_view (λ r, ac_FilterID r =? id) (fb_actions db') = t_view (λ r, ac_FilterID r =? id) (fb_actions db) →
  loadFilterParts db' (bare (id, row)) = loadFilterParts db (bare (id, row)).
Proof.
  intros E1 E2 E3. unfold loadFilterParts, loadFilterScopeAndActions, bare, getFilterRules, getFilterScopeItems, getFilterActions.
  cbn [sf_ID sf_row sf_Rules fst snd]. f_equal; by apply t_select_ext.
Qed.

Lemma GetFilter_same v db db' id : same_for v db db' → GetFilter db' v id = GetFilter db v id.
Proof.
  intros S. pose proof (owner_row ft_UserID v _ _ id (sm_filters _ _ _ S)) as E. unfold GetFilter.
  destruct (t_rows (fb_filters db) !! id) as [f|] eqn:L.
  - destruct (Z.eqb_spec (ft_UserID f) v) as [U|].
    + destruct (t_rows (fb_filters db') !! id) as [g|]; [|done]. destruct (_ =? v); [|done]. injection E as ->.
      destruct (sm_parts _ _ _ S id f L U) as (E1 & E2 & E3 & _). f_equal. by apply load_same.
    + destruct (t_rows (fb_filters db') !! id) as [g|]; [|done]. by destruct (_ =? v).
  - destruct (t_rows (fb_filters db') !! id) as [g|]; [|done]. by destruct (_ =? v).
Qed.

Lemma ListFilters_same v db db' l o : same_for v db db' → ListFilters db' v l o = ListFilters db v l o.
Proof. intros S. unfold ListFilters. by rewrite (t_select_ext _ _ _ _ (sm_filters _ _ _ S)). Qed.

(** ** The filters a poll loads

    The limit is a budget of rows of the join: a filter takes as many as it has rules, one
    when it has none; the filter the budget ends in keeps its first rules, the rest is gone. *)
Fixpoint loaded (db : FilterDb) (n : nat) (fs : list (Z * FilterRow)) : list StoredFilter :=
  match n, fs with
  | O, _ | _, [] => []
  | S _, f :: fs => mkStored f.1 f.2 (take n (getFilterRules db f.1)) [] [] ::
                    loaded db (n - Nat.max 1 (length (getFilterRules db f.1))) fs
  end.

Lemma add_rule_at_last out f id r : Forall (λ g, sf_ID g ≠ id) out → sf_ID f = id →
  add_rule_at id r (out ++ [f]) = out ++ [add_rule r f].
Proof.
  intros F E. induction F as [|g out N F IH]; simpl; [by rewrite E, Z.eqb_refl|].
  destruct (Z.eqb_spec (sf_ID g) id); [done|]. by rewrite IH.
Qed.

Lemma group_rules out f got rules : Forall (λ g, sf_ID g ≠ f.1) out →
  foldl group_row (out ++ [mkStored f.1 f.2 got [] []]) ((λ r, (f, Some r)) <$> rules)
  = out ++ [mkStored f.1 f.2 (got ++ rules) [] []].
Proof.
  intros N. revert got. induction rules as [|r rules IH]; intros got; [by rewrite app_nil_r|].
  cbn [fmap list_fmap foldl]. unfold group_row at 2. cbn [fst snd].
  assert (existsb (λ g, sf_ID g =? f.1) (out ++ [mkStored f.1 f.2 got [] []]) = true) as ->.
  { rewrite existsb_app. simpl. by rewrite Z.eqb_refl, orb_true_r. }
  rewrite add_rule_at_last by done. unfold add_rule. cbn [sf_ID sf_row sf_Rules sf_ScopeItems sf_Actions option_list].
  rewrite IH, <-app_assoc. done.
Qed.

Lemma group_block db out f n : Forall (λ g, sf_ID g ≠ f.1) out →
  foldl group_row out (take (S n) (joined db f)) = out ++ [mkStored f.1 f.2 (take (S n) (getFilterRules db f.1)) [] []].
Proof.
  intros N. assert (X : existsb (λ g, sf_ID g =? f.1) out = false).
  { apply existsb_none. intros g I. rewrite Forall_forall in N. apply list_elem_of_In, N in I. by apply Z.eqb_neq. }
  unfold joined. destruct (getFilterRules db f.1) as [|r rules].
  - simpl. unfold group_row. cbn [fst snd]. rewrite X, add_rule_at_last by done. unfold add_rule, bare. simpl.
    by rewrite take_nil.
  - cbn [fmap list_fmap take foldl]. unfold group_row at 2. cbn [fst snd]. rewrite X, add_rule_at_last by done.
    unfold add_rule, bare. cbn [sf_ID sf_row sf_Rules sf_ScopeItems sf_Actions option_list app].
    change (firstn n (list_fmap _ _ ?g ?l)) with (take n (g <$> l)). rewrite <-fmap_take, group_rules by done. done.
Qed.

Lemma joined_length db f : length (joined db f) = Nat.max 1 (length (getFilterRules db f.1)).
Proof. unfold joined. destruct (getFilterRules db f.1); [done|]. rewrite length_fmap. simpl. lia. Qed.

Lemma group_loaded db n out fs : NoDup fs.*1 → Forall (λ f, Forall (λ g, sf_ID g ≠ f.1) out) fs →
  foldl group_row out (take n (fs ≫= joined db)) = out ++ loaded db n fs.
Proof.
  revert n out. induction fs as [|f fs IH]; intros n out ND F.
  { simpl. rewrite take_nil. destruct n; by rewrite app_nil_r. }
  destruct n as [|n]; [by rewrite app_nil_r|]. inv F. cbn [fmap list_fmap] in ND. apply NoDup_cons in ND as [Nf ND].
  change ((f :: fs) ≫= joined db) with (joined db f ++ (fs ≫= joined db)). cbn [loaded].
  rewrite take_app, joined_length, foldl_app, group_block by done. rewrite IH; [by rewrite <-app_assoc|done|].
  apply Forall_forall. intros h I. apply Forall_app. split; [by rewrite Forall_forall in H2; apply H2|].
  constructor; [|done]. simpl. intros E. apply Nf. rewrite E. by apply list_elem_of_fmap_2.
Qed.

Lemma enabled_loaded db u limit : ListEnabledFilters db u limit =
  loadFilterScopeAndActions db <$> loaded db (Z.to_nat (if limit <=? 0 then 1000 else limit)) (enabled_rows db u).
Proof.
  unfold ListEnabledFilters. f_equal. rewrite group_loaded; [done|apply t_select_NoDup|].
  apply Forall_forall. intros f _. constructor.
Qed.

(** Rows a budget has to cover. *)
Definition join_size (db : FilterDb) (fs : list (Z * FilterRow)) : nat := length (fs ≫= joined db).

Lemma loaded_enough db n fs : (join_size db fs ≤ n)%nat →
  loaded db n fs = (λ f, mkStored f.1 f.2 (getFilterRules db f.1) [] []) <$> fs.
Proof.
  unfold join_size. revert n. induction fs as [|f fs IH]; intros n H; [by destruct n|].
  change ((f :: fs) ≫= joined db) with (joined db f ++ (fs ≫= joined db)) in H.
  rewrite length_app, joined_length in H. destruct n as [|n]; [lia|]. cbn [loaded fmap list_fmap].
  rewrite take_ge by lia. f_equal. apply IH. lia.
Qed.

Lemma loaded_split db n pre f post : (join_size db pre < n)%nat → (n ≤ join_size db pre + length (getFilterRules db f.1))%nat →
  loaded db n (pre ++ f :: post) = ((λ f, mkStored f.1 f.2 (getFilterRules db f.1) [] []) <$> pre) ++
    [mkStored f.1 f.2 (take (n - join_size db pre) (getFilterRules db f.1)) [] []].
Proof.
  unfold join_size. revert n. induction pre as [|g pre IH]; intros n H1 H2.
  - simpl in *. destruct n as [|n]; [lia|]. cbn [app loaded]. replace (S n - _)%nat with 0%nat by lia. by destruct post.
  - change ((g :: pre) ≫= joined db) with (joined db g ++ (pre ≫= joined db)) in *. rewrite length_app, joined_length in *.
    destruct n as [|n]; [lia|]. cbn [app loaded fmap list_fmap]. rewrite take_ge by lia. f_equal.
    rewrite IH by lia. do 4 f_equal. lia.
Qed.

(** The filters loaded for a poll: when the rows of the join of the user's enabled filters with
    their rules fit the limit (1000 from the refresher), they are exactly those filters, in order,
    each as [GetFilter] reads it; but the limit counts rules, not filters, so that once a filter
    uses it up, that filter is loaded without its last rules and the filters after it not at all. *)
Lemma enabled_filters_loaded (db : FilterDb) (u limit : Z) : 0 < limit →
  ((join_size db (enabled_rows db u) ≤ Z.to_nat limit)%nat →
   ListEnabledFilters db u limit = (λ f, loadFilterParts db (bare f)) <$> enabled_rows db u) ∧
  (∀ pre f post, enabled_rows db u = pre ++ f :: post → (join_size db pre < Z.to_nat limit)%nat →
   (Z.to_nat limit ≤ join_size db pre + length (getFilterRules db f.1))%nat →
   ListEnabledFilters db u limit = ((λ f, loadFilterParts db (bare f)) <$> pre) ++
     [loadFilterScopeAndActions db
        (mkStored f.1 f.2 (take (Z.to_nat limit - join_size db pre) (getFilterRules db f.1)) [] [])]).
Proof.
  intros L. rewrite enabled_loaded. rewrite (proj2 (Z.leb_gt _ _) L). split.
  - intros H. rewrite loaded_enough by done. rewrite <-list_fmap_compose. done.
  - intros pre f post -> H1 H2. rewrite loaded_split by done. rewrite fmap_app, <-list_fmap_compose. done.
Qed.

Lemma enabled_rows_same v db db' : same_for v db db' → enabled_rows db' v = enabled_rows db v.
Proof.
  intros S. unfold enabled_rows. apply t_select_ext.
  assert (∀ t, t_view (λ r, (ft_UserID r =? v) && ft_Enabled r) t
               = filter (λ kv, ft_Enabled kv.2 = true) (t_view (λ r, ft_UserID r =? v) t)) as V.
  { intros t. unfold t_view. apply map_eq. intros k. apply option_eq. intros a. rewrite !map_lookup_filter_Some. simpl.
    rewrite andb_true_iff. tauto. }
  by rewrite !V, (sm_filters _ _ _ S).
Qed.

Lemma loaded_same db db' n fs : (∀ f, f ∈ fs → getFilterRules db' f.1 = getFilterRules db f.1) → loaded db' n fs = loaded db n fs.
Proof.
  revert n. induction fs as [|f fs IH]; intros n H; [by destruct n|]. destruct n as [|n]; [done|]. cbn [loaded].
  rewrite (H f) by left. rewrite IH; [done|]. intros g I. apply H. by right.
Qed.

Lemma loaded_id db n fs g : g ∈ loaded db n fs → ∃ f, f ∈ fs ∧ sf_ID g = f.1.
Proof.
  revert n. induction fs as [|f fs IH]; intros n H; destruct n as [|n]; cbn [loaded] in H; try by apply elem_of_nil in H.
  apply elem_of_cons in H as [->|H]; [exists f; split; [left|done]|]. destruct (IH _ H) as (h & I & E). exists h. split; [by right|done].
Qed.

Lemma enabled_owned db v f : f ∈ enabled_rows db v → t_rows (fb_filters db) !! f.1 = Some f.2 ∧ ft_UserID f.2 = v.
Proof. destruct f as [i f]. intros [L P]%elem_of_t_select. simpl. bool_to_prop. done. Qed.

Lemma ListEnabled_same v db db' l : same_for v db db' → ListEnabledFilters db' v l = ListEnabledFilters db v l.
Proof.
  intros S. rewrite !enabled_loaded, (enabled_rows_same _ _ _ S).
  assert (P : ∀ f, f ∈ enabled_rows db v → _) by (intros f I; apply enabled_owned in I as [L U]; exact (sm_parts _ _ _ S _ _ L U)).
  rewrite (loaded_same db db') by (intros f I; destruct (P f I) as (E & _); by apply t_select_ext).
  apply list_fmap_ext. intros i g I. apply list_elem_of_lookup_2, loaded_id in I as (f & I & E).
  unfold loadFilterScopeAndActions. rewrite E. destruct (P f I) as (_ & E2 & E3 & _).
  f_equal; by apply t_select_ext.
Qed.

Lemma ListMatches_same v db db' edb id l o : same_for v db db' →
  (∃ f, t_rows (fb_filters db) !! id = Some f ∧ ft_UserID f = v) → ListFilterMatches edb db' id l o = ListFilterMatches edb db id l o.
Proof.
  intros S (f & L & U). destruct (sm_parts _ _ _ S _ _ L U) as (_ & _ & _ & E). unfold ListFilterMatches.
  rewrite (t_select_ext _ _ _ _ E). f_equal.
  assert (t_rows (fb_filters db') !! id = Some f) as ->; [|by rewrite L].
  apply (view_lookup (λ f, ft_UserID f =? v) (fb_filters db)); [apply S|simpl; lia|done].
Qed.

Lemma GetLabel_same v db db' id : same_for v db db' → GetLabel db' v id = GetLabel db v id.
Proof.
  intros S. pose proof (owner_row lb_UserID v _ _ id (sm_labels _ _ _ S)) as E. unfold GetLabel.
  destruct (t_rows (fb_labels db) !! id) as [a|], (t_rows (fb_labels db') !! id) as [b|]; repeat case_match; congruence.
Qed.

(** ** What an operation leaves alone *)

Lemma view_insert_out {A} (p : A → bool) (t : Table A) a : t_wf t → p a = false → t_view p (t_insert t a).1 = t_view p t.
Proof. intros W E. by rewrite t_view_insert, E. Qed.

(** The parts added to one filter are not of another. *)
Lemma parts_out db id p j : filters_wf db → j ≠ id →
  t_view (λ r, rl_FilterID r =? j) (fb_rules (add_parts db id p)) = t_view (λ r, rl_FilterID r =? j) (fb_rules db) ∧
  t_view (λ r, si_FilterID r =? j) (fb_scope (add_parts db id p)) = t_view (λ r, si_FilterID r =? j) (fb_scope db) ∧
  t_view (λ r, ac_FilterID r =? j) (fb_actions (add_parts db id p)) = t_view (λ r, ac_FilterID r =? j) (fb_actions db).
Proof.
  intros W N. fb_cbn. conjs; (apply t_view_insert_all_out; [apply W|]).
  - eapply Forall_impl; [apply rules_of|]. intros r E. simpl in *. lia.
  - eapply Forall_impl; [apply scope_of|]. intros r E. simpl in *. lia.
  - eapply Forall_impl; [apply actions_of|]. intros r E. simpl in *. lia.
Qed.

Lemma clear_out db id j : j ≠ id →
  t_view (λ r, rl_FilterID r =? j) (fb_rules (clear_parts db id)) = t_view (λ r, rl_FilterID r =? j) (fb_rules db) ∧
  t_view (λ r, si_FilterID r =? j) (fb_scope (clear_parts db id)) = t_view (λ r, si_FilterID r =? j) (fb_scope db) ∧
  t_view (λ r, ac_FilterID r =? j) (fb_actions (clear_parts db id)) = t_view (λ r, ac_FilterID r =? j) (fb_actions db).
Proof. intros N. unfold clear_parts. cbn [set_rules set_scope set_actions fb_rules fb_scope fb_actions]. conjs; apply t_view_delete_out; intros r E; simpl in *; lia. Qed.

Lemma create_same v now fdb db p : filters_wf db → cf_UserID p ≠ v → same_for v db (CreateFilter now fdb db p).1.
Proof.
  intros W N. destruct (CreateFilter now fdb db p) as [db' r] eqn:E. cbn [fst].
  apply CreateFilter_inv in E as [[-> _]|(f & _ & Nm & H)]; [apply same_for_refl|].
  apply withParts_inv in H as (-> & _). pose proof (wf_insert_filter db (new_filter_row now p) W Nm (normalizeFeedScope_ok _)) as W'.
  constructor.
  - cbn [add_parts set_rules set_scope set_actions set_filters fb_filters].
    apply view_insert_out; [apply W|]. simpl. lia.
  - intros id g L U. destruct (parts_out _ (t_next (fb_filters db)) p id W') as (E1 & E2 & E3).
    { intros ->. by rewrite (t_fresh _ (fw_filters _ W)) in L. }
    rewrite E1, E2, E3. done.
  - done.
Qed.

Lemma update_same v now fdb db p : filters_wf db → cf_UserID (uf_params p) ≠ v → same_for v db (UpdateFilter now fdb db p).1.
Proof.
  intros W N. destruct (UpdateFilter now fdb db p) as [db' r] eqn:E. cbn [fst].
  apply UpdateFilter_inv in E as [[-> _]|(f & old & _ & Nm & L & U & H)]; [apply same_for_refl|].
  apply withParts_inv in H as (-> & _). set (db1 := set_filters db _).
  assert (W1 : filters_wf db1) by (apply wf_update_filter; [done|]; intros g _; split; [done|apply normalizeFeedScope_ok]).
  pose proof (wf_clear_parts db1 (uf_ID p) W1) as W2.
  constructor.
  - cbn [add_parts clear_parts set_rules set_scope set_actions set_filters fb_filters db1].
    apply t_view_update_out. intros a La. rewrite L in La. injection La as <-. simpl. split; lia.
  - intros id g Lg Ug. assert (id ≠ uf_ID p) as D by (intros ->; congruence).
    destruct (parts_out _ (uf_ID p) (uf_params p) id W2 D) as (-> & -> & ->).
    destruct (clear_out db1 (uf_ID p) id D) as (-> & -> & ->). done.
  - done.
Qed.

Lemma delete_same v db u id : u ≠ v → same_for v db (DeleteFilter db u id).1.
Proof.
  intros N. unfold DeleteFilter. destruct (t_rows (fb_filters db) !! id) as [f|] eqn:L; [|apply same_for_refl].
  destruct (Z.eqb_spec (ft_UserID f) u) as [U|]; [|apply same_for_refl]. cbn [fst].
  constructor.
  - cbn [clear_parts set_matches set_rules set_scope set_actions set_filters fb_filters].
    apply t_view_remove_out. intros a La. rewrite L in La. injection La as <-. simpl. lia.
  - intros j g Lg Ug. assert (j ≠ id) as D by (intros ->; congruence).
    destruct (clear_out (set_filters db (t_remove id (fb_filters db))) id j D) as (E1 & E2 & E3).
    cbn [set_matches fb_rules fb_scope fb_actions fb_matches]. rewrite E1, E2, E3. conjs; try done.
    apply t_view_delete_out. intros m E. simpl in *. lia.
  - done.
Qed.

Lemma labels_same v db db' : fb_filters db' = fb_filters db → fb_rules db' = fb_rules db → fb_scope db' = fb_scope db →
  fb_actions db' = fb_actions db → fb_matches db' = fb_matches db →
  t_view (λ l, lb_UserID l =? v) (fb_labels db') = t_view (λ l, lb_UserID l =? v) (fb_labels db) → same_for v db db'.
Proof. intros E1 E2 E3 E4 E5 E6. constructor; [by rewrite E1|intros; by rewrite E2, E3, E4, E5|done]. Qed.

Lemma run_op_same v fdb edb op db u : filters_wf db → op_user op = Some u → u ≠ v → same_for v db (run_op fdb edb op db).
Proof.
  intros W [= U] N. destruct op as [now p|now p|i id| |p|p|i id|]; cbn [op_user] in U; try done; injection U as U; subst u; cbn [run_op].
  - by apply create_same.
  - by apply update_same.
  - by apply delete_same.
  - unfold CreateLabel. repeat (case_match; [apply same_for_refl|]). cbn [t_insert fst].
    apply labels_same; try done. cbn [set_labels fb_labels]. apply (view_insert_out _ (fb_labels db)); [apply W|simpl; lia].
  - unfold UpdateLabel, GetLabel. case_match; [apply same_for_refl|].
    destruct (t_rows (fb_labels db) !! ul_ID p) as [l|] eqn:L; [|apply same_for_refl].
    destruct (Z.eqb_spec (lb_UserID l) (ul_UserID p)) as [O|]; [|apply same_for_refl].
    destruct (caption_taken _ _ _ _); [apply same_for_refl|]. cbn [fst].
    apply labels_same; try done. cbn [set_labels fb_labels]. apply t_view_update_out. intros a La. rewrite L in La. injection La as <-. simpl. lia.
  - unfold DeleteLabel, GetLabel. destruct (t_rows (fb_labels db) !! id) as [l|] eqn:L; [|apply same_for_refl].
    destruct (Z.eqb_spec (lb_UserID l) i) as [O|]; [|apply same_for_refl]. cbn [fst].
    apply labels_same; try done. cbn [set_labels set_entry_labels fb_labels]. apply t_view_remove_out.
    intros a La. rewrite L in La. injection La as <-. simpl. lia.
Qed.

(** * Properties *)

(** Tenants of the filter and label store are isolated: whatever one user does to filters and
    labels, every other user reads exactly what was there before: the lists, each filter with its
    parts, the filters loaded for that user's polls, their matches and the labels. *)
Lemma filter_store_isolated (fdb : FeedDb) (edb : EntryDb) (op : filter_op) (db : FilterDb) (u v : Z) :
  filters_wf db → op_user op = Some u → u ≠ v →
  let db' := run_op fdb edb op db in
  (∀ limit offset, ListFilters db' v limit offset = ListFilters db v limit offset) ∧
  (∀ id, GetFilter db' v id = GetFilter db v id) ∧
  (∀ limit, ListEnabledFilters db' v limit = ListEnabledFilters db v limit) ∧
  (∀ id limit offset, (∃ f, t_rows (fb_filters db) !! id = Some f ∧ ft_UserID f = v) →
    ListFilterMatches edb db' id limit offset = ListFilterMatches edb db id limit offset) ∧
  (∀ id, GetLabel db' v id = GetLabel db v id) ∧
  (∀ collate `{!RelDecision collate} limit offset, ListLabels collate db' v limit offset = ListLabels collate db v limit offset).
Proof.
  intros W U N db'. pose proof (run_op_same v fdb edb op db u W U N) as S. conjs; intros.
  - by apply ListFilters_same.
  - by apply GetFilter_same.
  - by apply ListEnabled_same.
  - by eapply ListMatches_same.
  - by apply GetLabel_same.
  - unfold ListLabels. by rewrite (t_select_ext _ _ _ _ (sm_labels _ _ _ S)).
Qed.

(** A filter that was written is read as it was written: after a successful creation or update
    the answer and every later read show the trimmed name, the normalised scope, the rules and
    actions of the request with their operators and types normalised, in the order of their
    priorities and then of the request, nothing of the parts that were there before, and a
    creation or update that fails leaves the tables as they were. *)
Lemma filter_write_read (now : Z) (fdb : FeedDb) (db : FilterDb) : filters_wf db →
  (∀ p db' f, CreateFilter now fdb db p = (db', inr f) →
     f = written_filter db (t_next (fb_filters db)) (new_filter_row now p) p ∧
     GetFilter db' (cf_UserID p) (sf_ID f) = inr f) ∧
  (∀ p db' f, UpdateFilter now fdb db p = (db', inr f) →
     ∃ old, t_rows (fb_filters db) !! uf_ID p = Some old ∧ ft_UserID old = cf_UserID (uf_params p) ∧
       f = written_filter db (uf_ID p) (update_row now (uf_params p) old) (uf_params p) ∧
       GetFilter db' (cf_UserID (uf_params p)) (sf_ID f) = inr f) ∧
  (∀ p db' e, CreateFilter now fdb db p = (db', inl e) → db' = db) ∧
  (∀ p db' e, UpdateFilter now fdb db p = (db', inl e) → db' = db).
Proof.
  intros W. conjs; intros p db' x H.
  - by eapply create_reads.
  - by eapply update_reads.
  - by apply CreateFilter_inv in H as [[-> _]|(f & [=] & _)].
  - by apply UpdateFilter_inv in H as [[-> _]|(f & old & [=] & _)].
Qed.

(** Matches are recorded exactly once and counted: when the statement succeeds, every pair of a
    filter and an entry given has a row, rows that were there stay, the result is the number of
    new rows, and each filter's counter has grown by the number of its own. *)
Lemma matches_counted (edb : EntryDb) (db : FilterDb) (ms : list CreateFilterMatchParams) (db' : FilterDb) (n : Z) :
  filters_wf db → CreateFilterMatches edb db ms = (db', inr n) →
  (∀ m, m ∈ ms → exists! k, ∃ r, t_rows (fb_matches db') !! k = Some r ∧ mt_FilterID r = cm_FilterID m ∧ mt_EntryID r = cm_EntryID m) ∧
  (∀ k r, t_rows (fb_matches db) !! k = Some r → t_rows (fb_matches db') !! k = Some r) ∧
  (∀ id f, t_rows (fb_filters db) !! id = Some f → ∃ f', t_rows (fb_filters db') !! id = Some f' ∧
     ft_MatchCount f' - ft_MatchCount f = Z.of_nat (size (matches_of (fb_matches db') id)) - Z.of_nat (size (matches_of (fb_matches db) id))).
Proof.
  intros W H. destruct (CreateFilterMatches_inv _ _ _ _ _ W H) as (news & (_ & _ & U) & _ & _ & _ & C & P & K & R). conjs.
  - intros m I. destruct (P m I) as (k & r & L & S). exists k. unfold same_match in S. simpl in S. bool_to_prop. split; [eauto|].
    intros j (s & Ls & Fs & Es). eapply U; [exact L|exact Ls|]. unfold same_match. rewrite Fs, Es. by apply andb_true_intro; split; lia.
  - exact K.
  - intros id f L. eexists. rewrite R, L. split; [done|]. cbn [add_count ft_MatchCount]. rewrite C. lia.
Qed.

(** * Witnesses *)

Definition w_filter (user : Z) (rules : list CreateFilterRuleParams) : CreateFilterParams :=
  mkCreateFilter user " News " true false false 0 " Include" rules [mkScopeParams (Some 7) None; mkScopeParams None None]
    [mkActionParams " Label" " 3 " 1].
Definition w_rules : list CreateFilterRuleParams :=
  [mkRuleParams " title" "go" false " OR" 5; mkRuleParams "author" "me" true "" 2; mkRuleParams "url" "x" false "and" 5].
Definition w_entries : EntryDb := wit_stored.
Definition w_filters : FilterDb :=
  run_op wit_feed_db w_entries (OpCreateFilter 20 (w_filter 2 w_rules))
    (run_op wit_feed_db w_entries (OpCreateFilter 10 (w_filter 1 w_rules)) empty_filters).

Lemma w_filters_wf : filters_wf w_filters.
Proof. apply wf_run_op, wf_run_op, empty_filters_wf. Qed.

Lemma filter_store_isolated_witness :
  GetFilter (run_op wit_feed_db w_entries (OpDeleteFilter 1 1) w_filters) 2 2 = GetFilter w_filters 2 2 ∧
  is_Some (match GetFilter w_filters 2 2 with inr f => Some f | inl _ => None end).
Proof.
  split; [|eexists; vm_compute; reflexivity].
  apply (filter_store_isolated wit_feed_db w_entries (OpDeleteFilter 1 1) w_filters 1 2 w_filters_wf eq_refl). done.
Defined.

Lemma filter_write_read_witness :
  let res := CreateFilter 30 wit_feed_db w_filters (w_filter 1 w_rules) in
  ∃ f, res.2 = inr f ∧ GetFilter res.1 1 3 = inr f ∧ (rl_Pattern ∘ snd) <$> sf_Rules f = ["me"; "go"; "x"]%string.
Proof.
  intros res. destruct (res.2) as [e|f] eqn:E; [vm_compute in E; discriminate|]. exists f. split; [done|].
  assert (P : res = (res.1, inr f)) by (rewrite <-E; apply surjective_pairing).
  destruct (filter_write_read 30 wit_feed_db w_filters w_filters_wf) as (H & _). destruct (H _ _ _ P) as [-> G].
  split; [exact G|vm_compute; reflexivity].
Defined.

Lemma matches_counted_witness :
  let res := CreateFilterMatches w_entries w_filters
    [mkMatchParams 1 1 40 "{}"; mkMatchParams 1 1 41 ""; mkMatchParams 1 2 40 ""; mkMatchParams 2 1 40 ""] in
  res.2 = inr 3 ∧ ∃ f', t_rows (fb_filters res.1) !! 1 = Some f' ∧ ft_MatchCount f' - 0 = 2 - 0.
Proof.
  intros res. assert (E : res.2 = inr 3) by (vm_compute; reflexivity). split; [done|].
  assert (P : res = (res.1, inr 3)) by (rewrite <-E; apply surjective_pairing).
  destruct (matches_counted _ _ _ _ _ w_filters_wf P) as (_ & _ & H).
  destruct (t_rows (fb_filters w_filters) !! 1) as [f|] eqn:L; [|vm_compute in L; discriminate].
  destruct (H 1 f L) as (f' & L' & C). exists f'. split; [done|].
  assert (C0 : ft_MatchCount f = 0) by (vm_compute in L; by injection L as <-). rewrite C0 in C.
  rewrite C. vm_compute. reflexivity.
Defined.

(** A filter that asks for a thousand and one things: the poll loads a thousand of them. *)
Definition w_long_rules : list CreateFilterRuleParams :=
  repeat (mkRuleParams "title" "go" false "and" 0) 1000 ++ [mkRuleParams "author" "me" false "and" 0].
Definition w_long : FilterDb :=
  run_op wit_feed_db w_entries (OpCreateFilter 10 (mkCreateFilter 1 "long" true false false 0 "all" w_long_rules [] [])) empty_filters.
Definition w_match (f : StoredFilter) : bool :=
  match FilterEngine.filter_spec FilterEngine.lit_compile FilterEngine.lit_match (FilterEngine.mkConfig 0 0)
          FilterEngine.wit_entry FilterEngine.wit_ctx (engine_filter f) with Some _ => true | None => false end.

Lemma enabled_filters_loaded_witness :
  (λ f, (w_match f, length (sf_Rules f))) <$> ListEnabledFilters w_long 1 1000 = [(true, 1000%nat)] ∧
  match GetFilter w_long 1 1 with inr f => (w_match f, length (sf_Rules f)) = (false, 1001%nat) | inl _ => False end ∧
  ListEnabledFilters w_filters 1 1000 = (λ f, loadFilterParts w_filters (bare f)) <$> enabled_rows w_filters 1.
Proof.
  split; [|split; [vm_compute; reflexivity|]].
  - destruct (enabled_rows w_long 1) as [|f post] eqn:E; [vm_compute in E; discriminate|].
    destruct (enabled_filters_loaded w_long 1 1000) as [_ H]; [done|].
    assert (F : f = (1, mkFilterRow 1 "long" true false false 0 "all" 0 10 10)) by (vm_compute in E; by injection E as <- _).
    rewrite (H [] f post E); [|vm_compute; lia|rewrite F; apply Nat.leb_le; vm_compute; reflexivity].
    rewrite F. vm_compute. reflexivity.
  - apply (enabled_filters_loaded w_filters 1 1000); [done|]. apply Nat.leb_le. vm_compute. reflexivity.
Defined.
