(* ===== verification/Catalog.v ===== *)
(** The shared catalogue ([storage/postgres_crud.go], [storage/feed_bulk.go],
    [storage/categories.go], [storage/subscriptions.go], [storage/inbound.go]): feeds that belong to
    everybody, categories that hold them, and who reads what, feed by feed or a category at
    a time.  A transaction works on the feed tables and the entry tables together, as in
    [EntryStore.v]; what only this component reads of a feed or a category is kept beside
    the tables of [FeedStore.v].  The accounts that act exist, so that no foreign key on a user fails. *)

From S2P Require Import Prelude GoStrings PollWindow Types FeedStore WebhookStore EntryStore Tables.

(** * The state *)

(** storage/entities.go:48-95 [Feed, the columns of the settings] *)
Record FeedMore := mkFeedMore {
  fm_ScraperRules : string; fm_FetchViaProxy : bool; fm_TLSInsecure : bool; fm_Crawler : bool; fm_UserAgent : string;
  fm_EntryRetentionDays : option Z; fm_IconURL : string; fm_IconData : string; fm_InboundSecret : string;
}.

(** storage/entities.go [Category] Its polling window is in [fd_cats]. *)
Record CatRow := mkCatRow { ca_Title : string; ca_Color : string; ca_SortOrder : Z }.

Record Catalog := mkCatalog {
  ct_feeds : FeedDb; ct_entries : EntryDb; ct_hooks : HookDb;
  ct_more : gmap Z FeedMore; ct_next : Z; ct_cats : gmap Z CatRow; ct_next_cat : Z;
}.

Definition with_tables (c : Catalog) (s : FeedDb * EntryDb) : Catalog :=
  mkCatalog s.1 s.2 (ct_hooks c) (ct_more c) (ct_next c) (ct_cats c) (ct_next_cat c).
Definition tables (c : Catalog) : FeedDb * EntryDb := (ct_feeds c, ct_entries c).
Definition with_more (c : Catalog) m : Catalog :=
  mkCatalog (ct_feeds c) (ct_entries c) (ct_hooks c) m (ct_next c) (ct_cats c) (ct_next_cat c).
Definition with_catrows (c : Catalog) r n : Catalog :=
  mkCatalog (ct_feeds c) (ct_entries c) (ct_hooks c) (ct_more c) (ct_next c) r n.

(** [errors.Is] for the sentinel errors of the store. *)
Definition err_is (target e : err) : bool :=
  default false (err_find (λ x, match x, target with EMsg t, EMsg t' => if String.eqb t t' then Some true else None | _, _ => None end) e).

Definition err_duplicate_feed_url : err := EMsg "feed_url already exists".
Definition err_category_not_empty : err := EMsg "category has feeds".
Definition err_duplicate_category : err := EMsg "category title already exists".
Definition err_not_inbound_feed : err := EMsg "feed does not accept inbound webhooks".

(** * Statements inside a transaction *)

(** A loop over rows that stops at the first error. *)
Fixpoint tx_each {S A : Type} (f : A → S → S * (err + unit)) (l : list A) (s : S) : S * (err + unit) :=
  match l with
  | [] => (s, inr tt)
  | x :: l => match f x s with (s, inl e) => (s, inl e) | (s, inr _) => tx_each f l s end
  end.

(** Somebody who reads the feed already is left alone. *)
Definition subscribe_new (hdb : HookDb) (userID feedID : Z) (s : FeedDb * EntryDb) : (FeedDb * EntryDb) * (err + unit) :=
  match subscribeTx hdb s userID feedID None with
  | (s, inl e) => if err_is err_already_subscribed e then (s, inr tt) else (s, inl e)
  | (s, inr _) => (s, inr tt)
  end.

(** The followers of a category, by number. *)
Definition followers (fdb : FeedDb) (cat : Z) : list Z :=
  merge_sort Z.le (omap (λ uc, if uc.2 =? cat then Some uc.1 else None) (elements (fd_followers fdb))).

(** storage/categories.go [subscribeFollowersTx] *)
Definition subscribeFollowersTx (hdb : HookDb) (feedID cat : Z) (s : FeedDb * EntryDb) : (FeedDb * EntryDb) * (err + unit) :=
  let users := filter (λ u, fd_subs s.1 !! (u, feedID) = None) (followers s.1 cat) in
  tx_each (λ u, subscribe_new hdb u feedID) users s.

(** storage/categories.go [syncCategoryFollowersTx] *)
Definition syncCategoryFollowersTx (hdb : HookDb) (feedID : Z) (oldCat newCat : option Z) (s : FeedDb * EntryDb)
    : (FeedDb * EntryDb) * (err + unit) :=
  let dropped : (FeedDb * EntryDb) * (err + unit) :=
    match oldCat with
    | Some old =>
        if decide (newCat = Some old) then (s, inr tt)
        else
          let follows_new u := match newCat with Some n => bool_decide ((u, n) ∈ fd_followers s.1) | None => false end in
          let users := filter (λ u, is_Some (fd_subs s.1 !! (u, feedID)) ∧ follows_new u = false) (followers s.1 old) in
          tx_each (λ u s, match unsubscribeTx s u feedID with
                          | (s, inl e) => if err_is_not_found e then (s, inr tt) else (s, inl e)
                          | (s, inr _) => (s, inr tt)
                          end) users s
    | None => (s, inr tt)
    end in
  match dropped with
  | (s, inl e) => (s, inl e)
  | (s, inr _) =>
      match newCat with
      | Some n => if decide (oldCat = Some n) then (s, inr tt) else subscribeFollowersTx hdb feedID n s
      | None => (s, inr tt)
      end
  end.

(** The feeds of a category, by number. *)
Definition category_feeds (fdb : FeedDb) (cat : Z) : list Z :=
  merge_sort Z.le (map_to_list (filter (λ kf, f_category_id kf.2 = Some cat) (fd_feeds fdb))).*1.

(** storage/categories.go [subscribeCategoryFeedsTx] With how many. *)
Definition subscribeCategoryFeedsTx (hdb : HookDb) (userID cat : Z) (s : FeedDb * EntryDb) : (FeedDb * EntryDb) * (err + Z) :=
  let ids := filter (λ f, fd_subs s.1 !! (userID, f) = None) (category_feeds s.1 cat) in
  match tx_each (λ f, subscribe_new hdb userID f) ids s with
  | (s, inl e) => (s, inl e)
  | (s, inr _) => (s, inr (Z.of_nat (length ids)))
  end.

(** * Feeds *)

(** storage/entities.go [CreateFeedParams] *)
Record CreateFeedParams := mkCreateFeed {
  cp_FeedURL : string; cp_FeedType : string; cp_Title : string; cp_CategoryID : option Z; cp_SkipOwnerSubscription : bool;
  cp_IntervalMinutes : Z; cp_ScraperRules : string; cp_RewriteRules : string; cp_BlockedRules : string; cp_KeepRules : string;
  cp_FetchViaProxy : bool; cp_TLSInsecure : bool; cp_Crawler : bool; cp_UserAgent : string; cp_WebhookID : option Z;
  cp_StoreMode : string; cp_EntryRetentionDays : option Z; cp_AdaptiveInterval : bool; cp_BridgeState : option BridgeState;
}.

(** storage/entities.go [UpdateFeedParams] *)
Record UpdateFeedParams := mkUpdateFeed {
  up_ID : Z; up_FeedURL : string; up_Title : string; up_CategoryID : option Z; up_IntervalMinutes : Z; up_ScraperRules : string;
  up_RewriteRules : string; up_BlockedRules : string; up_KeepRules : string; up_FetchViaProxy : bool; up_TLSInsecure : bool;
  up_Crawler : bool; up_UserAgent : string; up_WebhookID : option Z; up_StoreMode : string; up_EntryRetentionDays : option Z;
  up_AdaptiveInterval : bool; up_BridgeState : option BridgeState;
}.

(** A feed as a user sees it: the row with its poll state, and the user's subscription. *)
Record FeedView := mkFeedView { fv_feed : Feed; fv_more : FeedMore; fv_webhook : option Z; fv_subscribed : bool }.

(** storage/postgres_crud.go:136-142 [catalogUserJoin, feedScanTargets] *)
Definition feed_view (c : Catalog) (userID id : Z) : option FeedView :=
  r ← fd_feeds (ct_feeds c) !! id; ps ← fd_poll (ct_feeds c) !! id; m ← ct_more c !! id;
  let sub := fd_subs (ct_feeds c) !! (userID, id) in
  Some (mkFeedView (mkFeed r ps) m (default None sub) (bool_decide (is_Some sub))).

(** storage/postgres_crud.go [PostgresStore.GetFeed] *)
Definition GetFeed (c : Catalog) (userID id : Z) : err + FeedView :=
  match feed_view c userID id with
  | Some v => if fv_subscribed v then inr v else inl ENotFound
  | None => inl ENotFound
  end.

(** The row without a subscription, as [GetFeedByID] reads it. *)
Definition catalog_view (c : Catalog) (id : Z) : err + FeedView :=
  match GetFeedByID (ct_feeds c) id, ct_more c !! id with
  | inr f, Some m => inr (mkFeedView f m None false)
  | _, _ => inl ENotFound
  end.

Definition url_taken (fdb : FeedDb) (id : Z) (url : string) : bool :=
  bool_decide (map_Exists (λ k f, k ≠ id ∧ f_url f = url) (fd_feeds fdb)).

(** A category that is there, or none. *)
Definition category_ok (fdb : FeedDb) (cat : option Z) : bool :=
  match cat with None => true | Some k => bool_decide (is_Some (fd_cats fdb !! k)) end.

Definition new_poll_state (bridge : option BridgeState) : PollState := mkPollState "" "" None "" 0 false None (default ∅ bridge) "" None.

Definition new_feed_row (now id userID : Z) (feedType mode : string) (p : CreateFeedParams) : FeedRow :=
  mkFeedRow id userID (cp_FeedURL p) feedType (cp_Title p) (cp_CategoryID p) (cp_IntervalMinutes p) false mode (cp_AdaptiveInterval p)
    (cp_RewriteRules p) (cp_BlockedRules p) (cp_KeepRules p) now.
Definition new_feed_more (p : CreateFeedParams) : FeedMore :=
  mkFeedMore (cp_ScraperRules p) (cp_FetchViaProxy p) (cp_TLSInsecure p) (cp_Crawler p) (cp_UserAgent p) (cp_EntryRetentionDays p) "" "" "".

(** storage/postgres_crud.go:44-78 [PostgresStore.CreateFeed, the transaction] *)
Definition create_feed_tx (now userID : Z) (feedType mode : string) (p : CreateFeedParams) (c : Catalog) (s : FeedDb * EntryDb)
    : (FeedDb * EntryDb) * (err + bool) :=
  let id := ct_next c in
  if url_taken s.1 id (cp_FeedURL p) then (s, inl err_duplicate_feed_url)
  else if negb (category_ok s.1 (cp_CategoryID p)) then (s, inl err_invalid_reference)
  else
    let s := (with_poll (with_feeds s.1 (<[id := new_feed_row now id userID feedType mode p]> (fd_feeds s.1)))
                (<[id := new_poll_state (cp_BridgeState p)]> (fd_poll s.1)), s.2) in
    let own : (FeedDb * EntryDb) * (err + bool) :=
      if cp_SkipOwnerSubscription p then (s, inr false)
      else if negb (checkSubscriptionRefs (ct_hooks c) userID (cp_WebhookID p)) then (s, inl (EWrap "create feed" err_invalid_reference))
      else ((with_subs s.1 (<[(userID, id) := cp_WebhookID p]> (fd_subs s.1)), s.2), inr true) in
    match own with
    | (s, inl e) => (s, inl e)
    | (s, inr subscribed) =>
        match cp_CategoryID p with
        | None => (s, inr subscribed)
        | Some cat =>
            match subscribeFollowersTx (ct_hooks c) id cat s with
            | (s, inl e) => (s, inl (EWrap "create feed" e))
            | (s, inr _) => (s, inr (subscribed || bool_decide (is_Some (fd_subs s.1 !! (userID, id)))))
            end
        end
    end.

(** storage/postgres_crud.go [PostgresStore.CreateFeed] *)
Definition CreateFeed (now : Z) (c : Catalog) (userID : Z) (p : CreateFeedParams) : Catalog * (err + FeedView) :=
  if negb (ValidateEntryRetentionDays (cp_EntryRetentionDays p)) then (c, inl (EMsg "entry_retention_days must be between 1 and 3650"))
  else match NormalizeStoreMode (cp_StoreMode p) with
  | None => (c, inl (EMsg "store_mode must be full, filtered, or relay"))
  | Some mode =>
      let feedType := if String.eqb (trim_space (cp_FeedType p)) "" then "rss"%string else trim_space (cp_FeedType p) in
      match withTx (tables c) (create_feed_tx now userID feedType mode p c) with
      | (_, inl e) => (c, inl e)
      | (s, inr subscribed) =>
          let id := ct_next c in
          let m := new_feed_more p in
          (mkCatalog s.1 s.2 (ct_hooks c) (<[id := m]> (ct_more c)) (id + 1) (ct_cats c) (ct_next_cat c),
           inr (mkFeedView (mkFeed (new_feed_row now id userID feedType mode p) (new_poll_state None)) m (cp_WebhookID p) subscribed))
      end
  end.

Definition updated_row (p : UpdateFeedParams) (mode : string) (r : FeedRow) : FeedRow :=
  mkFeedRow (f_id r) (f_owner_id r) (up_FeedURL p) (f_type r) (up_Title p) (up_CategoryID p) (up_IntervalMinutes p) (f_manual_paused r)
    mode (up_AdaptiveInterval p) (up_RewriteRules p) (up_BlockedRules p) (up_KeepRules p) (f_created_at r).
Definition updated_more (p : UpdateFeedParams) (m : FeedMore) : FeedMore :=
  mkFeedMore (up_ScraperRules p) (up_FetchViaProxy p) (up_TLSInsecure p) (up_Crawler p) (up_UserAgent p) (up_EntryRetentionDays p)
    (fm_IconURL m) (fm_IconData m) (fm_InboundSecret m).
Definition updated_poll (p : UpdateFeedParams) (same_url : bool) (ps : PollState) : PollState :=
  mkPollState (ps_etag ps) (ps_last_modified ps) (ps_last_checked_at ps) (ps_last_error ps) (ps_parsing_error_count ps) (ps_poll_paused ps)
    (ps_next_check_at ps) (default (ps_bridge_state ps) (up_BridgeState p)) (if same_url then ps_items_hash ps else "") (ps_last_entry_at ps).

(** storage/postgres_crud.go:317-366 [PostgresStore.UpdateFeed, the transaction] *)
Definition update_feed_tx (userID : Z) (mode : string) (p : UpdateFeedParams) (hdb : HookDb) (s : FeedDb * EntryDb)
    : (FeedDb * EntryDb) * (err + unit) :=
  if negb (checkSubscriptionRefs hdb userID (up_WebhookID p)) then (s, inl (EWrap "update feed" err_invalid_reference))
  else match fd_feeds s.1 !! up_ID p with
  | None => (s, inl (EWrap "update feed" ENotFound))
  | Some r =>
      let fdb := with_subs s.1 (alter (λ _, up_WebhookID p) (userID, up_ID p) (fd_subs s.1)) in
      if url_taken fdb (up_ID p) (up_FeedURL p) then (s, inl err_duplicate_feed_url)
      else if negb (category_ok fdb (up_CategoryID p)) then (s, inl err_invalid_reference)
      else
        let fdb := with_poll (with_feeds fdb (<[up_ID p := updated_row p mode r]> (fd_feeds fdb)))
                     (alter (updated_poll p (String.eqb (f_url r) (up_FeedURL p))) (up_ID p) (fd_poll fdb)) in
        match syncCategoryFollowersTx hdb (up_ID p) (f_category_id r) (up_CategoryID p) (fdb, s.2) with
        | (s, inl e) => (s, inl (EWrap "update feed" e))
        | (s, inr _) => (s, inr tt)
        end
  end.

(** storage/postgres_crud.go [PostgresStore.UpdateFeed] *)
Definition UpdateFeed (c : Catalog) (userID : Z) (p : UpdateFeedParams) : Catalog * (err + FeedView) :=
  if negb (ValidateEntryRetentionDays (up_EntryRetentionDays p)) then (c, inl (EMsg "entry_retention_days must be between 1 and 3650"))
  else match NormalizeStoreMode (up_StoreMode p) with
  | None => (c, inl (EMsg "store_mode must be full, filtered, or relay"))
  | Some mode =>
      match withTx (tables c) (update_feed_tx userID mode p (ct_hooks c)) with
      | (_, inl e) => (c, inl e)
      | (s, inr _) =>
          let c' := with_more (with_tables c s) (alter (updated_more p) (up_ID p) (ct_more c)) in
          match feed_view c' userID (up_ID p) with Some v => (c', inr v) | None => (c, inl (EWrap "update feed" ENotFound)) end
      end
  end.

(** storage/postgres_crud.go [PostgresStore.UpdateFeedIcon] *)
Definition UpdateFeedIcon (c : Catalog) (id : Z) (iconURL iconData : string) : Catalog * option err :=
  match ct_more c !! id with
  | None => (c, Some ENotFound)
  | Some m =>
      (with_more c (<[id := mkFeedMore (fm_ScraperRules m) (fm_FetchViaProxy m) (fm_TLSInsecure m) (fm_Crawler m) (fm_UserAgent m)
         (fm_EntryRetentionDays m) iconURL iconData (fm_InboundSecret m)]> (ct_more c)), None)
  end.

(** The cascade of a feed's removal: its poll state, subscriptions, entries with everything that
    hangs on them, and kept hashes. *)
Definition drop_feed (c : Catalog) (id : Z) : Catalog :=
  let f := ct_feeds c in
  let e := delete_entries (ct_entries c) (λ i, er_feed_id <$> ed_entries (ct_entries c) !! i = Some id) in
  mkCatalog (mkFeedDb (delete id (fd_feeds f)) (delete id (fd_poll f)) (filter (λ kv, kv.1.2 ≠ id) (fd_subs f)) (fd_cats f) (fd_followers f))
    (mkEntryDb (ed_entries e) (ed_next_id e) (filter (λ k, k.1 ≠ id) (ed_dedup e)) (filter (λ kv, kv.2.1 ≠ id) (ed_unread e)) (ed_user e) (ed_labels e))
    (ct_hooks c) (delete id (ct_more c)) (ct_next c) (ct_cats c) (ct_next_cat c).

(** storage/postgres_crud.go [PostgresStore.DeleteFeedByID] *)
Definition DeleteFeedByID (c : Catalog) (id : Z) : Catalog * option err :=
  match fd_feeds (ct_feeds c) !! id with None => (c, Some ENotFound) | Some _ => (drop_feed c id, None) end.

(** storage/postgres_crud.go [PostgresStore.DeleteFeed] Any feed: the catalogue is everybody's. *)
Definition DeleteFeed (c : Catalog) (userID id : Z) : Catalog * option err := DeleteFeedByID c id.

(** ** Listings *)

(** [LIMIT] and [OFFSET] as the listings use them: no limit below 1; PostgreSQL refuses a negative
    offset. *)
Definition list_page {A} (limit offset : Z) (rows : list A) : err + list A :=
  if limit <=? 0 then inr (if offset <=? 0 then rows else drop (Z.to_nat offset) rows)
  else if offset <? 0 then inl (EMsg "OFFSET must not be negative")
  else inr (take (Z.to_nat limit) (drop (Z.to_nat offset) rows)).

(** With [count( * ) OVER()], which an empty page loses. *)
Definition counted_page {A} (limit offset : Z) (rows : list A) : err + list A * Z :=
  match list_page limit offset rows with
  | inl e => inl e
  | inr page => inr (page, match page with [] => 0 | _ => Z.of_nat (length rows) end)
  end.

Definition view_rows (c : Catalog) (userID : Z) (keep : FeedView → bool) : gmap Z FeedView :=
  map_imap (λ id _, v ← feed_view c userID id; if keep v then Some v else None) (fd_feeds (ct_feeds c)).

Definition id_desc {A} (x y : Z * A) : Prop := y.1 <= x.1.
#[export] Instance id_desc_dec {A} : RelDecision (@id_desc A).
Proof. unfold id_desc. intros x y. apply _. Defined.
Definition id_asc {A} (x y : Z * A) : Prop := x.1 <= y.1.
#[export] Instance id_asc_dec {A} : RelDecision (@id_asc A).
Proof. unfold id_asc. intros x y. apply _. Defined.

(** storage/postgres_crud.go [PostgresStore.ListFeeds] *)
Definition ListFeeds (c : Catalog) (userID limit offset : Z) : err + list FeedView * Z :=
  counted_page limit offset (merge_sort id_desc (map_to_list (view_rows c userID fv_subscribed))).*2.

(** storage/postgres_crud.go [PostgresStore.CountOwnedFeeds] *)
Definition CountOwnedFeeds (c : Catalog) (userID : Z) : Z :=
  Z.of_nat (size (filter (λ kf, f_owner_id kf.2 = userID) (fd_feeds (ct_feeds c)))).

(** A category filter: 0 stands for the feeds of none. *)
Definition in_category (cat : Z) (v : FeedView) : bool :=
  bool_decide (f_category_id (feed_row (fv_feed v)) = if cat =? 0 then None else Some cat).

(** storage/postgres_crud.go [PostgresStore.ListAllFeeds] *)
Definition ListAllFeeds (c : Catalog) (limit : Z) : list FeedView :=
  let limit := if limit <=? 0 then 10000 else if 10000 <? limit then 10000 else limit in
  take (Z.to_nat limit) (omap (λ id, match catalog_view c id with inr v => Some v | inl _ => None end)
    (merge_sort Z.le (map_to_list (fd_feeds (ct_feeds c))).*1)).

Section Titles.
(** The order of titles is the collation of the database, plain and lower-cased. *)
Context (title_le : relation string) `{!RelDecision title_le} (lower_le : relation string) `{!RelDecision lower_le}.

Definition by_title (le : relation string) (x y : Z * FeedView) : Prop :=
  let t v := f_title (feed_row (fv_feed v)) in
  le (t x.2) (t y.2) ∧ (le (t y.2) (t x.2) → x.1 <= y.1).
#[export] Instance by_title_dec le `{!RelDecision le} : RelDecision (by_title le).
Proof. unfold by_title. intros x y. apply _. Defined.

(** storage/postgres_crud.go [PostgresStore.ListFeedsByCategoryPaginated] The total is a query of its own. *)
Definition ListFeedsByCategoryPaginated (c : Catalog) (userID cat limit offset : Z) : err + list FeedView * Z :=
  let rows := map_to_list (view_rows c userID (λ v, fv_subscribed v && in_category cat v)) in
  match list_page limit offset (merge_sort (by_title title_le) rows).*2 with
  | inl e => inl e
  | inr page => inr (page, Z.of_nat (length rows))
  end.

(** storage/postgres_crud.go [PostgresStore.CatalogFeeds] *)
Definition CatalogFeeds (c : Catalog) (userID : Z) (cat : option Z) (limit offset : Z) : list FeedView * Z :=
  let rows := (merge_sort (by_title lower_le) (map_to_list (view_rows c userID (λ v, match cat with Some k => in_category k v | None => true end)))).*2 in
  let page := if 0 <? limit then take (Z.to_nat limit) (drop (Z.to_nat (Z.max offset 0)) rows) else rows in
  (page, match page with [] => 0 | _ => Z.of_nat (length rows) end).
End Titles.

(** * Subscriptions *)

Definition lift_tx {A} (c : Catalog) (r : (FeedDb * EntryDb) * (err + A)) : Catalog * (err + A) :=
  match r with (_, inl e) => (c, inl e) | (s, inr a) => (with_tables c s, inr a) end.

(** The feed with this address. *)
Definition feed_by_url (fdb : FeedDb) (url : string) : option Z :=
  head (map_to_list (filter (λ kf, f_url kf.2 = url) (fd_feeds fdb))).*1.

(** storage/subscriptions.go [PostgresStore.SubscribeByURL] *)
Definition SubscribeByURL (c : Catalog) (userID : Z) (url : string) (webhookID : option Z) : Catalog * (err + FeedView) :=
  match feed_by_url (ct_feeds c) url with
  | None => (c, inl ENotFound)
  | Some id =>
      match subscribeTx (ct_hooks c) (tables c) userID id webhookID with
      | (_, inl e) => (c, inl e)
      | (s, inr _) =>
          let c' := with_tables c s in
          match GetFeed c' userID id with inr v => (c', inr v) | inl e => (c, inl e) end
      end
  end.

(** storage/subscriptions.go [PostgresStore.UpdateSubscription] *)
Definition UpdateSubscription (c : Catalog) (userID feedID : Z) (webhookID : option Z) : Catalog * (err + Subscription) :=
  if negb (checkSubscriptionRefs (ct_hooks c) userID webhookID) then (c, inl err_invalid_reference)
  else match fd_subs (ct_feeds c) !! (userID, feedID) with
  | None => (c, inl ENotFound)
  | Some _ =>
      (with_tables c (with_subs (ct_feeds c) (<[(userID, feedID) := webhookID]> (fd_subs (ct_feeds c))), ct_entries c),
       inr (mkSubscription userID feedID webhookID))
  end.

(** storage/subscriptions.go [PostgresStore.ListSubscriptions] *)
Definition ListSubscriptions (c : Catalog) (userID : Z) : list Subscription :=
  (λ x, mkSubscription userID x.1 x.2) <$> merge_sort id_asc
    (omap (λ '((u, f), w), if u =? userID then Some (f, w) else None) (map_to_list (fd_subs (ct_feeds c)))).

(** * Many feeds at once *)

(** storage/entities.go:549-558 [BulkFeedUpdate] *)
Record BulkFeedUpdate := mkBulk {
  bu_IntervalMinutes : option Z; bu_WebhookSet : bool; bu_WebhookID : option Z; bu_StoreMode : option string;
  bu_AdaptiveInterval : option bool; bu_ManualPaused : option bool; bu_MoveCategory : bool; bu_MoveToCategoryID : option Z;
}.

(** storage/feed_bulk.go [validateBulkFeedUpdate] The store mode comes back normalised. *)
Definition validateBulkFeedUpdate (u : BulkFeedUpdate) : err + BulkFeedUpdate :=
  let one {A} (o : option A) : Z := match o with Some _ => 1 | None => 0 end in
  let b2z (b : bool) : Z := if b then 1 else 0 in
  let mode := NormalizeStoreMode <$> bu_StoreMode u in
  let n := one (bu_IntervalMinutes u) + b2z (bu_WebhookSet u) + one (bu_StoreMode u) + one (bu_AdaptiveInterval u) +
           one (bu_ManualPaused u) + b2z (bu_MoveCategory u) in
  if (match bu_IntervalMinutes u with Some m => (m <? 1) || (10080 <? m) | None => false end)
  then inl (EMsg "interval_minutes must be between 1 and 10080")
  else if bool_decide (mode = Some None) then inl (EMsg "store_mode must be full, filtered, or relay")
  else if n =? 0 then inl (EMsg "nothing to update")
  else if 1 <? n then inl (EMsg "bulk feed update: only one field group allowed")
  else inr (mkBulk (bu_IntervalMinutes u) (bu_WebhookSet u) (bu_WebhookID u) (default None mode) (bu_AdaptiveInterval u)
              (bu_ManualPaused u) (bu_MoveCategory u) (bu_MoveToCategoryID u)).

(** storage/feed_bulk.go [PostgresStore.lookupCategory] *)
Definition lookupCategory (c : Catalog) (cat : Z) : option err :=
  match fd_cats (ct_feeds c) !! cat with Some _ => None | None => Some ENotFound end.

Definition bulk_row (u : BulkFeedUpdate) (r : FeedRow) : FeedRow :=
  mkFeedRow (f_id r) (f_owner_id r) (f_url r) (f_type r) (f_title r) (f_category_id r) (default (f_interval_minutes r) (bu_IntervalMinutes u))
    (default (f_manual_paused r) (bu_ManualPaused u)) (default (f_store_mode r) (bu_StoreMode u))
    (default (f_adaptive_interval r) (bu_AdaptiveInterval u)) (f_rewrite_rules r) (f_blocked_rules r) (f_keep_rules r) (f_created_at r).

Definition set_category (cat : option Z) (r : FeedRow) : FeedRow :=
  mkFeedRow (f_id r) (f_owner_id r) (f_url r) (f_type r) (f_title r) cat (f_interval_minutes r) (f_manual_paused r) (f_store_mode r)
    (f_adaptive_interval r) (f_rewrite_rules r) (f_blocked_rules r) (f_keep_rules r) (f_created_at r).

(** storage/feed_bulk.go:160-168 [PostgresStore.BulkUpdateFeedsByCategory, the move of one feed] *)
Definition move_feed (hdb : HookDb) (oldCat moveTo : option Z) (id : Z) (s : FeedDb * EntryDb) : (FeedDb * EntryDb) * (err + unit) :=
  if negb (category_ok s.1 moveTo) then (s, inl (EMsg "move feed: violates foreign key constraint"))
  else syncCategoryFollowersTx hdb id oldCat moveTo (with_feeds s.1 (alter (set_category moveTo) id (fd_feeds s.1)), s.2).

(** 0 stands for no category. *)
Definition cat_opt (cat : Z) : option Z := if 0 <? cat then Some cat else None.

(** storage/feed_bulk.go:136-170 [PostgresStore.BulkUpdateFeedsByCategory, the transaction] *)
Definition bulk_tx (userID cat : Z) (u : BulkFeedUpdate) (hdb : HookDb) (s : FeedDb * EntryDb) : (FeedDb * EntryDb) * (err + list Z) :=
  let ids := merge_sort Z.le (map_to_list (filter (λ kf, f_category_id kf.2 = cat_opt cat) (fd_feeds s.1))).*1 in
  let feeds := map_imap (λ k f, Some (if decide (f_category_id f = cat_opt cat) then bulk_row u f else f)) (fd_feeds s.1) in
  let subs := if bu_WebhookSet u
              then map_imap (λ k w, Some (if decide (k.1 = userID ∧ k.2 ∈ ids) then bu_WebhookID u else w)) (fd_subs s.1)
              else fd_subs s.1 in
  let s := (with_subs (with_feeds s.1 feeds) subs, s.2) in
  let moveTo := match bu_MoveToCategoryID u with Some 0 => None | m => m end in
  if negb (bu_MoveCategory u) || bool_decide (moveTo = Some cat) then (s, inr ids)
  else match tx_each (move_feed hdb (cat_opt cat) moveTo) ids s with
       | (s, inl e) => (s, inl e)
       | (s, inr _) => (s, inr ids)
       end.

(** storage/feed_bulk.go [PostgresStore.BulkUpdateFeedsByCategory] *)
Definition BulkUpdateFeedsByCategory (c : Catalog) (userID cat : Z) (u : BulkFeedUpdate) : Catalog * (err + list Z * Z) :=
  match validateBulkFeedUpdate u with
  | inl e => (c, inl e)
  | inr u =>
      let missing k := if 0 <? k then lookupCategory c k else None in
      match missing cat, (if bu_MoveCategory u then missing (default 0 (bu_MoveToCategoryID u)) else None) with
      | Some e, _ | None, Some e => (c, inl e)
      | None, None =>
          if bu_WebhookSet u && negb (checkSubscriptionRefs (ct_hooks c) userID (bu_WebhookID u)) then (c, inl err_invalid_reference)
          else match lift_tx c (withTx (tables c) (bulk_tx userID cat u (ct_hooks c))) with
               | (c, inl e) => (c, inl e)
               | (c, inr ids) => (c, inr (ids, Z.of_nat (length ids)))
               end
      end
  end.

(** * Categories *)

Section Categories.
(** [lower(btrim(title))], by which titles are unique. *)
Context (title_key : string → string).

Definition title_taken (c : Catalog) (id : Z) (title : string) : bool :=
  bool_decide (map_Exists (λ k r, k ≠ id ∧ title_key (ca_Title r) = title_key title) (ct_cats c)).

Record Category := mkCategory { c_ID : Z; c_Title : string; c_Color : string; c_SortOrder : Z; c_PollHours : string }.
Definition category (c : Catalog) (id : Z) : option Category :=
  r ← ct_cats c !! id; h ← fd_cats (ct_feeds c) !! id; Some (mkCategory id (ca_Title r) (ca_Color r) (ca_SortOrder r) h).

(** storage/categories.go [PostgresStore.CreateCategory] *)
Definition CreateCategory (c : Catalog) (title color : string) : Catalog * (err + Category) :=
  let id := ct_next_cat c in
  let title := trim_space title in
  if title_taken c id title then (c, inl err_duplicate_category)
  else
    let order := foldr (λ r m, Z.max (ca_SortOrder r + 1) m) 0 (map_to_list (ct_cats c)).*2 in
    let row := mkCatRow title (trim_space color) order in
    (mkCatalog (with_cats (ct_feeds c) (<[id := ""%string]> (fd_cats (ct_feeds c)))) (ct_entries c) (ct_hooks c) (ct_more c) (ct_next c)
       (<[id := row]> (ct_cats c)) (id + 1), inr (mkCategory id title (trim_space color) order "")).

(** storage/categories.go [PostgresStore.UpdateCategory] *)
Definition UpdateCategory (c : Catalog) (id : Z) (title color : string) : Catalog * (err + Category) :=
  match ct_cats c !! id with
  | None => (c, inl ENotFound)
  | Some r =>
      if title_taken c id (trim_space title) then (c, inl err_duplicate_category)
      else
        let c := with_catrows c (<[id := mkCatRow (trim_space title) (trim_space color) (ca_SortOrder r)]> (ct_cats c)) (ct_next_cat c) in
        (c, match category c id with Some x => inr x | None => inl ENotFound end)
  end.

(** storage/categories.go [PostgresStore.ReorderCategories] *)
Definition ReorderCategories (c : Catalog) (ids : list Z) : Catalog * option err :=
  match ids with
  | [] => (c, None)
  | _ =>
      if existsb (λ i, i <=? 0) ids || negb (bool_decide (NoDup ids)) then (c, Some err_invalid_reference)
      else if negb (Z.of_nat (size (ct_cats c)) =? Z.of_nat (length ids))
              || negb (Z.of_nat (size (filter (λ kr, kr.1 ∈ ids) (ct_cats c))) =? Z.of_nat (length ids))
      then (c, Some err_invalid_reference)
      else
        let place k r := match list_find (λ i, i = k) ids with
                         | Some (n, _) => mkCatRow (ca_Title r) (ca_Color r) (Z.of_nat n)
                         | None => r
                         end in
        (with_catrows c (map_imap (λ k r, Some (place k r)) (ct_cats c)) (ct_next_cat c), None)
  end.

(** storage/categories.go [PostgresStore.DeleteCategory] Only an empty one; its followers go with it. *)
Definition DeleteCategory (c : Catalog) (id : Z) : Catalog * option err :=
  match ct_cats c !! id with
  | None => (c, Some ENotFound)
  | Some _ =>
      if decide (map_Exists (λ _ f, f_category_id f = Some id) (fd_feeds (ct_feeds c))) then (c, Some err_category_not_empty)
      else
        let f := ct_feeds c in
        (mkCatalog (mkFeedDb (fd_feeds f) (fd_poll f) (fd_subs f) (delete id (fd_cats f)) (filter (λ k, k.2 ≠ id) (fd_followers f)))
           (ct_entries c) (ct_hooks c) (ct_more c) (ct_next c) (delete id (ct_cats c)) (ct_next_cat c), None)
  end.

(** storage/categories.go [PostgresStore.ListCategories] *)
Definition ListCategories (c : Catalog) (limit offset : Z) : err + list Category * Z :=
  match counted_page limit offset (merge_sort (key_le ca_SortOrder) (map_to_list (ct_cats c))).*1 with
  | inl e => inl e
  | inr (ids, total) => inr (omap (category c) ids, total)
  end.

End Categories.

(** storage/categories.go [PostgresStore.FollowCategory] *)
Definition FollowCategory (c : Catalog) (userID cat : Z) : Catalog * (err + Z) :=
  lift_tx c (withTx (tables c) (λ s,
    match fd_cats s.1 !! cat with
    | None => (s, inl ENotFound)
    | Some _ =>
        let f := s.1 in
        subscribeCategoryFeedsTx (ct_hooks c) userID cat
          (mkFeedDb (fd_feeds f) (fd_poll f) (fd_subs f) (fd_cats f) ({[(userID, cat)]} ∪ fd_followers f), s.2)
    end)).

(** storage/categories.go [PostgresStore.UnfollowCategory] *)
Definition UnfollowCategory (c : Catalog) (userID cat : Z) : Catalog * (err + Z) :=
  lift_tx c (withTx (tables c) (λ s,
    if decide ((userID, cat) ∈ fd_followers s.1) then
      let f := s.1 in
      let ids := filter (λ id, is_Some (fd_subs f !! (userID, id))) (category_feeds f cat) in
      match tx_each (λ id s, unsubscribeTx s userID id) ids
              (mkFeedDb (fd_feeds f) (fd_poll f) (fd_subs f) (fd_cats f) (fd_followers f ∖ {[(userID, cat)]}), s.2) with
      | (s, inl e) => (s, inl e)
      | (s, inr _) => (s, inr (Z.of_nat (length ids)))
      end
    else (s, inl ENotFound))).

(** storage/categories.go [PostgresStore.ListFollowedCategories] *)
Definition ListFollowedCategories (c : Catalog) (userID : Z) : gset Z :=
  set_map snd (filter (λ uc : Z * Z, uc.1 = userID) (fd_followers (ct_feeds c))).

(** * Inbound feeds *)

(** storage/inbound.go [CreateInboundFeedParams] *)
Record CreateInboundFeedParams := mkCreateInbound {
  ci_Title : string; ci_CategoryID : option Z; ci_IntervalMinutes : Z; ci_EntryRetentionDays : option Z; ci_SkipOwnerSubscription : bool;
}.

Definition FeedTypeInbound : string := "inbound".
Definition InboundDefaultIntervalMinutes : Z := 1440.

(** 100 years of 365.25 days. *)
Definition century : Z := 36525 * 24 * hour.

Definition with_secret (c : Catalog) (id : Z) (secret : string) : Catalog :=
  with_more c (alter (λ m, mkFeedMore (fm_ScraperRules m) (fm_FetchViaProxy m) (fm_TLSInsecure m) (fm_Crawler m) (fm_UserAgent m)
    (fm_EntryRetentionDays m) (fm_IconURL m) (fm_IconData m) secret) id (ct_more c)).

(** storage/inbound.go [PostgresStore.CreateInboundFeed] The secret and the address are random:
    64 hexadecimal digits each. *)
Definition CreateInboundFeed (now : Z) (secret address : string) (c : Catalog) (userID : Z) (p : CreateInboundFeedParams)
    : Catalog * (err + FeedView * string) :=
  let interval := if ci_IntervalMinutes p <=? 0 then InboundDefaultIntervalMinutes else ci_IntervalMinutes p in
  match CreateFeed now c userID (mkCreateFeed ("inbound://" +:+ String.substring 0 16 address) FeedTypeInbound (ci_Title p) (ci_CategoryID p)
          (ci_SkipOwnerSubscription p) interval "" "" "" "" false false false "" None "" (ci_EntryRetentionDays p) false None) with
  | (c, inl e) => (c, inl e)
  | (c, inr v) =>
      let id := f_id (feed_row (fv_feed v)) in
      let c := with_secret c id secret in
      (with_tables c (with_poll (ct_feeds c) (alter (λ ps, set_next_check ps (now + century)) id (fd_poll (ct_feeds c))), ct_entries c),
       inr (v, secret))
  end.

(** storage/inbound.go [PostgresStore.InboundSecret] *)
Definition InboundSecret (c : Catalog) (feedID : Z) : err + string :=
  match fd_feeds (ct_feeds c) !! feedID, ct_more c !! feedID with
  | Some r, Some m =>
      if negb (String.eqb (f_type r) FeedTypeInbound) || String.eqb (fm_InboundSecret m) "" then inl err_not_inbound_feed
      else inr (fm_InboundSecret m)
  | _, _ => inl ENotFound
  end.

(** storage/inbound.go [PostgresStore.RotateInboundSecret] *)
Definition RotateInboundSecret (secret : string) (c : Catalog) (feedID : Z) : Catalog * (err + string) :=
  match fd_feeds (ct_feeds c) !! feedID with
  | Some r => if String.eqb (f_type r) FeedTypeInbound then (with_secret c feedID secret, inr secret) else (c, inl ENotFound)
  | None => (c, inl ENotFound)
  end.
