(* ===== verification/CatalogSpec.v ===== *)
(** What keeps the catalogue of [Catalog.v] consistent: the tables refer to each other as the
    schema declares, whoever follows a category reads every feed of it, unread marks and stars
    belong to readers of the feed, and a reader's operations concern nobody else. *)

From S2P Require Import Prelude GoStrings PollWindow Types FeedStore WebhookStore EntryStore Tables Catalog.

(** * Invariants *)

(** The feed and entry tables. *)
Record tables_wf (hdb : HookDb) (s : FeedDb * EntryDb) : Prop := {
  tw_poll : ∀ id, is_Some (fd_feeds s.1 !! id) ↔ is_Some (fd_poll s.1 !! id);
  tw_url : ∀ i j f g, fd_feeds s.1 !! i = Some f → fd_feeds s.1 !! j = Some g → f_url f = f_url g → i = j;
  tw_cat : ∀ id f k, fd_feeds s.1 !! id = Some f → f_category_id f = Some k → is_Some (fd_cats s.1 !! k);
  tw_sub : ∀ u f w, fd_subs s.1 !! (u, f) = Some w → is_Some (fd_feeds s.1 !! f) ∧ checkSubscriptionRefs hdb u w = true;
  tw_follow : ∀ u k, (u, k) ∈ fd_followers s.1 → is_Some (fd_cats s.1 !! k);
  tw_entry : ∀ e r, ed_entries s.2 !! e = Some r → er_id r = e ∧ is_Some (fd_feeds s.1 !! er_feed_id r);
  tw_unread : ∀ e u f t, ed_unread s.2 !! (e, u) = Some (f, t) → is_Some (fd_subs s.1 !! (u, f)) ∧
    (∃ r, ed_entries s.2 !! e = Some r ∧ er_feed_id r = f ∧ er_sort_at r = t ∧ er_removed_at r = None) ∧
    (∀ x, ed_user s.2 !! (e, u) = Some x → ue_removed x = false);
  tw_user : ∀ e u x, ed_user s.2 !! (e, u) = Some x →
    ∃ r, ed_entries s.2 !! e = Some r ∧ ue_sort_at x = er_sort_at r ∧ is_Some (fd_subs s.1 !! (u, er_feed_id r));
  tw_next : ∀ e r, ed_entries s.2 !! e = Some r → e < ed_next_id s.2;
  tw_uniq : ∀ i j a b, ed_entries s.2 !! i = Some a → ed_entries s.2 !! j = Some b →
    er_feed_id a = er_feed_id b → er_hash a = er_hash b → i = j;
  tw_hash : ∀ e r, ed_entries s.2 !! e = Some r → er_hash r ≠ "";
}.

Lemma tables_entries_wf hdb s : tables_wf hdb s → entries_wf s.2.
Proof. intros []. split; [|done..]. intros i e H. by apply tw_entry0. Qed.

(** Whoever follows a category reads its feeds. *)
Definition follows_reads (fdb : FeedDb) : Prop :=
  ∀ u k id f, (u, k) ∈ fd_followers fdb → fd_feeds fdb !! id = Some f → f_category_id f = Some k → is_Some (fd_subs fdb !! (u, id)).

Record catalog_wf (title_key : string → string) (c : Catalog) : Prop := {
  cw_tables : tables_wf (ct_hooks c) (tables c);
  cw_reads : follows_reads (ct_feeds c);
  cw_more : ∀ id, is_Some (fd_feeds (ct_feeds c) !! id) ↔ is_Some (ct_more c !! id);
  cw_next : ∀ id, is_Some (ct_more c !! id) → id < ct_next c;
  cw_id : ∀ id f, fd_feeds (ct_feeds c) !! id = Some f → f_id f = id;
  cw_cats : ∀ k, is_Some (ct_cats c !! k) ↔ is_Some (fd_cats (ct_feeds c) !! k);
  cw_next_cat : ∀ k, is_Some (ct_cats c !! k) → k < ct_next_cat c;
  cw_title : ∀ i j a b, ct_cats c !! i = Some a → ct_cats c !! j = Some b → title_key (ca_Title a) = title_key (ca_Title b) → i = j;
}.

(** * Loops *)

Lemma tx_each_inv {S A : Type} (I : S → Prop) (f : A → S → S * (err + unit)) l s :
  (∀ x s, x ∈ l → I s → I (f x s).1) → I s → I (tx_each f l s).1.
Proof.
  revert s. induction l as [|x l IH]; intros s P H; [done|]. cbn [tx_each].
  pose proof (P x s ltac:(by left) H) as H1. destruct (f x s) as [s' [e|[]]]; [exact H1|]. apply IH; [|exact H1].
  intros y t Y. apply P. by right.
Qed.

(** A loop whose steps succeed does every step. *)
Lemma tx_each_all {S A : Type} (I : S → Prop) (Q : A → S → Prop) (f : A → S → S * (err + unit)) l s :
  (∀ x s, x ∈ l → I s → ∃ s', f x s = (s', inr tt) ∧ I s' ∧ Q x s' ∧ ∀ y, Q y s → Q y s') → I s →
  ∃ s', tx_each f l s = (s', inr tt) ∧ I s' ∧ (∀ x, x ∈ l → Q x s') ∧ ∀ y, Q y s → Q y s'.
Proof.
  revert s. induction l as [|x l IH]; intros s P H.
  - exists s. repeat split; [done| |done]. intros x X. by apply elem_of_nil in X.
  - destruct (P x s ltac:(by left) H) as (s1 & E & I1 & Q1 & K1). cbn [tx_each]. rewrite E.
    destruct (IH s1 (λ y t Y, P y t ltac:(by right)) I1) as (s2 & E2 & I2 & Q2 & K2). exists s2. split; [done|]. split; [done|].
    split; [|intros y Y; by apply K2, K1]. intros y [->|Y]%elem_of_cons; [by apply K2|by apply Q2].
Qed.

(** * Subscribing and unsubscribing *)

(** Only the subscriptions and the readers' rows change. *)
Definition same_catalogue (s s' : FeedDb * EntryDb) : Prop :=
  fd_feeds s'.1 = fd_feeds s.1 ∧ fd_poll s'.1 = fd_poll s.1 ∧ fd_cats s'.1 = fd_cats s.1 ∧ fd_followers s'.1 = fd_followers s.1 ∧
  ed_entries s'.2 = ed_entries s.2 ∧ ed_next_id s'.2 = ed_next_id s.2 ∧ ed_dedup s'.2 = ed_dedup s.2.

(** Nobody but [u] notices. *)
Definition others_same (u : Z) (s s' : FeedDb * EntryDb) : Prop :=
  ∀ v, v ≠ u → (∀ f, fd_subs s'.1 !! (v, f) = fd_subs s.1 !! (v, f)) ∧ (∀ e, ed_unread s'.2 !! (e, v) = ed_unread s.2 !! (e, v)) ∧
    (∀ e, ed_user s'.2 !! (e, v) = ed_user s.2 !! (e, v)) ∧ (∀ e l, ed_labels s'.2 !! (e, l) = Some v ↔ ed_labels s.2 !! (e, l) = Some v).

(** Subscriptions to other feeds stay. *)
Definition other_feeds_same (f : Z) (s s' : FeedDb * EntryDb) : Prop := ∀ u g, g ≠ f → fd_subs s'.1 !! (u, g) = fd_subs s.1 !! (u, g).

Lemma same_catalogue_refl s : same_catalogue s s.
Proof. done. Qed.
Lemma same_catalogue_trans s1 s2 s3 : same_catalogue s1 s2 → same_catalogue s2 s3 → same_catalogue s1 s3.
Proof. unfold same_catalogue. intuition congruence. Qed.
Lemma others_same_refl u s : others_same u s s.
Proof. done. Qed.
Lemma others_same_trans u s1 s2 s3 : others_same u s1 s2 → others_same u s2 s3 → others_same u s1 s3.
Proof.
  intros A B v N. destruct (A v N) as (A1 & A2 & A3 & A4), (B v N) as (B1 & B2 & B3 & B4).
  split; [intros; by rewrite B1|]. split; [intros; by rewrite B2|]. split; [intros; by rewrite B3|]. intros. by rewrite B4.
Qed.

Lemma elem_of_backfill db u f r : r ∈ backfill db u f → ∃ e, ed_entries db !! e = Some r ∧ er_feed_id r = f ∧ er_removed_at r = None.
Proof.
  unfold backfill. intros (i & H & _)%elem_of_take. apply list_elem_of_lookup_2 in H. rewrite merge_sort_Permutation in H.
  apply list_elem_of_filter in H as [[F R] H]. apply list_elem_of_fmap in H as ([e r'] & -> & H). apply elem_of_map_to_list in H. eauto.
Qed.

Section Tables.
Context (hdb : HookDb).

Lemma subscribeTx_cases s u f w : (∃ e, subscribeTx hdb s u f w = (s, inl e) ∧
    (e = err_already_subscribed ∧ is_Some (fd_subs s.1 !! (u, f)) ∨
     e = err_invalid_reference ∧ (checkSubscriptionRefs hdb u w = false ∨ fd_feeds s.1 !! f = None))) ∨
  fd_subs s.1 !! (u, f) = None ∧ is_Some (fd_feeds s.1 !! f) ∧ checkSubscriptionRefs hdb u w = true ∧
  subscribeTx hdb s u f w = ((with_subs s.1 (<[(u, f) := w]> (fd_subs s.1)),
    with_unread s.2 (ed_unread s.2 ∪ list_to_map ((λ e, ((er_id e, u), (er_feed_id e, er_sort_at e))) <$> backfill s.2 u f))),
    inr (mkSubscription u f w)).
Proof.
  unfold subscribeTx. destruct s as [fdb db]. destruct (checkSubscriptionRefs hdb u w); cbn [negb fst snd]; [|left; eauto 10].
  destruct (fd_subs fdb !! (u, f)) eqn:E; [left; eauto 10|]. destruct (fd_feeds fdb !! f) eqn:F; [right; eauto|left; eauto 10].
Qed.

Lemma unsubscribeTx_cases s u f : fd_subs s.1 !! (u, f) = None ∧ unsubscribeTx s u f = (s, inl ENotFound) ∨
  is_Some (fd_subs s.1 !! (u, f)) ∧ unsubscribeTx s u f =
    ((with_subs s.1 (delete (u, f) (fd_subs s.1)),
      mkEntryDb (ed_entries s.2) (ed_next_id s.2) (ed_dedup s.2)
        (filter (λ kv, ¬ (kv.1.2 = u ∧ kv.2.1 = f)) (ed_unread s.2))
        (filter (λ kv, ¬ (kv.1.2 = u ∧ er_feed_id <$> ed_entries s.2 !! kv.1.1 = Some f)) (ed_user s.2))
        (filter (λ kv, ¬ (kv.2 = u ∧ er_feed_id <$> ed_entries s.2 !! kv.1.1 = Some f)) (ed_labels s.2))), inr tt).
Proof. unfold unsubscribeTx. destruct s as [fdb db]. cbn [fst snd]. destruct (fd_subs fdb !! (u, f)) eqn:E; [right; eauto|by left]. Qed.

(** The unread rows after a backfill: those that were, and the chosen entries'. *)
Lemma backfill_unread db u f e v x :
  (ed_unread db ∪ list_to_map ((λ e, ((er_id e, u), (er_feed_id e, er_sort_at e))) <$> backfill db u f)) !! (e, v) = Some x →
  ed_unread db !! (e, v) = Some x ∨ v = u ∧ ∃ r, r ∈ backfill db u f ∧ er_id r = e ∧ x = (er_feed_id r, er_sort_at r).
Proof.
  intros [H|[_ H]]%lookup_union_Some_raw; [by left|]. right. apply elem_of_list_to_map_2, list_elem_of_fmap in H as (r & [= -> -> ->] & H). eauto.
Qed.

Lemma subscribeTx_wf s u f w : tables_wf hdb s → tables_wf hdb (subscribeTx hdb s u f w).1.
Proof.
  intros W. destruct (subscribeTx_cases s u f w) as [(e & -> & _)|(N & [r F] & C & ->)]; [exact W|].
  split; cbn [fst snd with_subs with_unread fd_feeds fd_poll fd_subs fd_cats fd_followers ed_entries ed_unread ed_user]; try apply W.
  - intros v g x [[[= <- <-] <-]|[_ H]]%lookup_insert_Some; [by eauto|by eapply tw_sub].
  - assert (K : ∀ v g, is_Some (fd_subs s.1 !! (v, g)) → is_Some (<[(u, f) := w]> (fd_subs s.1) !! (v, g))).
    { intros v g H. destruct (decide ((u, f) = (v, g))) as [<-|]; [rewrite lookup_insert_eq; eauto|by rewrite lookup_insert_ne]. }
    intros e v g t [H|(-> & r' & B & <- & [= -> ->])]%backfill_unread.
    + destruct (tw_unread _ _ W _ _ _ _ H) as (A & B & D). split; [by apply K|done].
    + apply elem_of_backfill in B as (e & L & Ff & R). destruct (tw_entry _ _ W _ _ L) as [<- _]. rewrite Ff, lookup_insert_eq.
      split; [by eauto|]. split; [by exists r'|]. intros x H. destruct (tw_user _ _ W _ _ _ H) as (r2 & L2 & _ & [y S]).
      assert (r2 = r') as -> by congruence. rewrite Ff, N in S. done.
  - intros e v x H. destruct (tw_user _ _ W _ _ _ H) as (r' & L & So & S). exists r'. do 2 (split; [done|]).
    destruct (decide ((u, f) = (v, er_feed_id r'))) as [->|]; [rewrite lookup_insert_eq; eauto|by rewrite lookup_insert_ne].
Qed.

Lemma unsubscribeTx_wf s u f : tables_wf hdb s → tables_wf hdb (unsubscribeTx s u f).1.
Proof.
  intros W. destruct (unsubscribeTx_cases s u f) as [[_ ->]|[_ ->]]; [exact W|].
  split; cbn [fst snd with_subs fd_feeds fd_poll fd_subs fd_cats fd_followers ed_entries ed_unread ed_user]; try apply W.
  - intros v g x [_ H]%lookup_delete_Some. by eapply tw_sub.
  - intros e v g t [H K]%map_lookup_filter_Some. cbn [fst snd] in K. destruct (tw_unread _ _ W _ _ _ _ H) as (A & B & D). split; [|split; [done|]].
    + rewrite lookup_delete_ne; [done|]. intros [= -> ->]. by apply K.
    + intros x [X _]%map_lookup_filter_Some. by apply D.
  - intros e v x [H K]%map_lookup_filter_Some. cbn [fst snd] in K. destruct (tw_user _ _ W _ _ _ H) as (r & L & So & S). exists r. do 2 (split; [done|]).
    rewrite lookup_delete_ne; [done|]. intros [= -> E]. apply K. split; [done|]. by rewrite L, E.
Qed.

Lemma subscribeTx_frame s u f w : same_catalogue s (subscribeTx hdb s u f w).1 ∧ others_same u s (subscribeTx hdb s u f w).1 ∧
  other_feeds_same f s (subscribeTx hdb s u f w).1.
Proof.
  destruct (subscribeTx_cases s u f w) as [(e & -> & _)|(N & _ & _ & ->)]; [done|]. split; [done|]. split.
  - intros v Ne. cbn [fst snd with_subs with_unread fd_subs ed_unread ed_user ed_labels]. split; [|split; [|done]].
    + intros g. rewrite lookup_insert_ne; [done|]. by intros [= ->].
    + intros e. apply option_eq. intros x. split.
      * by intros [H|[-> _]]%backfill_unread.
      * intros H. by apply lookup_union_Some_l.
  - intros v g Ne. cbn [fst with_subs fd_subs]. rewrite lookup_insert_ne; [done|]. by intros [= ->].
Qed.

Lemma unsubscribeTx_frame s u f : same_catalogue s (unsubscribeTx s u f).1 ∧ others_same u s (unsubscribeTx s u f).1 ∧
  other_feeds_same f s (unsubscribeTx s u f).1.
Proof.
  destruct (unsubscribeTx_cases s u f) as [[_ ->]|[_ ->]]; [done|]. split; [done|]. split.
  - intros v Ne. cbn [fst snd with_subs fd_subs ed_unread ed_user ed_labels]. split; [|split; [|split]].
    + intros g. rewrite lookup_delete_ne; [done|]. by intros [= ->].
    + intros e. apply option_eq. intros x. rewrite map_lookup_filter_Some. cbn [fst snd]. naive_solver.
    + intros e. apply option_eq. intros x. rewrite map_lookup_filter_Some. cbn [fst snd]. naive_solver.
    + intros e l. rewrite map_lookup_filter_Some. cbn [fst snd]. naive_solver.
  - intros v g Ne. cbn [fst with_subs fd_subs]. rewrite lookup_delete_ne; [done|]. by intros [= ->].
Qed.

(** ** Followers *)

(** Nobody loses a subscription. *)
Definition keeps_subs (s s' : FeedDb * EntryDb) : Prop := ∀ k, is_Some (fd_subs s.1 !! k) → is_Some (fd_subs s'.1 !! k).

Lemma subscribe_new_spec u f s : tables_wf hdb s → is_Some (fd_feeds s.1 !! f) →
  ∃ s', subscribe_new hdb u f s = (s', inr tt) ∧ tables_wf hdb s' ∧ same_catalogue s s' ∧ others_same u s s' ∧ other_feeds_same f s s' ∧
    keeps_subs s s' ∧ is_Some (fd_subs s'.1 !! (u, f)).
Proof.
  intros W F. pose proof (subscribeTx_wf s u f None W) as W'. destruct (subscribeTx_frame s u f None) as (A & B & C). unfold subscribe_new.
  destruct (subscribeTx_cases s u f None) as [(e & E & D)|(N & _ & _ & E)]; rewrite E in *; cbn [fst] in *.
  - destruct D as [[-> D]|[-> [D|D]]]; [|done|destruct F; congruence]. exists s. split; [done|]. do 4 (split; [done|]). split; [by intros k|exact D].
  - eexists. split; [reflexivity|]. repeat (split; [done|]). split.
    + intros k H. cbn [fst with_subs fd_subs]. destruct (decide ((u, f) = k)) as [<-|]; [rewrite lookup_insert_eq; eauto|by rewrite lookup_insert_ne].
    + cbn [fst with_subs fd_subs]. rewrite lookup_insert_eq. eauto.
Qed.

Lemma elem_of_followers fdb k u : u ∈ followers fdb k ↔ (u, k) ∈ fd_followers fdb.
Proof.
  unfold followers. rewrite merge_sort_Permutation, list_elem_of_omap. split.
  - intros ([v j] & H%elem_of_elements & E). cbn [fst snd] in E. destruct (Z.eqb_spec j k); [|done]. by injection E as <-; subst.
  - intros H. exists (u, k). split; [by apply elem_of_elements|]. cbn [fst snd]. by rewrite Z.eqb_refl.
Qed.

Lemma keeps_subs_trans s1 s2 s3 : keeps_subs s1 s2 → keeps_subs s2 s3 → keeps_subs s1 s3.
Proof. intros A B k H. by apply B, A. Qed.
Lemma other_feeds_same_trans f s1 s2 s3 : other_feeds_same f s1 s2 → other_feeds_same f s2 s3 → other_feeds_same f s1 s3.
Proof. intros A B u g N. rewrite (B u g N). by apply A. Qed.

Lemma subscribeFollowersTx_spec f k s : tables_wf hdb s → is_Some (fd_feeds s.1 !! f) →
  ∃ s', subscribeFollowersTx hdb f k s = (s', inr tt) ∧ tables_wf hdb s' ∧ same_catalogue s s' ∧ other_feeds_same f s s' ∧ keeps_subs s s' ∧
    ∀ u, (u, k) ∈ fd_followers s.1 → is_Some (fd_subs s'.1 !! (u, f)).
Proof.
  intros W F. unfold subscribeFollowersTx.
  destruct (tx_each_all (λ s', tables_wf hdb s' ∧ same_catalogue s s' ∧ other_feeds_same f s s' ∧ keeps_subs s s')
    (λ u s', is_Some (fd_subs s'.1 !! (u, f))) (λ u, subscribe_new hdb u f)
    (filter (λ u, fd_subs s.1 !! (u, f) = None) (followers s.1 k)) s) as (s' & E & (I1 & I2 & I3 & I4) & Q & K).
  - intros u t _ (W1 & C1 & O1 & K1). destruct (subscribe_new_spec u f t W1) as (t' & E & W2 & C2 & _ & O2 & K2 & U2).
    { destruct C1 as (-> & _). exact F. }
    exists t'. split; [exact E|]. split; [|split; [exact U2|intros y; apply K2]]. split; [exact W2|].
    split; [by eapply same_catalogue_trans|]. split; [by eapply other_feeds_same_trans|by eapply keeps_subs_trans].
  - split; [exact W|]. do 2 (split; [done|]). by intros j.
  - exists s'. split; [exact E|]. split; [exact I1|]. split; [exact I2|]. split; [exact I3|]. split; [exact I4|].
    intros u H. destruct (fd_subs s.1 !! (u, f)) eqn:S; [apply I4; eauto|]. apply Q, list_elem_of_filter. split; [done|]. by apply elem_of_followers.
Qed.

(** Dropping readers of a feed. *)
Lemma drop_readers_spec f users s : tables_wf hdb s →
  ∃ s', tx_each (λ u s, match unsubscribeTx s u f with
                        | (s, inl e) => if err_is_not_found e then (s, inr tt) else (s, inl e)
                        | (s, inr _) => (s, inr tt)
                        end) users s = (s', inr tt) ∧ tables_wf hdb s' ∧ same_catalogue s s' ∧ other_feeds_same f s s'.
Proof.
  intros W. destruct (tx_each_all (λ s', tables_wf hdb s' ∧ same_catalogue s s' ∧ other_feeds_same f s s') (λ _ _, True)
    (λ u s, match unsubscribeTx s u f with
            | (s, inl e) => if err_is_not_found e then (s, inr tt) else (s, inl e)
            | (s, inr _) => (s, inr tt)
            end) users s) as (s' & E & (I1 & I2 & I3) & _); [|by split|by exists s'].
  intros u t _ (W1 & C1 & O1). pose proof (unsubscribeTx_wf t u f W1) as W2. destruct (unsubscribeTx_frame t u f) as (C2 & _ & O2).
  destruct (unsubscribeTx_cases t u f) as [[_ E]|[_ E]]; rewrite E in *; cbn [fst] in *; eexists; (split; [reflexivity|]); (split; [|done]).
  - done.
  - split; [exact W2|]. split; [by eapply same_catalogue_trans|by eapply other_feeds_same_trans].
Qed.

(** The readers of all feeds but one are what their categories ask for. *)
Definition follows_reads_but (f : Z) (fdb : FeedDb) : Prop :=
  ∀ u k id r, id ≠ f → (u, k) ∈ fd_followers fdb → fd_feeds fdb !! id = Some r → f_category_id r = Some k → is_Some (fd_subs fdb !! (u, id)).

(** Moving a feed between categories: the followers of its category read it afterwards. *)
Lemma syncCategoryFollowersTx_spec f r old new s : tables_wf hdb s → fd_feeds s.1 !! f = Some r → f_category_id r = new →
  follows_reads_but f s.1 → (∀ k u, old = Some k → new = Some k → (u, k) ∈ fd_followers s.1 → is_Some (fd_subs s.1 !! (u, f))) →
  ∃ s', syncCategoryFollowersTx hdb f old new s = (s', inr tt) ∧ tables_wf hdb s' ∧ same_catalogue s s' ∧ other_feeds_same f s s' ∧
    follows_reads s'.1.
Proof.
  intros W F Fc Fr Fs. unfold syncCategoryFollowersTx.
  set (dropped := match old with Some _ => _ | None => _ end).
  assert (D : ∃ s1, dropped = (s1, inr tt) ∧ tables_wf hdb s1 ∧ same_catalogue s s1 ∧ other_feeds_same f s s1 ∧ (old = new → s1 = s)).
  { unfold dropped. destruct old as [k|]; [|by exists s]. destruct (decide (new = Some k)) as [->|N]; [by exists s|].
    match goal with |- context [tx_each ?g ?us s] => destruct (drop_readers_spec f us s W) as (s1 & -> & ? & ? & ?) end.
    exists s1. repeat (split; [done|]). congruence. }
  destruct D as (s1 & -> & W1 & C1 & O1 & Same).
  assert (Ff : ∀ s2, tables_wf hdb s2 → same_catalogue s s2 → other_feeds_same f s s2 →
    (∀ k u, new = Some k → (u, k) ∈ fd_followers s.1 → is_Some (fd_subs s2.1 !! (u, f))) → follows_reads s2.1).
  { intros s2 W2 (E1 & _ & _ & E4 & _) O2 H u k id r' Hf Hr Hc. rewrite E4 in Hf. rewrite E1 in Hr.
    destruct (decide (id = f)) as [->|N]; [|rewrite O2 by done; by eapply Fr].
    assert (r' = r) as -> by congruence. apply (H k); [congruence|done]. }
  destruct new as [k|].
  - destruct (decide (old = Some k)) as [->|N].
    + exists s1. repeat (split; [done|]). rewrite Same by done. apply Ff; [done..|]. intros j u [= <-] H. by eapply Fs.
    + destruct (subscribeFollowersTx_spec f k s1 W1) as (s2 & -> & W2 & C2 & O2 & K2 & U2); [destruct C1 as (-> & _); eauto|].
      exists s2. split; [done|]. split; [done|]. assert (C3 : same_catalogue s s2) by by eapply same_catalogue_trans.
      assert (O3 : other_feeds_same f s s2) by by eapply other_feeds_same_trans. repeat (split; [done|]).
      apply Ff; [done..|]. intros j u [= <-] H. apply U2. by destruct C1 as (_ & _ & _ & -> & _).
  - exists s1. repeat (split; [done|]). by apply Ff.
Qed.

(** ** New entries *)

Lemma elem_of_subscribers fdb f u : u ∈ subscribers fdb f ↔ is_Some (fd_subs fdb !! (u, f)).
Proof.
  unfold subscribers, ListFeedSubscribers. rewrite merge_sort_Permutation, list_elem_of_fmap. split.
  - intros (x & -> & ([[v g] w] & H%elem_of_map_to_list & E)%list_elem_of_omap). destruct (Z.eqb_spec g f) as [->|]; [|done].
    injection E as <-. eauto.
  - intros [w H]. exists (mkSubscription u f w). split; [done|]. apply list_elem_of_omap. exists ((u, f), w).
    split; [by apply elem_of_map_to_list|]. by rewrite Z.eqb_refl.
Qed.

(** A poll's items touch the entries and the unread marks alone, and belong to a feed that is there. *)
Lemma createEntries_frame dedup_key now fdb db feed entries relay db' n created :
  createEntries dedup_key now fdb db feed entries relay = (db', inr (n, created)) →
  ed_user db' = ed_user db ∧ ed_labels db' = ed_labels db ∧ (created = [] ∨ is_Some (fd_feeds fdb !! feed)).
Proof.
  unfold createEntries. destruct entries as [|x xs]; [intros [= <- _ <-]; by eauto|].
  destruct (existsb _ _); [done|]. destruct (filter _ _) as [|y ys]; [intros [= <- _ <-]; by eauto|].
  destruct (fd_feeds fdb !! feed); [|done].
  assert (F : ∀ l acc, let r := foldl (insert_row dedup_key now feed relay) acc l in ed_user r.1 = ed_user acc.1 ∧ ed_labels r.1 = ed_labels acc.1).
  { induction l as [|z l IH]; intros acc; [done|]. cbn [foldl]. destruct (IH (insert_row dedup_key now feed relay acc z)) as [-> ->].
    unfold insert_row. destruct acc as [d ins]. by destruct (decide _). }
  pose proof (F (y :: ys) (db, [])) as G. cbv zeta in G. destruct (foldl _ _ _) as [d rows]. intros [= <- _ _]. cbn [fst] in G.
  destruct G as [G1 G2]. by destruct relay; cbn [fan_out with_unread ed_user ed_labels]; eauto.
Qed.

Lemma tables_wf_createEntries dedup_key now s feed entries relay : tables_wf hdb s →
  tables_wf hdb (s.1, (createEntries dedup_key now s.1 s.2 feed entries relay).1).
Proof.
  intros W. destruct (createEntries dedup_key now s.1 s.2 feed entries relay) as [db' [e|[n created]]] eqn:E.
  { assert (db' = s.2) as ->; [|by destruct s]. revert E. unfold createEntries. destruct entries as [|x xs]; [done|].
    destruct (existsb _ _); [by intros [= <- _]|]. destruct (filter _ _) as [|y ys]; [done|]. destruct (fd_feeds _ !! feed); [|by intros [= <- _]].
    by destruct (foldl _ _ _). }
  cbn [fst]. pose proof (tables_entries_wf _ _ W) as EW. destruct (createEntries_frame _ _ _ _ _ _ _ _ _ _ E) as (Eu & _ & Ef).
  pose proof (createEntries_new _ _ _ _ _ _ _ _ _ _ E) as New.
  destruct (createEntries_spec _ _ _ _ _ _ _ _ _ _ EW E) as (_ & EW' & _ & _ & Old & _ & fresh & rows & -> & _ & _ & Un & Rows).
  assert (Row : ∀ i r, ed_entries db' !! i = Some r → ed_entries s.2 !! i = Some r ∨ er_feed_id r = feed ∧ is_Some (fd_feeds s.1 !! feed)).
  { intros i r L. destruct (New i r L) as [H|(c & Hc & <-)]; [by left|]. right.
    destruct Ef as [Ef|Ef]; [rewrite Ef in Hc; by apply elem_of_nil in Hc|]. split; [|done].
    apply list_elem_of_fmap in Hc as (r' & -> & Hr). cbn [created_entry e_id] in L. destruct (Rows r' Hr) as (_ & L' & _ & x & _ & Er). assert (r = r') as -> by congruence. by rewrite Er. }
  destruct W. split; cbn [fst snd] in *; try assumption; try apply EW'.
  - intros e r L. split; [by apply (ewf_key _ EW')|]. destruct (Row e r L) as [H|[-> H]]; [by apply (tw_entry0 e)|done].
  - intros e u f t H. rewrite Un in H. rewrite Eu.
    assert (Keep : ed_unread s.2 !! (e, u) = Some (f, t) → is_Some (fd_subs s.1 !! (u, f)) ∧
      (∃ r, ed_entries db' !! e = Some r ∧ er_feed_id r = f ∧ er_sort_at r = t ∧ er_removed_at r = None) ∧
      (∀ x, ed_user s.2 !! (e, u) = Some x → ue_removed x = false)).
    { intros K. destruct (tw_unread0 _ _ _ _ K) as (A & (r & L & B) & D). split; [done|]. split; [|done]. exists r. split; [by apply Old|done]. }
    destruct relay; [by apply Keep|]. apply lookup_union_Some_raw in H as [H|[_ H]]; [|by apply Keep].
    apply elem_of_list_to_map_2, list_elem_of_bind in H as (r & (v & [= -> -> -> ->] & Hv)%list_elem_of_fmap & Hr).
    destruct (Rows r Hr) as (_ & L & Fresh & x & _ & Er). assert (Fr : er_feed_id r = feed) by by rewrite Er.
    split; [rewrite Fr; by apply elem_of_subscribers|]. split; [exists r; split; [done|]; by rewrite Er|].
    intros y Y. destruct (tw_user0 _ _ _ Y) as (r2 & L2 & _). congruence.
  - intros e u x H. rewrite Eu in H. destruct (tw_user0 _ _ _ H) as (r & L & So & S). exists r. split; [by apply Old|done].
Qed.

End Tables.

(** * Operations *)

Inductive cat_op :=
| OpCreateFeed (now userID : Z) (p : CreateFeedParams)
| OpUpdateFeed (userID : Z) (p : UpdateFeedParams)
| OpDeleteFeed (userID id : Z)
| OpIcon (id : Z) (url data : string)
| OpSubscribe (userID feedID : Z) (webhookID : option Z)
| OpSubscribeByURL (userID : Z) (url : string) (webhookID : option Z)
| OpUpdateSub (userID feedID : Z) (webhookID : option Z)
| OpUnsubscribe (userID feedID : Z)
| OpBulk (userID cat : Z) (u : BulkFeedUpdate)
| OpCreateCategory (title color : string)
| OpUpdateCategory (id : Z) (title color : string)
| OpReorder (ids : list Z)
| OpDeleteCategory (id : Z)
| OpFollow (userID cat : Z)
| OpUnfollow (userID cat : Z)
| OpCreateInbound (now : Z) (secret address : string) (userID : Z) (p : CreateInboundFeedParams)
| OpRotate (secret : string) (feedID : Z).

Section Ops.
Context (title_key : string → string).
Notation wf := (catalog_wf title_key).

Definition run_cat_op (op : cat_op) (c : Catalog) : Catalog :=
  match op with
  | OpCreateFeed now u p => (CreateFeed now c u p).1
  | OpUpdateFeed u p => (UpdateFeed c u p).1
  | OpDeleteFeed u id => (DeleteFeed c u id).1
  | OpIcon id url data => (UpdateFeedIcon c id url data).1
  | OpSubscribe u f w => (lift_tx c (Subscribe (ct_hooks c) (tables c) u f w)).1
  | OpSubscribeByURL u url w => (SubscribeByURL c u url w).1
  | OpUpdateSub u f w => (UpdateSubscription c u f w).1
  | OpUnsubscribe u f => (lift_tx c (Unsubscribe (tables c) u f)).1
  | OpBulk u cat x => (BulkUpdateFeedsByCategory c u cat x).1
  | OpCreateCategory t col => (CreateCategory title_key c t col).1
  | OpUpdateCategory id t col => (UpdateCategory title_key c id t col).1
  | OpReorder ids => (ReorderCategories c ids).1
  | OpDeleteCategory id => (DeleteCategory c id).1
  | OpFollow u k => (FollowCategory c u k).1
  | OpUnfollow u k => (UnfollowCategory c u k).1
  | OpCreateInbound now secret address u p => (CreateInboundFeed now secret address c u p).1
  | OpRotate secret id => (RotateInboundSecret secret c id).1
  end.

(** ** Reading *)

Lemma follows_reads_mono s s' : same_catalogue s s' → keeps_subs s s' → follows_reads s.1 → follows_reads s'.1.
Proof. intros (E1 & _ & _ & E4 & _) K F u k id f Hf Hr Hc. rewrite E4 in Hf. rewrite E1 in Hr. apply K. by eapply F. Qed.

Lemma wf_with_tables c s : wf c → tables_wf (ct_hooks c) s → same_catalogue (tables c) s → follows_reads s.1 → wf (with_tables c s).
Proof.
  intros W T (E1 & E2 & E3 & _) F. destruct W. cbn [tables fst] in *. destruct s as [fdb db]. cbn [fst snd] in *.
  split; cbn [with_tables ct_feeds ct_entries ct_hooks ct_more ct_next ct_cats ct_next_cat fst snd]; rewrite ?E1, ?E3; done.
Qed.

Lemma wf_subscribed c s : wf c → tables_wf (ct_hooks c) s → same_catalogue (tables c) s → keeps_subs (tables c) s → wf (with_tables c s).
Proof. intros W T C K. apply wf_with_tables; [done..|]. eapply follows_reads_mono; [done..|]. apply W. Qed.

Lemma keeps_subscribeTx hdb s u f w : keeps_subs s (subscribeTx hdb s u f w).1.
Proof.
  destruct (subscribeTx_cases hdb s u f w) as [(e & -> & _)|(N & _ & _ & ->)]; intros k H; [done|]. cbn [fst with_subs fd_subs].
  destruct (decide ((u, f) = k)) as [<-|]; [rewrite lookup_insert_eq; eauto|by rewrite lookup_insert_ne].
Qed.

Lemma wf_Subscribe c u f w : wf c → wf (lift_tx c (Subscribe (ct_hooks c) (tables c) u f w)).1.
Proof.
  intros W. pose proof (subscribeTx_wf (ct_hooks c) (tables c) u f w (cw_tables _ _ W)) as T.
  destruct (subscribeTx_frame (ct_hooks c) (tables c) u f w) as (C & _). pose proof (keeps_subscribeTx (ct_hooks c) (tables c) u f w) as K.
  unfold Subscribe, withTx. destruct (subscribeTx _ _ _ _ _) as [s [e|x]]; cbn [lift_tx fst] in *; [exact W|by apply wf_subscribed].
Qed.

Lemma wf_SubscribeByURL c u url w : wf c → wf (SubscribeByURL c u url w).1.
Proof.
  intros W. unfold SubscribeByURL. destruct (feed_by_url _ _) as [f|]; [|exact W].
  pose proof (subscribeTx_wf (ct_hooks c) (tables c) u f w (cw_tables _ _ W)) as T.
  destruct (subscribeTx_frame (ct_hooks c) (tables c) u f w) as (C & _). pose proof (keeps_subscribeTx (ct_hooks c) (tables c) u f w) as K.
  destruct (subscribeTx _ _ _ _ _) as [s [e|x]]; cbn [fst] in *; [exact W|]. destruct (GetFeed _ _ _); [exact W|by apply wf_subscribed].
Qed.

Lemma wf_Unsubscribe c u f : wf c → wf (lift_tx c (Unsubscribe (tables c) u f)).1.
Proof.
  intros W. pose proof (unsubscribeTx_wf (ct_hooks c) (tables c) u f (cw_tables _ _ W)) as T.
  destruct (unsubscribeTx_frame (tables c) u f) as (C & O & Of). unfold Unsubscribe, withTx. destruct (if _ : bool then _ else _) as [s [e|x]] eqn:E; [exact W|].
  cbn [lift_tx fst]. destruct (match _ with Some _ => _ | None => _ end : bool) eqn:B in E; [done|]. rewrite E in *. cbn [fst] in *.
  apply wf_with_tables; [done..|]. intros v k id r Hf Hr Hc. destruct C as (E1 & _ & _ & E4 & _). rewrite E4 in Hf. rewrite E1 in Hr.
  destruct (decide (id = f)) as [->|N]; [|rewrite Of by done; by eapply (cw_reads _ _ W)].
  destruct (decide (v = u)) as [->|N]; [|destruct (O v N) as (-> & _); by eapply (cw_reads _ _ W)].
  rewrite Hr, Hc in B. apply bool_decide_eq_false in B. done.
Qed.

Lemma wf_UpdateSubscription c u f w : wf c → wf (UpdateSubscription c u f w).1.
Proof.
  intros W. unfold UpdateSubscription. destruct (checkSubscriptionRefs _ _ _) eqn:R; cbn [negb]; [|exact W].
  destruct (fd_subs (ct_feeds c) !! (u, f)) as [x|] eqn:S; [|exact W]. cbn [fst].
  assert (K : ∀ k, is_Some (<[(u, f) := w]> (fd_subs (ct_feeds c)) !! k) ↔ is_Some (fd_subs (ct_feeds c) !! k)).
  { intros k. destruct (decide ((u, f) = k)) as [<-|]; [rewrite lookup_insert_eq, S; split; eauto|by rewrite lookup_insert_ne]. }
  pose proof (cw_tables _ _ W) as T. apply wf_with_tables; [done| |done|].
  - destruct T. split; cbn [tables fst snd with_subs fd_feeds fd_poll fd_subs fd_cats fd_followers ed_entries ed_unread ed_user] in *; try assumption.
    + intros v g y [[[= <- <-] <-]|[_ H]]%lookup_insert_Some; [split; [by eapply tw_sub0|done]|by eapply tw_sub0].
    + intros e v g t H. rewrite K. by apply tw_unread0.
    + intros e v y H. destruct (tw_user0 _ _ _ H) as (r & L & A). exists r. by rewrite K.
  - intros v k id r Hf Hr Hc. cbn [fst with_subs fd_subs fd_followers fd_feeds] in *. rewrite K. by eapply (cw_reads _ _ W).
Qed.

(** ** Categories followed *)

Lemma elem_of_category_feeds fdb k id : id ∈ category_feeds fdb k ↔ ∃ f, fd_feeds fdb !! id = Some f ∧ f_category_id f = Some k.
Proof.
  unfold category_feeds. rewrite merge_sort_Permutation, list_elem_of_fmap. split.
  - intros ([i f] & -> & H). apply elem_of_map_to_list, map_lookup_filter_Some in H as [L C]. eauto.
  - intros (f & L & C). exists (id, f). split; [done|]. apply elem_of_map_to_list, map_lookup_filter_Some. done.
Qed.

Lemma subscribeCategoryFeedsTx_spec hdb u k s : tables_wf hdb s → ∃ s' n, subscribeCategoryFeedsTx hdb u k s = (s', inr n) ∧ tables_wf hdb s' ∧
  same_catalogue s s' ∧ others_same u s s' ∧ keeps_subs s s' ∧
  ∀ id f, fd_feeds s.1 !! id = Some f → f_category_id f = Some k → is_Some (fd_subs s'.1 !! (u, id)).
Proof.
  intros W. unfold subscribeCategoryFeedsTx. set (ids := filter _ _).
  destruct (tx_each_all (λ s', tables_wf hdb s' ∧ same_catalogue s s' ∧ others_same u s s' ∧ keeps_subs s s')
    (λ f s', is_Some (fd_subs s'.1 !! (u, f))) (λ f, subscribe_new hdb u f) ids s) as (s' & E & (I1 & I2 & I3 & I4) & Q & _).
  - intros f t H (W1 & C1 & O1 & K1). apply list_elem_of_filter in H as [_ (r & L & _)%elem_of_category_feeds].
    destruct (subscribe_new_spec hdb u f t W1) as (t' & E & W2 & C2 & O2 & _ & K2 & U2); [destruct C1 as (-> & _); eauto|].
    exists t'. split; [exact E|]. split; [|split; [exact U2|intros y; apply K2]]. split; [exact W2|].
    split; [by eapply same_catalogue_trans|]. split; [by eapply others_same_trans|by eapply keeps_subs_trans].
  - split; [exact W|]. split; [done|]. split; [done|]. by intros j.
  - rewrite E. exists s'. eexists. split; [reflexivity|]. do 4 (split; [done|]). intros id f L C.
    destruct (fd_subs s.1 !! (u, id)) eqn:S; [apply I4; eauto|]. apply Q, list_elem_of_filter. split; [done|]. apply elem_of_category_feeds. eauto.
Qed.

Lemma tables_wf_followers hdb fdb db F : tables_wf hdb (fdb, db) → (∀ u k, (u, k) ∈ F → is_Some (fd_cats fdb !! k)) →
  tables_wf hdb (mkFeedDb (fd_feeds fdb) (fd_poll fdb) (fd_subs fdb) (fd_cats fdb) F, db).
Proof. intros [] H. by split. Qed.

Lemma wf_Follow c u k : wf c → wf (FollowCategory c u k).1.
Proof.
  intros W. pose proof (cw_tables _ _ W) as T. unfold FollowCategory, withTx. cbn [tables fst snd].
  destruct (fd_cats (ct_feeds c) !! k) as [h|] eqn:Hk; [|exact W].
  match goal with |- context [subscribeCategoryFeedsTx ?hdb u k ?s0] => set (s := s0) end.
  assert (T0 : tables_wf (ct_hooks c) s).
  { apply tables_wf_followers; [exact T|]. intros v j [[= -> ->]%elem_of_singleton|H]%elem_of_union; [eauto|]. by eapply (tw_follow _ _ T). }
  destruct (subscribeCategoryFeedsTx_spec (ct_hooks c) u k s T0) as (s' & n & E & T' & C & O & K & R). rewrite E. cbn [lift_tx fst].
  destruct C as (E1 & E2 & E3 & E4 & E5 & E6 & E7).
  assert (Fr : follows_reads s'.1).
  { intros v j id f Hf Hr Hc. rewrite E4 in Hf. rewrite E1 in Hr. cbn [s fst fd_followers fd_feeds] in Hf, Hr.
    apply elem_of_union in Hf as [[= -> ->]%elem_of_singleton|Hf]; [by eapply R|]. apply K. by eapply (cw_reads _ _ W). }
  destruct W. split; cbn [with_tables ct_feeds ct_entries ct_hooks ct_more ct_next ct_cats ct_next_cat]; rewrite ?E1, ?E3; try done.
  by destruct s'.
Qed.

Lemma wf_Unfollow c u k : wf c → wf (UnfollowCategory c u k).1.
Proof.
  intros W. pose proof (cw_tables _ _ W) as T. unfold UnfollowCategory, withTx. cbn [tables fst snd].
  destruct (decide _) as [Hk|]; [|exact W]. match goal with |- context [tx_each ?g ?l ?s0] => set (s := s0); set (ids := l) end.
  assert (T0 : tables_wf (ct_hooks c) s).
  { apply tables_wf_followers; [exact T|]. intros v j [H _]%elem_of_difference. by eapply (tw_follow _ _ T). }
  assert (I : let s' := (tx_each (λ id s, unsubscribeTx s u id) ids s).1 in
    tables_wf (ct_hooks c) s' ∧ same_catalogue s s' ∧ others_same u s s' ∧ ∀ g, g ∉ ids → fd_subs s'.1 !! (u, g) = fd_subs s.1 !! (u, g)).
  { apply (tx_each_inv (λ s', tables_wf (ct_hooks c) s' ∧ same_catalogue s s' ∧ others_same u s s' ∧
      ∀ g, g ∉ ids → fd_subs s'.1 !! (u, g) = fd_subs s.1 !! (u, g))); [|done].
    intros f t Hf (W1 & C1 & O1 & G1). destruct (unsubscribeTx_frame t u f) as (C2 & O2 & F2). split; [by apply unsubscribeTx_wf|].
    split; [by eapply same_catalogue_trans|]. split; [by eapply others_same_trans|]. intros g Hg. rewrite F2; [by apply G1|]. by intros ->. }
  cbv zeta in I. destruct (tx_each _ ids s) as [s' [e|x]]; [exact W|]. cbn [lift_tx fst] in *. destruct I as (T' & (E1 & E2 & E3 & E4 & _) & O & G).
  assert (Fr : follows_reads s'.1).
  { intros v j id f Hf Hr Hc. rewrite E4 in Hf. rewrite E1 in Hr. cbn [s fst fd_followers fd_feeds] in Hf, Hr.
    apply elem_of_difference in Hf as [Hf N]. pose proof (cw_reads _ _ W v j id f Hf Hr Hc) as R.
    destruct (decide (v = u)) as [->|Ne]; [|destruct (O v Ne) as (-> & _); exact R].
    rewrite G; [exact R|]. intros [_ (f' & L & C)%elem_of_category_feeds]%list_elem_of_filter. apply N, elem_of_singleton. congruence. }
  destruct W. split; cbn [with_tables ct_feeds ct_entries ct_hooks ct_more ct_next ct_cats ct_next_cat]; rewrite ?E1, ?E3; try done.
  by destruct s'.
Qed.

(** ** The catalogue itself *)

Lemma insert_is_Some {K A} `{Countable K} (m : gmap K A) i x k : is_Some (m !! k) → is_Some (<[i := x]> m !! k).
Proof. intros H1. destruct (decide (i = k)) as [<-|]; [rewrite lookup_insert_eq; eauto|by rewrite lookup_insert_ne]. Qed.

Lemma url_free fdb id url : url_taken fdb id url = false → ∀ k f, k ≠ id → fd_feeds fdb !! k = Some f → f_url f ≠ url.
Proof. unfold url_taken. intros H%bool_decide_eq_false k f N L E. apply H. by exists k, f. Qed.

(** A feed row that takes the place of the old one or is new. *)
Lemma tables_wf_put_feed hdb s id r g : tables_wf hdb s → url_taken s.1 id (f_url r) = false → category_ok s.1 (f_category_id r) = true →
  is_Some (g !! id) → (∀ k, k ≠ id → is_Some (g !! k) ↔ is_Some (fd_poll s.1 !! k)) →
  tables_wf hdb (with_poll (with_feeds s.1 (<[id := r]> (fd_feeds s.1))) g, s.2).
Proof.
  intros W U C G1 G2. split; cbn [fst snd with_poll with_feeds fd_feeds fd_poll fd_subs fd_cats fd_followers].
  - intros k. destruct (decide (id = k)) as [<-|N]; [rewrite lookup_insert_eq; split; eauto|].
    rewrite lookup_insert_ne by done. rewrite (G2 k) by done. apply W.
  - intros i j f h [[<- <-]|[Ni Hi]]%lookup_insert_Some [[<- <-]|[Nj Hj]]%lookup_insert_Some E; [done| | |by eapply tw_url].
    + by destruct (url_free _ _ _ U j h ltac:(done) Hj).
    + by destruct (url_free _ _ _ U i f ltac:(done) Hi).
  - intros k f c [[<- <-]|[N H]]%lookup_insert_Some E; [|by eapply tw_cat]. rewrite E in C. by apply bool_decide_eq_true in C.
  - intros u f w H. destruct (tw_sub _ _ W _ _ _ H). split; [by apply insert_is_Some|done].
  - apply W.
  - intros e x H. destruct (tw_entry _ _ W _ _ H). split; [done|by apply insert_is_Some].
  - apply W.
  - apply W.
  - apply W.
  - apply W.
  - apply W.
Qed.

Lemma tables_wf_put_sub hdb s u id w : tables_wf hdb s → is_Some (fd_feeds s.1 !! id) → checkSubscriptionRefs hdb u w = true →
  tables_wf hdb (with_subs s.1 (<[(u, id) := w]> (fd_subs s.1)), s.2).
Proof.
  intros W F C. split; cbn [fst snd with_subs fd_feeds fd_poll fd_subs fd_cats fd_followers]; try apply W.
  - intros v g x [[[= <- <-] <-]|[_ H]]%lookup_insert_Some; [done|by eapply tw_sub].
  - intros e v g t H. destruct (tw_unread _ _ W _ _ _ _ H) as (A & B). split; [by apply insert_is_Some|done].
  - intros e v x H. destruct (tw_user _ _ W _ _ _ H) as (r & L & So & A). exists r. do 2 (split; [done|]). by apply insert_is_Some.
Qed.

Lemma create_feed_tx_spec now u ft mode p c s b : wf c → create_feed_tx now u ft mode p c (tables c) = (s, inr b) →
  tables_wf (ct_hooks c) s ∧ follows_reads s.1 ∧ fd_cats s.1 = fd_cats (ct_feeds c) ∧
  fd_feeds s.1 = <[ct_next c := new_feed_row now (ct_next c) u ft mode p]> (fd_feeds (ct_feeds c)).
Proof.
  intros W. set (id := ct_next c). set (row := new_feed_row now id u ft mode p).
  assert (Fresh : fd_feeds (ct_feeds c) !! id = None).
  { apply eq_None_not_Some. intros H. apply (cw_more _ _ W) in H. apply (cw_next _ _ W) in H. unfold id in H. lia. }
  unfold create_feed_tx. fold id. destruct (url_taken _ _ _) eqn:U; [done|]. destruct (category_ok _ _) eqn:C; cbn [negb]; [|done]. cbv zeta.
  match goal with |- context [if cp_SkipOwnerSubscription p then (?s0, _) else _] => set (s1 := s0) end.
  assert (T1 : tables_wf (ct_hooks c) s1).
  { apply (tables_wf_put_feed (ct_hooks c) (tables c) id row _ (cw_tables _ _ W)); [exact U|exact C|rewrite lookup_insert_eq; eauto|].
    intros k N. by rewrite lookup_insert_ne. }
  set (own := if cp_SkipOwnerSubscription p then _ else _).
  assert (O : ∀ s2 b2, own = (s2, inr b2) → tables_wf (ct_hooks c) s2 ∧ fd_feeds s2.1 = fd_feeds s1.1 ∧ fd_cats s2.1 = fd_cats s1.1 ∧
    fd_followers s2.1 = fd_followers s1.1 ∧ keeps_subs s1 s2).
  { unfold own. destruct (cp_SkipOwnerSubscription p); [intros s2 b2 [= <- _]; do 4 (split; [done|]); by intros k|].
    destruct (checkSubscriptionRefs _ _ _) eqn:R; cbn [negb]; [|done]. intros s2 b2 [= <- _].
    split; [apply (tables_wf_put_sub (ct_hooks c) s1); [exact T1| |done]|].
    - cbn [s1 fst with_poll with_feeds fd_feeds]. rewrite lookup_insert_eq. eauto.
    - do 3 (split; [done|]). intros k. apply insert_is_Some. }
  destruct own as [s2 [e|b2]]; [done|]. destruct (O s2 b2 eq_refl) as (T2 & E1 & E2 & E3 & K). clear O.
  assert (Fb : follows_reads_but id s2.1).
  { intros v k i r N Hf Hr Hc. apply K. rewrite E3 in Hf. rewrite E1 in Hr. cbn [s1 fst with_poll with_feeds fd_feeds] in Hr.
    rewrite lookup_insert_ne in Hr by done. by eapply (cw_reads _ _ W). }
  assert (L2 : fd_feeds s2.1 !! id = Some row) by (rewrite E1; cbn [s1 fst with_poll with_feeds fd_feeds]; by rewrite lookup_insert_eq).
  assert (All : ∀ t, tables_wf (ct_hooks c) t → same_catalogue s2 t → other_feeds_same id s2 t →
    (∀ k u', cp_CategoryID p = Some k → (u', k) ∈ fd_followers s2.1 → is_Some (fd_subs t.1 !! (u', id))) →
    tables_wf (ct_hooks c) t ∧ follows_reads t.1 ∧ fd_cats t.1 = fd_cats (ct_feeds c) ∧ fd_feeds t.1 = <[id := row]> (fd_feeds (ct_feeds c))).
  { intros t Tt (C1 & _ & C3 & C4 & _) O H. split; [done|]. split; [|by rewrite C1, C3, E1, E2].
    intros v k i r Hf Hr Hc. rewrite C4 in Hf. rewrite C1 in Hr. destruct (decide (i = id)) as [->|N]; [|rewrite O by done; by eapply Fb].
    apply (H k); [|done]. rewrite L2 in Hr. injection Hr as <-. exact Hc. }
  destruct (cp_CategoryID p) as [k|] eqn:Ck; [|intros [= <- _]; by apply All].
  destruct (subscribeFollowersTx_spec (ct_hooks c) id k s2 T2) as (s3 & E & T3 & C3 & O3 & _ & R3); [rewrite L2; eauto|].
  rewrite E. intros [= <- _]. apply All; [done..|]. intros j v [= <-]. apply R3.
Qed.

Lemma wf_CreateFeed now c u p : wf c → wf (CreateFeed now c u p).1.
Proof.
  intros W. unfold CreateFeed. destruct (ValidateEntryRetentionDays _); cbn [negb]; [|exact W].
  destruct (NormalizeStoreMode _) as [mode|]; [|exact W]. unfold withTx. set (ft := if String.eqb _ _ then _ else _).
  destruct (create_feed_tx now u ft mode p c (tables c)) as [s [e|b]] eqn:E; [exact W|]. cbn [fst].
  apply create_feed_tx_spec in E as (T & F & E1 & E2); [|exact W]. pose proof W as W0. destruct W0.
  split; cbn [ct_feeds ct_entries ct_hooks ct_more ct_next ct_cats ct_next_cat]; rewrite ?E1, ?E2; try assumption.
  - by destruct s.
  - intros k. destruct (decide (ct_next c = k)) as [<-|N]; [rewrite !lookup_insert_eq; split; eauto|by rewrite !lookup_insert_ne].
  - intros k. destruct (decide (ct_next c = k)) as [<-|N]; [lia|]. rewrite lookup_insert_ne by done. intros H%cw_next0. lia.
  - intros k f [[<- <-]|[_ H]]%lookup_insert_Some; [done|by apply cw_id0].
Qed.

Lemma update_feed_tx_spec u mode p c s : wf c → update_feed_tx u mode p (ct_hooks c) (tables c) = (s, inr tt) →
  tables_wf (ct_hooks c) s ∧ follows_reads s.1 ∧ fd_cats s.1 = fd_cats (ct_feeds c) ∧
  ∃ r, fd_feeds (ct_feeds c) !! up_ID p = Some r ∧ fd_feeds s.1 = <[up_ID p := updated_row p mode r]> (fd_feeds (ct_feeds c)).
Proof.
  intros W. unfold update_feed_tx. destruct (checkSubscriptionRefs _ _ _) eqn:R; cbn [negb]; [|done]. cbn [tables fst snd].
  destruct (fd_feeds (ct_feeds c) !! up_ID p) as [r|] eqn:L; [|done]. cbv zeta.
  set (f1 := with_subs (ct_feeds c) _). destruct (url_taken f1 _ _) eqn:U; [done|]. destruct (category_ok f1 _) eqn:C; cbn [negb]; [|done].
  assert (T1 : tables_wf (ct_hooks c) (f1, ct_entries c)).
  { unfold f1. destruct (fd_subs (ct_feeds c) !! (u, up_ID p)) as [w|] eqn:S.
    - replace (alter _ _ _) with (<[(u, up_ID p) := up_WebhookID p]> (fd_subs (ct_feeds c))).
      + apply (tables_wf_put_sub (ct_hooks c) (tables c)); [apply W|cbn [tables fst]; rewrite L; eauto|done].
      + apply map_eq. intros k. destruct (decide ((u, up_ID p) = k)) as [<-|N]; [by rewrite lookup_insert_eq, lookup_alter_eq, S|].
        by rewrite lookup_insert_ne, lookup_alter_ne.
    - rewrite alter_id' by done. replace (with_subs (ct_feeds c) (fd_subs (ct_feeds c))) with (ct_feeds c) by (by destruct (ct_feeds c)). apply W. }
  set (f2 := with_poll (with_feeds f1 _) _).
  assert (T2 : tables_wf (ct_hooks c) (f2, ct_entries c)).
  { apply (tables_wf_put_feed (ct_hooks c) (f1, ct_entries c)); [exact T1|exact U|exact C| |].
    - rewrite lookup_alter_is_Some. apply (tw_poll _ _ T1). cbn [fst f1 with_subs fd_feeds]. rewrite L. eauto.
    - intros k N. by rewrite lookup_alter_is_Some. }
  assert (S1 : ∀ k, is_Some (fd_subs (ct_feeds c) !! k) → is_Some (fd_subs f2 !! k)).
  { intros k H. cbn [f2 f1 with_poll with_feeds with_subs fd_subs]. by rewrite lookup_alter_is_Some. }
  destruct (syncCategoryFollowersTx_spec (ct_hooks c) (up_ID p) (updated_row p mode r) (f_category_id r) (up_CategoryID p) (f2, ct_entries c))
    as (s' & E & T' & (E1 & _ & E3 & _) & _ & Fr); [exact T2| |done| | |].
  - cbn [fst f2 with_poll with_feeds fd_feeds]. by rewrite lookup_insert_eq.
  - intros v k i r' N Hf Hr Hc. apply S1. cbn [fst f2 f1 with_poll with_feeds with_subs fd_feeds fd_followers] in Hf, Hr.
    rewrite lookup_insert_ne in Hr by done. by eapply (cw_reads _ _ W).
  - intros k v E1 E2 Hf. apply S1. by eapply (cw_reads _ _ W).
  - rewrite E. intros [= <-]. split; [done|]. split; [done|]. rewrite E1, E3. split; [done|]. by exists r.
Qed.

Lemma wf_UpdateFeed c u p : wf c → wf (UpdateFeed c u p).1.
Proof.
  intros W. unfold UpdateFeed. destruct (ValidateEntryRetentionDays _); cbn [negb]; [|exact W].
  destruct (NormalizeStoreMode _) as [mode|]; [|exact W]. unfold withTx.
  destruct (update_feed_tx u mode p (ct_hooks c) (tables c)) as [s [e|[]]] eqn:E; [exact W|]. cbv zeta.
  destruct (feed_view _ _ _); [|exact W]. cbn [fst]. apply update_feed_tx_spec in E as (T & F & E1 & r & L & E2); [|exact W].
  pose proof W as W0. destruct W0.
  split; cbn [with_more with_tables ct_feeds ct_entries ct_hooks ct_more ct_next ct_cats ct_next_cat]; rewrite ?E1, ?E2; try assumption.
  - by destruct s.
  - intros k. rewrite lookup_alter_is_Some, <-cw_more0. destruct (decide (up_ID p = k)) as [<-|N]; [rewrite lookup_insert_eq, L; split; eauto|by rewrite lookup_insert_ne].
  - intros k. rewrite lookup_alter_is_Some. apply cw_next0.
  - intros k g [[<- <-]|[_ H]]%lookup_insert_Some; [|by apply cw_id0]. by apply cw_id0 in L.
Qed.

(** A row that is edited in place, its address and its category aside. *)
Lemma tables_wf_edit hdb s (g : Z → FeedRow → FeedRow) : tables_wf hdb s → (∀ k r, f_url (g k r) = f_url r ∧ f_category_id (g k r) = f_category_id r) →
  tables_wf hdb (with_feeds s.1 (map_imap (λ k r, Some (g k r)) (fd_feeds s.1)), s.2).
Proof.
  intros W G. assert (L : ∀ k, map_imap (λ k r, Some (g k r)) (fd_feeds s.1) !! k = g k <$> fd_feeds s.1 !! k).
  { intros k. rewrite map_lookup_imap. by destruct (fd_feeds s.1 !! k). }
  split; cbn [fst snd with_feeds fd_feeds fd_poll fd_subs fd_cats fd_followers].
  - intros k. rewrite L, fmap_is_Some. apply W.
  - intros i j f h. rewrite !L. intros (r & Hi & ->)%fmap_Some (r' & Hj & ->)%fmap_Some. rewrite !(proj1 (G _ _)). by eapply tw_url.
  - intros k f c. rewrite L. intros (r & H & ->)%fmap_Some. rewrite (proj2 (G _ _)). by eapply tw_cat.
  - intros u f w H. rewrite L, fmap_is_Some. by eapply tw_sub.
  - apply W.
  - intros e x H. rewrite L, fmap_is_Some. by eapply tw_entry.
  - apply W.
  - apply W.
  - apply W.
  - apply W.
  - apply W.
Qed.

Lemma move_feed_spec hdb old new id s : tables_wf hdb s → follows_reads s.1 → is_Some (fd_feeds s.1 !! id) → (∀ k, old = Some k → new ≠ Some k) →
  let s' := (move_feed hdb old new id s).1 in
  tables_wf hdb s' ∧ follows_reads s'.1 ∧ fd_cats s'.1 = fd_cats s.1 ∧
  ∀ k, (∃ c, fd_feeds s'.1 !! k = set_category c <$> fd_feeds s.1 !! k) ∨ fd_feeds s'.1 !! k = fd_feeds s.1 !! k.
Proof.
  intros W F [r L] N. unfold move_feed. destruct (category_ok _ _) eqn:C; cbn [negb]; [|split_and!; [done..|]; by right].
  set (s0 := (with_feeds s.1 _, s.2)). assert (E0 : s0 = (with_poll (with_feeds s.1 (<[id := set_category new r]> (fd_feeds s.1))) (fd_poll s.1), s.2)).
  { unfold s0, with_poll, with_feeds. cbn. do 2 f_equal. apply map_eq. intros k.
    destruct (decide (id = k)) as [<-|Ne]; [by rewrite lookup_insert_eq, lookup_alter_eq, L|by rewrite lookup_insert_ne, lookup_alter_ne]. }
  assert (T0 : tables_wf hdb s0).
  { rewrite E0. apply tables_wf_put_feed; [done| |done|apply W; eauto|done].
    unfold url_taken. apply bool_decide_eq_false. intros (k & f & H & Ne & U). apply Ne. by eapply (tw_url _ _ W). }
  destruct (syncCategoryFollowersTx_spec hdb id (set_category new r) old new s0) as (s' & E & T' & (E1 & _ & E3 & _) & _ & Fr); [done| |done| | |].
  - rewrite E0. cbn [fst with_poll with_feeds fd_feeds]. by rewrite lookup_insert_eq.
  - rewrite E0. intros v k i r' Ne Hf Hr Hc. cbn [fst with_poll with_feeds fd_feeds fd_followers fd_subs] in *. rewrite lookup_insert_ne in Hr by done.
    by eapply F.
  - intros k v H1 H2. by destruct (N k H1).
  - rewrite E. cbv zeta. cbn [fst]. split; [done|]. split; [done|]. rewrite E3, E1, E0. split; [done|].
    intros k. cbn [fst with_poll with_feeds fd_feeds]. destruct (decide (id = k)) as [<-|Ne]; [|rewrite lookup_insert_ne by done; by right].
    left. exists new. by rewrite lookup_insert_eq, L.
Qed.

(** What a bulk edit keeps of the rows. *)
Definition same_rows (s s' : FeedDb * EntryDb) : Prop :=
  fd_cats s'.1 = fd_cats s.1 ∧ ∀ k, (is_Some (fd_feeds s'.1 !! k) ↔ is_Some (fd_feeds s.1 !! k)) ∧ ∀ f, fd_feeds s'.1 !! k = Some f → f_id f = k.

Lemma bulk_tx_spec c u cat x s ids : wf c → bulk_tx u cat x (ct_hooks c) (tables c) = (s, inr ids) →
  (bu_WebhookSet x = true → checkSubscriptionRefs (ct_hooks c) u (bu_WebhookID x) = true) →
  tables_wf (ct_hooks c) s ∧ follows_reads s.1 ∧ same_rows (tables c) s.
Proof.
  intros W. unfold bulk_tx. set (ids0 := merge_sort Z.le _). cbn [tables fst snd].
  set (feeds := map_imap _ (fd_feeds _)). set (subs := if bu_WebhookSet x then _ else _). cbv zeta. set (s1 := (with_subs _ _, ct_entries c)).
  intros E Hw. pose proof (cw_tables _ _ W) as T.
  assert (Lf : ∀ k, fd_feeds s1.1 !! k = (λ f, if decide (f_category_id f = cat_opt cat) then bulk_row x f else f) <$> fd_feeds (ct_feeds c) !! k).
  { intros k. cbn [s1 fst with_subs with_feeds fd_feeds]. unfold feeds. rewrite map_lookup_imap. by destruct (fd_feeds _ !! k). }
  assert (Ks : ∀ k, is_Some (fd_subs s1.1 !! k) ↔ is_Some (fd_subs (ct_feeds c) !! k)).
  { intros k. cbn [s1 fst with_subs fd_subs]. unfold subs. destruct (bu_WebhookSet x); [|done]. rewrite map_lookup_imap.
    destruct (fd_subs _ !! k); cbn [mbind option_bind]; split; intros []; by eauto. }
  assert (T1 : tables_wf (ct_hooks c) s1).
  { assert (G : ∀ (k : Z) (r : FeedRow), let r' := if decide (f_category_id r = cat_opt cat) then bulk_row x r else r in
      f_url r' = f_url r ∧ f_category_id r' = f_category_id r) by (intros k r; cbv zeta; by destruct (decide (f_category_id r = cat_opt cat))).
    pose proof (tables_wf_edit (ct_hooks c) (tables c) (λ _ f, if decide (f_category_id f = cat_opt cat) then bulk_row x f else f) T G) as T2. destruct T2.
    split; cbn [s1 tables fst snd with_subs with_feeds fd_feeds fd_poll fd_subs fd_cats fd_followers] in *; try assumption.
    - intros v f w H. unfold subs in H. destruct (bu_WebhookSet x) eqn:B; [|by eapply tw_sub0].
      rewrite map_lookup_imap in H. destruct (fd_subs (ct_feeds c) !! (v, f)) as [w0|] eqn:S; [|done]. cbn [mbind option_bind fst snd] in H.
      destruct (tw_sub0 _ _ _ S) as [H1 H2]. split; [exact H1|]. destruct (decide (v = u ∧ f ∈ ids0)) as [[-> _]|]; injection H as <-; [by apply Hw|done].
    - intros e v f t H. rewrite (Ks (v, f)). by apply tw_unread0.
    - intros e v y H. destruct (tw_user0 _ _ _ H) as (r & L & A). exists r. by rewrite (Ks (v, er_feed_id r)). }
  assert (F1 : follows_reads s1.1).
  { intros v k id r Hf Hr Hc. rewrite Ks. rewrite Lf in Hr. apply fmap_Some in Hr as (r0 & L & ->). eapply (cw_reads _ _ W); [exact Hf|exact L|].
    by destruct (decide (f_category_id r0 = cat_opt cat)). }
  assert (R1 : same_rows (tables c) s1).
  { split; [done|]. intros k. rewrite Lf, fmap_is_Some. split; [done|]. intros f (r & L & ->)%fmap_Some. apply (cw_id _ _ W) in L. by destruct (decide (f_category_id r = cat_opt cat)). }
  revert E. set (moveTo := match bu_MoveToCategoryID x with Some 0 => None | m => m end).
  destruct (negb (bu_MoveCategory x) || _) eqn:M; [intros [= <- _]; done|]. apply orb_false_elim in M as [_ M%bool_decide_eq_false].
  assert (I : let s' := (tx_each (move_feed (ct_hooks c) (cat_opt cat) moveTo) ids0 s1).1 in
    tables_wf (ct_hooks c) s' ∧ follows_reads s'.1 ∧ same_rows (tables c) s').
  { apply (tx_each_inv (λ s', tables_wf (ct_hooks c) s' ∧ follows_reads s'.1 ∧ same_rows (tables c) s')); [|done].
    intros id t Hid (Tt & Ft & Rc & Rt). destruct (move_feed_spec (ct_hooks c) (cat_opt cat) moveTo id t Tt Ft) as (T' & F' & C' & L').
    - apply (Rt id). unfold ids0 in Hid. rewrite merge_sort_Permutation in Hid. apply list_elem_of_fmap in Hid as ([i f] & -> & H).
      apply elem_of_map_to_list, map_lookup_filter_Some in H as [H _]. cbn [tables fst]. eauto.
    - intros k Ek E. apply M. unfold cat_opt in Ek. destruct (0 <? cat); congruence.
    - split; [done|]. split; [done|]. split; [congruence|]. intros k. destruct (Rt k) as [R2 R3].
      destruct (L' k) as [[c' ->]| ->]; [|done]. rewrite fmap_is_Some. split; [done|]. intros f (r & L & ->)%fmap_Some. by apply R3 in L. }
  cbv zeta in I. destruct (tx_each _ ids0 s1) as [s2 [e|[]]]; [done|]. intros [= <- _]. exact I.
Qed.

Lemma wf_Bulk c u cat x : wf c → wf (BulkUpdateFeedsByCategory c u cat x).1.
Proof.
  intros W. unfold BulkUpdateFeedsByCategory. destruct (validateBulkFeedUpdate x) as [e|y]; [exact W|]. cbv zeta.
  destruct (if 0 <? cat then _ else _); [exact W|]. destruct (if bu_MoveCategory y then _ else _); [exact W|].
  destruct (_ && negb _) eqn:R; [exact W|]. unfold withTx.
  destruct (bulk_tx u cat y (ct_hooks c) (tables c)) as [s [e|ids]] eqn:E; [exact W|]. cbn [lift_tx fst].
  apply bulk_tx_spec in E as (T & F & E1 & E2); [|exact W|].
  - pose proof W as W0. destruct W0. cbn [tables fst] in E1, E2.
    split; cbn [with_tables ct_feeds ct_entries ct_hooks ct_more ct_next ct_cats ct_next_cat]; rewrite ?E1; try assumption.
    + by destruct s.
    + intros k. by rewrite (proj1 (E2 k)).
    + intros k f. apply E2.
  - intros B. rewrite B in R. simpl in R. by apply negb_false_iff in R.
Qed.

Lemma is_Some_delete {A} (m : gmap Z A) i k : is_Some (delete i m !! k) ↔ k ≠ i ∧ is_Some (m !! k).
Proof.
  destruct (decide (i = k)) as [->|N]; [rewrite lookup_delete_eq|rewrite lookup_delete_ne by done].
  - split; [by intros []|by intros [[]]].
  - split; [intros; split; [congruence|done]|by intros []].
Qed.

Lemma wf_DeleteFeed c u id : wf c → wf (DeleteFeed c u id).1.
Proof.
  intros W. unfold DeleteFeed, DeleteFeedByID. destruct (fd_feeds (ct_feeds c) !! id) as [r0|] eqn:L0; [|exact W]. cbn [fst].
  pose proof W as W0. destruct W0 as [T Fr M Nx Id Ca Nc Ti]. destruct T.
  assert (Ent : ∀ e r, filter (λ kv : Z * EntryRow, ¬ er_feed_id <$> ed_entries (ct_entries c) !! kv.1 = Some id) (ed_entries (ct_entries c)) !! e = Some r ↔
    ed_entries (ct_entries c) !! e = Some r ∧ er_feed_id r ≠ id).
  { intros e r. rewrite map_lookup_filter_Some. cbn [fst]. split; (intros [H1 H2]; split; [exact H1|]); rewrite H1 in *; cbn in *; congruence. }
  split; cbn [drop_feed ct_feeds ct_entries ct_hooks ct_more ct_next ct_cats ct_next_cat tables fst snd] in *; try assumption.
  - split; cbn [drop_feed ct_feeds ct_entries ct_hooks tables fst snd fd_feeds fd_poll fd_subs fd_cats fd_followers ed_entries ed_unread ed_user delete_entries] in *.
    + intros k. rewrite !is_Some_delete. by rewrite tw_poll0.
    + intros i j f g [_ Hi]%lookup_delete_Some [_ Hj]%lookup_delete_Some. by eapply tw_url0.
    + intros k f j [_ H]%lookup_delete_Some. by eapply tw_cat0.
    + intros v f w [H K]%map_lookup_filter_Some. cbn [fst snd] in K. rewrite lookup_delete_ne by done. by eapply tw_sub0.
    + done.
    + intros e r [L N]%Ent. rewrite lookup_delete_ne by done. by apply tw_entry0.
    + intros e v f t [[H K]%map_lookup_filter_Some K2]%map_lookup_filter_Some. cbn [fst snd] in K, K2.
      destruct (tw_unread0 _ _ _ _ H) as (A & (r & L & Fe & So & Re) & D). split; [|split].
      * destruct A as [w A]. exists w. by apply map_lookup_filter_Some.
      * exists r. split; [apply Ent; split; [done|congruence]|done].
      * intros y [Hy _]%map_lookup_filter_Some. by apply D.
    + intros e v y [H K]%map_lookup_filter_Some. cbn [fst snd] in K. destruct (tw_user0 _ _ _ H) as (r & L & So & [w A]).
      assert (N : er_feed_id r ≠ id) by (rewrite L in K; cbn in K; congruence). exists r. split; [by apply Ent|]. split; [done|]. exists w. by apply map_lookup_filter_Some.
    + intros e r [L _]%Ent. by eapply tw_next0.
    + intros i j x y [Hi _]%Ent [Hj _]%Ent. by apply tw_uniq0.
    + intros e r [L _]%Ent. by eapply tw_hash0.
  - intros v k i f Hf Hr Hc. cbn [fd_feeds fd_followers fd_subs] in *. apply lookup_delete_Some in Hr as [N Hr]. destruct (Fr v k i f Hf Hr Hc) as [w S]. exists w. by apply map_lookup_filter_Some.
  - intros k. cbn [fd_feeds]. rewrite !is_Some_delete. by rewrite M.
  - intros k [_ H]%is_Some_delete. by apply Nx.
  - intros k f. cbn [fd_feeds]. intros [_ H]%lookup_delete_Some. by apply Id.
Qed.

(** ** Icons, secrets and categories *)

Lemma wf_with_more c m : wf c → (∀ k, is_Some (m !! k) ↔ is_Some (ct_more c !! k)) → wf (with_more c m).
Proof.
  intros [] H. split; cbn [with_more tables ct_feeds ct_entries ct_hooks ct_more ct_next ct_cats ct_next_cat] in *; try assumption.
  - intros k. by rewrite H.
  - intros k. rewrite H. apply cw_next0.
Qed.

Lemma wf_UpdateFeedIcon c id url data : wf c → wf (UpdateFeedIcon c id url data).1.
Proof.
  intros W. unfold UpdateFeedIcon. destruct (ct_more c !! id) as [m|] eqn:E; [|exact W]. apply wf_with_more; [exact W|]. intros k.
  destruct (decide (id = k)) as [<-|N]; [rewrite lookup_insert_eq, E; split; eauto|by rewrite lookup_insert_ne].
Qed.

Lemma wf_with_secret c id secret : wf c → wf (with_secret c id secret).
Proof. intros W. apply wf_with_more; [exact W|]. intros k. apply lookup_alter_is_Some. Qed.

Lemma wf_poll_alter c g id : wf c → wf (with_tables c (with_poll (ct_feeds c) (alter g id (fd_poll (ct_feeds c))), ct_entries c)).
Proof.
  intros W. destruct W as [T F M N I C NC TI].
  split; cbn [with_tables tables ct_feeds ct_entries ct_hooks ct_more ct_next ct_cats ct_next_cat fst snd] in *; try assumption.
  destruct T. split; try assumption. intros k. unfold tables, with_tables, with_poll. cbn [fst ct_feeds fd_feeds fd_poll]. rewrite lookup_alter_is_Some. apply tw_poll0.
Qed.

Lemma wf_CreateInboundFeed now secret address c u p : wf c → wf (CreateInboundFeed now secret address c u p).1.
Proof.
  intros W. unfold CreateInboundFeed. match goal with |- context [CreateFeed now c u ?q] => pose proof (wf_CreateFeed now c u q W) as W1 end.
  destruct (CreateFeed now c u _) as [c1 [e|v]]; cbn [fst] in *; [exact W1|]. apply (wf_poll_alter (with_secret c1 _ secret)). by apply wf_with_secret.
Qed.

Lemma wf_RotateInboundSecret secret c id : wf c → wf (RotateInboundSecret secret c id).1.
Proof.
  intros W. unfold RotateInboundSecret. destruct (fd_feeds (ct_feeds c) !! id) as [r|]; [|exact W].
  destruct (String.eqb _ _); [by apply wf_with_secret|exact W].
Qed.

(** The category table: who is in it does not change. *)
Lemma wf_catrows c rows : wf c → (∀ k, is_Some (rows !! k) ↔ is_Some (ct_cats c !! k)) →
  (∀ i j a b, rows !! i = Some a → rows !! j = Some b → title_key (ca_Title a) = title_key (ca_Title b) → i = j) →
  wf (with_catrows c rows (ct_next_cat c)).
Proof.
  intros [] H U. split; cbn [with_catrows tables ct_feeds ct_entries ct_hooks ct_more ct_next ct_cats ct_next_cat] in *; try assumption.
  - intros k. by rewrite H.
  - intros k. rewrite H. apply cw_next_cat0.
Qed.

Lemma title_free c id title : title_taken title_key c id title = false → ∀ k r, k ≠ id → ct_cats c !! k = Some r → title_key (ca_Title r) ≠ title_key title.
Proof. unfold title_taken. intros H%bool_decide_eq_false k r N L E. apply H. by exists k, r. Qed.

Lemma titles_insert c id row : wf c → title_taken title_key c id (ca_Title row) = false →
  ∀ i j a b, <[id := row]> (ct_cats c) !! i = Some a → <[id := row]> (ct_cats c) !! j = Some b → title_key (ca_Title a) = title_key (ca_Title b) → i = j.
Proof.
  intros W U i j a b [[<- <-]|[Ni Hi]]%lookup_insert_Some [[<- <-]|[Nj Hj]]%lookup_insert_Some E; [done| | |by eapply (cw_title _ _ W)].
  - by destruct (title_free _ _ _ U j b ltac:(done) Hj).
  - by destruct (title_free _ _ _ U i a ltac:(done) Hi).
Qed.

Lemma wf_UpdateCategory c id title color : wf c → wf (UpdateCategory title_key c id title color).1.
Proof.
  intros W. unfold UpdateCategory. destruct (ct_cats c !! id) as [r|] eqn:L; [|exact W]. destruct (title_taken _ _ _ _) eqn:U; [exact W|].
  apply wf_catrows; [exact W| |by apply titles_insert]. intros k.
  destruct (decide (id = k)) as [<-|N]; [rewrite lookup_insert_eq, L; split; eauto|by rewrite lookup_insert_ne].
Qed.

Lemma wf_ReorderCategories c ids : wf c → wf (ReorderCategories c ids).1.
Proof.
  intros W. unfold ReorderCategories. destruct ids as [|i ids]; [exact W|]. destruct (_ || _); [exact W|]. destruct (_ || _); [exact W|].
  cbn [fst]. set (place := λ (k : Z) (r : CatRow),
    match list_find (λ j, j = k) (i :: ids) with Some (n, _) => mkCatRow (ca_Title r) (ca_Color r) (Z.of_nat n) | None => r end).
  change (map_imap _ (ct_cats c)) with (map_imap (λ k r, Some (place k r)) (ct_cats c)). apply wf_catrows; [exact W| |].
  - intros k. rewrite map_lookup_imap. destruct (ct_cats c !! k); cbn [mbind option_bind]; split; intros []; eauto.
  - assert (T : ∀ k r, ca_Title (place k r) = ca_Title r) by (intros k r; unfold place; by destruct (list_find _ _) as [[]|]).
    intros k1 k2 a b. rewrite !map_lookup_imap. destruct (ct_cats c !! k1) eqn:L1, (ct_cats c !! k2) eqn:L2; cbn [mbind option_bind]; [|done..].
    intros [= <-] [= <-]. rewrite !T. by eapply (cw_title _ _ W).
Qed.

Lemma wf_CreateCategory c title color : wf c → wf (CreateCategory title_key c title color).1.
Proof.
  intros W. unfold CreateCategory. destruct (title_taken _ _ _ _) eqn:U; [exact W|]. cbn [fst]. set (row := mkCatRow _ _ _).
  pose proof (titles_insert c (ct_next_cat c) row W U) as Ti. destruct W as [T F M N I C NC _].
  split; cbn [tables ct_feeds ct_entries ct_hooks ct_more ct_next ct_cats ct_next_cat fst snd] in *; try assumption.
  - destruct T. split; try assumption; cbn [fst snd with_cats fd_feeds fd_cats fd_followers].
    + intros k f j H E. apply insert_is_Some. by eapply tw_cat0.
    + intros u k H. apply insert_is_Some. by eapply tw_follow0.
  - intros k. cbn [with_cats fd_cats].
    destruct (decide (ct_next_cat c = k)) as [<-|]; [rewrite !lookup_insert_eq; split; eauto|by rewrite !lookup_insert_ne].
  - intros k. destruct (decide (ct_next_cat c = k)) as [<-|]; [lia|]. rewrite lookup_insert_ne by done. intros H%NC. lia.
Qed.

Lemma wf_DeleteCategory c id : wf c → wf (DeleteCategory c id).1.
Proof.
  intros W. unfold DeleteCategory. destruct (ct_cats c !! id) as [r|]; [|exact W]. destruct (decide _) as [|E]; [exact W|]. cbn [fst].
  destruct W as [T F M N I C NC Ti].
  split; cbn [tables ct_feeds ct_entries ct_hooks ct_more ct_next ct_cats ct_next_cat fst snd] in *; try assumption.
  - destruct T. split; try assumption; cbn [tables ct_feeds fst snd fd_feeds fd_cats fd_followers] in *.
    + intros k f j H Ej. rewrite is_Some_delete. split; [|by eapply tw_cat0]. intros ->. apply E. by exists k, f.
    + intros u k [K H]%elem_of_filter. rewrite is_Some_delete. split; [done|]. by eapply tw_follow0.
  - intros u k i f [K Hf]%elem_of_filter. cbn [fd_feeds fd_subs]. by eapply F.
  - intros k. cbn [fd_cats]. rewrite !is_Some_delete. by rewrite C.
  - intros k [_ H]%is_Some_delete. by apply NC.
  - intros i j a b [_ Hi]%lookup_delete_Some [_ Hj]%lookup_delete_Some. by eapply Ti.
Qed.

Lemma wf_run_cat_op op c : wf c → wf (run_cat_op op c).
Proof.
  intros W. destruct op; cbn [run_cat_op];
    eauto using wf_CreateFeed, wf_UpdateFeed, wf_DeleteFeed, wf_UpdateFeedIcon, wf_Subscribe, wf_SubscribeByURL, wf_UpdateSubscription,
      wf_Unsubscribe, wf_Bulk, wf_CreateCategory, wf_UpdateCategory, wf_ReorderCategories, wf_DeleteCategory, wf_Follow, wf_Unfollow,
      wf_CreateInboundFeed, wf_RotateInboundSecret.
Qed.

Lemma wf_run ops c : wf c → wf (fold_left (λ c op, run_cat_op op c) ops c).
Proof. revert c. induction ops as [|op ops IH]; intros c W; [exact W|]. apply IH. by apply wf_run_cat_op. Qed.

End Ops.

(** * What the operations do *)

(** The operations by which [u] chooses what to read. *)
Definition reader_op (u : Z) (op : cat_op) : bool :=
  match op with
  | OpSubscribe v _ _ | OpSubscribeByURL v _ _ | OpUpdateSub v _ _ | OpUnsubscribe v _ | OpFollow v _ | OpUnfollow v _ => v =? u
  | _ => false
  end.

(** Whatever is not [u]'s reading. *)
Definition untouched (u : Z) (c c' : Catalog) : Prop :=
  fd_feeds (ct_feeds c') = fd_feeds (ct_feeds c) ∧ fd_poll (ct_feeds c') = fd_poll (ct_feeds c) ∧ fd_cats (ct_feeds c') = fd_cats (ct_feeds c) ∧
  ed_entries (ct_entries c') = ed_entries (ct_entries c) ∧ ed_dedup (ct_entries c') = ed_dedup (ct_entries c) ∧
  ct_hooks c' = ct_hooks c ∧ ct_more c' = ct_more c ∧ ct_cats c' = ct_cats c ∧
  (∀ v k, v ≠ u → (v, k) ∈ fd_followers (ct_feeds c') ↔ (v, k) ∈ fd_followers (ct_feeds c)) ∧ others_same u (tables c) (tables c').

Lemma untouched_with_tables u c s : same_catalogue (tables c) s → others_same u (tables c) s → untouched u c (with_tables c s).
Proof. intros (E1 & E2 & E3 & E4 & E5 & E6 & E7) O. do 8 (split; [done|]). split; [|by destruct s]. intros v k _. cbn [with_tables ct_feeds]. by rewrite E4. Qed.

Lemma untouched_refl u c : untouched u c c.
Proof. do 8 (split; [done|]). split; [done|]. apply others_same_refl. Qed.

Lemma untouched_Unfollow u c k : untouched u c (UnfollowCategory c u k).1.
Proof.
  unfold UnfollowCategory, withTx. cbn [tables fst snd]. destruct (decide _) as [Hk|]; [|apply untouched_refl].
  match goal with |- context [tx_each ?g ?l ?s0] => set (s := s0); set (ids := l) end.
  assert (I : let s' := (tx_each (λ id s, unsubscribeTx s u id) ids s).1 in same_catalogue s s' ∧ others_same u s s').
  { apply (tx_each_inv (λ s', same_catalogue s s' ∧ others_same u s s')); [|done]. intros f t _ [C O].
    destruct (unsubscribeTx_frame t u f) as (C2 & O2 & _). split; [by eapply same_catalogue_trans|by eapply others_same_trans]. }
  cbv zeta in I. destruct (tx_each _ ids s) as [s' [e|x]]; [apply untouched_refl|]. cbn [lift_tx fst] in *. destruct I as ((E1 & E2 & E3 & E4 & E5 & E6 & E7) & O).
  do 8 (split; [done|]). split; [|by destruct s']. intros v j N. cbn [with_tables ct_feeds]. rewrite E4. cbn [s fst fd_followers].
  rewrite elem_of_difference, elem_of_singleton. split; [by intros []|]. intros H. split; [done|congruence].
Qed.

Lemma untouched_Follow title_key u c k : catalog_wf title_key c → untouched u c (FollowCategory c u k).1.
Proof.
  intros W. unfold FollowCategory, withTx. cbn [tables fst snd]. destruct (fd_cats (ct_feeds c) !! k) as [h|] eqn:Hk; [|apply untouched_refl].
  match goal with |- context [subscribeCategoryFeedsTx ?hdb u k ?s0] => set (s := s0) end.
  assert (T0 : tables_wf (ct_hooks c) s).
  { apply tables_wf_followers; [apply W|]. intros v j [[= -> ->]%elem_of_singleton|H]%elem_of_union; [eauto|]. by eapply (tw_follow _ _ (cw_tables _ _ W)). }
  destruct (subscribeCategoryFeedsTx_spec (ct_hooks c) u k s T0) as (s' & n & E & _ & (E1 & E2 & E3 & E4 & E5 & E6 & E7) & O & _). rewrite E. cbn [lift_tx fst].
  do 8 (split; [done|]). split; [|by destruct s']. intros v j N. cbn [with_tables ct_feeds]. rewrite E4. cbn [s fst fd_followers].
  rewrite elem_of_union, elem_of_singleton. split; [intros [[= -> ->]|H]; done|by right].
Qed.

Lemma reader_op_untouched title_key u op c : catalog_wf title_key c → reader_op u op = true → untouched u c (run_cat_op title_key op c).
Proof.
  intros W R.
  assert (Sub : ∀ f w, let r := subscribeTx (ct_hooks c) (tables c) u f w in untouched u c (lift_tx c (withTx (tables c) (λ _, r))).1).
  { intros f w r. destruct (subscribeTx_frame (ct_hooks c) (tables c) u f w) as (C & O & _). fold r in C, O. unfold withTx.
    destruct r as [s [e|x]]; [apply untouched_refl|by apply untouched_with_tables]. }
  destruct op; try discriminate R; cbn [reader_op run_cat_op] in *; apply Z.eqb_eq in R as ->.
  - apply Sub.
  - unfold SubscribeByURL. destruct (feed_by_url _ _) as [f|]; [|apply untouched_refl]. pose proof (Sub f webhookID) as H. cbv zeta in H. unfold withTx in H.
    destruct (subscribeTx _ _ _ _ _) as [s [e|x]]; [apply untouched_refl|]. destruct (GetFeed _ _ _); [apply untouched_refl|exact H].
  - unfold UpdateSubscription. destruct (negb _); [apply untouched_refl|]. destruct (fd_subs _ !! _); [|apply untouched_refl].
    apply untouched_with_tables; [done|]. intros v N. split; [|done]. intros g. cbn [fst with_subs fd_subs tables]. rewrite lookup_insert_ne; [done|congruence].
  - destruct (unsubscribeTx_frame (tables c) u feedID) as (C & O & _). unfold Unsubscribe, withTx.
    destruct (if _ : bool then _ else _) as [s [e|x]] eqn:E; [apply untouched_refl|].
    destruct (match _ with Some _ => _ | None => _ end : bool) in E; [done|]. rewrite E in *. by apply untouched_with_tables.
  - by eapply untouched_Follow.
  - apply untouched_Unfollow.
Qed.

(** What one reads is nobody else's concern.  Subscribing (by number or by address),
    changing or dropping a subscription, following or unfollowing a category, whatever the
    outcome, changes neither the catalogue nor the entries nor the webhooks, and for every
    other user neither the categories followed nor the subscriptions, the unread marks,
    the stars and removals or the labels. *)
Lemma subscription_isolated (title_key : string → string) (u : Z) (op : cat_op) (c : Catalog)
  (W : catalog_wf title_key c) (R : reader_op u op = true) :
  untouched u c (run_cat_op title_key op c).
Proof. by apply reader_op_untouched. Qed.

(** ** The backfill *)

(** In a sorted list the first [n] are those with fewer than [n] before them. *)
Lemma elem_of_take_rank {A} (R T : relation A) `{!RelDecision T} (l : list A) (x : A) : StronglySorted R l → NoDup l →
  (∀ a b, a ∈ l → b ∈ l → R a b → R b a → a = b) → (∀ a b, a ∈ l → b ∈ l → T a b ↔ R a b ∧ a ≠ b) → x ∈ l →
  ∀ n, x ∈ take n l ↔ (length (filter (λ y, T y x) l) < n)%nat.
Proof.
  induction l as [|a l IH]; intros S D U HT X n; [by apply elem_of_nil in X|].
  apply StronglySorted_inv in S as [S Fa]. rewrite Forall_forall in Fa. apply NoDup_cons in D as [Na D].
  destruct n as [|n]; cbn [take]; [split; [by intros ?%elem_of_nil|lia]|]. rewrite filter_cons. apply elem_of_cons in X as [->|X].
  - split; [intros _|intros _; by left]. destruct (decide (T a a)) as [[_ []]%HT|_]; [done|by left|by left|].
    replace (filter _ l) with (@nil A); [cbn; lia|]. symmetry. destruct (filter _ l) as [|y k] eqn:E; [done|]. exfalso.
    assert (Y : y ∈ filter (λ y, T y a) l) by (rewrite E; by left). apply list_elem_of_filter in Y as [Y1 Y3]. apply HT in Y1 as [Y1 Y2]; [|by right|by left].
    apply Y2. symmetry. apply U; [by left|by right|by apply Fa|done].
  - assert (Ne : a ≠ x) by congruence. assert (Tx : T a x) by (apply HT; [left|by right|split; [by apply Fa|done]]). rewrite decide_True by done.
    cbn [length]. rewrite <-Nat.succ_lt_mono, <-(IH S D); [|intros c b Hc Hb; apply U; by right|intros c b Hc Hb; apply HT; by right|done].
    rewrite elem_of_cons. naive_solver.
Qed.

(** The entries of a feed that are not removed, and those of them that come before [r] in the newest-first order. *)
Definition live_rows (db : EntryDb) (f : Z) : list EntryRow :=
  filter (λ e, er_feed_id e = f ∧ er_removed_at e = None) (map_to_list (ed_entries db)).*2.
Definition newer_than (e r : EntryRow) : Prop := newest_le e r ∧ er_id e ≠ er_id r.
#[export] Instance newer_than_dec : RelDecision newer_than.
Proof. unfold newer_than. intros a b. apply _. Defined.
Definition newer (db : EntryDb) (r : EntryRow) : list EntryRow := filter (λ e, newer_than e r) (live_rows db (er_feed_id r)).

Lemma newest_le_total : Total newest_le.
Proof. intros a b. unfold newest_le. lia. Qed.
Lemma newest_le_trans : Transitive newest_le.
Proof. intros a b c. unfold newest_le. lia. Qed.

Lemma elem_of_live_rows hdb s f r : tables_wf hdb s → r ∈ live_rows s.2 f ↔ ed_entries s.2 !! er_id r = Some r ∧ er_feed_id r = f ∧ er_removed_at r = None.
Proof.
  intros W. unfold live_rows. rewrite list_elem_of_filter, list_elem_of_fmap. split.
  - intros [P ([k x] & -> & H%elem_of_map_to_list)]. destruct (tw_entry _ _ W _ _ H) as [Ei _]. cbn [snd] in *. by rewrite Ei.
  - intros [L P]. split; [done|]. exists (er_id r, r). split; [done|]. by apply elem_of_map_to_list.
Qed.

Lemma live_rows_nodup hdb s f : tables_wf hdb s → NoDup (live_rows s.2 f).
Proof.
  intros W. unfold live_rows. apply NoDup_filter. apply (NoDup_fmap_1 er_id). rewrite <-list_fmap_compose.
  replace (er_id ∘ snd <$> map_to_list (ed_entries s.2)) with (map_to_list (ed_entries s.2)).*1; [apply NoDup_fst_map_to_list|].
  apply list_fmap_ext. intros i [k x] H%list_elem_of_lookup_2%elem_of_map_to_list. symmetry. by apply (tw_entry _ _ W).
Qed.

Lemma elem_of_backfill_rank hdb s u f r : tables_wf hdb s → r ∈ live_rows s.2 f → r ∈ backfill s.2 u f ↔ (length (newer s.2 r) < 100)%nat.
Proof.
  intros W H. pose proof H as (L & Fr & _)%(elem_of_live_rows hdb); [|done]. unfold backfill, newer. rewrite Fr. fold (live_rows s.2 f).
  set (l := live_rows s.2 f) in *. pose proof (merge_sort_Permutation newest_le l) as P.
  rewrite (elem_of_take_rank newest_le newer_than).
  - by rewrite P.
  - apply StronglySorted_merge_sort; [apply newest_le_trans|apply newest_le_total].
  - rewrite P. by eapply live_rows_nodup.
  - intros a b. rewrite !P. intros (A & _)%(elem_of_live_rows hdb) (B & _)%(elem_of_live_rows hdb) Q1 Q2; try done.
    assert (er_id a = er_id b) as Ei by (unfold newest_le in *; lia). rewrite Ei in A. congruence.
  - intros a b. rewrite !P. intros (A & _)%(elem_of_live_rows hdb) (B & _)%(elem_of_live_rows hdb); try done.
    split; intros [Q N]; (split; [done|]); [congruence|]. intros Ei. rewrite Ei in A. congruence.
  - by rewrite P.
Qed.

(** A new reader starts with what is new.  When somebody subscribes to a feed, an entry of
    the feed becomes unread for them exactly if it has not been removed and fewer than a
    hundred entries of the feed that are not removed either come before it in the
    newest-first order; what else they have unread stays as it was. *)
Lemma subscribe_backfills (hdb : HookDb) (s s' : FeedDb * EntryDb) (u f : Z) (w : option Z) (x : Subscription)
  (W : tables_wf hdb s) (E : Subscribe hdb s u f w = (s', inr x)) :
  x = mkSubscription u f w ∧ fd_subs s'.1 !! (u, f) = Some w ∧
  (∀ r, ed_entries s.2 !! er_id r = Some r → er_feed_id r = f →
     (is_Some (ed_unread s'.2 !! (er_id r, u)) ↔ er_removed_at r = None ∧ (length (newer s.2 r) < 100)%nat)) ∧
  (∀ e r, ed_entries s.2 !! e = Some r → er_feed_id r ≠ f → ed_unread s'.2 !! (e, u) = ed_unread s.2 !! (e, u)).
Proof.
  unfold Subscribe, withTx in E. destruct (subscribeTx_cases hdb s u f w) as [(e & E1 & _)|(N & [fr F] & C & E1)]; rewrite E1 in E; [done|].
  injection E as <- <-. split; [done|]. cbn [fst snd with_subs with_unread fd_subs ed_unread]. split; [by rewrite lookup_insert_eq|].
  split.
  - intros r L Fr. rewrite lookup_union_is_Some.
    assert (NU : ed_unread s.2 !! (er_id r, u) = None).
    { apply eq_None_not_Some. intros [[g t] H]. destruct (tw_unread _ _ W _ _ _ _ H) as ([y Sy] & (r' & L' & Fg & _) & _). congruence. }
    rewrite NU. split.
    + intros [[? ?]|[y H]]; [done|]. apply elem_of_list_to_map_2, list_elem_of_fmap in H as (r' & [= Ei _] & B).
      pose proof B as (k & L' & Fr' & R')%elem_of_backfill. destruct (tw_entry _ _ W _ _ L') as [Ek _].
      assert (r' = r) as -> by congruence. split; [done|]. eapply elem_of_backfill_rank; [done| |exact B]. by apply (elem_of_live_rows hdb).
    + intros [R' Q]. right. apply not_eq_None_Some. intros H%not_elem_of_list_to_map_2. apply H, list_elem_of_fmap. exists ((er_id r, u), (er_feed_id r, er_sort_at r)).
      split; [done|]. apply list_elem_of_fmap. exists r. split; [done|]. apply (elem_of_backfill_rank hdb); [done| |done]. by apply (elem_of_live_rows hdb).
  - intros e r L Nf. apply lookup_union_l. apply not_elem_of_list_to_map. intros ([[i v] z] & E2 & (y & E3 & H)%list_elem_of_fmap)%list_elem_of_fmap.
    cbn [fst] in E2. injection E2 as -> ->. injection E3 as -> _. apply elem_of_backfill in H as (k & L' & Fr' & _). destruct (tw_entry _ _ W _ _ L') as [Ek _]. rewrite Ek in *. congruence.
Qed.

(** ** The order of the categories *)

Lemma StronglySorted_lookups {A} (R : relation A) (l : list A) :
  (∀ i j x y, (i < j)%nat → l !! i = Some x → l !! j = Some y → R x y) → StronglySorted R l.
Proof.
  induction l as [|a l IH]; intros H; [constructor|]. constructor.
  - apply IH. intros i j x y L Hi Hj. by apply (H (S i) (S j)); [lia|..].
  - apply Forall_forall. intros y (j & Hj)%list_elem_of_lookup. by apply (H 0%nat (S j)); [lia|..].
Qed.

Lemma list_find_index (l : list Z) i k : NoDup l → l !! i = Some k → list_find (λ j, j = k) l = Some (i, k).
Proof. intros D L. apply list_find_Some. do 2 (split; [done|]). intros j y Lj Lt ->. pose proof (NoDup_lookup _ _ _ _ D L Lj). lia. Qed.

(** A list that names every category once. *)
Lemma whole_permutation (c : Catalog) (ids : list Z) : NoDup ids → size (ct_cats c) = length ids →
  size (filter (λ kr : Z * CatRow, kr.1 ∈ ids) (ct_cats c)) = length ids → dom (ct_cats c) = list_to_set ids.
Proof.
  intros D S1 S2. assert (Sz : size (list_to_set ids : gset Z) = length ids) by by apply size_list_to_set.
  assert (E1 : dom (filter (λ kr : Z * CatRow, kr.1 ∈ ids) (ct_cats c)) = list_to_set ids).
  { apply set_subseteq_size_eq; [|rewrite size_dom; lia].
    intros k (r & [_ H]%map_lookup_filter_Some)%elem_of_dom. by apply elem_of_list_to_set. }
  rewrite <-E1. symmetry. apply set_subseteq_size_eq; [|rewrite !size_dom; lia].
  intros k (r & [H _]%map_lookup_filter_Some)%elem_of_dom. apply elem_of_dom. eauto.
Qed.

Lemma omap_all {A B} (f : A → option B) (g : A → B) (l : list A) : (∀ x, x ∈ l → f x = Some (g x)) → omap f l = g <$> l.
Proof.
  induction l as [|a l IH]; intros H; [done|]. cbn. rewrite (H a ltac:(by left)). f_equal. apply IH. intros x X. apply H. by right.
Qed.

(** Numbered in the order of [ids], the rows come in that order. *)
Lemma listed_order (rows : gmap Z CatRow) (ids : list Z) : NoDup ids → (∀ k, is_Some (rows !! k) → k ∈ ids) →
  (∀ n k, ids !! n = Some k → ∃ r, rows !! k = Some r ∧ ca_SortOrder r = Z.of_nat n) →
  (merge_sort (key_le ca_SortOrder) (map_to_list rows)).*1 = ids.
Proof.
  intros D Dom At. set (row := λ k : Z, (k, default (mkCatRow "" "" 0) (rows !! k))).
  assert (El : ∀ k r, (k, r) ∈ row <$> ids ↔ rows !! k = Some r).
  { intros k r. rewrite list_elem_of_fmap. split.
    - intros (j & [= -> ->] & (n & H)%list_elem_of_lookup). destruct (At n j H) as (x & Hx & _). by rewrite Hx.
    - intros H. exists k. unfold row. rewrite H. split; [done|]. apply Dom. eauto. }
  transitivity ((row <$> ids).*1); [|rewrite <-list_fmap_compose; by apply list_fmap_id].
  f_equal. apply (StronglySorted_unique_strong (key_le ca_SortOrder)).
  - intros [k a] [j b] H1 H2 R1 R2. assert (k = j) as -> by (clear H1 H2; unfold key_le in R1, R2; simpl in R1, R2; lia).
    rewrite merge_sort_Permutation, elem_of_map_to_list in H1. rewrite El in H2. congruence.
  - apply StronglySorted_merge_sort; apply _.
  - apply StronglySorted_lookups. intros i j x y Lt. rewrite !list_lookup_fmap. intros (k & Hk & ->)%fmap_Some (m & Hm & ->)%fmap_Some.
    destruct (At i k Hk) as (r & Hr & O1), (At j m Hm) as (t & Ht & O2). left. unfold row. cbn [snd]. rewrite Hr, Ht. simpl. lia.
  - apply NoDup_Permutation.
    + rewrite merge_sort_Permutation. apply NoDup_map_to_list.
    + apply NoDup_fmap_2; [|done]. by intros k j [= ->].
    + intros [k r]. by rewrite merge_sort_Permutation, elem_of_map_to_list, El.
Qed.

(** The categories are listed in the order they were put in.  When a reordering is
    accepted, the listing that follows names exactly the categories of the request, in
    its order, with the places 0, 1, 2 … and the titles and colours they had; a request that
    is refused changes nothing. *)
Lemma reorder_lists_in_order (title_key : string → string) (c : Catalog) (ids : list Z) (W : catalog_wf title_key c) (Ne : ids ≠ []) :
  match ReorderCategories c ids with
  | (c', Some _) => c' = c
  | (c', None) => ∃ cats, ListCategories c' 0 0 = inr (cats, Z.of_nat (length ids)) ∧ c_ID <$> cats = ids ∧
      ∀ n x, cats !! n = Some x → c_SortOrder x = Z.of_nat n ∧
        ∃ r, ct_cats c !! c_ID x = Some r ∧ c_Title x = ca_Title r ∧ c_Color x = ca_Color r
  end.
Proof.
  unfold ReorderCategories. destruct ids as [|i0 ids0]; [done|]. set (ids := i0 :: ids0) in *.
  destruct (_ || _) eqn:G1; [done|]. destruct (negb _ || _) eqn:G2; [done|].
  apply orb_false_elim in G1 as [_ D%negb_false_iff%bool_decide_eq_true]. apply orb_false_elim in G2 as [S1%negb_false_iff%Z.eqb_eq S2%negb_false_iff%Z.eqb_eq].
  pose proof (whole_permutation c ids D ltac:(lia) ltac:(lia)) as Dom. clear S1 S2.
  set (place := λ (k : Z) (r : CatRow),
    match list_find (λ j, j = k) ids with Some (n, _) => mkCatRow (ca_Title r) (ca_Color r) (Z.of_nat n) | None => r end).
  change (map_imap _ (ct_cats c)) with (map_imap (λ k r, Some (place k r)) (ct_cats c)). set (rows := map_imap _ _).
  assert (L : ∀ k, rows !! k = place k <$> ct_cats c !! k) by (intros k; unfold rows; rewrite map_lookup_imap; by destruct (ct_cats c !! k)).
  assert (At : ∀ n k, ids !! n = Some k → ∃ r, ct_cats c !! k = Some r ∧ rows !! k = Some (mkCatRow (ca_Title r) (ca_Color r) (Z.of_nat n))).
  { intros n k H. assert (k ∈ dom (ct_cats c)) as (r & Hr)%elem_of_dom by (rewrite Dom; apply elem_of_list_to_set, list_elem_of_lookup; eauto).
    exists r. split; [done|]. rewrite L, Hr. cbn [fmap option_fmap option_map]. unfold place. by rewrite (list_find_index _ _ _ D H). }
  assert (Ord : (merge_sort (key_le ca_SortOrder) (map_to_list rows)).*1 = ids).
  { apply listed_order; [done| |intros n k (r & _ & H)%At; by eexists]. intros k. rewrite L, fmap_is_Some. intros H. apply elem_of_dom in H.
    rewrite Dom in H. by rewrite elem_of_list_to_set in H. }
  set (cat := λ k, match category (with_catrows c rows (ct_next_cat c)) k with Some x => x | None => mkCategory k "" "" 0 "" end).
  assert (Cat : ∀ n k, ids !! n = Some k → ∃ r h, ct_cats c !! k = Some r ∧
    category (with_catrows c rows (ct_next_cat c)) k = Some (mkCategory k (ca_Title r) (ca_Color r) (Z.of_nat n) h)).
  { intros n k H. destruct (At n k H) as (r & H1 & H2). destruct (proj1 (cw_cats _ _ W k) ltac:(eauto)) as [h Hh]. exists r, h. split; [done|].
    unfold category, with_catrows. cbn [ct_cats ct_feeds]. by rewrite H2, Hh. }
  exists (cat <$> ids). split; [|split].
  - unfold ListCategories. cbn [with_catrows ct_cats]. rewrite Ord. unfold counted_page, list_page. cbn [Z.leb Z.compare]. do 3 f_equal.
    apply omap_all. intros k (n & H)%list_elem_of_lookup. destruct (Cat n k H) as (r & h & _ & E). unfold cat. by rewrite E.
  - rewrite <-list_fmap_compose. rewrite <-(list_fmap_id ids) at 2. apply list_fmap_ext. intros n k H. destruct (Cat n k H) as (r & h & _ & E).
    cbn. unfold cat. by rewrite E.
  - intros n x. rewrite list_lookup_fmap. intros (k & H & ->)%fmap_Some. destruct (Cat n k H) as (r & h & Hr & E). unfold cat. rewrite E.
    cbn [c_SortOrder c_ID c_Title c_Color]. split; [done|]. by exists r.
Qed.

(** * Concrete catalogues *)

Definition empty_catalog (hdb : HookDb) : Catalog := mkCatalog (mkFeedDb ∅ ∅ ∅ ∅ ∅) empty_entries hdb ∅ 1 ∅ 1.

Lemma empty_catalog_wf title_key hdb : catalog_wf title_key (empty_catalog hdb).
Proof.
  assert (N : ∀ (A : Type) (k : Z), ¬ is_Some ((∅ : gmap Z A) !! k)) by (intros A k [x H]; by rewrite lookup_empty in H).
  split; cbn; try done.
  - split; cbn; try done. intros id. by rewrite !lookup_empty.
  - intros id. by rewrite !lookup_empty.
  - intros id H. by apply N in H.
  - intros k. by rewrite !lookup_empty.
  - intros k H. by apply N in H.
Qed.

Definition wit_feed_params (url : string) (cat : option Z) : CreateFeedParams :=
  mkCreateFeed url "rss" "A feed" cat false 60 "" "" "" "" false false false "" None "full" None false None.
Definition wit_catalog : Catalog :=
  fold_left (λ c op, run_cat_op id op c)
    [OpCreateCategory "News" ""; OpCreateCategory "Tech" ""; OpCreateFeed 0 1 (wit_feed_params "https://a.example/feed" (Some 1))]
    (empty_catalog (mkHookDb ∅ ∅ 1)).

Lemma wit_catalog_wf : catalog_wf id wit_catalog.
Proof. apply wf_run, empty_catalog_wf. Qed.

(** With the three items of [wit_batch] polled. *)
Definition wit_tables : FeedDb * EntryDb := (ct_feeds wit_catalog, (createEntries id 60 (ct_feeds wit_catalog) empty_entries 1 wit_batch false).1).

Lemma wit_tables_wf : tables_wf (ct_hooks wit_catalog) wit_tables.
Proof. apply (tables_wf_createEntries _ id 60 (ct_feeds wit_catalog, ct_entries wit_catalog)), wit_catalog_wf. Qed.

Lemma subscription_isolated_witness :
  fd_subs (ct_feeds (run_cat_op id (OpFollow 2 1) wit_catalog)) !! (2, 1) = Some None ∧
  untouched 2 wit_catalog (run_cat_op id (OpFollow 2 1) wit_catalog).
Proof. split; [vm_compute; reflexivity|]. apply (subscription_isolated id 2 (OpFollow 2 1) wit_catalog wit_catalog_wf eq_refl). Defined.

Lemma subscribe_backfills_witness : is_Some (ed_unread (Subscribe (ct_hooks wit_catalog) wit_tables 2 1 None).1.2 !! (1, 2)).
Proof.
  destruct (subscribe_backfills (ct_hooks wit_catalog) wit_tables (Subscribe (ct_hooks wit_catalog) wit_tables 2 1 None).1 2 1 None
    (mkSubscription 2 1 None) wit_tables_wf) as (_ & _ & H & _); [vm_compute; reflexivity|].
  apply (H (new_row 60 1 1 false (wit_item "a" "x"))); [vm_compute; reflexivity..|].
  split; [vm_compute; reflexivity|]. apply Nat.ltb_lt. vm_compute. reflexivity.
Defined.

Lemma reorder_lists_in_order_witness :
  ∃ cats, ListCategories (ReorderCategories wit_catalog [2; 1]).1 0 0 = inr (cats, 2) ∧ c_ID <$> cats = [2; 1].
Proof.
  pose proof (reorder_lists_in_order id wit_catalog [2; 1] wit_catalog_wf ltac:(done)) as H.
  destruct (ReorderCategories wit_catalog [2; 1]) as [c' [e|]] eqn:E; [exfalso; clear H; vm_compute in E; discriminate E|].
  destruct H as (cats & L & I & _). exists cats. split; [exact L|exact I].
Defined.
