(* ===== verification/Reading.v ===== *)
(** Reading entries ([storage/entry_bulk.go], [storage/entry_sort.go], the reads of
    [storage/entry.go]): the state of an entry for a reader, the lists a status filter selects
    with the table that drives each, the pages cut from them, and the statements
    that mark entries read, unread, starred or removed.  Timestamps of rows and
    enclosures are left out. *)

From S2P Require Import Prelude GoStrings Types FeedStore WebhookStore EntryStore Tables FilterStore Catalog.

(** * The state of an entry for a reader *)

Definition EntryStatusUnread : string := "unread".
Definition EntryStatusRead : string := "read".
Definition EntryStatusRemoved : string := "removed".

(** storage/entry.go [IsValidEntryStatus] *)
Definition IsValidEntryStatus (s : string) : bool :=
  String.eqb s EntryStatusUnread || String.eqb s EntryStatusRead || String.eqb s EntryStatusRemoved.

Record EntryView := mkEntryView { ev_row : EntryRow; ev_status : string; ev_starred : bool }.

Section State.
Context (db : EntryDb) (u : Z).

Definition is_unread (e : Z) : bool := bool_decide (is_Some (ed_unread db !! (e, u))).
(** The row of [user_entries] says removed, or starred. *)
Definition user_removed (e : Z) : bool := match ed_user db !! (e, u) with Some x => ue_removed x | None => false end.
Definition user_starred (e : Z) : bool := match ed_user db !! (e, u) with Some x => ue_starred x | None => false end.

(** storage/entry_bulk.go:18-18 [entryStatusExpr] *)
Definition entry_status (e : Z) (r : EntryRow) : string :=
  if is_unread e then EntryStatusUnread
  else match er_removed_at r with
       | Some _ => EntryStatusRemoved
       | None => if user_removed e then EntryStatusRemoved else EntryStatusRead
       end.

(** storage/entry_bulk.go:12-29 [entrySelectColumns, entryUserJoins, entryFromEntries] *)
Definition entry_view (e : Z) (r : EntryRow) : EntryView := mkEntryView r (entry_status e r) (user_starred e).

(** storage/entry_bulk.go:42-53 [entryListColumns, entryColumns] *)
Definition without_body (r : EntryRow) : EntryRow :=
  mkEntryRow (er_id r) (er_feed_id r) (er_title r) (er_url r) "" "" (er_content_fetched r) (er_author r) (er_published_at r) (er_hash r)
    (er_indexed r) (er_sort_at r) (er_removed_at r).
End State.

Definition reads (fdb : FeedDb) (u f : Z) : bool := bool_decide (is_Some (fd_subs fdb !! (u, f))).

(** storage/entry.go [PostgresStore.GetEntry] *)
Definition GetEntry (s : FeedDb * EntryDb) (u id : Z) : err + EntryView :=
  match ed_entries s.2 !! id with
  | Some r => if reads s.1 u (er_feed_id r) then inr (entry_view s.2 u id r) else inl ENotFound
  | None => inl ENotFound
  end.

(** storage/entry_bulk.go [PostgresStore.GetFeedEntry] *)
Definition GetFeedEntry (s : FeedDb * EntryDb) (u feedID id : Z) : err + EntryView :=
  match ed_entries s.2 !! id with
  | Some r => if (er_feed_id r =? feedID) && reads s.1 u feedID then inr (entry_view s.2 u id r) else inl ENotFound
  | None => inl ENotFound
  end.

(** * Lists *)

(** storage/entry_bulk.go [entryListConds] *)
Record entryListConds := mkConds { lc_FeedID : option Z; lc_CategoryID : option Z; lc_LabelID : option Z; lc_Starred : option bool }.

Definition opt_all {A} (o : option A) (p : A → bool) : bool := match o with Some a => p a | None => true end.

(** storage/entry_bulk.go [categoryFeeds] *)
Definition in_category_feeds (fdb : FeedDb) (cat f : Z) : bool :=
  match fd_feeds fdb !! f with Some r => bool_decide (f_category_id r = Some cat) | None => false end.

Definition has_label (db : EntryDb) (label e : Z) : bool := bool_decide (is_Some (ed_labels db !! (e, label))).

(** A list before it is ordered: the key of the driving table, and the entry. *)
Definition keyed : Type := list (Z * Z).

Section Scopes.
Context (fdb : FeedDb) (db : EntryDb) (u : Z) (c : entryListConds).

(** storage/entry_bulk.go:31-34 [entryFromUnread with entryListConds.where] *)
Definition unread_scope : keyed :=
  omap (λ '((e, v), (f, t)),
    if (v =? u) && bool_decide (is_Some (ed_entries db !! e)) && opt_all (lc_FeedID c) (λ g, f =? g) &&
       opt_all (lc_CategoryID c) (λ k, in_category_feeds fdb k f) && opt_all (lc_Starred c) (λ b, Bool.eqb (user_starred db u e) b) &&
       opt_all (lc_LabelID c) (λ l, has_label db l e)
    then Some (t, e) else None) (map_to_list (ed_unread db)).

(** storage/entry_bulk.go:36-40,113-139 [entryFromExceptions with entryListConds.where] Driven by
    [user_entries], which has no column [feed_id] since migration 0060: PostgreSQL refuses the statement that narrows by it. *)
Definition starred_scope (only_read : bool) : err + keyed :=
  match lc_FeedID c, lc_CategoryID c with
  | None, None =>
      inr (omap (λ '((e, v), x),
        match ed_entries db !! e with
        | Some r =>
            if (v =? u) && ue_starred x && negb (ue_removed x) && bool_decide (er_removed_at r = None) &&
               (if only_read then negb (is_unread db u e) else true) && opt_all (lc_Starred c) (λ b, Bool.eqb (ue_starred x) b) &&
               opt_all (lc_LabelID c) (λ l, has_label db l e)
            then Some (ue_sort_at x, e) else None
        | None => None
        end) (map_to_list (ed_user db)))
  | _, _ => inl (EMsg "column ue.feed_id does not exist")
  end.

(** storage/entry_bulk.go:145-170 [entryListConds.whereEntries] *)
Definition entries_scope (extra : Z → EntryRow → bool) : keyed :=
  omap (λ '(e, r),
    if opt_all (lc_FeedID c) (λ g, er_feed_id r =? g) && opt_all (lc_CategoryID c) (λ k, in_category_feeds fdb k (er_feed_id r)) &&
       reads fdb u (er_feed_id r) && extra e r && opt_all (lc_Starred c) (λ b, Bool.eqb (user_starred db u e) b) &&
       opt_all (lc_LabelID c) (λ l, has_label db l e)
    then Some (er_sort_at r, e) else None) (map_to_list (ed_entries db)).

(** storage/entry_bulk.go [entryListScope] An error of its own, or what the database makes of the query. *)
Definition entryListScope (status : option string) : err + (err + keyed) :=
  let st := default ""%string status in
  let no_removal e r := bool_decide (er_removed_at r = None) && negb (user_removed db u e) in
  if String.eqb st "" || String.eqb st EntryStatusRead then
    if bool_decide (lc_Starred c = Some true) then inr (starred_scope (String.eqb st EntryStatusRead))
    else inr (inr (entries_scope (λ e r, no_removal e r && (if String.eqb st EntryStatusRead then negb (is_unread db u e) else true))))
  else if String.eqb st EntryStatusUnread then inr (inr unread_scope)
  else if String.eqb st EntryStatusRemoved then
    inr (inr (entries_scope (λ e r, user_removed db u e || bool_decide (is_Some (er_removed_at r)))))
  else inl (EMsg "invalid entry status").

End Scopes.

Definition EntrySortNewest : string := "newest".
Definition EntrySortOldest : string := "oldest".

(** storage/entry_sort.go [NormalizeEntrySort] *)
Definition NormalizeEntrySort (s : string) : string :=
  if String.eqb (to_lower (trim_space s)) EntrySortOldest then EntrySortOldest else EntrySortNewest.

(** By key, then by number. *)
Definition key_asc (x y : Z * Z) : Prop := x.1 < y.1 ∨ (x.1 = y.1 ∧ x.2 <= y.2).
Definition key_desc (x y : Z * Z) : Prop := key_asc y x.
#[export] Instance key_asc_dec : RelDecision key_asc.
Proof. unfold key_asc. intros x y. apply _. Defined.
#[export] Instance key_desc_dec : RelDecision key_desc.
Proof. unfold key_desc. intros x y. apply _. Defined.

(** storage/entry_sort.go [entryOrderClause] *)
Definition entry_order (sort : string) (l : keyed) : keyed :=
  if String.eqb (NormalizeEntrySort sort) EntrySortOldest then merge_sort key_asc l else merge_sort key_desc l.

Definition ListPageCap : Z := 1000.
Definition ListTotalCap : Z := 10001.

(** storage/entities.go [ListEntriesFilter] *)
Record ListEntriesFilter := mkListFilter {
  lf_conds : entryListConds; lf_Status : option string; lf_Sort : string; lf_Limit : Z; lf_Offset : Z; lf_WithTotal : bool; lf_WithoutBody : bool;
}.

(** storage/entry.go [trimPage] *)
Definition trimPage {A} (offset limit : Z) (page : list A) : list A * Z :=
  if limit <? Z.of_nat (length page) then (take (Z.to_nat limit) page, offset + limit + 1) else (page, offset + Z.of_nat (length page)).

(** storage/entry_bulk.go:76-84 [entryScope.page] *)
Definition scope_page (db : EntryDb) (u : Z) (no_body : bool) (sort : string) (limit offset : Z) (l : keyed) : list EntryView :=
  omap (λ ke, match ed_entries db !! ke.2 with
              | Some r => Some (entry_view db u ke.2 (if no_body then without_body r else r))
              | None => None
              end) (take (Z.to_nat limit) (drop (Z.to_nat offset) (entry_order sort l))).

(** storage/entry.go [PostgresStore.listEntries] *)
Definition listEntries (s : FeedDb * EntryDb) (u : Z) (f : ListEntriesFilter) : err + list EntryView * Z :=
  let limit := if lf_Limit f <=? 0 then 100 else lf_Limit f in
  let limit := if ListPageCap <? limit then ListPageCap else limit in
  let offset := Z.max (lf_Offset f) 0 in
  match entryListScope s.1 s.2 u (lf_conds f) (lf_Status f) with
  | inl e => inl e
  | inr (inl e) => inl (EWrap "list entries" e)
  | inr (inr rows) =>
      let fetch := if lf_WithTotal f then limit else limit + 1 in
      let out := scope_page s.2 u (lf_WithoutBody f) (lf_Sort f) fetch offset rows in
      if lf_WithTotal f then inr (out, Z.min (Z.of_nat (length rows)) ListTotalCap) else inr (trimPage offset limit out)
  end.

(** storage/entry.go [PostgresStore.ListEntries] *)
Definition ListEntries := listEntries.

(** storage/entry.go [PostgresStore.ListFeedEntries] *)
Definition ListFeedEntries (s : FeedDb * EntryDb) (u feedID : Z) (f : ListEntriesFilter) : err + list EntryView * Z :=
  let c := lf_conds f in
  listEntries s u (mkListFilter (mkConds (Some feedID) (lc_CategoryID c) (lc_LabelID c) (lc_Starred c)) (lf_Status f) (lf_Sort f)
                     (lf_Limit f) (lf_Offset f) (lf_WithTotal f) (lf_WithoutBody f)).

(** * Counts *)

Definition unread_of (db : EntryDb) (u : Z) : list (Z * Z) :=
  omap (λ '((e, v), (f, _)), if v =? u then Some (e, f) else None) (map_to_list (ed_unread db)).

(** storage/entry.go [PostgresStore.CountUnreadByFeed] *)
Definition CountUnreadByFeed (s : FeedDb * EntryDb) (u f : Z) : Z := Z.of_nat (length (filter (λ ef, ef.2 = f) (unread_of s.2 u))).
(** storage/entry.go [PostgresStore.CountUnreadByCategory] *)
Definition CountUnreadByCategory (s : FeedDb * EntryDb) (u k : Z) : Z :=
  Z.of_nat (length (filter (λ ef, in_category_feeds s.1 k ef.2 = true) (unread_of s.2 u))).
(** storage/entry.go [PostgresStore.CountUnreadGlobalForUser] *)
Definition CountUnreadGlobalForUser (s : FeedDb * EntryDb) (u : Z) : Z := Z.of_nat (length (unread_of s.2 u)).

(** storage/entry.go [PostgresStore.UnreadCountsForUser] By feed and by category, as the rows of
    the grouped query come. *)
Definition UnreadCountsForUser (s : FeedDb * EntryDb) (u : Z) : gmap Z Z * gmap Z Z :=
  foldl (λ acc f,
    match fd_feeds s.1 !! f with
    | Some r =>
        let n := CountUnreadByFeed s u f in
        (<[f := n]> acc.1,
         match f_category_id r with Some k => <[k := default 0 (acc.2 !! k) + n]> acc.2 | None => acc.2 end)
    | None => acc
    end) (∅, ∅) (elements (list_to_set (unread_of s.2 u).*2 : gset Z)).

(** * Marking *)

(** The rows a statement inserts or rewrites, put over the table. *)
Definition rows_of_user {A} (u : Z) (m : gmap Z A) : gmap (Z * Z) A := kmap (λ e, (e, u)) m.

Section Marks.
Context (fdb : FeedDb) (db : EntryDb) (u : Z) (ids : list Z).

(** storage/entry_bulk.go:255-255 [entryMarkRead] With the entries that were unread. *)
Definition entryMarkRead : gmap (Z * Z) (Z * Z) * gset Z :=
  (filter (λ kv, ¬ (kv.1.2 = u ∧ kv.1.1 ∈ ids)) (ed_unread db),
   filter (λ e, is_unread db u e = true) (list_to_set ids)).

(** storage/entry_bulk.go:256-261 [entryMarkUnread] *)
Definition entryMarkUnread : gmap (Z * Z) (Z * Z) * gset Z :=
  let rows := filter (λ kv : Z * EntryRow, kv.1 ∈ ids ∧ er_removed_at kv.2 = None ∧ reads fdb u (er_feed_id kv.2) = true ∧
                        user_removed db u kv.1 = false ∧ is_unread db u kv.1 = false) (ed_entries db) in
  (rows_of_user u ((λ r, (er_feed_id r, er_sort_at r)) <$> rows) ∪ ed_unread db, dom rows).

(** storage/entry_bulk.go:262-269 [entryStar] *)
Definition entryStar : gmap (Z * Z) UserEntry * gset Z :=
  let rows := filter (λ kv : Z * EntryRow, kv.1 ∈ ids ∧ er_removed_at kv.2 = None ∧ reads fdb u (er_feed_id kv.2) = true ∧
                        user_starred db u kv.1 = false ∧ user_removed db u kv.1 = false) (ed_entries db) in
  (rows_of_user u (map_imap (λ e r, Some match ed_user db !! (e, u) with
                                        | None => mkUserEntry false true (er_sort_at r)
                                        | Some x => mkUserEntry (ue_removed x) true (ue_sort_at x)
                                        end) rows) ∪ ed_user db, dom rows).

(** storage/entry_bulk.go:270-272 [entryUnstar] *)
Definition entryUnstar : gmap (Z * Z) UserEntry * gset Z :=
  (filter (λ kv : (Z * Z) * UserEntry, ¬ (kv.1.2 = u ∧ kv.1.1 ∈ ids ∧ ue_starred kv.2 = true ∧ ue_removed kv.2 = false)) (ed_user db),
   filter (λ e, user_starred db u e = true ∧ user_removed db u e = false) (list_to_set ids)).

(** storage/entry_bulk.go:273-279 [entryRemove] *)
Definition entryRemove : gmap (Z * Z) UserEntry * gset Z :=
  let rows := filter (λ kv : Z * EntryRow, kv.1 ∈ ids ∧ reads fdb u (er_feed_id kv.2) = true ∧ user_removed db u kv.1 = false)
                (ed_entries db) in
  (rows_of_user u (map_imap (λ e r, Some match ed_user db !! (e, u) with
                                        | None => mkUserEntry true false (er_sort_at r)
                                        | Some x => mkUserEntry true (ue_starred x) (ue_sort_at x)
                                        end) rows) ∪ ed_user db, dom rows).

End Marks.

(** storage/entities.go [BulkEntryUpdate] [UpdateEntryParams] has the same fields. *)
Record BulkEntryUpdate := mkBulkEntry { be_Status : option string; be_Starred : option bool }.

(** The common table expression of a status, and of a star; both read the tables as the statement found them. *)
Definition status_cte (fdb : FeedDb) (db : EntryDb) (u : Z) (ids : list Z) (status : string) : option (gmap (Z * Z) (Z * Z) * gset Z) :=
  if String.eqb status EntryStatusRead then Some (entryMarkRead db u ids)
  else if String.eqb status EntryStatusUnread then Some (entryMarkUnread fdb db u ids) else None.
Definition star_cte (fdb : FeedDb) (db : EntryDb) (u : Z) (ids : list Z) (on : bool) : gmap (Z * Z) UserEntry * gset Z :=
  if on then entryStar fdb db u ids else entryUnstar db u ids.

(** storage/entry_bulk.go [PostgresStore.BulkUpdateEntries] *)
Definition BulkUpdateEntries (s : FeedDb * EntryDb) (u : Z) (ids : list Z) (x : BulkEntryUpdate) : (FeedDb * EntryDb) * (err + Z) :=
  match ids, be_Status x, be_Starred x with
  | [], _, _ => (s, inr 0)
  | _, None, None => (s, inl (EMsg "nothing to update"))
  | _, _, _ =>
      match match be_Status x with
            | Some st => status_cte s.1 s.2 u ids (trim_space st)
            | None => Some (ed_unread s.2, ∅)
            end with
      | None => (s, inl (EMsg "invalid entry status"))
      | Some (unread, st) =>
          let '(user, sr) := match be_Starred x with Some b => star_cte s.1 s.2 u ids b | None => (ed_user s.2, ∅) end in
          ((s.1, with_user (with_unread s.2 unread) user), inr (Z.of_nat (size (st ∪ sr))))
      end
  end.

(** storage/entry_bulk.go [PostgresStore.MarkEntriesRemoved] *)
Definition MarkEntriesRemoved (s : FeedDb * EntryDb) (u : Z) (ids : list Z) : (FeedDb * EntryDb) * Z :=
  match ids with
  | [] => (s, 0)
  | _ => let '(user, rm) := entryRemove s.1 s.2 u ids in
         ((s.1, with_user (with_unread s.2 (entryMarkRead s.2 u ids).1) user), Z.of_nat (size rm))
  end.

(** Dropping the unread rows of a user that a condition picks, with how many. *)
Definition drop_unread (db : EntryDb) (u : Z) (p : Z → Z → bool) : EntryDb * Z :=
  (with_unread db (filter (λ kv, ¬ (kv.1.2 = u ∧ p kv.1.1 kv.2.1 = true)) (ed_unread db)),
   Z.of_nat (length (filter (λ ef, p ef.1 ef.2 = true) (unread_of db u)))).

(** storage/entry_bulk.go [PostgresStore.MarkAllFeedEntriesRead] *)
Definition MarkAllFeedEntriesRead (c : Catalog) (u feedID : Z) : EntryDb * (err + Z) :=
  match GetFeed c u feedID with
  | inl e => (ct_entries c, inl e)
  | inr _ => let '(db, n) := drop_unread (ct_entries c) u (λ _ f, f =? feedID) in (db, inr n)
  end.

(** storage/entry_bulk.go [PostgresStore.MarkAllCategoryEntriesRead] *)
Definition MarkAllCategoryEntriesRead (c : Catalog) (u cat : Z) : EntryDb * (err + Z) :=
  match lookupCategory c cat with
  | Some e => (ct_entries c, inl e)
  | None => let '(db, n) := drop_unread (ct_entries c) u (λ _ f, in_category_feeds (ct_feeds c) cat f) in (db, inr n)
  end.

(** storage/entry_bulk.go [PostgresStore.MarkAllLabelEntriesRead] *)
Definition MarkAllLabelEntriesRead (labels : FilterDb) (db : EntryDb) (u label : Z) : EntryDb * (err + Z) :=
  match GetLabel labels u label with
  | inl _ => (db, inl ENotFound)
  | inr _ => let '(db, n) := drop_unread db u (λ e _, has_label db label e) in (db, inr n)
  end.

(** storage/entry_bulk.go [PostgresStore.MarkAllEntriesRead] *)
Definition MarkAllEntriesRead (db : EntryDb) (u : Z) : EntryDb * Z := drop_unread db u (λ _ _, true).

(** storage/entry_bulk.go [PostgresStore.UpdateEntry] The status statement, then the star. *)
Definition UpdateEntry (s : FeedDb * EntryDb) (u feedID id : Z) (x : BulkEntryUpdate) : (FeedDb * EntryDb) * (err + EntryView) :=
  match be_Status x, be_Starred x with
  | None, None => (s, inl (EMsg "nothing to update"))
  | _, _ =>
      let status := trim_space (default ""%string (be_Status x)) in
      if bool_decide (is_Some (be_Status x)) && negb (IsValidEntryStatus status) then (s, inl (EMsg "invalid entry status"))
      else match GetFeedEntry s u feedID id with
      | inl _ => (s, inl ENotFound)
      | inr _ =>
          let s1 := if String.eqb status EntryStatusRemoved then (MarkEntriesRemoved s u [id]).1
                    else match status_cte s.1 s.2 u [id] status with Some (unread, _) => (s.1, with_unread s.2 unread) | None => s end in
          let s2 := match be_Starred x with Some b => (s1.1, with_user s1.2 (star_cte s1.1 s1.2 u [id] b).1) | None => s1 end in
          (s2, GetFeedEntry s2 u feedID id)
      end
  end.

(** storage/entry.go [PostgresStore.UpdateEntryContent] *)
Definition UpdateEntryContent (s : FeedDb * EntryDb) (u id : Z) (content original : string) (fetched : bool)
    : (FeedDb * EntryDb) * (err + EntryView) :=
  match ed_entries s.2 !! id with
  | Some r =>
      if reads s.1 u (er_feed_id r) then
        let r' := mkEntryRow (er_id r) (er_feed_id r) (er_title r) (er_url r) content original fetched (er_author r) (er_published_at r)
                    (er_hash r) true (er_sort_at r) (er_removed_at r) in
        let s' := (s.1, with_entries s.2 (<[id := r']> (ed_entries s.2))) in (s', GetEntry s' u id)
      else (s, inl ENotFound)
  | None => (s, inl ENotFound)
  end.
