(* ===== verification/ReadingSpec.v ===== *)
(** What reading does ([Reading.v]): whichever table drives it, a list is the reader's entries
    with the asked state, in order; marking does what it says and no more; and the tables
    stay consistent under everything that polls, edits the catalogue, subscribes and reads. *)

From S2P Require Import Prelude GoStrings PollWindow Types FeedStore WebhookStore EntryStore Tables FilterStore Catalog CatalogSpec Reading.

(** * Lists *)

(** The state a status filter asks for; no status means whatever is not removed. *)
Definition asked (status : string) (v : EntryView) : bool :=
  if String.eqb status "" then negb (String.eqb (ev_status v) EntryStatusRemoved) else String.eqb (ev_status v) status.

(** The optional conditions of a list, on an entry. *)
Definition meets (s : FeedDb * EntryDb) (c : entryListConds) (e : Z) (v : EntryView) : bool :=
  opt_all (lc_FeedID c) (λ g, er_feed_id (ev_row v) =? g) && opt_all (lc_CategoryID c) (λ k, in_category_feeds s.1 k (er_feed_id (ev_row v))) &&
  opt_all (lc_Starred c) (λ b, Bool.eqb (ev_starred v) b) && opt_all (lc_LabelID c) (λ l, has_label s.2 l e).

(** The entries of a list: those the reader can open that have the state and meet the conditions. *)
Definition listed (s : FeedDb * EntryDb) (u : Z) (c : entryListConds) (status : string) : keyed :=
  omap (λ e, match GetEntry s u e with
             | inr v => if asked status v && meets s c e v then Some (er_sort_at (ev_row v), e) else None
             | inl _ => None
             end) (map_to_list (ed_entries s.2)).*1.

#[export] Instance key_asc_total : Total key_asc.
Proof. intros x y. unfold key_asc. lia. Qed.
#[export] Instance key_asc_trans : Transitive key_asc.
Proof. intros x y z. unfold key_asc. lia. Qed.
#[export] Instance key_asc_anti : AntiSymm (=) key_asc.
Proof. intros [a b] [c d]. unfold key_asc. cbn [fst snd]. intros. f_equal; lia. Qed.
#[export] Instance key_desc_total : Total key_desc.
Proof. intros x y. unfold key_desc, key_asc. lia. Qed.
#[export] Instance key_desc_trans : Transitive key_desc.
Proof. intros x y z. unfold key_desc, key_asc. lia. Qed.
#[export] Instance key_desc_anti : AntiSymm (=) key_desc.
Proof. intros x y A B. exact (key_asc_anti x y B A). Qed.

Lemma merge_sort_perm {A} (R : relation A) `{!RelDecision R, !Total R, !Transitive R, !AntiSymm (=) R} (l k : list A) :
  l ≡ₚ k → merge_sort R l = merge_sort R k.
Proof.
  intros P. apply (StronglySorted_unique R); [apply StronglySorted_merge_sort; apply _..|].
  by rewrite !merge_sort_Permutation.
Qed.

Lemma entry_order_perm sort l k : l ≡ₚ k → entry_order sort l = entry_order sort k.
Proof. intros P. unfold entry_order. destruct (String.eqb _ _); [exact (merge_sort_perm key_asc l k P)|exact (merge_sort_perm key_desc l k P)]. Qed.

Lemma opt_all_true {A} (o : option A) p : opt_all o p = true ↔ ∀ a, o = Some a → p a = true.
Proof. destruct o; cbn; split; naive_solver. Qed.

Section Lists.
Context (hdb : HookDb) (s : FeedDb * EntryDb) (u : Z) (W : tables_wf hdb s).

Lemma unread_row e f t : ed_unread s.2 !! (e, u) = Some (f, t) → ∃ r, ed_entries s.2 !! e = Some r ∧ er_feed_id r = f ∧ er_sort_at r = t ∧
  er_removed_at r = None ∧ reads s.1 u f = true ∧ user_removed s.2 u e = false.
Proof.
  intros H. destruct (tw_unread _ _ W _ _ _ _ H) as (S & (r & L & F & T & R) & U). exists r. do 4 (split; [done|]).
  split; [by apply bool_decide_eq_true_2|]. unfold user_removed. destruct (ed_user s.2 !! (e, u)) as [x|] eqn:E; [by apply U|done].
Qed.

Lemma is_unread_row e r : ed_entries s.2 !! e = Some r → is_unread s.2 u e = true →
  er_removed_at r = None ∧ user_removed s.2 u e = false ∧ ed_unread s.2 !! (e, u) = Some (er_feed_id r, er_sort_at r).
Proof.
  intros L [[f t] H]%bool_decide_eq_true. destruct (unread_row _ _ _ H) as (r' & L' & <- & <- & R & _ & U).
  assert (r' = r) as -> by congruence. done.
Qed.

Lemma status_unread e r : (entry_status s.2 u e r = EntryStatusUnread) ↔ is_unread s.2 u e = true.
Proof. unfold entry_status. destruct (is_unread _ _ _); [done|]. destruct (er_removed_at r); [done|]. by destruct (user_removed _ _ _). Qed.

Lemma status_removed e r : ed_entries s.2 !! e = Some r →
  (entry_status s.2 u e r = EntryStatusRemoved) ↔ (is_Some (er_removed_at r) ∨ user_removed s.2 u e = true).
Proof.
  intros L. unfold entry_status. destruct (is_unread _ _ _) eqn:U.
  - destruct (is_unread_row _ _ L U) as (-> & -> & _). split; [done|]. intros [[]|]; done.
  - destruct (er_removed_at r); [split; eauto|]. destruct (user_removed _ _ _); split; eauto; [done|]. intros [[]|]; done.
Qed.

Lemma status_read e r : ed_entries s.2 !! e = Some r →
  (entry_status s.2 u e r = EntryStatusRead) ↔ (is_unread s.2 u e = false ∧ er_removed_at r = None ∧ user_removed s.2 u e = false).
Proof.
  intros L. unfold entry_status. destruct (is_unread _ _ _); [split; [done|by intros []]|].
  destruct (er_removed_at r); [split; [done|by intros (_ & ? & _)]|]. destruct (user_removed _ _ _); split; try done. by intros (_ & _ & ?).
Qed.

Lemma elem_of_listed c status t e : (t, e) ∈ listed s u c status ↔ ∃ r, ed_entries s.2 !! e = Some r ∧ t = er_sort_at r ∧
  reads s.1 u (er_feed_id r) = true ∧ asked status (entry_view s.2 u e r) = true ∧ meets s c e (entry_view s.2 u e r) = true.
Proof.
  unfold listed. rewrite list_elem_of_omap. split.
  - intros (e' & ([k r] & -> & L%elem_of_map_to_list)%list_elem_of_fmap & E). cbn [fst] in E. unfold GetEntry in E. rewrite L in E.
    destruct (reads _ _ _) eqn:S; [|done]. destruct (asked _ _ && meets _ _ _ _) eqn:M; [|done]. injection E as <- <-.
    apply andb_true_iff in M as [M1 M2]. by exists r.
  - intros (r & L & -> & S & A & M). exists e. split; [apply list_elem_of_fmap; exists (e, r); split; [done|by apply elem_of_map_to_list]|].
    unfold GetEntry. by rewrite L, S, A, M.
Qed.

Lemma listed_nodup c status : NoDup (listed s u c status).
Proof.
  apply (NoDup_fmap_1 snd). unfold listed. apply (NoDup_fmap_omap _ snd id).
  - intros e [t e'] H. destruct (GetEntry s u e); [done|]. destruct (_ && _); [|done]. by injection H as _ <-.
  - rewrite list_fmap_id. apply NoDup_fst_map_to_list.
Qed.

(** Asking a view for a state, in the tables. *)
Lemma asked_any e r : ed_entries s.2 !! e = Some r →
  asked "" (entry_view s.2 u e r) = true ↔ er_removed_at r = None ∧ user_removed s.2 u e = false.
Proof.
  intros L. unfold asked. cbn [String.eqb]. unfold entry_view. cbn [ev_status]. rewrite negb_true_iff, String.eqb_neq, status_removed by done.
  destruct (er_removed_at r), (user_removed s.2 u e); naive_solver.
Qed.
Lemma asked_read e r : ed_entries s.2 !! e = Some r →
  asked EntryStatusRead (entry_view s.2 u e r) = true ↔ (er_removed_at r = None ∧ user_removed s.2 u e = false) ∧ is_unread s.2 u e = false.
Proof. intros L. unfold asked. cbn [EntryStatusRead String.eqb]. fold EntryStatusRead. unfold entry_view. cbn [ev_status]. rewrite String.eqb_eq, status_read by done. tauto. Qed.
Lemma asked_unread e r : asked EntryStatusUnread (entry_view s.2 u e r) = true ↔ is_unread s.2 u e = true.
Proof. unfold asked. change (String.eqb EntryStatusUnread "") with false. cbv iota. unfold entry_view. cbn [ev_status]. by rewrite String.eqb_eq, status_unread. Qed.
Lemma asked_removed e r : ed_entries s.2 !! e = Some r →
  asked EntryStatusRemoved (entry_view s.2 u e r) = true ↔ user_removed s.2 u e = true ∨ is_Some (er_removed_at r).
Proof.
  intros L. unfold asked. change (String.eqb EntryStatusRemoved "") with false. cbv iota. unfold entry_view. cbn [ev_status].
  rewrite String.eqb_eq, status_removed by done. tauto.
Qed.

(** A list driven by the entries. *)
Lemma entries_scope_listed c status extra :
  (∀ e r, ed_entries s.2 !! e = Some r → extra e r = asked status (entry_view s.2 u e r)) →
  entries_scope s.1 s.2 u c extra ≡ₚ listed s u c status.
Proof.
  intros X. apply NoDup_Permutation; [|apply listed_nodup|].
  - apply (NoDup_fmap_1 snd). apply (NoDup_fmap_omap _ snd fst); [|apply NoDup_fst_map_to_list].
    intros [e r] [t e'] H. destruct (_ && _); [|done]. by injection H as _ <-.
  - intros [t e]. rewrite elem_of_listed. unfold entries_scope. rewrite list_elem_of_omap. split.
    + intros ([e' r] & L%elem_of_map_to_list & E). destruct (_ && _) eqn:G; [|done]. injection E as <- <-. exists r. split; [done|]. split; [done|].
      rewrite <-(X _ _ L). unfold meets. cbn [entry_view ev_row ev_starred]. rewrite !andb_true_iff in *. tauto.
    + intros (r & L & -> & S & A & M). exists (e, r). split; [by apply elem_of_map_to_list|]. rewrite <-(X _ _ L) in A.
      unfold meets in M. cbn [entry_view ev_row ev_starred] in M. rewrite !andb_true_iff in M. destruct M as [[[M1 M2] M3] M4].
      by rewrite M1, M2, S, A, M3, M4.
Qed.

(** A list driven by the unread marks. *)
Lemma unread_scope_listed c : unread_scope s.1 s.2 u c ≡ₚ listed s u c EntryStatusUnread.
Proof.
  apply NoDup_Permutation; [|apply listed_nodup|].
  - apply (NoDup_fmap_1 (λ te, (te.2, u))). apply (NoDup_fmap_omap _ _ fst); [|apply NoDup_fst_map_to_list].
    intros [[e v] [f t]] [t' e'] H. destruct (v =? u) eqn:V; [|done]. apply Z.eqb_eq in V as ->. cbn [andb] in H.
    destruct (_ && _); [|done]. by injection H as _ <-.
  - intros [t e]. rewrite elem_of_listed. unfold unread_scope. rewrite list_elem_of_omap. split.
    + intros ([[e' v] [f t']] & L%elem_of_map_to_list & E). destruct (v =? u) eqn:V; [|done]. apply Z.eqb_eq in V as ->. cbn [andb] in E.
      destruct (_ && _) eqn:G; [|done]. injection E as -> ->. destruct (unread_row _ _ _ L) as (r & Lr & <- & <- & R & S & U).
      exists r. do 3 (split; [done|]). split; [apply asked_unread, bool_decide_eq_true_2; eauto|].
      unfold meets. cbn [entry_view ev_row ev_starred]. rewrite !andb_true_iff in *. tauto.
    + intros (r & L & -> & S & A & M). apply asked_unread in A. destruct (is_unread_row _ _ L A) as (_ & _ & H).
      exists ((e, u), (er_feed_id r, er_sort_at r)). split; [by apply elem_of_map_to_list|]. rewrite Z.eqb_refl, L.
      unfold meets in M. cbn [entry_view ev_row ev_starred] in M. rewrite !andb_true_iff in M. destruct M as [[[M1 M2] M3] M4].
      rewrite bool_decide_eq_true_2 by eauto. by rewrite M1, M2, M3, M4.
Qed.

(** A list driven by the stars. *)
Lemma starred_scope_listed label only_read l :
  starred_scope s.2 u (mkConds None None label (Some true)) only_read = inr l →
  l ≡ₚ listed s u (mkConds None None label (Some true)) (if only_read then EntryStatusRead else "").
Proof.
  unfold starred_scope. cbn [lc_FeedID lc_CategoryID lc_Starred lc_LabelID]. intros [= <-]. apply NoDup_Permutation; [|apply listed_nodup|].
  - apply (NoDup_fmap_1 (λ te, (te.2, u))). apply (NoDup_fmap_omap _ _ fst); [|apply NoDup_fst_map_to_list].
    intros [[e v] x] [t' e'] H. destruct (ed_entries s.2 !! e); [|done]. destruct (v =? u) eqn:V; [|done]. apply Z.eqb_eq in V as ->.
    cbn [andb] in H. destruct (_ && _); [|done]. by injection H as _ <-.
  - intros [t e]. rewrite elem_of_listed, list_elem_of_omap. split.
    + intros ([[e' v] x] & L%elem_of_map_to_list & E). destruct (ed_entries s.2 !! e') as [r|] eqn:Lr; [|done].
      destruct (v =? u) eqn:V; [|done]. apply Z.eqb_eq in V as ->. cbn [andb] in E. destruct (_ && _) eqn:G; [|done]. injection E as <- <-.
      destruct (tw_user _ _ W _ _ _ L) as (r' & Lr' & So & Su). assert (r' = r) as -> by congruence.
      rewrite !andb_true_iff in G. destruct G as [[[[[G1 G2] G3] G4] G5] G6]. apply negb_true_iff in G2. apply bool_decide_eq_true in G3.
      exists r. split; [done|]. split; [done|]. split; [by apply bool_decide_eq_true_2|].
      assert (Ur : user_removed s.2 u e' = false) by (unfold user_removed; by rewrite L). split.
      * destruct only_read; [apply asked_read; [done|]; split; [done|]; by apply negb_true_iff in G4|by apply asked_any].
      * unfold meets. cbn [lc_FeedID lc_CategoryID lc_Starred lc_LabelID opt_all entry_view ev_row ev_starred]. unfold user_starred. by rewrite L, G1, G6.
    + intros (r & L & -> & S & A & M). unfold meets in M. cbn [lc_FeedID lc_CategoryID lc_Starred lc_LabelID opt_all entry_view ev_row ev_starred andb] in M.
      apply andb_true_iff in M as [M1 M2]. apply Bool.eqb_prop in M1. unfold user_starred in M1.
      destruct (ed_user s.2 !! (e, u)) as [x|] eqn:Lx; [|done]. destruct (tw_user _ _ W _ _ _ Lx) as (r' & Lr' & So & Su).
      assert (r' = r) as -> by congruence.
      assert (Ar : er_removed_at r = None ∧ user_removed s.2 u e = false) by (destruct only_read; [by apply asked_read in A as [A _]|by apply asked_any in A]).
      destruct Ar as [Ar Ur]. unfold user_removed in Ur. rewrite Lx in Ur.
      exists ((e, u), x). split; [by apply elem_of_map_to_list|]. rewrite L, Z.eqb_refl, M1, M2, Ur, (bool_decide_eq_true_2 _ Ar), So. cbn [andb negb].
      destruct only_read; [|done]. apply asked_read in A as [_ ->]; done.
Qed.

End Lists.

(** The page a filter asks for. *)
Definition page_limit (f : ListEntriesFilter) : Z := Z.min (if lf_Limit f <=? 0 then 100 else lf_Limit f) ListPageCap.

(** The lists that no statement can answer: starred entries of one feed or one category. *)
Definition starred_within (c : entryListConds) (status : string) : bool :=
  bool_decide (lc_Starred c = Some true) && (String.eqb status "" || String.eqb status EntryStatusRead) &&
  (bool_decide (is_Some (lc_FeedID c)) || bool_decide (is_Some (lc_CategoryID c))).

Lemma entryListScope_listed hdb s u c st0 : tables_wf hdb s → (∀ st, st0 = Some st → st = "" ∨ IsValidEntryStatus st = true) →
  let status := default ""%string st0 in
  if starred_within c status then entryListScope s.1 s.2 u c st0 = inr (inl (EMsg "column ue.feed_id does not exist"))
  else ∃ l, entryListScope s.1 s.2 u c st0 = inr (inr l) ∧ l ≡ₚ listed s u c status.
Proof.
  intros W V status.
  assert (Vs : status = ""%string ∨ status = EntryStatusRead ∨ status = EntryStatusUnread ∨ status = EntryStatusRemoved).
  { unfold status. destruct st0 as [st|]; [|by left]. destruct (V st eq_refl) as [->|H]; [by left|]. right. unfold IsValidEntryStatus in H.
    rewrite !orb_true_iff, !String.eqb_eq in H. cbn [default]. unfold id. tauto. }
  unfold entryListScope. fold status. unfold starred_within. clearbody status. clear V.
  assert (Star : ∀ only_read, bool_decide (lc_Starred c = Some true) = true →
    if bool_decide (is_Some (lc_FeedID c)) || bool_decide (is_Some (lc_CategoryID c))
    then starred_scope s.2 u c only_read = inl (EMsg "column ue.feed_id does not exist")
    else ∃ l, starred_scope s.2 u c only_read = inr l ∧ l ≡ₚ listed s u c (if only_read then EntryStatusRead else "")).
  { intros only_read S%bool_decide_eq_true. destruct c as [fd ct lb sr]. cbn [lc_FeedID lc_CategoryID lc_Starred] in *. subst sr.
    destruct fd; [done|]. destruct ct; [done|]. cbn. eexists. split; [reflexivity|]. by apply (starred_scope_listed hdb). }
  destruct Vs as [->|[->|[->| ->]]]; cbn [String.eqb EntryStatusRead EntryStatusUnread EntryStatusRemoved Ascii.eqb Bool.eqb orb andb];
    rewrite ?andb_true_r, ?andb_false_r; cbn [andb].
  - destruct (bool_decide (lc_Starred c = Some true)) eqn:S; cbn [andb].
    + specialize (Star false eq_refl). destruct (_ || _); [by rewrite Star|]. destruct Star as (l & -> & P). by exists l.
    + eexists. split; [reflexivity|]. apply entries_scope_listed. intros e r L. apply eq_true_iff_eq.
      rewrite (asked_any hdb) by done. rewrite andb_true_r, andb_true_iff, negb_true_iff, bool_decide_eq_true. done.
  - destruct (bool_decide (lc_Starred c = Some true)) eqn:S; cbn [andb].
    + specialize (Star true eq_refl). destruct (_ || _); [by rewrite Star|]. destruct Star as (l & -> & P). by exists l.
    + eexists. split; [reflexivity|]. apply entries_scope_listed. intros e r L. apply eq_true_iff_eq.
      rewrite asked_read by done. by rewrite !andb_true_iff, !negb_true_iff, bool_decide_eq_true.
  - eexists. split; [reflexivity|]. by apply (unread_scope_listed hdb).
  - eexists. split; [reflexivity|]. apply entries_scope_listed. intros e r L. apply eq_true_iff_eq.
    rewrite (asked_removed hdb) by done. by rewrite orb_true_iff, bool_decide_eq_true.
Qed.

(** C18: a list is what it says, whichever table drives it.  Lists of unread entries walk the
    unread marks, lists of starred ones the stars, all others the entries; in consistent
    tables each is a page, newest or oldest first, of the entries the reader can open
    whose state is the asked one (without a status: not removed) and that meet the feed,
    category, star and label conditions, and the total counts them up to 10001.  The one
    exception is the starred entries of a single feed or category (with no status, or
    read), whose statement names a column the table no longer has: that list is always an error. *)
Theorem lists_match_reference (hdb : HookDb) (s : FeedDb * EntryDb) (u : Z) (f : ListEntriesFilter) (W : tables_wf hdb s)
  (V : ∀ st, lf_Status f = Some st → st = "" ∨ IsValidEntryStatus st = true) :
  let status := default ""%string (lf_Status f) in let rows := listed s u (lf_conds f) status in
  let page n := scope_page s.2 u (lf_WithoutBody f) (lf_Sort f) n (Z.max (lf_Offset f) 0) rows in
  ListEntries s u f =
    if starred_within (lf_conds f) status then inl (EWrap "list entries" (EMsg "column ue.feed_id does not exist"))
    else if lf_WithTotal f then inr (page (page_limit f), Z.min (Z.of_nat (length rows)) 10001)
    else inr (trimPage (Z.max (lf_Offset f) 0) (page_limit f) (page (page_limit f + 1))).
Proof.
  cbv zeta. unfold ListEntries, listEntries. set (status := default ""%string (lf_Status f)). set (c := lf_conds f).
  assert (L : (if ListPageCap <? (if lf_Limit f <=? 0 then 100 else lf_Limit f) then ListPageCap else if lf_Limit f <=? 0 then 100 else lf_Limit f) = page_limit f).
  { unfold page_limit. destruct (_ <? _) eqn:E; bool_to_prop; lia. }
  rewrite L. clear L.
  pose proof (entryListScope_listed hdb s u c (lf_Status f) W V) as Scope. cbv zeta in Scope. fold status in Scope. destruct (starred_within c status).
  - by rewrite Scope.
  - destruct Scope as (l & -> & P). unfold scope_page. rewrite (entry_order_perm _ _ _ P). destruct (lf_WithTotal f); [by rewrite (Permutation_length P)|done].
Qed.

(** * Marking *)

Section Marking.
Context (fdb : FeedDb) (db : EntryDb) (u : Z) (ids : list Z).

(** What may be marked unread or starred. *)
Definition can_mark (e : Z) : bool :=
  match ed_entries db !! e with
  | Some r => bool_decide (er_removed_at r = None) && reads fdb u (er_feed_id r) && negb (user_removed db u e)
  | None => false
  end.

(** The rows a statement is about. *)
Definition picked (v e : Z) : bool := bool_decide (v = u) && bool_decide (e ∈ ids).

Lemma picked_true v e : picked v e = true ↔ v = u ∧ e ∈ ids.
Proof. unfold picked. by rewrite andb_true_iff, !bool_decide_eq_true. Qed.

Lemma rows_of_user_lookup {A} (m : gmap Z A) e v : rows_of_user u m !! (e, v) = if decide (v = u) then m !! e else None.
Proof.
  unfold rows_of_user. destruct (decide (v = u)) as [->|N].
  - apply (lookup_kmap (λ e, (e, u))).
  - apply lookup_kmap_None; [apply _|]. intros i [= -> ->]. done.
Qed.

#[local] Instance pair_inj : Inj (=) (=) (λ e : Z, (e, u)).
Proof. by intros i j [= ->]. Qed.

Lemma unread_after_read v e : is_unread (with_unread db (entryMarkRead db u ids).1) v e = is_unread db v e && negb (picked v e).
Proof.
  apply eq_true_iff_eq. unfold is_unread. cbn [with_unread ed_unread entryMarkRead fst]. rewrite andb_true_iff, negb_true_iff, <-not_true_iff_false, picked_true, !bool_decide_eq_true.
  split.
  - intros [x [H N]%map_lookup_filter_Some]. split; [eauto|done].
  - intros [[x H] N]. exists x. by apply map_lookup_filter_Some.
Qed.

Lemma elem_of_read e : e ∈ (entryMarkRead db u ids).2 ↔ e ∈ ids ∧ is_unread db u e = true.
Proof. cbn [entryMarkRead snd]. rewrite elem_of_filter, elem_of_list_to_set. tauto. Qed.

Lemma can_mark_spec e : can_mark e = true ↔ ∃ r, ed_entries db !! e = Some r ∧ er_removed_at r = None ∧ reads fdb u (er_feed_id r) = true ∧ user_removed db u e = false.
Proof.
  unfold can_mark. destruct (ed_entries db !! e) as [r|]; [|split; [done|by intros (? & ? & _)]].
  rewrite !andb_true_iff, negb_true_iff, bool_decide_eq_true. split; [by intros [[? ?] ?]; exists r|by intros (? & [= ->] & ? & ? & ?)].
Qed.

Lemma unread_after_unread v e : is_unread (with_unread db (entryMarkUnread fdb db u ids).1) v e = is_unread db v e || (picked v e && can_mark e).
Proof.
  apply eq_true_iff_eq. unfold is_unread at 1 2. cbn [with_unread ed_unread entryMarkUnread fst].
  rewrite orb_true_iff, andb_true_iff, picked_true, can_mark_spec, !bool_decide_eq_true, lookup_union_is_Some, rows_of_user_lookup.
  destruct (decide (v = u)) as [->|N]; [|split; [intros [[? ?]|?]; [done|by left]|intros [?|[[? _] _]]; [by right|done]]].
  rewrite lookup_fmap, fmap_is_Some. split.
  - intros [[r [L (I & R & S & U & _)]%map_lookup_filter_Some]|H]; [right|by left]. split; [done|]. by exists r.
  - intros [H|[[_ I] (r & L & R & S & U)]]; [by right|]. destruct (is_unread db u e) eqn:E; [right; by apply bool_decide_eq_true in E|].
    left. exists r. by apply map_lookup_filter_Some.
Qed.

Lemma elem_of_unread e : e ∈ (entryMarkUnread fdb db u ids).2 ↔ e ∈ ids ∧ can_mark e = true ∧ is_unread db u e = false.
Proof.
  cbn [entryMarkUnread snd]. rewrite elem_of_dom, can_mark_spec. split.
  - intros [r [L (I & R & S & U & N)]%map_lookup_filter_Some]. cbn [fst snd] in *. split; [done|]. split; [|done]. by exists r.
  - intros (I & (r & L & R & S & U) & N). exists r. by apply map_lookup_filter_Some.
Qed.

(** The new user rows of a statement on the rows of [m]. *)
Lemma user_after (m : gmap Z EntryRow) (g : Z → EntryRow → UserEntry) v e :
  (rows_of_user u (map_imap (λ e r, Some (g e r)) m) ∪ ed_user db) !! (e, v) =
  if decide (v = u) then match m !! e with Some r => Some (g e r) | None => ed_user db !! (e, v) end else ed_user db !! (e, v).
Proof.
  destruct (decide (v = u)) as [->|N].
  - destruct (m !! e) as [r|] eqn:L.
    + apply lookup_union_Some_l. rewrite rows_of_user_lookup, decide_True by done. by rewrite map_lookup_imap, L.
    + rewrite lookup_union_r; [done|]. rewrite rows_of_user_lookup, decide_True by done. by rewrite map_lookup_imap, L.
  - rewrite lookup_union_r; [done|]. by rewrite rows_of_user_lookup, decide_False.
Qed.

Lemma after_star v e : user_starred (with_user db (entryStar fdb db u ids).1) v e = user_starred db v e || (picked v e && can_mark e) ∧
  user_removed (with_user db (entryStar fdb db u ids).1) v e = user_removed db v e.
Proof.
  unfold user_starred at 1, user_removed at 1. cbn [with_user ed_user entryStar fst]. rewrite user_after.
  destruct (decide (v = u)) as [->|N]; cycle 1.
  { replace (picked v e) with false by (symmetry; apply not_true_iff_false; rewrite picked_true; by intros []). by rewrite orb_false_r. }
  destruct (_ !! e) as [r|] eqn:L.
  - apply map_lookup_filter_Some in L as [L (I & R & S & St & U)]. cbn [fst snd] in *.
    assert (can_mark e = true) as -> by (apply can_mark_spec; by exists r). rewrite (proj2 (picked_true u e)) by done. rewrite orb_true_r, U.
    unfold user_removed in U. by destruct (ed_user db !! (e, u)).
  - split; [|done]. fold (user_starred db u e). destruct (user_starred db u e) eqn:St; [done|]. symmetry. cbn [orb]. apply not_true_iff_false.
    rewrite andb_true_iff, picked_true, can_mark_spec. intros ([_ I] & r & Lr & R & S & U). rewrite map_lookup_filter_None in L.
    destruct L as [L|L]; [congruence|]. by eapply L.
Qed.

Lemma elem_of_star e : e ∈ (entryStar fdb db u ids).2 ↔ e ∈ ids ∧ can_mark e = true ∧ user_starred db u e = false.
Proof.
  cbn [entryStar snd]. rewrite elem_of_dom, can_mark_spec. split.
  - intros [r [L (I & R & S & U & N)]%map_lookup_filter_Some]. cbn [fst snd] in *. split; [done|]. split; [|done]. by exists r.
  - intros (I & (r & L & R & S & U) & N). exists r. by apply map_lookup_filter_Some.
Qed.

Lemma after_unstar v e : user_starred (with_user db (entryUnstar db u ids).1) v e = user_starred db v e && negb (picked v e && negb (user_removed db v e)) ∧
  user_removed (with_user db (entryUnstar db u ids).1) v e = user_removed db v e.
Proof.
  unfold user_starred, user_removed. cbn [with_user ed_user entryUnstar fst]. rewrite map_lookup_filter.
  destruct (ed_user db !! (e, v)) as [x|] eqn:L; [|done]. cbn [mbind option_bind fst snd].
  case_guard as G; cbn [mbind option_bind mret option_ret].
  - split; [|done]. destruct (ue_starred x) eqn:St; [|done]. cbn [andb]. symmetry. apply negb_true_iff, not_true_iff_false.
    rewrite andb_true_iff, picked_true, negb_true_iff. tauto.
  - destruct G as (-> & I & -> & ->). by rewrite (proj2 (picked_true u e)).
Qed.

Lemma elem_of_unstar e : e ∈ (entryUnstar db u ids).2 ↔ e ∈ ids ∧ user_starred db u e = true ∧ user_removed db u e = false.
Proof. cbn [entryUnstar snd]. rewrite elem_of_filter, elem_of_list_to_set. tauto. Qed.

Lemma after_remove v e : user_starred (with_user db (entryRemove fdb db u ids).1) v e = user_starred db v e ∧
  user_removed (with_user db (entryRemove fdb db u ids).1) v e =
    user_removed db v e || (picked v e && match ed_entries db !! e with Some r => reads fdb u (er_feed_id r) | None => false end).
Proof.
  unfold user_starred at 1, user_removed at 1. cbn [with_user ed_user entryRemove fst]. rewrite user_after.
  destruct (decide (v = u)) as [->|N]; cycle 1.
  { replace (picked v e) with false by (symmetry; apply not_true_iff_false; rewrite picked_true; by intros []). by rewrite orb_false_r. }
  destruct (filter _ _ !! e) as [r|] eqn:L.
  - apply map_lookup_filter_Some in L as [L (I & S & U)]. cbn [fst snd] in *. rewrite L, S, (proj2 (picked_true u e)) by done. rewrite orb_true_r.
    unfold user_starred. by destruct (ed_user db !! (e, u)).
  - split; [done|]. fold (user_removed db u e). destruct (user_removed db u e) eqn:U; [done|]. symmetry. cbn [orb]. apply not_true_iff_false.
    rewrite andb_true_iff, picked_true. intros ([_ I] & S). destruct (ed_entries db !! e) as [r|] eqn:Lr; [|done].
    rewrite map_lookup_filter_None in L. destruct L as [L|L]; [congruence|]. by eapply L.
Qed.

End Marking.

Definition status_name (b : bool) : string := if b then EntryStatusUnread else EntryStatusRead.

(** What an accepted update does to the state of every entry for every reader. *)
Record bulk_effect (s s' : FeedDb * EntryDb) (u : Z) (ids : list Z) (g star : option bool) (n : Z) : Prop := {
  be_same : s'.1 = s.1 ∧ ed_entries s'.2 = ed_entries s.2;
  be_unread : ∀ v e, is_unread s'.2 v e = match g with
    | None => is_unread s.2 v e
    | Some false => is_unread s.2 v e && negb (picked u ids v e)
    | Some true => is_unread s.2 v e || (picked u ids v e && can_mark s.1 s.2 u e)
    end;
  be_star : ∀ v e, user_starred s'.2 v e = match star with
    | None => user_starred s.2 v e
    | Some true => user_starred s.2 v e || (picked u ids v e && can_mark s.1 s.2 u e)
    | Some false => user_starred s.2 v e && negb (picked u ids v e && negb (user_removed s.2 v e))
    end;
  be_removed : ∀ v e, user_removed s'.2 v e = user_removed s.2 v e;
  be_count : ∃ ch : gset Z, n = Z.of_nat (size ch) ∧ ∀ e, e ∈ ch ↔ e ∈ ids ∧
    (is_unread s'.2 u e ≠ is_unread s.2 u e ∨ user_starred s'.2 u e ≠ user_starred s.2 u e);
}.

Lemma bulk_effect_none s u g star : bulk_effect s s u [] g star 0.
Proof.
  assert (P : ∀ v e, picked u [] v e = false) by (intros v e; apply not_true_iff_false; rewrite picked_true; by intros [_ ?%elem_of_nil]).
  split; [done| | |done|].
  - intros v e. rewrite P. destruct g as [[]|]; by rewrite ?orb_false_r, ?andb_true_r.
  - intros v e. rewrite P. destruct star as [[]|]; by rewrite ?orb_false_r, ?andb_true_r.
  - exists ∅. split; [done|]. intros e. split; [by intros ?%elem_of_empty|by intros [?%elem_of_nil _]].
Qed.

Lemma BulkUpdateEntries_spec s u ids x s' n : BulkUpdateEntries s u ids x = (s', inr n) →
  ids = [] ∧ s' = s ∧ n = 0 ∨
  (∃ g, trim_space <$> be_Status x = status_name <$> g ∧ bulk_effect s s' u ids g (be_Starred x) n).
Proof.
  unfold BulkUpdateEntries. intros E. destruct (decide (ids = [])) as [->|Ne].
  { left. by injection E as <- <-. }
  right. assert (B : be_Status x ≠ None ∨ be_Starred x ≠ None).
  { destruct ids, (be_Status x), (be_Starred x); try done; eauto. }
  assert (E2 : match match be_Status x with Some st => status_cte s.1 s.2 u ids (trim_space st) | None => Some (ed_unread s.2, ∅) end with
      | None => (s, inl (EMsg "invalid entry status"))
      | Some (unread, st) =>
          let '(user, sr) := match be_Starred x with Some b => star_cte s.1 s.2 u ids b | None => (ed_user s.2, ∅) end in
          ((s.1, with_user (with_unread s.2 unread) user), inr (Z.of_nat (size (st ∪ sr))))
      end = (s', inr n)).
  { destruct ids; [done|]. by destruct (be_Status x), (be_Starred x). }
  clear E B. set (cte := match be_Status x with Some _ => _ | None => _ end) in E2.
  assert (C : cte = None ∨ ∃ g un st, trim_space <$> be_Status x = status_name <$> g ∧ cte = Some (un, st) ∧
    (∀ v e, is_unread (with_unread s.2 un) v e = match g with
      | None => is_unread s.2 v e
      | Some false => is_unread s.2 v e && negb (picked u ids v e)
      | Some true => is_unread s.2 v e || (picked u ids v e && can_mark s.1 s.2 u e)
      end) ∧ ∀ e, e ∈ (st : gset Z) ↔ e ∈ ids ∧ is_unread (with_unread s.2 un) u e ≠ is_unread s.2 u e).
  { unfold cte. destruct (be_Status x) as [t|]; cycle 1.
    { right. exists None, (ed_unread s.2), ∅. do 3 (split; [done|]). intros e. split; [by intros ?%elem_of_empty|by intros [_ []]]. }
    unfold status_cte. destruct (String.eqb_spec (trim_space t) EntryStatusRead) as [Et|].
    - right. exists (Some false), (entryMarkRead s.2 u ids).1, (entryMarkRead s.2 u ids).2. cbn [fmap option_fmap option_map]. rewrite Et.
      do 2 (split; [done|]). pose proof (unread_after_read s.2 u ids) as L. split; [exact L|]. intros e. rewrite elem_of_read, L.
      split; (intros [I H]; split; [done|]); destruct (is_unread s.2 u e); rewrite ?(proj2 (picked_true u ids u e)) in * by done; done.
    - destruct (String.eqb_spec (trim_space t) EntryStatusUnread) as [Et|]; [|by left].
      right. exists (Some true), (entryMarkUnread s.1 s.2 u ids).1, (entryMarkUnread s.1 s.2 u ids).2. cbn [fmap option_fmap option_map]. rewrite Et.
      do 2 (split; [done|]). pose proof (unread_after_unread s.1 s.2 u ids) as L. split; [exact L|]. intros e. rewrite elem_of_unread, L.
      split; [intros (I & H & K)|intros [I H]]; destruct (is_unread s.2 u e), (can_mark s.1 s.2 u e); rewrite ?(proj2 (picked_true u ids u e)) in * by done; done. }
  destruct C as [C|(g & un & st & G & C & U & Ust)]; [by rewrite C in E2|]. rewrite C in E2. clear cte C.
  assert (D : ∃ us sr, match be_Starred x with Some b => star_cte s.1 s.2 u ids b | None => (ed_user s.2, ∅) end = (us, sr) ∧
    (∀ v e, user_starred (with_user s.2 us) v e = match be_Starred x with
      | None => user_starred s.2 v e
      | Some true => user_starred s.2 v e || (picked u ids v e && can_mark s.1 s.2 u e)
      | Some false => user_starred s.2 v e && negb (picked u ids v e && negb (user_removed s.2 v e))
      end) ∧ (∀ v e, user_removed (with_user s.2 us) v e = user_removed s.2 v e) ∧
      ∀ e, e ∈ (sr : gset Z) ↔ e ∈ ids ∧ user_starred (with_user s.2 us) u e ≠ user_starred s.2 u e).
  { destruct (be_Starred x) as [[]|]; cbn [star_cte].
    - exists (entryStar s.1 s.2 u ids).1, (entryStar s.1 s.2 u ids).2. split; [by destruct (entryStar _ _ _ _)|].
      pose proof (after_star s.1 s.2 u ids) as L. split; [intros v e; apply L|]. split; [intros v e; apply L|]. intros e. rewrite elem_of_star, (proj1 (L u e)).
      split; [intros (I & H & K)|intros [I H]]; destruct (user_starred s.2 u e), (can_mark s.1 s.2 u e); rewrite ?(proj2 (picked_true u ids u e)) in * by done; done.
    - exists (entryUnstar s.2 u ids).1, (entryUnstar s.2 u ids).2. split; [by destruct (entryUnstar _ _ _)|].
      pose proof (after_unstar s.2 u ids) as L. split; [intros v e; apply L|]. split; [intros v e; apply L|]. intros e. rewrite elem_of_unstar, (proj1 (L u e)).
      split; [intros (I & H & K)|intros [I H]]; destruct (user_starred s.2 u e), (user_removed s.2 u e); rewrite ?(proj2 (picked_true u ids u e)) in * by done; done.
    - exists (ed_user s.2), ∅. do 3 (split; [done|]). intros e. split; [by intros ?%elem_of_empty|by intros [_ []]]. }
  destruct D as (us & sr & D & S1 & S2 & S3). rewrite D in E2. injection E2 as <- <-. exists g. split; [done|]. split.
  - done.
  - exact U.
  - exact S1.
  - exact S2.
  - exists (st ∪ sr). split; [done|]. intros e. rewrite elem_of_union, Ust, S3. cbn [snd]. tauto.
Qed.

Lemma entry_status_ext db db' u v e r : is_unread db' v e = is_unread db u e → user_removed db' v e = user_removed db u e →
  entry_status db' v e r = entry_status db u e r.
Proof. unfold entry_status. by intros -> ->. Qed.

Lemma GetEntry_ext s s' v e : s'.1 = s.1 → ed_entries s'.2 = ed_entries s.2 → is_unread s'.2 v e = is_unread s.2 v e →
  user_starred s'.2 v e = user_starred s.2 v e → user_removed s'.2 v e = user_removed s.2 v e → GetEntry s' v e = GetEntry s v e.
Proof.
  intros E1 E2 U S R. unfold GetEntry. rewrite E1, E2. destruct (ed_entries s.2 !! e) as [r|]; [|done]. destruct (reads _ _ _); [|done].
  unfold entry_view. by rewrite (entry_status_ext s.2 s'.2 v v e r U R), S.
Qed.

Lemma GetEntry_Some s u e v : GetEntry s u e = inr v ↔ ∃ r, ed_entries s.2 !! e = Some r ∧ reads s.1 u (er_feed_id r) = true ∧ v = entry_view s.2 u e r.
Proof.
  unfold GetEntry. destruct (ed_entries s.2 !! e) as [r|]; [|split; [done|by intros (? & ? & _)]].
  destruct (reads _ _ _) eqn:S; split.
  - intros [= <-]. by exists r.
  - by intros (? & [= <-] & _ & ->).
  - done.
  - intros (? & [= <-] & H & _). congruence.
Qed.

(** What a change of an update touches is an entry the reader can open. *)
Lemma bulk_effect_visible hdb s s' u ids g star n e : tables_wf hdb s → bulk_effect s s' u ids g star n →
  is_unread s'.2 u e ≠ is_unread s.2 u e ∨ user_starred s'.2 u e ≠ user_starred s.2 u e →
  ∃ r, ed_entries s.2 !! e = Some r ∧ reads s.1 u (er_feed_id r) = true.
Proof.
  intros W [_ U S _ _] H. assert (C : can_mark s.1 s.2 u e = true ∨ is_unread s.2 u e = true ∨ user_starred s.2 u e = true).
  { rewrite U, S in H. destruct (can_mark s.1 s.2 u e), (is_unread s.2 u e), (user_starred s.2 u e); eauto.
    destruct H as [H|H]; destruct g as [[]|], star as [[]|]; cbn in H; rewrite ?andb_false_r in H; done. }
  destruct C as [(r & L & _ & Su & _)%can_mark_spec|[[[f t] H1]%bool_decide_eq_true|H1]]; [by exists r| |].
  - destruct (unread_row _ _ _ W _ _ _ H1) as (r & L & <- & _ & _ & Su & _). by exists r.
  - unfold user_starred in H1. destruct (ed_user s.2 !! (e, u)) as [y|] eqn:Y; [|done]. destruct (tw_user _ _ W _ _ _ Y) as (r & L & _ & Su).
    exists r. split; [done|]. by apply bool_decide_eq_true_2.
Qed.

Lemma live_status db u e r : er_removed_at r = None → user_removed db u e = false → entry_status db u e r = status_name (is_unread db u e).
Proof. intros A B. unfold entry_status. rewrite A, B. by destruct (is_unread db u e). Qed.

Lemma bulk_accepted s1 s2 u ids x n : (BulkUpdateEntries s1 u ids x).2 = inr n → ∃ m, (BulkUpdateEntries s2 u ids x).2 = inr m.
Proof.
  assert (A : ∀ s, (∃ m, (BulkUpdateEntries s u ids x).2 = inr m) ↔ ids = [] ∨ (be_Status x ≠ None ∨ be_Starred x ≠ None) ∧
    ∀ t, be_Status x = Some t → trim_space t = EntryStatusRead ∨ trim_space t = EntryStatusUnread).
  { intros s. unfold BulkUpdateEntries. destruct ids as [|i l]; [split; [by left|by eexists]|].
    destruct (be_Status x) as [t|] eqn:Ht.
    - unfold status_cte. destruct (String.eqb_spec (trim_space t) EntryStatusRead) as [Q|Q].
      { split; [intros _; right; split; [by left|]; intros t' [= <-]; by left|]. intros _. destruct (be_Starred x); [destruct (star_cte _ _ _ _ _)|]; by eexists. }
      destruct (String.eqb_spec (trim_space t) EntryStatusUnread) as [Q2|Q2].
      { split; [intros _; right; split; [by left|]; intros t' [= <-]; by right|]. intros _. destruct (be_Starred x); [destruct (star_cte _ _ _ _ _)|]; by eexists. }
      split; [by intros [m ?]|]. intros [?|[_ H]]; [done|]. by destruct (H t eq_refl).
    - destruct (be_Starred x) as [b|].
      + split; [intros _; right; split; [by right|done]|]. intros _. destruct (star_cte _ _ _ _ _). by eexists.
      + split; [by intros [m ?]|]. intros [?|[[?|?] _]]; done. }
  intros H. apply A. apply (A s1). by exists n.
Qed.

(** The second time nothing is left to change. *)
Lemma bulk_effect_again s s' s2 u ids g star n m : bulk_effect s s' u ids g star n → bulk_effect s' s2 u ids g star m → m = 0.
Proof.
  intros [[A1 A2] U S R _] [_ U2 S2 _ (ch & -> & Ch)]. replace ch with (∅ : gset Z); [done|]. symmetry. apply set_eq. intros e.
  split; [|by intros ?%elem_of_empty]. intros [I D]%Ch. exfalso.
  assert (C : can_mark s'.1 s'.2 u e = can_mark s.1 s.2 u e) by (unfold can_mark; by rewrite A1, A2, R).
  rewrite U2, S2, U, S, C, !R, (proj2 (picked_true u ids u e)) in D by done.
  destruct D as [D|D]; apply D; [destruct g as [[]|]|destruct star as [[]|]]; try done;
    by destruct (is_unread s.2 u e), (user_starred s.2 u e), (can_mark s.1 s.2 u e), (user_removed s.2 u e).
Qed.

Lemma status_name_inj (g h : option bool) : status_name <$> g = status_name <$> h → g = h.
Proof. by destruct g as [[]|], h as [[]|]. Qed.

Lemma bulk_twice s s' u ids x n : BulkUpdateEntries s u ids x = (s', inr n) → (BulkUpdateEntries s' u ids x).2 = inr 0.
Proof.
  intros E. destruct (bulk_accepted s s' u ids x n) as [m M]; [by rewrite E|]. destruct (BulkUpdateEntries s' u ids x) as [s2 r] eqn:E2. cbn [snd] in *. subst r.
  f_equal. destruct (BulkUpdateEntries_spec _ _ _ _ _ _ E2) as [(_ & _ & ->)|(g2 & G2 & B2)]; [done|].
  destruct (BulkUpdateEntries_spec _ _ _ _ _ _ E) as [(-> & -> & ->)|(g & G & B)].
  - unfold BulkUpdateEntries in E2. by injection E2.
  - assert (g2 = g) as -> by (apply status_name_inj; congruence). by eapply bulk_effect_again.
Qed.

(** C20: marking does what it says, and no more.  An accepted bulk update gives every entry of
    the request that the reader can open and that is not removed the asked status and
    star, leaves removed ones removed, changes nothing for other entries or other readers, and
    answers with the number of entries of the request that look different afterwards; so the
    same update again answers 0. *)
Theorem bulk_update_effect (hdb : HookDb) (s s' : FeedDb * EntryDb) (u : Z) (ids : list Z) (x : BulkEntryUpdate) (n : Z)
  (W : tables_wf hdb s) (E : BulkUpdateEntries s u ids x = (s', inr n)) :
  (BulkUpdateEntries s' u ids x).2 = inr 0 ∧ s'.1 = s.1 ∧ ed_entries s'.2 = ed_entries s.2 ∧
  (∀ v e, v ≠ u ∨ e ∉ ids → GetEntry s' v e = GetEntry s v e) ∧
  (∀ e v, e ∈ ids → GetEntry s u e = inr v → ev_status v ≠ EntryStatusRemoved →
     GetEntry s' u e = inr (mkEntryView (ev_row v) (default (ev_status v) (trim_space <$> be_Status x)) (default (ev_starred v) (be_Starred x)))) ∧
  (∀ e v, e ∈ ids → GetEntry s u e = inr v → ev_status v = EntryStatusRemoved →
     ∃ v', GetEntry s' u e = inr v' ∧ ev_row v' = ev_row v ∧ ev_status v' = EntryStatusRemoved) ∧
  (∃ changed : gset Z, n = Z.of_nat (size changed) ∧ ∀ e, e ∈ changed ↔ e ∈ ids ∧ GetEntry s' u e ≠ GetEntry s u e).
Proof.
  split; [by eapply bulk_twice|].
  destruct (BulkUpdateEntries_spec _ _ _ _ _ _ E) as [(-> & -> & ->)|(g & G & [[E1 E2] U S R (ch & N & Ch)])].
  { do 3 (split; [done|]). split; [by intros e v ?%elem_of_nil|]. split; [by intros e v ?%elem_of_nil|]. exists ∅. split; [done|].
    intros e. split; [by intros ?%elem_of_empty|by intros [?%elem_of_nil _]]. }
  assert (Out : ∀ v e, v ≠ u ∨ e ∉ ids → GetEntry s' v e = GetEntry s v e).
  { intros v e H. assert (P : picked u ids v e = false) by (apply not_true_iff_false; rewrite picked_true; tauto).
    apply GetEntry_ext; [done|done| | |by apply R].
    - rewrite U, P. destruct g as [[]|]; by rewrite ?orb_false_r, ?andb_true_r.
    - rewrite S, P. destruct (be_Starred x) as [[]|]; by rewrite ?orb_false_r, ?andb_true_r. }
  split; [exact E1|]. split; [exact E2|]. split; [exact Out|].
  assert (In : ∀ e r, e ∈ ids → ed_entries s.2 !! e = Some r → reads s.1 u (er_feed_id r) = true → GetEntry s' u e = inr (entry_view s'.2 u e r)).
  { intros e r I L Su. apply GetEntry_Some. exists r. by rewrite E1, E2. }
  assert (P : ∀ e, e ∈ ids → picked u ids u e = true) by (intros e I; by apply picked_true).
  split; [|split].
  - intros e v I (r & L & Su & ->)%GetEntry_Some Nr. cbn [entry_view ev_status ev_row ev_starred] in *.
    assert (A : er_removed_at r = None ∧ user_removed s.2 u e = false).
    { rewrite (status_removed hdb) in Nr by done. destruct (er_removed_at r), (user_removed s.2 u e); naive_solver. }
    destruct A as [A1 A2]. assert (C : can_mark s.1 s.2 u e = true) by (apply can_mark_spec; by exists r).
    rewrite (In e r I L Su). unfold entry_view. rewrite !live_status by (try done; by rewrite R). rewrite U, S, G, (P e I), C, A2. f_equal. f_equal.
    + destruct g as [[]|]; cbn; by rewrite ?orb_true_r, ?andb_false_r.
    + destruct (be_Starred x) as [[]|]; cbn; by rewrite ?orb_true_r, ?andb_false_r.
  - intros e v I (r & L & Su & ->)%GetEntry_Some Hr. cbn [entry_view ev_status ev_row] in *. exists (entry_view s'.2 u e r).
    split; [by apply In|]. split; [done|]. cbn [entry_view ev_status].
    assert (Nu : is_unread s.2 u e = false) by (destruct (is_unread s.2 u e) eqn:Q; [apply (status_unread s u e r) in Q; rewrite Q in Hr; discriminate Hr|done]).
    assert (C : can_mark s.1 s.2 u e = false).
    { apply not_true_iff_false. intros (r' & L' & A1 & _ & A2)%can_mark_spec. assert (r' = r) as -> by congruence.
      rewrite live_status, Nu in Hr by done. done. }
    rewrite <-Hr. apply entry_status_ext; [|by apply R]. rewrite U, Nu, C. destruct g as [[]|]; by rewrite ?andb_false_r.
  - exists ch. split; [done|]. intros e. rewrite Ch. split; intros [I D]; (split; [done|]).
    + destruct (bulk_effect_visible hdb s s' u ids g (be_Starred x) n e W) as (r & L & Su); [split; eauto|done|]. rewrite (In e r I L Su).
      rewrite (proj2 (GetEntry_Some s u e (entry_view s.2 u e r))) by (by exists r). intros [= H1 H2]. destruct D as [D|D]; [|done].
      apply D, eq_true_iff_eq. rewrite <-!(status_unread _ u e r). by rewrite H1.
    + destruct (decide (is_unread s'.2 u e = is_unread s.2 u e)) as [Q1|]; [|by left].
      destruct (decide (user_starred s'.2 u e = user_starred s.2 u e)) as [Q2|]; [|by right]. destruct D. by apply GetEntry_ext.
Qed.

(** * Consistency *)

(** New unread marks are of live entries of the reader's feeds; new user rows of entries of the reader's feeds. *)
Definition marks_ok (s : FeedDb * EntryDb) (db : EntryDb) : Prop :=
  ed_entries db = ed_entries s.2 ∧ ed_next_id db = ed_next_id s.2 ∧
  (∀ e v f t, ed_unread db !! (e, v) = Some (f, t) → ed_unread s.2 !! (e, v) = Some (f, t) ∨
     ∃ r, ed_entries s.2 !! e = Some r ∧ f = er_feed_id r ∧ t = er_sort_at r ∧ er_removed_at r = None ∧ reads s.1 v f = true) ∧
  (∀ e v x, ed_user db !! (e, v) = Some x → (∃ y, ed_user s.2 !! (e, v) = Some y ∧ ue_sort_at x = ue_sort_at y) ∨
     ∃ r, ed_entries s.2 !! e = Some r ∧ ue_sort_at x = er_sort_at r ∧ reads s.1 v (er_feed_id r) = true) ∧
  (∀ v e, is_unread db v e = true → user_removed db v e = false).

Lemma tables_wf_marks hdb s db : tables_wf hdb s → marks_ok s db → tables_wf hdb (s.1, db).
Proof.
  intros W (E1 & E2 & U & X & R). split; cbn [fst snd]; rewrite ?E1, ?E2; try apply W.
  - intros e v f t H. assert (N : ∀ x, ed_user db !! (e, v) = Some x → ue_removed x = false).
    { intros x Hx. assert (K : is_unread db v e = true) by (apply bool_decide_eq_true_2; eauto). apply R in K. unfold user_removed in K. by rewrite Hx in K. }
    destruct (U _ _ _ _ H) as [H1|(r & L & -> & -> & Rm & S)].
    + destruct (tw_unread _ _ W _ _ _ _ H1) as (A & B & _). done.
    + split; [by apply bool_decide_eq_true in S|]. split; [by exists r|done].
  - intros e v x H. destruct (X _ _ _ H) as [(y & Hy & So)|(r & L & So & S)].
    + destruct (tw_user _ _ W _ _ _ Hy) as (r & L & So' & S). exists r. split; [done|]. split; [congruence|done].
    + exists r. split; [done|]. split; [done|]. by apply bool_decide_eq_true in S.
Qed.

Lemma unread_not_removed hdb s : tables_wf hdb s → ∀ v e, is_unread s.2 v e = true → user_removed s.2 v e = false.
Proof.
  intros W v e [[f t] H]%bool_decide_eq_true. destruct (tw_unread _ _ W _ _ _ _ H) as (_ & _ & N). unfold user_removed.
  destruct (ed_user s.2 !! (e, v)) eqn:E; [by apply N|done].
Qed.

Lemma marks_refl hdb s : tables_wf hdb s → marks_ok s s.2.
Proof. intros W. do 2 (split; [done|]). split; [by left|]. split; [left; eauto|]. by apply (unread_not_removed hdb). Qed.

(** Dropping unread marks. *)
Lemma marks_drop hdb s (p : (Z * Z) * (Z * Z) → Prop) `{∀ x, Decision (p x)} : tables_wf hdb s → marks_ok s (with_unread s.2 (filter p (ed_unread s.2))).
Proof.
  intros W. do 2 (split; [done|]). split; [|split].
  - intros e v f t [K _]%map_lookup_filter_Some. by left.
  - left. eauto.
  - intros v e [x [K _]%map_lookup_filter_Some]%bool_decide_eq_true. apply (unread_not_removed hdb s W). apply bool_decide_eq_true_2. eauto.
Qed.

Lemma entryMarkUnread_rows fdb db u ids e v f t : (entryMarkUnread fdb db u ids).1 !! (e, v) = Some (f, t) → ed_unread db !! (e, v) = Some (f, t) ∨
  ∃ r, ed_entries db !! e = Some r ∧ f = er_feed_id r ∧ t = er_sort_at r ∧ er_removed_at r = None ∧ reads fdb v f = true.
Proof.
  cbn [entryMarkUnread fst]. intros [H|[_ H]]%lookup_union_Some_raw; [|by left]. right. rewrite rows_of_user_lookup in H.
  destruct (decide (v = u)) as [->|]; [|done]. rewrite lookup_fmap in H. apply fmap_Some in H as (r & [L (I & R & S & _)]%map_lookup_filter_Some & [= -> ->]).
  by exists r.
Qed.

(** Rewriting user rows keeps their keys; new ones take the entry's. *)
Lemma rewritten_rows fdb db u (m : gmap Z EntryRow) (new : EntryRow → UserEntry) (old : UserEntry → UserEntry) e v x :
  (∀ k r, m !! k = Some r → ed_entries db !! k = Some r ∧ reads fdb u (er_feed_id r) = true) →
  (∀ r, ue_sort_at (new r) = er_sort_at r) → (∀ y, ue_sort_at (old y) = ue_sort_at y) →
  (rows_of_user u (map_imap (λ e r, Some match ed_user db !! (e, u) with None => new r | Some y => old y end) m) ∪ ed_user db) !! (e, v) = Some x →
  (∃ y, ed_user db !! (e, v) = Some y ∧ ue_sort_at x = ue_sort_at y) ∨
  ∃ r, ed_entries db !! e = Some r ∧ ue_sort_at x = er_sort_at r ∧ reads fdb v (er_feed_id r) = true.
Proof.
  intros M N O. rewrite (user_after db u m (λ e r, match ed_user db !! (e, u) with None => new r | Some y => old y end)).
  destruct (decide (v = u)) as [->|]; [|left; eauto]. destruct (m !! e) as [r|] eqn:L; [|left; eauto]. apply M in L as [L S].
  destruct (ed_user db !! (e, u)) as [y|] eqn:Y; intros [= <-]; [left; exists y; by rewrite O|right; exists r; by rewrite N].
Qed.

Lemma star_rows fdb db u ids b e v x : (star_cte fdb db u ids b).1 !! (e, v) = Some x →
  (∃ y, ed_user db !! (e, v) = Some y ∧ ue_sort_at x = ue_sort_at y) ∨
  ∃ r, ed_entries db !! e = Some r ∧ ue_sort_at x = er_sort_at r ∧ reads fdb v (er_feed_id r) = true.
Proof.
  destruct b; cbn [star_cte].
  - apply (rewritten_rows fdb db u _ (λ r, mkUserEntry false true (er_sort_at r)) (λ y, mkUserEntry (ue_removed y) true (ue_sort_at y))); [|done..].
    intros k r [L (_ & _ & S & _)]%map_lookup_filter_Some. done.
  - intros [H _]%map_lookup_filter_Some. left. eauto.
Qed.

Lemma marks_bulk hdb s u ids x s' n : tables_wf hdb s → BulkUpdateEntries s u ids x = (s', inr n) → s'.1 = s.1 ∧ marks_ok s s'.2.
Proof.
  intros W E. pose proof (BulkUpdateEntries_spec _ _ _ _ _ _ E) as B. unfold BulkUpdateEntries in E.
  destruct B as [(-> & -> & _)|(g & _ & [[E1 E2] U S R _])]; [split; [done|by apply (marks_refl hdb)]|]. split; [done|].
  assert (Nr : ∀ v e, is_unread s'.2 v e = true → user_removed s'.2 v e = false).
  { intros v e. rewrite U, R. intros H. pose proof (unread_not_removed hdb s W v e) as K.
    destruct g as [[]|]; [|by apply andb_true_iff in H as [H _]; auto|by auto].
    apply orb_true_iff in H as [H|[[-> _]%picked_true (r & _ & _ & _ & H)%can_mark_spec]%andb_true_iff]; auto. }
  assert (Un : ∀ st un d, status_cte s.1 s.2 u ids st = Some (un, d) → ∀ e v f t, un !! (e, v) = Some (f, t) → ed_unread s.2 !! (e, v) = Some (f, t) ∨
     ∃ r, ed_entries s.2 !! e = Some r ∧ f = er_feed_id r ∧ t = er_sort_at r ∧ er_removed_at r = None ∧ reads s.1 v f = true).
  { intros st un d. unfold status_cte. destruct (String.eqb _ _); [intros [= <- _] e v f t [H _]%map_lookup_filter_Some; by left|].
    destruct (String.eqb _ _); [|done]. intros [= <- _] e v f t H. exact (entryMarkUnread_rows s.1 s.2 u ids e v f t H). }
  assert (Case : ∃ un us, s'.2 = with_user (with_unread s.2 un) us ∧
    (un = ed_unread s.2 ∨ ∃ st d, status_cte s.1 s.2 u ids st = Some (un, d)) ∧ (us = ed_user s.2 ∨ ∃ b, us = (star_cte s.1 s.2 u ids b).1)).
  { destruct ids as [|i l]; [injection E as <- _; exists (ed_unread s.2), (ed_user s.2); split; [by destruct s as [? []]|by split; left]|].
    destruct (be_Status x) as [t|] eqn:Ht, (be_Starred x) as [b|] eqn:Hb; [| | |done].
    - destruct (status_cte s.1 s.2 u (i :: l) (trim_space t)) as [[un d]|] eqn:C; [|done]. destruct (star_cte s.1 s.2 u (i :: l) b) as [us d2] eqn:D.
      injection E as <- _. exists un, us. split; [done|]. split; right; [eauto|]. exists b. by rewrite D.
    - destruct (status_cte s.1 s.2 u (i :: l) (trim_space t)) as [[un d]|] eqn:C; [|done].
      injection E as <- _. exists un, (ed_user s.2). split; [done|]. split; [right; eauto|by left].
    - destruct (star_cte s.1 s.2 u (i :: l) b) as [us d2] eqn:D. injection E as <- _. exists (ed_unread s.2), us. split; [done|]. split; [by left|].
      right. exists b. by rewrite D. }
  destruct Case as (un & us & Es & Cu & Cs). split; [done|]. split; [by rewrite Es|]. rewrite Es in *. cbn [with_user with_unread ed_unread ed_user].
  split; [|split; [|exact Nr]].
  - intros e v f t H. destruct Cu as [->|(st & d & C)]; [by left|by eapply Un].
  - intros e v y H. destruct Cs as [->|[b ->]]; [left; eauto|by eapply star_rows].
Qed.

Lemma MarkEntriesRemoved_ok hdb s u ids : tables_wf hdb s → (MarkEntriesRemoved s u ids).1.1 = s.1 ∧ marks_ok s (MarkEntriesRemoved s u ids).1.2.
Proof.
  intros W. unfold MarkEntriesRemoved. destruct ids as [|i l]; [split; [done|by apply (marks_refl hdb)]|]. set (ids := i :: l).
  destruct (entryRemove s.1 s.2 u ids) as [us rm] eqn:E. cbn [fst snd]. assert (us = (entryRemove s.1 s.2 u ids).1) as -> by by rewrite E.
  split; [done|]. do 2 (split; [done|]). cbn [with_user with_unread ed_unread ed_user]. split; [|split].
  - intros e v f t [H _]%map_lookup_filter_Some. by left.
  - intros e v x. apply (rewritten_rows s.1 s.2 u _ (λ r, mkUserEntry true false (er_sort_at r)) (λ y, mkUserEntry true (ue_starred y) (ue_sort_at y))); [|done..].
    intros k r [L (_ & S & _)]%map_lookup_filter_Some. done.
  - intros v e H. change (is_unread (with_unread s.2 (entryMarkRead s.2 u ids).1) v e = true) in H. rewrite unread_after_read in H.
    apply andb_true_iff in H as [H Np]. apply negb_true_iff in Np.
    change (user_removed (with_user s.2 (entryRemove s.1 s.2 u ids).1) v e = false). rewrite (proj2 (after_remove s.1 s.2 u ids v e)), Np, orb_false_r.
    by apply (unread_not_removed hdb s W).
Qed.

Lemma wf_step hdb s s' : tables_wf hdb s → s'.1 = s.1 → marks_ok s s'.2 → tables_wf hdb s'.
Proof. intros W E M. destruct s' as [f d]. cbn [fst] in E. subst f. by apply (tables_wf_marks hdb s). Qed.

(** One status statement, or one star statement. *)
Lemma wf_BulkUpdate hdb s u ids x : tables_wf hdb s → tables_wf hdb (BulkUpdateEntries s u ids x).1 ∧ (BulkUpdateEntries s u ids x).1.1 = s.1.
Proof.
  intros W. destruct (BulkUpdateEntries s u ids x) as [s' [e|n]] eqn:E; cbn [fst].
  - assert (s' = s) as ->; [|done]. revert E. unfold BulkUpdateEntries. destruct ids; [done|]. destruct (be_Status x) as [t|], (be_Starred x) as [b|].
    + destruct (status_cte _ _ _ _ _) as [[? ?]|]; [destruct (star_cte _ _ _ _ _)|]; by intros [= <-].
    + destruct (status_cte _ _ _ _ _) as [[? ?]|]; by intros [= <-].
    + by destruct (star_cte _ _ _ _ _).
    + by intros [= <-].
  - destruct (marks_bulk hdb s u ids x s' n W E) as [E1 M]. split; [by eapply wf_step|done].
Qed.

Lemma UpdateEntry_steps s u feedID id x :
  (UpdateEntry s u feedID id x).1 = s ∨
  ∃ s1, (s1 = s ∨ s1 = (MarkEntriesRemoved s u [id]).1 ∨ ∃ st, s1 = (BulkUpdateEntries s u [id] (mkBulkEntry (Some st) None)).1) ∧
    ((UpdateEntry s u feedID id x).1 = s1 ∨ ∃ b, (UpdateEntry s u feedID id x).1 = (BulkUpdateEntries s1 u [id] (mkBulkEntry None (Some b))).1).
Proof.
  unfold UpdateEntry. destruct (be_Status x) as [t|] eqn:Ht, (be_Starred x) as [b|] eqn:Hb; [| | |by left];
    (destruct (_ && _); [by left|]); (destruct (GetFeedEntry _ _ _ _) as [e|v]; [by left|]); right; cbn [default].
  - set (s1 := if String.eqb _ EntryStatusRemoved then _ else _). exists s1. split.
    + unfold s1. destruct (String.eqb _ EntryStatusRemoved); [by right; left|]. right; right. exists t. unfold BulkUpdateEntries. cbn [be_Status be_Starred].
      destruct (status_cte _ _ _ _ _) as [[un d]|]; [|done]. by destruct s as [? []].
    + right. exists b. unfold BulkUpdateEntries. cbn [be_Status be_Starred fst]. destruct (star_cte _ _ _ _ _). by destruct s1 as [? []].
  - set (s1 := if String.eqb _ EntryStatusRemoved then _ else _). exists s1. split; [|by left].
    unfold s1. destruct (String.eqb _ EntryStatusRemoved); [by right; left|]. right; right. exists t. unfold BulkUpdateEntries. cbn [be_Status be_Starred].
    destruct (status_cte _ _ _ _ _) as [[un d]|]; [|done]. by destruct s as [? []].
  - exists s. split; [by left|]. right. exists b. change (trim_space "") with ""%string. unfold BulkUpdateEntries. cbn [be_Status be_Starred fst String.eqb EntryStatusRemoved].
    change (status_cte s.1 s.2 u [id] "") with (@None (gmap (Z * Z) (Z * Z) * gset Z)). destruct (star_cte _ _ _ _ _). by destruct s as [? []].
Qed.

Lemma wf_UpdateEntry hdb s u feedID id x : tables_wf hdb s → tables_wf hdb (UpdateEntry s u feedID id x).1 ∧ (UpdateEntry s u feedID id x).1.1 = s.1.
Proof.
  intros W. destruct (UpdateEntry_steps s u feedID id x) as [->|(s1 & S1 & S2)]; [done|].
  assert (W1 : tables_wf hdb s1 ∧ s1.1 = s.1).
  { destruct S1 as [->|[->|[st ->]]]; [done| |by apply wf_BulkUpdate]. destruct (MarkEntriesRemoved_ok hdb s u [id] W) as [E M].
    split; [by eapply wf_step|done]. }
  destruct W1 as [W1 E1]. destruct S2 as [->|[b ->]]; [done|]. destruct (wf_BulkUpdate hdb s1 u [id] (mkBulkEntry None (Some b)) W1) as [W2 E2].
  split; [done|congruence].
Qed.

Lemma wf_drop_unread hdb s u p : tables_wf hdb s → tables_wf hdb (s.1, (drop_unread s.2 u p).1).
Proof. intros W. apply tables_wf_marks; [exact W|]. by apply (marks_drop hdb). Qed.

Lemma wf_UpdateEntryContent hdb s u id c o b : tables_wf hdb s →
  tables_wf hdb (UpdateEntryContent s u id c o b).1 ∧ (UpdateEntryContent s u id c o b).1.1 = s.1.
Proof.
  intros W. unfold UpdateEntryContent. destruct (ed_entries s.2 !! id) as [r|] eqn:L; [|done]. destruct (reads _ _ _); [|done].
  split; [|done]. set (r' := mkEntryRow _ _ _ _ _ _ _ _ _ _ _ _ _).
  assert (K : ∀ e x, <[id := r']> (ed_entries s.2) !! e = Some x → ∃ y, ed_entries s.2 !! e = Some y ∧ er_id x = er_id y ∧
    er_feed_id x = er_feed_id y ∧ er_hash x = er_hash y ∧ er_sort_at x = er_sort_at y ∧ er_removed_at x = er_removed_at y).
  { intros e x [[<- <-]|[_ H]]%lookup_insert_Some; [by exists r|by exists x]. }
  assert (B : ∀ e y, ed_entries s.2 !! e = Some y → ∃ x, <[id := r']> (ed_entries s.2) !! e = Some x ∧ er_feed_id x = er_feed_id y ∧
    er_sort_at x = er_sort_at y ∧ er_removed_at x = er_removed_at y).
  { intros e y H. destruct (decide (id = e)) as [<-|N]; [exists r'; rewrite lookup_insert_eq; by assert (y = r) as -> by congruence|].
    exists y. by rewrite lookup_insert_ne. }
  split; cbn [fst snd with_entries ed_entries ed_unread ed_user ed_next_id]; try apply W.
  - intros e x (y & H & E1 & E2 & _)%K. rewrite E1, E2. by apply (tw_entry _ _ W).
  - intros e v f t H. destruct ((tw_unread _ _ W) _ _ _ _ H) as (A & (y & Ly & E1 & E2 & E3) & N). split; [done|]. split; [|done].
    destruct (B e y Ly) as (x & Lx & F1 & F2 & F3). exists x. repeat split; congruence.
  - intros e v x H. destruct ((tw_user _ _ W) _ _ _ H) as (y & Ly & So & S). destruct (B e y Ly) as (z & Lz & F1 & F2 & _). exists z.
    split; [done|]. split; [congruence|]. by rewrite F1.
  - intros e x (y & H & _)%K. by eapply (tw_next _ _ W).
  - intros i j a b0 (a' & Ha & _ & F1 & F2 & _)%K (b' & Hb & _ & G1 & G2 & _)%K. rewrite F1, F2, G1, G2. by apply (tw_uniq _ _ W).
  - intros e x (y & H & _ & _ & E & _)%K. rewrite E. by eapply (tw_hash _ _ W).
Qed.

(** Everything that happens to the catalogue, the entries and their readers between two deliveries. *)
Inductive lib_op :=
| LCatalog (op : cat_op)
| LPoll (now feedID : Z) (items : list BEntry) (relay : bool)
| LBulk (userID : Z) (ids : list Z) (x : BulkEntryUpdate)
| LRemove (userID : Z) (ids : list Z)
| LEdit (userID feedID id : Z) (x : BulkEntryUpdate)
| LContent (userID id : Z) (content original : string) (fetched : bool)
| LFeedRead (userID feedID : Z)
| LCategoryRead (userID cat : Z)
| LLabelRead (labels : FilterDb) (userID label : Z)
| LAllRead (userID : Z)
| LHours (now cat : Z) (hours : string)
| LReschedule (id t : Z)
| LRefreshAll (now : Z) (jitter : Z → Z → Z).

Section Library.
Context (title_key dedup_key : string → string).

Definition run_lib_op (c : Catalog) (op : lib_op) : Catalog :=
  let entries db := with_tables c (ct_feeds c, db) in
  match op with
  | LCatalog op => run_cat_op title_key op c
  | LPoll now f items relay => entries (createEntries dedup_key now (ct_feeds c) (ct_entries c) f items relay).1
  | LBulk u ids x => with_tables c (BulkUpdateEntries (tables c) u ids x).1
  | LRemove u ids => with_tables c (MarkEntriesRemoved (tables c) u ids).1
  | LEdit u f id x => with_tables c (UpdateEntry (tables c) u f id x).1
  | LContent u id b o fetched => with_tables c (UpdateEntryContent (tables c) u id b o fetched).1
  | LFeedRead u f => entries (MarkAllFeedEntriesRead c u f).1
  | LCategoryRead u k => entries (MarkAllCategoryEntriesRead c u k).1
  | LLabelRead labels u l => entries (MarkAllLabelEntriesRead labels (ct_entries c) u l).1
  | LAllRead u => entries (MarkAllEntriesRead (ct_entries c) u).1
  | LHours now k h => with_tables c ((SetCategoryPollHours now (ct_feeds c) k h).1, ct_entries c)
  | LReschedule id t => with_tables c ((SetFeedNextCheckAt (ct_feeds c) id t).1, ct_entries c)
  | LRefreshAll now jitter => with_tables c ((RefreshAllFeeds now jitter (ct_feeds c)).1, ct_entries c)
  end.

Lemma wf_entries c s : catalog_wf title_key c → tables_wf (ct_hooks c) s → s.1 = ct_feeds c → catalog_wf title_key (with_tables c s).
Proof.
  intros W T E. destruct s as [f db]. cbn [fst] in E. subst f. destruct W. by split.
Qed.

(** Polling windows and the poll state do not touch what the invariant speaks of. *)
Lemma wf_poll_and_hours c cats poll : catalog_wf title_key c → (∀ k, is_Some (cats !! k) ↔ is_Some (fd_cats (ct_feeds c) !! k)) →
  (∀ id, is_Some (poll !! id) ↔ is_Some (fd_poll (ct_feeds c) !! id)) →
  catalog_wf title_key (with_tables c (with_poll (with_cats (ct_feeds c) cats) poll, ct_entries c)).
Proof.
  intros [T F M N I C NC TI] Hc Hp.
  split; cbn [with_tables tables ct_feeds ct_entries ct_hooks ct_more ct_next ct_cats ct_next_cat fst snd] in *; try assumption.
  - destruct T. split; try assumption; unfold tables, with_tables, with_poll, with_cats in *; cbn [fst snd ct_feeds fd_feeds fd_poll fd_cats fd_followers fd_subs] in *.
    + intros id. by rewrite Hp.
    + intros id f k H E. apply Hc. by eapply tw_cat.
    + intros v k H. apply Hc. by eapply tw_follow.
  - intros k. cbn [with_poll with_cats fd_cats]. by rewrite Hc.
Qed.

Lemma wf_hours c now k h : catalog_wf title_key c → catalog_wf title_key (with_tables c ((SetCategoryPollHours now (ct_feeds c) k h).1, ct_entries c)).
Proof.
  intros W. assert (Id : with_tables c (ct_feeds c, ct_entries c) = c) by by destruct c. unfold SetCategoryPollHours.
  destruct (NormalizePollHours h) as [norm|]; [|by cbn [fst]; rewrite Id]. destruct (fd_cats (ct_feeds c) !! k) as [old|] eqn:L; [|by cbn [fst]; rewrite Id].
  destruct (String.eqb _ _); [by cbn [fst]; rewrite Id|]. cbn [fst]. apply wf_poll_and_hours; [done| |].
  - intros j. destruct (decide (k = j)) as [<-|N]; [rewrite lookup_insert_eq, L; split; eauto|by rewrite lookup_insert_ne].
  - intros id. rewrite map_lookup_imap. cbn [with_cats fd_poll]. destruct (fd_poll (ct_feeds c) !! id); cbn [mbind option_bind]; split; intros []; by eauto.
Qed.

Lemma wf_reschedule c id t : catalog_wf title_key c → catalog_wf title_key (with_tables c ((SetFeedNextCheckAt (ct_feeds c) id t).1, ct_entries c)).
Proof.
  intros W. unfold SetFeedNextCheckAt, update_ps. destruct (fd_poll (ct_feeds c) !! id) as [ps|] eqn:L; cbn [fst]; [|by destruct c].
  replace (ct_feeds c) with (with_cats (ct_feeds c) (fd_cats (ct_feeds c))) at 1 by by destruct (ct_feeds c).
  apply wf_poll_and_hours; [done..|]. intros j.
  destruct (decide (id = j)) as [<-|N]; [rewrite lookup_insert_eq, L; split; eauto|by rewrite lookup_insert_ne].
Qed.

Lemma wf_refresh_all c now jitter : catalog_wf title_key c →
  catalog_wf title_key (with_tables c ((RefreshAllFeeds now jitter (ct_feeds c)).1, ct_entries c)).
Proof.
  intros W. unfold RefreshAllFeeds. cbn [fst]. replace (ct_feeds c) with (with_cats (ct_feeds c) (fd_cats (ct_feeds c))) at 1 by by destruct (ct_feeds c).
  apply wf_poll_and_hours; [done..|]. intros id. rewrite map_lookup_imap. destruct (fd_poll (ct_feeds c) !! id); cbn [mbind option_bind]; split; intros []; by eauto.
Qed.

Lemma wf_run_lib_op c op : catalog_wf title_key c → catalog_wf title_key (run_lib_op c op).
Proof.
  intros W. pose proof (cw_tables _ _ W) as T. destruct op; cbn [run_lib_op].
  - by apply wf_run_cat_op.
  - apply wf_entries; [done| |done]. by apply (tables_wf_createEntries _ dedup_key now (tables c)).
  - destruct (wf_BulkUpdate _ _ userID ids x T). by apply wf_entries.
  - destruct (MarkEntriesRemoved_ok _ _ userID ids T) as [E M]. apply wf_entries; [done| |done]. by eapply wf_step.
  - destruct (wf_UpdateEntry _ _ userID feedID id x T). by apply wf_entries.
  - destruct (wf_UpdateEntryContent _ _ userID id content original fetched T). by apply wf_entries.
  - apply wf_entries; [done| |done]. unfold MarkAllFeedEntriesRead. destruct (GetFeed _ _ _); [exact T|]. by apply (wf_drop_unread _ (tables c)).
  - apply wf_entries; [done| |done]. unfold MarkAllCategoryEntriesRead. destruct (lookupCategory _ _); [exact T|]. by apply (wf_drop_unread _ (tables c)).
  - apply wf_entries; [done| |done]. unfold MarkAllLabelEntriesRead. destruct (GetLabel _ _ _); [exact T|]. by apply (wf_drop_unread _ (tables c)).
  - apply wf_entries; [done| |done]. by apply (wf_drop_unread _ (tables c)).
  - by apply wf_hours.
  - by apply wf_reschedule.
  - by apply wf_refresh_all.
Qed.

(** C17: following is reading, and the tables never disagree.  Whatever sequence of catalogue
    edits, bulk edits, subscriptions, follows, polls and markings ran since the first start: whoever follows a category reads every
    feed of it; a subscription's webhook is the subscriber's; unread marks belong to
    readers of the feed, carry the entry's feed and date, and lie on entries that
    neither the reader nor a delivery has removed; user rows belong to readers of the feed;
    feeds, categories and entries refer only to rows that are there; and addresses, titles (up to case and spaces) and
    hashes within a feed are unique. *)
Theorem library_consistent (hdb : HookDb) (ops : list lib_op) :
  catalog_wf title_key (fold_left run_lib_op ops (empty_catalog hdb)).
Proof.
  assert (G : ∀ c, catalog_wf title_key c → catalog_wf title_key (fold_left run_lib_op ops c)).
  { induction ops as [|op l IH]; intros c W; [exact W|]. apply IH. by apply wf_run_lib_op. }
  apply G, empty_catalog_wf.
Qed.

End Library.

(** * Concrete lists *)

(** The three items polled, one of them starred and read. *)
Definition wit_reading : FeedDb * EntryDb :=
  (BulkUpdateEntries wit_tables 1 [1] (mkBulkEntry (Some "read"%string) (Some true))).1.
Lemma wit_reading_wf : tables_wf (ct_hooks wit_catalog) wit_reading.
Proof. apply wf_BulkUpdate, wit_tables_wf. Qed.

Definition wit_query (status : option string) (feed : option Z) (starred : option bool) : ListEntriesFilter :=
  mkListFilter (mkConds feed None None starred) status "newest" 10 0 true true.

Lemma lists_match_reference_witness :
  ListEntries wit_reading 1 (wit_query None None (Some true)) =
    inr ([mkEntryView (without_body (new_row 60 1 1 false (wit_item "a" "x"))) EntryStatusRead true], 1) ∧
  ListEntries wit_reading 1 (wit_query None (Some 1) (Some true)) = inl (EWrap "list entries" (EMsg "column ue.feed_id does not exist")).
Proof.
  split.
  - refine (eq_trans (lists_match_reference (ct_hooks wit_catalog) wit_reading 1 (wit_query None None (Some true)) wit_reading_wf _) _); [done|].
    vm_compute. reflexivity.
  - refine (lists_match_reference (ct_hooks wit_catalog) wit_reading 1 (wit_query None (Some 1) (Some true)) wit_reading_wf _). done.
Defined.

Lemma bulk_update_effect_witness :
  (BulkUpdateEntries wit_tables 1 [1; 2; 9] (mkBulkEntry (Some "read"%string) (Some true))).2 = inr 2 ∧
  (BulkUpdateEntries (BulkUpdateEntries wit_tables 1 [1; 2; 9] (mkBulkEntry (Some "read"%string) (Some true))).1 1 [1; 2; 9]
     (mkBulkEntry (Some "read"%string) (Some true))).2 = inr 0.
Proof.
  split; [vm_compute; reflexivity|].
  refine (proj1 (bulk_update_effect (ct_hooks wit_catalog) wit_tables (BulkUpdateEntries wit_tables 1 [1; 2; 9] (mkBulkEntry (Some "read"%string) (Some true))).1
    1 [1; 2; 9] (mkBulkEntry (Some "read"%string) (Some true)) 2 wit_tables_wf _)).
  vm_compute. reflexivity.
Defined.

(** A delivery that ends after its owner has left the feed still records the removal; when they
    come back, the entry is unread for them and yet missing from their list of all entries. *)
Lemma late_removal_hides_entry :
  let s := (wit_tables.1, MarkEntryRemovedKeepPayload wit_tables.2 2 1) in
  let s' := (Subscribe (ct_hooks wit_catalog) s 2 1 None).1 in
  (ev_status <$> match GetEntry s' 2 1 with inr v => Some v | inl _ => None end) = Some EntryStatusUnread ∧
  match ListEntries s' 2 (wit_query None None None) with inr (vs, n) => (er_id ∘ ev_row <$> vs, n) | inl _ => ([], 0) end = ([2], 1).
Proof. split; vm_compute; reflexivity. Qed.
