(* ===== verification/Search.v ===== *)
(** Search ([storage/fts.go], [storage/entry_search.go], [storage/feed_search.go]): the queries handed to the
    full-text search, the pages of found entries, and feeds by a piece of their title or
    address.  What PostgreSQL does with a text-search query, the lower case its ILIKE compares in and the collation of
    titles are parameters; LIKE itself is defined here. *)

From S2P Require Import Prelude GoStrings Types FeedStore EntryStore Tables Catalog Reading.
From Stdlib Require Import Ascii.

(** * Full-text queries *)

Definition DefaultFTSLanguage : string := "simple".

(** storage/fts.go [NormalizeFTSLanguage] *)
Definition NormalizeFTSLanguage (lang : string) : string :=
  let l := to_lower (trim_space lang) in
  if String.eqb l "" || String.eqb l "simple" then "simple"
  else if String.eqb l "russian" || String.eqb l "ru" then "russian"
  else DefaultFTSLanguage.

(** storage/fts.go [isAllowedFTSLanguage] *)
Definition isAllowedFTSLanguage (lang : string) : bool := String.eqb lang "simple" || String.eqb lang "russian".

(** The configuration an expression is written with, whatever the store was given. *)
Definition fts_config (lang : string) : string := if isAllowedFTSLanguage lang then lang else DefaultFTSLanguage.

Definition ftsIndexedChars : Z := 150000.
Definition ftsPrefixMinRunes : Z := 3.

Definition quote_char : ascii := ascii_of_N 39.
Definition backslash : ascii := ascii_of_N 92.
Definition double_quote : ascii := ascii_of_N 34.

(** storage/fts.go:98-98 [tsqueryLiteralEscaper] *)
Fixpoint tsquery_escape (s : list ascii) : list ascii :=
  match s with
  | [] => []
  | a :: s => if Ascii.eqb a backslash || Ascii.eqb a quote_char then a :: a :: tsquery_escape s else a :: tsquery_escape s
  end.

Definition is_prefix_term (w : string) : bool := ftsPrefixMinRunes <=? rune_count w.

Definition prefix_term (w : string) : list ascii :=
  quote_char :: tsquery_escape (String.list_ascii_of_string w) ++ [quote_char] ++
  (if is_prefix_term w then String.list_ascii_of_string ":*" else []).

Fixpoint prefix_terms (first : bool) (words : list string) : list ascii :=
  match words with
  | [] => []
  | w :: words => (if first then [] else String.list_ascii_of_string " & ") ++ prefix_term w ++ prefix_terms false words
  end.
(** storage/fts.go [ftsPrefixQuery] *)
Definition ftsPrefixQuery (q : string) : string := String.string_of_list_ascii (prefix_terms true (fields q)).

(** storage/fts.go [HasSearchOperators] *)
Definition HasSearchOperators (q : string) : bool :=
  has_byte double_quote q ||
  existsb (λ w, ((1 <? Z.of_nat (String.length w)) && has_prefix w "-") || equal_fold w "or") (fields q).

(** The text search of the database.  [ts_rank] stands for [ts_rank_cd]: only its order is used. *)
Class FullText := {
  tsvector : Type;
  tsquery : Type;
  to_tsvector : string → string → tsvector;
  empty_vector : tsvector;
  websearch_to_tsquery : string → string → tsquery;
  to_tsquery : string → string → tsquery;
  ts_or : tsquery → tsquery → tsquery;
  ts_matches : tsvector → tsquery → bool;
  ts_rank : tsvector → tsquery → Z;
  sql_left : Z → string → string;
}.

Section Entries.
Context `{!FullText} (ftsLanguage : string).

(** storage/fts.go [ftsVectorExprPlaceholders] *)
Definition ftsVectorExpr (title content : string) : tsvector :=
  to_tsvector (fts_config ftsLanguage) (sql_left ftsIndexedChars (title +:+ " " +:+ content)).
(** storage/fts.go [ftsWebsearchExpr] *)
Definition ftsWebsearchExpr (q : string) : tsquery := websearch_to_tsquery (fts_config ftsLanguage) q.
(** storage/fts.go [ftsPrefixExpr] *)
Definition ftsPrefixExpr (q : string) : tsquery := to_tsquery (fts_config ftsLanguage) q.

(** The column [search_vector]: of the text, or empty once the row is stripped. *)
Definition search_vector (r : EntryRow) : tsvector :=
  if er_indexed r then ftsVectorExpr (er_title r) (er_content r) else empty_vector.

(** storage/entry_search.go [SearchEntriesFilter] *)
Record SearchEntriesFilter := mkSearchFilter {
  se_Query : string; se_FeedID : option Z; se_Status : option string; se_Starred : option bool; se_Sort : string;
  se_Limit : Z; se_Offset : Z; se_Rank : bool; se_WithTotal : bool; se_WithoutBody : bool;
}.

Definition SearchRankWindow : Z := 2000.
Definition SearchTotalCap : Z := 10001.

(** storage/entry_search.go:66-83 [PostgresStore.SearchEntries, the query] *)
Definition search_query (query : string) : tsquery :=
  let tsq := ftsWebsearchExpr query in
  if HasSearchOperators query then tsq else ts_or tsq (ftsPrefixExpr (ftsPrefixQuery query)).

(** The row of an entry as [entryFromEntries] keys it. *)
Definition entry_key (db : EntryDb) (e : Z) : option (Z * Z) := (λ r, (er_sort_at r, e)) <$> ed_entries db !! e.

Definition rank_of (db : EntryDb) (tsq : tsquery) (ke : Z * Z) : Z :=
  match ed_entries db !! ke.2 with Some r => ts_rank (search_vector r) tsq | None => 0 end.
Definition rank_le (db : EntryDb) (tsq : tsquery) (le : relation (Z * Z)) (x y : Z * Z) : Prop :=
  rank_of db tsq y < rank_of db tsq x ∨ (rank_of db tsq x = rank_of db tsq y ∧ le x y).
#[export] Instance rank_le_dec db tsq le `{!RelDecision le} : RelDecision (rank_le db tsq le).
Proof. unfold rank_le. intros x y. apply _. Defined.

Definition hit (db : EntryDb) (tsq : tsquery) (e : Z) : bool :=
  match ed_entries db !! e with Some r => ts_matches (search_vector r) tsq | None => false end.

(** By relevance, then by date. *)
Definition ranked_order (db : EntryDb) (tsq : tsquery) (sort : string) (l : keyed) : keyed :=
  if String.eqb (NormalizeEntrySort sort) EntrySortOldest then merge_sort (rank_le db tsq key_asc) l
  else merge_sort (rank_le db tsq key_desc) l.

Definition views (db : EntryDb) (u : Z) (no_body : bool) (l : keyed) : list EntryView :=
  omap (λ ke, (λ r, entry_view db u ke.2 (if no_body then without_body r else r)) <$> ed_entries db !! ke.2) l.

(** storage/entry_search.go [PostgresStore.SearchEntries] The window of a plain search is a machine
    integer, and PostgreSQL refuses a negative LIMIT. *)
Definition SearchEntries (s : FeedDb * EntryDb) (u : Z) (f : SearchEntriesFilter) : err + list EntryView * Z :=
  let query := trim_space (se_Query f) in
  if String.eqb query "" then inl (EMsg "search query is required")
  else
    let limit := if se_Limit f <=? 0 then 100 else se_Limit f in
    let limit := if ListPageCap <? limit then ListPageCap else limit in
    let offset := Z.max (se_Offset f) 0 in
    match entryListScope s.1 s.2 u (mkConds (se_FeedID f) None None (se_Starred f)) (se_Status f) with
    | inl e => inl e
    | inr rows =>
        let tsq := search_query query in
        let fetch := if se_WithTotal f then limit else limit + 1 in
        let window := if se_Rank f then SearchRankWindow else wrap64 (offset + fetch) in
        match rows with
        | inl e => inl (EWrap "search entries" e)
        | inr rows =>
            if window <? 0 then inl (EWrap "search entries" (EMsg "LIMIT must not be negative"))
            else
              let found := filter (λ ke, hit s.2 tsq ke.2 = true) rows in
              let hits := take (Z.to_nat window) (entry_order (se_Sort f) found) in
              let rows := omap (λ ke, entry_key s.2 ke.2) hits in
              let rows := if se_Rank f then ranked_order s.2 tsq (se_Sort f) rows else entry_order (se_Sort f) rows in
              let out := views s.2 u (se_WithoutBody f) (take (Z.to_nat fetch) (drop (Z.to_nat offset) rows)) in
              if se_WithTotal f then inr (out, Z.min (Z.of_nat (length found)) SearchTotalCap)
              else inr (trimPage offset limit out)
        end
    end.

End Entries.

(** * Feeds by title or address *)

Definition percent : ascii := ascii_of_N 37.
Definition underscore : ascii := ascii_of_N 95.
Definition special (a : ascii) : bool := Ascii.eqb a backslash || Ascii.eqb a percent || Ascii.eqb a underscore.

(** [strings.ReplaceAll] of one byte by itself behind a backslash. *)
Fixpoint escape_byte (c : ascii) (s : list ascii) : list ascii :=
  match s with
  | [] => []
  | a :: s => if Ascii.eqb a c then backslash :: a :: escape_byte c s else a :: escape_byte c s
  end.

(** storage/feed_search.go [escapeLikePattern] *)
Definition escapeLikePattern (s : list ascii) : list ascii :=
  escape_byte underscore (escape_byte percent (escape_byte backslash s)).

Fixpoint any_suffix (p : list ascii → bool) (s : list ascii) : bool :=
  p s || match s with [] => false | _ :: s => any_suffix p s end.

(** [LIKE … ESCAPE] with the backslash: [%] is any text, [_] one character, an escaped character itself. *)
Fixpoint like (p : list ascii) (s : list ascii) : bool :=
  match p with
  | [] => match s with [] => true | _ => false end
  | a :: p1 =>
      if Ascii.eqb a backslash then
        match p1, s with
        | b :: p2, c :: s' => Ascii.eqb b c && like p2 s'
        | _, _ => false
        end
      else if Ascii.eqb a percent then any_suffix (like p1) s
      else if Ascii.eqb a underscore then
        match s with [] => false | _ => like p1 (drop (rune_width (byte_of <$> s)) s) end
      else match s with [] => false | c :: s' => Ascii.eqb a c && like p1 s' end
  end.

Definition MinFeedSearchQueryRunes : Z := 2.
Definition DefaultFeedSuggestLimit : Z := 20.
Definition MaxFeedSuggestLimit : Z := 50.
Definition MaxFeedSearchLimit : Z := 200.
Definition MaxListFeedsByIDs : Z := 500.

(** storage/feed_search.go [clampFeedSuggestLimit] *)
Definition clampFeedSuggestLimit (n : Z) : Z :=
  if n <=? 0 then DefaultFeedSuggestLimit else if MaxFeedSearchLimit <? n then MaxFeedSearchLimit else n.

(** storage/feed_search.go [SearchFeedsFilter] *)
Record SearchFeedsFilter := mkFeedsFilter { sq_Query : string; sq_CategoryID : option Z; sq_Limit : Z; sq_Catalog : bool }.

Section Feeds.
(** The lower case of the database, which ILIKE compares in, and its collation. *)
Context (lower : list ascii → list ascii) (title_le : relation string) `{!RelDecision title_le}.

Definition ilike (pattern : list ascii) (s : string) : bool := like (lower pattern) (lower (String.list_ascii_of_string s)).

Definition like_pattern (q : string) : list ascii := percent :: escapeLikePattern (String.list_ascii_of_string q) ++ [percent].

(** storage/feed_search.go:66-82 [PostgresStore.SearchFeeds, the WHERE clause] *)
Definition feed_matches (q : string) (category : option Z) (v : FeedView) : bool :=
  let r := feed_row (fv_feed v) in
  (if MinFeedSearchQueryRunes <=? rune_count q then ilike (like_pattern q) (f_title r) || ilike (like_pattern q) (f_url r) else true) &&
  opt_all category (λ k, in_category k v).

(** storage/feed_search.go [PostgresStore.SearchFeeds] *)
Definition SearchFeeds (c : Catalog) (userID : Z) (f : SearchFeedsFilter) : list FeedView :=
  let q := trim_space (sq_Query f) in
  if (rune_count q <? MinFeedSearchQueryRunes) && bool_decide (sq_CategoryID f = None) then []
  else
    let rows := view_rows c userID (λ v, (sq_Catalog f || fv_subscribed v) && feed_matches q (sq_CategoryID f) v) in
    take (Z.to_nat (clampFeedSuggestLimit (sq_Limit f))) (merge_sort (by_title title_le) (map_to_list rows)).*2.

(** http/ui/feed_suggest.go [feedSuggestDTO] *)
Record feedSuggestDTO := mkSuggest { sg_ID : Z; sg_Title : string; sg_FeedURL : string; sg_CategoryID : option Z; sg_CategoryTitle : string }.

Inductive SuggestAnswer := SgStatus (code : Z) (message : string) | SgData (rows : list feedSuggestDTO).

Definition suggestion (c : Catalog) (v : FeedView) : feedSuggestDTO :=
  let r := feed_row (fv_feed v) in
  mkSuggest (f_id r) (f_title r) (f_url r) (f_category_id r) (default ""%string (k ← f_category_id r; ca_Title <$> ct_cats c !! k)).

(** http/ui/feed_suggest.go [Handler.handleFeedSuggest] The signed-in user, whether there is a
    store of feeds, and the query's three values. *)
Definition handleFeedSuggest (c : Catalog) (me : option Z) (stored : bool) (rq rlimit rcategory : string) : SuggestAnswer :=
  match me with
  | None => SgStatus 401 "unauthorized"
  | Some userID =>
      if negb stored then SgStatus 503 "unavailable"
      else
        let q := trim_space rq in
        let limit := match parse_int64 (trim_space rlimit) with Some n => Z.min n MaxFeedSuggestLimit | None => DefaultFeedSuggestLimit end in
        let category := trim_space rcategory in
        match (if String.eqb category "" then inr None
               else match parse_int64 category with Some k => if k <? 0 then inl tt else inr (Some k) | None => inl tt end) with
        | inl _ => SgStatus 400 "invalid category_id"
        | inr cat =>
            if (rune_count q <? MinFeedSearchQueryRunes) && bool_decide (cat = None) then SgData []
            else SgData (suggestion c <$> SearchFeeds c userID (mkFeedsFilter q cat limit false))
        end
  end.

End Feeds.

(** storage/feed_search.go [PostgresStore.ListFeedsByIDs] In the order of the numbers, each once. *)
Definition ListFeedsByIDs (c : Catalog) (userID : Z) (ids : list Z) : list FeedView :=
  let ids := take (Z.to_nat MaxListFeedsByIDs) ids in
  let rows := view_rows c userID (λ v, fv_subscribed v) in
  snd (foldl (λ acc id,
         if bool_decide (id ∈ acc.1) then acc
         else ({[id]} ∪ acc.1, match rows !! id with Some v => acc.2 ++ [v] | None => acc.2 end)) (∅ : gset Z, []) ids).
