(* ===== verification/SearchSpec.v ===== *)
(** What searching does ([Search.v]): a search shows the reader's own entries that match, page by
    page, and a search for feeds takes the typed text literally. *)

From S2P Require Import Prelude GoStrings Types FeedStore WebhookStore EntryStore Tables Catalog CatalogSpec Reading ReadingSpec Search.
From Stdlib Require Import Ascii.

(** * Queries *)

(** The content of a quoted operand of [to_tsquery] up to its closing quote, and the rest: a doubled quote
    or backslash stands for itself. *)
Fixpoint read_quoted (s : list ascii) : option (list ascii * list ascii) :=
  let keep a o := (λ wr : list ascii * list ascii, (a :: wr.1, wr.2)) <$> o in
  match s with
  | [] => None
  | a :: s1 =>
      if Ascii.eqb a backslash then match s1 with b :: s2 => keep b (read_quoted s2) | [] => None end
      else if Ascii.eqb a quote_char then
        match s1 with b :: s2 => if Ascii.eqb b quote_char then keep b (read_quoted s2) else Some ([], s1) | [] => Some ([], []) end
      else keep a (read_quoted s1)
  end.

Lemma read_quoted_escape w rest : head rest ≠ Some quote_char → read_quoted (tsquery_escape w ++ quote_char :: rest) = Some (w, rest).
Proof.
  intros H. induction w as [|a w IH].
  - cbn -[Ascii.eqb quote_char backslash]. destruct (Ascii.eqb_spec quote_char backslash); [done|]. rewrite Ascii.eqb_refl.
    destruct rest as [|b rest]; [done|]. destruct (Ascii.eqb_spec b quote_char) as [->|]; [by destruct H|done].
  - cbn -[Ascii.eqb quote_char backslash].
    destruct (Ascii.eqb_spec a backslash) as [->|N1]; [|destruct (Ascii.eqb_spec a quote_char) as [->|N2]]; cbn -[Ascii.eqb quote_char backslash].
    + rewrite Ascii.eqb_refl. by rewrite IH.
    + destruct (Ascii.eqb_spec quote_char backslash); [done|]. rewrite Ascii.eqb_refl. by rewrite IH.
    + rewrite (proj2 (Ascii.eqb_neq a backslash) N1), (proj2 (Ascii.eqb_neq a quote_char) N2). by rewrite IH.
Qed.

(** Whatever a word holds, the query built from it has that word as one quoted operand. *)
Lemma prefix_term_literal w rest : head rest ≠ Some quote_char →
  ∃ s, prefix_term w ++ rest = quote_char :: s ∧
    read_quoted s = Some (String.list_ascii_of_string w, (if is_prefix_term w then String.list_ascii_of_string ":*" else []) ++ rest).
Proof.
  intros H. set (tail := if is_prefix_term w then String.list_ascii_of_string ":*" else []).
  exists (tsquery_escape (String.list_ascii_of_string w) ++ quote_char :: tail ++ rest). split.
  - unfold prefix_term. fold tail. cbn [app]. by rewrite <- app_assoc.
  - apply read_quoted_escape. unfold tail. by destruct (is_prefix_term w).
Qed.

(** The language spliced into a statement is one of two, whatever the setting holds. *)
Lemma fts_config_allowed lang : fts_config lang = "simple"%string ∨ fts_config lang = "russian"%string.
Proof.
  unfold fts_config, isAllowedFTSLanguage. destruct (String.eqb lang "simple") eqn:A; [apply String.eqb_eq in A; by left|].
  destruct (String.eqb lang "russian") eqn:B; [apply String.eqb_eq in B; by right|by left].
Qed.
Lemma normalized_allowed lang : fts_config (NormalizeFTSLanguage lang) = NormalizeFTSLanguage lang.
Proof. unfold NormalizeFTSLanguage. by repeat destruct (_ || _). Qed.

(** [||] on queries: a row that matches either matches. *)
Class FullTextLaws `(T : FullText) := ts_or_matches v a b : ts_matches v (ts_or a b) = ts_matches v a || ts_matches v b.

Lemma plain_search_keeps_words `{L : !FullTextLaws T} lang db q e :
  hit lang db (ftsWebsearchExpr lang q) e = true → hit lang db (search_query lang q) e = true.
Proof.
  unfold hit, search_query. destruct (ed_entries db !! e); [|done]. destruct (HasSearchOperators q); [done|]. intros H. by rewrite ts_or_matches, H.
Qed.

(** * Found entries *)

Lemma merge_sort_sorted {A} (R : relation A) `{!RelDecision R, !Total R, !Transitive R, !AntiSymm (=) R} (l : list A) :
  StronglySorted R l → merge_sort R l = l.
Proof.
  intros S. apply (StronglySorted_unique R); [apply StronglySorted_merge_sort; apply _|done|]. by rewrite merge_sort_Permutation.
Qed.

Lemma StronglySorted_take {A} (R : relation A) n (l : list A) : StronglySorted R l → StronglySorted R (take n l).
Proof.
  intros S. revert n. induction S as [|x l S IH F]; intros [|n]; cbn [take]; constructor; [apply IH|].
  by apply Forall_take.
Qed.

Lemma entry_order_take sort n l : entry_order sort (take n (entry_order sort l)) = take n (entry_order sort l).
Proof.
  unfold entry_order. destruct (String.eqb _ _); apply merge_sort_sorted, StronglySorted_take, StronglySorted_merge_sort; apply _.
Qed.

Lemma take_drop_take {A} (l : list A) n k m : (n + k ≤ m)%nat → take k (drop n (take m l)) = take k (drop n l).
Proof. intros H. rewrite !take_drop_commute, take_take. do 2 f_equal. lia. Qed.

Section Found.
Context `{!FullText} (lang : string) (hdb : HookDb) (s : FeedDb * EntryDb) (u : Z) (f : SearchEntriesFilter).

Definition search_conds : entryListConds := mkConds (se_FeedID f) None None (se_Starred f).
Definition search_limit : Z := Z.min (if se_Limit f <=? 0 then 100 else se_Limit f) ListPageCap.
Definition asked_query : tsquery := search_query lang (trim_space (se_Query f)).

(** The reader's entries of the asked state that match. *)
Definition found : keyed :=
  filter (λ ke, hit lang s.2 asked_query ke.2 = true) (listed s u search_conds (default ""%string (se_Status f))).

(** In the order shown: by date, or the newest 2000 by relevance. *)
Definition found_rows : keyed :=
  let by_date := entry_order (se_Sort f) found in
  if se_Rank f then ranked_order lang s.2 asked_query (se_Sort f) (take (Z.to_nat 2000) by_date) else by_date.

Lemma keys_of_listed (l k : keyed) : l ≡ₚ listed s u search_conds (default ""%string (se_Status f)) → (∀ x, x ∈ k → x ∈ l) →
  omap (λ ke, entry_key s.2 ke.2) k = k.
Proof.
  intros P Sub. induction k as [|[t e] k IH]; [done|]. cbn [omap list_omap snd].
  assert (E : (t, e) ∈ listed s u search_conds (default ""%string (se_Status f))) by (rewrite <- P; apply Sub, list_elem_of_here).
  apply elem_of_listed in E as (r & L & -> & _). unfold entry_key. rewrite L. cbn [fmap option_fmap option_map].
  f_equal. apply IH. intros x Hx. by apply Sub, list_elem_of_further.
Qed.
End Found.

(** C19: a search is a page of what it says.  In consistent tables it takes the entries the
    reader can open in the asked state, of the asked feed and star, whose text matches the query;
    shows them newest or oldest first, or the newest 2000 by relevance; cuts one page; and counts them up to
    10001, or says whether there is more.  Like the lists, a search among the starred entries of one
    feed names a column the table no longer has, and is always an error. *)
Theorem search_matches_reference `{!FullText} (lang : string) (hdb : HookDb) (s : FeedDb * EntryDb) (u : Z) (f : SearchEntriesFilter)
  (W : tables_wf hdb s) (V : ∀ st, se_Status f = Some st → st = "" ∨ IsValidEntryStatus st = true)
  (Q : trim_space (se_Query f) ≠ "") (O : se_Offset f < 2 ^ 62) :
  let offset := Z.max (se_Offset f) 0 in let limit := search_limit f in
  let page n := views s.2 u (se_WithoutBody f) (take (Z.to_nat n) (drop (Z.to_nat offset) (found_rows lang s u f))) in
  SearchEntries lang s u f =
    if starred_within (search_conds f) (default "" (se_Status f)) then inl (EWrap "search entries" (EMsg "column ue.feed_id does not exist"))
    else if se_WithTotal f then inr (page limit, Z.min (Z.of_nat (length (found lang s u f))) 10001)
    else inr (trimPage offset limit (page (limit + 1))).
Proof.
  cbv zeta. unfold SearchEntries. rewrite (proj2 (String.eqb_neq _ _) Q).
  assert (L : (if ListPageCap <? (if se_Limit f <=? 0 then 100 else se_Limit f) then ListPageCap else if se_Limit f <=? 0 then 100 else se_Limit f) = search_limit f).
  { unfold search_limit. destruct (_ <? _) eqn:E; bool_to_prop; lia. }
  rewrite L. clear L.
  assert (B : 0 < search_limit f <= 1000) by (unfold search_limit, ListPageCap; destruct (se_Limit f <=? 0) eqn:E; bool_to_prop; lia).
  pose proof (entryListScope_listed hdb s u (search_conds f) (se_Status f) W V) as Scope. cbv zeta in Scope.
  change (mkConds (se_FeedID f) None None (se_Starred f)) with (search_conds f). destruct (starred_within _ _); [by rewrite Scope|].
  destruct Scope as (l & -> & P). fold (asked_query lang f).
  set (m := if se_WithTotal f then search_limit f else search_limit f + 1).
  assert (Bm : search_limit f <= m <= search_limit f + 1) by (unfold m; destruct (se_WithTotal f); lia).
  assert (Bw : wrap64 (Z.max (se_Offset f) 0 + m) = Z.max (se_Offset f) 0 + m) by (apply wrap64_id; unfold in64; lia).
  rewrite Bw. rewrite (proj2 (Z.ltb_ge _ 0)) by (destruct (se_Rank f); unfold SearchRankWindow; lia).
  set (fl := filter _ l). assert (Pf : fl ≡ₚ found lang s u f) by (by apply filter_Permutation).
  rewrite (entry_order_perm (se_Sort f) _ _ Pf), (Permutation_length Pf).
  rewrite (keys_of_listed s u f _ _ P).
  2: { intros x E. apply (subseteq_take _ _ x) in E. unfold entry_order in E.
       assert (E' : x ∈ found lang s u f) by (destruct (String.eqb _ _); by rewrite merge_sort_Permutation in E). rewrite <- Pf in E'.
       by apply list_elem_of_filter in E' as [_ E']. }
  unfold found_rows. fold (asked_query lang f). destruct (se_Rank f).
  - by destruct (se_WithTotal f).
  - rewrite entry_order_take. rewrite take_drop_take by lia. by destruct (se_WithTotal f).
Qed.

(** * Feeds *)

(** Lower-casing a text works character by character: it keeps the three special characters where
    they are and makes none of another. *)
Class LowerCase (lower : list ascii → list ascii) : Prop := {
  lower_nil : lower [] = [];
  lower_at_special : ∀ a c b, special c = true → lower (a ++ c :: b) = lower a ++ c :: lower b;
  lower_plain : ∀ a, Forall (λ c, special c = false) a → Forall (λ c, special c = false) (lower a);
}.

Definition escape1 (a : ascii) : list ascii := if special a then [backslash; a] else [a].

Lemma escape_byte_app c s t : escape_byte c (s ++ t) = escape_byte c s ++ escape_byte c t.
Proof. induction s as [|a s IH]; [done|]. cbn. rewrite IH. by destruct (Ascii.eqb a c). Qed.

Lemma escapeLikePattern_app s t : escapeLikePattern (s ++ t) = escapeLikePattern s ++ escapeLikePattern t.
Proof. unfold escapeLikePattern. by rewrite !escape_byte_app. Qed.

Lemma escapeLikePattern_cons a s : escapeLikePattern (a :: s) = escape1 a ++ escapeLikePattern s.
Proof.
  change (a :: s) with ([a] ++ s). rewrite escapeLikePattern_app. f_equal. unfold escapeLikePattern, escape1, special.
  destruct (Ascii.eqb_spec a backslash) as [->|N1]; [done|]. destruct (Ascii.eqb_spec a percent) as [->|N2]; [done|].
  destruct (Ascii.eqb_spec a underscore) as [->|N3]; [done|]. cbn -[Ascii.eqb backslash percent underscore].
  rewrite (proj2 (Ascii.eqb_neq _ _) N1). cbn -[Ascii.eqb backslash percent underscore]. rewrite (proj2 (Ascii.eqb_neq _ _) N2).
  cbn -[Ascii.eqb backslash percent underscore]. by rewrite (proj2 (Ascii.eqb_neq _ _) N3).
Qed.

Lemma escape_plain a : Forall (λ c, special c = false) a → escapeLikePattern a = a.
Proof. induction 1 as [|c a H F IH]; [done|]. rewrite escapeLikePattern_cons, IH. unfold escape1. by rewrite H. Qed.

(** A text is plain, or plain up to its first special character. *)
Lemma first_special q : Forall (λ c, special c = false) q ∨
  ∃ a c b, q = a ++ c :: b ∧ Forall (λ c, special c = false) a ∧ special c = true.
Proof.
  induction q as [|x q IH]; [by left|]. destruct (special x) eqn:S; [right; by exists [], x, q|].
  destruct IH as [F|(a & c & b & -> & F & H)]; [left; by constructor|right]. exists (x :: a), c, b. split_and!; [done|by constructor|done].
Qed.

Section Literal.
Context (lower : list ascii → list ascii) `{L : !LowerCase lower}.

Lemma lower_special_head c b : special c = true → lower (c :: b) = c :: lower b.
Proof. intros H. generalize (lower_at_special [] c b H). by rewrite lower_nil. Qed.

Lemma lower_escape q : lower (escapeLikePattern q) = escapeLikePattern (lower q).
Proof.
  induction q as [q IH] using list_len_ind. destruct (first_special q) as [F|(a & c & b & -> & F & S)].
  - rewrite (escape_plain q F). symmetry. apply escape_plain, lower_plain, F.
  - rewrite escapeLikePattern_app, escapeLikePattern_cons, (escape_plain a F). unfold escape1. rewrite S. cbn [app].
    rewrite lower_at_special, lower_special_head by done.
    rewrite (lower_at_special a c b S), escapeLikePattern_app, escapeLikePattern_cons, (escape_plain (lower a) (lower_plain a F)).
    unfold escape1. rewrite S. cbn [app]. rewrite IH; [done|]. rewrite length_app. cbn. lia.
Qed.

Lemma lower_pattern q : lower (like_pattern q) = percent :: escapeLikePattern (lower (String.list_ascii_of_string q)) ++ [percent].
Proof.
  unfold like_pattern. rewrite lower_special_head by done. f_equal.
  rewrite (lower_at_special _ percent []) by done. by rewrite lower_nil, lower_escape.
Qed.

Lemma any_suffix_true p s : any_suffix p s = true ↔ ∃ a b, s = a ++ b ∧ p b = true.
Proof.
  induction s as [|x s IH]; cbn [any_suffix]; rewrite orb_true_iff.
  - split; [intros [H|]; [by exists [], []|done]|]. intros (a & b & E & H). symmetry in E. apply app_eq_nil in E as [-> ->]. by left.
  - rewrite IH. split.
    + intros [H|(a & b & -> & H)]; [by exists [], (x :: s)|by exists (x :: a), b].
    + intros ([|y a] & b & E & H); [cbn in E; subst b; by left|]. injection E as -> ->. right. by exists a, b.
Qed.

Lemma like_escaped q s : like (escapeLikePattern q ++ [percent]) s = true ↔ ∃ b, s = q ++ b.
Proof.
  revert s. induction q as [|a q IH]; intros s.
  - change (escapeLikePattern [] ++ [percent]) with [percent]. change (like [percent] s) with (any_suffix (like []) s). rewrite any_suffix_true.
    split; [by exists s|]. intros _. exists s, []. by rewrite app_nil_r.
  - rewrite escapeLikePattern_cons, <- app_assoc.
    assert (E : like (escape1 a ++ escapeLikePattern q ++ [percent]) s =
                match s with [] => false | c :: s' => Ascii.eqb a c && like (escapeLikePattern q ++ [percent]) s' end).
    { unfold escape1. destruct (special a) eqn:S; [by destruct s|]. unfold special in S. rewrite !orb_false_iff in S. destruct S as [[S1 S2] S3].
      cbn [app like]. by rewrite S1, S2, S3. }
    rewrite E. destruct s as [|c s]; [split; [done|by intros [b ?]]|]. rewrite andb_true_iff, Ascii.eqb_eq, IH. split.
    + intros [-> [b ->]]. by exists b.
    + intros [b H]. injection H as -> ->. split; [done|by exists b].
Qed.

Lemma ilike_spec q t : ilike lower (like_pattern q) t = true ↔
  ∃ a b, lower (String.list_ascii_of_string t) = a ++ lower (String.list_ascii_of_string q) ++ b.
Proof.
  unfold ilike. rewrite lower_pattern. set (p := escapeLikePattern _ ++ _). change (like (percent :: p)) with (any_suffix (like p)).
  rewrite any_suffix_true. unfold p. setoid_rewrite like_escaped. naive_solver.
Qed.
End Literal.

#[export] Instance by_title_total le `{!RelDecision le} `{!Total le} : Total (by_title le).
Proof.
  intros x y. unfold by_title. set (a := f_title _). set (b := f_title _).
  destruct (decide (le a b)) as [H|H], (decide (le b a)) as [K|K]; [destruct (Z.le_ge_cases x.1 y.1); [left|right]|left|right|exfalso]; try (split; [done|]; intros; lia || done).
  by destruct (total le a b).
Qed.
#[export] Instance by_title_trans le `{!Transitive le} : Transitive (by_title le).
Proof.
  intros x y z [A B] [C D]. split; [by etrans|]. intros H. transitivity y.1; [apply B|apply D]; by etrans.
Qed.

(** The text stands in another, in lower case. *)
Definition stands_in (lower : list ascii → list ascii) (q t : string) : Prop :=
  ∃ a b, lower (String.list_ascii_of_string t) = a ++ lower (String.list_ascii_of_string q) ++ b.

Lemma view_rows_spec c u keep id v : view_rows c u keep !! id = Some v ↔ feed_view c u id = Some v ∧ keep v = true.
Proof.
  unfold view_rows. rewrite map_lookup_imap.
  assert (E : fd_feeds (ct_feeds c) !! id = None → feed_view c u id = None) by (intros H; unfold feed_view; by rewrite H).
  destruct (fd_feeds (ct_feeds c) !! id) as [r|]; cbn [mbind option_bind].
  - destruct (feed_view c u id) as [w|]; cbn [mbind option_bind]; [|by split; [|intros []]].
    destruct (keep w) eqn:K; split; [intros [= ->]|intros [[= ->] _]|done|intros [[= ->] ?]; congruence]; done.
  - rewrite E by done. by split; [|intros []].
Qed.

Lemma clampFeedSuggestLimit_bounds n : 1 <= clampFeedSuggestLimit n <= 200.
Proof.
  unfold clampFeedSuggestLimit, DefaultFeedSuggestLimit, MaxFeedSearchLimit. destruct (n <=? 0) eqn:A; [lia|]. destruct (200 <? n) eqn:B; bool_to_prop; lia.
Qed.

(** Looking for feeds takes the text as it is typed.  A search with neither two characters nor a
    category finds nothing.  Otherwise it shows, in the order of titles and at most 200, the feeds its
    user reads (or all of them, in the catalogue) that are in the category and, from two
    characters on, have the text in their title or address, in any case; a percent sign, an
    underscore or a backslash in it stands for itself. *)
Lemma feed_search_literal (lower : list ascii → list ascii) `{!LowerCase lower} (title_le : relation string) `{!RelDecision title_le}
  `{!Total title_le} `{!Transitive title_le} (c : Catalog) (u : Z) (f : SearchFeedsFilter) :
  let q := trim_space (sq_Query f) in let worded := 2 <= rune_count q in
  if decide (¬ worded ∧ sq_CategoryID f = None) then SearchFeeds lower title_le c u f = []
  else ∃ rows, SearchFeeds lower title_le c u f = take (Z.to_nat (clampFeedSuggestLimit (sq_Limit f))) rows.*2 ∧
    1 <= clampFeedSuggestLimit (sq_Limit f) <= 200 ∧ StronglySorted (by_title title_le) rows ∧ NoDup rows ∧
    ∀ id v, (id, v) ∈ rows ↔
      feed_view c u id = Some v ∧ (sq_Catalog f = true ∨ fv_subscribed v = true) ∧ opt_all (sq_CategoryID f) (λ k, in_category k v) = true ∧
      (worded → stands_in lower q (f_title (feed_row (fv_feed v))) ∨ stands_in lower q (f_url (feed_row (fv_feed v)))).
Proof.
  cbv zeta. unfold SearchFeeds. set (q := trim_space (sq_Query f)).
  assert (E : (rune_count q <? MinFeedSearchQueryRunes) && bool_decide (sq_CategoryID f = None) = bool_decide (¬ 2 <= rune_count q ∧ sq_CategoryID f = None)).
  { apply eq_true_iff_eq. rewrite andb_true_iff, !bool_decide_eq_true, Z.ltb_lt. unfold MinFeedSearchQueryRunes. intuition lia. }
  rewrite E. clear E. destruct (decide _) as [D|D]; [by rewrite bool_decide_eq_true_2|]. rewrite bool_decide_eq_false_2 by done.
  eexists. split; [reflexivity|]. split_and!.
  - apply clampFeedSuggestLimit_bounds.
  - apply clampFeedSuggestLimit_bounds.
  - apply StronglySorted_merge_sort; apply _.
  - rewrite merge_sort_Permutation. apply NoDup_map_to_list.
  - intros id v. rewrite merge_sort_Permutation, elem_of_map_to_list, view_rows_spec. unfold feed_matches, MinFeedSearchQueryRunes.
    rewrite !andb_true_iff, orb_true_iff. destruct (2 <=? rune_count q) eqn:R; bool_to_prop.
    + rewrite orb_true_iff, !ilike_spec by done. unfold stands_in. intuition.
    + intuition lia.
Qed.

(** * On concrete tables *)

(** A text search that takes words as they are, in lower case. *)
Definition wit_fts : FullText := {|
  tsvector := list string; tsquery := list string; to_tsvector _ t := fields (to_lower t); empty_vector := [];
  websearch_to_tsquery _ q := fields (to_lower q); to_tsquery _ _ := []; ts_or := app;
  ts_matches v q := existsb (λ w, bool_decide (w ∈ v)) q; ts_rank v q := Z.of_nat (length (filter (λ w, w ∈ q) v)); sql_left _ t := t;
|}.
#[local] Existing Instance wit_fts.

Definition wit_words (q : string) (feed : option Z) (starred : option bool) (rank : bool) : SearchEntriesFilter :=
  mkSearchFilter q feed None starred "oldest" 1 0 rank rank true.

(** Of two entries that have the first word, the page holds the older and there is more; the one that has both comes first by relevance. *)
Lemma search_matches_reference_witness :
  let view i c h := mkEntryView (without_body (new_row 60 1 i false (wit_item h c))) in
  SearchEntries "simple" wit_reading 1 (wit_words "T" None None false) = inr ([view 1 "x" "a" EntryStatusRead true], 2) ∧
  SearchEntries "simple" wit_reading 1 (wit_words "t Y" None None true) = inr ([view 2 "y" "b" EntryStatusUnread false], 2) ∧
  SearchEntries "simple" wit_reading 1 (wit_words "t" (Some 1) (Some true) false) = inl (EWrap "search entries" (EMsg "column ue.feed_id does not exist")).
Proof.
  cbv zeta. split_and!.
  - refine (eq_trans (search_matches_reference "simple" (ct_hooks wit_catalog) wit_reading 1 (wit_words "T" None None false) wit_reading_wf _ _ _) _); [done..|].
    vm_compute. reflexivity.
  - refine (eq_trans (search_matches_reference "simple" (ct_hooks wit_catalog) wit_reading 1 (wit_words "t Y" None None true) wit_reading_wf _ _ _) _); [done..|].
    vm_compute. reflexivity.
  - refine (search_matches_reference "simple" (ct_hooks wit_catalog) wit_reading 1 (wit_words "t" (Some 1) (Some true) false) wit_reading_wf _ _ _); done.
Defined.

Lemma special_lower a : special (lower_byte a) = special a.
Proof. by destruct a as [[] [] [] [] [] [] [] []]. Qed.
Lemma lower_special a : special a = true → lower_byte a = a.
Proof. by destruct a as [[] [] [] [] [] [] [] []]. Qed.

(** ASCII. *)
#[local] Instance wit_lower : LowerCase (map lower_byte).
Proof.
  split; [done| |].
  - intros a c b S. rewrite map_app. cbn [map]. by rewrite lower_special.
  - intros a F. induction F as [|c a H F IH]; cbn [map]; constructor; [by rewrite special_lower|done].
Qed.

Definition shorter (a b : string) : Prop := (String.length a <= String.length b)%nat.
#[local] Instance shorter_dec : RelDecision shorter.
Proof. unfold shorter. intros a b. apply _. Defined.
#[local] Instance shorter_total : Total shorter.
Proof. intros a b. unfold shorter. lia. Qed.
#[local] Instance shorter_trans : Transitive shorter.
Proof. intros a b d. unfold shorter. lia. Qed.

(** The feed "A feed" is found by " a FE", and not by "a%f". *)
Lemma feed_search_literal_witness :
  let search q := SearchFeeds (map lower_byte) shorter wit_catalog 1 (mkFeedsFilter q None 0 true) in
  (∃ rows v, search " a FE"%string = take 20 rows.*2 ∧ feed_view wit_catalog 1 1 = Some v ∧ (1, v) ∈ rows) ∧
  length (search " a FE"%string) = 1%nat ∧ search "a%f"%string = [] ∧ search "a"%string = [].
Proof.
  cbv zeta. split_and!; [|by vm_compute..|exact (feed_search_literal (map lower_byte) shorter wit_catalog 1 (mkFeedsFilter "a" None 0 true))].
  destruct (feed_search_literal (map lower_byte) shorter wit_catalog 1 (mkFeedsFilter " a FE" None 0 true)) as (rows & E & _ & _ & _ & H).
  exists rows. eexists. split; [exact E|]. split; [reflexivity|]. apply H. split_and!; [reflexivity|by left|done|]. intros _. left.
  exists [], (String.list_ascii_of_string "ed"). reflexivity.
Defined.
