(* ===== verification/Overviews.v ===== *)
(** What the pages about feeds count and list ([storage/admin_feeds.go], [storage/feed_counts.go]): the
    admin table with its filters and orders, the summary above it, the backlog of polls, feeds by type, and a user's counts by
    category and by trouble.  The collation of titles, PostgreSQL's row estimates and the size of the database are
    parameters or left out, like the offered polls per minute, a sum of fractions. *)

From S2P Require Import Prelude GoStrings Types FeedStore WebhookStore EntryStore Tables Catalog CatalogSpec Reading ReadingSpec SearchSpec.

(** * Health of a feed *)

Definition FeedTypeInbound : string := "inbound".
Definition LayoutErrorPrefix : string := "layout: ".

Section Health.
Context (now : Z) (r : FeedRow) (ps : PollState).

Definition paused : bool := ps_poll_paused ps || f_manual_paused r.
Definition erroring : bool := negb (String.eqb (ps_last_error ps) "") || (0 <? ps_parsing_error_count ps).
(** Never checked, or due again. *)
Definition check_due : bool := match ps_next_check_at ps with None => true | Some t => t <=? now end.

(** storage/admin_feeds.go:173-173 [adminFeedsHealthy] *)
Definition healthy : bool :=
  negb (ps_poll_paused ps) && negb (f_manual_paused r) && String.eqb (ps_last_error ps) "" && (ps_parsing_error_count ps =? 0).

(** The last new item, or the feed's creation. *)
Definition quiet_since : Z := default (f_created_at r) (ps_last_entry_at ps).

(** storage/admin_feeds.go:174-174 [adminFeedsInboundLate] *)
Definition inbound_late : bool := quiet_since <? now - f_interval_minutes r * minute.

(** storage/admin_feeds.go:175-177 [adminFeedsSilentInbound] *)
Definition silent_inbound : bool := String.eqb (f_type r) FeedTypeInbound && healthy && inbound_late.

(** storage/admin_feeds.go [adminFeedsSilentWhere] Of a number of seconds. *)
Definition silent (secs : Z) : bool :=
  healthy && if String.eqb (f_type r) FeedTypeInbound then inbound_late else (0 <? secs) && (quiet_since <? now - secs * second).

Definition layout_error : bool := has_prefix (ps_last_error ps) LayoutErrorPrefix.

(** storage/admin_feeds.go [adminFeedsStatusWhere] *)
Definition adminFeedsStatusWhere (status : string) (silentAfter : Z) : bool :=
  if String.eqb status "silent" then silent (Z.quot silentAfter second)
  else if String.eqb status "paused" then paused
  else if String.eqb status "errors" then erroring
  else if String.eqb status "layout" then layout_error
  else if String.eqb status "waiting" then healthy && check_due
  else if String.eqb status "ok" then healthy && negb check_due
  else true.

(** The rank of the status order. *)
Definition status_rank : Z := if paused then 1 else if erroring then 2 else if check_due then 3 else 4.
End Health.

(** * The admin table *)

(** storage/admin_feeds.go [AdminFeedRow] *)
Record AdminFeedRow := mkAdminFeed {
  ar_Feed : Feed; ar_more : FeedMore; ar_EntryCount : Z; ar_UnreadCount : Z; ar_SubscriberCount : Z; ar_InboundLate : bool;
}.

Definition count {A} (p : A → bool) (l : list A) : Z := Z.of_nat (length (filter (λ x, p x = true) l)).

(** An optional time: none comes before any. *)
Definition opt_le (a b : option Z) : Prop := match a, b with None, _ => True | Some x, Some y => x <= y | Some _, None => False end.
#[export] Instance opt_le_dec : RelDecision opt_le.
Proof. intros [x|] [y|]; cbn; apply _. Defined.

(** storage/admin_feeds.go [AdminFeedsListParams] *)
Record AdminFeedsListParams := mkAdminList {
  al_Status : string; al_SortKey : string; al_Order : string; al_Limit : Z; al_Offset : Z; al_SilentAfter : Z;
}.

Section Admin.
Context (title_le : relation string) `{!RelDecision title_le}.
Context (now : Z) (c : Catalog).

(** storage/admin_feeds.go:140-158 [adminFeedSelectCols, adminFeedFromJoins] *)
Definition admin_row (id : Z) (r : FeedRow) (ps : PollState) : option AdminFeedRow :=
  (λ m, mkAdminFeed (mkFeed r ps) m
     (count (λ kr, er_feed_id kr.2 =? id) (map_to_list (ed_entries (ct_entries c))))
     (count (λ kr, kr.2.1 =? id) (map_to_list (ed_unread (ct_entries c))))
     (count (λ kr, kr.1.2 =? id) (map_to_list (fd_subs (ct_feeds c))))
     (silent_inbound now r ps)) <$> ct_more c !! id.

Definition admin_rows (p : FeedRow → PollState → bool) : list (Z * AdminFeedRow) :=
  omap (λ '(id, (r, ps)), if p r ps then (λ row, (id, row)) <$> admin_row id r ps else None) (feedsFrom (ct_feeds c)).

(** storage/admin_feeds.go [PostgresStore.GetAdminFeedRow] *)
Definition GetAdminFeedRow (feedID : Z) : err + AdminFeedRow :=
  match fd_feeds (ct_feeds c) !! feedID, fd_poll (ct_feeds c) !! feedID with
  | Some r, Some ps => match admin_row feedID r ps with Some row => inr row | None => inl ENotFound end
  | _, _ => inl ENotFound
  end.

(** What a sort key compares; [None] stands for the title. *)
Definition sort_value (sortKey : string) (row : AdminFeedRow) : option (option Z) :=
  let f := ar_Feed row in
  if String.eqb sortKey "id" then Some (Some (f_id (feed_row f)))
  else if String.eqb sortKey "status" then Some (Some (status_rank now (feed_row f) (feed_ps f)))
  else if String.eqb sortKey "last_checked" then Some (ps_last_checked_at (feed_ps f))
  else if String.eqb sortKey "next_check" then Some (ps_next_check_at (feed_ps f))
  else if String.eqb sortKey "last_entry" then Some (ps_last_entry_at (feed_ps f))
  else if String.eqb sortKey "errors" then Some (Some (ps_parsing_error_count (feed_ps f)))
  else if String.eqb sortKey "entries" then Some (Some (ar_EntryCount row))
  else if String.eqb sortKey "unread" then Some (Some (ar_UnreadCount row))
  else None.

Definition row_le (sortKey : string) (x y : AdminFeedRow) : Prop :=
  match sort_value sortKey x, sort_value sortKey y with
  | Some a, Some b => opt_le a b
  | _, _ => title_le (f_title (feed_row (ar_Feed x))) (f_title (feed_row (ar_Feed y)))
  end.
#[export] Instance row_le_dec sortKey : RelDecision (row_le sortKey).
Proof. intros x y. unfold row_le. repeat case_match; apply _. Defined.

(** storage/admin_feeds.go [adminFeedsOrderClause] Rows without a time come first, or last when
    descending; ties go by number. *)
Definition admin_le (sortKey order : string) (x y : Z * AdminFeedRow) : Prop :=
  let le a b := if String.eqb order "desc" then row_le sortKey b a else row_le sortKey a b in
  le x.2 y.2 ∧ (le y.2 x.2 → x.1 <= y.1).
#[export] Instance admin_le_dec sortKey order : RelDecision (admin_le sortKey order).
Proof. intros x y. unfold admin_le. destruct (String.eqb order "desc"); apply _. Defined.

(** storage/admin_feeds.go [PostgresStore.ListAdminFeedsPage] *)
Definition ListAdminFeedsPage (p : AdminFeedsListParams) : list AdminFeedRow * Z :=
  let limit := if al_Limit p <=? 0 then 50 else al_Limit p in
  let limit := if 200 <? limit then 200 else limit in
  let offset := Z.max (al_Offset p) 0 in
  let status := if String.eqb (trim_space (al_Status p)) "" then "all"%string else trim_space (al_Status p) in
  let rows := admin_rows (λ r ps, adminFeedsStatusWhere now r ps status (al_SilentAfter p)) in
  let sorted := merge_sort (admin_le (trim_space (al_SortKey p)) (trim_space (al_Order p))) rows in
  (take (Z.to_nat limit) (drop (Z.to_nat offset) sorted.*2), Z.of_nat (length rows)).

(** storage/admin_feeds.go:22-40 [AdminFeedSummary] *)
Record AdminFeedSummary := mkSummary {
  sm_TotalFeeds : Z; sm_OKCount : Z; sm_ErrorCount : Z; sm_PausedCount : Z; sm_WaitingCount : Z; sm_SilentCount : Z;
  sm_TotalEntries : Z; sm_TotalUnread : Z; sm_TotalSubscriptions : Z; sm_TotalUserEntries : Z; sm_TotalCategoryFollows : Z;
}.

(** storage/admin_feeds.go [PostgresStore.AdminFeedSummary] [estimate] is what the statistics of a table say
    of its size. *)
Definition adminFeedSummary (estimate : string → Z) (silentAfter : Z) : AdminFeedSummary :=
  let secs := if 0 <? silentAfter then Z.quot silentAfter second else 0 in
  let feeds p := count (λ x : Z * (FeedRow * PollState), p x.2.1 x.2.2) (feedsFrom (ct_feeds c)) in
  mkSummary (feeds (λ _ _, true))
    (feeds (λ r ps, healthy r ps && negb (check_due now ps)))
    (feeds (λ _ ps, erroring ps))
    (feeds (λ r ps, paused r ps))
    (feeds (λ r ps, negb (ps_poll_paused ps) && negb (f_manual_paused r) && check_due now ps))
    (feeds (λ r ps, silent now r ps secs))
    (Z.max (estimate "entries"%string) 0)
    (Z.of_nat (size (ed_unread (ct_entries c))))
    (Z.of_nat (size (fd_subs (ct_feeds c))))
    (Z.max (estimate "user_entries"%string) 0)
    (Z.of_nat (size (fd_followers (ct_feeds c)))).

(** ** The backlog *)

(** storage/admin_feeds.go:42-53 [PollFeedJobCounts] The part the database counts; the lag in nanoseconds. *)
Record PollFeedJobCounts := mkJobs { jc_Pending : Z; jc_Overdue : Z; jc_MaxLag : Z }.

Definition lag (x : Z * (FeedRow * PollState)) : Z := now - default (f_created_at x.2.1) (ps_next_check_at x.2.2).
Definition max_lag (due : list (Z * (FeedRow * PollState))) : option Z :=
  foldr (λ x acc, Some (match acc with Some m => Z.max (lag x) m | None => lag x end)) None due.

(** storage/admin_feeds.go [PostgresStore.PollFeedJobCounts] *)
Definition pollFeedJobCounts : PollFeedJobCounts :=
  let due := filter (λ x : Z * (FeedRow * PollState), pollable (ct_feeds c) x.1 x.2.1 x.2.2 && check_due now x.2.2 = true) (feedsFrom (ct_feeds c)) in
  mkJobs (Z.of_nat (length due)) (Z.of_nat (length due)) (default 0 (max_lag due)).

(** ** By type *)

(** storage/admin_feeds.go [FeedTypeStat] *)
Record FeedTypeStat := mkTypeStat { fs_FeedType : string; fs_Total : Z; fs_Layout : Z; fs_LayoutMarker : string; fs_LayoutAt : option Z }.

(** [max] of texts and of optional times. *)
Definition max_text (l : list string) : option string :=
  foldr (λ s acc, Some (match acc with Some m => if decide (title_le m s) then s else m | None => s end)) None l.
Definition max_time (l : list (option Z)) : option Z :=
  foldr (λ t acc, match t, acc with Some x, Some m => Some (Z.max x m) | None, _ => acc | _, None => t end) None l.

(** storage/admin_feeds.go [PostgresStore.FeedTypeStats] *)
Definition FeedTypeStats : list FeedTypeStat :=
  let rows := (feedsFrom (ct_feeds c)).*2 in
  (λ t,
     let mine := filter (λ x : FeedRow * PollState, f_type x.1 = t) rows in
     let broken := filter (λ x : FeedRow * PollState, layout_error x.2 = true) mine in
     mkTypeStat t (Z.of_nat (length mine)) (Z.of_nat (length broken))
       (trim_prefix (default ""%string (max_text ((λ x, ps_last_error x.2) <$> broken))) LayoutErrorPrefix)
       (max_time ((λ x, ps_last_checked_at x.2) <$> broken)))
  <$> elements (list_to_set ((λ x, f_type x.1) <$> rows) : gset string).

(** * A user's counts *)

(** storage/feed_counts.go [FeedCategoryCounts] *)
Record FeedCategoryCounts := mkCatCounts { fc_ByCategory : gmap Z Z; fc_Uncategorized : Z; fc_Total : Z }.

(** One row of the grouped query. *)
Definition add_category_count (out : FeedCategoryCounts) (row : option Z * Z) : FeedCategoryCounts :=
  match row.1 with
  | None => mkCatCounts (fc_ByCategory out) row.2 (fc_Total out + row.2)
  | Some k => mkCatCounts (<[k := row.2]> (fc_ByCategory out)) (fc_Uncategorized out) (fc_Total out + row.2)
  end.

(** The feeds [u] reads. *)
Definition read_feeds (u : Z) : list (Z * FeedRow) :=
  filter (λ kr : Z * FeedRow, reads (ct_feeds c) u kr.1 = true) (map_to_list (fd_feeds (ct_feeds c))).

(** storage/feed_counts.go:15-47 [PostgresStore.FeedCountsByCategory, feedCountsByCategory] *)
Definition FeedCountsByCategory (u : Z) : FeedCategoryCounts :=
  let cats := (λ kr : Z * FeedRow, f_category_id kr.2) <$> read_feeds u in
  foldl add_category_count (mkCatCounts ∅ 0 0)
    ((λ k, (k, Z.of_nat (length (filter (λ k', k' = k) cats)))) <$> elements (list_to_set cats : gset (option Z))).

(** In trouble: in error or not polled. *)
Definition troubled_feed (r : FeedRow) (ps : PollState) : bool := erroring ps || paused r ps.

Definition status_rows (u : Z) (p : FeedRow → PollState → bool) : list (Z * FeedView) :=
  map_to_list (view_rows c u (λ v, fv_subscribed v && p (feed_row (fv_feed v)) (feed_ps (fv_feed v)))).

(** storage/feed_counts.go [PostgresStore.CountFeedStatuses] In error or paused, and paused. *)
Definition CountFeedStatuses (u : Z) : Z * Z :=
  (Z.of_nat (length (status_rows u troubled_feed)), Z.of_nat (length (status_rows u paused))).

(** storage/feed_counts.go [PostgresStore.ListFeedsByStatus] *)
Definition ListFeedsByStatus (u : Z) (status : string) (limit offset : Z) : list FeedView * Z :=
  let rows := status_rows u (if String.eqb status "inactive" then paused else troubled_feed) in
  let limit := if limit <=? 0 then 50 else limit in
  let offset := if offset <? 0 then 0 else offset in
  let page := take (Z.to_nat limit) (drop (Z.to_nat offset) (merge_sort (by_title title_le) rows).*2) in
  (page, match page with [] => 0 | _ => Z.of_nat (length rows) end).

End Admin.

(** * Counting *)

Lemma count_split {A} (p q : A → bool) l : count p l = count (λ x, p x && q x) l + count (λ x, p x && negb (q x)) l.
Proof.
  unfold count. induction l as [|x l IH]; [done|]. rewrite !filter_cons.
  destruct (p x), (q x); cbn [andb negb]; repeat case_decide; try done; cbn [length]; lia.
Qed.

Lemma count_ext {A} (p q : A → bool) l : (∀ x, x ∈ l → p x = q x) → count p l = count q l.
Proof.
  intros H. unfold count. f_equal. f_equal. induction l as [|x l IH]; [done|]. rewrite !filter_cons, (H x) by left.
  rewrite IH by (intros y Hy; apply H; by right). done.
Qed.

Section Counts.
Context (title_le : relation string) `{!RelDecision title_le} (key : string → string) (now : Z) (c : Catalog) (W : catalog_wf key c).

Lemma admin_rows_length p : Z.of_nat (length (admin_rows now c p)) = count (λ x : Z * (FeedRow * PollState), p x.2.1 x.2.2) (feedsFrom (ct_feeds c)).
Proof.
  unfold admin_rows, count. f_equal.
  assert (H : ∀ x, x ∈ feedsFrom (ct_feeds c) → is_Some (ct_more c !! x.1)).
  { intros [id [r ps]] E. apply feedsFrom_elem in E as [E _]. by apply (cw_more _ _ W). }
  induction (feedsFrom (ct_feeds c)) as [|[id [r ps]] l IH]; [done|]. rewrite filter_cons. cbn [omap list_omap fst snd].
  destruct (H (id, (r, ps)) (list_elem_of_here _ _)) as [m M]. cbn [fst] in M.
  destruct (admin_row now c id r ps) as [row|] eqn:R; [|unfold admin_row in R; by rewrite M in R]. cbn [fmap option_fmap option_map].
  destruct (p r ps); case_decide; try done; cbn [length]; rewrite IH; try done; intros y Hy; apply H; by right.
Qed.

Lemma page_total p : (ListAdminFeedsPage title_le now c p).2 =
  count (λ x : Z * (FeedRow * PollState), adminFeedsStatusWhere now x.2.1 x.2.2
    (if String.eqb (trim_space (al_Status p)) "" then "all"%string else trim_space (al_Status p)) (al_SilentAfter p)) (feedsFrom (ct_feeds c)).
Proof. unfold ListAdminFeedsPage. cbn [snd]. apply admin_rows_length. Qed.

Lemma healthy_sound r ps : 0 <= ps_parsing_error_count ps → healthy r ps = negb (paused r ps) && negb (erroring ps).
Proof.
  intros H. unfold healthy, paused, erroring. rewrite !negb_orb, negb_involutive, <- !andb_assoc. do 3 f_equal.
  destruct (ps_parsing_error_count ps =? 0) eqn:E, (0 <? ps_parsing_error_count ps) eqn:F; try done; bool_to_prop; lia.
Qed.
Lemma silent_never r ps a b : a <= 0 → b <= 0 → silent now r ps a = silent now r ps b.
Proof. intros A B. unfold silent. by rewrite (proj2 (Z.ltb_ge 0 a) A), (proj2 (Z.ltb_ge 0 b) B). Qed.
End Counts.

(** The summary of the feeds page counts what its filters list.  For every order and page, the
    total of the list of feeds that are fine, in error, paused or silent is the number the summary shows,
    and the total of the unfiltered list the number of feeds; every feed is either paused, in error,
    waiting or fine.  The number of waiting feeds is the exception: it also counts the
    erring feeds whose next check has come, which the list of waiting feeds leaves to the list of errors. *)
Lemma admin_summary_matches_lists (title_le : relation string) `{!RelDecision title_le} (key : string → string) (now : Z) (c : Catalog)
  (estimate : string → Z) (sortKey order : string) (limit offset silentAfter : Z)
  (W : catalog_wf key c) (N : ∀ id ps, fd_poll (ct_feeds c) !! id = Some ps → 0 <= ps_parsing_error_count ps) :
  let sum := adminFeedSummary now c estimate silentAfter in
  let total status := (ListAdminFeedsPage title_le now c (mkAdminList status sortKey order limit offset silentAfter)).2 in
  let feeds p := count (λ x : Z * (FeedRow * PollState), p x.2.1 x.2.2) (feedsFrom (ct_feeds c)) in
  total "ok" = sm_OKCount sum ∧ total "errors" = sm_ErrorCount sum ∧ total "paused" = sm_PausedCount sum ∧
  total "silent" = sm_SilentCount sum ∧ total "" = sm_TotalFeeds sum ∧
  sm_TotalFeeds sum = sm_PausedCount sum + feeds (λ r ps, erroring ps && negb (paused r ps)) + total "waiting" + sm_OKCount sum ∧
  sm_WaitingCount sum = total "waiting" + feeds (λ r ps, erroring ps && negb (paused r ps) && check_due now ps).
Proof.
  cbv beta zeta. rewrite !(page_total _ key now c W). unfold adminFeedSummary.
  cbn [sm_OKCount sm_ErrorCount sm_PausedCount sm_SilentCount sm_TotalFeeds sm_WaitingCount al_Status al_SilentAfter].
  change (if String.eqb (trim_space "silent") "" then "all"%string else trim_space "silent") with "silent"%string.
  change (if String.eqb (trim_space "waiting") "" then "all"%string else trim_space "waiting") with "waiting"%string.
  set (rows := feedsFrom (ct_feeds c)).
  assert (H : ∀ x, x ∈ rows → healthy x.2.1 x.2.2 = negb (paused x.2.1 x.2.2) && negb (erroring x.2.2)).
  { intros [id [r ps]] E. apply feedsFrom_elem in E as [_ E]. by apply healthy_sound, (N id). }
  split_and!.
  - done.
  - done.
  - done.
  - apply count_ext. intros x _. change (adminFeedsStatusWhere now x.2.1 x.2.2 "silent" silentAfter) with (silent now x.2.1 x.2.2 (Z.quot silentAfter second)).
    destruct (0 <? silentAfter) eqn:E; [done|]. apply silent_never; [|done]. bool_to_prop. apply Z.quot_le_upper_bound; unfold second; lia.
  - done.
  - rewrite (count_split _ (λ x, paused x.2.1 x.2.2)). rewrite <- Z.add_assoc, <- Z.add_assoc. f_equal.
    rewrite (count_split _ (λ x, erroring x.2.2)). f_equal; [by apply count_ext; intros; cbn; rewrite andb_comm|].
    rewrite (count_split _ (λ x, check_due now x.2.2)). f_equal; apply count_ext; intros x Hx; cbn; rewrite <- H by done; done.
  - rewrite (count_split _ (λ x, erroring x.2.2)), Z.add_comm. f_equal; apply count_ext; intros x Hx.
    + change (adminFeedsStatusWhere now x.2.1 x.2.2 "waiting" silentAfter) with (healthy x.2.1 x.2.2 && check_due now x.2.2).
      rewrite H by done. unfold paused. destruct (ps_poll_paused _), (f_manual_paused _), (erroring _), (check_due _ _); done.
    + unfold paused. destruct (ps_poll_paused _), (f_manual_paused _), (erroring _), (check_due _ _); done.
Qed.

(** ** The backlog *)

Definition due_feeds (now : Z) (db : FeedDb) : list (Z * (FeedRow * PollState)) :=
  filter (λ x : Z * (FeedRow * PollState), pollable db x.1 x.2.1 x.2.2 && check_due now x.2.2 = true) (feedsFrom db).

Lemma due_rows_feeds now db : due_rows now db [] [] = (λ x, due_row x.1 x.2.1 x.2.2) <$> due_feeds now db.
Proof.
  unfold due_rows, due_feeds. induction (feedsFrom db) as [|[id [r ps]] l IH]; [done|]. rewrite filter_cons. cbn [omap list_omap fst snd].
  unfold due_now at 1, excluded, check_due at 1. rewrite (bool_decide_eq_false_2 (id ∈ [])), (bool_decide_eq_false_2 (f_type r ∈ [])) by apply not_elem_of_nil.
  cbn [orb negb]. rewrite andb_true_r. destruct (_ && _) eqn:E; case_decide; try congruence; cbn [fmap list_fmap fst snd]; by rewrite IH.
Qed.

(** The lag of a list of due feeds is that of the least due time. *)
Lemma max_lag_spec now (l : list (Z * (FeedRow * PollState))) :
  max_lag now l = (λ m, now - m) <$> foldr (λ t acc, Some (match acc with Some m => Z.min t m | None => t end)) None
    (df_due_at <$> ((λ x : Z * (FeedRow * PollState), due_row x.1 x.2.1 x.2.2) <$> l)).
Proof.
  unfold max_lag. induction l as [|x l IH]; [done|]. cbn [foldr fmap list_fmap]. rewrite IH. unfold lag.
  change (df_due_at (due_row x.1 x.2.1 x.2.2)) with (default (f_created_at x.2.1) (ps_next_check_at x.2.2)).
  clear IH. destruct (foldr _ None _) as [m|]; cbn [fmap option_fmap option_map]; f_equal. lia.
Qed.

(** The backlog shown is the work there is.  The number of pending polls is the number of
    feeds the dispatcher would be given with no limit and nothing excluded, and the greatest lag is that of
    the feed it would be given first; without one it is zero. *)
Lemma poll_backlog_is_due (now : Z) (c : Catalog) (limit : Z) (L : 0 < limit) :
  let jobs := pollFeedJobCounts now c in let due := ListFeedsDue now (ct_feeds c) limit [] [] in
  jc_Overdue jobs = jc_Pending jobs ∧ Z.of_nat (length due) = Z.min limit (jc_Pending jobs) ∧
  jc_MaxLag jobs = match due with d :: _ => now - df_due_at d | [] => 0 end.
Proof.
  cbv zeta. rewrite ListFeedsDue_eq, due_rows_feeds by done. unfold pollFeedJobCounts. fold (due_feeds now (ct_feeds c)). cbn [jc_Overdue jc_Pending jc_MaxLag].
  set (rows := (λ x, due_row x.1 x.2.1 x.2.2) <$> due_feeds now (ct_feeds c)).
  assert (P : merge_sort due_le rows ≡ₚ rows) by apply merge_sort_Permutation. split_and!; [done| |].
  - rewrite length_take, (Permutation_length P). unfold rows. rewrite length_fmap. lia.
  - rewrite max_lag_spec. fold rows. pose proof (foldr_min_spec (df_due_at <$> rows)) as M. destruct (foldr _ None _) as [m|]; cbn [fmap option_fmap option_map default].
    + destruct M as [(d & -> & Hd)%list_elem_of_fmap M]. pose proof (StronglySorted_merge_sort due_le rows) as S.
      destruct (merge_sort due_le rows) as [|d' l] eqn:E; [apply Permutation_nil_l in P; rewrite <- P in Hd; by apply elem_of_nil in Hd|].
      destruct (Z.to_nat limit) as [|n] eqn:T; [lia|]. cbn [take]. unfold id. f_equal. apply Z.le_antisymm.
      * apply M. apply list_elem_of_fmap. exists d'. split; [done|]. rewrite <- P. left.
      * rewrite <- P in Hd. apply elem_of_cons in Hd as [->|Hd]; [done|]. inversion S as [|? ? _ F]. rewrite Forall_forall in F. apply F in Hd. unfold due_le in Hd. lia.
    + apply fmap_nil_inv in M. assert (merge_sort due_le rows = []) as -> by (apply Permutation_nil_r; by rewrite P, M). by rewrite take_nil.
Qed.

(** ** Sums over groups *)

Definition zsum (l : list Z) : Z := foldr Z.add 0 l.

Lemma zsum_group {A K} `{EqDecision K} (f : A → K) (ks : list K) (l : list A) : NoDup ks →
  zsum ((λ k, count (λ x, bool_decide (f x = k)) l) <$> ks) = count (λ x, bool_decide (f x ∈ ks)) l.
Proof.
  induction 1 as [|k ks N ND IH].
  - cbn. unfold count. induction l as [|x l IH]; [done|]. rewrite filter_cons, bool_decide_eq_false_2 by apply not_elem_of_nil. done.
  - cbn [fmap list_fmap zsum foldr]. fold (zsum ((λ k, count (λ x, bool_decide (f x = k)) l) <$> ks)). rewrite IH.
    rewrite (count_split (λ x, bool_decide (f x ∈ k :: ks)) (λ x, bool_decide (f x = k))). f_equal; apply count_ext; intros x _; apply eq_true_iff_eq;
      rewrite andb_true_iff, ?negb_true_iff, ?bool_decide_eq_true, ?bool_decide_eq_false, elem_of_cons; intuition congruence.
Qed.

Lemma count_all {A} (p : A → bool) l : (∀ x, x ∈ l → p x = true) → count p l = Z.of_nat (length l).
Proof. intros H. unfold count. f_equal. induction l as [|x l IH]; [done|]. rewrite filter_cons, H by left. rewrite decide_True by done. cbn [length]. rewrite IH; [done|]. intros y Hy. apply H. by right. Qed.

(** The totals of the two lists of feeds in trouble are the counts beside them. *)
Lemma status_counts_are_totals (title_le : relation string) `{!RelDecision title_le} c u limit :
  CountFeedStatuses c u = ((ListFeedsByStatus title_le c u "errors" limit 0).2, (ListFeedsByStatus title_le c u "inactive" limit 0).2).
Proof.
  assert (H : ∀ rows : list (Z * FeedView), Z.of_nat (length rows) =
    match take (Z.to_nat (if limit <=? 0 then 50 else limit)) (drop (Z.to_nat 0) (merge_sort (by_title title_le) rows).*2) with [] => 0 | _ => Z.of_nat (length rows) end).
  { intros rows. pose proof (merge_sort_Permutation (by_title title_le) rows) as P. destruct (merge_sort _ rows) as [|x l].
    - apply Permutation_length in P. cbn [length] in P. rewrite <- P. change (drop (Z.to_nat 0) ([] : list (Z * FeedView)).*2) with ([] : list FeedView). by destruct (Z.to_nat _).
    - destruct (Z.to_nat (if limit <=? 0 then 50 else limit)) eqn:E; [destruct (limit <=? 0) eqn:F; bool_to_prop; lia|done]. }
  unfold CountFeedStatuses, ListFeedsByStatus. cbn [snd]. f_equal; apply H.
Qed.

(** How many of [feeds] are in a category, or in none. *)
Definition in_cat (feeds : list (Z * FeedRow)) (k : option Z) : Z := count (λ kr, bool_decide (f_category_id kr.2 = k)) feeds.

Lemma category_row feeds k :
  Z.of_nat (length (filter (λ k', k' = k) ((λ kr : Z * FeedRow, f_category_id kr.2) <$> feeds))) = in_cat feeds k.
Proof.
  unfold in_cat, count. f_equal. induction feeds as [|x l IH]; [done|]. rewrite fmap_cons, !filter_cons.
  destruct (decide (f_category_id x.2 = k)) as [E|E]; [rewrite !decide_True by (try done; by apply bool_decide_eq_true_2)|
    rewrite !decide_False by (try done; rewrite bool_decide_eq_true; done)]; cbn [length]; by rewrite IH.
Qed.

(** Rows of different categories are added up side by side. *)
Lemma add_counts (n : option Z → Z) ks out : NoDup ks →
  let out' := foldl add_category_count out ((λ k, (k, n k)) <$> ks) in
  fc_Total out' = fc_Total out + zsum (n <$> ks) ∧
  fc_Uncategorized out' = (if bool_decide (None ∈ ks) then n None else fc_Uncategorized out) ∧
  ∀ k, fc_ByCategory out' !! k = if bool_decide (Some k ∈ ks) then Some (n (Some k)) else fc_ByCategory out !! k.
Proof.
  revert out. induction ks as [|k ks IH]; intros out ND; cbv zeta; [cbn; split_and!; [lia|done|done]|].
  apply NoDup_cons in ND as [Nk ND]. cbn [fmap list_fmap foldl]. destruct (IH (add_category_count out (k, n k)) ND) as (A & B & C).
  rewrite A, B. split_and!.
  - cbn [zsum foldr]. fold (zsum (n <$> ks)). destruct k; cbn; lia.
  - destruct k as [k|]; cbn.
    + rewrite (bool_decide_ext (None ∈ Some k :: ks) (None ∈ ks)); [done|]. rewrite elem_of_cons. intuition congruence.
    + rewrite bool_decide_eq_false_2 by done. by rewrite bool_decide_eq_true_2 by left.
  - intros j. rewrite C. destruct (bool_decide (Some j ∈ ks)) eqn:E.
    + rewrite bool_decide_eq_true_2; [done|]. right. by apply bool_decide_eq_true in E.
    + apply bool_decide_eq_false in E. destruct k as [k|]; cbn.
      * destruct (decide (k = j)) as [->|Nj]; [by rewrite lookup_insert_eq, bool_decide_eq_true_2 by left|].
        rewrite lookup_insert_ne, bool_decide_eq_false_2 by (try done; rewrite elem_of_cons; intuition congruence). done.
      * rewrite bool_decide_eq_false_2 by (rewrite elem_of_cons; intuition congruence). done.
Qed.

Lemma in_cat_elem feeds k : in_cat feeds k ≠ 0 → k ∈ (λ kr : Z * FeedRow, f_category_id kr.2) <$> feeds.
Proof.
  intros N. destruct (decide (k ∈ (λ kr : Z * FeedRow, f_category_id kr.2) <$> feeds)) as [|H]; [done|]. destruct N. unfold in_cat, count.
  assert (filter (λ x : Z * FeedRow, bool_decide (f_category_id x.2 = k) = true) feeds = []) as ->; [|done].
  apply elem_of_nil_inv. intros x Hx. apply list_elem_of_filter in Hx as [Hk Hx]. apply bool_decide_eq_true in Hk. destruct H.
  apply list_elem_of_fmap. by exists x.
Qed.

(** A user's counts by category are those of the feeds they read, and the total is their number. *)
Lemma category_counts_spec c u :
  let out := FeedCountsByCategory c u in let feeds := read_feeds c u in
  fc_Total out = Z.of_nat (length feeds) ∧ fc_Uncategorized out = in_cat feeds None ∧
  ∀ k, default 0 (fc_ByCategory out !! k) = in_cat feeds (Some k).
Proof.
  cbv zeta. unfold FeedCountsByCategory. set (feeds := read_feeds c u). set (cats := (λ kr : Z * FeedRow, f_category_id kr.2) <$> feeds).
  set (ks := elements (list_to_set cats : gset (option Z))).
  assert (R : ((λ k, (k, Z.of_nat (length (filter (λ k', k' = k) cats)))) <$> ks) = (λ k, (k, in_cat feeds k)) <$> ks).
  { apply list_fmap_ext. intros _ k _. f_equal. apply category_row. }
  assert (In : ∀ k, in_cat feeds k ≠ 0 → k ∈ ks) by (intros k Hn; by apply elem_of_elements, elem_of_list_to_set, in_cat_elem).
  cbv zeta. rewrite R. destruct (add_counts (in_cat feeds) ks (mkCatCounts ∅ 0 0) (NoDup_elements _)) as (A & B & C). split_and!.
  - rewrite A. cbn [fc_Total]. unfold in_cat. rewrite (zsum_group (λ kr : Z * FeedRow, f_category_id kr.2)) by apply NoDup_elements. rewrite count_all; [lia|].
    intros x Hx. apply bool_decide_eq_true_2, elem_of_elements, elem_of_list_to_set, list_elem_of_fmap. by exists x.
  - rewrite B. destruct (bool_decide (None ∈ ks)) eqn:E; [done|]. apply bool_decide_eq_false in E. cbn [fc_Uncategorized].
    destruct (decide (in_cat feeds None = 0)) as [->|H]; [done|]. by destruct (E (In _ H)).
  - intros k. rewrite C. destruct (bool_decide (Some k ∈ ks)) eqn:E; [done|]. apply bool_decide_eq_false in E. cbn [fc_ByCategory]. rewrite lookup_empty.
    cbn [default]. destruct (decide (in_cat feeds (Some k) = 0)) as [H|H]; [by rewrite H|]. by destruct (E (In _ H)).
Qed.

(** * On concrete tables *)

(** The feed of [wit_catalog], whose last poll failed an hour before the next is due. *)
Definition wit_failing : Catalog :=
  with_tables wit_catalog
    ((RecordFeedPollFailure (ct_feeds wit_catalog) (mkFailureParams 1 "timeout" 10 50 100 None)).1, ct_entries wit_catalog).

Lemma admin_summary_matches_lists_witness :
  let total now status := (ListAdminFeedsPage String.le now wit_failing (mkAdminList status "title" "" 10 0 0)).2 in
  sm_WaitingCount (adminFeedSummary 200 wit_failing (λ _, 0) 0) = 1 ∧ total 200 "waiting"%string = 0 ∧ total 200 "errors"%string = 1.
Proof.
  assert (W : catalog_wf id wit_failing).
  { apply (wf_poll_and_hours id wit_catalog (fd_cats (ct_feeds wit_catalog)) (fd_poll (ct_feeds wit_failing)) wit_catalog_wf); [done|].
    intros i. unfold wit_failing, RecordFeedPollFailure, update_ps. cbn [rf_id]. destruct (fd_poll (ct_feeds wit_catalog) !! 1) as [ps|] eqn:E; [|done].
    cbn [fst with_tables ct_feeds with_poll fd_poll]. destruct (decide (i = 1)) as [->|Ni]; [rewrite lookup_insert_eq, E|by rewrite lookup_insert_ne].
    split; by eexists. }
  destruct (admin_summary_matches_lists String.le id 200 wit_failing (λ _, 0) "title" "" 10 0 0 W) as (_ & E & _ & _ & _ & _ & Wt).
  { intros i ps H. apply elem_of_map_to_list in H. vm_compute in H. apply elem_of_cons in H as [[= -> ->]|H]; [done|by apply elem_of_nil in H]. }
  cbv zeta. rewrite Wt, E. by vm_compute.
Defined.

Lemma poll_backlog_is_due_witness :
  pollFeedJobCounts 200 wit_failing = mkJobs 1 1 100 ∧ jc_MaxLag (pollFeedJobCounts 200 wit_failing) = 100.
Proof.
  split; [by vm_compute|]. destruct (poll_backlog_is_due 200 wit_failing 5) as (_ & _ & ->); [lia|]. by vm_compute.
Defined.
