(* ===== verification/HookOverview.v ===== *)
(** What the pages about webhooks show ([storage/admin_webhooks.go]): each webhook with its counters, its queue and
    what is bound to it, the summary, the deliveries of one webhook with what
    triggered them, and the two buttons: retry everything, reset the counters.  The
    times of a delivery row are given beside the rows of [WebhookStore.v]; the times among the
    persistent counters are left out. *)

From S2P Require Import Prelude GoStrings Types FeedStore WebhookStore EntryStore Tables FilterStore Catalog Reading Overviews.

Definition hour24 : Z := 24 * hour.

Section Views.
(** [updated_at] and [created_at] of a delivery row. *)
Context (now : Z) (updated_at created_at : Z → Z).
Context (hooks : HookDb) (feeds : FeedDb) (entries : gmap Z EntryRow) (filters : FilterDb).

Definition log_list : list WLog := (map_to_list (hd_logs hooks)).*2.

Definition sent_24h (l : WLog) : bool := bool_decide (wl_status l = Sent) && (now - hour24 <=? updated_at (wl_id l)).
(** Waiting to be sent, or failed and due again. *)
Definition queue_due (l : WLog) : bool :=
  bool_decide (wl_status l = Pending) ||
  (bool_decide (wl_status l = Failed) && match wl_next_retry_at l with None => true | Some t => t <=? now end).
Definition retrying (l : WLog) : bool :=
  bool_decide (wl_status l = Failed) && match wl_next_retry_at l with None => false | Some t => now <? t end.

(** storage/admin_feeds.go [PostgresStore.DueWebhookLogCount] *)
Definition DueWebhookLogCount : Z := count queue_due log_list.

(** ** Bindings *)

(** [action_param ~ '^[0-9]+$'] *)
Definition all_digits (s : string) : bool :=
  negb (String.eqb s "") && forallb is_digit (String.list_ascii_of_string s).

(** [action_param::bigint] of digits. *)
Definition cast_bigint (s : string) : err + Z :=
  match digits_val 0 s with
  | Some n => if n <? 2 ^ 63 then inr n else inl (EMsg "value is out of range for type bigint")
  | None => inl (EMsg "invalid input syntax for type bigint")
  end.

(** The webhook actions of all filters, as the grouped subquery reads them: webhook and filter. *)
Fixpoint action_targets (rows : list ActionRow) : err + list (Z * Z) :=
  match rows with
  | [] => inr []
  | a :: rows =>
      if String.eqb (ac_ActionType a) "webhook" && all_digits (ac_ActionParam a) then
        match cast_bigint (ac_ActionParam a), action_targets rows with
        | inr w, inr l => inr ((w, ac_FilterID a) :: l)
        | inl e, _ | _, inl e => inl e
        end
      else action_targets rows
  end.

Definition bound_filters (targets : list (Z * Z)) (w : Z) : Z :=
  Z.of_nat (size (list_to_set (filter (λ x : Z * Z, x.1 = w) targets).*2 : gset Z)).

(** ** The table of webhooks *)

(** storage/admin_webhooks.go [AdminWebhookRow] *)
Record AdminWebhookRow := mkAdminHook {
  aw_ID : Z; aw_Webhook : Webhook; aw_SentCount : Z; aw_Sent24h : Z; aw_FailedCount : Z; aw_QueueDueCount : Z; aw_RetryingCount : Z;
  aw_LastError : option string; aw_FeedBindingCount : Z; aw_FilterBindingCount : Z;
}.

Definition logs_of (w : Z) : list WLog := filter (λ l, wl_webhook_id l = w) log_list.

Definition hook_row (targets : list (Z * Z)) (w : Z) (h : Webhook) : AdminWebhookRow :=
  mkAdminHook w h (wh_sent_total h) (count sent_24h (logs_of w)) (wh_failed_total h) (count queue_due (logs_of w)) (count retrying (logs_of w))
    (wh_last_error h) (count (λ kv : (Z * Z) * option Z, bool_decide (kv.2 = Some w)) (map_to_list (fd_subs feeds)))
    (bound_filters targets w).

(** The webhooks of a user, the newest first. *)
Definition user_hooks (u : Z) : list (Z * Webhook) :=
  merge_sort id_desc (map_to_list (filter (λ kv : Z * Webhook, wh_user_id kv.2 = u) (hd_webhooks hooks))).

(** storage/admin_webhooks.go:80-171 [PostgresStore.ListAdminWebhooks] With no webhook there is nothing to join
    and the subqueries need not run. *)
Definition ListAdminWebhooks (u : Z) : err + list AdminWebhookRow :=
  match user_hooks u with
  | [] => inr []
  | mine =>
      match action_targets (map_to_list (t_rows (fb_actions filters))).*2 with
      | inl e => inl (EWrap "list admin webhooks" e)
      | inr targets => inr ((λ kv, hook_row targets kv.1 kv.2) <$> mine)
      end
  end.

(** storage/admin_webhooks.go:33-42 [AdminWebhookSummary] *)
Record AdminWebhookSummary := mkHookSummary {
  hs_TotalWebhooks : Z; hs_EnabledCount : Z; hs_DisabledCount : Z; hs_Sent24h : Z; hs_QueueDueTotal : Z; hs_FailedTotal : Z;
}.

(** The delivery rows of a user's webhooks. *)
Definition owned_by (u w : Z) : bool := match hd_webhooks hooks !! w with Some h => wh_user_id h =? u | None => false end.
Definition logs_of_user (u : Z) : list WLog := filter (λ l, owned_by u (wl_webhook_id l) = true) log_list.

(** storage/admin_webhooks.go [PostgresStore.AdminWebhookSummary] *)
Definition adminWebhookSummary (u : Z) : AdminWebhookSummary :=
  let mine := (map_to_list (filter (λ kv : Z * Webhook, wh_user_id kv.2 = u) (hd_webhooks hooks))).*2 in
  mkHookSummary (Z.of_nat (length mine)) (count wh_enabled mine) (count (λ h, negb (wh_enabled h)) mine)
    (count sent_24h (logs_of_user u)) (count queue_due (logs_of_user u)) (zsum (wh_failed_total <$> mine)).

(** storage/admin_webhooks.go [PostgresStore.GetAdminWebhook] *)
Definition GetAdminWebhook (u webhookID : Z) : err + AdminWebhookRow :=
  match ListAdminWebhooks u with
  | inl e => inl e
  | inr rows => match list_find (λ r, aw_ID r = webhookID) rows with Some (_, r) => inr r | None => inl ENotFound end
  end.

(** storage/admin_webhooks.go [PostgresStore.ListWebhookBindingFeeds] Number and title. *)
Definition ListWebhookBindingFeeds (title_le : relation (Z * string)) `{!RelDecision title_le} (u webhookID : Z) : list (Z * string) :=
  merge_sort title_le
    (omap (λ kr : Z * FeedRow, if decide (fd_subs feeds !! (u, kr.1) = Some (Some webhookID)) then Some (kr.1, f_title kr.2) else None)
       (map_to_list (fd_feeds feeds))).

(** storage/admin_webhooks.go [PostgresStore.ListWebhookBindingFilters] Number and name. *)
Definition ListWebhookBindingFilters (name_le : relation (Z * string)) `{!RelDecision name_le} (u webhookID : Z) : list (Z * string) :=
  let bound id := existsb (λ a, (ac_FilterID a =? id) && String.eqb (ac_ActionType a) "webhook" && String.eqb (ac_ActionParam a) (format_int webhookID))
                    (map_to_list (t_rows (fb_actions filters))).*2 in
  merge_sort name_le
    (omap (λ kr : Z * FilterRow, if (ft_UserID kr.2 =? u) && bound kr.1 then Some (kr.1, ft_Name kr.2) else None)
       (map_to_list (t_rows (fb_filters filters)))).

(** ** The deliveries of a webhook *)

(** storage/admin_webhooks.go [WebhookLogRow] *)
Record WebhookLogRow := mkLogRow {
  lr_Log : WLog; lr_EntryTitle : string; lr_FeedID : Z; lr_FeedTitle : string; lr_TriggerSource : string; lr_FilterName : string;
}.

(** storage/admin_webhooks.go [normalizeWebhookLogStatusFilter] *)
Definition normalizeWebhookLogStatusFilter (status : string) : option log_status :=
  if String.eqb status "pending" then Some Pending
  else if String.eqb status "sent" then Some Sent
  else if String.eqb status "failed" then Some Failed
  else if String.eqb status "dead" then Some Dead
  else None.

(** The matches of an entry by filters that send it to a webhook, with the filter. *)
Definition triggers (w e : Z) : list (Z * MatchRow) :=
  filter (λ im : Z * MatchRow, mt_EntryID im.2 = e ∧
    existsb (λ a, (ac_FilterID a =? mt_FilterID im.2) && String.eqb (ac_ActionType a) "webhook" && String.eqb (ac_ActionParam a) (format_int w))
      (map_to_list (t_rows (fb_actions filters))).*2 = true) (map_to_list (t_rows (fb_matches filters))).

(** [ORDER BY matched_at DESC, id DESC LIMIT 1], among the filters that exist. *)
Definition latest_trigger (w e : Z) : option (Z * MatchRow) :=
  head (merge_sort (key_ge mt_MatchedAt) (filter (λ im : Z * MatchRow, is_Some (t_rows (fb_filters filters) !! mt_FilterID im.2)) (triggers w e))).

(** [COALESCE(wl.feed_id, e.feed_id)]: a row has its feed. *)
Definition log_row (l : WLog) : WebhookLogRow :=
  let f := fd_feeds feeds !! wl_feed_id l in
  mkLogRow l (match entries !! wl_entry_id l with Some r => er_title r | None => "" end)
    (match f with Some _ => wl_feed_id l | None => 0 end)
    (match f with Some r => f_title r | None => "" end)
    (match triggers (wl_webhook_id l) (wl_entry_id l) with
     | _ :: _ => "filter"
     | [] =>
         match f with
         | Some _ => if decide (map_Exists (λ k v, k.2 = wl_feed_id l ∧ v = Some (wl_webhook_id l)) (fd_subs feeds)) then "feed" else "unknown"
         | None => "unknown"
         end
     end)
    (match latest_trigger (wl_webhook_id l) (wl_entry_id l) with
     | Some (_, m) => match t_rows (fb_filters filters) !! mt_FilterID m with Some r => ft_Name r | None => "" end
     | None => ""
     end).

(** storage/admin_webhooks.go [PostgresStore.ListWebhookLogRows] The newest first. *)
Definition ListWebhookLogRows (webhookID : Z) (status : string) (since : option Z) (limit offset : Z) : list WebhookLogRow * Z :=
  let st := normalizeWebhookLogStatusFilter status in
  let keep l := (wl_webhook_id l =? webhookID) && opt_all st (λ s, bool_decide (wl_status l = s)) && opt_all since (λ t, t <=? created_at (wl_id l)) in
  let rows := filter (λ kl : Z * WLog, keep kl.2 = true) (map_to_list (hd_logs hooks)) in
  page_of limit offset ((λ kl, log_row kl.2) <$> merge_sort (key_ge (λ l, created_at (wl_id l))) rows).

End Views.

(** * The two buttons *)

(** storage/admin_webhooks.go [PostgresStore.RetryAllWebhookLogs] With the number of rows. *)
Definition RetryAllWebhookLogs (now : Z) (db : HookDb) (webhookID : Z) : HookDb * Z :=
  let hit l := bool_decide (wl_webhook_id l = webhookID) && (bool_decide (wl_status l = Failed) || bool_decide (wl_status l = Dead)) in
  (with_logs db
     ((λ l, if hit l then
              mkWLog (wl_id l) (wl_webhook_id l) (wl_entry_id l) (wl_feed_id l) Pending (wl_attempt l) (Some now) (wl_last_status_code l)
                (wl_last_error l) (wl_response_snippet l)
            else l) <$> hd_logs db),
   count hit (log_list db)).

(** storage/admin_webhooks.go [PostgresStore.ResetWebhookStats] An empty last error is [None]. *)
Definition ResetWebhookStats (db : HookDb) (u webhookID : Z) : HookDb * option err :=
  match hd_webhooks db !! webhookID with
  | Some w =>
      if wh_user_id w =? u then
        (with_webhooks db (<[webhookID :=
           mkWebhook (wh_id w) (wh_user_id w) (wh_url w) (wh_method w) (wh_headers w) (wh_body_template w) (wh_secret w) (wh_enabled w)
             (wh_on_success_entry w) (wh_kind w) (wh_digest_minutes w) 0 0 None]> (hd_webhooks db)), None)
      else (db, Some ENotFound)
  | None => (db, Some ENotFound)
  end.

(** * Lemmas *)

(** A webhook action whose number does not fit a bigint. *)
Definition oversized (a : ActionRow) : Prop :=
  ac_ActionType a = "webhook" ∧ all_digits (ac_ActionParam a) = true ∧ ∃ n, digits_val 0 (ac_ActionParam a) = Some n ∧ 2 ^ 63 <= n.

Lemma digits_val_total acc s : forallb is_digit (String.list_ascii_of_string s) = true → is_Some (digits_val acc s).
Proof. revert acc. induction s as [|a s IH]; intros acc; cbn; [by eexists|]. rewrite andb_true_iff. intros [-> H]. by apply IH. Qed.

Lemma cast_bigint_spec s : all_digits s = true → ∃ n, digits_val 0 s = Some n ∧ cast_bigint s = if n <? 2 ^ 63 then inr n else inl (EMsg "value is out of range for type bigint").
Proof.
  unfold all_digits. rewrite andb_true_iff. intros [_ H]. destruct (digits_val_total 0 s H) as [n N]. exists n. split; [done|]. unfold cast_bigint. by rewrite N.
Qed.

Lemma action_targets_fails rows : (∃ e, action_targets rows = inl e) ↔ Exists oversized rows.
Proof.
  induction rows as [|a rows IH]; cbn [action_targets]; [split; [by intros [? ?]|by intros ?%Exists_nil]|]. rewrite Exists_cons.
  destruct (String.eqb (ac_ActionType a) "webhook" && all_digits (ac_ActionParam a)) eqn:E.
  - apply andb_true_iff in E as [T D]. apply String.eqb_eq in T. destruct (cast_bigint_spec _ D) as (n & N & ->). destruct (n <? 2 ^ 63) eqn:L; bool_to_prop.
    + assert (¬ oversized a) by (intros (_ & _ & m & M & ?); rewrite N in M; injection M as <-; lia).
      destruct (action_targets rows); [|naive_solver]. split; [|by eauto]. intros _. right. apply IH. by eexists.
    + split; [|by eexists]. intros _. left. by repeat split; [..|exists n].
  - rewrite IH. split; [by right|]. intros [(T & D & _)|H]; [|done]. rewrite T, D in E. done.
Qed.

Lemma zsum_perm l k : l ≡ₚ k → zsum l = zsum k.
Proof. unfold zsum. induction 1; cbn; lia. Qed.

Lemma count_both {A} (p q : A → bool) l : count p (filter (λ x, q x = true) l) = count q (filter (λ x, p x = true) l).
Proof.
  unfold count. f_equal. induction l as [|x l IH]; [done|]. rewrite !filter_cons. destruct (p x) eqn:P, (q x) eqn:Q;
    repeat (rewrite !filter_cons || case_decide); try congruence; cbn [length]; by rewrite ?IH.
Qed.

Section Sums.
Context (now : Z) (updated_at : Z → Z) (hooks : HookDb) (u : Z).

Definition owned_ids : list Z := (map_to_list (filter (λ kv : Z * Webhook, wh_user_id kv.2 = u) (hd_webhooks hooks))).*1.

Lemma owned_ids_spec w : w ∈ owned_ids ↔ owned_by hooks u w = true.
Proof.
  unfold owned_ids, owned_by. rewrite list_elem_of_fmap. split.
  - intros ([k h] & -> & H). apply elem_of_map_to_list, map_lookup_filter_Some in H as [E H]. cbn [fst]. rewrite E. by apply Z.eqb_eq.
  - destruct (hd_webhooks hooks !! w) as [h|] eqn:E; [|done]. intros H%Z.eqb_eq. exists (w, h). split; [done|]. by apply elem_of_map_to_list, map_lookup_filter_Some.
Qed.

(** The counts of the webhooks of a user add up to the count over the user's deliveries. *)
Lemma counts_add_up (p : WLog → bool) : zsum ((λ w, count p (logs_of hooks w)) <$> owned_ids) = count p (logs_of_user hooks u).
Proof.
  unfold logs_of_user. rewrite count_both. erewrite list_fmap_ext.
  - rewrite (zsum_group wl_webhook_id); [|apply NoDup_fst_map_to_list]. apply count_ext. intros l _. apply eq_true_iff_eq. by rewrite bool_decide_eq_true, owned_ids_spec.
  - intros _ w _. unfold logs_of.
    rewrite <- count_both. f_equal. apply list_filter_iff. intros l. by rewrite bool_decide_eq_true.
Qed.

Lemma user_hooks_ids : (user_hooks hooks u).*1 ≡ₚ owned_ids.
Proof. unfold user_hooks, owned_ids. by rewrite merge_sort_Permutation. Qed.
End Sums.

#[export] Instance id_desc_total {A} : Total (@id_desc A).
Proof. intros x y. unfold id_desc. lia. Qed.
#[export] Instance id_desc_trans {A} : Transitive (@id_desc A).
Proof. intros x y z. unfold id_desc. lia. Qed.

Lemma overview_sums now updated_at hooks feeds targets u :
  let rows := (λ kv, hook_row now updated_at hooks feeds targets kv.1 kv.2) <$> user_hooks hooks u in let sum := adminWebhookSummary now updated_at hooks u in
  StronglySorted (λ x y, aw_ID y <= aw_ID x) rows ∧ (aw_ID <$> rows) ≡ₚ owned_ids hooks u ∧
  hs_TotalWebhooks sum = Z.of_nat (length rows) ∧ hs_EnabledCount sum + hs_DisabledCount sum = hs_TotalWebhooks sum ∧
  hs_Sent24h sum = zsum (aw_Sent24h <$> rows) ∧ hs_QueueDueTotal sum = zsum (aw_QueueDueCount <$> rows) ∧
  hs_FailedTotal sum = zsum (aw_FailedCount <$> rows).
Proof.
  cbv zeta. pose proof (user_hooks_ids hooks u) as P. rewrite <- !list_fmap_compose. unfold compose, hook_row. cbn [aw_ID aw_Sent24h aw_QueueDueCount aw_FailedCount].
  unfold adminWebhookSummary. cbn [hs_TotalWebhooks hs_EnabledCount hs_DisabledCount hs_Sent24h hs_QueueDueTotal hs_FailedTotal].
  set (mine := map_to_list (filter _ (hd_webhooks hooks))).
  assert (Pm : user_hooks hooks u ≡ₚ mine) by apply merge_sort_Permutation. split_and!.
  - generalize (StronglySorted_merge_sort id_desc mine : StronglySorted id_desc (user_hooks hooks u)). generalize (user_hooks hooks u). clear P Pm.
    induction 1 as [|x l S IH F]; cbn [fmap list_fmap]; constructor; [done|].
    rewrite Forall_fmap. by eapply Forall_impl.
  - done.
  - by rewrite !length_fmap, Pm.
  - rewrite <- (count_all (λ _, true) mine.*2) by done. symmetry. rewrite (count_split _ wh_enabled). by f_equal; apply count_ext.
  - rewrite <- (counts_add_up hooks u). apply zsum_perm. by rewrite <- P, <- list_fmap_compose.
  - rewrite <- (counts_add_up hooks u). apply zsum_perm. by rewrite <- P, <- list_fmap_compose.
  - apply zsum_perm. rewrite <- list_fmap_compose. by rewrite Pm.
Qed.

(** The webhook page adds up, and anybody can break it.  For a user the page shows each webhook
    once, the newest first, and the summary is the sum of its rows: webhooks, enabled and disabled,
    deliveries of the last day, rows due and deliveries given up.  But the page of everybody who has a webhook
    fails as soon as one filter of any user has a webhook action whose number, all
    digits, does not fit 64 bits; nothing on the way into the store refuses one. *)
Lemma webhook_overview_adds_up (now : Z) (updated_at : Z → Z) (hooks : HookDb) (feeds : FeedDb) (filters : FilterDb) (u : Z) :
  let page := ListAdminWebhooks now updated_at hooks feeds filters u in let sum := adminWebhookSummary now updated_at hooks u in
  ((∃ e, page = inl e) ↔ owned_ids hooks u ≠ [] ∧ ∃ id a, t_rows (fb_actions filters) !! id = Some a ∧ oversized a) ∧
  ∀ rows, page = inr rows →
    StronglySorted (λ x y, aw_ID y <= aw_ID x) rows ∧ (aw_ID <$> rows) ≡ₚ owned_ids hooks u ∧
    hs_TotalWebhooks sum = Z.of_nat (length rows) ∧ hs_EnabledCount sum + hs_DisabledCount sum = hs_TotalWebhooks sum ∧
    hs_Sent24h sum = zsum (aw_Sent24h <$> rows) ∧ hs_QueueDueTotal sum = zsum (aw_QueueDueCount <$> rows) ∧
    hs_FailedTotal sum = zsum (aw_FailedCount <$> rows).
Proof.
  cbv zeta. unfold ListAdminWebhooks. set (mine := user_hooks hooks u). pose proof (user_hooks_ids hooks u) as P. fold mine in P.
  assert (Em : mine = [] ↔ owned_ids hooks u = []).
  { split; intros E; rewrite E in P; [by apply Permutation_nil_l in P|]. apply Permutation_nil_r in P. by destruct mine. }
  assert (Ex : (∃ id a, t_rows (fb_actions filters) !! id = Some a ∧ oversized a) ↔ Exists oversized (map_to_list (t_rows (fb_actions filters))).*2).
  { rewrite Exists_exists. split.
    - intros (id & a & L & O). exists a. split; [|done]. apply list_elem_of_fmap. exists (id, a). split; [done|]. by apply elem_of_map_to_list.
    - intros (a & A & O). apply list_elem_of_fmap in A as ([id a'] & -> & A). apply elem_of_map_to_list in A. by exists id, a'. }
  split.
  - rewrite Ex, <- Em, <- action_targets_fails. destruct mine as [|x l]; [naive_solver|]. destruct (action_targets _) as [e|ts]; naive_solver.
  - intros rows R. assert (∃ ts, rows = (λ kv, hook_row now updated_at hooks feeds ts kv.1 kv.2) <$> mine) as [ts ->].
    { destruct mine as [|x l]; [exists []; by injection R as <-|]. destruct (action_targets _) as [e|ts]; [done|]. exists ts. by injection R as <-. }
    clear R. apply overview_sums.
Qed.

(** ** The buttons *)

(** Retrying everything makes the failed and the given-up deliveries of that webhook due now, counts
    them, and touches nothing else. *)
Lemma retry_all_effect now db w i l : logs_wf db → hd_logs db !! i = Some l →
  let db' := (RetryAllWebhookLogs now db w).1 in
  hd_webhooks db' = hd_webhooks db ∧
  ∃ l', hd_logs db' !! i = Some l' ∧ wl_id l' = i ∧ wl_webhook_id l' = wl_webhook_id l ∧ wl_entry_id l' = wl_entry_id l ∧ wl_attempt l' = wl_attempt l ∧
    if decide (wl_webhook_id l = w ∧ (wl_status l = Failed ∨ wl_status l = Dead)) then claimable now [] l' = true else l' = l.
Proof.
  intros W L. cbv zeta. unfold RetryAllWebhookLogs. cbn [fst with_logs hd_webhooks hd_logs]. split; [done|]. rewrite lookup_fmap, L. cbn [fmap option_fmap option_map].
  eexists. split; [reflexivity|]. pose proof (wf_key _ W _ _ L) as K.
  destruct (decide _) as [[E S]|N].
  - rewrite bool_decide_eq_true_2 by done. cbn [andb]. assert (bool_decide (wl_status l = Failed) || bool_decide (wl_status l = Dead) = true) as ->.
    { rewrite orb_true_iff, !bool_decide_eq_true. done. }
    cbn [wl_id wl_webhook_id wl_entry_id wl_attempt]. split_and!; [done..|]. unfold claimable. cbn [wl_status wl_next_retry_at wl_webhook_id is_open].
    rewrite Z.leb_refl, bool_decide_eq_false_2 by apply not_elem_of_nil. done.
  - assert (bool_decide (wl_webhook_id l = w) && (bool_decide (wl_status l = Failed) || bool_decide (wl_status l = Dead)) = false) as ->; [|done].
    apply not_true_iff_false. rewrite andb_true_iff, orb_true_iff, !bool_decide_eq_true. exact N.
Qed.

Lemma retry_all_wf now db w : logs_wf db → logs_wf (RetryAllWebhookLogs now db w).1.
Proof.
  intros W. assert (H : ∀ i l', hd_logs (RetryAllWebhookLogs now db w).1 !! i = Some l' → ∃ l, hd_logs db !! i = Some l ∧
    wl_id l' = wl_id l ∧ wl_webhook_id l' = wl_webhook_id l ∧ wl_entry_id l' = wl_entry_id l).
  { intros i l' H. cbn in H. rewrite lookup_fmap in H. destruct (hd_logs db !! i) as [l|] eqn:L; [|done]. exists l. injection H as <-. by destruct (_ && _). }
  split.
  - intros i l' L'. destruct (H i l' L') as (l & L & -> & _). by apply (wf_key _ W).
  - intros i l' L'. destruct (H i l' L') as (l & L & _). by apply (wf_next _ W _ _ L).
  - intros i j a b A B E1 E2. destruct (H i a A) as (a' & LA & _ & Wa & Ea), (H j b B) as (b' & LB & _ & Wb & Eb). apply (wf_uniq _ W i j a' b' LA LB); congruence.
Qed.

(** * On concrete tables *)

(** A filter of user 2 with the webhook action [99999999999999999999]. *)
Definition wit_oversized : FilterDb * (err + StoredFilter) :=
  CreateFilter 0 (mkFeedDb ∅ ∅ ∅ ∅ ∅) empty_filters
    (mkCreateFilter 2 "big" true false false 0 "all" [] [] [mkActionParams "webhook" "99999999999999999999" 0]).

(** User 1, with two rows due, sees them, until user 2 saves that filter. *)
Lemma webhook_overview_adds_up_witness :
  let page f := ListAdminWebhooks 60 (λ _, 0) wit_hooks (mkFeedDb ∅ ∅ ∅ ∅ ∅) f 1 in
  (∃ rows, page empty_filters = inr rows ∧ 2 = zsum (aw_QueueDueCount <$> rows)) ∧ (∃ f, wit_oversized.2 = inr f) ∧ ∃ e, page wit_oversized.1 = inl e.
Proof.
  cbv zeta. split_and!.
  - eexists. split; [reflexivity|].
    destruct (proj2 (webhook_overview_adds_up 60 (λ _, 0) wit_hooks (mkFeedDb ∅ ∅ ∅ ∅ ∅) empty_filters 1) _ eq_refl) as (_ & _ & _ & _ & _ & <- & _). by vm_compute.
  - eexists. vm_compute. reflexivity.
  - apply (proj1 (webhook_overview_adds_up 60 (λ _, 0) wit_hooks (mkFeedDb ∅ ∅ ∅ ∅ ∅) wit_oversized.1 1)). split; [by vm_compute|].
    exists 1. eexists. split; [vm_compute; reflexivity|]. split_and!; [done..|]. exists 99999999999999999999. by vm_compute.
Defined.
