(* ===== verification/Outbound.v ===== *)
(** What a webhook sends ([storage/webhook_kind.go], [webhook_outbound.go],
    [webhook_digest_outbound.go], [webhook_text_outbound.go], [webhook_redact.go]): the kinds
    and their provider settings, the text of a chat message and of a digest, the JSON of a
    request, and the redaction of tokens in what people read.  JSON is printed as
    [encoding/json] prints valid UTF-8; decoding it, [url.Parse] and [text/template] are
    parameters. *)

From S2P Require Import Prelude GoStrings Types WebhookStore EntryStore.
From Stdlib Require Import Ascii.

(** * Text *)

(** [html.EscapeString] *)
Fixpoint html_escape (s : string) : string :=
  match s with
  | "" => ""
  | String c s' =>
      (if Ascii.eqb c "&" then "&amp;" else if Ascii.eqb c "<" then "&lt;" else if Ascii.eqb c ">" then "&gt;"
       else if (byte_of c =? 34)%Z then "&#34;" else if Ascii.eqb c "'" then "&#39;" else String c "") +:+ html_escape s'
  end%string%char.

Definition hex_digit (n : Z) : ascii := ascii_of_N (Z.to_N (if n <? 10 then 48 + n else 55 + n)).
Definition hex_low (n : Z) : ascii := ascii_of_N (Z.to_N (if n <? 10 then 48 + n else 87 + n)).

(** A byte [url.PathEscape] leaves alone. *)
Definition path_char (c : ascii) : bool :=
  let n := byte_of c in
  ((48 <=? n) && (n <=? 57)) || ((65 <=? n) && (n <=? 90)) || ((97 <=? n) && (n <=? 122)) ||
  bool_decide (n ∈ [45; 95; 46; 126; 36; 38; 43; 61; 58; 64]).

(** [url.PathEscape] *)
Fixpoint PathEscape (s : string) : string :=
  match s with
  | "" => ""
  | String c s' =>
      (if path_char c then String c "" else String "%" (String (hex_digit (byte_of c / 16)%Z) (String (hex_digit (byte_of c mod 16)%Z) "")))
        +:+ PathEscape s'
  end%string%char.

(** [strings.TrimRight(s, "/")] *)
Fixpoint drop_slashes (s : string) : string :=
  match s with
  | String c s' => if Ascii.eqb c "/" then drop_slashes s' else s
  | "" => ""
  end%string%char.
Definition trim_right_slash (s : string) : string := str_rev (drop_slashes (str_rev s)).

(** * JSON *)

Inductive json := JNull | JBool (b : bool) | JNum (n : Z) | JStr (s : string) | JArr (l : list json) | JObj (l : list (string * json)).

(** U+2028 and U+2029 are written as escapes. *)
Definition line_sep (s : string) : option string :=
  match s with
  | String a (String b (String c _)) =>
      if (byte_of a =? 226) && (byte_of b =? 128) && ((byte_of c =? 168) || (byte_of c =? 169))
      then Some (if (byte_of c =? 168)%Z then "\u2028" else "\u2029")%string else None
  | _ => None
  end.

Definition json_byte (c : ascii) : string :=
  let n := byte_of c in
  let u := String "\" (String "u" (String "0" (String "0" (String (hex_low (n / 16)) (String (hex_low (n mod 16)) ""))))) in
  if (n =? 34) || (n =? 92) then String "\" (String c "")
  else if n =? 8 then "\b" else if n =? 12 then "\f" else if n =? 10 then "\n" else if n =? 13 then "\r" else if n =? 9 then "\t"
  else if (n <? 32) || (n =? 60) || (n =? 62) || (n =? 38) then u
  else String c "".

Fixpoint json_chars (skip : nat) (s : string) : string :=
  match s with
  | "" => ""
  | String c s' =>
      match skip with
      | S k => json_chars k s'
      | O => match line_sep s with
             | Some e => e +:+ json_chars 2 s'
             | None => json_byte c +:+ json_chars 0 s'
             end
      end
  end%string.

Definition quote_char : string := String (ascii_of_N 34) "".
Definition json_string (s : string) : string := quote_char +:+ json_chars 0 s +:+ quote_char.

(** [json.Marshal] *)
Fixpoint json_text (j : json) : string :=
  match j with
  | JNull => "null"
  | JBool b => if b then "true" else "false"
  | JNum n => format_int n
  | JStr s => json_string s
  | JArr l => "[" +:+ join "," (map json_text l) +:+ "]"
  | JObj l => "{" +:+ join "," (map (λ kv, json_string kv.1 +:+ ":" +:+ json_text kv.2) l) +:+ "}"
  end%string.

(** * Kinds and provider settings *)

(** storage/webhook_kind.go [TelegramProviderConfig] *)
Record TelegramProviderConfig := mkTelegram { tg_APIBase : string; tg_BotToken : string; tg_ChatID : string }.
(** storage/webhook_kind.go [MaxProviderConfig] *)
Record MaxProviderConfig := mkMax { mx_APIBase : string; mx_Target : string; mx_TargetID : string }.

Definition TelegramAPIDefault : string := "https://api.telegram.org".

(** storage/webhook_kind.go [TrimAPIBase] *)
Definition TrimAPIBase (raw : string) : string := trim_right_slash (trim_space raw).

(** storage/webhook_kind.go [TelegramAPIBase] *)
Definition TelegramAPIBase (raw : string) : string :=
  let b := TrimAPIBase raw in if String.eqb b "" then TelegramAPIDefault else b.

(** storage/webhook_kind.go [TelegramDisplayURL] *)
Definition TelegramDisplayURL (apiBase : string) : string := TelegramAPIBase apiBase +:+ "/bot/sendMessage".

(** storage/webhook_kind.go [TelegramSendURL] *)
Definition TelegramSendURL (apiBase botToken : string) : string :=
  TelegramAPIBase apiBase +:+ "/bot" +:+ trim_space botToken +:+ "/sendMessage".

(** storage/webhook_kind.go [maxMessagesPath] *)
Definition maxMessagesPath (apiBase target targetID : string) : string :=
  let base := TrimAPIBase apiBase in
  let id := trim_space targetID in
  if String.eqb target "channel" then base +:+ "/channel/" +:+ PathEscape (trim_prefix id "@") +:+ "/messages"
  else if String.eqb target "user" then base +:+ "/channel/user/" +:+ PathEscape id +:+ "/messages"
  else base +:+ "/channel/id/" +:+ PathEscape id +:+ "/messages".

(** storage/webhook_kind.go [MaxDisplayURL] *)
Definition MaxDisplayURL (c : MaxProviderConfig) : string := maxMessagesPath (mx_APIBase c) (mx_Target c) (mx_TargetID c).

(** Marshalling in the order of the fields. *)
Definition telegram_json (c : TelegramProviderConfig) : string :=
  json_text (JObj [("api_base", JStr (tg_APIBase c)); ("bot_token", JStr (tg_BotToken c)); ("chat_id", JStr (tg_ChatID c))]%string).
Definition max_json (c : MaxProviderConfig) : string :=
  json_text (JObj [("api_base", JStr (mx_APIBase c)); ("target", JStr (mx_Target c)); ("target_id", JStr (mx_TargetID c))]%string).

(** Four bullets. *)
Definition token_mask : string :=
  String.string_of_list_ascii (concat (repeat (ascii_of_N <$> [226; 128; 162]%N) 4)).

Section Kinds.
(** [json.Unmarshal] into the two structs and [json.Valid]; scheme and host of [url.Parse]. *)
Context (decode_telegram_config : string → string + TelegramProviderConfig) (decode_max_config : string → string + MaxProviderConfig)
        (json_valid : string → bool) (url_parse : string → option (string * string)).

(** storage/webhook_kind.go [ParseTelegramProviderConfig] *)
Definition ParseTelegramProviderConfig (raw : string) : err + TelegramProviderConfig :=
  if String.eqb (trim_space raw) "" then inl (EMsg "telegram config is required")
  else match decode_telegram_config raw with
       | inl e => inl (EWrap "telegram config" (EMsg e))
       | inr c =>
           let c := mkTelegram (TrimAPIBase (tg_APIBase c)) (trim_space (tg_BotToken c)) (trim_space (tg_ChatID c)) in
           if String.eqb (tg_BotToken c) "" then inl (EMsg "telegram bot_token is required")
           else if String.eqb (tg_ChatID c) "" then inl (EMsg "telegram chat_id is required")
           else inr c
       end.

(** storage/webhook_kind.go [ParseMaxProviderConfig] *)
Definition ParseMaxProviderConfig (raw : string) : err + MaxProviderConfig :=
  if String.eqb (trim_space raw) "" then inl (EMsg "max config is required")
  else match decode_max_config raw with
       | inl e => inl (EWrap "max config" (EMsg e))
       | inr c =>
           let c := mkMax (TrimAPIBase (mx_APIBase c)) (to_lower (trim_space (mx_Target c))) (trim_space (mx_TargetID c)) in
           if String.eqb (mx_APIBase c) "" then inl (EMsg "max api_base is required")
           else if bool_decide (mx_Target c ∈ ["chat_id"; "channel"; "user"; ""]%string) then
             let c := mkMax (mx_APIBase c) (if String.eqb (mx_Target c) "" then "chat_id" else mx_Target c) (mx_TargetID c) in
             if String.eqb (mx_TargetID c) "" then inl (EMsg "max target_id is required") else inr c
           else inl (EMsg "max target must be chat_id, channel, or user")
       end.

(** storage/webhook_kind.go [MaskTelegramConfig] *)
Definition MaskTelegramConfig (raw : string) : string :=
  match ParseTelegramProviderConfig raw with
  | inl _ => "{}"
  | inr c => telegram_json (mkTelegram (tg_APIBase c) (if String.eqb (tg_BotToken c) "" then "" else token_mask) (tg_ChatID c))
  end.

(** storage/webhook_kind.go [parseTelegramLoose] *)
Definition parseTelegramLoose (raw : string) : string + TelegramProviderConfig :=
  if String.eqb (trim_space raw) "" then inr (mkTelegram "" "" "") else decode_telegram_config raw.

(** storage/webhook_kind.go [MergeTelegramToken] *)
Definition MergeTelegramToken (incoming existing : string) : string :=
  match parseTelegramLoose incoming with
  | inl _ => incoming
  | inr c =>
      if negb (String.eqb (trim_space (tg_BotToken c)) "") then incoming
      else match parseTelegramLoose existing with
           | inl _ => incoming
           | inr ex => telegram_json (mkTelegram (tg_APIBase c) (tg_BotToken ex) (tg_ChatID c))
           end
  end.

(** storage/webhook_kind.go [ResolveWebhookWrite] The kind, the URL that is shown, the settings. *)
Definition ResolveWebhookWrite (kind rawURL providerConfig : string) : err + string * string * string :=
  let or_empty s := if String.eqb (trim_space s) "" then "{}"%string else s in
  match NormalizeWebhookKind kind with
  | None => inl (EMsg "kind must be http, telegram, or max")
  | Some kind =>
      if String.eqb kind "telegram" then
        match ParseTelegramProviderConfig (or_empty providerConfig) with
        | inl e => inl e
        | inr c => inr (kind, TelegramDisplayURL (tg_APIBase c), telegram_json c)
        end
      else if String.eqb kind "max" then
        match ParseMaxProviderConfig (or_empty providerConfig) with
        | inl e => inl e
        | inr c => inr (kind, MaxDisplayURL c, max_json c)
        end
      else
        let u := trim_space rawURL in
        if String.eqb u "" then inl (EMsg "url is required")
        else match url_parse u with
             | None => inl (EMsg "url must be a valid URL")
             | Some (scheme, host) =>
                 if String.eqb scheme "" || String.eqb host "" then inl (EMsg "url must be a valid URL")
                 else if negb (json_valid (or_empty providerConfig)) then inl (EMsg "provider_config must be valid JSON")
                 else inr (kind, u, or_empty providerConfig)
             end
  end.

(** * Messages *)

(** storage/webhook_delivery.go [WebhookFeed] *)
Record WebhookFeed := mkWebhookFeed { wf_ID : Z; wf_Title : string; wf_StoreMode : string }.

(** What a template is executed on. *)
Inductive TemplateData :=
| OneEntry (feed : WebhookFeed) (entry : Entry) (filter : option Filter) (payload : option string)
| Batch (items : list (Entry * WebhookFeed)) (payload : string).

Record WebhookOutbound := mkOutbound { o_Method : string; o_URL : string; o_Body : string; o_Kind : string }.

(** The columns of a webhook a message depends on. *)
Record OutboundHook := mkOutboundHook {
  oh_Kind : string; oh_Method : string; oh_URL : string; oh_BodyTemplate : string; oh_ProviderConfig : string;
}.

(** [text/template] (parse and execute) and the JSON of the structs without tags. *)
Context (template : string → TemplateData → err + string)
        (entry_json : Entry → json) (filter_json : Filter → json) (time_json : Z → json).

(** storage/webhook_outbound.go [RenderWebhookBodyTemplate] *)
Definition RenderWebhookBodyTemplate (bodyTemplate : string) (feed : WebhookFeed) (entry : Entry) (filter : option Filter)
    (payload : option string) : err + string := template bodyTemplate (OneEntry feed entry filter payload).

(** storage/webhook_outbound.go [renderChatTemplate] *)
Definition renderChatTemplate (bodyTemplate : string) (feed : WebhookFeed) (entry : Entry) (filter : option Filter) : err + string :=
  RenderWebhookBodyTemplate bodyTemplate feed entry filter None.

(** storage/webhook_outbound.go [ChatMessageText] *)
Definition ChatMessageText (bodyTemplate : string) (feed : WebhookFeed) (entry : Entry) (filter : option Filter) (asHTML : bool)
    : err + string :=
  if negb (String.eqb (trim_space bodyTemplate) "") then renderChatTemplate bodyTemplate feed entry filter
  else
    let esc s := if asHTML then html_escape s else s in
    let title := esc (trim_space (e_title entry)) in
    let feedTitle := esc (trim_space (wf_Title feed)) in
    let link := trim_space (e_url entry) in
    let anchor := if asHTML && negb (String.eqb link "")
                  then ("<a href=" +:+ quote_char +:+ html_escape link +:+ quote_char +:+ ">" +:+ html_escape link +:+ "</a>")%string else link in
    let head := if String.eqb feedTitle "" then [] else [if asHTML then ("<b>" +:+ feedTitle +:+ "</b>")%string else feedTitle] in
    let nonempty s := if String.eqb s "" then [] else [s] in
    inr (join (String (ascii_of_N 10) (String (ascii_of_N 10) "")) (head ++ nonempty title ++ nonempty anchor)).

(** [strings.ToUpper] of ASCII text. *)
Definition upper_byte (c : ascii) : ascii :=
  if (97 <=? byte_of c) && (byte_of c <=? 122) then ascii_of_N (Z.to_N (byte_of c - 32)) else c.
Definition str_upper (s : string) : string := String.string_of_list_ascii (upper_byte <$> String.list_ascii_of_string s).

Definition http_method (m : string) : string :=
  let m := str_upper (trim_space m) in if String.eqb m "" then "POST" else m.

(** storage/webhook_outbound.go [httpEventType] *)
Definition httpEventType (filter : option Filter) : string := match filter with Some _ => "entry_matched" | None => "new_entry" end.

Definition feed_json (f : WebhookFeed) : json :=
  JObj [("ID", JNum (wf_ID f)); ("Title", JStr (wf_Title f)); ("StoreMode", JStr (wf_StoreMode f))]%string.

(** storage/webhook_outbound.go [buildHTTPOutbound] *)
Definition buildHTTPOutbound (w : OutboundHook) (feed : WebhookFeed) (entry : Entry) (updatedAt : Z) (filter : option Filter) : err + WebhookOutbound :=
  let payload := json_text (JObj [("entry", entry_json entry); ("event_type", JStr (httpEventType filter)); ("event_version", JNum 1);
    ("feed", feed_json feed); ("filter", match filter with Some f => filter_json f | None => JNull end); ("sent_at", time_json updatedAt)]%string) in
  let body := if negb (String.eqb (trim_space (oh_BodyTemplate w)) "")
              then RenderWebhookBodyTemplate (oh_BodyTemplate w) feed entry filter (Some payload) else inr payload in
  match body with
  | inl e => inl e
  | inr body => inr (mkOutbound (http_method (oh_Method w)) (oh_URL w) body "http")
  end.

Definition telegram_body (chatID text : string) (noPreview : bool) : string :=
  json_text (JObj [("chat_id", JStr chatID); ("disable_web_page_preview", JBool noPreview); ("parse_mode", JStr "HTML"); ("text", JStr text)]%string).
Definition max_body (text : string) : string := json_text (JObj [("text"%string, JStr text)]).

(** A chat message for a text that is made for the kind. *)
Definition send_telegram (w : OutboundHook) (text : err + string) (noPreview : bool) : err + WebhookOutbound :=
  match ParseTelegramProviderConfig (oh_ProviderConfig w) with
  | inl e => inl e
  | inr c => match text with
             | inl e => inl e
             | inr text => inr (mkOutbound "POST" (TelegramSendURL (tg_APIBase c) (tg_BotToken c)) (telegram_body (tg_ChatID c) text noPreview) "telegram")
             end
  end.
Definition send_max (w : OutboundHook) (text : err + string) : err + WebhookOutbound :=
  match ParseMaxProviderConfig (oh_ProviderConfig w) with
  | inl e => inl e
  | inr c => match text with
             | inl e => inl e
             | inr text => inr (mkOutbound "POST" (MaxDisplayURL c) (max_body text) "max")
             end
  end.

(** storage/webhook_outbound.go [buildTelegramOutbound] *)
Definition buildTelegramOutbound (w : OutboundHook) feed entry filter : err + WebhookOutbound :=
  send_telegram w (ChatMessageText (oh_BodyTemplate w) feed entry filter true) false.

(** storage/webhook_outbound.go [buildMaxOutbound] *)
Definition buildMaxOutbound (w : OutboundHook) feed entry filter : err + WebhookOutbound :=
  send_max w (ChatMessageText (oh_BodyTemplate w) feed entry filter false).

(** storage/webhook_outbound.go [BuildWebhookOutbound] *)
Definition BuildWebhookOutbound (w : OutboundHook) (feed : WebhookFeed) (entry : Entry) (updatedAt : Z) (filter : option Filter) : err + WebhookOutbound :=
  match NormalizeWebhookKind (oh_Kind w) with
  | None => inl (EMsg "kind must be http, telegram, or max")
  | Some kind =>
      if String.eqb kind "telegram" then buildTelegramOutbound w feed entry filter
      else if String.eqb kind "max" then buildMaxOutbound w feed entry filter
      else buildHTTPOutbound w feed entry updatedAt filter
  end.

(** storage/webhook_text_outbound.go [BuildWebhookTextOutbound] *)
Definition BuildWebhookTextOutbound (w : OutboundHook) (plainText htmlText payload : string) : err + WebhookOutbound :=
  match NormalizeWebhookKind (oh_Kind w) with
  | None => inl (EMsg "kind must be http, telegram, or max")
  | Some kind =>
      if String.eqb kind "telegram" then send_telegram w (inr htmlText) true
      else if String.eqb kind "max" then send_max w (inr plainText)
      else inr (mkOutbound (http_method (oh_Method w)) (oh_URL w) payload "http")
  end.

(** * Digests *)

Definition webhookChatTextMax : Z := 3900.
Definition nl : string := String (ascii_of_N 10) "".
Definition slen (s : string) : Z := Z.of_nat (String.length s).

(** The words of the digest, in UTF-8. *)
Definition utf8 (l : list N) : string := String.string_of_list_ascii (ascii_of_N <$> l).
Definition txt_digest : string := utf8 [208;148;208;176;208;185;208;180;208;182;208;181;209;129;209;130;58;32]%N.
Definition txt_more : string := utf8 [226;128;166;32;208;181;209;137;209;145;32]%N.
Definition bullet : string := utf8 [226;128;162;32]%N.

(** storage/webhook_digest_outbound.go [chatAppend] *)
Definition chatAppend (b s : string) (remaining : Z) : string * bool :=
  if webhookChatTextMax <? slen b + slen s then (b +:+ nl +:+ nl +:+ txt_more +:+ format_int remaining, false)
  else (b +:+ s, true).

(** storage/webhook_digest_outbound.go:124-131 [digestChatText, the heading of a feed] *)
Definition digest_heading (asHTML : bool) (lastFeed : Z) (f : WebhookFeed) : string :=
  if wf_ID f =? lastFeed then ""
  else let title := trim_space (wf_Title f) in
       nl +:+ nl +:+ (if asHTML then "<b>" +:+ html_escape title +:+ "</b>" else title).

(** storage/webhook_digest_outbound.go:132-147 [digestChatText, the line of an entry] *)
Definition digest_line (asHTML : bool) (e : Entry) : string :=
  let u := trim_space (e_url e) in
  let t := trim_space (e_title e) in
  let t := if String.eqb t "" then u else t in
  if asHTML then
    if negb (String.eqb u "") then nl +:+ bullet +:+ "<a href=" +:+ quote_char +:+ html_escape u +:+ quote_char +:+ ">" +:+ html_escape t +:+ "</a>"
    else nl +:+ bullet +:+ html_escape t
  else nl +:+ bullet +:+ t +:+ (if negb (String.eqb u "") then nl +:+ "  " +:+ u else "").

(** storage/webhook_digest_outbound.go:122-151 [digestChatText, the loop without a template] *)
Fixpoint digest_plain (asHTML : bool) (lastFeed : Z) (b : string) (items : list (Entry * WebhookFeed)) : string :=
  match items with
  | [] => b
  | (e, f) :: rest =>
      let '(b, ok) := chatAppend b (digest_heading asHTML lastFeed f +:+ digest_line asHTML e) (Z.of_nat (length items)) in
      if (ok : bool) then digest_plain asHTML (wf_ID f) b rest else b
  end.

(** storage/webhook_digest_outbound.go:110-119 [digestChatText, the loop with a template] *)
Fixpoint digest_templated (bodyTemplate b : string) (items : list (Entry * WebhookFeed)) : err + string :=
  match items with
  | [] => inr b
  | (e, f) :: rest =>
      match renderChatTemplate bodyTemplate f e None with
      | inl err => inl err
      | inr s =>
          let '(b, ok) := chatAppend b (nl +:+ nl +:+ trim_space s) (Z.of_nat (length items)) in
          if (ok : bool) then digest_templated bodyTemplate b rest else inr b
      end
  end.

Definition digest_head (asHTML : bool) (n : Z) : string :=
  let head := txt_digest +:+ format_int n in if asHTML then "<b>" +:+ head +:+ "</b>" else head.

(** storage/webhook_digest_outbound.go [digestChatText] *)
Definition digestChatText (bodyTemplate : string) (items : list (Entry * WebhookFeed)) (asHTML : bool) : err + string :=
  let b := digest_head asHTML (Z.of_nat (length items)) in
  if negb (String.eqb (trim_space bodyTemplate) "") then digest_templated bodyTemplate b items
  else inr (digest_plain asHTML (-1) b items).

(** storage/webhook_digest_outbound.go [BuildWebhookDigestOutbound] *)
Definition BuildWebhookDigestOutbound (w : OutboundHook) (items : list (Entry * WebhookFeed)) (sentAt : Z) : err + WebhookOutbound :=
  match NormalizeWebhookKind (oh_Kind w) with
  | None => inl (EMsg "kind must be http, telegram, or max")
  | Some kind =>
      if String.eqb kind "telegram" then send_telegram w (digestChatText (oh_BodyTemplate w) items true) true
      else if String.eqb kind "max" then send_max w (digestChatText (oh_BodyTemplate w) items false)
      else
        let list := JArr ((λ it, JObj [("entry"%string, entry_json it.1); ("feed"%string, feed_json it.2)]) <$> items) in
        let payload := json_text (JObj [("count", JNum (Z.of_nat (length items))); ("event_type", JStr "digest"); ("event_version", JNum 1);
          ("items", list); ("sent_at", time_json sentAt)]%string) in
        match (if negb (String.eqb (trim_space (oh_BodyTemplate w)) "") then template (oh_BodyTemplate w) (Batch items payload) else inr payload) with
        | inl e => inl e
        | inr body => inr (mkOutbound (http_method (oh_Method w)) (oh_URL w) body "http")
        end
  end.

End Kinds.

(** * Redaction *)

(** The character class of the token pattern: no slash, quote or white space. *)
Definition token_char (c : ascii) : bool :=
  negb (bool_decide (byte_of c ∈ [47; 34; 9; 10; 12; 13; 32])).

(** The pattern matches here. *)
Definition token_here (s : string) : bool :=
  has_prefix s "/bot" && match str_drop 4 s with String c _ => token_char c | "" => false end.

(** storage/webhook_redact.go [RedactWebhookText] The leftmost match of [telegramTokenPath] is
    replaced, [skip] bytes of it are still to be dropped, and then the token. *)
Fixpoint redact_from (skip : nat) (tok : bool) (s : string) : string :=
  match s with
  | "" => ""
  | String c s' =>
      match skip with
      | S k => redact_from k tok s'
      | O => if tok && token_char c then redact_from 0 true s'
             else if token_here s then "/bot***" +:+ redact_from 3 true s'
             else String c (redact_from 0 false s')
      end
  end%string.

Definition RedactWebhookText (s : string) : string := redact_from 0 false s.

Section RedactURL.
(** The URL without query and user, when it parses. *)
Context (strip_url : string → option string).

(** storage/webhook_redact.go [RedactWebhookURL] *)
Definition RedactWebhookURL (raw : string) : string := RedactWebhookText (default raw (strip_url raw)).

(** A transport error: of a request to a URL, or any other. *)
Inductive transport_error := UrlError (op url cause : string) | OtherError (text : string).

(** storage/webhook_redact.go [RedactWebhookError] *)
Definition RedactWebhookError (e : transport_error) : string :=
  match e with
  | UrlError op url cause =>
      if negb (String.eqb url "") then op +:+ " " +:+ RedactWebhookURL url +:+ ": " +:+ cause
      else RedactWebhookText (op +:+ " " +:+ quote_char +:+ quote_char +:+ ": " +:+ cause)
  | OtherError text => RedactWebhookText text
  end.

End RedactURL.

(** * Lemmas *)

Lemma slen_app a b : slen (a +:+ b) = slen a + slen b.
Proof.
  unfold slen. induction a as [|x a IH]; [done|]. change (String x a +:+ b) with (String x (a +:+ b)). cbn [String.length]. lia.
Qed.

Lemma app_assoc_s (a b c : string) : a +:+ (b +:+ c) = (a +:+ b) +:+ c.
Proof. induction a as [|x a IH]; [done|]. change (String x (a +:+ (b +:+ c)) = String x ((a +:+ b) +:+ c)). by rewrite IH. Qed.

Lemma app_empty_r (a : string) : a +:+ "" = a.
Proof. induction a as [|x a IH]; [done|]. change (String x (a +:+ "") = String x a). by rewrite IH. Qed.

Lemma fmt_digits_short fuel base n acc : slen (fmt_digits fuel base n acc) <= Z.of_nat fuel + slen acc.
Proof.
  revert n acc. induction fuel as [|fuel IH]; intros n acc; cbn [fmt_digits]; [lia|].
  assert (L : ∀ c, slen (String c acc) = 1 + slen acc) by (intros c; unfold slen; cbn [String.length]; lia).
  destruct (n <? base); [rewrite L; lia|]. etransitivity; [apply IH|]. rewrite L. lia.
Qed.

Lemma format_int_short n : slen (format_int n) <= 21.
Proof.
  unfold format_int. destruct (n <? 0); rewrite ?slen_app; etransitivity; [apply Z.add_le_mono_l| | |]; try apply fmt_digits_short; vm_compute; done.
Qed.

(** ** Redaction *)

Definition slash_c : ascii := "/"%char.

Lemma slash_not_token : token_char slash_c = false.
Proof. reflexivity. Qed.

Lemma token_here_app a b : a ≠ "" → token_here (a +:+ String slash_c b) = token_here a.
Proof.
  intros N. destruct a as [|c1 a]; [done|]. clear N. unfold token_here, has_prefix.
  destruct a as [|c2 a]; [|destruct a as [|c3 a]; [|destruct a as [|c4 a]; [|destruct a as [|c5 a]]]]; simpl;
    repeat (case_match; try done).
Qed.

Lemma token_here_long s : token_here s = true → (4 ≤ String.length s)%nat.
Proof.
  unfold token_here. intros [_ T]%andb_prop.
  destruct s as [|c1 [|c2 [|c3 [|c4 s]]]]; simpl in *; try done; lia.
Qed.

(** What a slash follows is redacted on its own. *)
Lemma redact_app skip tok a b : (skip ≤ String.length a)%nat →
  redact_from skip tok (a +:+ String slash_c b) = redact_from skip tok a +:+ redact_from 0 false (String slash_c b).
Proof.
  revert skip tok. induction a as [|c a IH]; intros skip tok L.
  - simpl in L. assert (skip = 0%nat) as -> by lia. change ("" +:+ String slash_c b) with (String slash_c b).
    cbn [redact_from]. rewrite slash_not_token, andb_false_r. done.
  - change (String c a +:+ String slash_c b) with (String c (a +:+ String slash_c b)). cbn [redact_from]. destruct skip as [|k].
    + destruct (tok && token_char c); [by apply IH; lia|].
      change (String c (a +:+ String slash_c b)) with (String c a +:+ String slash_c b). rewrite token_here_app by done.
      destruct (token_here (String c a)) eqn:T.
      * rewrite IH; [by rewrite app_assoc_s|]. apply token_here_long in T. simpl in T. lia.
      * rewrite IH by lia. done.
    + apply IH. simpl in L. lia.
Qed.

Lemma redact_token t rest : forallb token_char (String.list_ascii_of_string t) = true →
  redact_from 0 true (t +:+ String slash_c rest) = redact_from 0 false (String slash_c rest).
Proof.
  induction t as [|c t IH]; intros H.
  - change ("" +:+ String slash_c rest) with (String slash_c rest). cbn [redact_from]. by rewrite slash_not_token, andb_false_r.
  - cbn [String.list_ascii_of_string forallb] in H. apply andb_prop in H as [H1 H2].
    change (String c t +:+ String slash_c rest) with (String c (t +:+ String slash_c rest)). cbn [redact_from]. rewrite H1. cbn [andb]. by apply IH.
Qed.

Lemma redact_bot t rest : t ≠ "" → forallb token_char (String.list_ascii_of_string t) = true →
  RedactWebhookText ("/bot" +:+ t +:+ String slash_c rest) = "/bot***" +:+ RedactWebhookText (String slash_c rest).
Proof.
  intros N H. destruct t as [|c t]; [done|]. unfold RedactWebhookText.
  assert (C : token_char c = true) by (cbn [String.list_ascii_of_string forallb] in H; by apply andb_prop in H as [? _]).
  assert (T : token_here ("/bot" +:+ String c t +:+ String slash_c rest) = true) by (unfold token_here; cbn; exact C).
  rewrite <-(redact_token (String c t) rest H).
  change ("/bot" +:+ String c t +:+ String slash_c rest) with (String slash_c ("bot" +:+ String c t +:+ String slash_c rest)) in *.
  cbn [redact_from andb]. rewrite T. reflexivity.
Qed.

(** No bot token in what people read: a text that quotes a request to the messenger (an error of
    the transport, a receiver's answer), redacted, does not depend on the token, for every token of
    the messenger's alphabet and whatever surrounds the address. *)
Lemma bot_token_redacted (pre post base tok tok' : string) :
  tok ≠ "" → trim_space tok = tok → forallb token_char (String.list_ascii_of_string tok) = true →
  tok' ≠ "" → trim_space tok' = tok' → forallb token_char (String.list_ascii_of_string tok') = true →
  RedactWebhookText (pre +:+ TelegramSendURL base tok +:+ post) = RedactWebhookText (pre +:+ TelegramSendURL base tok' +:+ post).
Proof.
  intros N1 T1 C1 N2 T2 C2.
  assert (E : ∀ t, t ≠ "" → trim_space t = t → forallb token_char (String.list_ascii_of_string t) = true →
    RedactWebhookText (pre +:+ TelegramSendURL base t +:+ post) =
    RedactWebhookText (pre +:+ TelegramAPIBase base) +:+ "/bot***" +:+ RedactWebhookText ("/sendMessage" +:+ post)).
  { intros t N T C. unfold TelegramSendURL. rewrite T.
    replace (pre +:+ (TelegramAPIBase base +:+ "/bot" +:+ t +:+ "/sendMessage") +:+ post)
      with ((pre +:+ TelegramAPIBase base) +:+ String slash_c ("bot" +:+ t +:+ ("/sendMessage" +:+ post)))
      by (rewrite <-!app_assoc_s; reflexivity).
    unfold RedactWebhookText at 1. rewrite redact_app by lia. f_equal.
    apply (redact_bot t ("sendMessage" +:+ post) N C). }
  by rewrite !E.
Qed.

(** ** Digests *)

Definition concat_s (l : list string) : string := foldr String.append "" l.

Definition trailer (left : Z) : string := if left =? 0 then "" else nl +:+ nl +:+ txt_more +:+ format_int left.

(** What each item adds to a digest without a template. *)
Fixpoint plain_chunks (asHTML : bool) (lastFeed : Z) (items : list (Entry * WebhookFeed)) : list string :=
  match items with
  | [] => []
  | (e, f) :: rest => (digest_heading asHTML lastFeed f +:+ digest_line asHTML e) :: plain_chunks asHTML (wf_ID f) rest
  end.

Lemma chatAppend_cases b s n : (chatAppend b s n = (b +:+ s, true) ∧ slen (b +:+ s) <= webhookChatTextMax) ∨
  chatAppend b s n = (b +:+ nl +:+ nl +:+ txt_more +:+ format_int n, false).
Proof. unfold chatAppend. destruct (_ <? _) eqn:E; [by right|left]. bool_to_prop. rewrite slen_app. done. Qed.

Lemma trailer_pos n : 0 < n → trailer n = nl +:+ nl +:+ txt_more +:+ format_int n.
Proof. unfold trailer. intros H. by rewrite (proj2 (Z.eqb_neq n 0)) by lia. Qed.

Lemma trailer_short n : slen (trailer n) <= 34.
Proof.
  unfold trailer. destruct (n =? 0); [by vm_compute|]. rewrite !slen_app. pose proof (format_int_short n).
  change (slen nl) with 1. change (slen txt_more) with 11. lia.
Qed.

Lemma digest_plain_spec asHTML last b items : slen b <= webhookChatTextMax →
  ∃ k, (k ≤ length items)%nat ∧
    digest_plain asHTML last b items = b +:+ concat_s (take k (plain_chunks asHTML last items)) +:+ trailer (Z.of_nat (length items - k)) ∧
    slen (b +:+ concat_s (take k (plain_chunks asHTML last items))) <= webhookChatTextMax.
Proof.
  revert last b. induction items as [|[e f] items IH]; intros last b L.
  - exists 0%nat. simpl. rewrite !app_empty_r. done.
  - cbn [digest_plain plain_chunks].
    set (c := digest_heading asHTML last f +:+ digest_line asHTML e).
    destruct (chatAppend_cases b c (Z.of_nat (length ((e, f) :: items)))) as [[-> L']| ->].
    + destruct (IH (wf_ID f) _ L') as (k & Hk & E & B). exists (S k). split; [simpl; lia|].
      cbn [take concat_s foldr]. change (foldr String.append "" ?l) with (concat_s l).
      change (String.append c ?x) with (c +:+ x). split; [|by rewrite app_assoc_s].
      rewrite E. cbn [length]. by rewrite <-!app_assoc_s.
    + exists 0%nat. split; [lia|]. cbn [take concat_s foldr]. rewrite trailer_pos by (cbn [length]; lia).
      split; [|by rewrite app_empty_r]. by rewrite Nat.sub_0_r.
Qed.

Section DigestFacts.
Context (template : string → TemplateData → err + string).

(** The text an item adds under a template. *)
Definition templated_chunk (tmpl : string) (it : Entry * WebhookFeed) (c : string) : Prop :=
  ∃ s, renderChatTemplate template tmpl it.2 it.1 None = inr s ∧ c = nl +:+ nl +:+ trim_space s.

Lemma digest_templated_spec tmpl b items text : slen b <= webhookChatTextMax → digest_templated template tmpl b items = inr text →
  ∃ shown, (length shown ≤ length items)%nat ∧ Forall2 (templated_chunk tmpl) (take (length shown) items) shown ∧
    text = b +:+ concat_s shown +:+ trailer (Z.of_nat (length items - length shown)) ∧
    slen (b +:+ concat_s shown) <= webhookChatTextMax.
Proof.
  revert b. induction items as [|[e f] items IH]; intros b L H.
  - injection H as <-. exists []. simpl. rewrite !app_empty_r. done.
  - cbn [digest_templated] in H. destruct (renderChatTemplate _ _ _ _ _) as [|s] eqn:R; [done|].
    destruct (chatAppend_cases b (nl +:+ nl +:+ trim_space s) (Z.of_nat (length ((e, f) :: items)))) as [[E L']|E]; rewrite E in H.
    + destruct (IH _ L' H) as (shown & Hk & F & -> & B). exists ((nl +:+ nl +:+ trim_space s) :: shown).
      split; [simpl; lia|]. split; [cbn [length take]; constructor; [by exists s|done]|].
      cbn [concat_s foldr length]. change (foldr String.append "" ?l) with (concat_s l).
      change (String.append ?c ?x) with (c +:+ x) in *. split; [by rewrite <-!app_assoc_s|].
      rewrite <-!app_assoc_s in B. by rewrite <-!app_assoc_s.
    + injection H as <-. exists []. split; [simpl; lia|]. split; [constructor|]. cbn [concat_s foldr length].
      rewrite trailer_pos by lia. split; [|by rewrite app_empty_r]. by rewrite Nat.sub_0_r.
Qed.

Lemma digest_head_short asHTML n : slen (digest_head asHTML n) <= 60.
Proof.
  unfold digest_head. pose proof (format_int_short n).
  destruct asHTML; rewrite !slen_app; change (slen txt_digest) with 18; [change (slen "<b>") with 3; change (slen "</b>") with 4|]; lia.
Qed.

(** A digest fits a chat message and accounts for every item: its text is the heading with the
    number of items, then one piece for each of the first items, in order (a feed's title where the
    feed changes and a line, or the rendered template), and when not all fit a closing line with
    the number of those left out; and it is at most 4096 bytes long. *)
Lemma digest_text_accounts (tmpl : string) (items : list (Entry * WebhookFeed)) (asHTML : bool) (text : string) :
  digestChatText template tmpl items asHTML = inr text →
  slen text <= 4096 ∧
  ∃ shown, (length shown ≤ length items)%nat ∧
    text = digest_head asHTML (Z.of_nat (length items)) +:+ concat_s shown +:+ trailer (Z.of_nat (length items - length shown)) ∧
    (if negb (String.eqb (trim_space tmpl) "") then Forall2 (templated_chunk tmpl) (take (length shown) items) shown
     else shown = take (length shown) (plain_chunks asHTML (-1) items)).
Proof.
  unfold digestChatText. intros H. pose proof (digest_head_short asHTML (Z.of_nat (length items))) as HS.
  set (h := digest_head _ _) in *. assert (L : slen h <= webhookChatTextMax) by (unfold webhookChatTextMax; lia).
  destruct (negb _).
  - destruct (digest_templated_spec _ _ _ _ L H) as (shown & Hk & F & E & B). split; [|by exists shown].
    rewrite E, app_assoc_s, slen_app. pose proof (trailer_short (Z.of_nat (length items - length shown))). unfold webhookChatTextMax in B. lia.
  - injection H as <-. destruct (digest_plain_spec asHTML (-1) h items L) as (k & Hk & E & B).
    assert (LC : ∀ l x, length (plain_chunks asHTML x l) = length l).
    { induction l as [|[e f] l IH]; intros x; [done|]. cbn [plain_chunks length]. by rewrite IH. }
    assert (LT : length (take k (plain_chunks asHTML (-1) items)) = k) by (rewrite length_take, LC; lia).
    rewrite E. split.
    + rewrite app_assoc_s, slen_app. pose proof (trailer_short (Z.of_nat (length items - k))). unfold webhookChatTextMax in B. lia.
    + exists (take k (plain_chunks asHTML (-1) items)). rewrite LT. done.
Qed.

End DigestFacts.

(** Grouping by feed is by title: feeds of one title alternate, each change repeating the title. *)
Example digest_titles_alternate :
  let it i f := (mkEntry i f "t" "" "" None None "" "", mkWebhookFeed f "News" "full") in
  plain_chunks false (-1) [it 1 1; it 2 2; it 3 1]
  = repeat (nl +:+ nl +:+ "News" +:+ nl +:+ bullet +:+ "t") 3.
Proof. vm_compute. reflexivity. Qed.

(** * Witnesses *)

Lemma bot_token_redacted_witness :
  RedactWebhookText ("Post " +:+ TelegramSendURL "http://tg.local/" "123:ABC" +:+ ": dial tcp") =
  RedactWebhookText ("Post " +:+ TelegramSendURL "http://tg.local/" "9:z" +:+ ": dial tcp") ∧
  RedactWebhookText ("Post " +:+ TelegramSendURL "http://tg.local/" "9:z" +:+ ": dial tcp") =
    "Post http://tg.local/bot***/sendMessage: dial tcp"%string.
Proof.
  split; [|vm_compute; reflexivity].
  apply (bot_token_redacted "Post " ": dial tcp" "http://tg.local/" "123:ABC" "9:z"); vm_compute; done.
Defined.

Definition w_items : list (Entry * WebhookFeed) :=
  repeat (mkEntry 1 1 "a title of some length" "https://a.example/some/path" "" None None "" "", mkWebhookFeed 1 "Feed" "full") 60.

Lemma digest_text_accounts_witness :
  ∃ text shown, digestChatText (λ _ _, inl ENotFound) "" w_items true = inr text ∧ slen text <= 4096 ∧
    (length shown < 60)%nat ∧
    text = digest_head true 60 +:+ concat_s shown +:+ trailer (Z.of_nat (60 - length shown)).
Proof.
  destruct (digestChatText (λ _ _, inl ENotFound) "" w_items true) as [e|text] eqn:E; [vm_compute in E; discriminate|].
  destruct (digest_text_accounts (λ _ _, inl ENotFound) "" w_items true text E) as (L & shown & H1 & H2 & H3).
  exists text, shown. split; [done|]. split; [exact L|]. split; [|exact H2].
  apply Nat.le_lteq in H1 as [H1|H1]; [exact H1|]. exfalso. rewrite H1 in H3. simpl in H3.
  assert (B : slen (concat_s shown) <= 4096).
  { rewrite H2, !slen_app in L. unfold slen in *. lia. }
  rewrite H3 in B. vm_compute in B. done.
Defined.
