(* ===== verification/PollLog.v ===== *)
(** The poll history of a feed ([storage/feed_poll_log.go]): one row per state
    change or streak of identical failures, capped per feed.  [RecordFeedPoll]
    is one statement: its parts all read the rows as they were before it. *)

From S2P Require Import Prelude GoStrings.

(** * Definitions *)

(** storage/feed_poll_log.go [FeedPollLogEntry] *)
Record FeedPollLogEntry := mkPollLog {
  pl_id : Z; pl_feed_id : Z; pl_at : Z; pl_ok : bool; pl_error : string;
  pl_inserted : Z; pl_duration_ms : Z; pl_repeat_count : Z;
}.

(** storage/feed_poll_log.go [RecordFeedPollParams] *)
Record RecordFeedPollParams := mkRecordPoll {
  rp_feed_id : Z; rp_at : Z; rp_ok : bool; rp_error : string; rp_inserted : Z; rp_duration : Z;
}.

Record PollLogDb := mkPollLogDb { pd_rows : gmap Z FeedPollLogEntry; pd_next_id : Z }.

Definition MaxFeedPollLogError : nat := Z.to_nat 2000.
Definition MaxFeedPollLogPerFeed : nat := 30.

(** storage/feed_poll_log.go [capPollLogError] *)
Definition capPollLogError (errText : string) : string :=
  if (MaxFeedPollLogError <? String.length errText)%nat
  then String.substring 0 MaxFeedPollLogError errText else errText.

(** storage/feed_poll_log.go [pollLogDurationMS] *)
Definition pollLogDurationMS (d : Z) : Z :=
  let durMS := Z.quot d millisecond in
  let durMS := if durMS <? 0 then 0 else durMS in
  if 2 ^ 31 - 1 <? durMS then 2 ^ 31 - 1 else durMS.

(** [ORDER BY at DESC, id DESC]. *)
Definition later (a b : FeedPollLogEntry) : Prop :=
  pl_at b < pl_at a ∨ (pl_at b = pl_at a ∧ pl_id b <= pl_id a).
#[export] Instance later_dec : RelDecision later.
Proof. unfold later. intros a b. apply _. Defined.

(** The rows of a feed, newest first. *)
Definition feed_log (db : PollLogDb) (feedID : Z) : list FeedPollLogEntry :=
  merge_sort later (filter (λ l, pl_feed_id l = feedID) (map_to_list (pd_rows db)).*2).

(** storage/feed_poll_log.go [PostgresStore.RecordFeedPoll] *)
Definition RecordFeedPoll (now : Z) (db : PollLogDb) (p : RecordFeedPollParams) : PollLogDb :=
  let at_ := if time_is_zero (rp_at p) then now else rp_at p in
  let error := capPollLogError (rp_error p) in
  let dur := pollLogDurationMS (rp_duration p) in
  let snapshot := feed_log db (rp_feed_id p) in
  let same := match snapshot with
              | latest :: _ => eqb (pl_ok latest) (rp_ok p) && String.eqb (pl_error latest) error
              | [] => false
              end in
  if same then
    match snapshot with
    | latest :: _ =>
        if rp_ok p then db
        else mkPollLogDb
               (<[pl_id latest := mkPollLog (pl_id latest) (pl_feed_id latest) at_ (pl_ok latest)
                    (pl_error latest) (rp_inserted p) dur (pl_repeat_count latest + 1)]> (pd_rows db))
               (pd_next_id db)
    | [] => db
    end
  else
    let doomed := pl_id <$> drop (MaxFeedPollLogPerFeed - 1) snapshot in
    mkPollLogDb
      (<[pd_next_id db := mkPollLog (pd_next_id db) (rp_feed_id p) at_ (rp_ok p) error
                            (rp_inserted p) dur 1]>
         (filter (λ kv, kv.1 ∉ doomed) (pd_rows db)))
      (pd_next_id db + 1).

(** storage/feed_poll_log.go [PostgresStore.ListFeedPollLog] *)
Definition ListFeedPollLog (db : PollLogDb) (feedID limit : Z) : list FeedPollLogEntry :=
  let limit := if limit <=? 0 then 20 else limit in
  let limit := if 500 <? limit then 500 else limit in
  take (Z.to_nat limit) (feed_log db feedID).

(** * The specification

    The history of a feed as a list, newest first. *)

Definition record_spec (p : RecordFeedPollParams) (id at_ : Z) (log : list FeedPollLogEntry)
    : list FeedPollLogEntry :=
  let error := capPollLogError (rp_error p) in
  let dur := pollLogDurationMS (rp_duration p) in
  let new := mkPollLog id (rp_feed_id p) at_ (rp_ok p) error (rp_inserted p) dur 1 in
  match log with
  | [] => [new]
  | h :: t =>
      if eqb (pl_ok h) (rp_ok p) && String.eqb (pl_error h) error then
        if rp_ok p then log
        else mkPollLog (pl_id h) (pl_feed_id h) at_ (pl_ok h) (pl_error h) (rp_inserted p) dur
               (pl_repeat_count h + 1) :: t
      else new :: take (MaxFeedPollLogPerFeed - 1) log
  end.

(** * Lemmas *)

Record log_wf (db : PollLogDb) : Prop := {
  lwf_key : ∀ i l, pd_rows db !! i = Some l → pl_id l = i;
  lwf_next : ∀ i l, pd_rows db !! i = Some l → i < pd_next_id db;
}.

#[export] Instance later_trans : Transitive later.
Proof. intros a b c. unfold later. lia. Qed.
#[export] Instance later_total : Total later.
Proof. intros a b. unfold later. lia. Qed.

Lemma feed_log_elem db f l : log_wf db →
  l ∈ feed_log db f ↔ pd_rows db !! pl_id l = Some l ∧ pl_feed_id l = f.
Proof.
  intros Hwf. unfold feed_log. rewrite merge_sort_Permutation, list_elem_of_filter, list_elem_of_fmap.
  split.
  - intros [Hf ([i x] & -> & Hin%elem_of_map_to_list)]. simpl.
    by rewrite (lwf_key _ Hwf _ _ Hin).
  - intros [Hl Hf]. split; [done|]. exists (pl_id l, l). by rewrite elem_of_map_to_list.
Qed.

Lemma feed_log_NoDup db f : log_wf db → NoDup (feed_log db f).
Proof.
  intros Hwf. unfold feed_log. rewrite merge_sort_Permutation.
  apply NoDup_filter, NoDup_fmap_2_strong; [|apply NoDup_map_to_list].
  intros [i a] [j b] Ha%elem_of_map_to_list Hb%elem_of_map_to_list Heq. simpl in Heq. subst b.
  by rewrite <-(lwf_key _ Hwf _ _ Ha), <-(lwf_key _ Hwf _ _ Hb).
Qed.

Lemma feed_log_sorted db f : StronglySorted later (feed_log db f).
Proof. apply (StronglySorted_merge_sort _ _). Qed.

(** A sorted list without repetitions that holds a feed's rows is its log. *)
Lemma feed_log_unique db f l : log_wf db → StronglySorted later l → NoDup l →
  (∀ x, x ∈ l ↔ pd_rows db !! pl_id x = Some x ∧ pl_feed_id x = f) → feed_log db f = l.
Proof.
  intros Hwf Hs Hnd Hl. apply (StronglySorted_unique_strong later).
  - intros x y Hx Hy Hxy Hyx. apply (feed_log_elem _ _ _ Hwf) in Hx as [Hx _].
    apply Hl in Hy as [Hy _]. assert (pl_id x = pl_id y) as E by (unfold later in *; lia).
    rewrite E in Hx. congruence.
  - apply feed_log_sorted.
  - done.
  - apply NoDup_Permutation; [by apply feed_log_NoDup|done|]. intros x.
    by rewrite Hl, feed_log_elem.
Qed.

(** * Properties *)

Lemma take_drop_split (db : PollLogDb) f n x : log_wf db →
  x ∈ take n (feed_log db f) ↔ x ∈ feed_log db f ∧ pl_id x ∉ pl_id <$> drop n (feed_log db f).
Proof.
  intros Hwf. pose proof (feed_log_NoDup db f Hwf) as Hnd.
  rewrite <-(take_drop n (feed_log db f)) in Hnd. apply NoDup_app in Hnd as (_ & Hdis & _).
  split.
  - intros Hx. assert (x ∈ feed_log db f) as Hin by (by eapply elem_of_sublist; [|apply sublist_take]).
    split; [done|]. intros (y & Hid & Hy)%list_elem_of_fmap. apply (Hdis x Hx).
    assert (y ∈ feed_log db f) as Hyl by (by eapply elem_of_sublist; [|apply sublist_drop]).
    apply (feed_log_elem _ _ _ Hwf) in Hin as [Hin _]. apply (feed_log_elem _ _ _ Hwf) in Hyl as [Hyl _].
    rewrite Hid in Hin. assert (x = y) as -> by congruence. done.
  - intros [Hin Hno]. rewrite <-(take_drop n (feed_log db f)) in Hin.
    apply elem_of_app in Hin as [?|Hin]; [done|]. destruct Hno. by apply list_elem_of_fmap_2.
Qed.

(** Replacing the newest row of a feed by a newer version of itself. *)
Lemma feed_log_update db f h t h' :
  log_wf db → feed_log db f = h :: t → pl_id h' = pl_id h → pl_feed_id h' = f →
  (∀ x, x ∈ h :: t → pl_at x <= pl_at h') →
  let db' := mkPollLogDb (<[pl_id h := h']> (pd_rows db)) (pd_next_id db) in
  log_wf db' ∧ feed_log db' f = h' :: t ∧ ∀ f', f' ≠ f → feed_log db' f' = feed_log db f'.
Proof.
  intros Hwf Hlog Hid Hfeed Hat db'.
  assert (pd_rows db !! pl_id h = Some h ∧ pl_feed_id h = f) as [Hh Hhf].
  { apply feed_log_elem; [done|]. rewrite Hlog. left. }
  assert (log_wf db') as Hwf'.
  { split; cbn [db' pd_rows pd_next_id].
    - intros i l [[<- <-]|[_ Hl]]%lookup_insert_Some; [done|by eapply lwf_key].
    - intros i l [[<- _]|[_ Hl]]%lookup_insert_Some; by eapply lwf_next. }
  pose proof (feed_log_sorted db f) as Hs. pose proof (feed_log_NoDup db f Hwf) as Hnd.
  rewrite Hlog in Hs, Hnd. apply NoDup_cons in Hnd as [Hnt Hnd]. apply StronglySorted_inv in Hs as [Hst Hht].
  assert (∀ x, x ∈ t → pd_rows db !! pl_id x = Some x ∧ pl_feed_id x = f ∧ pl_id x ≠ pl_id h) as Ht.
  { intros x Hx. assert (x ∈ feed_log db f) as Hxl by (rewrite Hlog; by right).
    apply feed_log_elem in Hxl as [? ?]; [|done]. split_and!; [done..|]. intros E. rewrite E in *. congruence. }
  split; [done|]. split.
  - apply feed_log_unique; [done| | |].
    + constructor; [done|]. apply Forall_forall. intros x Hx.
      assert (later h x) by (by eapply (proj1 (Forall_forall _ _))).
      pose proof (Hat x ltac:(by right)). pose proof (Hat h ltac:(left)).
      unfold later in *. rewrite Hid. lia.
    + apply NoDup_cons. split; [|done]. intros Hin. destruct (Ht h' Hin) as (_ & _ & ?). congruence.
    + intros x. rewrite elem_of_cons. cbn [db' pd_rows]. rewrite lookup_insert_Some. split.
      * intros [->|Hx]; [by split; [left|]|]. destruct (Ht x Hx) as (? & ? & ?).
        split; [right; by split|done].
      * intros [[[Hi <-]|[Hi Hx]] Hf]; [by left|right].
        assert (x ∈ feed_log db f) as Hin by (by apply feed_log_elem).
        rewrite Hlog in Hin. apply elem_of_cons in Hin as [->|?]; done.
  - intros f' Hne. apply feed_log_unique; [done|apply feed_log_sorted|by apply feed_log_NoDup|].
    intros x. rewrite feed_log_elem by done. cbn [db' pd_rows]. rewrite lookup_insert_Some. split.
    + intros [Hx Hf]. split; [|done]. right. split; [|done]. intros E. rewrite <-E in Hx. congruence.
    + intros [[[Hi <-]|[Hi Hx]] Hf]; [congruence|done].
Qed.

(** Adding a new newest row and trimming. *)
Lemma feed_log_add db f n new : log_wf db → pl_id new = pd_next_id db → pl_feed_id new = f →
  (∀ x, x ∈ feed_log db f → pl_at x <= pl_at new) →
  let db' := mkPollLogDb (<[pd_next_id db := new]>
               (filter (λ kv, kv.1 ∉ pl_id <$> drop n (feed_log db f)) (pd_rows db)))
               (pd_next_id db + 1) in
  log_wf db' ∧ feed_log db' f = new :: take n (feed_log db f) ∧
  ∀ f', f' ≠ f → feed_log db' f' = feed_log db f'.
Proof.
  intros Hwf Hid Hfeed Hat db'. set (gone := pl_id <$> drop n (feed_log db f)).
  assert (∀ i l, pd_rows db' !! i = Some l ↔
    (i = pd_next_id db ∧ l = new) ∨ (pd_rows db !! i = Some l ∧ i ∉ gone)) as Hrows.
  { intros i l. cbn [db' pd_rows]. rewrite lookup_insert_Some, map_lookup_filter_Some. simpl.
    split; [naive_solver|]. intros [[-> ->]|[Hl Hg]]; [by left|right]. split; [|done].
    apply (lwf_next _ Hwf) in Hl. lia. }
  assert (log_wf db') as Hwf'.
  { split; intros i l Hl; apply Hrows in Hl as [[-> ->]|[Hl _]]; cbn [db' pd_next_id]; try done.
    - by eapply lwf_key.
    - lia.
    - apply (lwf_next _ Hwf) in Hl. lia. }
  assert (∀ x, pd_rows db !! pl_id x = Some x → pl_id x ≠ pd_next_id db) as Hfresh.
  { intros x Hx E. apply (lwf_next _ Hwf) in Hx. lia. }
  split; [done|]. split.
  - apply feed_log_unique; [done| | |].
    + constructor; [by apply StronglySorted_take_drop, feed_log_sorted|]. apply Forall_forall.
      intros x [Hx _]%(take_drop_split db f n x Hwf). pose proof (Hat x Hx).
      apply feed_log_elem in Hx as [Hx _]; [|done]. apply (lwf_next _ Hwf) in Hx.
      unfold later. rewrite Hid. lia.
    + apply NoDup_cons. split.
      * intros [Hx _]%(take_drop_split db f n _ Hwf). apply feed_log_elem in Hx as [Hx _]; [|done].
        by apply Hfresh in Hx.
      * eapply sublist_NoDup; [by apply (feed_log_NoDup db f)|apply sublist_take].
    + intros x. rewrite elem_of_cons, (take_drop_split db f n x Hwf), feed_log_elem, Hrows by done.
      fold gone. split.
      * intros [->|[[Hx Hf] Hg]]; [by split; [left|]|]. split; [by right|done].
      * intros [[[_ ->]|[Hx Hg]] Hf]; [by left|right]. done.
  - intros f' Hne. apply feed_log_unique; [done|apply feed_log_sorted|by apply feed_log_NoDup|].
    intros x. rewrite feed_log_elem, Hrows by done. split.
    + intros [Hx Hf]. split; [|done]. right. split; [done|]. intros (y & Hy & Hin)%list_elem_of_fmap.
      assert (y ∈ feed_log db f) as Hyl by (by eapply elem_of_sublist; [|apply sublist_drop]).
      apply feed_log_elem in Hyl as [Hyl Hyf]; [|done]. rewrite <-Hy in Hyl. congruence.
    + intros [[[_ ->]|[Hx _]] Hf]; [congruence|done].
Qed.

(** Neighbouring rows of a history differ. *)
Definition transitions (log : list FeedPollLogEntry) : Prop :=
  ∀ i a b, log !! i = Some a → log !! S i = Some b → pl_ok a = pl_ok b → pl_error a ≠ pl_error b.

Lemma transitions_cons a log : transitions log →
  match log with [] => True | b :: _ => pl_ok a = pl_ok b → pl_error a ≠ pl_error b end →
  transitions (a :: log).
Proof.
  intros Ht Hh [|i] x y Hx Hy; simplify_eq/=; [|by eapply Ht].
  destruct log as [|b l]; simplify_eq/=. auto.
Qed.

Lemma transitions_take n log : transitions log → transitions (take n log).
Proof.
  intros Ht i a b Ha Hb. apply lookup_take_Some in Ha as [Ha _]. apply lookup_take_Some in Hb as [Hb _].
  by eapply Ht.
Qed.

(** [RecordFeedPoll] implements the history as a list.  With a clock that
    does not go back, the feed's log becomes: itself after a success on a
    success, the same streak with its counter raised after the same failure,
    and otherwise a new first row on at most 29 older ones.  Other feeds'
    logs do not change, a log within the cap of 30 rows stays within it, and
    neighbouring rows never repeat the same outcome. *)
Lemma record_feed_poll_refines (now : Z) (db : PollLogDb) (p : RecordFeedPollParams)
    (Hwf : log_wf db) :
  let at_ := if time_is_zero (rp_at p) then now else rp_at p in
  let f := rp_feed_id p in
  let db' := RecordFeedPoll now db p in
  (∀ x, x ∈ feed_log db f → pl_at x <= at_) →
  log_wf db' ∧
  feed_log db' f = record_spec p (pd_next_id db) at_ (feed_log db f) ∧
  (∀ f', f' ≠ f → feed_log db' f' = feed_log db f') ∧
  ((length (feed_log db f) <= 30)%nat → (length (feed_log db' f) <= 30)%nat) ∧
  (transitions (feed_log db f) → transitions (feed_log db' f)).
Proof.
  intros at_ f db' Hat.
  assert (log_wf db' ∧ feed_log db' f = record_spec p (pd_next_id db) at_ (feed_log db f) ∧
    (∀ f', f' ≠ f → feed_log db' f' = feed_log db f')) as (H1 & H2 & H3).
  { unfold db', RecordFeedPoll, record_spec. fold at_ f.
    destruct (feed_log db f) as [|h t] eqn:Hlog.
    - pose proof (feed_log_add db f 29 (mkPollLog (pd_next_id db) f at_ (rp_ok p)
        (capPollLogError (rp_error p)) (rp_inserted p) (pollLogDurationMS (rp_duration p)) 1) Hwf
        eq_refl eq_refl) as Hadd. rewrite Hlog in Hadd. by apply Hadd.
    - destruct (_ && _) eqn:Hsame.
      + destruct (rp_ok p) eqn:Hok; [by rewrite Hlog|].
        apply (feed_log_update db f h t); try done.
        assert (h ∈ feed_log db f) as Hh by (rewrite Hlog; left).
        by apply feed_log_elem in Hh as [_ ?].
      + pose proof (feed_log_add db f 29 (mkPollLog (pd_next_id db) f at_ (rp_ok p)
          (capPollLogError (rp_error p)) (rp_inserted p) (pollLogDurationMS (rp_duration p)) 1) Hwf
          eq_refl eq_refl) as Hadd. rewrite Hlog in Hadd. by apply Hadd. }
  split; [done|]. split; [done|]. split; [done|]. rewrite H2. unfold record_spec.
  destruct (feed_log db f) as [|h t].
  { split; [simpl; lia|]. intros _ [|[|]] a b; simpl; congruence. }
  destruct (eqb (pl_ok h) (rp_ok p) && String.eqb (pl_error h) (capPollLogError (rp_error p))) eqn:Hsame.
  - destruct (rp_ok p); [done|]. split; [done|]. intros Ht [|i] a b Ha Hb; simplify_eq/=.
    + by apply (Ht 0%nat h b).
    + by eapply (Ht (S i)).
  - split.
    + intros _. change (MaxFeedPollLogPerFeed - 1)%nat with 29%nat. cbn [length]. rewrite length_take. lia.
    + intros Ht. apply transitions_cons; [by apply transitions_take|]. simpl. intros E1 E2.
      rewrite E1, <-E2, eqb_reflx, String.eqb_refl in Hsame. done.
Qed.

Lemma record_feed_poll_refines_witness :
  let p := mkRecordPoll 7 50 false "boom" 0 0 in
  let db1 := RecordFeedPoll 0 (mkPollLogDb ∅ 1) p in
  let db2 := RecordFeedPoll 0 db1 (mkRecordPoll 7 60 false "boom" 0 0) in
  feed_log db2 7 = [mkPollLog 1 7 60 false "boom" 0 0 2].
Proof.
  intros p db1 db2.
  destruct (record_feed_poll_refines 0 (mkPollLogDb ∅ 1) p) as (Hwf1 & Hlog1 & _).
  { split; intros i l; cbn [pd_rows]; by rewrite lookup_empty. }
  { intros x Hx. by apply elem_of_nil in Hx. }
  destruct (record_feed_poll_refines 0 db1 (mkRecordPoll 7 60 false "boom" 0 0) Hwf1) as (_ & Hlog2 & _).
  { intros x Hx. assert (x ∈ feed_log db1 7) as Hx' by exact Hx.
    replace (feed_log db1 7) with [mkPollLog 1 7 50 false "boom" 0 0 1] in Hx' by exact (eq_sym Hlog1).
    by apply list_elem_of_singleton in Hx' as ->. }
  etransitivity; [exact Hlog2|].
  replace (feed_log db1 _) with [mkPollLog 1 7 50 false "boom" 0 0 1] by exact (eq_sym Hlog1).
  reflexivity.
Defined.
