(* ===== verification/FeedRules.v ===== *)
(** The per-feed rules on fetched items ([reader/rules.go]): blocked and keep
    expressions, one per line, and URL rewriting by pattern/replacement pairs.
    [regexp] is a parameter, as in [FilterEngine]. *)

From S2P Require Import Prelude GoStrings Types.
From Stdlib Require Import Ascii.

(** * Definitions *)

Section Rules.
Context {regex : Type} (re_compile : string → option regex) (re_match : regex → string → bool)
        (re_replace : regex → string → string → string).

Definition newline : ascii := "010"%char.

(** reader/rules.go [compileMultilineRegex] [None] is nil. *)
Definition compileMultilineRegex (rules : string) : option regex :=
  let rules := trim_space rules in
  if String.eqb rules "" then None
  else
    let patterns := filter (λ l, l ≠ "") (trim_space <$> split_on newline rules) in
    match patterns with
    | [] => None
    | _ => re_compile ("(?:" +:+ join ")|(?:" patterns +:+ ")")
    end.

Definition rule_text (e : BEntry) : string :=
  be_title e +:+ " " +:+ be_content e +:+ " " +:+ be_url e
  +:+ match be_author e with Some a => " " +:+ a | None => "" end.

(** reader/rules.go [ApplyFeedRules] *)
Definition ApplyFeedRules (entries : list BEntry) (blockedRules keepRules : string) : list BEntry :=
  match compileMultilineRegex blockedRules, compileMultilineRegex keepRules with
  | None, None => entries
  | blockedRE, keepRE =>
      filter (λ e,
        match blockedRE with Some re => re_match re (rule_text e) | None => false end = false ∧
        match keepRE with Some re => re_match re (rule_text e) | None => true end = true) entries
  end.

(** reader/rules.go:51-62 [ApplyURLRewriteRules, the compiled pairs] *)
Fixpoint rewrite_pairs (lines : list string) : list (regex * string) :=
  match lines with
  | p :: repl :: rest =>
      let pattern := trim_space p in
      if String.eqb pattern "" then rewrite_pairs rest
      else match re_compile pattern with
           | None => rewrite_pairs rest
           | Some re => (re, repl) :: rewrite_pairs rest
           end
  | _ => []
  end.

Definition set_url (e : BEntry) (u : string) : BEntry :=
  mkBEntry (be_title e) u (be_content e) (be_author e) (be_published_at e) (be_hash e).

(** reader/rules.go [ApplyURLRewriteRules] *)
Definition ApplyURLRewriteRules (entries : list BEntry) (rules : string) : list BEntry :=
  let rules := trim_space rules in
  if String.eqb rules "" then entries
  else
    let lines := split_on newline rules in
    if negb (Nat.even (length lines)) then entries
    else match rewrite_pairs lines with
         | [] => entries
         | compiled =>
             (λ e, set_url e (foldl (λ u '(re, repl), re_replace re u repl) (be_url e) compiled))
               <$> entries
         end.

(** * Lemmas *)

Lemma ApplyFeedRules_sub entries b k : ApplyFeedRules entries b k `sublist_of` entries.
Proof. unfold ApplyFeedRules. repeat case_match; try done; apply sublist_filter. Qed.

(** Rewriting changes URLs only: the items and their hashes stay. *)
Lemma ApplyURLRewriteRules_hashes entries rules :
  be_hash <$> ApplyURLRewriteRules entries rules = be_hash <$> entries.
Proof.
  unfold ApplyURLRewriteRules. repeat case_match; try done. rewrite <-list_fmap_compose.
  by apply list_fmap_ext.
Qed.

End Rules.
