(* ===== verification/Refresher.v ===== *)
(** The feed refresher ([service/feed_refresher.go], [feed_inbound.go],
    [feed_refresher_dedup.go], [filter_actions.go], [filter_cache.go],
    [poll_window.go]): one poll of a feed from the stored row to the stored
    items, deliveries and history.

    A computation is a state-passing function on the world: the tables, the
    refresher's memory (caches, host limiter, filter engine, the ids whose log
    row is known to be "ok"), the realtime events and an oracle of faults.
    Every call to the store first takes a boolean from the oracle: [true] makes
    the call fail without effect, an empty oracle never fails.  The refresher
    is the one [cmd] wires: every optional dependency is set and the store is
    [PostgresStore], so the optional interfaces it tests for are present.

    Parameters are the code outside the repository or outside the model: the
    fetch ([HandlerRegistry.Fetch]), HTML sanitizing, regexps, xxhash, URL host
    and feed-type detection, the JSON codecs of the two bridge cursors, the
    full-text matcher and the weekly item count. *)

From S2P Require Import Prelude GoStrings PollSchedule PollWindow Types HostLimiter TtlCache.
From S2P Require Import FilterEngine FeedStore WebhookStore EntryStore PollLog FeedRules.

(** * The world *)

Record Db := mkDb {
  db_feeds : FeedDb;
  db_entries : EntryDb;
  db_hooks : HookDb;
  db_polllog : PollLogDb;
  db_filters : gmap Z (list Filter);   (* ListEnabledFilters by user *)
  db_labels : gmap Z Z;                (* label ↦ user *)
  db_matches : gset (Z * Z);           (* (filter, entry) *)
}.

Definition set_db_feeds (d : Db) x := mkDb x (db_entries d) (db_hooks d) (db_polllog d) (db_filters d) (db_labels d) (db_matches d).
Definition set_db_entries (d : Db) x := mkDb (db_feeds d) x (db_hooks d) (db_polllog d) (db_filters d) (db_labels d) (db_matches d).
Definition set_db_hooks (d : Db) x := mkDb (db_feeds d) (db_entries d) x (db_polllog d) (db_filters d) (db_labels d) (db_matches d).
Definition set_db_polllog (d : Db) x := mkDb (db_feeds d) (db_entries d) (db_hooks d) x (db_filters d) (db_labels d) (db_matches d).
Definition set_db_matches (d : Db) x := mkDb (db_feeds d) (db_entries d) (db_hooks d) (db_polllog d) (db_filters d) (db_labels d) x.

Inductive Event :=
| EvNewEntries (feedID : Z) (subs : list Subscription) (entries : list Entry)
| EvStatus (after : Feed) (subs : option (list Subscription)) (e : option err).

(** service/feed_refresher.go:33-88 [FeedRefresher, the settings] *)
Record Cfg := mkCfg {
  StoreEntriesMode : string;
  CircuitBreakerThreshold : Z;
  MinPollInterval : Z;
  MaxPollInterval : Z;
  AdaptiveMaxInterval : Z;
  SilentAfter : Z;
  SilentInterval : Z;
}.

(** reader/handler.go [FetchRequest] The fields a poll computes. *)
Record FetchRequest := mkFetchRequest {
  rq_url : string; rq_type : string; rq_etag : string; rq_last_modified : string;
  rq_bridge_state : BridgeState;
}.

(** What a poll takes from outside the model. *)
Class Env := {
  regex : Type;                                             (* regexp.Regexp *)
  re_compile : string → option regex;
  re_match : regex → string → bool;
  re_replace : regex → string → string → string;
  dedup_key : string → string;                              (* rssam_dedup_key *)
  zone : Z → Z;                                             (* time.Local *)
  url_hostname : string → option string;                    (* url.Parse, Hostname *)
  detect_type : string → string;                            (* reader.DetectFeedTypeFromURL *)
  sanitize_html : string → string;                          (* bluemonday *)
  xxh64 : string → string;                                  (* xxhash, as hex *)
  reset_max : string → string;                              (* JSON cursor of the max bridge *)
  reset_telegram : string → string;
  fetch : FetchRequest → FetchResponse * option err;        (* HandlerRegistry.Fetch *)
  query_match : list QueryMatchItem → list string → option (list (list bool));
  weekly_items : Z → Z → Z;                                 (* CountFeedItemsSince *)
  cfg : Cfg;
}.

Section Refresher.
Context `{env : Env}.

(** service/feed_refresher.go:89-99 [FeedRefresher, the memory] [m_subs] is the
    [feedSubs] of the running poll. *)
Record Mem := mkMem {
  m_ok_logged : gset Z;
  m_hosts : option HostLimiter;
  m_filter_cache : ttlCache (list Filter);
  m_hours_cache : ttlCache (option PollWindow);
  m_engine : Engine regex;
  m_subs : option (list Subscription);
}.

Record World := mkWorld {
  w_db : Db; w_mem : Mem; w_events : list Event; w_faults : list bool;
}.

Definition M (A : Type) : Type := World → World * A.
#[global] Instance M_ret : MRet M := λ A a w, (w, a).
#[global] Instance M_bind : MBind M := λ A B k m w, let '(w, a) := m w in k a w.

Definition get_db : M Db := λ w, (w, w_db w).
Definition get_mem : M Mem := λ w, (w, w_mem w).
Definition put_mem (m : Mem) : M unit := λ w, (mkWorld (w_db w) m (w_events w) (w_faults w), tt).
Definition publish (e : Event) : M unit :=
  λ w, (mkWorld (w_db w) (w_mem w) (w_events w ++ [e]) (w_faults w), tt).

Definition db_error : err := EMsg "storage error".

(** One store call: it fails without effect, or runs the statement. *)
Definition call {A} (op : Db → Db * (err + A)) : M (err + A) := λ w,
  match w_faults w with
  | true :: fs => (mkWorld (w_db w) (w_mem w) (w_events w) fs, inl db_error)
  | fs => let '(d, r) := op (w_db w) in (mkWorld d (w_mem w) (w_events w) (tail fs), r)
  end.

(** A call whose statement cannot fail. *)
Definition call_ {A} (op : Db → Db * A) : M (err + A) :=
  call (λ d, let '(d, a) := op d in (d, inr a)).

Definition to_res (d : Db) (r : FeedDb * option err) : Db * (err + unit) :=
  (set_db_feeds d r.1, match r.2 with Some e => inl e | None => inr tt end).

(** ** Settings *)

(** service/feed_refresher.go [FeedRefresher.storeMode] *)
Definition storeMode (feed : Feed) : string :=
  let mode := default "full" (NormalizeStoreMode (f_store_mode (feed_row feed))) in
  let inst := to_lower (trim_space (StoreEntriesMode cfg)) in
  if String.eqb inst "relay" then "relay"
  else if (String.eqb inst "dedup_only" || String.eqb inst "filtered") && String.eqb mode "full"
  then "filtered" else mode.

(** service/feed_refresher.go [FeedRefresher.circuitThreshold] *)
Definition circuitThreshold : Z :=
  if 0 <? CircuitBreakerThreshold cfg then CircuitBreakerThreshold cfg else 10.

(** service/feed_refresher.go [FeedRefresher.pollBounds] *)
Definition pollBounds : Z * Z :=
  (if MinPollInterval cfg <=? 0 then minute else MinPollInterval cfg,
   if MaxPollInterval cfg <=? 0 then 24 * hour else MaxPollInterval cfg).

(** service/feed_refresher.go [bridgeStateJSON] *)
Definition bridgeStateJSON (st : BridgeState) : option BridgeState :=
  if bs_is_empty st then None else Some st.

(** service/feed_refresher.go [itemSetHash] [sort.Strings] is the byte order [String.le]. *)
Definition itemSetHash (entries : list BEntry) : string :=
  match entries with
  | [] => ""
  | _ => xxh64 (String.concat "" ((λ h, h +:+ String Ascii.zero "")
                   <$> merge_sort String.le (be_hash <$> entries)))
  end.

(** service/feed_refresher.go [movedFeedURL] *)
Definition movedFeedURL (feed : Feed) (newURL : string) : string :=
  let newURL := trim_space newURL in
  if String.eqb newURL "" || String.eqb newURL (f_url (feed_row feed)) then ""
  else if negb (bool_decide (NormalizeFeedType (f_type (feed_row feed)) ∈ [""; "rss"; "atom"; "json"]))
  then ""
  else if negb (String.eqb (detect_type newURL) "rss") then "" else newURL.

(** service/feed_refresher.go [FeedRefresher.silentNextCheck] *)
Definition silentNextCheck (feed : Feed) (now next : Z) : Z * bool :=
  if (SilentAfter cfg <=? 0) || (SilentInterval cfg <=? 0) then (next, false)
  else
    let lastItem := default (f_created_at (feed_row feed)) (ps_last_entry_at (feed_ps feed)) in
    if time_is_zero lastItem || (time_sub now lastItem <? SilentAfter cfg) then (next, false)
    else
      let hi := pollBounds.2 in
      let d := if (0 <? hi) && (hi <? SilentInterval cfg) then hi else SilentInterval cfg in
      let silentNext := time_add now d in
      if time_after silentNext next then (silentNext, true) else (next, false).

(** service/feed_refresher.go [FeedRefresher.adaptiveNextCheck] The zero time
    is [zero_time]. *)
Definition adaptiveNextCheck (feed : Feed) (now min max : Z) : M Z :=
  if negb (f_adaptive_interval (feed_row feed)) || (AdaptiveMaxInterval cfg <=? 0) then mret zero_time
  else
    let ceiling := if max <? AdaptiveMaxInterval cfg then max else AdaptiveMaxInterval cfg in
    let base := time_sub (FeedNextCheckAt now (f_interval_minutes (feed_row feed)) min max) now in
    if ceiling <=? base then mret zero_time
    else
      r ← call_ (λ d, (d, weekly_items (f_id (feed_row feed)) (time_add now (- AdaptivePollWindow))));
      match r with
      | inl _ => mret zero_time
      | inr items =>
          let lastItem := default (f_created_at (feed_row feed)) (ps_last_entry_at (feed_ps feed)) in
          let silentFor := if (items =? 0) && negb (time_is_zero lastItem)
                           then time_sub now lastItem else 0 in
          mret (time_add now (AdaptivePollInterval base items silentFor ceiling max))
      end.

(** service/feed_refresher.go [FeedRefresher.nextCheckAfterPoll] *)
Definition nextCheckAfterPoll (feed : Feed) (now minNextCheck : Z) : M Z :=
  let '(lo, hi) := pollBounds in
  let next := FeedNextCheckAt now (f_interval_minutes (feed_row feed)) lo hi in
  adaptive ← adaptiveNextCheck feed now lo hi;
  let next := if time_after adaptive next then adaptive else next in
  mret (if time_after minNextCheck next then
          let limit := time_add now hi in
          if time_after minNextCheck limit then limit else minNextCheck
        else next).

(** service/feed_refresher.go [fullRefetchState] With the feed whose item-set
    hash is cleared. *)
Definition fullRefetchState (feed : Feed) (st : BridgeState) : Feed * BridgeState :=
  let ps := feed_ps feed in
  let feed := with_ps feed
    (mkPollState (ps_etag ps) (ps_last_modified ps) (ps_last_checked_at ps) (ps_last_error ps)
       (ps_parsing_error_count ps) (ps_poll_paused ps) (ps_next_check_at ps) (ps_bridge_state ps) ""
       (ps_last_entry_at ps)) in
  let st := bs_with st "rss" "" in
  let t := NormalizeFeedType (f_type (feed_row feed)) in
  if String.eqb t "max" then (feed, bs_with st "max" (reset_max (bs_raw st "max")))
  else if String.eqb t "telegram" then (feed, bs_with st "telegram" (reset_telegram (bs_raw st "telegram")))
  else (feed, st).

(** ** Cached lookups *)

Definition enabledFilterCacheTTL : Z := 5 * second.
Definition pollHoursCacheTTL : Z := 10 * second.

(** service/filter_cache.go [FeedRefresher.listEnabledFiltersCached] *)
Definition listEnabledFiltersCached (now userID : Z) : M (err + list Filter) :=
  m ← get_mem;
  let '(c, hit) := ttl_get (m_filter_cache m) now userID enabledFilterCacheTTL in
  _ ← put_mem (mkMem (m_ok_logged m) (m_hosts m) c (m_hours_cache m) (m_engine m) (m_subs m));
  match hit with
  | Some filters => mret (inr filters)
  | None =>
      r ← call_ (λ d, (d, default [] (db_filters d !! userID)));
      match r with
      | inl e => mret (inl e)
      | inr filters =>
          m ← get_mem;
          _ ← put_mem (mkMem (m_ok_logged m) (m_hosts m) (ttl_put (m_filter_cache m) now userID filters)
                         (m_hours_cache m) (m_engine m) (m_subs m));
          mret (inr filters)
      end
  end.

(** service/poll_window.go [FeedRefresher.categoryPollWindow] *)
Definition categoryPollWindow (now id : Z) : M (option PollWindow) :=
  m ← get_mem;
  let '(c, hit) := ttl_get (m_hours_cache m) now id pollHoursCacheTTL in
  _ ← put_mem (mkMem (m_ok_logged m) (m_hosts m) (m_filter_cache m) c (m_engine m) (m_subs m));
  match hit with
  | Some w => mret w
  | None =>
      r ← call (λ d, (d, GetCategoryPollHours (db_feeds d) id));
      match r with
      | inl _ => mret None
      | inr raw =>
          let w := default None (ParsePollHours raw) in
          m ← get_mem;
          _ ← put_mem (mkMem (m_ok_logged m) (m_hosts m) (m_filter_cache m)
                         (ttl_put (m_hours_cache m) now id w) (m_engine m) (m_subs m));
          mret w
      end
  end.

(** service/poll_window.go [FeedRefresher.pollWindow] *)
Definition pollWindow (now : Z) (feed : Feed) : M (option PollWindow) :=
  match f_category_id (feed_row feed) with
  | None => mret None
  | Some c => categoryPollWindow now c
  end.

Definition set_subs (subs : option (list Subscription)) : M unit :=
  m ← get_mem;
  put_mem (mkMem (m_ok_logged m) (m_hosts m) (m_filter_cache m) (m_hours_cache m) (m_engine m) subs).

(** service/feed_refresher.go [feedSubs.get] *)
Definition feedSubs_get (feedID : Z) : M (list Subscription) :=
  m ← get_mem;
  match m_subs m with
  | Some subs => mret subs
  | None =>
      r ← call_ (λ d, (d, ListFeedSubscribers (db_feeds d) feedID));
      let subs := match r with inl _ => [] | inr subs => subs end in
      _ ← set_subs (Some subs);
      mret subs
  end.

(** service/feed_refresher.go [feedSubs.loaded] *)
Definition feedSubs_loaded : M (option (list Subscription)) := m ← get_mem; mret (m_subs m).

(** ** Recording the outcome *)

Definition failed_ps (ps : PollState) (count : Z) (paused : bool) (cause : string) (now next : Z) : PollState :=
  mkPollState (ps_etag ps) (ps_last_modified ps) (Some now) cause count paused (Some next)
    (ps_bridge_state ps) (ps_items_hash ps) (ps_last_entry_at ps).

(** service/feed_refresher.go [FeedRefresher.recordFailure] *)
Definition recordFailure (feed : Feed) (now : Z) (cause : err) (bridgeState : option BridgeState) : M Feed :=
  let ps := feed_ps feed in
  let count := ps_parsing_error_count ps + 1 in
  let paused := ps_poll_paused ps || (circuitThreshold <=? count) in
  let '(min, max) := pollBounds in
  let next := if err_is_bot cause then time_add now max
              else FeedNextCheckAfterError now (f_interval_minutes (feed_row feed)) count min max in
  _ ← call (λ d, to_res d (RecordFeedPollFailure (db_feeds d)
         (mkFailureParams (f_id (feed_row feed)) (err_text cause) circuitThreshold now next bridgeState)));
  mret (with_ps feed (failed_ps ps count paused (err_text cause) now next)).

(** service/feed_refresher.go [FeedRefresher.recordPoll] [elapsed] is
    [time.Since(started)]. *)
Definition recordPoll (feed : Feed) (at_ elapsed inserted : Z) (cause : option err) : M unit :=
  let feedID := f_id (feed_row feed) in
  m ← get_mem;
  let healthy := match cause with None => true | Some _ => false end in
  if healthy && String.eqb (ps_last_error (feed_ps feed)) "" && bool_decide (feedID ∈ m_ok_logged m)
  then mret tt
  else
    let p := mkRecordPoll feedID at_ healthy
               (match cause with Some e => err_text e | None => "" end) inserted elapsed in
    r ← call_ (λ d, (set_db_polllog d (RecordFeedPoll at_ (db_polllog d) p), tt));
    match r with
    | inl _ => mret tt
    | inr _ =>
        m ← get_mem;
        put_mem (mkMem (if healthy then {[ feedID ]} ∪ m_ok_logged m else m_ok_logged m ∖ {[ feedID ]})
                   (m_hosts m) (m_filter_cache m) (m_hours_cache m) (m_engine m) (m_subs m))
    end.

(** service/feed_refresher.go [FeedRefresher.failPoll] *)
Definition failPoll (feed : Feed) (now elapsed : Z) (state : BridgeState) (cause kind : err)
    (gone : bool) : M err :=
  after ← recordFailure feed now cause (bridgeStateJSON state);
  after ← (if gone then
             r ← call (λ d, to_res d (SetFeedManualPaused (db_feeds d) (f_id (feed_row feed)) true));
             mret (match r with
                   | inl _ => after
                   | inr _ => mkFeed (set_manual_paused (feed_row after) true) (feed_ps after)
                   end)
           else mret after);
  let e := EJoin kind cause in
  _ ← recordPoll feed now elapsed 0 (Some e);
  subs ← feedSubs_loaded;
  _ ← publish (EvStatus after subs (Some e));
  mret (EPollFailed after e).

Definition LayoutErrorPrefix : string := "layout: ".

(** service/feed_refresher.go [FeedRefresher.deferLayout] *)
Definition deferLayout (feed : Feed) (now : Z) (le : err) (marker : string) : M err :=
  next ← nextCheckAfterPoll feed now zero_time;
  let meta := mkMetaParams (f_id (feed_row feed)) (ps_etag (feed_ps feed))
                (ps_last_modified (feed_ps feed)) now (LayoutErrorPrefix +:+ marker) None (Some next) 0
                "" None in
  _ ← call (λ d, to_res d (updateFeedRefreshMeta (db_feeds d) meta));
  mret (ELayoutDeferred next le).

(** ** Filters of the subscribers *)

(** service/feed_refresher.go [FeedRefresher.queryHitsBestEffort] *)
Definition queryHitsBestEffort (filters : list Filter) (entries : list Entry)
    : M (option (list (gmap string bool))) :=
  let items := QueryItemFromEntry <$> entries in
  match QueryPatterns filters, items with
  | [], _ | _, [] => mret None
  | _, _ =>
      r ← call_ (λ d, (d, QueryHits (Some query_match) filters items));
      mret (match r with inr (inr hits) => hits | _ => None end)
  end.

(** [Engine.MatchEntryWithContext] on the refresher's engine. *)
Definition matchEntryM (e : Entry) (ctx : MatchContext) (filters : list Filter) : M (filter_err + list Match) :=
  m ← get_mem;
  let '(en, r) := MatchEntryWithContext re_compile re_match (m_engine m) e ctx filters in
  _ ← put_mem (mkMem (m_ok_logged m) (m_hosts m) (m_filter_cache m) (m_hours_cache m) en (m_subs m));
  mret r.

Definition feed_of_entry (d : Db) (entryID : Z) : option Z :=
  er_feed_id <$> ed_entries (db_entries d) !! entryID.

Definition enqueueM (now : Z) (webhookIDs : list Z) (entryID : Z) : M unit :=
  _ ← call_ (λ d, (set_db_hooks d
        (EnqueueWebhookLogs zone now (db_hooks d) (feed_of_entry d) webhookIDs entryID), tt));
  mret tt.

Fixpoint for_each {A} (l : list A) (body : A → M unit) : M unit :=
  match l with
  | [] => mret tt
  | x :: l => _ ← body x; for_each l body
  end.

(** storage/entry_bulk.go [PostgresStore.MarkEntriesRemoved] *)
Definition MarkEntriesRemoved (d : Db) (userID : Z) (entryIDs : list Z) : Db * unit :=
  let remove (db : EntryDb) (id : Z) :=
    match ed_entries db !! id with
    | Some e =>
        if decide (is_Some (fd_subs (db_feeds d) !! (userID, er_feed_id e)))
        then MarkEntryRemovedKeepPayload db userID id
        else with_unread db (delete (id, userID) (ed_unread db))
    | None => with_unread db (delete (id, userID) (ed_unread db))
    end in
  (set_db_entries d (foldl remove (db_entries d) entryIDs), tt).

(** service/filter_actions.go [FeedRefresher.applyFilterAction] *)
Definition applyFilterAction (now userID : Z) (entry : Entry) (action : FilterAction) : M unit :=
  let t := to_lower (trim_space (fa_action_type action)) in
  if String.eqb t "label" then
    match ParseActionParamID (fa_action_param action) with
    | None => mret tt
    | Some labelID =>
        r ← call (λ d, (d, if decide (db_labels d !! labelID = Some userID)
                           then inr tt else inl ENotFound));
        match r with
        | inl _ => mret tt
        | inr _ =>
            _ ← call_ (λ d, (match ed_entries (db_entries d) !! e_id entry with
                             | Some _ => set_db_entries d
                                 (mkEntryDb (ed_entries (db_entries d)) (ed_next_id (db_entries d))
                                    (ed_dedup (db_entries d)) (ed_unread (db_entries d))
                                    (ed_user (db_entries d))
                                    (<[(e_id entry, labelID) := userID]> (ed_labels (db_entries d))))
                             | None => d
                             end, tt));
            mret tt
        end
    end
  else if String.eqb t "webhook" then
    match ParseActionParamID (fa_action_param action) with
    | None => mret tt
    | Some webhookID => enqueueM now [webhookID] (e_id entry)
    end
  else if String.eqb t "delete" then
    _ ← call_ (λ d, MarkEntriesRemoved d userID [e_id entry]);
    mret tt
  else mret tt.

(** service/filter_actions.go [FeedRefresher.applyFilterActions] Go ranges over
    the set of matched ids in no particular order; [matched] lists them. *)
Definition applyFilterActions (now userID : Z) (entry : Entry) (filters : list Filter)
    (matched : list Z) (relay : bool) : M unit :=
  for_each matched (λ id,
    match last (filter (λ f, fl_id f = id) filters) with
    | None => mret tt
    | Some f =>
        for_each (fl_actions f) (λ a,
          if relay && negb (equal_fold (trim_space (fa_action_type a)) "webhook") then mret tt
          else applyFilterAction now userID entry a)
    end).

(** service/feed_refresher.go [FeedRefresher.enqueueSubscriptionWebhookBestEffort] *)
Definition enqueueSubscriptionWebhookBestEffort (now : Z) (sub : Subscription) (entries : list Entry) : M unit :=
  match sub_webhook_id sub with
  | None => mret tt
  | Some w => for_each entries (λ e, enqueueM now [w] (e_id e))
  end.

(** service/feed_refresher.go:711-747 [FeedRefresher.applySubscriberFilters, one entry] *)
Definition apply_filters_to_entry (now : Z) (feed : Feed) (sub : Subscription) (relay : bool)
    (filters : list Filter) (hits : option (gmap string bool)) (e : Entry) : M unit :=
  r ← matchEntryM e (mkMatchContext (f_id (feed_row feed)) (f_category_id (feed_row feed)) hits) filters;
  match r with
  | inl _ => mret tt
  | inr matches =>
      let ids := remove_dups (m_filter_id <$> matches) in
      _ ← (match matches with
           | [] => mret tt
           | _ =>
               _ ← (if relay then mret (M := M) tt
                    else
                      _ ← call_ (λ d, (set_db_matches d
                            (db_matches d ∪ list_to_set ((λ m, (m_filter_id m, e_id e)) <$> matches)), tt));
                      mret tt);
               applyFilterActions now (sub_user_id sub) e filters ids relay
           end);
      match sub_webhook_id sub with
      | None => mret tt
      | Some w => enqueueM now [w] (e_id e)
      end
  end.

(** service/feed_refresher.go [FeedRefresher.applySubscriberFilters] *)
Definition applySubscriberFilters (now : Z) (feed : Feed) (sub : Subscription) (entries : list Entry)
    (relay : bool) : M unit :=
  r ← listEnabledFiltersCached now (sub_user_id sub);
  match r with
  | inl _ | inr [] => enqueueSubscriptionWebhookBestEffort now sub entries
  | inr filters =>
      queryHits ← queryHitsBestEffort filters entries;
      for_each (imap (λ i e, (queryHits ≫= λ h, h !! i, e)) entries)
        (λ '(hits, e), apply_filters_to_entry now feed sub relay filters hits e)
  end.

(** service/feed_refresher.go [FeedRefresher.dropUndeliveredRelayEntries] *)
Definition dropUndeliveredRelayEntries (entries : list Entry) : M unit :=
  _ ← call_ (λ d, let '(e, n) := DropUndeliveredRelayEntries dedup_key (db_hooks d) (db_entries d)
                                   (e_id <$> entries) in (set_db_entries d e, n));
  mret tt.

(** service/feed_refresher.go [FeedRefresher.afterStore] *)
Definition afterStore (now : Z) (feed : Feed) (entries : list Entry) : M unit :=
  match entries with
  | [] => mret tt
  | _ =>
      let relay := String.eqb (storeMode feed) "relay" in
      subs ← feedSubs_get (f_id (feed_row feed));
      _ ← for_each subs (λ sub, applySubscriberFilters now feed sub entries relay);
      if relay then dropUndeliveredRelayEntries entries
      else publish (EvNewEntries (f_id (feed_row feed)) subs entries)
  end.

(** ** Storing what was fetched *)

Definition sanitize_entry (e : BEntry) : BEntry :=
  mkBEntry (be_title e) (be_url e) (sanitize_html (be_content e)) (be_author e) (be_published_at e)
    (be_hash e).

(** reader/sanitizer.go [SanitizeEntries] *)
Definition SanitizeEntries (entries : list BEntry) : list BEntry := sanitize_entry <$> entries.

(** service/feed_refresher_dedup.go [entryFromCreateParams] *)
Definition entryFromCreateParams (feedID : Z) (p : BEntry) : Entry :=
  mkEntry 0 feedID (be_title p) (be_url p) (be_content p) (be_author p) (be_published_at p) (be_hash p)
    "unread".

(** service/feed_refresher_dedup.go:67-81 [processEntriesFiltered, the fresh items]
    [known] grows with every item taken. *)
Fixpoint take_fresh (known : gset string) (sanitize : bool) (entries : list BEntry) : list BEntry :=
  match entries with
  | [] => []
  | p :: rest =>
      if String.eqb (be_hash p) "" || bool_decide (be_hash p ∈ known) then take_fresh known sanitize rest
      else (if sanitize then sanitize_entry p else p)
           :: take_fresh ({[ be_hash p ]} ∪ known) sanitize rest
  end.

(** service/feed_refresher_dedup.go:88-100 [processEntriesFiltered, the filters of the subscribers] *)
Fixpoint subscriber_filters (now : Z) (subs : list Subscription) : M (err + list (list Filter)) :=
  match subs with
  | [] => mret (inr [])
  | sub :: subs =>
      r ← listEnabledFiltersCached now (sub_user_id sub);
      match r with
      | inl e => mret (inl (EWrap "list filters" e))
      | inr filters =>
          r ← subscriber_filters now subs;
          match r with
          | inl e => mret (inl e)
          | inr l => mret (inr (match filters with [] => l | _ => filters :: l end))
          end
      end
  end.

Fixpoint all_hits (perSub : list (list Filter)) (entries : list Entry)
    : M (list (list Filter * option (list (gmap string bool)))) :=
  match perSub with
  | [] => mret []
  | fs :: perSub =>
      h ← queryHitsBestEffort fs entries;
      l ← all_hits perSub entries;
      mret ((fs, h) :: l)
  end.

(** service/feed_refresher_dedup.go:112-122 [processEntriesFiltered, whether one item is wanted] *)
Fixpoint wantedM (feed : Feed) (i : nat) (e : Entry)
    (perSub : list (list Filter * option (list (gmap string bool)))) : M bool :=
  match perSub with
  | [] => mret false
  | (fs, hits) :: perSub =>
      r ← matchEntryM e (mkMatchContext (f_id (feed_row feed)) (f_category_id (feed_row feed))
                           (hits ≫= λ h, h !! i)) fs;
      match r with
      | inr (_ :: _) => mret true
      | _ => wantedM feed i e perSub
      end
  end.

(** service/feed_refresher_dedup.go:109-128 [processEntriesFiltered, the split] *)
Fixpoint split_wanted (feed : Feed) (i : nat) (fresh : list BEntry)
    (perSub : list (list Filter * option (list (gmap string bool)))) : M (list BEntry * list string) :=
  match fresh with
  | [] => mret ([], [])
  | p :: rest =>
      wanted ← wantedM feed i (entryFromCreateParams (f_id (feed_row feed)) p) perSub;
      r ← split_wanted feed (S i) rest perSub;
      mret (if wanted : bool then (p :: r.1, r.2) else (r.1, be_hash p :: r.2))
  end.

Definition set_items_hash (m : UpdateFeedRefreshMetaParams) (h : option string) : UpdateFeedRefreshMetaParams :=
  mkMetaParams (um_id m) (um_etag m) (um_last_modified m) (um_last_checked_at m) (um_last_error m)
    (um_bridge_state m) (um_next_check_at m) (um_new_entries m) (um_new_feed_url m) h.

Definition set_next (m : UpdateFeedRefreshMetaParams) (t : Z) : UpdateFeedRefreshMetaParams :=
  mkMetaParams (um_id m) (um_etag m) (um_last_modified m) (um_last_checked_at m) (um_last_error m)
    (um_bridge_state m) (Some t) (um_new_entries m) (um_new_feed_url m) (um_items_hash m).

(** What a store step leaves: the metadata as the code has filled it in, and the
    inserted count, the entries and whether the metadata is already written. *)
Definition Stored : Type := UpdateFeedRefreshMetaParams * (err + Z * list Entry * bool).

(** service/feed_refresher_dedup.go [FeedRefresher.processEntriesFiltered] *)
Definition processEntriesFiltered (now : Z) (feed : Feed) (entries : list BEntry) (relay : bool)
    (meta : UpdateFeedRefreshMetaParams) (sanitize : bool) : M Stored :=
  match entries with
  | [] => mret (set_new_entries meta 0, inr (0, [], false))
  | _ =>
      let feedID := f_id (feed_row feed) in
      let hashes := filter (λ h, trim_space h ≠ "") (be_hash <$> entries) in
      r ← call_ (λ d, (d, FilterKnownEntryHashes dedup_key (db_entries d) feedID hashes));
      match r with
      | inl e => mret (set_new_entries meta 0, inl e)
      | inr known =>
          let fresh := take_fresh known sanitize entries in
          let freshEntries := entryFromCreateParams feedID <$> fresh in
          r ← (match fresh with
               | [] => mret (inr [])
               | _ => subs ← feedSubs_get feedID; subscriber_filters now subs
               end);
          match r with
          | inl e => mret (set_new_entries meta 0, inl e)
          | inr perSub =>
              hits ← all_hits perSub freshEntries;
              r ← split_wanted feed 0 fresh hits;
              let '(wanted, toDedup) := r in
              let n := Z.of_nat (length fresh) in
              let meta := set_new_entries meta n in
              r ← call (λ d,
                    let '((f, e), r) := StoreFilteredPoll dedup_key now (db_feeds d, db_entries d)
                                          (mkFilteredPoll feedID wanted toDedup relay (Some meta)) in
                    (set_db_entries (set_db_feeds d f) e, r));
              mret (meta, match r with
                          | inl e => inl e
                          | inr (ins, es) => inr (ins, es, true)
                          end)
          end
      end
  end.

Definition has_rules (row : FeedRow) : bool :=
  negb (String.eqb (trim_space (f_blocked_rules row)) "")
  || negb (String.eqb (trim_space (f_keep_rules row)) "").

(** service/feed_refresher.go:511-516 [FeedRefresher.storeFetched, the rules of the feed] *)
Definition after_rules (row : FeedRow) (fetched : list BEntry) : list BEntry :=
  let fetched := if has_rules row then SanitizeEntries fetched else fetched in
  ApplyURLRewriteRules re_compile re_replace
    (ApplyFeedRules re_compile re_match fetched (f_blocked_rules row) (f_keep_rules row))
    (f_rewrite_rules row).

(** service/feed_refresher.go [FeedRefresher.storeFetched] *)
Definition storeFetched (now : Z) (feed : Feed) (fetched : list BEntry)
    (meta : UpdateFeedRefreshMetaParams) : M Stored :=
  let row := feed_row feed in
  let sanitized := has_rules row in
  let entries := after_rules row fetched in
  let h := itemSetHash entries in
  if negb (String.eqb h "") && String.eqb h (ps_items_hash (feed_ps feed)) then
    mret (meta, inr (0, [], false))
  else
    let meta := set_items_hash meta (Some h) in
    let mode := storeMode feed in
    let entries := if String.eqb mode "full" && negb sanitized then SanitizeEntries entries else entries in
    if negb (String.eqb mode "full") then
      processEntriesFiltered now feed entries (String.eqb mode "relay") meta (negb sanitized)
    else
      r ← call (λ d,
            let '((f, e), r) := CreateEntriesWithRefreshMeta dedup_key now (db_feeds d, db_entries d)
                                  (f_id row) entries meta in
            (set_db_entries (set_db_feeds d f) e, r));
      mret (match r with
            | inl e => (set_new_entries meta 0, inl e)
            | inr (ins, es) => (set_new_entries meta ins, inr (ins, es, true))
            end).

(** ** The poll *)

Definition open_at (window : option PollWindow) (t : Z) : Z :=
  match window with Some w => pw_next_open zone w t | None => t end.

(** service/feed_refresher.go:384-411 [refreshLoaded, after the store] *)
Definition settle_poll (feed : Feed) (now elapsed : Z) (window : option PollWindow) (res : FetchResponse)
    (silent : bool) (next : Z) (meta : UpdateFeedRefreshMetaParams) (inserted : Z)
    (entries : list Entry) (metaStored : bool) : M (err + Z) :=
  let row := feed_row feed in
  _ ← (if res_not_modified res then mret (M := M) tt else afterStore now feed entries);
  r ← (if silent && (0 <? um_new_entries meta) then
         next ← nextCheckAfterPoll feed now (res_min_next_check res);
         let next := open_at window next in
         _ ← (if metaStored : bool then
                r ← call (λ d, to_res d (SetFeedNextCheckAt (db_feeds d) (f_id row) next));
                mret tt
              else mret (M := M) tt);
         mret (set_next meta next, next)
       else mret (M := M) (meta, next));
  let '(meta, next) := r in
  _ ← (if metaStored : bool then mret (M := M) tt
       else r ← call (λ d, to_res d (updateFeedRefreshMeta (db_feeds d) meta)); mret tt);
  _ ← recordPoll feed now elapsed inserted None;
  subs ← feedSubs_loaded;
  let after := with_ps feed (failed_ps (feed_ps feed) 0 false "" now next) in
  _ ← publish (EvStatus after subs None);
  mret (inr inserted).

(** service/feed_refresher.go:338-411 [refreshLoaded, after a successful fetch] *)
Definition finish_poll (feed : Feed) (now elapsed : Z) (window : option PollWindow)
    (res : FetchResponse) : M (err + Z) :=
  let row := feed_row feed in
  let keep new old := if String.eqb new "" then old else new in
  next0 ← nextCheckAfterPoll feed now (res_min_next_check res);
  let '(next, silent) := silentNextCheck feed now next0 in
  let next := open_at window next in
  let meta := mkMetaParams (f_id row) (keep (trim_space (res_etag res)) (ps_etag (feed_ps feed)))
                (keep (trim_space (res_last_modified res)) (ps_last_modified (feed_ps feed))) now ""
                (bridgeStateJSON (res_bridge_state res)) (Some next) 0
                (movedFeedURL feed (res_new_url res)) None in
  r ← (if res_not_modified res then mret (M := M) (meta, inr (0, [], false))
       else storeFetched now feed (res_entries res) meta);
  let '(meta, stored) := r in
  match stored with
  | inl e =>
      e ← failPoll feed now elapsed (res_bridge_state res) e ECreateEntries false;
      mret (inl e)
  | inr (inserted, entries, metaStored) =>
      settle_poll feed now elapsed window res silent next meta inserted entries metaStored
  end.

(** [bridge.AsLayout], with the error value it found. *)
Definition as_layout_err (e : err) : option (err * string) :=
  err_find (λ e, match e with ELayout _ m | ELayoutOf _ m _ => Some (e, m) | _ => None end) e.

(** service/feed_refresher.go:317-336 [refreshLoaded, a failed fetch] *)
Definition fetch_failed (feed : Feed) (now elapsed : Z) (res : FetchResponse) (fetchErr : err) : M err :=
  fetchErr ← (if IsUnavailable fetchErr then
                at_ ← nextCheckAfterPoll feed now zero_time;
                mret (EProxyUnavailable at_ fetchErr)
              else mret fetchErr);
  match as_layout_err fetchErr with
  | Some (le, marker) => deferLayout feed now le marker
  | None =>
      match RetryAt (Some fetchErr) with
      | Some _ => mret fetchErr
      | None => failPoll feed now elapsed (res_bridge_state res) fetchErr EFetchFeed (err_is_gone fetchErr)
      end
  end.

(** service/feed_refresher.go:296-299 [FeedRefresher.refreshLoaded, the host slot] [None]
    is a busy host. *)
Definition acquire_host (host : string) : M (option bool) :=
  m ← get_mem;
  match hl_acquire (m_hosts m) host with
  | None => mret None
  | Some (h, owed) =>
      _ ← put_mem (mkMem (m_ok_logged m) h (m_filter_cache m) (m_hours_cache m) (m_engine m) (m_subs m));
      mret (Some owed)
  end.

(** service/feed_refresher.go:300-300 [FeedRefresher.refreshLoaded, defer release()] *)
Definition release_host (host : string) (owed : bool) : M unit :=
  m ← get_mem;
  match m_hosts m with
  | Some h =>
      if owed then put_mem (mkMem (m_ok_logged m) (Some (hl_release h host)) (m_filter_cache m)
                              (m_hours_cache m) (m_engine m) (m_subs m))
      else mret tt
  | None => mret tt
  end.

(** service/feed_refresher.go:302-317 [refreshLoaded, from the fetch on] *)
Definition fetch_and_store (feed : Feed) (now elapsed : Z) (window : option PollWindow) (manual : bool)
    : M (err + Z) :=
  let bridgeState := ps_bridge_state (feed_ps feed) in
  let '(feed, bridgeState) := if manual then fullRefetchState feed bridgeState else (feed, bridgeState) in
  let row := feed_row feed in
  let '(res, fetchErr) := fetch (mkFetchRequest (f_url row) (f_type row) (ps_etag (feed_ps feed))
                                   (ps_last_modified (feed_ps feed)) bridgeState) in
  match fetchErr with
  | Some e => e ← fetch_failed feed now elapsed res e; mret (inl e)
  | None => finish_poll feed now elapsed window res
  end.

(** service/feed_refresher.go:275-411 [FeedRefresher.refreshLoaded] The whole
    function; its fetch, failure and success parts are the definitions above. *)
Definition refreshLoaded (feed : Feed) (now elapsed : Z) (manual : bool) : M (err + Z) :=
  let row := feed_row feed in
  if String.eqb (f_type row) "inbound" then mret (inl EInboundFeed)
  else if negb manual && FeedPollingBlocked feed then mret (inl EFeedCircuitOpen)
  else
    _ ← set_subs None;
    window ← pollWindow now feed;
    let closed := match window with Some w => negb (pw_contains zone w now) | None => false end in
    if negb manual && closed then
      mret (inl (EOutsidePollWindow (match window with Some w => pw_next_open zone w now | None => now end)))
    else if manual then fetch_and_store feed now elapsed window true
    else
      let host := PollHost url_hostname (f_url row) (f_type row) in
      slot ← acquire_host host;
      match slot with
      | None => mret (inl (EHostBusy host (hostBusyRetry now (f_id row))))
      | Some owed =>
          r ← fetch_and_store feed now elapsed window false;
          _ ← release_host host owed;
          mret r
      end.

(** service/feed_refresher.go [FeedRefresher.RefreshLoadedFeed] *)
Definition RefreshLoadedFeed (feed : Feed) (now elapsed : Z) : M (err + Z) :=
  refreshLoaded feed now elapsed false.

(** service/feed_refresher.go [FeedRefresher.RefreshFeed] *)
Definition RefreshFeed (feedID now elapsed : Z) : M (err + Z) :=
  r ← call (λ d, (d, GetFeedByID (db_feeds d) feedID));
  match r with
  | inl e => mret (inl (EWrap "get feed" e))
  | inr feed => RefreshLoadedFeed feed now elapsed
  end.

(** service/feed_refresher.go [FeedRefresher.RefreshFeedManual] *)
Definition RefreshFeedManual (feedID now elapsed : Z) : M (err + Z) :=
  _ ← call (λ d, to_res d (ResetFeedPollCircuit (db_feeds d) feedID));
  r ← call (λ d, (d, GetFeedByID (db_feeds d) feedID));
  match r with
  | inl e => mret (inl (EWrap "get feed" e))
  | inr feed => refreshLoaded (with_ps feed (reset_circuit (feed_ps feed))) now elapsed true
  end.

(** service/feed_refresher.go [FeedRefresher.RescheduleFeed] *)
Definition RescheduleFeed (feedID intervalMinutes now : Z) : M (err + unit) :=
  let '(min, max) := pollBounds in
  call (λ d, to_res d (SetFeedNextCheckAt (db_feeds d) feedID
                         (FeedNextCheckAt now intervalMinutes min max))).

(** service/feed_inbound.go [FeedRefresher.Ingest] Under the lock of the feed. *)
Definition Ingest (feed : Feed) (entries : list BEntry) (now elapsed : Z) : M (err + Z) :=
  let row := feed_row feed in
  if negb (String.eqb (f_type row) "inbound") then mret (inl EInboundFeed)
  else
    _ ← set_subs None;
    let ps := feed_ps feed in
    let meta := mkMetaParams (f_id row) (ps_etag ps) (ps_last_modified ps) now ""
                  (Some (ps_bridge_state ps)) None 0 "" None in
    r ← storeFetched now feed entries meta;
    let '(meta, stored) := r in
    match stored with
    | inl e =>
        _ ← recordPoll feed now elapsed 0 (Some e);
        mret (inl e)
    | inr (inserted, es, metaStored) =>
        _ ← afterStore now feed es;
        _ ← (if metaStored : bool then mret (M := M) tt
             else r ← call (λ d, to_res d (updateFeedRefreshMeta (db_feeds d) meta)); mret tt);
        _ ← recordPoll feed now elapsed inserted None;
        mret (inr inserted)
    end.
End Refresher.
