(* ===== verification/PollFrames.v ===== *)
(** The frame logic of a poll ([Refresher.v]): [respects R m] says that the
    step [m] relates the world before and after it by the preorder [R],
    whatever the oracle of faults does.  Readers respect [silent]; the parts
    that write respect the closure of [db_step], one constructor per kind of
    statement, so that invariants of the tables follow by induction on the
    steps ([RefresherSpec.v]). *)

From Stdlib Require Import Ascii.
From S2P Require Import Prelude GoStrings PollSchedule PollWindow Types HostLimiter TtlCache.
From S2P Require Import FilterEngine FeedStore WebhookStore EntryStore PollLog FeedRules.
From S2P Require Import Refresher.

Create HintDb frame discriminated.

Section Frames.
Context `{env : Env}.
Implicit Types (w : World).

(** * The frame logic *)

Definition respects {A} (R : relation World) (m : M A) : Prop := ∀ w, R w (m w).1.

Section Rules.
Context (R : relation World) `{!PreOrder R}.

Lemma respects_ret {A} (a : A) : respects R (mret a : M A).
Proof. intros w. reflexivity. Qed.

Lemma respects_bind {A B} (m : M A) (k : A → M B) :
  respects R m → (∀ a, respects R (k a)) → respects R (m ≫= k).
Proof.
  intros Hm Hk w. unfold mbind, M_bind. pose proof (Hm w) as H. destruct (m w) as [w1 a].
  etransitivity; [exact H|apply Hk].
Qed.

Lemma respects_get_db : respects R get_db.
Proof. intros w. reflexivity. Qed.

Lemma respects_get_mem : respects R get_mem.
Proof. intros w. reflexivity. Qed.

Lemma respects_for_each {A} (l : list A) (body : A → M unit) :
  (∀ x, x ∈ l → respects R (body x)) → respects R (for_each l body).
Proof.
  induction l as [|x l IH]; intros Hb; cbn [for_each]; [apply respects_ret|].
  apply respects_bind; [apply Hb; left|]. intros _. apply IH. intros y Hy. apply Hb. by right.
Qed.
End Rules.

Lemma respects_mono {A} (R R' : relation World) (m : M A) :
  (∀ w w', R w w' → R' w w') → respects R m → respects R' m.
Proof. intros HR Hm w. apply HR, Hm. Qed.

(** ** Worlds up to the caches and the oracle *)

(** Nothing outside the caches changed. *)
Record silent w w' : Prop := {
  sil_db : w_db w' = w_db w;
  sil_events : w_events w' = w_events w;
  sil_hosts : m_hosts (w_mem w') = m_hosts (w_mem w);
  sil_ok : m_ok_logged (w_mem w') = m_ok_logged (w_mem w);
  sil_faults : w_faults w = [] → w_faults w' = [];
}.

#[export] Instance silent_preorder : PreOrder silent.
Proof.
  split; [by intros w; split|]. intros w1 w2 w3 [] []. split; try congruence. auto.
Qed.

Lemma call_read_silent {A} (f : Db → err + A) : respects silent (call (λ d, (d, f d))).
Proof. intros w. unfold call. destruct (w_faults w) as [|[] fs] eqn:E; split; simpl; congruence || auto. Qed.

Lemma call__read_silent {A} (f : Db → A) : respects silent (call_ (λ d, (d, f d))).
Proof. intros w. unfold call_, call. destruct (w_faults w) as [|[] fs] eqn:E; split; simpl; congruence || auto. Qed.

(** Reading the memory and writing back a memory that differs in the caches. *)
Lemma respects_mem {A} (R : relation World) (K : Mem → M A) :
  (∀ w, R w (K (w_mem w) w).1) → respects R (get_mem ≫= K).
Proof. intros HK w. apply HK. Qed.

Lemma respects_at {A} (R : relation World) (m : M A) w : respects R m → R w (m w).1.
Proof. auto. Qed.

Lemma put_bind {A} (R : relation World) `{!PreOrder R} (m : Mem) (k : unit → M A) w :
  R w (put_mem m w).1 → respects R (k tt) → R w ((put_mem m ≫= k) w).1.
Proof. intros H Hk. etransitivity; [exact H|]. apply Hk. Qed.

Lemma put_mem_silent (m : Mem) w :
  m_hosts m = m_hosts (w_mem w) → m_ok_logged m = m_ok_logged (w_mem w) → silent w (put_mem m w).1.
Proof. intros ? ?. by split. Qed.

(** Splits a step along the structure of its definition. *)
End Frames.

Ltac frame_step :=
  first
    [ apply respects_ret; apply _
    | apply respects_get_db; apply _
    | apply call_read_silent
    | apply call__read_silent
    | apply respects_for_each; [apply _|intros ? _]
    | lazymatch goal with
      | |- respects _ (mbind _ get_mem) => apply respects_mem; intros ?
      | |- respects _ _ => apply respects_bind; [apply _| |intros ?]
      end
    | match goal with
      | |- silent _ (mbind _ (put_mem _) _).1 =>
          apply put_bind; [apply _|by apply put_mem_silent|]
      | |- silent _ (put_mem _ _).1 => by apply put_mem_silent
      | |- silent ?w (mret _ ?w).1 => reflexivity
      | |- silent _ (match ?x with _ => _ end _).1 => destruct x
      | |- silent _ ((let '(_, _) := ?x in _) _).1 => destruct x
      | |- silent _ (_ _).1 => apply respects_at
      end
    | match goal with
      | |- respects _ (match ?x with _ => _ end) => destruct x
      | |- respects _ (let '(_, _) := ?x in _) => destruct x
      end ].
Ltac frame_go := repeat first [solve [auto with frame] | frame_step].

Section Silent_parts.
Context `{env : Env}.
Implicit Types (w : World).

Lemma set_subs_silent s : respects silent (set_subs s).
Proof. unfold set_subs. frame_go. Qed.
End Silent_parts.
#[export] Hint Resolve set_subs_silent : frame.

Section Enabled_filters.
Context `{env : Env}.
Implicit Types (w : World).

Lemma listEnabledFiltersCached_silent now u : respects silent (listEnabledFiltersCached now u).
Proof. unfold listEnabledFiltersCached. frame_go. Qed.

Lemma pollWindow_silent now feed : respects silent (pollWindow now feed).
Proof. unfold pollWindow, categoryPollWindow. frame_go. Qed.

Lemma feedSubs_get_silent id : respects silent (feedSubs_get id).
Proof. unfold feedSubs_get. frame_go. Qed.

Lemma feedSubs_loaded_silent : respects silent feedSubs_loaded.
Proof. unfold feedSubs_loaded. frame_go. Qed.

Lemma matchEntryM_silent e ctx fs : respects silent (matchEntryM e ctx fs).
Proof. unfold matchEntryM. frame_go. Qed.

Lemma queryHitsBestEffort_silent fs es : respects silent (queryHitsBestEffort fs es).
Proof. unfold queryHitsBestEffort. frame_go. Qed.

Lemma nextCheckAfterPoll_silent feed now mn : respects silent (nextCheckAfterPoll feed now mn).
Proof. unfold nextCheckAfterPoll, adaptiveNextCheck. frame_go. Qed.
End Enabled_filters.
#[export] Hint Resolve listEnabledFiltersCached_silent pollWindow_silent feedSubs_get_silent
  feedSubs_loaded_silent matchEntryM_silent queryHitsBestEffort_silent
  nextCheckAfterPoll_silent : frame.

Section Filtered_parts.
Context `{env : Env}.
Implicit Types (w : World).

Lemma subscriber_filters_silent now subs : respects silent (subscriber_filters now subs).
Proof. induction subs; cbn [subscriber_filters]; frame_go. Qed.

Lemma all_hits_silent perSub es : respects silent (all_hits perSub es).
Proof. induction perSub; cbn [all_hits]; frame_go. Qed.

Lemma wantedM_silent feed i e perSub : respects silent (wantedM feed i e perSub).
Proof. induction perSub as [|[]]; cbn [wantedM]; frame_go. Qed.
End Filtered_parts.
#[export] Hint Resolve subscriber_filters_silent all_hits_silent wantedM_silent : frame.

Section Split.
Context `{env : Env}.
Implicit Types (w : World).

Lemma split_wanted_silent feed i fresh perSub : respects silent (split_wanted feed i fresh perSub).
Proof. revert i. induction fresh; intros i; cbn [split_wanted]; frame_go. Qed.
End Split.
#[export] Hint Resolve split_wanted_silent : frame.

Section Statements.
Context `{env : Env}.
Implicit Types (w : World).

(** ** Statements *)

(** What the filters of the subscribers write for a stored entry; in relay mode
    only deliveries. *)
Inductive action_step (relay : bool) : Db → Db → Prop :=
| as_enqueue now ws e d :
    action_step relay d
      (set_db_hooks d (EnqueueWebhookLogs zone now (db_hooks d) (feed_of_entry d) ws e))
| as_label labels d : relay = false →
    action_step relay d (set_db_entries d
      (mkEntryDb (ed_entries (db_entries d)) (ed_next_id (db_entries d)) (ed_dedup (db_entries d))
         (ed_unread (db_entries d)) (ed_user (db_entries d)) labels))
| as_removed u ids d : relay = false → action_step relay d (MarkEntriesRemoved d u ids).1
| as_match ms d : relay = false → action_step relay d (set_db_matches d ms).

(** The bookkeeping of a poll: its poll state, its pause, its history. *)
Inductive book_step (id : Z) : Db → Db → Prop :=
| bs_failure p d : rf_id p = id → book_step id d (set_db_feeds d (RecordFeedPollFailure (db_feeds d) p).1)
| bs_meta p d : um_id p = id → book_step id d (set_db_feeds d (updateFeedRefreshMeta (db_feeds d) p).1)
| bs_next t d : book_step id d (set_db_feeds d (SetFeedNextCheckAt (db_feeds d) id t).1)
| bs_gone d : book_step id d (set_db_feeds d (SetFeedManualPaused (db_feeds d) id true).1)
| bs_log now p d : rp_feed_id p = id →
    book_step id d (set_db_polllog d (RecordFeedPoll now (db_polllog d) p)).

(** The statements of one poll of the feed [id]. *)
Inductive db_step (id : Z) : Db → Db → Prop :=
| ds_action relay d d' : action_step relay d d' → db_step id d d'
| ds_drop ids d :
    db_step id d (set_db_entries d
      (DropUndeliveredRelayEntries dedup_key (db_hooks d) (db_entries d) ids).1)
| ds_create now entries meta d : um_id meta = id →
    let s' := (CreateEntriesWithRefreshMeta dedup_key now (db_feeds d, db_entries d) id entries meta).1 in
    db_step id d (set_db_entries (set_db_feeds d s'.1) s'.2)
| ds_filtered now wanted dd relay meta d : um_id meta = id →
    let s' := (StoreFilteredPoll dedup_key now (db_feeds d, db_entries d)
                 (mkFilteredPoll id wanted dd relay (Some meta))).1 in
    db_step id d (set_db_entries (set_db_feeds d s'.1) s'.2)
| ds_book d d' : book_step id d d' → db_step id d d'.

(** The tables took steps of [S]; the host limiter is as before, and an empty
    oracle stays empty. *)
Definition steps (S : relation Db) : relation World := λ w w',
  rtc S (w_db w) (w_db w') ∧ m_hosts (w_mem w') = m_hosts (w_mem w) ∧
  (w_faults w = [] → w_faults w' = []).

#[export] Instance steps_preorder S : PreOrder (steps S).
Proof.
  split; [by intros w; split|]. intros w1 w2 w3 (H1 & E1 & F1) (H2 & E2 & F2).
  split; [by etransitivity|]. split; [congruence|auto].
Qed.

Lemma silent_steps {A} S (m : M A) : respects silent m → respects (steps S) m.
Proof. intros H w. destruct (H w) as [E _ Eh _ Ef]. split; [by rewrite E|done]. Qed.

Lemma steps_mono {A} (S S' : relation Db) (m : M A) :
  (∀ d d', S d d' → S' d d') → respects (steps S) m → respects (steps S') m.
Proof.
  intros HS Hm w. destruct (Hm w) as [H ?]. split; [|done].
  eapply rtc_subrel; [|exact H]. exact HS.
Qed.

Lemma call_steps {A} S (op : Db → Db * (err + A)) :
  (∀ d, rtc S d (op d).1) → respects (steps S) (call op).
Proof.
  intros Hop w. unfold call. specialize (Hop (w_db w)).
  destruct (w_faults w) as [|[] fs] eqn:E; [|split; [|split]; simpl; congruence || done|];
    destruct (op (w_db w)) as [d r]; (split; [|split]; simpl; congruence || done).
Qed.

Lemma call__steps {A} S (op : Db → Db * A) :
  (∀ d, rtc S d (op d).1) → respects (steps S) (call_ op).
Proof. intros Hop. apply call_steps. intros d. specialize (Hop d). by destruct (op d). Qed.

Lemma publish_steps S e : respects (steps S) (publish e).
Proof. by intros w. Qed.
End Statements.
#[export] Hint Resolve silent_steps publish_steps : frame.

Ltac steps_step :=
  first
    [ apply respects_ret; apply _
    | solve [apply silent_steps; auto with frame]
    | apply call__steps; intros ?
    | apply call_steps; intros ?
    | apply respects_for_each; [apply _|intros ? _]
    | apply respects_bind; [apply _| |intros ?]
    | match goal with
      | |- respects _ (match ?x with _ => _ end) => destruct x eqn:?
      end
    | match goal with |- rtc _ _ (_, _).1 => progress cbn [fst] end
    | match goal with |- rtc _ ?d ?d => apply rtc_refl end ].
Ltac steps_go := repeat first [solve [auto with frame] | steps_step].

Section Actions.
Context `{env : Env}.
Implicit Types (w : World).

Lemma enqueueM_steps relay now ws e : respects (steps (action_step relay)) (enqueueM now ws e).
Proof. unfold enqueueM. steps_go. apply rtc_once. constructor. Qed.
End Actions.
#[export] Hint Resolve enqueueM_steps : frame.

Section Subscribers.
Context `{env : Env}.
Implicit Types (w : World).

Lemma lower_fold_head s (x : ascii) r r' : x ≠ "i"%char → x ≠ "k"%char → x ≠ "w"%char →
  to_lower s = String x r → fold_case s = String "w" r' → False.
Proof. destruct s as [|c [|d [|e s3]]]; simpl; intros; repeat case_match; congruence. Qed.

Lemma applyFilterAction_steps now u e a :
  respects (steps (action_step false)) (applyFilterAction now u e a).
Proof.
  unfold applyFilterAction. steps_go.
  - case_match; [|done]. apply rtc_once. by constructor.
  - apply rtc_once. by constructor.
Qed.

(** In relay mode only the webhook actions are left. *)
Lemma applyFilterActions_steps now u e fs matched relay :
  respects (steps (action_step relay)) (applyFilterActions now u e fs matched relay).
Proof.
  unfold applyFilterActions. steps_go; try apply applyFilterAction_steps.
  destruct relay; [|apply applyFilterAction_steps]. cbn [andb] in *. bool_to_prop.
  unfold equal_fold in *. bool_to_prop.
  change (fold_case "webhook") with "webhook" in *. unfold applyFilterAction. steps_go;
    exfalso; bool_to_prop; by eapply lower_fold_head; [..|eassumption|eassumption].
Qed.

Lemma enqueueSubscription_steps relay now sub es :
  respects (steps (action_step relay)) (enqueueSubscriptionWebhookBestEffort now sub es).
Proof. unfold enqueueSubscriptionWebhookBestEffort. steps_go. Qed.
End Subscribers.
#[export] Hint Resolve applyFilterActions_steps enqueueSubscription_steps : frame.

Section Poll_steps.
Context `{env : Env}.
Implicit Types (w : World).

Lemma applySubscriberFilters_steps now feed sub es relay :
  respects (steps (action_step relay)) (applySubscriberFilters now feed sub es relay).
Proof.
  unfold applySubscriberFilters. steps_go. unfold apply_filters_to_entry. steps_go.
  apply rtc_once. by constructor.
Qed.

(** ** The whole poll *)

Lemma action_steps {A} relay id (m : M A) :
  respects (steps (action_step relay)) m → respects (steps (db_step id)) m.
Proof. apply steps_mono. apply ds_action. Qed.

Lemma afterStore_steps now feed es :
  respects (steps (db_step (f_id (feed_row feed)))) (afterStore now feed es).
Proof.
  assert (∀ id sub relay, respects (steps (db_step id)) (applySubscriberFilters now feed sub es relay)).
  { intros. eapply action_steps, applySubscriberFilters_steps. }
  unfold afterStore. steps_go. unfold dropUndeliveredRelayEntries. steps_go.
  destruct (DropUndeliveredRelayEntries _ _ _ _) as [d' n] eqn:E. cbn [fst].
  apply rtc_once. change d' with (d', n).1. rewrite <-E. constructor.
Qed.

Lemma book_steps {A} id (m : M A) : respects (steps (book_step id)) m → respects (steps (db_step id)) m.
Proof. apply steps_mono. apply ds_book. Qed.

(** [recordPoll] writes one log row and what it remembers of it. *)
Lemma recordPoll_book feed at_ elapsed ins cause :
  respects (steps (book_step (f_id (feed_row feed)))) (recordPoll feed at_ elapsed ins cause).
Proof.
  unfold recordPoll. apply respects_mem. intros w. destruct (_ && _ && _); [reflexivity|].
  apply respects_at, respects_bind; [apply _| |].
  - apply call__steps. intros d. apply rtc_once. by constructor.
  - intros [e|[]]; [apply respects_ret, _|]. apply respects_mem. intros w'. by split.
Qed.
End Poll_steps.
#[export] Hint Resolve recordPoll_book : frame.

Section Store_steps.
Context `{env : Env}.
Implicit Types (w : World).

Lemma failPoll_book feed now elapsed st cause kind gone :
  respects (steps (book_step (f_id (feed_row feed)))) (failPoll feed now elapsed st cause kind gone).
Proof.
  unfold failPoll, recordFailure. destruct pollBounds as [lo hi]. steps_go.
  all: apply rtc_once; by constructor.
Qed.

Lemma deferLayout_book feed now le marker :
  respects (steps (book_step (f_id (feed_row feed)))) (deferLayout feed now le marker).
Proof. unfold deferLayout. steps_go. apply rtc_once. by constructor. Qed.

Lemma recordPoll_steps feed at_ elapsed ins cause :
  respects (steps (db_step (f_id (feed_row feed)))) (recordPoll feed at_ elapsed ins cause).
Proof. apply book_steps, recordPoll_book. Qed.
Lemma failPoll_steps feed now elapsed st cause kind gone :
  respects (steps (db_step (f_id (feed_row feed)))) (failPoll feed now elapsed st cause kind gone).
Proof. apply book_steps, failPoll_book. Qed.
Lemma deferLayout_steps feed now le marker :
  respects (steps (db_step (f_id (feed_row feed)))) (deferLayout feed now le marker).
Proof. apply book_steps, deferLayout_book. Qed.
End Store_steps.
#[export] Hint Resolve afterStore_steps recordPoll_steps failPoll_steps deferLayout_steps : frame.

Section Fetch_steps.
Context `{env : Env}.
Implicit Types (w : World).

Lemma store_proj {A} d (x : (FeedDb * EntryDb) * (err + A)) :
  (let '((f, e), r) := x in (set_db_entries (set_db_feeds d f) e, r)).1
    = set_db_entries (set_db_feeds d x.1.1) x.1.2.
Proof. by destruct x as [[]]. Qed.

Lemma storeFetched_steps now feed fetched meta : um_id meta = f_id (feed_row feed) →
  respects (steps (db_step (f_id (feed_row feed)))) (storeFetched now feed fetched meta).
Proof.
  intros Hid. unfold storeFetched, processEntriesFiltered. steps_go.
  all: rewrite store_proj; apply rtc_once; first [by apply ds_filtered|by apply ds_create].
Qed.
End Fetch_steps.
#[export] Hint Resolve storeFetched_steps : frame.

Section Yields.
Context `{env : Env}.
Implicit Types (w : World).

(** What a step may return, whatever the world. *)
Definition yields {A} (Q : A → Prop) (m : M A) : Prop := ∀ w, Q (m w).2.

Lemma yields_ret {A} (Q : A → Prop) a : Q a → yields Q (mret a : M A).
Proof. by intros H w. Qed.

Lemma yields_bind {A B} (Q : B → Prop) (m : M A) k : (∀ a, yields Q (k a)) → yields Q (m ≫= k).
Proof. intros Hk w. unfold mbind, M_bind. destruct (m w) as [w1 a]. apply Hk. Qed.

Lemma respects_yields {A B} R `{!PreOrder R} (Q : A → Prop) (m : M A) (k : A → M B) :
  respects R m → yields Q m → (∀ a, Q a → respects R (k a)) → respects R (m ≫= k).
Proof.
  intros Hm HQ Hk w. unfold mbind, M_bind. pose proof (Hm w) as H. pose proof (HQ w) as H'.
  destruct (m w) as [w1 a]. etransitivity; [exact H|by apply Hk].
Qed.

End Yields.

Ltac yields_go := repeat first
  [ apply yields_ret
  | apply yields_bind; intros ?
  | match goal with |- yields _ (match ?x with _ => _ end) => destruct x eqn:? end ].

Section Whole_poll.
Context `{env : Env}.
Implicit Types (w : World).

Lemma storeFetched_id now feed fetched meta :
  yields (λ r, um_id r.1 = um_id meta) (storeFetched now feed fetched meta).
Proof. unfold storeFetched, processEntriesFiltered. yields_go; by repeat case_match. Qed.

Lemma settle_poll_steps feed now elapsed window res sil next meta ins es stored :
  um_id meta = f_id (feed_row feed) →
  respects (steps (db_step (f_id (feed_row feed))))
    (settle_poll feed now elapsed window res sil next meta ins es stored).
Proof.
  intros Hid. unfold settle_poll. apply respects_bind; [apply _|steps_go|]. intros _.
  eapply (respects_yields _ (λ r, um_id r.1 = f_id (feed_row feed))).
  - steps_go. apply rtc_once, ds_book. constructor.
  - yields_go; done.
  - intros [meta2 next2] Hid2. cbn [fst] in Hid2. steps_go. apply rtc_once, ds_book. by constructor.
Qed.

(** The metadata a poll starts from is of its feed. *)
Lemma stored_id now feed res meta :
  um_id meta = f_id (feed_row feed) →
  yields (λ r, um_id r.1 = f_id (feed_row feed))
    (if res_not_modified res then mret (M := M) (meta, inr (0, [], false)) : M Stored
     else storeFetched now feed (res_entries res) meta).
Proof.
  intros <-. destruct (res_not_modified res); [by apply yields_ret|]. apply storeFetched_id.
Qed.

Lemma finish_poll_steps feed now elapsed window res :
  respects (steps (db_step (f_id (feed_row feed)))) (finish_poll feed now elapsed window res).
Proof.
  unfold finish_poll. apply respects_bind; [apply _|steps_go|]. intros next0.
  destruct (silentNextCheck feed now next0) as [next sil].
  eapply (respects_yields _ (λ r, um_id r.1 = f_id (feed_row feed))).
  - steps_go.
  - by apply stored_id.
  - intros [meta' [e|[[ins es] stored]]] Hid; [steps_go|by apply settle_poll_steps].
Qed.

Lemma fetch_failed_steps feed now elapsed res e :
  respects (steps (db_step (f_id (feed_row feed)))) (fetch_failed feed now elapsed res e).
Proof. unfold fetch_failed. steps_go. Qed.

Lemma fullRefetch_id feed st : feed_row (fullRefetchState feed st).1 = feed_row feed.
Proof. unfold fullRefetchState. by repeat case_match. Qed.

Lemma fetch_and_store_steps feed now elapsed window manual :
  respects (steps (db_step (f_id (feed_row feed)))) (fetch_and_store feed now elapsed window manual).
Proof.
  unfold fetch_and_store. set (fs := if manual then _ else _).
  assert (feed_row fs.1 = feed_row feed) as Hrow by (unfold fs; destruct manual; [apply fullRefetch_id|done]).
  destruct fs as [feed' st]. cbn [fst] in Hrow. rewrite <-Hrow.
  destruct (fetch _) as [res [e|]]; [|apply finish_poll_steps].
  apply respects_bind; [apply _|apply fetch_failed_steps|]. intros ?. steps_go.
Qed.

(** Releasing an acquired slot restores the limiter, whose counters are
    positive ([hl_inv]). *)
Definition limiter_ok (h : option HostLimiter) : Prop :=
  match h with
  | Some h => ∀ host n, hl_busy h !! host = Some n → 0 < n
  | None => True
  end.

Lemma acquire_release h host h' : limiter_ok (Some h) →
  hl_acquire (Some h) host = Some (Some h', true) → hl_release h' host = h.
Proof.
  unfold hl_acquire, hl_release. intros Hok Ha. destruct (String.eqb host ""); [done|].
  destruct (hl_limit h <=? _); [done|]. injection Ha as <-. cbn [hl_busy hl_limit].
  unfold busy_at at 1. rewrite lookup_insert_eq. simpl. destruct h as [lim m]. cbn [hl_busy hl_limit] in *.
  specialize (Hok host). cbn [hl_busy] in Hok. unfold busy_at. rewrite lookup_insert_eq.
  destruct (m !! host) as [n|] eqn:E; cbn [default from_option id].
  - specialize (Hok n eq_refl). rewrite (proj2 (Z.leb_gt _ _)) by lia.
    rewrite insert_insert_eq, insert_id; [done|]. rewrite E. f_equal. lia.
  - cbn. by rewrite delete_insert_id.
Qed.

(** A body run between the acquisition and the release of a slot. *)
Lemma slot_steps {A} S host (refused : A) (body : M A) w :
  limiter_ok (m_hosts (w_mem w)) → respects (steps S) body →
  steps S w ((slot ← acquire_host host;
              match slot with
              | None => mret refused
              | Some owed => r ← body; _ ← release_host host owed; mret r
              end) w).1.
Proof.
  intros Hok Hbody. unfold acquire_host, get_mem. unfold mbind, M_bind at 1.
  unfold M_bind at 1. destruct (hl_acquire (m_hosts (w_mem w)) host) as [[h owed]|] eqn:Ha; [|done].
  unfold put_mem, mret, M_ret, M_bind. cbn [w_db w_events w_faults].
  set (w1 := mkWorld _ _ _ _). pose proof (Hbody w1) as (Hdb & Hh & Hf). destruct (body w1) as [w2 r].
  cbn [fst] in *. unfold release_host, get_mem, put_mem, mbind, M_bind, mret, M_ret.
  subst w1. cbn [w_mem m_hosts w_db w_faults] in *. rewrite Hh.
  destruct (m_hosts (w_mem w)) as [h0|] eqn:E0.
  - destruct h as [h'|]; [|unfold hl_acquire in Ha; by repeat case_match].
    destruct owed; (split; [done|split; [|done]]); cbn.
    + rewrite E0. f_equal. by apply acquire_release.
    + rewrite Hh, E0. unfold hl_acquire in Ha. repeat case_match; congruence.
  - injection Ha as <- <-. split; [done|split; [|done]]. cbn. by rewrite Hh, E0.
Qed.

Lemma refreshLoaded_steps feed now elapsed manual w : limiter_ok (m_hosts (w_mem w)) →
  steps (db_step (f_id (feed_row feed))) w (refreshLoaded feed now elapsed manual w).1.
Proof.
  intros Hok. unfold refreshLoaded.
  destruct (String.eqb _ _); [reflexivity|]. destruct (_ && _); [reflexivity|].
  unfold mbind, M_bind at 1. pose proof (set_subs_silent None w) as H1.
  destruct (set_subs None w) as [w1 []].
  unfold M_bind at 1. pose proof (pollWindow_silent now feed w1) as H2.
  destruct (pollWindow now feed w1) as [w2 window]. cbn [fst] in *.
  assert (silent w w2) as Hw2 by (by etransitivity).
  assert (steps (db_step (f_id (feed_row feed))) w w2) as Hs.
  { destruct Hw2 as [E _ Eh _ Ef]. split; [by rewrite E|done]. }
  destruct (negb manual && _); [done|]. destruct manual.
  { etransitivity; [done|]. apply fetch_and_store_steps. }
  etransitivity; [done|]. apply slot_steps; [by rewrite (sil_hosts _ _ Hw2)|].
  apply fetch_and_store_steps.
Qed.
End Whole_poll.
