(* ===== verification/RefresherSpec.v ===== *)
(** The theorems about a poll ([Refresher.v]), on the frame logic of
    [PollFrames.v].  What any poll preserves follows from the steps it takes,
    whatever the oracle of faults does; results on the outcome of failed and
    successful polls cut a run into its parts with [bind_run]. *)

From Stdlib Require Import Ascii.
From S2P Require Import Prelude GoStrings PollSchedule PollWindow Types HostLimiter TtlCache.
From S2P Require Import FilterEngine FeedStore WebhookStore EntryStore PollLog FeedRules.
From S2P Require Import Refresher PollFrames.

Section Spec.
Context `{env : Env}.
Implicit Types (w : World).

(** ** What any poll preserves *)

(** The feed tables outside the polled feed. *)
Record feeds_frame (id : Z) (f f' : FeedDb) : Prop := {
  ff_poll : ∀ j, j ≠ id → fd_poll f' !! j = fd_poll f !! j;
  ff_rows : ∀ j, j ≠ id → fd_feeds f' !! j = fd_feeds f !! j;
  ff_subs : fd_subs f' = fd_subs f;
  ff_cats : fd_cats f' = fd_cats f;
  ff_followers : fd_followers f' = fd_followers f;
}.

Definition entries_kept (e e' : EntryDb) : Prop :=
  entries_wf e → entries_wf e' ∧ remembers dedup_key e e'.

(** Deliveries are only added. *)
Definition logs_kept (h h' : HookDb) : Prop :=
  hd_webhooks h' = hd_webhooks h ∧
  (logs_wf h → logs_wf h' ∧ ∀ i l, hd_logs h !! i = Some l → hd_logs h' !! i = Some l).

Record db_frame (id : Z) (d d' : Db) : Prop := {
  df_feeds : feeds_frame id (db_feeds d) (db_feeds d');
  df_entries : entries_kept (db_entries d) (db_entries d');
  df_logs : logs_kept (db_hooks d) (db_hooks d');
  df_filters : db_filters d' = db_filters d;
  df_labels : db_labels d' = db_labels d;
}.

#[export] Instance feeds_frame_preorder id : PreOrder (feeds_frame id).
Proof.
  split; [by intros f; split|]. intros a b c [H1 H2 H3 H4 H5] [G1 G2 G3 G4 G5].
  split; try congruence; intros j Hj; by rewrite ?G1, ?H1, ?G2, ?H2.
Qed.

#[export] Instance entries_kept_preorder : PreOrder entries_kept.
Proof.
  split; [by intros e ?; split|]. intros a b c H1 H2 Ha. destruct (H1 Ha) as [Hb R1].
  destruct (H2 Hb) as [Hc R2]. split; [done|]. by etransitivity.
Qed.

#[export] Instance logs_kept_preorder : PreOrder logs_kept.
Proof.
  split; [by intros h; split|]. intros a b c [E1 H1] [E2 H2]. split; [congruence|].
  intros Ha. destruct (H1 Ha) as [Hb K1]. destruct (H2 Hb) as [Hc K2]. auto.
Qed.

#[export] Instance db_frame_preorder id : PreOrder (db_frame id).
Proof.
  split; [intros d; split; reflexivity|]. intros a b c [] []. split; try congruence; by etransitivity.
Qed.

(** One component changed, the others are the same. *)
Lemma frame_entries id d e : entries_kept (db_entries d) e → db_frame id d (set_db_entries d e).
Proof. intros H. split; try reflexivity. exact H. Qed.
Lemma frame_feeds id d f : feeds_frame id (db_feeds d) f → db_frame id d (set_db_feeds d f).
Proof. intros H. split; try reflexivity. exact H. Qed.
Lemma frame_hooks id d h : logs_kept (db_hooks d) h → db_frame id d (set_db_hooks d h).
Proof. intros H. split; try reflexivity. exact H. Qed.

Lemma entries_kept_step e e' : entry_step dedup_key e e' → entries_kept e e'.
Proof. intros H Hwf. by apply (entry_step_ok dedup_key). Qed.

Lemma update_ps_frame_id db id g : feeds_frame id db (update_ps db id g).1.
Proof.
  unfold update_ps. case_match; [|reflexivity]. split; try done. intros j Hj. simpl.
  by rewrite lookup_insert_ne.
Qed.

Lemma update_meta_frame db p : feeds_frame (um_id p) db (updateFeedRefreshMeta db p).1.
Proof.
  unfold updateFeedRefreshMeta. pose proof (update_ps_frame_id db (um_id p) (refresh_meta_ps p)) as H.
  destruct (update_ps _ _ _) as [db1 [e|]]; [done|]. cbn [fst] in *. etransitivity; [exact H|].
  case_match; [reflexivity|]. unfold move_feed_url. repeat case_match; try reflexivity.
  split; try done. intros j Hj. simpl. by rewrite lookup_insert_ne.
Qed.

Lemma manual_pause_frame db id b : feeds_frame id db (SetFeedManualPaused db id b).1.
Proof.
  unfold SetFeedManualPaused. case_match; [|reflexivity]. split; try done.
  intros j Hj. simpl. by rewrite lookup_insert_ne.
Qed.

Lemma enqueue_logs_kept now h fo ws e : logs_kept h (EnqueueWebhookLogs zone now h fo ws e).
Proof.
  unfold EnqueueWebhookLogs. case_match; [reflexivity|]. case_match; [|reflexivity].
  split.
  - generalize ((map_to_list (filter (λ kv : Z * Webhook, kv.1 ∈ ws) (hd_webhooks h))).*2).
    intros l. revert h. induction l as [|w l IH]; intros h; simpl; [done|].
    rewrite IH. unfold enqueue_one. by case_decide.
  - intros Hwf. destruct (enqueue_all_spec zone now e z
      ((map_to_list (filter (λ kv : Z * Webhook, kv.1 ∈ ws) (hd_webhooks h))).*2) h Hwf) as (H1 & _ & H2 & _).
    done.
Qed.

Lemma marks_kept d u ids : entries_kept (db_entries d) (db_entries (MarkEntriesRemoved d u ids).1).
Proof.
  unfold MarkEntriesRemoved. cbn [fst set_db_entries db_entries]. generalize (db_entries d) as e.
  induction ids as [|i ids IH]; intros e; simpl; [reflexivity|]. etransitivity; [|apply IH].
  intros Hwf. apply same_tables; try done; unfold MarkEntryRemovedKeepPayload; by repeat case_match.
Qed.

Lemma createEntries_kept now f e id es relay : entries_kept e (createEntries dedup_key now f e id es relay).1.
Proof. apply entries_kept_step. constructor. Qed.

Definition tx_frame (id : Z) (s s' : FeedDb * EntryDb) : Prop :=
  feeds_frame id s.1 s'.1 ∧ entries_kept s.2 s'.2.

Lemma withTx_frame {A} id s (fn : FeedDb * EntryDb → FeedDb * EntryDb * (err + A)) :
  tx_frame id s (fn s).1 → tx_frame id s (withTx s fn).1.
Proof. unfold withTx. destruct (fn s) as [s' [e|a]]; [|done]. split; reflexivity. Qed.

Lemma lift_meta_frame {A} f e m (a : A) :
  tx_frame (um_id m) (f, e) (lift_meta (updateFeedRefreshMeta f m) e a).1.
Proof.
  pose proof (update_meta_frame f m) as H. destruct (updateFeedRefreshMeta f m) as [f' [e'|]];
    split; try done; reflexivity.
Qed.

Lemma create_tx_frame now f e id es meta : um_id meta = id →
  tx_frame id (f, e) (CreateEntriesWithRefreshMeta dedup_key now (f, e) id es meta).1.
Proof.
  intros <-. unfold CreateEntriesWithRefreshMeta. apply withTx_frame.
  pose proof (createEntries_kept now f e (um_id meta) es false) as Hc.
  destruct (createEntries _ _ _ _ _ _ _) as [e1 [er|ins]]; [by split; [reflexivity|]|].
  pose proof (lift_meta_frame f e1 (set_new_entries meta ins.1) ins) as [H1 H2].
  split; [exact H1|]. etransitivity; [exact Hc|exact H2].
Qed.

Lemma filtered_tx_frame now f e id wanted dd relay meta : um_id meta = id →
  tx_frame id (f, e) (StoreFilteredPoll dedup_key now (f, e) (mkFilteredPoll id wanted dd relay (Some meta))).1.
Proof.
  intros <-. unfold StoreFilteredPoll. cbn [fp_entries fp_dedup fp_meta].
  assert (tx_frame (um_id meta) (f, e) (filtered_body dedup_key now
    (mkFilteredPoll (um_id meta) wanted dd relay (Some meta)) (f, e)).1) as Hbody.
  { unfold filtered_body. cbn [fp_feed_id fp_entries fp_dedup fp_relay fp_meta].
    pose proof (createEntries_kept now f e (um_id meta) wanted relay) as Hc.
    destruct (createEntries _ _ _ _ _ _ _) as [e1 [er|ins]]; [by split; [reflexivity|]|].
    pose proof (entries_kept_step _ _ (es_dedup dedup_key (um_id meta) dd e1)) as Hd.
    destruct (recordFeedEntryDedup _ _ _ _) as [e2 [er|k]]; cbn [fst] in *.
    - split; [reflexivity|]. by etransitivity.
    - pose proof (lift_meta_frame f e2 meta ins) as [H1 H2]. split; [done|].
      etransitivity; [exact Hc|]. etransitivity; [exact Hd|exact H2]. }
  destruct wanted; [destruct dd|]; [apply lift_meta_frame|by apply withTx_frame..].
Qed.

Lemma action_frame relay id d d' : action_step relay d d' → db_frame id d d'.
Proof.
  destruct 1.
  - apply frame_hooks, enqueue_logs_kept.
  - apply frame_entries. intros Hwf. by apply same_tables.
  - unfold MarkEntriesRemoved. cbn [fst]. apply frame_entries, (marks_kept d u ids).
  - split; reflexivity.
Qed.

Lemma book_frame id d d' : book_step id d d' → db_frame id d d'.
Proof.
  destruct 1 as [p d <-|p d <-|t d|d|].
  - apply frame_feeds, update_ps_frame_id.
  - apply frame_feeds, update_meta_frame.
  - apply frame_feeds, update_ps_frame_id.
  - apply frame_feeds, manual_pause_frame.
  - split; reflexivity.
Qed.

Lemma db_step_frame id d d' : db_step id d d' → db_frame id d d'.
Proof.
  destruct 1 as [relay d d' H|ids d|now es meta d Hid|now wanted dd relay meta d Hid|d d' H].
  - by eapply action_frame.
  - apply frame_entries, entries_kept_step, es_drop.
  - destruct (create_tx_frame now (db_feeds d) (db_entries d) id es meta Hid) as [H1 H2].
    etransitivity; [by apply frame_feeds|]. by apply frame_entries.
  - destruct (filtered_tx_frame now (db_feeds d) (db_entries d) id wanted dd relay meta Hid) as [H1 H2].
    etransitivity; [by apply frame_feeds|]. by apply frame_entries.
  - by apply book_frame.
Qed.

Lemma db_steps_frame id d d' : rtc (db_step id) d d' → db_frame id d d'.
Proof.
  induction 1 as [|d d1 d2 H _ IH]; [reflexivity|]. etransitivity; [by apply db_step_frame|done].
Qed.

(** ** Polls that return an error *)

(** Nothing but the memory and the oracle changed. *)
Record same w w' : Prop := {
  same_db : w_db w' = w_db w;
  same_events : w_events w' = w_events w;
  same_faults : w_faults w = [] → w_faults w' = [];
}.

#[export] Instance same_preorder : PreOrder same.
Proof.
  split; [by intros w; split|]. intros w1 w2 w3 [] []. split; try congruence. auto.
Qed.

Lemma silent_same w w' : silent w w' → same w w'.
Proof. by intros []. Qed.

(** [R] holds of the runs whose result is [bad]. *)
Definition when {A} (bad : A → Prop) (R : relation World) (m : M A) : Prop :=
  ∀ w, bad (m w).2 → R w (m w).1.

Lemma when_respects {A} (bad : A → Prop) R (m : M A) : respects R m → when bad R m.
Proof. intros H w _. apply H. Qed.

Lemma when_bind {A B} (bad : B → Prop) R `{!PreOrder R} (m : M A) (k : A → M B) :
  respects R m → (∀ a, when bad R (k a)) → when bad R (m ≫= k).
Proof.
  intros Hm Hk w. unfold mbind, M_bind. pose proof (Hm w) as H. destruct (m w) as [w1 a].
  intros Hbad. etransitivity; [exact H|by apply Hk].
Qed.

(** A transaction that fails changes nothing. *)
Lemma when_call {A B} (bad : B → Prop) (op : Db → Db * (err + A)) (k : err + A → B) :
  (∀ d e, (op d).2 = inl e → (op d).1 = d) → (∀ a, ¬ bad (k (inr a))) →
  when bad silent (r ← call op; mret (k r)).
Proof.
  intros Hop Hk w. unfold mbind, M_bind, mret, M_ret, call.
  pose proof (Hop (w_db w)) as Ho. destruct (op (w_db w)) as [d r].
  destruct (w_faults w) as [|[] fs] eqn:E; cbn [fst snd tail] in *;
    try (split; cbn; congruence || done); intros Hb; destruct r as [e|a];
    try (by destruct (Hk a)); specialize (Ho e eq_refl); subst d; split; cbn; congruence || done.
Qed.

Definition stored_bad (r : Stored) : Prop := match r.2 with inl _ => True | inr _ => False end.

Lemma withTx_fails {S A} (s : S) (fn : S → S * (err + A)) e :
  (withTx s fn).2 = inl e → (withTx s fn).1 = s.
Proof. unfold withTx. by destruct (fn s) as [s' [|]]. Qed.

Lemma lift_meta_fails {A} f e m (a : A) er :
  (lift_meta (updateFeedRefreshMeta f m) e a).2 = inl er →
  (lift_meta (updateFeedRefreshMeta f m) e a).1 = (f, e).
Proof. unfold lift_meta, updateFeedRefreshMeta, update_ps. by repeat case_match; simplify_eq/=. Qed.

Lemma filtered_fails now s p e :
  (StoreFilteredPoll dedup_key now s p).2 = inl e → (StoreFilteredPoll dedup_key now s p).1 = s.
Proof.
  unfold StoreFilteredPoll. destruct s as [f d]. destruct (fp_entries p); [destruct (fp_dedup p)|].
  - destruct (fp_meta p) as [m|]; [|done]. apply lift_meta_fails.
  - apply withTx_fails.
  - apply withTx_fails.
Qed.

(** The store call of a poll, as [storeFetched] makes it. *)
Lemma store_fails {A} (op : FeedDb * EntryDb → (FeedDb * EntryDb) * (err + A)) d e :
  (∀ s e, (op s).2 = inl e → (op s).1 = s) →
  let r := (let '((f, e), r) := op (db_feeds d, db_entries d) in (set_db_entries (set_db_feeds d f) e, r)) in
  r.2 = inl e → r.1 = d.
Proof.
  intros Hop r. subst r. specialize (Hop (db_feeds d, db_entries d)).
  destruct (op _) as [[f' e'] r]. cbn in *. intros ->. specialize (Hop e eq_refl). simplify_eq.
  by destruct d.
Qed.

Lemma storeFetched_fails now feed fetched meta :
  when stored_bad silent (storeFetched now feed fetched meta).
Proof.
  unfold storeFetched, processEntriesFiltered. case_match; [intros w []|].
  case_match.
  - case_match; [intros w []|]. apply when_bind; [apply _|frame_go|]. intros [er|kn]; [by intros w _|].
    apply when_bind; [apply _|frame_go|]. intros [er|perSub]; [by intros w _|].
    apply when_bind; [apply _|frame_go|]. intros hits.
    apply when_bind; [apply _|frame_go|]. intros [wanted dd].
    apply (when_call stored_bad).
    + intros d er. apply (store_fails (λ s, StoreFilteredPoll dedup_key now s _)). intros s er'. apply filtered_fails.
    + by intros [ins es] [].
  - apply (when_call stored_bad).
    + intros d er. apply (store_fails (λ s, CreateEntriesWithRefreshMeta dedup_key now s _ _ _)).
      intros s er'. apply withTx_fails.
    + by intros [ins es] [].
Qed.

Lemma bind_run {A B} (m : M A) (k : A → M B) w w' b : (m ≫= k) w = (w', b) →
  ∃ w1 a, m w = (w1, a) ∧ k a w1 = (w', b).
Proof. unfold mbind, M_bind. destruct (m w) as [w1 a]. eauto. Qed.

Lemma respects_run {A} R (m : M A) w w' a : respects R m → m w = (w', a) → R w w'.
Proof. intros H Hm. specialize (H w). by rewrite Hm in H. Qed.

Lemma yields_run {A} Q (m : M A) w w' a : yields Q m → m w = (w', a) → Q a.
Proof. intros H Hm. specialize (H w). by rewrite Hm in H. Qed.

(** A poll that fetched and then fails was [failPoll] on a failed transaction. *)
Lemma finish_poll_fails feed now elapsed window res w w' e :
  finish_poll feed now elapsed window res w = (w', inl e) →
  ∃ w1 cause, same w w1 ∧
    failPoll feed now elapsed (res_bridge_state res) cause ECreateEntries false w1 = (w', e).
Proof.
  unfold finish_poll. intros (w1 & next0 & H1 & H)%bind_run.
  apply respects_run with (R := silent) in H1; [|apply nextCheckAfterPoll_silent].
  destruct (silentNextCheck feed now next0) as [next sil]. set (meta := mkMetaParams _ _ _ _ _ _ _ _ _ _) in H.
  apply bind_run in H as (w2 & [meta' stored] & H2 & H).
  destruct stored as [cause|[[ins es] stored]].
  - apply bind_run in H as (w3 & e' & H3 & H). injection H as <- <-. exists w2, cause. split; [|done].
    etransitivity; [by apply silent_same|]. destruct (res_not_modified res); [by injection H2|].
    pose proof (storeFetched_fails now feed (res_entries res) meta w1) as Hs. rewrite H2 in Hs.
    by apply silent_same, Hs.
  - exfalso. assert (yields (λ r, ∃ n : Z, r = inr n)
      (settle_poll feed now elapsed window res sil (open_at window next) meta' ins es stored)) as Hy.
    { unfold settle_poll. yields_go. by eexists. }
    destruct (yields_run _ _ _ _ _ Hy H) as [n Hn]. done.
Qed.

(** The error of a fetch as [refreshLoaded] passes it on. *)
Definition fetch_error (cause e : err) : Prop := e = cause ∨ ∃ a, e = EProxyUnavailable a cause.

(** What the code does with a failed fetch, from the world it finds. *)
Inductive fetch_outcome (feed : Feed) (now elapsed : Z) (res : FetchResponse) (fe : err) w
    : World → err → Prop :=
| fo_deferred w' e : same w w' → RetryAt (Some e) ≠ None → fetch_error fe e →
    fetch_outcome feed now elapsed res fe w w' e
| fo_layout w1 w' le marker e : same w w1 → deferLayout feed now le marker w1 = (w', e) →
    fetch_outcome feed now elapsed res fe w w' e
| fo_failed w1 w' cause e : same w w1 → as_layout_err cause = None → RetryAt (Some cause) = None →
    failPoll feed now elapsed (res_bridge_state res) cause EFetchFeed (err_is_gone cause) w1 = (w', e) →
    fetch_outcome feed now elapsed res fe w w' e.

Lemma fetch_failed_outcome feed now elapsed res cause w w' e :
  fetch_failed feed now elapsed res cause w = (w', e) → fetch_outcome feed now elapsed res cause w w' e.
Proof.
  unfold fetch_failed. intros (w1 & e1 & H1 & H)%bind_run.
  assert (fetch_error cause e1) as He1.
  { destruct (IsUnavailable cause).
    - apply bind_run in H1 as (w2 & a & _ & H1). injection H1 as _ <-. right. by exists a.
    - injection H1 as _ <-. by left. }
  apply respects_run with (R := silent) in H1; [|frame_go]. apply silent_same in H1.
  destruct (as_layout_err e1) as [[le marker]|] eqn:Hl; [by eapply fo_layout|].
  destruct (RetryAt (Some e1)) eqn:Hr.
  - injection H as <- <-. apply fo_deferred; [done| |done]. by rewrite Hr.
  - by eapply fo_failed.
Qed.

Lemma release_same host owed : respects same (release_host host owed).
Proof.
  unfold release_host. apply respects_mem. intros w. destruct (m_hosts _); [|reflexivity].
  destruct owed; [by split|reflexivity].
Qed.

Lemma slot_run {A} host (refused : A) (body : M A) w w' r :
  (slot ← acquire_host host;
   match slot with
   | None => mret refused
   | Some owed => r ← body; _ ← release_host host owed; mret r
   end) w = (w', r) →
  (r = refused ∧ same w w') ∨ ∃ w1 w2, same w w1 ∧ body w1 = (w2, r) ∧ same w2 w'.
Proof.
  intros (w1 & slot & H1 & H)%bind_run.
  apply respects_run with (R := same) in H1.
  2:{ unfold acquire_host. apply respects_mem. intros w0.
      destruct (hl_acquire _ _) as [[h owed]|]; [by split|reflexivity]. }
  destruct slot as [owed|]; [|injection H as <- <-; by left]. right.
  apply bind_run in H as (w2 & r' & H2 & H). apply bind_run in H as (w3 & [] & H3 & H).
  injection H as <- <-. exists w1, w2. split; [done|]. split; [done|].
  by eapply respects_run; [apply release_same|].
Qed.

(** The refusals of a poll before the fetch. *)
Definition refused (e : err) : Prop :=
  match e with EInboundFeed | EFeedCircuitOpen | EOutsidePollWindow _ | EHostBusy _ _ => True | _ => False end.

(** The error runs of a poll: refused or deferred without a trace; a layout
    deferral; a recorded failure of the fetch or of the store. *)
Inductive poll_error (feed : Feed) (now elapsed : Z) w : World → err → Prop :=
| pe_refused w' e : same w w' →
    refused e ∨ (RetryAt (Some e) ≠ None ∧ ∃ rq res fe, fetch rq = (res, Some fe) ∧ fetch_error fe e) →
    poll_error feed now elapsed w w' e
| pe_layout feed' w1 w2 w' le marker e :
    feed_row feed' = feed_row feed → same w w1 → deferLayout feed' now le marker w1 = (w2, e) →
    same w2 w' → poll_error feed now elapsed w w' e
| pe_failed feed' w1 w2 w' rq cause kind gone e :
    let st := res_bridge_state (fetch rq).1 in
    feed_row feed' = feed_row feed →
    ps_parsing_error_count (feed_ps feed') = ps_parsing_error_count (feed_ps feed) →
    same w w1 → failPoll feed' now elapsed st cause kind gone w1 = (w2, e) → same w2 w' →
    poll_error feed now elapsed w w' e.

Lemma fullRefetch_count feed st :
  ps_parsing_error_count (feed_ps (fullRefetchState feed st).1) = ps_parsing_error_count (feed_ps feed).
Proof. unfold fullRefetchState. by repeat case_match. Qed.

Lemma fetch_and_store_error feed now elapsed window manual w w0 w1 w' e : same w0 w →
  fetch_and_store feed now elapsed window manual w = (w1, inl e) → same w1 w' →
  poll_error feed now elapsed w0 w' e.
Proof.
  unfold fetch_and_store. set (fs := if manual then _ else _). intros Hw0 H Hw'.
  assert (feed_row fs.1 = feed_row feed ∧
    ps_parsing_error_count (feed_ps fs.1) = ps_parsing_error_count (feed_ps feed)) as [Hrow Hc].
  { unfold fs. destruct manual; [|done]. split; [apply fullRefetch_id|apply fullRefetch_count]. }
  destruct fs as [feed' st]. cbn [fst] in *. set (rq := mkFetchRequest _ _ _ _ _) in H.
  destruct (fetch rq) as [res [er|]] eqn:Hrq; (assert (res = (fetch rq).1) as Hres by (by rewrite Hrq)); subst res.
  - apply bind_run in H as (w2 & e' & H & H'). injection H' as <- <-.
    apply fetch_failed_outcome in H.
    inversion H as [w3 e3 Hs Hr Hfe|w4 w3 le marker e3 Hs Hr|w4 w3 cause e3 Hs _ _ Hr]; subst; clear H.
    + apply pe_refused; [|right; split; [done|]; by exists rq, (fetch rq).1, er].
      etransitivity; [exact Hw0|]. by etransitivity.
    + eapply pe_layout; [exact Hrow| |exact Hr|exact Hw']. by etransitivity.
    + eapply pe_failed; [exact Hrow|exact Hc| |exact Hr|exact Hw']. by etransitivity.
  - apply finish_poll_fails in H as (w2 & cause & Hs & Hr).
    eapply pe_failed; [exact Hrow|exact Hc| |exact Hr|exact Hw']. by etransitivity.
Qed.

Lemma refreshLoaded_error feed now elapsed manual w w' e :
  refreshLoaded feed now elapsed manual w = (w', inl e) → poll_error feed now elapsed w w' e.
Proof.
  unfold refreshLoaded. intros H.
  destruct (String.eqb _ _); [injection H as <- <-; apply pe_refused; [reflexivity|by left]|].
  destruct (_ && _); [injection H as <- <-; apply pe_refused; [reflexivity|by left]|].
  apply bind_run in H as (w1 & [] & H1 & H).
  apply respects_run with (R := silent) in H1; [|apply set_subs_silent].
  apply bind_run in H as (w2 & window & H2 & H).
  apply respects_run with (R := silent) in H2; [|apply pollWindow_silent].
  assert (same w w2) as Hs by (apply silent_same; by etransitivity).
  destruct (negb manual && _); [injection H as <- <-; apply pe_refused; [done|by left]|].
  destruct manual.
  - by eapply fetch_and_store_error.
  - apply slot_run in H as [[[= ->] Hs']|(w3 & w4 & Hs3 & H & Hs4)].
    + apply pe_refused; [by etransitivity|by left].
    + eapply fetch_and_store_error; [|exact H|exact Hs4]. by etransitivity.
Qed.

(** The realtime events are as before. *)
Definition quiet : relation World := λ w w', w_events w' = w_events w.

#[export] Instance quiet_preorder : PreOrder quiet.
Proof. split; [by intros w|]. unfold quiet. intros w1 w2 w3 -> ->. done. Qed.

Lemma call_quiet {A} (op : Db → Db * (err + A)) : respects quiet (call op).
Proof.
  intros w. unfold call. destruct (w_faults w) as [|[] fs]; [|done|]; by destruct (op (w_db w)).
Qed.

Lemma silent_quiet {A} (m : M A) : respects silent m → respects quiet m.
Proof. intros H w. by destruct (H w). Qed.

Lemma recordPoll_quiet feed at_ elapsed ins cause : respects quiet (recordPoll feed at_ elapsed ins cause).
Proof.
  unfold recordPoll. apply respects_mem. intros w. destruct (_ && _ && _); [reflexivity|].
  apply respects_at, respects_bind; [apply _|apply call_quiet|].
  intros [e|[]]; [apply respects_ret, _|]. by apply respects_mem.
Qed.

Lemma recordFailure_quiet feed now cause st : respects quiet (recordFailure feed now cause st).
Proof.
  unfold recordFailure. destruct pollBounds. apply respects_bind; [apply _|apply call_quiet|].
  intros ?. apply respects_ret, _.
Qed.

Lemma failPoll_result feed now elapsed st cause kind gone w w' e :
  failPoll feed now elapsed st cause kind gone w = (w', e) →
  ∃ after subs, e = EPollFailed after (EJoin kind cause) ∧
    w_events w' = w_events w ++ [EvStatus after subs (Some (EJoin kind cause))].
Proof.
  unfold failPoll. intros (w1 & after & H1 & H)%bind_run.
  apply respects_run with (R := quiet) in H1; [|apply recordFailure_quiet].
  apply bind_run in H as (w2 & after2 & H2 & H).
  apply respects_run with (R := quiet) in H2.
  2:{ destruct gone; [|apply respects_ret, _]. apply respects_bind; [apply _|apply call_quiet|].
      intros ?. apply respects_ret, _. }
  apply bind_run in H as (w3 & [] & H3 & H).
  apply respects_run with (R := quiet) in H3; [|apply recordPoll_quiet].
  apply bind_run in H as (w4 & subs & H4 & H).
  apply respects_run with (R := quiet) in H4; [|apply silent_quiet, feedSubs_loaded_silent].
  injection H as <- <-. exists after2, subs. split; [done|]. cbn. unfold quiet in *. congruence.
Qed.

Lemma deferLayout_result feed now le marker w w' e :
  deferLayout feed now le marker w = (w', e) →
  (∃ next, e = ELayoutDeferred next le) ∧ w_events w' = w_events w ∧
  db_polllog (w_db w') = db_polllog (w_db w).
Proof.
  unfold deferLayout. intros (w1 & next & H1 & H)%bind_run.
  apply respects_run with (R := silent) in H1; [|apply nextCheckAfterPoll_silent].
  destruct H1 as [E1 E2 _ _ _]. apply bind_run in H as (w2 & r & H2 & H). injection H as <- <-.
  split; [by eexists|]. rewrite <-E1, <-E2. unfold call, to_res in H2.
  by destruct (w_faults w1) as [|[] fs]; simplify_eq/=.
Qed.

(** What bookkeeping leaves alone. *)
Lemma book_steps_frame id d d' : rtc (book_step id) d d' →
  db_entries d' = db_entries d ∧ db_hooks d' = db_hooks d ∧ db_matches d' = db_matches d.
Proof. induction 1 as [|d d1 d2 H _ (-> & -> & ->)]; [done|]. by destruct H. Qed.

(** ** Without storage faults *)

Lemma call_ok {A} (op : Db → Db * (err + A)) w : w_faults w = [] →
  call op w = (mkWorld (op (w_db w)).1 (w_mem w) (w_events w) [], (op (w_db w)).2).
Proof. intros H. unfold call. rewrite H. by destruct (op (w_db w)). Qed.

Definition feeds_same : relation World := λ w w', db_feeds (w_db w') = db_feeds (w_db w).

#[export] Instance feeds_same_preorder : PreOrder feeds_same.
Proof. split; [by intros w|]. unfold feeds_same. intros w1 w2 w3 -> ->. done. Qed.

Lemma recordPoll_feeds feed at_ elapsed ins cause : respects feeds_same (recordPoll feed at_ elapsed ins cause).
Proof.
  unfold recordPoll. apply respects_mem. intros w. destruct (_ && _ && _); [reflexivity|].
  apply respects_at, respects_bind; [apply _| |].
  - intros w'. unfold call_, call. by destruct (w_faults w') as [|[] fs].
  - intros [e|[]]; [apply respects_ret, _|]. by apply respects_mem.
Qed.

(** The next check after a failure. *)
Definition failure_next (feed : Feed) (now : Z) (cause : err) : Z :=
  if err_is_bot cause then time_add now pollBounds.2
  else FeedNextCheckAfterError now (f_interval_minutes (feed_row feed))
         (ps_parsing_error_count (feed_ps feed) + 1) pollBounds.1 pollBounds.2.

Definition failure_ps (ps : PollState) (now next : Z) (cause : err) (st : BridgeState) : PollState :=
  mkPollState (ps_etag ps) (ps_last_modified ps) (Some now) (err_text cause)
    (ps_parsing_error_count ps + 1) (circuitThreshold <=? ps_parsing_error_count ps + 1) (Some next)
    (default (ps_bridge_state ps) (bridgeStateJSON st)) (ps_items_hash ps) (ps_last_entry_at ps).

Lemma circuitThreshold_pos : 0 < circuitThreshold.
Proof. unfold circuitThreshold. case_bools. Qed.

Lemma failPoll_recorded feed now elapsed st cause kind gone w w' e ps :
  w_faults w = [] → fd_poll (db_feeds (w_db w)) !! f_id (feed_row feed) = Some ps →
  failPoll feed now elapsed st cause kind gone w = (w', e) →
  fd_poll (db_feeds (w_db w')) !! f_id (feed_row feed)
    = Some (failure_ps ps now (failure_next feed now cause) cause st) ∧
  fd_subs (db_feeds (w_db w')) = fd_subs (db_feeds (w_db w)).
Proof.
  intros Hf Hps. unfold failPoll. intros (w1 & after & H1 & H)%bind_run.
  apply bind_run in H as (w2 & after2 & H2 & H).
  apply bind_run in H as (w3 & [] & H3 & H). apply respects_run with (R := feeds_same) in H3;
    [|apply recordPoll_feeds].
  apply bind_run in H as (w4 & subs & H4 & H).
  apply respects_run with (R := silent) in H4; [|apply feedSubs_loaded_silent]. injection H as <- _.
  cbn [w_db]. rewrite (sil_db _ _ H4), H3. clear H3 H4.
  unfold recordFailure in H1. unfold failure_next. destruct pollBounds as [lo hi]. cbn [fst snd] in *.
  apply bind_run in H1 as (w5 & r & H5 & H1). injection H1 as <- <-.
  rewrite call_ok in H5 by done. injection H5 as <- <-.
  assert (∀ w a b, (if gone then
             r ← call (λ d, to_res d (SetFeedManualPaused (db_feeds d) (f_id (feed_row feed)) true));
             mret (match r with inl _ => a | inr _ => b end)
           else mret a) w = (w2, after2) →
     fd_poll (db_feeds (w_db w2)) = fd_poll (db_feeds (w_db w)) ∧
     fd_subs (db_feeds (w_db w2)) = fd_subs (db_feeds (w_db w))) as Hgone.
  { intros w0 a b H. destruct gone; [|by injection H as <- _].
    apply bind_run in H as (w6 & r & H6 & H). injection H as <- _. unfold call, to_res, SetFeedManualPaused in H6.
    destruct (w_faults w0) as [|[] fs]; [|by injection H6 as <- _|];
      destruct (fd_feeds _ !! _); by injection H6 as <- _. }
  apply Hgone in H2 as [-> ->]. cbn [w_db to_res fst db_feeds set_db_feeds].
  unfold RecordFeedPollFailure, update_ps. cbn [rf_id]. rewrite Hps. cbn [fst with_poll fd_poll fd_subs].
  rewrite lookup_insert_eq. split; [|done]. f_equal. unfold failure_ps. cbn [rf_checked_at rf_error rf_threshold rf_next_check_at rf_bridge_state].
  pose proof circuitThreshold_pos. by rewrite (proj2 (Z.leb_gt circuitThreshold 0)).
Qed.

(** A paused feed is claimed by no one. *)
Lemma paused_not_due db id ps now limit ex exT :
  fd_poll db !! id = Some ps → ps_poll_paused ps = true →
  id ∉ df_id <$> ListFeedsDue now db limit ex exT.
Proof.
  intros Hps Hp (d & Hd & Hin)%list_elem_of_fmap. unfold ListFeedsDue in Hin.
  destruct (limit <=? 0); [by apply elem_of_nil in Hin|].
  apply (elem_of_sublist _ _ _) with (2 := sublist_take _ _) in Hin.
  rewrite merge_sort_Permutation in Hin.
  apply due_rows_elem in Hin as (id' & f' & p & _ & Hp' & Hdue & ->).
  simpl in Hd. subst id'. rewrite Hps in Hp'. simplify_eq.
  unfold due_now, pollable in Hdue. by rewrite Hp in Hdue.
Qed.

(** ** Successful polls *)

Lemma call_inr {A} (op : Db → Db * (err + A)) w w' a : call op w = (w', inr a) →
  w_db w' = (op (w_db w)).1 ∧ (op (w_db w)).2 = inr a.
Proof.
  unfold call. intros H. destruct (w_faults w) as [|[] fs]; [|done|];
    destruct (op (w_db w)) as [d r]; by injection H as <- ->.
Qed.

Lemma call__inr {A} (op : Db → Db * A) w w' a : call_ op w = (w', inr a) →
  w_db w' = (op (w_db w)).1 ∧ (op (w_db w)).2 = a.
Proof. intros [H1 H2]%call_inr. destruct (op (w_db w)) as [d r]. by injection H2 as ->. Qed.

Lemma take_fresh_covers kn san es x : x ∈ es →
  be_hash x = "" ∨ be_hash x ∈ kn ∨ be_hash x ∈ be_hash <$> take_fresh kn san es.
Proof.
  revert kn. induction es as [|y es IH]; intros kn Hx; [by apply elem_of_nil in Hx|].
  cbn [take_fresh]. apply elem_of_cons in Hx as [->|Hx].
  - destruct (String.eqb_spec (be_hash y) ""); [by left|right]. simpl.
    destruct (bool_decide_reflect (be_hash y ∈ kn)); [by left|right]. destruct san; left.
  - destruct (_ || _); [by apply IH|]. destruct (IH ({[be_hash y]} ∪ kn) Hx) as [?|[Hk|Hk]]; [by left| |].
    + apply elem_of_union in Hk as [->%elem_of_singleton|?]; [|by right; left].
      right. right. destruct san; left.
    + right. right. by right.
Qed.

Lemma split_wanted_covers feed i fresh perSub :
  yields (λ r, ∀ p, p ∈ fresh → p ∈ r.1 ∨ be_hash p ∈ r.2) (split_wanted feed i fresh perSub).
Proof.
  revert i. induction fresh as [|p fresh IH]; intros i; cbn [split_wanted].
  - apply yields_ret. by intros p ?%elem_of_nil.
  - apply yields_bind. intros wanted w. unfold mbind, M_bind.
    pose proof (IH (S i) w) as H. destruct (split_wanted feed (S i) fresh perSub w) as [w1 [a b]].
    cbn in *. intros q [->|Hq]%elem_of_cons; destruct wanted; cbn; [left; left|right; left| |];
      destruct (H q Hq); [left; by right|by right|by left|right; by right].
Qed.

Lemma after_rules_sanitize es : be_hash <$> SanitizeEntries es = be_hash <$> es.
Proof. unfold SanitizeEntries. rewrite <-list_fmap_compose. by apply list_fmap_ext. Qed.

Definition all_known (d : Db) (id : Z) (hashes : list string) : Prop :=
  entries_wf (db_entries d) ∧ ∀ h, h ∈ hashes → h ≠ "" → known dedup_key (db_entries d) id h.

Lemma all_known_kept id hs d d' : all_known d id hs → entries_kept (db_entries d) (db_entries d') →
  all_known d' id hs.
Proof. intros [Hwf H] Hk. destruct (Hk Hwf) as [? Hr]. split; [done|]. intros h Hh Hne. by apply Hr; auto. Qed.

Lemma processEntriesFiltered_knows now feed es relay meta san w w' meta' ins cr st :
  entries_wf (db_entries (w_db w)) → um_id meta = f_id (feed_row feed) →
  processEntriesFiltered now feed es relay meta san w = (w', (meta', inr (ins, cr, st))) →
  all_known (w_db w') (f_id (feed_row feed)) (be_hash <$> es).
Proof.
  intros Hwf Hid. unfold processEntriesFiltered. destruct es as [|e0 es0] eqn:Hes.
  { intros [= <- _ _ _ _]. split; [done|]. by intros h ?%elem_of_nil. }
  rewrite <-Hes. intros (w1 & kn & H1 & H)%bind_run. destruct kn as [er|kn]; [done|].
  apply call__inr in H1 as [E1 Hkn]. cbn [fst snd] in *.
  apply bind_run in H as (w2 & perSub & H2 & H). destruct perSub as [er|perSub]; [done|].
  apply respects_run with (R := silent) in H2; [|frame_go].
  apply bind_run in H as (w3 & hits & H3 & H).
  apply respects_run with (R := silent) in H3; [|frame_go].
  apply bind_run in H as (w4 & [wanted dd] & H4 & H).
  pose proof (yields_run _ _ _ _ _ (split_wanted_covers _ _ _ _) H4) as Hcov. cbn [fst snd] in Hcov.
  apply respects_run with (R := silent) in H4; [|frame_go].
  assert (db_entries (w_db w4) = db_entries (w_db w)) as E4.
  { by rewrite (sil_db _ _ H4), (sil_db _ _ H3), (sil_db _ _ H2), E1. }
  apply bind_run in H as (w5 & r & H5 & H). injection H as <- _ Hr.
  destruct r as [er|[ins' cr']]; [done|]. apply call_inr in H5 as [E5 H5].
  set (p := mkFilteredPoll _ _ _ _ _) in *.
  destruct (StoreFilteredPoll dedup_key now (db_feeds (w_db w4), db_entries (w_db w4)) p)
    as [[f' e'] r'] eqn:Hst. cbn [fst snd] in *. subst r'.
  rewrite <-E4 in Hwf.
  assert (entries_kept (db_entries (w_db w4)) e') as Hkeep.
  { destruct (filtered_tx_frame now (db_feeds (w_db w4)) (db_entries (w_db w4)) (f_id (feed_row feed))
      wanted dd relay (set_new_entries meta (Z.of_nat (length (take_fresh kn san es)))) Hid) as [_ Hk].
    subst p. by rewrite Hst in Hk. }
  pose proof (StoreFilteredPoll_spec _ _ _ _ _ _ _ _ Hwf Hst) as (Hwf' & Hw & Hd & _).
  rewrite E5. cbn [db_entries set_db_entries]. split; [done|]. intros h (x & -> & Hx)%list_elem_of_fmap Hne.
  destruct (take_fresh_covers kn san es x Hx) as [?|[Hk|(y & Hxy & Hy)%list_elem_of_fmap]]; [done| |].
  - assert (remembers dedup_key (db_entries (w_db w4)) e') as Hrem.
    { by apply Hkeep. }
    apply Hrem; [done|]. rewrite E4. rewrite <-Hkn in Hk. by apply FilterKnown_elem in Hk as [_ ?].
  - rewrite Hxy. destruct (Hcov y Hy) as [Hyw|Hyd]; [by apply Hw|left; by apply Hd].
Qed.

Lemma storeFetched_knows now feed fetched meta w w' meta' ins cr st :
  entries_wf (db_entries (w_db w)) → um_id meta = f_id (feed_row feed) →
  storeFetched now feed fetched meta w = (w', (meta', inr (ins, cr, st))) →
  let items := after_rules (feed_row feed) fetched in
  (itemSetHash items ≠ "" ∧ itemSetHash items = ps_items_hash (feed_ps feed) ∧ w' = w) ∨
  all_known (w_db w') (f_id (feed_row feed)) (be_hash <$> items).
Proof.
  intros Hwf Hid H items. unfold storeFetched in H. fold items in H.
  destruct (negb _ && _) eqn:Hshort.
  { injection H as <- _ _ _ _. left. bool_to_prop. done. }
  right. destruct (negb (String.eqb (storeMode feed) "full")) eqn:Hmode.
  - apply negb_true_iff in Hmode. rewrite Hmode in H. cbn [andb] in H.
    eapply processEntriesFiltered_knows; [exact Hwf| |exact H]. exact Hid.
  - apply negb_false_iff in Hmode. rewrite Hmode in H. cbn [andb] in H. clear Hmode Hshort.
    set (es := if negb (has_rules (feed_row feed)) then _ else _) in H.
    assert (be_hash <$> es = be_hash <$> items) as <-.
    { unfold es. destruct (negb _); [apply after_rules_sanitize|done]. }
    apply bind_run in H as (w1 & r & H1 & H). destruct r as [er|[ins' cr']]; [by injection H|].
    injection H as <- _ _ _ _. apply call_inr in H1 as [E1 H1].
    unfold CreateEntriesWithRefreshMeta, withTx in *.
    destruct (createEntries dedup_key now (db_feeds (w_db w)) (db_entries (w_db w)) (f_id (feed_row feed)) es false)
      as [e' [er|cr2]] eqn:Hc; [done|].
    destruct cr2 as [n created]. destruct (createEntries_spec _ _ _ _ _ _ _ _ _ _ Hwf Hc) as (_ & Hwf' & _ & Hk & _).
    unfold lift_meta in *. destruct (updateFeedRefreshMeta _ _) as [f' [er|]]; [done|].
    cbn [fst snd] in *. rewrite E1. cbn [db_entries set_db_entries]. split; [done|].
    intros h (x & -> & Hx)%list_elem_of_fmap _. by apply Hk.
Qed.

(** What a successful poll with [fetched] did about the items of the feed. *)
Definition items_settled (feed : Feed) (manual : bool) (fetched : list BEntry) (d : Db) : Prop :=
  let items := after_rules (feed_row feed) fetched in
  (manual = false ∧ itemSetHash items ≠ "" ∧ itemSetHash items = ps_items_hash (feed_ps feed)) ∨
  all_known d (f_id (feed_row feed)) (be_hash <$> items).

Lemma finish_poll_knows feed now elapsed window res w w' n :
  entries_wf (db_entries (w_db w)) → res_not_modified res = false →
  finish_poll feed now elapsed window res w = (w', inr n) →
  items_settled feed false (res_entries res) (w_db w').
Proof.
  intros Hwf Hmod. unfold finish_poll. rewrite Hmod. intros (w1 & next0 & H1 & H)%bind_run.
  apply respects_run with (R := silent) in H1; [|apply nextCheckAfterPoll_silent].
  destruct (silentNextCheck feed now next0) as [next sil]. set (meta := mkMetaParams _ _ _ _ _ _ _ _ _ _) in H.
  apply bind_run in H as (w2 & [meta' stored] & H2 & H).
  pose proof (yields_run _ _ _ _ _ (storeFetched_id now feed (res_entries res) meta) H2) as Hid.
  rewrite <-(sil_db _ _ H1) in Hwf. destruct stored as [cause|[[ins es] stored]].
  - apply bind_run in H as (w3 & e' & H3 & H). by injection H.
  - destruct (storeFetched_knows now feed (res_entries res) meta w1 _ _ _ _ _ Hwf eq_refl H2) as [(Hne & Hh & _)|Hk]; [by left|right].
    eapply all_known_kept; [exact Hk|].
    destruct (respects_run _ _ _ _ _ (settle_poll_steps feed now elapsed window res sil
      (open_at window next) meta' ins es stored Hid) H) as (Hs & _).
    by apply db_steps_frame in Hs as [].
Qed.

Lemma fetch_and_store_knows feed now elapsed window manual w w' n :
  entries_wf (db_entries (w_db w)) → fetch_and_store feed now elapsed window manual w = (w', inr n) →
  ∃ rq res, rq_url rq = f_url (feed_row feed) ∧ fetch rq = (res, None) ∧
    (res_not_modified res = false → items_settled feed manual (res_entries res) (w_db w')).
Proof.
  intros Hwf. unfold fetch_and_store. set (fs := if manual then _ else _).
  assert (feed_row fs.1 = feed_row feed ∧
    (if manual then ps_items_hash (feed_ps fs.1) = "" else fs.1 = feed)) as [Hrow Hps].
  { unfold fs. destruct manual; [|done]. split; [apply fullRefetch_id|].
    unfold fullRefetchState. by repeat case_match. }
  destruct fs as [feed' st]. cbn [fst] in *. set (rq := mkFetchRequest _ _ _ _ _).
  destruct (fetch rq) as [res [er|]] eqn:Hrq; intros H.
  - apply bind_run in H as (w2 & e' & _ & H). by injection H.
  - exists rq, res. split; [by rewrite <-Hrow|]. split; [done|]. intros Hmod.
    apply finish_poll_knows in H; [|done..]. unfold items_settled in *. rewrite Hrow in H.
    destruct manual; [|by subst]. destruct H as [(_ & Hne & Hh)|?]; [congruence|by right].
Qed.

(** ** Relay feeds *)

(** Every row of the feed [id] has a delivery on record. *)
Definition no_orphans (id : Z) (d : Db) : Prop :=
  ∀ i r, ed_entries (db_entries d) !! i = Some r → er_feed_id r = id →
    ∃ k l, hd_logs (db_hooks d) !! k = Some l ∧ wl_entry_id l = i.

Definition new_rows_in (cr : list Entry) (e e' : EntryDb) : Prop :=
  ∀ i r, ed_entries e' !! i = Some r → ed_entries e !! i = Some r ∨ ∃ x, x ∈ cr ∧ e_id x = i.

Lemma new_rows_refl cr e : new_rows_in cr e e.
Proof. by left. Qed.

Lemma filtered_new_rows now s p s' n cr :
  StoreFilteredPoll dedup_key now s p = (s', inr (n, cr)) → new_rows_in cr s.2 s'.2.
Proof.
  destruct s as [f e]. unfold StoreFilteredPoll.
  assert (∀ m a, lift_meta (updateFeedRefreshMeta f m) e a = (s', inr (n, cr)) → new_rows_in cr e s'.2) as Hl.
  { intros m a. unfold lift_meta. destruct (updateFeedRefreshMeta f m) as [f' [|]]; [done|].
    intros [= <- _]. apply new_rows_refl. }
  assert (withTx (f, e) (filtered_body dedup_key now p) = (s', inr (n, cr)) → new_rows_in cr e s'.2) as Ht.
  { unfold withTx, filtered_body.
    destruct (createEntries dedup_key now f e (fp_feed_id p) (fp_entries p) (fp_relay p)) as [e1 [er|[n1 cr1]]] eqn:Hc; [done|].
    destruct (recordFeedEntryDedup dedup_key e1 (fp_feed_id p) (fp_dedup p)) as [e2 [er|k]] eqn:Hd; [done|].
    assert (ed_entries e2 = ed_entries e1) as He2.
    { unfold recordFeedEntryDedup in Hd. repeat case_match; by simplify_eq. }
    intros Hr. assert (cr1 = cr ∧ s'.2 = e2) as [-> ->].
    { destruct (fp_meta p) as [m|]; [|by simplify_eq]. unfold lift_meta in Hr.
      destruct (updateFeedRefreshMeta f m) as [f' [|]]; by simplify_eq. }
    intros i r Hi. rewrite He2 in Hi. by eapply createEntries_new. }
  destruct (fp_entries p); [destruct (fp_dedup p)|]; cbn [snd]; [|exact Ht..].
  destruct (fp_meta p) as [m|]; [apply Hl|]. intros [= <- _]. apply new_rows_refl.
Qed.

Lemma store_run {A} (op : FeedDb * EntryDb → (FeedDb * EntryDb) * (err + A)) w w' a :
  call (λ d, let '((f, e), r) := op (db_feeds d, db_entries d) in
             (set_db_entries (set_db_feeds d f) e, r)) w = (w', inr a) →
  ∃ s', op (db_feeds (w_db w), db_entries (w_db w)) = (s', inr a) ∧
    w_db w' = set_db_entries (set_db_feeds (w_db w) s'.1) s'.2.
Proof.
  intros [H1 H2]%call_inr. destruct (op _) as [[f e] r]. cbn in *. subst r.
  exists (f, e). split; [done|]. exact H1.
Qed.

Lemma storeFetched_new_rows now feed fetched meta w w' meta' ins cr st :
  storeMode feed = "relay" →
  storeFetched now feed fetched meta w = (w', (meta', inr (ins, cr, st))) →
  db_hooks (w_db w') = db_hooks (w_db w) ∧ new_rows_in cr (db_entries (w_db w)) (db_entries (w_db w')).
Proof.
  intros Hmode. unfold storeFetched. destruct (negb _ && _).
  { intros [= <- _ _ <- _]. split; [done|]. apply new_rows_refl. }
  rewrite Hmode. cbn [String.eqb Ascii.eqb Bool.eqb negb andb]. unfold processEntriesFiltered.
  destruct (after_rules _ _) as [|x0 xs] eqn:Hxs.
  { intros [= <- _ _ <- _]. split; [done|]. apply new_rows_refl. }
  rewrite <-Hxs. intros (w1 & kn & H1 & H)%bind_run. destruct kn as [er|kn]; [done|].
  apply call__inr in H1 as [E1 _]. cbn [fst snd] in *.
  apply bind_run in H as (w2 & perSub & H2 & H). destruct perSub as [er|perSub]; [done|].
  apply respects_run with (R := silent) in H2; [|frame_go].
  apply bind_run in H as (w3 & hits & H3 & H). apply respects_run with (R := silent) in H3; [|frame_go].
  apply bind_run in H as (w4 & [wanted dd] & H4 & H).
  apply respects_run with (R := silent) in H4; [|frame_go].
  assert (w_db w4 = w_db w) as E4 by (by rewrite (sil_db _ _ H4), (sil_db _ _ H3), (sil_db _ _ H2)).
  apply bind_run in H as (w5 & r & H5 & H). injection H as <- _ Hr.
  destruct r as [er|[ins' cr']]; [done|]. injection Hr as _ <- _.
  apply (store_run (λ s, StoreFilteredPoll dedup_key now s _)) in H5 as (s' & Hst & ->).
  rewrite <-E4. split; [done|]. by eapply (filtered_new_rows _ (_, _)).
Qed.

(** In relay mode the filters and subscriptions only add deliveries. *)
Lemma relay_actions d d' : rtc (action_step true) d d' →
  db_entries d' = db_entries d ∧ logs_kept (db_hooks d) (db_hooks d').
Proof.
  induction 1 as [|d d1 d2 H _ [IH1 IH2]]; [done|]. destruct H; try done.
  split; [done|]. etransitivity; [apply enqueue_logs_kept|exact IH2].
Qed.

Lemma relay_subs_steps now feed subs es :
  respects (steps (action_step true)) (for_each subs (λ sub, applySubscriberFilters now feed sub es true)).
Proof. apply respects_for_each; [apply _|]. intros sub _. apply applySubscriberFilters_steps. Qed.

Lemma afterStore_relay now feed cr w w' : w_faults w = [] → storeMode feed = "relay" →
  afterStore now feed cr w = (w', tt) →
  logs_kept (db_hooks (w_db w)) (db_hooks (w_db w')) ∧
  ∀ i r, ed_entries (db_entries (w_db w')) !! i = Some r →
    ed_entries (db_entries (w_db w)) !! i = Some r ∧
    (i ∈ e_id <$> cr → ∃ k l, hd_logs (db_hooks (w_db w')) !! k = Some l ∧ wl_entry_id l = i).
Proof.
  intros Hf Hmode. unfold afterStore. destruct cr as [|x0 xs] eqn:Hcr.
  { intros [= <-]. split; [reflexivity|]. intros i r Hi. split; [done|]. by intros ?%elem_of_nil. }
  rewrite <-Hcr. rewrite Hmode. cbn [String.eqb Ascii.eqb Bool.eqb]. intros (w1 & subs & H1 & H)%bind_run.
  apply respects_run with (R := silent) in H1; [|apply feedSubs_get_silent].
  apply bind_run in H as (w2 & [] & H2 & H).
  apply respects_run with (R := steps (action_step true)) in H2; [|apply relay_subs_steps].
  destruct H2 as (Hs & _ & Hf2). apply relay_actions in Hs as [He Hk]. rewrite (sil_db _ _ H1) in He, Hk.
  unfold dropUndeliveredRelayEntries in H. apply bind_run in H as (w3 & r & H3 & H). injection H as <-.
  unfold call_ in H3. rewrite call_ok in H3 by (by apply Hf2, (sil_faults _ _ H1)). injection H3 as <- _.
  cbn [w_db]. unfold DropUndeliveredRelayEntries.
  assert (e_id <$> cr = e_id x0 :: (e_id <$> xs)) as -> by (by rewrite Hcr). cbn [fst].
  split; [exact Hk|]. cbn [db_entries db_hooks set_db_entries].
  intros i r' Hi. apply delete_entries_lookup in Hi as [Hi Hno]. rewrite He in Hi. split; [done|].
  intros Hin. apply dec_stable. intros Hnolog. apply Hno. split; [done|].
  intros (k & l & Hl & Hid). apply Hnolog. by exists k, l.
Qed.

(** After the subscribers' actions a poll only keeps its books. *)
Lemma settle_poll_books feed now elapsed window res sil next meta ins es stored w w' r :
  um_id meta = f_id (feed_row feed) →
  settle_poll feed now elapsed window res sil next meta ins es stored w = (w', r) →
  ∃ w1, (if res_not_modified res then mret (M := M) tt else afterStore now feed es) w = (w1, tt) ∧
    db_entries (w_db w') = db_entries (w_db w1) ∧ db_hooks (w_db w') = db_hooks (w_db w1).
Proof.
  intros Hid. unfold settle_poll. intros (w1 & [] & H1 & H)%bind_run. exists w1. split; [done|].
  apply respects_run with (R := steps (book_step (f_id (feed_row feed)))) in H.
  - destruct H as (H & _). apply book_steps_frame in H as (? & ? & _). done.
  - eapply (respects_yields _ (λ r, um_id r.1 = f_id (feed_row feed))).
    + steps_go. apply rtc_once. constructor.
    + yields_go; done.
    + intros [meta2 next2] Hid2. cbn [fst] in Hid2. steps_go. apply rtc_once. by constructor.
Qed.

Lemma finish_poll_relay feed now elapsed window res w w' n :
  w_faults w = [] → storeMode feed = "relay" → logs_wf (db_hooks (w_db w)) →
  no_orphans (f_id (feed_row feed)) (w_db w) →
  finish_poll feed now elapsed window res w = (w', inr n) → no_orphans (f_id (feed_row feed)) (w_db w').
Proof.
  intros Hf Hmode Hwf Hno. unfold finish_poll. intros (w1 & next0 & H1 & H)%bind_run.
  apply respects_run with (R := silent) in H1; [|apply nextCheckAfterPoll_silent].
  destruct (silentNextCheck feed now next0) as [next sil]. set (meta := mkMetaParams _ _ _ _ _ _ _ _ _ _) in H.
  apply bind_run in H as (w2 & [meta' stored] & H2 & H).
  pose proof (yields_run _ _ _ _ _ (stored_id now feed res meta eq_refl) H2) as Hid.
  rewrite <-(sil_db _ _ H1) in Hwf, Hno. destruct stored as [cause|[[ins cr] stored]].
  { apply bind_run in H as (w3 & e' & H3 & H). by injection H. }
  destruct (settle_poll_books _ _ _ _ _ _ _ _ _ _ _ _ _ _ Hid H) as (w3 & H3 & He & Hh).
  unfold no_orphans. rewrite He, Hh. destruct (res_not_modified res).
  { injection H2 as <- _ _ _ _. injection H3 as <-. exact Hno. }
  assert (steps (db_step (f_id (feed_row feed))) w1 w2) as (_ & _ & Hf2).
  { eapply respects_run; [|exact H2]. by apply storeFetched_steps. }
  destruct (storeFetched_new_rows now feed (res_entries res) meta w1 _ _ _ _ _ Hmode H2) as [Hh2 Hnew].
  destruct (afterStore_relay now feed cr w2 w3) as [[_ Hk] Hafter]; [|done|done|].
  { apply Hf2, (sil_faults _ _ H1), Hf. }
  rewrite <-Hh2 in Hwf. destruct (Hk Hwf) as [_ Hkeep].
  intros i r Hi Hfeed. destruct (Hafter i r Hi) as [Hi2 Hdel].
  destruct (Hnew i r Hi2) as [Hi1|(x & Hx & <-)].
  - destruct (Hno i r Hi1 Hfeed) as (k & l & Hl & Hw). exists k, l. split; [|done].
    apply Hkeep. by rewrite Hh2.
  - apply Hdel. by apply list_elem_of_fmap_2.
Qed.

(** A poll that succeeds passed every gate. *)
Lemma refreshLoaded_success feed now elapsed manual w w' n :
  refreshLoaded feed now elapsed manual w = (w', inr n) →
  ∃ window w0 w1, same w w0 ∧ fetch_and_store feed now elapsed window manual w0 = (w1, inr n) ∧ same w1 w'.
Proof.
  unfold refreshLoaded. destruct (String.eqb _ _); [done|].
  destruct (negb manual && FeedPollingBlocked feed); [done|].
  intros (w1 & [] & H1 & H)%bind_run. apply respects_run with (R := silent) in H1; [|apply set_subs_silent].
  apply bind_run in H as (w2 & window & H2 & H).
  apply respects_run with (R := silent) in H2; [|apply pollWindow_silent].
  assert (same w w2) as Hs by (apply silent_same; by etransitivity).
  destruct (negb manual && _); [done|]. exists window. destruct manual; [by exists w2, w'|].
  apply slot_run in H as [[? _]|(w3 & w4 & Hs3 & H & Hs4)]; [done|].
  exists w3, w4. split; [by etransitivity|done].
Qed.

(** A poll that fails touched its books at most. *)
Lemma poll_error_books feed now elapsed w w' e : poll_error feed now elapsed w w' e →
  db_entries (w_db w') = db_entries (w_db w) ∧ db_hooks (w_db w') = db_hooks (w_db w) ∧
  db_matches (w_db w') = db_matches (w_db w).
Proof.
  destruct 1 as [w' e [Hd _ _] _|feed' w1 w2 w' le marker e _ [E1 _ _] H [E2 _ _]
                |feed' w1 w2 w' rq cause kind gone e st _ _ [E1 _ _] H [E2 _ _]].
  - by rewrite Hd.
  - rewrite E2, <-E1.
    destruct (respects_run _ _ _ _ _ (deferLayout_book feed' now le marker) H) as [Hb _].
    by eapply book_steps_frame.
  - rewrite E2, <-E1.
    destruct (respects_run _ _ _ _ _ (failPoll_book feed' now elapsed st cause kind gone) H) as [Hb _].
    by eapply book_steps_frame.
Qed.

(** The item with hash [h] has its row and a delivery of it, or only its hash is left. *)
Definition delivered_or_kept (id : Z) (d : Db) (h : string) : Prop :=
  in_dedup dedup_key (db_entries d) id h ∨
  ∃ i r k l, ed_entries (db_entries d) !! i = Some r ∧ er_feed_id r = id ∧ er_hash r = h ∧
    hd_logs (db_hooks d) !! k = Some l ∧ wl_entry_id l = i.

Lemma no_orphans_known id d h :
  no_orphans id d → known dedup_key (db_entries d) id h → delivered_or_kept id d h.
Proof.
  intros Hno [Hd|(i & r & Hi & Hf & Hh)]; [by left|right].
  destruct (Hno i r Hi Hf) as (k & l & Hl & Hw). by exists i, r, k, l.
Qed.

Lemma refreshLoaded_relay feed now elapsed manual w :
  w_faults w = [] → storeMode feed = "relay" → logs_wf (db_hooks (w_db w)) →
  no_orphans (f_id (feed_row feed)) (w_db w) →
  no_orphans (f_id (feed_row feed)) (w_db (refreshLoaded feed now elapsed manual w).1).
Proof.
  intros Hfaults Hmode Hwf Hno.
  destruct (refreshLoaded feed now elapsed manual w) as [w' [e|n]] eqn:Hrun; cbn [fst].
  - apply refreshLoaded_error, poll_error_books in Hrun as (He & Hh & _). unfold no_orphans. by rewrite He, Hh.
  - destruct (refreshLoaded_success _ _ _ _ _ _ _ Hrun) as (window & w0 & w1 & S0 & H & S1).
    rewrite (same_db _ _ S1). unfold fetch_and_store in H.
    destruct (if manual then _ else _) as [feed' st] eqn:Hfs.
    assert (feed_row feed' = feed_row feed) as Hrow.
    { destruct manual; [|by injection Hfs as <-]. pose proof (fullRefetch_id feed (ps_bridge_state (feed_ps feed))) as Hr.
      by rewrite Hfs in Hr. }
    destruct (fetch _) as [res [er|]]; [apply bind_run in H as (? & ? & _ & [=])|].
    rewrite <-Hrow in *. eapply finish_poll_relay; [| | | |exact H].
    + by apply (same_faults _ _ S0).
    + unfold storeMode in *. by rewrite Hrow.
    + by rewrite (same_db _ _ S0).
    + by rewrite (same_db _ _ S0).
Qed.

(** ** Item sets *)

Definition nul : ascii := Ascii.zero.
Definition nul_free (h : string) : Prop := has_byte nul h = false.

Lemma app_nul_inj a b s t : nul_free a → nul_free b →
  a +:+ String nul s = b +:+ String nul t → a = b ∧ s = t.
Proof.
  unfold nul_free. revert b. induction a as [|x a IH]; intros [|y b] Ha Hb H; simpl in *.
  - by injection H.
  - injection H as <- _. done.
  - injection H as -> _. done.
  - injection H as -> H. apply orb_false_elim in Ha as [_ Ha]. apply orb_false_elim in Hb as [_ Hb].
    destruct (IH b Ha Hb H) as [-> ->]. done.
Qed.

Definition hash_text (l : list string) : string :=
  String.concat "" ((λ h, h +:+ String nul "") <$> l).

Lemma hash_text_cons h l : hash_text (h :: l) = h +:+ String nul (hash_text l).
Proof.
  assert (∀ t, (h +:+ String nul "") +:+ t = h +:+ String nul t) as Happ.
  { intros t. induction h as [|a h IH]; [done|]. exact (f_equal (String a) IH). }
  unfold hash_text. destruct l as [|x l]; [done|]. apply Happ.
Qed.

Lemma hash_text_inj l l' : Forall nul_free l → Forall nul_free l' → hash_text l = hash_text l' → l = l'.
Proof.
  intros Hl. revert l'. induction Hl as [|h l Hh Hl IH]; intros l' Hl' H.
  - destruct Hl' as [|h' l' _ _]; [done|]. rewrite hash_text_cons in H. by destruct h'.
  - destruct Hl' as [|h' l' Hh' Hl']; rewrite hash_text_cons in H; [by destruct h|].
    rewrite hash_text_cons in H. apply app_nul_inj in H as [-> H]; [|done..]. by rewrite (IH l' Hl' H).
Qed.

Lemma itemSetHash_text es : es ≠ [] →
  itemSetHash es = xxh64 (hash_text (merge_sort String.le (be_hash <$> es))).
Proof. by destruct es. Qed.

(** * Properties *)

(** C5: a poll touches only its own feed, whatever fails on the way.  For any
    feed, world and sequence of storage faults, a background or manual poll
    leaves every other feed's row and poll state, the subscriptions, the
    categories, the webhooks and the filters as they were; keeps the entry
    tables well-formed and forgets no known item; only adds deliveries; and
    gives back the host slot it took, failed or not. *)
Theorem poll_isolated (feed : Feed) (now elapsed : Z) (manual : bool) (w : World)
    (Hhosts : limiter_ok (m_hosts (w_mem w))) :
  let w' := (refreshLoaded feed now elapsed manual w).1 in
  db_frame (f_id (feed_row feed)) (w_db w) (w_db w') ∧ m_hosts (w_mem w') = m_hosts (w_mem w).
Proof.
  intros w'. destruct (refreshLoaded_steps feed now elapsed manual w Hhosts) as (Hs & Hh & _).
  split; [by apply db_steps_frame|done].
Qed.

(** C4: a poll that returns an error has stored and delivered nothing,
    whatever failed and when: entries, kept hashes, unread rows, deliveries and
    filter matches are as before.  A poll refused before the fetch, or told to
    come back later, leaves no trace in any table; an unrecognised layout
    writes the poll state only; every other error is reported as
    [EPollFailed], with exactly one status event. *)
Theorem poll_error_stores_nothing (feed : Feed) (now elapsed : Z) (manual : bool) (w w' : World) (e : err)
    (Hrun : refreshLoaded feed now elapsed manual w = (w', inl e)) :
  (db_entries (w_db w') = db_entries (w_db w) ∧ db_hooks (w_db w') = db_hooks (w_db w) ∧
   db_matches (w_db w') = db_matches (w_db w)) ∧
  ((w_db w' = w_db w ∧ w_events w' = w_events w ∧ (refused e ∨ RetryAt (Some e) ≠ None)) ∨
   (∃ next le, e = ELayoutDeferred next le ∧ w_events w' = w_events w ∧
      db_polllog (w_db w') = db_polllog (w_db w)) ∨
   (∃ after kind cause subs, e = EPollFailed after (EJoin kind cause) ∧
      w_events w' = w_events w ++ [EvStatus after subs (Some (EJoin kind cause))])).
Proof.
  apply refreshLoaded_error in Hrun. split; [by eapply poll_error_books|].
  destruct Hrun as [w' e [Hd He _] Hr|feed' w1 w2 w' le marker e _ [E1 V1 _] H [E2 V2 _]
                   |feed' w1 w2 w' rq cause kind gone e st _ _ [E1 V1 _] H [E2 V2 _]].
  - left. destruct Hr as [?|[? _]]; tauto.
  - rewrite E2, V2, <-E1, <-V1. right. left.
    destruct (deferLayout_result _ _ _ _ _ _ _ H) as ([next ->] & Hv & Hp). by exists next, le.
  - rewrite V2, <-V1. right. right.
    destruct (failPoll_result _ _ _ _ _ _ _ _ _ _ H) as (after & subs & -> & Hv). by exists after, kind, cause, subs.
Qed.

(** C34: a failed poll is recorded.  Without storage faults, a poll that ends in
    [EPollFailed] leaves the stored poll state with one more error, the text of
    the cause, the time of the poll and the backoff of the new count (the
    longest interval after a bot challenge); validators, item-set hash and the
    time of the last item are kept, so is the bridge state unless the fetch
    returned one; and the feed is paused, hence claimed by no later poll,
    exactly when the count reached the threshold. *)
Theorem failed_poll_recorded (feed after : Feed) (now elapsed : Z) (manual : bool) (w w' : World)
    (cause : err) (ps : PollState)
    (Hfaults : w_faults w = [])
    (Hps : fd_poll (db_feeds (w_db w)) !! f_id (feed_row feed) = Some ps)
    (Hrun : refreshLoaded feed now elapsed manual w = (w', inl (EPollFailed after cause)))
    (Hretry : RetryAt (Some (EPollFailed after cause)) = None) :
  ∃ kind c rq, cause = EJoin kind c ∧
    fd_poll (db_feeds (w_db w')) !! f_id (feed_row feed)
      = Some (failure_ps ps now (failure_next feed now c) c (res_bridge_state (fetch rq).1)) ∧
    (circuitThreshold <= ps_parsing_error_count ps + 1 → ∀ t limit ex exT,
       f_id (feed_row feed) ∉ df_id <$> ListFeedsDue t (db_feeds (w_db w')) limit ex exT).
Proof.
  apply refreshLoaded_error in Hrun.
  inversion Hrun as [w0 e Hs Hr|feed' w1 w2 w0 le marker e Hrow S1 H S2
                   |feed' w1 w2 w0 rq c kind gone e st Hrow Hc S1 H S2]; subst; clear Hrun.
  - by destruct Hr as [[]|[? _]].
  - apply deferLayout_result in H as [[next Hn] _]. done.
  - destruct (failPoll_result _ _ _ _ _ _ _ _ _ _ H) as (after' & subs & [= -> ->] & _).
    exists kind, c, rq. split; [done|].
    assert (w_faults w1 = []) as Hf1 by (by apply (same_faults _ _ S1)).
    apply (failPoll_recorded _ _ _ _ _ _ _ _ _ _ ps) in H as [H _]; [|done|].
    2:{ by rewrite (same_db _ _ S1), Hrow. }
    rewrite <-(same_db _ _ S2) in H. rewrite Hrow in H.
    assert (failure_next feed' now c = failure_next feed now c) as Hn.
    { unfold failure_next. by rewrite Hrow, Hc. }
    rewrite Hn in H. split; [done|]. intros Hthr t limit ex exT.
    eapply paused_not_due; [exact H|]. by apply Z.leb_le.
Qed.

(** C2: no item is lost.  Whatever fails on the way, a poll that succeeds with
    a fresh response leaves every item the feed's rules let through known to
    the feed, as an entry, in relay or filtered mode possibly as a hash only,
    unless the item set is the one of the last poll; a manual refresh never
    takes that shortcut. *)
Theorem successful_poll_knows_items (feed : Feed) (now elapsed : Z) (manual : bool) (w w' : World) (n : Z)
    (Hwf : entries_wf (db_entries (w_db w)))
    (Hrun : refreshLoaded feed now elapsed manual w = (w', inr n)) :
  ∃ rq res, rq_url rq = f_url (feed_row feed) ∧ fetch rq = (res, None) ∧
    (res_not_modified res = false → items_settled feed manual (res_entries res) (w_db w')).
Proof.
  destruct (refreshLoaded_success _ _ _ _ _ _ _ Hrun) as (window & w0 & w1 & S0 & H & S1).
  rewrite <-(same_db _ _ S0) in Hwf. rewrite (same_db _ _ S1). by eapply fetch_and_store_knows.
Qed.

(** C8: a relay feed keeps nothing undelivered, and forgets nothing.  If every row
    of the feed has a delivery on record, then after a poll without storage faults,
    whatever its outcome, every row of the feed still has one, and every hash known
    to the feed before has its row with a delivery or is kept without one.  When the poll
    succeeds with a fresh response, the same holds of every item the feed's rules let
    through, unless the item set is the one of the last poll: an item no subscriber
    wanted has no row at the end of the poll, and its hash is kept. *)
Theorem relay_leaves_no_orphans (feed : Feed) (now elapsed : Z) (manual : bool) (w : World)
    (Hfaults : w_faults w = []) (Hmode : storeMode feed = "relay") (Hhosts : limiter_ok (m_hosts (w_mem w)))
    (Hwf : logs_wf (db_hooks (w_db w))) (Hwe : entries_wf (db_entries (w_db w)))
    (Hno : no_orphans (f_id (feed_row feed)) (w_db w)) :
  let id := f_id (feed_row feed) in
  let d' := w_db (refreshLoaded feed now elapsed manual w).1 in
  no_orphans id d' ∧
  (∀ h, h ≠ "" → known dedup_key (db_entries (w_db w)) id h → delivered_or_kept id d' h) ∧
  ∀ n, (refreshLoaded feed now elapsed manual w).2 = inr n →
    ∃ rq res, rq_url rq = f_url (feed_row feed) ∧ fetch rq = (res, None) ∧
      let items := after_rules (feed_row feed) (res_entries res) in
      (res_not_modified res = false →
       (manual = false ∧ itemSetHash items ≠ "" ∧ itemSetHash items = ps_items_hash (feed_ps feed)) ∨
       ∀ x, x ∈ items → be_hash x ≠ "" → delivered_or_kept id d' (be_hash x)).
Proof.
  intros id d'. assert (no_orphans id d') as Hno' by by apply refreshLoaded_relay.
  split; [done|]. split.
  - intros h Hne Hk. destruct (refreshLoaded_steps feed now elapsed manual w Hhosts) as (Hs & _).
    apply db_steps_frame in Hs as [_ He _ _ _]. apply no_orphans_known; [done|]. by apply He.
  - intros n Hn. unfold d' in *. destruct (refreshLoaded feed now elapsed manual w) as [w' r] eqn:Hrun.
    cbn [fst snd] in *. subst r.
    destruct (refreshLoaded_success _ _ _ _ _ _ _ Hrun) as (window & w0 & w1 & S0 & H & S1).
    rewrite <-(same_db _ _ S0) in Hwe. rewrite (same_db _ _ S1) in *.
    apply fetch_and_store_knows in H as (rq & res & Hu & Hf & Hk); [|exact Hwe].
    exists rq, res. split; [done|]. split; [done|]. intros Hmod.
    destruct (Hk Hmod) as [?|[_ Hall]]; [by left|right]. intros x Hx Hne.
    apply no_orphans_known; [done|]. apply Hall; [|done]. by apply list_elem_of_fmap_2.
Qed.

(** The item-set hash identifies the set of items.  It does not depend on
    their order; and when it agrees for two fetches whose item hashes hold no
    NUL byte, the item hashes agree up to order unless xxhash maps the two
    concatenations, then different texts, to one value (or one of them, the
    other fetch being empty, to the empty string): sorting and joining with NUL
    confuses nothing. *)
Lemma item_set_hash_spec (a b : list BEntry) :
  let text l := hash_text (merge_sort String.le (be_hash <$> l)) in
  (be_hash <$> a ≡ₚ be_hash <$> b → itemSetHash a = itemSetHash b) ∧
  (itemSetHash a = itemSetHash b →
   Forall (λ x, nul_free (be_hash x)) a → Forall (λ x, nul_free (be_hash x)) b →
   be_hash <$> a ≡ₚ be_hash <$> b ∨ (text a ≠ text b ∧ xxh64 (text a) = xxh64 (text b)) ∨
   (a = [] ∧ xxh64 (text b) = "") ∨ (b = [] ∧ xxh64 (text a) = "")).
Proof.
  intros text. split.
  - intros Hp. destruct (decide (a = [])) as [->|Ha].
    { destruct b; [done|]. by apply Permutation_nil_l in Hp. }
    assert (b ≠ []) as Hb.
    { intros ->. destruct a; [done|]. symmetry in Hp. by apply Permutation_nil_l in Hp. }
    assert (merge_sort String.le (be_hash <$> a) = merge_sort String.le (be_hash <$> b)) as Hs.
    { apply (StronglySorted_unique String.le); [apply StronglySorted_merge_sort; apply _..|].
      rewrite (merge_sort_Permutation String.le (be_hash <$> a)).
      by rewrite (merge_sort_Permutation String.le (be_hash <$> b)). }
    by rewrite !itemSetHash_text, Hs.
  - intros H Fa Fb. destruct (decide (a = [])) as [->|Ha].
    { destruct (decide (b = [])) as [->|Hb]; [by left|]. rewrite (itemSetHash_text b Hb) in H.
      right. right. by left. }
    destruct (decide (b = [])) as [->|Hb].
    { rewrite (itemSetHash_text a Ha) in H. by do 3 right. }
    rewrite !itemSetHash_text in H by done.
    destruct (decide (text a = text b)) as [E|E]; [left|by right; left].
    unfold text in E. set (la := merge_sort String.le (be_hash <$> a)) in *.
    set (lb := merge_sort String.le (be_hash <$> b)) in *.
    assert (∀ l : list BEntry, Forall (λ x, nul_free (be_hash x)) l →
      Forall nul_free (merge_sort String.le (be_hash <$> l))) as Hf.
    { intros l Hl. apply Forall_forall. intros h Hh.
      rewrite (merge_sort_Permutation String.le (be_hash <$> l)) in Hh.
      apply list_elem_of_fmap in Hh as (x & -> & Hx). by rewrite Forall_forall in Hl; apply Hl. }
    apply hash_text_inj in E; [|by apply Hf..].
    rewrite <-(merge_sort_Permutation String.le (be_hash <$> a)),
            <-(merge_sort_Permutation String.le (be_hash <$> b)). fold la lb. by rewrite E.
Qed.
End Spec.

(** * Witnesses *)

(** An environment whose regexps are literals and whose fetch is [f]. *)
Definition wit_env (f : FetchRequest → FetchResponse * option err) : Env := {|
  regex := string; re_compile := Some; re_match re s := contains s re;
  re_replace _ _ s := s; Refresher.dedup_key := id; Refresher.zone := λ _, 0;
  url_hostname _ := Some "a.example"; detect_type _ := "rss"; sanitize_html := id;
  xxh64 s := s; reset_max := id; reset_telegram := id; fetch := f;
  query_match _ _ := None; weekly_items _ _ := 0;
  cfg := mkCfg "" 3 0 0 0 0 0;
|}.

Definition wit_feed (mode : string) : Feed :=
  mkFeed (mkFeedRow 7 1 "https://a.example/feed" "rss" "A" None 60 false mode false "" "" "" 100) wit_ps.

Definition wit_world (f : FetchRequest → FetchResponse * option err) : @World (wit_env f) :=
  @mkWorld (wit_env f)
    (mkDb wit_feed_db empty_entries (mkHookDb {[ 1 := wit_hook 1 0 ]} ∅ 1) (mkPollLogDb ∅ 1) ∅ ∅ ∅)
    (@mkMem (wit_env f) ∅ (Some (mkHostLimiter 2 ∅)) ttl_new ttl_new (New (mkConfig 0 0)) None) [] [].

Definition fetch_two (rq : FetchRequest) : FetchResponse * option err :=
  (mkFetchResponse [wit_item "a" "x"; wit_item "b" "y"] "" "" false ∅ 0 "", None).
Definition fetch_down (rq : FetchRequest) : FetchResponse * option err :=
  (mkFetchResponse [] "" "" false ∅ 0 "", Some (EMsg "dial tcp: timeout")).
Definition fetch_later (rq : FetchRequest) : FetchResponse * option err :=
  (mkFetchResponse [] "" "" false ∅ 0 "", Some (ERetry "rate limit" 900 None true)).

Definition wit_run (f : FetchRequest → FetchResponse * option err) (mode : string) :
    @World (wit_env f) * (err + Z) :=
  refreshLoaded (env := wit_env f) (wit_feed mode) 1000 5 false (wit_world f).

Lemma pair_run {A B} (x : A * B) b : x.2 = b → x = (x.1, b).
Proof. destruct x. by intros <-. Qed.

Lemma wit_limiter_ok f : limiter_ok (m_hosts (w_mem (wit_world f))).
Proof. intros host n H. cbn in H. by rewrite lookup_empty in H. Qed.

Lemma wit_logs_wf f : logs_wf (db_hooks (w_db (wit_world f))).
Proof. split; cbn; intros *; by rewrite lookup_empty. Qed.

Lemma poll_isolated_witness :
  let w' := (wit_run fetch_two "full").1 in
  (wit_run fetch_two "full").2 = inr 2 ∧
  m_hosts (w_mem w') = Some (mkHostLimiter 2 ∅) ∧
  remembers id empty_entries (db_entries (w_db w')).
Proof.
  intros w'. split; [vm_compute; reflexivity|].
  destruct (poll_isolated (env := wit_env fetch_two) (wit_feed "full") 1000 5 false (wit_world fetch_two)
    (wit_limiter_ok fetch_two)) as [[_ He _ _ _] Hh].
  split; [exact Hh|]. apply He. exact empty_entries_wf.
Defined.

Lemma poll_error_stores_nothing_witness :
  let w' := (wit_run fetch_later "full").1 in
  db_entries (w_db w') = empty_entries ∧ w_events w' = [].
Proof.
  intros w'.
  destruct (poll_error_stores_nothing (env := wit_env fetch_later) (wit_feed "full") 1000 5 false
    (wit_world fetch_later) w' (ERetry "rate limit" 900 None true)) as ((H & _) & _).
  - apply pair_run. vm_compute. reflexivity.
  - split; [exact H|vm_compute; reflexivity].
Defined.

Definition wit_after : Feed :=
  match (wit_run fetch_down "full").2 with inl (EPollFailed after _) => after | _ => wit_feed "full" end.

Lemma failed_poll_recorded_witness :
  ∃ next, fd_poll (db_feeds (w_db (wit_run fetch_down "full").1)) !! 7
    = Some (mkPollState "" "" (Some 1000) "dial tcp: timeout" 2 false (Some next) {[ "vk" := "{}" ]} "" None).
Proof.
  destruct (failed_poll_recorded (env := wit_env fetch_down) (wit_feed "full") wit_after 1000 5 false
    (wit_world fetch_down) (wit_run fetch_down "full").1 (EJoin EFetchFeed (EMsg "dial tcp: timeout")) wit_ps)
    as (kind & c & rq & [= <- <-] & H & _).
  - reflexivity.
  - reflexivity.
  - apply pair_run. vm_compute. reflexivity.
  - reflexivity.
  - eexists. cbn [wit_feed feed_row f_id wit_row] in H. rewrite H. reflexivity.
Defined.

Lemma successful_poll_knows_items_witness :
  known id (db_entries (w_db (wit_run fetch_two "full").1)) 7 "a".
Proof.
  destruct (successful_poll_knows_items (env := wit_env fetch_two) (wit_feed "full") 1000 5 false
    (wit_world fetch_two) (wit_run fetch_two "full").1 2 empty_entries_wf) as (rq & res & _ & Hf & Hk).
  - apply pair_run. vm_compute. reflexivity.
  - injection Hf as <-. destruct (Hk eq_refl) as [(_ & _ & Hh)|[_ Hall]]; [discriminate Hh|].
    apply (Hall "a"); [left|done].
Defined.

Lemma relay_leaves_no_orphans_witness :
  (wit_run fetch_two "relay").2 = inr 0 ∧ no_orphans 7 (w_db (wit_run fetch_two "relay").1) ∧
  delivered_or_kept (env := wit_env fetch_two) 7 (w_db (wit_run fetch_two "relay").1) "a".
Proof.
  assert ((wit_run fetch_two "relay").2 = inr 0) as Hr by (vm_compute; reflexivity).
  split; [exact Hr|].
  destruct (relay_leaves_no_orphans (env := wit_env fetch_two) (wit_feed "relay") 1000 5 false
    (wit_world fetch_two) eq_refl eq_refl (wit_limiter_ok fetch_two) (wit_logs_wf fetch_two) empty_entries_wf)
    as (H1 & _ & H3).
  - intros i r H. cbn in H. by rewrite lookup_empty in H.
  - split; [exact H1|]. destruct (H3 0 Hr) as (rq & res & _ & Hf & Hk). injection Hf as <-.
    destruct (Hk eq_refl) as [(_ & _ & Hh)|Hall]; [discriminate Hh|].
    eapply (Hall _ (list_elem_of_here _ _)). done.
Defined.

(** A webhook action of a filter enqueues for whatever webhook it names: here the filter of
    user 2 names webhook 1, of user 1; a label action asks first whose label it is. *)
Lemma filter_webhook_owner_unchecked :
  let w := @mkWorld (wit_env fetch_two)
    (set_db_entries (w_db (wit_world fetch_two)) wit_stored) (w_mem (wit_world fetch_two)) [] [] in
  let w' := (applyFilterAction (env := wit_env fetch_two) 70 2 (default wit_entry (head wit_created)) (mkFilterAction "webhook" "1") w).1 in
  (wh_user_id <$> hd_webhooks (db_hooks (w_db w)) !! 1) = Some 1 ∧
  (λ l, (wl_webhook_id l, wl_entry_id l)) <$> (map_to_list (hd_logs (db_hooks (w_db w')))).*2 = [(1, 1)].
Proof. split; vm_compute; reflexivity. Qed.
