(* ===== verification/LibraryPolls.v ===== *)
(** Polls on the library: the refresher ([Refresher.v]) works on the tables of the catalogue ([Catalog.v]), so that a
    refresh asked for by hand is a run of [RefreshFeedManual] on them.  What the handlers are promised of it is here: it
    keeps the catalogue consistent, and it changes its own feed, entries and deliveries only. *)

From S2P Require Import Prelude GoStrings PollSchedule PollWindow Types FeedStore WebhookStore EntryStore Tables Catalog CatalogSpec Reading ReadingSpec.
From S2P Require Import PollLog Refresher PollFrames RefresherSpec.

(** * The feed tables keep their shape *)

Definition urls_distinct (f : FeedDb) : Prop :=
  ∀ i j a b, fd_feeds f !! i = Some a → fd_feeds f !! j = Some b → f_url a = f_url b → i = j.

(** The same feeds, in the same categories, with poll states, readers and followers as before. *)
Record same_shape (f f' : FeedDb) : Prop := {
  ss_rows : ∀ id, option_Forall2 (λ a b, f_id a = f_id b ∧ f_category_id a = f_category_id b) (fd_feeds f !! id) (fd_feeds f' !! id);
  ss_url : urls_distinct f → urls_distinct f';
  ss_poll : ∀ id, is_Some (fd_poll f !! id) ↔ is_Some (fd_poll f' !! id);
  ss_subs : fd_subs f' = fd_subs f;
  ss_cats : fd_cats f' = fd_cats f;
  ss_followers : fd_followers f' = fd_followers f;
}.

#[export] Instance same_shape_preorder : PreOrder same_shape.
Proof.
  split.
  - intros f. split; try done. intros id. destruct (fd_feeds f !! id); by constructor.
  - intros f g h [A1 A2 A3 A4 A5 A6] [B1 B2 B3 B4 B5 B6]. split; try congruence.
    + intros id. specialize (A1 id). specialize (B1 id). destruct A1 as [a b [? ?]|]; inv B1; constructor. destruct_and!. split; congruence.
    + auto.
    + intros id. by rewrite A3.
Qed.

Lemma shape_row f f' id : same_shape f f' → is_Some (fd_feeds f !! id) ↔ is_Some (fd_feeds f' !! id).
Proof. intros [H _ _ _ _ _]. destruct (H id); split; intros []; by eauto. Qed.

Lemma shape_back f f' id b : same_shape f f' → fd_feeds f' !! id = Some b →
  ∃ a, fd_feeds f !! id = Some a ∧ f_id a = f_id b ∧ f_category_id a = f_category_id b.
Proof. intros [H _ _ _ _ _] E. specialize (H id). rewrite E in H. inv H. eauto. Qed.

Lemma shape_update_ps f id g : same_shape f (update_ps f id g).1.
Proof.
  unfold update_ps. destruct (fd_poll f !! id) as [ps|] eqn:L; [|reflexivity]. split; try done.
  - intros k. cbn [fst with_poll fd_feeds]. destruct (fd_feeds f !! k); by constructor.
  - intros k. cbn [fst with_poll fd_poll]. destruct (decide (id = k)) as [<-|N]; [rewrite lookup_insert_eq, L; split; eauto|by rewrite lookup_insert_ne].
Qed.

(** A row that keeps its number and category, and whose address nobody else has. *)
Lemma shape_put_row f id r r' : fd_feeds f !! id = Some r → f_id r = f_id r' → f_category_id r = f_category_id r' →
  (f_url r' = f_url r ∨ ∀ k o, fd_feeds f !! k = Some o → f_url o ≠ f_url r') → same_shape f (with_feeds f (<[id := r']> (fd_feeds f))).
Proof.
  intros L E1 E2 U. split; try done; cbn [with_feeds fd_feeds].
  - intros k. destruct (decide (id = k)) as [<-|N]; [rewrite lookup_insert_eq, L; by constructor|].
    rewrite lookup_insert_ne by done. destruct (fd_feeds f !! k); by constructor.
  - intros D i j a b. cbn [with_feeds fd_feeds]. intros [[<- <-]|[Ni Hi]]%lookup_insert_Some [[<- <-]|[Nj Hj]]%lookup_insert_Some E; [done|..|by eapply D].
    + destruct U as [U|U]; [|by destruct (U _ _ Hj)]. rewrite U in E. by eapply D.
    + destruct U as [U|U]; [|by destruct (U _ _ Hi)]. rewrite U in E. by eapply D.
Qed.

Lemma shape_meta f p : same_shape f (updateFeedRefreshMeta f p).1.
Proof.
  unfold updateFeedRefreshMeta. pose proof (shape_update_ps f (um_id p) (refresh_meta_ps p)) as H.
  destruct (update_ps _ _ _) as [f1 [e|]]; cbn [fst] in *; [done|]. destruct (String.eqb _ _); [done|]. etransitivity; [exact H|].
  unfold move_feed_url. destruct (fd_feeds f1 !! um_id p) as [r|] eqn:L; [|reflexivity]. destruct (_ && _) eqn:M; [|reflexivity].
  apply andb_true_iff in M as [_ M%bool_decide_eq_true]. eapply shape_put_row; [exact L|done..|]. right. intros k o H1. exact (M k o H1).
Qed.

Lemma shape_paused f id b : same_shape f (SetFeedManualPaused f id b).1.
Proof.
  unfold SetFeedManualPaused. destruct (fd_feeds f !! id) as [r|] eqn:L; [|reflexivity]. eapply shape_put_row; [exact L|done..|]. by left.
Qed.

(** * The catalogue after a statement of a poll *)

(** The webhooks stay whose they are. *)
Lemma tables_wf_hooks hdb hdb' s : hd_webhooks hdb' = hd_webhooks hdb → tables_wf hdb s → tables_wf hdb' s.
Proof.
  intros E W. split; try apply W. intros u f w H. destruct (tw_sub _ _ W _ _ _ H) as [? C]. split; [done|].
  unfold checkSubscriptionRefs in *. by rewrite E.
Qed.

Lemma tables_wf_shape hdb f f' e : same_shape f f' → tables_wf hdb (f, e) → tables_wf hdb (f', e).
Proof.
  intros S W. split; cbn [fst snd]; rewrite ?(ss_subs _ _ S), ?(ss_cats _ _ S), ?(ss_followers _ _ S); try apply W.
  - intros id. rewrite <-(shape_row _ _ _ S), <-(ss_poll _ _ S). apply (tw_poll _ _ W).
  - apply (ss_url _ _ S). exact (tw_url _ _ W).
  - intros id b k L E. destruct (shape_back _ _ _ _ S L) as (a & La & _ & C). eapply (tw_cat _ _ W); [exact La|congruence].
  - intros u id w H. rewrite <-(shape_row _ _ _ S). by apply (tw_sub _ _ W).
  - intros i r H. rewrite <-(shape_row _ _ _ S). by apply (tw_entry _ _ W).
Qed.

(** Rows that leave their hash behind. *)
Lemma wf_delete_entries dedup_key hdb fdb db (gone : Z → Prop) `{∀ i, Decision (gone i)} rows :
  tables_wf hdb (fdb, db) → tables_wf hdb (fdb, keep_hashes dedup_key (delete_entries db gone) rows).
Proof.
  intros []. assert (K : ∀ e r, ed_entries (delete_entries db gone) !! e = Some r → ed_entries db !! e = Some r ∧ ¬ gone e).
  { intros e r. by rewrite delete_entries_lookup. }
  split; cbn [fst snd keep_hashes with_dedup ed_entries ed_unread ed_user ed_next_id] in *; try done.
  - intros e r [L _]%K. by eapply tw_entry.
  - intros e u f t [L N]%map_lookup_filter_Some. cbn in N. destruct (tw_unread _ _ _ _ L) as (S & (r & Lr & E) & R). split; [done|]. split.
    + exists r. split; [|done]. by apply delete_entries_lookup.
    + intros x [Lx _]%map_lookup_filter_Some. by eapply R.
  - intros e u x [L N]%map_lookup_filter_Some. cbn in N. destruct (tw_user _ _ _ L) as (r & Lr & E). exists r. split; [|done]. by apply delete_entries_lookup.
  - intros e r [L _]%K. by eapply tw_next.
  - intros i j a b [A _]%K [B _]%K. by eapply tw_uniq.
  - intros e r [L _]%K. by eapply tw_hash.
Qed.

(** The tables of the library in the world of the refresher, and back. *)
Definition cat_db (c : Catalog) (d : Db) : Db :=
  mkDb (ct_feeds c) (ct_entries c) (ct_hooks c) (db_polllog d) (db_filters d) (db_labels d) (db_matches d).
Definition db_cat (c : Catalog) (d : Db) : Catalog :=
  mkCatalog (db_feeds d) (db_entries d) (db_hooks d) (ct_more c) (ct_next c) (ct_cats c) (ct_next_cat c).

Lemma db_cat_id c d : db_cat c (cat_db c d) = c.
Proof. by destruct c. Qed.

Section Polls.
Context `{env : Env} (title_key : string → string).
Notation wf c d := (catalog_wf title_key (db_cat c d)).

(** What a step may do to keep the catalogue consistent. *)
Lemma wf_shape c d f' e' h' : wf c d → same_shape (db_feeds d) f' → hd_webhooks h' = hd_webhooks (db_hooks d) →
  tables_wf (db_hooks d) (db_feeds d, e') →
  catalog_wf title_key (mkCatalog f' e' h' (ct_more c) (ct_next c) (ct_cats c) (ct_next_cat c)).
Proof.
  intros W S H T. destruct W as [_ F M N I C NC TI]. unfold db_cat in *. cbn [ct_feeds ct_entries ct_hooks ct_more ct_next ct_cats ct_next_cat tables] in *.
  split; cbn [ct_feeds ct_entries ct_hooks ct_more ct_next ct_cats ct_next_cat tables]; try assumption.
  - eapply tables_wf_hooks; [exact H|]. by eapply tables_wf_shape.
  - intros u k id b Hf L E. destruct (shape_back _ _ _ _ S L) as (a & La & _ & Ca). rewrite (ss_subs _ _ S).
    rewrite (ss_followers _ _ S) in Hf. eapply F; [exact Hf|exact La|congruence].
  - intros id. rewrite <-(shape_row _ _ _ S). apply M.
  - intros id b L. destruct (shape_back _ _ _ _ S L) as (a & La & E & _). rewrite <-E. by apply I.
  - intros k. by rewrite (ss_cats _ _ S).
Qed.

Lemma wf_feeds c d f' : wf c d → same_shape (db_feeds d) f' → wf c (set_db_feeds d f').
Proof. intros W S. apply (wf_shape c d); [done..|]. apply (cw_tables _ _ W). Qed.

Lemma wf_only_entries c d e' : wf c d → tables_wf (db_hooks d) (db_feeds d, e') → wf c (set_db_entries d e').
Proof. intros W T. by apply (wf_shape c d). Qed.

Lemma wf_tables c d : wf c d → tables_wf (db_hooks d) (db_feeds d, db_entries d).
Proof. intros W. apply (cw_tables _ _ W). Qed.

(** ** Statements *)

(** Taking an unread mark away, and the mark of a removal. *)
Lemma tables_wf_unread hdb f e u id : tables_wf hdb (f, e) → tables_wf hdb (f, with_unread e (delete (id, u) (ed_unread e))).
Proof.
  intros W. split; cbn [fst snd with_unread ed_entries ed_unread ed_user ed_next_id]; try apply W.
  intros i v g t [_ H]%lookup_delete_Some. exact (tw_unread _ _ W _ _ _ _ H).
Qed.

Lemma tables_wf_removed hdb f e u id r : tables_wf hdb (f, e) → ed_entries e !! id = Some r → is_Some (fd_subs f !! (u, er_feed_id r)) →
  tables_wf hdb (f, MarkEntryRemovedKeepPayload e u id).
Proof.
  intros W L S. unfold MarkEntryRemovedKeepPayload. cbn [with_unread ed_entries ed_user]. rewrite L.
  set (row := match ed_user e !! (id, u) with None => mkUserEntry true false (er_sort_at r) | Some x => mkUserEntry true (ue_starred x) (ue_sort_at x) end).
  assert (ue_sort_at row = er_sort_at r) as Hs.
  { unfold row. destruct (ed_user e !! (id, u)) as [x|] eqn:E; [|done]. destruct (tw_user _ _ W _ _ _ E) as (r' & L' & Hs & _). cbn [snd ue_sort_at] in *. congruence. }
  assert (tables_wf hdb (f, with_user (with_unread e (delete (id, u) (ed_unread e))) (<[(id, u) := row]> (ed_user e)))) as G.
  { split; cbn [fst snd with_user with_unread ed_entries ed_unread ed_user ed_next_id]; try apply W.
    - intros i v g t [N H]%lookup_delete_Some. destruct (tw_unread _ _ W _ _ _ _ H) as (A & B & C). split; [done|]. split; [done|].
      intros x [[E _]|[_ Hx]]%lookup_insert_Some; [congruence|by eapply C].
    - intros i v x [[[= <- <-] <-]|[_ Hx]]%lookup_insert_Some; [by exists r|exact (tw_user _ _ W _ _ _ Hx)]. }
  unfold row in G. destruct (ed_user e !! (id, u)); exact G.
Qed.

Lemma tables_wf_mark_removed hdb d u ids : tables_wf hdb (db_feeds d, db_entries d) →
  tables_wf hdb (db_feeds d, db_entries (MarkEntriesRemoved d u ids).1).
Proof.
  unfold MarkEntriesRemoved. cbn [fst set_db_entries db_entries db_feeds]. generalize (db_entries d) as e.
  induction ids as [|id ids IH]; intros e W; [exact W|]. cbn [foldl]. apply IH. destruct (ed_entries e !! id) as [r|] eqn:L; [|by apply tables_wf_unread].
  case_decide as S; [by eapply tables_wf_removed|by apply tables_wf_unread].
Qed.

Lemma tables_wf_dedup hdb f e feed items : tables_wf hdb (f, e) → tables_wf hdb (f, (recordFeedEntryDedup dedup_key e feed items).1).
Proof. intros W. unfold recordFeedEntryDedup. repeat case_match; try exact W. cbn [fst]. split; apply W. Qed.

Lemma tables_wf_drop hdb f e h ids : tables_wf hdb (f, e) → tables_wf hdb (f, (DropUndeliveredRelayEntries dedup_key h e ids).1).
Proof.
  intros W. unfold DropUndeliveredRelayEntries. destruct ids as [|i ids]; [exact W|]. cbn [fst]. by apply wf_delete_entries.
Qed.

(** The transactions that store items. *)
Lemma meta_tx_wf {A} hdb f e m (a : A) : tables_wf hdb (f, e) →
  let s' := (lift_meta (updateFeedRefreshMeta f m) e a).1 in same_shape f s'.1 ∧ tables_wf hdb (f, s'.2).
Proof. intros W. pose proof (shape_meta f m) as H. by destruct (updateFeedRefreshMeta f m) as [f' [er|]]. Qed.

Lemma withTx_ok {A} hdb f e (fn : FeedDb * EntryDb → FeedDb * EntryDb * (err + A)) : tables_wf hdb (f, e) →
  (same_shape f (fn (f, e)).1.1 ∧ tables_wf hdb (f, (fn (f, e)).1.2)) →
  same_shape f (withTx (f, e) fn).1.1 ∧ tables_wf hdb (f, (withTx (f, e) fn).1.2).
Proof. intros W H. unfold withTx. destruct (fn (f, e)) as [s' [er|a]]; [|done]. split; [reflexivity|done]. Qed.

Lemma create_tx_ok hdb now f e id es m : tables_wf hdb (f, e) →
  let s' := (CreateEntriesWithRefreshMeta dedup_key now (f, e) id es m).1 in same_shape f s'.1 ∧ tables_wf hdb (f, s'.2).
Proof.
  intros W. apply withTx_ok; [done|]. pose proof (tables_wf_createEntries hdb dedup_key now (f, e) id es false W) as T. cbn [fst snd] in T.
  destruct (createEntries _ _ _ _ _ _ _) as [e1 [er|ins]]; [by split; [reflexivity|]|]. by apply meta_tx_wf.
Qed.

Lemma filtered_tx_ok hdb now f e id wanted dd relay m : tables_wf hdb (f, e) →
  let s' := (StoreFilteredPoll dedup_key now (f, e) (mkFilteredPoll id wanted dd relay (Some m))).1 in
  same_shape f s'.1 ∧ tables_wf hdb (f, s'.2).
Proof.
  intros W. unfold StoreFilteredPoll. cbn [fp_entries fp_dedup fp_meta].
  assert (same_shape f (filtered_body dedup_key now (mkFilteredPoll id wanted dd relay (Some m)) (f, e)).1.1 ∧
    tables_wf hdb (f, (filtered_body dedup_key now (mkFilteredPoll id wanted dd relay (Some m)) (f, e)).1.2)) as B.
  { unfold filtered_body. cbn [fp_feed_id fp_entries fp_dedup fp_relay fp_meta].
    pose proof (tables_wf_createEntries hdb dedup_key now (f, e) id wanted relay W) as T. cbn [fst snd] in T.
    destruct (createEntries _ _ _ _ _ _ _) as [e1 [er|ins]]; [by split; [reflexivity|]|]. cbn [fst] in T.
    pose proof (tables_wf_dedup hdb f e1 id dd T) as D.
    destruct (recordFeedEntryDedup _ _ _ _) as [e2 [er|k]]; [by split; [reflexivity|]|]. by apply meta_tx_wf. }
  destruct wanted; [destruct dd|]; [by apply meta_tx_wf|by apply withTx_ok..].
Qed.

(** ** Every step of a poll *)

Lemma wf_action c relay d d' : action_step relay d d' → wf c d → wf c d'.
Proof.
  destruct 1 as [now ws e d|labels d _|u ids d _|ms d _]; intros W.
  - destruct (enqueue_logs_kept now (db_hooks d) (feed_of_entry d) ws e) as [E _].
    refine (wf_shape c d (db_feeds d) (db_entries d) _ W _ E (wf_tables c d W)). reflexivity.
  - apply wf_only_entries; [done|]. pose proof (wf_tables c d W) as T. split; apply T.
  - apply (wf_only_entries c d _ W). by apply tables_wf_mark_removed, (wf_tables c).
  - exact W.
Qed.

Lemma wf_book c id d d' : book_step id d d' → wf c d → wf c d'.
Proof.
  destruct 1 as [p d _|p d _|t d|d|now p d _]; intros W; [apply wf_feeds; [done|]..|exact W].
  - apply shape_update_ps.
  - apply shape_meta.
  - apply shape_update_ps.
  - apply shape_paused.
Qed.

Lemma wf_db_step c id d d' : db_step id d d' → wf c d → wf c d'.
Proof.
  destruct 1 as [relay d d' H|ids d|now es meta d Hid|now wanted dd relay meta d Hid|d d' H]; intros W.
  - by eapply wf_action.
  - apply wf_only_entries; [done|]. by apply tables_wf_drop, (wf_tables c).
  - destruct (create_tx_ok _ now (db_feeds d) (db_entries d) id es meta (wf_tables c d W)). by apply (wf_shape c d).
  - destruct (filtered_tx_ok _ now (db_feeds d) (db_entries d) id wanted dd relay meta (wf_tables c d W)). by apply (wf_shape c d).
  - by eapply wf_book.
Qed.

Lemma wf_db_steps c id d d' : rtc (db_step id) d d' → wf c d → wf c d'.
Proof. induction 1 as [|d d1 d2 H _ IH]; [done|]. intros W. by eapply IH, wf_db_step. Qed.
End Polls.

(** * Refreshing by hand *)

Section Refresh.
Context `{env : Env}.

(** A computation of the refresher on the tables of the library; [w] has what the library has not: the other
    tables, the refresher's memory, and which store calls will fail. *)
Definition on_catalog {A} (m : M A) (w : World) (c : Catalog) : Catalog * A :=
  let '(w', a) := m (mkWorld (cat_db c (w_db w)) (w_mem w) (w_events w) (w_faults w)) in (db_cat c (w_db w'), a).

(** When the poll of a feed starts and what it takes is given by [clock]. *)
Definition refresh_feed (clock : Z → Z * Z) (id : Z) : M (err + Z) := RefreshFeedManual id (clock id).1 (clock id).2.

(** http/ui/categories_bulk.go:264-272 [Handler.handleCategoryBulkRefresh, the feeds] How many failed. *)
Fixpoint refresh_each (clock : Z → Z * Z) (ids : list Z) : M Z :=
  match ids with
  | [] => mret 0
  | id :: ids => r ← refresh_feed clock id; n ← refresh_each clock ids; mret (match r with inl _ => n + 1 | inr _ => n end)
  end.

(** What a poll of the feed [id] leaves alone: the other feeds' rows and poll states, who reads and follows what, the
    categories, the webhooks, and what the library keeps of a feed besides; known items stay known, deliveries stay. *)
Record polled (id : Z) (c c' : Catalog) : Prop := {
  pl_feeds : feeds_frame id (ct_feeds c) (ct_feeds c');
  pl_entries : entries_kept (ct_entries c) (ct_entries c');
  pl_logs : logs_kept (ct_hooks c) (ct_hooks c');
  pl_more : ct_more c' = ct_more c;
  pl_cats : ct_cats c' = ct_cats c;
}.

(** The statements of a refresh by hand: it closes the circuit first. *)
Inductive refresh_step (id : Z) : Db → Db → Prop :=
| rs_reset d : refresh_step id d (set_db_feeds d (ResetFeedPollCircuit (db_feeds d) id).1)
| rs_poll d d' : db_step id d d' → refresh_step id d d'.

Lemma manual_poll_steps feed now elapsed w :
  rtc (db_step (f_id (feed_row feed))) (w_db w) (w_db (refreshLoaded feed now elapsed true w).1).
Proof.
  assert (respects (steps (db_step (f_id (feed_row feed)))) (refreshLoaded feed now elapsed true)) as H.
  { unfold refreshLoaded. destruct (String.eqb _ _); [apply respects_ret; apply _|]. cbn [negb andb].
    apply respects_bind; [apply _|apply silent_steps, set_subs_silent|]. intros _.
    apply respects_bind; [apply _|apply silent_steps, pollWindow_silent|]. intros window. apply fetch_and_store_steps. }
  apply H.
Qed.

Lemma refresh_feed_steps clock id w : (∀ i f, fd_feeds (db_feeds (w_db w)) !! i = Some f → f_id f = i) →
  rtc (refresh_step id) (w_db w) (w_db (refresh_feed clock id w).1).
Proof.
  intros Hid. unfold refresh_feed. destruct (clock id) as [now elapsed]. cbn [fst snd].
  destruct (RefreshFeedManual id now elapsed w) as [w' r] eqn:E. cbn [fst]. unfold RefreshFeedManual in E.
  apply bind_run in E as (w1 & r1 & E1 & E). apply bind_run in E as (w2 & r2 & E2 & E).
  assert (rtc (refresh_step id) (w_db w) (w_db w1) ∧ fd_feeds (db_feeds (w_db w1)) = fd_feeds (db_feeds (w_db w))) as [S1 F1].
  { revert E1. unfold call. destruct (w_faults w) as [|[] fs]; [|intros [= <- _]; done|].
    all: intros [= <- _]; split; [apply rtc_once; constructor|]; cbn [to_res fst w_db set_db_feeds db_feeds].
    all: unfold ResetFeedPollCircuit, update_ps; by destruct (fd_poll _ !! id). }
  assert (w_db w2 = w_db w1 ∧ ∀ f, r2 = inr f → fd_feeds (db_feeds (w_db w1)) !! id = Some (feed_row f)) as [S2 F2].
  { revert E2. unfold call. destruct (w_faults w1) as [|[] fs]; [|by intros [= <- <-]|].
    all: intros [= <- <-]; split; [done|]; unfold GetFeedByID; intros f;
      destruct (fd_feeds _ !! id) as [row|]; [|done]; destruct (fd_poll _ !! id); [|done]; by intros [= <-]. }
  destruct r2 as [e|feed]; [injection E as <- _; by rewrite S2|].
  pose proof (F2 feed eq_refl) as L. rewrite F1 in L. apply Hid in L.
  etransitivity; [exact S1|]. rewrite <-S2.
  set (feed' := with_ps feed (reset_circuit (feed_ps feed))) in *.
  pose proof (manual_poll_steps feed' now elapsed w2) as P. rewrite E in P. cbn [fst] in P.
  change (f_id (feed_row feed')) with (f_id (feed_row feed)) in P. rewrite L in P.
  eapply rtc_subrel; [|exact P]. intros d d' Hd. by apply rs_poll.
Qed.

Lemma refresh_steps_frame id d d' : rtc (refresh_step id) d d' → db_frame id d d'.
Proof.
  induction 1 as [|d d1 d2 H _ IH]; [reflexivity|]. etransitivity; [|exact IH]. destruct H as [d|d d' H].
  - apply frame_feeds, update_ps_frame_id.
  - by apply db_step_frame.
Qed.

Lemma wf_refresh_steps title_key c id d d' : rtc (refresh_step id) d d' →
  catalog_wf title_key (db_cat c d) → catalog_wf title_key (db_cat c d').
Proof.
  induction 1 as [|d d1 d2 H _ IH]; [done|]. intros W. apply IH. destruct H as [d|d d' H]; [|by eapply wf_db_step].
  apply wf_feeds; [done|]. apply shape_update_ps.
Qed.

(** A refresh keeps the catalogue consistent and is a poll of its feed. *)
Lemma refresh_feed_ok title_key clock id w c : catalog_wf title_key c →
  let c' := (on_catalog (refresh_feed clock id) w c).1 in catalog_wf title_key c' ∧ polled id c c'.
Proof.
  intros W. unfold on_catalog. set (w0 := mkWorld _ _ _ _). pose proof (refresh_feed_steps clock id w0) as S.
  destruct (refresh_feed clock id w0) as [w' r]. cbn [fst] in *. specialize (S (cw_id _ _ W)). subst w0. cbn [w_db] in S.
  split.
  - eapply wf_refresh_steps; [exact S|]. by rewrite db_cat_id.
  - apply refresh_steps_frame in S as [H1 H2 H3 _ _]. by split.
Qed.
End Refresh.

(** Refreshing several feeds in one request is refreshing them one after the other. *)
Section Refresh_each.
Context `{env : Env}.

Definition refreshed (clock : Z → Z * Z) (c : Catalog) (x : Z * World) : Catalog := (on_catalog (refresh_feed clock x.1) x.2 c).1.

Lemma refresh_each_runs clock ids w c :
  ∃ runs, (on_catalog (refresh_each clock ids) w c).1 = fold_left (refreshed clock) runs c ∧ runs.*1 = ids.
Proof.
  revert w c. induction ids as [|id ids IH]; intros w c; [exists []; split; [apply db_cat_id|done]|].
  unfold on_catalog. cbn [refresh_each]. set (w0 := mkWorld _ _ _ _).
  unfold mbind, M_bind. destruct (refresh_feed clock id w0) as [w1 r] eqn:E1.
  pose (c1 := db_cat c (w_db w1)).
  assert (refreshed clock c (id, w) = c1) as R by by unfold refreshed, on_catalog; cbn [fst snd]; fold w0; rewrite E1.
  destruct (IH w1 c1) as (runs & H & I). exists ((id, w) :: runs). cbn [fold_left fmap list_fmap fst]. split; [|by rewrite I].
  rewrite R, <-H. unfold on_catalog.
  assert (mkWorld (cat_db c1 (w_db w1)) (w_mem w1) (w_events w1) (w_faults w1) = w1) as -> by by destruct w1 as [[] ? ? ?].
  by destruct (refresh_each clock ids w1) as [w2 n].
Qed.
End Refresh_each.
