(* ===== verification/Worker.v ===== *)
(** The poll workers ([worker/runner.go], [worker/due_wait.go],
    [worker/daily_reset.go]): what one worker does with a claimed feed, one
    round of the dispatcher, and the daily reset.  [processPollFeed] runs the
    refresher of [Refresher.v] in its monad; the dispatcher's own state is the
    in-flight set and the two maps of deferrals.  Instants the code reads from
    the clock are arguments. *)

From S2P Require Import Prelude GoStrings PollSchedule PollWindow Types Inflight DuePauses.
From S2P Require Import HostLimiter TtlCache FilterEngine FeedStore WebhookStore EntryStore.
From S2P Require Import PollLog FeedRules Refresher PollFrames RefresherSpec.

(** * Definitions *)

(** worker/runner.go [Config] The settings the poll path reads. *)
Record WCfg := mkWCfg {
  wc_PoolSize : Z; wc_SchedulerTick : Z; wc_MinPollInterval : Z; wc_MaxPollInterval : Z;
}.

(** worker/runner.go [deferScope] With the moment the deferral ends. *)
Inductive deferral := DeferNone | DeferFeed (until : Z) | DeferBridge (until : Z).

(** worker/runner.go [memoryDeferMax] *)
Definition memoryDeferMax : Z := minute.

Definition poll_failed_feed (e : err) : option Feed :=
  err_find (λ e, match e with EPollFailed f _ => Some f | _ => None end) e.

Section Poll.
Context `{env : Env}.

(** worker/runner.go:347-363 [processPollFeed, a deferred poll] *)
Definition defer_poll (now feedID at_ : Z) (e : err) : M deferral :=
  let at_ := if time_before at_ (time_add now (50 * millisecond)) then time_add now second else at_ in
  if NextCheckPersisted e then mret DeferNone
  else if DeferBridgeWide e then mret (DeferBridge at_)
  else if time_sub at_ now <=? memoryDeferMax then mret (DeferFeed at_)
  else
    _ ← call (λ d, to_res d (SetFeedNextCheckAt (db_feeds d) feedID at_));
    mret DeferNone.

(** worker/runner.go:373-395 [processPollFeed, a failed poll] *)
Definition settle_failure (wcfg : WCfg) (now feedID : Z) (e : err) : M deferral :=
  feedAfter ← (match poll_failed_feed e with
               | Some f => mret (inr f)
               | None => call (λ d, (d, GetFeedByID (db_feeds d) feedID))
               end);
  match feedAfter with
  | inl _ => mret DeferNone
  | inr f =>
      match ps_next_check_at (feed_ps f) with
      | Some t => if time_after t now then mret DeferNone
                  else
                    _ ← call (λ d, to_res d (SetFeedNextCheckAt (db_feeds d) feedID
                          (FeedNextCheckAfterError now (f_interval_minutes (feed_row f))
                             (ps_parsing_error_count (feed_ps f)) (wc_MinPollInterval wcfg)
                             (wc_MaxPollInterval wcfg))));
                    mret DeferNone
      | None =>
          _ ← call (λ d, to_res d (SetFeedNextCheckAt (db_feeds d) feedID
                (FeedNextCheckAfterError now (f_interval_minutes (feed_row f))
                   (ps_parsing_error_count (feed_ps f)) (wc_MinPollInterval wcfg)
                   (wc_MaxPollInterval wcfg))));
          mret DeferNone
      end
  end.

(** worker/runner.go [processPollFeed] [start] is the clock when the poll
    starts, [now] when it has returned. *)
Definition processPollFeed (wcfg : WCfg) (start now elapsed feedID : Z) : M deferral :=
  feed ← call (λ d, (d, GetFeedByID (db_feeds d) feedID));
  match feed with
  | inl _ => mret DeferNone
  | inr feed =>
      if FeedPollingBlocked feed then mret DeferNone
      else
        r ← RefreshLoadedFeed feed start elapsed;
        match r with
        | inr _ => mret DeferNone
        | inl e =>
            match RetryAt (Some e) with
            | Some at_ => defer_poll now feedID at_ e
            | None => settle_failure wcfg now feedID e
            end
        end
  end.
End Poll.

(** ** The dispatcher *)

Record Dispatcher := mkDispatcher {
  di_paused : bool;
  di_inflight : inflightPolls;
  di_feeds : gmap Z Z;          (* deferredFeeds *)
  di_bridges : gmap string Z;   (* deferredBridges *)
}.

(** worker/due_wait.go [idleWait] How long the timer is set for, at [now]. *)
Definition idleWait (now : Z) (next : option Z) (maxWait : Z) : Z :=
  let d := match next with Some t => Z.min maxWait (time_sub t now) | None => maxWait end in
  Z.max d (Z.min maxWait second).

(** [next, known] joined with a resume moment. *)
Definition sooner (next resume : option Z) : option Z :=
  match resume with
  | None => next
  | Some r => match next with
              | Some t => if time_before r t then Some r else Some t
              | None => Some r
              end
  end.

(** worker/runner.go:214-217 [Runner.dispatchLoop, the earliest deferral] *)
Definition resume_at (deferred bridges : option Z) : option Z :=
  match bridges with
  | None => deferred
  | Some b => match deferred with
              | Some r => if time_before b r then Some b else Some r
              | None => Some b
              end
  end.

(** What a round ends in: feeds handed to the workers, or a wait. *)
Inductive round := Claimed (due : list DueFeed) | Wait (d : Z).

(** worker/runner.go [Runner.dispatchLoop] One round, with [room] free places
    in the channel; the claim is timed at [claimedAt].  The two queries succeed. *)
Definition dispatch_round (wcfg : WCfg) (now claimedAt room : Z) (db : FeedDb) (s : Dispatcher)
    : Dispatcher * round :=
  if di_paused s then (s, Wait (idleWait now None (wc_SchedulerTick wcfg)))
  else if room <=? 0 then (s, Wait (idleWait now (Some (time_add now second)) second))
  else
    let '(running, infl) := ifl_exclude (di_inflight s) now in
    let '(deferred, resume, feeds) := dp_active (di_feeds s) now in
    let '(bridges, bridgeResume, brs) := dp_active (di_bridges s) now in
    let exclude := running ++ deferred in
    let due := ListFeedsDue now db (Z.min (wc_PoolSize wcfg) room) exclude bridges in
    let s := mkDispatcher (di_paused s) infl feeds brs in
    match due with
    | _ :: _ =>
        (mkDispatcher (di_paused s)
           (foldl (λ p d, ifl_start p (df_id d) claimedAt) (di_inflight s) due)
           (di_feeds s) (di_bridges s), Claimed due)
    | [] =>
        (s, Wait (idleWait now (sooner (NextFeedDueAt now db exclude bridges)
                                  (resume_at resume bridgeResume)) (wc_SchedulerTick wcfg)))
    end.

(** worker/runner.go [Runner.workerLoop] What a worker does to the
    dispatcher's state when the poll of [d] has returned. *)
Definition worker_done (now : Z) (s : Dispatcher) (d : DueFeed) (r : deferral) : Dispatcher :=
  let s := match r with
           | DeferNone => s
           | DeferFeed until => mkDispatcher (di_paused s) (di_inflight s)
                                  (dp_pause (di_feeds s) (df_id d) until) (di_bridges s)
           | DeferBridge until => mkDispatcher (di_paused s) (di_inflight s) (di_feeds s)
                                    (dp_pause (di_bridges s) (df_type d) until)
           end in
  mkDispatcher (di_paused s) (ifl_done (di_inflight s) (df_id d) now) (di_feeds s) (di_bridges s).

(** worker/runner.go [Runner.Pause] *)
Definition Pause (s : Dispatcher) : Dispatcher :=
  mkDispatcher true (di_inflight s) (di_feeds s) (di_bridges s).
(** worker/runner.go [Runner.Resume] *)
Definition Resume (s : Dispatcher) : Dispatcher :=
  mkDispatcher false (di_inflight s) (di_feeds s) (di_bridges s).

(** ** The daily reset *)

(** worker/daily_reset.go [Runner.maybeRunDailyFeedReset] [setting] is the
    stored date, [None] when it is missing or not a JSON string, [today] the
    local date. *)
Definition maybeRunDailyFeedReset (now : Z) (today : string) (setting : option string) (db : FeedDb)
    : option string * FeedDb :=
  if decide (setting = Some today) then (setting, db)
  else (Some today, (ResetFeedPollErrorsDaily now db).1).

(** * Lemmas *)

Section Poll_lemmas.
Context `{env : Env}.

(** The stored state of [id], if there is one, is due after [t]. *)
Definition next_ok (t id : Z) (db : FeedDb) : Prop :=
  ∀ ps, fd_poll db !! id = Some ps → ∃ u, ps_next_check_at ps = Some u ∧ t < u.

Lemma next_ok_not_due t id db limit ex exT : next_ok t id db →
  id ∉ df_id <$> ListFeedsDue t db limit ex exT.
Proof.
  intros Hok (d & Hd & Hin)%list_elem_of_fmap. unfold ListFeedsDue in Hin.
  destruct (limit <=? 0); [by apply elem_of_nil in Hin|].
  apply (elem_of_sublist _ _ _) with (2 := sublist_take _ _) in Hin.
  rewrite merge_sort_Permutation in Hin.
  apply due_rows_elem in Hin as (id' & f' & p & _ & Hp & Hdue & ->). simpl in Hd. subst id'.
  destruct (Hok p Hp) as (u & Hu & Ht). unfold due_now in Hdue. rewrite Hu in Hdue. bool_to_prop. lia.
Qed.

Lemma next_ok_set t id db u : t < u → next_ok t id (SetFeedNextCheckAt db id u).1.
Proof.
  intros Hu ps. unfold SetFeedNextCheckAt, update_ps. destruct (fd_poll db !! id) eqn:E; simpl.
  - rewrite lookup_insert_eq. intros [= <-]. by exists u.
  - by rewrite E.
Qed.

Lemma next_ok_meta t id db p u : um_id p = id → um_next_check_at p = Some u → t < u →
  next_ok t id (updateFeedRefreshMeta db p).1.
Proof.
  intros <- Hn Hu ps. unfold updateFeedRefreshMeta, update_ps.
  destruct (fd_poll db !! um_id p) as [p0|] eqn:E; cbn [fst]; [|by rewrite E].
  assert (∀ db0, fd_poll (move_feed_url db0 (um_id p) (um_new_feed_url p)) = fd_poll db0) as Hm.
  { intros db0. unfold move_feed_url. by repeat case_match. }
  assert (fd_poll (if String.eqb (um_new_feed_url p) "" then
             with_poll db (<[um_id p := refresh_meta_ps p p0]> (fd_poll db))
           else move_feed_url (with_poll db (<[um_id p := refresh_meta_ps p p0]> (fd_poll db))) (um_id p)
                  (um_new_feed_url p)) !! um_id p = Some (refresh_meta_ps p p0)) as Hl.
  { case_match; [|rewrite Hm]; simpl; by rewrite lookup_insert_eq. }
  rewrite Hl. intros [= <-]. exists u. unfold refresh_meta_ps. cbn [ps_next_check_at]. by rewrite Hn.
Qed.

(** The delays are positive. *)
Lemma clamp_pos d lo hi : 0 < lo → 0 < clampPollDuration d lo hi.
Proof.
  unfold clampPollDuration. intros.
  destruct (Z.ltb_spec 0 lo), (Z.ltb_spec d lo), (Z.ltb_spec 0 hi), (Z.ltb_spec hi d); simpl; lia.
Qed.

Lemma pollBounds_pos : 0 < pollBounds.1 ∧ 0 < pollBounds.2.
Proof. unfold pollBounds, hour, minute, second. cbn [fst snd].
  destruct (Z.leb_spec (MinPollInterval cfg) 0), (Z.leb_spec (MaxPollInterval cfg) 0); lia. Qed.

Lemma error_next_pos now m k lo hi : 0 < lo → now < FeedNextCheckAfterError now m k lo hi.
Proof.
  intros. unfold FeedNextCheckAfterError, time_add, FeedErrorPollDelay.
  pose proof (clamp_pos (wrap64 (feedBasePollInterval m lo hi *
    wrap64 (Z.shiftl 1 (if 30 <? (if k <=? 0 then 1 else k) then 30 else if k <=? 0 then 1 else k)))) lo hi).
  cbv zeta. lia.
Qed.

Lemma failure_next_pos feed now cause : now < failure_next feed now cause.
Proof.
  unfold failure_next, time_add. pose proof pollBounds_pos. case_match; [lia|]. apply error_next_pos. lia.
Qed.

Lemma nextCheckAfterPoll_later feed now mn : yields (λ t, now < t) (nextCheckAfterPoll feed now mn).
Proof.
  unfold nextCheckAfterPoll. pose proof pollBounds_pos as [Hlo Hhi]. destruct pollBounds as [lo hi].
  cbn [fst snd] in *. apply yields_bind. intros a. apply yields_ret.
  unfold FeedNextCheckAt, feedBasePollInterval, time_add, time_after.
  pose proof (clamp_pos (wrap64 (f_interval_minutes (feed_row feed) * minute)) lo hi Hlo).
  repeat case_match; bool_to_prop; lia.
Qed.

Lemma silentNextCheck_later feed now next : now < next → now < (silentNextCheck feed now next).1.
Proof.
  intros. unfold silentNextCheck. repeat case_match; cbn [fst]; bool_to_prop; try lia.
  all: unfold time_after in *; bool_to_prop; lia.
Qed.

(** ** The tables after a poll without faults *)

Context (Hopen : ∀ w t, pw_wf w → t <= pw_next_open zone w t).

Definition window_ok (window : option PollWindow) : Prop :=
  match window with Some w => pw_wf w | None => True end.

Lemma open_at_later window now t : window_ok window → now < t → now < open_at window t.
Proof. destruct window as [w|]; simpl; [|done]. intros Hw Ht. specialize (Hopen w t Hw). lia. Qed.

(** The cached windows come from the parser. *)
Definition hours_ok (m : Mem) : Prop :=
  ∀ id it w, tc_items (m_hours_cache m) !! id = Some it → it_val it = Some w → pw_wf w.

Lemma pollWindow_wf now feed w w' window : hours_ok (w_mem w) →
  pollWindow now feed w = (w', window) → window_ok window.
Proof.
  intros Hok. unfold pollWindow. destruct (f_category_id _) as [c|]; [|by intros [= _ <-]].
  unfold categoryPollWindow. intros (w1 & m & H1 & H)%bind_run. injection H1 as <- <-.
  destruct (ttl_get _ _ _ _) as [cache hit] eqn:Ht. apply bind_run in H as (w2 & [] & _ & H).
  destruct hit as [win|].
  - injection H as _ <-. unfold ttl_get in Ht.
    destruct (tc_items (m_hours_cache (w_mem w)) !! c) as [it|] eqn:Hit; [|done].
    destruct (_ <=? _); [done|]. injection Ht as _ <-. destruct (it_val it) eqn:Hv; [|done]. by eapply Hok.
  - apply bind_run in H as (w3 & r & _ & H). destruct r as [er|raw]; [by injection H as _ <-|].
    apply bind_run in H as (w4 & m2 & _ & H). apply bind_run in H as (w5 & [] & _ & H).
    injection H as _ <-. destruct (ParsePollHours raw) as [[win|]|] eqn:Hp; [|done..]. by eapply ParsePollHours_wf.
Qed.

(** Filter actions and the relay clean-up do not touch the feed tables. *)
Lemma afterStore_feeds now feed es : respects feeds_same (afterStore now feed es).
Proof.
  assert (∀ relay (m : M unit), respects (steps (action_step relay)) m → respects feeds_same m) as Hact.
  { intros relay m Hm w. destruct (Hm w) as (H & _ & _). unfold feeds_same.
    induction H as [|d d1 d2 H _ IH]; [done|]. rewrite IH. by destruct H. }
  unfold afterStore. destruct es; [apply respects_ret, _|]. apply respects_bind; [apply _| |].
  { intros w. unfold feeds_same. by rewrite (sil_db _ _ (feedSubs_get_silent _ w)). }
  intros subs. apply respects_bind; [apply _| |].
  { apply respects_for_each; [apply _|]. intros sub _. eapply Hact, applySubscriberFilters_steps. }
  intros _. destruct (String.eqb _ _); [|by intros w]. unfold dropUndeliveredRelayEntries.
  apply respects_bind; [apply _| |intros ?; apply respects_ret, _].
  intros w. unfold call_, call. destruct (w_faults w) as [|[] fs]; [|done|];
    by destruct (DropUndeliveredRelayEntries _ _ _ _).
Qed.

Lemma lift_meta_run {A} f m e (a b : A) s' :
  lift_meta (updateFeedRefreshMeta f m) e a = (s', inr b) → s'.1 = (updateFeedRefreshMeta f m).1.
Proof. unfold lift_meta. destruct (updateFeedRefreshMeta f m) as [f' [|]]; [done|]. by intros [= <- _]. Qed.

Lemma filtered_meta now f e id wanted dd relay m s' r :
  StoreFilteredPoll dedup_key now (f, e) (mkFilteredPoll id wanted dd relay (Some m)) = (s', inr r) →
  s'.1 = (updateFeedRefreshMeta f m).1.
Proof.
  unfold StoreFilteredPoll. cbn [fp_entries fp_dedup fp_meta fst snd].
  assert (withTx (f, e) (filtered_body dedup_key now (mkFilteredPoll id wanted dd relay (Some m))) = (s', inr r) →
    s'.1 = (updateFeedRefreshMeta f m).1) as Ht.
  { unfold withTx, filtered_body. cbn [fp_feed_id fp_entries fp_dedup fp_relay fp_meta].
    destruct (createEntries _ _ _ _ _ _ _) as [e1 [er|ins]]; [done|].
    destruct (recordFeedEntryDedup _ _ _ _) as [e2 [er|k]]; [done|].
    destruct (lift_meta _ _ _) as [s2 [er|a]] eqn:Hl; [done|]. intros [= <- _]. by eapply lift_meta_run. }
  destruct wanted; [destruct dd|]; [|exact Ht..]. by apply lift_meta_run.
Qed.

Lemma create_meta now f e id es m s' r :
  CreateEntriesWithRefreshMeta dedup_key now (f, e) id es m = (s', inr r) →
  s'.1 = (updateFeedRefreshMeta f (set_new_entries m r.1)).1.
Proof.
  unfold CreateEntriesWithRefreshMeta, withTx.
  destruct (createEntries _ _ _ _ _ _ _) as [e1 [er|ins]]; [done|].
  destruct (lift_meta _ _ _) as [s2 [er|a]] eqn:Hl; [done|]. intros [= <- <-].
  assert (a = ins) as ->.
  { unfold lift_meta in Hl. destruct (updateFeedRefreshMeta _ _) as [f' [|]]; by simplify_eq. }
  by eapply lift_meta_run.
Qed.

(** A store step that has written the metadata has written its next check. *)
Lemma storeFetched_next now feed fetched meta w w' meta' ins cr u t :
  um_id meta = f_id (feed_row feed) → um_next_check_at meta = Some u → t < u →
  storeFetched now feed fetched meta w = (w', (meta', inr (ins, cr, true))) →
  next_ok t (f_id (feed_row feed)) (db_feeds (w_db w')).
Proof.
  intros Hid Hn Ht. unfold storeFetched. destruct (negb _ && _); [done|].
  destruct (negb (String.eqb (storeMode feed) "full")).
  - unfold processEntriesFiltered. destruct (if _ : bool then _ else _); [done|].
    intros (w1 & kn & _ & H)%bind_run. destruct kn as [er|kn]; [done|].
    apply bind_run in H as (w2 & perSub & _ & H). destruct perSub as [er|perSub]; [done|].
    apply bind_run in H as (w3 & hits & _ & H). apply bind_run in H as (w4 & [wanted dd] & _ & H).
    apply bind_run in H as (w5 & r & H & H'). injection H' as <- _ Hr.
    destruct r as [er|[ins' cr']]; [done|].
    apply (store_run (λ s, StoreFilteredPoll dedup_key now s _)) in H as (s' & Hst & ->).
    cbn [db_feeds set_db_entries set_db_feeds]. rewrite (filtered_meta _ _ _ _ _ _ _ _ _ _ Hst).
    by apply (next_ok_meta _ _ _ _ u).
  - intros (w1 & r & H & H')%bind_run. destruct r as [er|[ins' cr']]; [done|]. injection H' as <- _ _ _.
    apply (store_run (λ s, CreateEntriesWithRefreshMeta dedup_key now s _ _ _)) in H as (s' & Hst & ->).
    cbn [db_feeds set_db_entries set_db_feeds]. rewrite (create_meta _ _ _ _ _ _ _ _ Hst).
    by apply (next_ok_meta _ _ _ _ u).
Qed.

Lemma storeFetched_um_next now feed fetched meta :
  yields (λ r, um_next_check_at r.1 = um_next_check_at meta) (storeFetched now feed fetched meta).
Proof. unfold storeFetched, processEntriesFiltered. yields_go; by repeat case_match. Qed.

(** A step that leaves the feed tables alone, or a bookkeeping step, keeps a
    future check in the future. *)
Lemma next_ok_feeds t id w w' : feeds_same w w' → next_ok t id (db_feeds (w_db w)) → next_ok t id (db_feeds (w_db w')).
Proof. unfold feeds_same. by intros ->. Qed.

Lemma settle_poll_next feed now elapsed window res sil next meta ins es st w w' r :
  w_faults w = [] → window_ok window → um_id meta = f_id (feed_row feed) →
  um_next_check_at meta = Some next → now < next →
  (st = true → next_ok now (f_id (feed_row feed)) (db_feeds (w_db w))) →
  settle_poll feed now elapsed window res sil next meta ins es st w = (w', r) →
  next_ok now (f_id (feed_row feed)) (db_feeds (w_db w')).
Proof.
  intros Hf Hwin Hid Hn Hlt Hst. unfold settle_poll. intros (w1 & [] & H1 & H)%bind_run.
  assert (feeds_same w w1 ∧ w_faults w1 = []) as [Hs1 Hf1].
  { destruct (res_not_modified res); [by injection H1 as <-|]. split.
    - eapply respects_run; [apply afterStore_feeds|exact H1].
    - destruct (respects_run _ _ _ _ _ (afterStore_steps now feed es) H1) as (_ & _ & Hc). by apply Hc. }
  apply bind_run in H as (w2 & [meta2 next2] & H2 & H).
  assert (um_id meta2 = f_id (feed_row feed) ∧ um_next_check_at meta2 = Some next2 ∧ now < next2 ∧
    w_faults w2 = [] ∧ (st = true → next_ok now (f_id (feed_row feed)) (db_feeds (w_db w2)))) as (Hid2 & Hn2 & Hlt2 & Hf2 & Hst2).
  { destruct (sil && _).
    - apply bind_run in H2 as (w3 & n3 & H3 & H2).
      pose proof (yields_run _ _ _ _ _ (nextCheckAfterPoll_later _ _ _) H3) as Hn3. cbv beta in Hn3.
      apply respects_run with (R := silent) in H3; [|apply nextCheckAfterPoll_silent].
      apply bind_run in H2 as (w4 & [] & H4 & H2). injection H2 as <- <- <-.
      assert (now < open_at window n3) as Hopen3 by (by apply open_at_later).
      assert (w_faults w3 = []) as Hf3 by (by apply (sil_faults _ _ H3)).
      split; [done|]. split; [done|]. split; [done|]. destruct st.
      + apply bind_run in H4 as (w5 & r5 & H5 & H4). injection H4 as <-.
        rewrite call_ok in H5 by done. injection H5 as <- _. split; [done|]. intros _. by apply next_ok_set.
      + by injection H4 as <-.
    - injection H2 as <- <- <-. split; [done|]. split; [done|]. split; [done|]. split; [done|].
      intros Ht. by eapply next_ok_feeds, Hst. }
  apply bind_run in H as (w3 & [] & H3 & H).
  assert (next_ok now (f_id (feed_row feed)) (db_feeds (w_db w3))) as Hok3.
  { destruct st; [injection H3 as <-; by apply Hst2|].
    apply bind_run in H3 as (w4 & r4 & H4 & H3). injection H3 as <-.
    rewrite call_ok in H4 by done. injection H4 as <- _. by apply (next_ok_meta _ _ _ _ next2). }
  apply bind_run in H as (w4 & [] & H4 & H). apply respects_run with (R := feeds_same) in H4; [|apply recordPoll_feeds].
  apply bind_run in H as (w5 & subs & H5 & H). apply respects_run with (R := silent) in H5; [|apply feedSubs_loaded_silent].
  injection H as <- _. cbn [w_db]. rewrite (sil_db _ _ H5). by eapply next_ok_feeds.
Qed.

Lemma finish_poll_next feed now elapsed window res w w' n :
  w_faults w = [] → window_ok window →
  finish_poll feed now elapsed window res w = (w', inr n) →
  next_ok now (f_id (feed_row feed)) (db_feeds (w_db w')).
Proof.
  intros Hf Hwin. unfold finish_poll. intros (w1 & next0 & H1 & H)%bind_run.
  pose proof (yields_run _ _ _ _ _ (nextCheckAfterPoll_later _ _ _) H1) as Hn0. cbv beta in Hn0.
  apply respects_run with (R := silent) in H1; [|apply nextCheckAfterPoll_silent].
  pose proof (silentNextCheck_later feed now next0 Hn0) as Hsil.
  destruct (silentNextCheck feed now next0) as [next sil]. cbn [fst] in Hsil.
  set (meta := mkMetaParams _ _ _ _ _ _ _ _ _ _) in H.
  apply bind_run in H as (w2 & [meta' stored] & H2 & H).
  pose proof (yields_run _ _ _ _ _ (stored_id now feed res meta eq_refl) H2) as Hid. cbn [fst] in Hid.
  destruct stored as [cause|[[ins cr] st]].
  { apply bind_run in H as (w3 & e' & H3 & H). by injection H. }
  assert (now < open_at window next) as Hlt by (by apply open_at_later).
  assert (w_faults w1 = []) as Hf1 by (by apply (sil_faults _ _ H1)).
  eapply settle_poll_next; [| |exact Hid| |exact Hlt| |exact H]; [|done| |].
  - destruct (res_not_modified res); [by injection H2 as <-|].
    destruct (respects_run _ _ _ _ _ (storeFetched_steps now feed (res_entries res) meta eq_refl) H2) as (_ & _ & Hc).
    by apply Hc.
  - destruct (res_not_modified res); [by injection H2 as _ <-|].
    pose proof (yields_run _ _ _ _ _ (storeFetched_um_next now feed (res_entries res) meta) H2) as Hu. exact Hu.
  - intros ->. destruct (res_not_modified res); [by injection H2|].
    by eapply (storeFetched_next now feed (res_entries res) meta).
Qed.

Lemma deferLayout_next feed now le marker w w' e : w_faults w = [] →
  deferLayout feed now le marker w = (w', e) → next_ok now (f_id (feed_row feed)) (db_feeds (w_db w')).
Proof.
  intros Hf. unfold deferLayout. intros (w1 & next & H1 & H)%bind_run.
  pose proof (yields_run _ _ _ _ _ (nextCheckAfterPoll_later _ _ _) H1) as Hn. cbv beta in Hn.
  apply respects_run with (R := silent) in H1; [|apply nextCheckAfterPoll_silent].
  apply bind_run in H as (w2 & r & H & H'). injection H' as <- _.
  rewrite call_ok in H by (by apply (sil_faults _ _ H1)). injection H as <- _.
  by apply (next_ok_meta _ _ _ _ next).
Qed.

Lemma failPoll_next feed now elapsed st cause kind gone w w' e : w_faults w = [] →
  failPoll feed now elapsed st cause kind gone w = (w', e) →
  next_ok now (f_id (feed_row feed)) (db_feeds (w_db w')).
Proof.
  intros Hf H. destruct (fd_poll (db_feeds (w_db w)) !! f_id (feed_row feed)) as [ps|] eqn:Hps.
  - destruct (failPoll_recorded _ _ _ _ _ _ _ _ _ _ ps Hf Hps H) as [Hrec _].
    intros ps' Hps'. rewrite Hrec in Hps'. injection Hps' as <-. eexists. split; [done|]. apply failure_next_pos.
  - intros ps' Hps'. exfalso.
    assert (∀ d d', rtc (book_step (f_id (feed_row feed))) d d' →
      fd_poll (db_feeds d) !! f_id (feed_row feed) = None → fd_poll (db_feeds d') !! f_id (feed_row feed) = None) as Hnone.
    { assert (∀ db id g i, fd_poll db !! i = None → fd_poll (update_ps db id g).1 !! i = None) as Hu.
      { intros db id g i Hi. unfold update_ps. case_match eqn:E; [|done]. simpl.
        rewrite lookup_insert_ne; [done|]. congruence. }
      assert (∀ db p i, fd_poll db !! i = None → fd_poll (updateFeedRefreshMeta db p).1 !! i = None) as Hm.
      { intros db p i Hi. unfold updateFeedRefreshMeta. specialize (Hu db (um_id p) (refresh_meta_ps p) i Hi).
        destruct (update_ps _ _ _) as [db1 [|]]; [done|]. cbn [fst] in *.
        case_match; [done|]. unfold move_feed_url. by repeat case_match. }
      induction 1 as [|d d1 d2 Hst _ IH]; [done|]. intros Hd. apply IH. destruct Hst; cbn [db_feeds set_db_feeds set_db_polllog].
      - by apply Hu.
      - by apply Hm.
      - by apply Hu.
      - unfold SetFeedManualPaused. by case_match.
      - done. }
    destruct (respects_run _ _ _ _ _ (failPoll_book feed now elapsed st cause kind gone) H) as [Hb _].
    apply Hnone in Hb; [|done]. congruence.
Qed.

(** The fetcher never returns the refresher's own errors. *)
Context (Hfetch : ∀ rq res e, fetch rq = (res, Some e) →
  NextCheckPersisted e = false ∧ poll_failed_feed e = None).

Definition foreign (e : err) : Prop := NextCheckPersisted e = false ∧ poll_failed_feed e = None.

Lemma refresh_next feed now elapsed w w' r :
  w_faults w = [] → limiter_ok (m_hosts (w_mem w)) → hours_ok (w_mem w) →
  RefreshLoadedFeed feed now elapsed w = (w', r) →
  w_faults w' = [] ∧
  match r with
  | inr _ => next_ok now (f_id (feed_row feed)) (db_feeds (w_db w'))
  | inl e => next_ok now (f_id (feed_row feed)) (db_feeds (w_db w')) ∨ foreign e
  end.
Proof.
  intros Hf Hl Hh H. unfold RefreshLoadedFeed in H. split.
  { pose proof (refreshLoaded_steps feed now elapsed false w Hl) as (_ & _ & Hc). rewrite H in Hc. by apply Hc. }
  destruct r as [e|n].
  - apply refreshLoaded_error in H.
    inversion H as [w0 e0 Hs Hr|feed' w1 w2 w0 le marker e0 Hrow S1 Hd S2
                   |feed' w1 w2 w0 rq c kind gone e0 st Hrow Hc S1 Hd S2]; subst; clear H.
    + right. destruct Hr as [Hr|(_ & rq & res & fe & Hrq & He)]; [by destruct e|].
      destruct (Hfetch _ _ _ Hrq) as [H1 H2]. destruct He as [->|[a ->]]; by split.
    + left. rewrite (same_db _ _ S2), <-Hrow. eapply deferLayout_next; [|exact Hd]. by apply (same_faults _ _ S1).
    + left. rewrite (same_db _ _ S2), <-Hrow. eapply failPoll_next; [|exact Hd]. by apply (same_faults _ _ S1).
  - unfold refreshLoaded in H. destruct (String.eqb _ _); [done|]. destruct (_ && _); [done|].
    apply bind_run in H as (w1 & [] & H1 & H).
    assert (m_hours_cache (w_mem w1) = m_hours_cache (w_mem w)) as Hhc by (by injection H1 as <-).
    apply respects_run with (R := silent) in H1; [|apply set_subs_silent].
    apply bind_run in H as (w2 & window & H2 & H).
    assert (window_ok window) as Hwin.
    { eapply pollWindow_wf; [|exact H2]. unfold hours_ok in *. by rewrite Hhc. }
    apply respects_run with (R := silent) in H2; [|apply pollWindow_silent].
    assert (same w w2) as Hs by (apply silent_same; by etransitivity).
    destruct (negb false && _); [done|]. cbn iota in H.
    apply slot_run in H as [[? _]|(w3 & w4 & Hs3 & H & Hs4)]; [done|].
    rewrite (same_db _ _ Hs4). unfold fetch_and_store in H. cbn iota zeta in H.
    destruct (fetch _) as [res [er|]]; [apply bind_run in H as (? & ? & _ & [=])|].
    eapply finish_poll_next; [|exact Hwin|exact H]. by apply (same_faults _ _ Hs3), (same_faults _ _ Hs).
Qed.

(** The feed is claimed by no query at [t]. *)
Definition not_due (t id : Z) (db : FeedDb) : Prop :=
  ∀ limit ex exT, id ∉ df_id <$> ListFeedsDue t db limit ex exT.

Lemma not_due_unless t id db :
  (∀ f ps, fd_feeds db !! id = Some f → fd_poll db !! id = Some ps → pollable db id f ps = false) →
  not_due t id db.
Proof.
  intros Hno limit ex exT (d & Hd & Hin)%list_elem_of_fmap. unfold ListFeedsDue in Hin.
  destruct (limit <=? 0); [by apply elem_of_nil in Hin|].
  apply (elem_of_sublist _ _ _) with (2 := sublist_take _ _) in Hin.
  rewrite merge_sort_Permutation in Hin.
  apply due_rows_elem in Hin as (id' & f' & p & Hf & Hp & Hdue & ->). simpl in Hd. subst id'.
  unfold due_now in Hdue. by rewrite (Hno _ _ Hf Hp) in Hdue.
Qed.

Lemma next_ok_earlier t u id db : t <= u → next_ok u id db → next_ok t id db.
Proof. intros Hle H ps Hps. destruct (H ps Hps) as (x & ? & ?). exists x. split; [done|lia]. Qed.

Lemma defer_poll_ok start now id at_ e w w' r :
  w_faults w = [] → start <= now → (NextCheckPersisted e = true → next_ok start id (db_feeds (w_db w))) →
  defer_poll now id at_ e w = (w', r) →
  match r with
  | DeferNone => not_due start id (db_feeds (w_db w'))
  | DeferFeed until | DeferBridge until => now < until
  end.
Proof.
  intros Hf Hle Hp. unfold defer_poll.
  set (u := if time_before at_ (time_add now (50 * millisecond)) then time_add now second else at_).
  assert (now < u) as Hu.
  { unfold u, time_before, time_add, millisecond, second. case_match; bool_to_prop; lia. }
  destruct (NextCheckPersisted e).
  { intros [= <- <-]. intros limit ex exT. by apply next_ok_not_due, Hp. }
  destruct (DeferBridgeWide e); [by intros [= <- <-]|]. destruct (_ <=? _); [by intros [= <- <-]|].
  intros (w1 & r1 & H1 & H)%bind_run. injection H as <- <-. rewrite call_ok in H1 by done.
  injection H1 as <- _. intros limit ex exT. apply next_ok_not_due, next_ok_set. lia.
Qed.

Lemma settle_failure_ok wcfg start now id e w w' r :
  w_faults w = [] → start <= now → 0 < wc_MinPollInterval wcfg →
  next_ok start id (db_feeds (w_db w)) ∨ poll_failed_feed e = None →
  settle_failure wcfg now id e w = (w', r) → r = DeferNone ∧ not_due start id (db_feeds (w_db w')).
Proof.
  intros Hf Hle Hmin Hok. unfold settle_failure. intros (w1 & f & H1 & H)%bind_run.
  assert (w_faults w1 = [] ∧ w_db w1 = w_db w ∧
    (next_ok start id (db_feeds (w_db w)) ∨ f = GetFeedByID (db_feeds (w_db w)) id)) as (Hf1 & Hd & Hcase).
  { destruct (poll_failed_feed e) as [g|].
    - injection H1 as <- _. destruct Hok as [?|?]; [auto|done].
    - rewrite call_ok in H1 by done. injection H1 as <- <-. auto. }
  assert (∀ u w2 r2, now < u → (_ ← call (λ d, to_res d (SetFeedNextCheckAt (db_feeds d) id u)); mret DeferNone) w1 = (w2, r2) →
    r2 = DeferNone ∧ not_due start id (db_feeds (w_db w2))) as Hset.
  { intros u w2 r2 Hu (w3 & r3 & H3 & H')%bind_run. injection H' as <- <-. rewrite call_ok in H3 by done.
    injection H3 as <- _. split; [done|]. intros limit ex exT. apply next_ok_not_due, next_ok_set. lia. }
  destruct f as [er|f].
  - injection H as <- <-. split; [done|]. rewrite Hd. destruct Hcase as [Hn|Hg]; [intros ???; by apply next_ok_not_due|].
    apply not_due_unless. intros f ps Hfe Hps. unfold GetFeedByID in Hg. by rewrite Hfe, Hps in Hg.
  - destruct (ps_next_check_at (feed_ps f)) as [t|] eqn:Ht.
    + destruct (time_after t now) eqn:Ha; [|by eapply Hset in H; [|apply error_next_pos]].
      injection H as <- <-. split; [done|]. rewrite Hd.
      destruct Hcase as [Hn|Hg]; [intros ???; by apply next_ok_not_due|].
      intros ???. apply next_ok_not_due. unfold GetFeedByID in Hg. intros ps Hps. rewrite Hps in Hg.
      destruct (fd_feeds _ !! id); [|done]. injection Hg as ->. exists t. split; [exact Ht|].
      unfold time_after in Ha. bool_to_prop. lia.
    + by eapply Hset in H; [|apply error_next_pos].
Qed.

(** * Properties *)

(** C1: every exit of a poll leaves the feed not due.  Without storage faults,
    when a worker has polled a feed, either the deferral it returns ends in the
    future, or no due query at the time the poll started lists the feed:
    its next check is later, or it is paused, inbound, unsubscribed or gone.
    This holds for success, deferral and every kind of failure, on the
    assumptions that a poll window never opens before the moment asked about,
    that cached windows come from the parser, and that the fetcher does not
    return the refresher's own error types. *)
Theorem process_poll_not_due (wcfg : WCfg) (start now elapsed id : Z) (w w' : World) (r : deferral)
    (Hfaults : w_faults w = []) (Hlimiter : limiter_ok (m_hosts (w_mem w))) (Hhours : hours_ok (w_mem w))
    (Hkey : ∀ i f, fd_feeds (db_feeds (w_db w)) !! i = Some f → f_id f = i)
    (Hmin : 0 < wc_MinPollInterval wcfg) (Hstart : start <= now)
    (Hrun : processPollFeed wcfg start now elapsed id w = (w', r)) :
  match r with
  | DeferNone => ∀ limit ex exT, id ∉ df_id <$> ListFeedsDue start (db_feeds (w_db w')) limit ex exT
  | DeferFeed until | DeferBridge until => now < until
  end.
Proof.
  unfold processPollFeed in Hrun. apply bind_run in Hrun as (w1 & f & H1 & H).
  rewrite call_ok in H1 by done. cbn [fst snd] in H1. injection H1 as <- <-. set (w1 := mkWorld _ _ _ _) in H.
  destruct (GetFeedByID (db_feeds (w_db w)) id) as [er|f] eqn:Hg.
  { injection H as <- <-. apply not_due_unless. intros f ps Hf Hps. unfold GetFeedByID in Hg.
    cbn [w_db w1] in *. by rewrite Hf, Hps in Hg. }
  unfold GetFeedByID in Hg. destruct (fd_feeds (db_feeds (w_db w)) !! id) as [row|] eqn:Hrow; [|done].
  destruct (fd_poll (db_feeds (w_db w)) !! id) as [ps|] eqn:Hps; [|done]. injection Hg as <-.
  destruct (FeedPollingBlocked _) eqn:Hb.
  { injection H as <- <-. apply not_due_unless. intros f' ps' Hf' Hps'. cbn [w_db w1] in *.
    rewrite Hrow in Hf'. rewrite Hps in Hps'. simplify_eq. unfold FeedPollingBlocked in Hb. cbn [feed_row feed_ps] in Hb.
    unfold pollable. destruct (f_manual_paused f'), (ps_poll_paused ps'), (String.eqb (f_type f') "inbound"); done. }
  apply bind_run in H as (w2 & res & H2 & H).
  apply refresh_next in H2 as [Hf2 H2]; [|done..]. cbn [feed_row] in H2. rewrite (Hkey _ _ Hrow) in H2.
  destruct res as [e|n]; [|injection H as <- <-; intros ???; by apply next_ok_not_due].
  destruct (RetryAt (Some e)) as [at_|].
  - eapply (defer_poll_ok start); [exact Hf2|exact Hstart| |exact H].
    intros Hp. destruct H2 as [?|[Hno _]]; [done|congruence].
  - destruct (settle_failure_ok wcfg start now id e w2 w' r) as [-> Hd]; [done..| |done|done].
    destruct H2 as [?|[_ ?]]; auto.
Qed.
End Poll_lemmas.

(** ** The dispatcher *)

Lemma starts_since ids now p : NoDup ids → ∀ id, id ∈ ids →
  ifl_since (foldl (λ p id, ifl_start p id now) p ids) id = Some now.
Proof.
  assert (∀ ids p id, id ∉ ids → polls (foldl (λ p id, ifl_start p id now) p ids) !! id = polls p !! id) as Hother.
  { clear. induction ids as [|i ids IH]; intros p id Hn; [done|]. cbn [foldl].
    apply not_elem_of_cons in Hn as [Hne Hn]. rewrite IH by done. unfold ifl_start. simpl.
    by rewrite lookup_insert_ne. }
  revert p. induction ids as [|i ids IH]; intros p Hnd id Hin; [by apply elem_of_nil in Hin|].
  apply NoDup_cons in Hnd as [Hi Hnd]. cbn [foldl]. apply elem_of_cons in Hin as [->|Hin]; [|by apply IH].
  unfold ifl_since. rewrite Hother by done. unfold ifl_start. simpl. rewrite lookup_insert_eq.
  simpl. reflexivity.
Qed.

Lemma idleWait_bounds now next tick :
  Z.min tick second <= idleWait now next tick <= Z.max tick second ∧
  (∀ t, next = Some t → second < idleWait now next tick → now + idleWait now next tick <= t).
Proof.
  unfold idleWait. split.
  - destruct next as [t|]; lia.
  - intros t -> Hd. assert (time_sub t now <= t - now ∨ time_sub t now = min_int64) as [Hs|Hs].
    { unfold time_sub, max_int64, min_int64 in *. repeat case_match; bool_to_prop; lia. }
    + lia.
    + rewrite Hs in *. unfold min_int64, second in *. lia.
Qed.

Lemma sooner_spec next resume :
  (∀ t, next = Some t → ∃ v, sooner next resume = Some v ∧ v <= t) ∧
  (∀ t, resume = Some t → ∃ v, sooner next resume = Some v ∧ v <= t).
Proof.
  unfold sooner, time_before. destruct next as [x|], resume as [y|]; split; intros t [= <-];
    try destruct (Z.ltb_spec y x); eexists; (split; [done|lia]).
Qed.

Lemma resume_at_spec a b :
  (∀ t, a = Some t → ∃ v, resume_at a b = Some v ∧ v <= t) ∧
  (∀ t, b = Some t → ∃ v, resume_at a b = Some v ∧ v <= t).
Proof.
  unfold resume_at, time_before. destruct a as [x|], b as [y|]; split; intros t [= <-];
    try destruct (Z.ltb_spec y x); eexists; (split; [done|lia]).
Qed.

(** What an exclusion and its resume time say of the paused keys. *)
Lemma unlisted_not_paused `{Countable K} (p : gmap K Z) now id :
  id ∉ (dp_active p now).1.1 → dp_paused_until p id now = None.
Proof.
  intros Hn. pose proof (dp_active_spec p now) as Hp. destruct (dp_active p now) as [[ids r] p'].
  destruct Hp as (Hids & _). destruct (dp_paused_until p id now) eqn:E; [|done].
  destruct Hn. apply Hids. by eexists.
Qed.

Lemma resumes_after `{Countable K} (p : gmap K Z) now t :
  (∀ r, (dp_active p now).1.2 = Some r → t <= r) →
  ∀ id u, dp_paused_until p id now = Some u → t <= u.
Proof.
  intros Ht id u Hu. pose proof (dp_active_spec p now) as Hp.
  destruct (dp_active p now) as [[ids r] p']. destruct Hp as (Hids & _ & Hr). destruct r as [r|].
  - destruct Hr as (_ & _ & Hr). specialize (Hr id u Hu). specialize (Ht r eq_refl). lia.
  - exfalso. assert (id ∈ ids) as Hin by (apply Hids; by eexists). rewrite Hr in Hin. by apply elem_of_nil in Hin.
Qed.

(** A wait of more than a second ends at or before what it waits for. *)
Lemma long_wait_spec now tick next r1 r2 :
  let d := idleWait now (sooner next (resume_at r1 r2)) tick in
  second < d → ∀ t, next = Some t ∨ r1 = Some t ∨ r2 = Some t → now + d <= t.
Proof.
  intros d Hd t Ht. destruct (idleWait_bounds now (sooner next (resume_at r1 r2)) tick) as [_ Hw].
  destruct (sooner_spec next (resume_at r1 r2)) as [Hnext Hres].
  destruct (resume_at_spec r1 r2) as [H1 H2].
  assert (∃ v, sooner next (resume_at r1 r2) = Some v ∧ v <= t) as (v & Hv & Hvt).
  { destruct Ht as [Ht|Ht]; [by apply Hnext|].
    assert (∃ x, resume_at r1 r2 = Some x ∧ x <= t) as (x & Hx & Hxt)
      by (destruct Ht; [by apply H1|by apply H2]).
    destruct (Hres x Hx) as (v & Hv & Hvx). exists v. split; [done|lia]. }
  specialize (Hw v Hv Hd). unfold d. lia.
Qed.

Lemma nothing_due_before now t db limit ex exT t1 : 0 < limit → now <= t < t1 →
  (∀ m, NextFeedDueAt now db ex exT = Some m → t1 <= m) → ListFeedsDue t db limit ex exT = [].
Proof.
  intros Hl Ht Hm. destruct (ListFeedsDue t db limit ex exT) as [|x xs] eqn:E; [done|exfalso].
  destruct (proj1 (due_at_iff now t db limit ex exT Hl ltac:(lia))) as (m & Hnm & Hmt); [by rewrite E|].
  specialize (Hm m Hnm). lia.
Qed.

Lemma starts_due (due : list DueFeed) claimedAt infl :
  foldl (λ p d, ifl_start p (df_id d) claimedAt) infl due
  = foldl (λ p id, ifl_start p id claimedAt) infl (df_id <$> due).
Proof. revert infl. induction due as [|d due IH]; intros infl; [done|]. apply IH. Qed.

Lemma ready_split now db ex exT id f ps : feed_ready now db ex exT id f ps →
  feed_ready now db [] [] id f ps ∧ id ∉ ex ∧ f_type f ∉ exT.
Proof. intros []. split; [|done]. split; try done; apply not_elem_of_nil. Qed.

(** C9: one round of the dispatcher.  A round hands out only feeds that are due
    and pollable, each once, at most the free places and the pool size; none of
    them is deferred or of a deferred bridge, none has a poll in flight that the round still
    counts as running (verdict [Keep]: within the time a poll is given), and each is in
    flight afterwards.  A poll older than that is given up as stuck, and its feed may be
    handed out again while it runs.  A round that hands out nothing waits between the floor
    and the tick, and if it waits longer than a second, nothing it excluded
    resumes and no other feed becomes due before the timer fires: the
    dispatcher does not oversleep a poll. *)
Theorem dispatch_round_spec (wcfg : WCfg) (now claimedAt room : Z) (db : FeedDb) (s : Dispatcher)
    (Hactive : di_paused s = false) (Hroom : 0 < room) (Hpool : 0 < wc_PoolSize wcfg) :
  match dispatch_round wcfg now claimedAt room db s with
  | (s', Claimed due) =>
      due ≠ [] ∧ NoDup (df_id <$> due) ∧ Z.of_nat (length due) <= Z.min (wc_PoolSize wcfg) room ∧
      ∀ d, d ∈ due →
        (∃ f ps, fd_feeds db !! df_id d = Some f ∧ fd_poll db !! df_id d = Some ps ∧
           feed_ready now db [] [] (df_id d) f ps) ∧
        (∀ e, polls (di_inflight s) !! df_id d = Some e → ifl_verdict (di_inflight s) now e ≠ Keep) ∧
        dp_paused_until (di_feeds s) (df_id d) now = None ∧
        dp_paused_until (di_bridges s) (df_type d) now = None ∧
        ifl_since (di_inflight s') (df_id d) = Some claimedAt
  | (s', Wait d) =>
      Z.min (wc_SchedulerTick wcfg) second <= d <= Z.max (wc_SchedulerTick wcfg) second ∧
      (second < d →
       (∀ id u, dp_paused_until (di_feeds s) id now = Some u → now + d <= u) ∧
       (∀ b u, dp_paused_until (di_bridges s) b now = Some u → now + d <= u) ∧
       ∀ t limit, 0 < limit → now <= t < now + d →
         ListFeedsDue t db limit ((ifl_exclude (di_inflight s) now).1 ++ (dp_active (di_feeds s) now).1.1)
           (dp_active (di_bridges s) now).1.1 = [])
  end.
Proof.
  unfold dispatch_round. rewrite Hactive. rewrite (proj2 (Z.leb_gt room 0)) by done.
  pose proof (ifl_exclude_elem (di_inflight s) now) as Hrun.
  pose proof (unlisted_not_paused (di_feeds s) now) as Hf. pose proof (resumes_after (di_feeds s) now) as Hfr.
  pose proof (unlisted_not_paused (di_bridges s) now) as Hb. pose proof (resumes_after (di_bridges s) now) as Hbr.
  destruct (ifl_exclude (di_inflight s) now) as [running infl].
  destruct (dp_active (di_feeds s) now) as [[deferred resume] feeds].
  destruct (dp_active (di_bridges s) now) as [[bridges bresume] brs]. cbn [fst snd] in *.
  pose proof (ListFeedsDue_sound now db (Z.min (wc_PoolSize wcfg) room) (running ++ deferred) bridges)
    as (Hnd & Hlen & Hsound).
  destruct (ListFeedsDue now db (Z.min (wc_PoolSize wcfg) room) (running ++ deferred) bridges)
    as [|d0 due0] eqn:Hdue.
  - split; [apply idleWait_bounds|]. intros Hd.
    pose proof (long_wait_spec now (wc_SchedulerTick wcfg) (NextFeedDueAt now db (running ++ deferred) bridges)
      resume bresume Hd) as Hw.
    split; [apply Hfr; auto|]. split; [apply Hbr; auto|]. intros t limit Hlimit Ht.
    eapply nothing_due_before; [done|exact Ht|auto].
  - rewrite <-Hdue in *. set (due := ListFeedsDue _ _ _ _ _) in *.
    split; [by rewrite Hdue|]. split; [done|]. split; [lia|]. intros d Hd.
    destruct (Hsound d Hd) as (f & ps & Hfe & Hps & (Hnow & Hex & HexT)%due_now_ready%ready_split & Heq).
    rewrite elem_of_app in Hex. split; [by exists f, ps|]. split; [|split; [|split]].
    + intros e He Hk. apply Hex. left. apply Hrun. by exists e.
    + apply Hf. tauto.
    + apply Hb. by rewrite Heq.
    + cbn [di_inflight]. rewrite starts_due. apply starts_since; [done|]. by apply list_elem_of_fmap_2.
Qed.

(** * Witnesses *)

Lemma wit_zone_open f w t : pw_wf w → t <= pw_next_open (@zone (wit_env f)) w t.
Proof. intros Hw. by apply (fixed_zone_open (λ _, 0) 0 w t (λ _, eq_refl)). Qed.

Lemma wit_feed_key f : ∀ i r, fd_feeds (db_feeds (w_db (wit_world f))) !! i = Some r → f_id r = i.
Proof. intros i r H. cbn in H. by apply lookup_singleton_Some in H as [<- <-]. Qed.

Lemma wit_hours f : hours_ok (w_mem (wit_world f)).
Proof. intros id it w H. cbn in H. by rewrite lookup_empty in H. Qed.

Definition wit_wcfg : WCfg := mkWCfg 4 (10 * second) minute (24 * hour).

Definition wit_poll (f : FetchRequest → FetchResponse * option err) : @World (wit_env f) * deferral :=
  processPollFeed (env := wit_env f) wit_wcfg 1000 2000 5 7 (wit_world f).

Lemma process_poll_not_due_witness :
  df_id <$> ListFeedsDue 1000 wit_feed_db 5 [] [] = [7] ∧
  7 ∉ df_id <$> ListFeedsDue 1000 (db_feeds (w_db (wit_poll fetch_down).1)) 5 [] [].
Proof.
  split; [reflexivity|].
  refine (process_poll_not_due (env := wit_env fetch_down) (wit_zone_open fetch_down) _ wit_wcfg 1000 2000 5 7
    (wit_world fetch_down) (wit_poll fetch_down).1 DeferNone eq_refl (wit_limiter_ok fetch_down)
    (wit_hours fetch_down) (wit_feed_key fetch_down) _ _ _ 5 [] []).
  - intros rq res e [= <- <-]. by split.
  - vm_compute. reflexivity.
  - lia.
  - apply pair_run. vm_compute. reflexivity.
Defined.

Lemma dispatch_round_spec_witness :
  let s := mkDispatcher false (ifl_init 0 second) {[ 8 := 100 * second ]} ∅ in
  ∃ s' due, dispatch_round wit_wcfg 60 61 3 wit_feed_db s = (s', Claimed due) ∧
    NoDup (df_id <$> due) ∧ Z.of_nat (length due) <= 3.
Proof.
  intros s. eexists _, _. split; [reflexivity|].
  destruct (dispatch_round_spec wit_wcfg 60 61 3 wit_feed_db s eq_refl) as (_ & Hnd & Hlen & _);
    [lia|vm_compute; reflexivity|]. split; [exact Hnd|]. exact Hlen.
Defined.
