(* ===== verification/WebhookWorker.v ===== *)
(** The webhook workers ([worker/webhooks.go], [worker/webhook_digest.go] and
    the wait of [worker/webhook_flood.go]): the delivery of one log row or of
    one digest, the retry schedule, the on-success actions and the grouping of
    claimed rows into digests.  A delivery runs in the monad of [Refresher.v],
    so any storage call may fail.  Building a payload, the network and the JSON
    of the providers are parameters. *)

From stdpp Require Import pretty.
From S2P Require Import Prelude GoStrings PollSchedule PollWindow Types Inflight DuePauses.
From S2P Require Import HostLimiter TtlCache FilterEngine FeedStore WebhookStore EntryStore.
From S2P Require Import PollLog FeedRules Refresher PollFrames RefresherSpec.

(** * Definitions *)

(** storage/webhook_delivery.go [WebhookDeliveryContext] *)
Record WebhookDeliveryContext := mkDelivery {
  dc_webhook : Webhook; dc_entry : EntryRow; dc_feed : FeedRow;
}.

Record WebhookRequest := mkRequest { wq_method : string; wq_url : string; wq_body : string }.

(** What the network answers: a transport error, or a status with its body
    (cut to 2048 bytes) and [Retry-After] header. *)
Inductive HttpResult := TransportError (msg : string) | Response (code : Z) (body retry_after : string).

(** What a delivery takes from outside the model. *)
Class HookEnv := {
  prepare : WebhookDeliveryContext → string + WebhookRequest;          (* payload, template, outbound *)
  prepare_digest : Webhook → list WebhookDeliveryContext → string + WebhookRequest;
  ssrf_refuses : string → option string;                               (* SSRFGuard.ValidateURL *)
  request_error : WebhookRequest → option string;                      (* http.NewRequest *)
  http_do : WebhookRequest → HttpResult;
  redact_text : string → string;
  decode_telegram : string → option (bool * string);                   (* ok, description *)
  decode_max : string → option (bool * string);                        (* success, detail *)
  json_retry_after : string → option Z;
  parse_seconds : string → option Z;
  parse_http_time : string → option Z;
  rand_int64 : Z → Z;                                                  (* rand.Int64N *)
}.

(** worker/runner.go [Config] The webhook settings. *)
Record HookCfg := mkHookCfg {
  hc_MaxAttempts : Z; hc_RetryBase : Z; hc_RetryMax : Z; hc_DedupOnly : bool;
}.

Definition webhookDisabledPark : Z := 60 * second.
Definition webhookDigestMaxItems : Z := 200.

(** worker/webhooks.go [webhookHTTPRetryable] *)
Definition webhookHTTPRetryable (code : Z) : bool :=
  if (code =? 408) || (code =? 429) then true else 500 <=? code.

(** worker/webhooks.go:502-509 [webhookBackoffWithJitter, the doubling loop] [fuel]
    iterations; the loop runs [attempt - 1] times at most. *)
Fixpoint backoff_double (fuel : nat) (d max : Z) : Z :=
  match fuel with
  | O => d
  | S fuel => if (Z.quot max 2 <? d) && (0 <? max) then max
              else backoff_double fuel (wrap64 (d * 2)) max
  end.

(** worker/webhooks.go [webhookBackoffWithJitter] [rand] is [rand.Int64N]. *)
Definition webhookBackoffWithJitter (rand : Z → Z) (attempt base max : Z) : Z :=
  let attempt := if attempt <=? 0 then 1 else attempt in
  let base := if base <=? 0 then second else base in
  let d := backoff_double (Z.to_nat (attempt - 1)) base max in
  let d := if (0 <? max) && (max <? d) then max else d in
  let half := Z.quot d 2 in
  if half <=? 0 then d else wrap64 (d + rand half).

(** worker/webhooks.go [reservedWebhookHeaders] *)
Definition reservedWebhookHeaders : list string :=
  ["Host"; "Content-Length"; "Transfer-Encoding"; "Connection"; "Keep-Alive"; "Upgrade"; "Te";
   "Trailer"; "Proxy-Connection"; "X-Rssam-Signature"]%string.

(** worker/webhooks.go [isReservedWebhookHeader] [canonical] is
    [http.CanonicalHeaderKey]. *)
Definition isReservedWebhookHeader (canonical : string → string) (name : string) : bool :=
  bool_decide (canonical name ∈ reservedWebhookHeaders).

(** worker/webhooks.go:427-438 [setWebhookHeaders, the loop body] *)
Definition header_step (canonical : string → string) (hs : gmap string string) (k v : string)
    : gmap string string :=
  let k := trim_space k in
  if String.eqb k "" || isReservedWebhookHeader canonical k then hs
  else if has_byte (Ascii.ascii_of_nat 13) v || has_byte (Ascii.ascii_of_nat 10) v then hs
  else <[canonical k := v]> hs.

(** worker/webhooks.go [setWebhookHeaders] On the decoded header map, in the order
    Go ranges over it; [None] is an empty or malformed document. *)
Definition setWebhookHeaders (canonical : string → string) (headers : gmap string string)
    (raw : option (list (string * string))) : gmap string string :=
  match raw with
  | None => headers
  | Some m =>
      foldl (λ hs '(k, v), header_step canonical hs k v) headers m
  end.

Section Delivery.
Context `{env : Env} `{henv : HookEnv}.
Context (hcfg : HookCfg).

(** storage/webhook_outbound.go [ProviderDeliveryOK] *)
Definition ProviderDeliveryOK (kind : string) (code : Z) (snippet : string) : bool * string :=
  let kind := default "" (NormalizeWebhookKind kind) in
  if (code <? 200) || (299 <? code) then (false, "non-2xx status: " +:+ pretty code)
  else if String.eqb kind "telegram" then
    match decode_telegram snippet with
    | None => (false, "telegram: invalid JSON response")
    | Some (true, _) => (true, "")
    | Some (false, d) =>
        let msg := trim_space d in
        (false, if String.eqb msg "" then "telegram: ok=false" else msg)
    end
  else if String.eqb kind "max" then
    match decode_max snippet with
    | None => (false, "max: invalid JSON response")
    | Some (true, _) => (true, "")
    | Some (false, d) =>
        let msg := trim_space d in
        (false, if String.eqb msg "" then "max: success=false" else msg)
    end
  else (true, "").

(** worker/webhooks.go [Runner.webhookRetrySchedule] The retry time and
    whether the row is dead. *)
Definition webhookRetrySchedule (now attempt : Z) : option Z * bool :=
  let maxAttempts := if hc_MaxAttempts hcfg <=? 0 then 10 else hc_MaxAttempts hcfg in
  if maxAttempts <=? attempt then (None, true)
  else
    let base := if hc_RetryBase hcfg <=? 0 then 5 * second else hc_RetryBase hcfg in
    let max := if hc_RetryMax hcfg <=? 0 then hour else hc_RetryMax hcfg in
    (Some (time_add now (webhookBackoffWithJitter rand_int64 attempt base max)), false).

(** storage/webhook_delivery.go [PostgresStore.LoadWebhookDeliveryContext] *)
Definition LoadWebhookDeliveryContext (d : Db) (logID : Z) : err + WebhookDeliveryContext :=
  match (l ← hd_logs (db_hooks d) !! logID;
         w ← hd_webhooks (db_hooks d) !! wl_webhook_id l;
         e ← ed_entries (db_entries d) !! wl_entry_id l;
         f ← fd_feeds (db_feeds d) !! er_feed_id e;
         Some (mkDelivery w e f)) with
  | Some c => inr c
  | None => inl ENotFound
  end.

Definition reached {A} (r : err + A) : bool := match r with inl _ => false | inr _ => true end.

(** worker/webhooks.go [markedDelivery.MarkWebhookLogSent] Returns [stored]. *)
Definition mark_sent (logID attempt code : Z) (snippet : string) : M bool :=
  r ← call_ (λ d, (set_db_hooks d (MarkWebhookLogSent (db_hooks d) logID attempt code snippet), tt));
  mret (reached r).

(** worker/webhooks.go [markedDelivery.MarkWebhookLogFailed] Returns [stored]. *)
Definition mark_failed (logID : Z) (code : option Z) (errMsg snippet : string) (attempt : Z)
    (next : option Z) (dead : bool) : M bool :=
  r ← call_ (λ d, (set_db_hooks d
        (MarkWebhookLogFailed (db_hooks d) logID code errMsg snippet attempt next dead), tt));
  mret (reached r).

(** worker/webhooks.go [Runner.recordWebhookFailure] *)
Definition recordWebhookFailure (now logID attempt : Z) (code : option Z) (errMsg snippet : string)
    (retryable : bool) : M bool :=
  let '(next, dead) := if retryable then webhookRetrySchedule now attempt else (None, true) in
  mark_failed logID code errMsg snippet attempt next dead.

(** worker/webhooks.go [Runner.applyOnSuccessEntry] *)
Definition applyOnSuccessEntry (now entryID logID : Z) (w : Webhook) (feedMode : string) : M unit :=
  if hc_DedupOnly hcfg || String.eqb feedMode "relay" then
    _ ← call_ (λ d, let '(e, gone) := DeleteRelayEntryAfterWebhook dedup_key (db_hooks d) (db_entries d)
                                       entryID logID in (set_db_entries d e, gone));
    mret tt
  else
    let thisAction := default "none" (NormalizeWebhookOnSuccess (wh_on_success_entry w)) in
    _ ← (if String.eqb thisAction "mark_read" then
           _ ← call_ (λ d, (set_db_entries d (MarkEntryReadIfActive (db_entries d) (wh_user_id w) entryID), tt));
           mret tt
         else mret (M := M) tt);
    r ← call_ (λ d, (d, EntryWebhookOutcome (db_hooks d) entryID logID));
    match r with
    | inl _ => mret tt
    | inr (incomplete, resolved) =>
        if 0 <? incomplete then mret tt
        else
          let action := MergeOnSuccessActions [thisAction; resolved] in
          if String.eqb action "hash" then
            _ ← call (λ d, let '(e, r) := StripEntryPayloadAfterWebhook dedup_key now (db_entries d) entryID in
                           (set_db_entries d e, match r with Some e => inl e | None => inr tt end));
            mret tt
          else if String.eqb action "delete" then
            _ ← call_ (λ d, (set_db_entries d
                  (MarkEntryRemovedKeepPayload (db_entries d) (wh_user_id w) entryID), tt));
            mret tt
          else mret tt
    end.

(** worker/webhooks.go [Runner.deliverWebhookLog] Whether the last status
    write reached the database ([processWebhookLog]'s answer), and the moment
    [floodPause] parks the webhook until. *)
Definition deliverWebhookLog (now : Z) (l : WLog) : M (bool * option Z) :=
  let attempt := wl_attempt l + 1 in
  let done_ (m : M bool) : M (bool * option Z) := s ← m; mret (s, None) in
  ctx ← call (λ d, (d, LoadWebhookDeliveryContext d (wl_id l)));
  match ctx with
  | inl e =>
      if err_is_not_found e then
        done_ (mark_failed (wl_id l) None "delivery context not found" "" attempt None true)
      else done_ (recordWebhookFailure now (wl_id l) attempt None (err_text e) "" true)
  | inr c =>
      let w := dc_webhook c in
      if negb (wh_enabled w) then
        done_ (mark_failed (wl_id l) None "webhook is disabled" "" (wl_attempt l)
                 (Some (time_add now webhookDisabledPark)) false)
      else match prepare c with
      | inl msg => done_ (mark_failed (wl_id l) None msg "" attempt None true)
      | inr rq =>
          match ssrf_refuses (wq_url rq), request_error rq with
          | Some msg, _ => done_ (mark_failed (wl_id l) None msg "" attempt None true)
          | None, Some msg => done_ (recordWebhookFailure now (wl_id l) attempt None msg "" true)
          | None, None =>
              match http_do rq with
              | TransportError msg => done_ (recordWebhookFailure now (wl_id l) attempt None msg "" true)
              | Response code body retry =>
                  let snippet := redact_text body in
                  let '(ok, failMsg) := ProviderDeliveryOK (wh_kind w) code snippet in
                  if ok then
                    s ← mark_sent (wl_id l) attempt code "";
                    _ ← applyOnSuccessEntry now (wl_entry_id l) (wl_id l) w (f_store_mode (dc_feed c));
                    mret (s, None)
                  else if code =? 429 then
                    let next := time_add now (retryAfterOf json_retry_after parse_seconds parse_http_time
                                                retry snippet now) in
                    s ← mark_failed (wl_id l) (Some code) failMsg snippet (wl_attempt l) (Some next) false;
                    mret (s, Some next)
                  else
                    let retryable := webhookHTTPRetryable code && ((code <? 200) || (299 <? code)) in
                    done_ (recordWebhookFailure now (wl_id l) attempt (Some code) failMsg snippet retryable)
              end
          end
      end
  end.

(** ** Digests *)

Definition add_peers (c : ClaimedLog) (ids : list Z) : ClaimedLog :=
  mkClaimed (cl_log c) (cl_digest_minutes c) (cl_peers c ++ ids).

(** worker/webhook_digest.go:38-50 [Runner.groupDigestLogs, the loop body]
    The rows so far and the index of each webhook's carrier. *)
Definition group_step (acc : list ClaimedLog * gmap Z nat) (c : ClaimedLog)
    : list ClaimedLog * gmap Z nat :=
  let '(out, carriers) := acc in
  let l := cl_log c in
  if cl_digest_minutes c <=? 0 then (out ++ [c], carriers)
  else match carriers !! wl_webhook_id l with
       | Some i => (alter (λ o, add_peers o [wl_id l]) i out, carriers)
       | None => (out ++ [mkClaimed l (cl_digest_minutes c) [wl_id l]],
                  <[wl_webhook_id l := length out]> carriers)
       end.

(** worker/webhook_digest.go:55-65 [Runner.groupDigestLogs, the peers of the carriers]
    Go ranges over the carriers in any order; each only reads and extends its
    own row. *)
Fixpoint claim_peers (now : Z) (out : list ClaimedLog) : M (list ClaimedLog) :=
  match out with
  | [] => mret []
  | c :: out =>
      c' ← (if cl_digest_minutes c <=? 0 then mret (M := M) c
            else
              r ← call_ (λ d, (d, ClaimWebhookDigestPeers now (db_hooks d) (wl_webhook_id (cl_log c))
                                    (cl_peers c) (webhookDigestMaxItems - Z.of_nat (length (cl_peers c)))));
              mret (match r with
                    | inl _ => c
                    | inr more => add_peers c (wl_id <$> more)
                    end));
      out' ← claim_peers now out;
      mret (c' :: out')
  end.

(** worker/webhook_digest.go [Runner.groupDigestLogs] *)
Definition groupDigestLogs (now : Z) (logs : list ClaimedLog) : M (list ClaimedLog) :=
  claim_peers now (foldl group_step ([], ∅) logs).1.

(** worker/webhook_digest.go [markedDigest.MarkWebhookLogsFailed] *)
Definition marks_failed (ids : list Z) (code : option Z) (errMsg snippet : string)
    (next : option Z) (dead countAttempt : bool) : M bool :=
  r ← call_ (λ d, (set_db_hooks d
        (MarkWebhookLogsFailed (db_hooks d) ids code errMsg snippet next dead countAttempt), tt));
  mret (reached r).

(** worker/webhook_digest.go [markedDigest.MarkWebhookLogsSent] *)
Definition marks_sent (ids : list Z) (code : Z) (snippet : string) : M bool :=
  r ← call_ (λ d, (set_db_hooks d (MarkWebhookLogsSent (db_hooks d) ids code snippet), tt));
  mret (reached r).

(** worker/webhook_digest.go [Runner.digestFailure] *)
Definition digestFailure (now : Z) (ids : list Z) (attempt : Z) (code : option Z)
    (errMsg snippet : string) (retryable : bool) : M bool :=
  let '(next, dead) := if retryable then webhookRetrySchedule now attempt else (None, true) in
  marks_failed ids code errMsg snippet next dead true.

(** storage/webhook_digest.go [PostgresStore.LoadWebhookDigestContext] With the
    log of each item; the order by title is left to the message builder. *)
Definition LoadWebhookDigestContext (d : Db) (webhookID : Z) (ids : list Z)
    : err + Webhook * list (Z * WebhookDeliveryContext) :=
  match hd_webhooks (db_hooks d) !! webhookID with
  | None => inl (EWrap "load digest webhook" ENotFound)
  | Some w =>
      inr (w, omap (λ i, l ← hd_logs (db_hooks d) !! i;
                         e ← ed_entries (db_entries d) !! wl_entry_id l;
                         f ← fd_feeds (db_feeds d) !! er_feed_id e;
                         Some (i, mkDelivery w e f)) (remove_dups ids))
  end.

(** worker/webhook_digest.go [Runner.deliverWebhookDigest] As
    [deliverWebhookLog], for the rows of one carrier. *)
Definition deliverWebhookDigest (now : Z) (c : ClaimedLog) : M (bool * option Z) :=
  let l := cl_log c in
  let ids := match cl_peers c with [] => [wl_id l] | ids => ids end in
  let attempt := wl_attempt l + 1 in
  let done_ (m : M bool) : M (bool * option Z) := s ← m; mret (s, None) in
  ctx ← call (λ d, (d, LoadWebhookDigestContext d (wl_webhook_id l) ids));
  match ctx with
  | inl e => done_ (digestFailure now ids attempt None (err_text e) "" true)
  | inr (w, items) =>
      if negb (wh_enabled w) then
        done_ (marks_failed ids None "webhook is disabled" "" (Some (time_add now webhookDisabledPark))
                 false false)
      else match items with
      | [] => done_ (marks_failed ids None "entries not found" "" None true true)
      | _ =>
          match prepare_digest w items.*2 with
          | inl msg => done_ (marks_failed ids None msg "" None true true)
          | inr rq =>
              match ssrf_refuses (wq_url rq), request_error rq with
              | Some msg, _ => done_ (marks_failed ids None msg "" None true true)
              | None, Some msg => done_ (digestFailure now ids attempt None msg "" true)
              | None, None =>
                  match http_do rq with
                  | TransportError msg => done_ (digestFailure now ids attempt None msg "" true)
                  | Response code body retry =>
                      let snippet := redact_text body in
                      let '(ok, failMsg) := ProviderDeliveryOK (wh_kind w) code snippet in
                      if ok then
                        s ← marks_sent ids code snippet;
                        _ ← for_each items (λ '(logID, it),
                              applyOnSuccessEntry now (er_id (dc_entry it)) logID w
                                (f_store_mode (dc_feed it)));
                        mret (s, None)
                      else if code =? 429 then
                        let next := time_add now (retryAfterOf json_retry_after parse_seconds
                                                    parse_http_time retry snippet now) in
                        s ← marks_failed ids (Some code) failMsg snippet (Some next) false false;
                        mret (s, Some next)
                      else
                        let retryable := webhookHTTPRetryable code && ((code <? 200) || (299 <? code)) in
                        done_ (digestFailure now ids attempt (Some code) failMsg snippet retryable)
                  end
              end
          end
      end
  end.

(** ** The loops *)

Record HookDispatcher := mkHookDispatcher {
  hk_inflight : inflightPolls;       (* inflightHooks *)
  hk_paused : gmap Z Z;              (* pausedHooks *)
}.

(** worker/webhooks.go [Runner.webhookWorkerLoop] One message: the delivery,
    then the webhook freed at once or after the grace period. *)
Definition webhookWorker (now doneAt : Z) (c : ClaimedLog) (s : HookDispatcher) : M HookDispatcher :=
  r ← (if 0 <? cl_digest_minutes c then deliverWebhookDigest now c else deliverWebhookLog now (cl_log c));
  let '(stored, pause) := r in
  let w := wl_webhook_id (cl_log c) in
  let paused := match pause with Some u => dp_pause (hk_paused s) w u | None => hk_paused s end in
  mret (mkHookDispatcher
          (if (stored : bool) then ifl_forget (hk_inflight s) w else ifl_done (hk_inflight s) w doneAt)
          paused).
End Delivery.

(** * Lemmas *)

Lemma backoff_double_spec n d max :
  0 < d → d <= 2 ^ 62 → 0 < max → max <= 2 ^ 62 →
  Z.min max (backoff_double n d max) = Z.min max (d * 2 ^ Z.of_nat n) ∧
  0 < backoff_double n d max <= 2 ^ 62.
Proof.
  revert d. induction n as [|n IH]; intros d Hd Hd2 Hm Hm2; cbn [backoff_double].
  - change (2 ^ Z.of_nat 0) with 1. rewrite Z.mul_1_r. lia.
  - assert (2 ^ Z.of_nat (S n) = 2 * 2 ^ Z.of_nat n) as Hp
      by (rewrite Nat2Z.inj_succ; apply Z.pow_succ_r; lia).
    assert (1 <= 2 ^ Z.of_nat n) by (apply (Z.pow_le_mono_r 2 0); lia).
    rewrite (proj2 (Z.ltb_lt 0 max)) by done. rewrite andb_true_r.
    rewrite Z.quot_div_nonneg by lia. destruct (Z.ltb_spec (max / 2) d) as [Hlt|Hge].
    + assert (max < 2 * d) by (Z.to_euclidean_division_equations; lia).
      rewrite Hp. split; [|lia]. rewrite !Z.min_l; [done|nia|lia].
    + assert (2 * d <= max) by (Z.to_euclidean_division_equations; lia).
      rewrite wrap64_id by (unfold in64; assert (2 ^ 63 = 2 * 2 ^ 62) by reflexivity; lia).
      destruct (IH (d * 2)) as [H1 H2]; [lia..|]. rewrite H1, Hp. split; [f_equal; ring|done].
Qed.

(** What only an undisputed on-success action may change. *)
Definition spared (d d' : Db) : Prop :=
  ed_entries (db_entries d') = ed_entries (db_entries d) ∧
  ed_user (db_entries d') = ed_user (db_entries d) ∧ ed_labels (db_entries d') = ed_labels (db_entries d).

#[export] Instance spared_preorder : PreOrder spared.
Proof. split; [by intros ?|]. intros d1 d2 d3 (?&?&?) (?&?&?). unfold spared. repeat split; congruence. Qed.

Section Delivery_lemmas.
Context `{env : Env} `{henv : HookEnv}.
Context (hcfg : HookCfg).

(** Deliveries only write the delivery rows and the tables of the entry. *)
Lemma applyOnSuccess_hooks now e logID w mode :
  respects (λ w w', db_hooks (w_db w') = db_hooks (w_db w)) (applyOnSuccessEntry hcfg now e logID w mode).
Proof.
  assert (PreOrder (λ w w' : World, db_hooks (w_db w') = db_hooks (w_db w))) as Hpre.
  { split; [by intros ?|]. intros w1 w2 w3 H1 H2. congruence. }
  assert (∀ A (op : Db → Db * (err + A)), (∀ d, db_hooks (op d).1 = db_hooks d) →
    respects (λ w w', db_hooks (w_db w') = db_hooks (w_db w)) (call op)) as Hcall.
  { intros A op Hop w0. unfold call. specialize (Hop (w_db w0)).
    destruct (w_faults w0) as [|[] fs]; [|done|]; by destruct (op (w_db w0)). }
  unfold applyOnSuccessEntry. destruct (_ || _).
  { apply respects_bind; [done| |intros; by apply respects_ret]. apply Hcall. intros d.
    by destruct (DeleteRelayEntryAfterWebhook _ _ _ _ _). }
  apply respects_bind; [done| |intros _].
  { destruct (String.eqb _ _); [|by apply respects_ret].
    apply respects_bind; [done| |intros; by apply respects_ret]. by apply Hcall. }
  apply respects_bind; [done|by apply Hcall|]. intros [er|[inc res]]; [by apply respects_ret|].
  destruct (0 <? inc); [by apply respects_ret|]. destruct (String.eqb _ _).
  { apply respects_bind; [done| |intros; by apply respects_ret]. apply Hcall. intros d.
    by destruct (StripEntryPayloadAfterWebhook _ _ _ _). }
  destruct (String.eqb _ _); [|by apply respects_ret].
  apply respects_bind; [done| |intros; by apply respects_ret]. by apply Hcall.
Qed.

(** While another delivery of the entry is open, its row stays as it is. *)
Definition other_open (d : Db) (entryID logID : Z) : Prop :=
  ∃ o w, hd_logs (db_hooks d) !! wl_id o = Some o ∧ wl_entry_id o = entryID ∧ wl_id o ≠ logID ∧
    is_open (wl_status o) = true ∧ hd_webhooks (db_hooks d) !! wl_webhook_id o = Some w.

Lemma outcome_incomplete d entryID logID : other_open d entryID logID →
  0 < (EntryWebhookOutcome (db_hooks d) entryID logID).1.
Proof.
  intros (o & w & Ho & He & Hne & Hopen & Hw). unfold EntryWebhookOutcome. cbn [fst].
  set (rows := omap _ _).
  assert ((o, w) ∈ filter (λ lw : WLog * Webhook, wl_id lw.1 ≠ logID ∧ is_open (wl_status lw.1) = true) rows) as Hin.
  { apply list_elem_of_filter. split; [done|]. unfold rows. apply list_elem_of_omap. exists o. split.
    - apply list_elem_of_fmap. exists (wl_id o, o). split; [done|]. by apply elem_of_map_to_list.
    - rewrite (proj2 (Z.eqb_eq _ _) He). by rewrite Hw. }
  destruct (filter _ rows) as [|x xs]; [by apply elem_of_nil in Hin|]. simpl. lia.
Qed.

Lemma call_spares {A} (op : Db → Db * (err + A)) w w' r :
  spared (w_db w) (op (w_db w)).1 → call op w = (w', r) → spared (w_db w) (w_db w').
Proof.
  intros Hop. unfold call.
  destruct (w_faults w) as [|[] fs]; [|by intros [= <- _]|]; destruct (op (w_db w)); by intros [= <- _].
Qed.

Lemma relay_spares d e logID : other_open d e logID →
  DeleteRelayEntryAfterWebhook dedup_key (db_hooks d) (db_entries d) e logID = (db_entries d, false).
Proof.
  intros (o & wx & Ho & He & Hne & Hopen & _). unfold DeleteRelayEntryAfterWebhook.
  destruct (ed_entries (db_entries d) !! e); [|done].
  rewrite decide_True; [done|]. by exists (wl_id o), o.
Qed.

Lemma applyOnSuccess_spares now e logID wh mode w w' :
  other_open (w_db w) e logID → applyOnSuccessEntry hcfg now e logID wh mode w = (w', tt) →
  spared (w_db w) (w_db w').
Proof.
  intros Hother. unfold applyOnSuccessEntry. destruct (_ || _).
  { intros (w1 & r & H1 & H)%bind_run. injection H as <-. eapply call_spares; [|exact H1].
    cbn beta. by rewrite relay_spares. }
  intros (w1 & [] & H1 & H)%bind_run.
  assert (spared (w_db w) (w_db w1) ∧ db_hooks (w_db w1) = db_hooks (w_db w)) as [Hs Hh].
  { destruct (String.eqb _ _); [|by injection H1 as <-]. apply bind_run in H1 as (w2 & r & H2 & H1).
    injection H1 as <-. split; [by eapply call_spares; [|exact H2]|].
    unfold call_, call in H2. by destruct (w_faults w) as [|[] fs]; injection H2 as <- _. }
  etransitivity; [exact Hs|]. apply bind_run in H as (w2 & r & H2 & H).
  assert (other_open (w_db w1) e logID) as Hother1.
  { destruct Hother as (o & wx & Ho). exists o, wx. by rewrite Hh. }
  destruct r as [er|[inc res]].
  - injection H as <-. by eapply call_spares; [|exact H2].
  - apply call__inr in H2 as [E2 Hout]. cbn [fst snd] in *. pose proof (outcome_incomplete _ _ _ Hother1) as Hinc.
    rewrite Hout in Hinc. cbn [fst] in Hinc. rewrite (proj2 (Z.ltb_lt _ _) Hinc) in H. injection H as <-. by rewrite E2.
Qed.
End Delivery_lemmas.

(** * The retry schedule *)

Lemma backoff_bounds (rand : Z → Z) (attempt base max : Z) :
  0 < base <= 2 ^ 62 → 1 <= attempt → 0 < max <= 2 ^ 62 → (∀ h, 0 < h → 0 <= rand h < h) →
  let d := Z.min max (base * 2 ^ (attempt - 1)) in
  d <= webhookBackoffWithJitter rand attempt base max <= d + d / 2 ∧ 0 < d.
Proof.
  intros Hb Ha Hm Hr d. unfold webhookBackoffWithJitter.
  rewrite (proj2 (Z.leb_gt attempt 0)), (proj2 (Z.leb_gt base 0)) by lia.
  destruct (backoff_double_spec (Z.to_nat (attempt - 1)) base max) as [H1 H2]; [lia..|].
  rewrite Z2Nat.id in H1 by lia. set (b := backoff_double _ _ _) in *. fold d in H1.
  rewrite (proj2 (Z.ltb_lt 0 max)) by lia. cbn [andb].
  assert ((if max <? b then max else b) = d) as ->
    by (destruct (Z.ltb_spec max b); lia).
  assert (0 < d <= 2 ^ 62) by lia. rewrite Z.quot_div_nonneg by lia.
  assert (0 <= d / 2 <= d) by (Z.to_euclidean_division_equations; lia).
  destruct (Z.leb_spec (d / 2) 0) as [Hh|Hh]; [lia|]. specialize (Hr _ Hh).
  rewrite wrap64_id; [lia|]. unfold in64. assert (2 ^ 63 = 2 * 2 ^ 62) by reflexivity.
  Z.to_euclidean_division_equations; lia.
Qed.

(** The wait before retry [n] of a webhook is [base * 2^(n-1)] capped at
    the maximum, plus a jitter of at most half of that: it never overflows, never
    falls below the capped exponential and never exceeds it by more than half,
    however many attempts were made. *)
Lemma webhook_backoff_spec (rand : Z → Z) (attempt base max : Z)
    (Hbase : 0 < base <= 2 ^ 62) (Hattempt : 1 <= attempt) (Hmax : 0 < max <= 2 ^ 62)
    (Hrand : ∀ h, 0 < h → 0 <= rand h < h) :
  let d := Z.min max (base * 2 ^ (attempt - 1)) in
  d <= webhookBackoffWithJitter rand attempt base max <= d + d / 2 ∧ 0 < d.
Proof. by apply backoff_bounds. Qed.

Lemma webhook_backoff_spec_witness :
  webhookBackoffWithJitter (λ h, h - 1) 4 (5 * second) hour = 60 * second - 1 ∧
  40 * second <= webhookBackoffWithJitter (λ h, h - 1) 4 (5 * second) hour.
Proof.
  split; [by vm_compute|].
  apply (webhook_backoff_spec (λ h, h - 1) 4 (5 * second) hour).
  - by vm_compute.
  - lia.
  - by vm_compute.
  - intros h Hh. lia.
Defined.

(** * The headers of a request *)

Lemma setWebhookHeaders_step canonical k v hs h x :
  header_step canonical hs k v !! h = Some x →
  hs !! h = Some x ∨
  (h ∉ reservedWebhookHeaders ∧ has_byte (Ascii.ascii_of_nat 13) x = false ∧
   has_byte (Ascii.ascii_of_nat 10) x = false).
Proof.
  unfold header_step. destruct (String.eqb _ _); [by left|]. unfold isReservedWebhookHeader.
  case_bool_decide as Hres; [by left|]. cbn [orb].
  destruct (has_byte (Ascii.ascii_of_nat 13) v) eqn:H1, (has_byte (Ascii.ascii_of_nat 10) v) eqn:H2; cbn [orb];
    try by left.
  intros [[<- <-]|[_ ?]]%lookup_insert_Some; [by right|by left].
Qed.

(** The headers a user configures never touch a reserved one: what the
    worker set for [Host], [Content-Length], [X-Rssam-Signature] and the other
    reserved names stays, and every header the document adds has neither a
    carriage return nor a line feed in its value. *)
Lemma webhook_headers_reserved (canonical : string → string) (headers : gmap string string)
    (raw : option (list (string * string))) :
  (∀ h, h ∈ reservedWebhookHeaders →
     setWebhookHeaders canonical headers raw !! h = headers !! h) ∧
  (∀ h x, setWebhookHeaders canonical headers raw !! h = Some x → headers !! h = Some x ∨
     (h ∉ reservedWebhookHeaders ∧ has_byte (Ascii.ascii_of_nat 13) x = false ∧
      has_byte (Ascii.ascii_of_nat 10) x = false)).
Proof.
  destruct raw as [m|]; [|split; [done|by left]]. cbn [setWebhookHeaders].
  revert headers. induction m as [|[k v] m IH]; intros hs; [split; [done|by left]|]. cbn [foldl].
  destruct (IH (header_step canonical hs k v)) as [IH1 IH2]. split.
  - intros h Hh. rewrite (IH1 _ Hh). unfold header_step. destruct (String.eqb _ _); [done|].
    unfold isReservedWebhookHeader. case_bool_decide as Hres; [done|]. cbn [orb].
    destruct (_ || _); [done|]. apply lookup_insert_ne. by intros <-.
  - intros h x Hx. destruct (IH2 _ _ Hx) as [Hx'|?]; [|by right].
    by apply setWebhookHeaders_step in Hx'.
Qed.

(** * Deliveries *)

Section Delivery_outcomes.
Context `{env : Env} `{henv : HookEnv}.
Context (hcfg : HookCfg).

#[local] Instance entries_preorder :
  PreOrder (λ w w' : World, db_entries (w_db w') = db_entries (w_db w)).
Proof. split; [by intros ?|]. intros w1 w2 w3 H1 H2. congruence. Qed.

Lemma call_hooks_entries {A} (op : Db → Db * A) : (∀ d, db_entries (op d).1 = db_entries d) →
  respects (λ w w', db_entries (w_db w') = db_entries (w_db w)) (call_ op).
Proof.
  intros Hop w. unfold call_, call. specialize (Hop (w_db w)).
  destruct (w_faults w) as [|[] fs]; [|done|]; by destruct (op (w_db w)).
Qed.

Lemma mark_failed_entries id code e sn at_ next dead :
  respects (λ w w', db_entries (w_db w') = db_entries (w_db w)) (mark_failed id code e sn at_ next dead).
Proof. apply respects_bind; [apply _|by apply call_hooks_entries|intros; apply respects_ret, _]. Qed.

Lemma failure_entries now id at_ code e sn b :
  respects (λ w w', db_entries (w_db w') = db_entries (w_db w))
    (recordWebhookFailure hcfg now id at_ code e sn b).
Proof. unfold recordWebhookFailure. destruct (if b then _ else _). apply mark_failed_entries. Qed.

Lemma mark_sent_spec id at_ code sn w w' b : mark_sent id at_ code sn w = (w', b) →
  db_entries (w_db w') = db_entries (w_db w) ∧
  (db_hooks (w_db w') = db_hooks (w_db w) ∨
   db_hooks (w_db w') = MarkWebhookLogSent (db_hooks (w_db w)) id at_ code sn).
Proof.
  intros (w1 & r & H1 & H)%bind_run. injection H as <- _. unfold call_, call in H1.
  destruct (w_faults w) as [|[] fs]; injection H1 as <- _; auto.
Qed.

(** Settling one delivery leaves the others open. *)
Lemma mark_sent_other d d' id at_ code sn e : other_open d e id →
  db_hooks d' = MarkWebhookLogSent (db_hooks d) id at_ code sn → other_open d' e id.
Proof.
  intros (o & wx & Ho & He & Hne & Hopen & Hw) Heq. exists o. rewrite Heq. clear Heq.
  unfold MarkWebhookLogSent, update_log. destruct (hd_logs (db_hooks d) !! id) as [l|]; [|by exists wx].
  cbn [hd_logs hd_webhooks]. rewrite lookup_insert_ne by done.
  destruct (decide (wl_webhook_id l = wl_webhook_id o)) as [->|Hd].
  - exists (bump_sent wx). rewrite lookup_alter_eq, Hw. done.
  - exists wx. by rewrite lookup_alter_ne.
Qed.

Lemma done_run {m : M bool} w w' r :
  (s ← m; mret (s, (None : option Z))) w = (w', r) → m w = (w', r.1) ∧ r.2 = None.
Proof. intros (w1 & s & H1 & H)%bind_run. by injection H as <- <-. Qed.
End Delivery_outcomes.

(** Closes the paths that only write the outcome of the row. *)
Ltac settle H :=
  match goal with Hmark : ∀ m, _ → _ → _ |- _ =>
    eapply Hmark; [|exact H]; first [apply mark_failed_entries | apply failure_entries]
  end.

Section Delivery_claims.
Context `{env : Env} `{henv : HookEnv}.

(** An entry's on-success action waits for its last delivery.  Whatever
    the endpoint answers and whichever storage calls fail, a delivery that runs
    while another delivery of the same entry is still pending or failed
    neither collapses nor removes the entry: the entry rows, the per-user
    states and the labels stay as they are. *)
Lemma on_success_waits (hcfg : HookCfg) (now : Z) (l : WLog) (w w' : World) (r : bool * option Z)
    (Hother : other_open (w_db w) (wl_entry_id l) (wl_id l))
    (Hrun : deliverWebhookLog hcfg now l w = (w', r)) :
  spared (w_db w) (w_db w').
Proof.
  assert (∀ w1 w2, db_entries (w_db w2) = db_entries (w_db w1) → spared (w_db w1) (w_db w2)) as Heq.
  { intros w1 w2 H. unfold spared. by rewrite H. }
  unfold deliverWebhookLog in Hrun. cbv zeta in Hrun. apply bind_run in Hrun as (w1 & ctx & H1 & H).
  apply respects_run with (R := silent) in H1; [|apply call_read_silent].
  assert (w_db w1 = w_db w) as Hdb by apply H1. rewrite <-Hdb in *. clear H1 Hdb w.
  assert (∀ m, respects (λ w w', db_entries (w_db w') = db_entries (w_db w)) m →
    (s ← m; mret (s, None)) w1 = (w', r) → spared (w_db w1) (w_db w')) as Hmark.
  { intros m Hm [Hr _]%done_run. apply Heq. by apply (respects_run _ _ _ _ _ Hm Hr). }
  destruct ctx as [e|c].
  { destruct (err_is_not_found e); settle H. }
  destruct (negb _); [settle H|].
  destruct (prepare c) as [msg|rq]; [settle H|].
  destruct (ssrf_refuses _); [settle H|].
  destruct (request_error rq); [settle H|].
  destruct (http_do rq) as [msg|code body retry]; [settle H|].
  destruct (ProviderDeliveryOK _ _ _) as [[] failMsg].
  - apply bind_run in H as (w2 & s & H2 & H). apply mark_sent_spec in H2 as [He Hh].
    apply bind_run in H as (w3 & [] & H3 & H). injection H as <- _.
    etransitivity; [by apply Heq|]. eapply applyOnSuccess_spares; [|exact H3].
    destruct Hh as [Hh|Hh]; [|by eapply mark_sent_other].
    destruct Hother as (o & wx & Ho). exists o, wx. by rewrite Hh.
  - destruct (code =? 429); [|settle H].
    apply bind_run in H as (w2 & s & H2 & H). injection H as <- _. apply Heq.
    by apply (respects_run _ _ _ _ _ (mark_failed_entries _ _ _ _ _ _ _) H2).
Qed.
End Delivery_claims.

(** * What one answer does to the row *)

Section Answers.
Context `{env : Env} `{henv : HookEnv}.

Lemma call__fine {A} (op : Db → Db * A) w : w_faults w = [] →
  call_ op w = (mkWorld (op (w_db w)).1 (w_mem w) (w_events w) [], inr (op (w_db w)).2).
Proof. intros Hf. unfold call_, call. rewrite Hf. by destruct (op (w_db w)). Qed.

(** The delivery reached the endpoint, which answered. *)
Record answered (w : World) (l : WLog) (c : WebhookDeliveryContext) (code : Z) (body retry : string)
    : Prop := {
  an_faults : w_faults w = [];
  an_row : hd_logs (db_hooks (w_db w)) !! wl_id l = Some l;
  an_ctx : LoadWebhookDeliveryContext (w_db w) (wl_id l) = inr c;
  an_enabled : wh_enabled (dc_webhook c) = true;
  an_sent : ∃ rq, prepare c = inr rq ∧ ssrf_refuses (wq_url rq) = None ∧ request_error rq = None ∧
              http_do rq = Response code body retry;
}.

(** The settings are positive durations of less than 70 years. *)
Definition sane_schedule (hcfg : HookCfg) : Prop :=
  0 < hc_MaxAttempts hcfg ∧ 0 < hc_RetryBase hcfg <= 2 ^ 61 ∧ 0 < hc_RetryMax hcfg <= 2 ^ 61 ∧
  (∀ h, 0 < h → 0 <= rand_int64 h < h).

Lemma retry_schedule_spec hcfg now attempt : sane_schedule hcfg → 1 <= attempt →
  webhookRetrySchedule hcfg now attempt =
    (if hc_MaxAttempts hcfg <=? attempt then (None, true)
     else (Some (now + webhookBackoffWithJitter rand_int64 attempt (hc_RetryBase hcfg) (hc_RetryMax hcfg)),
           false)) ∧
  0 < webhookBackoffWithJitter rand_int64 attempt (hc_RetryBase hcfg) (hc_RetryMax hcfg)
    <= hc_RetryMax hcfg + hc_RetryMax hcfg / 2.
Proof.
  intros (Hm & Hb & Hx & Hr) Ha. split.
  - unfold webhookRetrySchedule.
    by rewrite (proj2 (Z.leb_gt (hc_MaxAttempts hcfg) 0)), (proj2 (Z.leb_gt (hc_RetryBase hcfg) 0)),
      (proj2 (Z.leb_gt (hc_RetryMax hcfg) 0)) by lia.
  - destruct (backoff_bounds rand_int64 attempt (hc_RetryBase hcfg) (hc_RetryMax hcfg)) as [H1 H2];
      [lia|lia|lia|done|].
    set (d := Z.min _ _) in *. assert (d <= hc_RetryMax hcfg) by (unfold d; lia).
    assert (d / 2 <= hc_RetryMax hcfg / 2) by (apply Z.div_le_mono; lia). lia.
Qed.

(** The change of one row that each answer asks for. *)
Definition row_after (hcfg : HookCfg) (now : Z) (ok : bool) (code : Z) (l l' : WLog) (pause : option Z)
    : Prop :=
  wl_id l' = wl_id l ∧ wl_webhook_id l' = wl_webhook_id l ∧ wl_entry_id l' = wl_entry_id l ∧
  wl_last_status_code l' = Some code ∧
  if ok then wl_status l' = Sent ∧ wl_attempt l' = wl_attempt l + 1 ∧ wl_next_retry_at l' = None ∧ pause = None
  else if code =? 429 then
    wl_status l' = Failed ∧ wl_attempt l' = wl_attempt l ∧ wl_next_retry_at l' = pause ∧
    ∃ t, pause = Some t ∧ now + second <= t <= now + webhookFloodMaxWait
  else
    wl_attempt l' = wl_attempt l + 1 ∧ pause = None ∧
    if ((code =? 408) || (500 <=? code)) && (wl_attempt l + 1 <? hc_MaxAttempts hcfg)
    then wl_status l' = Failed ∧
         ∃ t, wl_next_retry_at l' = Some t ∧ now < t <= now + (hc_RetryMax hcfg + hc_RetryMax hcfg / 2)
    else wl_status l' = Dead ∧ wl_next_retry_at l' = None.

Lemma answered_hooks hcfg now (l : WLog) w c code body retry :
  answered w l c code body retry →
  let '(ok, failMsg) := ProviderDeliveryOK (wh_kind (dc_webhook c)) code (redact_text body) in
  let next := now + retryAfterOf json_retry_after parse_seconds parse_http_time retry (redact_text body) now in
  let sched := if webhookHTTPRetryable code && ((code <? 200) || (299 <? code))
               then webhookRetrySchedule hcfg now (wl_attempt l + 1) else (None, true) in
  let '(w', r) := deliverWebhookLog hcfg now l w in
  db_hooks (w_db w') =
    (if (ok : bool) then MarkWebhookLogSent (db_hooks (w_db w)) (wl_id l) (wl_attempt l + 1) code ""
     else if code =? 429 then
       MarkWebhookLogFailed (db_hooks (w_db w)) (wl_id l) (Some code) failMsg (redact_text body)
         (wl_attempt l) (Some next) false
     else MarkWebhookLogFailed (db_hooks (w_db w)) (wl_id l) (Some code) failMsg (redact_text body)
            (wl_attempt l + 1) sched.1 sched.2) ∧
  r = (true, if ok then None else if code =? 429 then Some next else None).
Proof.
  intros [Hf Hrow Hctx Hon (rq & Hp & Hssrf & Hreq & Hdo)].
  destruct (ProviderDeliveryOK _ _ _) as [ok failMsg] eqn:Hok. cbn zeta.
  destruct (deliverWebhookLog hcfg now l w) as [w' r] eqn:Hrun.
  unfold deliverWebhookLog in Hrun. cbv zeta in Hrun. apply bind_run in Hrun as (w1 & ctx & H1 & H).
  unfold call in H1. rewrite Hf in H1. cbn [tail] in H1. rewrite Hctx in H1. injection H1 as <- <-.
  rewrite Hon, Hp, Hssrf, Hreq, Hdo, Hok in H. cbn [negb] in H. destruct ok.
  - apply bind_run in H as (w2 & s & H2 & H). apply bind_run in H as (w3 & [] & H3 & H). injection H as <- <-.
    apply bind_run in H2 as (w4 & r4 & H4 & H2). rewrite call__fine in H4 by done.
    injection H4 as <- <-. injection H2 as <- <-. split; [|done].
    apply (respects_run _ _ _ _ _ (applyOnSuccess_hooks hcfg _ _ _ _ _) H3).
  - destruct (code =? 429).
    + apply bind_run in H as (w2 & s & H2 & H). injection H as <- <-.
      apply bind_run in H2 as (w4 & r4 & H4 & H2). rewrite call__fine in H4 by done.
      injection H4 as <- <-. by injection H2 as <- <-.
    + unfold recordWebhookFailure in H. set (sched := if _ : bool then _ else _) in *.
      destruct sched as [next dead]. apply bind_run in H as (w2 & s & H2 & H). injection H as <- <-.
      apply bind_run in H2 as (w4 & r4 & H4 & H2). rewrite call__fine in H4 by done.
      injection H4 as <- <-. by injection H2 as <- <-.
Qed.

(** C11: what an answer does to the delivery.  When the endpoint answers and the
    storage works, the row of the delivery, and no other row, changes, and the
    change is the one the answer asks for: a success is recorded as sent; a 429
    parks the row, and the webhook, for between a second and the flood limit
    without counting an attempt; a 408 or a 5xx counts an attempt and plans a
    retry within the backoff's bounds as long as attempts are left; any other
    failure is final.  The status is always stored, so the webhook is free at
    once. *)
Theorem delivery_outcome (hcfg : HookCfg) (now : Z) (l : WLog) (w w' : World)
    (c : WebhookDeliveryContext) (code : Z) (body retry : string) (r : bool * option Z)
    (Hcfg : sane_schedule hcfg) (Hattempt : 0 <= wl_attempt l)
    (Hans : answered w l c code body retry)
    (Hrun : deliverWebhookLog hcfg now l w = (w', r)) :
  ∃ l', hd_logs (db_hooks (w_db w')) = <[wl_id l := l']> (hd_logs (db_hooks (w_db w))) ∧
    row_after hcfg now (ProviderDeliveryOK (wh_kind (dc_webhook c)) code (redact_text body)).1
      code l l' r.2 ∧ r.1 = true.
Proof.
  pose proof (answered_hooks hcfg now l w c code body retry Hans) as H. rewrite Hrun in H.
  destruct (ProviderDeliveryOK _ _ _) as [ok failMsg]. destruct H as [Hh ->]. rewrite Hh. cbn [fst snd].
  unfold MarkWebhookLogSent, MarkWebhookLogFailed, update_log. rewrite (an_row _ _ _ _ _ _ Hans).
  destruct ok; [eexists; split; [done|]; by repeat split|].
  destruct (code =? 429) eqn:E429.
  - eexists. split; [done|]. unfold row_after. rewrite E429. cbn. repeat split; try done.
    eexists. split; [done|].
    pose proof (retryAfterOf_bounds json_retry_after parse_seconds parse_http_time retry (redact_text body) now).
    lia.
  - eexists. split; [done|]. unfold row_after. rewrite E429.
    destruct (retry_schedule_spec hcfg now (wl_attempt l + 1) Hcfg) as [-> Hb]; [lia|].
    assert (webhookHTTPRetryable code && ((code <? 200) || (299 <? code)) =
            ((code =? 408) || (500 <=? code))) as ->.
    { unfold webhookHTTPRetryable. rewrite E429, orb_false_r.
      destruct (Z.eqb_spec code 408), (Z.leb_spec 500 code), (Z.ltb_spec code 200), (Z.ltb_spec 299 code);
        cbn; (done || lia). }
    destruct ((code =? 408) || (500 <=? code)); cbn [andb]; [|cbn; by repeat split].
    destruct (Z.leb_spec (hc_MaxAttempts hcfg) (wl_attempt l + 1)),
      (Z.ltb_spec (wl_attempt l + 1) (hc_MaxAttempts hcfg)); try lia; cbn; [by repeat split|].
    repeat split; try done. eexists. split; [done|]. lia.
Qed.
End Answers.

(** * Grouping into digests *)

(** The rows one message to the workers settles. *)
Definition carried (c : ClaimedLog) : list Z :=
  if cl_digest_minutes c <=? 0 then [wl_id (cl_log c)] else cl_peers c.

Definition lift_carrier (c : ClaimedLog) : ClaimedLog :=
  if cl_digest_minutes c <=? 0 then c
  else mkClaimed (cl_log c) (cl_digest_minutes c) [wl_id (cl_log c)].

Lemma lift_log c : cl_log (lift_carrier c) = cl_log c.
Proof. unfold lift_carrier. by destruct (_ <=? _). Qed.

(** A claim holds at most one row of a webhook, so no row joins another one. *)
Lemma group_claimed logs out (carriers : gmap Z nat) :
  NoDup ((λ c, wl_webhook_id (cl_log c)) <$> logs) →
  (∀ c, c ∈ logs → carriers !! wl_webhook_id (cl_log c) = None) →
  (foldl group_step (out, carriers) logs).1 = out ++ (lift_carrier <$> logs).
Proof.
  revert out carriers. induction logs as [|c logs IH]; intros out carriers Hnd Hc; [by rewrite app_nil_r|].
  cbn [fmap list_fmap] in Hnd. apply NoDup_cons in Hnd as [Hnin Hnd]. cbn [foldl fmap list_fmap].
  unfold group_step at 2, lift_carrier at 1. destruct (cl_digest_minutes c <=? 0).
  - rewrite IH; [by rewrite <-app_assoc|done|]. intros c' Hc'. apply Hc. by right.
  - rewrite (Hc c) by left. rewrite IH; [by rewrite <-app_assoc|done|].
    intros c' Hc'. rewrite lookup_insert_ne; [apply Hc; by right|].
    intros Heq. apply Hnin. apply list_elem_of_fmap. eauto.
Qed.

Section Grouping.
Context `{env : Env}.

Lemma peers_elem now db wh ids limit l : logs_wf db →
  l ∈ ClaimWebhookDigestPeers now db wh ids limit →
  hd_logs db !! wl_id l = Some l ∧ log_ready now [] l ∧ wl_webhook_id l = wh ∧ wl_id l ∉ ids.
Proof.
  intros Hwf. unfold ClaimWebhookDigestPeers. destruct (limit <=? 0); [by intros ?%elem_of_nil|].
  intros Hl. assert (l ∈ merge_sort id_le (filter (λ l, wl_webhook_id l = wh ∧ wl_id l ∉ ids)
    (due_logs now db []))) as Hl' by (by eapply elem_of_sublist; [|apply sublist_take]).
  rewrite (merge_sort_Permutation id_le) in Hl'. apply list_elem_of_filter in Hl' as [[<- Hn] Hd].
  by apply due_logs_elem in Hd as [? ?%claimable_ready].
Qed.

Lemma peers_NoDup now db wh ids limit : logs_wf db →
  NoDup (wl_id <$> ClaimWebhookDigestPeers now db wh ids limit).
Proof.
  intros Hwf. apply NoDup_fmap_2_strong.
  - intros a b (Ha & _)%peers_elem (Hb & _)%peers_elem Heq; [|done..]. rewrite Heq in Ha. congruence.
  - unfold ClaimWebhookDigestPeers. destruct (limit <=? 0); [apply NoDup_nil_2|].
    eapply sublist_NoDup; [|apply sublist_take].
    rewrite (merge_sort_Permutation id_le). by apply NoDup_filter, due_logs_NoDup.
Qed.

Lemma peers_length now db wh ids limit : 0 <= limit →
  Z.of_nat (length (ClaimWebhookDigestPeers now db wh ids limit)) <= limit.
Proof.
  intros H. unfold ClaimWebhookDigestPeers. destruct (Z.leb_spec limit 0); [simpl; lia|].
  rewrite length_take. lia.
Qed.

(** A group stands for a claimed row: its own row and due rows of the same
    webhook, each once. *)
Definition group_ok (now : Z) (db : HookDb) (c g : ClaimedLog) : Prop :=
  cl_log g = cl_log c ∧ cl_digest_minutes g = cl_digest_minutes c ∧
  NoDup (carried g) ∧ wl_id (cl_log c) ∈ carried g ∧
  Z.of_nat (length (carried g)) <= webhookDigestMaxItems ∧
  (cl_digest_minutes c <= 0 → carried g = [wl_id (cl_log c)]) ∧
  (∀ i, i ∈ carried g → ∃ l, hd_logs db !! i = Some l ∧ log_ready now [] l ∧
     wl_webhook_id l = wl_webhook_id (cl_log c)).

Lemma group_ok_lift now db c : hd_logs db !! wl_id (cl_log c) = Some (cl_log c) →
  log_ready now [] (cl_log c) → group_ok now db c (lift_carrier c).
Proof.
  intros Hrow Hcl. unfold group_ok, lift_carrier, carried.
  destruct (Z.leb_spec (cl_digest_minutes c) 0) as [H|H].
  - rewrite (proj2 (Z.leb_le _ _)) by done. split_and!; try done; [apply NoDup_singleton|left|].
    intros i Hi%list_elem_of_singleton. subst. eauto.
  - cbn [cl_log cl_digest_minutes cl_peers]. rewrite (proj2 (Z.leb_gt _ _)) by done.
    split_and!; try done; [apply NoDup_singleton|left|].
    intros i Hi%list_elem_of_singleton. subst. eauto.
Qed.

Lemma add_peers_ok now db c more : logs_wf db → group_ok now db c (lift_carrier c) →
  0 < cl_digest_minutes c →
  more = ClaimWebhookDigestPeers now db (wl_webhook_id (cl_log c)) [wl_id (cl_log c)]
           (webhookDigestMaxItems - 1) →
  group_ok now db c (add_peers (lift_carrier c) (wl_id <$> more)).
Proof.
  intros Hwf (H1 & H2 & H3 & H4 & H5 & H6 & H7) Hpos Hmore. unfold group_ok, lift_carrier, carried in *.
  rewrite (proj2 (Z.leb_gt (cl_digest_minutes c) 0)) in * by done.
  cbn [add_peers cl_log cl_digest_minutes cl_peers] in *.
  rewrite (proj2 (Z.leb_gt (cl_digest_minutes c) 0)) in * by done. cbn [app].
  assert (∀ l, l ∈ more → hd_logs db !! wl_id l = Some l ∧ log_ready now [] l ∧
     wl_webhook_id l = wl_webhook_id (cl_log c) ∧ wl_id l ∉ [wl_id (cl_log c)]) as Hm
    by (intros l; subst more; by apply peers_elem).
  split_and!; try done; [| |cbn [length]; rewrite length_fmap|lia|].
  - apply NoDup_cons. split; [|subst more; by apply peers_NoDup].
    intros (l & Hl & Hin)%list_elem_of_fmap. apply Hm in Hin as (_ & _ & _ & Hn). apply Hn.
    rewrite Hl. left.
  - left.
  - pose proof (peers_length now db (wl_webhook_id (cl_log c)) [wl_id (cl_log c)]
      (webhookDigestMaxItems - 1)) as Hlen. rewrite <-Hmore in Hlen. unfold webhookDigestMaxItems in *. lia.
  - intros i [->|(l & -> & Hl)%list_elem_of_fmap]%elem_of_cons; [apply H7; left|].
    apply Hm in Hl as (? & ? & ? & _). eauto.
Qed.

Lemma ready_any now ex l : log_ready now ex l → log_ready now [] l.
Proof. intros []. split; [done..|apply not_elem_of_nil]. Qed.

Lemma claim_peers_ok now logs w w' out :
  logs_wf (db_hooks (w_db w)) →
  (∀ c, c ∈ logs → hd_logs (db_hooks (w_db w)) !! wl_id (cl_log c) = Some (cl_log c) ∧
                   log_ready now [] (cl_log c)) →
  claim_peers now (lift_carrier <$> logs) w = (w', out) →
  w_db w' = w_db w ∧ Forall2 (group_ok now (db_hooks (w_db w))) logs out.
Proof.
  revert w out. induction logs as [|c logs IH]; intros w out Hwf Hc H.
  - cbn in H. by injection H as <- <-.
  - cbn [fmap list_fmap claim_peers] in H. destruct (Hc c) as [Hrow Hcl]; [left|].
    pose proof (group_ok_lift now (db_hooks (w_db w)) c Hrow Hcl) as Hlift.
    apply bind_run in H as (w1 & c' & H1 & H).
    assert (w_db w1 = w_db w ∧ group_ok now (db_hooks (w_db w)) c c') as [Hdb Hg].
    { unfold lift_carrier at 1 in H1. destruct (Z.leb_spec (cl_digest_minutes c) 0) as [Hd|Hd].
      - rewrite (proj2 (Z.leb_le _ _)) in H1 by done. injection H1 as <- <-. by split.
      - cbn [cl_digest_minutes] in H1. rewrite (proj2 (Z.leb_gt _ _)) in H1 by done.
        apply bind_run in H1 as (w2 & r & H2 & H1).
        pose proof (respects_run _ _ _ _ _ (call__read_silent _) H2) as Hs.
        injection H1 as <- <-. split; [apply Hs|]. destruct r as [e|more]; [done|].
        apply call__inr in H2 as [_ Hm]. cbn [snd] in Hm.
        eapply add_peers_ok; [done..|]. rewrite <-Hm. unfold lift_carrier.
        by rewrite (proj2 (Z.leb_gt _ _)) by done. }
    apply bind_run in H as (w2 & out' & H2 & H). injection H as <- <-.
    apply IH in H2 as [Hdb2 Hall]; [|by rewrite Hdb|].
    + split; [congruence|]. constructor; [done|]. by rewrite Hdb in Hall.
    + intros c0 Hc0. rewrite Hdb. apply Hc. by right.
Qed.

Lemma groups_NoDup now db logs out :
  NoDup ((λ c, wl_webhook_id (cl_log c)) <$> logs) → Forall2 (group_ok now db) logs out →
  NoDup (out ≫= carried).
Proof.
  intros Hnd Hall. induction Hall as [|c g logs out Hg Hall IH]; [apply NoDup_nil_2|].
  cbn [fmap list_fmap] in Hnd. apply NoDup_cons in Hnd as [Hn Hnd]. cbn [mbind list_bind].
  apply NoDup_app. split; [apply Hg|]. split; [|by apply IH].
  intros i Hi Hin. apply Hn. destruct Hg as (_ & _ & _ & _ & _ & _ & Hd).
  destruct (Hd i Hi) as (l & Hl & _ & <-).
  apply list_elem_of_bind in Hin as (g' & Hi' & [k Hk]%list_elem_of_lookup).
  destruct (Forall2_lookup_r _ _ _ _ _ Hall Hk) as (c' & Hc' & (_ & _ & _ & _ & _ & _ & Hd')).
  destruct (Hd' i Hi') as (l' & Hl' & _ & Hw). rewrite Hl in Hl'. injection Hl' as <-. rewrite Hw.
  apply list_elem_of_fmap. exists c'. split; [done|]. by eapply list_elem_of_lookup_2.
Qed.

(** Grouping a claim into digests loses no row and sends none twice.
    Whichever calls for more rows fail, every claimed row becomes exactly one
    message, in order; the message of an ordinary row carries that row alone,
    and that of a digest carries it with at most 199 more, all of them due rows
    of the same webhook; no row is carried twice over all the messages. *)
Lemma digest_groups (now : Z) (limit : Z) (ex : list Z) (w w' : World) (out : list ClaimedLog)
    (Hwf : logs_wf (db_hooks (w_db w))) (Hlimit : 0 < limit)
    (Hrun : groupDigestLogs now (ClaimDueWebhookLogs now (db_hooks (w_db w)) limit ex) w = (w', out)) :
  w_db w' = w_db w ∧
  Forall2 (group_ok now (db_hooks (w_db w)))
    (ClaimDueWebhookLogs now (db_hooks (w_db w)) limit ex) out ∧
  NoDup (out ≫= carried).
Proof.
  set (logs := ClaimDueWebhookLogs _ _ _ _) in *.
  assert (NoDup ((λ c, wl_webhook_id (cl_log c)) <$> logs)) as Hnd by (by apply claim_due_NoDup).
  unfold groupDigestLogs in Hrun. rewrite group_claimed in Hrun; [|done|intros; apply lookup_empty].
  apply claim_peers_ok in Hrun as [Hdb Hall]; [|done|].
  - split_and!; [done..|]. by eapply groups_NoDup.
  - intros c Hc. apply claim_due_elem in Hc as (? & ?%claimable_ready & _); [|done..]. split; [done|].
    by eapply ready_any.
Qed.
End Grouping.

(** * Witnesses *)

(** An endpoint that answers [code]; the jitter is always 0. *)
Definition wit_henv (code : Z) : HookEnv := {|
  prepare _ := inr (mkRequest "POST" "https://h.example" "{}");
  prepare_digest _ _ := inr (mkRequest "POST" "https://h.example" "{}");
  ssrf_refuses _ := None; request_error _ := None;
  http_do _ := Response code "" "";
  redact_text := id; decode_telegram _ := None; decode_max _ := None;
  json_retry_after _ := None; parse_seconds _ := None;
  parse_http_time _ := None; rand_int64 _ := 0;
|}.

Definition wit_hcfg : HookCfg := mkHookCfg 3 (5 * second) hour false.

(** Two deliveries of entry 1, whose hooks delete it afterwards, and one digest hook. *)
Definition wit_deleting (i : Z) : Webhook :=
  mkWebhook i 1 "https://h.example" "POST" "{}" "" "" true "delete" "http" 0 0 0 None.
Definition wit_delivery_db : HookDb :=
  mkHookDb (<[1 := wit_deleting 1]> (<[2 := wit_deleting 2]> {[ 3 := wit_hook 3 30 ]}))
    (<[3 := wit_log 3 1 1 50]> (<[4 := wit_log 4 2 1 50]>
       (<[5 := wit_log 5 3 1 50]> {[ 6 := wit_log 6 3 2 40 ]}))) 7.

Definition wit_hook_world (db : HookDb) : @World (wit_env fetch_two) :=
  @mkWorld (wit_env fetch_two)
    (mkDb wit_feed_db wit_stored db (mkPollLogDb ∅ 1) ∅ ∅ ∅)
    (@mkMem (wit_env fetch_two) ∅ None ttl_new ttl_new (New (mkConfig 0 0)) None) [] [].

Definition wit_deliver (code : Z) :=
  deliverWebhookLog (env := wit_env fetch_two) (henv := wit_henv code) wit_hcfg 1000
    (wit_log 3 1 1 50) (wit_hook_world wit_delivery_db).

Lemma on_success_waits_witness :
  wl_status <$> hd_logs (db_hooks (w_db (wit_deliver 200).1)) !! 3 = Some Sent ∧
  ed_entries (db_entries (w_db (wit_deliver 200).1)) = ed_entries wit_stored.
Proof.
  split; [vm_compute; reflexivity|].
  destruct (on_success_waits (env := wit_env fetch_two) (henv := wit_henv 200) wit_hcfg 1000
    (wit_log 3 1 1 50) (wit_hook_world wit_delivery_db) (wit_deliver 200).1 (wit_deliver 200).2)
    as [H _].
  - exists (wit_log 4 2 1 50), (wit_deleting 2). by vm_compute.
  - unfold wit_deliver. by destruct (deliverWebhookLog _ _ _ _).
  - exact H.
Defined.

Lemma wit_delivery_wf : logs_wf wit_delivery_db.
Proof.
  split; unfold wit_delivery_db; cbn [hd_logs hd_next_id].
  - intros i l H. by repeat (apply lookup_insert_Some in H as [[<- <-]|[_ H]]; [done|]);
      apply lookup_singleton_Some in H as [<- <-].
  - intros i l H. repeat (apply lookup_insert_Some in H as [[<- <-]|[_ H]]; [lia|]);
      apply lookup_singleton_Some in H as [<- <-]; lia.
  - intros i j a b Ha Hb.
    repeat (apply lookup_insert_Some in Ha as [[<- <-]|[_ Ha]]; [|]);
      try (apply lookup_singleton_Some in Ha as [<- <-]);
      repeat (apply lookup_insert_Some in Hb as [[<- <-]|[_ Hb]]; [done|]);
      apply lookup_singleton_Some in Hb as [<- <-]; done.
Qed.

Lemma delivery_outcome_witness :
  ∃ l', hd_logs (db_hooks (w_db (wit_deliver 503).1)) !! 3 = Some l' ∧
    wl_status l' = Failed ∧ wl_attempt l' = 1.
Proof.
  assert (wit_deliver 503 = ((wit_deliver 503).1, (wit_deliver 503).2)) as Hrun
    by (by destruct (wit_deliver 503)).
  destruct (delivery_outcome (env := wit_env fetch_two) (henv := wit_henv 503) wit_hcfg 1000
    (wit_log 3 1 1 50) (wit_hook_world wit_delivery_db) (wit_deliver 503).1
    (mkDelivery (wit_deleting 1) (default (mkEntryRow 0 0 "" "" "" "" false None None "" false 0 None)
                                    (ed_entries wit_stored !! 1)) wit_row) 503 "" "" (wit_deliver 503).2)
    as (l' & Hl & Hrow & _).
  - split_and!; [by vm_compute..|]. intros h Hh. cbn. lia.
  - by vm_compute.
  - split; [done|by vm_compute|by vm_compute|done|]. by exists (mkRequest "POST" "https://h.example" "{}").
  - exact Hrun.
  - exists l'. rewrite Hl. cbn [wit_log wl_id]. split; [apply lookup_insert_eq|].
    destruct Hrow as (_ & _ & _ & _ & Ha & _ & Hs & _). by split.
Defined.

Lemma digest_groups_witness :
  let out := (groupDigestLogs (env := wit_env fetch_two) 60
                (ClaimDueWebhookLogs 60 wit_delivery_db 10 []) (wit_hook_world wit_delivery_db)).2 in
  carried <$> out = [[6; 5]; [3]; [4]] ∧ NoDup (out ≫= carried).
Proof.
  intros out. split; [vm_compute; reflexivity|].
  apply (digest_groups (env := wit_env fetch_two) 60 10 [] (wit_hook_world wit_delivery_db)
    (groupDigestLogs (env := wit_env fetch_two) 60 (ClaimDueWebhookLogs 60 wit_delivery_db 10 [])
       (wit_hook_world wit_delivery_db)).1 out wit_delivery_wf eq_refl).
  unfold out. by destruct (groupDigestLogs _ _ _).
Defined.
