(* ===== verification/HookDispatch.v ===== *)
(** The dispatch loop of the webhooks ([worker/webhooks.go]) around the deliveries of
    [WebhookWorker.v]: one round of the loop, and the system of the loop and its workers as a
    step relation on the tables, the sets of running and paused webhooks and the messages that
    were handed out and are not settled yet.  The channel between them is the list of those
    messages; a delivery takes effect when it ends, so that everything else can happen between
    its claim and its end. *)

From S2P Require Import Prelude GoStrings PollSchedule PollWindow Types Inflight DuePauses.
From S2P Require Import HostLimiter TtlCache FilterEngine FeedStore WebhookStore EntryStore.
From S2P Require Import PollLog FeedRules Refresher PollFrames RefresherSpec Worker WebhookWorker.

(** * Definitions *)

(** worker/runner.go:22-26 [Config] The settings of the loop. *)
Record LoopCfg := mkLoopCfg { lp_WebhookPoolSize : Z; lp_SchedulerTick : Z }.

(** What a round ends in: messages for the workers, or a wait. *)
Inductive hook_round_end := HandedOut (out : list ClaimedLog) | Idle (d : Z).

(** worker/runner.go:164 [Runner.Run, inflightHooks.init] *)
Definition hook_start : HookDispatcher := mkHookDispatcher (ifl_init 0 (30 * second)) ∅.

Definition cl_webhook (c : ClaimedLog) : Z := wl_webhook_id (cl_log c).

Section Loop.
Context `{env : Env} `{henv : HookEnv}.

(** worker/webhooks.go [Runner.webhookDispatchLoop] One round at [now]; the claimed rows are
    grouped and marked at [claimedAt]. *)
Definition webhook_round (cfg : LoopCfg) (now claimedAt : Z) (paused : bool) (s : HookDispatcher)
    : M (HookDispatcher * hook_round_end) :=
  let tick := lp_SchedulerTick cfg in
  if paused then mret (s, Idle (idleWait now None tick))
  else
    let '(running, infl) := ifl_exclude (hk_inflight s) now in
    let '(waiting, resume, live) := dp_active (hk_paused s) now in
    let exclude := running ++ waiting in
    logs ← call_ (λ d, (d, ClaimDueWebhookLogs now (db_hooks d) (lp_WebhookPoolSize cfg) exclude));
    match logs with
    | inl _ => mret (mkHookDispatcher infl live, Idle (idleWait now None tick))
    | inr [] =>
        next ← call_ (λ d, (d, NextWebhookRetryAt (db_hooks d) exclude));
        mret (mkHookDispatcher infl live,
              Idle (idleWait now (sooner (match next with inl _ => None | inr t => t end) resume) tick))
    | inr logs =>
        out ← groupDigestLogs claimedAt logs;
        mret (mkHookDispatcher (foldl (λ p c, ifl_start p (cl_webhook c) claimedAt) infl out) live,
              HandedOut out)
    end.

(** ** The loop and its workers *)

Record HookSystem := mkHookSystem {
  hs_world : World;
  hs_paused : bool;
  hs_dispatcher : HookDispatcher;
  hs_out : list ClaimedLog;     (* handed out, not settled *)
}.

(** What everybody else may do to the delivery rows: add and delete rows, and change any column but
    the keys; an id is not given again. *)
Definition evolves (db db' : HookDb) : Prop :=
  logs_wf db → logs_wf db' ∧ hd_next_id db <= hd_next_id db' ∧
    ∀ i l', hd_logs db' !! i = Some l' → i < hd_next_id db →
      ∃ l, hd_logs db !! i = Some l ∧ wl_webhook_id l = wl_webhook_id l'.

(** worker/webhooks.go:40-109 [Runner.webhookDispatchLoop, Runner.webhookWorkerLoop] A round of the
    loop, the end of a delivery of any worker, a pause or its end, and anything else
    that happens to the tables, in any order and at any times. *)
Inductive hook_step (hcfg : HookCfg) (cfg : LoopCfg) : HookSystem → HookSystem → Prop :=
| StepRound now claimedAt w w' p s s' e out : now <= claimedAt →
    webhook_round cfg now claimedAt p s w = (w', (s', e)) →
    hook_step hcfg cfg (mkHookSystem w p s out)
      (mkHookSystem w' p s' (out ++ match e with HandedOut cs => cs | Idle _ => [] end))
| StepDelivered now doneAt w w' p s s' before c after :
    webhookWorker hcfg now doneAt c s w = (w', s') →
    hook_step hcfg cfg (mkHookSystem w p s (before ++ c :: after)) (mkHookSystem w' p s' (before ++ after))
| StepPause w p p' s out : hook_step hcfg cfg (mkHookSystem w p s out) (mkHookSystem w p' s out)
| StepElsewhere w w' p s out : evolves (db_hooks (w_db w)) (db_hooks (w_db w')) →
    hook_step hcfg cfg (mkHookSystem w p s out) (mkHookSystem w' p s out).

Definition hook_system (w : World) : HookSystem := mkHookSystem w false hook_start [].
End Loop.

(** * How the delivery rows evolve *)

#[export] Instance evolves_preorder : PreOrder evolves.
Proof.
  split.
  - intros db W. split; [done|]. split; [lia|]. intros i l L _. by exists l.
  - intros a b c AB BC W. destruct (AB W) as (Wb & N1 & K1), (BC Wb) as (Wc & N2 & K2). split; [done|]. split; [lia|].
    intros i l L Lt. destruct (K2 i l L) as (m & M & E); [lia|]. destruct (K1 i m M Lt) as (k & K & E'). exists k. split; [done|congruence].
Qed.

(** A change of a row that keeps its keys. *)
Definition keeps_keys (g : WLog → WLog) : Prop :=
  ∀ l, wl_id (g l) = wl_id l ∧ wl_webhook_id (g l) = wl_webhook_id l ∧ wl_entry_id (g l) = wl_entry_id l.

(** Rows that come from the old ones, keys and all. *)
Lemma evolves_from db ws ls : (∀ i l', ls !! i = Some l' → ∃ l, hd_logs db !! i = Some l ∧
    wl_id l' = wl_id l ∧ wl_webhook_id l' = wl_webhook_id l ∧ wl_entry_id l' = wl_entry_id l) →
  evolves db (mkHookDb ws ls (hd_next_id db)).
Proof.
  intros K W. split; [|split; [cbn [hd_next_id]; lia|]]; cbn [hd_logs hd_next_id].
  - split; cbn [hd_logs hd_next_id].
    + intros i l' L. destruct (K i l' L) as (l & Hl & -> & _). by eapply wf_key.
    + intros i l' L. destruct (K i l' L) as (l & Hl & _). by eapply wf_next.
    + intros i j a b A B. destruct (K i a A) as (x & X & _ & -> & ->), (K j b B) as (y & Y & _ & -> & ->). by eapply wf_uniq.
  - intros i l' L _. destruct (K i l' L) as (l & Hl & _ & E & _). by exists l.
Qed.

Lemma evolves_update_log db id g h : keeps_keys g → evolves db (update_log db id g h).
Proof.
  intros G. unfold update_log. destruct (hd_logs db !! id) as [l|] eqn:L; [|reflexivity]. apply evolves_from.
  intros i l' [[<- <-]|[_ H]]%lookup_insert_Some; [exists l|exists l']; [|done]. destruct (G l) as (? & ? & ?). done.
Qed.

Lemma evolves_update_logs db ids g h : keeps_keys g → evolves db (update_logs db ids g h).
Proof.
  intros G. unfold update_logs. apply evolves_from. intros i l'. rewrite map_lookup_imap. intros (l & L & E)%bind_Some.
  injection E as <-. exists l. split; [done|]. by case_bool_decide.
Qed.

Lemma evolves_delete db P `{∀ kl, Decision (P kl)} : evolves db (with_logs db (filter P (hd_logs db))).
Proof. apply evolves_from. intros i l [L _]%map_lookup_filter_Some. by exists l. Qed.

Lemma evolves_enqueue zone now db feedOf ids e : evolves db (EnqueueWebhookLogs zone now db feedOf ids e).
Proof.
  unfold EnqueueWebhookLogs. destruct (_ || _); [reflexivity|]. destruct (feedOf e) as [f|]; [|reflexivity].
  generalize ((map_to_list (filter (λ kv, kv.1 ∈ ids) (hd_webhooks db))).*2). intros ws. revert db.
  induction ws as [|x ws IH]; intros db; [reflexivity|]. cbn [foldl]. etransitivity; [|apply IH]. clear IH ws.
  intros W. split; [by apply enqueue_one_wf|]. unfold enqueue_one. case_decide; cbn [hd_next_id hd_logs]; (split; [lia|]); intros i l' L Lt; [by exists l'|].
  rewrite lookup_insert_ne in L by lia. by exists l'.
Qed.

Create HintDb evolve discriminated.

Section Frames.
Context `{env : Env} `{henv : HookEnv}.

Definition evolving (w w' : World) : Prop := evolves (db_hooks (w_db w)) (db_hooks (w_db w')).

#[export] Instance evolving_preorder : PreOrder evolving.
Proof. split; [intros ?; unfold evolving; reflexivity|]. intros a b c. unfold evolving. apply transitivity. Qed.

Lemma call_evolves {A} (op : Db → Db * A) : (∀ d, evolves (db_hooks d) (db_hooks (op d).1)) → respects evolving (call_ op).
Proof.
  intros Hop w. unfold call_, call. specialize (Hop (w_db w)). unfold evolving.
  destruct (w_faults w) as [|[] fs]; [|done|]; by destruct (op (w_db w)).
Qed.

Lemma mark_sent_evolves id at_ code sn : respects evolving (mark_sent id at_ code sn).
Proof. apply respects_bind; [apply _| |intros; apply respects_ret, _]. apply call_evolves. intros d. by apply evolves_update_log. Qed.

Lemma mark_failed_evolves id code e sn at_ next dead : respects evolving (mark_failed id code e sn at_ next dead).
Proof. apply respects_bind; [apply _| |intros; apply respects_ret, _]. apply call_evolves. intros d. by apply evolves_update_log. Qed.

Lemma failure_evolves hcfg now id at_ code e sn b : respects evolving (recordWebhookFailure hcfg now id at_ code e sn b).
Proof. unfold recordWebhookFailure. destruct (if b then _ else _). apply mark_failed_evolves. Qed.

Lemma marks_sent_evolves ids code sn : respects evolving (marks_sent ids code sn).
Proof.
  apply respects_bind; [apply _| |intros; apply respects_ret, _]. apply call_evolves. intros d.
  cbn [fst set_db_hooks db_hooks]. unfold MarkWebhookLogsSent. destruct ids; [reflexivity|]. by apply evolves_update_logs.
Qed.

Lemma marks_failed_evolves ids code e sn next dead count : respects evolving (marks_failed ids code e sn next dead count).
Proof.
  apply respects_bind; [apply _| |intros; apply respects_ret, _]. apply call_evolves. intros d.
  cbn [fst set_db_hooks db_hooks]. unfold MarkWebhookLogsFailed. destruct ids; [reflexivity|]. by apply evolves_update_logs.
Qed.

Lemma digest_failure_evolves hcfg now ids at_ code e sn b : respects evolving (digestFailure hcfg now ids at_ code e sn b).
Proof. unfold digestFailure. destruct (if b then _ else _). apply marks_failed_evolves. Qed.

Lemma on_success_evolves hcfg now e logID w mode : respects evolving (applyOnSuccessEntry hcfg now e logID w mode).
Proof.
  eapply respects_mono; [|apply applyOnSuccess_hooks]. cbn. intros w1 w2 E. unfold evolving. by rewrite E.
Qed.

Lemma read_evolves {A} (f : Db → err + A) : respects evolving (call (λ d, (d, f d))).
Proof. eapply respects_mono; [|apply call_read_silent]. intros w w' S. unfold evolving. by rewrite (sil_db _ _ S). Qed.
Lemma read__evolves {A} (f : Db → A) : respects evolving (call_ (λ d, (d, f d))).
Proof. eapply respects_mono; [|apply call__read_silent]. intros w w' S. unfold evolving. by rewrite (sil_db _ _ S). Qed.
End Frames.

#[export] Hint Resolve mark_sent_evolves mark_failed_evolves failure_evolves marks_sent_evolves marks_failed_evolves
  digest_failure_evolves on_success_evolves read_evolves read__evolves : evolve.

Ltac evolve_go :=
  repeat first
    [ solve [auto with evolve]
    | apply respects_ret; apply _
    | apply respects_for_each; [apply _|intros [? ?] _]
    | apply respects_bind; [apply _| |intros ?]
    | match goal with |- respects _ (match ?x with _ => _ end) => destruct x end ].

Section Frames2.
Context `{env : Env} `{henv : HookEnv}.

Lemma deliver_evolves hcfg now l : respects evolving (deliverWebhookLog hcfg now l).
Proof. unfold deliverWebhookLog. cbv zeta. evolve_go. Qed.

Lemma digest_evolves hcfg now c : respects evolving (deliverWebhookDigest hcfg now c).
Proof. unfold deliverWebhookDigest. cbv zeta. evolve_go. Qed.
End Frames2.

(** * A round *)

(** The earliest retry time is no later than that of any row it looks at. *)
Lemma next_retry_le db ex i l t : hd_logs db !! i = Some l → is_open (wl_status l) = true → wl_webhook_id l ∉ ex →
  wl_next_retry_at l = Some t → ∃ m, NextWebhookRetryAt db ex = Some m ∧ m <= t.
Proof.
  intros L O E T. unfold NextWebhookRetryAt. set (ts := omap _ _).
  assert (In : t ∈ ts).
  { apply list_elem_of_omap. exists l. split; [|by rewrite O, bool_decide_eq_false_2].
    apply list_elem_of_fmap. exists (i, l). split; [done|by apply elem_of_map_to_list]. }
  clearbody ts. induction ts as [|x ts IH]; [by apply elem_of_nil in In|]. cbn [foldr]. eexists. split; [done|].
  apply elem_of_cons in In as [->|In]; [destruct (foldr _ _ _); lia|]. destruct (IH In) as (m & -> & Le). lia.
Qed.

(** Nothing becomes due before the next retry time. *)
Lemma nothing_claimed_before t t1 db limit ex : logs_wf db → 0 < limit → t < t1 →
  (∀ m, NextWebhookRetryAt db ex = Some m → t1 <= m) → ClaimDueWebhookLogs t db limit ex = [].
Proof.
  intros W L Lt H. destruct (ClaimDueWebhookLogs t db limit ex) as [|x xs] eqn:E; [done|exfalso].
  destruct (claim_due_elem t db limit ex x W L) as (R & [O (u & U & Le) N]%claimable_ready & _); [rewrite E; left|].
  destruct (next_retry_le db ex _ _ u R) as (m & M & Mu); [by destruct O as [-> | ->]|done..|]. specialize (H m M). lia.
Qed.

Lemma starts_inflight (out : list ClaimedLog) t p id :
  polls (foldl (λ p c, ifl_start p (cl_webhook c) t) p out) !! id =
    if decide (id ∈ cl_webhook <$> out) then Some (mkInflightPoll t zero_time) else polls p !! id.
Proof.
  revert p. induction out as [|c out IH]; intros p; cbn [foldl fmap list_fmap]; [done|]. rewrite IH.
  destruct (decide (id ∈ cl_webhook <$> out)) as [I|I]; [by rewrite decide_True by by right|].
  destruct (decide (id = cl_webhook c)) as [->|N].
  - rewrite decide_True by left. apply lookup_insert_eq.
  - rewrite decide_False by (by intros [?|?]%elem_of_cons). by apply lookup_insert_ne.
Qed.

Lemma starts_params (out : list ClaimedLog) t p :
  let q := foldl (λ p c, ifl_start p (cl_webhook c) t) p out in staleAfter q = staleAfter p ∧ finishedGrace q = finishedGrace p.
Proof. revert p. induction out as [|c out IH]; intros p; [done|]. apply (IH (ifl_start p (cl_webhook c) t)). Qed.

Section Round.
Context `{env : Env}.

Lemma Forall2_claimed now db logs out : Forall2 (group_ok now db) logs out → cl_webhook <$> out = cl_webhook <$> logs.
Proof. induction 1 as [|c g logs out (E & _) _ IH]; [done|]. cbn [fmap list_fmap]. unfold cl_webhook at 1 3. by rewrite E, IH. Qed.

Lemma ready_later now t ex l : now <= t → log_ready now ex l → log_ready t [] l.
Proof. intros Le [O (u & U & L) _]. split; [done| |apply not_elem_of_nil]. exists u. split; [done|lia]. Qed.

(** Claimed rows, grouped at a later moment. *)
Lemma grouped now t limit ex w w' out : logs_wf (db_hooks (w_db w)) → 0 < limit → now <= t →
  groupDigestLogs t (ClaimDueWebhookLogs now (db_hooks (w_db w)) limit ex) w = (w', out) →
  w_db w' = w_db w ∧ Forall2 (group_ok t (db_hooks (w_db w))) (ClaimDueWebhookLogs now (db_hooks (w_db w)) limit ex) out ∧
  NoDup (cl_webhook <$> out) ∧ NoDup (out ≫= carried).
Proof.
  intros W L Le R. pose proof (claim_due_NoDup now _ limit ex W L) as Nd. unfold groupDigestLogs in R.
  rewrite group_claimed in R; [|done|intros; apply lookup_empty]. apply claim_peers_ok in R as [D F]; [|done|].
  - split; [done|]. split; [done|]. split; [|by eapply groups_NoDup]. by rewrite (Forall2_claimed _ _ _ _ F).
  - intros c Hc. apply claim_due_elem in Hc as (? & ?%claimable_ready & _); [|done..]. split; [done|]. by eapply ready_later.
Qed.

(** The state the exclusions leave in both kinds of round. *)
Definition excluded_at (now : Z) (s : HookDispatcher) : list Z := (ifl_exclude (hk_inflight s) now).1 ++ (dp_active (hk_paused s) now).1.1.
Definition swept (now : Z) (s : HookDispatcher) : HookDispatcher :=
  mkHookDispatcher (ifl_exclude (hk_inflight s) now).2 (dp_active (hk_paused s) now).2.

(** A round that runs ends in one of four ways. *)
Lemma round_cases cfg now t s w w' s' e : webhook_round cfg now t false s w = (w', (s', e)) →
  let db := db_hooks (w_db w) in let logs := ClaimDueWebhookLogs now db (lp_WebhookPoolSize cfg) (excluded_at now s) in
  (w_db w' = w_db w ∧ s' = swept now s ∧
    ∃ next, e = Idle (idleWait now (sooner next (dp_active (hk_paused s) now).1.2) (lp_SchedulerTick cfg)) ∧
      logs = [] ∧ (next = NextWebhookRetryAt db (excluded_at now s) ∨ next = None ∧ w_faults w ≠ [])) ∨
  (w_db w' = w_db w ∧ s' = swept now s ∧ w_faults w ≠ [] ∧ e = Idle (idleWait now None (lp_SchedulerTick cfg))) ∨
  (logs ≠ [] ∧ ∃ w1 out, w_db w1 = w_db w ∧ groupDigestLogs t logs w1 = (w', out) ∧ e = HandedOut out ∧
    s' = mkHookDispatcher (foldl (λ p c, ifl_start p (cl_webhook c) t) (ifl_exclude (hk_inflight s) now).2 out) (dp_active (hk_paused s) now).2).
Proof.
  unfold webhook_round, excluded_at, swept. destruct (ifl_exclude (hk_inflight s) now) as [running infl].
  destruct (dp_active (hk_paused s) now) as [[waiting resume] live]. cbn [fst snd]. intros (w1 & r & H1 & H)%bind_run.
  pose proof (respects_run _ _ _ _ _ (call__read_silent _) H1) as S1. destruct r as [er|logs].
  - injection H as <- <- <-. right. left. split; [apply S1|]. split; [done|]. split; [|done]. intros F. unfold call_, call in H1. by rewrite F in H1.
  - apply call__inr in H1 as [_ E1]. cbn [snd] in E1. rewrite E1 in *. destruct logs as [|c logs].
    + left. apply bind_run in H as (w2 & r & H2 & H). pose proof (respects_run _ _ _ _ _ (call__read_silent _) H2) as S2.
      injection H as <- <- <-. split; [by rewrite (sil_db _ _ S2), (sil_db _ _ S1)|]. split; [done|]. eexists. split; [done|]. split; [done|].
      destruct r as [er|next].
      * right. split; [done|]. intros F. pose proof (sil_faults _ _ S1 F) as F1. unfold call_, call in H2. by rewrite F1 in H2.
      * left. apply call__inr in H2 as [_ E2]. cbn [snd] in E2. by rewrite <-E2, (sil_db _ _ S1).
    + right. right. split; [done|]. apply bind_run in H as (w2 & out & H2 & H). injection H as <- <- <-.
      exists w1, out. split; [apply S1|]. done.
Qed.
End Round.

(** A webhook the round leaves alone: one with a delivery running or in its grace, or one that waits out a 429. *)
Definition busy (now : Z) (s : HookDispatcher) (id : Z) : Prop :=
  (∃ x, polls (hk_inflight s) !! id = Some x ∧ ifl_verdict (hk_inflight s) now x = Keep) ∨ is_Some (dp_paused_until (hk_paused s) id now).

Lemma excluded_busy now s id : id ∈ excluded_at now s ↔ busy now s id.
Proof. unfold excluded_at, busy. by rewrite elem_of_app, ifl_exclude_elem, dp_active_ids. Qed.

Lemma ready_excluded now ex l : log_ready now [] l → wl_webhook_id l ∉ ex → log_ready now ex l.
Proof. intros [O D _] N. by split. Qed.

(** Every due row is claimed, or its webhook is excluded, or the pool is full. *)
Lemma due_is_served now db limit ex i l : logs_wf db → 0 < limit → hd_logs db !! i = Some l → log_ready now [] l →
  is_Some (hd_webhooks db !! wl_webhook_id l) → wl_webhook_id l ∉ ex →
  let c := ClaimDueWebhookLogs now db limit ex in wl_webhook_id l ∈ cl_webhook <$> c ∨ Z.of_nat (length c) = limit.
Proof.
  intros W L R Rd [h H] N c. destruct (claim_due_spec now db limit ex W L) as (_ & _ & _ & S).
  destruct (S i l h R) as [(x & Hx & E)|E]; [by apply ready_excluded|done| |by right].
  left. apply list_elem_of_fmap. exists x. split; [by unfold cl_webhook|done].
Qed.

Section Round_spec.
Context `{env : Env}.

Lemma group_of now db logs out c : Forall2 (group_ok now db) logs out → c ∈ out → ∃ x, x ∈ logs ∧ group_ok now db x c.
Proof.
  intros F [k Hk]%list_elem_of_lookup. destruct (Forall2_lookup_r _ _ _ _ _ F Hk) as (x & Hx & G).
  exists x. split; [by eapply list_elem_of_lookup_2|done].
Qed.

(** C12: one round of the delivery loop.  A round hands out due deliveries only, at most one message
    for each webhook and no more than the pool takes, none for a webhook that is being
    served, in its grace or waiting out a 429, and no row twice; each message
    stands for the oldest due row of its webhook, and its webhook is in flight afterwards.
    A webhook with a due row is served unless it is busy or the pool is
    full.  A round that hands out nothing waits between the floor and the tick; when
    the storage answered, nothing was left to serve, and if the wait is longer
    than a second, no paused webhook resumes and no delivery becomes due before it ends.  A round changes no row. *)
Theorem webhook_round_spec (cfg : LoopCfg) (now t : Z) (s s' : HookDispatcher) (w w' : World) (e : hook_round_end)
  (W : logs_wf (db_hooks (w_db w))) (L : 0 < lp_WebhookPoolSize cfg) (Le : now <= t)
  (R : webhook_round cfg now t false s w = (w', (s', e))) :
  let db := db_hooks (w_db w) in
  w_db w' = w_db w ∧
  match e with
  | HandedOut out =>
      out ≠ [] ∧ Z.of_nat (length out) <= lp_WebhookPoolSize cfg ∧ NoDup (cl_webhook <$> out) ∧ NoDup (out ≫= carried) ∧
      (∀ c, c ∈ out → ¬ busy now s (cl_webhook c) ∧ ifl_since (hk_inflight s') (cl_webhook c) = Some t ∧ wl_id (cl_log c) ∈ carried c ∧
         (∀ i, i ∈ carried c → ∃ l, hd_logs db !! i = Some l ∧ log_ready t [] l ∧ wl_webhook_id l = cl_webhook c) ∧
         ∀ i l, hd_logs db !! i = Some l → log_ready now [] l → wl_webhook_id l = cl_webhook c → log_le (cl_log c) l) ∧
      (∀ i l, hd_logs db !! i = Some l → log_ready now [] l → is_Some (hd_webhooks db !! wl_webhook_id l) →
         busy now s (wl_webhook_id l) ∨ wl_webhook_id l ∈ cl_webhook <$> out ∨ Z.of_nat (length out) = lp_WebhookPoolSize cfg)
  | Idle d =>
      Z.min (lp_SchedulerTick cfg) second <= d <= Z.max (lp_SchedulerTick cfg) second ∧
      (w_faults w = [] →
        (∀ i l, hd_logs db !! i = Some l → log_ready now [] l → is_Some (hd_webhooks db !! wl_webhook_id l) → busy now s (wl_webhook_id l)) ∧
        (second < d → (∀ id u, dp_paused_until (hk_paused s) id now = Some u → now + d <= u) ∧
           ∀ u limit, 0 < limit → u < now + d → ClaimDueWebhookLogs u db limit (excluded_at now s) = []))
  end.
Proof.
  intros db. pose proof (λ i l, due_is_served now db _ (excluded_at now s) i l W L) as Served.
  destruct (round_cases _ _ _ _ _ _ _ _ R) as [(D & -> & next & -> & Nil & Next)|[(D & -> & F & ->)|(Some' & w1 & out & D & G & -> & ->)]].
  - split; [done|]. split; [apply idleWait_bounds|]. intros F. destruct Next as [->|[_ ?]]; [|done]. fold db in Nil. split.
    + intros i l Hl Rd Hw. apply excluded_busy. destruct (decide (wl_webhook_id l ∈ excluded_at now s)) as [|N]; [done|exfalso].
      destruct (Served i l Hl Rd Hw N) as [H|H]; rewrite Nil in H; [by apply elem_of_nil in H|cbn in H; lia].
    + intros Hd. pose proof (long_wait_spec now (lp_SchedulerTick cfg) (NextWebhookRetryAt db (excluded_at now s)) (dp_active (hk_paused s) now).1.2 None Hd) as Lw.
      cbn [resume_at] in *. split; [apply resumes_after; auto|]. intros u limit Hlim Hu. eapply nothing_claimed_before; [done..|]. auto.
  - split; [done|]. split; [apply idleWait_bounds|]. by intros.
  - rewrite <-D in W. fold db in Some', G. unfold db in G. rewrite <-D in G.
    destruct (grouped now t _ _ _ _ _ W L Le G) as (D2 & F & Nh & Nr). rewrite D in *. fold db in F, W.
    split; [by rewrite D2|]. pose proof (Forall2_length _ _ _ F) as Len. pose proof (Forall2_claimed _ _ _ _ F) as Ids.
    set (logs := ClaimDueWebhookLogs _ _ _ _) in *. destruct (claim_due_spec now db _ (excluded_at now s) W L) as (Short & _ & Claimed & _). fold logs in Short, Claimed.
    split; [intros ->; by destruct logs|]. split; [lia|]. split; [done|]. split; [done|]. split.
    + intros c Hc. destruct (group_of _ _ _ _ _ F Hc) as (x & Hx & E & _ & _ & I & _ & _ & Rows).
      assert (Ew : cl_webhook c = wl_webhook_id (cl_log x)) by by unfold cl_webhook; rewrite E. destruct (Claimed x Hx) as (_ & Rd & _ & Old).
      split; [rewrite <-excluded_busy, Ew; apply Rd|]. split.
      { unfold ifl_since. cbn [hk_inflight]. rewrite starts_inflight, decide_True by by apply list_elem_of_fmap_2. done. }
      split; [by rewrite E|]. split; [by rewrite Ew|]. intros i l Hl Rl El. rewrite E. apply (Old i l Hl); [|congruence].
      apply ready_excluded; [done|]. rewrite El, Ew. apply Rd.
    + intros i l Hl Rd Hw. rewrite <-excluded_busy. destruct (decide (wl_webhook_id l ∈ excluded_at now s)) as [|N]; [by left|right].
      rewrite Ids, <-Len. by apply (Served i l).
Qed.
End Round_spec.

(** * The loop and its workers *)

Section System.
Context `{env : Env} `{henv : HookEnv}.
Context (hcfg : HookCfg) (cfg : LoopCfg).

Record system_ok (st : HookSystem) : Prop := {
  so_wf : logs_wf (db_hooks (w_db (hs_world st)));
  so_stale : staleAfter (hk_inflight (hs_dispatcher st)) = 0;
  so_flight : ∀ c, c ∈ hs_out st → ∃ t, polls (hk_inflight (hs_dispatcher st)) !! cl_webhook c = Some (mkInflightPoll t zero_time);
  so_hooks : NoDup (cl_webhook <$> hs_out st);
  so_rows : NoDup (hs_out st ≫= carried);
  so_known : ∀ c i, c ∈ hs_out st → i ∈ carried c → i < hd_next_id (db_hooks (w_db (hs_world st))) ∧
    ∀ l, hd_logs (db_hooks (w_db (hs_world st))) !! i = Some l → wl_webhook_id l = cl_webhook c;
}.

Lemma system_ok_start w : logs_wf (db_hooks (w_db w)) → system_ok (hook_system w).
Proof. intros W. split; cbn [hook_system hs_world hs_dispatcher hs_out]; try done; try apply NoDup_nil_2; by intros ? ?%elem_of_nil || intros ? ? ?%elem_of_nil. Qed.

(** What is known of a handed-out message survives what happens elsewhere. *)
Lemma known_evolves db db' c i : logs_wf db → evolves db db' →
  (i < hd_next_id db ∧ ∀ l, hd_logs db !! i = Some l → wl_webhook_id l = cl_webhook c) →
  i < hd_next_id db' ∧ ∀ l, hd_logs db' !! i = Some l → wl_webhook_id l = cl_webhook c.
Proof.
  intros W E [N K]. destruct (E W) as (_ & N' & K'). split; [lia|]. intros l' L'. destruct (K' i l' L' N) as (l & L & <-). by apply K.
Qed.

Lemma system_ok_world w w' p p' s out : evolves (db_hooks (w_db w)) (db_hooks (w_db w')) →
  system_ok (mkHookSystem w p s out) → system_ok (mkHookSystem w' p' s out).
Proof.
  intros E [W S F H R K]; cbn [hs_world hs_dispatcher hs_out] in *. split; cbn [hs_world hs_dispatcher hs_out]; try done; [by destruct (E W)|].
  intros c i Hc Hi. eapply known_evolves; eauto.
Qed.

(** A running delivery stays marked when the loop sweeps. *)
Lemma running_kept p now id t : staleAfter p = 0 → polls p !! id = Some (mkInflightPoll t zero_time) →
  polls (ifl_exclude p now).2 !! id = Some (mkInflightPoll t zero_time) ∧ id ∈ (ifl_exclude p now).1.
Proof.
  intros S H. assert (V : ifl_verdict p now (mkInflightPoll t zero_time) = Keep) by (unfold ifl_verdict, is_stale; by rewrite S).
  split; [apply ifl_exclude_lookup; by rewrite V|]. apply ifl_exclude_elem. eauto.
Qed.

Lemma system_ok_swept w w' p now s out : w_db w' = w_db w → system_ok (mkHookSystem w p s out) → system_ok (mkHookSystem w' p (swept now s) out).
Proof.
  intros D O. apply (system_ok_world w w' p p) in O; [|by rewrite D]. destruct O as [W S F H R K]; cbn [hs_world hs_dispatcher hs_out] in *.
  split; cbn [hs_world hs_dispatcher hs_out swept hk_inflight]; try done. intros c Hc. destruct (F c Hc) as [t Ht]. exists t. by apply running_kept.
Qed.

Lemma webhook_round_ok now t w w' p s s' e out : 0 < lp_WebhookPoolSize cfg → now <= t →
  webhook_round cfg now t p s w = (w', (s', e)) → system_ok (mkHookSystem w p s out) →
  system_ok (mkHookSystem w' p s' (out ++ match e with HandedOut cs => cs | Idle _ => [] end)).
Proof.
  intros L Le R O. destruct p.
  { injection R as <- <- <-. by rewrite app_nil_r. }
  pose proof (so_wf _ O) as W0. cbn [hs_world] in W0.
  destruct (round_cases _ _ _ _ _ _ _ _ R) as [(D & -> & next & -> & _)|[(D & -> & _ & ->)|(_ & w1 & cs & D & G & -> & ->)]].
  - rewrite app_nil_r. by apply (system_ok_swept w).
  - rewrite app_nil_r. by apply (system_ok_swept w).
  - rewrite <-D in G, W0. destruct (grouped now t _ _ _ _ _ W0 L Le G) as (D2 & F & Nh & Nr). rewrite D in *.
    apply (system_ok_swept w w' false now) in O; [|by rewrite D2]. destruct O as [W S Fl H Rw K]; cbn [hs_world hs_dispatcher hs_out swept hk_inflight] in *.
    assert (New : ∀ c, c ∈ cs → cl_webhook c ∉ (ifl_exclude (hk_inflight s) now).1 ∧
      ∀ i, i ∈ carried c → ∃ l, hd_logs (db_hooks (w_db w)) !! i = Some l ∧ wl_webhook_id l = cl_webhook c).
    { intros c Hc. destruct (group_of _ _ _ _ _ F Hc) as (x & Hx & E & _ & _ & _ & _ & _ & Rows).
      assert (Ew : cl_webhook c = wl_webhook_id (cl_log x)) by by unfold cl_webhook; rewrite E.
      apply claim_due_elem in Hx as (_ & [_ _ N]%claimable_ready & _); [|done..]. unfold excluded_at in N. rewrite elem_of_app in N.
      split; [rewrite Ew; tauto|]. intros i Hi. destruct (Rows i Hi) as (l & Hl & _ & El). exists l. by rewrite Ew. }
    assert (Apart : ∀ c d, c ∈ out → d ∈ cs → cl_webhook c ≠ cl_webhook d).
    { intros c d Hc Hd E. destruct (Fl c Hc) as [t' Ht]. apply (New d Hd). rewrite <-E. apply ifl_exclude_lookup in Ht as [Ht V].
      apply ifl_exclude_elem. eexists. split; [exact Ht|]. unfold ifl_verdict, is_stale. by rewrite (S : staleAfter (hk_inflight s) = 0). }
    split; cbn [hs_world hs_dispatcher hs_out hk_inflight].
    + done.
    + etransitivity; [apply (starts_params cs t (ifl_exclude (hk_inflight s) now).2)|exact S].
    + intros c Hc. rewrite starts_inflight. case_decide as I; [by eexists|]. apply elem_of_app in Hc as [Hc|Hc]; [by apply Fl|].
      destruct I. by apply list_elem_of_fmap_2.
    + rewrite fmap_app. apply NoDup_app. split; [done|]. split; [|done].
      intros i (c & -> & Hc)%list_elem_of_fmap (d & E & Hd)%list_elem_of_fmap. by apply (Apart c d).
    + rewrite bind_app. apply NoDup_app. split; [done|]. split; [|done].
      intros i (c & Hi & Hc)%list_elem_of_bind (d & Hi' & Hd)%list_elem_of_bind. destruct (New d Hd) as [_ Rows]. destruct (Rows i Hi') as (l & Hl & El).
      apply (Apart c d Hc Hd). rewrite <-El. symmetry. apply (K c i Hc Hi). by rewrite D2.
    + intros c i [Hc|Hc]%elem_of_app Hi; [by apply K|]. destruct (New c Hc) as [_ Rows]. destruct (Rows i Hi) as (l & Hl & El).
      rewrite D2. split; [by eapply (wf_next _ W0)|]. intros l' Hl'. congruence.
Qed.

Lemma webhook_worker_ok now doneAt w w' p s s' a c b : webhookWorker hcfg now doneAt c s w = (w', s') →
  system_ok (mkHookSystem w p s (a ++ c :: b)) → system_ok (mkHookSystem w' p s' (a ++ b)).
Proof.
  unfold webhookWorker. intros (w1 & [stored pause] & H1 & H)%bind_run O. injection H as <- <-.
  apply (system_ok_world w w1 p p) in O.
  2:{ change (evolving w w1). destruct (0 <? cl_digest_minutes c); [exact (respects_run _ _ _ _ _ (digest_evolves _ _ _) H1)|exact (respects_run _ _ _ _ _ (deliver_evolves _ _ _) H1)]. }
  clear H1. destruct O as [W S F H R K]; cbn [hs_world hs_dispatcher hs_out] in *.
  rewrite fmap_app in H. apply NoDup_app in H as (Ha & Hab & [Hc Hb]%NoDup_cons). rewrite bind_app in R. apply NoDup_app in R as (Ra & Rab & Rc).
  cbn [mbind list_bind] in Rc. apply NoDup_app in Rc as (_ & _ & Rb).
  assert (Other : ∀ d, d ∈ a ++ b → cl_webhook d ≠ cl_webhook c).
  { intros d [Hd|Hd]%elem_of_app E.
    - apply (Hab (cl_webhook d)); [by apply list_elem_of_fmap_2|]. rewrite E. left.
    - apply Hc. rewrite <-E. by apply list_elem_of_fmap_2. }
  assert (Sub : ∀ d, d ∈ a ++ b → d ∈ a ++ c :: b) by (intros d; rewrite !elem_of_app, elem_of_cons; tauto).
  split; cbn [hs_world hs_dispatcher hs_out hk_inflight].
  - done.
  - destruct stored; [exact S|]. unfold ifl_done. by repeat case_match.
  - intros d Hd. destruct (F d (Sub d Hd)) as [t Ht]. exists t. pose proof (Other d Hd) as N. unfold cl_webhook in N, Ht |- *.
    destruct stored; [cbn [ifl_forget with_polls polls]; by rewrite lookup_delete_ne by congruence|].
    unfold ifl_done. repeat case_match; try done. cbn [with_polls polls]. by rewrite lookup_insert_ne by congruence.
  - rewrite fmap_app. apply NoDup_app. split; [done|]. split; [|done]. intros i Hi Hi'. apply (Hab i Hi). by right.
  - rewrite bind_app. apply NoDup_app. split; [done|]. split; [|done]. intros i Hi Hi'. apply (Rab i Hi). cbn [mbind list_bind]. apply elem_of_app. by right.
  - intros d i Hd. by apply K, Sub.
Qed.

Lemma system_ok_step st st' : 0 < lp_WebhookPoolSize cfg → hook_step hcfg cfg st st' → system_ok st → system_ok st'.
Proof.
  intros L [now t w w' p s s' e out Le R|now d w w' p s s' a c b R|w p p' s out|w w' p s out E] O.
  - by eapply webhook_round_ok.
  - by eapply webhook_worker_ok.
  - by apply (system_ok_world w w p p').
  - by apply (system_ok_world w w' p p).
Qed.

(** C10: no delivery is made twice at once.  Whatever the loop and any number of workers do, in any
    order and with any storage call failing, and whatever else happens to the delivery
    rows meanwhile (new rows, retries, deletions, edits of webhooks): of the messages handed
    out and not settled, no two are for one webhook and no row is in two of them, each
    carries rows of its own webhook only, and its webhook is excluded from every claim
    until it is settled. *)
Theorem deliveries_exclusive (w : World) (st : HookSystem) (W : logs_wf (db_hooks (w_db w))) (L : 0 < lp_WebhookPoolSize cfg)
  (R : rtc (hook_step hcfg cfg) (hook_system w) st) :
  NoDup (cl_webhook <$> hs_out st) ∧ NoDup (hs_out st ≫= carried) ∧
  ∀ c, c ∈ hs_out st →
    (∀ now, busy now (hs_dispatcher st) (cl_webhook c)) ∧
    ∀ i l, i ∈ carried c → hd_logs (db_hooks (w_db (hs_world st))) !! i = Some l → wl_webhook_id l = cl_webhook c.
Proof.
  assert (O : system_ok st).
  { apply system_ok_start in W. induction R as [|x y z S R IH]; [done|]. apply IH. by eapply system_ok_step. }
  destruct O as [W' S F H Rw K]. split; [done|]. split; [done|]. intros c Hc. split.
  - intros now. left. apply ifl_exclude_elem. destruct (F c Hc) as [t Ht]. by eapply running_kept.
  - intros i l Hi Hl. by apply (K c i).
Qed.
End System.

(** * Concrete runs *)

Definition wit_loop : LoopCfg := mkLoopCfg 3 (10 * second).
Definition wit_round := webhook_round (env := wit_env fetch_two) wit_loop 60 61 false hook_start (wit_hook_world wit_delivery_db).

Lemma wit_round_run : wit_round = (wit_round.1, (wit_round.2.1, wit_round.2.2)).
Proof. by destruct wit_round as [w [s e]]. Qed.

(** The digest hook is served with both its rows, the other two with one each. *)
Lemma webhook_round_spec_witness :
  ∃ out, wit_round.2.2 = HandedOut out ∧ carried <$> out = [[6; 5]; [3]; [4]] ∧ NoDup (out ≫= carried).
Proof.
  pose proof (webhook_round_spec (env := wit_env fetch_two) wit_loop 60 61 hook_start wit_round.2.1 (wit_hook_world wit_delivery_db) wit_round.1
    wit_round.2.2 wit_delivery_wf ltac:(vm_compute; reflexivity) ltac:(lia) wit_round_run) as [_ H].
  assert (E : ∃ out, wit_round.2.2 = HandedOut out ∧ carried <$> out = [[6; 5]; [3]; [4]]) by (eexists; split; vm_compute; reflexivity).
  destruct E as (out & E & C). rewrite E in H. exists out. split; [exact E|]. split; [exact C|]. apply H.
Defined.

(** The system after that round. *)
Definition wit_served : HookSystem :=
  mkHookSystem (env := wit_env fetch_two) wit_round.1 false wit_round.2.1 (match wit_round.2.2 with HandedOut cs => cs | Idle _ => [] end).

Lemma deliveries_exclusive_witness :
  cl_webhook <$> hs_out wit_served = [3; 1; 2] ∧ NoDup (hs_out wit_served ≫= carried).
Proof.
  split; [vm_compute; reflexivity|].
  refine (proj1 (proj2 (deliveries_exclusive (env := wit_env fetch_two) (henv := wit_henv 200) wit_hcfg wit_loop
    (wit_hook_world wit_delivery_db) wit_served wit_delivery_wf _ _))); [vm_compute; reflexivity|].
  apply rtc_once. exact (StepRound (env := wit_env fetch_two) (henv := wit_henv 200) wit_hcfg wit_loop 60 61
    (wit_hook_world wit_delivery_db) wit_round.1 false hook_start wit_round.2.1 wit_round.2.2 [] ltac:(lia) wit_round_run).
Defined.
