(* ===== verification/PageDiff.v ===== *)
(** The change block of a watched page ([reader/page/diff.go]): a longest common
    subsequence of the lines of two snapshots by dynamic programming, the lines
    that appeared and disappeared, and their HTML.  [html.EscapeString] is
    modelled; line numbers are [nat].  The table's cells are int32 in the code
    and at most [maxN] here, so no addition wraps. *)

From S2P Require Import Prelude GoStrings.
From Stdlib Require Import Ascii.

(** * Definitions *)

Definition newline : ascii := ascii_of_nat 10.

(** reader/page/diff.go:66-72 [lcsKeep, maxN] *)
Definition maxN : nat := Z.to_nat 2000.

(** reader/page/diff.go:82-88 [lcsKeep, one row of the table] [dp[i]] for the line [x] from
    the row below it; the row has one more cell than [b]. *)
Fixpoint dp_row (x : string) (b : list string) (below : list Z) : list Z :=
  match b with
  | [] => [0]
  | y :: b' =>
      let right := dp_row x b' (tail below) in
      (if String.eqb x y then hd 0 (tail below) + 1 else Z.max (hd 0 below) (hd 0 right)) :: right
  end.

(** reader/page/diff.go:77-89 [lcsKeep, the table] *)
Fixpoint dp_table (a b : list string) : list (list Z) :=
  match a with
  | [] => [replicate (S (length b)) 0]
  | x :: a' => let t := dp_table a' b in dp_row x b (hd [] t) :: t
  end.

Definition cell (dp : list (list Z)) (i j : nat) : Z := nth j (nth i dp []) 0.

(** reader/page/diff.go:90-103 [lcsKeep, the walk] [fuel] bounds the iterations; [n + m] of
    them are enough since each advances [i] or [j]. *)
Fixpoint lcs_walk (fuel : nat) (dp : list (list Z)) (a b : list string) (i j : nat)
    : list (nat * nat) :=
  match fuel with
  | O => []
  | S fuel =>
      match a !! i, b !! j with
      | Some x, Some y =>
          if String.eqb x y then (i, j) :: lcs_walk fuel dp a b (S i) (S j)
          else if cell dp i (S j) <=? cell dp (S i) j then lcs_walk fuel dp a b (S i) j
          else lcs_walk fuel dp a b i (S j)
      | _, _ => []
      end
  end.

(** reader/page/diff.go [lcsKeep] *)
Definition lcsKeep (a b : list string) : list (nat * nat) :=
  let a := take maxN a in
  let b := take maxN b in
  match a, b with
  | [], _ | _, [] => []
  | _, _ => lcs_walk (length a + length b) (dp_table a b) a b 0 0
  end.

(** reader/page/diff.go [splitLines] *)
Definition splitLines (s : string) : list string :=
  if String.eqb s "" then [] else split_on newline s.

(** reader/page/diff.go:15-27 [diffHTML, the loop] The lines removed and added before
    the pairs [keep], from the lines [i] and [j] on. *)
Fixpoint changes (old new : list string) (i j : nat) (keep : list (nat * nat))
    : list string * list string :=
  match keep with
  | [] => (drop i old, drop j new)
  | (k0, k1) :: keep =>
      let '(removed, added) := changes old new (S k0) (S k1) keep in
      (take (k0 - i) (drop i old) ++ removed, take (k1 - j) (drop j new) ++ added)
  end.

(** [html.EscapeString] *)
Fixpoint escape_html (s : string) : string :=
  match s with
  | "" => ""
  | String c s =>
      let r := escape_html s in
      if is_byte 38 c then "&amp;" +:+ r
      else if is_byte 39 c then "&#39;" +:+ r
      else if is_byte 60 c then "&lt;" +:+ r
      else if is_byte 62 c then "&gt;" +:+ r
      else if is_byte 34 c then "&#34;" +:+ r
      else String c r
  end.

(** reader/page/diff.go [writeLines] [n] is the loop's index; the text is the UTF-8 of an
    ellipsis. *)
Fixpoint writeLines (tag : string) (n : nat) (lines : list string) : string :=
  match lines with
  | [] => ""
  | line :: rest =>
      if Nat.eqb n 50 then "<p>…</p>"
      else "<p><" +:+ tag +:+ ">" +:+ escape_html line +:+ "</" +:+ tag +:+ "></p>"
           +:+ writeLines tag (S n) rest
  end.

Definition quote : string := String (ascii_of_nat 34) "".

(** reader/page/diff.go [diffHTML] *)
Definition diffHTML (oldText newText : string) : string :=
  let oldLines := splitLines oldText in
  let newLines := splitLines newText in
  let '(removed, added) := changes oldLines newLines 0 0 (lcsKeep oldLines newLines) in
  match removed, added with
  | [], [] => ""
  | _, _ => "<div class=" +:+ quote +:+ "page-diff" +:+ quote +:+ ">" +:+ writeLines "ins" 0 added
            +:+ writeLines "del" 0 removed +:+ "</div><hr>"
  end.

(** * The table *)

(** The length of a longest common subsequence, by the textbook recursion. *)
Fixpoint lcs_len (a b : list string) : Z :=
  match a with
  | [] => 0
  | x :: a' =>
      (fix go (b : list string) : Z :=
         match b with
         | [] => 0
         | y :: b' => if String.eqb x y then lcs_len a' b' + 1 else Z.max (lcs_len a' b) (go b')
         end) b
  end.

Lemma lcs_len_nil_r a : lcs_len a [] = 0.
Proof. by destruct a. Qed.

Lemma lcs_len_cons x a y b : lcs_len (x :: a) (y :: b) =
  if String.eqb x y then lcs_len a b + 1 else Z.max (lcs_len a (y :: b)) (lcs_len (x :: a) b).
Proof. done. Qed.

Lemma lcs_len_nonneg a b : 0 <= lcs_len a b.
Proof.
  revert b. induction a as [|x a IHa]; intros b; [done|].
  induction b as [|y b IHb]; [done|]. rewrite lcs_len_cons.
  destruct (String.eqb x y); [specialize (IHa b)|]; lia.
Qed.

Lemma sublist_tail (x : string) l a : l `sublist_of` x :: a → tail l `sublist_of` a.
Proof.
  intros H. inversion H as [| |]; subst; [done|]. destruct l as [|z l]; [done|]. simpl.
  etransitivity; [|done]. by apply sublist_cons.
Qed.

(** No common subsequence is longer. *)
Lemma lcs_len_upper a b l : l `sublist_of` a → l `sublist_of` b → Z.of_nat (length l) <= lcs_len a b.
Proof.
  revert b l. induction a as [|x a IHa]; intros b l Ha Hb.
  { apply sublist_nil_r in Ha as ->. done. }
  revert l Ha Hb. induction b as [|y b IHb]; intros l Ha Hb.
  { apply sublist_nil_r in Hb as ->. done. }
  rewrite lcs_len_cons. destruct (String.eqb_spec x y) as [<-|Hne].
  - pose proof (IHa b (tail l) (sublist_tail _ _ _ Ha) (sublist_tail _ _ _ Hb)).
    destruct l; simpl in *; lia.
  - inversion Ha as [|? l' ? Ha'|? ? ? Ha']; subst.
    + inversion Hb as [|? ? ? Hb'|? ? ? Hb']; subst; [done|]. pose proof (IHb _ Ha Hb'). lia.
    + pose proof (IHa _ _ Ha' Hb). lia.
Qed.

(** The row of [x], from the row of the lines below. *)
Lemma dp_row_spec x a b : ∀ below,
  (∀ j, (j <= length b)%nat → nth j below 0 = lcs_len a (drop j b)) →
  ∀ j, (j <= length b)%nat → nth j (dp_row x b below) 0 = lcs_len (x :: a) (drop j b).
Proof.
  induction b as [|y b IH]; intros below Hbelow j Hj.
  { simpl in Hj. assert (j = 0%nat) as -> by lia. done. }
  assert (∀ k, nth k (tail below) 0 = nth (S k) below 0) as Htail by (intros k; by destruct below, k).
  assert (∀ k, (k <= length b)%nat → nth k (tail below) 0 = lcs_len a (drop k b)) as Hb.
  { intros k Hk. rewrite Htail. apply (Hbelow (S k)). simpl. lia. }
  specialize (IH (tail below) Hb). destruct j as [|j].
  - cbn [dp_row nth drop]. rewrite lcs_len_cons.
    assert (∀ l : list Z, hd 0 l = nth 0 l 0) as Hhd by by intros [].
    rewrite !Hhd, (Hb 0%nat), (IH 0%nat), (Hbelow 0%nat) by (simpl; lia). done.
  - apply IH. simpl in Hj. lia.
Qed.

Lemma cell_spec a b i j : (i <= length a)%nat → (j <= length b)%nat →
  cell (dp_table a b) i j = lcs_len (drop i a) (drop j b).
Proof.
  unfold cell. revert i j. induction a as [|x a IH]; intros i j Hi Hj.
  - simpl in Hi. assert (i = 0%nat) as -> by lia. cbn [dp_table nth drop lcs_len].
    rewrite nth_lookup, lookup_replicate_2 by lia. done.
  - destruct i as [|i]; [|apply IH; simpl in Hi; lia]. cbn [dp_table nth drop].
    apply dp_row_spec; [|done]. intros k Hk.
    transitivity (nth k (nth 0 (dp_table a b) []) 0); [by destruct (dp_table a b)|].
    by rewrite (IH 0%nat) by lia.
Qed.

(** * The walk *)

Definition pair_lt (p q : nat * nat) : Prop := (p.1 < q.1)%nat ∧ (p.2 < q.2)%nat.

Lemma walk_spec fuel a b i j :
  (i <= length a)%nat → (j <= length b)%nat → (length a + length b - i - j <= fuel)%nat →
  let ks := lcs_walk fuel (dp_table a b) a b i j in
  Z.of_nat (length ks) = lcs_len (drop i a) (drop j b) ∧
  StronglySorted pair_lt ks ∧
  ∀ p, p ∈ ks → (i <= p.1)%nat ∧ (j <= p.2)%nat ∧ ∃ x, a !! p.1 = Some x ∧ b !! p.2 = Some x.
Proof.
  revert i j. induction fuel as [|fuel IH]; intros i j Hi Hj Hf.
  { assert (i = length a) as -> by lia. rewrite drop_all. split; [done|]. split; [constructor|].
    by intros p ?%elem_of_nil. }
  cbn [lcs_walk]. destruct (a !! i) as [x|] eqn:Ha.
  2:{ apply lookup_ge_None in Ha. rewrite (drop_ge a) by done. split; [done|]. split; [constructor|].
      by intros p ?%elem_of_nil. }
  destruct (b !! j) as [y|] eqn:Hb.
  2:{ apply lookup_ge_None in Hb. rewrite (drop_ge b), lcs_len_nil_r by done. split; [done|].
      split; [constructor|]. by intros p ?%elem_of_nil. }
  pose proof (lookup_lt_Some _ _ _ Ha). pose proof (lookup_lt_Some _ _ _ Hb).
  rewrite (drop_S _ _ _ Ha), (drop_S _ _ _ Hb), lcs_len_cons.
  destruct (String.eqb_spec x y) as [->|Hne].
  - destruct (IH (S i) (S j)) as (Hl & Hs & Hp); [lia..|]. cbn [length]. split; [lia|]. split.
    + constructor; [done|]. apply Forall_forall. intros p (? & ? & _)%Hp. unfold pair_lt. simpl. lia.
    + intros p [->|(? & ? & Hx)%Hp]%elem_of_cons; [simpl; eauto|]. split_and!; [lia..|done].
  - rewrite !cell_spec, (drop_S _ _ _ Ha), (drop_S _ _ _ Hb) by lia.
    destruct (Z.leb_spec (lcs_len (x :: drop (S i) a) (drop (S j) b)) (lcs_len (drop (S i) a) (y :: drop (S j) b))).
    + destruct (IH (S i) j) as (Hl & Hs & Hp); [lia..|]. rewrite (drop_S _ _ _ Hb) in Hl.
      split; [lia|]. split; [done|]. intros p (? & ? & Hx)%Hp. split_and!; [lia..|done].
    + destruct (IH i (S j)) as (Hl & Hs & Hp); [lia..|]. rewrite (drop_S _ _ _ Ha) in Hl.
      split; [lia|]. split; [done|]. intros p (? & ? & Hx)%Hp. split_and!; [lia..|done].
Qed.

(** The walk over the whole table keeps a longest common subsequence. *)
Lemma lcsKeep_spec a b : (length a <= maxN)%nat → (length b <= maxN)%nat →
  Z.of_nat (length (lcsKeep a b)) = lcs_len a b ∧
  StronglySorted pair_lt (lcsKeep a b) ∧
  ∀ p, p ∈ lcsKeep a b → ∃ x, a !! p.1 = Some x ∧ b !! p.2 = Some x.
Proof.
  intros Ha Hb. unfold lcsKeep. rewrite !take_ge by done.
  destruct (walk_spec (length a + length b) a b 0 0) as (Hl & Hs & Hp); [lia..|].
  rewrite !drop_0 in Hl.
  destruct a as [|x a]; [split; [done|split; [constructor|by intros ? ?%elem_of_nil]]|].
  destruct b as [|y b]; [split; [done|split; [constructor|by intros ? ?%elem_of_nil]]|].
  split; [done|]. split; [done|]. intros p (_ & _ & Hx)%Hp. done.
Qed.

(** * The changes *)

Definition kept_lines (old : list string) (keep : list (nat * nat)) : list string :=
  (λ p, default "" (old !! p.1)) <$> keep.

Lemma sublist_take_drop (i k : nat) (x : string) (old kept : list string) :
  (i <= k)%nat → old !! k = Some x → kept `sublist_of` drop (S k) old →
  x :: kept `sublist_of` drop i old.
Proof.
  intros Hik Hk Hs. rewrite <-(take_drop (k - i) (drop i old)), drop_drop.
  replace (i + (k - i))%nat with k by lia. rewrite (drop_S _ _ _ Hk).
  apply sublist_inserts_l. by constructor.
Qed.

Lemma changes_spec old new keep : ∀ i j,
  (i <= length old)%nat → (j <= length new)%nat →
  StronglySorted pair_lt keep →
  (∀ p, p ∈ keep → (i <= p.1)%nat ∧ (j <= p.2)%nat ∧ ∃ x, old !! p.1 = Some x ∧ new !! p.2 = Some x) →
  let '(removed, added) := changes old new i j keep in
  let kept := kept_lines old keep in
  drop i old ≡ₚ kept ++ removed ∧ drop j new ≡ₚ kept ++ added ∧
  kept `sublist_of` drop i old ∧ kept `sublist_of` drop j new ∧
  removed `sublist_of` drop i old ∧ added `sublist_of` drop j new.
Proof.
  induction keep as [|[k0 k1] keep IH]; intros i j Hi Hj Hs Hp.
  { cbn. split_and!; [done|done|apply sublist_nil_l|apply sublist_nil_l|done|done]. }
  apply StronglySorted_inv in Hs as [Hs Hlt]. rewrite Forall_forall in Hlt.
  destruct (Hp (k0, k1)) as (H0 & H1 & x & Hx0 & Hx1); [left|]. cbn [fst snd] in *.
  pose proof (lookup_lt_Some _ _ _ Hx0). pose proof (lookup_lt_Some _ _ _ Hx1).
  cbn [changes]. specialize (IH (S k0) (S k1) ltac:(lia) ltac:(lia) Hs).
  destruct (changes old new (S k0) (S k1) keep) as [removed added].
  destruct IH as (P0 & P1 & K0 & K1 & R0 & A0).
  { intros p Hin. destruct (Hp p) as (_ & _ & Hx); [by right|].
    specialize (Hlt _ Hin) as [? ?]. cbn [fst snd] in *. split_and!; [lia..|done]. }
  unfold kept_lines. cbn [fmap list_fmap fst]. rewrite Hx0. cbn [default].
  assert (drop i old = take (k0 - i) (drop i old) ++ x :: drop (S k0) old) as Eo.
  { rewrite <-(take_drop (k0 - i) (drop i old)) at 1. f_equal. rewrite drop_drop, <-(drop_S _ _ _ Hx0).
    f_equal. lia. }
  assert (drop j new = take (k1 - j) (drop j new) ++ x :: drop (S k1) new) as En.
  { rewrite <-(take_drop (k1 - j) (drop j new)) at 1. f_equal. rewrite drop_drop, <-(drop_S _ _ _ Hx1).
    f_equal. lia. }
  split_and!.
  - rewrite Eo at 1. rewrite P0. unfold kept_lines. solve_Permutation.
  - rewrite En at 1. rewrite P1. unfold kept_lines. solve_Permutation.
  - by eapply sublist_take_drop.
  - by eapply sublist_take_drop.
  - rewrite Eo at 2. apply sublist_app; [done|]. by apply sublist_cons.
  - rewrite En at 2. apply sublist_app; [done|]. by apply sublist_cons.
Qed.

Lemma splitLines_inj s t : splitLines s = splitLines t → s = t.
Proof.
  assert (∀ u, join (String newline "") (splitLines u) = u) as Hj.
  { intros u. unfold splitLines. destruct (String.eqb_spec u "") as [->|_]; [done|]. apply join_split. }
  intros H. rewrite <-(Hj s), <-(Hj t). by rewrite H.
Qed.

Lemma diffHTML_empty old new : diffHTML old new = "" ↔
  changes (splitLines old) (splitLines new) 0 0 (lcsKeep (splitLines old) (splitLines new)) = ([], []).
Proof.
  unfold diffHTML. destruct (changes _ _ _ _ _) as [removed added].
  split; [by destruct removed, added|by intros [= -> ->]].
Qed.

Lemma sublist_same_length (l k : list string) : l `sublist_of` k → length k = length l → l = k.
Proof.
  induction 1 as [|x l k Hs IH|x l k Hs IH]; intros Hl; [done|f_equal; simpl in Hl; auto|].
  apply sublist_length in Hs. simpl in Hl. lia.
Qed.

(** * The block *)

(** A line as the page shows it. *)
Definition page_line (tag line : string) : string :=
  "<p><" +:+ tag +:+ ">" +:+ escape_html line +:+ "</" +:+ tag +:+ "></p>".

(** The lines shown under a tag: the first fifty, and an ellipsis when there are more. *)
Definition shown (tag : string) (lines : list string) : string :=
  join "" (page_line tag <$> take 50 lines) +:+ (if (50 <? length lines)%nat then "<p>…</p>" else "").

Lemma text_app_assoc (s t u : string) : (s +:+ t) +:+ u = s +:+ (t +:+ u).
Proof. induction s as [|c s IH]; [done|]. change (String c ((s +:+ t) +:+ u) = String c (s +:+ (t +:+ u))). by rewrite IH. Qed.

Lemma text_app_nil (s : string) : s +:+ "" = s.
Proof. induction s as [|c s IH]; [done|]. change (String c (s +:+ "") = String c s). by rewrite IH. Qed.

Lemma join_empty_cons x l : join "" (x :: l) = x +:+ join "" l.
Proof. destruct l; [by rewrite text_app_nil|done]. Qed.

Lemma writeLines_shown tag n lines : (n <= 50)%nat →
  writeLines tag n lines = join "" (page_line tag <$> take (50 - n) lines) +:+ (if (50 - n <? length lines)%nat then "<p>…</p>" else "").
Proof.
  revert n. induction lines as [|line lines IH]; intros n Hn; cbn [writeLines].
  - by rewrite take_nil, (proj2 (Nat.ltb_ge _ _)) by (simpl; lia).
  - destruct (Nat.eqb_spec n 50) as [->|Hne]; [done|]. rewrite IH by lia. destruct (50 - n)%nat as [|k] eqn:E; [lia|].
    replace (50 - S n)%nat with k by lia. cbn [take fmap list_fmap length]. rewrite join_empty_cons, text_app_assoc.
    change (S k <? S (length lines))%nat with (k <? length lines)%nat. unfold page_line. by rewrite !text_app_assoc.
Qed.

(** What a browser shows for a text: the five entities stand for their characters. *)
Fixpoint read_text (skip : nat) (s : string) : string :=
  match s with
  | "" => ""
  | String c s' =>
      match skip with
      | S skip => read_text skip s'
      | O =>
          if has_prefix s "&amp;" then String (ascii_of_nat 38) (read_text 4 s')
          else if has_prefix s "&#39;" then String (ascii_of_nat 39) (read_text 4 s')
          else if has_prefix s "&lt;" then String (ascii_of_nat 60) (read_text 3 s')
          else if has_prefix s "&gt;" then String (ascii_of_nat 62) (read_text 3 s')
          else if has_prefix s "&#34;" then String (ascii_of_nat 34) (read_text 4 s')
          else String c (read_text 0 s')
      end
  end.

(** Characters that are markup. *)
Definition markup (c : ascii) : bool := is_byte 39 c || is_byte 60 c || is_byte 62 c || is_byte 34 c.

Lemma prefix_other c s p : is_byte 38 c = false → has_prefix (String c s) (String (ascii_of_nat 38) p) = false.
Proof. intros Hc. unfold has_prefix. cbn. destruct (ascii_dec _ c) as [<-|]; [done|done]. Qed.

Lemma byte_eq n c : is_byte (Z.of_nat n) c = true → (n < 256)%nat → c = ascii_of_nat n.
Proof.
  unfold is_byte, byte_of. intros H%Z.eqb_eq Hn. rewrite <-(ascii_N_embedding c). unfold ascii_of_nat. f_equal. lia.
Qed.

Ltac entity s :=
  match goal with H : read_text 0 (escape_html s) = s |- _ =>
    revert H; generalize (escape_html s) as r; intros r <-; destruct r; reflexivity end.

(** Escaping loses nothing and leaves no markup. *)
Lemma read_escape s : read_text 0 (escape_html s) = s.
Proof.
  induction s as [|c s IH]; [done|]. cbn [escape_html].
  destruct (is_byte 38 c) eqn:E1; [apply (byte_eq 38) in E1 as ->; [|lia]; entity s|].
  destruct (is_byte 39 c) eqn:E2; [apply (byte_eq 39) in E2 as ->; [|lia]; entity s|].
  destruct (is_byte 60 c) eqn:E3; [apply (byte_eq 60) in E3 as ->; [|lia]; entity s|].
  destruct (is_byte 62 c) eqn:E4; [apply (byte_eq 62) in E4 as ->; [|lia]; entity s|].
  destruct (is_byte 34 c) eqn:E5; [apply (byte_eq 34) in E5 as ->; [|lia]; entity s|].
  cbn [read_text]. rewrite !(prefix_other c _ _ E1). by rewrite IH.
Qed.

Lemma escape_no_markup s : existsb markup (String.list_ascii_of_string (escape_html s)) = false.
Proof.
  induction s as [|c s IH]; [done|]. cbn [escape_html].
  repeat (match goal with |- context [if is_byte ?n c then _ else _] => destruct (is_byte n c) eqn:? end; [exact IH|]).
  cbn [String.list_ascii_of_string existsb]. rewrite IH, orb_false_r. unfold markup. by repeat (apply orb_false_iff; split).
Qed.

(** * Properties *)

(** C38: the change block of a page.  For snapshots of at most 2000 lines, the
    lines removed are the old ones outside a longest common subsequence, in
    order, and those added the new ones outside it: together with the kept lines
    they make up both snapshots, and no common subsequence leaves fewer changes.
    The block is empty exactly when the snapshots are equal; else it is, in one
    box, the first fifty added lines each as [ins] and the first fifty removed
    ones each as [del], either with an ellipsis when there are more.  A line is
    shown by its text: what stands for it holds no quote and no angle bracket, and
    reads back as the line. *)
Theorem page_diff_minimal (oldText newText : string)
    (Ho : (length (splitLines oldText) <= maxN)%nat) (Hn : (length (splitLines newText) <= maxN)%nat) :
  let old := splitLines oldText in
  let new := splitLines newText in
  let '(removed, added) := changes old new 0 0 (lcsKeep old new) in
  (∃ kept, kept `sublist_of` old ∧ kept `sublist_of` new ∧
     old ≡ₚ kept ++ removed ∧ new ≡ₚ kept ++ added) ∧
  removed `sublist_of` old ∧ added `sublist_of` new ∧
  (∀ l, l `sublist_of` old → l `sublist_of` new →
     (length removed <= length old - length l)%nat ∧ (length added <= length new - length l)%nat) ∧
  (diffHTML oldText newText = "" ↔ oldText = newText) ∧
  (oldText ≠ newText → diffHTML oldText newText =
     "<div class=" +:+ quote +:+ "page-diff" +:+ quote +:+ ">" +:+ shown "ins" added +:+ shown "del" removed +:+ "</div><hr>") ∧
  (∀ line, existsb markup (String.list_ascii_of_string (escape_html line)) = false ∧ read_text 0 (escape_html line) = line).
Proof.
  intros old new. destruct (lcsKeep_spec old new Ho Hn) as (Hlen & Hs & Hp).
  pose proof (changes_spec old new (lcsKeep old new) 0 0 ltac:(lia) ltac:(lia) Hs) as Hc.
  destruct (changes old new 0 0 (lcsKeep old new)) as [removed added] eqn:E.
  rewrite diffHTML_empty. fold old new. rewrite E.
  destruct Hc as (P0 & P1 & K0 & K1 & R0 & A0).
  { intros p Hin. split_and!; [lia..|by apply Hp]. }
  change (drop 0 old) with old in *. change (drop 0 new) with new in *. set (kept := kept_lines old (lcsKeep old new)) in *.
  assert (length kept = length (lcsKeep old new)) as Hk by apply length_fmap.
  assert (length old = length kept + length removed)%nat as L0 by (rewrite P0; apply length_app).
  assert (length new = length kept + length added)%nat as L1 by (rewrite P1; apply length_app).
  split; [by exists kept|]. split; [done|]. split; [done|]. split.
  - intros l Hlo Hln. pose proof (lcs_len_upper _ _ _ Hlo Hln). lia.
  - assert (oldText = newText ↔ (removed, added) = ([], [])) as Hsame.
    2:{ split; [by rewrite Hsame|]. split; [|intros line; split; [apply escape_no_markup|apply read_escape]].
        intros Hne%(not_iff_compat Hsame). unfold diffHTML. fold old new. rewrite E, !writeLines_shown by lia.
        destruct removed, added; [by destruct Hne|done..]. }
    split; [|intros [= -> ->]; simpl in *; apply splitLines_inj; fold old new;
      rewrite <-(sublist_same_length kept old), <-(sublist_same_length kept new); [done|done|lia|done|lia]].
    + intros Heq. assert (old = new) as Eon by (unfold old, new; by rewrite Heq).
      pose proof (lcs_len_upper old new old) as Hu. rewrite Eon in *. specialize (Hu (reflexivity _) (reflexivity _)).
      assert (length removed = 0%nat ∧ length added = 0%nat) as [Hr Ha] by lia.
      by apply length_zero_iff_nil in Hr as ->, Ha as ->.
Qed.

(** * Witnesses *)

Lemma page_diff_minimal_witness :
  let nl := String newline "" in
  lcsKeep ["a"; "b"; "c"] ["b"; "d"; "c"] = [(1, 0); (2, 2)]%nat ∧
  changes ["a"; "b"] ["a"; "<c>"] 0 0 [(0, 0)]%nat = (["b"], ["<c>"]) ∧
  diffHTML ("a" +:+ nl +:+ "b") ("a" +:+ nl +:+ "<c>") =
    "<div class=" +:+ quote +:+ "page-diff" +:+ quote +:+ "><p><ins>&lt;c&gt;</ins></p><p><del>b</del></p></div><hr>".
Proof.
  intros nl. split; [vm_compute; reflexivity|]. split; [vm_compute; reflexivity|].
  pose proof (page_diff_minimal ("a" +:+ nl +:+ "b") ("a" +:+ nl +:+ "<c>")) as H.
  specialize (H ltac:(apply Nat.leb_le; vm_compute; reflexivity)
                ltac:(apply Nat.leb_le; vm_compute; reflexivity)). cbv zeta in H.
  assert (E : changes (splitLines ("a" +:+ nl +:+ "b")) (splitLines ("a" +:+ nl +:+ "<c>")) 0 0
    (lcsKeep (splitLines ("a" +:+ nl +:+ "b")) (splitLines ("a" +:+ nl +:+ "<c>"))) = (["b"], ["<c>"])) by (vm_compute; reflexivity).
  rewrite E in H. destruct H as (_ & _ & _ & _ & _ & H & _). rewrite H by discriminate. vm_compute. reflexivity.
Defined.
