(* ===== verification/NetIP.v ===== *)
(** IP addresses and prefixes as Go's [net] and [net/netip] have them: the
    parsers of addresses and CIDRs, the IPv4-in-IPv6 forms, containment and
    printing.  The SSRF guard and the client-address code run on these. *)

From S2P Require Import Prelude GoStrings.
From Stdlib Require Import Ascii.

(** * Addresses *)

(** [netip.Addr]: [a_is4] is a 32-bit [a_val], otherwise it has 128 bits and may
    carry a zone. *)
Record Addr := mkAddr { a_is4 : bool; a_val : Z; a_zone : string }.

#[export] Instance Addr_eq_dec : EqDecision Addr.
Proof. solve_decision. Defined.

Definition bit_len (a : Addr) : Z := if a_is4 a then 32 else 128.

(** The prefix [::ffff:0:0/96] of IPv4 addresses in IPv6. *)
Definition v4_in_v6 : Z := Z.shiftl 65535 32.

(** [Addr.Unmap] Loses the zone of a mapped address. *)
Definition Unmap (a : Addr) : Addr :=
  if negb (a_is4 a) && (Z.shiftr (a_val a) 32 =? 65535)
  then mkAddr true (Z.land (a_val a) (Z.ones 32)) "" else a.

(** [Addr.As16] *)
Definition As16 (a : Addr) : Z := if a_is4 a then Z.lor v4_in_v6 (a_val a) else a_val a.

(** ** Parsing *)

Definition dot : ascii := ascii_of_nat 46.
Definition colon : ascii := ascii_of_nat 58.
Definition percent : ascii := ascii_of_nat 37.
Definition slash : ascii := ascii_of_nat 47.

(** One field of an IPv4 address: digits, at most 255, no leading zero. *)
Definition parse_octet (s : string) : option Z :=
  match s with
  | "" => None
  | String c rest =>
      v ← digits_val 0 s;
      if is_byte 48 c && negb (String.eqb rest "") then None
      else if 255 <? v then None else Some v
  end.

(** [parseIPv4] *)
Definition parse_v4 (s : string) : option Z :=
  match split_on dot s with
  | [a; b; c; d] =>
      a ← parse_octet a; b ← parse_octet b; c ← parse_octet c; d ← parse_octet d;
      Some (Z.shiftl a 24 + Z.shiftl b 16 + Z.shiftl c 8 + d)
  | _ => None
  end.

Definition hex_val (c : ascii) : option Z :=
  let n := byte_of c in
  if (48 <=? n) && (n <=? 57) then Some (n - 48)
  else if (97 <=? n) && (n <=? 102) then Some (n - 87)
  else if (65 <=? n) && (n <=? 70) then Some (n - 55)
  else None.

(** The leading hexadecimal digits of [s]: their number, value and the rest. *)
Fixpoint span_hex (off : nat) (acc : Z) (s : string) : nat * Z * string :=
  match s with
  | "" => (off, acc, "")
  | String c s' =>
      match hex_val c with
      | Some d => span_hex (S off) (acc * 16 + d) s'
      | None => (off, acc, s)
      end
  end.

(** The loop of [parseIPv6]: [groups] are the 16-bit groups so far, [ell] the
    position of the ellipsis among them.  At most eight iterations. *)
Fixpoint parse_v6_loop (fuel : nat) (s : string) (groups : list Z) (ell : option nat)
    : option (string * list Z * option nat) :=
  match fuel with
  | O => Some (s, groups, ell)
  | S fuel =>
      let '(off, acc, rest) := span_hex 0 0 s in
      if Nat.eqb off 0 || Nat.ltb 4 off then None
      else match rest with
      | "" => Some ("", groups ++ [acc], ell)
      | String c rest' =>
          if Ascii.eqb c dot then
            if (match ell with None => negb (Nat.eqb (length groups) 6) | _ => false end)
               || Nat.ltb 6 (length groups) then None
            else v ← parse_v4 s;
                 Some ("", groups ++ [Z.shiftr v 16; Z.land v 65535], ell)
          else if negb (Ascii.eqb c colon) then None
          else match rest' with
          | "" => None
          | String c2 rest2 =>
              let groups := groups ++ [acc] in
              if Ascii.eqb c2 colon then
                match ell with
                | Some _ => None
                | None =>
                    match rest2 with
                    | "" => Some ("", groups, Some (length groups))
                    | _ => parse_v6_loop fuel rest2 groups (Some (length groups))
                    end
                end
              else parse_v6_loop fuel rest' groups ell
          end
      end
  end.

Definition of_groups (gs : list Z) : Z := foldl (λ acc g, acc * 65536 + g) 0 gs.

(** [parseIPv6] without its zone. *)
Definition parse_v6 (s : string) : option Z :=
  let '(s, ell) := if has_prefix s "::" then (str_drop 2 s, Some 0%nat) else (s, None) in
  match s, ell with
  | "", Some _ => Some 0
  | _, _ =>
      '(rest, groups, ell) ← parse_v6_loop 8 s [] ell;
      if negb (String.eqb rest "") then None
      else match ell with
      | None => if Nat.eqb (length groups) 8 then Some (of_groups groups) else None
      | Some k =>
          if Nat.ltb (length groups) 8
          then Some (of_groups (take k groups ++ replicate (8 - length groups) 0 ++ drop k groups))
          else None
      end
  end.

(** The byte among [.], [:] and [%] that comes first decides the family. *)
Fixpoint first_mark (s : string) : option ascii :=
  match s with
  | "" => None
  | String c s => if Ascii.eqb c dot || Ascii.eqb c colon || Ascii.eqb c percent then Some c else first_mark s
  end.

(** [netip.ParseAddr] *)
Definition ParseAddr (s : string) : option Addr :=
  match first_mark s with
  | None => None
  | Some c =>
      if Ascii.eqb c dot then v ← parse_v4 s; Some (mkAddr true v "")
      else if Ascii.eqb c colon then
        let '(body, zone, found) := cut percent s in
        if (found : bool) && String.eqb zone "" then None
        else v ← parse_v6 body; Some (mkAddr false v zone)
      else None
  end.

(** [net.ParseIP] The 16-byte form. *)
Definition ParseIP (s : string) : option Z :=
  a ← ParseAddr s;
  if String.eqb (a_zone a) "" then Some (As16 a) else None.

(** ** Printing *)

Definition fmt_v4 (n : Z) : string :=
  join "." ((λ k, fmt_digits 3 10 (Z.land (Z.shiftr n k) 255) "") <$> [24; 16; 8; 0]).

Definition group_of (n : Z) (i : nat) : Z := Z.land (Z.shiftr n (16 * (7 - Z.of_nat i))) 65535.

(** The length of the run of zero groups from [i]. *)
Fixpoint zero_run (fuel : nat) (n : Z) (i : nat) : nat :=
  match fuel with
  | O => 0%nat
  | S fuel => if Nat.ltb i 8 && (group_of n i =? 0) then S (zero_run fuel n (S i)) else 0%nat
  end.

(** The first longest run of at least two zero groups: its start and length. *)
Definition best_run (n : Z) : nat * nat :=
  foldl (λ best i, let l := zero_run 8 n i in
                   if Nat.leb 2 l && Nat.ltb best.2 l then (i, l) else best)
    (8%nat, 0%nat) (seq 0 8).

Definition fmt_v6 (n : Z) : string :=
  let hex i := fmt_digits 4 16 (group_of n i) "" in
  let '(start, len) := best_run n in
  if Nat.eqb len 0 then join ":" (hex <$> seq 0 8)
  else join ":" (hex <$> seq 0 start) +:+ "::" +:+ join ":" (hex <$> seq (start + len) (8 - start - len)).

(** [Addr.String] *)
Definition AddrString (a : Addr) : string :=
  if a_is4 a then fmt_v4 (a_val a)
  else
    let body := if Z.shiftr (a_val a) 32 =? 65535 then "::ffff:" +:+ fmt_v4 (Z.land (a_val a) (Z.ones 32))
                else fmt_v6 (a_val a) in
    if String.eqb (a_zone a) "" then body else body +:+ "%" +:+ a_zone a.

(** * Prefixes *)

(** The top [ones] of [bits] bits of [n], the others cleared. *)
Definition mask_bits (bits ones n : Z) : Z := Z.shiftl (Z.shiftr n (bits - ones)) (bits - ones).

(** [netip.Prefix] *)
Record Prefix := mkPrefix { p_addr : Addr; p_bits : Z }.

(** [Prefix.Masked] *)
Definition Masked (p : Prefix) : Prefix :=
  mkPrefix (mkAddr (a_is4 (p_addr p)) (mask_bits (bit_len (p_addr p)) (p_bits p) (a_val (p_addr p))) "")
    (p_bits p).

(** The last [c] of [s] splits it. *)
Definition cut_last (c : ascii) (s : string) : option (string * string) :=
  let '(b, a, found) := cut c (str_rev s) in
  if (found : bool) then Some (str_rev a, str_rev b) else None.

(** [netip.ParsePrefix] *)
Definition ParsePrefix (s : string) : option Prefix :=
  '(addr, bitsStr) ← cut_last slash s;
  a ← ParseAddr addr;
  if negb (String.eqb (a_zone a) "") then None
  else if Nat.ltb 1 (String.length bitsStr)
          && match bitsStr with String c _ => (byte_of c <? 49) || (57 <? byte_of c) | "" => true end
  then None
  else bits ← parse_int64 bitsStr;
       if (bits <? 0) || (bit_len a <? bits) then None else Some (mkPrefix a bits).

(** [Prefix.Contains] *)
Definition prefix_contains (p : Prefix) (a : Addr) : bool :=
  String.eqb (a_zone a) "" && Bool.eqb (a_is4 a) (a_is4 (p_addr p))
  && (Z.shiftr (a_val a) (bit_len a - p_bits p) =? Z.shiftr (a_val (p_addr p)) (bit_len a - p_bits p)).

(** [net.IPNet] as [ParseCIDR] builds it: the masked network number, 32 or 128 bits
    wide. *)
Record IPNet := mkIPNet { n_is4 : bool; n_base : Z; n_ones : Z }.

(** [net.ParseCIDR] *)
Definition ParseCIDR (s : string) : option IPNet :=
  let '(addr, mask, found) := cut slash s in
  if negb found then None
  else
    a ← ParseAddr addr;
    if negb (String.eqb (a_zone a) "") then None
    else if String.eqb mask "" then None
    else n ← digits_val 0 mask;
         if bit_len a <? n then None
         else Some (mkIPNet (a_is4 a) (mask_bits (bit_len a) n (a_val a)) n).

(** [IP.To4] of a 16-byte address. *)
Definition To4 (ip : Z) : option Z :=
  if Z.shiftr ip 32 =? 65535 then Some (Z.land ip (Z.ones 32)) else None.

(** [networkNumberAndMask]: a 16-byte network inside [::ffff:0:0/96] is the IPv4
    network of its last four bytes. *)
Definition normal_net (n : IPNet) : IPNet :=
  if n_is4 n then n
  else match To4 (n_base n) with
       | Some b => mkIPNet true b (Z.max 0 (n_ones n - 96))
       | None => n
       end.

(** [IPNet.Contains] of a 16-byte address. *)
Definition net_contains (n : IPNet) (ip : Z) : bool :=
  let n := normal_net n in
  match To4 ip with
  | Some v => n_is4 n && (Z.shiftr v (32 - n_ones n) =? Z.shiftr (n_base n) (32 - n_ones n))
  | None => negb (n_is4 n) && (Z.shiftr ip (128 - n_ones n) =? Z.shiftr (n_base n) (128 - n_ones n))
  end.

(** * Lemmas *)

Example parse_v4_ex : ParseAddr "192.168.0.1" = Some (mkAddr true 3232235521 "").
Proof. vm_compute. reflexivity. Qed.
Example parse_v4_zero : ParseAddr "01.2.3.4" = None.
Proof. vm_compute. reflexivity. Qed.
Example parse_v6_ex : AddrString <$> ParseAddr "2001:DB8:0::ffff:0:0:1%eth0" = Some "2001:db8::ffff:0:0:1%eth0".
Proof. vm_compute. reflexivity. Qed.
Example parse_v6_mapped : Unmap <$> ParseAddr "::ffff:127.0.0.1" = Some (mkAddr true 2130706433 "").
Proof. vm_compute. reflexivity. Qed.
Example parse_v6_short : ParseAddr "1:2:3:4:5:6:7::" = Some (mkAddr false 5192455318486707404433266433261568 "").
Proof. vm_compute. reflexivity. Qed.
Example fmt_v6_ex : AddrString <$> ParseAddr "0:0:1:0:0:0:0:0" = Some "0:0:1::".
Proof. vm_compute. reflexivity. Qed.

(** An address is in a masked network exactly when it is in its interval. *)
Lemma shiftr_interval v b k : 0 <= k → b mod 2 ^ k = 0 →
  Z.shiftr v k = Z.shiftr b k ↔ b <= v < b + 2 ^ k.
Proof.
  intros Hk Hb. rewrite !Z.shiftr_div_pow2 by done.
  assert (0 < 2 ^ k) by (apply Z.pow_pos_nonneg; lia).
  pose proof (Z.div_mod b (2 ^ k)). pose proof (Z.div_mod v (2 ^ k)).
  pose proof (Z.mod_pos_bound v (2 ^ k)). split; nia.
Qed.

Lemma mask_bits_mod bits ones n : ones <= bits → mask_bits bits ones n mod 2 ^ (bits - ones) = 0.
Proof.
  intros H. unfold mask_bits. rewrite Z.shiftl_mul_pow2 by lia. apply Z.mod_mul.
  apply Z.pow_nonzero; lia.
Qed.

(** The 16-byte form of an IPv4 address and back. *)
Definition embed_v4 (v : Z) : Z := Z.lor v4_in_v6 v.

Lemma embed_v4_add v : 0 <= v < 2 ^ 32 → embed_v4 v = 65535 * 2 ^ 32 + v.
Proof.
  intros Hv. unfold embed_v4, v4_in_v6. rewrite Z.shiftl_mul_pow2 by lia.
  symmetry. apply Z.add_nocarry_lor. apply Z.bits_inj'. intros i Hi.
  rewrite Z.land_spec, Z.bits_0. destruct (Z.ltb_spec i 32).
  - rewrite Z.mul_pow2_bits_low by lia. done.
  - rewrite (Z.bits_above_log2 v), andb_false_r; [done|lia|].
    destruct (decide (v = 0)) as [->|]; [simpl; lia|]. assert (Z.log2 v < 32) by (apply Z.log2_lt_pow2; lia). lia.
Qed.

Lemma To4_embed v : 0 <= v < 2 ^ 32 → To4 (embed_v4 v) = Some v.
Proof.
  intros Hv. unfold To4. rewrite embed_v4_add by done. rewrite Z.shiftr_div_pow2, Z.land_ones by lia.
  rewrite Z.div_add_l, Z.div_small by lia. rewrite (Z.add_comm (_ * _)), Z.mod_add, Z.mod_small by lia. done.
Qed.

Lemma To4_range ip v : To4 ip = Some v → 0 <= v < 2 ^ 32 ∧ ip = 65535 * 2 ^ 32 + v.
Proof.
  unfold To4. destruct (Z.eqb_spec (Z.shiftr ip 32) 65535) as [H|]; [|done]. intros [= <-].
  rewrite Z.shiftr_div_pow2 in H by lia. rewrite Z.land_ones by lia.
  pose proof (Z.mod_pos_bound ip (2 ^ 32)). pose proof (Z.div_mod ip (2 ^ 32)). lia.
Qed.

Lemma net_contains_v4 b ones v ip : 0 <= ones <= 32 → b mod 2 ^ (32 - ones) = 0 → To4 ip = Some v →
  net_contains (mkIPNet true b ones) ip = true ↔ b <= v < b + 2 ^ (32 - ones).
Proof.
  intros Ho Hb Hv. unfold net_contains. cbn [normal_net n_is4 n_base n_ones]. rewrite Hv. cbn [andb].
  rewrite Z.eqb_eq. apply shiftr_interval; [lia|done].
Qed.

Lemma net_contains_v6 b ones ip : 0 <= ones <= 128 → b mod 2 ^ (128 - ones) = 0 →
  To4 b = None → To4 ip = None →
  net_contains (mkIPNet false b ones) ip = true ↔ b <= ip < b + 2 ^ (128 - ones).
Proof.
  intros Ho Hb Hn Hv. unfold net_contains. unfold normal_net. cbn [n_is4 n_base n_ones]. rewrite Hn, Hv.
  cbn [n_is4 n_base n_ones negb andb]. rewrite Z.eqb_eq. apply shiftr_interval; [lia|done].
Qed.

(** Printing and parsing an IPv4 address. *)
Definition octet_ok (n : Z) : bool :=
  bool_decide (parse_octet (fmt_digits 3 10 n "") = Some n) && negb (has_byte dot (fmt_digits 3 10 n "")).

Lemma octets_all : forallb (λ n, octet_ok (Z.of_nat n)) (seq 0 256) = true.
Proof. vm_compute. reflexivity. Qed.

Lemma octet_roundtrip n : 0 <= n < 256 →
  parse_octet (fmt_digits 3 10 n "") = Some n ∧ has_byte dot (fmt_digits 3 10 n "") = false.
Proof.
  intros Hn. pose proof (proj1 (forallb_forall _ _) octets_all (Z.to_nat n)) as H.
  cbv beta in H. rewrite Z2Nat.id in H by lia. unfold octet_ok in H.
  rewrite andb_true_iff, negb_true_iff, bool_decide_eq_true in H. apply H, in_seq. lia.
Qed.

Lemma octet_range n k : 0 <= Z.land (Z.shiftr n k) 255 < 256.
Proof. rewrite (Z.land_ones _ 8) by lia. apply Z.mod_pos_bound. lia. Qed.

Lemma octets_sum n : 0 <= n < 2 ^ 32 →
  Z.shiftl (Z.land (Z.shiftr n 24) 255) 24 + Z.shiftl (Z.land (Z.shiftr n 16) 255) 16
  + Z.shiftl (Z.land (Z.shiftr n 8) 255) 8 + Z.land (Z.shiftr n 0) 255 = n.
Proof.
  intros Hn. rewrite !(Z.land_ones _ 8), !Z.shiftl_mul_pow2, !Z.shiftr_div_pow2 by lia.
  change (2 ^ 24) with 16777216. change (2 ^ 16) with 65536. change (2 ^ 8) with 256.
  change (2 ^ 0) with 1. change (2 ^ 32) with 4294967296 in Hn.
  Z.to_euclidean_division_equations. lia.
Qed.

Lemma fmt_v4_roundtrip n : 0 <= n < 2 ^ 32 → parse_v4 (fmt_v4 n) = Some n.
Proof.
  intros Hn. unfold parse_v4, fmt_v4. change "." with (String dot "") at 1.
  destruct (octet_roundtrip _ (octet_range n 24)) as [P1 D1]. destruct (octet_roundtrip _ (octet_range n 16)) as [P2 D2].
  destruct (octet_roundtrip _ (octet_range n 8)) as [P3 D3]. destruct (octet_roundtrip _ (octet_range n 0)) as [P4 D4].
  rewrite split_join; [|done|by repeat constructor]. cbn [fmap list_fmap].
  rewrite P1, P2, P3, P4. cbn [mbind option_bind]. f_equal. by apply octets_sum.
Qed.

(** ** The range of a parsed address *)

Lemma parse_v4_range s v : parse_v4 s = Some v → 0 <= v < 2 ^ 32.
Proof.
  assert (∀ f n, parse_octet f = Some n → 0 <= n < 256) as Ho.
  { intros [|c f] n; [done|]. unfold parse_octet. destruct (digits_val 0 (String c f)) as [m|] eqn:Hm; [|done].
    apply digits_val_nonneg in Hm; [|lia]. cbn. case_match; [done|]. case_match; [done|]. intros [= <-]. lia. }
  unfold parse_v4. destruct (split_on dot s) as [|fa [|fb [|fc [|fd [|? ?]]]]]; try done. intros H.
  repeat match type of H with (parse_octet ?f ≫= _) = _ =>
    let n := fresh "n" in destruct (parse_octet f) as [n|] eqn:?; [|done]; cbn [mbind option_bind] in H end.
  injection H as <-. rewrite !Z.shiftl_mul_pow2 by lia.
  repeat match goal with E : parse_octet _ = Some _ |- _ => apply Ho in E end.
  change (2 ^ 24) with 16777216. change (2 ^ 16) with 65536. change (2 ^ 8) with 256. lia.
Qed.

Lemma span_hex_range s off acc off' acc' rest : 0 <= acc < 16 ^ Z.of_nat off →
  span_hex off acc s = (off', acc', rest) → 0 <= acc' < 16 ^ Z.of_nat off'.
Proof.
  revert off acc. induction s as [|c s IH]; intros off acc Ha; cbn [span_hex]; [intros [= <- <- <-]; done|].
  destruct (hex_val c) as [d|] eqn:Hd; [|intros [= <- <- <-]; done]. apply IH.
  rewrite Nat2Z.inj_succ, Z.pow_succ_r by lia. unfold hex_val in Hd.
  repeat case_match; simplify_eq; lia.
Qed.

Notation group16 g := (0 <= g < 65536).

Lemma parse_v6_loop_range fuel s groups ell rest groups' ell' : Forall (λ g, group16 g) groups →
  parse_v6_loop fuel s groups ell = Some (rest, groups', ell') → Forall (λ g, group16 g) groups'.
Proof.
  revert s groups ell. induction fuel as [|fuel IH]; intros s groups ell Hg; cbn [parse_v6_loop];
    [intros [= <- <- <-]; done|].
  destruct (span_hex 0 0 s) as [[off acc] r] eqn:Hs.
  apply span_hex_range in Hs; [|simpl; lia].
  destruct (Nat.eqb off 0 || Nat.ltb 4 off) eqn:Hoff; [done|].
  assert (group16 acc).
  { assert (16 ^ Z.of_nat off <= 16 ^ 4) by (apply Z.pow_le_mono_r; [lia|]; destruct (Nat.ltb_spec 4 off); [|lia];
      by rewrite orb_true_r in Hoff). change (16 ^ 4) with 65536 in *. lia. }
  assert (Forall (λ g, group16 g) (groups ++ [acc])) by (apply Forall_app; auto).
  destruct r as [|c r]; [intros [= <- <- <-]; done|].
  destruct (Ascii.eqb c dot).
  { case_match; [done|]. destruct (parse_v4 s) as [v|] eqn:Hv; [|done]. intros [= <- <- <-].
    apply parse_v4_range in Hv. apply Forall_app; split; [done|].
    rewrite Z.shiftr_div_pow2, (Z.land_ones _ 16) by lia.
    pose proof (Z.mod_pos_bound v (2 ^ 16)). change (2 ^ 32) with 4294967296 in *. change (2 ^ 16) with 65536 in *.
    repeat constructor; Z.to_euclidean_division_equations; lia. }
  destruct (negb (Ascii.eqb c colon)); [done|].
  destruct r as [|c2 r2]; [done|]. destruct (Ascii.eqb c2 colon); [|by apply IH].
  destruct ell; [done|]. destruct r2; [intros [= <- <- <-]; done|by apply IH].
Qed.

Lemma of_groups_range gs : Forall (λ g, group16 g) gs → 0 <= of_groups gs < 65536 ^ Z.of_nat (length gs).
Proof.
  induction gs as [|g gs IH] using rev_ind; [done|]. intros H.
  apply Forall_app in H as [H1 H2%Forall_inv]. specialize (IH H1).
  unfold of_groups in *. rewrite foldl_app, length_app. cbn [foldl length].
  rewrite Nat.add_1_r, Nat2Z.inj_succ, Z.pow_succ_r by lia. lia.
Qed.

Lemma of_groups_128 gs : length gs = 8%nat → Forall (λ g, group16 g) gs → 0 <= of_groups gs < 2 ^ 128.
Proof. intros Hl H. apply of_groups_range in H. by rewrite Hl in H. Qed.

Lemma parse_v6_range s v : parse_v6 s = Some v → 0 <= v < 2 ^ 128.
Proof.
  unfold parse_v6. destruct (if has_prefix s "::" then _ else _) as [s' ell].
  assert (∀ q : option Z, q = Some v → (q = Some 0 ∨ q = '(rest, groups, ell) ← parse_v6_loop 8 s' [] ell;
      if negb (String.eqb rest "") then None
      else match ell with
      | None => if Nat.eqb (length groups) 8 then Some (of_groups groups) else None
      | Some k =>
          if Nat.ltb (length groups) 8
          then Some (of_groups (take k groups ++ replicate (8 - length groups) 0 ++ drop k groups))
          else None
      end) → 0 <= v < 2 ^ 128) as Hq.
  { intros q Hq [->| ->]; [injection Hq as <-; lia|].
    destruct (parse_v6_loop 8 s' [] ell) as [[[rest groups] ell']|] eqn:Hl; [|done]. cbn [mbind option_bind] in Hq.
    apply parse_v6_loop_range in Hl; [|constructor]. destruct (negb (String.eqb rest "")); [done|].
    revert Hq. destruct ell' as [k|].
    - destruct (Nat.ltb_spec (length groups) 8); [|done]. intros [= <-]. apply of_groups_128.
      + rewrite !length_app, length_replicate, length_take, length_drop. lia.
      + rewrite !Forall_app. split_and!; [by apply Forall_take|by apply Forall_replicate|by apply Forall_drop].
    - destruct (Nat.eqb_spec (length groups) 8); [|done]. intros [= <-]. by apply of_groups_128. }
  destruct s'; [destruct ell|]; intros H; eapply Hq; eauto.
Qed.

Lemma ParseIP_range s ip : ParseIP s = Some ip → 0 <= ip < 2 ^ 128.
Proof.
  unfold ParseIP, ParseAddr. destruct (first_mark s) as [c|]; [|done].
  destruct (Ascii.eqb c dot).
  - destruct (parse_v4 s) as [v|] eqn:Hv; [|done]. cbn. intros [= <-]. apply parse_v4_range in Hv.
    unfold As16. cbn [a_is4 a_val]. change (Z.lor v4_in_v6 v) with (embed_v4 v).
    rewrite embed_v4_add by done. lia.
  - destruct (Ascii.eqb c colon); [|done]. destruct (cut percent s) as [[body zone] found].
    destruct (found && _); [done|]. destruct (parse_v6 body) as [v|] eqn:Hv; [|done]. cbn.
    destruct (String.eqb zone ""); [|done]. intros [= <-]. by apply parse_v6_range in Hv.
Qed.
