(* ===== verification/SsrfGuard.v ===== *)
(** The guard against server-side request forgery ([ssrf/guard.go] and the
    dialer of [ssrf/transport.go]): which hosts and addresses a fetch, a
    webhook or a proxy setting may reach.  [url.Parse] and the resolver's
    answers are parameters: a lookup may answer differently each time it is
    asked. *)

From S2P Require Import Prelude GoStrings NetIP.
From Stdlib Require Import Ascii.

(** * Definitions *)

(** ssrf/guard.go [Config] The fields that decide. *)
Record Config := mkConfig {
  AllowPrivateNetwork : bool; AllowedCIDRs : list string; BlockedHosts : list string;
  AllowedHosts : list string;
}.

(** ssrf/guard.go [Guard] *)
Record Guard := mkGuard {
  g_allowPrivate : bool; g_allowedNets : list IPNet; g_blockedNets : list IPNet;
  g_blockedHosts : gset string; g_allowedHosts : gset string;
}.

(** ssrf/guard.go [defaultBlockedCIDRs] *)
Definition defaultBlockedCIDRs : list string :=
  ["10.0.0.0/8"; "172.16.0.0/12"; "192.168.0.0/16"; "127.0.0.0/8"; "169.254.0.0/16"; "100.64.0.0/10";
   "0.0.0.0/8"; "192.0.0.0/24"; "192.0.2.0/24"; "198.18.0.0/15"; "198.51.100.0/24"; "203.0.113.0/24";
   "224.0.0.0/4"; "240.0.0.0/4"; "::/128"; "::1/128"; "100::/64"; "2001:db8::/32"; "fc00::/7";
   "fe80::/10"; "ff00::/8"]%string.

Definition no_net : IPNet := mkIPNet true 0 0.

(** ssrf/guard.go [mustCIDR] The panic does not occur on the three constants. *)
Definition mustCIDR (s : string) : IPNet := default no_net (ParseCIDR s).

(** ssrf/guard.go:74-76 [nat64Prefix, sixToFour, v4Compat] *)
Definition nat64Prefix : IPNet := mustCIDR "64:ff9b::/96".
Definition sixToFour : IPNet := mustCIDR "2002::/16".
Definition v4Compat : IPNet := mustCIDR "::/96".

(** ssrf/guard.go [embeddedIPv4] The 16-byte form of the carried address. *)
Definition embeddedIPv4 (ip : Z) : option Z :=
  match To4 ip with
  | Some _ => None
  | None =>
      if net_contains nat64Prefix ip || net_contains v4Compat ip
      then Some (embed_v4 (Z.land ip (Z.ones 32)))
      else if net_contains sixToFour ip then Some (embed_v4 (Z.land (Z.shiftr ip 80) (Z.ones 32)))
      else None
  end.

(** ssrf/guard.go [normalizeHost] *)
Definition normalizeHost (host : string) : string :=
  let host := trim_space (to_lower host) in
  if String.eqb host "" then ""
  else
    let host := if has_prefix host "[" && has_suffix host "]"
                then trim_prefix (trim_suffix host "]") "[" else host in
    trim_suffix host ".".

(** ssrf/guard.go:126-137 [New, the hosts] *)
Definition host_set (hosts : list string) : gset string :=
  list_to_set (filter (λ h, h ≠ "") (normalizeHost <$> hosts)).

Fixpoint parse_cidrs (l : list string) : option (list IPNet) :=
  match l with
  | [] => Some []
  | s :: l => n ← ParseCIDR s; ns ← parse_cidrs l; Some (n :: ns)
  end.

(** ssrf/guard.go [New] [None] is a CIDR that does not parse. *)
Definition New (cfg : Config) : option Guard :=
  blocked ← parse_cidrs defaultBlockedCIDRs;
  allowed ← parse_cidrs (filter (λ s, s ≠ "") (trim_space <$> AllowedCIDRs cfg));
  Some (mkGuard (AllowPrivateNetwork cfg) allowed blocked (host_set (BlockedHosts cfg))
          (host_set (AllowedHosts cfg))).

(** ssrf/guard.go [Guard.isAllowedHost] *)
Definition isAllowedHost (g : Guard) (hostname : string) : bool :=
  bool_decide (normalizeHost hostname ∈ g_allowedHosts g).

(** ssrf/guard.go [Guard.checkBlockedHost] Whether the host passes. *)
Definition checkBlockedHost (g : Guard) (hostname : string) : bool :=
  let host := normalizeHost hostname in
  if String.eqb host "" then false
  else if bool_decide (host ∈ g_allowedHosts g) then true
  else negb (bool_decide (host ∈ g_blockedHosts g)).

(** ssrf/guard.go [Guard.validateIP] Whether a 16-byte address passes. *)
Definition validateIP (g : Guard) (ip : Z) : bool :=
  if g_allowPrivate g then true
  else if existsb (λ n, net_contains n ip) (g_allowedNets g) then true
  else if existsb (λ n, net_contains n ip) (g_blockedNets g) then false
  else match embeddedIPv4 ip with
       | Some inner => negb (existsb (λ n, net_contains n inner) (g_blockedNets g))
       | None => true
       end.

(** What [url.Parse] finds in a URL. *)
Record ParsedURL := mkURL { u_scheme : string; u_user : bool; u_hostname : string }.

Section Guarded.
Context (url_parse : string → option ParsedURL).
(** A resolver's answer to one question: [None] is a lookup error. *)
Notation resolver := (string → option (list string)).

(** ssrf/guard.go [Guard.lookupIPs] [None] is an error. *)
Definition lookupIPs (lookup : resolver) (hostname : string) : option (list Z) :=
  match ParseIP hostname with
  | Some ip => Some [ip]
  | None =>
      addrs ← lookup hostname;
      match omap ParseIP addrs with [] => None | ips => Some ips end
  end.

(** ssrf/guard.go [Guard.resolveHost] *)
Definition resolveHost (g : Guard) (lookup : resolver) (hostname : string) : option (list Z) :=
  if negb (checkBlockedHost g hostname) then None
  else
    ips ← lookupIPs lookup hostname;
    if isAllowedHost g hostname then Some ips
    else if forallb (validateIP g) ips then Some ips else None.

(** ssrf/guard.go [Guard.parseURL] *)
Definition parseURL (g : Guard) (rawURL : string) : option ParsedURL :=
  let rawURL := trim_space rawURL in
  if String.eqb rawURL "" then None
  else
    u ← url_parse rawURL;
    if negb (String.eqb (u_scheme u) "http") && negb (String.eqb (u_scheme u) "https") then None
    else if u_user u then None
    else if String.eqb (u_hostname u) "" then None
    else if checkBlockedHost g (u_hostname u) then Some u else None.

(** ssrf/guard.go [Guard.ValidateURL] Whether the URL is accepted. *)
Definition ValidateURL (g : Guard) (lookup : resolver) (rawURL : string) : bool :=
  match parseURL g rawURL with
  | None => false
  | Some u => match resolveHost g lookup (u_hostname u) with Some _ => true | None => false end
  end.

(** ssrf/guard.go [Guard.ValidateHost] The nil guard is [None]. *)
Definition ValidateHost (g : option Guard) (lookup : resolver) (hostname : string) : bool :=
  match g with
  | None => true
  | Some g => match resolveHost g lookup (trim_space hostname) with Some _ => true | None => false end
  end.

(** ssrf/transport.go [Guard.proxyFromEnvironment] [proxy] is
    [http.ProxyFromEnvironment]: an error, no proxy, or the proxy's URL. *)
Definition proxyFromEnvironment (g : Guard) (lookup : resolver) (proxy : option (option string))
    (target : string) : option (option string) :=
  match proxy with
  | Some (Some p) =>
      match resolveHost g lookup target with Some _ => Some (Some p) | None => None end
  | r => r
  end.

(** ssrf/transport.go:123-132 [Guard.dialContext, the attempts] The addresses tried, in
    order, until [dial] succeeds. *)
Fixpoint attempts (dial : Z → bool) (ips : list Z) : list Z * option Z :=
  match ips with
  | [] => ([], None)
  | ip :: ips => if dial ip then ([ip], Some ip)
                 else let '(tried, r) := attempts dial ips in (ip :: tried, r)
  end.

(** ssrf/transport.go [Guard.dialContext] From the host of the dialled address on;
    [proxyHosts] are the hosts of the environment's proxies. *)
Definition dialContext (g : Guard) (proxyHosts : gset string) (lookup : resolver) (dial : Z → bool)
    (host : string) : list Z * option Z :=
  match (if bool_decide (to_lower host ∈ proxyHosts) then lookupIPs lookup host
         else resolveHost g lookup host) with
  | None => ([], None)
  | Some ips => attempts dial ips
  end.
End Guarded.

(** * The address policy, by ranges *)

Definition ip4 (a b c d : Z) : Z := ((a * 256 + b) * 256 + c) * 256 + d.

(** Private, loopback, link-local, shared, documentation, benchmarking, multicast
    and reserved IPv4. *)
Definition forbidden_v4 (v : Z) : Prop :=
  ip4 0 0 0 0 <= v <= ip4 0 255 255 255 ∨ ip4 10 0 0 0 <= v <= ip4 10 255 255 255 ∨
  ip4 100 64 0 0 <= v <= ip4 100 127 255 255 ∨ ip4 127 0 0 0 <= v <= ip4 127 255 255 255 ∨
  ip4 169 254 0 0 <= v <= ip4 169 254 255 255 ∨ ip4 172 16 0 0 <= v <= ip4 172 31 255 255 ∨
  ip4 192 0 0 0 <= v <= ip4 192 0 0 255 ∨ ip4 192 0 2 0 <= v <= ip4 192 0 2 255 ∨
  ip4 192 168 0 0 <= v <= ip4 192 168 255 255 ∨ ip4 198 18 0 0 <= v <= ip4 198 19 255 255 ∨
  ip4 198 51 100 0 <= v <= ip4 198 51 100 255 ∨ ip4 203 0 113 0 <= v <= ip4 203 0 113 255 ∨
  ip4 224 0 0 0 <= v <= ip4 255 255 255 255.

(** The first 16-bit group of an address. *)
Definition top (ip : Z) : Z := ip / 2 ^ 112.

(** Unspecified, loopback, discard, documentation, unique-local, link-local and
    multicast IPv6. *)
Definition forbidden_v6 (ip : Z) : Prop :=
  ip = 0 ∨ ip = 1 ∨ ip / 2 ^ 64 = 256 * 2 ^ 48 ∨ ip / 2 ^ 96 = 8193 * 2 ^ 16 + 3512 ∨
  64512 <= top ip <= 65023 ∨ 65152 <= top ip <= 65215 ∨ 65280 <= top ip <= 65535.

(** The IPv4 address an IPv6 one leads to: mapped, compatible, NAT64 or 6to4. *)
Definition leads_to (ip v : Z) : Prop :=
  0 <= v < 2 ^ 32 ∧
  (ip = 65535 * 2 ^ 32 + v ∨ ip = v ∨ ip = (100 * 2 ^ 16 + 65435) * 2 ^ 96 + v ∨
   ip / 2 ^ 80 = 8194 * 2 ^ 32 + v).

(** An address a feed may not make the server talk to. *)
Definition forbidden (ip : Z) : Prop :=
  (∃ v, leads_to ip v ∧ forbidden_v4 v) ∨ (To4 ip = None ∧ forbidden_v6 ip).

(** * Lemmas *)

Lemma net_v4 b ones ip : 0 <= ones <= 32 → b mod 2 ^ (32 - ones) = 0 →
  net_contains (mkIPNet true b ones) ip = true ↔
  ∃ v, To4 ip = Some v ∧ b <= v <= b + (2 ^ (32 - ones) - 1).
Proof.
  intros Ho Hb. destruct (To4 ip) as [v|] eqn:Hv.
  - rewrite (net_contains_v4 b ones v ip Ho Hb Hv). split; [intros; exists v; split; [done|lia]|].
    intros (v' & [= <-] & ?). lia.
  - unfold net_contains. cbn [normal_net n_is4]. rewrite Hv. cbn. split; [done|by intros (v & ? & _)].
Qed.

Lemma net_v6 b ones ip : 0 <= ones <= 128 → b mod 2 ^ (128 - ones) = 0 → To4 b = None →
  net_contains (mkIPNet false b ones) ip = true ↔
  To4 ip = None ∧ b <= ip <= b + (2 ^ (128 - ones) - 1).
Proof.
  intros Ho Hb Hn. destruct (To4 ip) as [v|] eqn:Hv.
  - unfold net_contains, normal_net. cbn [n_is4 n_base n_ones]. rewrite Hn, Hv. cbn. split; [done|by intros [? _]].
  - rewrite (net_contains_v6 b ones ip Ho Hb Hn Hv). split; [intros; split; [done|lia]|intros [_ ?]; lia].
Qed.

Definition default_nets : list IPNet := Eval vm_compute in default [] (parse_cidrs defaultBlockedCIDRs).

Lemma default_nets_parse : parse_cidrs defaultBlockedCIDRs = Some default_nets.
Proof. vm_compute. reflexivity. Qed.

Definition v6_range (ip lo hi : Z) : Prop := lo <= ip <= hi.

Lemma forbidden_v6_ranges ip : 0 <= ip < 2 ^ 128 →
  forbidden_v6 ip ↔
  ip = 0 ∨ ip = 1 ∨ 256 * 2 ^ 112 <= ip <= 256 * 2 ^ 112 + (2 ^ 64 - 1) ∨
  (8193 * 2 ^ 16 + 3512) * 2 ^ 96 <= ip <= (8193 * 2 ^ 16 + 3512) * 2 ^ 96 + (2 ^ 96 - 1) ∨
  64512 * 2 ^ 112 <= ip <= 64512 * 2 ^ 112 + (2 ^ 121 - 1) ∨
  65152 * 2 ^ 112 <= ip <= 65152 * 2 ^ 112 + (2 ^ 118 - 1) ∨
  65280 * 2 ^ 112 <= ip <= 65280 * 2 ^ 112 + (2 ^ 120 - 1).
Proof.
  intros Hip. unfold forbidden_v6, top.
  assert (∀ k q, 0 <= k → ip / 2 ^ k = q ↔ q * 2 ^ k <= ip <= q * 2 ^ k + (2 ^ k - 1)) as Hdiv.
  { intros k q Hk. assert (0 < 2 ^ k) by (apply Z.pow_pos_nonneg; lia).
    pose proof (Z.div_mod ip (2 ^ k)). pose proof (Z.mod_pos_bound ip (2 ^ k)). split; nia. }
  assert (∀ lo hi, lo <= ip / 2 ^ 112 <= hi ↔ lo * 2 ^ 112 <= ip <= hi * 2 ^ 112 + (2 ^ 112 - 1)) as Hr.
  { intros lo hi. pose proof (Z.div_mod ip (2 ^ 112)). pose proof (Z.mod_pos_bound ip (2 ^ 112)). split; nia. }
  rewrite !Hdiv, !Hr by lia. cbn. lia.
Qed.

(** The same two facts once [To4] is known. *)
Lemma net_v4_some b ones v ip : To4 ip = Some v → 0 <= ones <= 32 → b mod 2 ^ (32 - ones) = 0 →
  net_contains (mkIPNet true b ones) ip = true ↔ b <= v <= b + (2 ^ (32 - ones) - 1).
Proof.
  intros Hv Ho Hb. rewrite (net_v4 b ones ip Ho Hb), Hv. split; [by intros (v' & [= <-] & ?)|eauto].
Qed.

Lemma net_v4_none b ones ip : To4 ip = None → 0 <= ones <= 32 → b mod 2 ^ (32 - ones) = 0 →
  net_contains (mkIPNet true b ones) ip = true ↔ False.
Proof. intros Hv Ho Hb. rewrite (net_v4 b ones ip Ho Hb), Hv. split; [by intros (v' & ? & _)|done]. Qed.

Lemma net_v6_some b ones v ip : To4 ip = Some v → 0 <= ones <= 128 → b mod 2 ^ (128 - ones) = 0 →
  To4 b = None → net_contains (mkIPNet false b ones) ip = true ↔ False.
Proof. intros Hv Ho Hb Hn. rewrite (net_v6 b ones ip Ho Hb Hn), Hv. split; [by intros [? _]|done]. Qed.

Lemma net_v6_none b ones ip : To4 ip = None → 0 <= ones <= 128 → b mod 2 ^ (128 - ones) = 0 →
  To4 b = None → net_contains (mkIPNet false b ones) ip = true ↔ b <= ip <= b + (2 ^ (128 - ones) - 1).
Proof. intros Hv Ho Hb Hn. rewrite (net_v6 b ones ip Ho Hb Hn). tauto. Qed.

Lemma blocked_v4 ip v : To4 ip = Some v →
  existsb (λ n, net_contains n ip) default_nets = true ↔ forbidden_v4 v.
Proof.
  intros Hv. destruct (To4_range _ _ Hv) as [Hr _].
  unfold default_nets. cbn [existsb]. rewrite !orb_true_iff.
  rewrite !(net_v4_some _ _ v ip Hv) by (first [lia | reflexivity]).
  rewrite !(net_v6_some _ _ v ip Hv) by (first [lia | reflexivity]).
  unfold forbidden_v4, ip4. cbn. clear Hv Hr. lia.
Qed.

Lemma blocked_v6 ip : 0 <= ip < 2 ^ 128 → To4 ip = None →
  existsb (λ n, net_contains n ip) default_nets = true ↔ forbidden_v6 ip.
Proof.
  intros Hip Hv. rewrite (forbidden_v6_ranges ip Hip).
  unfold default_nets. cbn [existsb]. rewrite !orb_true_iff.
  rewrite !(net_v4_none _ _ ip Hv) by (first [lia | reflexivity]).
  rewrite !(net_v6_none _ _ ip Hv) by (first [lia | reflexivity]).
  cbn. clear Hv. lia.
Qed.

Lemma default_blocked ip : 0 <= ip < 2 ^ 128 →
  existsb (λ n, net_contains n ip) default_nets = true ↔
  (∃ v, To4 ip = Some v ∧ forbidden_v4 v) ∨ (To4 ip = None ∧ forbidden_v6 ip).
Proof.
  intros Hip. destruct (To4 ip) as [v|] eqn:Hv.
  - rewrite (blocked_v4 ip v Hv). split; [by eauto|intros [(v' & [= <-] & ?)|[? _]]; done].
  - rewrite (blocked_v6 ip Hip Hv). split; [by eauto|intros [(v' & ? & _)|[_ ?]]; done].
Qed.

(** The embedded address, by its form. *)
Lemma leads_to_unique ip v v' : leads_to ip v → leads_to ip v' → v = v'.
Proof.
  intros [Hv H] [Hv' H']. assert (∀ w, 0 <= w < 2 ^ 32 → ip / 2 ^ 80 = 8194 * 2 ^ 32 + w →
    (8194 * 2 ^ 32 + w) * 2 ^ 80 <= ip < (8194 * 2 ^ 32 + w) * 2 ^ 80 + 2 ^ 80) as Hd.
  { intros w _ Hw. pose proof (Z.div_mod ip (2 ^ 80)). pose proof (Z.mod_pos_bound ip (2 ^ 80)). lia. }
  pose proof (Hd v Hv) as D. pose proof (Hd v' Hv') as D'. clear Hd. lia.
Qed.

Lemma nat64_net : nat64Prefix = mkIPNet false ((100 * 2 ^ 16 + 65435) * 2 ^ 96) 96.
Proof. vm_compute. reflexivity. Qed.
Lemma sixToFour_net : sixToFour = mkIPNet false (8194 * 2 ^ 112) 16.
Proof. vm_compute. reflexivity. Qed.
Lemma v4Compat_net : v4Compat = mkIPNet false 0 96.
Proof. vm_compute. reflexivity. Qed.

Lemma embedded_leads ip : 0 <= ip < 2 ^ 128 → To4 ip = None →
  match embeddedIPv4 ip with
  | Some inner => ∃ v, inner = embed_v4 v ∧ leads_to ip v
  | None => ∀ v, ¬ leads_to ip v
  end.
Proof.
  intros Hip Hn. unfold embeddedIPv4. rewrite Hn, nat64_net, sixToFour_net, v4Compat_net.
  assert (∀ v, 0 <= v < 2 ^ 32 → ip ≠ 65535 * 2 ^ 32 + v) as Hmap.
  { intros v Hv ->. rewrite <-embed_v4_add in Hn by done. by rewrite To4_embed in Hn. }
  pose proof (Z.mod_pos_bound ip (2 ^ 32)) as Hm. pose proof (Z.div_mod ip (2 ^ 32)) as Hdm.
  destruct (net_contains (mkIPNet false ((100 * 2 ^ 16 + 65435) * 2 ^ 96) 96) ip) eqn:H1;
    [|destruct (net_contains (mkIPNet false 0 96) ip) eqn:H2]; cbn [orb].
  - rewrite net_v6_none in H1 by (first [done | lia]). exists (ip mod 2 ^ 32).
    rewrite Z.land_ones by lia. split; [done|]. split; [lia|]. right; right; left.
    lia.
  - rewrite net_v6_none in H2 by (first [done | lia]). exists (ip mod 2 ^ 32).
    rewrite Z.land_ones by lia. split; [done|]. split; [lia|]. right; left.
    rewrite Z.mod_small by lia. done.
  - rewrite <-not_true_iff_false, net_v6_none in H1, H2 by (first [done | lia]).
    pose proof (Z.div_mod ip (2 ^ 80)) as Hd. pose proof (Z.mod_pos_bound ip (2 ^ 80)) as Hp.
    destruct (net_contains (mkIPNet false (8194 * 2 ^ 112) 16) ip) eqn:H3.
    + rewrite net_v6_none in H3 by (first [done | lia]).
      rewrite Z.land_ones, Z.shiftr_div_pow2 by lia. exists ((ip / 2 ^ 80) mod 2 ^ 32).
      pose proof (Z.mod_pos_bound (ip / 2 ^ 80) (2 ^ 32)). pose proof (Z.div_mod (ip / 2 ^ 80) (2 ^ 32)).
      split; [done|]. split; [lia|]. right; right; right.
      assert (ip / 2 ^ 80 / 2 ^ 32 = 8194) as H8; [|lia].
      rewrite Z.div_div by lia. symmetry. apply (Z.div_unique_pos _ _ _ (ip - 8194 * 2 ^ 112)); lia.
    + rewrite <-not_true_iff_false, net_v6_none in H3 by (first [done | lia]).
      intros v [Hv H]. specialize (Hmap v Hv). lia.
Qed.

(** A guard of [New] blocks the default networks. *)
Lemma New_blocked cfg g : New cfg = Some g →
  g_blockedNets g = default_nets ∧ g_allowPrivate g = AllowPrivateNetwork cfg ∧
  g_allowedHosts g = host_set (AllowedHosts cfg) ∧ g_blockedHosts g = host_set (BlockedHosts cfg).
Proof.
  unfold New. rewrite default_nets_parse. cbn [mbind option_bind].
  destruct (parse_cidrs _); [|done]. by intros [= <-].
Qed.

(** Whether the operator allows the address. *)
Definition excepted (g : Guard) (ip : Z) : Prop := ∃ n, n ∈ g_allowedNets g ∧ net_contains n ip = true.

Lemma validateIP_spec cfg g ip : New cfg = Some g → AllowPrivateNetwork cfg = false → 0 <= ip < 2 ^ 128 →
  validateIP g ip = true ↔ excepted g ip ∨ ¬ forbidden ip.
Proof.
  intros Hg Hp Hip. destruct (New_blocked _ _ Hg) as (Hb & Ha & _ & _).
  unfold validateIP. rewrite Ha, Hp, Hb.
  destruct (existsb _ (g_allowedNets g)) eqn:He.
  { split; [intros _; left|done]. apply existsb_exists in He as (n & Hn & Hc).
    exists n. by rewrite list_elem_of_In. }
  assert (¬ excepted g ip) as Hne.
  { intros (n & Hn & Hc). apply not_true_iff_false in He. apply He, existsb_exists.
    exists n. by rewrite <-list_elem_of_In. }
  cut ((if existsb (λ n, net_contains n ip) default_nets then false
        else match embeddedIPv4 ip with
             | Some inner => negb (existsb (λ n, net_contains n inner) default_nets)
             | None => true end) = true ↔ ¬ forbidden ip); [tauto|]. clear Hg Hp Ha Hb He Hne.
  destruct (To4 ip) as [v|] eqn:Hv.
  - pose proof (blocked_v4 ip v Hv) as Hb. assert (leads_to ip v) as Hl.
    { destruct (To4_range _ _ Hv). split; auto. }
    assert (forbidden ip ↔ forbidden_v4 v) as ->.
    { unfold forbidden. rewrite Hv. split; [|eauto].
      intros [(v' & Hl' & Hf)|[? _]]; [|done]. by rewrite (leads_to_unique ip v v'). }
    unfold embeddedIPv4. rewrite Hv. destruct (existsb _ _); [|]; intuition done.
  - pose proof (blocked_v6 ip Hip Hv) as Hb. pose proof (embedded_leads ip Hip Hv) as He.
    destruct (existsb _ default_nets).
    { split; [discriminate|]. intros H. destruct H. right. split; [exact Hv|]. apply Hb. reflexivity. }
    assert (¬ forbidden_v6 ip) as Hn6 by (intros H; apply Hb in H; discriminate).
    unfold forbidden. rewrite Hv. destruct (embeddedIPv4 ip) as [inner|].
    + destruct He as (v & -> & Hl). rewrite negb_true_iff, <-not_true_iff_false.
      rewrite (blocked_v4 (embed_v4 v) v (To4_embed v (proj1 Hl))).
      split; [|intros H Hf; apply H; left; eauto]. intros Hf [(v' & Hl' & Hf')|[_ ?]]; [|auto].
      rewrite (leads_to_unique ip v v' Hl Hl') in Hf. auto.
    + split; [|reflexivity]. intros _ [(v & Hl & _)|[_ ?]]; [by apply (He v)|auto].
Qed.

Lemma attempts_sub dial ips ip : ip ∈ fst (attempts dial ips) → ip ∈ ips.
Proof.
  induction ips as [|i ips IH]; cbn [attempts]; [done|]. destruct (dial i).
  { intros [->|?]%elem_of_cons; [left|by rewrite elem_of_nil in *]. }
  destruct (attempts dial ips) as [tried r]. cbn [fst]. intros [->|?]%elem_of_cons; [left|right; auto].
Qed.

Lemma lookupIPs_range lookup host ips : lookupIPs lookup host = Some ips → Forall (λ ip, 0 <= ip < 2 ^ 128) ips.
Proof.
  unfold lookupIPs. destruct (ParseIP host) as [ip|] eqn:Hip.
  { intros [= <-]. repeat constructor; by apply (ParseIP_range host). }
  destruct (lookup host) as [addrs|]; [|done]. cbn [mbind option_bind].
  assert (Forall (λ ip, 0 <= ip < 2 ^ 128) (omap ParseIP addrs)).
  { apply Forall_forall. intros i (a & _ & Ha)%list_elem_of_omap. by apply (ParseIP_range a). }
  by destruct (omap ParseIP addrs); [|intros [= <-]].
Qed.

(** * Theorems *)

(** C13: with private networks not allowed as a whole ([AllowPrivateNetwork] false), an
    address the guard's transport dials is one the policy allows, whatever the
    resolver answers and however often its answer changes: a host the operator has
    not allowed, and that is no proxy of the environment, is connected to only at
    addresses outside every private, loopback, link-local and reserved range -- also
    when the range is reached through a mapped, compatible, NAT64 or 6to4 IPv6
    address -- or in a network the operator allows; one forbidden answer among
    several stops the connection, and a blocked host is refused whatever the resolver
    would answer.  This is about [dialContext], behind every client the guard makes.
    The Telegram bridge's SOCKS proxies are reached by another dialler: a per-feed proxy is
    checked by [ValidateHost] and then dialled by name (reader/telegram/handler.go,
    [fetchViaStatic]), so that connection is outside this theorem. *)
Theorem ssrf_dial_safe (lookup : string → option (list string)) cfg g proxies dial host :
  New cfg = Some g → AllowPrivateNetwork cfg = false →
  to_lower host ∉ proxies → isAllowedHost g host = false →
  let tried := fst (dialContext g proxies lookup dial host) in
  (∀ ip, ip ∈ tried → excepted g ip ∨ ¬ forbidden ip) ∧
  (∀ ips ip, lookupIPs lookup host = Some ips → ip ∈ ips → ¬ excepted g ip → forbidden ip → tried = []) ∧
  (checkBlockedHost g host = false → ∀ lookup' dial', dialContext g proxies lookup' dial' host = ([], None)).
Proof.
  intros Hg Hp Hx Ha. unfold dialContext, resolveHost. rewrite bool_decide_false by done. rewrite Ha.
  destruct (checkBlockedHost g host) eqn:Hb; cbn [negb].
  2:{ by split_and!; [intros ip H; apply elem_of_nil in H| |]. }
  destruct (lookupIPs lookup host) as [ips|] eqn:Hl; cbn [mbind option_bind];
    [|split_and!; [intros ip H; by apply elem_of_nil in H|done|discriminate]].
  pose proof (lookupIPs_range _ _ _ Hl) as Hr. rewrite Forall_forall in Hr.
  assert (∀ ip, ip ∈ ips → validateIP g ip = true ↔ excepted g ip ∨ ¬ forbidden ip) as Hv.
  { intros ip Hi. apply (validateIP_spec cfg); auto. }
  destruct (forallb (validateIP g) ips) eqn:Hf.
  - rewrite forallb_forall in Hf. split_and!; [| |discriminate].
    + intros ip Hi%attempts_sub. apply Hv, Hf, list_elem_of_In; done.
    + intros ips' ip [= <-] Hi Hne Hfb. exfalso.
      assert (excepted g ip ∨ ¬ forbidden ip) as [|] by (apply Hv, Hf, list_elem_of_In; done); auto.
  - split_and!; [intros ip H; by apply elem_of_nil in H|auto|discriminate].
Qed.

Lemma ssrf_dial_safe_witness :
  let cfg := mkConfig false ["10.1.0.0/16"] ["metadata"] [] in
  let lookup h := if String.eqb h "feed.example" then Some ["93.184.216.34"; "2002:a00:1::1"] else Some ["::ffff:10.1.2.3"] in
  match New cfg with
  | None => False
  | Some g =>
      (∀ ip, ip ∈ fst (dialContext g ∅ lookup (λ _, true) "lan.example") → excepted g ip ∨ ¬ forbidden ip) ∧
      fst (dialContext g ∅ lookup (λ _, true) "lan.example") ≠ [] ∧
      fst (dialContext g ∅ lookup (λ _, true) "feed.example") = []
  end.
Proof.
  cbv zeta. destruct (New (mkConfig false ["10.1.0.0/16"] ["metadata"] [])) as [g|] eqn:Hg;
    [|vm_compute in Hg; discriminate].
  split; [|vm_compute in Hg; injection Hg as <-; split; vm_compute; [discriminate|reflexivity]].
  apply (ssrf_dial_safe _ (mkConfig false ["10.1.0.0/16"] ["metadata"] []) g ∅ (λ _, true) "lan.example" Hg eq_refl);
    [set_solver|]. vm_compute in Hg. injection Hg as <-. vm_compute. reflexivity.
Defined.
