(* ===== verification/ClientIP.v ===== *)
(** Who a request comes from ([http/middleware/clientip.go]): forwarding
    headers are believed only from trusted proxies, and the hop list is walked
    from the server outwards. *)

From S2P Require Import Prelude GoStrings NetIP.
From Stdlib Require Import Ascii.

(** * Definitions *)

Definition comma : ascii := ascii_of_nat 44.
Definition lbracket : ascii := ascii_of_nat 91.
Definition rbracket : ascii := ascii_of_nat 93.

(** What the code reads of an [http.Request]; a header by its canonical name has a
    list of values. *)
Record Request := mkRequest {
  r_remote : string; r_header : string → list string; r_host : string; r_tls : bool;
}.

(** [Header.Get] *)
Definition header_get (r : Request) (name : string) : string := default "" (head (r_header r name)).

(** [net.SplitHostPort], the host; [None] is an error. *)
Definition split_host_port (hostport : string) : option string :=
  match cut_last colon hostport with
  | None => None
  | Some (before, port) =>
      if has_prefix hostport "["  then
        let '(inside, after, found) := cut rbracket hostport in
        if negb found then None
        else if negb (String.eqb after (String colon port)) then None
        else let host := str_drop 1 inside in
             if has_byte lbracket host || has_byte lbracket port || has_byte rbracket port then None
             else Some host
      else if has_byte colon before then None
      else if has_byte lbracket hostport || has_byte rbracket hostport then None
      else Some before
  end.

Fixpoint trim_left_brackets (s : string) : string :=
  match s with
  | "" => ""
  | String c s' => if Ascii.eqb c lbracket || Ascii.eqb c rbracket then trim_left_brackets s' else s
  end.

(** [strings.Trim(s, "[]")] *)
Definition trim_brackets (s : string) : string :=
  str_rev (trim_left_brackets (str_rev (trim_left_brackets s))).

(** http/middleware/clientip.go [SetTrustedProxies] The new list, or [None] and the old
    one stays. *)
Fixpoint SetTrustedProxies (entries : list string) : option (list Prefix) :=
  match entries with
  | [] => Some []
  | e :: entries =>
      let e := trim_space e in
      if String.eqb e "" then SetTrustedProxies entries
      else if contains e "/" then
        p ← ParsePrefix e; ps ← SetTrustedProxies entries; Some (Masked p :: ps)
      else
        a ← ParseAddr e;
        ps ← SetTrustedProxies entries;
        Some (mkPrefix (mkAddr (a_is4 a) (a_val a) "") (bit_len a) :: ps)
  end.

(** http/middleware/clientip.go [DefaultTrustedProxies] *)
Definition DefaultTrustedProxies : list Prefix :=
  default [] (SetTrustedProxies ["127.0.0.0/8"; "::1/128"]).

Section Trusted.
(** The active list; it is replaced as a whole. *)
Variable trusted : list Prefix.

(** http/middleware/clientip.go [isTrustedProxy] *)
Definition isTrustedProxy (addr : Addr) : bool :=
  existsb (λ pre, prefix_contains pre (Unmap addr)) trusted.

(** http/middleware/clientip.go [remoteAddr] The host as text and, when it parses, its
    address. *)
Definition remoteAddr (r : Request) : string * option Addr :=
  let raw := trim_space (r_remote r) in
  let host := default raw (split_host_port raw) in
  (host, ParseAddr (trim_brackets host)).

(** http/middleware/clientip.go [PeerIsTrustedProxy] *)
Definition PeerIsTrustedProxy (r : Request) : bool :=
  match snd (remoteAddr r) with Some peer => isTrustedProxy peer | None => false end.

(** A hop of X-Forwarded-For. *)
Definition hop_addr (part : string) : option Addr := ParseAddr (trim_brackets (trim_space part)).

(** http/middleware/clientip.go:105-116 [ClientIP, the walk] From the hop nearest to the
    server; [None] when it runs out or meets a malformed hop. *)
Fixpoint walk_hops (parts : list string) : option Addr :=
  match parts with
  | [] => None
  | part :: parts =>
      match hop_addr part with
      | None => None
      | Some a => if isTrustedProxy a then walk_hops parts else Some a
      end
  end.

(** http/middleware/clientip.go [ClientIP] *)
Definition ClientIP (r : Request) : string :=
  let '(host, peer) := remoteAddr r in
  if negb (PeerIsTrustedProxy r) then host
  else
    let xff := header_get r "X-Forwarded-For" in
    match (if String.eqb (trim_space xff) "" then None else walk_hops (rev (split_on comma xff))) with
    | Some a => AddrString (Unmap a)
    | None =>
        let xri := trim_space (header_get r "X-Real-Ip") in
        if String.eqb xri "" then host
        else match ParseAddr (trim_brackets xri) with
             | Some a => AddrString (Unmap a)
             | None => host
             end
    end.

(** The first of comma-separated values. *)
Definition first_value (s : string) : string :=
  let '(v, _, found) := cut comma s in if (found : bool) then trim_space v else s.

(** http/middleware/clientip.go [RequestHost] *)
Definition RequestHost (r : Request) : string :=
  if PeerIsTrustedProxy r then
    let xfh := trim_space (header_get r "X-Forwarded-Host") in
    if String.eqb xfh "" then r_host r else first_value xfh
  else r_host r.

(** http/middleware/clientip.go [ForwardedProto] *)
Definition ForwardedProto (r : Request) : string :=
  if negb (PeerIsTrustedProxy r) then ""
  else to_lower (first_value (trim_space (header_get r "X-Forwarded-Proto"))).

(** http/middleware/clientip.go [RequestIsSecure] *)
Definition RequestIsSecure (r : Request) (hstsEnabled : bool) : bool :=
  if r_tls r || hstsEnabled then true else String.eqb (ForwardedProto r) "https".
End Trusted.

(** * Lemmas *)

(** The same connection with other headers. *)
Definition with_headers (r : Request) (hs : string → list string) : Request :=
  mkRequest (r_remote r) hs (r_host r) (r_tls r).

(** The hop is a trusted proxy. *)
Definition trusted_hop (trusted : list Prefix) (part : string) : bool :=
  match hop_addr part with Some a => isTrustedProxy trusted a | None => false end.

Lemma walk_hops_app trusted front parts : Forall (λ p, trusted_hop trusted p = true) front →
  walk_hops trusted (front ++ parts) = walk_hops trusted parts.
Proof.
  induction 1 as [|p front Hp _ IH]; [done|]. cbn [app walk_hops]. unfold trusted_hop in Hp.
  destruct (hop_addr p); [|done]. by rewrite Hp.
Qed.

Lemma split_join_tail forged parts : parts ≠ [] → Forall (λ x, has_byte comma x = false) parts →
  split_on comma (forged +:+ String comma (join (String comma "") parts)) = split_on comma forged ++ parts.
Proof.
  intros Hn Hf. by rewrite split_on_append, split_join.
Qed.

Lemma has_comma_list forged t : comma ∈ String.list_ascii_of_string (forged +:+ String comma t).
Proof. induction forged as [|c forged IH]; [left|by right]. Qed.

(** * Theorems *)

(** C37: a client cannot choose the address it is rate-limited by.  From a peer that is no
    trusted proxy every header is ignored, for the address as for the host and the
    scheme.  Behind a trusted proxy that appends to the header it was given, the address
    is that of the hop nearest to the server that is no trusted proxy: with that hop
    followed by trusted ones at the end of the header's first line, whatever text --
    commas, addresses, garbage -- stands before it changes nothing.  Nothing is claimed
    of the host and the scheme behind a proxy: there the first value of
    X-Forwarded-Host and X-Forwarded-Proto is taken, which a client writes itself when
    the proxy appends to them ([first_forwarded_host]); nor of a proxy that adds a line
    of its own below the client's ([second_line_ignored]). *)
Theorem client_ip_unforgeable trusted r :
  (PeerIsTrustedProxy trusted r = false → ∀ hs,
     let r' := with_headers r hs in
     ClientIP trusted r' = fst (remoteAddr r) ∧ RequestHost trusted r' = r_host r ∧
     ForwardedProto trusted r' = "" ∧ (∀ hsts, RequestIsSecure trusted r' hsts = r_tls r || hsts)) ∧
  (PeerIsTrustedProxy trusted r = true → ∀ hs forged hop a front rest,
     hop_addr hop = Some a → isTrustedProxy trusted a = false →
     Forall (λ p, trusted_hop trusted p = true) front → Forall (λ x, has_byte comma x = false) (hop :: front) →
     hs "X-Forwarded-For"%string = (forged +:+ String comma (join (String comma "") (hop :: front))) :: rest →
     ClientIP trusted (with_headers r hs) = AddrString (Unmap a)).
Proof.
  assert (∀ hs, PeerIsTrustedProxy trusted (with_headers r hs) = PeerIsTrustedProxy trusted r) as Hp by done.
  split.
  - intros Ht hs. cbv zeta. unfold ClientIP, RequestHost, ForwardedProto, RequestIsSecure, ForwardedProto.
    rewrite Hp, Ht. change (remoteAddr (with_headers r hs)) with (remoteAddr r).
    destruct (remoteAddr r) as [host peer]. cbn. split_and!; try done. intros hsts. by destruct (r_tls r), hsts.
  - intros Ht hs forged hop a front rest Ha Hu Hf Hc Hx. unfold ClientIP. rewrite Hp, Ht.
    change (remoteAddr (with_headers r hs)) with (remoteAddr r). destruct (remoteAddr r) as [host peer].
    cbn [negb]. unfold header_get, with_headers. cbn [r_header]. rewrite Hx. cbn [head from_option id].
    rewrite (proj2 (String.eqb_neq _ _)).
    + rewrite split_join_tail by done. rewrite rev_app_distr. cbn [rev]. rewrite <-!(assoc_L app).
      rewrite walk_hops_app; [|by apply Forall_rev].
      cbn [app walk_hops]. by rewrite Ha, Hu.
    + apply (trim_space_keeps comma); [done|done|apply has_comma_list].
Qed.

(** Behind a proxy that appends, the host and the scheme are the client's own words. *)
Example first_forwarded_host :
  let hs name := if String.eqb name "X-Forwarded-Host" then ["evil.example, rss.example"]
                 else if String.eqb name "X-Forwarded-Proto" then ["https, http"] else [] in
  let r := mkRequest "127.0.0.1:4000" hs "rss" false in
  RequestHost DefaultTrustedProxies r = "evil.example" ∧ RequestIsSecure DefaultTrustedProxies r false = true.
Proof. vm_compute. done. Qed.

(** Of several lines of a header the first is read. *)
Example second_line_ignored :
  let hs name := if String.eqb name "X-Forwarded-For" then ["1.2.3.4"; "203.0.113.9"] else [] in
  ClientIP DefaultTrustedProxies (mkRequest "127.0.0.1:4000" hs "rss" false) = "1.2.3.4".
Proof. vm_compute. done. Qed.

Lemma client_ip_unforgeable_witness :
  let hs name := if String.eqb name "X-Forwarded-For" then ["1.2.3.4, [::1], 203.0.113.9 , 127.0.0.1"] else ["6.6.6.6"] in
  ClientIP DefaultTrustedProxies (mkRequest "[::1]:4000" hs "rss" false) = "203.0.113.9" ∧
  ClientIP DefaultTrustedProxies (mkRequest "198.51.100.7:4000" hs "rss" false) = "198.51.100.7".
Proof.
  cbv zeta. set (hs := λ name : string, if String.eqb name "X-Forwarded-For" then _ else _). split.
  - apply (proj2 (client_ip_unforgeable DefaultTrustedProxies (mkRequest "[::1]:4000" hs "rss" false)) eq_refl hs
      "1.2.3.4, [::1]" " 203.0.113.9 " (mkAddr true 3405803785 "") [" 127.0.0.1"] []);
      [vm_compute; reflexivity..| | |vm_compute; reflexivity].
    + repeat constructor.
    + repeat constructor.
  - apply (proj1 (client_ip_unforgeable DefaultTrustedProxies (mkRequest "198.51.100.7:4000" hs "rss" false)) eq_refl hs).
Defined.
