(* ===== verification/UrlDedup.v ===== *)
(** The canonical form of an item's URL and the hash that recognises it again
    ([model/dedup.go]). *)

From S2P Require Import Prelude GoStrings.
From Stdlib Require Import Ascii.

(** * Definitions *)

Definition amp : ascii := ascii_of_nat 38.
Definition eq_sign : ascii := ascii_of_nat 61.

(** model/dedup.go [trackingParams] *)
Definition trackingParams : gset string :=
  list_to_set
    ["gclid"; "dclid"; "gbraid"; "wbraid"; "gclsrc"; "srsltid"; "_ga"; "_gl"; "yclid"; "ysclid"; "_openstat";
     "fbclid"; "fb_action_ids"; "fb_action_types"; "fb_ref"; "fb_source"; "fb_comment_id"; "igshid"; "ttclid";
     "twclid"; "ref_src"; "ref_url"; "li_fat_id"; "msclkid"; "mc_cid"; "mc_eid"; "mc_tc"; "_hsenc"; "_hsmi";
     "__hssc"; "__hstc"; "__hsfp"; "hsctatracking"; "hsa_cam"; "mkt_tok"; "sc_cid"; "_bhlid"; "vero_id";
     "vero_conv"; "oly_anon_id"; "oly_enc_id"; "rb_clickid"; "wickedid"; "_branch_match_id";
     "_branch_referrer"]%string.

(** model/dedup.go:43-43 [trackingPrefixes] *)
Definition trackingPrefixes : list string := ["utm_"; "mtm_"; "pk_"; "itm_"; "hmb_"]%string.

(** model/dedup.go [isTrackingParam] *)
Definition isTrackingParam (rawKey : string) : bool :=
  let key := to_lower rawKey in
  existsb (has_prefix key) trackingPrefixes || bool_decide (key ∈ trackingParams).

(** The key of a query segment. *)
Definition seg_key (seg : string) : string := let '(key, _, _) := cut eq_sign seg in key.
Definition tracking_seg (seg : string) : bool := isTrackingParam (seg_key seg).

(** model/dedup.go:73-84 [StripTrackingParams, the segments kept] *)
Fixpoint keep_segs (segs : list string) : list string :=
  match segs with
  | [] => []
  | seg :: segs =>
      if String.eqb seg "" then keep_segs segs
      else if tracking_seg seg then keep_segs segs
      else seg :: keep_segs segs
  end.

(** model/dedup.go [StripTrackingParams] *)
Definition StripTrackingParams (rawQuery : string) : string * bool :=
  if String.eqb rawQuery "" then (rawQuery, false)
  else if negb (existsb tracking_seg (split_on amp rawQuery)) then (rawQuery, false)
  else (join (String amp "") (keep_segs (split_on amp rawQuery)), true).

(** The fields of [url.URL] the code looks at; [u_rest] are the others. *)
Record URL (Rest : Type) := mkURL {
  u_scheme : string; u_host : string; u_path : string; u_rawQuery : string; u_forceQuery : bool;
  u_fragment : string; u_rawFragment : string; u_rest : Rest;
}.
Arguments mkURL {_}. Arguments u_scheme {_}. Arguments u_host {_}. Arguments u_path {_}. Arguments u_rawQuery {_}.
Arguments u_forceQuery {_}. Arguments u_fragment {_}. Arguments u_rawFragment {_}. Arguments u_rest {_}.

Section Url.
Context {Rest : Type} (url_parse : string → option (URL Rest)) (url_string : URL Rest → string)
  (sha256_hex : string → string).

(** model/dedup.go:103-115 [NormalizeURL, the fields] *)
Definition normalize_parts (u : URL Rest) : URL Rest :=
  let scheme := to_lower (u_scheme u) in
  let '(q, stripped) := if String.eqb scheme "http" || String.eqb scheme "https"
                        then StripTrackingParams (u_rawQuery u) else (u_rawQuery u, false) in
  mkURL scheme (to_lower (u_host u)) (if String.eqb (u_path u) "" then "/" else u_path u)
    (if stripped : bool then q else u_rawQuery u) (if stripped : bool then false else u_forceQuery u)
    "" "" (u_rest u).

(** model/dedup.go [NormalizeURL] *)
Definition NormalizeURL (raw : string) : string :=
  let raw := trim_space raw in
  if String.eqb raw "" then ""
  else match url_parse raw with
       | None => raw
       | Some u => if String.eqb (u_scheme u) "" || String.eqb (u_host u) "" then raw
                   else url_string (normalize_parts u)
       end.

(** model/dedup.go [DedupHashFromURL] *)
Definition DedupHashFromURL (raw : string) : string := sha256_hex (NormalizeURL raw).

(** model/dedup.go [DedupHashFromString] *)
Definition DedupHashFromString (s : string) : string :=
  let s := trim_space s in if String.eqb s "" then "" else sha256_hex s.
End Url.

(** * Lemmas *)

Definition kept (seg : string) : bool := negb (String.eqb seg "") && negb (tracking_seg seg).

Lemma keep_segs_filter segs : keep_segs segs = filter (λ s, kept s = true) segs.
Proof.
  induction segs as [|s segs IH]; [done|]. cbn [keep_segs]. unfold kept in *.
  destruct (String.eqb s "") eqn:He; [by rewrite filter_cons_False; [|rewrite He]|].
  destruct (tracking_seg s) eqn:Ht; [by rewrite filter_cons_False; [|rewrite He, Ht]|].
  rewrite filter_cons_True by (by rewrite He, Ht). by f_equal.
Qed.

Lemma existsb_false_Forall {A} (f : A → bool) l : existsb f l = false ↔ Forall (λ x, f x = false) l.
Proof.
  induction l as [|x l IH]; cbn; [split; auto|]. rewrite orb_false_iff, IH, Forall_cons. done.
Qed.

Lemma tracking_seg_empty : tracking_seg "" = false.
Proof. vm_compute. reflexivity. Qed.

Lemma keep_segs_clean segs : Forall (λ x, has_byte amp x = false) segs →
  Forall (λ x, has_byte amp x = false) (keep_segs segs) ∧ Forall (λ s, tracking_seg s = false) (keep_segs segs).
Proof.
  induction 1 as [|s segs Hs _ [IH1 IH2]]; [done|]. cbn [keep_segs].
  destruct (String.eqb s ""); [done|]. destruct (tracking_seg s) eqn:Ht; [done|]. by split; constructor.
Qed.

Lemma split_segs q : Forall (λ x, has_byte amp x = false) (split_on amp q).
Proof. apply Forall_forall. intros x. apply split_on_has_byte. Qed.

(** The segments of what is left. *)
Lemma split_kept q : let l := keep_segs (split_on amp q) in
  split_on amp (join (String amp "") l) = match l with [] => [""] | _ => l end.
Proof.
  cbv zeta. destruct (keep_segs (split_on amp q)) as [|s l] eqn:E; [done|].
  apply split_join; [done|]. rewrite <-E. apply keep_segs_clean, split_segs.
Qed.

Lemma strip_clean q : Forall (λ s, tracking_seg s = false) (split_on amp q) → StripTrackingParams q = (q, false).
Proof.
  intros H. unfold StripTrackingParams. destruct (String.eqb q ""); [done|].
  by rewrite (proj2 (existsb_false_Forall _ _)).
Qed.

(** * Theorems *)

(** Stripping removes exactly the tracking parameters: a query without any comes back
    byte for byte (so hashes stored earlier stay valid); otherwise what is left are
    the other non-empty segments, in their order and raw encoding, with no tracker
    among them; and stripping again changes nothing. *)
Lemma strip_tracking_spec q :
  let '(q', stripped) := StripTrackingParams q in
  (stripped = false ↔ Forall (λ s, tracking_seg s = false) (split_on amp q)) ∧
  (stripped = false → q' = q) ∧
  (stripped = true → filter (λ s, s ≠ ""%string) (split_on amp q') = filter (λ s, kept s = true) (split_on amp q)) ∧
  Forall (λ s, tracking_seg s = false) (split_on amp q') ∧
  StripTrackingParams q' = (q', false).
Proof.
  assert (∀ s, Forall (λ s, tracking_seg s = false) (split_on amp s) →
    Forall (λ s, tracking_seg s = false) (split_on amp s) ∧ StripTrackingParams s = (s, false)) as Hc
    by (intros s H; split; [done|by apply strip_clean]).
  destruct (existsb tracking_seg (split_on amp q)) eqn:He.
  - unfold StripTrackingParams at 1. rewrite He.
    assert (String.eqb q "" = false) as ->.
    { destruct (String.eqb_spec q "") as [->|]; [|done]. vm_compute in He. done. }
    cbn [negb]. split_and!; try done.
    + split; [done|]. intros H%existsb_false_Forall. congruence.
    + intros _. rewrite split_kept. rewrite <-keep_segs_filter.
      assert (Forall (λ s, s ≠ ""%string) (keep_segs (split_on amp q))) as Hne.
      { rewrite keep_segs_filter. apply Forall_forall. intros s [Hs _]%list_elem_of_filter ->. done. }
      destruct (keep_segs (split_on amp q)) as [|s l] eqn:E; [done|].
      revert Hne. generalize (s :: l). induction 1 as [|x l' Hx _ IH]; [done|]. by rewrite filter_cons_True, IH.
    + apply Hc. rewrite split_kept. pose proof (proj2 (keep_segs_clean _ (split_segs q))) as Hk.
      destruct (keep_segs _); [repeat constructor; apply tracking_seg_empty|done].
    + apply Hc. rewrite split_kept. pose proof (proj2 (keep_segs_clean _ (split_segs q))) as Hk.
      destruct (keep_segs _); [repeat constructor; apply tracking_seg_empty|done].
  - apply existsb_false_Forall in He. rewrite (strip_clean q He). split_and!; try done. by apply strip_clean.
Qed.

(** Two URLs with the same canonical fields have one dedup hash: the fragment, the case
    of scheme and host, an empty path and trackers do not distinguish items. *)
Lemma dedup_hash_canonical {Rest} (url_parse : string → option (URL Rest)) url_string sha256_hex a b ua ub :
  trim_space a ≠ ""%string → trim_space b ≠ ""%string →
  url_parse (trim_space a) = Some ua → url_parse (trim_space b) = Some ub →
  u_scheme ua ≠ ""%string → u_scheme ub ≠ ""%string → u_host ua ≠ ""%string → u_host ub ≠ ""%string →
  normalize_parts ua = normalize_parts ub →
  DedupHashFromURL url_parse url_string sha256_hex a = DedupHashFromURL url_parse url_string sha256_hex b.
Proof.
  intros Ha Hb Hpa Hpb Hsa Hsb Hha Hhb Hn. unfold DedupHashFromURL, NormalizeURL.
  rewrite Hpa, Hpb, !(proj2 (String.eqb_neq _ _)) by done. cbn [orb]. by rewrite Hn.
Qed.
