(* ===== verification/Inbound.v ===== *)
(** Deliveries from other instances ([http/inbound.go]): a signed webhook posted to an inbound
    feed, from the address of the caller to the stored items.  The handler runs in the monad of
    [Refresher.v] and ends in its [Ingest]; JSON, HMAC and the URL parser are parameters. *)

From Stdlib Require Import Ascii.
From S2P Require Import Prelude GoStrings PollSchedule PollWindow Types HostLimiter TtlCache.
From S2P Require Import FilterEngine FeedStore WebhookStore EntryStore Catalog PollLog FeedRules Refresher PollFrames RefresherSpec.
From S2P Require Import NetIP UrlDedup.
From S2P Require ClientIP.

(** * Definitions *)

Definition inboundMaxBodyBytes : Z := 1048576.
Definition inboundMaxItems : Z := 200.
Definition inboundMaxSkew : Z := 10 * minute.

(** http/inbound.go [inboundEntry] *)
Record inboundEntry := mkInboundEntry {
  ie_Title : string; ie_URL : string; ie_Content : string; ie_Author : option string;
  ie_PublishedAt : option Z; ie_Hash : string;
}.

(** http/inbound.go [inboundPayload] An absent [sent_at] is the zero time. *)
Record inboundPayload := mkInboundPayload {
  ip_EventVersion : Z; ip_EventType : string; ip_SentAt : Z; ip_Entry : option inboundEntry; ip_Items : list inboundEntry;
}.

(** The request: [r_body] is [None] when reading it fails. *)
Record InboundRequest := mkInboundRequest {
  in_http : ClientIP.Request; in_id : string; in_body : option string;
}.

Inductive inbound_response := InRefused (code : Z) (msg : string) | InAccepted (received inserted : Z).

(** [hex.DecodeString]: pairs of digits of either case; [None] is the error. *)
Fixpoint hex_decode (s : string) : option string :=
  match s with
  | "" => Some ""
  | String a (String b s) =>
      x ← hex_val a; y ← hex_val b; t ← hex_decode s;
      Some (String (ascii_of_nat (Z.to_nat (x * 16 + y))) t)
  | _ => None
  end%string.

Section Inbound.
Context `{env : Env}.
Context {Rest : Type} (url_parse : string → option (URL Rest)) (url_string : URL Rest → string) (sha256_hex : string → string).
Context (hmac_sha256 : string → string → string) (decode_payload : string → option inboundPayload).
(** [INBOUND_WEBHOOK_ALLOW_CIDRS] and the trusted proxies. *)
Context (inboundAllowCIDRs trusted : list Prefix).

(** http/inbound.go [Server.inboundAllowed] *)
Definition inboundAllowed (r : ClientIP.Request) : bool :=
  match inboundAllowCIDRs with
  | [] => true
  | _ => match ParseAddr (ClientIP.ClientIP trusted r) with
         | None => false
         | Some ip => existsb (λ p, prefix_contains p (Unmap ip)) inboundAllowCIDRs
         end
  end.

(** http/inbound.go [inboundSignatureOK] *)
Definition inboundSignatureOK (header secret body : string) : bool :=
  let h := trim_space header in
  if has_prefix h "sha256=" then
    match hex_decode (trim_prefix h "sha256=") with
    | None => false
    | Some got => String.eqb got (hmac_sha256 secret body)
    end
  else false.

(** http/inbound.go:171-187 [parseInboundPayload, one entry] *)
Definition inbound_item (e : inboundEntry) : string + BEntry :=
  let u := NormalizeURL url_parse url_string (trim_space (ie_URL e)) in
  let hash := if String.eqb u "" then trim_space (ie_Hash e) else DedupHashFromURL url_parse url_string sha256_hex u in
  if String.eqb hash "" then inl "entry without url"
  else inr (mkBEntry (trim_space (ie_Title e)) u (ie_Content e) (ie_Author e) (ie_PublishedAt e) hash).

(** http/inbound.go:170-187 [parseInboundPayload, the loop] *)
Fixpoint inbound_items (raw : list inboundEntry) : string + list BEntry :=
  match raw with
  | [] => inr []
  | e :: raw => match inbound_item e with
                | inl m => inl m
                | inr x => match inbound_items raw with inl m => inl m | inr l => inr (x :: l) end
                end
  end.

(** http/inbound.go [parseInboundPayload] *)
Definition parseInboundPayload (body : string) (now : Z) : string + list BEntry :=
  match decode_payload body with
  | None => inl "invalid json"
  | Some p =>
      if negb (ip_EventVersion p =? 1) then inl "unsupported event_version"
      else if time_is_zero (ip_SentAt p) || time_before (ip_SentAt p) (time_add now (- inboundMaxSkew))
              || time_after (ip_SentAt p) (time_add now inboundMaxSkew)
      then inl "sent_at outside the accepted window"
      else
        let raw := match ip_Entry p with Some e => [e] | None => [] end ++ ip_Items p in
        match raw with
        | [] => inl "no entries"
        | _ => if inboundMaxItems <? Z.of_nat (length raw) then inl "too many entries" else inbound_items raw
        end
  end.

(** The tables of a request: those of the poll and, in [c], the other columns of the catalogue. *)
Definition inbound_catalog (c : Catalog) (d : Db) : Catalog := with_tables c (db_feeds d, db_entries d).

(** http/inbound.go [Server.handleInboundWebhook] [now] is the clock; [elapsed] is what the ingest measures. *)
Definition handleInboundWebhook (c : Catalog) (now elapsed : Z) (r : InboundRequest) : M inbound_response :=
  if negb (inboundAllowed (in_http r)) then mret (InRefused 403 "forbidden")
  else match parse_int64 (in_id r) with
  | None => mret (InRefused 404 "not found")
  | Some feedID =>
      if feedID <=? 0 then mret (InRefused 404 "not found")
      else
        secret ← call (λ d, (d, InboundSecret (inbound_catalog c d) feedID));
        match secret with
        | inl e => mret (if err_is_not_found e || err_is err_not_inbound_feed e then InRefused 404 "not found"
                         else InRefused 500 "internal server error")
        | inr secret =>
            match in_body r with
            | None => mret (InRefused 400 "read body")
            | Some body =>
                if inboundMaxBodyBytes <? Z.of_nat (String.length body) then mret (InRefused 413 "body too large")
                else if negb (inboundSignatureOK (ClientIP.header_get (in_http r) "X-Rssam-Signature") secret body)
                then mret (InRefused 401 "bad signature")
                else match parseInboundPayload body now with
                | inl msg => mret (InRefused 400 msg)
                | inr entries =>
                    feed ← call (λ d, (d, GetFeedByID (db_feeds d) feedID));
                    match feed with
                    | inl _ => mret (InRefused 404 "not found")
                    | inr feed =>
                        res ← Ingest feed entries now elapsed;
                        mret (match res with
                              | inl _ => InRefused 500 "internal server error"
                              | inr inserted => InAccepted (Z.of_nat (length entries)) inserted
                              end)
                    end
                end
            end
        end
  end.
End Inbound.

(** * What a delivery stores *)

Section Ingest.
Context `{env : Env}.

(** A step whose result is known to satisfy [Q]. *)
Lemma respects_bind_yields {A B} (R : relation World) `{!PreOrder R} (Q : A → Prop) (m : M A) (k : A → M B) :
  respects R m → yields Q m → (∀ a, Q a → respects R (k a)) → respects R (m ≫= k).
Proof.
  intros Hm Hq Hk w. unfold mbind, M_bind. pose proof (Hm w) as H1. pose proof (Hq w) as H2. destruct (m w) as [w1 a].
  etransitivity; [exact H1|by apply Hk].
Qed.

Lemma Ingest_steps feed es now elapsed : respects (steps (db_step (f_id (feed_row feed)))) (Ingest feed es now elapsed).
Proof.
  unfold Ingest. destruct (negb _); [apply respects_ret, _|]. apply respects_bind; [apply _|apply silent_steps, set_subs_silent|intros _].
  cbv zeta. eapply respects_bind_yields; [apply _|by apply storeFetched_steps|apply storeFetched_id|].
  intros [meta' [e|[[ins cr] st]]] Id; cbn [fst] in Id; steps_go. apply rtc_once, ds_book. by constructor.
Qed.

Lemma Ingest_inbound feed es now elapsed w w' n : Ingest feed es now elapsed w = (w', inr n) → f_type (feed_row feed) = "inbound".
Proof. unfold Ingest. destruct (String.eqb_spec (f_type (feed_row feed)) "inbound"); [done|]. by intros [=]. Qed.

(** ** What a delivery makes known *)

(** What follows the store. *)
Definition ingest_rest (feed : Feed) (now elapsed : Z) (meta : UpdateFeedRefreshMetaParams) (ins : Z) (cr : list Entry) (st : bool) : M (err + Z) :=
  _ ← afterStore now feed cr;
  _ ← (if st then mret (M := M) tt else r ← call (λ d, to_res d (updateFeedRefreshMeta (db_feeds d) meta)); mret tt);
  _ ← recordPoll feed now elapsed ins None;
  mret (inr ins).

Lemma ingest_rest_run feed now elapsed meta ins cr st w w' n : um_id meta = f_id (feed_row feed) →
  ingest_rest feed now elapsed meta ins cr st w = (w', inr n) →
  n = ins ∧ rtc (db_step (f_id (feed_row feed))) (w_db w) (w_db w') ∧ (cr = [] → db_entries (w_db w') = db_entries (w_db w)).
Proof.
  intros Id H.
  assert (S : respects (steps (db_step (f_id (feed_row feed)))) (ingest_rest feed now elapsed meta ins cr st)).
  { unfold ingest_rest. steps_go. apply rtc_once, ds_book. by constructor. }
  pose proof (respects_run _ _ _ _ _ S H) as (Hs & _). split; [|split; [exact Hs|]].
  - apply bind_run in H as (w1 & [] & _ & H). apply bind_run in H as (w2 & [] & _ & H). apply bind_run in H as (w3 & [] & _ & H). by injection H.
  - intros ->. assert (B : respects (steps (book_step (f_id (feed_row feed)))) (ingest_rest feed now elapsed meta ins [] st)).
    { unfold ingest_rest, afterStore. steps_go. apply rtc_once. by constructor. }
    pose proof (respects_run _ _ _ _ _ B H) as (Hb & _). by apply book_steps_frame in Hb as (? & _).
Qed.

(** A delivery that succeeds, cut into the store and the rest. *)
Lemma Ingest_run feed es now elapsed w w' n : Ingest feed es now elapsed w = (w', inr n) →
  ∃ meta w0 w1 meta' cr st, w_db w0 = w_db w ∧ um_id meta = f_id (feed_row feed) ∧ um_id meta' = f_id (feed_row feed) ∧
    storeFetched now feed es meta w0 = (w1, (meta', inr (n, cr, st))) ∧ ingest_rest feed now elapsed meta' n cr st w1 = (w', inr n).
Proof.
  unfold Ingest. destruct (negb _); [done|]. intros (w0 & [] & H0 & H)%bind_run.
  apply respects_run with (R := silent) in H0; [|apply set_subs_silent]. cbv zeta in H. apply bind_run in H as (w1 & [meta' stored] & H1 & H).
  pose proof (yields_run _ _ _ _ _ (storeFetched_id now feed es _) H1) as Id. cbn [fst um_id] in Id.
  destruct stored as [e|[[ins cr] st]].
  - apply bind_run in H as (w2 & [] & _ & H). by injection H.
  - pose proof H as (-> & _)%ingest_rest_run; [|exact Id]. do 6 eexists. split; [apply H0|]. split; [|split; [exact Id|]; split; [exact H1|exact H]]. done.
Qed.

Lemma Ingest_knows feed es now elapsed w w' n : entries_wf (db_entries (w_db w)) → Ingest feed es now elapsed w = (w', inr n) →
  let items := after_rules (feed_row feed) es in
  (itemSetHash items = ps_items_hash (feed_ps feed) ∧ n = 0 ∧ db_entries (w_db w') = db_entries (w_db w)) ∨
  all_known (w_db w') (f_id (feed_row feed)) (be_hash <$> items).
Proof.
  intros W H items. apply Ingest_run in H as (meta & w0 & w1 & meta' & cr & st & D & Id & Id' & H & R).
  pose proof (ingest_rest_run _ _ _ _ _ _ _ _ _ _ Id' R) as (_ & Hs & He). rewrite <-D in W.
  destruct (storeFetched_knows _ _ _ _ _ _ _ _ _ _ W Id H) as [(Ne & Eq & ->)|K].
  - left. split; [exact Eq|]. unfold storeFetched in H. fold items in H, Ne, Eq. rewrite (proj2 (String.eqb_neq _ _) Ne), (proj2 (String.eqb_eq _ _) Eq) in H.
    injection H as <- <- <- <-. split; [done|]. by rewrite He, D.
  - right. eapply all_known_kept; [exact K|]. by apply db_steps_frame in Hs as [].
Qed.

(** ** Deliveries of what is known *)

Lemma take_fresh_from kn san es x : x ∈ take_fresh kn san es → be_hash x ≠ "" ∧ be_hash x ∈ be_hash <$> es.
Proof.
  revert kn. induction es as [|y es IH]; intros kn; cbn [take_fresh fmap list_fmap]; [by intros ?%elem_of_nil|].
  destruct (String.eqb_spec (be_hash y) "") as [|Ne]; cbn [orb].
  { intros [? ?]%IH. split; [done|by right]. }
  destruct (bool_decide _); [intros [? ?]%IH; split; [done|by right]|].
  intros [->|[? ?]%IH]%elem_of_cons; [|split; [done|by right]]. destruct san; (split; [exact Ne|left]).
Qed.

Lemma split_wanted_from feed i fresh perSub : yields (λ r, ∀ p, p ∈ r.1 → p ∈ fresh) (split_wanted feed i fresh perSub).
Proof.
  revert i. induction fresh as [|p fresh IH]; intros i; cbn [split_wanted]; [apply yields_ret; by intros p|].
  apply yields_bind. intros wanted w. unfold mbind, M_bind. pose proof (IH (S i) w) as H.
  destruct (split_wanted feed (S i) fresh perSub w) as [w1 [a b]]. cbn in *.
  intros q. destruct wanted; cbn; [intros [->|Hq]%elem_of_cons; [left|right; by apply H]|intros Hq; right; by apply H].
Qed.

Lemma meta_entries_kept f m e (a : Z * list Entry) s' n cr :
  lift_meta (updateFeedRefreshMeta f m) e a = (s', inr (n, cr)) → a = (n, cr) ∧ s'.2 = e.
Proof. unfold lift_meta. destruct (updateFeedRefreshMeta f m) as [f' [x|]]; [done|]. by intros [= <- ->]. Qed.

Lemma filtered_known now f e p s' n cr : Forall (λ x, be_hash x ≠ "") (fp_entries p) →
  (∀ x, x ∈ fp_entries p → known dedup_key e (fp_feed_id p) (be_hash x)) →
  StoreFilteredPoll dedup_key now (f, e) p = (s', inr (n, cr)) → n = 0 ∧ cr = [] ∧ ed_entries s'.2 = ed_entries e.
Proof.
  intros Ne K.
  assert (T : withTx (f, e) (filtered_body dedup_key now p) = (s', inr (n, cr)) → n = 0 ∧ cr = [] ∧ ed_entries s'.2 = ed_entries e).
  { unfold withTx, filtered_body. rewrite createEntries_all_known by done.
    destruct (recordFeedEntryDedup dedup_key e (fp_feed_id p) (fp_dedup p)) as [e2 [er|k]] eqn:Dd; [done|].
    assert (E2 : ed_entries e2 = ed_entries e) by (unfold recordFeedEntryDedup in Dd; repeat case_match; by simplify_eq).
    destruct (fp_meta p) as [m|]; [|by intros [= <- <- <-]].
    destruct (lift_meta _ _ _) as [s [x|[n' cr']]] eqn:L; [done|]. intros [= <- <- <-].
    apply meta_entries_kept in L as [[= <- <-] E3]. by rewrite E3, E2. }
  unfold StoreFilteredPoll. destruct (fp_entries p); [destruct (fp_dedup p)|]; [|exact T..]. intros H.
  destruct (fp_meta p) as [m|]; [|by injection H as <- <- <-].
  apply meta_entries_kept in H as [[= <- <-] E3]. by rewrite E3.
Qed.

Lemma storeFetched_replay now feed fetched meta w w' meta' ins cr st :
  all_known (w_db w) (f_id (feed_row feed)) (be_hash <$> after_rules (feed_row feed) fetched) →
  storeFetched now feed fetched meta w = (w', (meta', inr (ins, cr, st))) →
  ins = 0 ∧ cr = [] ∧ ed_entries (db_entries (w_db w')) = ed_entries (db_entries (w_db w)).
Proof.
  intros [Wf K]. unfold storeFetched. set (items := after_rules (feed_row feed) fetched) in *.
  destruct (negb _ && _); [by intros [= <- _ <- <- _]|].
  destruct (negb (String.eqb (storeMode feed) "full")) eqn:Md.
  - apply negb_true_iff in Md. rewrite Md. cbn [andb]. unfold processEntriesFiltered.
    destruct items as [|e0 es0] eqn:Hes; [by intros [= <- _ <- <- _]|]. rewrite <-Hes in *. intros (w1 & kn & H1 & H)%bind_run.
    apply respects_run with (R := silent) in H1; [|apply call__read_silent]. destruct kn as [er|kn]; [done|].
    apply bind_run in H as (w2 & perSub & H2 & H). destruct perSub as [er|perSub]; [done|].
    apply respects_run with (R := silent) in H2; [|frame_go]. apply bind_run in H as (w3 & hits & H3 & H).
    apply respects_run with (R := silent) in H3; [|frame_go]. apply bind_run in H as (w4 & [wanted dd] & H4 & H).
    pose proof (yields_run _ _ _ _ _ (split_wanted_from _ _ _ _) H4) as From. cbn [fst] in From.
    apply respects_run with (R := silent) in H4; [|frame_go].
    assert (D : w_db w4 = w_db w) by by rewrite (sil_db _ _ H4), (sil_db _ _ H3), (sil_db _ _ H2), (sil_db _ _ H1).
    apply bind_run in H as (w5 & r & H5 & H). destruct r as [er|[ins' cr']]; [by injection H|]. injection H as <- _ <- <- _.
    apply (store_run (λ s, StoreFilteredPoll dedup_key now s _)) in H5 as (s' & H5 & ->). rewrite D in H5. cbn [db_entries set_db_entries].
    assert (Hw : ∀ x, x ∈ wanted → be_hash x ≠ "" ∧ be_hash x ∈ be_hash <$> items) by (intros x Hx; by eapply take_fresh_from, From).
    apply filtered_known in H5; [done| |]; cbn [fp_entries fp_feed_id].
    + apply Forall_forall. intros x Hx. by apply Hw.
    + intros x Hx. destruct (Hw x Hx). by apply K.
  - apply negb_false_iff in Md. rewrite Md. cbn [andb]. set (es := if negb (has_rules (feed_row feed)) then _ else _).
    assert (Eh : be_hash <$> es = be_hash <$> items) by (unfold es; destruct (negb _); [apply after_rules_sanitize|done]).
    intros (w1 & r & H1 & H)%bind_run. destruct r as [er|[ins' cr']]; [by injection H|]. injection H as <- _ <- <- _.
    apply (store_run (λ s, CreateEntriesWithRefreshMeta dedup_key now s _ es _)) in H1 as (s' & H1 & ->). cbn [db_entries set_db_entries].
    unfold CreateEntriesWithRefreshMeta, withTx in H1. destruct (existsb (λ e, String.eqb (be_hash e) "") es) eqn:Ex.
    { assert (createEntries dedup_key now (db_feeds (w_db w)) (db_entries (w_db w)) (f_id (feed_row feed)) es false
        = (db_entries (w_db w), inl (EMsg "entry hash is required"))) as Er; [|by rewrite Er in H1].
      unfold createEntries. destruct es; [done|]. by rewrite Ex. }
    rewrite createEntries_all_known in H1.
    + destruct (lift_meta _ _ _) as [s [x|[n' cr2]]] eqn:L; [done|]. injection H1 as <- <- <-.
      apply meta_entries_kept in L as [[= <- <-] E3]. by rewrite E3.
    + apply Forall_forall. intros x Hx Hn. apply not_true_iff_false in Ex. apply Ex, existsb_exists. exists x.
      split; [by apply list_elem_of_In|by apply String.eqb_eq].
    + intros x Hx. destruct (decide (be_hash x = "")) as [E0|N0]; [|apply K; [rewrite <-Eh; by apply list_elem_of_fmap_2|done]].
      apply not_true_iff_false in Ex. destruct Ex. apply existsb_exists. exists x. split; [by apply list_elem_of_In|by apply String.eqb_eq].
Qed.

Lemma Ingest_replay feed es now elapsed w w' n :
  all_known (w_db w) (f_id (feed_row feed)) (be_hash <$> after_rules (feed_row feed) es) →
  Ingest feed es now elapsed w = (w', inr n) → n = 0 ∧ ed_entries (db_entries (w_db w')) = ed_entries (db_entries (w_db w)).
Proof.
  intros K H. apply Ingest_run in H as (meta & w0 & w1 & meta' & cr & st & D & Id & Id' & H & R). rewrite <-D in K.
  apply storeFetched_replay in H as (-> & -> & E); [|exact K]. apply ingest_rest_run in R as (_ & _ & He); [|exact Id'].
  split; [done|]. by rewrite He, E, D.
Qed.
End Ingest.

(** * The gate *)

Lemma has_prefix_split h p : has_prefix h p = true → h = p +:+ trim_prefix h p.
Proof.
  intros H. unfold trim_prefix. rewrite H. unfold has_prefix in H. revert h H.
  induction p as [|a p IH]; intros h H; [by destruct h|]. destruct h as [|b h]; [done|]. cbn in H.
  destruct (Ascii.ascii_dec a b) as [->|]; [|done]. change (String b h = String b (p +:+ str_drop (String.length p) h)). f_equal. by apply IH.
Qed.

Section Gate.
Context `{env : Env}.
Context {Rest : Type} (url_parse : string → option (URL Rest)) (url_string : URL Rest → string) (sha256_hex : string → string).
Context (hmac_sha256 : string → string → string) (decode_payload : string → option inboundPayload).
Context (inboundAllowCIDRs trusted : list Prefix).
Notation handle := (handleInboundWebhook url_parse url_string sha256_hex hmac_sha256 decode_payload inboundAllowCIDRs trusted).
Notation parse_payload := (parseInboundPayload url_parse url_string sha256_hex decode_payload).
Notation signature_ok := (inboundSignatureOK hmac_sha256).
Notation allowed := (inboundAllowed inboundAllowCIDRs trusted).

Lemma signature_spec header secret body : signature_ok header secret body = true →
  ∃ sig, trim_space header = "sha256=" +:+ sig ∧ hex_decode sig = Some (hmac_sha256 secret body).
Proof.
  unfold inboundSignatureOK. destruct (has_prefix _ _) eqn:P; [|done]. apply has_prefix_split in P.
  destruct (hex_decode _) as [got|] eqn:D; [|done]. intros ->%String.eqb_eq. by eexists.
Qed.

Lemma inbound_items_spec raw es : inbound_items url_parse url_string sha256_hex raw = inr es →
  length es = length raw ∧ Forall (λ x, be_hash x ≠ "") es.
Proof.
  revert es. induction raw as [|e raw IH]; intros es; cbn [inbound_items]; [by intros [= <-]|].
  destruct (inbound_item _ _ _ e) as [|x] eqn:X; [done|]. destruct (inbound_items _ _ _ raw) as [|l]; [done|]. intros [= <-].
  destruct (IH l eq_refl) as [L F]. cbn [length]. split; [lia|]. constructor; [|done]. unfold inbound_item in X.
  cbv zeta in X. match type of X with (if String.eqb ?h "" then _ else _) = _ => destruct (String.eqb_spec h "") as [|N] end; [done|].
  by injection X as <-.
Qed.

Lemma parse_payload_spec body now es : parse_payload body now = inr es →
  ∃ p, decode_payload body = Some p ∧ ip_EventVersion p = 1 ∧ now - inboundMaxSkew <= ip_SentAt p <= now + inboundMaxSkew ∧
    1 <= Z.of_nat (length es) <= inboundMaxItems ∧ Forall (λ x, be_hash x ≠ "") es.
Proof.
  unfold parseInboundPayload. destruct (decode_payload body) as [p|]; [|done]. destruct (Z.eqb_spec (ip_EventVersion p) 1) as [V|]; [|done]. cbn [negb].
  destruct (_ || _) eqn:T; [done|]. apply orb_false_iff in T as [T T3]. apply orb_false_iff in T as [_ T2].
  unfold time_before, time_after, time_add in T2, T3. bool_to_prop.
  set (raw := _ ++ _). assert (Len : ∀ es, inbound_items url_parse url_string sha256_hex raw = inr es → raw ≠ [] → Z.of_nat (length raw) <= inboundMaxItems →
    1 <= Z.of_nat (length es) <= inboundMaxItems ∧ Forall (λ x, be_hash x ≠ "") es).
  { intros l H N M. apply inbound_items_spec in H as [L F]. split; [|done]. destruct raw; [done|]. cbn [length] in *. lia. }
  intros H. exists p. split; [done|]. split; [done|]. split; [lia|]. destruct raw as [|x raw'] eqn:R; [done|]. rewrite <-R in *.
  destruct (Z.ltb_spec inboundMaxItems (Z.of_nat (length raw))); [done|]. apply Len; [done|by rewrite R|lia].
Qed.

(** A request that passed every check, up to the ingest. *)
Record admitted (c : Catalog) (now : Z) (r : InboundRequest) (d : Db) (id : Z) (secret body : string) (es : list BEntry) (feed : Feed) : Prop := {
  ad_allowed : allowed (in_http r) = true;
  ad_id : parse_int64 (in_id r) = Some id ∧ 0 < id;
  ad_secret : InboundSecret (inbound_catalog c d) id = inr secret;
  ad_body : in_body r = Some body ∧ Z.of_nat (String.length body) <= inboundMaxBodyBytes;
  ad_signed : signature_ok (ClientIP.header_get (in_http r) "X-Rssam-Signature") secret body = true;
  ad_payload : parse_payload body now = inr es;
  ad_feed : GetFeedByID (db_feeds d) id = inr feed;
}.

Lemma handle_cases c now elapsed r w w' resp : handle c now elapsed r w = (w', resp) →
  (w_db w' = w_db w ∧ ∃ code msg, resp = InRefused code msg ∧ 400 <= code) ∨
  ∃ id secret body es feed w1 res, admitted c now r (w_db w) id secret body es feed ∧ w_db w1 = w_db w ∧
    Ingest feed es now elapsed w1 = (w', res) ∧
    resp = match res with inl _ => InRefused 500 "internal server error" | inr n => InAccepted (Z.of_nat (length es)) n end.
Proof.
  assert (Refuse : ∀ (w0 w' : World) code msg resp, w_db w0 = w_db w → 400 <= code → (mret (InRefused code msg) : M inbound_response) w0 = (w', resp) →
    (w_db w' = w_db w ∧ ∃ code msg, resp = InRefused code msg ∧ 400 <= code)) by (intros w0 w2 code msg r0 D C [= <- <-]; eauto).
  unfold handleInboundWebhook. destruct (allowed _) eqn:A; cbn [negb]; [|intros H; left; eapply Refuse; [..|exact H]; done].
  destruct (parse_int64 _) as [id|] eqn:I; [|intros H; left; eapply Refuse; [..|exact H]; done].
  destruct (Z.leb_spec id 0) as [Np|P]; [intros H; left; eapply Refuse; [..|exact H]; done|].
  intros (w1 & sr & H1 & H)%bind_run. pose proof (respects_run _ _ _ _ _ (call_read_silent _) H1) as S1. pose proof (sil_db _ _ S1) as D1.
  destruct sr as [e|secret].
  { left. destruct (_ || _); (eapply Refuse; [..|exact H]; done). }
  apply call_inr in H1 as [_ Sec]. cbn [snd] in Sec.
  destruct (in_body r) as [body|] eqn:B; [|left; eapply Refuse; [..|exact H]; done].
  destruct (Z.ltb_spec inboundMaxBodyBytes (Z.of_nat (String.length body))) as [|Sm]; [left; eapply Refuse; [..|exact H]; done|].
  destruct (signature_ok _ _ _) eqn:Sg; cbn [negb] in H; [|left; eapply Refuse; [..|exact H]; done].
  destruct (parse_payload body now) as [msg|es] eqn:Pl; [left; eapply Refuse; [..|exact H]; done|].
  apply bind_run in H as (w2 & fr & H2 & H). pose proof (respects_run _ _ _ _ _ (call_read_silent _) H2) as S2. pose proof (sil_db _ _ S2) as D2.
  destruct fr as [e|feed]; [left; eapply Refuse; [..|exact H]; [by rewrite D2|done]|]. apply call_inr in H2 as [_ Fe]. cbn [snd] in Fe. rewrite D1 in Fe.
  apply bind_run in H as (w3 & res & H3 & H). injection H as <- <-. right. exists id, secret, body, es, feed, w2, res.
  split; [done|]. split; [congruence|]. split; [exact H3|]. by destruct res.
Qed.

Lemma secret_row c d id secret : InboundSecret (inbound_catalog c d) id = inr secret →
  ∃ row m, fd_feeds (db_feeds d) !! id = Some row ∧ f_type row = "inbound" ∧ ct_more c !! id = Some m ∧ fm_InboundSecret m = secret ∧ secret ≠ "".
Proof.
  unfold InboundSecret. cbn [inbound_catalog with_tables ct_feeds ct_more fst].
  destruct (fd_feeds (db_feeds d) !! id) as [row|]; [|done]. destruct (ct_more c !! id) as [m|]; [|done].
  destruct (String.eqb_spec (f_type row) FeedTypeInbound) as [T|]; [|done]. destruct (String.eqb_spec (fm_InboundSecret m) ""); [done|].
  intros [= <-]. by exists row, m.
Qed.

Lemma feed_row_of d id feed : (∀ i f, fd_feeds (db_feeds d) !! i = Some f → f_id f = i) → GetFeedByID (db_feeds d) id = inr feed →
  f_id (feed_row feed) = id.
Proof.
  intros K. unfold GetFeedByID. destruct (fd_feeds (db_feeds d) !! id) as [f|] eqn:F; [|done]. destruct (fd_poll (db_feeds d) !! id); [|done].
  intros [= <-]. cbn. by apply K.
Qed.

(** C30: nothing enters unsigned.  A request to deliver into a feed either changes no table and is
    refused, or it comes from an allowed address, names an inbound feed with a secret,
    carries the HMAC of its whole body (at most a megabyte) under that secret, a version 1 payload sent within
    ten minutes of now, and between one and 200 items, each with a hash; and then,
    whatever fails on the way, only that feed is touched: other feeds, subscriptions,
    webhooks and filters are as before, no known item is forgotten and deliveries are only added. *)
Theorem inbound_authenticated (c : Catalog) (now elapsed : Z) (r : InboundRequest) (w w' : World) (resp : inbound_response)
  (K : ∀ i f, fd_feeds (db_feeds (w_db w)) !! i = Some f → f_id f = i)
  (R : handle c now elapsed r w = (w', resp)) :
  (w_db w' = w_db w ∧ ∃ code msg, resp = InRefused code msg ∧ 400 <= code) ∨
  ∃ id row m body sig p es,
    allowed (in_http r) = true ∧ parse_int64 (in_id r) = Some id ∧
    fd_feeds (db_feeds (w_db w)) !! id = Some row ∧ f_type row = "inbound" ∧ ct_more c !! id = Some m ∧ fm_InboundSecret m ≠ "" ∧
    in_body r = Some body ∧ Z.of_nat (String.length body) <= inboundMaxBodyBytes ∧
    trim_space (ClientIP.header_get (in_http r) "X-Rssam-Signature") = "sha256=" +:+ sig ∧
    hex_decode sig = Some (hmac_sha256 (fm_InboundSecret m) body) ∧
    decode_payload body = Some p ∧ ip_EventVersion p = 1 ∧ now - inboundMaxSkew <= ip_SentAt p <= now + inboundMaxSkew ∧
    parse_payload body now = inr es ∧ 1 <= Z.of_nat (length es) <= inboundMaxItems ∧ Forall (λ x, be_hash x ≠ "") es ∧
    db_frame id (w_db w) (w_db w').
Proof.
  apply handle_cases in R as [?|(id & secret & body & es & feed & w1 & res & [A [I P] Sec [B Sm] Sg Pl Fe] & D & H & ->)]; [by left|right].
  apply secret_row in Sec as (row & m & Hr & T & Hm & <- & Ne). apply signature_spec in Sg as (sig & Tr & Hx).
  pose proof Pl as (p & Dp & V & Sk & Ln & Fh)%parse_payload_spec. exists id, row, m, body, sig, p, es.
  do 16 (split; [done|]). pose proof (respects_run _ _ _ _ _ (Ingest_steps feed es now elapsed) H) as (Hs & _).
  rewrite (feed_row_of _ _ _ K Fe), D in Hs. by apply db_steps_frame.
Qed.

(** A delivery counts once.  After an accepted delivery either it was the same set of items as the last one stored and nothing
    was inserted, or its items are known: then a delivery of the same request (a retry, or a replay
    inside the time window) that is accepted later, whatever happened to the tables in between as long as
    nothing was forgotten and the feed kept its settings, inserts nothing and
    adds, changes or removes no entry. *)
Lemma inbound_counts_once (c c2 : Catalog) (now elapsed now2 elapsed2 : Z) (r : InboundRequest) (w w' w2 w3 : World) (n k n2 k2 : Z)
  (K : ∀ i f, fd_feeds (db_feeds (w_db w)) !! i = Some f → f_id f = i) (Wf : entries_wf (db_entries (w_db w)))
  (R : handle c now elapsed r w = (w', InAccepted n k))
  (Kept : entries_kept (db_entries (w_db w')) (db_entries (w_db w2)))
  (Same : fd_feeds (db_feeds (w_db w2)) = fd_feeds (db_feeds (w_db w)))
  (R2 : handle c2 now2 elapsed2 r w2 = (w3, InAccepted n2 k2)) :
  n2 = n ∧ ((k = 0 ∧ db_entries (w_db w') = db_entries (w_db w)) ∨
            (k2 = 0 ∧ ed_entries (db_entries (w_db w3)) = ed_entries (db_entries (w_db w2)))).
Proof.
  apply handle_cases in R as [(_ & ? & ? & [=] & _)|(id & secret & body & es & feed & w1 & res & [A [I P] Sec [B Sm] Sg Pl Fe] & D & H & E)].
  apply handle_cases in R2 as [(_ & ? & ? & [=] & _)|(id2 & secret2 & body2 & es2 & feed2 & w4 & res2 & [A2 [I2 P2] Sec2 [B2 Sm2] Sg2 Pl2 Fe2] & D2 & H2 & E2)].
  destruct res as [|n0]; [done|]. destruct res2 as [|n02]; [done|]. injection E as -> ->. injection E2 as -> ->.
  rewrite I in I2. injection I2 as <-. rewrite B in B2. injection B2 as <-.
  assert (es2 = es) as ->.
  { unfold parseInboundPayload in Pl, Pl2. destruct (decode_payload body) as [p|]; [|done]. destruct (negb _); [done|].
    destruct (_ || _); [done|]. destruct (_ || _) in Pl2; [done|]. congruence. }
  split; [done|]. assert (Rows : feed_row feed2 = feed_row feed).
  { unfold GetFeedByID in Fe, Fe2. rewrite Same in Fe2. destruct (fd_feeds (db_feeds (w_db w)) !! id); [|done].
    destruct (fd_poll (db_feeds (w_db w)) !! id); [|done]. destruct (fd_poll (db_feeds (w_db w2)) !! id); [|done]. by injection Fe as <-; injection Fe2 as <-. }
  rewrite <-D in Wf. destruct (Ingest_knows _ _ _ _ _ _ _ Wf H) as [(_ & -> & Eq)|Kn]; [left; split; [done|by rewrite Eq, D]|right].
  destruct (Ingest_replay feed2 es now2 elapsed2 w4 w3 n02) as [-> Eq]; [|exact H2|by rewrite Eq, D2].
  rewrite Rows, D2. by eapply all_known_kept.
Qed.
End Gate.

(** * A delivery and its replay *)

Definition wit_inbound_row : FeedRow := mkFeedRow 9 1 "inbound://00" "inbound" "N" None 1440 false "full" false "" "" "" 0.
Definition wit_inbound_feeds : FeedDb := mkFeedDb {[ 9 := wit_inbound_row ]} {[ 9 := wit_ps ]} {[ (1, 9) := None ]} ∅ ∅.
Definition wit_inbound_world : @World (wit_env fetch_two) :=
  @mkWorld (wit_env fetch_two) (mkDb wit_inbound_feeds empty_entries (mkHookDb ∅ ∅ 1) (mkPollLogDb ∅ 1) ∅ ∅ ∅)
    (@mkMem (wit_env fetch_two) ∅ None ttl_new ttl_new (New (mkConfig 0 0)) None) [] [].
Definition wit_inbound_catalog : Catalog :=
  mkCatalog wit_inbound_feeds empty_entries (mkHookDb ∅ ∅ 1) {[ 9 := mkFeedMore "" false false false "" None "" "" "k" ]} 10 ∅ 1.

(** The HMAC of the example appends the body to the key: "kb" is 6b62 in hexadecimal. *)
Definition wit_inbound_request (sig : string) : InboundRequest :=
  mkInboundRequest (ClientIP.mkRequest "192.0.2.1:443" (λ h, if String.eqb h "X-Rssam-Signature" then [sig] else []) "n.example" true) "9" (Some "b"%string).
Definition wit_payload (body : string) : option inboundPayload :=
  if String.eqb body "b" then Some (mkInboundPayload 1 "new_entry" 1000 (Some (mkInboundEntry " T " "" "x" None None " h1 ")) []) else None.

Definition wit_inbound (now : Z) (sig : string) (w : @World (wit_env fetch_two)) : @World (wit_env fetch_two) * inbound_response :=
  handleInboundWebhook (env := wit_env fetch_two) (Rest := unit) (λ _, None) (λ _, "") id (λ k b, k +:+ b) wit_payload [] []
    wit_inbound_catalog now 1 (wit_inbound_request sig) w.

Example inbound_refused_unsigned : (wit_inbound 1000 "sha256=6b63" wit_inbound_world).2 = InRefused 401 "bad signature".
Proof. vm_compute. reflexivity. Qed.

Lemma wit_inbound_key : ∀ i f, fd_feeds (db_feeds (w_db wit_inbound_world)) !! i = Some f → f_id f = i.
Proof. intros i f H. cbn in H. by apply lookup_singleton_Some in H as [<- <-]. Qed.

Lemma inbound_authenticated_witness :
  (wit_inbound 1000 "sha256=6B62" wit_inbound_world).2 = InAccepted 1 1 ∧
  db_frame (env := wit_env fetch_two) 9 (w_db wit_inbound_world) (w_db (wit_inbound 1000 "sha256=6B62" wit_inbound_world).1).
Proof.
  split; [vm_compute; reflexivity|].
  destruct (inbound_authenticated (env := wit_env fetch_two) (Rest := unit) (λ _, None) (λ _, ""%string) id (λ k b, k +:+ b) wit_payload [] []
    wit_inbound_catalog 1000 1 (wit_inbound_request "sha256=6B62") wit_inbound_world (wit_inbound 1000 "sha256=6B62" wit_inbound_world).1
    (InAccepted 1 1) wit_inbound_key) as [(_ & ? & ? & [=] & _)|(id & row & m & body & sig & p & es & _ & I & H)].
  - apply pair_run. vm_compute. reflexivity.
  - vm_compute in I. injection I as <-. apply H.
Defined.

Lemma inbound_counts_once_witness :
  let w1 := (wit_inbound 1000 "sha256=6b62" wit_inbound_world).1 in
  let w2 := (wit_inbound 2000 "sha256=6b62" w1).1 in
  size (ed_entries (db_entries (w_db w1))) = 1%nat ∧ ed_entries (db_entries (w_db w2)) = ed_entries (db_entries (w_db w1)).
Proof.
  intros w1 w2. split; [vm_compute; reflexivity|].
  destruct (inbound_counts_once (env := wit_env fetch_two) (Rest := unit) (λ _, None) (λ _, ""%string) id (λ k b, k +:+ b) wit_payload [] []
    wit_inbound_catalog wit_inbound_catalog 1000 1 2000 1 (wit_inbound_request "sha256=6b62") wit_inbound_world w1 w1 w2 1 1 1 0) as (_ & [[? _]|[_ E]]).
  - exact wit_inbound_key.
  - apply empty_entries_wf.
  - apply pair_run. vm_compute. reflexivity.
  - reflexivity.
  - vm_compute. reflexivity.
  - apply pair_run. vm_compute. reflexivity.
  - done.
  - exact E.
Defined.
