(* ===== verification/Xml.v ===== *)
(** Model of the parts of Go's [encoding/xml] the program uses on whole documents:
    [EscapeText], and the strict decoder behind [Unmarshal] as far as the tree of elements
    and attributes it builds.  A text is a list of bytes.  Names of elements and attributes are
    read in ASCII: a document with other names, or nested deeper than Go's limit of 10000, is
    outside the model. *)

From S2P Require Import Prelude GoStrings.
From Stdlib Require Import Ascii.

Local Open Scope Z_scope.

Definition text := list ascii.
Notation lit s := (String.list_ascii_of_string s%string).
Notation str t := (String.string_of_list_ascii t).

(** * Characters *)

Definition between (lo hi : Z) (a : ascii) : bool := (lo <=? byte_of a) && (byte_of a <=? hi).

(** The two, three and four bytes of one rune ([utf8.DecodeRune]). *)
Definition rune2 (a b : ascii) : bool := between 194 223 a && between 128 191 b.
Definition rune3 (a b c : ascii) : bool :=
  between 224 239 a && between (if is_byte 224 a then 160 else 128) (if is_byte 237 a then 159 else 191) b && between 128 191 c.
Definition rune4 (a b c d : ascii) : bool :=
  between 240 244 a && between (if is_byte 240 a then 144 else 128) (if is_byte 244 a then 143 else 191) b
  && between 128 191 c && between 128 191 d.

(** [isInCharacterRange] on a rune of one byte, and the two runes of three bytes outside it. *)
Definition char1 (a : ascii) : bool := between 32 127 a || is_byte 9 a || is_byte 10 a || is_byte 13 a.
Definition nonchar3 (a b c : ascii) : bool := is_byte 239 a && is_byte 191 b && (is_byte 190 c || is_byte 191 c).

Definition replacement : text := ascii_of_N <$> [239; 191; 189]%N.
Definition keep1 (a : ascii) : text := if char1 a then [a] else replacement.
Definition keep3 (a b c : ascii) : text := if nonchar3 a b c then replacement else [a; b; c].

(** What [EscapeText] makes of a text apart from the entities: every byte that belongs to no
    character of XML becomes U+FFFD. *)
Fixpoint sanitize (s : text) : text :=
  match s with
  | a :: s1 =>
      match s1 with
      | b :: s2 =>
          if rune2 a b then a :: b :: sanitize s2
          else match s2 with
               | c :: s3 =>
                   if rune3 a b c then keep3 a b c ++ sanitize s3
                   else match s3 with
                        | d :: s4 => if rune4 a b c d then a :: b :: c :: d :: sanitize s4 else keep1 a ++ sanitize s1
                        | [] => keep1 a ++ sanitize s1
                        end
               | [] => keep1 a ++ sanitize s1
               end
      | [] => keep1 a
      end
  | [] => []
  end.

(** The check of the decoder on every text it reads. *)
Fixpoint xml_valid (s : text) : bool :=
  match s with
  | a :: s1 =>
      match s1 with
      | b :: s2 =>
          if rune2 a b then xml_valid s2
          else match s2 with
               | c :: s3 =>
                   if rune3 a b c then negb (nonchar3 a b c) && xml_valid s3
                   else match s3 with
                        | d :: s4 => if rune4 a b c d then xml_valid s4 else char1 a && xml_valid s1
                        | [] => char1 a && xml_valid s1
                        end
               | [] => char1 a && xml_valid s1
               end
      | [] => char1 a
      end
  | [] => true
  end.

(** * Escaping *)

Definition escape1 (a : ascii) : text :=
  if is_byte 34 a then lit "&#34;" else if is_byte 39 a then lit "&#39;" else if is_byte 38 a then lit "&amp;"
  else if is_byte 60 a then lit "&lt;" else if is_byte 62 a then lit "&gt;" else if is_byte 9 a then lit "&#x9;"
  else if is_byte 10 a then lit "&#xA;" else if is_byte 13 a then lit "&#xD;" else [a].

Definition escape_bytes (s : text) : text := s ≫= escape1.

(** [xml.EscapeText] *)
Definition EscapeText (s : text) : text := escape_bytes (sanitize s).

(** * Names and entities *)

Fixpoint span (p : ascii → bool) (s : text) : text * text :=
  match s with
  | a :: s' => if p a then let '(x, r) := span p s' in (a :: x, r) else ([], s)
  | [] => ([], [])
  end.

Definition is_alpha (a : ascii) : bool := between 65 90 a || between 97 122 a.
(** [isNameByte], with the bytes of other runes, which [is_name] then refuses. *)
Definition name_byte (a : ascii) : bool :=
  is_alpha a || is_digit a || is_byte 95 a || is_byte 58 a || is_byte 46 a || is_byte 45 a || between 128 255 a.
Definition is_name (n : text) : bool :=
  match n with
  | a :: _ => (is_alpha a || is_byte 95 a || is_byte 58 a) && forallb (λ x, negb (between 128 255 x)) n
  | [] => false
  end.
Definition read_name (s : text) : option (text * text) :=
  let '(n, r) := span name_byte s in if is_name n then Some (n, r) else None.

(** A name with its prefix. *)
Definition qname : Type := string * string.
Definition nsname (s : text) : option (qname * text) :=
  match read_name s with
  | None => None
  | Some (n, r) =>
      match split_on ":" (str n) with
      | [space; local] => if String.eqb space "" || String.eqb local "" then Some (("", str n), r) else Some ((space, local), r)
      | [_] => Some (("", str n), r)
      | _ => None
      end
  end.

Definition space_byte (a : ascii) : bool := is_byte 32 a || is_byte 13 a || is_byte 10 a || is_byte 9 a.
Definition skip_space (s : text) : text := (span space_byte s).2.

Definition hex_digit (a : ascii) : option Z :=
  if is_digit a then Some (digit_val a)
  else if between 97 102 a then Some (byte_of a - 87) else if between 65 70 a then Some (byte_of a - 55) else None.
Fixpoint number (base acc : Z) (s : text) : option Z :=
  match s with
  | [] => Some acc
  | a :: s' => match hex_digit a with
               | Some v => if v <? base then number base (acc * base + v) s' else None
               | None => None
               end
  end.

(** [string(rune(n))] *)
Definition encode_rune (n : Z) : text :=
  let b z := ascii_of_N (Z.to_N z) in
  let tail k := b (128 + Z.land (Z.shiftr n k) 63) in
  if (55296 <=? n) && (n <=? 57343) then replacement
  else if n <? 128 then [b n]
  else if n <? 2048 then [b (192 + Z.shiftr n 6); tail 0]
  else if n <? 65536 then [b (224 + Z.shiftr n 12); tail 6; tail 0]
  else [b (240 + Z.shiftr n 18); tail 12; tail 6; tail 0].

(** What stands between [&] and the semicolon. *)
Definition entity (body : text) : option text :=
  let code base ds := match ds with [] => None | _ => match number base 0 ds with
                      | Some n => if n <=? 1114111 then Some (encode_rune n) else None
                      | None => None end end in
  match body with
  | a :: rest =>
      if is_byte 35 a then
        match rest with
        | x :: ds => if is_byte 120 x then code 16 ds else code 10 rest
        | [] => None
        end
      else if bool_decide (str body = "lt"%string) then Some (lit "<")
      else if bool_decide (str body = "gt"%string) then Some (lit ">")
      else if bool_decide (str body = "amp"%string) then Some (lit "&")
      else if bool_decide (str body = "apos"%string) then Some (lit "'")
      else if bool_decide (str body = "quot"%string) then Some [ascii_of_N 34]
      else None
  | [] => None
  end.

(** * Text *)

Fixpoint cut_at (pat s : text) : option (text * text) :=
  if bool_decide (take (length pat) s = pat) then Some ([], drop (length pat) s)
  else match s with
       | [] => None
       | a :: s' => match cut_at pat s' with Some (x, r) => Some (a :: x, r) | None => None end
       end.

(** The line ends as the decoder writes them; [b1] is the byte before. *)
Definition newline1 (b1 a : ascii) : text :=
  if is_byte 13 a then ["010"%char] else if is_byte 13 b1 && is_byte 10 a then [] else [a].

(** The loop of [Decoder.text]: a quoted value up to its quote, or character data up to the next
    tag or the end; [b0] and [b1] are the two bytes before. *)
Fixpoint read_raw (fuel : nat) (quote : option ascii) (b0 b1 : ascii) (s : text) : option (text * text) :=
  match fuel with
  | O => None
  | S fuel =>
      match s with
      | [] => match quote with None => Some ([], []) | Some _ => None end
      | a :: s' =>
          if bool_decide (quote = None) && is_byte 93 b0 && is_byte 93 b1 && is_byte 62 a then None
          else if is_byte 60 a then match quote with None => Some ([], s) | Some _ => None end
          else if bool_decide (quote = Some a) then Some ([], s')
          else if is_byte 38 a then
            match cut_at (lit ";") s' with
            | Some (body, r) =>
                match entity body, read_raw fuel quote zero zero r with
                | Some t, Some (u, r) => Some (t ++ u, r)
                | _, _ => None
                end
            | None => None
            end
          else match read_raw fuel quote b1 a s' with
               | Some (u, r) => Some (newline1 b1 a ++ u, r)
               | None => None
               end
      end
  end.

Definition read_text (quote : option ascii) (s : text) : option (text * text) :=
  match read_raw (S (length s)) quote zero zero s with
  | Some (t, r) => if xml_valid t then Some (t, r) else None
  | None => None
  end.

Fixpoint newlines (b1 : ascii) (s : text) : text :=
  match s with [] => [] | a :: s' => newline1 b1 a ++ newlines a s' end.

(** [<![CDATA[], after its opening. *)
Definition read_cdata (s : text) : option (text * text) :=
  match cut_at (lit "]]>") s with
  | Some (t, r) => let t := newlines zero t in if xml_valid t then Some (t, r) else None
  | None => None
  end.

(** [Decoder.attrval] *)
Definition attrval (s : text) : option (text * text) :=
  match s with
  | a :: s' => if is_byte 34 a || is_byte 39 a then read_text (Some a) s' else None
  | [] => None
  end.

(** * Tokens *)

Inductive token :=
  | TStart (name : qname) (attrs : list (qname * string)) (empty : bool)
  | TEnd (name : qname)
  | TText (t : text)
  | TSkip.

(** The attributes of a start tag, up to its end; the boolean tells a tag that closes itself. *)
Fixpoint read_attrs (fuel : nat) (s : text) : option (list (qname * string) * bool * text) :=
  match fuel with
  | O => None
  | S fuel =>
      match skip_space s with
      | [] => None
      | a :: s' =>
          if is_byte 47 a then match s' with b :: r => if is_byte 62 b then Some ([], true, r) else None | [] => None end
          else if is_byte 62 a then Some ([], false, s')
          else
            match nsname (a :: s') with
            | None => None
            | Some (n, r) =>
                match skip_space r with
                | e :: r =>
                    if is_byte 61 e then
                      match attrval (skip_space r) with
                      | None => None
                      | Some (v, r) =>
                          match read_attrs fuel r with
                          | Some (l, closed, r) => Some ((n, str v) :: l, closed, r)
                          | None => None
                          end
                      end
                    else None
                | [] => None
                end
            end
      end
  end.

(** [procInst]: the value of a pseudo attribute of the declaration. *)
Fixpoint procInst (fuel : nat) (param : text) (s : text) : text :=
  match fuel with
  | O => []
  | S fuel =>
      match cut_at param s with
      | Some (_, c :: r) =>
          if is_byte 39 c || is_byte 34 c then match cut_at [c] r with Some (v, _) => v | None => [] end
          else procInst fuel param r
      | _ => []
      end
  end.

Definition declaration_ok (content : text) : bool :=
  let get p := str (procInst (length content) (lit p) content) in
  bool_decide (get "version="%string ∈ [""; "1.0"]%string)
  && (bool_decide (get "encoding="%string = ""%string) || equal_fold (get "encoding="%string) "utf-8").

(** [<?], up to its end. *)
Definition read_instruction (s : text) : option text :=
  match read_name s with
  | None => None
  | Some (target, r) =>
      match cut_at (lit "?>") (skip_space r) with
      | Some (content, r) => if bool_decide (str target = "xml"%string) && negb (declaration_ok content) then None else Some r
      | None => None
      end
  end.

(** A directive, up to its end: quotes hide everything, angles nest. *)
Fixpoint read_directive (fuel : nat) (inquote : ascii) (depth : nat) (s : text) : option text :=
  match fuel with
  | O => None
  | S fuel =>
      match s with
      | [] => None
      | b :: r =>
          if negb (Ascii.eqb inquote zero) then read_directive fuel (if Ascii.eqb b inquote then zero else inquote) depth r
          else if is_byte 62 b then match depth with O => Some r | S depth => read_directive fuel zero depth r end
          else if is_byte 39 b || is_byte 34 b then read_directive fuel b depth r
          else if is_byte 60 b then
            if bool_decide (take 3 r = lit "!--") then
              match cut_at (lit "-->") (drop 3 r) with Some (_, r) => read_directive fuel zero depth r | None => None end
            else read_directive fuel zero (S depth) r
          else read_directive fuel zero depth r
      end
  end.

(** [<!], a comment, character data as it stands, or a directive. *)
Definition read_bang (s : text) : option (token * text) :=
  if bool_decide (take 1 s = lit "-") then
    if bool_decide (take 2 s = lit "--") then
      match cut_at (lit "--") (drop 2 s) with
      | Some (_, c :: r) => if is_byte 62 c then Some (TSkip, r) else None
      | _ => None
      end
    else None
  else if bool_decide (take 1 s = lit "[") then
    if bool_decide (take 7 s = lit "[CDATA[") then
      match read_cdata (drop 7 s) with Some (t, r) => Some (TText t, r) | None => None end
    else None
  else match s with
       | [] => None
       | _ :: r => match read_directive (length s) zero 0 r with Some r => Some (TSkip, r) | None => None end
       end.

(** [Decoder.rawToken] *)
Definition raw_token (s : text) : option (token * text) :=
  match s with
  | [] => None
  | a :: r =>
      if negb (is_byte 60 a) then match read_text None s with Some (t, r) => Some (TText t, r) | None => None end
      else match r with
           | [] => None
           | b :: r' =>
               if is_byte 47 b then
                 match nsname r' with
                 | Some (n, r) => match skip_space r with c :: r => if is_byte 62 c then Some (TEnd n, r) else None | [] => None end
                 | None => None
                 end
               else if is_byte 63 b then match read_instruction r' with Some r => Some (TSkip, r) | None => None end
               else if is_byte 33 b then read_bang r'
               else match nsname r with
                    | Some (n, r) =>
                        match read_attrs (S (length r)) r with
                        | Some (l, closed, r) => Some (TStart n l closed, r)
                        | None => None
                        end
                    | None => None
                    end
           end
  end.

(** * Elements *)

(** The names of attributes carry the address of their name space once it is resolved. *)
Inductive xml := Elem (name : qname) (attrs : list (qname * string)) (kids : list xml) | Chars (t : text).

(** The children of an element, up to its end tag, whose name comes back. *)
Fixpoint read_nodes (fuel : nat) (s : text) : option (list xml * qname * text) :=
  match fuel with
  | O => None
  | S fuel =>
      match raw_token s with
      | None => None
      | Some (TEnd n, r) => Some ([], n, r)
      | Some (TSkip, r) => read_nodes fuel r
      | Some (TText t, r) =>
          match read_nodes fuel r with Some (l, n, r) => Some (Chars t :: l, n, r) | None => None end
      | Some (TStart n attrs true, r) =>
          match read_nodes fuel r with Some (l, m, r) => Some (Elem n attrs [] :: l, m, r) | None => None end
      | Some (TStart n attrs false, r) =>
          match read_nodes fuel r with
          | Some (kids, m, r) =>
              if bool_decide (m = n) then
                match read_nodes fuel r with Some (l, m, r) => Some (Elem n attrs kids :: l, m, r) | None => None end
              else None
          | None => None
          end
      end
  end.

(** The first element of a document; what follows it is not read. *)
Fixpoint read_root (fuel : nat) (s : text) : option xml :=
  match fuel with
  | O => None
  | S fuel =>
      match raw_token s with
      | None | Some (TEnd _, _) => None
      | Some (TSkip, r) | Some (TText _, r) => read_root fuel r
      | Some (TStart n attrs true, _) => Some (Elem n attrs [])
      | Some (TStart n attrs false, r) =>
          match read_nodes (S (length r)) r with
          | Some (kids, m, _) => if bool_decide (m = n) then Some (Elem n attrs kids) else None
          | None => None
          end
      end
  end.

(** ** Name spaces *)

Definition xmlURL : string := "http://www.w3.org/XML/1998/namespace".

(** The prefixes an element declares. *)
Definition declare (ns : gmap string string) (attrs : list (qname * string)) : gmap string string :=
  foldl (λ ns a, let '((space, local), v) := a in
    if String.eqb space "xmlns" then <[local := v]> ns
    else if String.eqb space "" && String.eqb local "xmlns" then <[""%string := v]> ns else ns) ns attrs.

(** [Decoder.translate] of an attribute's name. *)
Definition translate (ns : gmap string string) (n : qname) : qname :=
  if String.eqb n.1 "xmlns" || String.eqb n.1 "" then n
  else if String.eqb n.1 "xml" then (default xmlURL (ns !! xmlURL), n.2)
  else (default n.1 (ns !! n.1), n.2).

Fixpoint resolve (ns : gmap string string) (x : xml) : xml :=
  match x with
  | Chars t => Chars t
  | Elem n attrs kids =>
      let ns := declare ns attrs in
      Elem n ((λ a, (translate ns a.1, a.2)) <$> attrs) (resolve ns <$> kids)
  end.

Definition read_document (s : text) : option xml := resolve ∅ <$> read_root (S (length s)) s.

(** ** Fields *)

(** The value a field takes from the attributes: the last one of its name, in the name space the
    field names, if it names one. *)
Definition attr_field (space : option string) (local : string) (attrs : list (qname * string)) : string :=
  foldl (λ v a, if String.eqb a.1.2 local && match space with Some u => String.eqb a.1.1 u | None => true end then a.2 else v) ""%string attrs.

(** The elements of a name among the children. *)
Definition named (local : string) (kids : list xml) : list (list (qname * string) * list xml) :=
  omap (λ x, match x with Elem n attrs kids => if String.eqb n.2 local then Some (attrs, kids) else None | Chars _ => None end) kids.

Definition chars (kids : list xml) : text := kids ≫= λ x, match x with Chars t => t | Elem _ _ _ => [] end.

(** * What is written is read back *)

Lemma lit_app a b : lit (a +:+ b) = lit a ++ lit b.
Proof. induction a as [|c a IH]; [done|]. change (String c a +:+ b) with (String c (a +:+ b)). cbn. by f_equal. Qed.
Lemma lit_str t : lit (str t) = t.
Proof. apply String.list_ascii_of_string_of_list_ascii. Qed.
Lemma str_lit s : str (lit s) = s.
Proof. apply String.string_of_list_ascii_of_string. Qed.

(** ** Characters *)

Lemma byte_of_range a : 0 <= byte_of a < 256.
Proof. unfold byte_of. pose proof (N_ascii_bounded a). lia. Qed.

Lemma char1_alone a : char1 a = true →
  (∀ b, rune2 a b = false) ∧ (∀ b c, rune3 a b c = false) ∧ (∀ b c d, rune4 a b c d = false).
Proof.
  intros H. assert (between 194 223 a = false ∧ between 224 239 a = false ∧ between 240 244 a = false) as (H2 & H3 & H4)
    by (unfold char1, between, is_byte in *; lia).
  unfold rune2, rune3, rune4. by rewrite H2, H3, H4.
Qed.

(** Both functions, and [sanitize] at a character of one byte, in a form to rewrite with. *)
Lemma xml_valid_1 a t : char1 a = true → xml_valid (a :: t) = xml_valid t.
Proof.
  intros H. destruct (char1_alone a H) as (H2 & H3 & H4).
  destruct t as [|b [|c [|d t]]]; cbn [xml_valid]; rewrite ?H2, ?H3, ?H4, H; done.
Qed.

Lemma sanitize_1 a t : char1 a = true → sanitize (a :: t) = a :: sanitize t.
Proof.
  intros H. destruct (char1_alone a H) as (H2 & H3 & H4). unfold keep1.
  destruct t as [|b [|c [|d t]]]; cbn [sanitize]; unfold keep1; rewrite ?H2, ?H3, ?H4, H; done.
Qed.

Lemma xml_valid_replacement t : xml_valid (replacement ++ t) = xml_valid t.
Proof. reflexivity. Qed.

Lemma xml_valid_keep1 a t : xml_valid (keep1 a ++ t) = xml_valid t.
Proof. unfold keep1. destruct (char1 a) eqn:E; [by apply xml_valid_1|apply xml_valid_replacement]. Qed.

Lemma xml_valid_keep3 a b c t : rune2 a b = false → rune3 a b c = true → xml_valid (keep3 a b c ++ t) = xml_valid t.
Proof.
  unfold keep3. intros H2 H3. destruct (nonchar3 a b c) eqn:E; [apply xml_valid_replacement|].
  cbn [app xml_valid]. by rewrite H2, H3, E.
Qed.

(** [EscapeText] writes characters of XML only. *)
Lemma xml_valid_sanitize t : xml_valid (sanitize t) = true.
Proof.
  induction t as [t IH] using (well_founded_induction (well_founded_ltof _ (@length ascii))). unfold ltof in IH.
  destruct t as [|a [|b t]]; [done| |].
  - cbn [sanitize]. rewrite <- (app_nil_r (keep1 a)). by rewrite xml_valid_keep1.
  - cbn [sanitize]. destruct (rune2 a b) eqn:H2; [cbn [xml_valid]; rewrite H2; apply IH; cbn; lia|].
    destruct t as [|c t]; [rewrite xml_valid_keep1; apply (IH [b]); cbn; lia|].
    destruct (rune3 a b c) eqn:H3; [rewrite xml_valid_keep3 by done; apply IH; cbn; lia|].
    destruct t as [|d t]; [rewrite xml_valid_keep1; apply (IH [b; c]); cbn; lia|].
    destruct (rune4 a b c d) eqn:H4; [cbn [xml_valid]; rewrite H2, H3, H4; apply IH; cbn; lia|].
    rewrite xml_valid_keep1. apply (IH (b :: c :: d :: t)); cbn; lia.
Qed.

(** A text of characters is left as it is. *)
Lemma sanitize_valid t : xml_valid t = true → sanitize t = t.
Proof.
  induction t as [t IH] using (well_founded_induction (well_founded_ltof _ (@length ascii))). unfold ltof in IH.
  destruct t as [|a [|b t]]; [done| |].
  - cbn [sanitize xml_valid]. unfold keep1. by intros ->.
  - cbn [sanitize xml_valid]. unfold keep1, keep3. destruct (rune2 a b) eqn:H2; [intros; do 2 f_equal; apply IH; [cbn; lia|done]|].
    destruct t as [|c t].
    { intros [-> ?]%andb_prop. cbn [app]. f_equal. apply (IH [b]); [cbn; lia|done]. }
    destruct (rune3 a b c) eqn:H3.
    { intros [->%negb_true_iff ?]%andb_prop. cbn [app]. do 3 f_equal. apply IH; [cbn; lia|done]. }
    destruct t as [|d t].
    { intros [-> ?]%andb_prop. cbn [app]. f_equal. apply (IH [b; c]); [cbn; lia|done]. }
    destruct (rune4 a b c d) eqn:H4; [intros; do 4 f_equal; apply IH; [cbn; lia|done]|].
    intros [-> ?]%andb_prop. cbn [app]. f_equal. apply (IH (b :: c :: d :: t)); [cbn; lia|done].
Qed.

(** ** Text *)

Definition dquote : ascii := ascii_of_N 34.
Definition plain (a : ascii) : bool := negb (is_byte 60 a || is_byte 62 a || is_byte 38 a || is_byte 13 a || is_byte 34 a).

Lemma newline1_plain b1 a : is_byte 13 b1 = false → is_byte 13 a = false → newline1 b1 a = [a].
Proof. unfold newline1. by intros -> ->. Qed.

(** What the quote, or the next tag, leaves of the input. *)
Definition closes (quote : option ascii) (rest stop : text) : Prop :=
  match quote with Some q => is_byte 34 q = true ∧ stop = q :: rest | None => ∃ r, rest = "<"%char :: r ∧ stop = rest end.

Lemma is_byte_eq n a : is_byte n a = true → a = ascii_of_N (Z.to_N n).
Proof. unfold is_byte, byte_of. intros H%Z.eqb_eq. rewrite <- H, N2Z.id. by rewrite ascii_N_embedding. Qed.

Lemma read_raw_closes fuel quote b0 b1 rest stop :
  closes quote rest stop → read_raw (S fuel) quote b0 b1 stop = Some ([], rest).
Proof.
  destruct quote as [q|]; cbn [closes].
  - intros [Hq ->]. apply is_byte_eq in Hq. subst q. cbn [read_raw]. by rewrite bool_decide_eq_false_2, bool_decide_eq_true_2.
  - intros (r & -> & ->). cbn [read_raw]. rewrite bool_decide_eq_true_2 by done.
    destruct (is_byte 93 b0), (is_byte 93 b1); reflexivity.
Qed.

(** Double quotes, or character data. *)
Definition good_quote (quote : option ascii) : Prop := quote = None ∨ quote = Some dquote.

Lemma read_raw_plain fuel quote b0 b1 a s t r :
  good_quote quote → plain a = true → is_byte 13 b1 = false →
  read_raw fuel quote b1 a s = Some (t, r) → read_raw (S fuel) quote b0 b1 (a :: s) = Some (a :: t, r).
Proof.
  intros Hq Hp H1 H. unfold plain in Hp. apply negb_true_iff in Hp. repeat (apply orb_false_elim in Hp as [Hp ?]).
  cbn [read_raw]. rewrite H. replace (is_byte 60 a) with false. replace (is_byte 62 a) with false by done.
  replace (is_byte 38 a) with false by done. rewrite andb_false_r. rewrite newline1_plain by done.
  rewrite bool_decide_eq_false_2; [done|]. destruct Hq as [->| ->]; [done|]. intros [= <-]. done.
Qed.

(** A byte that is escaped, and one that is not. *)
Definition escaped (a : ascii) : bool := negb (plain a) || is_byte 39 a || is_byte 9 a || is_byte 10 a.

Lemma escape1_plain a : escaped a = false → escape1 a = [a] ∧ plain a = true.
Proof.
  unfold escaped, escape1, plain. intros H. repeat (apply orb_false_elim in H as [H ?]). apply negb_false_iff in H.
  split; [|done]. apply negb_true_iff in H. repeat (apply orb_false_elim in H as [H ?]).
  by repeat match goal with E : is_byte _ a = false |- _ => rewrite E; clear E end.
Qed.

Lemma escape1_entity a : escaped a = true →
  ∃ body, escape1 a = "&"%char :: body ++ lit ";" ∧ entity body = Some [a] ∧ ∀ s, cut_at (lit ";") (body ++ lit ";" ++ s) = Some (body, s).
Proof.
  intros Ha. assert (∃ n, n ∈ [34; 39; 38; 60; 62; 9; 10; 13] ∧ is_byte n a = true) as (n & Hn & Hb).
  { unfold escaped, plain in Ha. rewrite negb_involutive in Ha. repeat (apply orb_prop in Ha as [Ha|Ha]);
      eexists; (split; [|exact Ha]); set_solver. }
  apply is_byte_eq in Hb. subst a. clear Ha.
  repeat (apply elem_of_cons in Hn as [->|Hn]); [..|by apply elem_of_nil in Hn].
  - by exists (lit "#34").
  - by exists (lit "#39").
  - by exists (lit "amp").
  - by exists (lit "lt").
  - by exists (lit "gt").
  - by exists (lit "#x9").
  - by exists (lit "#xA").
  - by exists (lit "#xD").
Qed.

Lemma read_raw_entity fuel quote b0 b1 a s t r :
  good_quote quote → escaped a = true → read_raw fuel quote zero zero s = Some (t, r) →
  read_raw (S fuel) quote b0 b1 (escape1 a ++ s) = Some (a :: t, r).
Proof.
  intros Hq Ha H. destruct (escape1_entity a Ha) as (body & -> & He & Hc).
  change (("&"%char :: body ++ lit ";") ++ s) with ("&"%char :: (body ++ lit ";") ++ s). rewrite <- app_assoc.
  cbn [read_raw]. rewrite Hc, He, H. change (is_byte 62 "&") with false. change (is_byte 60 "&") with false.
  change (is_byte 38 "&") with true. rewrite andb_false_r.
  by destruct Hq as [->| ->].
Qed.

Lemma escape_bytes_app a t : escape_bytes (a ++ t) = escape_bytes a ++ escape_bytes t.
Proof. unfold escape_bytes. apply bind_app. Qed.
Lemma escape_bytes_cons a t : escape_bytes (a :: t) = escape1 a ++ escape_bytes t.
Proof. done. Qed.
Lemma escape_bytes_length t : (length t <= length (escape_bytes t))%nat.
Proof.
  induction t as [|a t IH]; [done|]. rewrite escape_bytes_cons, length_app. cbn [length].
  destruct (escaped a) eqn:E.
  - destruct (escape1_entity a E) as (body & -> & _). cbn. lia.
  - destruct (escape1_plain a E) as [-> _]. cbn. lia.
Qed.

Lemma read_raw_escaped quote t rest stop : good_quote quote → closes quote rest stop →
  ∀ fuel b0 b1, (length t < fuel)%nat → is_byte 13 b1 = false →
  read_raw fuel quote b0 b1 (escape_bytes t ++ stop) = Some (t, rest).
Proof.
  intros Hq Hc. induction t as [|a t IH]; intros fuel b0 b1 Hf H1; (destruct fuel as [|fuel]; [cbn in Hf; lia|]); cbn [length] in Hf.
  - by apply read_raw_closes.
  - rewrite escape_bytes_cons, <- app_assoc. destruct (escaped a) eqn:E.
    + apply read_raw_entity; [done..|]. apply IH; [lia|done].
    + destruct (escape1_plain a E) as [-> Hp]. apply read_raw_plain; [done..|]. apply IH; [lia|].
      unfold plain in Hp. apply negb_true_iff in Hp. by repeat (apply orb_false_elim in Hp as [Hp ?]).
Qed.

Lemma read_raw_plains t rest : Forall (λ a, plain a = true) t →
  ∀ fuel b0 b1, (length t < fuel)%nat → is_byte 13 b1 = false →
  read_raw fuel None b0 b1 (t ++ "<"%char :: rest) = Some (t, "<"%char :: rest).
Proof.
  induction 1 as [|a t Ha _ IH]; intros fuel b0 b1 Hf H1; (destruct fuel as [|fuel]; [cbn in Hf; lia|]); cbn [length] in Hf.
  - apply read_raw_closes. by eexists.
  - cbn [app]. apply read_raw_plain; [by left|done..|]. apply IH; [lia|].
    unfold plain in Ha. apply negb_true_iff in Ha. by repeat (apply orb_false_elim in Ha as [Ha ?]).
Qed.

Lemma read_text_escaped quote t rest stop : good_quote quote → closes quote rest stop → xml_valid t = true →
  read_text quote (escape_bytes t ++ stop) = Some (t, rest).
Proof.
  intros Hq Hc Hv. unfold read_text. rewrite (read_raw_escaped quote t rest stop) by
    (done || (rewrite length_app; pose proof (escape_bytes_length t); lia)). by rewrite Hv.
Qed.

Lemma read_text_plain t rest : Forall (λ a, plain a = true) t → xml_valid t = true →
  read_text None (t ++ "<"%char :: rest) = Some (t, "<"%char :: rest).
Proof.
  intros Hp Hv. unfold read_text. rewrite read_raw_plains by (done || (rewrite length_app; cbn; lia)). by rewrite Hv.
Qed.

(** ** Names and attributes *)

Lemma span_all p t rest : Forall (λ a, p a = true) t → (∀ c r, rest = c :: r → p c = false) → span p (t ++ rest) = (t, rest).
Proof.
  intros Ht Hr. induction Ht as [|a t Ha _ IH].
  - destruct rest as [|c r]; [done|]. cbn. by rewrite (Hr c r).
  - cbn [app span]. by rewrite Ha, IH.
Qed.

(** A name as it is written, and what it is read as. *)
Definition qname_of (n : string) : qname :=
  match split_on ":" n with
  | [space; local] => if String.eqb space "" || String.eqb local "" then (("", n)) else (space, local)
  | _ => ("", n)
  end.
Definition good_name (n : string) : bool :=
  forallb name_byte (lit n) && is_name (lit n) && bool_decide (length (split_on ":" n) ≤ 2)%nat.

Lemma nsname_good n c r : good_name n = true → name_byte c = false → nsname (lit n ++ c :: r) = Some (qname_of n, c :: r).
Proof.
  unfold good_name, nsname, read_name, qname_of. intros [[Hn Hi]%andb_prop Hs%bool_decide_eq_true]%andb_prop Hc.
  rewrite span_all; [rewrite Hi, str_lit| |by intros ? ? [= <- <-]].
  - pose proof (split_on_ne ":" n) as Hne. destruct (split_on ":" n) as [|x [|y [|z l]]]; [done|done| |cbn in Hs; lia].
    by destruct (String.eqb x "" || String.eqb y "").
  - apply Forall_forall. intros x Hx%list_elem_of_In. by eapply forallb_forall in Hn.
Qed.

(** An attribute as it is written, with the blank before it. *)
Definition show_attr (a : string * text) : text := " "%char :: lit a.1 ++ "="%char :: dquote :: escape_bytes a.2 ++ [dquote].
Definition good_attr (a : string * text) : Prop := good_name a.1 = true ∧ xml_valid a.2 = true.
Definition attr_of (a : string * text) : qname * string := (qname_of a.1, str a.2).

(** The end of a start tag. *)
Definition tag_end (closed : bool) : text := if closed then lit "/>" else lit ">".

Lemma good_name_cons n : good_name n = true → ∃ c t, lit n = c :: t ∧ space_byte c = false ∧ is_byte 47 c = false ∧ is_byte 62 c = false.
Proof.
  unfold good_name. intros [[_ Hi]%andb_prop _]%andb_prop. destruct (lit n) as [|c t]; [done|]. exists c, t. split; [done|].
  cbn [is_name] in Hi. apply andb_prop in Hi as [Hi _]. unfold is_alpha, between, space_byte, is_byte in *. lia.
Qed.

Lemma skip_space_stop c r : space_byte c = false → skip_space (c :: r) = c :: r.
Proof. unfold skip_space. cbn. by intros ->. Qed.

Lemma read_attrs_show l closed rest : Forall good_attr l → ∀ fuel, (length l < fuel)%nat →
  read_attrs fuel ((l ≫= show_attr) ++ tag_end closed ++ rest) = Some (attr_of <$> l, closed, rest).
Proof.
  induction 1 as [|[n v] l [Hn Hv] _ IH]; intros fuel Hf; (destruct fuel as [|fuel]; [cbn in Hf; lia|]); cbn [length] in Hf.
  - by destruct closed.
  - cbn [fst snd] in Hn, Hv. rewrite bind_cons. unfold show_attr at 1. cbn [fst snd]. rewrite <- app_assoc. cbn [app].
    rewrite <- app_assoc. cbn [app]. rewrite <- app_assoc. cbn [app read_attrs].
    assert (∀ s, skip_space (" "%char :: lit n ++ s) = lit n ++ s) as Hsp.
    { intros s. destruct (good_name_cons n Hn) as (c & t & -> & Hc & _). unfold skip_space. cbn. by rewrite Hc. }
    rewrite Hsp. destruct (good_name_cons n Hn) as (c & t & Hlit & _ & H47 & H62). rewrite Hlit. cbn [app]. rewrite H47, H62.
    change (c :: t ++ ?s) with ((c :: t) ++ s). rewrite <- Hlit, nsname_good by done.
    rewrite skip_space_stop by done. change (is_byte 61 "=") with true. cbv iota. rewrite skip_space_stop by done.
    unfold attrval. change (is_byte 34 dquote || is_byte 39 dquote) with true. cbv iota.
    rewrite (read_text_escaped (Some dquote) v ((l ≫= show_attr) ++ tag_end closed ++ rest)) by (done || by right).
    rewrite IH by lia. done.
Qed.

(** ** Tags *)

Definition show_start (n : string) (attrs : list (string * text)) (closed : bool) : text :=
  "<"%char :: lit n ++ (attrs ≫= show_attr) ++ tag_end closed.
Definition show_end (n : string) : text := lit "</" ++ lit n ++ lit ">".

Lemma good_name_start n : good_name n = true → ∃ c t, lit n = c :: t ∧ is_byte 47 c = false ∧ is_byte 63 c = false ∧ is_byte 33 c = false.
Proof.
  unfold good_name. intros [[_ Hi]%andb_prop _]%andb_prop. destruct (lit n) as [|c t]; [done|]. exists c, t. split; [done|].
  cbn [is_name] in Hi. apply andb_prop in Hi as [Hi _]. unfold is_alpha, between, space_byte, is_byte in *. lia.
Qed.

Lemma attrs_after_name attrs closed rest :
  ∃ c r, (attrs ≫= show_attr) ++ tag_end closed ++ rest = c :: r ∧ name_byte c = false.
Proof.
  destruct attrs as [|a attrs].
  - destruct closed; by eexists _, _.
  - rewrite bind_cons. unfold show_attr at 1. rewrite <- app_assoc. by eexists _, _.
Qed.

Lemma raw_token_start n attrs closed rest : good_name n = true → Forall good_attr attrs →
  raw_token (show_start n attrs closed ++ rest) = Some (TStart (qname_of n) (attr_of <$> attrs) closed, rest).
Proof.
  intros Hn Ha. unfold show_start. cbn [app raw_token]. change (is_byte 60 "<") with true. cbn [negb]. cbv iota.
  rewrite <- !app_assoc. destruct (good_name_start n Hn) as (c & t & Hlit & H47 & H63 & H33).
  rewrite Hlit. cbn [app]. rewrite H47, H63, H33. change (c :: t ++ ?s) with ((c :: t) ++ s). rewrite <- Hlit.
  destruct (attrs_after_name attrs closed rest) as (d & r & Hd & Hnb). rewrite Hd, nsname_good by done. rewrite <- Hd.
  rewrite read_attrs_show; [done|done|]. rewrite length_app.
  assert (length attrs <= length (attrs ≫= show_attr))%nat as Hl; [|lia].
  clear. induction attrs as [|a l IH]; [done|]. rewrite bind_cons, length_app. cbn. lia.
Qed.

Lemma raw_token_end n rest : good_name n = true → raw_token (show_end n ++ rest) = Some (TEnd (qname_of n), rest).
Proof.
  intros Hn. unfold show_end. rewrite <- !app_assoc.
  change (lit "</" ++ lit n ++ lit ">" ++ rest) with ("<"%char :: "/"%char :: lit n ++ ">"%char :: rest). cbn [raw_token].
  change (is_byte 60 "<") with true. change (is_byte 47 "/") with true. cbn [negb]. cbv iota.
  by rewrite (nsname_good n ">" rest).
Qed.

Lemma raw_token_plain t rest : t ≠ [] → Forall (λ a, plain a = true) t → xml_valid t = true →
  raw_token (t ++ "<"%char :: rest) = Some (TText t, "<"%char :: rest).
Proof.
  intros Hne Hp Hv. pose proof (read_text_plain t rest Hp Hv) as H. destruct t as [|a t]; [done|]. cbn [app raw_token] in *.
  inversion Hp as [|? ? Ha _]. unfold plain in Ha. apply negb_true_iff in Ha. repeat (apply orb_false_elim in Ha as [Ha ?]).
  rewrite Ha. cbn [negb]. by rewrite H.
Qed.

(** ** Elements *)

(** The reader makes [res] of [s], with any fuel that [s] is shorter than. *)
Definition reads (s : text) (res : list xml * qname * text) : Prop :=
  ∀ fuel, (length s < fuel)%nat → read_nodes fuel s = Some res.

Lemma reads_end n rest : good_name n = true → reads (show_end n ++ rest) ([], qname_of n, rest).
Proof. intros Hn fuel Hf. destruct fuel as [|fuel]; [lia|]. cbn [read_nodes]. by rewrite raw_token_end. Qed.

Lemma reads_chars s t s' l n r :
  raw_token s = Some (TText t, s') → (length s' < length s)%nat → reads s' (l, n, r) → reads s (Chars t :: l, n, r).
Proof.
  intros Ht Hl H fuel Hf. destruct fuel as [|fuel]; [lia|]. cbn [read_nodes]. rewrite Ht, H by lia. done.
Qed.

Lemma reads_plain t s l n r : t ≠ [] → Forall (λ a, plain a = true) t → xml_valid t = true →
  reads ("<"%char :: s) (l, n, r) → reads (t ++ "<"%char :: s) (Chars t :: l, n, r).
Proof.
  intros Hne Hp Hv. apply reads_chars; [by apply raw_token_plain|].
  rewrite length_app. destruct t; [done|cbn; lia].
Qed.

Lemma reads_closed n attrs s l m r : good_name n = true → Forall good_attr attrs →
  reads s (l, m, r) → reads (show_start n attrs true ++ s) (Elem (qname_of n) (attr_of <$> attrs) [] :: l, m, r).
Proof.
  intros Hn Ha H fuel Hf. destruct fuel as [|fuel]; [lia|]. cbn [read_nodes]. rewrite raw_token_start by done.
  rewrite H; [done|]. unfold show_start in Hf. cbn [app length] in Hf. rewrite !length_app in Hf. lia.
Qed.

Lemma reads_open n attrs s kids s' l m r : good_name n = true → Forall good_attr attrs → (length s' <= length s)%nat →
  reads s (kids, qname_of n, s') → reads s' (l, m, r) →
  reads (show_start n attrs false ++ s) (Elem (qname_of n) (attr_of <$> attrs) kids :: l, m, r).
Proof.
  intros Hn Ha Hl Hk H fuel Hf. destruct fuel as [|fuel]; [lia|]. cbn [read_nodes]. rewrite raw_token_start by done.
  unfold show_start in Hf. cbn [app length] in Hf. rewrite !length_app in Hf.
  rewrite Hk, bool_decide_eq_true_2, H by (done || lia). done.
Qed.

(** Text that was escaped; nothing at all where it was empty. *)
Definition chars_of (t : text) : list xml := match t with [] => [] | _ => [Chars t] end.

Lemma chars_chars_of t : chars (chars_of t) = t.
Proof. destruct t; [done|]. unfold chars, chars_of. cbn. by rewrite app_nil_r. Qed.

Lemma reads_escaped t s l n r : xml_valid t = true →
  reads ("<"%char :: s) (l, n, r) → reads (escape_bytes t ++ "<"%char :: s) (chars_of t ++ l, n, r).
Proof.
  intros Hv H. destruct t as [|a t]; [done|]. apply (reads_chars _ _ ("<"%char :: s)); [| |done].
  - pose proof (read_text_escaped None (a :: t) ("<"%char :: s) ("<"%char :: s)) as Ht.
    rewrite escape_bytes_cons in *. destruct (escape1 a ++ escape_bytes t) as [|c u] eqn:E.
    { pose proof (escape_bytes_length (a :: t)) as Hl. rewrite escape_bytes_cons, E in Hl. cbn in Hl. lia. }
    cbn [app raw_token] in *. replace (is_byte 60 c) with false.
    + cbn [negb]. rewrite Ht; [done|by left| |done]. by eexists.
    + destruct (escaped a) eqn:Ea.
      * destruct (escape1_entity a Ea) as (body & Hb & _). rewrite Hb in E. cbn in E. injection E as <- _. done.
      * destruct (escape1_plain a Ea) as [Hb Hp]. rewrite Hb in E. cbn in E. injection E as <- _.
        unfold plain in Hp. apply negb_true_iff in Hp. by repeat (apply orb_false_elim in Hp as [Hp ?]).
  - rewrite length_app. pose proof (escape_bytes_length (a :: t)). cbn in *. lia.
Qed.
