(* ===== verification/Opml.v ===== *)
(** Subscriptions as a file ([opml/opml.go]): the outline tree an OPML document is read into,
    the walk that collects its feeds with their settings, and the export that writes them.
    Reading back what was written is the theorem of this file; [OpmlImport.v] has what the
    server does with the feeds of a file. *)

From S2P Require Import Prelude GoStrings Types Xml.
From Stdlib Require Import Ascii.

Local Open Scope Z_scope.

(** * Data *)

(** opml/opml.go [Namespace] *)
Definition Namespace : string := "https://github.com/Tywed/rssam/opml".

(** opml/opml.go [Outline] *)
Inductive Outline := mkOutline {
  Text : string; Title : string; OType : string; XMLURL : string; URL : string; HTMLURL : string; Outlines : list Outline;
  RssamFeedType : string; RssamInterval : string; RssamTLSInsecure : string; RssamFetchViaProxy : string; RssamCrawler : string;
  RssamHashOnly : string; RssamStoreMode : string; RssamAdaptive : string; RssamRetentionDays : string; RssamUserAgent : string;
  RssamWebhook : string; RssamScraperRules : string; RssamRewriteRules : string; RssamBlockedRules : string; RssamKeepRules : string;
}.

(** opml/opml.go [FeedSettings] *)
Record FeedSettings := mkSettings {
  st_FeedType : string; st_IntervalMinutes : Z; st_TLSInsecure : bool; st_FetchViaProxy : bool; st_Crawler : bool;
  st_StoreMode : string; st_AdaptiveInterval : bool; st_RetentionDays : option Z; st_UserAgent : string; st_WebhookName : string;
  st_ScraperRules : string; st_RewriteRules : string; st_BlockedRules : string; st_KeepRules : string;
}.

(** opml/opml.go [Document] *)
Record Document := mkDocument { d_Version : string; d_Title : string; d_Body : list Outline }.

(** opml/opml.go [FeedEntry] *)
Record FeedEntry := mkFeedEntry {
  fe_Title : string; fe_FeedURL : string; fe_CategoryTitle : string; fe_Settings : FeedSettings; fe_SettingsErrors : list string;
}.

(** opml/opml.go [ExportCategory] *)
Record ExportCategory := mkExportCategory { ec_ID : Z; ec_Title : string }.

(** opml/opml.go [ExportFeed] *)
Record ExportFeed := mkExportFeed { ef_Title : string; ef_FeedURL : string; ef_CategoryID : option Z; ef_Settings : FeedSettings }.

(** opml/opml.go [ExportInput] *)
Record ExportInput := mkExportInput { in_Title : string; in_Categories : list ExportCategory; in_Feeds : list ExportFeed }.

(** * Reading *)

(** opml/opml.go:22-47 [Outline, as the decoder fills it] *)
Fixpoint outline_of (x : xml) : option Outline :=
  match x with
  | Elem n attrs kids =>
      if String.eqb n.2 "outline" then
        let a k := attr_field None k attrs in
        let r k := attr_field (Some Namespace) k attrs in
        Some (mkOutline (a "text") (a "title") (a "type") (a "xmlUrl") (a "url") (a "htmlUrl") (omap outline_of kids)
                (r "feedType") (r "interval") (r "tlsInsecure") (r "fetchViaProxy") (r "crawler") (r "hashOnly") (r "storeMode")
                (r "adaptiveInterval") (r "retentionDays") (r "userAgent") (r "webhook") (r "scraperRules") (r "rewriteRules")
                (r "blockedRules") (r "keepRules"))%string
      else None
  | Chars _ => None
  end.

(** The title of the last [head] that has one, and the outlines of every [body]. *)
Definition head_title (kids : list xml) : string :=
  foldl (λ t h, foldl (λ _ k, str (chars k.2)) t (named "title" h.2)) ""%string (named "head" kids).
Definition body_outlines (kids : list xml) : list Outline :=
  named "body" kids ≫= λ b, omap outline_of b.2.

(** opml/opml.go [ParseBytes] *)
Definition ParseBytes (data : text) : err + Document :=
  let data := trim_right (trim_left data) in
  match data with
  | [] => inl (EMsg "empty opml document")
  | _ =>
      match read_document data with
      | Some (Elem _ attrs kids) =>
          match body_outlines kids with
          | [] => inl (EMsg "opml body has no outlines")
          | body => inr (mkDocument (trim_space (attr_field None "version" attrs)) (trim_space (head_title kids)) body)
          end
      | _ => inl (EWrap "parse opml xml" (EMsg "malformed document"))
      end
  end.

(** [strconv.ParseBool] *)
Definition ParseBool (s : string) : option bool :=
  if bool_decide (s ∈ ["1"; "t"; "T"; "TRUE"; "true"; "True"]%string) then Some true
  else if bool_decide (s ∈ ["0"; "f"; "F"; "FALSE"; "false"; "False"]%string) then Some false
  else None.

(** opml/opml.go [outlineTitle] *)
Definition outlineTitle (o : Outline) : string :=
  if negb (String.eqb (trim_space (Title o)) "") then trim_space (Title o) else trim_space (Text o).

(** opml/opml.go [isRSSOutline] *)
Definition isRSSOutline (o : Outline) : bool :=
  equal_fold (trim_space (OType o)) "rss" || negb (String.eqb (trim_space (XMLURL o)) "").

(** opml/opml.go [feedURLFromOutline] *)
Definition feedURLFromOutline (o : Outline) : string :=
  if negb (String.eqb (trim_space (XMLURL o)) "") then trim_space (XMLURL o) else trim_space (URL o).

Section Collect.
(** [strconv.Quote], in messages only. *)
Context (Quote : string → string).

(** opml/opml.go:201-212 [settingsFromOutline, boolAttr] The value and what there is to report. *)
Definition boolAttr (name raw : string) : bool * list string :=
  let v := trim_space raw in
  if String.eqb v "" then (false, [])
  else match ParseBool v with
       | Some b => (b, [])
       | None => (false, ["rssam:" +:+ name +:+ ": expected true/false, got " +:+ Quote v])
       end.

(** opml/opml.go:185-192 [settingsFromOutline, the interval] *)
Definition intervalAttr (raw : string) : Z * list string :=
  let v := trim_space raw in
  let refused := (0, ["rssam:interval: expected a positive integer, got " +:+ Quote v]) in
  if String.eqb v "" then (0, [])
  else match parse_int64 v with
       | Some n => if n <=? 0 then refused else (n, [])
       | None => refused
       end.

(** opml/opml.go:193-200 [settingsFromOutline, the retention] *)
Definition retentionAttr (raw : string) : option Z * list string :=
  let v := trim_space raw in
  let refused := (None, ["rssam:retentionDays: expected a non-negative integer, got " +:+ Quote v]) in
  if String.eqb v "" then (None, [])
  else match parse_int64 v with
       | Some n => if n <? 0 then refused else (if 0 <? n then Some n else None, [])
       | None => refused
       end.

(** opml/opml.go:221-228 [settingsFromOutline, the way of storing] [mode] is the one of the old attribute. *)
Definition modeAttr (mode raw : string) : string * list string :=
  let v := trim_space raw in
  if String.eqb v "" then (mode, [])
  else if bool_decide (to_lower v ∈ ["full"; "filtered"; "relay"]%string) then (to_lower v, [])
  else (mode, ["rssam:storeMode: expected full/filtered/relay, got " +:+ Quote v]).

(** opml/opml.go [settingsFromOutline] *)
Definition settingsFromOutline (o : Outline) : FeedSettings * list string :=
  let '(interval, e1) := intervalAttr (RssamInterval o) in
  let '(retention, e2) := retentionAttr (RssamRetentionDays o) in
  let '(tls, e3) := boolAttr "tlsInsecure" (RssamTLSInsecure o) in
  let '(proxy, e4) := boolAttr "fetchViaProxy" (RssamFetchViaProxy o) in
  let '(crawler, e5) := boolAttr "crawler" (RssamCrawler o) in
  let '(hashOnly, e6) := boolAttr "hashOnly" (RssamHashOnly o) in
  let '(mode, e7) := modeAttr (if (hashOnly : bool) then "filtered" else "")%string (RssamStoreMode o) in
  let '(adaptive, e8) := boolAttr "adaptiveInterval" (RssamAdaptive o) in
  (mkSettings (to_lower (trim_space (RssamFeedType o))) interval tls proxy crawler mode adaptive retention
     (trim_space (RssamUserAgent o)) (trim_space (RssamWebhook o)) (trim_space (RssamScraperRules o)) (trim_space (RssamRewriteRules o))
     (trim_space (RssamBlockedRules o)) (trim_space (RssamKeepRules o)),
   e1 ++ e2 ++ e3 ++ e4 ++ e5 ++ e6 ++ e7 ++ e8).

(** opml/opml.go [collectOutlineFeeds] What the call appends to the list. *)
Fixpoint collectOutlineFeeds (o : Outline) (categoryTitle : string) : list FeedEntry :=
  if isRSSOutline o then
    if String.eqb (feedURLFromOutline o) "" then []
    else
      let '(settings, errs) := settingsFromOutline o in
      [mkFeedEntry (outlineTitle o) (feedURLFromOutline o) categoryTitle settings errs]
  else
    let folderTitle := outlineTitle o in
    let folderTitle := if String.eqb folderTitle "" && negb (bool_decide (Outlines o = [])) then categoryTitle else folderTitle in
    let nextCategory := if negb (String.eqb folderTitle "") then folderTitle else categoryTitle in
    Outlines o ≫= λ child, collectOutlineFeeds child nextCategory.

(** opml/opml.go [Document.CollectFeeds] *)
Definition CollectFeeds (d : Document) : list FeedEntry := d_Body d ≫= λ o, collectOutlineFeeds o "".
End Collect.

(** * Writing *)

Definition newline : text := [ascii_of_N 10].

(** opml/opml.go [xmlEscape] *)
Definition xmlEscape (s : string) : text := EscapeText (lit s).

(** opml/opml.go [xmlAttr] *)
Definition xmlAttr (s : string) : text := dquote :: xmlEscape (trim_space s) ++ [dquote].

(** opml/opml.go:339-344 [writeSettingsAttrs, attr] *)
Definition settings_attr (name value : string) : text :=
  if String.eqb value "" then [] else lit " rssam:" ++ lit name ++ lit "=" ++ xmlAttr value.

(** opml/opml.go [writeSettingsAttrs] *)
Definition writeSettingsAttrs (s : FeedSettings) : text :=
  (let ft := to_lower (trim_space (st_FeedType s)) in
   if negb (String.eqb ft "") && negb (String.eqb ft "rss") then settings_attr "feedType" ft else [])
  ++ (if 0 <? st_IntervalMinutes s then settings_attr "interval" (format_int (st_IntervalMinutes s)) else [])
  ++ (if st_TLSInsecure s then settings_attr "tlsInsecure" "true" else [])
  ++ (if st_FetchViaProxy s then settings_attr "fetchViaProxy" "true" else [])
  ++ (if st_Crawler s then settings_attr "crawler" "true" else [])
  ++ (let m := to_lower (trim_space (st_StoreMode s)) in
      if negb (String.eqb m "") && negb (String.eqb m "full") then settings_attr "storeMode" m else [])
  ++ (if st_AdaptiveInterval s then settings_attr "adaptiveInterval" "true" else [])
  ++ (match st_RetentionDays s with
      | Some d => if 0 <? d then settings_attr "retentionDays" (format_int d) else []
      | None => []
      end)
  ++ settings_attr "userAgent" (st_UserAgent s)
  ++ settings_attr "webhook" (st_WebhookName s)
  ++ settings_attr "scraperRules" (st_ScraperRules s)
  ++ settings_attr "rewriteRules" (st_RewriteRules s)
  ++ settings_attr "blockedRules" (st_BlockedRules s)
  ++ settings_attr "keepRules" (st_KeepRules s).

(** opml/opml.go [writeFeedOutline] *)
Definition writeFeedOutline (f : ExportFeed) (indent : text) : text :=
  let title := trim_space (ef_Title f) in
  let title := if String.eqb title "" then ef_FeedURL f else title in
  let siteURL := ef_FeedURL f in
  indent ++ lit "<outline type=" ++ [dquote] ++ lit "rss" ++ [dquote] ++ lit " text=" ++ xmlAttr title ++ lit " title=" ++ xmlAttr title
  ++ lit " xmlUrl=" ++ xmlAttr (ef_FeedURL f) ++ lit " htmlUrl=" ++ xmlAttr siteURL
  ++ writeSettingsAttrs (ef_Settings f) ++ lit "/>" ++ newline.

(** opml/opml.go:276-284 [Generate, the grouping] *)
Definition group_feeds (feeds : list ExportFeed) : gmap Z (list ExportFeed) * list ExportFeed :=
  foldl (λ acc f, match ef_CategoryID f with
                  | Some k => (<[k := default [] (acc.1 !! k) ++ [f]]> acc.1, acc.2)
                  | None => (acc.1, acc.2 ++ [f])
                  end) (∅, []) feeds.

(** opml/opml.go:288-299 [Generate, the folders] And what is left of the groups. *)
Fixpoint write_folders (cats : list ExportCategory) (byCategory : gmap Z (list ExportFeed)) : text * gmap Z (list ExportFeed) :=
  match cats with
  | [] => ([], byCategory)
  | c :: cats =>
      match default [] (byCategory !! ec_ID c) with
      | [] => write_folders cats byCategory
      | feeds =>
          let '(t, m) := write_folders cats (delete (ec_ID c) byCategory) in
          (lit "    <outline text=" ++ xmlAttr (ec_Title c) ++ lit " title=" ++ xmlAttr (ec_Title c) ++ lit ">" ++ newline
           ++ (feeds ≫= λ f, writeFeedOutline f (lit "      ")) ++ lit "    </outline>" ++ newline ++ t, m)
      end
  end.

(** [xml.Header] *)
Definition xmlHeader : text :=
  lit "<?xml version=" ++ [dquote] ++ lit "1.0" ++ [dquote] ++ lit " encoding=" ++ [dquote] ++ lit "UTF-8" ++ [dquote] ++ lit "?>" ++ newline.

Section Generate.
(** The order in which Go walks a map is its own: any arrangement of the keys and values. *)
Context (range : gmap Z (list ExportFeed) → list (Z * list ExportFeed)).

(** opml/opml.go [Generate] With the date, as it is formatted. *)
Definition Generate (date : string) (inp : ExportInput) : text :=
  let title := trim_space (in_Title inp) in
  let title := if String.eqb title "" then "rssam subscriptions"%string else title in
  let '(byCategory, uncategorized) := group_feeds (in_Feeds inp) in
  let '(folders, byCategory) := write_folders (in_Categories inp) byCategory in
  let body :=
    lit "  <body>" ++ newline ++ folders
    ++ ((range byCategory).*2 ≫= λ feeds, feeds ≫= λ f, writeFeedOutline f (lit "    "))
    ++ (uncategorized ≫= λ f, writeFeedOutline f (lit "    "))
    ++ lit "  </body>" ++ newline in
  xmlHeader
  ++ lit "<opml version=" ++ [dquote] ++ lit "2.0" ++ [dquote] ++ lit " xmlns:rssam=" ++ [dquote] ++ lit Namespace ++ [dquote] ++ lit ">" ++ newline
  ++ lit "  <head>" ++ newline ++ lit "    <title>" ++ xmlEscape title ++ lit "</title>" ++ newline
  ++ lit "    <dateCreated>" ++ xmlEscape date ++ lit "</dateCreated>" ++ newline ++ lit "  </head>" ++ newline
  ++ body ++ lit "</opml>" ++ newline.
End Generate.

(** ** Examples *)

Definition no_settings : FeedSettings := mkSettings "" 0 false false false "" false None "" "" "" "" "" "".

Example export_read_back :
  let s := mkSettings "telegram" 15 true true true "filtered" true (Some 14) "custom-ua/1.0" "alerts <prod> & 'staging'" "article"
             "" (str (lit "spam|ads" ++ newline ++ lit "line two")) "go" in
  let inp := mkExportInput "settings" [mkExportCategory 3 "Tech & more"; mkExportCategory 4 "Empty"]
    [mkExportFeed "Telegram" "https://t.me/s/golang" (Some 3) s; mkExportFeed "" " https://example.com/rss?a=1&b=2" None no_settings] in
  match ParseBytes (Generate map_to_list "Mon, 01 Jan 2024 00:00:00 UTC" inp) with
  | inr d => CollectFeeds id d = [mkFeedEntry "Telegram" "https://t.me/s/golang" "Tech & more" s [];
                                  mkFeedEntry "https://example.com/rss?a=1&b=2" "https://example.com/rss?a=1&b=2" "" no_settings []]
             ∧ d_Version d = "2.0"%string ∧ d_Title d = "settings"%string
  | inl _ => False
  end.
Proof. vm_compute. done. Qed.

(** * What an export keeps *)

(** A value as it comes back: without the white space around it and without what XML cannot hold. *)
Definition raw (s : string) : string := str (sanitize (lit (trim_space s))).
Definition clean (s : string) : string := trim_space (raw s).

(** Title and address as they are written. *)
Definition export_title (f : ExportFeed) : string :=
  if String.eqb (trim_space (ef_Title f)) "" then ef_FeedURL f else trim_space (ef_Title f).

Definition export_type (s : FeedSettings) : string :=
  let ft := to_lower (trim_space (st_FeedType s)) in if String.eqb ft "rss" then "" else ft.
Definition export_mode (s : FeedSettings) : string :=
  let m := to_lower (trim_space (st_StoreMode s)) in if String.eqb m "full" then "" else m.
Definition export_retention (s : FeedSettings) : option Z :=
  match st_RetentionDays s with Some d => if 0 <? d then Some d else None | None => None end.

(** The settings that come back: what the export leaves out is left to the importer. *)
Definition restored_settings (s : FeedSettings) : FeedSettings :=
  mkSettings (to_lower (clean (export_type s))) (if 0 <? st_IntervalMinutes s then st_IntervalMinutes s else 0)
    (st_TLSInsecure s) (st_FetchViaProxy s) (st_Crawler s) (export_mode s) (st_AdaptiveInterval s) (export_retention s)
    (clean (st_UserAgent s)) (clean (st_WebhookName s)) (clean (st_ScraperRules s)) (clean (st_RewriteRules s))
    (clean (st_BlockedRules s)) (clean (st_KeepRules s)).

(** The feed that comes back from a folder; one without an address does not. *)
Definition restored (category : string) (f : ExportFeed) : list FeedEntry :=
  if String.eqb (clean (ef_FeedURL f)) "" then []
  else [mkFeedEntry (clean (export_title f)) (clean (ef_FeedURL f)) category (restored_settings (ef_Settings f)) []].

(** The name of the folder a feed is written in. *)
Definition folder_title (cats : list ExportCategory) (category : option Z) : string :=
  match category with
  | Some k => match list_find (λ c, ec_ID c = k) cats with Some (_, c) => clean (ec_Title c) | None => "" end
  | None => ""
  end.

(** What the tables allow: numbers are 64-bit and the way of storing is one of the three. *)
Definition settings_ok (s : FeedSettings) : Prop :=
  in64 (st_IntervalMinutes s) ∧ match st_RetentionDays s with Some d => in64 d | None => True end ∧
  to_lower (trim_space (st_StoreMode s)) ∈ [""; "full"; "filtered"; "relay"]%string.

(** ** The attributes of an outline *)

Definition settings_values (s : FeedSettings) : list (string * string) :=
  [("feedType", export_type s); ("interval", if (0 <? st_IntervalMinutes s)%Z then format_int (st_IntervalMinutes s) else "");
   ("tlsInsecure", if st_TLSInsecure s then "true" else ""); ("fetchViaProxy", if st_FetchViaProxy s then "true" else "");
   ("crawler", if st_Crawler s then "true" else ""); ("storeMode", export_mode s);
   ("adaptiveInterval", if st_AdaptiveInterval s then "true" else "");
   ("retentionDays", match export_retention s with Some d => format_int d | None => "" end);
   ("userAgent", st_UserAgent s); ("webhook", st_WebhookName s); ("scraperRules", st_ScraperRules s);
   ("rewriteRules", st_RewriteRules s); ("blockedRules", st_BlockedRules s); ("keepRules", st_KeepRules s)]%string.

Definition opt_attr (nv : string * string) : list (string * text) :=
  if String.eqb nv.2 "" then [] else [("rssam:" +:+ nv.1, sanitize (lit (trim_space nv.2)))].
Definition title_attrs (title : string) : list (string * text) :=
  [("text", sanitize (lit (trim_space title))); ("title", sanitize (lit (trim_space title)))]%string.
Definition feed_attrs (f : ExportFeed) : list (string * text) :=
  ("type"%string, lit "rss") :: title_attrs (export_title f)
  ++ [("xmlUrl", sanitize (lit (trim_space (ef_FeedURL f)))); ("htmlUrl", sanitize (lit (trim_space (ef_FeedURL f))))]%string
  ++ (settings_values (ef_Settings f) ≫= opt_attr).

Lemma settings_attr_show name value : settings_attr name value = opt_attr (name, value) ≫= show_attr.
Proof.
  unfold settings_attr, opt_attr. cbn [fst snd]. destruct (String.eqb value ""); [done|]. cbn [mbind list_bind]. rewrite app_nil_r.
  unfold show_attr, xmlAttr, xmlEscape, EscapeText. cbn [fst snd]. rewrite lit_app. reflexivity.
Qed.

Lemma writeSettingsAttrs_show s : writeSettingsAttrs s = (settings_values s ≫= opt_attr) ≫= show_attr.
Proof.
  unfold writeSettingsAttrs, settings_values, export_type, export_mode, export_retention. cbv zeta.
  assert (∀ (b : bool) n v, (if b then settings_attr n v else []) = settings_attr n (if b then v else ""%string)) as Hb
    by by intros [] n v.
  assert (∀ x c n, (if negb (String.eqb x "") && negb (String.eqb x c) then settings_attr n x else [])
                 = settings_attr n (if String.eqb x c then "" else x)%string) as Hs.
  { intros x c n. destruct (String.eqb x c), (String.eqb x "") eqn:E; try done. unfold settings_attr. by rewrite E. }
  assert (∀ d n, match d with Some d => if 0 <? d then settings_attr n (format_int d) else [] | None => [] end
     = settings_attr n match (match d with Some d => if 0 <? d then Some d else None | None => None end) with Some d => format_int d | None => ""%string end) as Hd.
  { intros [d|] n; [|done]. by destruct (0 <? d). }
  rewrite !Hs, Hd, !Hb, !settings_attr_show. clear. unfold mbind. cbn [list_bind]. rewrite !bind_app.
  cbn [mbind list_bind]. by rewrite ?app_nil_r.
Qed.

Lemma show_attr_xml n v rest :
  show_attr (n, sanitize (lit (trim_space v))) ++ rest = " "%char :: lit n ++ "="%char :: xmlAttr v ++ rest.
Proof. unfold show_attr. cbn [fst snd app]. by rewrite <- app_assoc. Qed.

Lemma writeFeedOutline_show f indent :
  writeFeedOutline f indent = indent ++ show_start "outline" (feed_attrs f) true ++ newline.
Proof.
  unfold writeFeedOutline, feed_attrs, show_start. rewrite writeSettingsAttrs_show.
  change (if String.eqb (trim_space (ef_Title f)) "" then ef_FeedURL f else trim_space (ef_Title f)) with (export_title f).
  rewrite bind_cons, !bind_app. unfold title_attrs. cbn [mbind list_bind]. cbn [app]. rewrite <- !app_assoc, !show_attr_xml. cbn [tag_end].
  reflexivity.
Qed.

Lemma Forall_opt_attr (P : string * text → Prop) l :
  (∀ n v, n ∈ l.*1 → P ("rssam:" +:+ n, sanitize (lit (trim_space v)))) → Forall P (l ≫= opt_attr).
Proof.
  induction l as [|[n v] l IH]; intros H; [constructor|]. rewrite bind_cons. apply Forall_app. split.
  - unfold opt_attr. cbn [fst snd]. destruct (String.eqb v ""); repeat constructor. apply H. cbn. apply list_elem_of_here.
  - apply IH. intros. apply H. cbn. by apply list_elem_of_further.
Qed.

Definition settings_names : list string :=
  ["feedType"; "interval"; "tlsInsecure"; "fetchViaProxy"; "crawler"; "storeMode"; "adaptiveInterval"; "retentionDays";
   "userAgent"; "webhook"; "scraperRules"; "rewriteRules"; "blockedRules"; "keepRules"]%string.
Lemma settings_values_names s : (settings_values s).*1 = settings_names.
Proof. done. Qed.

(** What holds of every name of a setting, by trying them all. *)
Lemma settings_names_all (P : string → bool) n : forallb P settings_names = true → n ∈ settings_names → P n = true.
Proof. intros H Hn. eapply forallb_forall in H; [done|]. by apply list_elem_of_In. Qed.

Lemma good_settings s : Forall good_attr (settings_values s ≫= opt_attr).
Proof.
  apply Forall_opt_attr. rewrite settings_values_names. intros n v Hn. split; [|apply xml_valid_sanitize].
  by apply (settings_names_all (λ n, good_name ("rssam:" +:+ n)) n).
Qed.

Lemma good_title_attrs t : Forall good_attr (title_attrs t).
Proof. repeat constructor; try apply xml_valid_sanitize. Qed.

Lemma good_feed_attrs f : Forall good_attr (feed_attrs f).
Proof.
  unfold feed_attrs. constructor; [done|]. rewrite !Forall_app. split; [apply good_title_attrs|]. split; [|apply good_settings].
  repeat constructor; apply xml_valid_sanitize.
Qed.

(** ** The fields of an outline *)

Definition rssam : gmap string string := <["rssam"%string := Namespace]> ∅.

(** The attributes once their names are resolved. *)
Definition resolved (l : list (string * text)) : list (qname * string) := (λ a, (translate rssam a.1, a.2)) <$> (attr_of <$> l).

Lemma resolved_app l1 l2 : resolved (l1 ++ l2) = resolved l1 ++ resolved l2.
Proof. unfold resolved. by rewrite !fmap_app. Qed.

Definition field_step (space : option string) (local v : string) (a : qname * string) : string :=
  if String.eqb a.1.2 local && match space with Some u => String.eqb a.1.1 u | None => true end then a.2 else v.
Lemma attr_field_step space local l : attr_field space local l = foldl (field_step space local) ""%string l.
Proof. done. Qed.

(** A setting is read with the last value of its name; a value that was left out leaves the field
    as it was. *)
Lemma resolved_opt_attr n v : n ∈ settings_names →
  resolved (opt_attr (n, v)) = if String.eqb v "" then [] else [((Namespace, n), raw v)].
Proof.
  intros Hn. unfold opt_attr. cbn [fst snd]. destruct (String.eqb v ""); [done|].
  unfold resolved, attr_of. cbn [fmap list_fmap fst snd]. fold (raw v). do 3 f_equal.
  pose proof (settings_names_all (λ n, bool_decide (translate rssam (qname_of ("rssam:" +:+ n)) = (Namespace, n))) n) as H.
  apply bool_decide_eq_true in H; [done| |done]. by vm_compute.
Qed.

Lemma settings_skip space local l acc : (∀ n, n ∈ l.*1 → n ∈ settings_names) →
  local ∉ l.*1 → foldl (field_step space local) acc (resolved (l ≫= opt_attr)) = acc.
Proof.
  revert acc. induction l as [|[n v] l IH]; intros acc Hl Hk; [done|]. rewrite bind_cons, resolved_app, foldl_app. cbn [fmap list_fmap] in *.
  rewrite resolved_opt_attr by (apply Hl, list_elem_of_here). apply not_elem_of_cons in Hk as [Hn Hk].
  rewrite IH; [|intros; apply Hl; by apply list_elem_of_further|done]. destruct (String.eqb v ""); [done|]. cbn. unfold field_step. cbn.
  by rewrite (proj2 (String.eqb_neq n local)) by done.
Qed.

Lemma settings_look local v l : (∀ n, n ∈ l.*1 → n ∈ settings_names) → NoDup l.*1 → (local, v) ∈ l →
  foldl (field_step (Some Namespace) local) ""%string (resolved (l ≫= opt_attr)) = raw v.
Proof.
  induction l as [|[n w] l IH]; intros Hl Hnd Hin; [by apply elem_of_nil in Hin|]. rewrite bind_cons, resolved_app, foldl_app.
  cbn [fmap list_fmap] in *. rewrite resolved_opt_attr by (apply Hl, list_elem_of_here). inversion Hnd as [|? ? Hn Hnd']; subst.
  apply elem_of_cons in Hin as [[= -> ->]|Hin].
  - rewrite settings_skip; [|intros; apply Hl; by apply list_elem_of_further|done].
    destruct (String.eqb w "") eqn:E; [by apply String.eqb_eq in E as ->|]. cbn. unfold field_step. cbn. by rewrite String.eqb_refl.
  - assert (n ≠ local) as Hne by (intros ->; apply Hn, list_elem_of_fmap; by exists (local, v)).
    destruct (String.eqb w ""); cbn; [apply IH; [intros; apply Hl; by apply list_elem_of_further|done..]|].
    unfold field_step at 2. cbn. rewrite (proj2 (String.eqb_neq n local)) by done. cbn.
    apply IH; [intros; apply Hl; by apply list_elem_of_further|done..].
Qed.

(** An outline of a feed, as it is read back. *)
Definition feed_outline (f : ExportFeed) : Outline :=
  let s := ef_Settings f in
  let b (x : bool) := raw (if x then "true" else "") in
  mkOutline (raw (export_title f)) (raw (export_title f)) "rss" (raw (ef_FeedURL f)) "" (raw (ef_FeedURL f)) []
    (raw (export_type s)) (raw (if 0 <? st_IntervalMinutes s then format_int (st_IntervalMinutes s) else "")) (b (st_TLSInsecure s))
    (b (st_FetchViaProxy s)) (b (st_Crawler s)) "" (raw (export_mode s)) (b (st_AdaptiveInterval s))
    (raw match export_retention s with Some d => format_int d | None => "" end) (raw (st_UserAgent s)) (raw (st_WebhookName s))
    (raw (st_ScraperRules s)) (raw (st_RewriteRules s)) (raw (st_BlockedRules s)) (raw (st_KeepRules s)).

Lemma field_feed space local f :
  attr_field space local (resolved (feed_attrs f)) =
  foldl (field_step space local)
    (foldl (field_step space local) ""%string
       (resolved (("type"%string, lit "rss") :: title_attrs (export_title f)
         ++ [("xmlUrl", sanitize (lit (trim_space (ef_FeedURL f)))); ("htmlUrl", sanitize (lit (trim_space (ef_FeedURL f))))]%string)))
    (resolved (settings_values (ef_Settings f) ≫= opt_attr)).
Proof. rewrite attr_field_step. unfold feed_attrs. by rewrite (app_assoc (title_attrs _)), app_comm_cons, resolved_app, foldl_app. Qed.

Lemma settings_names_nodup s : NoDup (settings_values s).*1.
Proof. rewrite settings_values_names. apply (bool_decide_unpack _). by vm_compute. Qed.

(** The fields of the standard, and those of the settings. *)
Lemma field_plain local f : local ∉ settings_names →
  attr_field None local (resolved (feed_attrs f)) =
  foldl (field_step None local) ""%string
    (resolved (("type"%string, lit "rss") :: title_attrs (export_title f)
      ++ [("xmlUrl", sanitize (lit (trim_space (ef_FeedURL f)))); ("htmlUrl", sanitize (lit (trim_space (ef_FeedURL f))))]%string)).
Proof. intros H. rewrite field_feed. apply settings_skip; rewrite settings_values_names; auto. Qed.

Lemma field_setting local v f : (local, v) ∈ settings_values (ef_Settings f) →
  attr_field (Some Namespace) local (resolved (feed_attrs f)) = raw v.
Proof.
  intros H. rewrite field_feed.
  assert (∀ l, foldl (field_step (Some Namespace) l) ""%string
    (resolved (("type"%string, lit "rss") :: title_attrs (export_title f)
      ++ [("xmlUrl", sanitize (lit (trim_space (ef_FeedURL f)))); ("htmlUrl", sanitize (lit (trim_space (ef_FeedURL f))))]%string)) = ""%string) as ->
    by (intros l; unfold field_step; cbn; by rewrite !andb_false_r).
  apply settings_look; [by rewrite settings_values_names|apply settings_names_nodup|done].
Qed.

Lemma field_hashOnly f : attr_field (Some Namespace) "hashOnly" (resolved (feed_attrs f)) = ""%string.
Proof.
  rewrite field_feed. apply settings_skip; rewrite settings_values_names; [done|]. apply (bool_decide_eq_false_1 _). by vm_compute.
Qed.

(** An element that declares no prefix leaves them as they are. *)
Definition no_xmlns (a : string * text) : Prop := (qname_of a.1).1 ≠ "xmlns"%string ∧ qname_of a.1 ≠ ("", "xmlns")%string.
Lemma declare_none l : Forall no_xmlns l → declare rssam (attr_of <$> l) = rssam.
Proof.
  intros Hl. unfold declare. generalize rssam. induction Hl as [|[n v] l [H1 H2] _ IH]; intros ns; [done|]. cbn [fmap list_fmap foldl]. change (attr_of (n, v)) with (qname_of n, str v). cbn [fst] in H1, H2.
  destruct (qname_of n) as [space local]. cbn [fst] in H1. rewrite (proj2 (String.eqb_neq space "xmlns")) by done.
  replace (String.eqb space "" && String.eqb local "xmlns") with false; [apply IH|].
  symmetry. apply andb_false_iff. destruct (String.eqb_spec space ""), (String.eqb_spec local "xmlns"); subst; (congruence || auto).
Qed.

Lemma feed_no_xmlns f : Forall no_xmlns (feed_attrs f).
Proof.
  unfold feed_attrs. constructor; [by split|]. rewrite !Forall_app. split; [by repeat constructor|]. split; [by repeat constructor|].
  apply Forall_opt_attr. rewrite settings_values_names. intros n v Hn.
  pose proof (settings_names_all (λ n, bool_decide (qname_of ("rssam:" +:+ n) = ("rssam"%string, n))) n) as H.
  apply bool_decide_eq_true in H; [| |done]; [|by vm_compute]. unfold no_xmlns. cbn [fst]. rewrite H. by split.
Qed.

(** The element of an outline, in the name space of the document. *)
Definition outline_in (x : xml) : option Outline := outline_of (resolve rssam x).

Lemma outline_in_feed f :
  outline_in (Elem (qname_of "outline") (attr_of <$> feed_attrs f) []) = Some (feed_outline f).
Proof.
  unfold outline_in. cbn [resolve]. rewrite declare_none by apply feed_no_xmlns.
  change ((λ a, (translate rssam a.1, a.2)) <$> (attr_of <$> feed_attrs f)) with (resolved (feed_attrs f)).
  cbn [outline_of fmap list_fmap omap list_omap]. change (String.eqb (qname_of "outline").2 "outline") with true. cbv iota zeta.
  rewrite !field_plain by (apply (bool_decide_eq_false_1 _); by vm_compute). rewrite field_hashOnly.
  unfold feed_outline. cbv zeta.
  repeat match goal with |- context [attr_field (Some Namespace) ?l (resolved (feed_attrs f))] =>
    erewrite (field_setting l) by (unfold settings_values; repeat first [apply list_elem_of_here|apply list_elem_of_further]) end.
  reflexivity.
Qed.

(** ** The feed of an outline *)

Lemma graphic_sanitize s : forallb graphic s = true → sanitize s = s.
Proof.
  induction s as [|a s IH]; [done|]. cbn [forallb]. intros [Ha Hs]%andb_prop. rewrite sanitize_1, IH; [done..|].
  unfold graphic, char1, between in *. lia.
Qed.

Lemma graphic_clean s : forallb graphic (lit s) = true → clean s = s.
Proof.
  intros H. unfold clean, raw. rewrite (graphic_trim_space s), graphic_sanitize, str_lit by done. by apply graphic_trim_space.
Qed.

Lemma clean_format_int n : 0 < n → clean (format_int n) = format_int n.
Proof.
  intros Hn. apply graphic_clean. unfold format_int. rewrite (proj2 (Z.ltb_ge n 0)) by lia. apply graphic_fmt_digits; [lia|done].
Qed.

Section Restored.
Context (Quote : string → string).

Lemma boolAttr_restored name (b : bool) : boolAttr Quote name (raw (if b then "true" else "")) = (b, []).
Proof. by destruct b. Qed.

Lemma format_int_ne n : 0 < n → in64 n → String.eqb (format_int n) "" = false.
Proof. intros Hn H. apply String.eqb_neq. intros E. pose proof (format_parse_int n H) as Hp. by rewrite E in Hp. Qed.

(** What the export wrote of the numbers and the way of storing is understood. *)
Lemma interval_restored n : in64 n → intervalAttr Quote (raw (if 0 <? n then format_int n else "")) = (if 0 <? n then n else 0, []).
Proof.
  intros Hi. unfold intervalAttr. fold (clean (if 0 <? n then format_int n else "")). destruct (Z.ltb_spec 0 n); [|done].
  rewrite clean_format_int, format_int_ne, format_parse_int by done. by rewrite (proj2 (Z.leb_gt _ 0)).
Qed.

Lemma retention_restored s : match st_RetentionDays s with Some d => in64 d | None => True end →
  retentionAttr Quote (raw match export_retention s with Some d => format_int d | None => "" end) = (export_retention s, []).
Proof.
  unfold export_retention, retentionAttr. destruct (st_RetentionDays s) as [d|]; [|done]. intros Hd. destruct (Z.ltb_spec 0 d); [|done].
  fold (clean (format_int d)). rewrite clean_format_int, format_int_ne, format_parse_int by done.
  rewrite (proj2 (Z.ltb_ge d 0)), (proj2 (Z.ltb_lt 0 d)) by lia. done.
Qed.

Lemma mode_restored s : to_lower (trim_space (st_StoreMode s)) ∈ [""; "full"; "filtered"; "relay"]%string →
  modeAttr Quote "" (raw (export_mode s)) = (export_mode s, []).
Proof.
  unfold export_mode. generalize (to_lower (trim_space (st_StoreMode s))). intros m Hm.
  repeat (apply elem_of_cons in Hm as [->|Hm]); [..|by apply elem_of_nil in Hm]; by vm_compute.
Qed.

Lemma settings_restored f : settings_ok (ef_Settings f) →
  settingsFromOutline Quote (feed_outline f) = (restored_settings (ef_Settings f), []).
Proof.
  destruct f as [title url cat s]. intros (Hi & Hr & Hm). cbn [ef_Settings] in *. unfold settingsFromOutline, feed_outline.
  cbn [ef_Settings RssamInterval RssamRetentionDays RssamTLSInsecure RssamFetchViaProxy RssamCrawler RssamHashOnly RssamStoreMode
       RssamAdaptive RssamFeedType RssamUserAgent RssamWebhook RssamScraperRules RssamRewriteRules RssamBlockedRules RssamKeepRules].
  rewrite interval_restored, retention_restored, !boolAttr_restored by done.
  change (boolAttr Quote "hashOnly" "") with (false, @nil string). cbv iota. by rewrite mode_restored.
Qed.

Lemma collect_unfold o cat :
  collectOutlineFeeds Quote o cat =
  if isRSSOutline o then
    if String.eqb (feedURLFromOutline o) "" then []
    else [mkFeedEntry (outlineTitle o) (feedURLFromOutline o) cat (settingsFromOutline Quote o).1 (settingsFromOutline Quote o).2]
  else
    let title := if String.eqb (outlineTitle o) "" && negb (bool_decide (Outlines o = [])) then cat else outlineTitle o in
    Outlines o ≫= λ child, collectOutlineFeeds Quote child (if negb (String.eqb title "") then title else cat).
Proof. destruct o. cbn [collectOutlineFeeds]. by destruct (settingsFromOutline Quote _). Qed.

Lemma collect_feed f cat : settings_ok (ef_Settings f) → collectOutlineFeeds Quote (feed_outline f) cat = restored cat f.
Proof.
  intros H. rewrite collect_unfold, settings_restored by done.
  assert (outlineTitle (feed_outline f) = clean (export_title f)) as ->.
  { unfold outlineTitle, feed_outline. cbn [Title Text XMLURL URL]. cbv zeta. fold (clean (export_title f)). by destruct (String.eqb _ _). }
  assert (feedURLFromOutline (feed_outline f) = clean (ef_FeedURL f)) as ->.
  { unfold feedURLFromOutline, feed_outline. cbn [Title Text XMLURL URL]. cbv zeta. fold (clean (ef_FeedURL f)).
    destruct (String.eqb_spec (clean (ef_FeedURL f)) "") as [->|]; done. }
  done.
Qed.

(** A folder. *)
Definition folder_outline (title : string) (kids : list Outline) : Outline :=
  mkOutline (raw title) (raw title) "" "" "" "" kids "" "" "" "" "" "" "" "" "" "" "" "" "" "" "".

Lemma collect_folder title feeds : Forall (λ f, settings_ok (ef_Settings f)) feeds →
  collectOutlineFeeds Quote (folder_outline title (feed_outline <$> feeds)) "" = feeds ≫= restored (clean title).
Proof.
  intros Hf. rewrite collect_unfold. unfold isRSSOutline. cbn [OType XMLURL folder_outline].
  change (equal_fold (trim_space "") "rss" || negb (String.eqb (trim_space "") "")) with false. cbv iota.
  assert (outlineTitle (folder_outline title (feed_outline <$> feeds)) = clean title) as ->.
  { unfold outlineTitle, folder_outline. cbn [Title Text XMLURL URL]. cbv zeta. fold (clean title). by destruct (String.eqb _ _). }
  change (Outlines (folder_outline title (feed_outline <$> feeds))) with (feed_outline <$> feeds). cbv zeta.
  assert (∀ b : bool, (if String.eqb (clean title) "" && b then ""%string else clean title) = clean title) as Hb
    by (intros b; by destruct (String.eqb_spec (clean title) "") as [->|]; [destruct b|]).
  rewrite Hb.
  replace (if negb (String.eqb (clean title) "") then clean title else ""%string) with (clean title)
    by (by destruct (String.eqb_spec (clean title) "")).
  induction Hf as [|f l H _ IH]; [done|]. rewrite fmap_cons, !bind_cons. cbv beta. by rewrite collect_feed, IH.
Qed.
End Restored.

(** * The body of the file *)

Definition blank (a : ascii) : bool := is_byte 32 a || is_byte 10 a.
Definition blanks (s : text) : Prop := Forall (λ a, blank a = true) s.

Lemma blanks_text s : blanks s → Forall (λ a, plain a = true) s ∧ xml_valid s = true.
Proof.
  induction 1 as [|a s Ha _ [Hp Hv]]; [done|]. cbv beta in Ha. split.
  - constructor; [|done]. unfold blank in Ha. apply orb_prop in Ha as [Ha|Ha]; apply is_byte_eq in Ha; by subst a.
  - rewrite xml_valid_1; [done|]. unfold blank in Ha. apply orb_prop in Ha as [Ha|Ha]; apply is_byte_eq in Ha; by subst a.
Qed.

(** What is left of the children of an element, up to its end, is read, and [mu] makes [x] of it;
    character data counts for nothing. *)
Definition ignores_chars {X} (mu : list xml → X) : Prop := ∀ t l, mu (Chars t :: l) = mu l.
Definition yields_with {X} (mu : list xml → X) (s : text) (x : X) (n : qname) (r : text) : Prop :=
  ∀ ws, blanks ws → ∃ l, reads (ws ++ s) (l, n, r) ∧ mu l = x.

Lemma yields_blanks {X} (mu : list xml → X) ws s x n r : blanks ws → yields_with mu s x n r → yields_with mu (ws ++ s) x n r.
Proof. intros Hw H ws' Hw'. rewrite app_assoc. apply H. by apply Forall_app. Qed.

(** Blanks in front of a tag add nothing. *)
Lemma yields_tag {X} (mu : list xml → X) s x n r : ignores_chars mu →
  (∃ l, reads ("<"%char :: s) (l, n, r) ∧ mu l = x) → yields_with mu ("<"%char :: s) x n r.
Proof.
  intros Hmu (l & Hl & Ho) ws Hw. destruct (decide (ws = [])) as [->|Hne]; [by exists l|].
  destruct (blanks_text ws Hw) as [Hp Hv]. exists (Chars ws :: l). split; [by apply reads_plain|by rewrite Hmu].
Qed.

Lemma yields_end {X} (mu : list xml → X) n rest : ignores_chars mu → good_name n = true →
  yields_with mu (show_end n ++ rest) (mu []) (qname_of n) rest.
Proof. intros Hmu Hn. apply yields_tag; [done|]. exists []. split; [|done]. by apply (reads_end n rest). Qed.

(** An element with what is between its tags. *)
Lemma yields_elem {X Y} (mu : list xml → X) (nu : list xml → Y) m attrs inner s x y (f : Y → X → X) n r :
  ignores_chars mu → good_name m = true → Forall good_attr attrs →
  (∀ kids l, mu (Elem (qname_of m) (attr_of <$> attrs) kids :: l) = f (nu kids) (mu l)) →
  yields_with nu inner y (qname_of m) s → (length s <= length inner)%nat → yields_with mu s x n r →
  yields_with mu (show_start m attrs false ++ inner) (f y x) n r.
Proof.
  intros Hmu Hm Ha Hf Hi Hl H. apply yields_tag; [done|]. destruct (Hi []) as (kids & Hk & Hy); [constructor|].
  destruct (H []) as (l & Hls & Ho); [constructor|]. exists (Elem (qname_of m) (attr_of <$> attrs) kids :: l). split.
  - by apply (reads_open m attrs inner kids s).
  - by rewrite Hf, Hy, Ho.
Qed.

(** The outlines among the children. *)
Notation yields := (yields_with (omap outline_in)).
Lemma outlines_ignore_chars : ignores_chars (omap outline_in).
Proof. by intros t l. Qed.

Lemma yields_feed f s os n r : yields s os n r → yields (show_start "outline" (feed_attrs f) true ++ s) (feed_outline f :: os) n r.
Proof.
  intros H. apply yields_tag; [apply outlines_ignore_chars|]. destruct (H []) as (l & Hl & Ho); [constructor|].
  exists (Elem (qname_of "outline") (attr_of <$> feed_attrs f) [] :: l). split.
  - apply (reads_closed "outline" (feed_attrs f) s); [done|apply good_feed_attrs|done].
  - cbn [omap list_omap]. by rewrite outline_in_feed, Ho.
Qed.

Lemma resolve_outlines (kids : list xml) : omap outline_of (resolve rssam <$> kids) = omap outline_in kids.
Proof. induction kids as [|k kids IH]; [done|]. cbn. unfold outline_in at 1. by destruct (outline_of (resolve rssam k)); rewrite <- IH. Qed.

Lemma outline_in_folder title kids :
  outline_in (Elem (qname_of "outline") (attr_of <$> title_attrs title) kids) = Some (folder_outline title (omap outline_in kids)).
Proof.
  unfold outline_in at 1. cbn [resolve]. rewrite declare_none by (by repeat constructor). cbn [outline_of].
  change (String.eqb (qname_of "outline").2 "outline") with true. cbv iota. unfold folder_outline. do 2 f_equal.
  apply resolve_outlines.
Qed.

Lemma yields_folder title inner ios s os n r :
  yields inner ios (qname_of "outline") s → (length s <= length inner)%nat → yields s os n r →
  yields (show_start "outline" (title_attrs title) false ++ inner) (folder_outline title ios :: os) n r.
Proof.
  intros Hi Hl H. eapply (yields_elem _ (omap outline_in) _ _ _ _ _ ios (λ k l, folder_outline title k :: l)); [|done| | |done..].
  - apply outlines_ignore_chars.
  - apply good_title_attrs.
  - intros kids l. cbn [omap list_omap]. by rewrite outline_in_folder.
Qed.

Lemma blanks_newline : blanks newline.
Proof. by repeat constructor. Qed.
Lemma blanks_spaces n : blanks (replicate n " "%char).
Proof. apply Forall_replicate. done. Qed.

Lemma yields_feeds fs indent s os n r : blanks indent → yields s os n r →
  yields ((fs ≫= λ f, writeFeedOutline f indent) ++ s) ((feed_outline <$> fs) ++ os) n r.
Proof.
  intros Hi H. induction fs as [|f fs IH]; [done|]. rewrite bind_cons, fmap_cons. cbn [app].
  rewrite writeFeedOutline_show, <- !app_assoc. apply yields_blanks; [done|]. apply yields_feed.
  apply yields_blanks; [apply blanks_newline|]. exact IH.
Qed.

(** The folders as data: what [write_folders] writes. *)
Fixpoint folders (cats : list ExportCategory) (m : gmap Z (list ExportFeed)) : list (string * list ExportFeed) * gmap Z (list ExportFeed) :=
  match cats with
  | [] => ([], m)
  | c :: cats =>
      match default [] (m !! ec_ID c) with
      | [] => folders cats m
      | fs => let '(l, m) := folders cats (delete (ec_ID c) m) in ((ec_Title c, fs) :: l, m)
      end
  end.

Definition folder_of (tf : string * list ExportFeed) : Outline := folder_outline tf.1 (feed_outline <$> tf.2).

Lemma yields_folders cats m s os n r : yields s os n r →
  yields ((write_folders cats m).1 ++ s) ((folder_of <$> (folders cats m).1) ++ os) n r ∧ (write_folders cats m).2 = (folders cats m).2.
Proof.
  intros H. revert m. induction cats as [|c cats IH]; intros m; [done|]. cbn [write_folders folders].
  destruct (default [] (m !! ec_ID c)) as [|f fs] eqn:E; [apply IH|]. specialize (IH (delete (ec_ID c) m)) as [IH1 IH2].
  destruct (write_folders cats (delete (ec_ID c) m)) as [t m1], (folders cats (delete (ec_ID c) m)) as [l m2]. cbn [fst snd] in *. split; [|done].
  rewrite fmap_cons. cbn [app].
  replace ((lit "    <outline text=" ++ xmlAttr (ec_Title c) ++ lit " title=" ++ xmlAttr (ec_Title c) ++ lit ">" ++ newline
      ++ ((f :: fs) ≫= λ f, writeFeedOutline f (lit "      ")) ++ lit "    </outline>" ++ newline ++ t) ++ s)
    with (lit "    " ++ show_start "outline" (title_attrs (ec_Title c)) false ++ newline ++ ((f :: fs) ≫= λ f, writeFeedOutline f (lit "      "))
      ++ lit "    " ++ show_end "outline" ++ newline ++ t ++ s).
  - apply yields_blanks; [apply (blanks_spaces 4)|]. apply (yields_folder _ _ _ (newline ++ t ++ s)).
    + apply yields_blanks; [apply blanks_newline|]. rewrite <- (app_nil_r (feed_outline <$> _)). apply yields_feeds; [apply (blanks_spaces 6)|].
      apply yields_blanks; [apply (blanks_spaces 4)|]. by refine (yields_end _ "outline" _ outlines_ignore_chars _).
    + rewrite !length_app. lia.
    + apply yields_blanks; [apply blanks_newline|]. exact IH1.
  - unfold show_start, title_attrs. cbn [mbind list_bind]. rewrite app_nil_r. rewrite <- !app_assoc. cbn [app]. rewrite <- !app_assoc, !show_attr_xml.
    reflexivity.
Qed.

(** ** Which feed goes where *)

Section Places.
Context {A : Type} (g : option Z → ExportFeed → list A).

Definition total (m : gmap Z (list ExportFeed)) : list A := map_to_list m ≫= λ kf, kf.2 ≫= g (Some kf.1).

Lemma totals_insert k x m : total (<[k := x]> m) ≡ₚ (x ≫= g (Some k)) ++ total (delete k m).
Proof.
  unfold total. rewrite <- insert_delete_eq. rewrite map_to_list_insert by apply lookup_delete_eq. by rewrite bind_cons.
Qed.

Lemma total_lookup k x m : m !! k = Some x → total m ≡ₚ (x ≫= g (Some k)) ++ total (delete k m).
Proof. intros H. rewrite <- (insert_id m k x) at 1 by done. apply totals_insert. Qed.

Lemma group_feeds_total feeds :
  total (group_feeds feeds).1 ++ ((group_feeds feeds).2 ≫= g None) ≡ₚ feeds ≫= λ f, g (ef_CategoryID f) f.
Proof.
  induction feeds as [|f feeds IH] using rev_ind; [done|]. unfold group_feeds in *. rewrite foldl_app, bind_app. cbn [foldl].
  destruct (foldl _ _ feeds) as [m u]. cbn [fst snd] in *. rewrite <- IH. clear IH. cbn [mbind list_bind]. rewrite app_nil_r.
  destruct (ef_CategoryID f) as [k|]; cbn [fst snd].
  - rewrite totals_insert, bind_app. cbn [mbind list_bind]. rewrite app_nil_r.
    destruct (m !! k) as [x|] eqn:E; cbn [default].
    + rewrite (total_lookup k x m) by done. unfold mbind. solve_Permutation.
    + rewrite delete_id by done. cbn. solve_Permutation.
  - rewrite bind_app. cbn. rewrite app_nil_r. by rewrite app_assoc.
Qed.
End Places.

Lemma total_ext {A} (g g' : option Z → ExportFeed → list A) m :
  (∀ k fs f, m !! k = Some fs → f ∈ fs → g (Some k) f = g' (Some k) f) → total g m = total g' m.
Proof.
  intros H. unfold total. apply Forall_bind_ext, Forall_forall. intros [k fs] Hk%elem_of_map_to_list. cbn [fst snd].
  apply Forall_bind_ext, Forall_forall. intros f Hf. by eapply H.
Qed.

(** The folders and what is left of the groups hold every feed of the groups. *)
Lemma folders_total {A} (g : string → ExportFeed → list A) cats m :
  ((folders cats m).1 ≫= λ tf, tf.2 ≫= g (clean tf.1)) ++ total (λ _, g ""%string) (folders cats m).2
  ≡ₚ total (λ k, g (folder_title cats k)) m.
Proof.
  revert m. induction cats as [|c cats IH]; intros m; [done|]. cbn [folders].
  assert (∀ k, k ≠ ec_ID c → folder_title (c :: cats) (Some k) = folder_title cats (Some k)) as Hne.
  { intros k Hk. cbn. rewrite decide_False by done. by destruct (list_find _ cats) as [[??]|]. }
  destruct (m !! ec_ID c) as [[|f fs]|] eqn:E; cbn [from_option id].
  - rewrite IH, (total_ext _ (λ k, g (folder_title (c :: cats) k))); [done|]. intros k x y Hk Hy. cbv beta. destruct (decide (k = ec_ID c)) as [->|]; [|by rewrite Hne].
    rewrite E in Hk. injection Hk as <-. by apply elem_of_nil in Hy.
  - specialize (IH (delete (ec_ID c) m)). destruct (folders cats (delete (ec_ID c) m)) as [l m']. cbn [fst snd] in *.
    rewrite bind_cons, (total_lookup _ _ _ _ E), <- app_assoc. cbn [fst snd]. rewrite IH.
    assert (folder_title (c :: cats) (Some (ec_ID c)) = clean (ec_Title c)) as -> by (cbn; by rewrite decide_True).
    apply Permutation_app_head. rewrite (total_ext _ (λ k, g (folder_title (c :: cats) k))); [done|]. intros k x y [Hk _]%lookup_delete_Some _. by rewrite Hne.
  - rewrite IH, (total_ext _ (λ k, g (folder_title (c :: cats) k))); [done|]. intros k x y Hk _. cbv beta. rewrite Hne; [done|]. intros ->. congruence.
Qed.

(** * The document *)

Lemma bind_bind {A B C} (l : list A) (f : A → list B) (g : B → list C) : (l ≫= f) ≫= g = l ≫= λ x, f x ≫= g.
Proof. induction l as [|x l IH]; [done|]. by rewrite !bind_cons, bind_app, IH. Qed.

Section Document.
Context (range : gmap Z (list ExportFeed) → list (Z * list ExportFeed)).

(** The outlines of an export, in the order they are written. *)
Definition export_outlines (inp : ExportInput) : list Outline :=
  let '(m, u) := group_feeds (in_Feeds inp) in
  let '(l, m) := folders (in_Categories inp) m in
  (folder_of <$> l) ++ (feed_outline <$> ((range m).*2 ≫= id)) ++ (feed_outline <$> u).

Definition export_body (inp : ExportInput) : text :=
  let '(m, u) := group_feeds (in_Feeds inp) in
  let '(t, m) := write_folders (in_Categories inp) m in
  t ++ ((range m).*2 ≫= λ feeds, feeds ≫= λ f, writeFeedOutline f (lit "    ")) ++ (u ≫= λ f, writeFeedOutline f (lit "    ")).

Lemma yields_body inp s os n r : yields s os n r → yields (export_body inp ++ s) (export_outlines inp ++ os) n r.
Proof.
  intros H. unfold export_body, export_outlines. destruct (group_feeds (in_Feeds inp)) as [m u].
  pose proof (λ s os H, yields_folders (in_Categories inp) m s os n r H) as Hf.
  destruct (write_folders (in_Categories inp) m) as [t m1], (folders (in_Categories inp) m) as [l m2]. cbn [fst snd] in Hf.
  destruct (Hf s os H) as [_ ->]. rewrite <- !app_assoc. apply Hf.
  assert (((range m2).*2 ≫= λ feeds, feeds ≫= λ f, writeFeedOutline f (lit "    ")) =
          ((range m2).*2 ≫= id) ≫= λ f, writeFeedOutline f (lit "    ")) as -> by (by rewrite bind_bind).
  apply yields_feeds; [apply (blanks_spaces 4)|]. by apply yields_feeds; [apply (blanks_spaces 4)|].
Qed.

Definition opml_attrs : list (string * text) := [("version", lit "2.0"); ("xmlns:rssam", lit Namespace)]%string.
Definition export_head (date : string) (inp : ExportInput) : text :=
  let title := trim_space (in_Title inp) in
  let title := if String.eqb title "" then "rssam subscriptions"%string else title in
  lit "  " ++ show_start "head" [] false ++ newline
  ++ lit "    " ++ show_start "title" [] false ++ escape_bytes (sanitize (lit title)) ++ show_end "title" ++ newline
  ++ lit "    " ++ show_start "dateCreated" [] false ++ escape_bytes (sanitize (lit date)) ++ show_end "dateCreated" ++ newline
  ++ lit "  " ++ show_end "head" ++ newline.

Lemma Generate_show date inp :
  Generate range date inp = (xmlHeader ++ show_start "opml" opml_attrs false ++ newline ++ export_head date inp
    ++ lit "  " ++ show_start "body" [] false ++ newline ++ export_body inp ++ lit "  " ++ show_end "body" ++ newline ++ show_end "opml") ++ newline.
Proof.
  unfold Generate, export_head, export_body. destruct (group_feeds (in_Feeds inp)) as [m u].
  destruct (write_folders (in_Categories inp) m) as [t m1]. cbv zeta. unfold xmlEscape, EscapeText, show_start. rewrite <- !app_assoc. cbn [app].
  rewrite <- !app_assoc. reflexivity.
Qed.

(** What is under the root is read with no regard to what else stands there. *)
Definition root_outlines (kids : list xml) : list Outline := body_outlines (resolve rssam <$> kids).
Lemma root_ignores_chars : ignores_chars root_outlines.
Proof. by intros t l. Qed.
Definition nothing (_ : list xml) : unit := tt.
Lemma nothing_ignores_chars : ignores_chars nothing.
Proof. by intros t l. Qed.

(** An element of text alone. *)
Lemma yields_text m v s n r : good_name m = true → yields_with nothing s tt n r →
  yields_with nothing (show_start m [] false ++ escape_bytes (sanitize v) ++ show_end m ++ s) tt n r.
Proof.
  intros Hm H. apply yields_tag; [apply nothing_ignores_chars|]. destruct (H []) as (l & Hl & _); [constructor|]. eexists. split; [|done].
  apply (reads_open m [] (escape_bytes (sanitize v) ++ show_end m ++ s) (chars_of (sanitize v) ++ []) s); [done|constructor| | |done].
  - rewrite !length_app. lia.
  - apply (reads_escaped (sanitize v)); [apply xml_valid_sanitize|]. by apply (reads_end m s).
Qed.

Lemma yields_head date inp s x n r : yields_with root_outlines s x n r → yields_with root_outlines (export_head date inp ++ s) x n r.
Proof.
  intros H. unfold export_head. cbv zeta. rewrite <- !app_assoc. apply yields_blanks; [apply (blanks_spaces 2)|].
  eapply (yields_elem root_outlines nothing "head" [] _ (newline ++ s) _ tt (λ _ l, l)); [apply root_ignores_chars|done|done|done| | |].
  - apply yields_blanks; [apply blanks_newline|]. apply yields_blanks; [apply (blanks_spaces 4)|]. apply yields_text; [done|].
    apply yields_blanks; [apply blanks_newline|]. apply yields_blanks; [apply (blanks_spaces 4)|]. apply yields_text; [done|].
    apply yields_blanks; [apply blanks_newline|]. apply yields_blanks; [apply (blanks_spaces 2)|].
    refine (yields_end nothing "head" _ nothing_ignores_chars _). done.
  - rewrite !length_app. lia.
  - by apply yields_blanks; [apply blanks_newline|].
Qed.

Lemma yields_root date inp :
  yields_with root_outlines (newline ++ export_head date inp ++ lit "  " ++ show_start "body" [] false ++ newline ++ export_body inp
    ++ lit "  " ++ show_end "body" ++ newline ++ show_end "opml") (export_outlines inp) (qname_of "opml") [].
Proof.
  apply yields_blanks; [apply blanks_newline|]. apply yields_head. apply yields_blanks; [apply (blanks_spaces 2)|].
  rewrite <- (app_nil_r (export_outlines inp)).
  eapply (yields_elem root_outlines (omap outline_in) "body" [] _ (newline ++ show_end "opml") _ (export_outlines inp) app);
    [apply root_ignores_chars|done|constructor| | | |].
  - intros kids l. unfold root_outlines.
    change (body_outlines (resolve rssam <$> (Elem (qname_of "body") (attr_of <$> []) kids :: l)))
      with (omap outline_of (resolve rssam <$> kids) ++ body_outlines (resolve rssam <$> l)). f_equal. apply resolve_outlines.
  - apply yields_blanks; [apply blanks_newline|]. rewrite <- (app_nil_r (export_outlines inp)) at 1.
    apply yields_body. apply yields_blanks; [apply (blanks_spaces 2)|]. by refine (yields_end _ "body" _ outlines_ignore_chars _).
  - rewrite !length_app. lia.
  - apply yields_blanks; [apply blanks_newline|]. rewrite <- (app_nil_r (show_end "opml")).
    by refine (yields_end root_outlines "opml" [] root_ignores_chars _).
Qed.

Lemma header_token rest : raw_token (xmlHeader ++ rest) = Some (TSkip, newline ++ rest).
Proof. by vm_compute. Qed.

Lemma opml_resolved : declare ∅ (attr_of <$> opml_attrs) = rssam.
Proof. by vm_compute. Qed.

(** The newline at the end is cut off. *)
Lemma trim_document a s c : graphic a = true → graphic c = true → trim_right (trim_left ((a :: s) ++ [c] ++ newline)) = (a :: s) ++ [c].
Proof.
  intros Ha Hc. cbn [app]. rewrite graphic_trim_left by done. unfold trim_right.
  replace (rev (a :: s ++ c :: newline)) with (ascii_of_N 10 :: c :: rev (a :: s))
    by (change (a :: s ++ c :: newline) with ((a :: s) ++ ([c] ++ newline)); by rewrite !rev_app_distr).
  set (r := rev (a :: s)). change (trim_with ?w2 ?w3 (ascii_of_N 10 :: c :: r)) with (trim_with w2 w3 (c :: r)).
  rewrite graphic_stop by (by right || done). subst r. cbn [rev]. rewrite rev_app_distr, rev_involutive. done.
Qed.

Lemma read_root_opml k s kids r : reads s (kids, qname_of "opml", r) →
  read_root (S (S (S k))) (xmlHeader ++ show_start "opml" opml_attrs false ++ s) = Some (Elem (qname_of "opml") (attr_of <$> opml_attrs) kids).
Proof.
  intros H. cbn [read_root]. rewrite header_token.
  assert (raw_token (newline ++ show_start "opml" opml_attrs false ++ s) = Some (TText newline, show_start "opml" opml_attrs false ++ s)) as ->
    by (destruct (blanks_text newline blanks_newline); by apply raw_token_plain).
  rewrite raw_token_start by (done || by repeat constructor). rewrite H by lia. by rewrite bool_decide_eq_true_2.
Qed.

(** The whole file is read, up to its last byte. *)
Lemma export_document date inp :
  ∃ n attrs kids, read_document (trim_right (trim_left (Generate range date inp))) = Some (Elem n attrs kids)
    ∧ body_outlines kids = export_outlines inp.
Proof.
  rewrite Generate_show. pose proof (yields_root date inp) as H. revert H.
  set (rest := export_head date inp ++ lit "  " ++ show_start "body" [] false ++ newline ++ export_body inp ++ lit "  " ++ show_end "body" ++ newline).
  replace (newline ++ export_head date inp ++ _) with (newline ++ rest ++ show_end "opml") by (subst rest; by rewrite <- !app_assoc).
  intros H. destruct (H [] (List.Forall_nil _)) as (kids & Hk & Hos). clear H. cbn [app] in Hk.
  set (core := xmlHeader ++ show_start "opml" opml_attrs false ++ newline ++ rest ++ show_end "opml").
  assert (trim_right (trim_left (core ++ newline)) = core) as ->.
  { replace core with (("<"%char :: drop 1 xmlHeader ++ show_start "opml" opml_attrs false ++ newline ++ rest ++ lit "</opml") ++ [">"%char])
      by (subst core; cbn [app]; rewrite <- !app_assoc; reflexivity).
    rewrite <- app_assoc. by apply trim_document. }
  unfold read_document. replace (S (length core)) with (S (S (S (length core - 2)))) by (subst core; rewrite length_app; cbn; lia).
  subst core. erewrite read_root_opml by exact Hk. cbn [fmap option_fmap option_map resolve]. rewrite opml_resolved.
  by eexists _, _, _.
Qed.

(** An export is read back as the outlines it was written from. *)
Lemma export_parses date inp :
  ∃ version title, ParseBytes (Generate range date inp) =
    match export_outlines inp with [] => inl (EMsg "opml body has no outlines") | os => inr (mkDocument version title os) end.
Proof.
  destruct (export_document date inp) as (n & attrs & kids & Hd & Ho). unfold ParseBytes. rewrite Hd, Ho.
  destruct (trim_right (trim_left (Generate range date inp))) eqn:E; [by vm_compute in Hd|].
  eexists _, _. by destruct (export_outlines inp).
Qed.

Lemma collect_feeds Quote fs : Forall (λ f, settings_ok (ef_Settings f)) fs →
  (feed_outline <$> fs) ≫= (λ o, collectOutlineFeeds Quote o "") = fs ≫= restored "".
Proof.
  induction 1 as [|f fs Hf _ IH]; [done|]. rewrite fmap_cons, !bind_cons. cbv beta. by rewrite collect_feed, IH.
Qed.

Hypothesis range_perm : ∀ m, range m ≡ₚ map_to_list m.

(** Every feed is in the groups once. *)
Lemma export_places {A} (g : string → ExportFeed → list A) inp :
  let '(m, u) := group_feeds (in_Feeds inp) in let '(l, m) := folders (in_Categories inp) m in
  (l ≫= λ tf, tf.2 ≫= g (clean tf.1)) ++ (((range m).*2 ≫= id) ≫= g ""%string) ++ (u ≫= g ""%string)
  ≡ₚ in_Feeds inp ≫= λ f, g (folder_title (in_Categories inp) (ef_CategoryID f)) f.
Proof.
  pose proof (group_feeds_total (λ k, g (folder_title (in_Categories inp) k)) (in_Feeds inp)) as H1.
  destruct (group_feeds (in_Feeds inp)) as [m u]. pose proof (folders_total g (in_Categories inp) m) as H2.
  destruct (folders (in_Categories inp) m) as [l m']. cbn [fst snd] in *. rewrite <- H1, <- H2, <- app_assoc. apply Permutation_app_head.
  change (folder_title (in_Categories inp) None) with ""%string. apply Permutation_app_tail.
  rewrite bind_bind. unfold total. rewrite (range_perm m'). clear. by induction (map_to_list m') as [|[k fs] x IH]; [|cbn [fmap list_fmap]; rewrite !bind_cons, IH].
Qed.

Lemma export_outlines_perm Quote inp : Forall (λ f, settings_ok (ef_Settings f)) (in_Feeds inp) →
  export_outlines inp ≫= (λ o, collectOutlineFeeds Quote o "") ≡ₚ
  in_Feeds inp ≫= λ f, restored (folder_title (in_Categories inp) (ef_CategoryID f)) f.
Proof.
  intros Hok. pose proof (export_places (λ _ f, [f]) inp) as Hf. pose proof (export_places restored inp) as Hr. unfold export_outlines.
  destruct (group_feeds (in_Feeds inp)) as [m u]. destruct (folders (in_Categories inp) m) as [l m']. rewrite <- Hr.
  assert (∀ x : list ExportFeed, x ≫= (λ f, [f]) = x) as Hid by (intros x; induction x as [|f x IH]; [done|by rewrite bind_cons, IH]).
  rewrite !Hid in Hf. rewrite <- Hf in Hok. rewrite !Forall_app, Forall_bind in Hok. destruct Hok as (Hl & Hm & Hu). clear Hf Hr.
  rewrite !bind_app, !collect_feeds by done. apply Permutation_app_tail.
  induction Hl as [|[t fs] l Hfs _ IH]; [done|]. rewrite fmap_cons, !bind_cons, IH. unfold compose in Hfs. cbn [fst snd] in *. rewrite Hid in Hfs.
  unfold folder_of. by rewrite collect_folder.
Qed.

Lemma folders_none cats : folders cats ∅ = ([], ∅).
Proof. induction cats as [|c cats IH]; [done|]. cbn [folders]. by rewrite lookup_empty. Qed.

Lemma export_outlines_none inp : export_outlines inp = [] ↔ in_Feeds inp = [].
Proof.
  split.
  - pose proof (export_places (λ _ f, [f]) inp) as Hf. unfold export_outlines. destruct (group_feeds (in_Feeds inp)) as [m u].
    destruct (folders (in_Categories inp) m) as [l m']. intros [Hl [Hm Hu]%app_nil]%app_nil.
    apply fmap_nil_inv in Hl, Hm, Hu. rewrite Hl, Hm, Hu in Hf. cbn in Hf. apply Permutation_nil_l in Hf.
    destruct (in_Feeds inp) as [|f fs]; [done|]. by rewrite bind_cons in Hf.
  - unfold export_outlines. intros ->. cbn. rewrite folders_none. pose proof (range_perm ∅) as Hp. rewrite map_to_list_empty in Hp.
    apply Permutation_nil_r in Hp. by rewrite Hp.
Qed.

(** C24: What the export writes, the import reads: for every list of feeds whose settings the
    tables allow, and whatever their titles, addresses and texts hold, parsing the exported file
    succeeds and collects each feed once, under the title of its category, with its title, its
    address and every setting, trimmed and without what XML cannot hold, and without a report.
    A feed without an address does not come back; an export without feeds is refused. *)
Theorem opml_round_trip Quote date inp : Forall (λ f, settings_ok (ef_Settings f)) (in_Feeds inp) →
  match ParseBytes (Generate range date inp) with
  | inr d => in_Feeds inp ≠ [] ∧
      CollectFeeds Quote d ≡ₚ in_Feeds inp ≫= λ f, restored (folder_title (in_Categories inp) (ef_CategoryID f)) f
  | inl e => in_Feeds inp = [] ∧ e = EMsg "opml body has no outlines"
  end.
Proof.
  intros Hok. destruct (export_parses date inp) as (version & title & ->). pose proof (export_outlines_none inp) as Hn.
  pose proof (export_outlines_perm Quote inp Hok) as Hp. destruct (export_outlines inp) as [|o os].
  - split; [by apply Hn|done].
  - split; [|exact Hp]. intros E. by apply Hn in E.
Qed.
End Document.

Definition wit_settings : FeedSettings :=
  mkSettings "telegram" 15 true false true "Filtered" true (Some 14) "custom <ua>" "alerts & more" "article" "" (str (lit "spam" ++ newline ++ lit "ads")) "go".
Definition wit_export : ExportInput :=
  mkExportInput "" [mkExportCategory 3 "Tech & more"; mkExportCategory 4 "Empty"]
    [mkExportFeed "Root" "https://example.com/rss?a=1&b=2" None no_settings; mkExportFeed "" "https://t.me/s/golang" (Some 3) wit_settings].

Theorem opml_round_trip_witness :
  ∃ d, ParseBytes (Generate map_to_list "Mon, 01 Jan 2024 00:00:00 UTC" wit_export) = inr d ∧
    CollectFeeds id d ≡ₚ
      [mkFeedEntry "Root" "https://example.com/rss?a=1&b=2" "" no_settings [];
       mkFeedEntry "https://t.me/s/golang" "https://t.me/s/golang" "Tech & more" (restored_settings wit_settings) []].
Proof.
  pose proof (opml_round_trip map_to_list (λ m, reflexivity _) id "Mon, 01 Jan 2024 00:00:00 UTC" wit_export) as H.
  assert (Forall (λ f, settings_ok (ef_Settings f)) (in_Feeds wit_export)) as Hok.
  { repeat constructor; vm_compute; try done; apply (bool_decide_unpack _); by vm_compute. }
  specialize (H Hok). destruct (ParseBytes _) as [e|d]; [by destruct H|]. exists d. split; [done|]. exact (proj2 H).
Defined.
