(* ===== verification/Version.v ===== *)
(** Versions and the check for a new release ([version/version.go],
    [githubrel/client.go]).  The numbers of a version are Go ints: they wrap. *)

From S2P Require Import Prelude GoStrings.
From Stdlib Require Import Ascii.

(** * Versions *)

Definition minus : ascii := ascii_of_nat 45.
Definition plus : ascii := ascii_of_nat 43.
Definition period : ascii := ascii_of_nat 46.

(** [strings.SplitN(s, sep, 2)[0]] *)
Definition before (c : ascii) (s : string) : string := let '(b, _, _) := cut c s in b.

(** version/version.go [Normalize] *)
Definition Normalize (v : string) : string := trim_prefix (trim_space v) "v".

(** version/version.go:132-141 [parseSemver, one number] *)
Fixpoint number (n : Z) (p : string) : option Z :=
  match p with
  | "" => Some n
  | String c p => if is_digit c then number (wrap64 (n * 10 + digit_val c)) p else None
  end.

(** version/version.go:128-143 [parseSemver, the parts] *)
Fixpoint numbers (parts : list string) : option (list Z) :=
  match parts with
  | [] => Some []
  | p :: parts =>
      if String.eqb p "" then None
      else n ← number 0 p; ns ← numbers parts; Some (n :: ns)
  end.

(** version/version.go [parseSemver] Missing numbers are zero. *)
Definition parseSemver (s : string) : option (Z * Z * Z) :=
  let s := before plus (before minus s) in
  let parts := split_on period s in
  if Nat.ltb 3 (length parts) then None
  else ns ← numbers parts;
       match ns with
       | [a] => Some (a, 0, 0)
       | [a; b] => Some (a, b, 0)
       | [a; b; c] => Some (a, b, c)
       | _ => None
       end.

(** version/version.go [semverSuffix] *)
Definition semverSuffix (s : string) : string :=
  let '(_, r, found) := cut minus (before plus s) in if (found : bool) then r else "".

(** version/version.go:92-96 [gitDescribeAhead, the digits] The count of commits, the
    number of digits and what follows. *)
Fixpoint span_count (n : Z) (i : nat) (s : string) : Z * nat * string :=
  match s with
  | "" => (n, i, "")
  | String c s' => if is_digit c then span_count (wrap64 (n * 10 + digit_val c)) (S i) s' else (n, i, s)
  end.

Definition is_hex (c : ascii) : bool :=
  is_digit c || ((97 <=? byte_of c) && (byte_of c <=? 102)) || ((65 <=? byte_of c) && (byte_of c <=? 70)).

Fixpoint all_hex (s : string) : bool :=
  match s with "" => true | String c s => is_hex c && all_hex s end.

(** version/version.go [gitDescribeAhead] *)
Definition gitDescribeAhead (rest : string) : option Z :=
  if String.eqb rest "" then None
  else
    let '(n, i, r) := span_count 0 0 rest in
    match r with
    | String c rest =>
        if Nat.eqb i 0 || negb (Ascii.eqb c minus) then None
        else if negb (has_prefix rest "g") then None
        else let hex := trim_suffix (trim_prefix rest "g") "-dirty" in
             if String.eqb hex "" then None
             else if all_hex hex then Some n else None
    | "" => None
    end.

(** version/version.go [compareSemverSuffix] *)
Definition compareSemverSuffix (a b : string) : Z :=
  let aRest := semverSuffix a in
  let bRest := semverSuffix b in
  if String.eqb aRest bRest then 0
  else match gitDescribeAhead aRest, gitDescribeAhead bRest with
  | Some aN, Some bN => if aN <? bN then -1 else if bN <? aN then 1 else 0
  | aG, bG =>
      if (match aG with Some _ => true | None => false end) && String.eqb bRest "" then 1
      else if (match bG with Some _ => true | None => false end) && String.eqb aRest "" then -1
      else if String.eqb aRest "" then 1
      else if String.eqb bRest "" then -1
      else match aG, bG with
           | Some _, _ => 1
           | None, Some _ => -1
           | None, None => strings_compare aRest bRest
           end
  end.

(** version/version.go [CompareSemver] *)
Definition CompareSemver (a b : string) : Z :=
  let a := Normalize a in
  let b := Normalize b in
  if String.eqb a b then 0
  else match parseSemver a, parseSemver b with
  | None, None => strings_compare a b
  | None, Some _ => -1
  | Some _, None => 1
  | Some (a1, a2, a3), Some (b1, b2, b3) =>
      if a1 <? b1 then -1 else if b1 <? a1 then 1
      else if a2 <? b2 then -1 else if b2 <? a2 then 1
      else if a3 <? b3 then -1 else if b3 <? a3 then 1
      else compareSemverSuffix a b
  end.

(** * The order versions are in *)

(** Numbers first, lexicographically, then text. *)
Definition Key : Type := list Z * string.

Fixpoint zlex (a b : list Z) : Z :=
  match a, b with
  | [], [] => 0
  | [], _ => -1
  | _, [] => 1
  | x :: a, y :: b => if x <? y then -1 else if y <? x then 1 else zlex a b
  end.

Definition key_compare (a b : Key) : Z :=
  let c := zlex (fst a) (fst b) in if c =? 0 then strings_compare (snd a) (snd b) else c.

(** A pre-release is below its release, which is below the builds after it. *)
Definition suffix_key (rest : string) : Key :=
  match gitDescribeAhead rest with
  | Some n => ([2; n], "")
  | None => if String.eqb rest "" then ([1; 0], "") else ([0; 0], rest)
  end.

(** Whatever is no version is below every version. *)
Definition version_key (v : string) : Key :=
  let v := Normalize v in
  match parseSemver v with
  | None => ([0], v)
  | Some (a, b, c) => let '(k, s) := suffix_key (semverSuffix v) in (1 :: a :: b :: c :: k, s)
  end.

(** * Lemmas *)

Lemma strings_compare_refl a : strings_compare a a = 0.
Proof. unfold strings_compare. pose proof (String.compare_antisym a a). by destruct (String.compare a a). Qed.

Lemma strings_compare_antisym a b : strings_compare b a = - strings_compare a b.
Proof. unfold strings_compare. rewrite (String.compare_antisym a b). by destruct (String.compare b a). Qed.

Lemma string_compare_le_trans a b c : String.compare a b ≠ Gt → String.compare b c ≠ Gt → String.compare a c ≠ Gt.
Proof.
  revert b c. induction a as [|x a IH]; intros [|y b] [|z c]; simpl; try done.
  unfold Ascii.compare. destruct (N.compare_spec (N_of_ascii x) (N_of_ascii y)) as [Exy|Lxy|]; [| |done];
    destruct (N.compare_spec (N_of_ascii y) (N_of_ascii z)) as [Eyz|Lyz|]; try done; intros H1 H2.
  - rewrite Exy, Eyz, N.compare_refl. by apply (IH b).
  - by rewrite Exy, (proj2 (N.compare_lt_iff _ _) Lyz).
  - by rewrite <-Eyz, (proj2 (N.compare_lt_iff _ _) Lxy).
  - by rewrite (proj2 (N.compare_lt_iff _ _) (N.lt_trans _ _ _ Lxy Lyz)).
Qed.

Lemma strings_compare_trans a b c : strings_compare a b <= 0 → strings_compare b c <= 0 → strings_compare a c <= 0.
Proof.
  pose proof (string_compare_le_trans a b c) as H. unfold strings_compare.
  destruct (String.compare a b), (String.compare b c), (String.compare a c); try lia;
    intros _ _; exfalso; by apply H.
Qed.

Lemma zlex_antisym a b : zlex b a = - zlex a b.
Proof.
  revert b. induction a as [|x a IH]; intros [|y b]; cbn [zlex]; [done..|].
  destruct (Z.ltb_spec x y), (Z.ltb_spec y x); try done; lia.
Qed.

Lemma zlex_eq a b : zlex a b = 0 ↔ a = b.
Proof.
  revert b. induction a as [|x a IH]; intros [|y b]; cbn [zlex]; [done..|].
  destruct (Z.ltb_spec x y); [split; [done|intros [= -> ->]; lia]|].
  destruct (Z.ltb_spec y x); [split; [done|intros [= -> ->]; lia]|].
  assert (x = y) as -> by lia. rewrite IH. split; [by intros ->|by intros [= ->]].
Qed.

Lemma zlex_trans a b c : zlex a b <= 0 → zlex b c <= 0 → zlex a c <= 0.
Proof.
  revert b c. induction a as [|x a IH]; intros [|y b] [|z c]; cbn [zlex]; try lia.
  specialize (IH b c).
  destruct (Z.ltb_spec x y), (Z.ltb_spec y x), (Z.ltb_spec y z), (Z.ltb_spec z y), (Z.ltb_spec x z), (Z.ltb_spec z x); lia.
Qed.

Lemma key_compare_antisym a b : key_compare b a = - key_compare a b.
Proof.
  unfold key_compare. rewrite (zlex_antisym (fst a)), (strings_compare_antisym (snd a)).
  destruct (Z.eqb_spec (zlex (fst a) (fst b)) 0) as [->|]; [done|]. by rewrite (proj2 (Z.eqb_neq _ _)) by lia.
Qed.

Lemma key_compare_trans a b c : key_compare a b <= 0 → key_compare b c <= 0 → key_compare a c <= 0.
Proof.
  unfold key_compare. pose proof (zlex_trans (fst a) (fst b) (fst c)) as Hz.
  pose proof (strings_compare_trans (snd a) (snd b) (snd c)) as Hs.
  destruct (Z.eqb_spec (zlex (fst a) (fst b)) 0) as [E1|]; destruct (Z.eqb_spec (zlex (fst b) (fst c)) 0) as [E2|];
    destruct (Z.eqb_spec (zlex (fst a) (fst c)) 0) as [E3|]; try lia;
    intros H1 H2; pose proof (zlex_antisym (fst a) (fst b)) as Hab.
  all: first
    [ by apply Hs
    | exfalso; apply zlex_eq in E1, E3; rewrite <-E1, E3 in *; by apply n, zlex_eq
    | exfalso; apply zlex_eq in E2, E3; rewrite E2, E3 in *; by apply n, zlex_eq
    | exfalso; apply zlex_eq in E1, E2; rewrite E1, E2 in *; by apply n, zlex_eq
    | exfalso; apply zlex_eq in E3; rewrite <-E3 in *; lia ].
Qed.

Lemma suffix_key_compare a b :
  compareSemverSuffix a b = key_compare (suffix_key (semverSuffix a)) (suffix_key (semverSuffix b)).
Proof.
  unfold compareSemverSuffix. generalize (semverSuffix a) (semverSuffix b). clear a b. intros a b.
  destruct (String.eqb_spec a b) as [->|Hne].
  { unfold key_compare. rewrite (proj2 (zlex_eq _ _) eq_refl). cbn. by rewrite strings_compare_refl. }
  assert (gitDescribeAhead "" = None) as H0 by done. unfold suffix_key.
  destruct (String.eqb_spec a "") as [->|Ha]; [|destruct (String.eqb_spec b "") as [->|Hb]]; rewrite ?H0.
  - rewrite (proj2 (String.eqb_neq b "")) by congruence. by destruct (gitDescribeAhead b).
  - by destruct (gitDescribeAhead a).
  - destruct (gitDescribeAhead a) as [n|], (gitDescribeAhead b) as [m|]; try done.
    unfold key_compare. cbn [fst snd zlex]. cbn. destruct (Z.ltb_spec n m); [done|]. by destruct (Z.ltb_spec m n).
Qed.

Lemma compare_version_key a b : CompareSemver a b = key_compare (version_key a) (version_key b).
Proof.
  unfold CompareSemver, version_key. generalize (Normalize a) (Normalize b). clear a b. intros a b.
  destruct (String.eqb_spec a b) as [->|_].
  { unfold key_compare. by rewrite (proj2 (zlex_eq _ _) eq_refl), strings_compare_refl. }
  destruct (parseSemver a) as [[[a1 a2] a3]|], (parseSemver b) as [[[b1 b2] b3]|]; cbn.
  - rewrite suffix_key_compare. destruct (suffix_key (semverSuffix a)) as [ka sa], (suffix_key (semverSuffix b)) as [kb sb].
    unfold key_compare. cbn [fst snd zlex].
    destruct (Z.ltb_spec 1 1); [lia|]. repeat (case_match; [done|]). done.
  - by destruct (suffix_key (semverSuffix a)).
  - by destruct (suffix_key (semverSuffix b)).
  - unfold key_compare. cbn. done.
Qed.

(** * The release check *)

(** githubrel/client.go [Release] The tag and the page; name, notes and date are only shown. *)
Record Release := mkRelease { Tag : string; HTMLURL : string; Body : string }.

Definition no_release : Release := mkRelease "" "" "".

(** githubrel/client.go [Client] [at] is [None] before the first fetch. *)
Record Client := mkClient { c_TTL : Z; c_cached : Release; c_at : option Z; c_err : option string }.

(** githubrel/client.go [New] *)
Definition New : Client := mkClient (5 * 60 * second) no_release None None.

(** What the request for the latest release gave: a transport error, or a status and
    the decoded document ([None] when it does not decode). *)
Inductive reply := Unreachable (e : string) | Replied (status : Z) (doc : option Release).

(** githubrel/client.go:108-156 [Client.fetch] From the reply on. *)
Definition fetch (r : reply) : Release + string :=
  match r with
  | Unreachable e => inr e
  | Replied status doc =>
      if status =? 404 then inr "no release"%string
      else if negb (status =? 200) then inr "github status"%string
      else match doc with
           | None => inr "decode"%string
           | Some rel => if String.eqb (trim_space (Tag rel)) "" then inr "empty tag"%string else inl rel
           end
  end.

(** githubrel/client.go:61-85 [Client.latest] At [now]; a request ends at [done].  The
    result: the client, the release, the error and whether a request was made. *)
Definition latest (c : Client) (force : bool) (now done : Z) (r : reply) :
    Client * Release * option string * bool :=
  let ttl := if c_TTL c <=? 0 then 5 * 60 * second else c_TTL c in
  let c := mkClient ttl (c_cached c) (c_at c) (c_err c) in
  let go :=
    match fetch r with
    | inr e => (mkClient ttl (c_cached c) (Some done) (Some e), c_cached c, Some e, true)
    | inl rel => (mkClient ttl rel (Some done) None, rel, None, true)
    end in
  match c_at c with
  | Some at_ =>
      if negb force && (time_sub now at_ <? ttl) then
        match c_err c with
        | None => if negb (String.eqb (Tag (c_cached c)) "") then (c, c_cached c, None, false) else go
        | Some e => (c, c_cached c, Some e, false)
        end
      else go
  | None => go
  end.

(** githubrel/client.go [Status] *)
Record Status := mkStatus {
  st_Current : string; st_Latest : string; st_UpdateAvail : bool; st_CheckedOK : bool; st_HTMLURL : string;
  st_Notes : string;
}.

(** githubrel/client.go [Client.Status] The status and whether a check is started. *)
Definition ClientStatus (current : string) (c : Client) (now : Z) : Status * bool :=
  let rel := c_cached c in
  let ok := match c_err c with None => negb (String.eqb (Tag rel) "") | Some _ => false end in
  let stale := match c_at c with None => true | Some at_ => c_TTL c <=? time_sub now at_ end in
  (if ok then mkStatus current (Tag rel) (CompareSemver current (Tag rel) <? 0) true (HTMLURL rel) (Body rel)
   else mkStatus current "" false false "" "", stale).

(** One call: forced or not, its time, the end of its request, the reply. *)
Definition run_calls (c : Client) (calls : list (bool * Z * Z * reply)) : Client :=
  foldl (λ c '(force, now, done, r), (latest c force now done r).1.1.1) c calls.

(** A fetch that did not fail left a release with a tag. *)
Definition client_ok (c : Client) : Prop :=
  0 < c_TTL c ∧ (c_at c ≠ None → c_err c = None → Tag (c_cached c) ≠ ""%string).

Lemma trim_space_empty : trim_space "" = ""%string.
Proof. reflexivity. Qed.

Lemma fetch_tag r rel : fetch r = inl rel → Tag rel ≠ ""%string.
Proof.
  unfold fetch. destruct r as [e|st [rel'|]]; repeat case_match; try done. intros [= <-] Ht.
  match goal with H : String.eqb _ _ = false |- _ => apply String.eqb_neq in H; apply H end.
  by rewrite Ht, trim_space_empty.
Qed.

Lemma latest_ok c force t0 t1 r : client_ok c → client_ok (latest c force t0 t1 r).1.1.1.
Proof.
  intros [Ht Hc]. unfold latest. destruct (Z.leb_spec (c_TTL c) 0); [lia|].
  assert (client_ok (match fetch r with
    | inr e => (mkClient (c_TTL c) (c_cached c) (Some t1) (Some e), c_cached c, Some e, true)
    | inl rel => (mkClient (c_TTL c) rel (Some t1) None, rel, None, true) end).1.1.1) as Hgo.
  { destruct (fetch r) as [rel|e] eqn:Hf; split; cbn; try done. intros _ _. by apply (fetch_tag r). }
  cbn [c_at c_err c_cached c_TTL]. destruct (c_at c) as [at_|] eqn:Ha; [|done].
  destruct (negb force && _); [|done].
  destruct (c_err c) as [e|] eqn:He; [split; cbn; done|].
  destruct (negb (String.eqb (Tag (c_cached c)) "")) eqn:Hn; [|done]. split; cbn; [done|].
  intros _ _. by apply Hc.
Qed.

Lemma run_calls_ok c calls : client_ok c → client_ok (run_calls c calls).
Proof.
  unfold run_calls. revert c. induction calls as [|[[[force t0] t1] r] calls IH]; intros c Hc; [exact Hc|].
  cbn [foldl]. apply IH. by apply latest_ok.
Qed.

(** * Theorems *)

(** Versions are in a total preorder, so that "newer" is consistent: [CompareSemver]
    is antisymmetric and transitive; numbers decide first, whatever follows them;
    with equal numbers a pre-release is older than its release, which is older than
    every [git describe] build after it, and those are ordered by their distance;
    what is no version (a development build) is older than every version. *)
Lemma compare_semver_order :
  (∀ a b, CompareSemver b a = - CompareSemver a b) ∧
  (∀ a b c, CompareSemver a b <= 0 → CompareSemver b c <= 0 → CompareSemver a c <= 0) ∧
  (∀ a b, parseSemver (Normalize a) = None → parseSemver (Normalize b) ≠ None → CompareSemver a b = -1) ∧
  (∀ a b a1 a2 a3 b1 b2 b3, parseSemver (Normalize a) = Some (a1, a2, a3) →
     parseSemver (Normalize b) = Some (b1, b2, b3) →
     let sa := semverSuffix (Normalize a) in
     let sb := semverSuffix (Normalize b) in
     (zlex [a1; a2; a3] [b1; b2; b3] ≠ 0 → CompareSemver a b = zlex [a1; a2; a3] [b1; b2; b3]) ∧
     (zlex [a1; a2; a3] [b1; b2; b3] = 0 →
        (sa = ""%string → ∀ n, gitDescribeAhead sb = Some n → CompareSemver a b = -1) ∧
        (sa ≠ ""%string → gitDescribeAhead sa = None → sb = ""%string → CompareSemver a b = -1) ∧
        (∀ n m, gitDescribeAhead sa = Some n → gitDescribeAhead sb = Some m → n < m → CompareSemver a b = -1))).
Proof.
  split_and!.
  - intros a b. rewrite !compare_version_key. apply key_compare_antisym.
  - intros a b c. rewrite !compare_version_key. apply key_compare_trans.
  - intros a b Ha Hb. rewrite compare_version_key. unfold version_key. cbv zeta. rewrite Ha. revert Hb.
    destruct (parseSemver (Normalize b)) as [[[b1 b2] b3]|]; [|done]. intros _. by destruct (suffix_key _).
  - intros a b a1 a2 a3 b1 b2 b3 Ha Hb. cbv zeta. rewrite compare_version_key. unfold version_key. cbv zeta. rewrite Ha, Hb.
    generalize (semverSuffix (Normalize a)) (semverSuffix (Normalize b)). intros sa sb. split.
    + intros Hz. unfold key_compare. destruct (suffix_key sa) as [ka ta], (suffix_key sb) as [kb tb].
      cbn [fst snd zlex] in *. rewrite Z.ltb_irrefl.
      repeat match goal with |- context [?x <? ?y] => destruct (x <? y); [done|] end. done.
    + intros Hz%zlex_eq. injection Hz as <- <- <-.
      assert (∀ k k' s s', zlex k k' = -1 → key_compare (1 :: a1 :: a2 :: a3 :: k, s) (1 :: a1 :: a2 :: a3 :: k', s') = -1) as Hk.
      { intros k k' s s' H. unfold key_compare. cbn [fst snd zlex]. by rewrite !Z.ltb_irrefl, H. }
      unfold suffix_key. split_and!.
      * intros -> n ->. by apply Hk.
      * intros Hne Hg ->. rewrite Hg, (proj2 (String.eqb_neq _ _) Hne). by apply Hk.
      * intros n m -> -> Hnm. apply Hk. cbn. by rewrite (proj2 (Z.ltb_lt n m)).
Qed.

Lemma compare_semver_order_witness :
  CompareSemver "v0.1.0" "0.1.0-1-gabcdef" = -1 ∧ CompareSemver "0.1.0-1-gabcdef" "0.1.1" = -1 ∧
  CompareSemver "dev" "0.1.0-rc1" = -1.
Proof.
  destruct compare_semver_order as (_ & _ & H3 & H4). split_and!.
  - apply (proj1 (proj2 (H4 "v0.1.0"%string "0.1.0-1-gabcdef"%string 0 1 0 0 1 0 eq_refl eq_refl) eq_refl)) with 1;
      vm_compute; reflexivity.
  - apply (proj1 (H4 "0.1.0-1-gabcdef"%string "0.1.1"%string 0 1 0 0 1 1 eq_refl eq_refl)); vm_compute; discriminate.
  - apply H3; vm_compute; [reflexivity|discriminate].
Defined.

(** GitHub is asked at most once per TTL however often the status is polled: after
    any calls, a call that is not forced, made within the TTL of the end of the last
    request -- also a failed one -- makes no request, gives what that request gave and
    leaves the client as it is. *)
Lemma release_check_rate_limited calls now t1 r at_ :
  let c := run_calls New calls in
  c_at c = Some at_ → time_sub now at_ < c_TTL c →
  latest c false now t1 r = (c, c_cached c, c_err c, false).
Proof.
  cbv zeta. assert (client_ok (run_calls New calls)) as [Ht Hc] by (apply run_calls_ok; split; done).
  destruct (run_calls New calls) as [ttl cached a err]. cbn in *. intros -> Hnow.
  unfold latest. cbn [c_TTL c_at c_err c_cached]. destruct (Z.leb_spec ttl 0); [lia|].
  cbn [negb andb]. rewrite (proj2 (Z.ltb_lt _ _) Hnow). destruct err as [e|]; [done|].
  rewrite (proj2 (String.eqb_neq _ _)); [done|]. by apply Hc.
Qed.

Lemma release_check_rate_limited_witness :
  let c := run_calls New [(false, 0, 5, Unreachable "timeout")] in
  latest c false (60 * second) (61 * second) (Unreachable "again") = (c, no_release, Some "timeout"%string, false).
Proof.
  refine (release_check_rate_limited [(false, 0, 5, Unreachable "timeout")] (60 * second) (61 * second)
            (Unreachable "again") 5 eq_refl _). vm_compute. reflexivity.
Defined.
