(* ===== verification/WsHub.v ===== *)
(** The WebSocket hub ([ws/hub.go], [ws/client.go], [ws/publisher.go]): which
    client receives which event, and why a send never meets a closed channel.

    Every operation below runs under the hub's lock, so an execution is a
    sequence of operations of any number of goroutines; sending on or closing a
    closed channel is a panic, [None]. *)

From S2P Require Import Prelude GoStrings Types.

(** * Definitions *)

Definition ChannelAll : string := "all".

(** ws/publisher.go [newEntryPayload] The columns that leave the server;
    the creation time is left out, as in [Entry]. *)
Record EntryPayload := mkEntryPayload {
  ep_id : Z; ep_feed_id : Z; ep_category_id : option Z; ep_feed_title : string; ep_title : string; ep_url : string;
  ep_author : option string; ep_published_at : option Z;
}.

(** ws/publisher.go:117-131 [PublishFeedStatusChanged, the data] *)
Record StatusPayload := mkStatusPayload {
  sp_feed_id : Z; sp_success : bool; sp_error_count : Z; sp_message : string; sp_poll_paused : bool;
  sp_manual_paused : bool; sp_last_checked_at : option Z; sp_next_check_at : option Z;
}.

(** The data of the events the program sends. *)
Inductive EventData :=
| DSubscribed (channels : list string)
| DEntry (e : EntryPayload)
| DStatus (s : StatusPayload)
| DFeedUnread (feed_id unread : Z)
| DCategoryUnread (category_id unread : Z)
| DGlobalUnread (unread : Z).

(** ws/hub.go [Envelope] These maps always marshal. *)
Record Envelope := mkEnvelope { Event : string; Data : EventData }.

(** ws/client.go [Client] [cl_send] is the channel's queue, [cl_send_closed] that it is
    closed; [cl_wire] is what [writePump] has put on the connection. *)
Record Client := mkClient {
  UserID : Z; cl_send : list Envelope; cl_send_closed : bool; cl_gone : bool; cl_subscriptions : gset string;
  cl_closed : bool; cl_wire : list Envelope;
}.

Definition set_send (c : Client) q := mkClient (UserID c) q (cl_send_closed c) (cl_gone c) (cl_subscriptions c) (cl_closed c) (cl_wire c).
Definition set_wire (c : Client) q w := mkClient (UserID c) q (cl_send_closed c) (cl_gone c) (cl_subscriptions c) (cl_closed c) w.
Definition set_subs (c : Client) s := mkClient (UserID c) (cl_send c) (cl_send_closed c) (cl_gone c) s (cl_closed c) (cl_wire c).
Definition set_closed (c : Client) := mkClient (UserID c) (cl_send c) (cl_send_closed c) (cl_gone c) (cl_subscriptions c) true (cl_wire c).
Definition set_gone (c : Client) := mkClient (UserID c) (cl_send c) true true (cl_subscriptions c) (cl_closed c) (cl_wire c).

(** ws/hub.go [Hub] [h_clients] are the clients that exist, [h_registered] the map of
    the hub. *)
Record Hub := mkHub { h_registered : gset Z; h_buffer : Z; h_clients : gmap Z Client; h_next : Z }.

Definition with_clients (h : Hub) m := mkHub (h_registered h) (h_buffer h) m (h_next h).

(** ws/hub.go [NewHub] *)
Definition NewHub (clientBuffer : Z) : Hub := mkHub ∅ (if clientBuffer <=? 0 then 100 else clientBuffer) ∅ 1.

(** ws/hub.go [Hub.HasClients] *)
Definition HasClients (h : Hub) : bool := 0 <? Z.of_nat (size (h_registered h)).

(** ws/client.go [NewUserClient] *)
Definition NewUserClient (h : Hub) (userID : Z) : Hub :=
  mkHub (h_registered h) (h_buffer h) (<[h_next h := mkClient userID [] false false ∅ false []]> (h_clients h)) (h_next h + 1).

(** ws/hub.go [Hub.Register] *)
Definition Register (h : Hub) (c : Z) : Hub :=
  match h_clients h !! c with
  | Some cl => if cl_gone cl then h else mkHub ({[c]} ∪ h_registered h) (h_buffer h) (h_clients h) (h_next h)
  | None => h
  end.

(** ws/hub.go [Hub.Unregister] Closing a closed channel panics. *)
Definition Unregister (h : Hub) (c : Z) : option Hub :=
  if negb (bool_decide (c ∈ h_registered h)) then Some h
  else match h_clients h !! c with
       | Some cl => if cl_send_closed cl then None
                    else Some (mkHub (h_registered h ∖ {[c]}) (h_buffer h) (<[c := set_gone cl]> (h_clients h)) (h_next h))
       | None => Some h
       end.

(** ws/client.go [Client.Close] *)
Definition Close (h : Hub) (c : Z) : Hub := with_clients h (alter set_closed c (h_clients h)).

(** ws/client.go [Client.isSubscribed] *)
Definition isSubscribed (cl : Client) (channels : gset string) : bool :=
  negb (bool_decide (cl_subscriptions cl = ∅)) && negb (bool_decide (channels ∩ cl_subscriptions cl = ∅)).

(** A select that sends or falls through: the queue, or that it was full. *)
Definition try_send (buffer : Z) (cl : Client) (e : Envelope) : option (Client * bool) :=
  if cl_send_closed cl then None
  else if Z.of_nat (length (cl_send cl)) <? buffer then Some (set_send cl (cl_send cl ++ [e]), true)
  else Some (cl, false).

(** ws/hub.go:92-99 [PublishToUser, the channels] *)
Definition channel_set (channels : list string) : gset string :=
  list_to_set (filter (λ ch, ch ≠ ""%string) (trim_space <$> channels)).

(** ws/hub.go:117-129 [PublishToUser, the loop] Over the registered clients, in any
    order; returns the slow ones. *)
Fixpoint send_all (buffer userID : Z) (uniq : gset string) (e : Envelope) (ids : list Z)
    (m : gmap Z Client) (slow : list Z) : option (gmap Z Client * list Z) :=
  match ids with
  | [] => Some (m, slow)
  | c :: ids =>
      match m !! c with
      | None => send_all buffer userID uniq e ids m slow
      | Some cl =>
          if negb (UserID cl =? userID) then send_all buffer userID uniq e ids m slow
          else if negb (isSubscribed cl uniq) then send_all buffer userID uniq e ids m slow
          else '(cl', sent) ← try_send buffer cl e;
               if (sent : bool) then send_all buffer userID uniq e ids (<[c := cl']> m) slow
               else send_all buffer userID uniq e ids m (slow ++ [c])
      end
  end.

(** ws/hub.go:87-130 [PublishToUser, under the read lock] *)
Definition publish_locked (h : Hub) (userID : Z) (channels : list string) (e : Envelope) : option (Hub * list Z) :=
  if userID <=? 0 then Some (h, [])
  else
    let uniq := channel_set channels in
    if bool_decide (uniq = ∅) then Some (h, [])
    else '(m, slow) ← send_all (h_buffer h) userID uniq e (elements (h_registered h)) (h_clients h) [];
         Some (with_clients h m, slow).

(** ws/hub.go:132-135 [PublishToUser, the eviction] *)
Fixpoint evict (h : Hub) (slow : list Z) : option Hub :=
  match slow with
  | [] => Some h
  | c :: slow => h ← Unregister (Close h c) c; evict h slow
  end.

(** ws/hub.go [Hub.PublishToUser] Without other goroutines in between. *)
Definition PublishToUser (h : Hub) (userID : Z) (channels : list string) (e : Envelope) : option Hub :=
  '(h, slow) ← publish_locked h userID channels e; evict h slow.

(** ws/client.go [Client.trySend] *)
Definition trySend (h : Hub) (c : Z) (e : Envelope) : option Hub :=
  match h_clients h !! c with
  | None => Some h
  | Some cl => if cl_gone cl then Some h
               else '(cl', _) ← try_send (h_buffer h) cl e; Some (with_clients h (<[c := cl']> (h_clients h)))
  end.

(** ws/hub.go [validChannelID] *)
Definition validChannelID (ch prefix : string) : bool :=
  match parse_int64 (trim_prefix ch prefix) with Some id => 0 <? id | None => false end.

(** ws/hub.go:142-152 [NormalizeChannels, the tests] *)
Definition channel_ok (ch : string) : bool :=
  if String.eqb ch "" then false
  else if negb (String.eqb ch ChannelAll) && negb (has_prefix ch "feed:") && negb (has_prefix ch "category:") then false
  else if has_prefix ch "feed:" && negb (validChannelID ch "feed:") then false
  else negb (has_prefix ch "category:" && negb (validChannelID ch "category:")).

(** ws/hub.go [NormalizeChannels] *)
Fixpoint normalize_from (seen : gset string) (inp : list string) : list string :=
  match inp with
  | [] => []
  | ch :: inp =>
      let ch := to_lower (trim_space ch) in
      if negb (channel_ok ch) then normalize_from seen inp
      else if bool_decide (ch ∈ seen) then normalize_from seen inp
      else ch :: normalize_from ({[ch]} ∪ seen) inp
  end.
Definition NormalizeChannels (inp : list string) : list string := normalize_from ∅ inp.

(** ws/client.go [Client.setSubscriptions] *)
Definition setSubscriptions (h : Hub) (c : Z) (channels : list string) : Hub :=
  with_clients h (alter (λ cl, set_subs cl (list_to_set channels)) c (h_clients h)).

Definition ack (channels : list string) : Envelope := mkEnvelope "subscribed" (DSubscribed channels).

(** ws/client.go:115-126 [readPump, a subscribe request] *)
Definition handle_subscribe (h : Hub) (c : Z) (channels : list string) : option Hub :=
  let channels := NormalizeChannels channels in
  trySend (setSubscriptions h c channels) c (ack channels).

(** ws/client.go [Client.writePump] One turn: a payload, the closed channel, or a
    write that fails ([ok] is false) and closes the connection. *)
Definition writePump (h : Hub) (c : Z) (ok : bool) : Hub :=
  match h_clients h !! c with
  | None => h
  | Some cl =>
      match cl_send cl with
      | e :: q =>
          if ok && negb (cl_closed cl)
          then with_clients h (<[c := set_wire cl q (cl_wire cl ++ [e])]> (h_clients h))
          else Close (with_clients h (<[c := set_wire cl q (cl_wire cl)]> (h_clients h))) c
      | [] => if cl_send_closed cl || negb ok then Close h c else h
      end
  end.

(** ** The publisher *)

(** ws/publisher.go [feedChannels] *)
Definition feedChannels (feedID : Z) (categoryID : option Z) : list string :=
  [ChannelAll; "feed:" +:+ format_int feedID]
  ++ match categoryID with
     | Some cat => if 0 <? cat then ["category:" +:+ format_int cat] else []
     | None => []
     end.

(** A call of [PublishToUser]. *)
Definition Publication : Type := Z * list string * Envelope.

(** ws/publisher.go [UnreadCounter] A failed count is [None]. *)
Record UnreadCounter := mkUnread {
  CountUnreadByFeed : Z → Z → option Z; CountUnreadByCategory : Z → Z → option Z; CountUnreadGlobalForUser : Z → option Z;
}.

Definition unread_event (d : EventData) : Envelope := mkEnvelope "unread_count_changed" d.

(** ws/publisher.go [Publisher.publishUnreadCounters] *)
Definition publishUnreadCounters (entries : UnreadCounter) (feed : FeedRow) (user : Z) : list Publication :=
  let fid := f_id feed in
  match CountUnreadByFeed entries user fid with
  | Some n => [(user, [ChannelAll; "feed:" +:+ format_int fid], unread_event (DFeedUnread fid n))]
  | None => []
  end ++
  match f_category_id feed with
  | Some cat =>
      if 0 <? cat then
        match CountUnreadByCategory entries user cat with
        | Some n => [(user, [ChannelAll; "category:" +:+ format_int cat], unread_event (DCategoryUnread cat n))]
        | None => []
        end
      else []
  | None => []
  end ++
  match CountUnreadGlobalForUser entries user with
  | Some n => [(user, [ChannelAll], unread_event (DGlobalUnread n))]
  | None => []
  end.

(** ws/publisher.go:66-78 [newEntryPayload] *)
Definition newEntryPayload (feed : FeedRow) (e : Entry) : EntryPayload :=
  mkEntryPayload (e_id e) (e_feed_id e) (f_category_id feed) (f_title feed) (e_title e) (e_url e) (e_author e)
    (e_published_at e).

(** ws/publisher.go [Publisher.PublishNewEntries] The calls, in their order. *)
Definition PublishNewEntries (entries : option UnreadCounter) (feed : FeedRow) (subs : list Subscription)
    (newEntries : list Entry) : list Publication :=
  match newEntries with
  | [] => []
  | _ =>
      subs ≫= λ sub,
        ((λ e, (sub_user_id sub, feedChannels (f_id feed) (f_category_id feed),
                mkEnvelope "new_entry" (DEntry (newEntryPayload feed e)))) <$> newEntries)
        ++ match entries with Some en => publishUnreadCounters en feed (sub_user_id sub) | None => [] end
  end.

(** ws/publisher.go [Publisher.PublishFeedStatusChanged] [subs] is [None] for a nil slice;
    [lister] is the store, [None] without one, and may fail. *)
Definition PublishFeedStatusChanged (h : Hub) (lister : option (Z → option (list Subscription))) (feed : Feed)
    (subs : option (list Subscription)) (err : option string) : list Publication :=
  if negb (HasClients h) then []
  else
    let row := feed_row feed in
    let ps := feed_ps feed in
    match (match subs with Some l => Some l | None => f ← lister; f (f_id row) end) with
    | None => []
    | Some subs =>
        let msg := default (ps_last_error ps) err in
        (λ sub, (sub_user_id sub, feedChannels (f_id row) (f_category_id row),
                 mkEnvelope "feed_status_changed"
                   (DStatus (mkStatusPayload (f_id row) (match err with None => true | _ => false end)
                      (ps_parsing_error_count ps) msg (ps_poll_paused ps) (f_manual_paused row)
                      (ps_last_checked_at ps) (ps_next_check_at ps))))) <$> subs
    end.

(** The calls on the hub, one after the other. *)
Definition publish_all (h : Hub) (pubs : list Publication) : option Hub :=
  foldl (λ oh '(u, chs, e), h ← oh; PublishToUser h u chs e) (Some h) pubs.

(** ** Executions *)

(** One operation of some goroutine.  A publisher is [OPublish] followed, for each slow
    client, by [OClose] and [OUnregister], with anything in between; so is a reader
    that ends. *)
Inductive Op :=
| ONew (userID : Z)
| ORegister (c : Z)
| OUnregister (c : Z)
| OClose (c : Z)
| OSetSubscriptions (c : Z) (channels : list string)
| OAck (c : Z) (channels : list string)
| OPublish (userID : Z) (channels : list string) (e : Envelope)
| OWrite (c : Z) (ok : bool).

Definition step (h : Hub) (op : Op) : option Hub :=
  match op with
  | ONew u => Some (NewUserClient h u)
  | ORegister c => Some (Register h c)
  | OUnregister c => Unregister h c
  | OClose c => Some (Close h c)
  | OSetSubscriptions c chs => Some (setSubscriptions h c (NormalizeChannels chs))
  | OAck c chs => trySend h c (ack chs)
  | OPublish u chs e => fst <$> publish_locked h u chs e
  | OWrite c ok => Some (writePump h c ok)
  end.

Definition run (h : Hub) (ops : list Op) : option Hub := foldl (λ oh op, h ← oh; step h op) (Some h) ops.

(** * Lemmas *)

(** A registered client is open; a client is gone exactly when its channel is closed; a
    queue is within the buffer. *)
Record Inv (h : Hub) : Prop := mkInv {
  inv_registered : ∀ c, c ∈ h_registered h → ∃ cl, h_clients h !! c = Some cl ∧ cl_gone cl = false;
  inv_gone : ∀ c cl, h_clients h !! c = Some cl → cl_send_closed cl = cl_gone cl;
  inv_buffer : ∀ c cl, h_clients h !! c = Some cl → Z.of_nat (length (cl_send cl)) <= h_buffer h;
  inv_fresh : ∀ c, h_next h <= c → h_clients h !! c = None;
  inv_pos : 0 < h_buffer h;
}.

(** What the loop of a publication does to one client. *)
Definition receives (userID : Z) (uniq : gset string) (cl : Client) : bool :=
  (UserID cl =? userID) && isSubscribed cl uniq.

Definition room (buffer : Z) (cl : Client) : bool := Z.of_nat (length (cl_send cl)) <? buffer.

Definition delivered (buffer userID : Z) (uniq : gset string) (e : Envelope) (cl : Client) : Client :=
  if receives userID uniq cl && room buffer cl then set_send cl (cl_send cl ++ [e]) else cl.

Definition is_slow (buffer userID : Z) (uniq : gset string) (m : gmap Z Client) (c : Z) : bool :=
  match m !! c with Some cl => receives userID uniq cl && negb (room buffer cl) | None => false end.

Lemma send_all_spec buffer userID uniq e ids m slow : NoDup ids →
  (∀ c cl, c ∈ ids → m !! c = Some cl → cl_send_closed cl = false) →
  ∃ m', send_all buffer userID uniq e ids m slow =
          Some (m', slow ++ filter (λ c, is_slow buffer userID uniq m c = true) ids) ∧
        ∀ c, m' !! c = if bool_decide (c ∈ ids) then delivered buffer userID uniq e <$> m !! c else m !! c.
Proof.
  revert m slow. induction ids as [|c ids IH]; intros m slow Hnd Hopen.
  { exists m. cbn. rewrite app_nil_r. done. }
  apply NoDup_cons in Hnd as [Hc Hnd].
  assert (∀ m' x, x ≠ c → m' !! x = m !! x → is_slow buffer userID uniq m' x = is_slow buffer userID uniq m x) as Hsl
    by (intros m' x _ Hx; unfold is_slow; by rewrite Hx).
  assert (∀ (m' : gmap Z Client) (slow' : list Z), (∀ x, x ≠ c → m' !! x = m !! x) →
    m' !! c = delivered buffer userID uniq e <$> m !! c →
    slow' = slow ++ (if is_slow buffer userID uniq m c then [c] else []) →
    ∃ m2, send_all buffer userID uniq e ids m' slow' =
            Some (m2, slow ++ filter (λ x, is_slow buffer userID uniq m x = true) (c :: ids)) ∧
          ∀ x, m2 !! x = if bool_decide (x ∈ c :: ids) then delivered buffer userID uniq e <$> m !! x else m !! x) as Hgo.
  { intros m' slow' Hm' Hmc ->. destruct (IH m' (slow ++ (if is_slow buffer userID uniq m c then [c] else [])) Hnd) as (m2 & -> & Hm2).
    { intros x cl Hx Hl. rewrite Hm' in Hl by congruence. apply (Hopen x); [by right|done]. }
    exists m2. split.
    - f_equal. f_equal. rewrite <-(assoc_L app). f_equal.
      assert (filter (λ x, is_slow buffer userID uniq m' x = true) ids = filter (λ x, is_slow buffer userID uniq m x = true) ids) as ->.
      { apply filter_ext_in. intros x Hx. assert (x ≠ c) by congruence. apply Hsl; auto. }
      destruct (is_slow buffer userID uniq m c) eqn:Hs; [by rewrite filter_cons_True|by rewrite filter_cons_False; [|rewrite Hs]].
    - intros x. rewrite Hm2. destruct (decide (x = c)) as [->|Hx].
      + rewrite bool_decide_false by done. rewrite (bool_decide_true (c ∈ c :: ids)) by left. done.
      + rewrite Hm' by done. rewrite (bool_decide_ext (x ∈ ids) (x ∈ c :: ids)); [done|]. rewrite elem_of_cons. naive_solver. }
  cbn [send_all].
  assert (is_slow buffer userID uniq m c = false → delivered buffer userID uniq e <$> m !! c = m !! c →
    ∃ m2, send_all buffer userID uniq e ids m slow =
            Some (m2, slow ++ filter (λ x, is_slow buffer userID uniq m x = true) (c :: ids)) ∧
          ∀ x, m2 !! x = if bool_decide (x ∈ c :: ids) then delivered buffer userID uniq e <$> m !! x else m !! x) as Hskip.
  { intros Hs Hd. apply Hgo; [done|by rewrite Hd|by rewrite Hs, app_nil_r]. }
  assert (is_slow buffer userID uniq m c =
    match m !! c with Some cl => receives userID uniq cl && negb (room buffer cl) | None => false end) as Hslow by done.
  destruct (m !! c) as [cl|] eqn:Hmc; [|by apply Hskip].
  pose proof (Hopen c cl (list_elem_of_here _ _) Hmc) as Hcl. cbn [fmap option_fmap option_map] in *.
  assert (delivered buffer userID uniq e cl =
    if receives userID uniq cl && room buffer cl then set_send cl (cl_send cl ++ [e]) else cl) as Hdel by done.
  unfold receives in Hslow, Hdel.
  destruct (UserID cl =? userID); cbn [negb andb] in *; [|apply Hskip; by rewrite ?Hdel].
  destruct (isSubscribed cl uniq); cbn [negb andb] in *; [|apply Hskip; by rewrite ?Hdel].
  unfold try_send. rewrite Hcl. unfold room in Hslow, Hdel.
  destruct (Z.of_nat (length (cl_send cl)) <? buffer); cbn [negb andb mbind option_bind] in *.
  - apply Hgo; [|by rewrite lookup_insert_eq, Hdel|by rewrite Hslow, app_nil_r].
    intros x Hx. by apply lookup_insert_ne.
  - apply Hgo; [done|by rewrite Hmc, Hdel|by rewrite Hslow].
Qed.

(** A change of clients that neither closes a channel nor overfills a queue. *)
Definition keeps (buffer : Z) (cl cl' : Client) : Prop :=
  UserID cl' = UserID cl ∧ cl_gone cl' = cl_gone cl ∧ cl_send_closed cl' = cl_send_closed cl ∧
  (Z.of_nat (length (cl_send cl)) <= buffer → Z.of_nat (length (cl_send cl')) <= buffer).

Lemma keeps_refl b cl : keeps b cl cl.
Proof. done. Qed.
#[export] Hint Resolve keeps_refl : go.

Lemma option_keeps_refl b (o : option Client) : option_Forall2 (keeps b) o o.
Proof. destruct o; constructor; done. Qed.

Lemma Inv_map h m' : Inv h → (∀ c, option_Forall2 (keeps (h_buffer h)) (h_clients h !! c) (m' !! c)) →
  Inv (with_clients h m').
Proof.
  intros [H1 H2 H3 H4 H5] Hm.
  assert (∀ c cl', m' !! c = Some cl' → ∃ cl, h_clients h !! c = Some cl ∧ keeps (h_buffer h) cl cl') as Hb.
  { intros c cl' Hl. specialize (Hm c). rewrite Hl in Hm. destruct (h_clients h !! c) as [cl|]; [|by inversion Hm].
    exists cl. split; [done|]. by inversion Hm. }
  split; cbn; [| | | |done].
  - intros c Hc. destruct (H1 c Hc) as (cl & Hl & Hg). specialize (Hm c). rewrite Hl in Hm.
    destruct (m' !! c) as [cl'|] eqn:Hl'; [|by inversion Hm]. exists cl'. split; [done|].
    destruct (Hb c cl' Hl') as (cl2 & Hl2 & _ & Hg2 & _). congruence.
  - intros c cl' Hl. destruct (Hb c cl' Hl) as (cl & Hl2 & _ & -> & -> & _). by apply (H2 c).
  - intros c cl' Hl. destruct (Hb c cl' Hl) as (cl & Hl2 & _ & _ & _ & Hk). by apply Hk, (H3 c).
  - intros c Hc. destruct (m' !! c) as [cl'|] eqn:Hl; [|done]. destruct (Hb c cl' Hl) as (cl & Hl2 & _).
    by rewrite (H4 c Hc) in Hl2.
Qed.

Lemma insert_keeps b (m : gmap Z Client) (c : Z) cl cl' : m !! c = Some cl → keeps b cl cl' →
  ∀ x, option_Forall2 (keeps b) (m !! x) (<[c := cl']> m !! x).
Proof.
  intros Hl Hk x. destruct (decide (x = c)) as [->|Hx].
  - rewrite Hl, lookup_insert_eq. by constructor.
  - rewrite lookup_insert_ne by done. apply option_keeps_refl.
Qed.

Lemma alter_keeps b (m : gmap Z Client) f (c : Z) : (∀ cl, keeps b cl (f cl)) → ∀ x, option_Forall2 (keeps b) (m !! x) (alter f c m !! x).
Proof.
  intros Hf x. destruct (decide (x = c)) as [->|Hx].
  - rewrite lookup_alter_eq. destruct (m !! c); constructor; auto.
  - rewrite lookup_alter_ne by done. apply option_keeps_refl.
Qed.

Lemma push_keeps b cl e : room b cl = true → keeps b cl (set_send cl (cl_send cl ++ [e])).
Proof. unfold room. intros H%Z.ltb_lt. split_and!; try done. cbn. rewrite length_app. simpl. lia. Qed.

Lemma delivered_keeps b u q e cl : keeps b cl (delivered b u q e cl).
Proof.
  unfold delivered. destruct (receives u q cl); [|done]. cbn. destruct (room b cl) eqn:Hr; [|done]. by apply push_keeps.
Qed.

Lemma isSubscribed_empty cl : isSubscribed cl ∅ = false.
Proof. unfold isSubscribed. rewrite (bool_decide_true (∅ ∩ _ = ∅)) by set_solver. by rewrite andb_false_r. Qed.

Lemma channel_set_empty_skip cl b u e : delivered b u ∅ e cl = cl.
Proof. unfold delivered, receives. by rewrite isSubscribed_empty, andb_false_r. Qed.

(** A publication under the lock. *)
Lemma publish_locked_spec h u chs e : Inv h →
  ∃ m slow, publish_locked h u chs e = Some (with_clients h m, slow) ∧
    (∀ c, m !! c = if (0 <? u) && bool_decide (c ∈ h_registered h)
                   then delivered (h_buffer h) u (channel_set chs) e <$> h_clients h !! c else h_clients h !! c) ∧
    (∀ c, c ∈ slow ↔ 0 < u ∧ c ∈ h_registered h ∧ is_slow (h_buffer h) u (channel_set chs) (h_clients h) c = true).
Proof.
  intros Hi. assert (h = with_clients h (h_clients h)) as Hh by by destruct h.
  unfold publish_locked. destruct (Z.leb_spec u 0).
  { exists (h_clients h), []. rewrite <-Hh. split_and!; [done| |].
    - intros c. by rewrite (proj2 (Z.ltb_ge 0 u)).
    - intros c. split; [intros Hc; by apply elem_of_nil in Hc|lia]. }
  rewrite (proj2 (Z.ltb_lt 0 u)) by done. cbn [andb].
  case_bool_decide as Hu.
  { exists (h_clients h), []. rewrite <-Hh, Hu. split_and!; [done| |].
    - intros c. case_bool_decide; [|done]. destruct (h_clients h !! c); [|done]. cbn. by rewrite channel_set_empty_skip.
    - intros c. split; [intros Hc; by apply elem_of_nil in Hc|]. intros (_ & _ & Hs). revert Hs. unfold is_slow.
      destruct (h_clients h !! c); [|done]. unfold receives. by rewrite isSubscribed_empty, andb_false_r. }
  destruct (send_all_spec (h_buffer h) u (channel_set chs) e (elements (h_registered h)) (h_clients h) []) as (m & -> & Hm).
  - apply NoDup_elements.
  - intros c cl Hc%elem_of_elements Hl. destruct (inv_registered h Hi c Hc) as (cl' & Hl' & Hg).
    rewrite (inv_gone h Hi c cl Hl). congruence.
  - eexists m, _. cbn [mbind option_bind app]. split_and!; [done| |].
    + intros c. rewrite Hm. by rewrite (bool_decide_ext _ _ (elem_of_elements (h_registered h) c)).
    + intros c. rewrite list_elem_of_filter, elem_of_elements. naive_solver.
Qed.

Lemma unregister_inv h c : Inv h → ∃ h', Unregister h c = Some h' ∧ Inv h' ∧ c ∉ h_registered h'.
Proof.
  intros Hi. unfold Unregister. case_bool_decide as Hc; cbn [negb]; [|by exists h].
  destruct (inv_registered h Hi c Hc) as (cl & Hl & Hg). rewrite Hl, (inv_gone h Hi c cl Hl), Hg.
  eexists. split; [done|]. split; [|cbn; set_solver]. destruct Hi as [H1 H2 H3 H4 H5]. split; cbn; [| | | |done].
  - intros x [Hx Hn]%elem_of_difference. destruct (H1 x Hx) as (cl' & ? & ?). exists cl'.
    rewrite lookup_insert_ne by set_solver. done.
  - intros x cl'. destruct (decide (x = c)) as [->|]; [rewrite lookup_insert_eq; by intros [= <-]|].
    rewrite lookup_insert_ne by done. apply H2.
  - intros x cl'. destruct (decide (x = c)) as [->|]; [rewrite lookup_insert_eq; intros [= <-]; cbn; by apply (H3 c)|].
    rewrite lookup_insert_ne by done. apply H3.
  - intros x Hx. rewrite lookup_insert_ne; [by apply H4|]. intros <-. by rewrite H4 in Hl.
Qed.

Lemma close_inv h c : Inv h → Inv (Close h c).
Proof. intros Hi. apply Inv_map; [done|]. apply alter_keeps. by intros cl. Qed.

Lemma trySend_inv h c e : Inv h → ∃ h', trySend h c e = Some h' ∧ Inv h'.
Proof.
  intros Hi. unfold trySend. destruct (h_clients h !! c) as [cl|] eqn:Hl; [|by exists h].
  destruct (cl_gone cl) eqn:Hg; [by exists h|]. unfold try_send. rewrite (inv_gone h Hi c cl Hl), Hg.
  fold (room (h_buffer h) cl). destruct (room (h_buffer h) cl) eqn:Hr; cbn; eexists; (split; [done|]);
    (apply Inv_map; [done|]); eapply insert_keeps; eauto using push_keeps with go.
Qed.

Lemma writePump_inv h c ok : Inv h → Inv (writePump h c ok).
Proof.
  intros Hi. unfold writePump. destruct (h_clients h !! c) as [cl|] eqn:Hl; [|done].
  destruct (cl_send cl) as [|e q] eqn:Hq; [destruct (_ || _); [by apply close_inv|done]|].
  assert (∀ w, keeps (h_buffer h) cl (set_wire cl q w)) as Hk by (intros w; split_and!; try done; cbn; rewrite Hq; cbn; lia).
  destruct (ok && _); [|apply close_inv]; (apply Inv_map; [done|]); by eapply insert_keeps.
Qed.

Lemma step_inv h op : Inv h → ∃ h', step h op = Some h' ∧ Inv h'.
Proof.
  intros Hi. destruct op as [u|c|c|c|c chs|c chs|u chs e|c ok]; cbn [step].
  - eexists; split; [done|]. destruct Hi as [H1 H2 H3 H4 H5]. unfold NewUserClient.
    assert (∀ x cl, h_clients h !! x = Some cl → x ≠ h_next h) as Hne.
    { intros x cl Hx ->. by rewrite H4 in Hx by lia. }
    split; cbn; [| | | |done].
    + intros x Hx. destruct (H1 x Hx) as (cl & Hl & Hg). exists cl. by rewrite lookup_insert_ne by (apply not_eq_sym; eauto).
    + intros x cl. destruct (decide (x = h_next h)) as [->|]; [rewrite lookup_insert_eq; by intros [= <-]|].
      rewrite lookup_insert_ne by done. apply H2.
    + intros x cl. destruct (decide (x = h_next h)) as [->|]; [rewrite lookup_insert_eq; intros [= <-]; cbn; lia|].
      rewrite lookup_insert_ne by done. apply H3.
    + intros x Hx. rewrite lookup_insert_ne by lia. apply H4. lia.
  - eexists; split; [done|]. unfold Register. destruct (h_clients h !! c) as [cl|] eqn:Hl; [|done].
    destruct (cl_gone cl) eqn:Hg; [done|]. destruct Hi as [H1 H2 H3 H4 H5]. split; cbn; auto.
    intros x [->%elem_of_singleton|Hx]%elem_of_union; eauto.
  - destruct (unregister_inv h c Hi) as (h' & ? & ? & _). eauto.
  - eauto using close_inv.
  - eexists; split; [done|]. apply Inv_map; [done|]. apply alter_keeps. by intros cl.
  - by apply trySend_inv.
  - destruct (publish_locked_spec h u chs e Hi) as (m & slow & -> & Hm & _). eexists; split; [done|].
    apply Inv_map; [done|]. intros c. rewrite Hm. destruct (_ && _); [|apply option_keeps_refl].
    destruct (h_clients h !! c); constructor. apply delivered_keeps.
  - eexists; split; [done|]. by apply writePump_inv.
Qed.

Lemma NewHub_inv b : Inv (NewHub b).
Proof.
  split; cbn; [set_solver| | |by intros; apply lookup_empty|destruct (Z.leb_spec b 0); lia];
    intros c cl; by rewrite lookup_empty.
Qed.

Lemma run_snoc h ops op : run h (ops ++ [op]) = h ← run h ops; step h op.
Proof. unfold run. by rewrite foldl_app. Qed.

Lemma run_inv b ops : ∃ h, run (NewHub b) ops = Some h ∧ Inv h.
Proof.
  induction ops as [|op ops IH] using rev_ind; [exists (NewHub b); split; [done|apply NewHub_inv]|].
  rewrite run_snoc. destruct IH as (h & -> & Hi). cbn. by apply step_inv.
Qed.

(** One client evicted. *)
Lemma evict_one h c : Inv h →
  ∃ h', Unregister (Close h c) c = Some h' ∧ Inv h' ∧ h_registered h' = h_registered h ∖ {[c]} ∧
    ∀ x, h_clients h' !! x = if decide (x = c) then
      (λ cl, if bool_decide (c ∈ h_registered h) then set_gone (set_closed cl) else set_closed cl) <$> h_clients h !! x
      else h_clients h !! x.
Proof.
  intros Hi. destruct (unregister_inv (Close h c) c (close_inv h c Hi)) as (h' & Hu & Hi' & _).
  exists h'. split; [done|]. split; [done|]. revert Hu. unfold Unregister. cbn [Close with_clients h_registered h_clients].
  case_bool_decide as Hc; cbn [negb].
  - destruct (inv_registered h Hi c Hc) as (cl & Hl & Hg). rewrite lookup_alter_eq, Hl. cbn.
    rewrite (inv_gone h Hi c cl Hl), Hg. intros [= <-]. cbn. split; [done|]. intros x. case_decide as Hx.
    + subst x. by rewrite lookup_insert_eq, Hl.
    + by rewrite lookup_insert_ne, lookup_alter_ne.
  - intros [= <-]. cbn. split; [set_solver|]. intros x. case_decide as Hx.
    + subst x. by rewrite lookup_alter_eq.
    + by rewrite lookup_alter_ne.
Qed.

Lemma evict_spec h slow : Inv h →
  ∃ h', evict h slow = Some h' ∧ Inv h' ∧ (∀ c, c ∈ h_registered h' ↔ c ∈ h_registered h ∧ c ∉ slow) ∧
    ∀ c cl, h_clients h !! c = Some cl → ∃ cl', h_clients h' !! c = Some cl' ∧
      (c ∉ slow → cl' = cl) ∧
      (c ∈ slow → cl_closed cl' = true ∧ (c ∈ h_registered h ∨ cl_send_closed cl = true → cl_send_closed cl' = true)).
Proof.
  revert h. induction slow as [|c0 slow IH]; intros h Hi.
  { exists h. cbn. split_and!; [done|done|set_solver|]. intros c cl Hl. exists cl. split_and!; [done|done|].
    intros Hc. by apply elem_of_nil in Hc. }
  cbn [evict]. destruct (evict_one h c0 Hi) as (h1 & -> & Hi1 & Hr1 & Hc1). cbn [mbind option_bind].
  destruct (IH h1 Hi1) as (h' & -> & Hi' & Hr & Hc). exists h'. split_and!; [done|done| |].
  { intros c. rewrite Hr, Hr1. set_solver. }
  intros c cl Hl. specialize (Hc1 c). rewrite Hl in Hc1. case_decide as Hd.
  - subst c0. cbn in Hc1. destruct (Hc c _ Hc1) as (cl' & Hl' & Hn & Hs). exists cl'. split; [done|]. split; [set_solver|].
    intros _. rewrite Hr1 in Hs. destruct (decide (c ∈ slow)) as [Hin|Hnin].
    + destruct (Hs Hin) as [? Hs']. split; [done|]. intros Hx. apply Hs'. right. case_bool_decide; [done|].
      by destruct Hx.
    + rewrite (Hn Hnin). case_bool_decide; (split; [done|]); [done|]. by intros [?|?].
  - destruct (Hc c cl Hc1) as (cl' & Hl' & Hn & Hs). exists cl'. split; [done|]. split; [set_solver|].
    intros [?|Hin]%elem_of_cons; [done|]. destruct (Hs Hin) as [? Hs']. split; [done|]. intros [Hx|Hx]; apply Hs'; [|by right].
    left. rewrite Hr1. set_solver.
Qed.

(** Where a message of a client after a step comes from. *)
Definition messages (cl : Client) : list Envelope := cl_wire cl ++ cl_send cl.

Definition origin (h : Hub) (op : Op) (c : Z) (cl : Client) (m : Envelope) : Prop :=
  (∃ chs, op = OAck c chs ∧ m = ack chs) ∨
  (∃ chs, op = OPublish (UserID cl) chs m ∧ 0 < UserID cl ∧
     ∃ cl0, h_clients h !! c = Some cl0 ∧ UserID cl0 = UserID cl ∧ isSubscribed cl0 (channel_set chs) = true).

(** The step adds no message to a client. *)
Definition quiet (m m' : gmap Z Client) : Prop :=
  ∀ c cl', m' !! c = Some cl' → (messages cl' = []) ∨
    ∃ cl, m !! c = Some cl ∧ UserID cl = UserID cl' ∧ ∀ e, e ∈ messages cl' → e ∈ messages cl.

Lemma quiet_refl m : quiet m m.
Proof. intros c cl Hl. right. by exists cl. Qed.

Lemma quiet_alter m f c : (∀ cl, UserID (f cl) = UserID cl ∧ ∀ e, e ∈ messages (f cl) → e ∈ messages cl) →
  quiet m (alter f c m).
Proof.
  intros Hf x cl'. destruct (decide (x = c)) as [->|Hx].
  - rewrite lookup_alter_eq. destruct (m !! c) as [cl|]; [|done]. intros [= <-]. right. exists cl.
    destruct (Hf cl). auto.
  - rewrite lookup_alter_ne by done. intros Hl. right. by exists cl'.
Qed.

Lemma quiet_insert m c cl cl1 : m !! c = Some cl → UserID cl1 = UserID cl →
  (∀ e, e ∈ messages cl1 → e ∈ messages cl) → quiet m (<[c := cl1]> m).
Proof.
  intros Hl Hu Hm x cl'. destruct (decide (x = c)) as [->|Hx].
  - rewrite lookup_insert_eq. intros [= <-]. right. eauto.
  - rewrite lookup_insert_ne by done. intros Hx'. right. by exists cl'.
Qed.

Lemma quiet_trans m1 m2 m3 : quiet m1 m2 → quiet m2 m3 → quiet m1 m3.
Proof.
  intros H12 H23 c cl3 Hl3. destruct (H23 c cl3 Hl3) as [?|(cl2 & Hl2 & Hu2 & Hm2)]; [by left|].
  destruct (H12 c cl2 Hl2) as [He|(cl1 & Hl1 & Hu1 & Hm1)].
  - left. destruct (messages cl3) as [|e l] eqn:E; [done|]. exfalso. specialize (Hm2 e (list_elem_of_here _ _)).
    rewrite He in Hm2. by apply elem_of_nil in Hm2.
  - right. exists cl1. split_and!; [done|congruence|auto].
Qed.

Lemma step_quiet h op h' : step h op = Some h' →
  match op with OAck _ _ | OPublish _ _ _ => True | _ => quiet (h_clients h) (h_clients h') end.
Proof.
  destruct op as [u|c|c|c|c chs|c chs|u chs e|c ok]; cbn [step]; try done.
  - intros [= <-]. intros x cl'. cbn. destruct (decide (x = h_next h)) as [->|].
    + rewrite lookup_insert_eq. intros [= <-]. by left.
    + rewrite lookup_insert_ne by done. apply quiet_refl.
  - intros [= <-]. unfold Register. destruct (h_clients h !! c) as [cl|]; [|apply quiet_refl].
    destruct (cl_gone cl); apply quiet_refl.
  - unfold Unregister. destruct (negb _); [intros [= <-]; apply quiet_refl|].
    destruct (h_clients h !! c) as [cl|] eqn:Hl; [|intros [= <-]; apply quiet_refl].
    destruct (cl_send_closed cl); [done|]. intros [= <-]. cbn. by apply (quiet_insert _ c cl).
  - intros [= <-]. cbn. by apply quiet_alter.
  - intros [= <-]. cbn. by apply quiet_alter.
  - intros [= <-]. unfold writePump. destruct (h_clients h !! c) as [cl|] eqn:Hl; [|apply quiet_refl].
    destruct (cl_send cl) as [|e q] eqn:Hq; [destruct (_ || _); [by apply quiet_alter|apply quiet_refl]|].
    assert (∀ w, (∀ x, x ∈ w → x ∈ cl_wire cl ∨ x = e) →
      quiet (h_clients h) (<[c := set_wire cl q w]> (h_clients h))) as Hw.
    { intros w Hw. apply (quiet_insert _ c cl); [done|done|]. intros x. unfold messages. cbn. rewrite Hq, !elem_of_app.
      intros [Hx|Hx]; [destruct (Hw x Hx) as [?| ->]; [by left|right; left]|right; by right]. }
    destruct (ok && _); cbn.
    + apply Hw. intros x [?|?%list_elem_of_singleton]%elem_of_app; auto.
    + apply (quiet_trans _ (<[c := set_wire cl q (cl_wire cl)]> (h_clients h))); [apply Hw; auto|]. by apply quiet_alter.
Qed.

Lemma step_origin h op h' c cl' m : Inv h → step h op = Some h' → h_clients h' !! c = Some cl' → m ∈ messages cl' →
  (∃ cl, h_clients h !! c = Some cl ∧ UserID cl = UserID cl' ∧ m ∈ messages cl) ∨ origin h op c cl' m.
Proof.
  intros Hi Hs Hl Hm. pose proof (step_quiet h op h' Hs) as Hq.
  assert (quiet (h_clients h) (h_clients h') →
    (∃ cl, h_clients h !! c = Some cl ∧ UserID cl = UserID cl' ∧ m ∈ messages cl) ∨ origin h op c cl' m) as Hquiet.
  { intros Hqq. left. destruct (Hqq c cl' Hl) as [He|(cl & ? & ? & ?)]; [|eauto].
    rewrite He in Hm. by apply elem_of_nil in Hm. }
  assert (∀ cl e, m ∈ messages (set_send cl (cl_send cl ++ [e])) → m ∈ messages cl ∨ m = e) as Hpush.
  { intros cl e. unfold messages. cbn. rewrite !elem_of_app, list_elem_of_singleton. tauto. }
  destruct op as [| | | | |c0 chs|u chs e|]; try (by apply Hquiet).
  - cbn [step] in Hs. unfold trySend in Hs. destruct (h_clients h !! c0) as [cl|] eqn:Hl0;
      [|injection Hs as <-; apply Hquiet, quiet_refl].
    destruct (cl_gone cl); [injection Hs as <-; apply Hquiet, quiet_refl|].
    unfold try_send in Hs. destruct (cl_send_closed cl); [done|].
    destruct (_ <? _); injection Hs as <-; [|apply Hquiet; by apply (quiet_insert _ c0 cl)].
    cbn in Hl. destruct (decide (c = c0)) as [->|Hc].
    + rewrite lookup_insert_eq in Hl. injection Hl as <-. apply Hpush in Hm as [Hm| ->]; [left; by exists cl|].
      right. left. by exists chs.
    + rewrite lookup_insert_ne in Hl by done. left. by exists cl'.
  - cbn [step] in Hs. destruct (publish_locked_spec h u chs e Hi) as (m' & slow & Hp & Hmm & _). rewrite Hp in Hs.
    injection Hs as <-. cbn in Hl. rewrite Hmm in Hl.
    destruct (0 <? u) eqn:Hu; cbn in Hl; [|left; by exists cl'].
    case_bool_decide; [|left; by exists cl'].
    destruct (h_clients h !! c) as [cl|] eqn:Hl0; [|done]. injection Hl as <-.
    unfold delivered in *. destruct (receives u (channel_set chs) cl && room (h_buffer h) cl) eqn:Hr; [|left; by exists cl].
    apply Hpush in Hm as [Hm| ->]; [left; by exists cl|]. right. right.
    apply andb_true_iff in Hr as [Hr _]. unfold receives in Hr. apply andb_true_iff in Hr as [Huid Hsub].
    apply Z.eqb_eq in Huid. exists chs. cbn. rewrite Huid. split_and!; [done|lia|]. exists cl. done.
Qed.

(** * Theorems *)

(** Tenant isolation: in every interleaving of connects, subscriptions, publications,
    evictions and writes, no operation sends on or closes a closed channel (a panic
    that would end the process), and every message queued for a client or written to
    its connection is the acknowledgement of its own request, or was published to
    that client's user on a channel the client had subscribed to at that moment. *)
Lemma hub_tenant_isolation buffer ops :
  ∃ h, run (NewHub buffer) ops = Some h ∧
  ∀ c cl m, h_clients h !! c = Some cl → m ∈ messages cl →
    (∃ chs, m = ack chs ∧ OAck c chs ∈ ops) ∨
    (∃ pre post chs h0 cl0, ops = pre ++ OPublish (UserID cl) chs m :: post ∧ run (NewHub buffer) pre = Some h0 ∧
       h_clients h0 !! c = Some cl0 ∧ UserID cl0 = UserID cl ∧ isSubscribed cl0 (channel_set chs) = true).
Proof.
  induction ops as [|op ops IH] using rev_ind.
  { exists (NewHub buffer). split; [done|]. intros c cl m. cbn. by rewrite lookup_empty. }
  destruct IH as (h & Hr & IH). destruct (run_inv buffer ops) as (h0 & Hr0 & Hi).
  rewrite Hr0 in Hr. injection Hr as ->. destruct (step_inv h op Hi) as (h' & Hs & _).
  exists h'. rewrite run_snoc, Hr0. split; [done|]. intros c cl m Hl Hm.
  destruct (step_origin h op h' c cl m Hi Hs Hl Hm) as [(cl0 & Hl0 & Hu & Hm0)|[(chs & -> & ->)|(chs & -> & _ & cl0 & Hc)]].
  - destruct (IH c cl0 m Hl0 Hm0) as [(chs & ? & ?)|(pre & post & chs & h1 & cl1 & -> & Hpre & Hx)].
    + left. exists chs. rewrite elem_of_app. auto.
    + right. exists pre, (post ++ [op]), chs, h1, cl1. rewrite <-(assoc_L app). rewrite <-Hu. auto.
  - left. exists chs. rewrite elem_of_app, list_elem_of_singleton. auto.
  - right. exists ops, [], chs, h, cl0. auto.
Qed.

(** A publication reaches every registered client of the user that is subscribed to
    one of its channels -- the event joins its queue -- or, when the queue is full, the
    client is evicted: unregistered, its channel closed and its connection closed;
    every other client keeps its queue, and the publisher never waits. *)
Lemma publish_delivers_or_evicts buffer ops h userID channels e :
  run (NewHub buffer) ops = Some h →
  ∃ h', PublishToUser h userID channels e = Some h' ∧
  ∀ c cl, h_clients h !! c = Some cl →
    let target := (0 <? userID) && bool_decide (c ∈ h_registered h) && receives userID (channel_set channels) cl in
    ∃ cl', h_clients h' !! c = Some cl' ∧
      (target = false → cl' = cl ∧ (c ∈ h_registered h' ↔ c ∈ h_registered h)) ∧
      (target = true → room (h_buffer h) cl = true → cl_send cl' = cl_send cl ++ [e] ∧ c ∈ h_registered h') ∧
      (target = true → room (h_buffer h) cl = false →
         c ∉ h_registered h' ∧ cl_send_closed cl' = true ∧ cl_closed cl' = true).
Proof.
  intros Hr. destruct (run_inv buffer ops) as (h0 & Hr0 & Hi). rewrite Hr0 in Hr. injection Hr as ->.
  destruct (publish_locked_spec h userID channels e Hi) as (m & slow & Hp & Hm & Hslow).
  assert (Inv (with_clients h m)) as Hi1.
  { destruct (step_inv h (OPublish userID channels e) Hi) as (h1 & Hs & Hi1). cbn [step] in Hs. rewrite Hp in Hs.
    by injection Hs as <-. }
  unfold PublishToUser. rewrite Hp. cbn [mbind option_bind].
  destruct (evict_spec (with_clients h m) slow Hi1) as (h' & He & _ & Hreg & Hev). exists h'. split; [done|].
  intros c cl Hl. cbv zeta. specialize (Hm c). rewrite Hl in Hm. specialize (Hslow c). specialize (Hreg c).
  unfold is_slow in Hslow. rewrite Hl in Hslow. cbn [with_clients h_registered] in Hreg.
  set (q := channel_set channels) in *.
  assert (∃ cl1, m !! c = Some cl1 ∧ cl1 = if (0 <? userID) && bool_decide (c ∈ h_registered h)
            then delivered (h_buffer h) userID q e cl else cl) as (cl1 & Hm1 & Hcl1).
  { rewrite Hm. destruct (_ && _); eauto. }
  destruct (Hev c cl1 Hm1) as (cl' & Hl' & Hn & Hs). exists cl'. split; [done|].
  unfold delivered in Hcl1. destruct (Z.ltb_spec 0 userID) as [Hu|Hu]; cbn [andb] in *.
  - destruct (bool_decide (c ∈ h_registered h)) eqn:Hc; cbn [andb] in *; rewrite ?bool_decide_eq_true, ?bool_decide_eq_false in Hc.
    + destruct (receives userID q cl); cbn [andb] in *.
      * destruct (room (h_buffer h) cl); cbn [negb] in *; (split_and!; [done| |]); try done; intros _ _.
        -- rewrite Hn by naive_solver. rewrite Hcl1. naive_solver.
        -- assert (c ∈ slow) as Hin by naive_solver. destruct (Hs Hin) as [? Hs']. naive_solver.
      * split_and!; [|done|done]. intros _. rewrite Hn by naive_solver. naive_solver.
    + split_and!; [|done|done]. intros _. rewrite Hn by naive_solver. naive_solver.
  - split_and!; [|done|done]. intros _. rewrite Hn by (rewrite Hslow; lia). split; [done|]. rewrite Hreg, Hslow. naive_solver lia.
Qed.

Lemma publish_delivers_or_evicts_witness :
  let ops := [ONew 7; ORegister 1; OSetSubscriptions 1 ["feed:5"]; ONew 8; ORegister 2; OSetSubscriptions 2 ["all"]] in
  let e := mkEnvelope "new_entry" (DGlobalUnread 3) in
  ∃ h h', run (NewHub 1) ops = Some h ∧ PublishToUser h 7 (feedChannels 5 None) e = Some h' ∧
    cl_send <$> h_clients h' !! 1 = Some [e] ∧ cl_send <$> h_clients h' !! 2 = Some [].
Proof.
  cbv zeta.
  destruct (run (NewHub 1) [ONew 7; ORegister 1; OSetSubscriptions 1 ["feed:5"%string]; ONew 8; ORegister 2;
                            OSetSubscriptions 2 ["all"%string]]) as [h|] eqn:Hr; [|vm_compute in Hr; discriminate].
  destruct (publish_delivers_or_evicts 1 _ h 7 (feedChannels 5 None) (mkEnvelope "new_entry" (DGlobalUnread 3)) Hr)
    as (h' & Hp & _).
  exists h, h'. split; [done|]. split; [done|].
  vm_compute in Hr. injection Hr as <-. vm_compute in Hp. injection Hp as <-. vm_compute. done.
Defined.

(** ** Channels *)

Lemma normalize_from_spec inp seen : NoDup (normalize_from seen inp) ∧
  ∀ ch, ch ∈ normalize_from seen inp ↔
    ch ∉ seen ∧ channel_ok ch = true ∧ ch ∈ (λ c, to_lower (trim_space c)) <$> inp.
Proof.
  revert seen. induction inp as [|c inp IH]; intros seen; cbn [normalize_from fmap list_fmap].
  { split; [constructor|]. set_solver. }
  destruct (channel_ok (to_lower (trim_space c))) eqn:Hok; cbn [negb].
  - case_bool_decide as Hs.
    + destruct (IH seen) as [Hn He]. split; [done|]. intros ch. rewrite He, elem_of_cons. naive_solver.
    + destruct (IH ({[to_lower (trim_space c)]} ∪ seen)) as [Hn He]. split.
      * constructor; [|done]. rewrite He. set_solver.
      * intros ch. rewrite !elem_of_cons, He. destruct (decide (ch = to_lower (trim_space c))); set_solver.
  - destruct (IH seen) as [Hn He]. split; [done|]. intros ch. rewrite He, elem_of_cons.
    split; [naive_solver|]. intros (? & ? & [->|?]); [congruence|auto].
Qed.

(** The channels a client may hold: each once, in lower case, [all] or a positive id. *)
Lemma normalize_channels_spec inp : NoDup (NormalizeChannels inp) ∧
  ∀ ch, ch ∈ NormalizeChannels inp ↔ channel_ok ch = true ∧ ∃ raw, raw ∈ inp ∧ ch = to_lower (trim_space raw).
Proof.
  destruct (normalize_from_spec inp ∅) as [Hn He]. split; [done|]. intros ch. unfold NormalizeChannels.
  rewrite He, list_elem_of_fmap. set_solver.
Qed.
