(* ===== verification/Retention.v ===== *)
(** Retention ([storage/cleanup.go], [storage/sessions.go], [worker/cleanup.go]):
    old rows are deleted in batches of 5000 until a batch is short.

    The tables are those of the store files; [audit_log] and [sessions] are kept as
    the one column the cleanup compares, [filter_matches] with the entry of each match
    as well: the deletion of an entry takes its matches
    (migrations/0005_filters.sql), as it takes its marks and labels.  A delivery log
    keeps the number of its entry and stays (migrations/0066_webhook_logs_detached.sql).  The time
    columns that only the cleanup reads ([created_at], [updated_at],
    [first_seen_at]) and [feeds.entry_retention_days] are functions of the key in
    [Ages].  A day of PostgreSQL is 24 hours: the session is in UTC. *)

From S2P Require Import Prelude GoStrings Types FeedStore WebhookStore EntryStore PollLog.

(** * Deleting in batches *)

(** storage/cleanup.go:9-9 [deleteBatchSize] *)
Definition deleteBatchSize : nat := Z.to_nat 5000.

Section Batches.
Context {S K : Type} `{Countable K}.
(** The rows a statement may take, what taking some of them leaves, and the order in
    which PostgreSQL meets them. *)
Context (doomed : S → gset K) (remove : S → gset K → S) (order : list K → list K).

Definition batch (s : S) : gset K := list_to_set (take deleteBatchSize (order (elements (doomed s)))).

(** storage/cleanup.go [PostgresStore.deleteInBatches] [fails i] is a cancelled context or a
    failing statement in round [i].  The rows deleted and whether it ended well. *)
Fixpoint deleteInBatches (fuel i : nat) (fails : nat → bool) (s : S) (total : Z) : option (S * Z * bool) :=
  match fuel with
  | O => None
  | Datatypes.S fuel =>
      if fails i then Some (s, total, false)
      else
        let r := batch s in
        let s := remove s r in
        let n := Z.of_nat (size r) in
        let total := total + n in
        if n <? Z.of_nat deleteBatchSize then Some (s, total, true)
        else deleteInBatches fuel (Datatypes.S i) fails s total
  end.

#[local] Opaque deleteBatchSize batch.

(** A row once doomed stays so, and deleting doomed rows dooms no other. *)
Record BatchLaws : Prop := mkBatchLaws {
  bl_order : ∀ l, order l ≡ₚ l;
  bl_stable : ∀ s R, R ⊆ doomed s → doomed (remove s R) = doomed s ∖ R;
  bl_none : ∀ s, remove s ∅ = s;
  bl_compose : ∀ s R R', remove (remove s R) R' = remove s (R ∪ R');
}.

Hypothesis laws : BatchLaws.

Lemma batch_sub s : batch s ⊆ doomed s ∧ size (batch s) = (deleteBatchSize `min` size (doomed s))%nat.
Proof.
  Transparent batch. unfold batch. Opaque batch. split.
  - intros k Hk%elem_of_list_to_set. apply elem_of_take in Hk as (j & Hj & _).
    apply list_elem_of_lookup_2 in Hj. rewrite (bl_order laws) in Hj. by apply elem_of_elements.
  - rewrite size_list_to_set.
    + by rewrite length_take, (bl_order laws).
    + eapply sublist_NoDup; [|apply sublist_take]. rewrite (bl_order laws). apply NoDup_elements.
Qed.

(** With fuel for the rows there are, the loop ends; what it has deleted are doomed
    rows, all of them when it reports success. *)
Lemma batches_spec fuel i fails s total : (size (doomed s) < deleteBatchSize * fuel)%nat →
  ∃ R ok, deleteInBatches fuel i fails s total = Some (remove s R, total + Z.of_nat (size R), ok) ∧
    R ⊆ doomed s ∧ (ok = true → R = doomed s) ∧ ((∀ j, (i <= j)%nat → fails j = false) → ok = true).
Proof.
  revert i s total. induction fuel as [|fuel IH]; intros i s total Hf; [lia|]. cbn [deleteInBatches].
  destruct (fails i) eqn:Hi.
  { exists ∅, false. rewrite (bl_none laws), size_empty, Z.add_0_r. split_and!; [done|set_solver|done|].
    intros H'. by rewrite H' in Hi. }
  destruct (batch_sub s) as [Hsub Hsz].
  destruct (Z.ltb_spec (Z.of_nat (size (batch s))) (Z.of_nat deleteBatchSize)).
  - exists (batch s), true. split; [reflexivity|]. split; [exact Hsub|]. split; [|reflexivity].
    intros _. apply set_subseteq_size_eq; [exact Hsub|lia].
  - pose proof (bl_stable laws s (batch s) Hsub) as Hst.
    destruct (IH (Datatypes.S i) (remove s (batch s)) (total + Z.of_nat (size (batch s)))) as (R & ok & -> & HR & Hok & Hall).
    { rewrite Hst, size_difference by done. lia. }
    rewrite Hst in HR, Hok. exists (batch s ∪ R), ok. rewrite (bl_compose laws). split_and!.
    + f_equal. f_equal. f_equal. rewrite size_union by set_solver. lia.
    + set_solver.
    + intros Ho. rewrite (Hok Ho). apply union_difference_L in Hsub. by rewrite <-Hsub.
    + intros Hj. apply Hall. intros j ?. apply Hj. lia.
Qed.
End Batches.

(** * The tables *)

(** Columns only the cleanup reads, by key. *)
Record Ages := mkAges {
  entry_created_at : Z → Z;               (* entries.created_at *)
  user_entry_updated_at : Z * Z → Z;      (* user_entries.updated_at *)
  log_created_at : Z → Z;                 (* webhook_logs.created_at *)
  dedup_first_seen_at : Z * string → Z;   (* feed_entry_dedup.first_seen_at *)
  entry_retention_days : Z → option Z;    (* feeds.entry_retention_days *)
}.

Record CleanDb := mkCleanDb {
  cd_feeds : FeedDb; cd_hooks : HookDb; cd_entries : EntryDb; cd_poll_log : PollLogDb;
  cd_filter_matches : gmap Z (Z * Z);     (* id ↦ entry_id, matched_at *)
  cd_audit_log : gmap Z Z;                (* id ↦ at *)
  cd_sessions : gmap Z Z;                 (* id ↦ expires_at *)
}.

Definition with_ce db e := mkCleanDb (cd_feeds db) (cd_hooks db) e (cd_poll_log db) (cd_filter_matches db) (cd_audit_log db) (cd_sessions db).
Definition with_ch db h := mkCleanDb (cd_feeds db) h (cd_entries db) (cd_poll_log db) (cd_filter_matches db) (cd_audit_log db) (cd_sessions db).
Definition with_cp db p := mkCleanDb (cd_feeds db) (cd_hooks db) (cd_entries db) p (cd_filter_matches db) (cd_audit_log db) (cd_sessions db).
Definition with_cf db m := mkCleanDb (cd_feeds db) (cd_hooks db) (cd_entries db) (cd_poll_log db) m (cd_audit_log db) (cd_sessions db).
Definition with_ca db m := mkCleanDb (cd_feeds db) (cd_hooks db) (cd_entries db) (cd_poll_log db) (cd_filter_matches db) m (cd_sessions db).
Definition with_cs db m := mkCleanDb (cd_feeds db) (cd_hooks db) (cd_entries db) (cd_poll_log db) (cd_filter_matches db) (cd_audit_log db) m.

(** [DELETE FROM t WHERE id IN r]. *)
Definition drop_keys {K V} `{Countable K} (m : gmap K V) (r : gset K) : gmap K V := filter (λ kv, kv.1 ∉ r) m.

(** [filter_matches] without the rows [ids] and without those of [entries]. *)
Definition without_matches (m : gmap Z (Z * Z)) (ids entries : gset Z) : gmap Z (Z * Z) :=
  filter (λ kv, kv.1 ∉ ids ∧ kv.2.1 ∉ entries) m.

(** The keys of the rows that satisfy [p]. *)
Definition keys_where {K V} `{Countable K} (p : K → V → Prop) `{∀ k v, Decision (p k v)} (m : gmap K V) : gset K :=
  dom (filter (λ kv, p kv.1 kv.2) m).

(** The row's time is before [t]. *)
Definition older {K V} (at_ : K → V → Z) (t : Z) (k : K) (v : V) : Prop := at_ k v < t.
#[export] Instance older_dec {K V} at_ t (k : K) (v : V) : Decision (older at_ t k v).
Proof. unfold older. apply _. Defined.

Section Cleanup.
Context (ages : Ages) (order : ∀ K : Type, list K → list K).

(** ** The statements *)

(** A removal of the entry by the user, older than [before]. *)
Definition removed_by (db : EntryDb) (before id user : Z) : Prop :=
  match ed_user db !! (id, user) with
  | Some ue => ue_removed ue = true ∧ user_entry_updated_at ages (id, user) < before
  | None => False
  end.

#[export] Instance removed_by_dec db before id user : Decision (removed_by db before id user).
Proof. unfold removed_by. destruct (ed_user db !! (id, user)); apply _. Defined.

Definition starred (db : EntryDb) (id : Z) : Prop := map_Exists (λ k ue, k.1 = id ∧ ue_starred ue = true) (ed_user db).

(** storage/cleanup.go:168-182 [purgeRemovedEntries, entries every subscriber removed] *)
Definition abandoned (fdb : FeedDb) (db : EntryDb) (before : Z) (id : Z) (e : EntryRow) : Prop :=
  map_Exists (λ k ue, k.1 = id ∧ removed_by db before id k.2) (ed_user db) ∧
  map_Exists (λ k _, k.2 = er_feed_id e) (fd_subs fdb) ∧
  ¬ map_Exists (λ k _, k.2 = er_feed_id e ∧ ¬ removed_by db before id k.1) (fd_subs fdb) ∧
  ¬ starred db id.

(** storage/cleanup.go:186-188 [purgeRemovedEntries, stripped entries] *)
Definition stripped (before : Z) (e : EntryRow) : Prop :=
  match er_removed_at e with Some t => t < before | None => False end.

(** Older than the retention of its feed. *)
Definition past_retention (fdb : FeedDb) (now feed t : Z) : Prop :=
  match fd_feeds fdb !! feed, entry_retention_days ages feed with
  | Some _, Some days => t < now - days * 24 * hour
  | _, _ => False
  end.

(** storage/cleanup.go:109-119 [RunRetentionCleanup, entries past their feed's retention] *)
Definition expired (fdb : FeedDb) (db : EntryDb) (now : Z) (id : Z) (e : EntryRow) : Prop :=
  past_retention fdb now (er_feed_id e) (entry_created_at ages id) ∧ ¬ starred db id.

#[export] Instance starred_dec db id : Decision (starred db id).
Proof. unfold starred. apply _. Defined.
#[export] Instance abandoned_dec fdb db before id e : Decision (abandoned fdb db before id e).
Proof. unfold abandoned. apply _. Defined.
#[export] Instance stripped_dec before e : Decision (stripped before e).
Proof. unfold stripped. destruct (er_removed_at e); apply _. Defined.
#[export] Instance past_retention_dec fdb now feed t : Decision (past_retention fdb now feed t).
Proof. unfold past_retention. destruct (fd_feeds fdb !! feed), (entry_retention_days ages feed); apply _. Defined.
#[export] Instance expired_dec fdb db now id e : Decision (expired fdb db now id e).
Proof. unfold expired. apply _. Defined.

(** The newest poll row of the feed. *)
Definition newest_poll (db : PollLogDb) (id feed : Z) : Prop :=
  ¬ map_Exists (λ j l, pl_feed_id l = feed ∧ id < j) (pd_rows db).

(** storage/cleanup.go:74-83 [RunRetentionCleanup, old poll rows] *)
Definition old_poll (db : PollLogDb) (before : Z) (id : Z) (l : FeedPollLogEntry) : Prop :=
  pl_at l < before ∧ ¬ newest_poll db id (pl_feed_id l).

#[export] Instance newest_poll_dec db id feed : Decision (newest_poll db id feed).
Proof. unfold newest_poll. apply _. Defined.
#[export] Instance old_poll_dec db before id l : Decision (old_poll db before id l).
Proof. unfold old_poll. apply _. Defined.

(** [DELETE FROM entries WHERE id IN r]. *)
Definition without_entries (db : EntryDb) (r : gset Z) : EntryDb := delete_entries db (λ i, i ∈ r).

(** With the rows that go with an entry: its marks, labels and, in their own table, the matches of filters. *)
Definition drop_entries (db : CleanDb) (r : gset Z) : CleanDb :=
  with_cf (with_ce db (without_entries (cd_entries db) r)) (without_matches (cd_filter_matches db) ∅ r).
Definition drop_logs (db : CleanDb) (r : gset Z) : CleanDb :=
  with_ch db (with_logs (cd_hooks db) (drop_keys (hd_logs (cd_hooks db)) r)).
Definition drop_matches (db : CleanDb) (r : gset Z) : CleanDb := with_cf db (without_matches (cd_filter_matches db) r ∅).
Definition drop_polls (db : CleanDb) (r : gset Z) : CleanDb :=
  with_cp db (mkPollLogDb (drop_keys (pd_rows (cd_poll_log db)) r) (pd_next_id (cd_poll_log db))).
Definition drop_audit (db : CleanDb) (r : gset Z) : CleanDb := with_ca db (drop_keys (cd_audit_log db) r).
Definition drop_sessions (db : CleanDb) (r : gset Z) : CleanDb := with_cs db (drop_keys (cd_sessions db) r).
Definition drop_dedup (db : CleanDb) (r : gset (Z * string)) : CleanDb :=
  with_ce db (with_dedup (cd_entries db) (ed_dedup (cd_entries db) ∖ r)).

Definition abandoned_ids before db := keys_where (abandoned (cd_feeds db) (cd_entries db) before) (ed_entries (cd_entries db)).
Definition stripped_ids before db := keys_where (λ _, stripped before) (ed_entries (cd_entries db)).
Definition expired_ids now db := keys_where (expired (cd_feeds db) (cd_entries db) now) (ed_entries (cd_entries db)).
Definition log_ids before db := keys_where (older (λ id _, log_created_at ages id) before) (hd_logs (cd_hooks db)).
Definition match_ids before db := keys_where (older (λ _ m, m.2) before) (cd_filter_matches db).
Definition poll_ids before db := keys_where (old_poll (cd_poll_log db) before) (pd_rows (cd_poll_log db)).
Definition audit_ids before db := keys_where (older (λ _ t, t) before) (cd_audit_log db).
Definition session_ids now db := keys_where (older (λ _ t, t) now) (cd_sessions db).
Definition dedup_past_retention (now : Z) (db : CleanDb) : gset (Z * string) :=
  filter (λ k, past_retention (cd_feeds db) now k.1 (dedup_first_seen_at ages k)) (ed_dedup (cd_entries db)).
Definition dedup_old (before : Z) (db : CleanDb) : gset (Z * string) :=
  filter (λ k, dedup_first_seen_at ages k < before) (ed_dedup (cd_entries db)).

(** ** The run *)

(** storage/cleanup.go [RetentionCleanupOpts] The zero time is [None]. *)
Record RetentionCleanupOpts := mkOpts {
  RemovedEntriesBefore : Z; WebhookLogsBefore : Z; FilterMatchesBefore : option Z; FeedPollLogBefore : option Z;
  AuditLogBefore : option Z; DedupBefore : option Z;
}.

(** storage/cleanup.go [RetentionCleanupResult] *)
Record RetentionCleanupResult := mkResult {
  rr_RemovedEntries : Z; rr_WebhookLogs : Z; rr_FilterMatches : Z; rr_FeedPollLog : Z; rr_AuditLog : Z;
  rr_FeedEntries : Z; rr_FeedEntryDedup : Z; rr_ExpiredSessions : Z;
}.

(** Rows gone, and whether there was no error; [None] is out of fuel. *)
Definition Outcome : Type := option (CleanDb * Z * bool).

(** The fault of a round, by the statement's number. *)
Context (fuel : nat) (fails : nat → nat → bool).

Definition del {K} `{Countable K} (n : nat) (doomed : CleanDb → gset K) (remove : CleanDb → gset K → CleanDb)
    (db : CleanDb) : Outcome := deleteInBatches doomed remove (order K) fuel 0 (fails n) db 0.

(** storage/cleanup.go [PostgresStore.purgeRemovedEntries] *)
Definition purgeRemovedEntries (before : Z) (db : CleanDb) : Outcome :=
  '(db, total, ok) ← del 0 (abandoned_ids before) drop_entries db;
  if negb (ok : bool) then Some (db, total, false)
  else '(db, n, ok) ← del 1 (stripped_ids before) drop_entries db; Some (db, total + n, ok).

(** A statement that a zero cutoff skips. *)
Definition del_opt {K} `{Countable K} (n : nat) (doomed : Z → CleanDb → gset K) (remove : CleanDb → gset K → CleanDb)
    (before : option Z) (db : CleanDb) : Outcome :=
  match before with Some t => del n (doomed t) remove db | None => Some (db, 0, true) end.

(** storage/sessions.go [PostgresStore.DeleteExpiredSessions] *)
Definition DeleteExpiredSessions (now : Z) (db : CleanDb) : Outcome := del 9 (session_ids now) drop_sessions db.

(** storage/cleanup.go [PostgresStore.RunRetentionCleanup] The counts of the statements that
    ended well, and whether all did. *)
Definition RunRetentionCleanup (now : Z) (o : RetentionCleanupOpts) (db : CleanDb)
    : option (CleanDb * RetentionCleanupResult * bool) :=
  '(db, n1, ok) ← purgeRemovedEntries (RemovedEntriesBefore o) db;
  if negb (ok : bool) then Some (db, mkResult 0 0 0 0 0 0 0 0, false) else
  '(db, n2, ok) ← del 2 (log_ids (WebhookLogsBefore o)) drop_logs db;
  if negb (ok : bool) then Some (db, mkResult n1 0 0 0 0 0 0 0, false) else
  '(db, n3, ok) ← del_opt 3 match_ids drop_matches (FilterMatchesBefore o) db;
  if negb (ok : bool) then Some (db, mkResult n1 n2 0 0 0 0 0 0, false) else
  '(db, n4, ok) ← del_opt 4 poll_ids drop_polls (FeedPollLogBefore o) db;
  if negb (ok : bool) then Some (db, mkResult n1 n2 n3 0 0 0 0 0, false) else
  '(db, n5, ok) ← del_opt 5 audit_ids drop_audit (AuditLogBefore o) db;
  if negb (ok : bool) then Some (db, mkResult n1 n2 n3 n4 0 0 0 0, false) else
  '(db, n6, ok) ← del 6 (expired_ids now) drop_entries db;
  if negb (ok : bool) then Some (db, mkResult n1 n2 n3 n4 n5 0 0 0, false) else
  '(db, n7, ok) ← del 7 (dedup_past_retention now) drop_dedup db;
  if negb (ok : bool) then Some (db, mkResult n1 n2 n3 n4 n5 n6 0 0, false) else
  '(db, n8, ok) ← del_opt 8 dedup_old drop_dedup (DedupBefore o) db;
  if negb (ok : bool) then Some (db, mkResult n1 n2 n3 n4 n5 n6 n7 0, false) else
  '(db, n9, ok) ← DeleteExpiredSessions now db;
  if negb (ok : bool) then Some (db, mkResult n1 n2 n3 n4 n5 n6 (n7 + n8) 0, false) else
  Some (db, mkResult n1 n2 n3 n4 n5 n6 (n7 + n8) n9, true).

(** storage/cleanup.go [RetentionCutoff] *)
Definition RetentionCutoff (now retentionDays : Z) : Z :=
  time_add now (wrap64 (wrap64 (wrap64 (- retentionDays) * 24) * hour)).

(** The retention windows of the configuration, in days. *)
Record RetentionCfg := mkRetentionCfg {
  RemovedRetentionDays : Z; WebhookLogRetentionDays : Z; FilterMatchRetentionDays : Z; FeedPollLogRetentionDays : Z;
  AuditLogRetentionDays : Z; DedupRetentionDays : Z;
}.

(** worker/cleanup.go [Runner.RetentionCleanupNow] *)
Definition RetentionCleanupNow (cfg : RetentionCfg) (now : Z) (db : CleanDb) :=
  let window days := if 0 <? days then Some (RetentionCutoff now days) else None in
  RunRetentionCleanup now
    (mkOpts (RetentionCutoff now (RemovedRetentionDays cfg)) (RetentionCutoff now (WebhookLogRetentionDays cfg))
       (window (FilterMatchRetentionDays cfg)) (window (FeedPollLogRetentionDays cfg))
       (window (AuditLogRetentionDays cfg)) (window (DedupRetentionDays cfg))) db.
End Cleanup.

(** * Laws of the statements *)

Lemma drop_keys_lookup {K V} `{Countable K} (m : gmap K V) r k v :
  drop_keys m r !! k = Some v ↔ m !! k = Some v ∧ k ∉ r.
Proof. unfold drop_keys. by rewrite map_lookup_filter_Some. Qed.

Lemma keys_where_elem {K V} `{Countable K} (p : K → V → Prop) `{∀ k v, Decision (p k v)} (m : gmap K V) k :
  k ∈ keys_where p m ↔ ∃ v, m !! k = Some v ∧ p k v.
Proof. unfold keys_where. rewrite elem_of_dom. unfold is_Some. by setoid_rewrite map_lookup_filter_Some. Qed.

Lemma map_eq_Some {K V} `{Countable K} (m m' : gmap K V) : (∀ k v, m !! k = Some v ↔ m' !! k = Some v) → m = m'.
Proof. intros Hm. apply map_eq. intros k. apply option_eq. apply Hm. Qed.

Lemma drop_keys_none {K V} `{Countable K} (m : gmap K V) : drop_keys m ∅ = m.
Proof. apply map_filter_id. intros k v _. cbn. set_solver. Qed.

Lemma drop_keys_compose {K V} `{Countable K} (m : gmap K V) r r' : drop_keys (drop_keys m r) r' = drop_keys m (r ∪ r').
Proof. apply map_eq_Some. intros k v. rewrite !drop_keys_lookup. set_solver. Qed.

(** Keys dropped from a table whose test stays the same for the rows that stay. *)
Lemma keys_where_drop {K V} `{Countable K} (p p' : K → V → Prop) `{∀ k v, Decision (p k v)} `{∀ k v, Decision (p' k v)}
    (m m' : gmap K V) R :
  (∀ k v, m' !! k = Some v ↔ m !! k = Some v ∧ k ∉ R) → (∀ k v, m !! k = Some v → k ∉ R → p' k v ↔ p k v) →
  keys_where p' m' = keys_where p m ∖ R.
Proof.
  intros Hm Hp. apply set_eq. intros k. rewrite elem_of_difference, !keys_where_elem. setoid_rewrite Hm.
  split; [intros (v & [? ?] & ?)|intros ((v & ? & ?) & ?)]; naive_solver.
Qed.

Lemma keys_where_size {K V} `{Countable K} (p : K → V → Prop) `{∀ k v, Decision (p k v)} (m : gmap K V) :
  (size (keys_where p m) <= size m)%nat.
Proof. unfold keys_where. rewrite size_dom. apply map_subseteq_size, map_filter_subseteq. Qed.

Lemma without_entries_lookup db r i e :
  ed_entries (without_entries db r) !! i = Some e ↔ ed_entries db !! i = Some e ∧ i ∉ r.
Proof. unfold without_entries, delete_entries. cbn. by rewrite map_lookup_filter_Some. Qed.

Lemma without_entries_user db r i u : i ∉ r → ed_user (without_entries db r) !! (i, u) = ed_user db !! (i, u).
Proof.
  intros Hi. unfold without_entries, delete_entries. cbn. apply option_eq. intros ue.
  rewrite map_lookup_filter_Some. cbn. tauto.
Qed.

Lemma without_entries_dedup db d r :
  without_entries (with_dedup db d) r = with_dedup (without_entries db r) d.
Proof. done. Qed.

Lemma without_entries_compose db r r' : without_entries (without_entries db r) r' = without_entries db (r ∪ r').
Proof.
  unfold without_entries, delete_entries. cbn. f_equal; apply map_eq_Some; intros k v; rewrite !map_lookup_filter_Some; cbn; set_solver.
Qed.

Lemma without_matches_lookup m ids entries k v :
  without_matches m ids entries !! k = Some v ↔ m !! k = Some v ∧ k ∉ ids ∧ v.1 ∉ entries.
Proof. unfold without_matches. by rewrite map_lookup_filter_Some. Qed.

Lemma without_matches_none m : without_matches m ∅ ∅ = m.
Proof. apply map_filter_id. intros k v _. cbn. set_solver. Qed.

Lemma without_matches_compose m i e i' e' : without_matches (without_matches m i e) i' e' = without_matches m (i ∪ i') (e ∪ e').
Proof. apply map_eq_Some. intros k v. rewrite !without_matches_lookup. set_solver. Qed.

Lemma without_entries_none db : without_entries db ∅ = db.
Proof.
  destruct db. unfold without_entries, delete_entries. cbn. f_equal; apply map_filter_id; intros k v _; cbn; set_solver.
Qed.

(** ** A database without some rows *)

Record Sets := mkSets {
  sE : gset Z; sL : gset Z; sM : gset Z; sP : gset Z; sA : gset Z; sD : gset (Z * string); sS : gset Z;
}.

Definition sets_union (x y : Sets) : Sets :=
  mkSets (sE x ∪ sE y) (sL x ∪ sL y) (sM x ∪ sM y) (sP x ∪ sP y) (sA x ∪ sA y) (sD x ∪ sD y) (sS x ∪ sS y).

Definition shrunk (db : CleanDb) (x : Sets) : CleanDb :=
  mkCleanDb (cd_feeds db)
    (with_logs (cd_hooks db) (drop_keys (hd_logs (cd_hooks db)) (sL x)))
    (with_dedup (without_entries (cd_entries db) (sE x)) (ed_dedup (cd_entries db) ∖ sD x))
    (mkPollLogDb (drop_keys (pd_rows (cd_poll_log db)) (sP x)) (pd_next_id (cd_poll_log db)))
    (without_matches (cd_filter_matches db) (sM x) (sE x)) (drop_keys (cd_audit_log db) (sA x)) (drop_keys (cd_sessions db) (sS x)).

Definition no_sets : Sets := mkSets ∅ ∅ ∅ ∅ ∅ ∅ ∅.

Lemma difference_none {K} `{Countable K} (d : gset K) : d ∖ ∅ = d.
Proof. apply set_eq. set_solver. Qed.

Lemma with_dedup_same db : with_dedup db (ed_dedup db) = db.
Proof. by destruct db. Qed.

Lemma shrunk_none db : shrunk db no_sets = db.
Proof.
  unfold shrunk, no_sets. cbn [sE sL sM sP sA sD sS]. rewrite !drop_keys_none, without_entries_none, without_matches_none, difference_none, with_dedup_same.
  by destruct db as [fd [hw hl hn] ed [pr pn] fm al ss].
Qed.

Lemma shrunk_shrunk db x y : shrunk (shrunk db x) y = shrunk db (sets_union x y).
Proof.
  unfold shrunk, sets_union. cbn [cd_feeds cd_hooks cd_entries cd_poll_log cd_filter_matches cd_audit_log cd_sessions
    hd_logs with_logs hd_webhooks hd_next_id pd_rows pd_next_id sE sL sM sP sA sD sS].
  rewrite !drop_keys_compose, without_matches_compose, without_entries_dedup, without_entries_compose. f_equal.
  unfold with_dedup. cbn. f_equal. apply set_eq. set_solver.
Qed.

Definition onlyE r := mkSets r ∅ ∅ ∅ ∅ ∅ ∅.
Definition onlyL r := mkSets ∅ r ∅ ∅ ∅ ∅ ∅.
Definition onlyM r := mkSets ∅ ∅ r ∅ ∅ ∅ ∅.
Definition onlyP r := mkSets ∅ ∅ ∅ r ∅ ∅ ∅.
Definition onlyA r := mkSets ∅ ∅ ∅ ∅ r ∅ ∅.
Definition onlyD r := mkSets ∅ ∅ ∅ ∅ ∅ r ∅.
Definition onlyS r := mkSets ∅ ∅ ∅ ∅ ∅ ∅ r.

Ltac drop_shrunk :=
  intros; match goal with db : CleanDb |- _ => destruct db as [fd [hw hl hn] [e1 e2 e3 e4 e5 e6] [pr pn] fm al ss] end;
  unfold shrunk; cbn [sE sL sM sP sA sD sS onlyE onlyL onlyM onlyP onlyA onlyD onlyS cd_feeds cd_hooks cd_entries
    cd_poll_log cd_filter_matches cd_audit_log cd_sessions hd_logs pd_rows pd_next_id];
  rewrite ?drop_keys_none, ?without_entries_none, ?without_matches_none, ?difference_none; reflexivity.

Lemma drop_entries_shrunk db r : drop_entries db r = shrunk db (onlyE r). Proof. drop_shrunk. Qed.
Lemma drop_logs_shrunk db r : drop_logs db r = shrunk db (onlyL r). Proof. drop_shrunk. Qed.
Lemma drop_matches_shrunk db r : drop_matches db r = shrunk db (onlyM r). Proof. drop_shrunk. Qed.
Lemma drop_polls_shrunk db r : drop_polls db r = shrunk db (onlyP r). Proof. drop_shrunk. Qed.
Lemma drop_audit_shrunk db r : drop_audit db r = shrunk db (onlyA r). Proof. drop_shrunk. Qed.
Lemma drop_dedup_shrunk db r : drop_dedup db r = shrunk db (onlyD r). Proof. drop_shrunk. Qed.
Lemma drop_sessions_shrunk db r : drop_sessions db r = shrunk db (onlyS r). Proof. drop_shrunk. Qed.

(** ** What the statements take from it *)

Section Taken.
Context (ages : Ages).

Lemma removed_by_shrunk db x before i u : i ∉ sE x →
  removed_by ages (cd_entries (shrunk db x)) before i u ↔ removed_by ages (cd_entries db) before i u.
Proof.
  intros Hi. unfold removed_by. cbn [shrunk cd_entries with_dedup ed_user]. by rewrite without_entries_user.
Qed.

Lemma user_exists_shrunk db x i (P : Z → UserEntry → Prop) : i ∉ sE x →
  map_Exists (λ k ue, k.1 = i ∧ P k.2 ue) (ed_user (cd_entries (shrunk db x))) ↔
  map_Exists (λ k ue, k.1 = i ∧ P k.2 ue) (ed_user (cd_entries db)).
Proof.
  intros Hi. unfold map_Exists. cbn [shrunk cd_entries with_dedup ed_user].
  split; intros ([j u] & ue & Hl & Hj & HP); cbn [fst snd] in *; subst j; exists (i, u), ue;
    (split; [|done]); revert Hl; by rewrite without_entries_user.
Qed.

Lemma starred_shrunk db x i : i ∉ sE x → starred (cd_entries (shrunk db x)) i ↔ starred (cd_entries db) i.
Proof. intros Hi. apply (user_exists_shrunk db x i (λ _ ue, ue_starred ue = true) Hi). Qed.

Lemma map_Exists_ext {K V} `{Countable K} (P Q : K → V → Prop) (m : gmap K V) :
  (∀ k v, P k v ↔ Q k v) → map_Exists P m ↔ map_Exists Q m.
Proof. intros HPQ. unfold map_Exists. by setoid_rewrite HPQ. Qed.

Lemma abandoned_shrunk db x before i e : i ∉ sE x →
  abandoned ages (cd_feeds db) (cd_entries (shrunk db x)) before i e ↔
  abandoned ages (cd_feeds db) (cd_entries db) before i e.
Proof.
  intros Hi. unfold abandoned. rewrite (starred_shrunk db x i Hi).
  pose proof (λ u, removed_by_shrunk db x before i u Hi) as Hr.
  rewrite (map_Exists_ext _ (λ k ue, k.1 = i ∧ removed_by ages (cd_entries db) before i k.2) (ed_user (cd_entries (shrunk db x))))
    by (intros; by rewrite Hr).
  rewrite (user_exists_shrunk db x i (λ u _, removed_by ages (cd_entries db) before i u) Hi).
  rewrite (map_Exists_ext (λ k _, k.2 = er_feed_id e ∧ ¬ removed_by ages (cd_entries (shrunk db x)) before i k.1)
    (λ k _, k.2 = er_feed_id e ∧ ¬ removed_by ages (cd_entries db) before i k.1)) by (intros; by rewrite Hr).
  done.
Qed.

Lemma shrunk_entries db x i e :
  ed_entries (cd_entries (shrunk db x)) !! i = Some e ↔ ed_entries (cd_entries db) !! i = Some e ∧ i ∉ sE x.
Proof. apply without_entries_lookup. Qed.

Lemma abandoned_ids_shrunk before db x : abandoned_ids ages before (shrunk db x) = abandoned_ids ages before db ∖ sE x.
Proof.
  apply keys_where_drop; [intros; apply shrunk_entries|]. intros i e _ Hi. exact (abandoned_shrunk db x before i e Hi).
Qed.

Lemma stripped_ids_shrunk before db x : stripped_ids before (shrunk db x) = stripped_ids before db ∖ sE x.
Proof. by apply keys_where_drop; [intros; apply shrunk_entries|]. Qed.

Lemma expired_ids_shrunk now db x : expired_ids ages now (shrunk db x) = expired_ids ages now db ∖ sE x.
Proof.
  apply keys_where_drop; [intros; apply shrunk_entries|]. intros i e _ Hi. unfold expired.
  by rewrite (starred_shrunk db x i Hi).
Qed.

Lemma log_ids_shrunk before db x : log_ids ages before (shrunk db x) = log_ids ages before db ∖ sL x.
Proof. by apply keys_where_drop; [intros; apply drop_keys_lookup|]. Qed.
(** The matches of entries. *)
Definition match_in (entries : gset Z) (_ : Z) (m : Z * Z) : Prop := m.1 ∈ entries.
#[export] Instance match_in_dec entries k m : Decision (match_in entries k m).
Proof. unfold match_in. apply _. Defined.
Definition matches_of (db : CleanDb) (entries : gset Z) : gset Z := keys_where (match_in entries) (cd_filter_matches db).
Lemma match_ids_shrunk before db x : match_ids before (shrunk db x) = match_ids before db ∖ (sM x ∪ matches_of db (sE x)).
Proof.
  apply keys_where_drop; [|done]. intros k v. cbn [shrunk cd_filter_matches]. unfold matches_of.
  rewrite without_matches_lookup, not_elem_of_union, keys_where_elem. naive_solver.
Qed.
Lemma match_ids_only before db r : match_ids before (shrunk db (onlyM r)) = match_ids before db ∖ r.
Proof.
  rewrite match_ids_shrunk. f_equal. apply set_eq. intros k. unfold matches_of. cbn [onlyM sM sE]. rewrite elem_of_union, keys_where_elem. set_solver.
Qed.
Lemma audit_ids_shrunk before db x : audit_ids before (shrunk db x) = audit_ids before db ∖ sA x.
Proof. by apply keys_where_drop; [intros; apply drop_keys_lookup|]. Qed.
Lemma session_ids_shrunk now db x : session_ids now (shrunk db x) = session_ids now db ∖ sS x.
Proof. by apply keys_where_drop; [intros; apply drop_keys_lookup|]. Qed.

Lemma map_max_key {V} (m : gmap Z V) : ∀ i v, m !! i = Some v → ∃ j w, m !! j = Some w ∧ ∀ k u, m !! k = Some u → k <= j.
Proof.
  induction m as [|i0 v0 m Hi0 IH] using map_ind; [by intros i v; rewrite lookup_empty|]. intros _ _ _.
  destruct (decide (m = ∅)) as [->|Hne].
  - exists i0, v0. rewrite lookup_insert_eq. split; [done|]. intros k u [[<- _]|[_ Hk]]%lookup_insert_Some; [done|].
    by rewrite lookup_empty in Hk.
  - apply map_choose in Hne as (i1 & v1 & H1). destruct (IH i1 v1 H1) as (j & w & Hj & Hmax).
    destruct (Z.le_ge_cases i0 j).
    + exists j, w. rewrite lookup_insert_ne by (intros ->; congruence). split; [done|].
      intros k u [[<- _]|[_ Hk]]%lookup_insert_Some; [done|]. by eapply Hmax.
    + exists i0, v0. rewrite lookup_insert_eq. split; [done|].
      intros k u [[<- _]|[_ Hk]]%lookup_insert_Some; [done|]. specialize (Hmax k u Hk). lia.
Qed.

(** The newest row of a feed never goes, so that it stays the newest. *)
Lemma newest_poll_shrunk before db x i l : sP x ⊆ poll_ids before db → pd_rows (cd_poll_log db) !! i = Some l →
  newest_poll (cd_poll_log (shrunk db x)) i (pl_feed_id l) ↔ newest_poll (cd_poll_log db) i (pl_feed_id l).
Proof.
  intros Hx Hl. unfold newest_poll. split; intros Hn; contradict Hn.
  - destruct (map_max_key (filter (λ kv, pl_feed_id kv.2 = pl_feed_id l) (pd_rows (cd_poll_log db))) i l) as (j & lj & Hj & Hmax).
    { apply map_lookup_filter_Some. done. }
    apply map_lookup_filter_Some in Hj as [Hj Hfj]. cbn in Hfj.
    exists j, lj. cbn [shrunk cd_poll_log pd_rows]. destruct Hn as (j0 & l0 & Hl0 & Hf0 & Hlt). rewrite drop_keys_lookup. split_and!; [done| |done|].
    + intros (l' & Hl' & _ & Hnew)%Hx%keys_where_elem. rewrite Hj in Hl'. injection Hl' as <-. apply Hnew.
      intros (k & lk & Hk & Hfk & Hlk). specialize (Hmax k lk). rewrite map_lookup_filter_Some in Hmax. cbn in Hmax.
      rewrite Hfj in Hfk. specialize (Hmax (conj Hk Hfk)). lia.
    + specialize (Hmax j0 l0). rewrite map_lookup_filter_Some in Hmax. cbn in Hmax. specialize (Hmax (conj Hl0 Hf0)). lia.
  - destruct Hn as (j & lj & Hj & Hrest). exists j, lj. split; [|done]. by apply drop_keys_lookup in Hj as [? _].
Qed.

Lemma poll_ids_shrunk before db x : sP x ⊆ poll_ids before db →
  poll_ids before (shrunk db x) = poll_ids before db ∖ sP x.
Proof.
  intros Hx. apply keys_where_drop; [intros; apply drop_keys_lookup|]. intros i l Hl _. unfold old_poll.
  by rewrite (newest_poll_shrunk before db x i l Hx Hl).
Qed.

Lemma filter_difference {K} `{Countable K} (P : K → Prop) `{∀ k, Decision (P k)} (d r : gset K) :
  filter P (d ∖ r) = filter P d ∖ r.
Proof. apply set_eq. set_solver. Qed.

Lemma dedup_past_shrunk now db x : dedup_past_retention ages now (shrunk db x) = dedup_past_retention ages now db ∖ sD x.
Proof. apply filter_difference. Qed.
Lemma dedup_old_shrunk before db x : dedup_old ages before (shrunk db x) = dedup_old ages before db ∖ sD x.
Proof. apply filter_difference. Qed.
End Taken.

#[local] Opaque deleteBatchSize.

(** ** A statement in the run *)

Lemma union_rest {K} `{Countable K} (x d : gset K) : x ∪ (d ∖ x) = x ∪ d.
Proof. apply set_eq. intros k. destruct (decide (k ∈ x)); set_solver. Qed.

Definition sets_sub (x y : Sets) : Prop :=
  sE x ⊆ sE y ∧ sL x ⊆ sL y ∧ sM x ⊆ sM y ∧ sP x ⊆ sP y ∧ sA x ⊆ sA y ∧ sD x ⊆ sD y ∧ sS x ⊆ sS y.

Lemma sets_eq x y : sE x = sE y → sL x = sL y → sM x = sM y → sP x = sP y → sA x = sA y → sD x = sD y → sS x = sS y → x = y.
Proof. destruct x, y. cbn. by intros -> -> -> -> -> -> ->. Qed.

Lemma sets_sub_union x y z : sets_sub x z → sets_sub y z → sets_sub (sets_union x y) z.
Proof.
  intros (H1 & H2 & H3 & H4 & H5 & H6 & H7) (G1 & G2 & G3 & G4 & G5 & G6 & G7).
  unfold sets_sub, sets_union. cbn [sE sL sM sP sA sD sS]. split_and!; by apply union_least.
Qed.

Lemma sets_sub_trans x y z : sets_sub x y → sets_sub y z → sets_sub x z.
Proof.
  intros (H1 & H2 & H3 & H4 & H5 & H6 & H7) (G1 & G2 & G3 & G4 & G5 & G6 & G7). unfold sets_sub. split_and!; by etrans.
Qed.

(** A table of the database: how its rows go, and what a set of them looks like. *)
Record Table (K : Type) `{Countable K} := mkTable {
  t_remove : CleanDb → gset K → CleanDb;
  t_only : gset K → Sets;
  t_of : CleanDb → Sets → gset K;   (* the rows that go with the sets *)
  t_shrunk : ∀ db r, t_remove db r = shrunk db (t_only r);
  t_none : t_only ∅ = no_sets;
  t_union : ∀ r r', sets_union (t_only r) (t_only r') = t_only (r ∪ r');
  t_mono : ∀ r r', r ⊆ r' → sets_sub (t_only r) (t_only r');
  t_rest : ∀ db x d, shrunk db (sets_union x (t_only (d ∖ t_of db x))) = shrunk db (sets_union x (t_only d));
}.
Arguments t_remove {K _ _}. Arguments t_only {K _ _}. Arguments t_of {K _ _}.
Arguments t_shrunk {K _ _}. Arguments t_none {K _ _}. Arguments t_union {K _ _}. Arguments t_mono {K _ _}. Arguments t_rest {K _ _}.

Lemma matches_rest db x d :
  shrunk db (sets_union x (onlyM (d ∖ (sM x ∪ matches_of db (sE x))))) = shrunk db (sets_union x (onlyM d)).
Proof.
  unfold shrunk, sets_union. cbn [onlyM sE sL sM sP sA sD sS]. f_equal. apply map_eq_Some. intros k v. rewrite !without_matches_lookup.
  assert (M : k ∈ matches_of db (sE x) ↔ ∃ v, cd_filter_matches db !! k = Some v ∧ v.1 ∈ sE x) by apply keys_where_elem.
  destruct (decide (k ∈ sM x)); [set_solver|]. split; intros (L & N & E); (split; [done|]); (split; [|done]); [|set_solver].
  intros I. apply N. apply elem_of_union. right. apply elem_of_difference. split; [set_solver|]. intros [|(v' & L' & E')%M]%elem_of_union; [done|].
  rewrite L in L'. injection L' as <-. apply E. set_solver.
Qed.

Ltac table_laws :=
  intros; first [split_and!; cbn; first [assumption | apply empty_subseteq]
                |unfold sets_union; cbn; rewrite ?union_rest, ?(left_id_L ∅ (∪)); reflexivity].

Program Definition TE : Table Z := mkTable Z _ _ drop_entries onlyE (λ _, sE) drop_entries_shrunk eq_refl _ _ _.
Solve All Obligations with table_laws.
Program Definition TL : Table Z := mkTable Z _ _ drop_logs onlyL (λ _, sL) drop_logs_shrunk eq_refl _ _ _.
Solve All Obligations with table_laws.
Program Definition TM : Table Z := mkTable Z _ _ drop_matches onlyM (λ db x, sM x ∪ matches_of db (sE x)) drop_matches_shrunk eq_refl _ _ _.
Solve All Obligations with first [table_laws | intros; apply matches_rest].
Program Definition TP : Table Z := mkTable Z _ _ drop_polls onlyP (λ _, sP) drop_polls_shrunk eq_refl _ _ _.
Solve All Obligations with table_laws.
Program Definition TA : Table Z := mkTable Z _ _ drop_audit onlyA (λ _, sA) drop_audit_shrunk eq_refl _ _ _.
Solve All Obligations with table_laws.
Program Definition TD : Table (Z * string) := mkTable _ _ _ drop_dedup onlyD (λ _, sD) drop_dedup_shrunk eq_refl _ _ _.
Solve All Obligations with table_laws.
Program Definition TS : Table Z := mkTable Z _ _ drop_sessions onlyS (λ _, sS) drop_sessions_shrunk eq_refl _ _ _.
Solve All Obligations with table_laws.

Section Run.
Context (ages : Ages) (order : ∀ K : Type, list K → list K) (order_perm : ∀ K (l : list K), order K l ≡ₚ l).
Context (fuel : nat) (fails : nat → nat → bool).

Lemma del_at {K} `{Countable K} (T : Table K) n (doomed : CleanDb → gset K) remove db x : remove = t_remove T →
  (∀ db r, r ⊆ doomed db → doomed (shrunk db (t_only T r)) = doomed db ∖ r) →
  doomed (shrunk db x) = doomed db ∖ t_of T db x → (size (doomed db) < deleteBatchSize * fuel)%nat →
  ∃ R ok n', del order fuel fails n doomed remove (shrunk db x) = Some (shrunk db (sets_union x (t_only T R)), n', ok) ∧
    R ⊆ doomed db ∧ (ok = true → R = doomed db) ∧ ((∀ j, fails n j = false) → ok = true).
Proof.
  intros -> Hst Hx Hsz.
  assert (BatchLaws doomed (t_remove T) (order K)) as Hlaws.
  { split; [auto|intros s R HR; rewrite t_shrunk; auto|intros s; by rewrite t_shrunk, t_none, shrunk_none|].
    intros s R R'. by rewrite !t_shrunk, shrunk_shrunk, t_union. }
  destruct (batches_spec doomed (t_remove T) (order K) Hlaws fuel 0 (fails n) (shrunk db x) 0) as (R & ok & Hd & HR & Hok & Hall).
  { rewrite Hx. eapply Nat.le_lt_trans; [|exact Hsz]. apply subseteq_size. set_solver. }
  unfold del. rewrite Hd, t_shrunk, shrunk_shrunk. rewrite Hx in HR, Hok. destruct ok.
  - exists (doomed db), true, (0 + Z.of_nat (size R)). rewrite (Hok eq_refl), t_rest. auto.
  - exists R, false, (0 + Z.of_nat (size R)). split_and!; [done|set_solver|done|]. intros Hf. apply Hall. auto.
Qed.

(** The rows of a statement that a zero cutoff skips. *)
Definition opt_ids {K} `{Countable K} (doomed : Z → CleanDb → gset K) (before : option Z) (db : CleanDb) : gset K :=
  match before with Some t => doomed t db | None => ∅ end.

Lemma sets_union_none x : sets_union x no_sets = x.
Proof. destruct x. unfold sets_union. cbn. by rewrite !(right_id_L ∅ (∪)). Qed.

Lemma del_opt_at {K} `{Countable K} (T : Table K) n (doomed : Z → CleanDb → gset K) remove before db x : remove = t_remove T →
  (∀ t db r, r ⊆ doomed t db → doomed t (shrunk db (t_only T r)) = doomed t db ∖ r) →
  (∀ t, doomed t (shrunk db x) = doomed t db ∖ t_of T db x) → (∀ t, (size (doomed t db) < deleteBatchSize * fuel)%nat) →
  ∃ R ok n', del_opt order fuel fails n doomed remove before (shrunk db x) = Some (shrunk db (sets_union x (t_only T R)), n', ok) ∧
    R ⊆ opt_ids doomed before db ∧ (ok = true → R = opt_ids doomed before db) ∧ ((∀ j, fails n j = false) → ok = true).
Proof.
  intros Hr Hst Hx Hsz. unfold del_opt, opt_ids. destruct before as [t|]; [apply (del_at T n (doomed t)); auto|].
  exists ∅, true, 0. rewrite t_none, sets_union_none. auto.
Qed.

(** The rows a run is to delete. *)
Definition target (now : Z) (o : RetentionCleanupOpts) (db : CleanDb) : Sets :=
  mkSets (abandoned_ids ages (RemovedEntriesBefore o) db ∪ stripped_ids (RemovedEntriesBefore o) db ∪ expired_ids ages now db)
    (log_ids ages (WebhookLogsBefore o) db)
    (opt_ids match_ids (FilterMatchesBefore o) db)
    (opt_ids poll_ids (FeedPollLogBefore o) db)
    (opt_ids audit_ids (AuditLogBefore o) db)
    (dedup_past_retention ages now db ∪ opt_ids (dedup_old ages) (DedupBefore o) db)
    (session_ids now db).

(** More fuel than any statement needs. *)
Definition enough_fuel (db : CleanDb) : Prop :=
  (size (ed_entries (cd_entries db)) < deleteBatchSize * fuel)%nat ∧ (size (hd_logs (cd_hooks db)) < deleteBatchSize * fuel)%nat ∧
  (size (cd_filter_matches db) < deleteBatchSize * fuel)%nat ∧ (size (pd_rows (cd_poll_log db)) < deleteBatchSize * fuel)%nat ∧
  (size (cd_audit_log db) < deleteBatchSize * fuel)%nat ∧ (size (ed_dedup (cd_entries db)) < deleteBatchSize * fuel)%nat ∧
  (size (cd_sessions db) < deleteBatchSize * fuel)%nat.

(** One statement of the run. *)
Ltac shrunk_law Hkw Hfd :=
  intros; first
    [ apply Hkw; assumption | apply Hfd; assumption
    | match goal with |- context [abandoned_ids] => apply abandoned_ids_shrunk end
    | match goal with |- context [stripped_ids] => apply stripped_ids_shrunk end
    | match goal with |- context [expired_ids] => apply expired_ids_shrunk end
    | match goal with |- context [log_ids] => apply log_ids_shrunk end
    | match goal with |- context [match_ids] => first [apply match_ids_only | apply match_ids_shrunk] end
    | match goal with |- context [poll_ids] => apply poll_ids_shrunk; first [assumption | cbn; set_solver] end
    | match goal with |- context [audit_ids] => apply audit_ids_shrunk end
    | match goal with |- context [dedup_past_retention] => apply dedup_past_shrunk end
    | match goal with |- context [dedup_old] => apply dedup_old_shrunk end
    | match goal with |- context [session_ids] => apply session_ids_shrunk end ].

Ltac stage_end T R ok HR Hok Ha Hx Hd Hstop Hn n :=
  cbn [mbind option_bind]; destruct ok; cbn [negb mbind option_bind];
    [rewrite (Hok eq_refl); clear R HR Hok Ha; apply (λ H, sets_sub_union _ _ _ H Hd) in Hx; clear Hd
    |apply Hstop; [apply (sets_sub_union _ _ _ Hx), (sets_sub_trans _ _ _ (t_mono T _ _ HR) Hd)|apply (Hn n); exact Ha]].

(** The rows [d] of table [T] are to go. *)
Ltac wanted T dd now o db Hd :=
  assert (sets_sub (t_only T dd) (target now o db)) as Hd
    by (split_and!; cbn [t_only TE TL TM TP TA TD TS onlyE onlyL onlyM onlyP onlyA onlyD onlyS target sE sL sM sP sA sD sS];
        first [apply empty_subseteq | set_solver]).

Ltac stage T n d now o Hkw Hfd Hx Hstop Hn :=
  let R := fresh "R" in let ok := fresh "ok" in let k := fresh "n" in
  let HR := fresh "HR" in let Hok := fresh "Hok" in let Ha := fresh "Ha" in let Hd := fresh "Hd" in
  match goal with |- context [del _ _ _ n _ ?rm (shrunk ?db ?x)] =>
    destruct (del_at T n d rm db x eq_refl) as (R & ok & k & -> & HR & Hok & Ha); [shrunk_law Hkw Hfd..|];
    wanted T constr:(d db) now o db Hd
  end; stage_end T R ok HR Hok Ha Hx Hd Hstop Hn n.

Ltac stage_opt T n d b now o Hkw Hfd Hx Hstop Hn :=
  let R := fresh "R" in let ok := fresh "ok" in let k := fresh "n" in
  let HR := fresh "HR" in let Hok := fresh "Hok" in let Ha := fresh "Ha" in let Hd := fresh "Hd" in
  match goal with |- context [del_opt _ _ _ n _ ?rm b (shrunk ?db ?x)] =>
    destruct (del_opt_at T n d rm b db x eq_refl) as (R & ok & k & -> & HR & Hok & Ha); [shrunk_law Hkw Hfd..|];
    wanted T constr:(opt_ids d b db) now o db Hd
  end; stage_end T R ok HR Hok Ha Hx Hd Hstop Hn n.

(** Where a run is when it has removed [x] so far. *)
Lemma run_sets now o db : enough_fuel db →
  ∃ x res ok, RunRetentionCleanup ages order fuel fails now o (shrunk db no_sets) = Some (shrunk db x, res, ok) ∧
    sets_sub x (target now o db) ∧ (ok = true → x = target now o db) ∧
    ((∀ n j, fails n j = false) → ok = true).
Proof.
  intros (FE & FL & FM & FP & FA & FD & FS).
  assert (∀ {K V} `{Countable K} (p : K → V → Prop) `{∀ k v, Decision (p k v)} (m : gmap K V),
    (size m < deleteBatchSize * fuel)%nat → (size (keys_where p m) < deleteBatchSize * fuel)%nat) as Hkw.
  { intros. eapply Nat.le_lt_trans; [apply keys_where_size|done]. }
  assert (∀ (P : Z * string → Prop) `{∀ k, Decision (P k)} (d : gset (Z * string)),
    (size d < deleteBatchSize * fuel)%nat → (size (filter P d) < deleteBatchSize * fuel)%nat) as Hfd.
  { intros. eapply Nat.le_lt_trans; [apply subseteq_size|done]. set_solver. }
  unfold RunRetentionCleanup, purgeRemovedEntries, DeleteExpiredSessions.
  assert (∀ x (res : RetentionCleanupResult), sets_sub x (target now o db) → (∃ n, (∀ j, fails n j = false) → False) →
    ∃ x' res' ok, Some (shrunk db x, res, false) = Some (shrunk db x', res', ok) ∧ sets_sub x' (target now o db) ∧
      (ok = true → x' = target now o db) ∧ ((∀ n j, fails n j = false) → ok = true)) as Hstop.
  { intros x res Hx [n Hn]. exists x, res, false. split_and!; [done..|]. intros Hf. by destruct (Hn (Hf n)). }
  assert (∀ n, ((∀ j, fails n j = false) → false = true) → ∃ n, (∀ j, fails n j = false) → False) as Hn
    by (intros n H; exists n; intros Hf; by specialize (H Hf)).
  assert (sets_sub no_sets (target now o db)) as Hx by (split_and!; apply empty_subseteq).
  stage TE 0%nat (abandoned_ids ages (RemovedEntriesBefore o)) now o Hkw Hfd Hx Hstop Hn.
  stage TE 1%nat (stripped_ids (RemovedEntriesBefore o)) now o Hkw Hfd Hx Hstop Hn.
  stage TL 2%nat (log_ids ages (WebhookLogsBefore o)) now o Hkw Hfd Hx Hstop Hn.
  stage_opt TM 3%nat match_ids (FilterMatchesBefore o) now o Hkw Hfd Hx Hstop Hn.
  stage_opt TP 4%nat poll_ids (FeedPollLogBefore o) now o Hkw Hfd Hx Hstop Hn.
  stage_opt TA 5%nat audit_ids (AuditLogBefore o) now o Hkw Hfd Hx Hstop Hn.
  stage TE 6%nat (expired_ids ages now) now o Hkw Hfd Hx Hstop Hn.
  stage TD 7%nat (dedup_past_retention ages now) now o Hkw Hfd Hx Hstop Hn.
  stage_opt TD 8%nat (dedup_old ages) (DedupBefore o) now o Hkw Hfd Hx Hstop Hn.
  stage TS 9%nat (session_ids now) now o Hkw Hfd Hx Hstop Hn.
  eexists _, _, true. split; [reflexivity|]. split; [exact Hx|]. split; [|reflexivity]. intros _. clear.
  apply sets_eq; cbn [sE sL sM sP sA sD sS sets_union TE TL TM TP TA TD TS t_only onlyE onlyL onlyM onlyP onlyA onlyD onlyS
    target no_sets]; by rewrite ?(left_id_L ∅ (∪)), ?(right_id_L ∅ (∪)).
Qed.
End Run.

(** * Theorems *)

(** A table after a run: no row is added, a row not to go stays, and after a run that
    reports success no row to go is left. *)
Definition purged {K V} `{Countable K} (ok : bool) (goes : K → V → Prop) (m m' : gmap K V) : Prop :=
  ∀ k v, (m' !! k = Some v → m !! k = Some v) ∧ (m !! k = Some v → ¬ goes k v → m' !! k = Some v) ∧
         (ok = true → m' !! k = Some v → ¬ goes k v).

(** Why an entry goes. *)
Definition entry_goes (ages : Ages) (now : Z) (o : RetentionCleanupOpts) (db : CleanDb) (id : Z) (e : EntryRow) : Prop :=
  abandoned ages (cd_feeds db) (cd_entries db) (RemovedEntriesBefore o) id e ∨
  stripped (RemovedEntriesBefore o) e ∨ expired ages (cd_feeds db) (cd_entries db) now id e.

Definition before_opt (t : option Z) (at_ : Z) : Prop := match t with Some t => at_ < t | None => False end.

(** Keys of doomed rows dropped, all of them on success. *)
Lemma purged_drop {K V} `{Countable K} ok (goes : K → V → Prop) (m m' : gmap K V) (r d : gset K) :
  (∀ k v, m' !! k = Some v ↔ m !! k = Some v ∧ k ∉ r) → (∀ k, k ∈ d ↔ ∃ v, m !! k = Some v ∧ goes k v) →
  r ⊆ d → (ok = true → r = d) → purged ok goes m m'.
Proof.
  intros Hm Hd Hsub Hok k v. split_and!.
  - by intros [? _]%Hm.
  - intros Hl Hg. apply Hm. split; [done|]. intros (v' & Hl' & Hg')%Hsub%Hd. congruence.
  - intros Ho [Hl Hr]%Hm Hg. apply Hr. rewrite (Hok Ho). apply Hd. eauto.
Qed.

Lemma opt_ids_elem {V} (at_ : Z → V → Z) (tab : CleanDb → gmap Z V) t db k :
  k ∈ opt_ids (λ t db, keys_where (older at_ t) (tab db)) t db ↔
  ∃ v, tab db !! k = Some v ∧ before_opt t (at_ k v).
Proof. destruct t; cbn; [apply keys_where_elem|]. split; [set_solver|by intros (v & _ & ?)]. Qed.

(** C36: a cleanup always ends -- each statement repeats until a batch is short of 5000
    rows -- and whatever round it is cancelled or fails in, it has deleted only rows the
    policy gives up: entries that every subscriber removed long enough ago, stripped
    ones, and those past their feed's retention, never a starred one that is not
    stripped; poll rows other than the newest of their feed; logs, audit rows,
    hashes and sessions older than their cutoff, a cutoff of zero sparing the table; and
    matches of filters older than their cutoff or of an entry that goes.  A match never
    outlives its entry, and a match within its cutoff is lost with its entry only.  When
    the cleanup reports success, no row to go is left. *)
Theorem retention_cleanup_spec (ages : Ages) (order : ∀ K, list K → list K) fuel fails now o db :
  (∀ K (l : list K), order K l ≡ₚ l) → enough_fuel fuel db →
  ∃ db' res ok, RunRetentionCleanup ages order fuel fails now o db = Some (db', res, ok) ∧
    ((∀ n i, fails n i = false) → ok = true) ∧
    purged ok (entry_goes ages now o db) (ed_entries (cd_entries db)) (ed_entries (cd_entries db')) ∧
    (∀ id e, ed_entries (cd_entries db) !! id = Some e → starred (cd_entries db) id → er_removed_at e = None →
       ed_entries (cd_entries db') !! id = Some e) ∧
    purged ok (λ id l, before_opt (FeedPollLogBefore o) (pl_at l) ∧ ¬ newest_poll (cd_poll_log db) id (pl_feed_id l))
      (pd_rows (cd_poll_log db)) (pd_rows (cd_poll_log db')) ∧
    purged ok (λ id _, log_created_at ages id < WebhookLogsBefore o) (hd_logs (cd_hooks db)) (hd_logs (cd_hooks db')) ∧
    purged ok (λ _ m, before_opt (FilterMatchesBefore o) m.2 ∨ ∃ e, ed_entries (cd_entries db) !! m.1 = Some e ∧ entry_goes ages now o db m.1 e)
      (cd_filter_matches db) (cd_filter_matches db') ∧
    (∀ id m, cd_filter_matches db !! id = Some m → is_Some (ed_entries (cd_entries db) !! m.1) →
       (cd_filter_matches db' !! id = Some m → is_Some (ed_entries (cd_entries db') !! m.1)) ∧
       (is_Some (ed_entries (cd_entries db') !! m.1) → ¬ before_opt (FilterMatchesBefore o) m.2 → cd_filter_matches db' !! id = Some m)) ∧
    purged ok (λ _ t, before_opt (AuditLogBefore o) t) (cd_audit_log db) (cd_audit_log db') ∧
    purged ok (λ _ t, t < now) (cd_sessions db) (cd_sessions db') ∧
    (∀ k, k ∈ ed_dedup (cd_entries db') → k ∈ ed_dedup (cd_entries db)) ∧
    (∀ k, k ∈ ed_dedup (cd_entries db) → k ∉ ed_dedup (cd_entries db') →
       past_retention ages (cd_feeds db) now k.1 (dedup_first_seen_at ages k) ∨ before_opt (DedupBefore o) (dedup_first_seen_at ages k)) ∧
    (ok = true → ∀ k, k ∈ ed_dedup (cd_entries db') →
       ¬ past_retention ages (cd_feeds db) now k.1 (dedup_first_seen_at ages k) ∧ ¬ before_opt (DedupBefore o) (dedup_first_seen_at ages k)).
Proof.
  intros Horder Hfuel. destruct (run_sets ages order Horder fuel fails now o db Hfuel) as (x & res & ok & Hr & Hsub & Hok & Hall).
  rewrite shrunk_none in Hr. exists (shrunk db x), res, ok. split; [done|]. split; [done|].
  destruct Hsub as (SE & SL & SM & SP & SA & SD & SS).
  assert (∀ k, k ∈ sE (target ages now o db) ↔ ∃ e, ed_entries (cd_entries db) !! k = Some e ∧ entry_goes ages now o db k e) as HTE.
  { intros k. cbn [target sE]. rewrite !elem_of_union. unfold abandoned_ids, stripped_ids, expired_ids.
    rewrite !keys_where_elem. unfold entry_goes. naive_solver. }
  assert (∀ k, k ∈ sM (target ages now o db) ↔ ∃ m, cd_filter_matches db !! k = Some m ∧ before_opt (FilterMatchesBefore o) m.2) as HTM
    by (intros k; apply (opt_ids_elem (λ _ m, m.2) cd_filter_matches)).
  assert (purged ok (entry_goes ages now o db) (ed_entries (cd_entries db)) (ed_entries (cd_entries (shrunk db x)))) as HE.
  { apply (purged_drop _ _ _ _ (sE x) (sE (target ages now o db))); [intros; apply shrunk_entries| |done|by intros ->%Hok].
    exact HTE. }
  split; [done|]. split.
  { intros id e Hl Hst Hrm. apply HE; [done|]. intros [Ha|[Hs|[_ Hx]]]; [by apply Ha| |done].
    unfold stripped in Hs. by rewrite Hrm in Hs. }
  split_and!.
  - apply (purged_drop _ _ _ _ (sP x) (sP (target ages now o db))); [intros; apply drop_keys_lookup| |done|by intros ->%Hok].
    intros k. cbn [target sP]. destruct (FeedPollLogBefore o); cbn; [apply keys_where_elem|].
    split; [set_solver|by intros (v & _ & ? & _)].
  - apply (purged_drop _ _ _ _ (sL x) (sL (target ages now o db))); [intros; apply drop_keys_lookup| |done|by intros ->%Hok].
    intros k. apply keys_where_elem.
  - intros k m. cbn [shrunk cd_filter_matches]. rewrite without_matches_lookup. pose proof (HTM k) as HTk. split_and!.
    + by intros [? _].
    + intros Hl Hg. split; [done|]. split.
      * intros (v & Hl' & Hb)%SM%HTk. apply Hg. left. congruence.
      * intros (e & Hl' & He)%SE%HTE. apply Hg. right. by exists e.
    + intros Ho (Hl & Hi & He). rewrite (Hok Ho) in Hi, He. intros [Hb|(e & Hl' & Hg)]; [apply Hi, HTk; by exists m|apply He, HTE; by exists e].
  - intros k m Hl [e He]. cbn [shrunk cd_filter_matches]. rewrite without_matches_lookup. split.
    + intros (_ & _ & Hn). exists e. by apply shrunk_entries.
    + intros [e' Hs] Hb. apply shrunk_entries in Hs as [_ Hn]. split; [done|]. split; [|done]. intros (v & Hl' & Hb')%SM%HTM. congruence.
  - apply (purged_drop _ _ _ _ (sA x) (sA (target ages now o db))); [intros; apply drop_keys_lookup| |done|by intros ->%Hok].
    intros k. apply (opt_ids_elem (λ _ t, t) cd_audit_log).
  - apply (purged_drop _ _ _ _ (sS x) (sS (target ages now o db))); [intros; apply drop_keys_lookup| |done|by intros ->%Hok].
    intros k. apply keys_where_elem.
  - cbn. set_solver.
  - intros k Hk Hn. assert (k ∈ sD x) as Hx%SD by (cbn in Hn; set_solver). cbn [target sD] in Hx.
    unfold dedup_past_retention in Hx. destruct (DedupBefore o); cbn in Hx |- *; unfold dedup_old in *; set_solver.
  - intros Ho k Hk. rewrite (Hok Ho) in Hk. cbn in Hk. apply elem_of_difference in Hk as [Hk Hn].
    apply not_elem_of_union in Hn as [Hn1 Hn2]. unfold dedup_past_retention in Hn1. split; [set_solver|].
    destruct (DedupBefore o); cbn in *; [unfold dedup_old in Hn2; set_solver|auto].
Qed.

(** A day of one feed with a retention of one day: entry 1 is starred, entry 2 is old
    and takes a match of this hour with it, entry 3 was removed by the only subscriber. *)
Definition wit_row (id : Z) (h : string) : EntryRow :=
  mkEntryRow id 7 "t" "https://a.example/" "" "" false None None h true 0 None.
Definition wit_ages : Ages := mkAges (λ id, if id =? 3 then 90 * hour else 0) (λ _, 10) (λ _, 0) (λ _, 0) (λ _, Some 1).
Definition wit_clean : CleanDb :=
  mkCleanDb (mkFeedDb {[ 7 := mkFeedRow 7 1 "https://a.example/feed" "rss" "" None 0 false "full" false "" "" "" 0 ]} ∅ {[ (1, 7) := None ]} ∅ ∅)
    (mkHookDb ∅ ∅ 1)
    (mkEntryDb {[ 1 := wit_row 1 "a"; 2 := wit_row 2 "b"; 3 := wit_row 3 "c" ]} 4 ∅ ∅
       {[ (1, 1) := mkUserEntry false true 0; (3, 1) := mkUserEntry true false 0 ]} ∅)
    (mkPollLogDb {[ 1 := mkPollLog 1 7 0 true "" 0 0 1 ]} 2) {[ 1 := (1, 0); 2 := (2, 100 * hour) ]} ∅ {[ 1 := 5 ]}.
Definition wit_opts : RetentionCleanupOpts := mkOpts 20 20 None (Some 20) None None.

Lemma wit_fuel : enough_fuel 1 wit_clean.
Proof. vm_compute. repeat split; lia. Qed.

Lemma retention_cleanup_spec_witness :
  ∃ db' res, RunRetentionCleanup wit_ages (λ _ l, rev l) 1 (λ _ _, false) (100 * hour) wit_opts wit_clean = Some (db', res, true) ∧
    ed_entries (cd_entries db') !! 1 = Some (wit_row 1 "a") ∧ ed_entries (cd_entries db') = {[ 1 := wit_row 1 "a" ]} ∧
    cd_filter_matches db' = {[ 1 := (1, 0) ]} ∧ cd_sessions db' = ∅ ∧ size (pd_rows (cd_poll_log db')) = 1%nat.
Proof.
  destruct (retention_cleanup_spec wit_ages (λ _ l, rev l) 1 (λ _ _, false) (100 * hour) wit_opts wit_clean) as
    (db' & res & ok & Hr & Hok & _ & Hstar & _); [intros; apply Permutation_sym, Permutation_rev|apply wit_fuel|].
  exists db', res. rewrite (Hok ltac:(reflexivity)) in Hr. split; [exact Hr|].
  split; [|vm_compute in Hr; injection Hr as <- _; repeat split].
  apply Hstar; [reflexivity| |reflexivity]. apply (bool_decide_unpack _). vm_compute. exact I.
Defined.

(** The cleanup forgets what it deletes: an entry that goes leaves no hash behind, so
    that a source which still lists the item has it stored -- and delivered as
    unread -- once more at the next poll that reads it. *)
Lemma retention_forgets_hash (dedup_key : string → string) (ages : Ages) (order : ∀ K, list K → list K) fuel fails now o db
    db' res id e :
  (∀ K (l : list K), order K l ≡ₚ l) → enough_fuel fuel db → entries_wf (cd_entries db) →
  RunRetentionCleanup ages order fuel fails now o db = Some (db', res, true) →
  ed_entries (cd_entries db) !! id = Some e → entry_goes ages now o db id e →
  ¬ in_dedup dedup_key (cd_entries db) (er_feed_id e) (er_hash e) →
  ¬ known dedup_key (cd_entries db') (er_feed_id e) (er_hash e) ∧
  ∀ now' x, be_hash x = er_hash e →
    (insert_row dedup_key now' (er_feed_id e) false (cd_entries db', []) x).2 =
      [new_row now' (er_feed_id e) (ed_next_id (cd_entries db')) false x].
Proof.
  intros Horder Hfuel Hwf Hr Hl Hg Hnd.
  destruct (run_sets ages order Horder fuel fails now o db Hfuel) as (x & res' & ok & Hr' & Hsub & Hok & _).
  rewrite shrunk_none, Hr in Hr'. injection Hr' as -> _ <-. specialize (Hok eq_refl).
  assert (id ∈ sE x) as Hx.
  { rewrite Hok. cbn [target sE]. rewrite !elem_of_union. unfold abandoned_ids, stripped_ids, expired_ids.
    rewrite !keys_where_elem. unfold entry_goes in Hg. naive_solver. }
  assert (¬ known dedup_key (cd_entries (shrunk db x)) (er_feed_id e) (er_hash e)) as Hk.
  { intros [Hd|(j & e' & Hj & Hf & Hh)].
    - apply Hnd. unfold in_dedup in *. cbn in Hd. set_solver.
    - apply shrunk_entries in Hj as [Hj Hn]. assert (j = id) as -> by by eapply (ewf_uniq _ Hwf). done. }
  split; [done|]. intros now' y Hy. unfold insert_row. rewrite decide_False by (by rewrite Hy). done.
Qed.

Lemma wit_clean_wf : entries_wf (cd_entries wit_clean).
Proof.
  assert (∀ i e, ed_entries (cd_entries wit_clean) !! i = Some e →
    (i = 1 ∧ e = wit_row 1 "a") ∨ (i = 2 ∧ e = wit_row 2 "b") ∨ (i = 3 ∧ e = wit_row 3 "c")) as Hin.
  { intros i e. cbn [wit_clean cd_entries ed_entries].
    rewrite !lookup_insert_Some, lookup_singleton_Some. naive_solver. }
  split.
  - intros i e H. apply Hin in H. naive_solver.
  - intros i e H. apply Hin in H. cbn. naive_solver lia.
  - intros i j a b Ha Hb _ Hh. apply Hin in Ha, Hb. naive_solver.
  - intros i e H. apply Hin in H. naive_solver.
Qed.

Lemma retention_forgets_hash_witness :
  ∃ db' res, RunRetentionCleanup wit_ages (λ _ l, l) 1 (λ _ _, false) (100 * hour) wit_opts wit_clean = Some (db', res, true) ∧
    ¬ known id (cd_entries db') 7 "b".
Proof.
  destruct (RunRetentionCleanup wit_ages (λ _ l, l) 1 (λ _ _, false) (100 * hour) wit_opts wit_clean) as [[[db' res] ok]|] eqn:Hr;
    [|vm_compute in Hr; discriminate].
  assert (ok = true) as -> by (vm_compute in Hr; injection Hr as _ _ <-; reflexivity).
  exists db', res. split; [reflexivity|].
  refine (proj1 (retention_forgets_hash id wit_ages (λ _ l, l) 1 (λ _ _, false) (100 * hour) wit_opts wit_clean db' res 2
    (wit_row 2 "b") _ wit_fuel wit_clean_wf Hr _ _ _)).
  - intros. reflexivity.
  - reflexivity.
  - right. right. apply (bool_decide_unpack _). vm_compute. exact I.
  - apply (bool_decide_unpack _). vm_compute. exact I.
Defined.
