(* ===== verification/SystemAlerts.v ===== *)
(** Alerts to the operator ([worker/system_alerts.go]): each pass compares the
    problems there are with those last announced and sends a message per new
    group.  The texts of the messages and the HTTP request are left out: a
    message is its kind and details.  The state is saved as JSON whose fields
    come back as they were. *)

From S2P Require Import Prelude GoStrings Version.

(** * Definitions *)

(** worker/system_alerts.go [systemAlertState] Maps to [true] are sets. *)
Record systemAlertState := mkAlertState {
  Paused : gset Z; Silent : gset Z; Webhooks : gset Z; Release : string; Backup : bool; Proxy : bool;
  Layout : gset string;
}.

Definition no_alerts : systemAlertState := mkAlertState ∅ ∅ ∅ "" false false ∅.

(** storage/system_alerts.go [SystemAlertFeed] *)
Record SystemAlertFeed := mkAlertFeed { af_ID : Z; af_Title : string; af_Error : string }.

(** storage/system_alerts.go [SystemAlertWebhook] *)
Record SystemAlertWebhook := mkAlertHook { ah_ID : Z; ah_Name : string; ah_LastError : string }.

(** A row of [FeedTypeStats]. *)
Record FeedTypeStat := mkStat { FeedType : string; Total : Z; LayoutFeeds : Z; LayoutMarker : string }.

(** worker/system_alerts.go [alertMessage] The kind with its details. *)
Inductive alertMessage :=
| FeedsPaused (feed_ids : list Z)
| FeedsSilent (feed_ids : list Z)
| WebhooksFailing (webhook_ids : list Z)
| Update (latest current : string)
| BackupStale (age : Z)
| ProxyDown (failures : Z)
| BridgeLayout (bridge : string) (feeds total : Z) (marker : string)
| BridgeRecovered (bridge : string).

(** worker/system_alerts.go [SystemAlertsConfig] [CurrentVersion] is compared with
    [version.CompareSemver]. *)
Record SystemAlertsConfig := mkAlertsCfg { HasBackupDir : bool; BackupMaxAge : Z; CurrentVersion : string }.

(** What a pass reads; [None] is an error of the store.  [rd_latest] is [None] without a
    release check, [rd_backup] when the directory cannot be read, [rd_proxy] without a
    proxy; [rd_saves] is whether saving the state succeeds. *)
Record Reads := mkReads {
  rd_hooks : option (list Z); rd_paused : option (list SystemAlertFeed); rd_silent : option (list SystemAlertFeed);
  rd_failing : option (list SystemAlertWebhook); rd_latest : option string; rd_backup : option Z;
  rd_proxy : option (option Z); rd_stats : option (list FeedTypeStat); rd_saves : bool;
}.

(** worker/system_alerts.go:394-399 [feedsAlert, the ids] *)
Definition feed_ids (feeds : list SystemAlertFeed) : list Z := merge_sort Z.le (af_ID <$> feeds).

(** worker/system_alerts.go [layoutIncidentMin] *)
Definition layoutIncidentMin : Z := 3.

(** worker/system_alerts.go:331-333 [layoutDiff, whether a bridge is in an incident] *)
Definition in_incident (state : systemAlertState) (st : FeedTypeStat) : bool :=
  negb ((LayoutFeeds st =? 0)
        || (negb (bool_decide (FeedType st ∈ Layout state)) && (LayoutFeeds st <? Z.min layoutIncidentMin (Total st)))).

(** worker/system_alerts.go [systemAlerter.layoutDiff] The bridges that recovered come in
    the order of a map. *)
Definition layoutDiff (state : systemAlertState) (stats : list FeedTypeStat) : list alertMessage * gset string :=
  let cur := filter (λ st, in_incident state st = true) stats in
  let cur_set : gset string := list_to_set (FeedType <$> cur) in
  let entered := filter (λ st, FeedType st ∉ Layout state) cur in
  (((λ st, BridgeLayout (FeedType st) (LayoutFeeds st) (Total st) (LayoutMarker st)) <$> entered)
     ++ (BridgeRecovered <$> elements (Layout state ∖ cur_set)), cur_set).

(** A message unless there is nothing new. *)
Definition news {A} (l : list A) (m : list A → alertMessage) : list alertMessage :=
  match l with [] => [] | _ => [m l] end.

Section Alerts.
Context (cfg : SystemAlertsConfig).

(** worker/system_alerts.go:222-233 [diff, the release] *)
Definition release_diff (state : systemAlertState) (latest : option string) : list alertMessage * string :=
  match latest with
  | Some latest =>
      if negb (String.eqb (CurrentVersion cfg) "") && negb (String.eqb (CurrentVersion cfg) "dev")
         && negb (String.eqb latest "") && negb (String.eqb latest (Release state))
         && (CompareSemver (CurrentVersion cfg) latest <? 0)
      then ([Update latest (CurrentVersion cfg)], latest)
      else ([], Release state)
  | None => ([], Release state)
  end.

(** worker/system_alerts.go:235-246 [diff, the backup] *)
Definition backup_diff (state : systemAlertState) (age : option Z) : list alertMessage * bool :=
  if HasBackupDir cfg && (0 <? BackupMaxAge cfg) then
    match age with
    | Some age => let stale := BackupMaxAge cfg <? age in
                  (if stale && negb (Backup state) then [BackupStale age] else [], stale)
    | None => ([], false)
    end
  else ([], false).

(** worker/system_alerts.go:247-259 [diff, the proxy] *)
Definition proxy_diff (state : systemAlertState) (outage : option (option Z)) : list alertMessage * bool :=
  match outage with
  | None => ([], false)
  | Some st => (match st with
                | Some failures => if Proxy state then [] else [ProxyDown failures]
                | None => []
                end, match st with Some _ => true | None => false end)
  end.

(** worker/system_alerts.go [systemAlerter.diff] *)
Definition diff (state : systemAlertState) (rd : Reads) : option (list alertMessage * systemAlertState) :=
  paused ← rd_paused rd;
  let newPaused := filter (λ f, af_ID f ∉ Paused state) paused in
  silent ← rd_silent rd;
  let newSilent := filter (λ f, af_ID f ∉ Silent state) silent in
  failing ← rd_failing rd;
  let newFailing := filter (λ w, ah_ID w ∉ Webhooks state) failing in
  let '(m_rel, rel) := release_diff state (rd_latest rd) in
  let '(m_bak, bak) := backup_diff state (rd_backup rd) in
  let '(m_prx, prx) := proxy_diff state (rd_proxy rd) in
  stats ← rd_stats rd;
  let '(m_lay, lay) := layoutDiff state stats in
  Some (news newPaused (λ l, FeedsPaused (feed_ids l)) ++ news newSilent (λ l, FeedsSilent (feed_ids l))
        ++ news newFailing (λ l, WebhooksFailing (ah_ID <$> l)) ++ m_rel ++ m_bak ++ m_prx ++ m_lay,
        mkAlertState (list_to_set (af_ID <$> paused)) (list_to_set (af_ID <$> silent))
          (list_to_set (ah_ID <$> failing)) rel bak prx lay).

(** worker/system_alerts.go [sameSet] *)
Definition sameSet (a b : gset Z) : bool :=
  Nat.eqb (size a) (size b) && forallb (λ k, bool_decide (k ∈ b)) (elements a).

(** worker/system_alerts.go [stateChanged] [maps.Equal] of the layout sets. *)
Definition stateChanged (old cur : systemAlertState) : bool :=
  negb (sameSet (Paused old) (Paused cur)) || negb (sameSet (Silent old) (Silent cur))
  || negb (sameSet (Webhooks old) (Webhooks cur)) || negb (String.eqb (Release old) (Release cur))
  || negb (Bool.eqb (Backup old) (Backup cur)) || negb (Bool.eqb (Proxy old) (Proxy cur))
  || negb (bool_decide (Layout old = Layout cur)).

(** worker/system_alerts.go [systemAlerter] With the stored setting. *)
Record systemAlerter := mkAlerter { a_state : systemAlertState; a_seeded : bool; a_setting : option systemAlertState }.

(** worker/system_alerts.go [systemAlerter.load] A process starts with the setting it finds. *)
Definition load (setting : option systemAlertState) : systemAlerter :=
  match setting with
  | Some s => mkAlerter s true setting
  | None => mkAlerter no_alerts false None
  end.

(** worker/system_alerts.go [systemAlerter.save] *)
Definition save (ok : bool) (a : systemAlerter) : systemAlerter :=
  if ok then mkAlerter (a_state a) (a_seeded a) (Some (a_state a)) else a.

(** worker/system_alerts.go [systemAlerter.pass] The messages, each sent through every
    hook and put in the audit log. *)
Definition pass (a : systemAlerter) (rd : Reads) : systemAlerter * list alertMessage :=
  match rd_hooks rd with
  | None => (a, [])
  | Some [] =>
      if a_seeded a then (save (rd_saves rd) (mkAlerter no_alerts false (a_setting a)), []) else (a, [])
  | Some _ =>
      match diff (a_state a) rd with
      | None => (a, [])
      | Some (msgs, next) =>
          let changed := negb (a_seeded a) || negb (Nat.eqb (length msgs) 0) || stateChanged (a_state a) next in
          let msgs := if a_seeded a then msgs else [] in
          let a := mkAlerter next true (a_setting a) in
          (if changed then save (rd_saves rd) a else a, msgs)
      end
  end.

(** worker/system_alerts.go [Runner.systemAlertsLoop] A run of ticks: [None] while the
    workers are paused. *)
Fixpoint systemAlertsLoop (a : systemAlerter) (ticks : list (option Reads)) : systemAlerter * list (list alertMessage) :=
  match ticks with
  | [] => (a, [])
  | None :: ticks => systemAlertsLoop a ticks
  | Some rd :: ticks =>
      let '(a, msgs) := pass a rd in
      let '(a, all) := systemAlertsLoop a ticks in (a, msgs :: all)
  end.
End Alerts.

(** * Lemmas *)

Lemma sameSet_eq a b : sameSet a b = true ↔ a = b.
Proof.
  unfold sameSet. rewrite andb_true_iff, Nat.eqb_eq, forallb_forall. split.
  - intros [Hs Hk]. apply set_subseteq_size_eq; [|lia]. intros k Hka.
    specialize (Hk k). rewrite <-list_elem_of_In, elem_of_elements, bool_decide_eq_true in Hk. auto.
  - intros ->. split; [done|]. intros k. rewrite <-list_elem_of_In, elem_of_elements, bool_decide_eq_true. done.
Qed.

Lemma stateChanged_false a b : stateChanged a b = false ↔ a = b.
Proof.
  unfold stateChanged. rewrite !orb_false_iff, !negb_false_iff, !sameSet_eq, String.eqb_eq, !Bool.eqb_true_iff, bool_decide_eq_true.
  destruct a, b; cbn. split; [intros; destruct_and!; by subst|by intros [= -> -> -> -> -> -> ->]].
Qed.

(** Saved means: what a restart would find is what the process has. *)
Definition synced (a : systemAlerter) : Prop := a_seeded a = true → a_setting a = Some (a_state a).

Lemma pass_synced cfg a rd : rd_saves rd = true → synced a → synced (pass cfg a rd).1.
Proof.
  intros Hs Ha. unfold pass. destruct (rd_hooks rd) as [[|h hooks]|]; [|..|done].
  - destruct (a_seeded a) eqn:E; [|done]. unfold save. by rewrite Hs.
  - destruct (diff cfg (a_state a) rd) as [[msgs next]|]; [|done]. cbn [fst].
    destruct (negb (a_seeded a) || _ || _) eqn:Hc; [unfold save; rewrite Hs; by intros _|].
    apply orb_false_iff in Hc as [[Hseed%negb_false_iff _]%orb_false_iff Hc%stateChanged_false]. intros _. cbn.
    rewrite <-Hc. by apply Ha.
Qed.

Lemma loop_synced cfg ticks : Forall (λ t, match t with Some rd => rd_saves rd = true | None => True end) ticks →
  ∀ a, synced a → synced (systemAlertsLoop cfg a ticks).1.
Proof.
  induction 1 as [|[rd|] ticks Hrd _ IH]; intros a Ha; cbn [systemAlertsLoop]; [done| |by apply IH].
  pose proof (pass_synced cfg a rd Hrd Ha) as Hp. destruct (pass cfg a rd) as [a1 msgs]. specialize (IH a1 Hp).
  by destruct (systemAlertsLoop cfg a1 ticks).
Qed.

(** A pass that sees everything, for someone; and one that fails to read. *)
Definition good (rd : Reads) (paused silent : list SystemAlertFeed) (failing : list SystemAlertWebhook) (stats : list FeedTypeStat) : Prop :=
  (∃ h hs, rd_hooks rd = Some (h :: hs)) ∧ rd_paused rd = Some paused ∧ rd_silent rd = Some silent ∧
  rd_failing rd = Some failing ∧ rd_stats rd = Some stats.

Definition unreadable (rd : Reads) : Prop :=
  rd_hooks rd = None ∨
  (rd_hooks rd ≠ Some [] ∧ (rd_paused rd = None ∨ rd_silent rd = None ∨ rd_failing rd = None ∨ rd_stats rd = None)).

Lemma unreadable_pass cfg a rd : unreadable rd → pass cfg a rd = (a, []).
Proof.
  unfold unreadable, pass. intros [->|[Hh Hr]]; [done|]. destruct (rd_hooks rd) as [[|h hs]|]; [done| |done].
  assert (diff cfg (a_state a) rd = None) as ->; [|done].
  unfold diff. destruct (rd_paused rd), (rd_silent rd), (rd_failing rd), (rd_stats rd); cbn; try done;
    repeat case_match; try done; naive_solver.
Qed.

Lemma unreadable_ticks cfg a bad ticks : Forall unreadable bad →
  (systemAlertsLoop cfg a ((Some <$> bad) ++ ticks)).1 = (systemAlertsLoop cfg a ticks).1.
Proof.
  induction 1 as [|rd bad Hrd _ IH]; [done|]. cbn. rewrite unreadable_pass by done.
  rewrite <-IH. by destruct (systemAlertsLoop cfg a _).
Qed.

Lemma good_diff cfg state rd paused silent failing stats : good rd paused silent failing stats →
  diff cfg state rd =
  Some (news (filter (λ f, af_ID f ∉ Paused state) paused) (λ l, FeedsPaused (feed_ids l))
        ++ news (filter (λ f, af_ID f ∉ Silent state) silent) (λ l, FeedsSilent (feed_ids l))
        ++ news (filter (λ w, ah_ID w ∉ Webhooks state) failing) (λ l, WebhooksFailing (ah_ID <$> l))
        ++ (release_diff cfg state (rd_latest rd)).1 ++ (backup_diff cfg state (rd_backup rd)).1
        ++ (proxy_diff state (rd_proxy rd)).1 ++ (layoutDiff state stats).1,
        mkAlertState (list_to_set (af_ID <$> paused)) (list_to_set (af_ID <$> silent)) (list_to_set (ah_ID <$> failing))
          (release_diff cfg state (rd_latest rd)).2 (backup_diff cfg state (rd_backup rd)).2
          (proxy_diff state (rd_proxy rd)).2 (layoutDiff state stats).2).
Proof.
  intros (_ & Hp & Hs & Hf & Hst). unfold diff. rewrite Hp, Hs, Hf, Hst. cbn [mbind option_bind].
  destruct (release_diff _ _ _), (backup_diff _ _ _), (proxy_diff _ _), (layoutDiff _ _). done.
Qed.

Lemma save_state ok a : a_state (save ok a) = a_state a ∧ a_seeded (save ok a) = a_seeded a.
Proof. by destruct ok. Qed.

Lemma good_pass cfg a rd paused silent failing stats : good rd paused silent failing stats →
  ∃ msgs next, diff cfg (a_state a) rd = Some (msgs, next) ∧
    a_state (pass cfg a rd).1 = next ∧ a_seeded (pass cfg a rd).1 = true ∧
    (pass cfg a rd).2 = if a_seeded a then msgs else [].
Proof.
  intros Hg. pose proof (good_diff cfg (a_state a) rd _ _ _ _ Hg) as Hd. destruct Hg as ((h & hs & Hh) & _).
  eexists _, _. split; [exact Hd|]. unfold pass. rewrite Hh, Hd. cbn [fst snd].
  destruct (_ || _ || _); split_and!; try done; by apply save_state.
Qed.

(** ** Who is announced *)

(** The feeds, webhooks and bridges the messages name, by kind. *)
Definition paused_of (msgs : list alertMessage) : list Z := msgs ≫= λ m, match m with FeedsPaused l => l | _ => [] end.
Definition silent_of (msgs : list alertMessage) : list Z := msgs ≫= λ m, match m with FeedsSilent l => l | _ => [] end.
Definition failing_of (msgs : list alertMessage) : list Z := msgs ≫= λ m, match m with WebhooksFailing l => l | _ => [] end.
Definition entered_of (msgs : list alertMessage) : list string :=
  msgs ≫= λ m, match m with BridgeLayout b _ _ _ => [b] | _ => [] end.
Definition recovered_of (msgs : list alertMessage) : list string :=
  msgs ≫= λ m, match m with BridgeRecovered b => [b] | _ => [] end.

Lemma news_bind {A B} (l : list A) (m : list A → alertMessage) (f : alertMessage → list B) :
  news l m ≫= f = match l with [] => [] | _ => f (m l) end.
Proof. destruct l; [done|]. apply app_nil_r. Qed.

Lemma bind_none {B} (l : list alertMessage) (f : alertMessage → list B) : (∀ x, x ∈ l → f x = []) → l ≫= f = [].
Proof. induction l as [|x l IH]; [done|]. intros H. cbn. rewrite H by left. apply IH. intros y ?. apply H. by right. Qed.

Lemma release_bind {B} cfg state l (f : alertMessage → list B) : (∀ v c, f (Update v c) = []) →
  (release_diff cfg state l).1 ≫= f = [].
Proof. intros Hf. apply bind_none. intros x. unfold release_diff. repeat case_match; cbn; set_solver. Qed.
Lemma backup_bind {B} cfg state b (f : alertMessage → list B) : (∀ g, f (BackupStale g) = []) →
  (backup_diff cfg state b).1 ≫= f = [].
Proof. intros Hf. apply bind_none. intros x. unfold backup_diff. repeat case_match; cbn; set_solver. Qed.
Lemma proxy_bind {B} state b (f : alertMessage → list B) : (∀ n, f (ProxyDown n) = []) →
  (proxy_diff state b).1 ≫= f = [].
Proof. intros Hf. apply bind_none. intros x. unfold proxy_diff. repeat case_match; cbn; set_solver. Qed.
Lemma layout_bind {B} state stats (f : alertMessage → list B) : (∀ b n t m, f (BridgeLayout b n t m) = []) →
  (∀ b, f (BridgeRecovered b) = []) → (layoutDiff state stats).1 ≫= f = [].
Proof. intros Hf Hg. apply bind_none. intros x. unfold layoutDiff. cbn [fst]. rewrite elem_of_app, !list_elem_of_fmap. naive_solver. Qed.

Lemma fmap_bind_nil {A B} (l : list A) (g : A → alertMessage) (f : alertMessage → list B) : (∀ x, f (g x) = []) → (g <$> l) ≫= f = [].
Proof. intros H. apply bind_none. by intros ? (x & -> & _)%list_elem_of_fmap. Qed.

Lemma fmap_bind_one {A B} (l : list A) (g : A → alertMessage) (f : alertMessage → list B) (h : A → B) :
  (∀ x, f (g x) = [h x]) → (g <$> l) ≫= f = h <$> l.
Proof. intros H. induction l as [|x l IH]; [done|]. cbn. rewrite H. cbn. by f_equal. Qed.

(** The messages of a pass, by kind. *)
Lemma diff_announces cfg state rd paused silent failing stats msgs next : good rd paused silent failing stats →
  diff cfg state rd = Some (msgs, next) →
  paused_of msgs = feed_ids (filter (λ f, af_ID f ∉ Paused state) paused) ∧
  silent_of msgs = feed_ids (filter (λ f, af_ID f ∉ Silent state) silent) ∧
  failing_of msgs = ah_ID <$> filter (λ w, ah_ID w ∉ Webhooks state) failing ∧
  entered_of msgs = FeedType <$> filter (λ st, FeedType st ∉ Layout state) (filter (λ st, in_incident state st = true) stats) ∧
  recovered_of msgs = elements (Layout state ∖ (layoutDiff state stats).2).
Proof.
  intros Hg. rewrite (good_diff cfg state rd _ _ _ _ Hg). intros [= <- <-].
  unfold paused_of, silent_of, failing_of, entered_of, recovered_of. rewrite !bind_app, !news_bind.
  rewrite !release_bind, !backup_bind, !proxy_bind by done. rewrite !app_nil_l.
  split_and!; rewrite ?(fmap_bind_one _ _ _ FeedType), ?(fmap_bind_one _ _ _ id), ?fmap_bind_nil, ?list_fmap_id by done;
    rewrite ?app_nil_r; destruct (filter _ paused), (filter _ silent), (filter _ failing); rewrite ?app_nil_l, ?app_nil_r; done.
Qed.

(** * Theorems *)

(** An alert is sent when a problem appears and not again while it lasts: after a pass
    that saw everything, any passes that could not read the store change nothing and
    say nothing, and the next pass that can names exactly the feeds paused or silent
    and the webhooks failing now that were not then; a bridge is named when unreadable
    markup reaches three of its feeds (or all of them) outside an incident, and named
    recovered when inside one every feed reads again. *)
Lemma alerts_edge_triggered cfg a rd1 bad rd2 p1 s1 f1 t1 p2 s2 f2 t2 :
  good rd1 p1 s1 f1 t1 → Forall unreadable bad → good rd2 p2 s2 f2 t2 →
  let a1 := (pass cfg a rd1).1 in
  let msgs := (pass cfg (systemAlertsLoop cfg a1 (Some <$> bad)).1 rd2).2 in
  (systemAlertsLoop cfg a1 (Some <$> bad)).2 = replicate (length bad) [] ∧
  (∀ i, i ∈ paused_of msgs ↔ i ∈ af_ID <$> p2 ∧ i ∉ af_ID <$> p1) ∧
  (∀ i, i ∈ silent_of msgs ↔ i ∈ af_ID <$> s2 ∧ i ∉ af_ID <$> s1) ∧
  (∀ i, i ∈ failing_of msgs ↔ i ∈ ah_ID <$> f2 ∧ i ∉ ah_ID <$> f1) ∧
  (∀ b, b ∈ entered_of msgs ↔ b ∉ Layout (a_state a1) ∧ ∃ st, st ∈ t2 ∧ FeedType st = b ∧
     LayoutFeeds st ≠ 0 ∧ Z.min layoutIncidentMin (Total st) <= LayoutFeeds st) ∧
  (∀ b, b ∈ recovered_of msgs ↔ b ∈ Layout (a_state a1) ∧ ∀ st, st ∈ t2 → FeedType st = b → LayoutFeeds st = 0).
Proof.
  intros H1 Hbad H2. cbv zeta.
  destruct (good_pass cfg a rd1 _ _ _ _ H1) as (m1 & n1 & Hd1 & Hst1 & Hse1 & _).
  set (a1 := (pass cfg a rd1).1) in *.
  assert (systemAlertsLoop cfg a1 (Some <$> bad) = (a1, replicate (length bad) [])) as ->.
  { clear -Hbad. induction Hbad as [|rd bad Hrd _ IH]; [done|]. cbn. by rewrite unreadable_pass, IH. }
  cbn [fst snd]. split; [done|].
  destruct (good_pass cfg a1 rd2 _ _ _ _ H2) as (m2 & n2 & Hd2 & _ & _ & ->). rewrite Hse1.
  destruct (diff_announces cfg (a_state a1) rd2 _ _ _ _ m2 n2 H2 Hd2) as (-> & -> & -> & -> & ->).
  rewrite (good_diff cfg (a_state a) rd1 _ _ _ _ H1) in Hd1. injection Hd1 as _ Hn1. rewrite <-Hst1 in Hn1.
  assert (Paused (a_state a1) = list_to_set (af_ID <$> p1)) as HP by by rewrite <-Hn1.
  assert (Silent (a_state a1) = list_to_set (af_ID <$> s1)) as HS by by rewrite <-Hn1.
  assert (Webhooks (a_state a1) = list_to_set (ah_ID <$> f1)) as HW by by rewrite <-Hn1.
  split_and!.
  - intros i. unfold feed_ids. rewrite (merge_sort_Permutation Z.le (af_ID <$> filter _ p2)), list_elem_of_fmap.
    setoid_rewrite list_elem_of_filter. rewrite HP. setoid_rewrite elem_of_list_to_set. set_solver.
  - intros i. unfold feed_ids. rewrite (merge_sort_Permutation Z.le (af_ID <$> filter _ s2)), list_elem_of_fmap.
    setoid_rewrite list_elem_of_filter. rewrite HS. setoid_rewrite elem_of_list_to_set. set_solver.
  - intros i. rewrite list_elem_of_fmap. setoid_rewrite list_elem_of_filter. rewrite HW.
    setoid_rewrite elem_of_list_to_set. set_solver.
  - intros b. rewrite list_elem_of_fmap. setoid_rewrite list_elem_of_filter. setoid_rewrite list_elem_of_filter. split.
    + intros (st & -> & Hn & Hi & Hst). split; [done|]. exists st. unfold in_incident in Hi.
      rewrite bool_decide_false in Hi by done. cbn [negb andb] in Hi. split_and!; [done|done|lia|lia].
    + intros (Hn & st & Hst & <- & H0 & Hm). exists st. split_and!; [done|done| |done].
      unfold in_incident. rewrite bool_decide_false by done. cbn [negb andb]. lia.
  - intros b. unfold layoutDiff. cbn [snd]. rewrite elem_of_elements, elem_of_difference, elem_of_list_to_set, list_elem_of_fmap.
    setoid_rewrite list_elem_of_filter. split; intros [Hb Hrest]; (split; [done|]).
    + intros st Hst <-. destruct (decide (LayoutFeeds st = 0)) as [|Hne]; [done|]. exfalso. apply Hrest. exists st.
      split_and!; [done| |done]. unfold in_incident. rewrite bool_decide_true by done. cbn. lia.
    + intros (st & -> & Hi & Hst). unfold in_incident in Hi. by rewrite (Hrest st Hst eq_refl) in Hi.
Qed.

Definition wit_feed (i : Z) : SystemAlertFeed := mkAlertFeed i "feed" "timeout".
Definition wit_reads (paused : list Z) (layout : Z) : Reads :=
  mkReads (Some [1]) (Some (wit_feed <$> paused)) (Some []) (Some []) None None None
    (Some [mkStat "telegram" 10 layout "tgme_widget"]) true.
Definition wit_cfg : SystemAlertsConfig := mkAlertsCfg false 0 "0.5.0".

Lemma alerts_edge_triggered_witness :
  let a1 := (pass wit_cfg (load None) (wit_reads [5] 2)).1 in
  let bad := mkReads (Some [1]) None None None None None None None true in
  let msgs := (pass wit_cfg (systemAlertsLoop wit_cfg a1 [Some bad; Some bad]).1 (wit_reads [5; 7] 3)).2 in
  (7 ∈ paused_of msgs ∧ 5 ∉ paused_of msgs) ∧ "telegram"%string ∈ entered_of msgs.
Proof.
  destruct (alerts_edge_triggered wit_cfg (load None) (wit_reads [5] 2)
    [mkReads (Some [1]) None None None None None None None true; mkReads (Some [1]) None None None None None None None true]
    (wit_reads [5; 7] 3) (wit_feed <$> [5]) [] [] [mkStat "telegram" 10 2 "tgme_widget"]
    (wit_feed <$> [5; 7]) [] [] [mkStat "telegram" 10 3 "tgme_widget"]) as (_ & Hp & _ & _ & He & _).
  - split; [by exists 1, []|done].
  - repeat (apply Forall_cons_2; [right; split; [done|by left]|]). apply Forall_nil_2.
  - split; [by exists 1, []|done].
  - split; [split|].
    + apply Hp. split; apply (bool_decide_unpack _); vm_compute; exact I.
    + intros H. apply Hp in H as [_ H]. apply H. left.
    + apply He. split; [apply (bool_decide_unpack _); vm_compute; exact I|].
      exists (mkStat "telegram" 10 3 "tgme_widget"). split; [left|]. repeat split; [done|vm_compute; discriminate].
Defined.

(** A restart repeats and forgets nothing: as long as saving works, whatever passes a
    process has made, once it has a baseline a new process loads exactly its state. *)
Lemma alerts_survive_restart cfg setting ticks :
  Forall (λ t, match t with Some rd => rd_saves rd = true | None => True end) ticks →
  let a := (systemAlertsLoop cfg (load setting) ticks).1 in
  a_seeded a = true → load (a_setting a) = a.
Proof.
  intros Ht a Hs. assert (synced (load setting)) as Hl by (destruct setting; done).
  pose proof (loop_synced cfg ticks Ht (load setting) Hl) as Ha. fold a in Ha. specialize (Ha Hs). rewrite Ha. cbn.
  destruct a as [st seeded set]. cbn in *. by subst.
Qed.

Lemma alerts_survive_restart_witness :
  let a := (systemAlertsLoop wit_cfg (load None) [Some (wit_reads [5] 0); None; Some (wit_reads [5; 6] 4)]).1 in
  a_seeded a = true ∧ load (a_setting a) = a.
Proof.
  cbv zeta. split; [vm_compute; reflexivity|].
  apply (alerts_survive_restart wit_cfg None [Some (wit_reads [5] 0); None; Some (wit_reads [5; 6] 4)]);
    [repeat constructor|vm_compute; reflexivity].
Defined.

(** The clean baseline that losing the last subscriber leaves does not survive a
    restart: the saved empty state counts as one already announced, so that where the
    running process would take the first subscriber's problems as its baseline, a
    restarted one announces every feed that is already paused. *)
Lemma alerts_reset_then_restart cfg a rd0 rd p s f t :
  a_seeded a = true → rd_hooks rd0 = Some [] → rd_saves rd0 = true → good rd p s f t →
  let a0 := (pass cfg a rd0).1 in
  (pass cfg a0 rd).2 = [] ∧
  ∀ i, i ∈ af_ID <$> p → i ∈ paused_of (pass cfg (load (a_setting a0)) rd).2.
Proof.
  intros Hs Hh Hsv Hg. cbv zeta.
  assert ((pass cfg a rd0).1 = mkAlerter no_alerts false (Some no_alerts)) as ->.
  { unfold pass. by rewrite Hh, Hs, Hsv. }
  split.
  - by destruct (good_pass cfg (mkAlerter no_alerts false (Some no_alerts)) rd _ _ _ _ Hg) as (? & ? & _ & _ & _ & ->).
  - intros i Hi. cbn [a_setting load].
    destruct (good_pass cfg (mkAlerter no_alerts true (Some no_alerts)) rd _ _ _ _ Hg) as (m & n & Hd & _ & _ & ->).
    cbn [a_seeded]. destruct (diff_announces cfg _ rd _ _ _ _ m n Hg Hd) as (-> & _). unfold feed_ids.
    rewrite (merge_sort_Permutation Z.le (af_ID <$> filter _ p)). cbn [a_state no_alerts Paused].
    apply list_elem_of_fmap in Hi as (x & -> & Hx). apply list_elem_of_fmap_2, list_elem_of_filter. split; [set_solver|done].
Qed.

Lemma alerts_reset_then_restart_witness :
  let a := (pass wit_cfg (load None) (wit_reads [5] 0)).1 in
  let a0 := (pass wit_cfg a (mkReads (Some []) None None None None None None None true)).1 in
  (pass wit_cfg a0 (wit_reads [5; 8] 0)).2 = [] ∧ 8 ∈ paused_of (pass wit_cfg (load (a_setting a0)) (wit_reads [5; 8] 0)).2.
Proof.
  cbv zeta.
  destruct (alerts_reset_then_restart wit_cfg (pass wit_cfg (load None) (wit_reads [5] 0)).1
    (mkReads (Some []) None None None None None None None true) (wit_reads [5; 8] 0) (wit_feed <$> [5; 8]) [] []
    [mkStat "telegram" 10 0 "tgme_widget"]) as [H1 H2];
    [vm_compute; reflexivity|reflexivity|reflexivity|split; [by exists 1, []|done]|].
  split; [exact H1|]. apply H2. right. left.
Defined.
