(* ===== verification/UserStore.v ===== *)
(** Accounts, API keys and sessions ([storage/users.go], [storage/sessions.go])
    with the roles, quotas and password policy they are checked against
    ([auth], [quota]).  bcrypt is a parameter.  Column lengths, creation times and
    a failing database are left out; the two transactions that could remove the last
    admin hold one advisory lock, so that they run one after the other. *)

From S2P Require Import Prelude GoStrings Types.
From S2P Require EntryStore.

(** * Roles and quotas *)

Definition RoleReader : string := "reader".
Definition RoleEditor : string := "editor".
Definition RoleAdmin : string := "admin".

(** auth/role.go:14-14 [roleRank] *)
Definition roleRank (role : string) : option Z :=
  if String.eqb role RoleReader then Some 1
  else if String.eqb role RoleEditor then Some 2
  else if String.eqb role RoleAdmin then Some 3 else None.

(** auth/role.go [IsValidRole] *)
Definition IsValidRole (role : string) : bool := match roleRank role with Some _ => true | None => false end.

(** auth/role.go [RoleAtLeast] A missing map entry is 0. *)
Definition RoleAtLeast (have want : string) : bool :=
  match roleRank have with Some h => default 0 (roleRank want) <=? h | None => false end.

(** auth/context.go [Principal] *)
Record Principal := mkPrincipal { p_UserID : Z; p_Role : string; p_Username : string; p_Scope : string }.

(** auth/context.go [Principal.IsAdmin] *)
Definition IsAdmin (p : Principal) : bool := String.eqb (p_Role p) RoleAdmin.

(** auth/context.go [Principal.CanEdit] *)
Definition CanEdit (p : Principal) : bool := RoleAtLeast (p_Role p) RoleEditor.

(** quota/quota.go [Limits] *)
Record Limits := mkLimits { MaxFeedsPerEditor : Z; MaxWebhooksPerEditor : Z; EditorMinPollInterval : Z }.

(** quota/quota.go [Limits.Feeds] Whether one more fits. *)
Definition quota_Feeds (l : Limits) (p : Principal) (current : Z) : bool :=
  (MaxFeedsPerEditor l <=? 0) || IsAdmin p || (current <? MaxFeedsPerEditor l).

(** quota/quota.go [Limits.Webhooks] *)
Definition quota_Webhooks (l : Limits) (p : Principal) (current : Z) : bool :=
  (MaxWebhooksPerEditor l <=? 0) || IsAdmin p || (current <? MaxWebhooksPerEditor l).

(** quota/quota.go [Limits.PollInterval] *)
Definition quota_PollInterval (l : Limits) (p : Principal) (minutes : Z) : bool :=
  if (EditorMinPollInterval l <=? 0) || IsAdmin p then true
  else let floor := Z.quot (EditorMinPollInterval l) minute in
       let floor := if negb (Z.rem (EditorMinPollInterval l) minute =? 0) then floor + 1 else floor in
       floor <=? minutes.

(** * The tables *)

(** storage/users.go [User] *)
Record User := mkUser { u_ID : Z; u_Username : string; u_PasswordHash : string; u_Role : string }.

(** storage/users.go [APIKey] *)
Record APIKey := mkAPIKey {
  k_ID : Z; k_UserID : Z; k_Name : string; k_TokenHash : string; k_Scope : string; k_ExpiresAt : option Z;
  k_LastUsedAt : option Z;
}.

(** storage/users.go [APIKey.Expired] *)
Definition Expired (k : APIKey) (now : Z) : bool :=
  match k_ExpiresAt k with Some t => negb (time_after t now) | None => false end.

(** storage/sessions.go [Session] *)
Record Session := mkSession { s_ID : Z; s_UserID : Z; s_SessionID : string; s_ExpiresAt : Z }.

Record UserDb := mkUserDb {
  ud_users : gmap Z User; ud_next_user : Z; ud_keys : gmap Z APIKey; ud_next_key : Z;
  ud_sessions : gmap Z Session; ud_next_session : Z;
}.

Definition with_users db m := mkUserDb m (ud_next_user db) (ud_keys db) (ud_next_key db) (ud_sessions db) (ud_next_session db).
Definition with_keys db m := mkUserDb (ud_users db) (ud_next_user db) m (ud_next_key db) (ud_sessions db) (ud_next_session db).
Definition with_sessions db m := mkUserDb (ud_users db) (ud_next_user db) (ud_keys db) (ud_next_key db) m (ud_next_session db).

Definition ErrDuplicateUsername : err := EMsg "username already exists".
Definition is_duplicate_username (e : err) : bool :=
  match e with EMsg t => String.eqb t "username already exists" | _ => false end.
Definition ErrInvalidRole : err := EMsg "invalid role".
Definition ErrLastAdmin : err := EMsg "cannot remove the last admin".

(** The rows that satisfy [p], by key. *)
Definition rows_where {V} (p : V → bool) (m : gmap Z V) : list V :=
  (map_to_list (filter (λ kv, p kv.2 = true) m)).*2.

Definition count_where {V} (p : V → bool) (m : gmap Z V) : Z := Z.of_nat (size (filter (λ kv, p kv.2 = true) m)).

(** * Users *)

(** storage/users.go [PostgresStore.CountUsers] *)
Definition CountUsers (db : UserDb) : Z := Z.of_nat (size (ud_users db)).

Definition login_capable (u : User) : bool := negb (String.eqb (u_PasswordHash u) "").
Definition login_admin (u : User) : bool := String.eqb (u_Role u) RoleAdmin && login_capable u.

(** storage/users.go [PostgresStore.CountLoginCapableUsers] *)
Definition CountLoginCapableUsers (db : UserDb) : Z := count_where login_capable (ud_users db).

Definition by_id (a b : User) : Prop := u_ID a <= u_ID b.
#[export] Instance by_id_dec : RelDecision by_id.
Proof. unfold by_id. intros a b. apply _. Defined.

(** storage/users.go [PostgresStore.ListUsers] *)
Definition ListUsers (db : UserDb) (limit : Z) (offset : nat) : list User * Z :=
  let limit := if limit <=? 0 then 100 else limit in
  let rows := merge_sort by_id ((map_to_list (ud_users db)).*2) in
  let page := take (Z.to_nat limit) (drop offset rows) in
  (* the total comes with the rows *)
  (page, match page with [] => 0 | _ => CountUsers db end).

(** storage/users.go [PostgresStore.GetUser] *)
Definition GetUser (db : UserDb) (id : Z) : err + User :=
  match ud_users db !! id with Some u => inr u | None => inl ENotFound end.

(** storage/users.go [PostgresStore.GetUserByUsername] *)
Definition GetUserByUsername (db : UserDb) (username : string) : err + User :=
  match rows_where (λ u, String.eqb (u_Username u) (trim_space username)) (ud_users db) with
  | u :: _ => inr u
  | [] => inl ENotFound
  end.

(** storage/users.go [CreateUserParams] *)
Record CreateUserParams := mkCreateUser { cu_Username : string; cu_PasswordHash : string; cu_Role : string }.

(** storage/users.go [UpdateUserParams] *)
Record UpdateUserParams := mkUpdateUser { uu_ID : Z; uu_PasswordHash : option string; uu_Role : option string }.

(** storage/users.go [PostgresStore.CreateUser] *)
Definition CreateUser (db : UserDb) (p : CreateUserParams) : UserDb * (err + User) :=
  let username := trim_space (cu_Username p) in
  if String.eqb username "" then (db, inl (EMsg "username is required"))
  else
    let role := if String.eqb (cu_Role p) "" then RoleReader else cu_Role p in
    if negb (IsValidRole role) then (db, inl ErrInvalidRole)
    else match rows_where (λ u, String.eqb (u_Username u) username) (ud_users db) with
         | _ :: _ => (db, inl ErrDuplicateUsername)
         | [] =>
             let u := mkUser (ud_next_user db) username (cu_PasswordHash p) role in
             (mkUserDb (<[ud_next_user db := u]> (ud_users db)) (ud_next_user db + 1) (ud_keys db) (ud_next_key db)
                (ud_sessions db) (ud_next_session db), inr u)
         end.

(** storage/users.go [isLastLoginCapableAdmin] *)
Definition isLastLoginCapableAdmin (db : UserDb) (id : Z) : err + bool :=
  match ud_users db !! id with
  | None => inl ENotFound
  | Some u =>
      if negb (String.eqb (u_Role u) RoleAdmin) || String.eqb (u_PasswordHash u) "" then inr false
      else inr (count_where login_admin (delete id (ud_users db)) =? 0)
  end.

(** storage/users.go [PostgresStore.UpdateUser] *)
Definition UpdateUser (db : UserDb) (p : UpdateUserParams) : UserDb * (err + User) :=
  match uu_PasswordHash p, uu_Role p with
  | None, None => (db, GetUser db (uu_ID p))
  | _, _ =>
      if match uu_Role p with Some r => negb (IsValidRole r) | None => false end then (db, inl ErrInvalidRole)
      else EntryStore.withTx db (λ db,
        match (if match uu_Role p with Some r => negb (String.eqb r RoleAdmin) | None => false end
               then isLastLoginCapableAdmin db (uu_ID p) else inr false) with
        | inl e => (db, inl e)
        | inr true => (db, inl ErrLastAdmin)
        | inr false =>
            match ud_users db !! uu_ID p with
            | None => (db, inl ENotFound)
            | Some u =>
                let u := mkUser (u_ID u) (u_Username u) (default (u_PasswordHash u) (uu_PasswordHash p))
                           (default (u_Role u) (uu_Role p)) in
                (with_users db (<[uu_ID p := u]> (ud_users db)), inr u)
            end
        end)
  end.

(** storage/users.go [PostgresStore.DeleteUser] Keys and sessions of the user go with it. *)
Definition DeleteUser (db : UserDb) (id : Z) : UserDb * (err + unit) :=
  EntryStore.withTx db (λ db,
    match isLastLoginCapableAdmin db id with
    | inl e => (db, inl (EWrap "delete user" e))
    | inr true => (db, inl ErrLastAdmin)
    | inr false =>
        (mkUserDb (delete id (ud_users db)) (ud_next_user db)
           (filter (λ kv, k_UserID kv.2 ≠ id) (ud_keys db)) (ud_next_key db)
           (filter (λ kv, s_UserID kv.2 ≠ id) (ud_sessions db)) (ud_next_session db), inr tt)
    end).

(** * API keys *)

(** storage/users.go [PostgresStore.LookupAPIKey] *)
Definition LookupAPIKey (db : UserDb) (tokenHash : string) : err + APIKey :=
  match rows_where (λ k, String.eqb (k_TokenHash k) tokenHash) (ud_keys db) with
  | k :: _ => inr k
  | [] => inl ENotFound
  end.

(** storage/users.go [PostgresStore.TouchAPIKeyUsed] At most once an hour. *)
Definition TouchAPIKeyUsed (now : Z) (db : UserDb) (keyID : Z) : UserDb :=
  match ud_keys db !! keyID with
  | Some k =>
      if match k_LastUsedAt k with None => true | Some t => t <? now - hour end
      then with_keys db (<[keyID := mkAPIKey (k_ID k) (k_UserID k) (k_Name k) (k_TokenHash k) (k_Scope k) (k_ExpiresAt k) (Some now)]> (ud_keys db))
      else db
  | None => db
  end.

Definition newest_key (a b : APIKey) : Prop := k_ID b <= k_ID a.
#[export] Instance newest_key_dec : RelDecision newest_key.
Proof. unfold newest_key. intros a b. apply _. Defined.

(** storage/users.go [PostgresStore.ListAPIKeys] *)
Definition ListAPIKeys (db : UserDb) (userID : Z) : list APIKey :=
  merge_sort newest_key (rows_where (λ k, k_UserID k =? userID) (ud_keys db)).

(** storage/users.go [PostgresStore.CreateAPIKey] Fails on a token in use and an unknown user. *)
Definition CreateAPIKey (db : UserDb) (userID : Z) (name tokenHash scope : string) (expiresAt : option Z) : UserDb * (err + APIKey) :=
  let scope := if String.eqb scope "" then "admin"%string else scope in
  match rows_where (λ k, String.eqb (k_TokenHash k) tokenHash) (ud_keys db), ud_users db !! userID with
  | [], Some _ =>
      let k := mkAPIKey (ud_next_key db) userID (trim_space name) tokenHash scope expiresAt None in
      (mkUserDb (ud_users db) (ud_next_user db) (<[ud_next_key db := k]> (ud_keys db)) (ud_next_key db + 1)
         (ud_sessions db) (ud_next_session db), inr k)
  | _, _ => (db, inl (EMsg "create api key"))
  end.

(** storage/users.go [PostgresStore.DeleteAPIKey] *)
Definition DeleteAPIKey (db : UserDb) (userID keyID : Z) : UserDb * option err :=
  match ud_keys db !! keyID with
  | Some k => if k_UserID k =? userID then (with_keys db (delete keyID (ud_keys db)), None) else (db, Some ENotFound)
  | None => (db, Some ENotFound)
  end.

(** * Sessions *)

Definition DefaultSessionTTL : Z := 30 * 24 * hour.
Definition SessionTouchInterval : Z := hour.

(** storage/sessions.go [SessionNeedsTouch] *)
Definition SessionNeedsTouch (expiresAt now ttl : Z) : bool :=
  let slack := if ttl <=? 2 * SessionTouchInterval then Z.quot ttl 2 else SessionTouchInterval in
  time_before expiresAt (time_add now (ttl - slack)).

(** storage/sessions.go [PostgresStore.CreateSession] Fails on an id in use and an unknown user. *)
Definition CreateSession (db : UserDb) (userID : Z) (sessionID : string) (expiresAt : Z) : UserDb * (err + Session) :=
  match rows_where (λ s, String.eqb (s_SessionID s) sessionID) (ud_sessions db), ud_users db !! userID with
  | [], Some _ =>
      let s := mkSession (ud_next_session db) userID sessionID expiresAt in
      (mkUserDb (ud_users db) (ud_next_user db) (ud_keys db) (ud_next_key db)
         (<[ud_next_session db := s]> (ud_sessions db)) (ud_next_session db + 1), inr s)
  | _, _ => (db, inl (EMsg "create session"))
  end.

(** storage/sessions.go [PostgresStore.LookupSession] *)
Definition LookupSession (now : Z) (db : UserDb) (sessionID : string) : err + Session :=
  match rows_where (λ s, String.eqb (s_SessionID s) sessionID && (now <? s_ExpiresAt s)) (ud_sessions db) with
  | s :: _ => inr s
  | [] => inl ENotFound
  end.

(** storage/sessions.go [PostgresStore.TouchSession] *)
Definition TouchSession (db : UserDb) (sessionID : string) (expiresAt : Z) : UserDb * option err :=
  match rows_where (λ s, String.eqb (s_SessionID s) sessionID) (ud_sessions db) with
  | [] => (db, Some ENotFound)
  | _ => (with_sessions db ((λ s, if String.eqb (s_SessionID s) sessionID
                                  then mkSession (s_ID s) (s_UserID s) (s_SessionID s) expiresAt else s) <$> ud_sessions db), None)
  end.

(** storage/sessions.go [PostgresStore.DeleteSession] *)
Definition DeleteSession (db : UserDb) (sessionID : string) : UserDb :=
  with_sessions db (filter (λ kv, s_SessionID kv.2 ≠ sessionID) (ud_sessions db)).

(** storage/sessions.go [PostgresStore.DeleteUserSessions] *)
Definition DeleteUserSessions (db : UserDb) (userID : Z) : UserDb :=
  with_sessions db (filter (λ kv, s_UserID kv.2 ≠ userID) (ud_sessions db)).

(** storage/sessions.go [PostgresStore.DeleteUserSessionsExcept] *)
Definition DeleteUserSessionsExcept (db : UserDb) (userID : Z) (keepSessionID : string) : UserDb :=
  with_sessions db (filter (λ kv, ¬ (s_UserID kv.2 = userID ∧ s_SessionID kv.2 ≠ keepSessionID)) (ud_sessions db)).

(** * The first admin *)

(** storage/users.go [PostgresStore.adoptPlaceholderAdmin] *)
Definition adoptPlaceholderAdmin (db : UserDb) (id : Z) (username hash : string) : UserDb * option err :=
  match ud_users db !! id with
  | Some u =>
      if negb (String.eqb (u_PasswordHash u) "") then (db, None)
      else match rows_where (λ v, String.eqb (u_Username v) username && negb (u_ID v =? id)) (ud_users db) with
           | _ :: _ => (db, Some (EMsg "bootstrap admin: adopt placeholder user"))
           | [] => (with_users db (<[id := mkUser (u_ID u) username hash RoleAdmin]> (ud_users db)), None)
           end
  | None => (db, None)
  end.

(** auth/password.go [HashPassword] *)
Definition HashPassword (bcrypt_hash : string → err + string) (password : string) : err + string :=
  if String.eqb password "" then inl (EMsg "password is required") else bcrypt_hash password.

(** storage/users_password.go [hashPassword] *)
Definition hashPassword (bcrypt_hash : string → err + string) (password : string) : err + string :=
  HashPassword bcrypt_hash password.

(** storage/users.go [PostgresStore.EnsureBootstrapAdmin] *)
Definition EnsureBootstrapAdmin (bcrypt_hash : string → err + string) (db : UserDb) (username password : string)
    : UserDb * option err :=
  let username := trim_space username in
  let password := trim_space password in
  if String.eqb username "" || String.eqb password "" then (db, None)
  else if 0 <? CountLoginCapableUsers db then (db, None)
  else match hashPassword bcrypt_hash password with
  | inl e => (db, Some e)
  | inr hash =>
      let create :=
        match CreateUser db (mkCreateUser username hash RoleAdmin) with
        | (db, inr _) => (db, None)
        | (db, inl e) => (db, if is_duplicate_username e then None else Some e)
        end in
      let placeholder :=
        match GetUser db 1 with
        | inr u => if String.eqb (u_PasswordHash u) "" then adoptPlaceholderAdmin db (u_ID u) username hash else create
        | inl e => if err_is_not_found e then create else (db, Some e)
        end in
      match GetUserByUsername db username with
      | inr u => if String.eqb (u_PasswordHash u) "" then adoptPlaceholderAdmin db (u_ID u) username hash else placeholder
      | inl e => if err_is_not_found e then placeholder else (db, Some e)
      end
  end.

(** * Facts about rows *)

Lemma elem_of_rows_where {V} (p : V → bool) (m : gmap Z V) x :
  x ∈ rows_where p m ↔ ∃ k, m !! k = Some x ∧ p x = true.
Proof.
  unfold rows_where. rewrite list_elem_of_fmap. split.
  - intros [[k y] [-> H]]. rewrite elem_of_map_to_list, map_lookup_filter_Some in H. exists k. exact H.
  - intros (k & H & P). exists (k, x). split; [done|]. rewrite elem_of_map_to_list, map_lookup_filter_Some. done.
Qed.

Lemma rows_where_nil {V} (p : V → bool) (m : gmap Z V) :
  rows_where p m = [] → ∀ k x, m !! k = Some x → p x = false.
Proof.
  intros H k x L. destruct (p x) eqn:P; [|done].
  assert (x ∈ rows_where p m) as E by (apply elem_of_rows_where; eauto). rewrite H in E. set_solver.
Qed.

Lemma rows_where_cons {V} (p : V → bool) (m : gmap Z V) x l :
  rows_where p m = x :: l → ∃ k, m !! k = Some x ∧ p x = true.
Proof. intros H. apply elem_of_rows_where. rewrite H. apply list_elem_of_here. Qed.

Lemma count_where_zero {V} (p : V → bool) (m : gmap Z V) :
  count_where p m = 0 ↔ ∀ k x, m !! k = Some x → p x = false.
Proof.
  unfold count_where. split.
  - intros H k x L. destruct (p x) eqn:P; [|done].
    assert (filter (λ kv, p kv.2 = true) m = ∅) as E by (apply map_size_empty_inv; lia).
    assert (filter (λ kv, p kv.2 = true) m !! k = Some x) as F by (by apply map_lookup_filter_Some).
    rewrite E, lookup_empty in F. done.
  - intros H. assert (filter (λ kv, p kv.2 = true) m = ∅) as ->; [|by rewrite map_size_empty].
    apply map_empty. intros k. apply map_lookup_filter_None. right. intros x L. simpl. rewrite (H k x L). done.
Qed.

(** * Every change of the tables *)

Inductive op :=
| OpCreateUser (p : CreateUserParams)
| OpUpdateUser (p : UpdateUserParams)
| OpDeleteUser (id : Z)
| OpBootstrap (username password : string)
| OpCreateKey (userID : Z) (name tokenHash scope : string) (expiresAt : option Z)
| OpTouchKey (now keyID : Z)
| OpDeleteKey (userID keyID : Z)
| OpCreateSession (userID : Z) (sessionID : string) (expiresAt : Z)
| OpTouchSession (sessionID : string) (expiresAt : Z)
| OpDeleteSession (sessionID : string)
| OpDeleteUserSessions (userID : Z)
| OpDeleteUserSessionsExcept (userID : Z) (keep : string).

Definition run (bcrypt_hash : string → err + string) (db : UserDb) (o : op) : UserDb :=
  match o with
  | OpCreateUser p => (CreateUser db p).1
  | OpUpdateUser p => (UpdateUser db p).1
  | OpDeleteUser id => (DeleteUser db id).1
  | OpBootstrap u p => (EnsureBootstrapAdmin bcrypt_hash db u p).1
  | OpCreateKey u n t s e => (CreateAPIKey db u n t s e).1
  | OpTouchKey now k => TouchAPIKeyUsed now db k
  | OpDeleteKey u k => (DeleteAPIKey db u k).1
  | OpCreateSession u s e => (CreateSession db u s e).1
  | OpTouchSession s e => (TouchSession db s e).1
  | OpDeleteSession s => DeleteSession db s
  | OpDeleteUserSessions u => DeleteUserSessions db u
  | OpDeleteUserSessionsExcept u k => DeleteUserSessionsExcept db u k
  end.

(** A row of [users] as its columns and the unique index constrain it. *)
Definition user_ok (db : UserDb) (id : Z) (u : User) : Prop :=
  u_ID u = id ∧ 0 < id < ud_next_user db ∧ IsValidRole (u_Role u) = true ∧ u_Username u ≠ "".

Record db_ok (db : UserDb) : Prop := mkDbOk {
  ok_next : 0 < ud_next_user db;
  ok_user : ∀ id u, ud_users db !! id = Some u → user_ok db id u;
  ok_names : ∀ i j u v, ud_users db !! i = Some u → ud_users db !! j = Some v → u_Username u = u_Username v → i = j;
  ok_key : ∀ id k, ud_keys db !! id = Some k → id < ud_next_key db ∧ is_Some (ud_users db !! k_UserID k);
  ok_tokens : ∀ i j k l, ud_keys db !! i = Some k → ud_keys db !! j = Some l → k_TokenHash k = k_TokenHash l → i = j;
  ok_session : ∀ id s, ud_sessions db !! id = Some s → id < ud_next_session db ∧ is_Some (ud_users db !! s_UserID s);
  ok_session_ids : ∀ i j s t, ud_sessions db !! i = Some s → ud_sessions db !! j = Some t → s_SessionID s = s_SessionID t → i = j;
}.

(** ** Each operation keeps the tables well formed *)

(** New rows of [users]: a fresh id, or columns of a row replaced. *)
Lemma put_user_ok db id u next :
  db_ok db → ud_next_user db <= next → u_ID u = id → 0 < id < next → IsValidRole (u_Role u) = true → u_Username u ≠ "" →
  (∀ j v, ud_users db !! j = Some v → u_Username v = u_Username u → j = id) →
  db_ok (mkUserDb (<[id := u]> (ud_users db)) next (ud_keys db) (ud_next_key db) (ud_sessions db) (ud_next_session db)).
Proof.
  intros W N I B R E U. pose proof (ok_next db W). split; simpl.
  - lia.
  - intros j v [[<- <-]|[_ L]]%lookup_insert_Some; [done|].
    destruct (ok_user db W j v L) as (? & ? & ? & ?). split_and!; simpl; try done; lia.
  - intros i j v w [[<- <-]|[_ L]]%lookup_insert_Some [[<- <-]|[_ M]]%lookup_insert_Some EQ; try done.
    + symmetry. eauto.
    + eauto.
    + eapply (ok_names db W); eauto.
  - intros j k L. destruct (ok_key db W j k L) as [? ?]. split; [done|]. apply lookup_insert_is_Some'. auto.
  - apply (ok_tokens db W).
  - intros j k L. destruct (ok_session db W j k L) as [? ?]. split; [done|]. apply lookup_insert_is_Some'. auto.
  - apply (ok_session_ids db W).
Qed.

Lemma set_user_ok db id u u' :
  db_ok db → ud_users db !! id = Some u → u_ID u' = u_ID u → IsValidRole (u_Role u') = true → u_Username u' ≠ "" →
  (∀ j v, ud_users db !! j = Some v → u_Username v = u_Username u' → j = id) →
  db_ok (with_users db (<[id := u']> (ud_users db))).
Proof.
  intros W L I R N U. destruct (ok_user db W id u L) as (? & ? & _ & _). apply put_user_ok; try done. congruence.
Qed.

Lemma CreateUser_cases db p :
  (CreateUser db p).1 = db ∨
  ∃ username role, IsValidRole role = true ∧ username ≠ "" ∧
    (∀ j v, ud_users db !! j = Some v → u_Username v ≠ username) ∧
    (CreateUser db p).1 = mkUserDb (<[ud_next_user db := mkUser (ud_next_user db) username (cu_PasswordHash p) role]> (ud_users db))
      (ud_next_user db + 1) (ud_keys db) (ud_next_key db) (ud_sessions db) (ud_next_session db).
Proof.
  unfold CreateUser.
  destruct (String.eqb (trim_space _) "") eqn:E; [by left|]. bool_to_prop.
  destruct (negb (IsValidRole _)) eqn:R; [by left|]. bool_to_prop.
  destruct (rows_where _ _) eqn:F; [|by left]. right. do 2 eexists. split; [exact R|]. split; [exact E|].
  split; [|reflexivity]. intros j v L EQ. pose proof (rows_where_nil _ _ F j v L) as H. simpl in H. bool_to_prop. done.
Qed.

Lemma CreateUser_ok db p : db_ok db → db_ok (CreateUser db p).1.
Proof.
  intros W. destruct (CreateUser_cases db p) as [->|(n & r & R & N & U & ->)]; [done|].
  pose proof (ok_next db W). apply put_user_ok; simpl; try done; try lia. intros j v L EQ. by destruct (U j v L).
Qed.

Lemma UpdateUser_cases db p :
  (UpdateUser db p).1 = db ∨
  ∃ u, ud_users db !! uu_ID p = Some u ∧
    match uu_Role p with Some r => IsValidRole r = true | None => True end ∧
    (match uu_Role p with Some r => negb (String.eqb r RoleAdmin) | None => false end = true →
     isLastLoginCapableAdmin db (uu_ID p) = inr false) ∧
    (UpdateUser db p).1 = with_users db (<[uu_ID p :=
      mkUser (u_ID u) (u_Username u) (default (u_PasswordHash u) (uu_PasswordHash p)) (default (u_Role u) (uu_Role p))]> (ud_users db)).
Proof.
  unfold UpdateUser, EntryStore.withTx.
  destruct (uu_PasswordHash p) as [h|], (uu_Role p) as [r|]; try (by left).
  all: try (destruct (negb (IsValidRole r)) eqn:R; [by left|]; bool_to_prop).
  all: try (destruct (negb (String.eqb r RoleAdmin)) eqn:A;
            [destruct (isLastLoginCapableAdmin db (uu_ID p)) as [|[]] eqn:G; [by left|by left|]|]).
  all: destruct (ud_users db !! uu_ID p) as [u|] eqn:L; [|by left].
  all: right; exists u; split; [done|]; split; [done|]; split; done.
Qed.

Lemma UpdateUser_ok db p : db_ok db → db_ok (UpdateUser db p).1.
Proof.
  intros W. destruct (UpdateUser_cases db p) as [->|(u & L & R & _ & ->)]; [done|].
  destruct (ok_user db W _ u L) as (? & ? & ? & ?). apply (set_user_ok db _ u); simpl; try done.
  - by destruct (uu_Role p).
  - intros j v Lj EQ. apply (ok_names db W j (uu_ID p) v u); done.
Qed.

Lemma DeleteUser_cases db id :
  (DeleteUser db id).1 = db ∨
  isLastLoginCapableAdmin db id = inr false ∧
  (DeleteUser db id).1 = mkUserDb (delete id (ud_users db)) (ud_next_user db)
    (filter (λ kv, k_UserID kv.2 ≠ id) (ud_keys db)) (ud_next_key db)
    (filter (λ kv, s_UserID kv.2 ≠ id) (ud_sessions db)) (ud_next_session db).
Proof.
  unfold DeleteUser, EntryStore.withTx. destruct (isLastLoginCapableAdmin db id) as [|[]]; auto.
Qed.

(** Rows of keys and sessions may be dropped freely. *)
Lemma drop_rows_ok db ks ss :
  db_ok db → ks ⊆ ud_keys db → ss ⊆ ud_sessions db →
  db_ok (mkUserDb (ud_users db) (ud_next_user db) ks (ud_next_key db) ss (ud_next_session db)).
Proof.
  intros W K S. split; simpl; intros.
  - by apply (ok_next db W).
  - by apply (ok_user db W).
  - by eapply (ok_names db W).
  - eapply (ok_key db W), lookup_weaken; done.
  - eapply (ok_tokens db W); eauto using lookup_weaken.
  - eapply (ok_session db W), lookup_weaken; done.
  - eapply (ok_session_ids db W); eauto using lookup_weaken.
Qed.

Lemma DeleteUser_ok db id : db_ok db → db_ok (DeleteUser db id).1.
Proof.
  intros W. destruct (DeleteUser_cases db id) as [->|[_ ->]]; [done|]. split; simpl.
  - by apply (ok_next db W).
  - intros j v [_ L]%lookup_delete_Some. destruct (ok_user db W j v L) as (? & ? & ? & ?). done.
  - intros i j u v [_ L]%lookup_delete_Some [_ M]%lookup_delete_Some. by eapply (ok_names db W).
  - intros j k [L N]%map_lookup_filter_Some. simpl in N. destruct (ok_key db W j k L) as [? ?]. split; [done|].
    rewrite lookup_delete_ne; done.
  - intros i j k l [L _]%map_lookup_filter_Some [M _]%map_lookup_filter_Some. by eapply (ok_tokens db W).
  - intros j s [L N]%map_lookup_filter_Some. simpl in N. destruct (ok_session db W j s L) as [? ?]. split; [done|].
    rewrite lookup_delete_ne; done.
  - intros i j s t [L _]%map_lookup_filter_Some [M _]%map_lookup_filter_Some. by eapply (ok_session_ids db W).
Qed.

Lemma adopt_cases db id username hash :
  (adoptPlaceholderAdmin db id username hash).1 = db ∨
  ∃ u, ud_users db !! id = Some u ∧ u_PasswordHash u = "" ∧
    (∀ j v, ud_users db !! j = Some v → u_Username v = username → u_ID v = id) ∧
    (adoptPlaceholderAdmin db id username hash).1 = with_users db (<[id := mkUser (u_ID u) username hash RoleAdmin]> (ud_users db)).
Proof.
  unfold adoptPlaceholderAdmin. destruct (ud_users db !! id) as [u|] eqn:L; [|by left].
  destruct (negb (String.eqb (u_PasswordHash u) "")) eqn:H; [by left|]. bool_to_prop.
  destruct (rows_where _ _) eqn:F; [|by left]. right. exists u. split; [done|]. split; [done|]. split; [|done].
  intros j v Lj EQ. pose proof (rows_where_nil _ _ F j v Lj) as N. simpl in N.
  apply andb_false_iff in N as [N|N]; bool_to_prop; congruence.
Qed.

Lemma GetUserByUsername_spec db username u :
  GetUserByUsername db username = inr u → ∃ id, ud_users db !! id = Some u.
Proof.
  unfold GetUserByUsername. destruct (rows_where _ _) eqn:F; [done|]. intros [= ->].
  apply rows_where_cons in F as (k & ? & _). eauto.
Qed.

Lemma GetUser_spec db id u : GetUser db id = inr u → ud_users db !! id = Some u.
Proof. unfold GetUser. destruct (ud_users db !! id); by intros [= ->]. Qed.

(** The first admin is made only while nobody can sign in, from a placeholder row or a fresh one. *)
Lemma bootstrap_cases hp db username password :
  (EnsureBootstrapAdmin hp db username password).1 = db ∨
  CountLoginCapableUsers db <= 0 ∧ trim_space username ≠ "" ∧ ∃ hash, hashPassword hp (trim_space password) = inr hash ∧
    ((EnsureBootstrapAdmin hp db username password).1 =
       (CreateUser db (mkCreateUser (trim_space username) hash RoleAdmin)).1 ∨
     ∃ id u, ud_users db !! id = Some u ∧
       (EnsureBootstrapAdmin hp db username password).1 = (adoptPlaceholderAdmin db (u_ID u) (trim_space username) hash).1).
Proof.
  unfold EnsureBootstrapAdmin.
  destruct (_ || _) eqn:E; [by left|]. destruct (0 <? _) eqn:C; [by left|]. bool_to_prop.
  destruct (hashPassword hp _) as [|hash]; [by left|].
  destruct (GetUserByUsername db (trim_space username)) as [e|u] eqn:G.
  - destruct (err_is_not_found e); [|by left].
    destruct (GetUser db 1) as [e1|u1] eqn:G1.
    + destruct (err_is_not_found e1); [|by left]. right. split; [done|]. split; [done|]. exists hash. split; [done|]. left.
      destruct (CreateUser _ _) as [db' [|]]; done.
    + right. split; [done|]. split; [done|]. exists hash. split; [done|].
      destruct (String.eqb _ _); [right; eauto using GetUser_spec|left]. destruct (CreateUser _ _) as [db' [|]]; done.
  - destruct (GetUser db 1) as [e1|u1] eqn:G1.
    + destruct (String.eqb _ _).
      * apply GetUserByUsername_spec in G as [id L]. right. split; [done|]. split; [done|]. exists hash. split; [done|]. right. eauto.
      * destruct (err_is_not_found e1); [|by left]. right. split; [done|]. split; [done|]. exists hash. split; [done|]. left.
        destruct (CreateUser _ _) as [db' [|]]; done.
    + right. split; [done|]. split; [done|]. exists hash. split; [done|].
      destruct (String.eqb (u_PasswordHash u) _).
      * right. apply GetUserByUsername_spec in G as [id L]. eauto.
      * destruct (String.eqb _ _); [right; eauto using GetUser_spec|left]. destruct (CreateUser _ _) as [db' [|]]; done.
Qed.

Lemma bootstrap_ok hp db username password : db_ok db → db_ok (EnsureBootstrapAdmin hp db username password).1.
Proof.
  intros W. destruct (bootstrap_cases hp db username password) as [->|(_ & N & hash & _ & [->|(id & u & L & ->)])];
    [done|by apply CreateUser_ok|].
  destruct (adopt_cases db (u_ID u) (trim_space username) hash) as [->|(v & Lv & _ & U & ->)]; [done|].
  apply (set_user_ok db _ v); simpl; try done.
  intros j w Lj EQ. destruct (ok_user db W j w Lj) as [I _]. rewrite <- I. by apply (U j).
Qed.

Lemma CreateAPIKey_ok db u n t s e : db_ok db → db_ok (CreateAPIKey db u n t s e).1.
Proof.
  intros W. unfold CreateAPIKey. destruct (rows_where _ _) eqn:F; [|done]. destruct (ud_users db !! u) eqn:L; [|done].
  destruct W as [W0 WU WN WK WT WS WI]. split; simpl; try done.
  - intros j k [[<- <-]|[_ K]]%lookup_insert_Some; simpl; [split; [lia|eauto]|].
    destruct (WK j k K). split; [lia|done].
  - intros i j k l [[<- <-]|[_ K]]%lookup_insert_Some [[<- <-]|[_ M]]%lookup_insert_Some EQ; try done; simpl in EQ.
    + pose proof (rows_where_nil _ _ F _ l M) as H. simpl in H. bool_to_prop. congruence.
    + pose proof (rows_where_nil _ _ F _ k K) as H. simpl in H. bool_to_prop. congruence.
    + eauto.
Qed.

Lemma CreateSession_ok db u s e : db_ok db → db_ok (CreateSession db u s e).1.
Proof.
  intros W. unfold CreateSession. destruct (rows_where _ _) eqn:F; [|done]. destruct (ud_users db !! u) eqn:L; [|done].
  destruct W as [W0 WU WN WK WT WS WI]. split; simpl; try done.
  - intros j k [[<- <-]|[_ K]]%lookup_insert_Some; simpl; [split; [lia|eauto]|].
    destruct (WS j k K). split; [lia|done].
  - intros i j k l [[<- <-]|[_ K]]%lookup_insert_Some [[<- <-]|[_ M]]%lookup_insert_Some EQ; try done; simpl in EQ.
    + pose proof (rows_where_nil _ _ F _ l M) as H. simpl in H. bool_to_prop. congruence.
    + pose proof (rows_where_nil _ _ F _ k K) as H. simpl in H. bool_to_prop. congruence.
    + eauto.
Qed.

Lemma TouchAPIKeyUsed_ok now db id : db_ok db → db_ok (TouchAPIKeyUsed now db id).
Proof.
  intros W. unfold TouchAPIKeyUsed. destruct (ud_keys db !! id) as [k|] eqn:L; [|done].
  destruct (match k_LastUsedAt k with None => true | Some t => t <? now - hour end); [|done].
  destruct W as [W0 WU WN WK WT WS WI]. split; simpl; try done.
  - intros j l [[<- <-]|[_ K]]%lookup_insert_Some; simpl; [by apply (WK id k)|by apply WK].
  - intros i j r l [[<- <-]|[N1 K]]%lookup_insert_Some [[<- <-]|[N2 M]]%lookup_insert_Some EQ; try done; simpl in EQ; eauto.
Qed.

Lemma TouchSession_ok db s e : db_ok db → db_ok (TouchSession db s e).1.
Proof.
  intros W. unfold TouchSession. destruct (rows_where _ _); [done|].
  destruct W as [W0 WU WN WK WT WS WI]. split; simpl; try done.
  - intros j t (t' & <- & L)%lookup_fmap_Some. destruct (WS j t' L). by destruct (String.eqb _ _).
  - intros i j t u (t' & <- & L)%lookup_fmap_Some (u' & <- & M)%lookup_fmap_Some EQ. apply (WI i j t' u'); try done.
    by destruct (String.eqb (s_SessionID t') _), (String.eqb (s_SessionID u') _).
Qed.

Lemma run_ok bcrypt_hash db o : db_ok db → db_ok (run bcrypt_hash db o).
Proof.
  intros W. destruct o; simpl.
  - by apply CreateUser_ok.
  - by apply UpdateUser_ok.
  - by apply DeleteUser_ok.
  - by apply bootstrap_ok.
  - by apply CreateAPIKey_ok.
  - by apply TouchAPIKeyUsed_ok.
  - unfold DeleteAPIKey. destruct (ud_keys db !! keyID) as [k|]; [|done]. destruct (_ =? _); [|done].
    apply drop_rows_ok; [done|apply delete_subseteq|done].
  - by apply CreateSession_ok.
  - by apply TouchSession_ok.
  - apply drop_rows_ok; [done|done|apply map_filter_subseteq].
  - apply drop_rows_ok; [done|done|apply map_filter_subseteq].
  - apply drop_rows_ok; [done|done|apply map_filter_subseteq].
Qed.

(** What the schema declares is an invariant of the operations: after any sequence
    of them every id is below the next one to be given and a user's is positive, a user row carries its own id, roles are
    valid, user names are unique and not empty, token hashes and session ids are unique,
    and every key and every session belongs to an existing user (deleting a user takes
    them along). *)
Lemma user_tables_well_formed bcrypt_hash db (ops : list op) :
  db_ok db → db_ok (foldl (run bcrypt_hash) db ops).
Proof.
  revert db. induction ops as [|o ops IH]; intros db W; simpl; [done|]. apply IH. by apply run_ok.
Qed.

Definition db_a : UserDb :=
  mkUserDb {[1 := mkUser 1 "default" "" RoleAdmin]} 2 ∅ 1 ∅ 1.

(** bcrypt stands in as a function whose output is never empty. *)
Definition hash_a (p : string) : err + string := inr ("$" ++ p)%string.

Lemma db_a_ok : db_ok db_a.
Proof.
  split; simpl.
  - lia.
  - intros id u [<- <-]%lookup_singleton_Some. by vm_compute.
  - intros i j u v [<- _]%lookup_singleton_Some [<- _]%lookup_singleton_Some _. done.
  - intros id k. by rewrite lookup_empty.
  - intros i j k l. by rewrite lookup_empty.
  - intros id k. by rewrite lookup_empty.
  - intros i j k l. by rewrite lookup_empty.
Qed.

Definition ops_a : list op :=
  [OpBootstrap "root" "hunter22"; OpCreateUser (mkCreateUser "bob" "h" RoleAdmin); OpDeleteUser 1;
   OpCreateSession 2 "sid" 100; OpDeleteUser 2].

Lemma user_tables_well_formed_witness :
  db_ok db_a ∧ db_ok (foldl (run hash_a) db_a ops_a).
Proof. split; [exact db_a_ok|]. apply (user_tables_well_formed hash_a db_a ops_a). exact db_a_ok. Defined.

(** * There is always an admin *)

Definition has_login_admin (db : UserDb) : Prop := ∃ id u, ud_users db !! id = Some u ∧ login_admin u = true.

(** No operation stores an empty hash over a real one (the handlers hash a checked password). *)
Definition op_keeps_hash (o : op) : Prop :=
  match o with OpUpdateUser p => uu_PasswordHash p ≠ Some "" | _ => True end.

Lemma login_admin_spec u : login_admin u = true ↔ u_Role u = RoleAdmin ∧ u_PasswordHash u ≠ "".
Proof.
  unfold login_admin, login_capable. rewrite andb_true_iff, negb_true_iff, String.eqb_eq, String.eqb_neq. done.
Qed.

(** [isLastLoginCapableAdmin] lets an admin go only when there is another one. *)
Lemma isLast_false db id u :
  ud_users db !! id = Some u → login_admin u = true → isLastLoginCapableAdmin db id = inr false →
  ∃ j v, j ≠ id ∧ ud_users db !! j = Some v ∧ login_admin v = true.
Proof.
  intros L A. apply login_admin_spec in A as [R H]. unfold isLastLoginCapableAdmin. rewrite L, R.
  rewrite (proj2 (String.eqb_neq _ _) H). rewrite String.eqb_refl. simpl. intros [= C]. bool_to_prop.
  destruct (rows_where login_admin (delete id (ud_users db))) as [|v l] eqn:F.
  - destruct C. apply count_where_zero. apply rows_where_nil. done.
  - apply rows_where_cons in F as (j & [N M]%lookup_delete_Some & P). eauto.
Qed.

(** A replaced row keeps an admin when it is one itself or another is left. *)
Lemma set_user_admin db id u :
  (login_admin u = true ∨ ∃ j v, j ≠ id ∧ ud_users db !! j = Some v ∧ login_admin v = true) →
  has_login_admin (with_users db (<[id := u]> (ud_users db))).
Proof.
  intros [A|(j & v & N & L & A)].
  - exists id, u. split; [apply lookup_insert_eq|done].
  - exists j, v. split; [by apply lookup_insert_Some; right|done].
Qed.

Lemma CreateUser_admin db p : db_ok db → has_login_admin db → has_login_admin (CreateUser db p).1.
Proof.
  intros W (id & u & L & A). destruct (CreateUser_cases db p) as [->|(n & r & _ & _ & _ & ->)]; [by exists id, u|].
  exists id, u. split; [|done]. simpl. apply lookup_insert_Some. right. split; [|done].
  destruct (ok_user db W id u L). lia.
Qed.

Lemma UpdateUser_admin db p :
  uu_PasswordHash p ≠ Some "" → has_login_admin db → has_login_admin (UpdateUser db p).1.
Proof.
  intros H (id & u & L & A). destruct (UpdateUser_cases db p) as [->|(v & Lv & R & G & ->)]; [by exists id, u|].
  apply set_user_admin. destruct (decide (id = uu_ID p)) as [->|N]; [|right; by exists id, u].
  rewrite L in Lv. injection Lv as <-.
  destruct (match uu_Role p with Some r => negb (String.eqb r RoleAdmin) | None => false end) eqn:D.
  - right. by eapply isLast_false; [exact L|exact A|apply G].
  - left. apply login_admin_spec in A as [AR AH]. apply login_admin_spec. simpl. split.
    + destruct (uu_Role p); simpl; [|done]. by bool_to_prop.
    + destruct (uu_PasswordHash p); simpl; congruence.
Qed.

Lemma DeleteUser_admin db i : has_login_admin db → has_login_admin (DeleteUser db i).1.
Proof.
  intros (id & u & L & A). destruct (DeleteUser_cases db i) as [->|[G ->]]; [by exists id, u|].
  destruct (decide (id = i)) as [->|N].
  - destruct (isLast_false db i u L A G) as (j & v & N & Lj & Aj). exists j, v. split; [|done]. simpl.
    by apply lookup_delete_Some.
  - exists id, u. split; [|done]. simpl. by apply lookup_delete_Some.
Qed.

(** An admin that can sign in stops the bootstrap. *)
Lemma login_admin_counted db : has_login_admin db → 0 < CountLoginCapableUsers db.
Proof.
  intros (id & u & L & [R H]%login_admin_spec). unfold CountLoginCapableUsers.
  destruct (decide (count_where login_capable (ud_users db) = 0)) as [Z0|Z0].
  - pose proof (proj1 (count_where_zero _ _) Z0 id u L) as F. unfold login_capable in F. bool_to_prop. done.
  - unfold count_where in *. lia.
Qed.

Lemma same_users_admin db db' : ud_users db' = ud_users db → has_login_admin db → has_login_admin db'.
Proof. intros E (id & u & L & A). exists id, u. by rewrite E. Qed.

Lemma run_admin hp db o :
  db_ok db → op_keeps_hash o → has_login_admin db → has_login_admin (run hp db o).
Proof.
  intros W K A. destruct o; simpl.
  - by apply CreateUser_admin.
  - by apply UpdateUser_admin.
  - by apply DeleteUser_admin.
  - apply login_admin_counted in A as C. destruct (bootstrap_cases hp db username password) as [->|[? _]]; [done|lia].
  - apply (same_users_admin db); [|done]. unfold CreateAPIKey. by destruct (rows_where _ _), (ud_users db !! userID).
  - apply (same_users_admin db); [|done]. unfold TouchAPIKeyUsed. destruct (ud_keys db !! keyID); [|done]. by case_match_goal.
  - apply (same_users_admin db); [|done]. unfold DeleteAPIKey. destruct (ud_keys db !! keyID); [|done]. by case_match_goal.
  - apply (same_users_admin db); [|done]. unfold CreateSession. by destruct (rows_where _ _), (ud_users db !! userID).
  - apply (same_users_admin db); [|done]. unfold TouchSession. by destruct (rows_where _ _).
  - done.
  - done.
  - done.
Qed.

Lemma adopt_succeeds db id u username hash :
  ud_users db !! id = Some u → u_ID u = id → u_PasswordHash u = "" → hash ≠ "" →
  (∀ j v, ud_users db !! j = Some v → u_Username v = username → u_ID v = id) →
  (adoptPlaceholderAdmin db id username hash).2 = None ∧ has_login_admin (adoptPlaceholderAdmin db id username hash).1.
Proof.
  intros L I E H U. unfold adoptPlaceholderAdmin. rewrite L, E. simpl.
  destruct (rows_where _ _) as [|v l] eqn:F.
  - simpl. split; [done|]. apply set_user_admin. left. by apply login_admin_spec.
  - apply rows_where_cons in F as (k & M & P). bool_to_prop. exfalso. eauto.
Qed.

Lemma create_succeeds db username hash :
  trim_space username ≠ "" → hash ≠ "" →
  (∀ j v, ud_users db !! j = Some v → u_Username v ≠ trim_space username) →
  ∃ db' u, CreateUser db (mkCreateUser (trim_space username) hash RoleAdmin) = (db', inr u) ∧ has_login_admin db'.
Proof.
  intros N H U. unfold CreateUser. cbn [cu_Username cu_PasswordHash cu_Role].
  autorewrite with go_rw.
  rewrite (proj2 (String.eqb_neq _ _) N). simpl.
  destruct (rows_where _ _) as [|v l] eqn:F.
  - do 2 eexists. split; [reflexivity|].
    exists (ud_next_user db), (mkUser (ud_next_user db) (trim_space username) hash RoleAdmin).
    split; [apply lookup_insert_eq|by apply login_admin_spec].
  - apply rows_where_cons in F as (k & M & P). bool_to_prop. exfalso. by eapply U.
Qed.

Lemma nobody_hash db id u : CountLoginCapableUsers db = 0 → ud_users db !! id = Some u → u_PasswordHash u = "".
Proof.
  intros C L. pose proof (proj1 (count_where_zero _ _) C id u L) as F. unfold login_capable in F. by bool_to_prop.
Qed.

Lemma by_name_inr db username u :
  GetUserByUsername db username = inr u → ∃ id, ud_users db !! id = Some u ∧ u_Username u = trim_space username.
Proof.
  unfold GetUserByUsername. destruct (rows_where _ _) eqn:F; [done|]. intros [= ->].
  apply rows_where_cons in F as (k & ? & P). bool_to_prop. eauto.
Qed.

Lemma by_name_inl db username e :
  GetUserByUsername db username = inl e →
  e = ENotFound ∧ ∀ j v, ud_users db !! j = Some v → u_Username v ≠ trim_space username.
Proof.
  unfold GetUserByUsername. destruct (rows_where _ _) eqn:F; [|done]. intros [= <-]. split; [done|].
  intros j v L. pose proof (rows_where_nil _ _ F j v L) as H. simpl in H. by bool_to_prop.
Qed.

(** While nobody can sign in, the bootstrap makes an admin. *)
Lemma bootstrap_makes_admin hp db username password hash :
  db_ok db → CountLoginCapableUsers db = 0 → trim_space username ≠ "" → trim_space password ≠ "" →
  hashPassword hp (trim_space password) = inr hash → hash ≠ "" →
  (EnsureBootstrapAdmin hp db username password).2 = None ∧
  has_login_admin (EnsureBootstrapAdmin hp db username password).1.
Proof.
  intros W C N P HP HN. unfold EnsureBootstrapAdmin.
  rewrite (proj2 (String.eqb_neq _ _) N), (proj2 (String.eqb_neq _ _) P), C, HP. simpl.
  destruct (GetUserByUsername db (trim_space username)) as [e|u] eqn:G.
  - apply by_name_inl in G as [-> U]. autorewrite with go_rw in U. simpl.
    destruct (GetUser db 1) as [e1|u1] eqn:G1.
    + unfold GetUser in G1. destruct (ud_users db !! 1); [done|]. injection G1 as <-. simpl.
      destruct (create_succeeds db username hash N HN U) as (db' & u & -> & A). done.
    + apply GetUser_spec in G1. rewrite (nobody_hash db 1 u1 C G1). simpl.
      destruct (ok_user db W 1 u1 G1) as [-> _]. apply (adopt_succeeds db 1 u1); try done.
      * by destruct (ok_user db W 1 u1 G1).
      * exact (nobody_hash db 1 u1 C G1).
      * intros j v L EQ. by destruct (U j v L).
  - apply by_name_inr in G as (id & L & NM). autorewrite with go_rw in NM.
    rewrite (nobody_hash db id u C L). simpl. destruct (ok_user db W id u L) as [I _]. rewrite I.
    apply (adopt_succeeds db id u); try done.
    + exact (nobody_hash db id u C L).
    + intros j v Lj EQ. destruct (ok_user db W j v Lj) as [-> _]. apply (ok_names db W j id v u); [done..|congruence].
Qed.

(** C16: the instance always has somebody who can administer it.  Start where an admin
    can sign in, or where nobody can sign in at all; run the start-up bootstrap with
    credentials set; then, whatever sequence of account, key and session changes
    follows (deletions and demotions of admins included, later bootstraps too), a user
    with the admin role and a password remains. *)
Theorem admin_never_lost bcrypt_hash db username password hash (ops : list op) :
  db_ok db → has_login_admin db ∨ CountLoginCapableUsers db = 0 →
  trim_space username ≠ "" → trim_space password ≠ "" →
  hashPassword bcrypt_hash (trim_space password) = inr hash → hash ≠ "" →
  Forall op_keeps_hash ops →
  has_login_admin (foldl (run bcrypt_hash) db (OpBootstrap username password :: ops)).
Proof.
  intros W S N P HP HN K. simpl.
  assert (has_login_admin (EnsureBootstrapAdmin bcrypt_hash db username password).1) as A.
  { destruct S as [A|C]; [|by apply (bootstrap_makes_admin bcrypt_hash db username password hash)].
    by apply (run_admin bcrypt_hash db (OpBootstrap username password)). }
  assert (db_ok (EnsureBootstrapAdmin bcrypt_hash db username password).1) as W' by (by apply bootstrap_ok).
  clear W S. revert K A W'. generalize (EnsureBootstrapAdmin bcrypt_hash db username password).1. intros d K.
  revert d. induction K as [|o ops KO K IH]; intros d A W; simpl; [done|].
  apply IH; [by apply run_admin|by apply run_ok].
Qed.

Lemma admin_never_lost_witness :
  has_login_admin (foldl (run hash_a) db_a (OpBootstrap "root" "hunter22" ::
    [OpDeleteUser 1; OpUpdateUser (mkUpdateUser 1 None (Some RoleReader)); OpCreateUser (mkCreateUser "bob" "h" RoleAdmin); OpDeleteUser 1])).
Proof.
  apply (admin_never_lost hash_a db_a "root" "hunter22" "$hunter22"); try (vm_compute; discriminate); [exact db_a_ok| | |].
  - right. by vm_compute.
  - by vm_compute.
  - repeat constructor. simpl. discriminate.
Defined.
