(* ===== verification/ApiAuth.v ===== *)
(** The gate in front of the JSON API ([http/auth_middleware.go], [csrf_origin.go],
    [context.go]), the credentials it checks ([auth]) and the handlers of accounts and
    API keys ([http/users.go]).  A request is its method, its path as decoded segments
    (a [%2F] stays inside one), headers and session cookie; JSON decoding, [url.Parse],
    SHA-256, HMAC, bcrypt and the random source are parameters, and the rate limiter of
    failed logins is an interface. *)

From S2P Require Import Prelude GoStrings NetIP Types UserStore.
From S2P Require ClientIP.
From Stdlib Require Import Ascii.

Definition slash : ascii := "/"%char.

(** * Credentials *)

Definition ScopeRead : string := "read".
Definition ScopeWrite : string := "write".
Definition ScopeAdmin : string := "admin".

(** auth/scope.go [IsValidScope] *)
Definition IsValidScope (s : string) : bool :=
  String.eqb s ScopeRead || String.eqb s ScopeWrite || String.eqb s ScopeAdmin.

(** auth/scope.go [isSafeMethod] *)
Definition isSafeMethod (method : string) : bool :=
  String.eqb method "GET" || String.eqb method "HEAD" || String.eqb method "OPTIONS".

(** auth/scope.go [ScopeAllows] *)
Definition ScopeAllows (scope method path : string) : bool :=
  if String.eqb scope ScopeAdmin || String.eqb scope "" then true
  else if String.eqb scope ScopeRead then isSafeMethod method
  else if String.eqb scope ScopeWrite then
    if isSafeMethod method then true
    else if negb (String.eqb method "PUT") then false
    else if String.eqb path "/v1/entries" then true
    else if has_prefix path "/v1/feeds/" && contains (str_drop 10 path) "/entries/" then true
    else has_suffix path "/mark-all-as-read" &&
         (has_prefix path "/v1/feeds/" || has_prefix path "/v1/categories/")
  else false.

(** auth/csrf.go [subtleConstantTimeCompare] *)
Definition subtleConstantTimeCompare (a b : string) : bool :=
  if negb (Nat.eqb (String.length a) (String.length b)) then false
  else foldl (λ v ab, Z.lor v (Z.lxor (byte_of ab.1) (byte_of ab.2))) 0
         (zip (String.list_ascii_of_string a) (String.list_ascii_of_string b)) =? 0.

Definition MinPasswordLength : Z := 8.
Definition MaxPasswordLength : Z := 72.

(** auth/password.go [ValidateNewPassword] *)
Definition ValidateNewPassword (password : string) : option string :=
  if String.eqb password "" then Some "password is required"%string
  else if rune_count password <? MinPasswordLength then Some "password must be at least 8 characters"%string
  else if MaxPasswordLength <? Z.of_nat (String.length password) then Some "password must be at most 72 bytes"%string
  else None.

Section Crypto.
(** bcrypt (hash and compare), SHA-256 in hex, HMAC-SHA256 in base64, [time.Format] of the day. *)
Context (bcrypt_hash : string → err + string) (bcrypt_match : string → string → bool)
        (sha256_hex : string → string) (hmac64 : string → string → string) (format_day : Z → string).

(** auth/password.go [CheckPassword] *)
Definition CheckPassword (hash password : string) : bool :=
  if String.eqb hash "" || String.eqb password "" then false else bcrypt_match hash password.

(** auth/password.go [VerifyLogin] Without a hash a comparison is made all the same, and fails. *)
Definition VerifyLogin (hash password : string) : bool :=
  if String.eqb password "" then false
  else if String.eqb hash "" then false
  else bcrypt_match hash password.

(** auth/token.go [HashToken] *)
Definition HashToken (raw : string) : string := sha256_hex raw.

(** auth/csrf.go [CSRFToken] *)
Definition CSRFToken (now : Z) (secret sessionID : string) : string :=
  if String.eqb secret "" || String.eqb sessionID "" then ""
  else hmac64 secret (sessionID ++ "|" ++ format_day now).

(** auth/csrf.go [ValidateCSRF] Yesterday's token passes too. *)
Definition ValidateCSRF (now : Z) (secret sessionID token : string) : bool :=
  let token := trim_space token in
  if String.eqb token "" || String.eqb secret "" || String.eqb sessionID "" then false
  else subtleConstantTimeCompare token (CSRFToken now secret sessionID)
       || subtleConstantTimeCompare token (hmac64 secret (sessionID ++ "|" ++ format_day (time_add now (- (24 * hour))))).

End Crypto.

(** * Requests and responses *)

Record ApiRequest := mkApiRequest {
  q_http : ClientIP.Request; q_method : string; q_segs : list string; q_cookie : option string; q_body : string;
}.

(** [r.URL.Path] *)
Definition path_of (segs : list string) : string := "/" ++ join "/" segs.
Definition q_path (r : ApiRequest) : string := path_of (q_segs r).

Definition header (r : ApiRequest) (name : string) : string := ClientIP.header_get (q_http r) name.

Inductive response :=
| RError (status : Z) (msg : string)
| RUser (status : Z) (u : User)
| RUsers (us : list User) (total : Z)
| RKeys (ks : list APIKey)
| RKeyCreated (k : APIKey) (raw : string)
| RDeleted
| RNothing
| RElsewhere (handler : string) (* the handler belongs to another component *).

(** audit/recorder.go:25-37 [AuditEvent] *)
Record AuditEvent := mkAudit { ae_ActorID : Z; ae_ActorName : string; ae_IP : string; ae_Action : string; ae_TargetType : string; ae_TargetID : Z }.

(** The tables the handlers below write. *)
Record Api := mkApi { api_users : UserDb; api_audit : list AuditEvent }.

(** What the gate reads of the server; the limiter of failed logins
    answers by client address. *)
Record Server := mkServer {
  sv_users : bool; sv_sessions : bool; sv_sessionMaxAge : Z; sv_adminUsername : string; sv_adminPassword : string;
  sv_trusted : list Prefix; sv_rateLimiter : option (string → bool);
}.

Section Gate.
Context (sha256_hex : string → string) (url_host : string → option string).

(** auth/session.go [SessionIDFromRequest] *)
Definition SessionIDFromRequest (r : ApiRequest) : string :=
  match q_cookie r with None => "" | Some v => trim_space v end.

(** http/auth_middleware.go [tokenFromHeader] *)
Definition tokenFromHeader (r : ApiRequest) : string :=
  let v := trim_space (header r "X-Auth-Token") in
  if negb (String.eqb v "") then v
  else let v := header r "Authorization" in
       if has_prefix v "Bearer " then trim_space (trim_prefix v "Bearer ") else "".

(** http/auth_middleware.go [Server.sessionTTL] *)
Definition sessionTTL (s : Server) : Z := if 0 <? sv_sessionMaxAge s then sv_sessionMaxAge s else DefaultSessionTTL.

(** http/auth_middleware.go [Server.authenticateSession] *)
Definition authenticateSession (s : Server) (now : Z) (db : UserDb) (r : ApiRequest) : UserDb * option Principal :=
  if negb (sv_sessions s) || negb (sv_users s) then (db, None)
  else
    let sessionID := SessionIDFromRequest r in
    if String.eqb sessionID "" then (db, None)
    else match LookupSession now db sessionID with
         | inl _ => (db, None)
         | inr sess =>
             match GetUser db (s_UserID sess) with
             | inl _ => (db, None)
             | inr u =>
                 let ttl := sessionTTL s in
                 let db := if SessionNeedsTouch (s_ExpiresAt sess) now ttl
                           then fst (TouchSession db sessionID (time_add now ttl)) else db in
                 (db, Some (mkPrincipal (u_ID u) (u_Role u) (u_Username u) ""))
             end
         end.

(** http/auth_middleware.go [Server.authenticateRequestSource] The caller, and whether the
    cookie named it. *)
Definition authenticateRequestSource (s : Server) (now : Z) (db : UserDb) (r : ApiRequest)
    : UserDb * option Principal * bool :=
  let by_session db :=
    match authenticateSession s now db r with
    | (db, Some p) => (db, Some p, true)
    | (db, None) => (db, None, false)
    end in
  let token := tokenFromHeader r in
  if String.eqb token "" then by_session db
  else if sv_users s then
    match LookupAPIKey db (HashToken sha256_hex token) with
    | inr key =>
        if negb (Expired key now) then
          let db := TouchAPIKeyUsed now db (k_ID key) in
          match GetUser db (k_UserID key) with
          | inr u => (db, Some (mkPrincipal (u_ID u) (u_Role u) (u_Username u) (k_Scope key)), false)
          | inl _ => by_session db
          end
        else by_session db
    | inl _ => by_session db
    end
  else by_session db.

(** http/csrf_origin.go [originMatchesHost] Hosts are taken to be ASCII. *)
Definition originMatchesHost (rawURL host : string) : bool :=
  match url_host rawURL with
  | None => false
  | Some h => if String.eqb h "" then false else equal_fold h host
  end.

(** http/csrf_origin.go [sameOriginRequest] *)
Definition sameOriginRequest (s : Server) (r : ApiRequest) : bool :=
  let site := to_lower (trim_space (header r "Sec-Fetch-Site")) in
  if String.eqb site "same-origin" || String.eqb site "none" then true
  else if String.eqb site "cross-site" || String.eqb site "same-site" then false
  else
    let host := ClientIP.RequestHost (sv_trusted s) (q_http r) in
    let origin := trim_space (header r "Origin") in
    if negb (String.eqb origin "") then originMatchesHost origin host
    else let ref := trim_space (header r "Referer") in
         if negb (String.eqb ref "") then originMatchesHost ref host else false.

(** http/auth_middleware.go [Server.allowBootstrapCreateUser] *)
Definition allowBootstrapCreateUser (s : Server) (db : UserDb) : bool :=
  if negb (sv_users s) then false
  else if 0 <? CountLoginCapableUsers db then false
  else negb (String.eqb (sv_adminUsername s) "") && negb (String.eqb (sv_adminPassword s) "").

(** What runs behind the gate: the principal of the request's context, if any. *)
Definition handler : Type := Server → Z → ApiRequest → option Principal → Api → Api * response.

Definition with_db (st : Api) (db : UserDb) : Api := mkApi db (api_audit st).

(** http/auth_middleware.go [Server.wrapAPI] *)
Definition wrapAPI (next : handler) (s : Server) (now : Z) (r : ApiRequest) (st : Api) : Api * response :=
  if String.eqb (q_method r) "POST" && String.eqb (q_path r) "/v1/users" && allowBootstrapCreateUser s (api_users st)
  then next s now r None st
  else
    let '(db, p, viaCookie) := authenticateRequestSource s now (api_users st) r in
    let st := with_db st db in
    match p with
    | None =>
        if match sv_rateLimiter s with
           | Some allow => negb (allow (ClientIP.ClientIP (sv_trusted s) (q_http r)))
           | None => false
           end
        then (st, RError 429 "rate limit exceeded")
        else (st, RError 401 "unauthorized")
    | Some p =>
        if (viaCookie : bool) && negb (isSafeMethod (q_method r)) && negb (sameOriginRequest s r)
        then (st, RError 403 "cross-origin request rejected: use an API token")
        else if negb (ScopeAllows (p_Scope p) (q_method r) (q_path r))
        then (st, RError 403 ("api key scope " ++ p_Scope p ++ " does not allow this request"))
        else next s now r (Some p) st
    end.

End Gate.

(** * Routes *)

(** http/server.go:475-529 [Server.Handler, the API routes] *)
Definition api_routes : list (string * string * string) :=
  [("GET", "/v1/categories", "handleListCategories");
   ("POST", "/v1/categories", "handleCreateCategory");
   ("PUT", "/v1/categories/{id}", "handleUpdateCategory");
   ("DELETE", "/v1/categories/{id}", "handleDeleteCategory");
   ("PUT", "/v1/categories/{categoryID}/mark-all-as-read", "handleMarkCategoryAllRead");
   ("POST", "/v1/categories/{id}/follow", "handleFollowCategory");
   ("DELETE", "/v1/categories/{id}/follow", "handleUnfollowCategory");
   ("GET", "/v1/feeds", "handleListFeeds");
   ("POST", "/v1/feeds", "handleCreateFeed");
   ("GET", "/v1/feeds/import/jobs/{jobID}", "handleGetImportJob");
   ("POST", "/v1/feeds/import", "handleImportFeeds");
   ("GET", "/v1/feeds/export", "handleExportFeeds");
   ("POST", "/v1/feeds/refresh", "handleRefreshAllFeeds");
   ("GET", "/v1/feeds/{id}", "handleGetFeed");
   ("PUT", "/v1/feeds/{id}", "handleUpdateFeed");
   ("DELETE", "/v1/feeds/{id}", "handleDeleteFeed");
   ("PUT", "/v1/feeds/{feedID}/mark-all-as-read", "handleMarkFeedAllRead");
   ("GET", "/v1/feeds/{feedID}/icon", "handleFeedIcon");
   ("POST", "/v1/feeds/{feedID}/refresh", "handleRefreshFeed");
   ("GET", "/v1/feeds/{feedID}/entries", "handleListFeedEntries");
   ("GET", "/v1/feeds/{feedID}/entries/{entryID}", "handleGetFeedEntry");
   ("PUT", "/v1/feeds/{feedID}/entries/{entryID}", "handleUpdateFeedEntry");
   ("GET", "/v1/subscriptions", "handleListSubscriptions");
   ("POST", "/v1/subscriptions", "handleCreateSubscription");
   ("PUT", "/v1/subscriptions/{id}", "handleUpdateSubscription");
   ("DELETE", "/v1/subscriptions/{id}", "handleDeleteSubscription");
   ("GET", "/v1/entries", "handleListEntries");
   ("PUT", "/v1/entries", "handleBulkUpdateEntries");
   ("GET", "/v1/entries/{id}", "handleGetEntry");
   ("GET", "/v1/entries/{id}/fetch-content", "handleFetchEntryContent");
   ("GET", "/v1/filters", "handleListFilters");
   ("POST", "/v1/filters", "handleCreateFilter");
   ("GET", "/v1/filters/{id}", "handleGetFilter");
   ("PUT", "/v1/filters/{id}", "handleUpdateFilter");
   ("DELETE", "/v1/filters/{id}", "handleDeleteFilter");
   ("POST", "/v1/filters/{id}/test", "handleTestFilter");
   ("GET", "/v1/filters/{id}/matches", "handleListFilterMatches");
   ("GET", "/v1/webhooks", "handleListWebhooks");
   ("POST", "/v1/webhooks", "handleCreateWebhook");
   ("GET", "/v1/webhooks/{id}", "handleGetWebhook");
   ("PUT", "/v1/webhooks/{id}", "handleUpdateWebhook");
   ("DELETE", "/v1/webhooks/{id}", "handleDeleteWebhook");
   ("POST", "/v1/webhooks/{id}/test", "handleTestWebhook");
   ("GET", "/v1/webhooks/{id}/logs", "handleListWebhookLogs");
   ("POST", "/v1/webhook-logs/{logID}/retry", "handleRetryWebhookLog");
   ("GET", "/v1/users", "handleListUsers");
   ("POST", "/v1/users", "handleCreateUser");
   ("PUT", "/v1/users/{id}", "handleUpdateUser");
   ("DELETE", "/v1/users/{id}", "handleDeleteUser");
   ("GET", "/v1/me", "handleGetMe");
   ("PUT", "/v1/me", "handleUpdateMe");
   ("GET", "/v1/me/api-keys", "handleListAPIKeys");
   ("POST", "/v1/me/api-keys", "handleCreateAPIKey");
   ("DELETE", "/v1/me/api-keys/{id}", "handleDeleteAPIKey")]%string.

(** A segment in braces matches any segment that is not empty. *)
Definition is_wild (pat : string) : bool := has_prefix pat "{".
Definition pat_segs (path : string) : list string := tail (split_on slash path).

Fixpoint match_segs (pat segs : list string) : bool :=
  match pat, segs with
  | [], [] => true
  | p :: pat, s :: segs => (if is_wild p then negb (String.eqb s "") else String.eqb p s) && match_segs pat segs
  | _, _ => false
  end.

Fixpoint more_specific (p q : list string) : bool :=
  match p, q with
  | [], [] => true
  | a :: p, b :: q => (is_wild b || String.eqb a b) && more_specific p q
  | _, _ => false
  end.

(** GET patterns serve HEAD too. *)
Definition match_method (want method : string) : bool :=
  String.eqb want method || (String.eqb want "GET" && String.eqb method "HEAD").

Definition match_route (method : string) (segs : list string) (e : string * string * string) : bool :=
  match_method e.1.1 method && match_segs (pat_segs e.1.2) segs.

(** [http.ServeMux]: the most specific of the patterns that match. *)
Definition mux_match {A} (matches : A → bool) (more : A → A → bool) (table : list A) : option A :=
  let ms := filter (λ e, matches e = true) table in
  head (filter (λ e, forallb (more e) ms = true) ms).

Definition route (method : string) (segs : list string) : option (string * string * string) :=
  mux_match (match_route method segs) (λ e e', more_specific (pat_segs e.1.2) (pat_segs e'.1.2)) api_routes.

(** [r.PathValue] *)
Fixpoint path_value (pat segs : list string) (key : string) : string :=
  match pat, segs with
  | p :: pat, s :: segs => if String.eqb p ("{" ++ key ++ "}") then s else path_value pat segs key
  | _, _ => ""
  end.

Definition PathValue (r : ApiRequest) (key : string) : string :=
  match route (q_method r) (q_segs r) with
  | Some e => path_value (pat_segs e.1.2) (q_segs r) key
  | None => ""
  end.

(** An id segment; the two parsers of the API differ in the key only. *)
Definition parse_id (segment : string) : string + Z :=
  let raw := trim_space segment in
  if String.eqb raw "" then inl "id is required"%string
  else match parse_int64 raw with
       | Some id => if id <=? 0 then inl "invalid id"%string else inr id
       | None => inl "invalid id"%string
       end.

(** http/respond.go [parsePathID] *)
Definition parsePathID (r : ApiRequest) : string + Z := parse_id (PathValue r "id").

(** http/respond.go [parsePathInt64] *)
Definition parsePathInt64 (r : ApiRequest) (key : string) : string + Z := parse_id (PathValue r key).

(** http/respond.go [atoiNonNeg] A Go [int] is accumulated, wrapping around. *)
Fixpoint atoi_from (n : Z) (s : string) : option Z :=
  match s with
  | "" => Some n
  | String c s' => if is_digit c then atoi_from (wrap64 (wrap64 (n * 10) + digit_val c)) s' else None
  end.

Definition atoiNonNeg (s : string) : option Z := if String.eqb s "" then None else atoi_from 0 s.

(** http/respond.go [parseLimitOffset] From the two query values. *)
Definition parseLimitOffset (limit offset : string) (capLimit : Z) : string + Z * Z :=
  match (if String.eqb limit "" then Some 100 else atoiNonNeg limit) with
  | None => inl "invalid limit"%string
  | Some l =>
      match (if String.eqb offset "" then Some 0 else atoiNonNeg offset) with
      | None => inl "invalid offset"%string
      | Some o => inr (if capLimit <? l then capLimit else l, o)
      end
  end.

(** * Who may *)

(** http/context.go [requireUser] *)
Definition requireUser (p : option Principal) : response + Principal :=
  match p with
  | Some p => if p_UserID p <=? 0 then inl (RError 401 "unauthorized") else inr p
  | None => inl (RError 401 "unauthorized")
  end.

(** http/context.go [requireRole] *)
Definition requireRole (p : option Principal) (role : string) : response + Principal :=
  match requireUser p with
  | inl e => inl e
  | inr p => if negb (String.eqb role "") && negb (RoleAtLeast (p_Role p) role)
             then inl (RError 403 (role ++ " role required")) else inr p
  end.

(** http/context.go [requireAdmin] *)
Definition requireAdmin (p : option Principal) : response + Principal := requireRole p RoleAdmin.

(** http/context.go [requireStore] *)
Definition requireStore (p : option Principal) (role : string) (configured : bool) (unavailable : string) : response + Principal :=
  match requireRole p role with
  | inl e => inl e
  | inr p => if configured then inr p else inl (RError 503 unavailable)
  end.

(** http/context.go [requireStoreID] *)
Definition requireStoreID (r : ApiRequest) (p : option Principal) (role : string) (configured : bool) (unavailable : string)
    : response + Principal * Z :=
  match requireStore p role configured unavailable with
  | inl e => inl e
  | inr p => match parsePathID r with
             | inl e => inl (RError 400 e)
             | inr id => inr (p, id)
             end
  end.

(** http/context.go [Server.storeError] *)
Definition storeError (e : err) (notFound : string) : response :=
  if err_is_not_found e then RError 404 notFound else RError 500 "internal server error".

(** * Handlers of accounts and keys *)

(** http/users.go [userCreateRequest] *)
Record userCreateRequest := mkUserCreate { uc_Username : string; uc_Password : string; uc_Role : string }.
(** http/users.go [userUpdateRequest] *)
Record userUpdateRequest := mkUserUpdate { ur_Password : option string; ur_Role : option string }.
(** http/users.go [meUpdateRequest] *)
Record meUpdateRequest := mkMeUpdate { mu_CurrentPassword : string; mu_Password : string }.
(** http/users.go [apiKeyCreateRequest] *)
Record apiKeyCreateRequest := mkKeyCreate { kc_Name : string; kc_Scope : string; kc_ExpiresInDays : Z }.

Definition maxAPIKeyLifetimeDays : Z := 3650.

(** http/users.go [apiKeyExpiry] [None] is a refusal. *)
Definition apiKeyExpiry (days now : Z) : option (option Z) :=
  if days =? 0 then Some None
  else if (days <? 0) || (maxAPIKeyLifetimeDays <? days) then None
  else Some (Some (time_add now (days * 24 * hour))).

Section Handlers.
Context (bcrypt_hash : string → err + string) (bcrypt_match : string → string → bool)
        (sha256_hex : string → string) (random_hex : Z → err + string).
(** What decoding a body into each request type gives: an error text or the request. *)
Context (decode_create : string → string + userCreateRequest) (decode_update : string → string + userUpdateRequest)
        (decode_me : string → string + meUpdateRequest) (decode_key : string → string + apiKeyCreateRequest).

(** audit/recorder.go [Recorder.Record] *)
Definition Record_ (s : Server) (r : ApiRequest) (p : option Principal) (action targetType : string) (id : Z) (st : Api) : Api :=
  mkApi (api_users st) (api_audit st ++ [mkAudit (match p with Some p => p_UserID p | None => 0 end)
    (match p with Some p => p_Username p | None => "" end) (ClientIP.ClientIP (sv_trusted s) (q_http r)) action targetType id]).

(** http/users.go [Server.handleCreateUser] *)
Definition handleCreateUser : handler := λ s now r p st,
  if negb (sv_users s) then (st, RError 503 "user storage is not configured")
  else match decode_create (q_body r) with
  | inl e => (st, RError 400 e)
  | inr req =>
      let username := trim_space (uc_Username req) in
      let password := trim_space (uc_Password req) in
      if String.eqb username "" || String.eqb password "" then (st, RError 400 "username and password are required")
      else
        let role := trim_space (uc_Role req) in
        let role := if String.eqb role "" then RoleReader else role in
        if negb (IsValidRole role) then (st, RError 400 "invalid role: use admin, editor or reader")
        else
          let count := CountLoginCapableUsers (api_users st) in
          (* who creates whom: a refusal, or whether these are the operator's credentials and the role *)
          let verdict : response + bool * string :=
            if match p with Some p => 0 <? p_UserID p | None => false end then
              match requireAdmin p with inl e => inl e | inr _ => inr (false, role) end
            else if count =? 0 then
              if negb (String.eqb (sv_adminUsername s) "") && negb (String.eqb (sv_adminPassword s) "") then
                if negb (String.eqb username (sv_adminUsername s)) || negb (String.eqb password (sv_adminPassword s))
                then inl (RError 400 "bootstrap requires ADMIN_USERNAME/PASSWORD credentials")
                else inr (true, RoleAdmin)
              else inr (false, RoleAdmin)
            else inl (RError 401 "unauthorized") in
          match verdict with
          | inl e => (st, e)
          | inr (envBootstrap, role) =>
              match (if (envBootstrap : bool) then None else ValidateNewPassword password) with
              | Some e => (st, RError 400 e)
              | None =>
                  match HashPassword bcrypt_hash password with
                  | inl e => (st, RError 400 (err_text e))
                  | inr hash =>
                      match CreateUser (api_users st) (mkCreateUser username hash role) with
                      | (db, inl e) =>
                          if is_duplicate_username e then (with_db st db, RError 409 "username already exists")
                          else (with_db st db, RError 500 "internal server error")
                      | (db, inr u) => (Record_ s r p "user.create" "user" (u_ID u) (with_db st db), RUser 201 u)
                      end
                  end
              end
          end
  end.

Definition is_last_admin (e : err) : bool :=
  match err_find (λ e, match e with
                       | EMsg t => if String.eqb t "cannot remove the last admin" then Some tt else None
                       | _ => None end) e with Some _ => true | None => false end.

(** http/users.go [Server.handleUpdateUser] *)
Definition handleUpdateUser : handler := λ s now r p st,
  match requireStoreID r p RoleAdmin (sv_users s) "user storage is not configured" with
  | inl e => (st, e)
  | inr (me, id) =>
      match decode_update (q_body r) with
      | inl e => (st, RError 400 e)
      | inr req =>
          if match ur_Password req, ur_Role req with None, None => true | _, _ => false end
          then (st, RError 400 "nothing to update: pass password and/or role")
          else if match ur_Role req with Some role => negb (IsValidRole role) | None => false end
          then (st, RError 400 "invalid role: use admin, editor or reader")
          else if match ur_Role req with Some role => negb (String.eqb role RoleAdmin) | None => false end && (id =? p_UserID me)
          then (st, RError 400 "cannot revoke your own admin role")
          else
            let hashed : response + option string :=
              match ur_Password req with
              | None => inr None
              | Some pw =>
                  let password := trim_space pw in
                  match ValidateNewPassword password with
                  | Some e => inl (RError 400 e)
                  | None => match HashPassword bcrypt_hash password with
                            | inl _ => inl (RError 500 "internal server error")
                            | inr hash => inr (Some hash)
                            end
                  end
              end in
            match hashed with
            | inl e => (st, e)
            | inr hash =>
                match UpdateUser (api_users st) (mkUpdateUser id hash (ur_Role req)) with
                | (db, inl e) =>
                    if is_last_admin e then (with_db st db, RError 409 "cannot demote the last admin")
                    else (with_db st db, storeError e "user not found")
                | (db, inr u) =>
                    let db := match ur_Password req with
                              | Some _ => if sv_sessions s then DeleteUserSessions db id else db
                              | None => db
                              end in
                    (Record_ s r p "user.update" "user" id (with_db st db), RUser 200 u)
                end
            end
      end
  end.

(** http/users.go [Server.handleDeleteUser] *)
Definition handleDeleteUser : handler := λ s now r p st,
  match requireStoreID r p RoleAdmin (sv_users s) "user storage is not configured" with
  | inl e => (st, e)
  | inr (me, id) =>
      if id =? p_UserID me then (st, RError 400 "cannot delete yourself")
      else match DeleteUser (api_users st) id with
           | (db, inl e) =>
               (with_db st db,
                if err_is_not_found e then RError 404 "user not found"
                else if is_last_admin e then RError 409 "cannot delete the last admin"
                else RError 500 "internal server error")
           | (db, inr _) => (Record_ s r p "user.delete" "user" id (with_db st db), RDeleted)
           end
  end.

(** http/users.go [Server.handleListUsers] *)
Definition handleListUsers (limit offset : string) : handler := λ s now r p st,
  match requireStore p RoleAdmin (sv_users s) "user storage is not configured" with
  | inl e => (st, e)
  | inr _ =>
      match parseLimitOffset limit offset 10000 with
      | inl e => (st, RError 400 e)
      | inr (l, o) =>
          (* PostgreSQL refuses a negative OFFSET *)
          if o <? 0 then (st, RError 500 "internal server error")
          else let '(us, total) := ListUsers (api_users st) l (Z.to_nat o) in (st, RUsers us total)
      end
  end.

(** http/users.go [Server.handleGetMe] *)
Definition handleGetMe : handler := λ s now r p st,
  match requireUser p with
  | inl e => (st, e)
  | inr me =>
      if negb (sv_users s) then (st, RNothing)
      else match GetUser (api_users st) (p_UserID me) with
           | inl e => (st, storeError e "user not found")
           | inr u => (st, RUser 200 u)
           end
  end.

(** http/users.go [Server.handleUpdateMe] *)
Definition handleUpdateMe : handler := λ s now r p st,
  match requireUser p with
  | inl e => (st, e)
  | inr me =>
      if negb (sv_users s) then (st, RNothing)
      else match decode_me (q_body r) with
      | inl e => (st, RError 400 e)
      | inr req =>
          let password := trim_space (mu_Password req) in
          if String.eqb password "" then (st, RError 400 "password is required")
          else match GetUser (api_users st) (p_UserID me) with
          | inl e => (st, storeError e "user not found")
          | inr cur =>
              let refused :=
                if String.eqb (u_PasswordHash cur) "" then
                  if 0 <? CountLoginCapableUsers (api_users st)
                  then Some (RError 403 "account has no password; ask an admin to set one") else None
                else if negb (CheckPassword bcrypt_match (u_PasswordHash cur) (mu_CurrentPassword req))
                then Some (RError 403 "current_password is incorrect") else None in
              match refused with
              | Some e => (st, e)
              | None =>
                  match ValidateNewPassword password with
                  | Some e => (st, RError 400 e)
                  | None =>
                      match HashPassword bcrypt_hash password with
                      | inl e => (st, RError 400 (err_text e))
                      | inr hash =>
                          match UpdateUser (api_users st) (mkUpdateUser (p_UserID me) (Some hash) None) with
                          | (db, inl e) => (with_db st db, storeError e "user not found")
                          | (db, inr u) =>
                              let db := if sv_sessions s
                                        then DeleteUserSessionsExcept db (p_UserID me) (SessionIDFromRequest r) else db in
                              (Record_ s r p "user.password_change" "user" (p_UserID me) (with_db st db), RUser 200 u)
                          end
                      end
                  end
              end
          end
      end
  end.

(** http/users.go [Server.handleListAPIKeys] *)
Definition handleListAPIKeys : handler := λ s now r p st,
  match requireUser p with
  | inl e => (st, e)
  | inr me => if negb (sv_users s) then (st, RNothing) else (st, RKeys (ListAPIKeys (api_users st) (p_UserID me)))
  end.

(** auth/token.go [NewAPIToken] *)
Definition NewAPIToken (now : Z) : err + string * string :=
  match random_hex now with inl e => inl (EWrap "generate api token" e) | inr raw => inr (raw, HashToken sha256_hex raw) end.

(** http/users.go [Server.handleCreateAPIKey] *)
Definition handleCreateAPIKey : handler := λ s now r p st,
  match requireUser p with
  | inl e => (st, e)
  | inr me =>
      if negb (sv_users s) then (st, RNothing)
      else match decode_key (q_body r) with
      | inl e => (st, RError 400 e)
      | inr req =>
          let name := trim_space (kc_Name req) in
          let name := if String.eqb name "" then "default"%string else name in
          let scope := trim_space (kc_Scope req) in
          let scope := if String.eqb scope "" then ScopeAdmin else scope in
          if negb (IsValidScope scope) then (st, RError 400 "invalid scope: use read, write or admin")
          else match apiKeyExpiry (kc_ExpiresInDays req) now with
          | None => (st, RError 400 "expires_in_days must be between 0 and 3650")
          | Some expiresAt =>
              match NewAPIToken now with
              | inl e => (st, RError 500 "internal server error")
              | inr (raw, hash) =>
                  match CreateAPIKey (api_users st) (p_UserID me) name hash scope expiresAt with
                  | (db, inl e) => (with_db st db, RError 500 "internal server error")
                  | (db, inr k) => (Record_ s r p "api_key.create" "api_key" (k_ID k) (with_db st db), RKeyCreated k raw)
                  end
              end
          end
      end
  end.

(** http/users.go [Server.handleDeleteAPIKey] *)
Definition handleDeleteAPIKey : handler := λ s now r p st,
  match requireUser p with
  | inl e => (st, e)
  | inr me =>
      if negb (sv_users s) then (st, RNothing)
      else match parsePathID r with
      | inl e => (st, RError 400 e)
      | inr keyID =>
          match DeleteAPIKey (api_users st) (p_UserID me) keyID with
          | (db, Some e) => (with_db st db, storeError e "api key not found")
          | (db, None) => (Record_ s r p "api_key.delete" "api_key" keyID (with_db st db), RDeleted)
          end
      end
  end.

(** The API mux: the handlers above by name; the others leave accounts and keys alone. *)
Definition serve (limit offset : string) : handler := λ s now r p st,
  match route (q_method r) (q_segs r) with
  | None => (st, RElsewhere "404")
  | Some (_, _, name) =>
      if String.eqb name "handleListUsers" then handleListUsers limit offset s now r p st
      else if String.eqb name "handleCreateUser" then handleCreateUser s now r p st
      else if String.eqb name "handleUpdateUser" then handleUpdateUser s now r p st
      else if String.eqb name "handleDeleteUser" then handleDeleteUser s now r p st
      else if String.eqb name "handleGetMe" then handleGetMe s now r p st
      else if String.eqb name "handleUpdateMe" then handleUpdateMe s now r p st
      else if String.eqb name "handleListAPIKeys" then handleListAPIKeys s now r p st
      else if String.eqb name "handleCreateAPIKey" then handleCreateAPIKey s now r p st
      else if String.eqb name "handleDeleteAPIKey" then handleDeleteAPIKey s now r p st
      else (st, RElsewhere name)
  end.

(** A whole API request. *)
Definition api_request (url_host : string → option string) (limit offset : string) (s : Server) (now : Z) (r : ApiRequest) (st : Api)
    : Api * response :=
  wrapAPI sha256_hex url_host (serve limit offset) s now r st.

End Handlers.

(** * Routes: lemmas and theorems *)

(** Every pattern of the table is the most specific of those that match its own text. *)
Example routes_unambiguous :
  forallb (λ e, bool_decide (route e.1.1 (pat_segs e.1.2) = Some e)) api_routes = true.
Proof. vm_compute. reflexivity. Qed.

Lemma mux_match_spec {A} matches more (table : list A) e :
  mux_match matches more table = Some e → e ∈ table ∧ matches e = true.
Proof.
  unfold mux_match. intros H. apply head_Some_elem_of in H. apply list_elem_of_filter in H as [_ H].
  by apply list_elem_of_filter in H as [M H].
Qed.

Lemma route_spec method segs e :
  route method segs = Some e → e ∈ api_routes ∧ match_method e.1.1 method = true ∧ match_segs (pat_segs e.1.2) segs = true.
Proof. intros [H M]%mux_match_spec. unfold match_route in M. by apply andb_prop in M. Qed.

(** An id segment holds nothing but digits, a sign and white space. *)
Lemma parse_id_mem seg x :
  x ∈ String.list_ascii_of_string seg → byte_of x < 128 → ws1 x = false → is_digit x = false → byte_of x ≠ 43 → byte_of x ≠ 45 →
  ∃ e, parse_id seg = inl e.
Proof.
  intros Hx Hb Hw Hd H1 H2. unfold parse_id. destruct (String.eqb _ _); [eauto|].
  destruct (parse_int64 (trim_space seg)) as [v|] eqn:P; [|eauto].
  apply (parse_int64_mem _ _ x) in P; [|by apply trim_space_mem]. destruct P as [P|[P|P]]; congruence.
Qed.

Lemma string_of_list_app l k :
  String.string_of_list_ascii (l ++ k) = (String.string_of_list_ascii l ++ String.string_of_list_ascii k)%string.
Proof. induction l as [|c l IH]; simpl; [done|]. by rewrite IH. Qed.

Lemma str_rev_app a b : str_rev (a ++ b) = (str_rev b ++ str_rev a)%string.
Proof.
  unfold str_rev. rewrite <- string_of_list_app, <- rev_app_distr. f_equal. f_equal.
  induction a as [|c a IH]; simpl; [done|]. by rewrite IH.
Qed.

(** The last byte of a suffix is the last byte of a text that ends in it. *)
Lemma suffix_last pre x suf c :
  x ≠ "" → has_suffix (pre ++ x) (suf ++ String c "") = true → c ∈ String.list_ascii_of_string x.
Proof.
  unfold has_suffix. rewrite !str_rev_app. intros N H. apply str_rev_mem.
  destruct (str_rev x) as [|d l] eqn:E.
  - destruct N. apply (f_equal str_rev) in E. unfold str_rev in E.
    rewrite String.list_ascii_of_string_of_list_ascii, rev_involutive, String.string_of_list_ascii_of_string in E. exact E.
  - change (String.prefix (String c (str_rev suf)) (String d (l +:+ str_rev pre)) = true) in H. cbn in H. destruct (ascii_dec c d) as [->|]; [|done]. apply list_elem_of_here.
Qed.

Definition entry_state_handlers : list string :=
  ["handleBulkUpdateEntries"; "handleUpdateFeedEntry"; "handleMarkFeedAllRead"; "handleMarkCategoryAllRead"]%string.

(** The PUT routes. *)
Definition put_routes : list (string * string * string) :=
  Eval vm_compute in filter (λ e, match_method e.1.1 "PUT" = true) api_routes.

Lemma put_routes_spec e : e ∈ api_routes → match_method e.1.1 "PUT" = true → e ∈ put_routes.
Proof.
  intros H M. replace put_routes with (filter (λ e, match_method e.1.1 "PUT" = true) api_routes) by reflexivity.
  by apply list_elem_of_filter.
Qed.

Lemma match_segs_cons p pat segs : match_segs (p :: pat) segs = true →
  ∃ s segs', segs = s :: segs' ∧ match_segs pat segs' = true ∧ (if is_wild p then s ≠ "" else s = p).
Proof.
  destruct segs as [|s segs]; [done|]. cbn [match_segs]. intros [H1 H2]%andb_prop. exists s, segs.
  split; [done|]. split; [done|]. destruct (is_wild p); bool_to_prop; done.
Qed.

Lemma match_segs_nil segs : match_segs [] segs = true → segs = [].
Proof. by destruct segs. Qed.

Lemma write_put path :
  ScopeAllows ScopeWrite "PUT" path =
  if String.eqb path "/v1/entries" then true
  else if has_prefix path "/v1/feeds/" && contains (str_drop 10 path) "/entries/" then true
  else has_suffix path "/mark-all-as-read" && (has_prefix path "/v1/feeds/" || has_prefix path "/v1/categories/").
Proof. reflexivity. Qed.

(** What the write scope asks of a PUT under a fixed prefix. *)
Lemma write_put_id pre x :
  x ≠ "" →
  (has_prefix (pre ++ x) "/v1/feeds/" = true → str_drop 10 (pre ++ x) = x) →
  ScopeAllows ScopeWrite "PUT" (pre ++ x) = true → (pre ++ x)%string ≠ "/v1/entries" → ∃ e, parse_id x = inl e.
Proof.
  intros N D A E. rewrite write_put, (proj2 (String.eqb_neq _ _) E) in A.
  destruct (has_prefix (pre ++ x) "/v1/feeds/" && contains (str_drop 10 (pre ++ x)) "/entries/") eqn:C.
  - apply andb_prop in C as [C1 C2]. rewrite (D C1) in C2.
    apply (parse_id_mem x slash); try done. eapply contains_mem; [exact C2|]. apply list_elem_of_here.
  - apply andb_prop in A as [A _].
    apply (parse_id_mem x "d"%char); try done. apply (suffix_last pre x "/mark-all-as-rea" "d"%char N). exact A.
Qed.

(** An API key cannot do more than its scope: through the route table, decoded
    segments and all, a read key reaches handlers of safe methods only, and a write
    key besides these only the four that set the read or starred state of entries; a
    text smuggled into an id segment (an escaped slash) may pass the scope's test of the
    whole path, but then it is refused as an id. *)
Lemma scope_confined scope method segs e :
  route method segs = Some e → ScopeAllows scope method (path_of segs) = true →
  (scope = ScopeRead → isSafeMethod method = true) ∧
  (scope = ScopeWrite → isSafeMethod method = true ∨ e.2 ∈ entry_state_handlers ∨
     ("{id}"%string ∈ pat_segs e.1.2 ∧ ∃ refusal, parse_id (path_value (pat_segs e.1.2) segs "id") = inl refusal)).
Proof.
  intros R A. apply route_spec in R as (Hin & Hm & Hs). split; intros ->; [done|].
  destruct (isSafeMethod method) eqn:S; [by left|right].
  assert (method = "PUT") as ->.
  { unfold ScopeAllows in A. rewrite S in A. cbn in A.
    destruct (negb (String.eqb method "PUT")) eqn:P; [done|]. by bool_to_prop. }
  apply put_routes_spec in Hin; [|done]. unfold put_routes in Hin. clear S Hm.
  repeat (apply elem_of_cons in Hin as [->|Hin]); [..|by apply elem_of_nil in Hin].
  all: try (left; apply (bool_decide_unpack _); vm_compute; exact I).
  all: right; cbn [fst snd] in Hs |- *.
  all: match type of Hs with match_segs ?p _ = _ => let p' := eval vm_compute in p in change p with p' in Hs |- * end.
  all: repeat (apply match_segs_cons in Hs as (? & ? & -> & Hs & ?)); apply match_segs_nil in Hs as ->.
  all: repeat match goal with H : context [is_wild _] |- _ => vm_compute in H; try (injection H as ->); subst end.
  all: try (vm_compute in A; discriminate A).
  all: split; [apply (bool_decide_unpack _); vm_compute; exact I|].
  all: match goal with |- context [path_value _ ["v1"; ?b; ?x]%string _] =>
    let pre := eval vm_compute in ("/v1/" ++ b ++ "/")%string in
    change (path_of ["v1"; b; x]%string) with (pre ++ x)%string in A;
    change (path_value _ _ _) with x; apply (write_put_id pre x); [assumption| |exact A|]
  end.
  all: intros E; vm_compute in E; try discriminate E; reflexivity.
Qed.

Definition smuggled : list string := ["v1"; "feeds"; "5/entries/9"]%string.

Lemma scope_confined_witness :
  route "PUT" smuggled = Some ("PUT", "/v1/feeds/{id}", "handleUpdateFeed")%string ∧
  ScopeAllows ScopeWrite "PUT" (path_of smuggled) = true ∧
  (isSafeMethod "PUT" = true ∨ "handleUpdateFeed"%string ∈ entry_state_handlers ∨
     ("{id}"%string ∈ pat_segs "/v1/feeds/{id}" ∧
      ∃ refusal, parse_id (path_value (pat_segs "/v1/feeds/{id}") smuggled "id") = inl refusal)).
Proof.
  assert (route "PUT" smuggled = Some ("PUT", "/v1/feeds/{id}", "handleUpdateFeed")%string) as R by (vm_compute; reflexivity).
  assert (ScopeAllows ScopeWrite "PUT" (path_of smuggled) = true) as A by (vm_compute; reflexivity).
  split; [exact R|]. split; [exact A|].
  exact (proj2 (scope_confined ScopeWrite "PUT" smuggled ("PUT", "/v1/feeds/{id}", "handleUpdateFeed")%string R A) eq_refl).
Defined.

(** * The gate: lemmas and theorems *)

Section GateFacts.
Context (sha256_hex : string → string) (url_host : string → option string).

(** The principal is the row of an existing user. *)
Definition principal_of (db : UserDb) (p : Principal) (scope : string) (uid : Z) : Prop :=
  ∃ u, ud_users db !! uid = Some u ∧ p = mkPrincipal (u_ID u) (u_Role u) (u_Username u) scope.

(** Named by a session that has not expired. *)
Definition by_cookie (now : Z) (db : UserDb) (r : ApiRequest) (p : Principal) : Prop :=
  ∃ id s, ud_sessions db !! id = Some s ∧ s_SessionID s = SessionIDFromRequest r ∧ s_SessionID s ≠ "" ∧
    now < s_ExpiresAt s ∧ principal_of db p "" (s_UserID s).

(** Named by a key that has not expired. *)
Definition by_key (now : Z) (db : UserDb) (r : ApiRequest) (p : Principal) : Prop :=
  ∃ id k, ud_keys db !! id = Some k ∧ k_TokenHash k = sha256_hex (tokenFromHeader r) ∧ tokenFromHeader r ≠ "" ∧
    (∀ t, k_ExpiresAt k = Some t → now < t) ∧ principal_of db p (k_Scope k) (k_UserID k).

Lemma LookupSession_spec now db sid s :
  LookupSession now db sid = inr s → ∃ id, ud_sessions db !! id = Some s ∧ s_SessionID s = sid ∧ now < s_ExpiresAt s.
Proof.
  unfold LookupSession. destruct (rows_where _ _) eqn:F; [done|]. intros [= ->].
  apply rows_where_cons in F as (id & L & P). bool_to_prop. eauto.
Qed.

Lemma LookupAPIKey_spec db h k :
  LookupAPIKey db h = inr k → ∃ id, ud_keys db !! id = Some k ∧ k_TokenHash k = h.
Proof.
  unfold LookupAPIKey. destruct (rows_where _ _) eqn:F; [done|]. intros [= ->].
  apply rows_where_cons in F as (id & L & P). bool_to_prop. eauto.
Qed.

Lemma TouchSession_users db sid e : ud_users (TouchSession db sid e).1 = ud_users db.
Proof. unfold TouchSession. by destruct (rows_where _ _). Qed.

Lemma TouchAPIKeyUsed_rest now db id :
  ud_users (TouchAPIKeyUsed now db id) = ud_users db ∧ ud_sessions (TouchAPIKeyUsed now db id) = ud_sessions db.
Proof. unfold TouchAPIKeyUsed. destruct (ud_keys db !! id); [|done]. by case_match_goal. Qed.

Lemma authenticateSession_spec s now db r :
  match authenticateSession s now db r with
  | (db', Some p) => ud_users db' = ud_users db ∧ by_cookie now db r p
  | (db', None) => db' = db
  end.
Proof.
  unfold authenticateSession. destruct (_ || _); [done|]. destruct (String.eqb _ _) eqn:E; [done|].
  destruct (LookupSession _ _ _) as [|sess] eqn:L; [done|]. destruct (GetUser _ _) as [|u] eqn:G; [done|].
  apply LookupSession_spec in L as (id & L & I & X). apply GetUser_spec in G. bool_to_prop. split.
  - destruct (SessionNeedsTouch _ _ _); [apply TouchSession_users|done].
  - exists id, sess. rewrite I. split_and!; try done. by exists u.
Qed.

Lemma by_cookie_users now db db' r p :
  ud_users db' = ud_users db → ud_sessions db' = ud_sessions db → by_cookie now db' r p → by_cookie now db r p.
Proof. unfold by_cookie, principal_of. intros -> ->. done. Qed.

Lemma authenticate_spec s now db r db' p via :
  authenticateRequestSource sha256_hex s now db r = (db', p, via) →
  ud_users db' = ud_users db ∧
  match p with
  | Some p => if (via : bool) then by_cookie now db r p else by_key now db r p
  | None => True
  end.
Proof.
  unfold authenticateRequestSource.
  assert (∀ d, ud_users d = ud_users db → ud_sessions d = ud_sessions db →
    match authenticateSession s now d r with
    | (db, Some p) => (db, Some p, true)
    | (db, None) => (db, None, false)
    end = (db', p, via) →
    ud_users db' = ud_users db ∧
    match p with Some p => if via then by_cookie now db r p else by_key now db r p | None => True end) as B.
  { intros d U S H. pose proof (authenticateSession_spec s now d r) as A.
    destruct (authenticateSession s now d r) as [d' [q|]]; injection H as <- <- <-.
    - destruct A as [A1 A2]. split; [congruence|]. by apply (by_cookie_users now db d).
    - subst d'. done. }
  destruct (String.eqb _ _) eqn:E; [by apply B|]. destruct (sv_users s); [|by apply B].
  destruct (LookupAPIKey _ _) as [|k] eqn:L; [by apply B|]. destruct (negb (Expired k now)) eqn:X; [|by apply B].
  destruct (TouchAPIKeyUsed_rest now db (k_ID k)) as [TU TS].
  destruct (GetUser _ _) as [|u] eqn:G; [by apply B|]. intros [= <- <- <-]. split; [done|].
  apply LookupAPIKey_spec in L as (id & L & H). apply GetUser_spec in G. rewrite TU in G. bool_to_prop.
  exists id, k. split_and!; try done; [|by exists u].
  intros t T. unfold Expired in X. rewrite T in X. unfold time_after in X. bool_to_prop. done.
Qed.

Definition admitted (s : Server) (now : Z) (r : ApiRequest) (st : Api) (p : Principal) : Prop :=
  (by_key now (api_users st) r p ∨
   (by_cookie now (api_users st) r p ∧ (isSafeMethod (q_method r) = true ∨ sameOriginRequest url_host s r = true))) ∧
  ScopeAllows (p_Scope p) (q_method r) (q_path r) = true.

Definition bootstrap_request (s : Server) (r : ApiRequest) (st : Api) : Prop :=
  q_method r = "POST" ∧ q_path r = "/v1/users" ∧ CountLoginCapableUsers (api_users st) = 0 ∧
  sv_adminUsername s ≠ "" ∧ sv_adminPassword s ≠ "".

(** What the gate does, before its handler is known. *)
Lemma gate_cases s now r st :
  (∃ db status msg, ud_users db = ud_users (api_users st) ∧ status ∈ [401; 403; 429] ∧
     ∀ next, wrapAPI sha256_hex url_host next s now r st = (with_db st db, RError status msg)) ∨
  (∃ db p, ud_users db = ud_users (api_users st) ∧ admitted s now r st p ∧
     ∀ next, wrapAPI sha256_hex url_host next s now r st = next s now r (Some p) (with_db st db)) ∨
  (bootstrap_request s r st ∧ ∀ next, wrapAPI sha256_hex url_host next s now r st = next s now r None st).
Proof.
  unfold wrapAPI. destruct (String.eqb (q_method r) "POST" && _ && _) eqn:B.
  - right; right. unfold allowBootstrapCreateUser in B. apply andb_prop in B as [[B1 B2]%andb_prop B3].
    destruct (negb (sv_users s)); [done|]. destruct (0 <? _) eqn:C; [done|]. bool_to_prop. split; [|done]. unfold bootstrap_request. split_and!; try done.
    unfold CountLoginCapableUsers, count_where in *. lia.
  - destruct (authenticateRequestSource _ _ _ _ _) as [[db p] via] eqn:A. apply authenticate_spec in A as [U A].
    destruct p as [p|].
    + destruct (via && _ && _) eqn:O.
      { left. exists db, 403. eexists. split; [done|]. split; [set_solver|]. intros next. reflexivity. }
      destruct (negb (ScopeAllows _ _ _)) eqn:SA.
      { left. exists db, 403. eexists. split; [done|]. split; [set_solver|]. intros next. reflexivity. }
      right; left. exists db, p. split; [done|]. split; [|done]. split; [|by bool_to_prop].
      destruct via; [right|by left]. split; [done|]. apply andb_false_iff in O as [O|O]; bool_to_prop; [left|right].
      * apply negb_false_iff. simpl in O. exact O.
      * done.
    + left. destruct (match sv_rateLimiter s with Some _ => _ | None => _ end).
      * exists db, 429. eexists. split; [done|]. split; [set_solver|]. intros next. reflexivity.
      * exists db, 401. eexists. split; [done|]. split; [set_solver|]. intros next. reflexivity.
Qed.

(** C15: nothing behind the gate runs for a stranger.  Whatever the handler is, either
    the gate answers itself with 401, 403 or 429, or the handler runs with a principal
    that is the current row of a user named by an unexpired key or an unexpired
    session, within the key's scope; with only a cookie and a method that changes
    something, the request shows it came from the application's own origin.  Without
    a principal it runs for one request alone: POST /v1/users, while nobody can sign
    in and the operator's credentials are configured.  The accounts the handler
    starts from are those of before the gate. *)
Theorem api_request_admitted (next : handler) s now r st st' resp :
  wrapAPI sha256_hex url_host next s now r st = (st', resp) →
  (∃ status msg, resp = RError status msg ∧ status ∈ [401; 403; 429] ∧ ud_users (api_users st') = ud_users (api_users st)) ∨
  ∃ p st1, next s now r p st1 = (st', resp) ∧ ud_users (api_users st1) = ud_users (api_users st) ∧
    match p with
    | Some p =>
        (by_key now (api_users st) r p ∨
         (by_cookie now (api_users st) r p ∧ (isSafeMethod (q_method r) = true ∨ sameOriginRequest url_host s r = true))) ∧
        ScopeAllows (p_Scope p) (q_method r) (q_path r) = true
    | None => bootstrap_request s r st
    end.
Proof.
  intros H. destruct (gate_cases s now r st) as [(db & c & m & U & C & E)|[(db & p & U & A & E)|[B E]]]; rewrite E in H.
  - left. injection H as <- <-. eauto.
  - right. exists (Some p), (with_db st db). done.
  - right. exists None, st. done.
Qed.
End GateFacts.

(** * Who changes accounts *)

Definition users_of (st : Api) : gmap Z User := ud_users (api_users st).

Lemma RoleAtLeast_admin role : RoleAtLeast role RoleAdmin = true → role = RoleAdmin.
Proof.
  unfold RoleAtLeast, roleRank. destruct (String.eqb role RoleReader); [done|].
  destruct (String.eqb role RoleEditor); [done|]. destruct (String.eqb role RoleAdmin) eqn:E; [|done]. by bool_to_prop.
Qed.

Lemma requireAdmin_role p q : requireAdmin p = inr q → p = Some q ∧ p_Role q = RoleAdmin ∧ 0 < p_UserID q.
Proof.
  unfold requireAdmin, requireRole, requireUser. destruct p as [p|]; [|done].
  destruct (p_UserID p <=? 0) eqn:I; [done|]. destruct (negb _ && negb _) eqn:R; [done|]. intros [= ->].
  change (negb (String.eqb RoleAdmin "")) with true in R. bool_to_prop. split_and!; [done| |lia].
  simpl in R. apply negb_false_iff in R. by apply RoleAtLeast_admin.
Qed.

Lemma requireStore_me p role conf msg me : requireStore p role conf msg = inr me → p = Some me ∧ 0 < p_UserID me.
Proof.
  unfold requireStore, requireRole, requireUser. intros H. destruct p as [q|]; [|done]. repeat case_match; try done.
  bool_to_prop. simplify_eq. split; [done|lia].
Qed.

Lemma requireStoreID_me r p role conf msg me id : requireStoreID r p role conf msg = inr (me, id) → p = Some me ∧ 0 < p_UserID me.
Proof.
  unfold requireStoreID. destruct (requireStore p role conf msg) as [|q] eqn:E; [done|]. apply requireStore_me in E.
  destruct (parsePathID r); [done|]. by intros [= -> ->].
Qed.

Lemma requireStoreID_role r p configured msg q id :
  requireStoreID r p RoleAdmin configured msg = inr (q, id) → p = Some q ∧ p_Role q = RoleAdmin.
Proof.
  unfold requireStoreID, requireStore. fold (requireAdmin p). destruct (requireAdmin p) as [|x] eqn:A; [done|].
  destruct configured; [|done]. destruct (parsePathID r); [done|]. intros [= <- <-].
  by apply requireAdmin_role in A as (? & ? & _).
Qed.

Lemma Create_fails db p e db' : CreateUser db p = (db', inl e) → db' = db.
Proof. unfold CreateUser. repeat case_match; intros; by simplify_eq. Qed.

Lemma Create_inr db p db' u : CreateUser db p = (db', inr u) →
  u_Username u = trim_space (cu_Username p) ∧ (cu_Role p = RoleAdmin → u_Role u = RoleAdmin) ∧
  ud_users db' = <[ud_next_user db := u]> (ud_users db).
Proof.
  unfold CreateUser. destruct (String.eqb (trim_space _) ""); [done|].
  destruct (negb (IsValidRole _)); [done|]. destruct (rows_where _ _); [|done]. intros [= <- <-]. split_and!; try done.
  simpl. by intros ->.
Qed.

Lemma withTx_inl {S A} (s : S) (fn : S → S * (err + A)) s' e : EntryStore.withTx s fn = (s', inl e) → s' = s.
Proof. unfold EntryStore.withTx. destruct (fn s) as [? [|]]; by intros [= <- _]. Qed.

Section Accounts.
Context (bcrypt_hash : string → err + string) (bcrypt_match : string → string → bool)
        (sha256_hex : string → string) (random_hex : Z → err + string) (url_host : string → option string).
Context (decode_create : string → string + userCreateRequest) (decode_update : string → string + userUpdateRequest)
        (decode_me : string → string + meUpdateRequest) (decode_key : string → string + apiKeyCreateRequest).

Lemma create_users s now r p st :
  let st' := fst (handleCreateUser bcrypt_hash decode_create s now r p st) in
  users_of st' = users_of st ∨
  (∃ q, p = Some q ∧ p_Role q = RoleAdmin) ∨
  ((∀ q, p = Some q → p_UserID q <= 0) ∧ CountLoginCapableUsers (api_users st) = 0 ∧
   ∃ u, users_of st' = <[ud_next_user (api_users st) := u]> (users_of st) ∧ u_Role u = RoleAdmin ∧
     (sv_adminUsername s ≠ "" → sv_adminPassword s ≠ "" → u_Username u = trim_space (sv_adminUsername s))).
Proof.
  unfold handleCreateUser, users_of.
  destruct (negb (sv_users s)); [by left|]. destruct (decode_create (q_body r)) as [|req]; [by left|].
  destruct (String.eqb (trim_space (uc_Username req)) "" || _); [by left|].
  set (role := if String.eqb (trim_space (uc_Role req)) "" then RoleReader else trim_space (uc_Role req)).
  destruct (negb (IsValidRole role)); [by left|].
  set (auth := match p with Some p => 0 <? p_UserID p | None => false end).
  destruct auth eqn:AU; subst auth.
  - destruct (requireAdmin p) as [|q] eqn:A; [by left|]. apply requireAdmin_role in A as (-> & R & _). right; left. eauto.
  - destruct (_ =? 0) eqn:C; [|by left]. bool_to_prop.
    assert (∀ q, p = Some q → p_UserID q <= 0) as P by (intros q ->; by bool_to_prop).
    destruct (negb (String.eqb (sv_adminUsername s) "") && negb (String.eqb (sv_adminPassword s) "")) eqn:S.
    + destruct (negb (String.eqb (trim_space (uc_Username req)) (sv_adminUsername s)) || _) eqn:M; [by left|]. bool_to_prop.
      destruct (HashPassword _ _); [by left|].
      destruct (CreateUser _ _) as [db [e|u]] eqn:CU.
      * left. apply Create_fails in CU as ->. by destruct (is_duplicate_username e).
      * right; right. apply Create_inr in CU as (N & R & U). split_and!; [done|done|]. exists u. simpl. split_and!; [done|by apply R|].
        intros _ _. rewrite N. simpl. congruence.
    + destruct (ValidateNewPassword _); [by left|]. destruct (HashPassword _ _); [by left|].
      destruct (CreateUser _ _) as [db [e|u]] eqn:CU.
      * left. apply Create_fails in CU as ->. by destruct (is_duplicate_username e).
      * right; right. apply Create_inr in CU as (N & R & U). split_and!; [done|done|]. exists u. simpl. split_and!; [done|by apply R|].
        intros S1 S2. apply andb_false_iff in S as [S|S]; bool_to_prop; done.
Qed.

Lemma update_users s now r p st :
  users_of (fst (handleUpdateUser bcrypt_hash decode_update s now r p st)) = users_of st ∨ ∃ q, p = Some q ∧ p_Role q = RoleAdmin.
Proof.
  unfold handleUpdateUser. destruct (requireStoreID _ _ _ _ _) as [|[q id]] eqn:A; [by left|].
  apply requireStoreID_role in A. right. eauto.
Qed.

Lemma delete_users s now r p st :
  users_of (fst (handleDeleteUser s now r p st)) = users_of st ∨ ∃ q, p = Some q ∧ p_Role q = RoleAdmin.
Proof.
  unfold handleDeleteUser. destruct (requireStoreID _ _ _ _ _) as [|[q id]] eqn:A; [by left|].
  apply requireStoreID_role in A. right. eauto.
Qed.

(** The request shows the password of [u] as its [current_password], or there is none and nobody can sign in. *)
Definition knows_password (st : Api) (u : User) (req : meUpdateRequest) : Prop :=
  bcrypt_match (u_PasswordHash u) (mu_CurrentPassword req) = true ∨
  (u_PasswordHash u = "" ∧ CountLoginCapableUsers (api_users st) = 0).

(** The password of one's own row became the hash of the one the request asks for; on an instance
    with sessions, other browsers are signed out. *)
Definition own_password_changed (s : Server) (r : ApiRequest) (q : Principal) (st st' : Api) : Prop :=
  ∃ u req hash, users_of st !! p_UserID q = Some u ∧ decode_me (q_body r) = inr req ∧ knows_password st u req ∧
    ValidateNewPassword (trim_space (mu_Password req)) = None ∧
    HashPassword bcrypt_hash (trim_space (mu_Password req)) = inr hash ∧
    users_of st' = <[p_UserID q := mkUser (u_ID u) (u_Username u) hash (u_Role u)]> (users_of st) ∧
    (sv_sessions s = true → ∀ id x, ud_sessions (api_users st') !! id = Some x → s_UserID x = p_UserID q →
       s_SessionID x = SessionIDFromRequest r).

Lemma update_password db id hash db' u :
  UpdateUser db (mkUpdateUser id (Some hash) None) = (db', inr u) →
  ∃ v, ud_users db !! id = Some v ∧ ud_users db' = <[id := mkUser (u_ID v) (u_Username v) hash (u_Role v)]> (ud_users db).
Proof.
  unfold UpdateUser, EntryStore.withTx. cbn [uu_PasswordHash uu_Role uu_ID default].
  destruct (ud_users db !! id) as [v|]; [|done]. intros [= <- _]. eauto.
Qed.

Lemma update_fails db p e db' : UpdateUser db p = (db', inl e) → db' = db.
Proof.
  unfold UpdateUser. destruct (uu_PasswordHash p), (uu_Role p); try (by intros [= <- _]).
  all: try (destruct (negb (IsValidRole _)); [by intros [= <- _]|]).
  all: apply withTx_inl.
Qed.

Lemma me_users s now r p st :
  let st' := fst (handleUpdateMe bcrypt_hash bcrypt_match decode_me s now r p st) in
  users_of st' = users_of st ∨ ∃ q, p = Some q ∧ own_password_changed s r q st st'.
Proof.
  unfold handleUpdateMe, requireUser. destruct p as [q|]; [|by left]. destruct (p_UserID q <=? 0); [by left|].
  destruct (negb (sv_users s)); [by left|]. destruct (decode_me _) as [|req] eqn:D; [by left|].
  destruct (String.eqb _ ""); [by left|]. destruct (GetUser _ _) as [|cur] eqn:G; [by left|]. apply GetUser_spec in G.
  destruct (if String.eqb (u_PasswordHash cur) "" then _ else _) eqn:K; [by left|].
  destruct (ValidateNewPassword _) eqn:V; [by left|]. destruct (HashPassword _ _) as [|hash] eqn:H; [by left|].
  destruct (UpdateUser _ _) as [db [e|u]] eqn:U.
  - left. apply update_fails in U as ->. done.
  - right. exists q. split; [done|]. apply update_password in U as (v & Lv & U).
    assert (v = cur) as -> by congruence. exists cur, req, hash. split_and!; [done|done| |done|done| |].
    + destruct (String.eqb (u_PasswordHash cur) "") eqn:E.
      * right. bool_to_prop. split; [done|]. destruct (0 <? _) eqn:C; [done|]. bool_to_prop.
        unfold CountLoginCapableUsers, count_where in *. lia.
      * left. destruct (negb _) eqn:M; [done|]. bool_to_prop. unfold CheckPassword in M.
        destruct (_ || _); [done|]. eauto.
    + unfold users_of. cbn. destruct (sv_sessions s); exact U.
    + intros S. rewrite S. cbn. intros id x [_ F]%map_lookup_filter_Some I. simpl in F.
      destruct (decide (s_SessionID x = SessionIDFromRequest r)) as [|N]; [done|]. destruct F. done.
Qed.

Lemma keys_users s now r p st :
  users_of (fst (handleCreateAPIKey sha256_hex random_hex decode_key s now r p st)) = users_of st ∧
  users_of (fst (handleDeleteAPIKey s now r p st)) = users_of st.
Proof.
  split; unfold handleCreateAPIKey, handleDeleteAPIKey, users_of.
  - destruct (requireUser p) as [|me]; [done|]. destruct (negb _); [done|]. destruct (decode_key _); [done|].
    destruct (negb (IsValidScope _)); [done|]. destruct (apiKeyExpiry _ _); [|done].
    destruct (NewAPIToken _ _ _) as [|[raw hash]]; [done|]. unfold CreateAPIKey.
    destruct (rows_where _ _); [|done]. destruct (ud_users (api_users st) !! _) eqn:L; done.
  - destruct (requireUser p) as [|me]; [done|]. destruct (negb _); [done|]. destruct (parsePathID r); [done|].
    unfold DeleteAPIKey. destruct (ud_keys (api_users st) !! _) as [k|]; [|done]. by destruct (_ =? _).
Qed.

(** What the mux can do to accounts. *)
Lemma serve_users limit offset s now r p st :
  let st' := fst (serve bcrypt_hash bcrypt_match sha256_hex random_hex decode_create decode_update decode_me decode_key
                    limit offset s now r p st) in
  users_of st' = users_of st ∨
  (∃ q, p = Some q ∧ p_Role q = RoleAdmin) ∨
  (∃ q, p = Some q ∧ own_password_changed s r q st st') ∨
  ((∀ q, p = Some q → p_UserID q <= 0) ∧ CountLoginCapableUsers (api_users st) = 0 ∧
   ∃ u, users_of st' = <[ud_next_user (api_users st) := u]> (users_of st) ∧ u_Role u = RoleAdmin ∧
     (sv_adminUsername s ≠ "" → sv_adminPassword s ≠ "" → u_Username u = trim_space (sv_adminUsername s))).
Proof.
  unfold serve. destruct (route _ _) as [[[m pth] name]|]; [|by left].
  destruct (String.eqb name "handleListUsers").
  { left. unfold handleListUsers. destruct (requireStore _ _ _ _); [done|]. destruct (parseLimitOffset _ _ _) as [|[l o]]; [done|].
    destruct (o <? 0); [done|]. by destruct (ListUsers _ _ _). }
  destruct (String.eqb name "handleCreateUser").
  { destruct (create_users s now r p st) as [?|[?|?]]; auto. }
  destruct (String.eqb name "handleUpdateUser"). { destruct (update_users s now r p st); auto. }
  destruct (String.eqb name "handleDeleteUser"). { destruct (delete_users s now r p st); auto. }
  destruct (String.eqb name "handleGetMe").
  { left. unfold handleGetMe. destruct (requireUser p); [done|]. destruct (negb _); [done|]. by destruct (GetUser _ _). }
  destruct (String.eqb name "handleUpdateMe"). { destruct (me_users s now r p st); auto. }
  destruct (String.eqb name "handleListAPIKeys").
  { left. unfold handleListAPIKeys. destruct (requireUser p); [done|]. by destruct (negb _). }
  destruct (String.eqb name "handleCreateAPIKey"). { left. apply keys_users. }
  destruct (String.eqb name "handleDeleteAPIKey"). { left. apply keys_users. }
  by left.
Qed.

Lemma admitted_positive s now r st p : db_ok (api_users st) → admitted sha256_hex url_host s now r st p → 0 < p_UserID p.
Proof.
  intros W [[(id & k & _ & _ & _ & _ & u & L & ->)|[(id & x & _ & _ & _ & _ & u & L & ->) _]] _];
    destruct (ok_user _ W _ _ L) as (-> & ? & _); simpl; lia.
Qed.

(** C14: who can change the accounts through the API.  If a request leaves a different
    set of accounts behind, then its caller is an administrator (named by an unexpired
    key or session, within scope and origin), or its caller changed the password of
    their own row and nothing else, to one the rules for new passwords admit, the
    [current_password] of the request being the old one (or there was none and nobody could sign
    in), and, on a server that keeps sessions, every other session of that user is gone, or it was
    the bootstrap request of an instance where nobody can sign in, which adds one
    administrator under the operator's configured name. *)
Theorem account_changes_authorized limit offset s now r st :
  let st' := fst (api_request bcrypt_hash bcrypt_match sha256_hex random_hex decode_create decode_update decode_me decode_key
                    url_host limit offset s now r st) in
  db_ok (api_users st) → users_of st' ≠ users_of st →
  (∃ p, admitted sha256_hex url_host s now r st p ∧ p_Role p = RoleAdmin) ∨
  (∃ p, admitted sha256_hex url_host s now r st p ∧ own_password_changed s r p st st') ∨
  (bootstrap_request s r st ∧
   ∃ u, users_of st' = <[ud_next_user (api_users st) := u]> (users_of st) ∧ u_Role u = RoleAdmin ∧
     u_Username u = trim_space (sv_adminUsername s)).
Proof.
  intros st' W N. subst st'. unfold api_request in *.
  destruct (gate_cases sha256_hex url_host s now r st) as [(db & c & m & U & C & E)|[(db & p & U & A & E)|[B E]]]; rewrite E in N |- *.
  - destruct N. exact U.
  - destruct (serve_users limit offset s now r (Some p) (with_db st db)) as [S|[(q & [= <-] & R)|[(q & [= <-] & O)|(P & _)]]].
    + destruct N. rewrite S. exact U.
    + left. eauto.
    + right; left. exists p. split; [done|]. unfold own_password_changed, knows_password, users_of, CountLoginCapableUsers in *.
      simpl in O. by rewrite U in O.
    + specialize (P p eq_refl). apply admitted_positive in A; [lia|done].
  - destruct (serve_users limit offset s now r None st) as [S|[(q & [=] & _)|[(q & [=] & _)|(_ & _ & u & S & R & NM)]]].
    + destruct N. exact S.
    + right; right. split; [done|]. destruct B as (_ & _ & _ & B1 & B2). exists u. auto.
Qed.
End Accounts.

(** ** Concrete requests *)

Definition w_server : Server := mkServer true true 0 "root" "hunter22" ClientIP.DefaultTrustedProxies None.
Definition w_hash (p : string) : err + string := inr ("$" ++ p)%string.
Definition w_match (h p : string) : bool := String.eqb h ("$" ++ p).
Definition w_create (b : string) : string + userCreateRequest := inr (mkUserCreate "bob" "password1" "editor").
Definition w_me (b : string) : string + meUpdateRequest := inr (mkMeUpdate "hunter22" "password2").
Definition w_no {A} (b : string) : string + A := inl "invalid JSON body"%string.
Definition w_db : UserDb :=
  mkUserDb {[1 := mkUser 1 "root" "$hunter22" RoleAdmin; 2 := mkUser 2 "ann" "$hunter22" RoleReader]} 3
    {[1 := mkAPIKey 1 2 "k" "tok" ScopeWrite (Some 50) None]} 2
    {[1 := mkSession 1 1 "sid" 100; 2 := mkSession 2 2 "ann" 100; 3 := mkSession 3 2 "old" 100]} 4.
Definition w_state : Api := mkApi w_db [].
Definition w_headers (name : string) : list string :=
  if String.eqb name "Sec-Fetch-Site" then ["same-origin"%string] else [].
Definition w_request (method : string) (segs : list string) (cookie : string) : ApiRequest :=
  mkApiRequest (ClientIP.mkRequest "192.0.2.1:99" w_headers "rss.example" true) method segs (Some cookie) "{}".
Definition w_api := api_request w_hash w_match id (λ _, inr "tok2"%string) w_create w_no w_me w_no (λ _, None).

Lemma w_db_ok : db_ok w_db.
Proof.
  split; simpl.
  - lia.
  - intros id u [[<- <-]|[_ [<- <-]%lookup_singleton_Some]]%lookup_insert_Some; by vm_compute.
  - intros i j u v [[<- <-]|[_ [<- <-]%lookup_singleton_Some]]%lookup_insert_Some
      [[<- <-]|[_ [<- <-]%lookup_singleton_Some]]%lookup_insert_Some; done.
  - intros id k [<- <-]%lookup_singleton_Some. split; [lia|eexists; vm_compute; reflexivity].
  - intros i j k l [<- <-]%lookup_singleton_Some [<- <-]%lookup_singleton_Some; done.
  - intros id u [[<- <-]|[_ [[<- <-]|[_ [<- <-]%lookup_singleton_Some]]%lookup_insert_Some]]%lookup_insert_Some; (split; [lia|eexists; vm_compute; reflexivity]).
  - intros i j u v [[<- <-]|[_ [[<- <-]|[_ [<- <-]%lookup_singleton_Some]]%lookup_insert_Some]]%lookup_insert_Some
      [[<- <-]|[_ [[<- <-]|[_ [<- <-]%lookup_singleton_Some]]%lookup_insert_Some]]%lookup_insert_Some; done.
Qed.

Lemma api_request_admitted_witness :
  let r := w_request "POST" ["v1"; "users"]%string "sid" in
  let next := serve w_hash w_match id (λ _, inr "tok2"%string) w_create w_no w_me w_no "" "" in
  let res := wrapAPI id (λ _, None) next w_server 60 r w_state in
  snd res = RUser 201 (mkUser 3 "bob" "$password1" RoleEditor) ∧
  ((∃ status msg, snd res = RError status msg ∧ status ∈ [401; 403; 429] ∧ ud_users (api_users (fst res)) = ud_users w_db) ∨
  ∃ p st1, next w_server 60 r p st1 = (fst res, snd res) ∧ ud_users (api_users st1) = ud_users w_db ∧
    match p with
    | Some p =>
        (by_key id 60 w_db r p ∨
         (by_cookie 60 w_db r p ∧ (isSafeMethod "POST" = true ∨ sameOriginRequest (λ _, None) w_server r = true))) ∧
        ScopeAllows (p_Scope p) "POST" (q_path r) = true
    | None => bootstrap_request w_server r w_state
    end).
Proof.
  intros r next res. split; [vm_compute; reflexivity|].
  apply (api_request_admitted id (λ _, None) next w_server 60 r w_state (fst res) (snd res)).
  apply surjective_pairing.
Defined.

Lemma account_changes_authorized_witness :
  let r := w_request "PUT" ["v1"; "me"]%string "ann" in
  let st' := fst (w_api "" "" w_server 60 r w_state) in
  db_ok w_db ∧ users_of st' ≠ users_of w_state ∧
  ((∃ p, admitted id (λ _, None) w_server 60 r w_state p ∧ p_Role p = RoleAdmin) ∨
   (∃ p, admitted id (λ _, None) w_server 60 r w_state p ∧ own_password_changed w_hash w_match w_me w_server r p w_state st') ∨
   (bootstrap_request w_server r w_state ∧
    ∃ u, users_of st' = <[ud_next_user w_db := u]> (users_of w_state) ∧ u_Role u = RoleAdmin ∧
      u_Username u = trim_space (sv_adminUsername w_server))).
Proof.
  intros r st'. assert (users_of st' ≠ users_of w_state) as N.
  { intros E. apply (f_equal (λ m, u_PasswordHash <$> m !! 2)) in E. vm_compute in E. discriminate E. }
  split; [exact w_db_ok|]. split; [exact N|].
  exact (account_changes_authorized w_hash w_match id (λ _, inr "tok2"%string) (λ _, None) w_create w_no w_me w_no
           "" "" w_server 60 r w_state w_db_ok N).
Defined.

(** * Query numbers *)

Lemma wrap64_shift z k : wrap64 (z + k * 2 ^ 64) = wrap64 z.
Proof. unfold wrap64. f_equal. replace (z + k * 2 ^ 64 + 2 ^ 63) with (z + 2 ^ 63 + k * 2 ^ 64) by lia. apply Z.mod_add. lia. Qed.

Lemma wrap64_congr z : ∃ k, wrap64 z = z + k * 2 ^ 64.
Proof. exists (- ((z + 2 ^ 63) / 2 ^ 64)). unfold wrap64. pose proof (Z.div_mod (z + 2 ^ 63) (2 ^ 64) ltac:(lia)). lia. Qed.

Lemma wrap64_digit n d : wrap64 (wrap64 (wrap64 n * 10) + d) = wrap64 (n * 10 + d).
Proof.
  destruct (wrap64_congr (wrap64 n * 10)) as [k ->]. destruct (wrap64_congr n) as [j ->].
  rewrite <- (wrap64_shift (n * 10 + d) (j * 10 + k)). f_equal. lia.
Qed.

Lemma atoi_from_spec s : ∀ n, atoi_from (wrap64 n) s = wrap64 <$> digits_val n s.
Proof.
  induction s as [|c s IH]; intros n; cbn [digits_val atoi_from]; [done|].
  destruct (is_digit c); [|done]. by rewrite wrap64_digit, IH.
Qed.

(** AtoiNonNeg refuses a text with anything but decimal digits and an empty one;
    otherwise it gives the number modulo 2^64, read as a signed integer: exact below
    2^63, but from there on it wraps silently, so that a function that promises a number
    that is not negative returns negative ones, and a page of users asked for with
    offset=9223372036854775808 fails with 500 instead of 400. *)
Lemma atoi_wraps_around :
  (∀ s, atoiNonNeg s = if String.eqb s "" then None else wrap64 <$> digits_val 0 s) ∧
  (∀ s v, digits_val 0 s = Some v → s ≠ "" → v < 2 ^ 63 → atoiNonNeg s = Some v) ∧
  atoiNonNeg "9223372036854775808" = Some (- 2 ^ 63) ∧
  (∀ srv now r q st, 0 < p_UserID q → p_Role q = RoleAdmin → sv_users srv = true →
     handleListUsers "" "9223372036854775808" srv now r (Some q) st = (st, RError 500 "internal server error")).
Proof.
  assert (∀ s, atoiNonNeg s = if String.eqb s "" then None else wrap64 <$> digits_val 0 s) as A.
  { intros s. unfold atoiNonNeg. destruct (String.eqb s ""); [done|]. exact (atoi_from_spec s 0). }
  split_and!; [exact A| |vm_compute; reflexivity|].
  - intros s v D N B. rewrite A, (proj2 (String.eqb_neq _ _) N), D. simpl. rewrite wrap64_id; [done|].
    unfold in64. assert (0 <= v) by (by eapply (digits_val_nonneg 0); [|exact D]). lia.
  - intros srv now r q st I R U. unfold handleListUsers, requireStore, requireRole, requireUser.
    rewrite (proj2 (Z.leb_gt _ _) I), R, U. reflexivity.
Qed.

(** * Sliding sessions *)

(** How long a session stays untouched. *)
Definition touch_slack (ttl : Z) : Z := if ttl <=? 2 * SessionTouchInterval then Z.quot ttl 2 else SessionTouchInterval.

(** A browser's requests at the given times: which of them were signed in. *)
Fixpoint browse (s : Server) (r : ApiRequest) (db : UserDb) (times : list Z) : list bool * UserDb :=
  match times with
  | [] => ([], db)
  | t :: times =>
      let '(db, p) := authenticateSession s t db r in
      let '(oks, db) := browse s r db times in
      (match p with Some _ => true | None => false end :: oks, db)
  end.

Lemma browse_cons s r db t times :
  browse s r db (t :: times) =
  let '(db, p) := authenticateSession s t db r in
  let '(oks, db) := browse s r db times in (match p with Some _ => true | None => false end :: oks, db).
Proof. reflexivity. Qed.

(** Each request follows the one before within [gap]. *)
Fixpoint within (gap last : Z) (times : list Z) : Prop :=
  match times with [] => True | t :: times => last <= t < last + gap ∧ within gap t times end.

(** The session of the cookie and its expiry. *)
Definition has_session (db : UserDb) (sid : string) (e : Z) : Prop :=
  ∃ id s, ud_sessions db !! id = Some s ∧ s_SessionID s = sid ∧ s_ExpiresAt s = e.

Lemma has_session_unique db sid e e' : db_ok db → has_session db sid e → has_session db sid e' → e = e'.
Proof.
  intros W (i & s & L & S & <-) (j & t & M & T & <-). assert (i = j) as -> by (eapply (ok_session_ids db W); eauto; congruence).
  congruence.
Qed.

Lemma TouchSession_has db sid e e' : has_session db sid e → has_session (TouchSession db sid e').1 sid e'.
Proof.
  intros (i & s & L & S & X). unfold TouchSession.
  destruct (rows_where _ _) eqn:F.
  - pose proof (rows_where_nil _ _ F i s L) as N. simpl in N. by bool_to_prop.
  - exists i, (mkSession (s_ID s) (s_UserID s) (s_SessionID s) e'). simpl. rewrite lookup_fmap, L. simpl.
    by rewrite S, String.eqb_refl.
Qed.

(** One request against a session that expires at [e]. *)
Lemma authenticate_live s t db r e :
  db_ok db → sv_users s = true → sv_sessions s = true → SessionIDFromRequest r ≠ "" →
  has_session db (SessionIDFromRequest r) e →
  match authenticateSession s t db r with
  | (db', p) =>
      db_ok db' ∧
      (if t <? e then p ≠ None ∧ has_session db' (SessionIDFromRequest r)
         (if SessionNeedsTouch e t (sessionTTL s) then t + sessionTTL s else e)
       else p = None ∧ db' = db)
  end.
Proof.
  intros W U S N H. unfold authenticateSession. rewrite U, S, (proj2 (String.eqb_neq _ _) N). simpl.
  destruct (LookupSession t db _) as [er|x] eqn:L.
  - split; [done|]. destruct (t <? e) eqn:T; [|done]. exfalso. destruct H as (i & x & Li & SI & X).
    unfold LookupSession in L. destruct (rows_where _ _) eqn:F; [|done].
    pose proof (rows_where_nil _ _ F i x Li) as NF. simpl in NF. rewrite SI, String.eqb_refl, X, T in NF. done.
  - apply LookupSession_spec in L as (i & Li & SI & X).
    assert (s_ExpiresAt x = e) as E by (apply (has_session_unique db (SessionIDFromRequest r)); [done|by exists i, x|done]).
    destruct (ok_session db W i x Li) as [_ [u Lu]]. unfold GetUser. rewrite Lu, E.
    assert (t <? e = true) as -> by (apply Z.ltb_lt; lia).
    destruct (SessionNeedsTouch e t (sessionTTL s)).
    + split; [by apply TouchSession_ok|]. split; [done|]. by apply (TouchSession_has _ _ e).
    + done.
Qed.

Lemma touched_expiry e t ttl : 0 < ttl →
  t + ttl - touch_slack ttl <= (if SessionNeedsTouch e t ttl then t + ttl else e) ∧
  (e <= t + ttl → (if SessionNeedsTouch e t ttl then t + ttl else e) <= t + ttl).
Proof.
  intros P. unfold SessionNeedsTouch, time_before, time_add, touch_slack, SessionTouchInterval, hour, minute, second.
  pose proof (Z.quot_pos ttl 2 ltac:(lia) ltac:(lia)).
  destruct (ttl <=? 2 * (60 * (60 * _))); case_match_goal; bool_to_prop; lia.
Qed.

Lemma last_default {A} (l : list A) a d : List.last (a :: l) d = List.last l a.
Proof. revert a d. induction l as [|b l IH]; intros a d; [done|]. change (List.last (b :: l) d = List.last (b :: l) a). by rewrite !IH. Qed.

Lemma sessionTTL_pos s : 0 < sessionTTL s.
Proof. unfold sessionTTL. destruct (0 <? _) eqn:E; bool_to_prop; [done|]. by vm_compute. Qed.

(** A session slides with use.  However its expiry is stored only once in a while, a
    browser whose first request comes before the expiry and whose every next request
    follows within the lifetime less the slack (an hour, or half of a short lifetime)
    is signed in at every one of them; and when it goes silent for a whole lifetime
    after its last request, the session is over: the next request is refused and
    changes nothing. *)
Lemma session_slides s r db t times oks db' :
  db_ok db → sv_users s = true → sv_sessions s = true → SessionIDFromRequest r ≠ "" →
  (∃ e, has_session db (SessionIDFromRequest r) e ∧ t < e <= t + sessionTTL s) →
  within (sessionTTL s - touch_slack (sessionTTL s)) t times →
  browse s r db (t :: times) = (oks, db') →
  Forall (λ ok, ok = true) oks ∧
  ∀ late, List.last times t + sessionTTL s <= late → authenticateSession s late db' r = (db', None).
Proof.
  intros W U S N (e & H & T1 & T2) G. pose proof (sessionTTL_pos s) as P.
  revert t e db oks db' W H T1 T2 G. induction times as [|t' times IH]; intros t e db oks db' W H T1 T2 G B;
    rewrite browse_cons in B; pose proof (authenticate_live s t db r e W U S N H) as A;
    destruct (authenticateSession s t db r) as [db1 p]; rewrite (proj2 (Z.ltb_lt _ _) T1) in A;
    destruct A as (W1 & A & H1), p as [p|]; try done;
    pose proof (touched_expiry e t (sessionTTL s) P) as [E1 E2]; specialize (E2 T2);
    set (e1 := if SessionNeedsTouch e t (sessionTTL s) then t + sessionTTL s else e) in *.
  - injection B as <- <-. split; [by repeat constructor|]. intros late L. simpl in L.
    pose proof (authenticate_live s late db1 r e1 W1 U S N H1) as R.
    destruct (authenticateSession s late db1 r) as [db2 q]. rewrite (proj2 (Z.ltb_ge _ _)) in R by lia.
    by destruct R as (_ & -> & ->).
  - destruct G as [G1 G]. destruct (browse s r db1 (t' :: times)) as [oks1 db2] eqn:B1.
    injection B as <- <-. destruct (IH t' e1 db1 oks1 db2) as [I1 I2]; try done; try lia.
    split; [by constructor|]. intros late L. apply I2. by rewrite last_default in L.
Qed.

Lemma session_slides_witness :
  let r := w_request "GET" ["v1"; "me"]%string "sid" in
  let res := browse w_server r w_db [60; 60 + 10 * hour; 60 + 700 * hour; 60 + 1410 * hour] in
  Forall (λ ok, ok = true) (fst res) ∧
  ∀ late, 60 + 1410 * hour + sessionTTL w_server <= late → authenticateSession w_server late (snd res) r = (snd res, None).
Proof.
  intros r res. apply (session_slides w_server r w_db 60 [60 + 10 * hour; 60 + 700 * hour; 60 + 1410 * hour] (fst res) (snd res)).
  - exact w_db_ok.
  - reflexivity.
  - reflexivity.
  - vm_compute. discriminate.
  - exists 100. split; [|vm_compute; split; [reflexivity|discriminate]]. exists 1, (mkSession 1 1 "sid" 100). by vm_compute.
  - vm_compute. repeat split; discriminate.
  - apply surjective_pairing.
Defined.

(** * Form tokens *)

Lemma byte_of_inj a b : byte_of a = byte_of b → a = b.
Proof.
  unfold byte_of. intros H. apply N2Z.inj in H. apply (f_equal ascii_of_N) in H. by rewrite !ascii_N_embedding in H.
Qed.

Lemma lor_fold_zero (l k : list ascii) : ∀ acc, length l = length k →
  foldl (λ v ab, Z.lor v (Z.lxor (byte_of ab.1) (byte_of ab.2))) acc (zip l k) = 0 ↔ acc = 0 ∧ l = k.
Proof.
  revert k. induction l as [|a l IH]; intros [|b k] acc E; simpl in *; try done; [tauto|].
  rewrite IH by lia. rewrite Z.lor_eq_0_iff, Z.lxor_eq_0_iff. split.
  - intros [[? ?%byte_of_inj] ->]. by subst.
  - intros [-> [= -> ->]]. done.
Qed.

(** The comparison that does not stop early is equality. *)
Lemma constant_time_compare a b : subtleConstantTimeCompare a b = String.eqb a b.
Proof.
  unfold subtleConstantTimeCompare. apply eq_true_iff_eq. rewrite String.eqb_eq.
  assert (∀ s, length (String.list_ascii_of_string s) = String.length s) as L by (intros s; induction s; simpl; congruence).
  destruct (negb (Nat.eqb _ _)) eqn:E.
  - split; [done|]. intros ->. by rewrite Nat.eqb_refl in E.
  - apply negb_false_iff, Nat.eqb_eq in E. rewrite Z.eqb_eq, lor_fold_zero by (rewrite !L; done). split.
    + intros [_ H]. apply (f_equal String.string_of_list_ascii) in H. by rewrite !String.string_of_list_ascii_of_string in H.
    + by intros ->.
Qed.

(** A form token is accepted exactly when, white space around it aside, it is the
    HMAC of this very session and of today's or yesterday's date under the server's
    secret: the byte loop that never stops early decides equality, and an unset secret,
    an empty session or an empty token is never accepted. *)
Lemma csrf_token_exact hmac64 format_day now secret sid token :
  ValidateCSRF hmac64 format_day now secret sid token = true ↔
  secret ≠ "" ∧ sid ≠ "" ∧ trim_space token ≠ "" ∧
  ∃ day, day ∈ [now; now - 24 * hour] ∧ trim_space token = hmac64 secret (sid ++ "|" ++ format_day day)%string.
Proof.
  unfold ValidateCSRF, CSRFToken. rewrite !constant_time_compare.
  destruct (String.eqb (trim_space token) "") eqn:T; [split; [done|by bool_to_prop; intros (_ & _ & ? & _)]|].
  destruct (String.eqb secret "") eqn:S; [split; [done|by bool_to_prop; intros (? & _)]|].
  destruct (String.eqb sid "") eqn:I; [split; [done|by bool_to_prop; intros (_ & ? & _)]|].
  cbn [orb]. rewrite orb_true_iff, !String.eqb_eq. bool_to_prop. split.
  - intros [H|H]; split_and!; try done; [exists now|exists (now - 24 * hour)]; (split; [set_solver|exact H]).
  - intros (_ & _ & _ & day & [->|[->|[]%elem_of_nil]%elem_of_cons]%elem_of_cons & H); [by left|by right].
Qed.
