(* ===== verification/CatalogApi.v ===== *)
(** The JSON API of the catalogue and of reading ([http/feeds.go], [http/subscriptions.go],
    [http/categories.go], [http/entries.go], [http/entries_bulk.go], [http/entries_feed.go]): its handlers over the
    tables of [Catalog.v] and [Reading.v].  The check of a feed's address, the type an address stands for and the discovery of a
    feed behind a page are parameters, like decoding a body.  The refresher shows as the bounds of its schedule, and
    refreshing a feed by hand runs it on the tables ([LibraryPolls.v]); reading an article behind an entry is a
    parameter.  Enclosures and the cached polling windows are left out, like the timeouts of the two. *)

From S2P Require Import Prelude GoStrings PollSchedule PollWindow Types FeedStore WebhookStore EntryStore Tables FilterStore Catalog CatalogSpec Reading ReadingSpec Search.
From S2P Require Import UserStore ApiAuth LibraryPolls.
From S2P Require ClientIP Refresher.

(** * Requests and answers *)

(** http/feeds.go [feedDTO] *)
Record feedDTO := mkFeedDTO {
  fd_ID : Z; fd_FeedURL : string; fd_FeedType : string; fd_Title : string; fd_CategoryID : option Z; fd_IntervalMinutes : Z;
  fd_ScraperRules : string; fd_RewriteRules : string; fd_BlockedRules : string; fd_KeepRules : string; fd_FetchViaProxy : bool;
  fd_TLSInsecure : bool; fd_Crawler : bool; fd_UserAgent : string; fd_StoreMode : string; fd_StoreHashOnly : bool;
  fd_EntryRetentionDays : option Z; fd_AdaptiveInterval : bool; fd_LastEntryAt : option Z; fd_Subscribed : bool;
}.

(** http/feeds.go [feedWriteRequest] *)
Record feedWriteRequest := mkFeedWrite {
  fr_FeedURL : string; fr_Title : string; fr_CategoryID : option Z; fr_IntervalMinutes : Z; fr_ScraperRules : string;
  fr_RewriteRules : string; fr_BlockedRules : string; fr_KeepRules : string; fr_FetchViaProxy : bool; fr_TLSInsecure : bool;
  fr_Crawler : bool; fr_UserAgent : string; fr_StoreMode : string; fr_StoreHashOnly : bool; fr_EntryRetentionDays : option Z;
  fr_AdaptiveInterval : bool; fr_SubscribeSelf : option bool;
}.

(** http/subscriptions.go [subscriptionWriteRequest] *)
Record subscriptionWriteRequest := mkSubWrite { sr_FeedID : Z; sr_WebhookID : option Z }.

(** http/categories.go [categoryDTO] *)
Record categoryDTO := mkCategoryDTO { cd_ID : Z; cd_Title : string; cd_Color : string; cd_PollHours : string }.
(** http/categories.go [categoryWriteRequest] *)
Record categoryWriteRequest := mkCategoryWrite { cw_Title : string; cw_Color : string; cw_PollHours : option string }.

(** http/entries_bulk.go [bulkUpdateEntriesRequest] *)
Record bulkUpdateEntriesRequest := mkBulkEntries { br_EntryIDs : list Z; br_Status : string; br_Starred : option bool }.

Inductive cresponse :=
| CPlain (r : response)
| CFeed (status : Z) (f : feedDTO)
| CFeeds (fs : list feedDTO) (total : Z)
| CSub (status : Z) (sub : Subscription)
| CSubs (subs : list Subscription)
| CCategory (status : Z) (c : categoryDTO)
| CCategories (cs : list categoryDTO) (total : Z)
| CFollow (following : bool) (feeds : Z)
| CEntry (e : EntryView)
| CEntries (es : list EntryView) (total : Z)
| CUpdated (n : Z)
| CMarked (n : Z)
| CRefreshed (inserted : Z)
| CQueued (feeds queued : Z)
| CRetryLater (status : Z) (at_ : Z) (msg : string).   (* with a Retry-After of the seconds till then *)

Definition crefused (status : Z) (msg : string) : cresponse := CPlain (RError status msg).
Definition cfailed : cresponse := crefused 500 "internal server error".

Definition MinFeedIntervalMinutes : Z := 1.
Definition MaxFeedIntervalMinutes : Z := 10080.
Definition defaultIntervalMinutes : Z := 60.
Definition maxBulkEntryIDs : Z := 1000.

(** http/feeds.go [toFeedDTO] *)
Definition toFeedDTO (v : FeedView) : feedDTO :=
  let r := feed_row (fv_feed v) in
  let m := fv_more v in
  let ft := trim_space (f_type r) in
  mkFeedDTO (f_id r) (f_url r) (if String.eqb ft "" then "rss" else ft) (f_title r) (f_category_id r) (f_interval_minutes r)
    (fm_ScraperRules m) (f_rewrite_rules r) (f_blocked_rules r) (f_keep_rules r) (fm_FetchViaProxy m) (fm_TLSInsecure m) (fm_Crawler m)
    (fm_UserAgent m) (f_store_mode r) (negb (String.eqb (f_store_mode r) "") && negb (String.eqb (f_store_mode r) "full"))
    (fm_EntryRetentionDays m) (f_adaptive_interval r) (ps_last_entry_at (feed_ps (fv_feed v))) (fv_subscribed v).

Definition category_dto (x : Category) : categoryDTO := mkCategoryDTO (c_ID x) (c_Title x) (c_Color x) (c_PollHours x).

(** * The server *)

(** What of the server the handlers ask for: the stores that are configured, the quotas, and the
    bounds of the refresher's schedule when there is one. *)
Record CServer := mkCServer {
  sc_feeds : bool; sc_subscriptions : bool; sc_categories : bool; sc_entries : bool; sc_pollHours : bool;
  sc_quotas : Limits; sc_refresher : option (Z * Z);
}.

Record CState := mkCState { cx_api : Api; cx_cat : Catalog }.
Definition with_cat (st : CState) (c : Catalog) : CState := mkCState (cx_api st) c.
Definition with_s (st : CState) (s : FeedDb * EntryDb) : CState := mkCState (cx_api st) (with_tables (cx_cat st) s).
Definition caudit (s : Server) (r : ApiRequest) (p : option Principal) (action target : string) (id : Z) (st : CState) : CState :=
  mkCState (Record_ s r p action target id (cx_api st)) (cx_cat st).

Definition chandler : Type := Server → CServer → Z → ApiRequest → option Principal → CState → CState * cresponse.

Notation no_feeds := "feed storage is not configured"%string.
Notation no_entries := "entry storage is not configured"%string.
Notation no_categories := "category storage is not configured"%string.
Notation no_subscriptions := "subscription storage is not configured"%string.

Section Handlers.
(** The check of an address, its type, and what a page leads to (title and address). *)
Context (validateFeedURL : string → option string) (DetectFeedTypeFromURL : string → string)
        (discover : option (string → string → bool → option (string * string))).
Context (decode_feed : string → string + feedWriteRequest) (decode_sub : string → string + subscriptionWriteRequest)
        (decode_category : string → string + categoryWriteRequest) (decode_bulk : string → string + bulkUpdateEntriesRequest)
        (decode_entry : string → string + BulkEntryUpdate).
Context (title_key : string → string) (lower_le : relation string) `{!RelDecision lower_le}.
(** [strconv.ParseBool] *)
Context (parse_bool : string → option bool).
(** The full-text search, and its language. *)
Context {FT : FullText} (ftsLanguage : string).
(** The refresher with what the library has not of its world, and when the poll of a feed starts and what it takes. *)
Context {env : Refresher.Env} (poller : Refresher.World) (poll_clock : Z → Z * Z).
(** scraper/fetch.go [Fetcher.ScrapePage], when there is one: the article at an address, by the feed's rules, rewrites,
    user agent and proxy. *)
Context (scrape : option (string → string → string → string → bool → err + string)).

(** ** Feeds *)

(** http/feeds.go [Server.handleListFeeds] With the query values. *)
Definition handleListFeeds (all limit offset : string) : chandler := λ s sc now r p st,
  match requireStore p "" (sc_feeds sc) no_feeds with
  | inl e => (st, CPlain e)
  | inr me =>
      match parseLimitOffset limit offset 10000 with
      | inl e => (st, crefused 400 e)
      | inr (l, o) =>
          if String.eqb all "" then
            match ListFeeds (cx_cat st) (p_UserID me) l o with
            | inl _ => (st, cfailed)
            | inr (fs, total) => (st, CFeeds (toFeedDTO <$> fs) total)
            end
          else if String.eqb all "true" then
            let '(fs, total) := CatalogFeeds lower_le (cx_cat st) (p_UserID me) None l o in (st, CFeeds (toFeedDTO <$> fs) total)
          else (st, crefused 400 "all must be true")
      end
  end.

(** http/feeds.go [validateFeedWriteRequest] *)
Definition validateFeedWriteRequest (req : feedWriteRequest) : string + CreateFeedParams :=
  let url := trim_space (fr_FeedURL req) in
  match validateFeedURL url with
  | Some e => inl e
  | None =>
      let interval := if fr_IntervalMinutes req =? 0 then defaultIntervalMinutes else fr_IntervalMinutes req in
      if (interval <? MinFeedIntervalMinutes) || (MaxFeedIntervalMinutes <? interval) then inl "interval_minutes must be between 1 and 10080"%string
      else if negb (ValidateEntryRetentionDays (fr_EntryRetentionDays req)) then inl "entry_retention_days must be between 1 and 3650"%string
      else
        let mode := if String.eqb (fr_StoreMode req) "" && fr_StoreHashOnly req then "filtered"%string else fr_StoreMode req in
        match NormalizeStoreMode mode with
        | None => inl "store_mode must be full, filtered, or relay"%string
        | Some mode =>
            inr (mkCreateFeed url (DetectFeedTypeFromURL url) (trim_space (fr_Title req)) (fr_CategoryID req)
                   (bool_decide (fr_SubscribeSelf req = Some false)) interval (trim_space (fr_ScraperRules req)) (fr_RewriteRules req)
                   (fr_BlockedRules req) (fr_KeepRules req) (fr_FetchViaProxy req) (fr_TLSInsecure req) (fr_Crawler req)
                   (trim_space (fr_UserAgent req)) None mode (fr_EntryRetentionDays req) (fr_AdaptiveInterval req) None)
        end
  end.

(** http/feeds.go [Server.feedQuotaOK] [None] lets the write go on. *)
Definition feedQuotaOK (sc : CServer) (c : Catalog) (p : Principal) (interval : Z) (creating : bool) : option cresponse :=
  let l := sc_quotas sc in
  if negb (quota_PollInterval l p interval) then
    let floor := Z.quot (EditorMinPollInterval l) minute in
    let floor := if negb (Z.rem (EditorMinPollInterval l) minute =? 0) then floor + 1 else floor in
    Some (crefused 422 ("interval_minutes must be at least " +:+ format_int floor +:+ " for editors"))
  else if negb creating || (MaxFeedsPerEditor l <=? 0) || IsAdmin p then None
  else if quota_Feeds l p (CountOwnedFeeds c (p_UserID p)) then None
  else Some (crefused 429 ("feed limit reached (" +:+ format_int (MaxFeedsPerEditor l) +:+ " per editor)")).

Definition with_url_title (p : CreateFeedParams) (url title : string) : CreateFeedParams :=
  mkCreateFeed url (cp_FeedType p) title (cp_CategoryID p) (cp_SkipOwnerSubscription p) (cp_IntervalMinutes p) (cp_ScraperRules p)
    (cp_RewriteRules p) (cp_BlockedRules p) (cp_KeepRules p) (cp_FetchViaProxy p) (cp_TLSInsecure p) (cp_Crawler p) (cp_UserAgent p)
    (cp_WebhookID p) (cp_StoreMode p) (cp_EntryRetentionDays p) (cp_AdaptiveInterval p) (cp_BridgeState p).

(** http/feeds.go:141-153 [Server.handleCreateFeed, the title] One fetch gives the title and, for a
    page or a moved feed, the address. *)
Definition resolve_title (p : CreateFeedParams) : CreateFeedParams :=
  let p :=
    match discover with
    | Some d =>
        if String.eqb (cp_Title p) "" then
          match d (cp_FeedURL p) (cp_FeedType p) (cp_TLSInsecure p) with
          | Some (title, url) =>
              let move := negb (String.eqb url "") && negb (String.eqb url (cp_FeedURL p)) && String.eqb (cp_FeedType p) "rss" &&
                          bool_decide (validateFeedURL url = None) in
              with_url_title p (if move then url else cp_FeedURL p) (trim_space title)
          | None => p
          end
        else p
    | None => p
    end in
  if String.eqb (cp_Title p) "" then with_url_title p (cp_FeedURL p) (cp_FeedURL p) else p.

(** http/feeds.go:165-175 [Server.handleCreateFeed, the errors] *)
Definition create_feed_error (e : err) : cresponse :=
  if err_is err_duplicate_feed_url e || err_is err_already_subscribed e then crefused 409 "feed_url already exists"
  else if err_is err_invalid_reference e then crefused 400 "invalid category_id or webhook_id"
  else cfailed.

(** http/feeds.go [Server.handleCreateFeed] *)
Definition handleCreateFeed : chandler := λ s sc now r p st,
  match requireStore p RoleEditor (sc_feeds sc) no_feeds with
  | inl e => (st, CPlain e)
  | inr me =>
      match decode_feed (q_body r) with
      | inl e => (st, crefused 400 e)
      | inr req =>
          match validateFeedWriteRequest req with
          | inl e => (st, crefused 400 e)
          | inr params =>
              match feedQuotaOK sc (cx_cat st) me (cp_IntervalMinutes params) true with
              | Some refusal => (st, refusal)
              | None =>
                  let params := resolve_title params in
                  match CreateFeed now (cx_cat st) (p_UserID me) params with
                  | (c, inr v) => (caudit s r p "feed.create" "feed" (f_id (feed_row (fv_feed v))) (with_cat st c), CFeed 201 (toFeedDTO v))
                  | (c, inl e) =>
                      if err_is err_duplicate_feed_url e && sc_subscriptions sc then
                        match SubscribeByURL c (p_UserID me) (cp_FeedURL params) (cp_WebhookID params) with
                        | (c, inr v) => (caudit s r p "subscription.create" "feed" (f_id (feed_row (fv_feed v))) (with_cat st c), CFeed 200 (toFeedDTO v))
                        | (c, inl e) => (with_cat st c, create_feed_error e)
                        end
                      else (with_cat st c, create_feed_error e)
                  end
              end
          end
      end
  end.

(** http/feeds.go [Server.catalogFeed] *)
Definition catalogFeed (c : Catalog) (userID id : Z) : err + FeedView :=
  match GetFeed c userID id with
  | inl e => if err_is_not_found e then catalog_view c id else inl e
  | r => r
  end.

(** http/feeds.go [Server.handleGetFeed] *)
Definition handleGetFeed : chandler := λ s sc now r p st,
  match requireStoreID r p "" (sc_feeds sc) no_feeds with
  | inl e => (st, CPlain e)
  | inr (me, id) =>
      match catalogFeed (cx_cat st) (p_UserID me) id with
      | inl e => (st, CPlain (storeError e "feed not found"))
      | inr v => (st, CFeed 200 (toFeedDTO v))
      end
  end.

(** http/feeds.go:221-239 [Server.handleUpdateFeed, the parameters] *)
Definition update_params (id : Z) (p : CreateFeedParams) : UpdateFeedParams :=
  mkUpdateFeed id (cp_FeedURL p) (cp_Title p) (cp_CategoryID p) (cp_IntervalMinutes p) (cp_ScraperRules p) (cp_RewriteRules p)
    (cp_BlockedRules p) (cp_KeepRules p) (cp_FetchViaProxy p) (cp_TLSInsecure p) (cp_Crawler p) (cp_UserAgent p) None (cp_StoreMode p)
    (cp_EntryRetentionDays p) (cp_AdaptiveInterval p) None.

(** http/feeds.go [Server.handleUpdateFeed] *)
Definition handleUpdateFeed : chandler := λ s sc now r p st,
  match requireStoreID r p RoleEditor (sc_feeds sc) no_feeds with
  | inl e => (st, CPlain e)
  | inr (me, id) =>
      match decode_feed (q_body r) with
      | inl e => (st, crefused 400 e)
      | inr req =>
          match validateFeedWriteRequest req with
          | inl e => (st, crefused 400 e)
          | inr params =>
              match feedQuotaOK sc (cx_cat st) me (cp_IntervalMinutes params) false with
              | Some refusal => (st, refusal)
              | None =>
                  match UpdateFeed (cx_cat st) (p_UserID me) (update_params id params) with
                  | (c, inl e) =>
                      (with_cat st c,
                       if err_is_not_found e then crefused 404 "feed not found"
                       else if err_is err_duplicate_feed_url e then crefused 409 "feed_url already exists"
                       else if err_is err_invalid_reference e then crefused 400 "invalid category_id or webhook_id"
                       else cfailed)
                  | (c, inr v) =>
                      let fdb := match sc_refresher sc with
                                 | Some (min, max) => (SetFeedNextCheckAt (ct_feeds c) id (FeedNextCheckAt now (cp_IntervalMinutes params) min max)).1
                                 | None => ct_feeds c
                                 end in
                      (caudit s r p "feed.update" "feed" (f_id (feed_row (fv_feed v))) (with_cat st (with_tables c (fdb, ct_entries c))),
                       CFeed 200 (toFeedDTO v))
                  end
              end
          end
      end
  end.

(** http/feeds.go [Server.handleDeleteFeed] *)
Definition handleDeleteFeed : chandler := λ s sc now r p st,
  match requireStoreID r p RoleEditor (sc_feeds sc) no_feeds with
  | inl e => (st, CPlain e)
  | inr (me, id) =>
      match DeleteFeed (cx_cat st) (p_UserID me) id with
      | (c, Some e) => (with_cat st c, CPlain (storeError e "feed not found"))
      | (c, None) => (caudit s r p "feed.delete" "feed" id (with_cat st c), CPlain RDeleted)
      end
  end.

(** ** Subscriptions *)

(** http/subscriptions.go [Server.subscriptionError] *)
Definition subscriptionError (e : err) : cresponse :=
  if err_is err_already_subscribed e then crefused 409 "already subscribed"
  else if err_is err_invalid_reference e then crefused 400 "invalid feed_id or webhook_id"
  else CPlain (storeError e "feed not found").

(** http/subscriptions.go [Server.handleListSubscriptions] *)
Definition handleListSubscriptions : chandler := λ s sc now r p st,
  match requireStore p "" (sc_subscriptions sc) no_subscriptions with
  | inl e => (st, CPlain e)
  | inr me => (st, CSubs (ListSubscriptions (cx_cat st) (p_UserID me)))
  end.

(** http/subscriptions.go [Server.handleCreateSubscription] *)
Definition handleCreateSubscription : chandler := λ s sc now r p st,
  match requireStore p "" (sc_subscriptions sc) no_subscriptions with
  | inl e => (st, CPlain e)
  | inr me =>
      match decode_sub (q_body r) with
      | inl e => (st, crefused 400 e)
      | inr req =>
          if sr_FeedID req <=? 0 then (st, crefused 400 "feed_id is required")
          else match Subscribe (ct_hooks (cx_cat st)) (tables (cx_cat st)) (p_UserID me) (sr_FeedID req) (sr_WebhookID req) with
          | (_, inl e) => (st, subscriptionError e)
          | (t, inr sub) => (caudit s r p "subscription.create" "feed" (sub_feed_id sub) (with_s st t), CSub 201 sub)
          end
      end
  end.

(** http/subscriptions.go [Server.handleUpdateSubscription] *)
Definition handleUpdateSubscription : chandler := λ s sc now r p st,
  match requireStoreID r p "" (sc_subscriptions sc) no_subscriptions with
  | inl e => (st, CPlain e)
  | inr (me, feedID) =>
      match decode_sub (q_body r) with
      | inl e => (st, crefused 400 e)
      | inr req =>
          match UpdateSubscription (cx_cat st) (p_UserID me) feedID (sr_WebhookID req) with
          | (c, inl e) => (with_cat st c, subscriptionError e)
          | (c, inr sub) => (with_cat st c, CSub 200 sub)
          end
      end
  end.

(** http/subscriptions.go [Server.handleDeleteSubscription] *)
Definition handleDeleteSubscription : chandler := λ s sc now r p st,
  match requireStoreID r p "" (sc_subscriptions sc) no_subscriptions with
  | inl e => (st, CPlain e)
  | inr (me, feedID) =>
      match Unsubscribe (tables (cx_cat st)) (p_UserID me) feedID with
      | (_, inl e) =>
          (st, if err_is err_follows_category e then crefused 409 "feed is read through a followed category; unfollow the category instead"
               else CPlain (storeError e "subscription not found"))
      | (t, inr _) => (caudit s r p "subscription.delete" "feed" feedID (with_s st t), CPlain RDeleted)
      end
  end.

(** ** Categories *)

(** http/categories.go [Server.categoryError] *)
Definition categoryError (e : err) : cresponse :=
  if err_is err_duplicate_category e then crefused 409 "category title already exists"
  else if err_is err_category_not_empty e then crefused 409 "category has feeds"
  else CPlain (storeError e "category not found").

(** http/categories.go [Server.applyCategoryPollHours] The polling window of a category, checked by the caller. *)
Definition applyCategoryPollHours (sc : CServer) (now : Z) (c : Catalog) (x : Category) (req : categoryWriteRequest) : Catalog * (err + Category) :=
  match cw_PollHours req with
  | None => (c, inr x)
  | Some h =>
      if sc_pollHours sc then
        match NormalizePollHours h with
        | None => (c, inl (EMsg "invalid poll hours"))
        | Some norm =>
            match SetCategoryPollHours now (ct_feeds c) (c_ID x) norm with
            | (_, Some e) => (c, inl e)
            | (fdb, None) => (with_tables c (fdb, ct_entries c), inr (mkCategory (c_ID x) (c_Title x) (c_Color x) (c_SortOrder x) norm))
            end
        end
      else (c, inr x)
  end.

(** http/categories.go:46-73 [Server.handleListCategories] *)
Definition handleListCategories (limit offset : string) : chandler := λ s sc now r p st,
  match requireStore p "" (sc_categories sc) no_categories with
  | inl e => (st, CPlain e)
  | inr _ =>
      match parseLimitOffset limit offset 10000 with
      | inl e => (st, crefused 400 e)
      | inr (l, o) =>
          match ListCategories (cx_cat st) l o with
          | inl _ => (st, cfailed)
          | inr (cs, total) => (st, CCategories (category_dto <$> cs) total)
          end
      end
  end.

(** http/categories.go:80-98 [the body of a category, as both writes read it] *)
Definition read_category (r : ApiRequest) : cresponse + categoryWriteRequest :=
  match decode_category (q_body r) with
  | inl e => inl (crefused 400 e)
  | inr req =>
      if String.eqb (trim_space (cw_Title req)) "" then inl (crefused 400 "title is required")
      else if bool_decide (NormalizePollHours <$> cw_PollHours req = Some None) then inl (crefused 400 "poll_hours must be HH:MM-HH:MM with different start and end")
      else inr (mkCategoryWrite (trim_space (cw_Title req)) (cw_Color req) (cw_PollHours req))
  end.

(** http/categories.go:99-111,140-152 [what both writes answer] *)
Definition category_written (s : Server) (sc : CServer) (now : Z) (r : ApiRequest) (p : option Principal) (action : string) (status : Z)
    (req : categoryWriteRequest) (st : CState) (w : Catalog * (err + Category)) : CState * cresponse :=
  match w with
  | (c, inl e) => (with_cat st c, categoryError e)
  | (c, inr x) =>
      match applyCategoryPollHours sc now c x req with
      | (c, inl _) => (with_cat st c, cfailed)
      | (c, inr x) => (caudit s r p action "category" (c_ID x) (with_cat st c), CCategory status (category_dto x))
      end
  end.

(** http/categories.go [Server.handleCreateCategory] *)
Definition handleCreateCategory : chandler := λ s sc now r p st,
  match requireStore p RoleEditor (sc_categories sc) no_categories with
  | inl e => (st, CPlain e)
  | inr _ =>
      match read_category r with
      | inl e => (st, e)
      | inr req => category_written s sc now r p "category.create" 201 req st
                     (CreateCategory title_key (cx_cat st) (cw_Title req) (trim_space (cw_Color req)))
      end
  end.

(** http/categories.go [Server.handleUpdateCategory] *)
Definition handleUpdateCategory : chandler := λ s sc now r p st,
  match requireStoreID r p RoleEditor (sc_categories sc) no_categories with
  | inl e => (st, CPlain e)
  | inr (_, id) =>
      match read_category r with
      | inl e => (st, e)
      | inr req => category_written s sc now r p "category.update" 200 req st
                     (UpdateCategory title_key (cx_cat st) id (cw_Title req) (trim_space (cw_Color req)))
      end
  end.

(** http/categories.go [Server.handleDeleteCategory] *)
Definition handleDeleteCategory : chandler := λ s sc now r p st,
  match requireStoreID r p RoleEditor (sc_categories sc) no_categories with
  | inl e => (st, CPlain e)
  | inr (_, id) =>
      match DeleteCategory (cx_cat st) id with
      | (c, Some e) => (with_cat st c, categoryError e)
      | (c, None) => (caudit s r p "category.delete" "category" id (with_cat st c), CPlain RDeleted)
      end
  end.

(** http/categories.go [Server.handleFollowCategory] *)
Definition handleFollowCategory : chandler := λ s sc now r p st,
  match requireStoreID r p "" (sc_categories sc) no_categories with
  | inl e => (st, CPlain e)
  | inr (me, id) =>
      match FollowCategory (cx_cat st) (p_UserID me) id with
      | (c, inl e) => (with_cat st c, categoryError e)
      | (c, inr n) => (caudit s r p "category.follow" "category" id (with_cat st c), CFollow true n)
      end
  end.

(** http/categories.go [Server.handleUnfollowCategory] *)
Definition handleUnfollowCategory : chandler := λ s sc now r p st,
  match requireStoreID r p "" (sc_categories sc) no_categories with
  | inl e => (st, CPlain e)
  | inr (me, id) =>
      match UnfollowCategory (cx_cat st) (p_UserID me) id with
      | (c, inl e) => (with_cat st c, categoryError e)
      | (c, inr n) => (caudit s r p "category.unfollow" "category" id (with_cat st c), CFollow false n)
      end
  end.

(** ** Entries *)

(** The query of a list of entries. *)
Record EntryQuery := mkEntryQuery {
  eq_q : string; eq_feed_id : string; eq_status : string; eq_starred : string; eq_sort : string; eq_limit : string; eq_offset : string;
}.

(** http/entries.go [parseEntriesFilter] With the words to search for. *)
Definition parseEntriesFilter (q : EntryQuery) (limit offset : Z) (allowFeedID : bool) : string + ListEntriesFilter * string :=
  let feed := trim_space (eq_feed_id q) in
  let status := trim_space (eq_status q) in
  let starred := trim_space (eq_starred q) in
  match (if allowFeedID && negb (String.eqb feed "") then match parse_id feed with inr id => inr (Some id) | inl _ => inl tt end else inr None) with
  | inl _ => inl "invalid feed_id"%string
  | inr feedID =>
      if negb (String.eqb status "") && negb (IsValidEntryStatus status) then inl "invalid status"%string
      else match (if String.eqb starred "" then Some None else match parse_bool starred with Some b => Some (Some b) | None => None end) with
      | None => inl "invalid starred"%string
      | Some star =>
          inr (mkListFilter (mkConds feedID None None star) (if String.eqb status "" then None else Some status)
                 (NormalizeEntrySort (eq_sort q)) limit offset true false, trim_space (eq_q q))
      end
  end.

(** http/entries.go [Server.handleListEntries] *)
Definition handleListEntries (q : EntryQuery) : chandler := λ s sc now r p st,
  match requireStore p "" (sc_entries sc) no_entries with
  | inl e => (st, CPlain e)
  | inr me =>
      match parseLimitOffset (eq_limit q) (eq_offset q) ListPageCap with
      | inl e => (st, crefused 400 e)
      | inr (l, o) =>
          match parseEntriesFilter q l o true with
          | inl e => (st, crefused 400 e)
          | inr (f, search) =>
              let c := lf_conds f in
              let found :=
                if negb (String.eqb search "") then
                  SearchEntries ftsLanguage (tables (cx_cat st)) (p_UserID me)
                    (mkSearchFilter search (lc_FeedID c) (lf_Status f) (lc_Starred c) (lf_Sort f) (lf_Limit f) (lf_Offset f) true true false)
                else ListEntries (tables (cx_cat st)) (p_UserID me) f in
              match found with
              | inl _ => (st, cfailed)
              | inr (es, total) => (st, CEntries es total)
              end
          end
      end
  end.

(** http/entries.go [Server.handleGetEntry] *)
Definition handleGetEntry : chandler := λ s sc now r p st,
  match requireStoreID r p "" (sc_entries sc) no_entries with
  | inl e => (st, CPlain e)
  | inr (me, id) =>
      match GetEntry (tables (cx_cat st)) (p_UserID me) id with
      | inl e => (st, CPlain (storeError e "entry not found"))
      | inr v => (st, CEntry v)
      end
  end.

(** http/entries.go [Server.handleListFeedEntries] *)
Definition handleListFeedEntries (q : EntryQuery) : chandler := λ s sc now r p st,
  match requireStore p "" (sc_entries sc) no_entries with
  | inl e => (st, CPlain e)
  | inr me =>
      match parsePathInt64 r "feedID" with
      | inl e => (st, crefused 400 e)
      | inr feedID =>
          match parseLimitOffset (eq_limit q) (eq_offset q) ListPageCap with
          | inl e => (st, crefused 400 e)
          | inr (l, o) =>
              match parseEntriesFilter q l o false with
              | inl e => (st, crefused 400 e)
              | inr (f, _) =>
                  match ListFeedEntries (tables (cx_cat st)) (p_UserID me) feedID f with
                  | inl _ => (st, cfailed)
                  | inr (es, total) => (st, CEntries es total)
                  end
              end
          end
      end
  end.

(** http/entries_bulk.go [Server.handleBulkUpdateEntries] *)
Definition handleBulkUpdateEntries : chandler := λ s sc now r p st,
  match requireStore p "" (sc_entries sc) no_entries with
  | inl e => (st, CPlain e)
  | inr me =>
      match decode_bulk (q_body r) with
      | inl e => (st, crefused 400 e)
      | inr req =>
          let status := trim_space (br_Status req) in
          if bool_decide (br_EntryIDs req = []) then (st, crefused 400 "entry_ids is required")
          else if maxBulkEntryIDs <? Z.of_nat (length (br_EntryIDs req)) then (st, crefused 400 "too many entry_ids")
          else if negb (String.eqb status "") && (negb (IsValidEntryStatus status) || String.eqb status EntryStatusRemoved)
          then (st, crefused 400 "invalid status")
          else if String.eqb status "" && bool_decide (br_Starred req = None) then (st, crefused 400 "status or starred is required")
          else match BulkUpdateEntries (tables (cx_cat st)) (p_UserID me) (br_EntryIDs req)
                       (mkBulkEntry (if String.eqb status "" then None else Some status) (br_Starred req)) with
          | (_, inl _) => (st, cfailed)
          | (t, inr n) => (with_s st t, CUpdated n)
          end
      end
  end.

(** http/entries_bulk.go [Server.handleMarkFeedAllRead] *)
Definition handleMarkFeedAllRead : chandler := λ s sc now r p st,
  match requireStore p "" (sc_entries sc) no_entries with
  | inl e => (st, CPlain e)
  | inr me =>
      match parsePathInt64 r "feedID" with
      | inl e => (st, crefused 400 e)
      | inr feedID =>
          match MarkAllFeedEntriesRead (cx_cat st) (p_UserID me) feedID with
          | (_, inl e) => (st, CPlain (storeError e "feed not found"))
          | (db, inr n) => (with_s st (ct_feeds (cx_cat st), db), CMarked n)
          end
      end
  end.

(** http/entries_feed.go [Server.handleMarkCategoryAllRead] *)
Definition handleMarkCategoryAllRead : chandler := λ s sc now r p st,
  match requireStore p "" (sc_entries sc) no_entries with
  | inl e => (st, CPlain e)
  | inr me =>
      match parsePathInt64 r "categoryID" with
      | inl e => (st, crefused 400 e)
      | inr cat =>
          match MarkAllCategoryEntriesRead (cx_cat st) (p_UserID me) cat with
          | (_, inl e) => (st, CPlain (storeError e "category not found"))
          | (db, inr n) => (with_s st (ct_feeds (cx_cat st), db), CMarked n)
          end
      end
  end.

(** http/entries_feed.go [Server.handleGetFeedEntry] *)
Definition handleGetFeedEntry : chandler := λ s sc now r p st,
  match requireStore p "" (sc_entries sc) no_entries with
  | inl e => (st, CPlain e)
  | inr me =>
      match parsePathInt64 r "feedID", parsePathInt64 r "entryID" with
      | inl e, _ | inr _, inl e => (st, crefused 400 e)
      | inr feedID, inr id =>
          match GetFeedEntry (tables (cx_cat st)) (p_UserID me) feedID id with
          | inl e => (st, CPlain (storeError e "entry not found"))
          | inr v => (st, CEntry v)
          end
      end
  end.

(** http/entries_feed.go [Server.handleUpdateFeedEntry] *)
Definition handleUpdateFeedEntry : chandler := λ s sc now r p st,
  match requireStore p "" (sc_entries sc) no_entries with
  | inl e => (st, CPlain e)
  | inr me =>
      match parsePathInt64 r "feedID", parsePathInt64 r "entryID" with
      | inl e, _ | inr _, inl e => (st, crefused 400 e)
      | inr feedID, inr id =>
          match decode_entry (q_body r) with
          | inl e => (st, crefused 400 e)
          | inr req =>
              if bool_decide (be_Status req = None) && bool_decide (be_Starred req = None) then (st, crefused 400 "status or starred is required")
              else if negb (opt_all (be_Status req) (λ x, IsValidEntryStatus (trim_space x))) then (st, crefused 400 "invalid status")
              else match UpdateEntry (tables (cx_cat st)) (p_UserID me) feedID id (mkBulkEntry (trim_space <$> be_Status req) (be_Starred req)) with
              | (t, inl e) => (with_s st t, CPlain (storeError e "entry not found"))
              | (t, inr v) => (with_s st t, CEntry v)
              end
          end
      end
  end.

(** ** Refreshing and reading the article *)

Definition err_is_fetch (e : err) : bool := default false (err_find (λ x, match x with EFetchFeed => Some true | _ => None end) e).
Definition err_is_inbound (e : err) : bool := default false (err_find (λ x, match x with EInboundFeed => Some true | _ => None end) e).

(** http/feeds.go:387-407 [Server.handleRefreshFeed, the errors] *)
Definition refresh_error (e : err) : cresponse :=
  if err_is_not_found e then crefused 404 "feed not found"
  else if err_is_fetch e then crefused 502 "feed fetch failed"
  else if err_is_inbound e then crefused 409 "inbound feed is not polled"
  else match RetryAt (Some e) with
  | Some t => CRetryLater 503 t "source rate limited, retry later"
  | None => cfailed
  end.

(** http/feeds.go [Server.handleRefreshFeed] *)
Definition handleRefreshFeed : chandler := λ s sc now r p st,
  match requireStore p "" (sc_feeds sc) no_feeds with
  | inl e => (st, CPlain e)
  | inr me =>
      if negb (sc_entries sc) then (st, crefused 503 no_entries)
      else match parsePathInt64 r "feedID" with
      | inl e => (st, crefused 400 e)
      | inr feedID =>
          match GetFeed (cx_cat st) (p_UserID me) feedID with
          | inl e => (st, CPlain (storeError e "feed not found"))
          | inr _ =>
              match on_catalog (refresh_feed poll_clock feedID) poller (cx_cat st) with
              | (c, inl e) => (with_cat st c, refresh_error e)
              | (c, inr inserted) => (with_cat st c, CRefreshed inserted)
              end
          end
      end
  end.

(** service/content_fetcher.go [ContentFetcher.FetchEntryContent] The article of an entry its reader asks for, with the
    content as polled kept beside it; an error says which status it is answered with. *)
Definition FetchEntryContent (fetch : string → string → string → string → bool → err + string) (c : Catalog) (u id : Z)
    : (FeedDb * EntryDb) * (Z * string + EntryView) :=
  let s := tables c in
  let failed (e : err) := if err_is_not_found e then (404, "entry not found"%string) else (500, "internal server error"%string) in
  match GetEntry s u id with
  | inl e => (s, inl (failed e))
  | inr v =>
      let entry := ev_row v in
      if String.eqb (trim_space (er_url entry)) "" then (s, inl (400, "entry has no url"%string))
      else match GetFeed c u (er_feed_id entry) with
      | inl e => (s, inl (failed e))
      | inr f =>
          let m := fv_more f in
          match fetch (er_url entry) (fm_ScraperRules m) (f_rewrite_rules (feed_row (fv_feed f))) (fm_UserAgent m) (fm_FetchViaProxy m) with
          | inl _ => (s, inl (502, "content fetch failed"%string))
          | inr content =>
              let original :=
                if negb (er_content_fetched entry) && String.eqb (er_original_content entry) "" then er_content entry
                else er_original_content entry in
              match UpdateEntryContent s u (er_id entry) content original true with
              | (s, inl e) => (s, inl (failed e))
              | (s, inr v) => (s, inr v)
              end
          end
      end
  end.

(** http/entries_fetch.go [Server.handleFetchEntryContent] *)
Definition handleFetchEntryContent : chandler := λ s sc now r p st,
  match requireStore p "" (bool_decide (is_Some scrape)) "content fetcher is not configured" with
  | inl e => (st, CPlain e)
  | inr me =>
      if negb (sc_entries sc) then (st, crefused 503 no_entries)
      else match parsePathID r, scrape with
      | inl e, _ => (st, crefused 400 e)
      | inr id, Some fetch =>
          match FetchEntryContent fetch (cx_cat st) (p_UserID me) id with
          | (t, inl (status, e)) => (with_s st t, crefused status e)
          | (t, inr v) => (with_s st t, CEntry v)
          end
      | inr _, None => (st, cfailed)
      end
  end.

(** http/feeds_refresh_all.go [Server.handleRefreshAllFeeds] [jitter] spreads the feeds over the time given. *)
Definition handleRefreshAllFeeds (jitter : Z → Z → Z) : chandler := λ s sc now r p st,
  match requireStore p RoleAdmin (sc_feeds sc) "job queue is not configured" with
  | inl e => (st, CPlain e)
  | inr me =>
      let '(fdb, (feeds, queued)) := RefreshAllFeeds now jitter (ct_feeds (cx_cat st)) in
      (caudit s r p "feeds.refresh_all" "" 0 (with_s st (fdb, ct_entries (cx_cat st))), CQueued feeds queued)
  end.

(** The routes of the catalogue and of reading; [all] and [q] are the query values. *)
Definition catalog_serve (jitter : Z → Z → Z) (all : string) (q : EntryQuery) : chandler := λ s sc now r p st,
  let h : chandler :=
    match route (q_method r) (q_segs r) with
    | None => λ _ _ _ _ _ st, (st, CPlain (RElsewhere "404"))
    | Some (_, _, name) =>
        let named n := String.eqb name n in
        if named "handleListFeeds"%string then handleListFeeds all (eq_limit q) (eq_offset q)
        else if named "handleCreateFeed"%string then handleCreateFeed
        else if named "handleGetFeed"%string then handleGetFeed
        else if named "handleUpdateFeed"%string then handleUpdateFeed
        else if named "handleDeleteFeed"%string then handleDeleteFeed
        else if named "handleListSubscriptions"%string then handleListSubscriptions
        else if named "handleCreateSubscription"%string then handleCreateSubscription
        else if named "handleUpdateSubscription"%string then handleUpdateSubscription
        else if named "handleDeleteSubscription"%string then handleDeleteSubscription
        else if named "handleListCategories"%string then handleListCategories (eq_limit q) (eq_offset q)
        else if named "handleCreateCategory"%string then handleCreateCategory
        else if named "handleUpdateCategory"%string then handleUpdateCategory
        else if named "handleDeleteCategory"%string then handleDeleteCategory
        else if named "handleFollowCategory"%string then handleFollowCategory
        else if named "handleUnfollowCategory"%string then handleUnfollowCategory
        else if named "handleMarkCategoryAllRead"%string then handleMarkCategoryAllRead
        else if named "handleMarkFeedAllRead"%string then handleMarkFeedAllRead
        else if named "handleListEntries"%string then handleListEntries q
        else if named "handleBulkUpdateEntries"%string then handleBulkUpdateEntries
        else if named "handleGetEntry"%string then handleGetEntry
        else if named "handleListFeedEntries"%string then handleListFeedEntries q
        else if named "handleGetFeedEntry"%string then handleGetFeedEntry
        else if named "handleUpdateFeedEntry"%string then handleUpdateFeedEntry
        else if named "handleRefreshFeed"%string then handleRefreshFeed
        else if named "handleFetchEntryContent"%string then handleFetchEntryContent
        else if named "handleRefreshAllFeeds"%string then handleRefreshAllFeeds jitter
        else λ _ _ _ _ _ st, (st, CPlain (RElsewhere name))
    end in
  h s sc now r p st.

End Handlers.
