(* ===== verification/CatalogApiSpec.v ===== *)
(** What the API of the catalogue guarantees ([CatalogApi.v]): every request is a few library steps
    ([ReadingSpec.v]), a poll of a feed its caller reads, or the article of an entry its caller reads; whoever may not
    edit changes nothing else but their own reading.  And what saving a feed does to the caller's subscription. *)

From S2P Require Import Prelude GoStrings PollSchedule PollWindow Types FeedStore WebhookStore EntryStore Tables FilterStore Catalog CatalogSpec Reading ReadingSpec Search SearchSpec.
From S2P Require Import UserStore ApiAuth LibraryPolls CatalogApi.
From S2P Require ClientIP Refresher RefresherSpec.

(** * Marking concerns nobody else *)

Definition mark_others_same (u : Z) (db db' : EntryDb) : Prop :=
  ed_entries db' = ed_entries db ∧ ed_dedup db' = ed_dedup db ∧ ed_labels db' = ed_labels db ∧
  ∀ v e, v ≠ u → ed_unread db' !! (e, v) = ed_unread db !! (e, v) ∧ ed_user db' !! (e, v) = ed_user db !! (e, v).

Lemma mark_others_refl u db : mark_others_same u db db.
Proof. done. Qed.

Lemma mark_others_trans u a b c : mark_others_same u a b → mark_others_same u b c → mark_others_same u a c.
Proof.
  intros (A1 & A2 & A3 & A4) (B1 & B2 & B3 & B4). do 3 (split; [congruence|]). intros v e N. destruct (A4 v e N) as [X1 X2], (B4 v e N) as [Y1 Y2].
  split; congruence.
Qed.

(** A filter that only drops rows of [u]. *)
Lemma filter_others {A} (P : (Z * Z) * A → Prop) `{∀ x, Decision (P x)} (m : gmap (Z * Z) A) (e v : Z) : (∀ x, P ((e, v), x)) → filter P m !! (e, v) = m !! (e, v).
Proof. intros H0. apply option_eq. intros x. rewrite map_lookup_filter_Some. naive_solver. Qed.

Lemma rows_others {A} (u : Z) (m : gmap Z A) (t : gmap (Z * Z) A) (e v : Z) : v ≠ u → (rows_of_user u m ∪ t) !! (e, v) = t !! (e, v).
Proof. intros N. apply lookup_union_r. by rewrite rows_of_user_lookup, decide_False. Qed.

Lemma others_status fdb db (u : Z) ids st un d (e v : Z) : status_cte fdb db u ids st = Some (un, d) → v ≠ u → un !! (e, v) = ed_unread db !! (e, v).
Proof.
  intros H N. unfold status_cte in H. destruct (String.eqb _ _).
  - injection H as <- _. apply filter_others. intros x. cbn. tauto.
  - destruct (String.eqb _ _); [|done]. injection H as <- _. by apply rows_others.
Qed.

Lemma others_star fdb db (u : Z) ids b (e v : Z) : v ≠ u → (star_cte fdb db u ids b).1 !! (e, v) = ed_user db !! (e, v).
Proof.
  intros N. destruct b; cbn [star_cte entryStar entryUnstar fst]; [by apply rows_others|]. apply filter_others. intros x. cbn. tauto.
Qed.

Lemma others_bulk s u ids x : mark_others_same u s.2 (BulkUpdateEntries s u ids x).1.2 ∧ (BulkUpdateEntries s u ids x).1.1 = s.1.
Proof.
  unfold BulkUpdateEntries. destruct ids as [|i l]; [done|]. set (ids := i :: l). destruct (be_Status x) as [t|], (be_Starred x) as [b|]; [| | |done].
  - destruct (status_cte _ _ _ _ _) as [[un d]|] eqn:S; [|done]. pose proof (λ e v, others_star s.1 s.2 u ids b e v) as T.
    destruct (star_cte _ _ _ _ _) as [us d2]. cbn [fst snd] in *. split; [|done]. do 3 (split; [done|]). intros v e N. split; [by eapply others_status|by apply T].
  - destruct (status_cte _ _ _ _ _) as [[un d]|] eqn:S; [|done]. cbn [fst snd]. split; [|done]. do 3 (split; [done|]). intros v e N.
    split; [by eapply others_status|done].
  - pose proof (λ e v, others_star s.1 s.2 u ids b e v) as T. destruct (star_cte _ _ _ _ _) as [us d2]. cbn [fst snd] in *. split; [|done].
    do 3 (split; [done|]). intros v e N. split; [done|by apply T].
Qed.

Lemma others_removed s u ids : mark_others_same u s.2 (MarkEntriesRemoved s u ids).1.2 ∧ (MarkEntriesRemoved s u ids).1.1 = s.1.
Proof.
  unfold MarkEntriesRemoved. destruct ids as [|i l]; [done|]. destruct (entryRemove _ _ _ _) as [us rm] eqn:E. cbn [fst snd]. split; [|done].
  do 3 (split; [done|]). intros v e N. cbn [with_user with_unread ed_unread ed_user entryMarkRead fst]. split.
  - apply filter_others. intros x. cbn. tauto.
  - injection E as <- _. by apply rows_others.
Qed.

Lemma others_update s u f id x : mark_others_same u s.2 (UpdateEntry s u f id x).1.2 ∧ (UpdateEntry s u f id x).1.1 = s.1.
Proof.
  destruct (UpdateEntry_steps s u f id x) as [->|(s1 & S1 & S2)]; [done|].
  assert (A : mark_others_same u s.2 s1.2 ∧ s1.1 = s.1) by (destruct S1 as [->|[->|[st ->]]]; [done|apply others_removed|apply others_bulk]).
  destruct S2 as [->|[b ->]]; [done|]. destruct (others_bulk s1 u [id] (mkBulkEntry None (Some b))) as [B1 B2], A as [A1 A2].
  split; [by eapply mark_others_trans|congruence].
Qed.

Lemma others_drop db u p : mark_others_same u db (drop_unread db u p).1.
Proof.
  do 3 (split; [done|]). intros v e N. split; [|done]. cbn [drop_unread fst with_unread ed_unread]. apply filter_others. intros x. cbn. tauto.
Qed.

Lemma untouched_marks u c s : mark_others_same u (ct_entries c) s.2 → s.1 = ct_feeds c → untouched u c (with_tables c s).
Proof.
  intros (A1 & A2 & A3 & A4) E. unfold untouched. cbn [with_tables ct_feeds ct_entries ct_hooks ct_more ct_cats]. rewrite E.
  do 8 (split; [done|]). split; [done|]. intros v N. cbn [tables fst snd with_tables ct_feeds ct_entries]. rewrite E. split; [done|]. split; [intros e; by apply A4|].
  split; [intros e; by apply A4|]. intros e l. by rewrite A3.
Qed.

Lemma untouched_trans u a b c : untouched u a b → untouched u b c → untouched u a c.
Proof.
  intros (A1 & A2 & A3 & A4 & A5 & A6 & A7 & A8 & A9 & A10) (B1 & B2 & B3 & B4 & B5 & B6 & B7 & B8 & B9 & B10).
  do 8 (split; [congruence|]). split; [intros v k N; rewrite B9, A9 by done; done|by eapply others_same_trans].
Qed.

(** * Requests as library steps *)

(** The library steps that concern one reader only. *)
Definition reader_step (u : Z) (op : lib_op) : bool :=
  match op with
  | LCatalog op => reader_op u op
  | LBulk v _ _ | LRemove v _ | LEdit v _ _ _ | LFeedRead v _ | LCategoryRead v _ | LLabelRead _ v _ | LAllRead v => v =? u
  | _ => false
  end.

Section Api.
Context (title_key dedup_key : string → string).
Notation run := (run_lib_op title_key dedup_key).

Lemma reader_step_untouched u op c : catalog_wf title_key c → reader_step u op = true → untouched u c (run c op).
Proof.
  intros W R. destruct op; try discriminate R; cbn [reader_step run_lib_op] in *; try apply Z.eqb_eq in R as ->.
  - by apply reader_op_untouched.
  - destruct (others_bulk (tables c) u ids x). by apply untouched_marks.
  - destruct (others_removed (tables c) u ids). by apply untouched_marks.
  - destruct (others_update (tables c) u feedID id x). by apply untouched_marks.
  - apply untouched_marks; [|done]. unfold MarkAllFeedEntriesRead. destruct (GetFeed _ _ _); [done|]. apply others_drop.
  - apply untouched_marks; [|done]. unfold MarkAllCategoryEntriesRead. destruct (lookupCategory _ _); [done|]. apply others_drop.
  - apply untouched_marks; [|done]. unfold MarkAllLabelEntriesRead. destruct (GetLabel _ _ _); [done|]. apply others_drop.
  - apply untouched_marks; [|done]. apply others_drop.
Qed.

Lemma reader_steps_untouched u ops c : catalog_wf title_key c → forallb (reader_step u) ops = true → untouched u c (fold_left run ops c).
Proof.
  revert c. induction ops as [|op ops IH]; intros c W R; [apply untouched_refl|]. cbn [forallb] in R. apply andb_true_iff in R as [R1 R2].
  cbn [fold_left]. eapply untouched_trans; [by apply reader_step_untouched|]. apply IH; [|done]. by apply wf_run_lib_op.
Qed.

(** ** Handlers *)

(** Who may edit the catalogue. *)
Definition editor (p : option Principal) : bool :=
  match p with Some q => (0 <? p_UserID q) && RoleAtLeast (p_Role q) RoleEditor | None => false end.
Definition uid (p : option Principal) : Z := match p with Some q => p_UserID q | None => 0 end.

(** The catalogue went through library steps that [p] may make. *)
Definition steps (p : option Principal) (c c' : Catalog) : Prop :=
  ∃ ops, c' = fold_left run ops c ∧ (editor p = true ∨ forallb (reader_step (uid p)) ops = true).

Lemma steps_none p c : steps p c c.
Proof. exists []. split; [done|by right]. Qed.

Lemma steps_one p c op : editor p = true ∨ reader_step (uid p) op = true → steps p c (run c op).
Proof. intros H. exists [op]. split; [done|]. cbn [forallb]. rewrite andb_true_r. exact H. Qed.

Lemma steps_trans p a b c : steps p a b → steps p b c → steps p a c.
Proof.
  intros (o1 & -> & H1) (o2 & -> & H2). exists (o1 ++ o2). split; [by rewrite fold_left_app|]. rewrite forallb_app, andb_true_iff. tauto.
Qed.

Lemma requireStore_editor p conf msg me : requireStore p RoleEditor conf msg = inr me → p = Some me ∧ editor p = true.
Proof.
  intros H. pose proof (requireStore_me _ _ _ _ _ H) as [-> P]. split; [done|]. unfold requireStore, requireRole, requireUser in H. cbn [editor].
  apply Z.ltb_lt in P as E. rewrite E. destruct (p_UserID me <=? 0) eqn:L; [bool_to_prop; lia|].
  by destruct (RoleAtLeast (p_Role me) RoleEditor).
Qed.

Lemma requireStoreID_editor r p conf msg me id : requireStoreID r p RoleEditor conf msg = inr (me, id) → p = Some me ∧ editor p = true.
Proof.
  unfold requireStoreID. destruct (requireStore p RoleEditor conf msg) as [|q] eqn:E; [done|]. apply requireStore_editor in E.
  destruct (parsePathID r); [done|]. by intros [= -> ->].
Qed.

Section Requests.
Context (validateFeedURL : string → option string) (DetectFeedTypeFromURL : string → string)
        (discover : option (string → string → bool → option (string * string))).
Context (decode_feed : string → string + feedWriteRequest) (decode_sub : string → string + subscriptionWriteRequest)
        (decode_category : string → string + categoryWriteRequest) (decode_bulk : string → string + bulkUpdateEntriesRequest)
        (decode_entry : string → string + BulkEntryUpdate).
Context (lower_le : relation string) `{!RelDecision lower_le} (parse_bool : string → option bool).
Context {FT : FullText} (ftsLanguage : string).
Context {env : Refresher.Env} (poller : Refresher.World) (poll_clock : Z → Z * Z).
Context (scrape : option (string → string → string → string → bool → err + string)) (jitter : Z → Z → Z).
Context (s : Server) (sc : CServer) (now : Z) (r : ApiRequest) (p : option Principal) (st : CState).

Notation good h := (steps p (cx_cat st) (cx_cat (h s sc now r p st).1)).

Ltac stay := apply steps_none.
(** Enters a handler past its gate. *)
Ltac enter :=
  match goal with
  | |- context [requireStore p RoleEditor ?b ?c] =>
      let M := fresh "M" in destruct (requireStore p RoleEditor b c) as [|?] eqn:M; [stay|]; apply requireStore_editor in M as [Hme Ed]
  | |- context [requireStoreID r p RoleEditor ?b ?c] =>
      let M := fresh "M" in destruct (requireStoreID r p RoleEditor b c) as [|[? ?]] eqn:M; [stay|]; apply requireStoreID_editor in M as [Hme Ed]
  | |- context [requireStore p ?a ?b ?c] =>
      let M := fresh "M" in destruct (requireStore p a b c) as [|?] eqn:M; [stay|]; apply requireStore_me in M as [Hme _]
  | |- context [requireStoreID r p ?a ?b ?c] =>
      let M := fresh "M" in destruct (requireStoreID r p a b c) as [|[? ?]] eqn:M; [stay|]; apply requireStoreID_me in M as [Hme _]
  end.
(** Goes past checks that refuse. *)
Ltac past := repeat match goal with
  | |- steps _ _ (cx_cat (match ?x with inl _ => _ | inr _ => _ end).1) =>
      lazymatch x with
      | parseLimitOffset _ _ _ => destruct x as [|[? ?]]; [stay|]
      | parsePathInt64 _ _ => destruct x; [stay|]
      | decode_feed _ => destruct x; [stay|]
      | decode_sub _ => destruct x; [stay|]
      | decode_bulk _ => destruct x; [stay|]
      | decode_entry _ => destruct x; [stay|]
      end
  | |- steps _ _ (cx_cat (if ?x then _ else _).1) => destruct x; [stay|]
  end.

Lemma good_ListFeeds all l o : good (handleListFeeds lower_le all l o).
Proof.
  unfold handleListFeeds. enter. past. destruct (String.eqb all ""); [destruct (ListFeeds _ _ _ _) as [|[? ?]]; stay|].
  destruct (String.eqb all "true"); [destruct (CatalogFeeds _ _ _ _ _ _); stay|stay].
Qed.

Lemma good_CreateFeed : good (handleCreateFeed validateFeedURL DetectFeedTypeFromURL discover decode_feed).
Proof.
  unfold handleCreateFeed. enter. past. destruct (validateFeedWriteRequest _ _ _) as [|params]; [stay|].
  destruct (feedQuotaOK _ _ _ _ _); [stay|]. cbv zeta. set (q := resolve_title _ _ _).
  pose proof (steps_one p (cx_cat st) (LCatalog (OpCreateFeed now (p_UserID p0) q)) (or_introl Ed)) as H. cbn [run_lib_op run_cat_op] in H.
  destruct (CreateFeed now (cx_cat st) (p_UserID p0) q) as [c [e|v]]; cbn [fst] in H; [|exact H].
  destruct (_ && _); [|exact H].
  pose proof (steps_one p c (LCatalog (OpSubscribeByURL (p_UserID p0) (cp_FeedURL q) (cp_WebhookID q))) (or_introl Ed)) as H2. cbn [run_lib_op run_cat_op] in H2.
  destruct (SubscribeByURL c _ _ _) as [c2 [e2|v]]; cbn [fst] in H2; by eapply steps_trans.
Qed.

Lemma good_GetFeed : good handleGetFeed.
Proof. unfold handleGetFeed. enter. destruct (catalogFeed _ _ _); stay. Qed.

Lemma good_UpdateFeed : good (handleUpdateFeed validateFeedURL DetectFeedTypeFromURL decode_feed).
Proof.
  unfold handleUpdateFeed. enter. past. destruct (validateFeedWriteRequest _ _ _) as [|params]; [stay|].
  destruct (feedQuotaOK _ _ _ _ _); [stay|].
  pose proof (steps_one p (cx_cat st) (LCatalog (OpUpdateFeed (p_UserID p0) (update_params z params))) (or_introl Ed)) as H. cbn [run_lib_op run_cat_op] in H.
  destruct (UpdateFeed _ _ _) as [c [e|v]]; cbn [fst] in H; [exact H|]. cbv zeta. cbn [fst caudit with_cat cx_cat]. destruct (sc_refresher sc) as [[min max]|].
  - eapply steps_trans; [exact H|]. apply (steps_one p c (LReschedule z (FeedNextCheckAt now (cp_IntervalMinutes params) min max))). by left.
  - by destruct c.
Qed.

Lemma good_DeleteFeed : good handleDeleteFeed.
Proof.
  unfold handleDeleteFeed. enter. pose proof (steps_one p (cx_cat st) (LCatalog (OpDeleteFeed (p_UserID p0) z)) (or_introl Ed)) as H. cbn [run_lib_op run_cat_op] in H.
  destruct (DeleteFeed _ _ _) as [c [e|]]; exact H.
Qed.

(** A step of the caller's own. *)
Lemma steps_own q op : p = Some q → reader_step (p_UserID q) op = true → steps p (cx_cat st) (run (cx_cat st) op).
Proof. intros E H. apply steps_one. right. by rewrite E. Qed.

Lemma good_ListSubscriptions : good handleListSubscriptions.
Proof. unfold handleListSubscriptions. enter. stay. Qed.

Lemma good_CreateSubscription : good (handleCreateSubscription decode_sub).
Proof.
  unfold handleCreateSubscription. enter. past.
  pose proof (steps_own p0 (LCatalog (OpSubscribe (p_UserID p0) (sr_FeedID s0) (sr_WebhookID s0))) Hme (Z.eqb_refl _)) as H. cbn [run_lib_op run_cat_op lift_tx] in H.
  destruct (Subscribe _ _ _ _ _) as [t [e|sub]]; [stay|exact H].
Qed.

Lemma good_UpdateSubscription : good (handleUpdateSubscription decode_sub).
Proof.
  unfold handleUpdateSubscription. enter. past.
  pose proof (steps_own p0 (LCatalog (OpUpdateSub (p_UserID p0) z (sr_WebhookID s0))) Hme (Z.eqb_refl _)) as H. cbn [run_lib_op run_cat_op] in H.
  destruct (UpdateSubscription _ _ _ _) as [t [e|sub]]; exact H.
Qed.

Lemma good_DeleteSubscription : good handleDeleteSubscription.
Proof.
  unfold handleDeleteSubscription. enter.
  pose proof (steps_own p0 (LCatalog (OpUnsubscribe (p_UserID p0) z)) Hme (Z.eqb_refl _)) as H. cbn [run_lib_op run_cat_op lift_tx] in H.
  destruct (Unsubscribe _ _ _) as [t [e|[]]]; [stay|exact H].
Qed.

Lemma good_ListCategories l o : good (handleListCategories l o).
Proof. unfold handleListCategories. enter. past. destruct (ListCategories _ _ _) as [|[? ?]]; stay. Qed.

Lemma good_written action status req w op : editor p = true → w.1 = run (cx_cat st) op →
  steps p (cx_cat st) (cx_cat (category_written s sc now r p action status req st w).1).
Proof.
  intros Ed E. pose proof (steps_one p (cx_cat st) op (or_introl Ed)) as H. rewrite <-E in H. unfold category_written.
  destruct w as [c [e|x]]; cbn [fst] in *; [exact H|]. unfold applyCategoryPollHours. destruct (cw_PollHours req) as [h|]; [|exact H].
  destruct (sc_pollHours sc); [|exact H]. destruct (NormalizePollHours h) as [norm|]; [|exact H].
  pose proof (steps_one p c (LHours now (c_ID x) norm) (or_introl Ed)) as H2. cbn [run_lib_op] in H2.
  destruct (SetCategoryPollHours _ _ _ _) as [fdb [e|]]; [exact H|]. by eapply steps_trans.
Qed.

Lemma good_CreateCategory : good (handleCreateCategory decode_category title_key).
Proof.
  unfold handleCreateCategory. enter. destruct (read_category _ _) as [|req]; [stay|].
  by apply (good_written _ _ _ _ (LCatalog (OpCreateCategory (cw_Title req) (trim_space (cw_Color req))))).
Qed.

Lemma good_UpdateCategory : good (handleUpdateCategory decode_category title_key).
Proof.
  unfold handleUpdateCategory. enter. destruct (read_category _ _) as [|req]; [stay|].
  by apply (good_written _ _ _ _ (LCatalog (OpUpdateCategory z (cw_Title req) (trim_space (cw_Color req))))).
Qed.

Lemma good_DeleteCategory : good handleDeleteCategory.
Proof.
  unfold handleDeleteCategory. enter. pose proof (steps_one p (cx_cat st) (LCatalog (OpDeleteCategory z)) (or_introl Ed)) as H. cbn [run_lib_op run_cat_op] in H.
  destruct (DeleteCategory _ _) as [c [e|]]; exact H.
Qed.

Lemma good_FollowCategory : good handleFollowCategory.
Proof.
  unfold handleFollowCategory. enter.
  pose proof (steps_own p0 (LCatalog (OpFollow (p_UserID p0) z)) Hme (Z.eqb_refl _)) as H. cbn [run_lib_op run_cat_op] in H.
  destruct (FollowCategory _ _ _) as [c [e|n]]; exact H.
Qed.

Lemma good_UnfollowCategory : good handleUnfollowCategory.
Proof.
  unfold handleUnfollowCategory. enter.
  pose proof (steps_own p0 (LCatalog (OpUnfollow (p_UserID p0) z)) Hme (Z.eqb_refl _)) as H. cbn [run_lib_op run_cat_op] in H.
  destruct (UnfollowCategory _ _ _) as [c [e|n]]; exact H.
Qed.

Lemma good_ListEntries q : good (handleListEntries parse_bool ftsLanguage q).
Proof.
  unfold handleListEntries. enter. past. destruct (parseEntriesFilter _ _ _ _ _) as [|[f search]]; [stay|]. cbv zeta.
  destruct (if negb _ then _ else _) as [|[? ?]]; stay.
Qed.

Lemma good_GetEntry : good handleGetEntry.
Proof. unfold handleGetEntry. enter. destruct (GetEntry _ _ _); stay. Qed.

Lemma good_ListFeedEntries q : good (handleListFeedEntries parse_bool q).
Proof.
  unfold handleListFeedEntries. enter. past. destruct (parseEntriesFilter _ _ _ _ _) as [|[f search]]; [stay|].
  destruct (ListFeedEntries _ _ _ _) as [|[? ?]]; stay.
Qed.

Lemma good_BulkUpdateEntries : good (handleBulkUpdateEntries decode_bulk).
Proof.
  unfold handleBulkUpdateEntries. enter. past. cbv zeta. past. set (x := mkBulkEntry _ _).
  pose proof (steps_own p0 (LBulk (p_UserID p0) (br_EntryIDs b) x) Hme (Z.eqb_refl _)) as H. cbn [run_lib_op] in H.
  destruct (BulkUpdateEntries _ _ _ _) as [t [e|n]]; [stay|exact H].
Qed.

Lemma good_MarkFeedAllRead : good handleMarkFeedAllRead.
Proof.
  unfold handleMarkFeedAllRead. enter. past.
  pose proof (steps_own p0 (LFeedRead (p_UserID p0) z) Hme (Z.eqb_refl _)) as H. cbn [run_lib_op] in H.
  destruct (MarkAllFeedEntriesRead _ _ _) as [t [e|n]]; [stay|exact H].
Qed.

Lemma good_MarkCategoryAllRead : good handleMarkCategoryAllRead.
Proof.
  unfold handleMarkCategoryAllRead. enter. past.
  pose proof (steps_own p0 (LCategoryRead (p_UserID p0) z) Hme (Z.eqb_refl _)) as H. cbn [run_lib_op] in H.
  destruct (MarkAllCategoryEntriesRead _ _ _) as [t [e|n]]; [stay|exact H].
Qed.

Lemma good_GetFeedEntry : good handleGetFeedEntry.
Proof.
  unfold handleGetFeedEntry. enter. destruct (parsePathInt64 r "feedID"); [stay|]. destruct (parsePathInt64 r "entryID"); [stay|].
  destruct (GetFeedEntry _ _ _ _); stay.
Qed.

Lemma good_UpdateFeedEntry : good (handleUpdateFeedEntry decode_entry).
Proof.
  unfold handleUpdateFeedEntry. enter. destruct (parsePathInt64 r "feedID") as [|f]; [stay|]. destruct (parsePathInt64 r "entryID") as [|id]; [stay|].
  past. set (x := mkBulkEntry _ _).
  pose proof (steps_own p0 (LEdit (p_UserID p0) f id x) Hme (Z.eqb_refl _)) as H. cbn [run_lib_op] in H.
  destruct (UpdateEntry _ _ _ _ _) as [t [e|n]]; exact H.
Qed.

Lemma requireStore_admin conf msg me : requireStore p RoleAdmin conf msg = inr me → p = Some me ∧ editor p = true.
Proof.
  intros H. pose proof (requireStore_me _ _ _ _ _ H) as [-> P]. split; [done|]. unfold requireStore, requireRole, requireUser in H. cbn [editor].
  apply Z.ltb_lt in P as E. rewrite E. destruct (p_UserID me <=? 0) eqn:L; [bool_to_prop; lia|].
  destruct (RoleAtLeast (p_Role me) RoleAdmin) eqn:A; [|done]. revert A. unfold RoleAtLeast. destruct (roleRank (p_Role me)) as [n|]; [|done].
  cbn. intros A. bool_to_prop. apply Z.leb_le. lia.
Qed.

Lemma good_RefreshAllFeeds : good (handleRefreshAllFeeds jitter).
Proof.
  unfold handleRefreshAllFeeds. destruct (requireStore p RoleAdmin _ _) as [|me] eqn:M; [stay|]. apply requireStore_admin in M as [_ Ed].
  pose proof (steps_one p (cx_cat st) (LRefreshAll now jitter) (or_introl Ed)) as H. cbn [run_lib_op] in H.
  destruct (RefreshAllFeeds _ _ _) as [fdb [feeds queued]]. exact H.
Qed.

(** ** Polls and articles *)

(** The handler of the request. *)
Definition handler_name : option string := snd <$> route (q_method r) (q_segs r).

(** A feed its caller reads was polled. *)
Definition polls_feed (c c' : Catalog) : Prop :=
  handler_name = Some "handleRefreshFeed"%string ∧ ∃ id v, parsePathInt64 r "feedID" = inr id ∧
    GetFeed c (uid p) id = inr v ∧ c' = refreshed poll_clock c (id, poller).

(** An entry its caller reads was given the article behind it. *)
Definition reads_article (c c' : Catalog) : Prop :=
  handler_name = Some "handleFetchEntryContent"%string ∧ ∃ id v body original,
    parsePathID r = inr id ∧ GetEntry (tables c) (uid p) id = inr v ∧ c' = with_tables c (UpdateEntryContent (tables c) (uid p) id body original true).1.

Lemma does_RefreshFeed : let c' := cx_cat (handleRefreshFeed poller poll_clock s sc now r p st).1 in
  c' = cx_cat st ∨ ∃ id v, parsePathInt64 r "feedID" = inr id ∧ GetFeed (cx_cat st) (uid p) id = inr v ∧ c' = refreshed poll_clock (cx_cat st) (id, poller).
Proof.
  unfold handleRefreshFeed. destruct (requireStore p "" _ _) as [|me] eqn:M; [by left|]. apply requireStore_me in M as [-> _].
  destruct (negb _); [by left|]. destruct (parsePathInt64 _ _) as [|id]; [by left|]. cbn [uid].
  destruct (GetFeed _ _ _) as [|v] eqn:G; [by left|]. right. exists id, v. split; [done|]. split; [done|]. unfold refreshed. cbn [fst snd].
  by destruct (on_catalog _ _ _) as [c [e|n]].
Qed.

Lemma does_FetchContent : catalog_wf title_key (cx_cat st) → let c' := cx_cat (handleFetchEntryContent scrape s sc now r p st).1 in
  c' = cx_cat st ∨ ∃ id v body original, parsePathID r = inr id ∧ GetEntry (tables (cx_cat st)) (uid p) id = inr v ∧
    c' = with_tables (cx_cat st) (UpdateEntryContent (tables (cx_cat st)) (uid p) id body original true).1.
Proof.
  intros W. assert (Id : with_tables (cx_cat st) (tables (cx_cat st)) = cx_cat st) by by destruct (cx_cat st).
  unfold handleFetchEntryContent. destruct (requireStore p "" _ _) as [|me] eqn:M; [by left|]. apply requireStore_me in M as [-> _].
  destruct (negb _); [by left|]. destruct (parsePathID r) as [|id]; [by left|]. destruct scrape as [fetch|]; [|by left]. cbn [uid].
  unfold FetchEntryContent. destruct (GetEntry _ _ _) as [e|v] eqn:G; [left; destruct (err_is_not_found e); exact Id|].
  destruct (String.eqb _ _); [left; exact Id|]. destruct (GetFeed _ _ _) as [e|f]; [left; destruct (err_is_not_found e); exact Id|].
  destruct (fetch _ _ _ _ _) as [|body]; [left; exact Id|]. right.
  assert (er_id (ev_row v) = id) as ->.
  { unfold GetEntry in G. destruct (ed_entries _ !! id) as [row|] eqn:L; [|done]. destruct (reads _ _ _); [|done]. injection G as <-.
    by destruct (tw_entry _ _ (cw_tables _ _ W) _ _ L). }
  match goal with |- context [UpdateEntryContent _ _ _ _ ?o true] => exists id, v, body, o end. split; [done|]. split; [done|]. destruct (UpdateEntryContent _ _ _ _ _ _) as [t [e|w]]; [by destruct (err_is_not_found e)|done].
Qed.

Notation serve := (catalog_serve validateFeedURL DetectFeedTypeFromURL discover decode_feed decode_sub decode_category decode_bulk decode_entry
  title_key lower_le parse_bool ftsLanguage poller poll_clock scrape jitter).

Lemma good_serve all q : catalog_wf title_key (cx_cat st) → let c' := cx_cat (serve all q s sc now r p st).1 in
  steps p (cx_cat st) c' ∨ polls_feed (cx_cat st) c' ∨ reads_article (cx_cat st) c'.
Proof.
  intros W. unfold catalog_serve, polls_feed, reads_article, handler_name.
  destruct (route _ _) as [[[m pat] name]|]; [|left; stay]. cbn [fmap option_fmap option_map snd].
  repeat match goal with
  | |- context [if String.eqb name ?n then _ else _] => destruct (String.eqb_spec name n) as [->|_]
  end.
  all: first [left; stay | idtac].
  all: try (left; first [apply good_ListFeeds | apply good_CreateFeed | apply good_GetFeed | apply good_UpdateFeed | apply good_DeleteFeed
    | apply good_ListSubscriptions | apply good_CreateSubscription | apply good_UpdateSubscription | apply good_DeleteSubscription
    | apply good_ListCategories | apply good_CreateCategory | apply good_UpdateCategory | apply good_DeleteCategory | apply good_FollowCategory
    | apply good_UnfollowCategory | apply good_MarkCategoryAllRead | apply good_MarkFeedAllRead | apply good_ListEntries
    | apply good_BulkUpdateEntries | apply good_GetEntry | apply good_ListFeedEntries | apply good_GetFeedEntry | apply good_UpdateFeedEntry
    | apply good_RefreshAllFeeds]).
  - destruct does_RefreshFeed as [E|H]; [left; rewrite E; stay|by right; left].
  - destruct (does_FetchContent W) as [E|H]; [left; rewrite E; stay|by right; right].
Qed.

(** The API is the library and no more.  Whatever request arrives on the catalogue, the
    subscriptions, the categories or the entries, and whatever it answers, its effect on the
    tables is that of a sequence of library steps, all of them the caller's own reading unless
    the caller is an editor; or of a poll of a feed the caller reads; or of an entry the caller
    reads being given the article behind it. *)
Lemma requests_are_library_steps (all : string) (q : EntryQuery) : catalog_wf title_key (cx_cat st) →
  let c' := cx_cat (serve all q s sc now r p st).1 in
  (∃ ops, c' = fold_left run ops (cx_cat st) ∧ (editor p = true ∨ forallb (reader_step (uid p)) ops = true)) ∨
  polls_feed (cx_cat st) c' ∨ reads_article (cx_cat st) c'.
Proof. apply good_serve. Qed.

(** The handlers of the catalogue, of reading, and of refreshing; the others of the API (accounts, filters, webhooks,
    import and export, icons) have files of their own or change no library. *)
Definition catalog_handlers : list string :=
  ["handleListFeeds"; "handleCreateFeed"; "handleGetFeed"; "handleUpdateFeed"; "handleDeleteFeed"; "handleListSubscriptions";
   "handleCreateSubscription"; "handleUpdateSubscription"; "handleDeleteSubscription"; "handleListCategories"; "handleCreateCategory";
   "handleUpdateCategory"; "handleDeleteCategory"; "handleFollowCategory"; "handleUnfollowCategory"; "handleMarkCategoryAllRead";
   "handleMarkFeedAllRead"; "handleListEntries"; "handleBulkUpdateEntries"; "handleGetEntry"; "handleListFeedEntries";
   "handleGetFeedEntry"; "handleUpdateFeedEntry"; "handleRefreshFeed"; "handleFetchEntryContent"; "handleRefreshAllFeeds"]%string.

(** All but the text of the entry [id] is as it was. *)
Definition text_only (id : Z) (c c' : Catalog) : Prop :=
  ct_feeds c' = ct_feeds c ∧ ct_hooks c' = ct_hooks c ∧ ct_more c' = ct_more c ∧ ct_cats c' = ct_cats c ∧
  ed_unread (ct_entries c') = ed_unread (ct_entries c) ∧ ed_user (ct_entries c') = ed_user (ct_entries c) ∧
  ed_labels (ct_entries c') = ed_labels (ct_entries c) ∧ ed_dedup (ct_entries c') = ed_dedup (ct_entries c) ∧
  (∀ i, i ≠ id → ed_entries (ct_entries c') !! i = ed_entries (ct_entries c) !! i) ∧
  ∀ x', ed_entries (ct_entries c') !! id = Some x' → ∃ x, ed_entries (ct_entries c) !! id = Some x ∧
    er_feed_id x' = er_feed_id x ∧ er_title x' = er_title x ∧ er_url x' = er_url x ∧ er_hash x' = er_hash x ∧
    er_sort_at x' = er_sort_at x ∧ er_removed_at x' = er_removed_at x.

Lemma content_text_only c u id body original : text_only id c (with_tables c (UpdateEntryContent (tables c) u id body original true).1).
Proof.
  unfold text_only, UpdateEntryContent. cbn [tables snd fst].
  destruct (ed_entries (ct_entries c) !! id) as [x|] eqn:L; [|cbn; do 9 (split; [done|]); rewrite L; eauto 10].
  destruct (reads _ _ _); cbn [fst with_tables ct_feeds ct_hooks ct_more ct_cats ct_entries snd with_entries ed_entries ed_unread ed_user ed_labels ed_dedup];
    do 8 (split; [done|]); (split; [intros i N; by rewrite ?lookup_insert_ne by done|]); intros x'.
  - rewrite lookup_insert_eq. intros [= <-]. by exists x.
  - cbn [tables snd]. rewrite ?L. intros [= <-]. by exists x.
Qed.

(** C22: only editors edit.  Take a request to the API of the catalogue, of reading or of refreshing (the handlers of
    [catalog_handlers]) of somebody below the editor role, or of nobody.  It leaves feeds, categories, entries, webhooks
    as they are, and of all reading (subscriptions, follows, unread marks, stars, removals, labels) changes at most the
    caller's own -- with two exceptions the API opens to every reader: refreshing a feed the caller subscribes to, which
    is a poll of that feed and touches no other feed, no subscription, category or webhook, and forgets no item; and
    fetching the article behind an entry the caller reads, which replaces the text of that entry, for every reader of
    it.  The tables stay consistent in each case. *)
Theorem readers_edit_only_themselves (all : string) (q : EntryQuery) (W : catalog_wf title_key (cx_cat st)) (E : editor p = false)
  (L : ∀ name, handler_name = Some name → name ∈ catalog_handlers) :
  let c := cx_cat st in let c' := cx_cat (serve all q s sc now r p st).1 in
  catalog_wf title_key c' ∧
  (untouched (uid p) c c' ∨
   (handler_name = Some "handleRefreshFeed"%string ∧ ∃ id v, parsePathInt64 r "feedID" = inr id ∧
      GetFeed c (uid p) id = inr v ∧ c' = refreshed poll_clock c (id, poller) ∧ polled id c c') ∨
   (handler_name = Some "handleFetchEntryContent"%string ∧ ∃ id v, parsePathID r = inr id ∧
      GetEntry (tables c) (uid p) id = inr v ∧ text_only id c c')).
Proof.
  cbv zeta. destruct (good_serve all q W) as [(ops & -> & [H|H])|[(N & id & v & Hid & G & H)|(N & id & v & body & original & Hid & G & ->)]]; [congruence|..].
  - split; [|left; by apply reader_steps_untouched]. clear H. generalize (cx_cat st) W. induction ops as [|op ops IH]; intros c Wc; [done|].
    apply IH. by apply wf_run_lib_op.
  - destruct (refresh_feed_ok title_key poll_clock id poller (cx_cat st) W) as [W' P]. rewrite H. unfold refreshed. cbn [fst snd].
    split; [exact W'|]. right; left. split; [done|]. by exists id, v.
  - split; [exact (wf_run_lib_op title_key dedup_key _ (LContent (uid p) id body original true) W)|]. right; right. split; [done|]. exists id, v.
    split; [done|]. split; [done|]. apply content_text_only.
Qed.

End Requests.
End Api.

(** * Saving a feed *)

(** [u]'s subscription to the feed, if any, has no webhook. *)
Definition no_webhook (u f : Z) (s : FeedDb * EntryDb) : Prop := ∀ w, fd_subs s.1 !! (u, f) ≠ Some (Some w).

Lemma no_webhook_subscribe_new hdb v g s u f : no_webhook u f s → no_webhook u f (subscribe_new hdb v g s).1.
Proof.
  intros N. unfold subscribe_new. destruct (subscribeTx_cases hdb s v g None) as [(e & -> & _)|(_ & _ & _ & ->)]; [by destruct (err_is _ e)|].
  intros w. cbn [fst with_subs fd_subs]. rewrite lookup_insert_Some. intros [[_ ?]|[_ ?]]; [done|by eapply N].
Qed.

Lemma no_webhook_drop v g s u f : no_webhook u f s → no_webhook u f (unsubscribeTx s v g).1.
Proof.
  intros N. destruct (unsubscribeTx_cases s v g) as [[_ ->]|[_ ->]]; [done|]. intros w H. cbn [fst with_subs fd_subs] in H.
  apply lookup_delete_Some in H as [_ H]. by eapply N.
Qed.

Lemma no_webhook_sync hdb g old new s u f : no_webhook u f s → no_webhook u f (syncCategoryFollowersTx hdb g old new s).1.
Proof.
  intros N. unfold syncCategoryFollowersTx. set (dropped := match old with Some _ => _ | None => _ end).
  assert (D : no_webhook u f dropped.1).
  { unfold dropped. destruct old as [k|]; [|exact N]. destruct (decide (new = Some k)); [exact N|]. apply (tx_each_inv (no_webhook u f)); [|exact N].
    intros v t _ Nt. pose proof (no_webhook_drop v g t u f Nt) as H. destruct (unsubscribeTx t v g) as [t' [e|[]]]; [|exact H].
    by destruct (err_is_not_found e). }
  destruct dropped as [s1 [e|[]]]; [exact D|]. destruct new as [k|]; [|exact D]. destruct (decide (old = Some k)); [exact D|].
  unfold subscribeFollowersTx. apply (tx_each_inv (no_webhook u f)); [|exact D]. intros v t _. apply no_webhook_subscribe_new.
Qed.

Lemma UpdateFeed_no_webhook c u p c' v : up_WebhookID p = None → UpdateFeed c u p = (c', inr v) → no_webhook u (up_ID p) (tables c').
Proof.
  intros Nw. unfold UpdateFeed. destruct (negb _); [done|]. destruct (NormalizeStoreMode _) as [mode|]; [|done]. unfold withTx.
  destruct (update_feed_tx u mode p (ct_hooks c) (tables c)) as [s [e|[]]] eqn:E; [done|]. destruct (feed_view _ _ _); [|done].
  intros [= <- _]. change (no_webhook u (up_ID p) (s.1, s.2)). unfold update_feed_tx in E. destruct (negb _); [done|]. destruct (fd_feeds _ !! _) as [r|]; [|done].
  cbv zeta in E. destruct (url_taken _ _ _); [done|]. destruct (negb _); [done|].
  match type of E with context [syncCategoryFollowersTx ?hdb ?id ?old ?new ?t] =>
    assert (N : no_webhook u (up_ID p) (syncCategoryFollowersTx hdb id old new t).1) end.
  { apply no_webhook_sync. intros w. cbn [fst with_poll with_feeds with_subs fd_subs]. rewrite lookup_alter_eq, Nw. by destruct (fd_subs _ !! _). }
  destruct (syncCategoryFollowersTx _ _ _ _ _) as [t [e|[]]]; [done|]. injection E as <-. by destruct t.
Qed.

(** Saving a feed drops the caller's webhook.  A request to save a feed has no field for the
    webhook of the caller's subscription, and the statement writes that column all the same:
    whenever [PUT /v1/feeds/{id}] succeeds, the caller's subscription to the feed, if there is
    one afterwards, has no webhook, whichever it had. *)
Lemma saving_feed_drops_webhook (validateFeedURL : string → option string) (DetectFeedTypeFromURL : string → string)
  (decode_feed : string → string + feedWriteRequest) (s : Server) (sc : CServer) (now : Z) (r : ApiRequest) (me : Principal)
  (st st' : CState) (d : feedDTO)
  (E : handleUpdateFeed validateFeedURL DetectFeedTypeFromURL decode_feed s sc now r (Some me) st = (st', CFeed 200 d)) :
  ∃ id, parsePathID r = inr id ∧ ∀ w, fd_subs (ct_feeds (cx_cat st')) !! (p_UserID me, id) ≠ Some (Some w).
Proof.
  unfold handleUpdateFeed in E. destruct (requireStoreID _ _ _ _ _) as [|[q id]] eqn:M; [done|].
  assert (Id : parsePathID r = inr id ∧ q = me).
  { unfold requireStoreID in M. destruct (requireStore _ _ _ _) as [|q'] eqn:M2; [done|]. apply requireStore_me in M2 as [[= <-] _].
    destruct (parsePathID r); [done|]. by injection M as -> ->. }
  destruct Id as [Id ->]. exists id. split; [exact Id|]. destruct (decode_feed _) as [|req]; [done|]. destruct (validateFeedWriteRequest _ _ _) as [|params]; [done|].
  destruct (feedQuotaOK _ _ _ _ _) as [c|] eqn:Q.
  { injection E as _ ->. unfold feedQuotaOK in Q. repeat case_match; discriminate Q. }
  destruct (UpdateFeed _ _ _) as [c [e|v]] eqn:U.
  { injection E as _ E. repeat case_match; discriminate E. }
  apply UpdateFeed_no_webhook in U; [|done]. injection E as <- _. intros w. cbn [caudit with_cat cx_cat with_tables ct_feeds fst].
  destruct (sc_refresher sc) as [[min max]|]; [|by apply U]. unfold SetFeedNextCheckAt, update_ps. destruct (fd_poll _ !! _); apply U.
Qed.

(** * Concrete requests *)

Definition wit_cserver : CServer := mkCServer true true true true true (mkLimits 0 0 0) (Some (60 * second, 86400 * second)).
Definition wit_no {A} (b : string) : string + A := inl "invalid JSON body"%string.
Notation wit_poller := (RefresherSpec.wit_world RefresherSpec.fetch_two).
Notation wit_polls := (RefresherSpec.wit_env RefresherSpec.fetch_two).
Definition wit_serve := catalog_serve (λ _, None) (λ _, "rss"%string) None wit_no wit_no wit_no wit_no wit_no id String.le (λ _, None) (FT := wit_fts) "simple"
  (env := wit_polls) wit_poller (λ _, (1000, 5)) None (λ _ _, 0) "" (mkEntryQuery "" "" "" "" "" "" "").
Definition wit_state : CState := mkCState (mkApi w_db []) wit_catalog.
Definition wit_reader : Principal := mkPrincipal 2 "viewer" "bob" "".

Lemma wit_route method segs name : handler_name (w_request method segs "") = Some name → name ∈ catalog_handlers →
  ∀ n, handler_name (w_request method segs "") = Some n → n ∈ catalog_handlers.
Proof. intros -> H n [= <-]. exact H. Qed.

(** A reader follows a category; a subscriber has the feed refreshed, which finds two items. *)
Lemma readers_edit_only_themselves_witness :
  let follow := (wit_serve w_server wit_cserver 0 (w_request "POST" ["v1"; "categories"; "1"; "follow"]%string "") (Some wit_reader) wit_state).1 in
  fd_subs (ct_feeds (cx_cat follow)) !! (2, 1) = Some None ∧ untouched 2 wit_catalog (cx_cat follow) ∧
  let refresh := wit_serve w_server wit_cserver 0 (w_request "POST" ["v1"; "feeds"; "1"; "refresh"]%string "") (Some wit_reader) follow in
  refresh.2 = CRefreshed 2 ∧ polled (env := wit_polls) 1 (cx_cat follow) (cx_cat refresh.1).
Proof.
  cbv zeta. set (follow := (wit_serve _ _ _ _ _ wit_state).1).
  assert (F : cx_cat follow = run_lib_op id id wit_catalog (LCatalog (OpFollow 2 1))) by (vm_compute; reflexivity).
  assert (Wf : catalog_wf id (cx_cat follow)) by (rewrite F; apply wf_run_lib_op; exact wit_catalog_wf).
  split; [vm_compute; reflexivity|]. split.
  - destruct (readers_edit_only_themselves id id (λ _, None) (λ _, "rss"%string) None wit_no wit_no wit_no wit_no wit_no String.le (λ _, None) (FT := wit_fts) "simple"
      (env := wit_polls) wit_poller (λ _, (1000, 5)) None (λ _ _, 0) w_server wit_cserver 0
      (w_request "POST" ["v1"; "categories"; "1"; "follow"]%string "") (Some wit_reader) wit_state "" (mkEntryQuery "" "" "" "" "" "" "") wit_catalog_wf eq_refl)
      as [_ [H|[[H _]|[H _]]]]; [|exact H|vm_compute in H; discriminate H..].
    eapply wit_route; [vm_compute; reflexivity|]. by apply (bool_decide_unpack _); vm_compute.
  - split; [vm_compute; reflexivity|].
    destruct (readers_edit_only_themselves id id (λ _, None) (λ _, "rss"%string) None wit_no wit_no wit_no wit_no wit_no String.le (λ _, None) (FT := wit_fts) "simple"
      (env := wit_polls) wit_poller (λ _, (1000, 5)) None (λ _ _, 0) w_server wit_cserver 0
      (w_request "POST" ["v1"; "feeds"; "1"; "refresh"]%string "") (Some wit_reader) follow "" (mkEntryQuery "" "" "" "" "" "" "") Wf eq_refl)
      as [_ [H|[(_ & i & v & Hi & _ & _ & H)|[H _]]]].
    + eapply wit_route; [vm_compute; reflexivity|]. by apply (bool_decide_unpack _); vm_compute.
    + destruct H as (_ & _ & _ & H & _). apply (f_equal size) in H. vm_compute in H. discriminate H.
    + assert (i = 1) as -> by (vm_compute in Hi; congruence). exact H.
    + vm_compute in H. discriminate H.
Defined.

(** The feed of [wit_catalog], read by its editor with a webhook. *)
Definition wit_hooked : Catalog :=
  run_cat_op id (OpUpdateSub 1 1 (Some 1))
    (mkCatalog (ct_feeds wit_catalog) (ct_entries wit_catalog) (mkHookDb {[ 1 := wit_hook 1 0 ]} ∅ 1) (ct_more wit_catalog) (ct_next wit_catalog)
       (ct_cats wit_catalog) (ct_next_cat wit_catalog)).
Definition wit_write : feedWriteRequest :=
  mkFeedWrite "https://a.example/feed" "Renamed" (Some 1) 60 "" "" "" "" false false false "" "" false None false None.
Definition wit_put : CState * cresponse :=
  handleUpdateFeed (λ _, None) (λ _, "rss"%string) (λ _, inr wit_write) w_server wit_cserver 0 (w_request "PUT" ["v1"; "feeds"; "1"]%string "")
    (Some (mkPrincipal 1 "editor" "ann" "")) (mkCState (mkApi w_db []) wit_hooked).

Lemma saving_feed_drops_webhook_witness :
  fd_subs (ct_feeds wit_hooked) !! (1, 1) = Some (Some 1) ∧ fd_subs (ct_feeds (cx_cat wit_put.1)) !! (1, 1) ≠ Some (Some 1).
Proof.
  split; [vm_compute; reflexivity|].
  destruct (saving_feed_drops_webhook (λ _, None) (λ _, "rss"%string) (λ _, inr wit_write) w_server wit_cserver 0 (w_request "PUT" ["v1"; "feeds"; "1"]%string "")
    (mkPrincipal 1 "editor" "ann" "") (mkCState (mkApi w_db []) wit_hooked) wit_put.1
    match wit_put.2 with CFeed _ d => d | _ => mkFeedDTO 0 "" "" "" None 0 "" "" "" "" false false false "" "" false None false None false end) as (id & Id & H);
    [vm_compute; reflexivity|].
  assert (id = 1) as -> by (vm_compute in Id; congruence). apply H.
Defined.
