(* ===== verification/OpmlImport.v ===== *)
(** Importing and exporting subscriptions ([http/opml.go], [http/import_jobs.go]): what an import
    makes of the feeds of a file, one after the other, on the shared catalogue of [Catalog.v],
    what it reports, and the jobs that run an import in the background. *)

From S2P Require Import Prelude GoStrings PollWindow Types HostLimiter FeedStore WebhookStore EntryStore Tables Xml Opml.
From S2P Require Import Catalog CatalogSpec UserStore ApiAuth CatalogApi CatalogApiSpec.

Local Open Scope Z_scope.

(** * Reports *)

(** http/opml.go [importErrorDTO] *)
Record importErrorDTO := mkImportError { ie_FeedURL : string; ie_Title : string; ie_Reason : string }.

(** http/opml.go [importReportDTO] *)
Record importReportDTO := mkReport {
  rp_CategoriesCreated : Z; rp_FeedsCreated : Z; rp_FeedsSubscribed : Z; rp_FeedsSkipped : Z; rp_Errors : list importErrorDTO;
}.
Definition empty_report : importReportDTO := mkReport 0 0 0 0 [].

Definition report (r : importReportDTO) (e : importErrorDTO) : importReportDTO :=
  mkReport (rp_CategoriesCreated r) (rp_FeedsCreated r) (rp_FeedsSubscribed r) (rp_FeedsSkipped r) (rp_Errors r ++ [e]).
Definition category_created (r : importReportDTO) : importReportDTO :=
  mkReport (rp_CategoriesCreated r + 1) (rp_FeedsCreated r) (rp_FeedsSubscribed r) (rp_FeedsSkipped r) (rp_Errors r).
Definition feed_created (r : importReportDTO) : importReportDTO :=
  mkReport (rp_CategoriesCreated r) (rp_FeedsCreated r + 1) (rp_FeedsSubscribed r) (rp_FeedsSkipped r) (rp_Errors r).
Definition feed_subscribed (r : importReportDTO) : importReportDTO :=
  mkReport (rp_CategoriesCreated r) (rp_FeedsCreated r) (rp_FeedsSubscribed r + 1) (rp_FeedsSkipped r) (rp_Errors r).
Definition feed_skipped (r : importReportDTO) : importReportDTO :=
  mkReport (rp_CategoriesCreated r) (rp_FeedsCreated r) (rp_FeedsSubscribed r) (rp_FeedsSkipped r + 1) (rp_Errors r).

(** * The import *)

Section Importing.
(** [strings.ToLower] on any text, [%q]; the check and the type of an address; the key of a
    category's title. *)
Context (lower : string → string) (Quote : string → string)
        (validateFeedURL : string → option string) (DetectFeedTypeFromURL : string → string) (title_key : string → string).

Definition opt_note (b : bool) (note : string) : list string := if b then [note] else [].

(** http/opml.go:403-416 [importFeedParams, the webhook] *)
Definition import_webhook (name : string) (byName : gmap string Z) (ambiguous : gset string) : option Z * list string :=
  if String.eqb name "" then (None, [])
  else
    let key := lower name in
    if bool_decide (key ∈ ambiguous) then (None, ["rssam:webhook: several webhooks are named " +:+ Quote name +:+ ", binding skipped"])
    else match byName !! key with
         | Some id => (Some id, [])
         | None => (None, ["rssam:webhook: no webhook named " +:+ Quote name +:+ ", binding skipped"])
         end.

(** http/opml.go [importFeedParams] With the title and the category [importOPML] puts in. *)
Definition importFeedParams (feedURL : string) (category : option Z) (entry : FeedEntry) (byName : gmap string Z) (ambiguous : gset string)
    : CreateFeedParams * list string :=
  let st := fe_Settings entry in
  let known := NormalizeFeedType (st_FeedType st) in
  let n1 := opt_note (negb (String.eqb (st_FeedType st) "") && String.eqb known "")
              ("rssam:feedType: unknown type " +:+ Quote (st_FeedType st) +:+ ", detected from URL") in
  let feedType := if String.eqb known "" then DetectFeedTypeFromURL feedURL else known in
  let outside := negb (st_IntervalMinutes st =? 0) && ((st_IntervalMinutes st <? MinFeedIntervalMinutes) || (MaxFeedIntervalMinutes <? st_IntervalMinutes st)) in
  let n2 := opt_note outside ("rssam:interval: " +:+ format_int (st_IntervalMinutes st) +:+ " is outside 1..10080, using 60") in
  let interval := if (st_IntervalMinutes st =? 0) || outside then defaultIntervalMinutes else st_IntervalMinutes st in
  let refused := negb (ValidateEntryRetentionDays (st_RetentionDays st)) in
  let n3 := opt_note refused "rssam:retentionDays: entry_retention_days must be between 1 and 3650, ignored" in
  let retention := if refused then None else st_RetentionDays st in
  let '(webhookID, n4) := import_webhook (st_WebhookName st) byName ambiguous in
  (mkCreateFeed feedURL feedType (trim_space (fe_Title entry)) category false interval (st_ScraperRules st) (st_RewriteRules st)
     (st_BlockedRules st) (st_KeepRules st) (st_FetchViaProxy st) (st_TLSInsecure st) (st_Crawler st) (st_UserAgent st) webhookID
     (st_StoreMode st) retention (st_AdaptiveInterval st) None,
   fe_SettingsErrors entry ++ n1 ++ n2 ++ n3 ++ n4).

(** http/opml.go:216-234 [Server.importOPML, the webhooks] By name, and the names that more than one has. *)
Definition webhook_names (hooks : list (Z * string)) : gmap string Z * gset string :=
  foldl (λ acc w, let key := lower (trim_space w.2) in
    if String.eqb key "" then acc
    else match acc.1 !! key with
         | Some _ => (acc.1, {[key]} ∪ acc.2)
         | None => (<[key := w.1]> acc.1, acc.2)
         end) (∅, ∅) hooks.

(** What the loop carries from feed to feed. *)
Record Importing := mkImporting {
  im_cat : Catalog; im_report : importReportDTO; im_known : gset string; im_seen : gset string; im_cats : gmap string Z; im_count : Z;
}.

Definition with_report (st : Importing) (r : importReportDTO) : Importing :=
  mkImporting (im_cat st) r (im_known st) (im_seen st) (im_cats st) (im_count st).
Definition with_known (st : Importing) (c : Catalog) (r : importReportDTO) (url : string) (n : Z) : Importing :=
  mkImporting c r ({[url]} ∪ im_known st) (im_seen st) (im_cats st) n.

(** A call to the store: it answers as long as the request's context lives. *)
Definition ask {A} (live : bool) (c : Catalog) (answer : Catalog * (err + A)) : Catalog * (err + A) :=
  if live then answer else (c, inl (EMsg "context canceled")).

Section Entry.
(** Whether the context lives, who imports, the quotas, the subscriptions, the webhooks. *)
Context (live : bool) (now : Z) (userID : Z) (p : Principal) (sc : CServer) (byName : gmap string Z) (ambiguous : gset string).

(** The text of [quota.Error] for an interval. *)
Definition interval_refusal (l : Limits) : string :=
  let floor := Z.quot (EditorMinPollInterval l) minute in
  let floor := if negb (Z.rem (EditorMinPollInterval l) minute =? 0) then floor + 1 else floor in
  "interval_minutes must be at least " +:+ format_int floor +:+ " for editors".

(** http/opml.go:297-316 [Server.importOPML, the category] [None] goes on to the next feed. *)
Definition import_category (title : string) (st : Importing) : Importing * option (option Z) :=
  let title := trim_space title in
  if String.eqb title "" then (st, Some None)
  else match im_cats st !! lower title with
  | Some id => (st, Some (Some id))
  | None =>
      match ask live (im_cat st) (CreateCategory title_key (im_cat st) title "") with
      | (c, inl e) => (with_report st (report (im_report st) (mkImportError "" title ("create category: " +:+ err_text e))), None)
      | (c, inr x) =>
          (mkImporting c (category_created (im_report st)) (im_known st) (im_seen st) (<[lower title := c_ID x]> (im_cats st)) (im_count st),
           Some (Some (c_ID x)))
      end
  end.

(** http/opml.go:333-363 [Server.importOPML, the feed] *)
Definition import_feed (url title : string) (params : CreateFeedParams) (st : Importing) : Importing :=
  let norm := lower url in
  match ask live (im_cat st) (CreateFeed now (im_cat st) userID params) with
  | (c, inr _) => with_known st c (feed_created (im_report st)) norm (im_count st + 1)
  | (c, inl e) =>
      let failed c e :=
        if err_is err_duplicate_feed_url e || err_is err_already_subscribed e then
          with_known st c (report (feed_skipped (im_report st)) (mkImportError url title "feed_url already exists")) norm (im_count st)
        else mkImporting c (report (im_report st) (mkImportError url title (err_text e))) (im_known st) (im_seen st) (im_cats st) (im_count st) in
      if err_is err_duplicate_feed_url e && sc_subscriptions sc then
        match ask live c (SubscribeByURL c userID (cp_FeedURL params) (cp_WebhookID params)) with
        | (c, inr _) => with_known st c (feed_subscribed (im_report st)) norm (im_count st)
        | (c, inl e) => failed c e
        end
      else failed c e
  end.

(** http/opml.go:258-364 [Server.importOPML, one feed] The boolean ends the import. *)
Definition import_entry (entry : FeedEntry) (st : Importing) : Importing * bool :=
  let url := trim_space (fe_FeedURL entry) in
  let norm := lower url in
  let rep := im_report st in
  let note reason := mkImportError url (fe_Title entry) reason in
  if String.eqb url "" then (with_report st (report rep (mkImportError "" (fe_Title entry) "feed_url is empty")), false)
  else if bool_decide (norm ∈ im_seen st) then (with_report st (report (feed_skipped rep) (note "duplicate in import file")), false)
  else
    let st := mkImporting (im_cat st) rep (im_known st) ({[norm]} ∪ im_seen st) (im_cats st) (im_count st) in
    if bool_decide (norm ∈ im_known st) then (with_report st (report (feed_skipped rep) (note "feed_url already exists")), false)
    else match validateFeedURL url with
    | Some e => (with_report st (report rep (note e)), false)
    | None =>
        match import_category (fe_CategoryTitle entry) st with
        | (st, None) => (st, false)
        | (st, Some category) =>
            let '(params, notes) := importFeedParams url category entry byName ambiguous in
            let st := with_report st (foldl (λ r n, report r (note n)) (im_report st) notes) in
            if negb (quota_Feeds (sc_quotas sc) p (im_count st)) then
              (with_report st (report (im_report st)
                 (mkImportError "" "" ("feed limit reached (" +:+ format_int (MaxFeedsPerEditor (sc_quotas sc)) +:+ " per editor)"))), true)
            else if negb (quota_PollInterval (sc_quotas sc) p (cp_IntervalMinutes params)) then
              (with_report st (report (im_report st) (note (interval_refusal (sc_quotas sc)))), false)
            else (import_feed url (fe_Title entry) params st, false)
        end
    end.

(** http/opml.go:236-257 [Server.importOPML, the loop] [n] feeds may still be taken. *)
Fixpoint import_loop (n : nat) (entries : list FeedEntry) (st : Importing) {struct entries} : Importing :=
  match entries with
  | [] => st
  | entry :: entries =>
      match n with
      | O => with_report st (report (im_report st) (mkImportError "" "" "import limit exceeded"))
      | S n =>
          match import_entry entry st with
          | (st, true) => st
          | (st, false) => import_loop n entries st
          end
      end
  end.
End Entry.

(** http/opml.go:197-201 [Server.importOPML, the addresses] *)
Definition known_urls (live : bool) (c : Catalog) (userID : Z) : gset string :=
  match ListFeeds c userID 10000 0 with
  | inr (fs, _) => if live then list_to_set ((λ v, lower (trim_space (f_url (feed_row (fv_feed v))))) <$> fs) else ∅
  | inl _ => ∅
  end.
(** http/opml.go:207-214 [Server.importOPML, the categories] *)
Definition known_categories (live : bool) (c : Catalog) : gmap string Z :=
  match ListCategories c 10000 0 with
  | inr (cs, _) =>
      if live then foldl (λ m x, let key := lower (trim_space (c_Title x)) in if String.eqb key "" then m else <[key := c_ID x]> m) ∅ cs else ∅
  | inl _ => ∅
  end.

(** The most feeds one import takes. *)
Definition import_limit (maxImportFeeds : Z) : nat := Z.to_nat (if maxImportFeeds <=? 0 then 500 else maxImportFeeds).

Definition import_start (live : bool) (userID : Z) (c : Catalog) : Importing :=
  mkImporting c empty_report (known_urls live c userID) ∅ (known_categories live c) (if live then CountOwnedFeeds c userID else 0).

(** http/opml.go [Server.importOPML] [hooks] are the user's webhooks, by number and name, where
    they are configured; the audit is the caller's. *)
Definition importOPML (live : bool) (now userID : Z) (p : Principal) (sc : CServer) (maxImportFeeds : Z) (hooks : list (Z * string))
    (doc : Document) (c : Catalog) : Catalog * importReportDTO :=
  let '(byName, ambiguous) := webhook_names (if live then hooks else []) in
  let st := import_loop live now userID p sc byName ambiguous (import_limit maxImportFeeds) (CollectFeeds Quote doc)
              (import_start live userID c) in
  (im_cat st, im_report st).
End Importing.

(** * The export *)

(** http/opml.go:117-140 [Server.exportOPMLForUser, one feed] A webhook goes by its name. *)
Definition export_feed (names : gmap Z string) (v : FeedView) : ExportFeed :=
  let f := feed_row (fv_feed v) in
  let m := fv_more v in
  mkExportFeed (f_title f) (f_url f) (f_category_id f)
    (mkSettings (f_type f) (f_interval_minutes f) (fm_TLSInsecure m) (fm_FetchViaProxy m) (fm_Crawler m) (f_store_mode f) (f_adaptive_interval f)
       (fm_EntryRetentionDays m) (fm_UserAgent m) (match fv_webhook v with Some w => default "" (names !! w) | None => "" end)%string
       (fm_ScraperRules m) (f_rewrite_rules f) (f_blocked_rules f) (f_keep_rules f)).

(** An inbound feed has no address to fetch; its secret stays here. *)
Definition exported (v : FeedView) : bool := negb (String.eqb (f_type (feed_row (fv_feed v))) FeedTypeInbound).

Definition export_input (c : Catalog) (userID : Z) (hooks : list (Z * string)) : err + ExportInput :=
  match ListCategories c 10000 0 with
  | inl e => inl e
  | inr (cats, _) =>
      match ListFeeds c userID 10000 0 with
      | inl e => inl e
      | inr (feeds, _) =>
          let names := foldl (λ m w, <[w.1 := w.2]> m) ∅ hooks in
          inr (mkExportInput "rssam subscriptions" ((λ x, mkExportCategory (c_ID x) (c_Title x)) <$> cats)
                 (export_feed names <$> base.filter (λ v, exported v = true) feeds))
      end
  end.

(** http/opml.go [Server.exportOPMLForUser] *)
Definition exportOPMLForUser (range : gmap Z (list ExportFeed) → list (Z * list ExportFeed)) (date : string) (sc : CServer)
    (hooks : list (Z * string)) (c : Catalog) (userID : Z) : err + text :=
  if negb (sc_categories sc && sc_feeds sc) then inl (EMsg "storage is not configured")
  else match export_input c userID hooks with
       | inl e => inl e
       | inr inp => inr (Generate range date inp)
       end.

(** * Jobs *)

(** http/import_jobs.go [importJobStatus] *)
Inductive importJobStatus := importJobPending | importJobRunning | importJobDone | importJobFailed.
#[export] Instance importJobStatus_eq_dec : EqDecision importJobStatus.
Proof. solve_decision. Defined.

(** http/import_jobs.go [importJob] *)
Record importJob := mkImportJob {
  ij_ID : string; ij_UserID : Z; ij_Status : importJobStatus; ij_Total : Z; ij_Processed : Z; ij_Report : importReportDTO;
  ij_Error : string; ij_CreatedAt : Z; ij_UpdatedAt : Z;
}.

(** http/import_jobs.go [importJobManager] *)
Definition Jobs : Type := gmap string importJob.

(** http/import_jobs.go [importJobManager.create] Jobs that nothing has touched for two hours go. *)
Definition job_create (now : Z) (id : string) (userID total : Z) (m : Jobs) : Jobs :=
  let cutoff := time_add now (- (2 * hour)) in
  <[id := mkImportJob id userID importJobPending total 0 empty_report "" now now]>
    (base.filter (λ kj, time_before (ij_UpdatedAt kj.2) cutoff = false) m).

(** http/import_jobs.go [importJobManager.get] *)
Definition job_get (userID : Z) (id : string) (m : Jobs) : option importJob :=
  j ← m !! id; if ij_UserID j =? userID then Some j else None.

(** http/import_jobs.go [importJobManager.update] *)
Definition job_update (now : Z) (id : string) (fn : importJob → importJob) (m : Jobs) : Jobs :=
  match m !! id with
  | None => m
  | Some j =>
      let j := fn j in
      <[id := mkImportJob (ij_ID j) (ij_UserID j) (ij_Status j) (ij_Total j) (ij_Processed j) (ij_Report j) (ij_Error j) (ij_CreatedAt j) now]> m
  end.

(** http/import_jobs.go [importJobDTO] The progress is a fraction of 100. *)
Record importJobDTO := mkJobDTO {
  jd_ID : string; jd_Status : importJobStatus; jd_Total : Z; jd_Processed : Z; jd_ProgressPct : Z * Z; jd_Report : option importReportDTO;
  jd_Error : string; jd_CreatedAt : Z; jd_UpdatedAt : Z;
}.

(** http/import_jobs.go [toImportJobDTO] *)
Definition toImportJobDTO (j : importJob) : importJobDTO :=
  let pct := if 0 <? ij_Total j then (ij_Processed j * 100, ij_Total j) else (0, 1) in
  let pct := if decide (ij_Status j = importJobDone) then (100, 1) else pct in
  let over := bool_decide (ij_Status j = importJobDone) || bool_decide (ij_Status j = importJobFailed) in
  mkJobDTO (ij_ID j) (ij_Status j) (ij_Total j) (ij_Processed j) pct (if over then Some (ij_Report j) else None) (ij_Error j)
    (ij_CreatedAt j) (ij_UpdatedAt j).

(** * Handlers *)

Inductive oresponse :=
| OPlain (r : response)
| OReport (r : importReportDTO)
| OAccepted (jobID : string)
| OFile (data : text)
| OJob (j : importJobDTO).

Record OState := mkOState { ox : CState; ox_jobs : Jobs }.
Definition with_ox (st : OState) (x : CState) : OState := mkOState x (ox_jobs st).

Definition AuditOPMLImport : string := "opml.import".

Section Handlers.
Context (lower : string → string) (Quote : string → string) (validateFeedURL : string → option string)
        (DetectFeedTypeFromURL : string → string) (title_key : string → string).
(** The file of a request, or whether its body is too large and the error; the webhooks of a user
    by number and name; the order of a map and the date of an export. *)
Context (readOPMLBody : ApiRequest → bool * string + text) (webhooks : Z → list (Z * string))
        (range : gmap Z (list ExportFeed) → list (Z * list ExportFeed)) (date : string) (maxImportFeeds : Z).

(** The import as the handlers call it, with its record in the audit. *)
Definition run_import (live : bool) (s : Server) (sc : CServer) (now : Z) (r : ApiRequest) (p : option Principal) (userID : Z) (doc : Document)
    (st : CState) : CState * importReportDTO :=
  let me := default (mkPrincipal 0 "" "" "") p in
  let '(c, rep) := importOPML lower Quote validateFeedURL DetectFeedTypeFromURL title_key live now userID me sc maxImportFeeds (webhooks userID) doc (cx_cat st) in
  (caudit s r p AuditOPMLImport "" 0 (with_cat st c), rep).

(** http/opml.go [Server.handleImportFeeds] [async] is the query value, [job] the number a new job
    gets.  The job itself runs later. *)
Definition handleImportFeeds (async job : string) (s : Server) (sc : CServer) (now : Z) (r : ApiRequest) (p : option Principal) (st : OState)
    : OState * oresponse :=
  match requireStore p RoleEditor (sc_categories sc && sc_feeds sc) "storage is not configured" with
  | inl e => (st, OPlain e)
  | inr me =>
      if negb (String.eqb (q_method r) "POST") then (st, OPlain (RError 405 ""))
      else match readOPMLBody r with
      | inl (true, _) => (st, OPlain (RError 413 "request body too large"))
      | inl (false, e) => (st, OPlain (RError 400 e))
      | inr data =>
          match ParseBytes data with
          | inl e => (st, OPlain (RError 400 (err_text e)))
          | inr doc =>
              if String.eqb async "1" then
                let total := Z.of_nat (Nat.min (length (CollectFeeds Quote doc)) (import_limit maxImportFeeds)) in
                (mkOState (ox st) (job_create now job (p_UserID me) total (ox_jobs st)), OAccepted job)
              else
                let '(x, rep) := run_import true s sc now r p (p_UserID me) doc (ox st) in
                (with_ox st x, OReport rep)
          end
      end
  end.

(** http/import_jobs.go:161-171 [Server.startAsyncOPMLImport, the goroutine] [live] tells whether
    the context of the request still lives: net/http ends it when the handler returns. *)
Definition run_job (live : bool) (job : string) (s : Server) (sc : CServer) (now : Z) (r : ApiRequest) (p : option Principal) (userID : Z)
    (doc : Document) (st : OState) : OState :=
  let set_status x j := mkImportJob (ij_ID j) (ij_UserID j) x (ij_Total j) (ij_Processed j) (ij_Report j) (ij_Error j) (ij_CreatedAt j) (ij_UpdatedAt j) in
  let jobs := job_update now job (set_status importJobRunning) (ox_jobs st) in
  let '(x, rep) := run_import live s sc now r p userID doc (ox st) in
  let finish j := mkImportJob (ij_ID j) (ij_UserID j) importJobDone (ij_Total j) (ij_Total j) rep (ij_Error j) (ij_CreatedAt j) (ij_UpdatedAt j) in
  mkOState x (job_update now job finish jobs).

(** http/opml.go [Server.importOPMLFromBytes] The pages import this way. *)
Definition importOPMLFromBytes (s : Server) (sc : CServer) (now : Z) (r : ApiRequest) (p : option Principal) (userID : Z) (data : text) (st : CState)
    : CState * importReportDTO :=
  match ParseBytes data with
  | inl e => (st, report empty_report (mkImportError "" "" (err_text e)))
  | inr doc => run_import true s sc now r p userID doc st
  end.

(** http/import_jobs.go [Server.handleGetImportJob] *)
Definition handleGetImportJob (jobs_configured : bool) (jobID : string) (p : option Principal) (st : OState) : OState * oresponse :=
  match requireStore p RoleEditor jobs_configured "import jobs are not configured" with
  | inl e => (st, OPlain e)
  | inr me =>
      if String.eqb jobID "" then (st, OPlain (RError 400 "job id is required"))
      else match job_get (p_UserID me) jobID (ox_jobs st) with
           | None => (st, OPlain (RError 404 "import job not found"))
           | Some j => (st, OJob (toImportJobDTO j))
           end
  end.

(** http/opml.go [Server.handleExportFeeds] *)
Definition handleExportFeeds (sc : CServer) (r : ApiRequest) (p : option Principal) (st : OState) : OState * oresponse :=
  match requireRole p RoleEditor with
  | inl e => (st, OPlain e)
  | inr me =>
      if negb (String.eqb (q_method r) "GET") then (st, OPlain (RError 405 ""))
      else match exportOPMLForUser range date sc (webhooks (p_UserID me)) (cx_cat (ox st)) (p_UserID me) with
           | inl _ => (st, OPlain (RError 500 "internal server error"))
           | inr data => (st, OFile data)
           end
  end.
End Handlers.

(** * What an import does *)

(** ** The steps it takes on the catalogue *)

(** Feeds and what [u] reads only grow, and the catalogue stays as it should be. *)
Record grows (title_key : string → string) (u : Z) (c c' : Catalog) : Prop := {
  gr_wf : catalog_wf title_key c → catalog_wf title_key c';
  gr_feeds : ∀ id f, fd_feeds (ct_feeds c) !! id = Some f → fd_feeds (ct_feeds c') !! id = Some f;
  gr_subs : ∀ id, is_Some (fd_subs (ct_feeds c) !! (u, id)) → is_Some (fd_subs (ct_feeds c') !! (u, id));
}.

Lemma grows_refl title_key u c : grows title_key u c c.
Proof. by split. Qed.
Lemma grows_trans title_key u a b c : grows title_key u a b → grows title_key u b c → grows title_key u a c.
Proof. intros [] []. split; auto. Qed.

(** [u] reads a feed of this address. *)
Definition reads_url (c : Catalog) (u : Z) (P : string → Prop) : Prop :=
  ∃ id f, fd_feeds (ct_feeds c) !! id = Some f ∧ is_Some (fd_subs (ct_feeds c) !! (u, id)) ∧ P (f_url f).

Lemma reads_url_grows title_key u c c' P : grows title_key u c c' → reads_url c u P → reads_url c' u P.
Proof. intros G (id & f & Hf & Hs & Hp). exists id, f. split; [by apply (gr_feeds _ _ _ _ G)|]. split; [by apply (gr_subs _ _ _ _ G)|done]. Qed.

Definition sub_count (c : Catalog) (u : Z) : Z := Z.of_nat (size (base.filter (λ kw, kw.1.1 = u) (fd_subs (ct_feeds c)))).

(** How many rows of a table have a property, as one row is added. *)
Lemma size_filter_insert {K A} `{Countable K} (P : K * A → Prop) `{!∀ x, Decision (P x)} (m : gmap K A) i x :
  m !! i = None → P (i, x) → size (base.filter P (<[i := x]> m)) = S (size (base.filter P m)).
Proof.
  intros Hi Hp. rewrite map_filter_insert_True by done. rewrite map_size_insert_None; [done|].
  apply map_lookup_filter_None. by left.
Qed.

Section Steps.
Context (title_key : string → string) (u : Z).

(** Creating a category adds it and touches no feed. *)
Lemma CreateCategory_step c title color : catalog_wf title_key c →
  match CreateCategory title_key c title color with
  | (c', inl _) => c' = c
  | (c', inr _) => grows title_key u c c' ∧ size (ct_cats c') = S (size (ct_cats c)) ∧
      CountOwnedFeeds c' u = CountOwnedFeeds c u ∧ sub_count c' u = sub_count c u
  end.
Proof.
  intros W. pose proof (wf_CreateCategory title_key c title color W) as W'. unfold CreateCategory in *.
  destruct (title_taken _ _ _ _); [done|]. cbn [fst] in W'. split; [by split|]. split; [|done]. cbn [ct_cats].
  rewrite map_size_insert_None; [done|]. apply eq_None_not_Some. intros H. apply (cw_next_cat _ _ W) in H. lia.
Qed.

Lemma create_feed_tx_own now ft mode p c : catalog_wf title_key c → cp_SkipOwnerSubscription p = false →
  match create_feed_tx now u ft mode p c (tables c) with
  | (s, inr _) => ∃ w, fd_subs s.1 !! (u, ct_next c) = Some w ∧ ∀ id, id ≠ ct_next c → fd_subs s.1 !! (u, id) = fd_subs (ct_feeds c) !! (u, id)
  | (_, inl e) => err_is err_already_subscribed e = false
  end.
Proof.
  intros W Hskip. unfold create_feed_tx.
  destruct (url_taken _ _ _) eqn:U; [done|]. destruct (category_ok _ _) eqn:C; cbn [negb]; [|done]. cbv zeta.
  match goal with |- context [if cp_SkipOwnerSubscription p then (?s0, _) else _] => set (s1 := s0) end. rewrite Hskip.
  destruct (checkSubscriptionRefs _ _ _) eqn:R; cbn [negb]; [|done].
  set (s2 := (with_subs s1.1 (<[(u, ct_next c) := cp_WebhookID p]> (fd_subs s1.1)), s1.2)).
  assert (T2 : tables_wf (ct_hooks c) s2).
  { apply (tables_wf_put_sub (ct_hooks c) s1).
    - apply (tables_wf_put_feed (ct_hooks c) (tables c) (ct_next c) (new_feed_row now (ct_next c) u ft mode p) _ (cw_tables _ _ W)); [done|done|rewrite lookup_insert_eq; eauto|].
      intros k N. by rewrite lookup_insert_ne.
    - cbn. rewrite lookup_insert_eq. eauto.
    - done. }
  assert (H2 : fd_subs s2.1 !! (u, ct_next c) = Some (cp_WebhookID p) ∧ ∀ id, id ≠ ct_next c → fd_subs s2.1 !! (u, id) = fd_subs (ct_feeds c) !! (u, id)).
  { cbn. split; [by rewrite lookup_insert_eq|]. intros id N. rewrite lookup_insert_ne; [done|congruence]. }
  destruct (cp_CategoryID p) as [k|]; [|exists (cp_WebhookID p); exact H2].
  destruct (subscribeFollowersTx_spec (ct_hooks c) (ct_next c) k s2 T2) as (s3 & -> & _ & _ & O & K & _); [cbn; rewrite lookup_insert_eq; eauto|].
  destruct (K (u, ct_next c)) as [w Hw]; [rewrite (proj1 H2); eauto|]. exists w. split; [done|].
  intros id N. rewrite O by done. by apply H2.
Qed.

(** One more subscription of [u], the others as they were. *)
Lemma sub_count_add (c c' : Catalog) id w : fd_subs (ct_feeds c) !! (u, id) = None → fd_subs (ct_feeds c') !! (u, id) = Some w →
  (∀ i, i ≠ id → fd_subs (ct_feeds c') !! (u, i) = fd_subs (ct_feeds c) !! (u, i)) → sub_count c' u = sub_count c u + 1.
Proof.
  intros Hn Hs Ho. unfold sub_count.
  replace (base.filter (λ kw, kw.1.1 = u) (fd_subs (ct_feeds c'))) with (<[(u, id) := w]> (base.filter (λ kw, kw.1.1 = u) (fd_subs (ct_feeds c)))).
  - rewrite map_size_insert_None; [lia|]. apply map_lookup_filter_None. by left.
  - apply map_eq. intros [v i]. destruct (decide ((v, i) = (u, id))) as [[= -> ->]|N].
    + rewrite lookup_insert_eq. symmetry. by apply map_lookup_filter_Some.
    + rewrite lookup_insert_ne by congruence. destruct (decide (v = u)) as [->|Nv].
      * apply option_eq. intros x. rewrite !map_lookup_filter_Some. rewrite Ho by congruence. done.
      * rewrite !(proj2 (map_lookup_filter_None _ _ _)); [done| |]; right; intros x _; cbn; congruence.
Qed.

Lemma CreateFeed_step now c p : catalog_wf title_key c → cp_SkipOwnerSubscription p = false →
  match CreateFeed now c u p with
  | (c', inl e) => c' = c ∧ err_is err_already_subscribed e = false
  | (c', inr _) => grows title_key u c c' ∧ ct_cats c' = ct_cats c ∧ reads_url c' u (eq (cp_FeedURL p)) ∧
      CountOwnedFeeds c' u = CountOwnedFeeds c u + 1 ∧ sub_count c' u = sub_count c u + 1
  end.
Proof.
  intros W Hskip. pose proof (wf_CreateFeed title_key now c u p W) as W'. unfold CreateFeed in *.
  destruct (ValidateEntryRetentionDays _); cbn [negb] in *; [|done]. destruct (NormalizeStoreMode _) as [mode|]; [|done]. unfold withTx in *.
  set (ft := if String.eqb _ _ then _ else _) in *. destruct (create_feed_tx now u ft mode p c (tables c)) as [s [e|b]] eqn:E.
  { pose proof (create_feed_tx_own now ft mode p c W Hskip) as H. rewrite E in H. done. }
  cbn [fst] in W'. pose proof (create_feed_tx_own now ft mode p c W Hskip) as H. rewrite E in H. destruct H as (w & Hw & Ho).
  pose proof (create_feed_tx_spec title_key now u ft mode p c s b W E) as (_ & _ & _ & Hf).
  assert (Fresh : fd_feeds (ct_feeds c) !! ct_next c = None).
  { apply eq_None_not_Some. intros H. apply (cw_more _ _ W) in H. apply (cw_next _ _ W) in H. lia. }
  assert (Nosub : fd_subs (ct_feeds c) !! (u, ct_next c) = None).
  { apply eq_None_not_Some. intros [x H]. apply (tw_sub _ _ (cw_tables _ _ W)) in H as [[f H] _]. cbn in H. congruence. }
  split; [split|].
  - done.
  - intros id f H. cbn. rewrite Hf, lookup_insert_ne; [done|]. intros <-. congruence.
  - intros id H. cbn. destruct (decide (id = ct_next c)) as [->|N]; [rewrite Hw; eauto|by rewrite Ho].
  - split; [done|]. split; [|split].
    + exists (ct_next c). eexists. cbn. rewrite Hf, lookup_insert_eq. split; [done|]. split; [rewrite Hw; eauto|done].
    + unfold CountOwnedFeeds. cbn. rewrite Hf, size_filter_insert by done. lia.
    + by eapply sub_count_add.
Qed.

Lemma feed_by_url_Some c url id : feed_by_url (ct_feeds c) url = Some id → ∃ f, fd_feeds (ct_feeds c) !! id = Some f ∧ f_url f = url.
Proof.
  unfold feed_by_url. intros H. apply head_Some in H as [l H].
  assert (id ∈ (map_to_list (base.filter (λ kf, f_url kf.2 = url) (fd_feeds (ct_feeds c)))).*1) as Hin by (rewrite H; by left).
  apply list_elem_of_fmap in Hin as ([i f] & -> & Hin). apply elem_of_map_to_list in Hin. apply map_lookup_filter_Some in Hin as [Hf Hu]. by exists f.
Qed.

Lemma SubscribeByURL_step c url w : catalog_wf title_key c →
  match SubscribeByURL c u url w with
  | (c', inl e) => c' = c ∧ err_is err_duplicate_feed_url e = false ∧ (err_is err_already_subscribed e = true → reads_url c u (eq url))
  | (c', inr _) => grows title_key u c c' ∧ ct_cats c' = ct_cats c ∧ reads_url c' u (eq url) ∧
      CountOwnedFeeds c' u = CountOwnedFeeds c u ∧ sub_count c' u = sub_count c u + 1
  end.
Proof.
  intros W. pose proof (wf_SubscribeByURL title_key c u url w W) as W'. unfold SubscribeByURL in *.
  destruct (feed_by_url (ct_feeds c) url) as [id|] eqn:E; [|done]. apply feed_by_url_Some in E as (f & Hf & Hu).
  destruct (subscribeTx_cases (ct_hooks c) (tables c) u id w) as [(e & -> & He)|(Hn & _ & _ & Hs)].
  - split; [done|]. destruct He as [[-> H]|[-> _]]; [|done]. split; [done|]. intros _. exists id, f. by repeat split.
  - rewrite Hs in *. destruct (GetFeed _ _ _) as [e|v] eqn:G.
    + assert (e = ENotFound) as -> by (unfold GetFeed in G; destruct (feed_view _ _ _) as [v|]; [destruct (fv_subscribed v)|]; congruence). done.
    + cbn [fst] in W'. split; [split|].
      * done.
      * done.
      * intros i H. cbn. destruct (decide (i = id)) as [->|N]; [rewrite lookup_insert_eq; eauto|rewrite lookup_insert_ne; [done|congruence]].
      * split; [done|]. split; [|split; [done|]].
        -- exists id, f. cbn. rewrite lookup_insert_eq. eauto.
        -- eapply sub_count_add; [exact Hn| |].
           ++ cbn. by rewrite lookup_insert_eq.
           ++ intros i N. cbn. rewrite lookup_insert_ne; [done|congruence].
Qed.
End Steps.

(** ** Every feed of a file is accounted for *)

Section Accounts.
Context (lower : string → string) (Quote : string → string) (validateFeedURL : string → option string)
        (DetectFeedTypeFromURL : string → string) (title_key : string → string).
Context (now u : Z) (p : Principal) (sc : CServer) (byName : gmap string Z) (ambiguous : gset string).
Hypothesis subscriptions_on : sc_subscriptions sc = true.

(** Afterwards the importer reads a feed of this address, up to case. *)
Definition read_entry (c : Catalog) (e : FeedEntry) : Prop :=
  reads_url c u (λ a, lower (trim_space a) = lower (trim_space (fe_FeedURL e))).

Definition same_address (e e' : FeedEntry) : Prop := lower (trim_space (fe_FeedURL e)) = lower (trim_space (fe_FeedURL e')).

(** What the import asks the store for on behalf of an entry. *)
Definition entry_params (e : FeedEntry) (category : option Z) : CreateFeedParams :=
  (importFeedParams lower Quote DetectFeedTypeFromURL (trim_space (fe_FeedURL e)) category e byName ambiguous).1.

(** The store does not take the feed, for a reason other than that it is there. *)
Definition store_refuses (ci : Catalog) (q : CreateFeedParams) (x : err) : Prop :=
  err_is err_duplicate_feed_url x = false ∧ err_is err_already_subscribed x = false ∧
  ((CreateFeed now ci u q).2 = inl x ∨ (SubscribeByURL ci u (cp_FeedURL q) (cp_WebhookID q)).2 = inl x).

(** Why a feed is left out, other than that the importer reads it or that the file has it twice: each reason is one
    the code has for this entry, on the catalogue as the import, begun on [c0], had left it. *)
Definition refusal (c0 : Catalog) (e : FeedEntry) (reason : string) : Prop :=
  (trim_space (fe_FeedURL e) = "" ∧ reason = "feed_url is empty"%string) ∨
  validateFeedURL (trim_space (fe_FeedURL e)) = Some reason ∨
  (reason = interval_refusal (sc_quotas sc) ∧
   ∃ category, quota_PollInterval (sc_quotas sc) p (cp_IntervalMinutes (entry_params e category)) = false) ∨
  ∃ ci category x, grows title_key u c0 ci ∧ reason = err_text x ∧ store_refuses ci (entry_params e category) x.

(** The report names the feed with such a reason, or its category as one the store did not create. *)
Definition refused (c0 : Catalog) (errs : list importErrorDTO) (e : FeedEntry) : Prop :=
  (∃ reason, refusal c0 e reason ∧ mkImportError (trim_space (fe_FeedURL e)) (fe_Title e) reason ∈ errs) ∨
  (∃ ci x, grows title_key u c0 ci ∧ (CreateCategory title_key ci (trim_space (fe_CategoryTitle e)) "").2 = inl x ∧
     mkImportError "" (trim_space (fe_CategoryTitle e)) ("create category: " +:+ err_text x) ∈ errs).

(** A feed is read, or refused for a reason of its own, or reported as standing twice in the file when what the file has
    of the same address was refused. *)
Definition accounted (c0 : Catalog) (file : list FeedEntry) (c : Catalog) (errs : list importErrorDTO) (e : FeedEntry) : Prop :=
  read_entry c e ∨ refused c0 errs e ∨
  (mkImportError (trim_space (fe_FeedURL e)) (fe_Title e) "duplicate in import file" ∈ errs ∧
   ∃ e', e' ∈ file ∧ same_address e' e ∧ refused c0 errs e').

(** Every address seen is one of the file that is read or refused. *)
Definition seen_ok (c0 : Catalog) (file : list FeedEntry) (st : Importing) : Prop :=
  ∀ x, x ∈ im_seen st → ∃ e, e ∈ file ∧ lower (trim_space (fe_FeedURL e)) = x ∧
    (read_entry (im_cat st) e ∨ refused c0 (rp_Errors (im_report st)) e).

(** What holds between two feeds, since the import began on [c0]. *)
Record import_ok (c0 : Catalog) (st : Importing) : Prop := {
  io_wf : catalog_wf title_key (im_cat st);
  io_grows : grows title_key u c0 (im_cat st);
  io_known : ∀ x, x ∈ im_known st → reads_url (im_cat st) u (λ a, lower (trim_space a) = x);
  io_count : im_count st = CountOwnedFeeds (im_cat st) u;
  io_created : CountOwnedFeeds (im_cat st) u = CountOwnedFeeds c0 u + rp_FeedsCreated (im_report st);
  io_subs : sub_count (im_cat st) u = sub_count c0 u + rp_FeedsCreated (im_report st) + rp_FeedsSubscribed (im_report st);
  io_cats : Z.of_nat (size (ct_cats (im_cat st))) = Z.of_nat (size (ct_cats c0)) + rp_CategoriesCreated (im_report st);
  io_quota : rp_FeedsCreated (im_report st) = 0 ∨ MaxFeedsPerEditor (sc_quotas sc) <= 0 ∨ IsAdmin p = true ∨
    CountOwnedFeeds (im_cat st) u <= MaxFeedsPerEditor (sc_quotas sc);
}.

Definition advances (st st' : Importing) : Prop :=
  grows title_key u (im_cat st) (im_cat st') ∧ ∃ more, rp_Errors (im_report st') = rp_Errors (im_report st) ++ more.

Lemma advances_refl st : advances st st.
Proof. split; [apply grows_refl|]. exists []. by rewrite app_nil_r. Qed.
Lemma advances_trans a b c : advances a b → advances b c → advances a c.
Proof.
  intros [G1 [m1 E1]] [G2 [m2 E2]]. split; [by eapply grows_trans|]. exists (m1 ++ m2). by rewrite E2, E1, app_assoc.
Qed.

Lemma refused_advances c0 st st' e : advances st st' → refused c0 (rp_Errors (im_report st)) e → refused c0 (rp_Errors (im_report st')) e.
Proof.
  intros [_ [more ->]] [(reason & Hr & H)|(ci & x & G & C & H)]; [left; exists reason|right; exists ci, x].
  - split; [done|]. apply elem_of_app. by left.
  - split; [done|]. split; [done|]. apply elem_of_app. by left.
Qed.

Lemma read_advances st st' e : advances st st' → read_entry (im_cat st) e → read_entry (im_cat st') e.
Proof. intros [G _] H. by eapply reads_url_grows. Qed.

Lemma accounted_advances c0 file st st' e : advances st st' →
  accounted c0 file (im_cat st) (rp_Errors (im_report st)) e → accounted c0 file (im_cat st') (rp_Errors (im_report st')) e.
Proof.
  intros A [H|[H|(H & e' & Hin & Hs & Hr)]]; [left; by eapply read_advances|right; left; by eapply refused_advances|right; right].
  split; [destruct A as [_ [more ->]]; apply elem_of_app; by left|]. exists e'. split; [done|]. split; [done|]. by eapply refused_advances.
Qed.

Lemma seen_advances c0 file st st' : advances st st' → im_seen st' = im_seen st → seen_ok c0 file st → seen_ok c0 file st'.
Proof.
  intros A E H x Hx. rewrite E in Hx. destruct (H x Hx) as (e & Hin & Hn & [Hr|Hr]); exists e; (split; [done|]); (split; [done|]).
  - left. by eapply read_advances.
  - right. by eapply refused_advances.
Qed.

(** A change of the report that counts nothing new. *)
Lemma import_ok_report c0 st r : import_ok c0 st →
  rp_CategoriesCreated r = rp_CategoriesCreated (im_report st) → rp_FeedsCreated r = rp_FeedsCreated (im_report st) →
  rp_FeedsSubscribed r = rp_FeedsSubscribed (im_report st) → import_ok c0 (with_report st r).
Proof. intros [] E1 E2 E3. split; cbn; rewrite ?E1, ?E2, ?E3; done. Qed.

Lemma advances_report st r x : rp_Errors r = rp_Errors (im_report st) ++ x → advances st (with_report st r).
Proof. intros E. split; [apply grows_refl|]. by exists x. Qed.

(** An error more, whatever else of the counts. *)
Lemma import_ok_note c0 st x : import_ok c0 st → import_ok c0 (with_report st (report (im_report st) x)) ∧
  advances st (with_report st (report (im_report st) x)) ∧ x ∈ rp_Errors (report (im_report st) x).
Proof.
  intros H. split; [by apply import_ok_report|]. split; [by eapply advances_report|]. cbn. apply elem_of_app. right. by left.
Qed.

Lemma import_ok_skip c0 st x : import_ok c0 st → import_ok c0 (with_report st (report (feed_skipped (im_report st)) x)) ∧
  advances st (with_report st (report (feed_skipped (im_report st)) x)) ∧ x ∈ rp_Errors (report (feed_skipped (im_report st)) x).
Proof.
  intros H. split; [by apply import_ok_report|]. split; [by eapply advances_report|]. cbn. apply elem_of_app. right. by left.
Qed.

Lemma notes_spec c0 st (note : string → importErrorDTO) notes : import_ok c0 st → let r := foldl (λ r n, report r (note n)) (im_report st) notes in
  import_ok c0 (with_report st r) ∧ advances st (with_report st r).
Proof.
  intros H. cbv zeta.
  assert (∀ r, let r' := foldl (λ r n, report r (note n)) r notes in rp_CategoriesCreated r' = rp_CategoriesCreated r ∧
    rp_FeedsCreated r' = rp_FeedsCreated r ∧ rp_FeedsSubscribed r' = rp_FeedsSubscribed r ∧ ∃ m, rp_Errors r' = rp_Errors r ++ m) as Hn.
  { induction notes as [|n notes IH]; intros r; cbv zeta in *; cbn [foldl]; [do 3 (split; [done|]); exists []; by rewrite app_nil_r|].
    destruct (IH (report r (note n))) as (-> & -> & -> & m & ->). do 3 (split; [done|]). eexists. cbn. by rewrite <- app_assoc. }
  destruct (Hn (im_report st)) as (E1 & E2 & E3 & m & E4). split; [by apply import_ok_report|by eapply advances_report].
Qed.

Lemma import_category_spec c0 title st : import_ok c0 st →
  match import_category lower title_key true title st with
  | (st', r) => import_ok c0 st' ∧ advances st st' ∧
      im_seen st' = im_seen st ∧
      match r with
      | None => ∃ ci x, grows title_key u c0 ci ∧ (CreateCategory title_key ci (trim_space title) "").2 = inl x ∧
          mkImportError "" (trim_space title) ("create category: " +:+ err_text x) ∈ rp_Errors (im_report st')
      | Some _ => im_count st' = im_count st
      end
  end.
Proof.
  intros H. unfold import_category. destruct (String.eqb (trim_space title) ""); [split; [done|]; split; [apply advances_refl|done]|].
  destruct (im_cats st !! _); [split; [done|]; split; [apply advances_refl|done]|]. cbn [ask].
  pose proof (CreateCategory_step title_key u (im_cat st) (trim_space title) "" (io_wf _ _ H)) as S.
  destruct (CreateCategory _ _ _ _) as [c' [e|x]] eqn:Ec0.
  - subst c'. destruct (import_ok_note c0 st (mkImportError "" (trim_space title) ("create category: " +:+ err_text e)) H) as (A & B & C).
    split; [exact A|]. split; [exact B|]. split; [done|]. exists (im_cat st), e. split; [apply (io_grows _ _ H)|]. split; [by rewrite Ec0|exact C].
  - destruct S as (G & Ec & Eo & Es). destruct H as [W Gr K N Cr Su Ca Q]. split; [|split; [|done]].
    + split; cbn; rewrite ?Eo, ?Es, ?Ec; try done; [by apply (gr_wf _ _ _ _ G)|by eapply grows_trans|intros y Hy; eapply reads_url_grows; eauto|lia].
    + split; [exact G|]. exists []. by rewrite app_nil_r.
Qed.

Lemma import_feed_spec c0 e category st : import_ok c0 st → quota_Feeds (sc_quotas sc) p (im_count st) = true →
  let params := entry_params e category in
  cp_SkipOwnerSubscription params = false → cp_FeedURL params = trim_space (fe_FeedURL e) →
  let st' := import_feed lower true now u sc (trim_space (fe_FeedURL e)) (fe_Title e) params st in
  import_ok c0 st' ∧ advances st st' ∧ im_seen st' = im_seen st ∧
  (read_entry (im_cat st') e ∨ refused c0 (rp_Errors (im_report st')) e).
Proof.
  intros [W Gr K N Cr Su Ca Q] Hq params Hs Hu. cbv zeta. unfold import_feed, ask. set (url := trim_space (fe_FeedURL e)) in *.
  assert (trim_space url = url) as Htrim by apply trim_space_idemp.
  assert (Hstore : ∀ errs x, err_is err_duplicate_feed_url x = false → err_is err_already_subscribed x = false →
    ((CreateFeed now (im_cat st) u params).2 = inl x ∨ (SubscribeByURL (im_cat st) u (cp_FeedURL params) (cp_WebhookID params)).2 = inl x) →
    refused c0 (errs ++ [mkImportError url (fe_Title e) (err_text x)]) e).
  { intros errs x H1 H2 H3. left. exists (err_text x). split; [|apply elem_of_app; right; by left]. do 3 right. by exists (im_cat st), category, x. }
  clearbody params. assert (Hread : ∀ c', reads_url c' u (eq url) → reads_url c' u (λ a, lower (trim_space a) = lower url)).
  { intros c' (id & f & A & B & C). exists id, f. split; [done|]. split; [done|]. by rewrite <- C, Htrim. }
  assert (Hknown : ∀ c', reads_url c' u (eq url) → (∀ x, x ∈ im_known st → reads_url c' u (λ a, lower (trim_space a) = x)) →
    ∀ x, x ∈ {[lower url]} ∪ im_known st → reads_url c' u (λ a, lower (trim_space a) = x)).
  { intros c' Hr Ho x [->%elem_of_singleton|Hx]%elem_of_union; [by apply Hread|by apply Ho]. }
  pose proof (CreateFeed_step title_key u now (im_cat st) params W Hs) as F. destruct (CreateFeed now (im_cat st) u params) as [c1 [x|v]] eqn:EF.
  - destruct F as [-> Ha]. rewrite subscriptions_on, andb_true_r. destruct (err_is err_duplicate_feed_url x) eqn:D.
    + pose proof (SubscribeByURL_step title_key u (im_cat st) (cp_FeedURL params) (cp_WebhookID params) W) as S.
      destruct (SubscribeByURL _ _ _ _) as [c2 [y|v]] eqn:ES.
      * destruct S as (-> & Hd & Hsub). rewrite Hd. cbn [orb]. destruct (err_is err_already_subscribed y) eqn:A.
        -- rewrite Hu in *. split; [|split; [|split; [done|left; apply Hread; by apply Hsub]]].
           ++ split; cbn; try done. intros z Hz. eapply Hknown; eauto.
           ++ split; [apply grows_refl|]. by eexists.
        -- split; [by split|]. split; [split; [apply grows_refl|by eexists]|]. split; [done|]. right. cbn. apply Hstore; [done..|]. by right.
      * rewrite Hu in *. destruct S as (G & Ec & Hr & Eo & Es). split; [|split; [|split; [done|left; by apply Hread]]].
        -- split; cbn; rewrite ?Eo, ?Es, ?Ec; try done; [by apply (gr_wf _ _ _ _ G)|by eapply grows_trans| |lia].
           intros z Hz. eapply Hknown; eauto. intros y Hy. eapply reads_url_grows; eauto.
        -- split; [exact G|]. exists []. by rewrite app_nil_r.
    + rewrite Ha. cbn [orb]. split; [by split|]. split; [split; [apply grows_refl|by eexists]|]. split; [done|]. right. cbn. apply Hstore; [done..|]. by left.
  - destruct F as (G & Ec & Hr & Eo & Es). rewrite Hu in Hr. split; [|split; [|split; [done|left; by apply Hread]]].
    + split; cbn; rewrite ?Eo, ?Es, ?Ec; try done; [by apply (gr_wf _ _ _ _ G)|by eapply grows_trans| |lia|lia|lia|].
      * intros z Hz. eapply Hknown; eauto. intros y Hy. eapply reads_url_grows; eauto.
      * right. unfold quota_Feeds in Hq. apply orb_prop in Hq as [[Hq|Hq]%orb_prop|Hq]; [left; lia|by right; left|]. right; right. lia.
    + split; [exact G|]. exists []. by rewrite app_nil_r.
Qed.

Lemma importFeedParams_own url category e : let params := (importFeedParams lower Quote DetectFeedTypeFromURL url category e byName ambiguous).1 in
  cp_SkipOwnerSubscription params = false ∧ cp_FeedURL params = url.
Proof. unfold importFeedParams. by destruct (import_webhook _ _ _ _ _). Qed.

(** The report says that the importer may have no more feeds. *)
Definition quota_reached (c : Catalog) (errs : list importErrorDTO) : Prop :=
  quota_Feeds (sc_quotas sc) p (CountOwnedFeeds c u) = false ∧
  mkImportError "" "" ("feed limit reached (" +:+ format_int (MaxFeedsPerEditor (sc_quotas sc)) +:+ " per editor)") ∈ errs.

Lemma import_entry_spec c0 file e st : import_ok c0 st → seen_ok c0 file st → e ∈ file →
  match import_entry lower Quote validateFeedURL DetectFeedTypeFromURL title_key true now u p sc byName ambiguous e st with
  | (st', stop) => import_ok c0 st' ∧ advances st st' ∧
      if (stop : bool) then quota_reached (im_cat st') (rp_Errors (im_report st'))
      else accounted c0 file (im_cat st') (rp_Errors (im_report st')) e ∧ seen_ok c0 file st'
  end.
Proof.
  intros H Seen Hin. unfold import_entry. set (url := trim_space (fe_FeedURL e)).
  assert (Hrep : ∀ st' reason, refusal c0 e reason → mkImportError url (fe_Title e) reason ∈ rp_Errors (im_report st') →
    refused c0 (rp_Errors (im_report st')) e) by (intros st' reason Hr Hi; left; by exists reason).
  destruct (String.eqb_spec url "") as [E|E].
  { destruct (import_ok_note c0 st (mkImportError "" (fe_Title e) "feed_url is empty") H) as (A & B & C). split; [exact A|]. split; [exact B|].
    split; [|by eapply seen_advances]. right; left. eapply Hrep; [by left|]. rewrite E. exact C. }
  destruct (bool_decide (lower url ∈ im_seen st)) eqn:Hs0.
  { apply bool_decide_eq_true in Hs0. destruct (import_ok_skip c0 st (mkImportError url (fe_Title e) "duplicate in import file") H) as (A & B & C). split; [exact A|]. split; [exact B|].
    split; [|by eapply seen_advances]. destruct (Seen _ Hs0) as (e' & Hin' & Hn & [Hr|Hr]).
    - left. apply (read_advances _ _ _ B). unfold read_entry in *. by rewrite Hn in Hr.
    - right; right. split; [exact C|]. exists e'. split; [done|]. split; [done|]. by eapply refused_advances. }
  set (st1 := mkImporting (im_cat st) (im_report st) (im_known st) _ _ _).
  assert (import_ok c0 st1) as H1 by (destruct H; by split). assert (advances st st1) as A1 by (split; [apply grows_refl|]; exists []; by rewrite app_nil_r).
  assert (Hseen : ∀ st', advances st st' → im_seen st' = im_seen st1 →
    read_entry (im_cat st') e ∨ refused c0 (rp_Errors (im_report st')) e → accounted c0 file (im_cat st') (rp_Errors (im_report st')) e ∧ seen_ok c0 file st').
  { intros st' A E' Hr. split; [by destruct Hr; [left|right; left]|]. intros x Hx. rewrite E' in Hx. cbn [st1 im_seen] in Hx.
    apply elem_of_union in Hx as [->%elem_of_singleton|Hx]; [by exists e|]. destruct (Seen x Hx) as (e' & Hin' & Hn & [Hr'|Hr']); exists e'; (split; [done|]); (split; [done|]).
    - left. by eapply read_advances.
    - right. by eapply refused_advances. }
  assert (im_report st1 = im_report st) as Er by done. rewrite <- Er. clearbody st1. destruct (bool_decide (lower url ∈ im_known st1)) eqn:Hk.
  { destruct (import_ok_skip c0 st1 (mkImportError url (fe_Title e) "feed_url already exists") H1) as (A & B & _). split; [exact A|].
    assert (A' := advances_trans _ _ _ A1 B). split; [done|]. apply Hseen; [done|done|]. left. apply (io_known _ _ A). by apply bool_decide_eq_true in Hk. }
  destruct (validateFeedURL url) as [reason|] eqn:V.
  { destruct (import_ok_note c0 st1 (mkImportError url (fe_Title e) reason) H1) as (A & B & C). split; [exact A|].
    assert (A' := advances_trans _ _ _ A1 B). split; [done|]. apply Hseen; [done|done|]. right. eapply Hrep; [by right; left|exact C]. }
  pose proof (import_category_spec c0 (fe_CategoryTitle e) st1 H1) as S. destruct (import_category _ _ _ _ _) as [st2 [category|]].
  2:{ destruct S as (A & B & Es & C). split; [exact A|]. assert (A' := advances_trans _ _ _ A1 B). split; [done|]. apply Hseen; [done|done|]. by right; right. }
  destruct S as (H2 & A2 & Es2 & _). pose proof (importFeedParams_own url category e) as Hown.
  assert (Hparams : (importFeedParams lower Quote DetectFeedTypeFromURL url category e byName ambiguous).1 = entry_params e category) by done.
  destruct (importFeedParams _ _ _ _ _ _ _ _) as [params notes]. destruct Hown as [Hs Hu]. cbn [fst] in *. subst params.
  destruct (notes_spec c0 st2 (λ n, mkImportError url (fe_Title e) n) notes H2) as [H3 A3]. set (st3 := with_report st2 _) in *.
  assert (advances st st3) as A by (by do 2 (eapply advances_trans; [eassumption|])).
  assert (im_seen st3 = im_seen st1) as Es3 by exact Es2. clearbody st3.
  destruct (quota_Feeds (sc_quotas sc) p (im_count st3)) eqn:Q; cbn [negb].
  2:{ match goal with |- context [report (im_report st3) ?x] => destruct (import_ok_note c0 st3 x H3) as (B & C & D) end.
      split; [exact B|]. split; [by eapply advances_trans|]. split; [|exact D]. cbn. by rewrite <- (io_count _ _ H3). }
  destruct (quota_PollInterval _ _ _) eqn:QI; cbn [negb].
  2:{ destruct (import_ok_note c0 st3 (mkImportError url (fe_Title e) (interval_refusal (sc_quotas sc))) H3) as (B & C & D).
      assert (A' := advances_trans _ _ _ A C). split; [exact B|]. split; [done|]. apply Hseen; [done|done|]. right.
      eapply Hrep; [|exact D]. do 2 right; left. split; [done|]. by exists category. }
  destruct (import_feed_spec c0 e category st3 H3 Q Hs Hu) as (B & C & Es & D). assert (A' := advances_trans _ _ _ A C).
  split; [exact B|]. split; [done|]. apply Hseen; [done|exact (eq_trans Es Es3)|exact D].
Qed.

(** ** The loop *)

Notation loop := (import_loop lower Quote validateFeedURL DetectFeedTypeFromURL title_key true now u p sc byName ambiguous).

(** Why the rest of a file was not taken. *)
Definition stopped (n : nat) (c : Catalog) (errs : list importErrorDTO) (taken : list FeedEntry) : Prop :=
  length taken = n ∧ mkImportError "" "" "import limit exceeded" ∈ errs ∨ quota_reached c errs.

Lemma import_loop_spec c0 file n entries st : import_ok c0 st → seen_ok c0 file st → (∀ e, e ∈ entries → e ∈ file) →
  let st' := loop n entries st in
  import_ok c0 st' ∧ advances st st' ∧ ∃ taken rest, entries = taken ++ rest ∧ (length taken <= n)%nat ∧
    Forall (accounted c0 file (im_cat st') (rp_Errors (im_report st'))) taken ∧
    (rest = [] ∨ stopped n (im_cat st') (rp_Errors (im_report st')) taken).
Proof.
  revert n st. induction entries as [|e entries IH]; intros n st H Seen Hin; cbv zeta; cbn [import_loop].
  { split; [exact H|]. split; [apply advances_refl|]. exists [], []. split; [done|]. split; [cbn; lia|]. split; [constructor|by left]. }
  destruct n as [|n].
  { destruct (import_ok_note c0 st (mkImportError "" "" "import limit exceeded") H) as (A & B & C). split; [exact A|]. split; [exact B|].
    exists [], (e :: entries). split; [done|]. split; [done|]. split; [constructor|]. right. by left. }
  pose proof (import_entry_spec c0 file e st H Seen (Hin e (list_elem_of_here _ _))) as S.
  destruct (import_entry _ _ _ _ _ _ _ _ _ _ _ _ e st) as [st1 [|]]; destruct S as (H1 & A1 & S).
  { split; [exact H1|]. split; [exact A1|]. exists [], (e :: entries). split; [done|]. split; [cbn; lia|]. split; [constructor|]. right. by right. }
  destruct S as [S Seen1]. destruct (IH n st1 H1 Seen1 (λ x Hx, Hin x (list_elem_of_further _ _ _ Hx))) as (H2 & A2 & taken & rest & -> & Hn & Ht & Hr). split; [exact H2|]. split; [by eapply advances_trans|].
  exists (e :: taken), rest. split; [done|]. split; [cbn; lia|]. split; [constructor; [by eapply accounted_advances|done]|].
  destruct Hr as [Hr|[[Hl Hr]|Hr]]; [by left| |]; right; [left; split; [cbn; lia|done]|by right].
Qed.

(** The addresses known at the start are addresses the importer reads. *)
Lemma known_urls_read c x : x ∈ known_urls lower true c u → reads_url c u (λ a, lower (trim_space a) = x).
Proof.
  unfold known_urls, ListFeeds, counted_page, list_page. cbn [Z.leb Z.ltb]. intros H.
  apply elem_of_list_to_set in H. apply list_elem_of_fmap in H as (v & -> & H). apply elem_of_take in H as (i & H & _).
  apply list_elem_of_lookup_2 in H. apply list_elem_of_fmap in H as ([id v'] & -> & H). rewrite merge_sort_Permutation in H.
  apply elem_of_map_to_list in H. unfold view_rows in H. rewrite map_lookup_imap in H. apply bind_Some in H as (f & Hf & H).
  apply bind_Some in H as (v & Hv & H). destruct (fv_subscribed v) eqn:Hs; [|done]. injection H as <-. cbn [snd].
  unfold feed_view in Hv. rewrite Hf in Hv. cbn [mbind option_bind] in Hv. destruct (fd_poll (ct_feeds c) !! id) as [ps|]; [|done].
  cbn [mbind option_bind] in Hv. destruct (ct_more c !! id) as [m|]; [|done]. injection Hv as <-. cbn [fv_subscribed] in Hs. apply bool_decide_eq_true in Hs.
  exists id, f. by repeat split.
Qed.

Lemma import_start_ok c : catalog_wf title_key c → import_ok c (import_start lower true u c).
Proof. intros W. split; cbn; try done; try lia. apply known_urls_read. Qed.

(** An import of any file, of any number of feeds. *)
Lemma import_spec maxImportFeeds hooks doc c : catalog_wf title_key c →
  let names := webhook_names lower hooks in
  byName = names.1 → ambiguous = names.2 →
  let '(c', rep) := importOPML lower Quote validateFeedURL DetectFeedTypeFromURL title_key true now u p sc maxImportFeeds hooks doc c in
  (∃ st, im_cat st = c' ∧ im_report st = rep ∧ import_ok c st ∧ advances (import_start lower true u c) st) ∧
  ∃ taken rest, CollectFeeds Quote doc = taken ++ rest ∧ Forall (accounted c (CollectFeeds Quote doc) c' (rp_Errors rep)) taken ∧
    (rest = [] ∨ stopped (import_limit maxImportFeeds) c' (rp_Errors rep) taken).
Proof.
  intros W names E1 E2. unfold importOPML. fold names. rewrite (surjective_pairing names), <- E1, <- E2.
  destruct (import_loop_spec c (CollectFeeds Quote doc) (import_limit maxImportFeeds) (CollectFeeds Quote doc) (import_start lower true u c)
    (import_start_ok c W) (λ x Hx, False_ind _ (not_elem_of_empty x Hx)) (λ _ H, H)) as (A & B & taken & rest & C & _ & D & E). split; [by eexists|]. by exists taken, rest.
Qed.
End Accounts.

(** No feed of a file is dropped in silence.  Whatever document an editor imports, the feeds
    of the file fall into those taken and a rest.  Of each one taken, afterwards the
    importer reads a feed of its address (up to case), or the report names it with a reason that holds of it:
    its address is empty or not allowed, its interval is too short for the importer, or the store refused it with that
    error, which is not that the feed exists; or the report names its category as one the store refused; or it names the
    feed as a duplicate of one of the file that was refused so.  There is a rest only where the report says that the limit of an import
    or the editor's quota was reached, and then it is.  Feeds and what the importer reads only grow, and the
    catalogue stays well formed. *)
Lemma import_accounts_for_every_feed (lower Quote : string → string) (validateFeedURL : string → option string)
    (DetectFeedTypeFromURL title_key : string → string) (now u : Z) (p : Principal) (sc : CServer) (maxImportFeeds : Z)
    (hooks : list (Z * string)) (doc : Document) (c : Catalog)
    (W : catalog_wf title_key c) (Subs : sc_subscriptions sc = true) :
  let '(c', rep) := importOPML lower Quote validateFeedURL DetectFeedTypeFromURL title_key true now u p sc maxImportFeeds hooks doc c in
  catalog_wf title_key c' ∧ grows title_key u c c' ∧
  ∃ taken rest, CollectFeeds Quote doc = taken ++ rest ∧
    (let '(byName, ambiguous) := webhook_names lower hooks in
     Forall (accounted lower Quote validateFeedURL DetectFeedTypeFromURL title_key now u p sc byName ambiguous c (CollectFeeds Quote doc) c' (rp_Errors rep)) taken) ∧
    (rest = [] ∨ stopped u p sc (import_limit maxImportFeeds) c' (rp_Errors rep) taken).
Proof.
  pose proof (import_spec lower Quote validateFeedURL DetectFeedTypeFromURL title_key now u p sc _ _ Subs maxImportFeeds hooks doc c W eq_refl eq_refl) as S.
  rewrite (surjective_pairing (webhook_names lower hooks)).
  destruct (importOPML _ _ _ _ _ _ _ _ _ _ _ _ _ _) as [c' rep]. destruct S as [(st & <- & <- & Ok & [G _]) Hf].
  split; [by apply (io_wf _ _ _ _ _ _ _ Ok)|]. by split.
Qed.

(** The counts of an import are true, and it stays within the quota.  The feeds the
    importer owns grow by the number reported as created, what the importer reads by those created and
    subscribed, the categories by those reported as created; and an import that created
    anything leaves an editor at most at the quota. *)
Lemma import_counts_true (lower Quote : string → string) (validateFeedURL : string → option string)
    (DetectFeedTypeFromURL title_key : string → string) (now u : Z) (p : Principal) (sc : CServer) (maxImportFeeds : Z)
    (hooks : list (Z * string)) (doc : Document) (c : Catalog)
    (W : catalog_wf title_key c) (Subs : sc_subscriptions sc = true) :
  let '(c', rep) := importOPML lower Quote validateFeedURL DetectFeedTypeFromURL title_key true now u p sc maxImportFeeds hooks doc c in
  CountOwnedFeeds c' u = CountOwnedFeeds c u + rp_FeedsCreated rep ∧
  sub_count c' u = sub_count c u + rp_FeedsCreated rep + rp_FeedsSubscribed rep ∧
  Z.of_nat (size (ct_cats c')) = Z.of_nat (size (ct_cats c)) + rp_CategoriesCreated rep ∧
  (rp_FeedsCreated rep ≠ 0 → IsAdmin p = false → 0 < MaxFeedsPerEditor (sc_quotas sc) →
    CountOwnedFeeds c' u <= MaxFeedsPerEditor (sc_quotas sc)).
Proof.
  pose proof (import_spec lower Quote validateFeedURL DetectFeedTypeFromURL title_key now u p sc _ _ Subs maxImportFeeds hooks doc c W eq_refl eq_refl) as S.
  destruct (importOPML _ _ _ _ _ _ _ _ _ _ _ _ _ _) as [c' rep]. destruct S as [(st & <- & <- & Ok & _) _]. destruct Ok as [_ _ _ _ Cr Su Ca Q].
  split; [done|]. split; [done|]. split; [done|]. intros N A M. destruct Q as [Q|[Q|[Q|Q]]]; [done|lia|congruence|done].
Qed.

(** An import whose context has ended imports nothing. *)
Lemma cancelled_import_imports_nothing lower Quote validateFeedURL DetectFeedTypeFromURL title_key now u p sc maxImportFeeds hooks doc c :
  (importOPML lower Quote validateFeedURL DetectFeedTypeFromURL title_key false now u p sc maxImportFeeds hooks doc c).1 = c.
Proof.
  unfold importOPML. destruct (webhook_names _ _) as [byName ambiguous]. cbn [fst].
  assert (∀ entries n st, im_cat (import_loop lower Quote validateFeedURL DetectFeedTypeFromURL title_key false now u p sc byName ambiguous n entries st) = im_cat st) as H;
    [|by rewrite H].
  induction entries as [|e entries IH]; intros n st; [done|]. cbn [import_loop]. destruct n as [|n]; [done|].
  assert (im_cat (import_entry lower Quote validateFeedURL DetectFeedTypeFromURL title_key false now u p sc byName ambiguous e st).1 = im_cat st) as He.
  { unfold import_entry. destruct (String.eqb _ _); [done|]. destruct (bool_decide _); [done|]. set (st1 := mkImporting _ _ _ _ _ _).
    change (im_cat st) with (im_cat st1). clearbody st1. destruct (bool_decide _); [done|]. destruct (validateFeedURL _); [done|].
    assert (∀ t, im_cat (import_category lower title_key false t st1).1 = im_cat st1) as Hc.
    { intros t. unfold import_category. destruct (String.eqb _ _); [done|]. by destruct (im_cats st1 !! _). }
    specialize (Hc (fe_CategoryTitle e)). destruct (import_category _ _ _ _ _) as [st2 [k|]]; [|exact Hc]. cbn [fst] in Hc. rewrite <- Hc.
    destruct (importFeedParams _ _ _ _ _ _ _ _) as [params notes]. destruct (quota_Feeds _ _ _); [|done]. by destruct (quota_PollInterval _ _ _). }
  destruct (import_entry _ _ _ _ _ _ _ _ _ _ _ _ e st) as [st1 [|]]; cbn [fst] in He; [done|]. by rewrite IH.
Qed.

(** ** Moving to another instance *)

Lemma restored_length cat f : (length (restored cat f) <= 1)%nat.
Proof. unfold restored. destruct (String.eqb _ _); cbn; lia. Qed.

Lemma bind_length_le {A B} (g : A → list B) l : (∀ x, (length (g x) <= 1)%nat) → (length (l ≫= g) <= length l)%nat.
Proof. intros H. induction l as [|x l IH]; [done|]. rewrite bind_cons, length_app. cbn. specialize (H x). lia. Qed.

(** What is collected from an exported file: each feed with an address, at its place. *)
Lemma export_collects range Quote date inp : (∀ m, range m ≡ₚ map_to_list m) → Forall (λ f, settings_ok (ef_Settings f)) (in_Feeds inp) →
  in_Feeds inp ≠ [] → ∃ doc, ParseBytes (Generate range date inp) = inr doc ∧ (length (CollectFeeds Quote doc) <= length (in_Feeds inp))%nat ∧
    ∀ f e, f ∈ in_Feeds inp → e ∈ restored (folder_title (in_Categories inp) (ef_CategoryID f)) f → e ∈ CollectFeeds Quote doc.
Proof.
  intros Hr Hok Hne. destruct (export_parses range date inp) as (version & title & ->). pose proof (export_outlines_none range Hr inp) as Hn.
  pose proof (export_outlines_perm range Hr Quote inp Hok) as Hp. destruct (export_outlines range inp) as [|o os] eqn:E; [by exfalso; apply Hne, Hn|].
  eexists. split; [done|]. unfold CollectFeeds. cbn [d_Body]. split.
  - rewrite Hp. apply bind_length_le. intros f. apply restored_length.
  - intros f e Hf He. rewrite Hp. apply list_elem_of_bind. by exists f.
Qed.

(** C23: A backup restores.  Let a user with feeds export them, and let somebody without a quota import the
    file on an instance with any catalogue, with room in an import for all of them.  The file
    is accepted, and of every feed exported that has an address, afterwards the importer reads one of that
    address (up to case), or the report names it with a reason that holds of it: the check of addresses refuses this
    address with this text, the interval is below what the importer may set, or the store, asked for this feed on the
    catalogue as the import had left it, answered with this error, which is not that the feed exists; or it names the
    category of the feed with the error the store had for it; or it calls the feed a duplicate, and then a feed of the
    file with the same address was refused for such a reason. *)
Theorem backup_restores (lower Quote : string → string) (validateFeedURL : string → option string)
    (DetectFeedTypeFromURL title_key : string → string) (range : gmap Z (list ExportFeed) → list (Z * list ExportFeed)) (date : string)
    (sc1 sc : CServer) (c1 c : Catalog) (u1 u now : Z) (p : Principal) (maxImportFeeds : Z) (hooks1 hooks : list (Z * string))
    (inp : ExportInput) (data : text)
    (Range : ∀ m, range m ≡ₚ map_to_list m)
    (Inp : export_input c1 u1 hooks1 = inr inp) (Data : exportOPMLForUser range date sc1 hooks1 c1 u1 = inr data)
    (Feeds : in_Feeds inp ≠ []) (Set_ : Forall (λ f, settings_ok (ef_Settings f)) (in_Feeds inp))
    (W : catalog_wf title_key c) (Subs : sc_subscriptions sc = true)
    (Free : MaxFeedsPerEditor (sc_quotas sc) <= 0 ∨ IsAdmin p = true)
    (Room : (length (in_Feeds inp) <= import_limit maxImportFeeds)%nat) :
  ∃ doc, ParseBytes data = inr doc ∧
    let '(c', rep) := importOPML lower Quote validateFeedURL DetectFeedTypeFromURL title_key true now u p sc maxImportFeeds hooks doc c in
    let '(byName, ambiguous) := webhook_names lower hooks in
    ∀ f e, f ∈ in_Feeds inp → e ∈ restored (folder_title (in_Categories inp) (ef_CategoryID f)) f →
      accounted lower Quote validateFeedURL DetectFeedTypeFromURL title_key now u p sc byName ambiguous c (CollectFeeds Quote doc) c' (rp_Errors rep) e.
Proof.
  unfold exportOPMLForUser in Data. destruct (negb _); [done|]. rewrite Inp in Data. injection Data as <-.
  destruct (export_collects range Quote date inp Range Set_ Feeds) as (doc & Hd & Hlen & Hin). exists doc. split; [exact Hd|].
  pose proof (import_spec lower Quote validateFeedURL DetectFeedTypeFromURL title_key now u p sc _ _ Subs maxImportFeeds hooks doc c W eq_refl eq_refl) as S.
  rewrite (surjective_pairing (webhook_names lower hooks)).
  destruct (importOPML _ _ _ _ _ _ _ _ _ _ _ _ _ _) as [c' rep]. destruct S as [_ (taken & rest & Hc & Ht & Hr)].
  intros f e Hf He. specialize (Hin f e Hf He). rewrite Hc in Hin. apply elem_of_app in Hin as [Hin|Hin]; [by eapply Forall_forall in Ht|].
  destruct Hr as [->|[[Hl _]|[Hq _]]]; [by apply elem_of_nil in Hin| |].
  - rewrite Hc, length_app in Hlen. destruct rest; [by apply elem_of_nil in Hin|]. cbn in Hlen. lia.
  - unfold quota_Feeds in Hq. apply orb_false_elim in Hq as [[Hq1 Hq2]%orb_false_elim _]. destruct Free; [lia|congruence].
Qed.

(** ** Witnesses *)

Definition wit_import (doc : Document) : Catalog * importReportDTO :=
  importOPML id id (λ _, None) (λ _, "rss"%string) id true 60 2 (mkPrincipal 2 "editor" "ed" "") wit_cserver 0 [(7, "alerts"%string)] doc wit_catalog.
Definition wit_document : Document :=
  mkDocument "2.0" "t" [folder_outline "Science" [feed_outline (mkExportFeed "A" "https://a.example/feed" None no_settings);
    feed_outline (mkExportFeed "B" "https://b.example/feed" None no_settings); feed_outline (mkExportFeed "B2" "https://b.example/feed" None no_settings)]].

Lemma wit_import_report : (wit_import wit_document).2 = mkReport 1 1 1 1 [mkImportError "https://b.example/feed" "B2" "duplicate in import file"].
Proof. by vm_compute. Qed.

Theorem import_accounts_for_every_feed_witness :
  let '(c', rep) := wit_import wit_document in
  Forall (accounted id id (λ _, None) (λ _, "rss"%string) id 60 2 (mkPrincipal 2 "editor" "ed" "") wit_cserver {["alerts"%string := 7]} ∅ wit_catalog
    (CollectFeeds id wit_document) c' (rp_Errors rep)) (CollectFeeds id wit_document) ∧
  rep = mkReport 1 1 1 1 [mkImportError "https://b.example/feed" "B2" "duplicate in import file"].
Proof.
  pose proof wit_import_report as Hrep.
  pose proof (import_accounts_for_every_feed id id (λ _, None) (λ _, "rss"%string) id 60 2 (mkPrincipal 2 "editor" "ed" "") wit_cserver 0
    [(7, "alerts"%string)] wit_document wit_catalog wit_catalog_wf eq_refl) as H. fold (wit_import wit_document) in H.
  destruct (wit_import wit_document) as [c' rep]. cbn [snd] in Hrep. split; [|exact Hrep]. destruct H as (_ & _ & taken & rest & E & Ht & Hr).
  destruct Hr as [->|[[_ Hr]|[_ Hr]]]; [rewrite app_nil_r in E; subst taken; exact Ht|exfalso..]; rewrite Hrep in Hr; by apply list_elem_of_singleton in Hr.
Defined.

Theorem import_counts_true_witness :
  let '(c', rep) := wit_import wit_document in
  CountOwnedFeeds wit_catalog 2 = 0 ∧ CountOwnedFeeds c' 2 = 1 ∧ sub_count c' 2 = 2 ∧ rp_CategoriesCreated rep = 1.
Proof.
  assert (CountOwnedFeeds wit_catalog 2 = 0 ∧ sub_count wit_catalog 2 = 0) as [H4 H5] by (by vm_compute). pose proof wit_import_report as Hrep.
  pose proof (import_counts_true id id (λ _, None) (λ _, "rss"%string) id 60 2 (mkPrincipal 2 "editor" "ed" "") wit_cserver 0
    [(7, "alerts"%string)] wit_document wit_catalog wit_catalog_wf eq_refl) as H. fold (wit_import wit_document) in H.
  destruct (wit_import wit_document) as [c' rep]. cbn [snd] in Hrep. destruct H as (A & B & _). subst rep. cbn [rp_FeedsCreated rp_FeedsSubscribed rp_CategoriesCreated] in *.
  rewrite H4 in A. rewrite H5 in B. rewrite H4, A, B. repeat split.
Defined.

(** Everything the first user reads is exported and imported by the second. *)
Definition wit_exported : ExportInput := match export_input wit_catalog 1 [] with inr i => i | inl _ => mkExportInput "" [] [] end.

Theorem backup_restores_witness :
  ∃ doc, ParseBytes (Generate map_to_list "" wit_exported) = inr doc ∧
    ∀ e, e ∈ restored "News" (mkExportFeed "A feed" "https://a.example/feed" (Some 1) (mkSettings "rss" 60 false false false "full" false None "" "" "" "" "" "")) →
      accounted id id (λ _, None) (λ _, "rss"%string) id 60 2 (mkPrincipal 2 "editor" "ed" "") wit_cserver {["alerts"%string := 7]} ∅ wit_catalog
        (CollectFeeds id doc) (wit_import doc).1 (rp_Errors (wit_import doc).2) e.
Proof.
  assert (export_input wit_catalog 1 [] = inr wit_exported) as Hi by (by vm_compute).
  assert (in_Feeds wit_exported = [mkExportFeed "A feed" "https://a.example/feed" (Some 1) (mkSettings "rss" 60 false false false "full" false None "" "" "" "" "" "")]) as Hf
    by (by vm_compute).
  assert (folder_title (in_Categories wit_exported) (Some 1) = "News"%string) as Ht by (by vm_compute).
  assert (exportOPMLForUser map_to_list "" wit_cserver [] wit_catalog 1 = inr (Generate map_to_list "" wit_exported)) as Hd
    by (unfold exportOPMLForUser; rewrite Hi; done).
  destruct (backup_restores id id (λ _, None) (λ _, "rss"%string) id map_to_list "" wit_cserver wit_cserver wit_catalog wit_catalog 1 2 60
    (mkPrincipal 2 "editor" "ed" "") 0 [] [(7, "alerts"%string)] wit_exported (Generate map_to_list "" wit_exported)
    (λ m, reflexivity _) Hi Hd) as (doc & Hp & H).
  - rewrite Hf. done.
  - rewrite Hf. repeat constructor; vm_compute; try done.
  - apply wit_catalog_wf.
  - done.
  - by left.
  - rewrite Hf. apply Nat.leb_le. by vm_compute.
  - exists doc. split; [exact Hp|]. fold (wit_import doc) in H.
    assert (webhook_names id [(7, "alerts"%string)] = ({["alerts"%string := 7]}, ∅)) as En by (vm_compute; reflexivity). rewrite En in H.
    destruct (wit_import doc) as [c' rep]. intros e He. cbn [fst snd]. eapply H.
    + rewrite Hf. by left.
    + cbn [ef_CategoryID]. rewrite Ht. exact He.
Defined.
