(* ===== verification/FilterApi.v ===== *)
(** The JSON API of filters ([http/filters.go]): its handlers, against the interface of the
    filter store, with the cache of enabled filters of the server's refresher that every write invalidates
    ([service/filter_cache.go]) and the filter engine.  The interface is implemented by the
    tables of [FilterStore.v] with any statement failing. *)

From S2P Require Import Prelude GoStrings Types FeedStore EntryStore Tables FilterStore FilterStoreSpec.
From S2P Require Import TtlCache UserStore ApiAuth.
From S2P Require FilterEngine ClientIP.

(** * The store the handlers see *)

(** storage/entities.go:404-430 [FilterStore and FilterMatchStore] What the handlers call. *)
Class FilterStorage (S : Type) := {
  st_ListFilters : S → Z → Z → Z → S * (err + list StoredFilter * Z);
  st_CreateFilter : S → Z → CreateFilterParams → S * (err + StoredFilter);
  st_GetFilter : S → Z → Z → S * (err + StoredFilter);
  st_UpdateFilter : S → Z → UpdateFilterParams → S * (err + StoredFilter);
  st_DeleteFilter : S → Z → Z → S * option err;
  st_ListFilterMatches : S → Z → Z → Z → S * (err + list (Z * MatchRow * Entry) * Z);
  st_ListEnabledFilters : S → Z → Z → S * (err + list StoredFilter);
}.

(** The tables, and which of the next statements fail. *)
Record FaultyDb := mkFaulty { fy_db : FilterDb; fy_fails : list bool }.

Definition sql_fault : err := EMsg "connection lost".

(** One call: a failing statement writes nothing. *)
Definition fcall {A} (s : FaultyDb) (what : string) (f : FilterDb → FilterDb * (err + A)) : FaultyDb * (err + A) :=
  let rest := tail (fy_fails s) in
  if default false (head (fy_fails s)) then (mkFaulty (fy_db s) rest, inl (EWrap what sql_fault))
  else let '(db, r) := f (fy_db s) in (mkFaulty db rest, r).

Section Postgres.
Context (fdb : FeedDb) (edb : EntryDb).

#[export] Instance postgres : FilterStorage FaultyDb := {
  st_ListFilters s u l o := fcall s "list filters" (λ db, (db, inr (ListFilters db u l o)));
  st_CreateFilter s now p := fcall s "create filter" (λ db, CreateFilter now fdb db p);
  st_GetFilter s u id := fcall s "get filter" (λ db, (db, GetFilter db u id));
  st_UpdateFilter s now p := fcall s "update filter" (λ db, UpdateFilter now fdb db p);
  st_DeleteFilter s u id :=
    match fcall s "delete filter" (λ db, let '(db, e) := DeleteFilter db u id in
                                         (db, match e with Some e => inl e | None => inr tt end)) with
    | (s, inl e) => (s, Some e)
    | (s, inr _) => (s, None)
    end;
  st_ListFilterMatches s id l o := fcall s "list filter matches" (λ db, (db, inr (ListFilterMatches edb db id l o)));
  st_ListEnabledFilters s u l := fcall s "list enabled filters" (λ db, (db, inr (ListEnabledFilters db u l)));
}.

End Postgres.

(** * Requests and answers *)

(** [filterRuleWriteRequest] of http/filters.go: *)
Abbreviation filterRuleWriteRequest := CreateFilterRuleParams.

(** http/filters.go [filterWriteRequest] The request types of rules, scope items and actions have
    the fields of the store's parameters. *)
Record filterWriteRequest := mkFilterWrite {
  fw_Name : string; fw_Enabled : option bool; fw_MatchAnyRule : option bool; fw_Inverse : option bool;
  fw_OrderID : option Z; fw_FeedScope : option string; fw_Rules : list CreateFilterRuleParams;
  fw_ScopeItems : list CreateFilterScopeItemParams; fw_Actions : list CreateFilterActionParams;
}.

(** http/filters.go [filterRuleDTO] *)
Record filterRuleDTO := mkRuleDTO { dr_ID : Z; dr_Field : string; dr_Pattern : string; dr_Negate : bool; dr_Op : string; dr_Priority : Z }.
(** http/filters.go [filterScopeItemDTO] *)
Record filterScopeItemDTO := mkScopeDTO { ds_ID : Z; ds_FeedID : option Z; ds_CategoryID : option Z }.
(** http/filters.go [filterActionDTO] *)
Record filterActionDTO := mkActionDTO { da_ID : Z; da_ActionType : string; da_ActionParam : string; da_Priority : Z }.

(** http/filters.go [filterDTO] *)
Record filterDTO := mkFilterDTO {
  d_ID : Z; d_UserID : Z; d_Name : string; d_Enabled : bool; d_MatchAnyRule : bool; d_Inverse : bool; d_OrderID : Z;
  d_FeedScope : string; d_MatchCount : Z; d_Rules : list filterRuleDTO; d_ScopeItems : list filterScopeItemDTO;
  d_Actions : list filterActionDTO;
}.

(** http/filters.go [filterTestEntry] *)
Record filterTestEntry := mkTestEntry {
  te_Title : string; te_Content : string; te_Author : option string; te_URL : string; te_FeedID : option Z;
}.
(** http/filters.go [filterTestRequest] *)
Record filterTestRequest := mkTestRequest {
  tr_Text : option string; tr_Entry : option filterTestEntry; tr_Limit : option Z; tr_FeedID : option Z;
}.
(** http/filters.go [filterTestMatchRow] *)
Record filterTestMatchRow := mkTestRow { tm_EntryID : Z; tm_Title : string; tm_Match : bool; tm_Details : option FilterEngine.MatchResult }.
(** http/filters.go [filterTestResponse] *)
Record filterTestResponse := mkTestResponse {
  tp_Match : bool; tp_Details : option FilterEngine.MatchResult; tp_Results : list filterTestMatchRow;
}.

(** http/filters.go [filterMatchRowDTO] *)
Record filterMatchRowDTO := mkMatchDTO {
  dm_ID : Z; dm_FilterID : Z; dm_EntryID : Z; dm_MatchedAt : Z; dm_Details : option string; dm_Entry : Entry;
}.

Inductive fresponse :=
| FPlain (r : response)
| FFilter (status : Z) (f : filterDTO)
| FFilters (fs : list filterDTO) (total : Z)
| FTest (r : filterTestResponse) (total : Z)
| FMatches (rows : list filterMatchRowDTO) (total : Z).

Definition refused (status : Z) (msg : string) : fresponse := FPlain (RError status msg).

(** http/filters.go [toFilterDTO] *)
Definition toFilterDTO (f : StoredFilter) : filterDTO :=
  mkFilterDTO (sf_ID f) (ft_UserID (sf_row f)) (ft_Name (sf_row f)) (ft_Enabled (sf_row f)) (ft_MatchAnyRule (sf_row f))
    (ft_Inverse (sf_row f)) (ft_OrderID (sf_row f)) (ft_FeedScope (sf_row f)) (ft_MatchCount (sf_row f))
    ((λ r, mkRuleDTO r.1 (rl_Field r.2) (rl_Pattern r.2) (rl_Negate r.2) (rl_Op r.2) (rl_Priority r.2)) <$> sf_Rules f)
    ((λ i, mkScopeDTO i.1 (si_FeedID i.2) (si_CategoryID i.2)) <$> sf_ScopeItems f)
    ((λ a, mkActionDTO a.1 (ac_ActionType a.2) (ac_ActionParam a.2) (ac_Priority a.2)) <$> sf_Actions f).

(** http/filters.go [filterWriteToParams] *)
Definition filterWriteToParams (userID : Z) (req : filterWriteRequest) : string + CreateFilterParams :=
  let name := trim_space (fw_Name req) in
  if String.eqb name "" then inl "name is required"%string
  else inr (mkCreateFilter userID name (default true (fw_Enabled req)) (default false (fw_MatchAnyRule req))
              (default false (fw_Inverse req)) (default 0 (fw_OrderID req)) (default "all"%string (fw_FeedScope req))
              (fw_Rules req) (fw_ScopeItems req) (fw_Actions req)).

(** http/filters.go [filterWriteToUpdateParams] *)
Definition filterWriteToUpdateParams (userID id : Z) (req : filterWriteRequest) : string + UpdateFilterParams :=
  match filterWriteToParams userID req with
  | inl e => inl e
  | inr p => inr (mkUpdateFilter id p)
  end.

(** What [ValidateRules] and the engine see of a rule that is not stored yet. *)
Definition rule_param (r : CreateFilterRuleParams) : FilterRule :=
  mkFilterRule 0 (cr_Field r) (cr_Pattern r) (cr_Negate r) (cr_Op r).

(** * Handlers *)

(** What of the server the handlers ask for: which stores are configured. *)
Record FServer := mkFServer { sv_filters : bool; sv_filterMatches : bool; sv_entries : bool; sv_refresher : bool }.

Section Api.
Context {regex : Type} (re_compile : string → option regex) (re_match : regex → string → bool).
Context {S : Type} `{!FilterStorage S}.
(** The entry listing of a user, the batched query matcher, decoding, and error texts. *)
Context (listEntries : S → Z → Z → err + list Entry)
        (queryMatcher : option (list FilterEngine.QueryMatchItem → list string → option (list (list bool))))
        (decode_filter : string → string + filterWriteRequest) (decode_test : string → string + filterTestRequest)
        (filter_err_text : FilterEngine.filter_err → string).

Record FState := mkFState {
  fx_api : Api; fx_store : S; fx_cache : @ttlCache (list StoredFilter); fx_engine : option (FilterEngine.Engine regex);
}.

Definition with_store (st : FState) (s : S) : FState := mkFState (fx_api st) s (fx_cache st) (fx_engine st).
Definition with_engine (st : FState) (e : FilterEngine.Engine regex) : FState :=
  mkFState (fx_api st) (fx_store st) (fx_cache st) (Some e).

(** service/filter_cache.go [FeedRefresher.InvalidateFilterCache] *)
Definition InvalidateFilterCache (sv : FServer) (userID : Z) (st : FState) : FState :=
  if sv_refresher sv then mkFState (fx_api st) (fx_store st) (ttl_invalidate (fx_cache st) userID) (fx_engine st) else st.

Definition enabledFilterCacheTTL : Z := 5 * second.

(** service/filter_cache.go [FeedRefresher.listEnabledFiltersCached] With the cache of the state, which for requests is that of
    the refresher the server makes; the worker's refresher asks with its own. *)
Definition listEnabledFiltersCached (now userID : Z) (st : FState) : FState * (err + list StoredFilter) :=
  match ttl_get (fx_cache st) now userID enabledFilterCacheTTL with
  | (c, Some fs) => (mkFState (fx_api st) (fx_store st) c (fx_engine st), inr fs)
  | (c, None) =>
      match st_ListEnabledFilters (fx_store st) userID 1000 with
      | (s, inl e) => (mkFState (fx_api st) s c (fx_engine st), inl e)
      | (s, inr fs) => (mkFState (fx_api st) s (ttl_put c now userID fs) (fx_engine st), inr fs)
      end
  end.

Definition audit (s : Server) (r : ApiRequest) (p : option Principal) (action : string) (id : Z) (st : FState) : FState :=
  mkFState (Record_ s r p action "filter" id (fx_api st)) (fx_store st) (fx_cache st) (fx_engine st).

Definition fhandler : Type := Server → FServer → Z → ApiRequest → option Principal → FState → FState * fresponse.

(** http/filters.go [validateRuleLimits] *)
Definition validateRuleLimits (rules : list CreateFilterRuleParams) (eng : option (FilterEngine.Engine regex)) : option string :=
  match eng with
  | None => None
  | Some e => filter_err_text <$> FilterEngine.ValidateRules re_compile e (rule_param <$> rules)
  end.

(** http/filters.go [Server.handleListFilters] *)
Definition handleListFilters (limit offset : string) : fhandler := λ s sv now r p st,
  match requireStore p RoleEditor (sv_filters sv) "filter storage is not configured" with
  | inl e => (st, FPlain e)
  | inr me =>
      match parseLimitOffset limit offset 10000 with
      | inl e => (st, refused 400 e)
      | inr (l, o) =>
          match st_ListFilters (fx_store st) (p_UserID me) l o with
          | (d, inl _) => (with_store st d, refused 500 "internal server error")
          | (d, inr (fs, total)) => (with_store st d, FFilters (toFilterDTO <$> fs) total)
          end
      end
  end.

(** http/filters.go [Server.handleCreateFilter] *)
Definition handleCreateFilter : fhandler := λ s sv now r p st,
  match requireStore p RoleEditor (sv_filters sv) "filter storage is not configured" with
  | inl e => (st, FPlain e)
  | inr me =>
      match decode_filter (q_body r) with
      | inl e => (st, refused 400 e)
      | inr req =>
          match filterWriteToParams (p_UserID me) req with
          | inl e => (st, refused 400 e)
          | inr params =>
              match validateRuleLimits (fw_Rules req) (fx_engine st) with
              | Some e => (st, refused 400 e)
              | None =>
                  match st_CreateFilter (fx_store st) now params with
                  | (d, inl _) => (with_store st d, refused 500 "internal server error")
                  | (d, inr f) =>
                      let st := InvalidateFilterCache sv (p_UserID me) (with_store st d) in
                      (audit s r p "filter.create" (sf_ID f) st, FFilter 201 (toFilterDTO f))
                  end
              end
          end
      end
  end.

(** http/filters.go [Server.handleGetFilter] *)
Definition handleGetFilter : fhandler := λ s sv now r p st,
  match requireStoreID r p RoleEditor (sv_filters sv) "filter storage is not configured" with
  | inl e => (st, FPlain e)
  | inr (me, id) =>
      match st_GetFilter (fx_store st) (p_UserID me) id with
      | (d, inl e) => (with_store st d, FPlain (storeError e "filter not found"))
      | (d, inr f) => (with_store st d, FFilter 200 (toFilterDTO f))
      end
  end.

(** http/filters.go [Server.handleUpdateFilter] *)
Definition handleUpdateFilter : fhandler := λ s sv now r p st,
  match requireStoreID r p RoleEditor (sv_filters sv) "filter storage is not configured" with
  | inl e => (st, FPlain e)
  | inr (me, id) =>
      match decode_filter (q_body r) with
      | inl e => (st, refused 400 e)
      | inr req =>
          match filterWriteToUpdateParams (p_UserID me) id req with
          | inl e => (st, refused 400 e)
          | inr params =>
              match validateRuleLimits (fw_Rules req) (fx_engine st) with
              | Some e => (st, refused 400 e)
              | None =>
                  match st_UpdateFilter (fx_store st) now params with
                  | (d, inl e) => (with_store st d, FPlain (storeError e "filter not found"))
                  | (d, inr f) =>
                      let st := InvalidateFilterCache sv (p_UserID me) (with_store st d) in
                      (audit s r p "filter.update" (sf_ID f) st, FFilter 200 (toFilterDTO f))
                  end
              end
          end
      end
  end.

(** http/filters.go [Server.handleDeleteFilter] *)
Definition handleDeleteFilter : fhandler := λ s sv now r p st,
  match requireStoreID r p RoleEditor (sv_filters sv) "filter storage is not configured" with
  | inl e => (st, FPlain e)
  | inr (me, id) =>
      match st_DeleteFilter (fx_store st) (p_UserID me) id with
      | (d, Some e) => (with_store st d, FPlain (storeError e "filter not found"))
      | (d, None) =>
          let st := InvalidateFilterCache sv (p_UserID me) (with_store st d) in
          (audit s r p "filter.delete" id st, FPlain RDeleted)
      end
  end.

(** http/filters.go:249-265 [Server.handleTestFilter, the limit] From the body, else from the query. *)
Definition test_limit (req : filterTestRequest) (query : string) : Z :=
  match tr_Limit req with
  | Some n => if 0 <? n then n else default 0 (n ← parse_int64 (trim_space query); if 0 <? n then Some n else None)
  | None => default 0 (n ← parse_int64 (trim_space query); if 0 <? n then Some n else None)
  end.

(** http/filters.go:286-308 [Server.handleTestFilter, one entry after the other] *)
Fixpoint test_entries (eng : FilterEngine.Engine regex) (f : Filter) (feed : option Z)
    (es : list Entry) (hits : list (option (gmap string bool)))
    : FilterEngine.Engine regex * (FilterEngine.filter_err + list filterTestMatchRow) :=
  match es with
  | [] => (eng, inr [])
  | e :: es =>
      let ctx := FilterEngine.mkMatchContext (default (e_feed_id e) feed) None (default None (head hits)) in
      match FilterEngine.MatchEntryWithContextStrict re_compile re_match eng e ctx [f] with
      | (eng, inl err) => (eng, inl err)
      | (eng, inr ms) =>
          match test_entries eng f feed es (tail hits) with
          | (eng, inl err) => (eng, inl err)
          | (eng, inr rows) =>
              (eng, inr (mkTestRow (e_id e) (e_title e) (match ms with [] => false | _ => true end)
                           (FilterEngine.m_details <$> head ms) :: rows))
          end
      end
  end.

(** The entry a test request describes. *)
Definition test_entry (req : filterTestRequest) : option (Entry * Z) :=
  match tr_Entry req, tr_Text req with
  | Some e, _ => let feed := default 0 (te_FeedID e) in
                 Some (mkEntry 0 feed (te_Title e) (te_URL e) (te_Content e) (te_Author e) None "" "", feed)
  | None, Some text => Some (mkEntry 0 0 "" "" text None None "" "", 0)
  | None, None => None
  end.

(** http/filters.go [Server.handleTestFilter] [query] is the limit of the query string. *)
Definition handleTestFilter (query : string) : fhandler := λ s sv now r p st,
  match requireStoreID r p RoleEditor (sv_filters sv && match fx_engine st with Some _ => true | None => false end)
          "filter engine is not configured" with
  | inl e => (st, FPlain e)
  | inr (me, id) =>
      match st_GetFilter (fx_store st) (p_UserID me) id with
      | (d, inl e) => (with_store st d, FPlain (storeError e "filter not found"))
      | (d, inr stored) =>
          let st := with_store st d in
          let f := engine_filter stored in
          match (if String.eqb (q_body r) "" then inr (mkTestRequest None None None None) else decode_test (q_body r)) with
          | inl e => (st, refused 400 e)
          | inr req =>
              match fx_engine st with
              | None => (st, refused 503 "filter engine is not configured")
              | Some eng =>
                  let limit := test_limit req query in
                  if 0 <? limit then
                    if negb (sv_entries sv) then (st, refused 503 "entry storage is not configured")
                    else match listEntries (fx_store st) (p_UserID me) (Z.min limit 100) with
                    | inl _ => (st, refused 500 "internal server error")
                    | inr es =>
                        match FilterEngine.QueryHits queryMatcher [f] (FilterEngine.QueryItemFromEntry <$> es) with
                        | inl e => (st, refused 400 (filter_err_text e))
                        | inr hits =>
                            match test_entries eng f (tr_FeedID req) es (from_option (fmap Some) [] hits) with
                            | (eng, inl e) => (with_engine st eng, refused 400 (filter_err_text e))
                            | (eng, inr rows) =>
                                (with_engine st eng,
                                 FTest (mkTestResponse (existsb tm_Match rows) None rows) (Z.of_nat (length rows)))
                            end
                        end
                    end
                  else match test_entry req with
                  | None => (st, refused 400 "entry, text, or limit is required")
                  | Some (entry, feed) =>
                      match FilterEngine.QueryHits queryMatcher [f] [FilterEngine.QueryItemFromEntry entry] with
                      | inl e => (st, refused 400 (filter_err_text e))
                      | inr hits =>
                          let ctx := FilterEngine.mkMatchContext feed None (hs ← hits; head hs) in
                          match FilterEngine.MatchEntryWithContextStrict re_compile re_match eng entry ctx [f] with
                          | (eng, inl e) => (with_engine st eng, refused 400 (filter_err_text e))
                          | (eng, inr ms) =>
                              (with_engine st eng,
                               FTest (mkTestResponse (match ms with [] => false | _ => true end)
                                        (FilterEngine.m_details <$> head ms) []) 1)
                          end
                      end
                  end
              end
          end
      end
  end.

(** http/filters.go:357-366 [Server.handleListFilterMatches, one row] *)
Definition toMatchDTO (row : Z * MatchRow * Entry) : filterMatchRowDTO :=
  let '(id, m, e) := row in mkMatchDTO id (mt_FilterID m) (mt_EntryID m) (mt_MatchedAt m) (mt_Details m) e.

(** http/filters.go [Server.handleListFilterMatches] Only [ErrNotFound] of the lookup is a refusal. *)
Definition handleListFilterMatches (limit offset : string) : fhandler := λ s sv now r p st,
  match requireStoreID r p RoleEditor (sv_filterMatches sv) "filter match storage is not configured" with
  | inl e => (st, FPlain e)
  | inr (me, id) =>
      let '(d, missing) :=
        if sv_filters sv
        then match st_GetFilter (fx_store st) (p_UserID me) id with
             | (d, inl e) => (d, err_is_not_found e)
             | (d, inr _) => (d, false)
             end
        else (fx_store st, false) in
      let st := with_store st d in
      if (missing : bool) then (st, refused 404 "filter not found")
      else match parseLimitOffset limit offset 10000 with
      | inl e => (st, refused 400 e)
      | inr (l, o) =>
          match st_ListFilterMatches (fx_store st) id l o with
          | (d, inl _) => (with_store st d, refused 500 "internal server error")
          | (d, inr (rows, total)) => (with_store st d, FMatches (toMatchDTO <$> rows) total)
          end
      end
  end.

(** The routes of filters. *)
Definition filter_serve (limit offset : string) : fhandler := λ s sv now r p st,
  match route (q_method r) (q_segs r) with
  | None => (st, FPlain (RElsewhere "404"))
  | Some (_, _, name) =>
      if String.eqb name "handleListFilters" then handleListFilters limit offset s sv now r p st
      else if String.eqb name "handleCreateFilter" then handleCreateFilter s sv now r p st
      else if String.eqb name "handleGetFilter" then handleGetFilter s sv now r p st
      else if String.eqb name "handleUpdateFilter" then handleUpdateFilter s sv now r p st
      else if String.eqb name "handleDeleteFilter" then handleDeleteFilter s sv now r p st
      else if String.eqb name "handleTestFilter" then handleTestFilter limit s sv now r p st
      else if String.eqb name "handleListFilterMatches" then handleListFilterMatches limit offset s sv now r p st
      else (st, FPlain (RElsewhere name))
  end.

End Api.

(** * What a request does to the store *)

Section Facts.
Context {regex : Type} (re_compile : string → option regex) (re_match : regex → string → bool).
Context (fdb : FeedDb) (edb : EntryDb).
Context (listEntries : FaultyDb → Z → Z → err + list Entry)
        (queryMatcher : option (list FilterEngine.QueryMatchItem → list string → option (list (list bool))))
        (decode_filter : string → string + filterWriteRequest) (decode_test : string → string + filterTestRequest)
        (filter_err_text : FilterEngine.filter_err → string).
#[local] Existing Instance postgres.

Notation FSt := (@FState regex FaultyDb).
Definition db_of (st : FSt) : FilterDb := fy_db (fx_store st).

Definition serve_f := filter_serve (FilterStorage0 := postgres fdb edb) re_compile re_match listEntries queryMatcher decode_filter decode_test filter_err_text.

(** A request changes nothing, or does one operation of its user and drops that user's cached filters. *)
Definition effect (sv : FServer) (me : option Principal) (st st' : FSt) : Prop :=
  (db_of st' = db_of st ∧ fx_cache st' = fx_cache st) ∨
  ∃ p op, me = Some p ∧ 0 < p_UserID p ∧ op_user op = Some (p_UserID p) ∧ db_of st' = run_op fdb edb op (db_of st) ∧
    fx_cache st' = (if sv_refresher sv then ttl_invalidate (fx_cache st) (p_UserID p) else fx_cache st).

(** What an answer may show to a user. *)
Definition shows (sv : FServer) (u : Z) (st : FSt) (resp : fresponse) : Prop :=
  match resp with
  | FFilter _ f => d_UserID f = u
  | FFilters fs _ => Forall (λ f, d_UserID f = u) fs
  | FMatches rows _ =>
      (∀ row, row ∈ rows → ∃ f, t_rows (fb_filters (db_of st)) !! dm_FilterID row = Some f ∧ ft_UserID f = u) ∨
      sv_filters sv = false ∨ head (fy_fails (fx_store st)) = Some true
  | _ => True
  end.

Lemma fcall_cases {A} s what (f : FilterDb → FilterDb * (err + A)) :
  (head (fy_fails s) = Some true ∧ fcall s what f = (mkFaulty (fy_db s) (tail (fy_fails s)), inl (EWrap what sql_fault))) ∨
  fcall s what f = (mkFaulty (f (fy_db s)).1 (tail (fy_fails s)), (f (fy_db s)).2).
Proof.
  unfold fcall. destruct (head (fy_fails s)) as [[]|]; simpl; [left; done|right|right]; by destruct (f (fy_db s)).
Qed.

Lemma filterWrite_user u req p : filterWriteToParams u req = inr p → cf_UserID p = u ∧ cf_Rules p = fw_Rules req.
Proof. unfold filterWriteToParams. case_match; [done|]. by intros [= <-]. Qed.

Lemma GetFilter_owner db u id f : GetFilter db u id = inr f → ft_UserID (sf_row f) = u ∧ sf_ID f = id ∧ t_rows (fb_filters db) !! id = Some (sf_row f).
Proof.
  unfold GetFilter. destruct (t_rows (fb_filters db) !! id) as [g|] eqn:L; [|done].
  destruct (Z.eqb_spec (ft_UserID g) u); [|done]. by intros [= <-].
Qed.

Lemma create_user now db p db' f : filters_wf db → CreateFilter now fdb db p = (db', inr f) → ft_UserID (sf_row f) = cf_UserID p.
Proof. intros W H. destruct (create_reads _ _ _ _ _ _ W H) as [-> _]. done. Qed.

Lemma update_user now db p db' f : filters_wf db → UpdateFilter now fdb db p = (db', inr f) → ft_UserID (sf_row f) = cf_UserID (uf_params p).
Proof. intros W H. destruct (update_reads _ _ _ _ _ _ W H) as (old & _ & U & -> & _). done. Qed.

(** The statements of a read leave the tables alone. *)
Lemma fcall_read {A} s what (f : FilterDb → err + A) : fy_db (fcall s what (λ db, (db, f db))).1 = fy_db s.
Proof. unfold fcall. by destruct (default _ _). Qed.

Lemma fcall_inr {A} s what (f : FilterDb → FilterDb * (err + A)) d a :
  fcall s what f = (d, inr a) → f (fy_db s) = (fy_db d, inr a).
Proof. unfold fcall. destruct (default _ _); [done|]. destruct (f (fy_db s)) as [db [|]]; [done|]. by intros [= <- <-]. Qed.

Lemma pair_inr {A B E} (a c : A) (b d : B) : (a, inr b : E + B) = (c, inr d) → a = c ∧ b = d.
Proof. by intros [= -> ->]. Qed.

Lemma fcall_inl {A} s what (f : FilterDb → FilterDb * (err + A)) d e :
  (∀ db db' e, f db = (db', inl e) → db' = db) → fcall s what f = (d, inl e) →
  fy_db d = fy_db s ∧ (head (fy_fails s) = Some true ∨ f (fy_db s) = (fy_db s, inl e)).
Proof.
  intros P. unfold fcall. destruct (head (fy_fails s)) as [[]|] eqn:F; simpl.
  - intros [= <- _]. auto.
  - destruct (f (fy_db s)) as [db [e'|]] eqn:E; [|done]. intros [= <- <-]. pose proof (P _ _ _ E) as ->. simpl. auto.
  - destruct (f (fy_db s)) as [db [e'|]] eqn:E; [|done]. intros [= <- <-]. pose proof (P _ _ _ E) as ->. simpl. auto.
Qed.

Lemma create_fails now p db db' e : CreateFilter now fdb db p = (db', inl e) → db' = db.
Proof. by intros [[-> _]|(f & [=] & _)]%CreateFilter_inv. Qed.
Lemma filter_update_fails now p db db' e : UpdateFilter now fdb db p = (db', inl e) → db' = db.
Proof. by intros [[-> _]|(f & old & [=] & _)]%UpdateFilter_inv. Qed.

Definition ok (sv : FServer) (me : option Principal) (st : FSt) (out : FSt * fresponse) : Prop :=
  effect sv me st out.1 ∧ ∀ p, me = Some p → shows sv (p_UserID p) st out.2.

Lemma ok_refuse sv me st st' resp : fx_cache st' = fx_cache st → db_of st' = db_of st →
  match resp with FPlain _ | FTest _ _ => True | _ => False end → ok sv me st (st', resp).
Proof. intros C D R. split; [by left|]. intros p _. by destruct resp. Qed.

Lemma list_ok l o s sv now r p (st : FSt) : filters_wf (db_of st) →
  ok sv p st (handleListFilters (FilterStorage0 := postgres fdb edb) l o s sv now r p st).
Proof.
  intros W. unfold handleListFilters. destruct (requireStore _ _ _ _) as [|me] eqn:M; [by apply ok_refuse|].
  apply requireStore_me in M as [-> _]. destruct (parseLimitOffset _ _ _) as [|[lim off]]; [by apply ok_refuse|].
  cbn [st_ListFilters postgres]. destruct (fcall _ _ _) as [d [e|[fs total]]] eqn:F.
  - apply fcall_inl in F as [F _]; [|done]. by apply ok_refuse.
  - apply fcall_inr, pair_inr in F as [F1 F2]. split; [left; split; [exact (eq_sym F1)|done]|].
    intros q [= <-]. apply Forall_fmap, Forall_forall. intros f I.
    assert (fs = (ListFilters (fy_db (fx_store st)) (p_UserID me) lim off).1) as E by (by rewrite F2).
    unfold ListFilters in E. destruct (page_of _ _ _) as [rows tot] eqn:P. cbn [fst] in E. subst fs.
    apply list_elem_of_fmap in I as ([k row] & -> & I).
    assert (I' : (k, row) ∈ (page_of lim off (t_select (λ r, ft_UserID r =? p_UserID me) (key_le ft_OrderID) (fb_filters (fy_db (fx_store st))))).1) by (by rewrite P).
    apply page_of_sub, elem_of_t_select in I' as [_ U]. simpl in *. lia.
Qed.

Lemma get_ok s sv now r p (st : FSt) : ok sv p st (handleGetFilter (FilterStorage0 := postgres fdb edb) s sv now r p st).
Proof.
  unfold handleGetFilter. destruct (requireStoreID _ _ _ _ _) as [|[me id]] eqn:M; [by apply ok_refuse|].
  apply requireStoreID_me in M as [-> _]. cbn [st_GetFilter postgres]. destruct (fcall _ _ _) as [d [e|f]] eqn:F.
  - apply fcall_inl in F as [F _]; [|intros ? ? ? E; by injection E]. by apply ok_refuse.
  - apply fcall_inr in F. injection F as F1 F2. split; [left; split; [exact (eq_sym F1)|done]|].
    intros q [= <-]. by apply GetFilter_owner in F2 as (U & _).
Qed.

Lemma create_ok s sv now r p (st : FSt) : filters_wf (db_of st) →
  ok sv p st (handleCreateFilter re_compile (FilterStorage0 := postgres fdb edb) decode_filter filter_err_text s sv now r p st).
Proof.
  intros W. unfold handleCreateFilter. destruct (requireStore _ _ _ _) as [|me] eqn:M; [by apply ok_refuse|].
  apply requireStore_me in M as [-> Pos]. destruct (decode_filter _) as [|req]; [by apply ok_refuse|].
  destruct (filterWriteToParams _ _) as [|params] eqn:Pa; [by apply ok_refuse|]. apply filterWrite_user in Pa as [U _].
  destruct (validateRuleLimits _ _ _ _); [by apply ok_refuse|].
  cbn [st_CreateFilter postgres]. destruct (fcall _ _ _) as [d [e|f]] eqn:F.
  - apply fcall_inl in F as [F _]; [|apply create_fails]. by apply ok_refuse.
  - apply fcall_inr in F. split.
    + right. exists me, (OpCreateFilter now params). split; [done|]. split; [done|]. split; [by simpl; rewrite U|].
      cbn [run_op]. unfold InvalidateFilterCache, audit, db_of. destruct (sv_refresher sv); cbn [fst fx_store fx_cache with_store];
        (split; [|done]); by rewrite F.
    + intros q [= <-]. change (fy_db (fx_store st)) with (db_of st) in F. apply create_user in F; [|done]. simpl. congruence.
Qed.

Lemma update_ok s sv now r p (st : FSt) : filters_wf (db_of st) →
  ok sv p st (handleUpdateFilter re_compile (FilterStorage0 := postgres fdb edb) decode_filter filter_err_text s sv now r p st).
Proof.
  intros W. unfold handleUpdateFilter. destruct (requireStoreID _ _ _ _ _) as [|[me id]] eqn:M; [by apply ok_refuse|].
  apply requireStoreID_me in M as [-> Pos]. destruct (decode_filter _) as [|req]; [by apply ok_refuse|].
  unfold filterWriteToUpdateParams.
  destruct (filterWriteToParams _ _) as [|params] eqn:Pa; [by apply ok_refuse|]. apply filterWrite_user in Pa as [U _].
  destruct (validateRuleLimits _ _ _ _); [by apply ok_refuse|].
  cbn [st_UpdateFilter postgres]. destruct (fcall _ _ _) as [d [e|f]] eqn:F.
  - apply fcall_inl in F as [F _]; [|apply filter_update_fails]. by apply ok_refuse.
  - apply fcall_inr in F. split.
    + right. exists me, (OpUpdateFilter now (mkUpdateFilter id params)). split; [done|]. split; [done|]. split; [by simpl; rewrite U|].
      cbn [run_op]. unfold InvalidateFilterCache, audit, db_of. destruct (sv_refresher sv); cbn [fst fx_store fx_cache with_store];
        (split; [|done]); by rewrite F.
    + intros q [= <-]. change (fy_db (fx_store st)) with (db_of st) in F. apply update_user in F; [|done]. simpl in *. congruence.
Qed.

Lemma delete_ok s sv now r p (st : FSt) :
  ok sv p st (handleDeleteFilter (FilterStorage0 := postgres fdb edb) s sv now r p st).
Proof.
  unfold handleDeleteFilter. destruct (requireStoreID _ _ _ _ _) as [|[me id]] eqn:M; [by apply ok_refuse|].
  apply requireStoreID_me in M as [-> Pos]. cbn [st_DeleteFilter postgres].
  destruct (fcall _ _ _) as [d [e|[]]] eqn:F.
  - apply fcall_inl in F as [F _]; [by apply ok_refuse|]. intros db db' e'. unfold DeleteFilter. repeat case_match; naive_solver.
  - apply fcall_inr in F. destruct (DeleteFilter _ _ _) as [db' [e|]] eqn:D; [done|]. injection F as F.
    split; [|done]. right. exists me, (OpDeleteFilter (p_UserID me) id). do 3 (split; [done|]).
    cbn [run_op]. unfold InvalidateFilterCache, audit, db_of. destruct (sv_refresher sv); cbn [fst fx_store fx_cache with_store];
      (split; [|done]); by rewrite D, <-F.
Qed.

Lemma test_ok q s sv now r p (st : FSt) :
  ok sv p st (handleTestFilter re_compile re_match (FilterStorage0 := postgres fdb edb) listEntries queryMatcher decode_test filter_err_text q s sv now r p st).
Proof.
  unfold handleTestFilter. destruct (requireStoreID _ _ _ _ _) as [|[me id]] eqn:M; [by apply ok_refuse|].
  cbn [st_GetFilter postgres]. pose proof (fcall_read (fx_store st) "get filter" (λ db, GetFilter db (p_UserID me) id)) as D.
  destruct (fcall _ _ _) as [d [e|f]]; cbn [fst] in D; repeat case_match; by apply ok_refuse.
Qed.

Lemma matches_ok l o s sv now r p (st : FSt) :
  ok sv p st (handleListFilterMatches (FilterStorage0 := postgres fdb edb) l o s sv now r p st).
Proof.
  unfold handleListFilterMatches. destruct (requireStoreID _ _ _ _ _) as [|[me id]] eqn:M; [by apply ok_refuse|].
  apply requireStoreID_me in M as [-> _]. cbn [st_GetFilter st_ListFilterMatches postgres].
  destruct (if sv_filters sv then _ else _) as [d missing] eqn:G.
  assert (D : fy_db d = fy_db (fx_store st) ∧ (missing = false → sv_filters sv = false ∨ head (fy_fails (fx_store st)) = Some true ∨
    ∃ f, t_rows (fb_filters (db_of st)) !! id = Some f ∧ ft_UserID f = p_UserID me)).
  { destruct (sv_filters sv); [|injection G as <- <-; auto]. destruct (fcall _ _ _) as [d' [e|f]] eqn:F; injection G as <- <-.
    - apply fcall_inl in F as [-> F]; [|intros ? ? ? E; by injection E]. split; [done|]. intros N. destruct F as [F|F]; [auto|].
      injection F as F. unfold GetFilter in F. repeat case_match; simplify_eq; done.
    - apply fcall_inr in F. injection F as F1 F2. split; [done|]. intros _. right; right.
      apply GetFilter_owner in F2 as (U & _ & L). exists (sf_row f). done. }
  clear G. destruct D as [D1 D2]. destruct missing; [by apply ok_refuse|].
  destruct (parseLimitOffset _ _ _) as [|[lim off]]; [by apply ok_refuse|].
  destruct (fcall _ _ _) as [d2 [e|[rows total]]] eqn:F; cbn [fx_store with_store] in F.
  - apply fcall_inl in F as [F _]; [|by intros ? ? ? [=]]. apply ok_refuse; [done| |done]. unfold db_of. simpl. congruence.
  - apply fcall_inr, pair_inr in F as [F1 F2]. split; [left; split; [unfold db_of; simpl; congruence|done]|].
    intros q [= <-]. cbn [shows snd]. destruct (D2 eq_refl) as [H|[H|(f & L & U)]]; [auto..|]. left.
    intros row I. apply list_elem_of_fmap in I as ([[k m] e] & -> & I).
    assert (I' : (k, m, e) ∈ (ListFilterMatches edb (fy_db d) id lim off).1) by (by rewrite F2).
    unfold ListFilterMatches in I'. apply page_of_sub, list_elem_of_omap in I' as ([k' m'] & I' & E).
    apply elem_of_t_select in I' as [_ P]. simpl in *.
    destruct (t_rows (fb_filters (fy_db d)) !! id); [|done]. simpl in E. destruct (ed_entries edb !! mt_EntryID m'); [|done]. simpl in E. injection E as <- <- <-.
    exists f. split; [|done]. by rewrite (proj1 (Z.eqb_eq _ _) P).
Qed.

Lemma serve_ok l o s sv now r p st : filters_wf (db_of st) → ok sv p st (serve_f l o s sv now r p st).
Proof.
  intros W. unfold serve_f, filter_serve. destruct (route _ _) as [[[? ?] name]|]; [|by apply ok_refuse].
  repeat (case_match; [first [by apply list_ok|by apply create_ok|apply get_ok|by apply update_ok|apply delete_ok|apply test_ok|apply matches_ok]|]).
  by apply ok_refuse.
Qed.

Lemma effect_wf sv me st st' : effect sv me st st' → filters_wf (db_of st) → filters_wf (db_of st').
Proof. intros [[-> _]|(p & op & _ & _ & _ & -> & _)] W; [done|]. by apply wf_run_op. Qed.

(** Tenants of the filter API are isolated: whatever request a user makes, every other user's
    filters, parts, matches and labels stay as they were, and the answer shows filters of this
    user only, and matches of this user's filters only, with one exception: listing the matches
    of a filter asks who owns it, but takes any failure of that lookup other than "not found" as
    permission. *)
Lemma filter_api_isolated (l o : string) (s : Server) (sv : FServer) (now : Z) (r : ApiRequest) (me : Principal) (st st' : FSt) (resp : fresponse) :
  filters_wf (db_of st) → serve_f l o s sv now r (Some me) st = (st', resp) →
  (∀ v, v ≠ p_UserID me → same_for v (db_of st) (db_of st')) ∧
  match resp with
  | FFilter _ f => d_UserID f = p_UserID me
  | FFilters fs _ => Forall (λ f, d_UserID f = p_UserID me) fs
  | FMatches rows _ =>
      (∀ row, row ∈ rows → ∃ f, t_rows (fb_filters (db_of st)) !! dm_FilterID row = Some f ∧ ft_UserID f = p_UserID me) ∨
      sv_filters sv = false ∨ head (fy_fails (fx_store st)) = Some true
  | _ => True
  end.
Proof.
  intros W E. destruct (serve_ok l o s sv now r (Some me) st W) as [F S]. rewrite E in F, S. cbn [fst snd] in F, S. split.
  - intros v N. destruct F as [[-> _]|(p & op & [= <-] & _ & U & -> & _)]; [apply same_for_refl|].
    eapply run_op_same; [done|exact U|congruence].
  - exact (S me eq_refl).
Qed.

(** ** The refresher's cache *)

(** The same filters, as the engine sees them. *)
Definition current (db : FilterDb) (u : Z) (fs : list StoredFilter) : Prop :=
  engine_filter <$> fs = engine_filter <$> ListEnabledFilters db u 1000.

Definition coherent (st : FSt) : Prop :=
  ∀ u it, tc_items (fx_cache st) !! u = Some it → current (db_of st) u (it_val it).

Lemma ttl_get_sub (c : @ttlCache (list StoredFilter)) now u ttl k it :
  tc_items (ttl_get c now u ttl).1 !! k = Some it → tc_items c !! k = Some it.
Proof.
  unfold ttl_get. destruct (tc_items c !! u) as [i|]; [|done]. destruct (_ <=? _); [|done]. cbn [fst tc_items].
  by intros [_ H]%lookup_delete_Some.
Qed.

Lemma ttl_get_val (c : @ttlCache (list StoredFilter)) now u ttl fs :
  (ttl_get c now u ttl).2 = Some fs → ∃ it, tc_items c !! u = Some it ∧ it_val it = fs.
Proof. unfold ttl_get. destruct (tc_items c !! u) as [i|]; [|done]. destruct (_ <=? _); [done|]. intros [= <-]. eauto. Qed.

Lemma effect_coherent sv me st st' : sv_refresher sv = true → effect sv me st st' → filters_wf (db_of st) → coherent st → coherent st'.
Proof.
  intros R [[E1 E2]|(p & op & -> & Pos & U & E1 & E2)] W C u it H; rewrite E1; rewrite E2 in H; [by apply C|].
  rewrite R in H. unfold ttl_invalidate in H. rewrite (proj2 (Z.leb_gt _ _) Pos) in H. cbn [tc_items] in H.
  apply lookup_delete_Some in H as [N H]. unfold current.
  rewrite (ListEnabled_same u (db_of st)); [by apply C|]. by eapply run_op_same; [|exact U|].
Qed.

(** Counters do not matter to the engine. *)
Lemma t_select_map {A} (key : A → Z) (p : A → bool) (g : Z → A → A) (t t' : Table A) :
  (∀ k, t_rows t' !! k = g k <$> t_rows t !! k) → (∀ k a, p (g k a) = p a ∧ key (g k a) = key a) →
  t_select p (key_le key) t' = (λ x, (x.1, g x.1 x.2)) <$> t_select p (key_le key) t.
Proof.
  intros R G. eapply (StronglySorted_unique_strong (key_le key)).
  - intros [k a] [k' b] I J L1 L2. assert (k = k') as -> by (unfold key_le in *; simpl in *; lia).
    apply elem_of_t_select in I as [I _]. apply list_elem_of_fmap in J as ([j c] & [= -> ->] & J).
    apply elem_of_t_select in J as [J _]. rewrite R, J in I. by injection I as <-.
  - unfold t_select. apply StronglySorted_merge_sort; apply _.
  - assert (S : StronglySorted (key_le key) (t_select p (key_le key) t)) by (apply StronglySorted_merge_sort; apply _).
    induction S as [|x l S IH F]; [constructor|]. constructor; [exact IH|]. apply Forall_fmap. eapply Forall_impl; [exact F|].
    intros y. unfold key_le. simpl. by rewrite !(proj2 (G _ _)).
  - apply NoDup_Permutation.
    + eapply NoDup_fmap_1. apply t_select_NoDup.
    + eapply NoDup_fmap_1 with (f := fst). rewrite <-list_fmap_compose. apply t_select_NoDup.
    + intros [k a]. rewrite elem_of_t_select, R, list_elem_of_fmap. split.
      * intros [E P]. destruct (t_rows t !! k) as [b|] eqn:L; [|done]. injection E as <-. exists (k, b). split; [done|].
        apply elem_of_t_select. rewrite (proj1 (G k b)) in P. done.
      * intros ([j b] & [= -> ->] & [L P]%elem_of_t_select). simpl. rewrite L, (proj1 (G j b)). done.
Qed.

Lemma matches_same_engine db ms u : filters_wf db →
  engine_filter <$> ListEnabledFilters (CreateFilterMatches edb db ms).1 u 1000 = engine_filter <$> ListEnabledFilters db u 1000.
Proof.
  intros W. destruct (CreateFilterMatches edb db ms) as [db' [e|n]] eqn:E; cbn [fst].
  { unfold CreateFilterMatches in E. destruct ms; [done|]. destruct (forallb _ _); [|by injection E as <-].
    destruct (foldl insert_match _ _). done. }
  destruct (CreateFilterMatches_inv _ _ _ _ _ W E) as (news & _ & D & _ & _ & _ & _ & _ & R).
  set (g := λ (k : Z) f, add_count f (Z.of_nat (length (filter (λ i, i = k) news)))) in *.
  rewrite !enabled_loaded.
  assert (enabled_rows db' u = (λ x, (x.1, g x.1 x.2)) <$> enabled_rows db u) as -> by (apply (t_select_map ft_OrderID); [exact R|done]).
  generalize (enabled_rows db u). intros fs. generalize (Z.to_nat (if 1000 <=? 0 then 1000 else 1000)). intros b.
  assert (Q : ∀ id, getFilterRules db' id = getFilterRules db id ∧ getFilterScopeItems db' id = getFilterScopeItems db id ∧
    getFilterActions db' id = getFilterActions db id) by (intros id; by rewrite D).
  clear D R. revert b. induction fs as [|f fs IH]; intros b; [by destruct b|]. destruct b as [|b]; [done|].
  cbn [fmap list_fmap loaded fst snd]. destruct (Q f.1) as (-> & Q2 & Q3). f_equal; [|apply IH].
  unfold engine_filter, loadFilterScopeAndActions. cbn [sf_ID sf_row sf_Rules sf_ScopeItems sf_Actions]. by rewrite Q2, Q3.
Qed.

(** ** Stored filters compile *)

Lemma compileRule_stored n id k r : (∃ cr, FilterEngine.compileRule re_compile n (rule_param r) = inr cr) →
  ∃ cr, FilterEngine.compileRule re_compile n
    (let x := rule_row id r in mkFilterRule k (rl_Field x) (rl_Pattern x) (rl_Negate x) (rl_Op x)) = inr cr.
Proof.
  intros [cr H]. unfold FilterEngine.compileRule, rule_param, rule_row in *. cbn [fr_id fr_field fr_pattern fr_negate fr_op rl_Field rl_Pattern rl_Negate rl_Op] in *.
  rewrite trim_space_idemp. repeat (case_match; try done); by eauto.
Qed.

(** Rules the limits admit are compiled once they are stored, in whatever order. *)
Lemma written_compiles eng db id row p : validateRuleLimits re_compile filter_err_text (cf_Rules p) (Some eng) = None →
  ∃ cf, FilterEngine.compile_spec re_compile (FilterEngine.en_cfg eng) (engine_filter (written_filter db id row p)) = inr cf.
Proof.
  unfold validateRuleLimits, FilterEngine.ValidateRules. rewrite length_fmap. destruct (_ && _) eqn:N; [done|].
  destruct (match _ with [] => false | _ => _ end); [done|]. unfold FilterEngine.compileFilter. cbn [fl_rules].
  set (n := FilterEngine.MaxRegexLength (FilterEngine.en_cfg eng)) in *.
  destruct (FilterEngine.compileRules re_compile n _) as [|crs] eqn:C; [done|]. intros _.
  assert (F : Forall (λ r, ∃ cr, FilterEngine.compileRule re_compile n (rule_param r) = inr cr) (cf_Rules p)).
  { assert (F : ∃ crs, FilterEngine.compileRules re_compile n (rule_param <$> cf_Rules p) = inr crs).
    { exists crs. rewrite <-C. f_equal. rewrite <-list_fmap_compose. done. }
    apply FilterEngine.compileRules_ok in F. by rewrite Forall_fmap in F. }
  set (fl := engine_filter (written_filter db id row p)).
  assert (P : snd <$> sf_Rules (written_filter db id row p) ≡ₚ rule_row id <$> cf_Rules p).
  { cbn [written_filter sf_Rules]. rewrite merge_sort_Permutation, numbered_snd. done. }
  assert (G : ∃ crs, FilterEngine.compileRules re_compile n (fl_rules fl) = inr crs).
  { apply FilterEngine.compileRules_ok. unfold fl. cbn [engine_filter fl_rules]. apply Forall_fmap, Forall_forall.
    intros [k x] I. assert (J : x ∈ rule_row id <$> cf_Rules p) by (rewrite <-P; by apply (list_elem_of_fmap_2 snd _ (k, x))).
    apply list_elem_of_fmap in J as (r & -> & J). rewrite Forall_forall in F. by apply (compileRule_stored n id k r), F. }
  assert (L : length (fl_rules fl) = length (cf_Rules p)).
  { unfold fl. cbn [engine_filter fl_rules]. rewrite length_fmap. apply Permutation_length in P. by rewrite !length_fmap in P. }
  destruct G as [crs' G]. unfold FilterEngine.compile_spec, FilterEngine.getCompiled, FilterEngine.compileFilter.
  cbn [FilterEngine.en_cfg FilterEngine.en_cache]. fold n. rewrite L, N, G, lookup_empty. destruct (fl_rules fl); eauto.
Qed.

(** A filter the API accepts is in force: when a creation or an update is answered with a filter
    and an engine is configured, the store reads back exactly that filter and it compiles within
    the engine's limits, although its rules are normalised and reordered on the way. *)
Lemma api_filter_in_force (s : Server) (sv : FServer) (now : Z) (r : ApiRequest) (me : Principal) (st st' : FSt)
    (eng : FilterEngine.Engine regex) (status : Z) (d : filterDTO) :
  filters_wf (db_of st) → fx_engine st = Some eng →
  handleCreateFilter re_compile (FilterStorage0 := postgres fdb edb) decode_filter filter_err_text s sv now r (Some me) st = (st', FFilter status d) ∨
  handleUpdateFilter re_compile (FilterStorage0 := postgres fdb edb) decode_filter filter_err_text s sv now r (Some me) st = (st', FFilter status d) →
  ∃ f cf, GetFilter (db_of st') (p_UserID me) (d_ID d) = inr f ∧ d = toFilterDTO f ∧
    FilterEngine.compile_spec re_compile (FilterEngine.en_cfg eng) (engine_filter f) = inr cf.
Proof.
  intros W E [H|H].
  - unfold handleCreateFilter in H. destruct (requireStore _ _ _ _) as [|q] eqn:M; [done|].
    apply requireStore_me in M as [[= <-] _]. destruct (decode_filter _) as [|req]; [done|].
    destruct (filterWriteToParams _ _) as [|params] eqn:Pa; [done|]. apply filterWrite_user in Pa as [U R].
    rewrite E, <-R in H. destruct (validateRuleLimits _ _ _ _) eqn:V; [done|].
    cbn [st_CreateFilter postgres] in H. destruct (fcall _ _ _) as [x [e|f]] eqn:F; [done|]. apply fcall_inr in F.
    destruct (create_reads _ _ _ _ _ _ W F) as [Ef G]. injection H as <- _ <-. rewrite <-U.
    destruct (written_compiles eng (db_of st) (t_next (fb_filters (db_of st))) (new_filter_row now params) params V) as [cf C].
    exists f, cf. split; [|split; [done|by rewrite Ef]].
    replace (db_of _) with (fy_db x) by (unfold db_of, InvalidateFilterCache; by destruct (sv_refresher sv)). exact G.
  - unfold handleUpdateFilter in H. destruct (requireStoreID _ _ _ _ _) as [|[q id]] eqn:M; [done|].
    apply requireStoreID_me in M as [[= <-] _]. destruct (decode_filter _) as [|req]; [done|]. unfold filterWriteToUpdateParams in H.
    destruct (filterWriteToParams _ _) as [|params] eqn:Pa; [done|]. apply filterWrite_user in Pa as [U R].
    rewrite E, <-R in H. destruct (validateRuleLimits _ _ _ _) eqn:V; [done|].
    cbn [st_UpdateFilter postgres] in H. destruct (fcall _ _ _) as [x [e|f]] eqn:F; [done|]. apply fcall_inr in F.
    destruct (update_reads _ _ _ _ _ _ W F) as (old & _ & _ & Ef & G). injection H as <- _ <-. rewrite <-U.
    destruct (written_compiles eng (db_of st) id (update_row now params old) params V) as [cf C].
    exists f, cf. split; [|split; [done|by rewrite Ef]].
    replace (db_of _) with (fy_db x) by (unfold db_of, InvalidateFilterCache; by destruct (sv_refresher sv)). exact G.
Qed.

End Facts.

(** * Witnesses *)

Definition w_srv : Server := mkServer true true 0 "" "" [] None.
Definition w_fsrv : FServer := mkFServer true true true true.
Definition w_body (b : string) : string + filterWriteRequest :=
  if String.eqb b "" then inl "invalid JSON body"%string
  else inr (mkFilterWrite b None None None None None (tail w_rules) [] [mkActionParams "webhook" "9" 0]).
Definition w_freq (m : string) (segs : list string) (body : string) : ApiRequest :=
  mkApiRequest (ClientIP.mkRequest "" (λ _, []) "" false) m segs None body.
Definition w_editor : Principal := mkPrincipal 1 "editor" "ann" "".
Definition w_fstate (fails : list bool) : @FState string FaultyDb :=
  mkFState (mkApi (mkUserDb ∅ 1 ∅ 1 ∅ 1) [])
    (mkFaulty (run_op wit_feed_db w_entries (OpCreateMatches [mkMatchParams 1 1 40 ""; mkMatchParams 2 2 41 ""]) w_filters) fails)
    ttl_new (Some FilterEngine.wit_engine).
Definition w_list (_ : FaultyDb) (_ _ : Z) : err + list Entry := inr [].
Definition w_test (_ : string) : string + filterTestRequest := inl "invalid JSON body"%string.
Definition w_text (_ : FilterEngine.filter_err) : string := "rule refused".
Definition w_serve := serve_f FilterEngine.lit_compile FilterEngine.lit_match wit_feed_db w_entries w_list None w_body w_test w_text.

Lemma w_fstate_wf fails : filters_wf (db_of (w_fstate fails)).
Proof. unfold w_fstate, db_of. cbn [fx_store fy_db]. apply wf_run_op, w_filters_wf. Qed.

(** The lookup of the owner fails, and user 1 reads the matches of user 2's filter. *)
Lemma filter_api_isolated_witness :
  let req := w_freq "GET" ["v1"; "filters"; "2"; "matches"]%string "" in
  let ask fails := w_serve "" "" w_srv w_fsrv 50 req (Some w_editor) (w_fstate fails) in
  (ask []).2 = refused 404 "filter not found" ∧
  (match (ask [true]).2 with FMatches rows _ => (λ m, (dm_FilterID m, dm_EntryID m)) <$> rows | _ => [] end) = [(2, 2)] ∧
  ∀ v, v ≠ 1 → same_for v (db_of (w_fstate [true])) (db_of (ask [true]).1).
Proof.
  intros req ask. split; [vm_compute; reflexivity|]. split; [vm_compute; reflexivity|].
  destruct (ask [true]) as [st' resp] eqn:E.
  destruct (filter_api_isolated FilterEngine.lit_compile FilterEngine.lit_match wit_feed_db w_entries w_list None w_body w_test w_text
    "" "" w_srv w_fsrv 50 req w_editor (w_fstate [true]) st' resp (w_fstate_wf _) E) as [H _].
  exact H.
Defined.

Lemma api_filter_in_force_witness :
  let res := handleCreateFilter FilterEngine.lit_compile (FilterStorage0 := postgres wit_feed_db w_entries) w_body
    w_text w_srv w_fsrv 50 (w_freq "POST" ["v1"; "filters"]%string "mine") (Some w_editor) (w_fstate []) in
  match res.2 with FFilter status d => (status, d_ID d) = (201, 3) | _ => False end ∧
  ∃ f cf, GetFilter (db_of res.1) 1 3 = inr f ∧
    FilterEngine.compile_spec FilterEngine.lit_compile (FilterEngine.en_cfg FilterEngine.wit_engine) (engine_filter f) = inr cf.
Proof.
  intros res.
  assert (F : match res.2 with FFilter status d => (status, d_ID d) = (201, 3) | _ => False end) by (vm_compute; reflexivity).
  split; [exact F|]. destruct res as [st' [|status d| | |]] eqn:E; try (by destruct F). cbn [snd] in F. injection F as -> I.
  destruct (api_filter_in_force FilterEngine.lit_compile wit_feed_db w_entries w_body w_text w_srv w_fsrv 50
    (w_freq "POST" ["v1"; "filters"]%string "mine") w_editor (w_fstate []) st'
    FilterEngine.wit_engine 201 d (w_fstate_wf _) eq_refl (or_introl E)) as (f & cf & G & _ & C).
  exists f, cf. rewrite <-I. split; [exact G|exact C].
Defined.
