(* ===== verification/WebhookApi.v ===== *)
(** Creating, editing, listing and testing webhooks ([storage/webhooks.go],
    [storage/webhook_on_success.go] and the handlers of [http/webhooks.go]): whose they are, how
    many an editor may have, and what of their secrets is shown.  A webhook is the row of
    [WebhookStore.v] with the columns only this component reads. *)

From S2P Require Import Prelude GoStrings Types FeedStore WebhookStore EntryStore Outbound Tables.
From S2P Require Import UserStore ApiAuth.
From S2P Require ClientIP.

(** * Storage *)

(** storage/entities.go:220-231 [Webhook, the columns of the settings] *)
Record HookMore := mkHookMore { hm_Name : string; hm_ProviderConfig : string; hm_SystemAlerts : bool }.

Definition StoredHook : Type := Webhook * HookMore.

(** The webhooks, their logs and the subscriptions that name them. *)
Record HookAdmin := mkHookAdmin { ha_hooks : HookDb; ha_more : gmap Z HookMore; ha_next : Z; ha_feeds : FeedDb }.

(** storage/entities.go [CreateWebhookParams] *)
Record CreateWebhookParams := mkCreateWebhook {
  cw_UserID : Z; cw_Name : string; cw_URL : string; cw_Method : string; cw_Headers : string; cw_BodyTemplate : string;
  cw_Secret : string; cw_Enabled : bool; cw_OnSuccessEntry : string; cw_Kind : string; cw_ProviderConfig : string;
  cw_SystemAlerts : bool; cw_DigestMinutes : Z;
}.

(** storage/entities.go [UpdateWebhookParams] A nil name or secret keeps what is stored. *)
Record UpdateWebhookParams := mkUpdateWebhook {
  uw_ID : Z; uw_UserID : Z; uw_Name : option string; uw_URL : string; uw_Method : string; uw_Headers : string;
  uw_BodyTemplate : string; uw_Secret : option string; uw_Enabled : bool; uw_OnSuccessEntry : string; uw_Kind : string;
  uw_ProviderConfig : string; uw_SystemAlerts : bool; uw_DigestMinutes : Z;
}.

Definition webhookNameMaxLen : Z := 80.

(** storage/webhook_on_success.go [NormalizeWebhookName] *)
Definition NormalizeWebhookName (s : string) : err + string :=
  let s := trim_space s in
  if webhookNameMaxLen <? rune_count s then inl (EMsg "name must be at most 80 characters") else inr s.

(** What a user's webhook is, if it is theirs. *)
Definition own_hook (ad : HookAdmin) (userID id : Z) : option StoredHook :=
  w ← hd_webhooks (ha_hooks ad) !! id;
  m ← ha_more ad !! id;
  if wh_user_id w =? userID then Some (w, m) else None.

(** storage/webhooks.go [PostgresStore.GetWebhook] *)
Definition GetWebhook (ad : HookAdmin) (userID id : Z) : err + StoredHook :=
  match own_hook ad userID id with Some h => inr h | None => inl ENotFound end.

Definition hook_id_ge (a b : Z * StoredHook) : Prop := b.1 <= a.1.
#[export] Instance hook_id_ge_dec : RelDecision hook_id_ge.
Proof. unfold hook_id_ge. intros a b. apply _. Defined.

(** The user's webhooks, newest first. *)
Definition user_hooks (ad : HookAdmin) (userID : Z) : list (Z * StoredHook) :=
  merge_sort hook_id_ge (map_to_list (map_imap (λ id _, own_hook ad userID id) (ha_more ad))).

(** storage/webhooks.go [PostgresStore.ListWebhooks] *)
Definition ListWebhooks (ad : HookAdmin) (userID limit offset : Z) : list (Z * StoredHook) * Z :=
  page_of limit offset (user_hooks ad userID).

(** storage/webhooks.go [PostgresStore.ListEnabledWebhooks] *)
Definition ListEnabledWebhooks (ad : HookAdmin) (userID limit : Z) : list (Z * StoredHook) :=
  take (Z.to_nat (if limit <=? 0 then 1000 else limit)) (filter (λ h, wh_enabled h.2.1 = true) (user_hooks ad userID)).

Section Store.
Context (decode_telegram_config : string → string + TelegramProviderConfig) (decode_max_config : string → string + MaxProviderConfig)
        (json_valid : string → bool) (url_parse : string → option (string * string)).

Notation Resolve := (ResolveWebhookWrite decode_telegram_config decode_max_config json_valid url_parse).

Definition or_object (s : string) : string := if String.eqb s "" then "{}" else s.

(** storage/webhooks.go [PostgresStore.CreateWebhook] *)
Definition CreateWebhook (ad : HookAdmin) (p : CreateWebhookParams) : HookAdmin * (err + StoredHook) :=
  match Resolve (cw_Kind p) (cw_URL p) (cw_ProviderConfig p) with
  | inl e => (ad, inl e)
  | inr (kind, displayURL, cfg) =>
      let headers := or_object (cw_Headers p) in
      if negb (json_valid headers) then (ad, inl (EMsg "headers must be valid JSON object"))
      else match NormalizeWebhookOnSuccess (cw_OnSuccessEntry p) with
      | None => (ad, inl (EMsg "on_success_entry must be none, hash, delete, or mark_read"))
      | Some onSuccess =>
          match NormalizeWebhookName (cw_Name p) with
          | inl e => (ad, inl e)
          | inr name =>
              match NormalizeDigestMinutes (cw_DigestMinutes p) with
              | None => (ad, inl (EMsg "digest_minutes must be between 0 and 1440"))
              | Some digest =>
                  let id := ha_next ad in
                  let w := mkWebhook id (cw_UserID p) displayURL (http_method (cw_Method p)) headers (cw_BodyTemplate p)
                             (if String.eqb kind "http" then cw_Secret p else "") (cw_Enabled p) onSuccess kind digest 0 0 None in
                  let m := mkHookMore name cfg (cw_SystemAlerts p) in
                  (mkHookAdmin (with_webhooks (ha_hooks ad) (<[id := w]> (hd_webhooks (ha_hooks ad)))) (<[id := m]> (ha_more ad))
                     (id + 1) (ha_feeds ad), inr (w, m))
              end
          end
      end
  end.

(** storage/webhooks.go:179-222 [PostgresStore.UpdateWebhook, what the transaction computes] The kind,
    the URL shown, the settings, the secret and the name. *)
Definition resolve_update (p : UpdateWebhookParams) (old : StoredHook) : err + string * string * string * string * string :=
  let kindHint := if String.eqb (trim_space (uw_Kind p)) "" then wh_kind old.1 else uw_Kind p in
  match NormalizeWebhookKind kindHint with
  | None => inl (EMsg "kind must be http, telegram, or max")
  | Some kindNorm =>
      let cfgIn := if String.eqb kindNorm "telegram"
                   then MergeTelegramToken decode_telegram_config (uw_ProviderConfig p) (hm_ProviderConfig old.2)
                   else uw_ProviderConfig p in
      match Resolve kindNorm (uw_URL p) cfgIn with
      | inl e => inl e
      | inr (kind, displayURL, cfg) =>
          let secret := default (wh_secret old.1) (uw_Secret p) in
          let secret := if String.eqb kind "http" then secret else "" in
          match uw_Name p with
          | None => inr (kind, displayURL, cfg, secret, hm_Name old.2)
          | Some n => match NormalizeWebhookName n with
                      | inl e => inl e
                      | inr name => inr (kind, displayURL, cfg, secret, name)
                      end
          end
      end
  end.

(** storage/webhooks.go [PostgresStore.UpdateWebhook] *)
Definition UpdateWebhook (ad : HookAdmin) (p : UpdateWebhookParams) : HookAdmin * (err + StoredHook) :=
  let headers := or_object (uw_Headers p) in
  if negb (json_valid headers) then (ad, inl (EMsg "headers must be valid JSON object"))
  else match NormalizeWebhookOnSuccess (uw_OnSuccessEntry p), NormalizeDigestMinutes (uw_DigestMinutes p) with
  | None, _ => (ad, inl (EMsg "on_success_entry must be none, hash, delete, or mark_read"))
  | Some _, None => (ad, inl (EMsg "digest_minutes must be between 0 and 1440"))
  | Some onSuccess, Some digest =>
      match own_hook ad (uw_UserID p) (uw_ID p) with
      | None => (ad, inl ENotFound)
      | Some old =>
          match resolve_update p old with
          | inl e => (ad, inl (EWrap "update webhook" e))
          | inr (kind, displayURL, cfg, secret, name) =>
              let o := old.1 in
              let w := mkWebhook (wh_id o) (wh_user_id o) displayURL (http_method (uw_Method p)) headers (uw_BodyTemplate p) secret
                         (uw_Enabled p) onSuccess kind digest (wh_sent_total o) (wh_failed_total o) (wh_last_error o) in
              let m := mkHookMore name cfg (uw_SystemAlerts p) in
              (mkHookAdmin (with_webhooks (ha_hooks ad) (<[uw_ID p := w]> (hd_webhooks (ha_hooks ad)))) (<[uw_ID p := m]> (ha_more ad))
                 (ha_next ad) (ha_feeds ad), inr (w, m))
          end
      end
  end.

End Store.

(** storage/webhooks.go [PostgresStore.DeleteWebhook] Its logs go with it, and subscriptions lose it. *)
Definition DeleteWebhook (ad : HookAdmin) (userID id : Z) : HookAdmin * option err :=
  match own_hook ad userID id with
  | None => (ad, Some ENotFound)
  | Some _ =>
      let h := ha_hooks ad in
      (mkHookAdmin (mkHookDb (delete id (hd_webhooks h)) (filter (λ kl, wl_webhook_id kl.2 ≠ id) (hd_logs h)) (hd_next_id h))
         (delete id (ha_more ad)) (ha_next ad)
         (with_subs (ha_feeds ad) ((λ w, if decide (w = Some id) then None else w) <$> fd_subs (ha_feeds ad))), None)
  end.

Definition log_id_ge (created : WLog → Z) (a b : WLog) : Prop :=
  created b < created a ∨ (created a = created b ∧ wl_id b <= wl_id a).
#[export] Instance log_id_ge_dec created : RelDecision (log_id_ge created).
Proof. unfold log_id_ge. intros a b. apply _. Defined.

(** storage/webhooks.go [PostgresStore.ListWebhookLogs] [created] is the column [created_at]. *)
Definition ListWebhookLogs (created : WLog → Z) (ad : HookAdmin) (webhookID limit offset : Z) : list WLog * Z :=
  page_of limit offset (merge_sort (log_id_ge created)
    (filter (λ l, wl_webhook_id l = webhookID) (map_to_list (hd_logs (ha_hooks ad))).*2)).

(** * The API *)

(** http/webhooks.go [webhookDTO] *)
Record webhookDTO := mkWebhookDTO {
  dw_ID : Z; dw_UserID : Z; dw_Name : string; dw_Kind : string; dw_URL : string; dw_Method : string; dw_Headers : string;
  dw_BodyTemplate : string; dw_Enabled : bool; dw_OnSuccessEntry : string; dw_SystemAlerts : bool; dw_DigestMinutes : Z;
  dw_Telegram : option TelegramProviderConfig; dw_Max : option MaxProviderConfig; dw_FloodPausedUntil : option Z;
}.

(** http/webhooks.go [webhookWriteRequest] *)
Record webhookWriteRequest := mkWebhookWrite {
  ww_Name : option string; ww_Kind : option string; ww_URL : string; ww_Method : option string; ww_Headers : string;
  ww_BodyTemplate : option string; ww_Secret : option string; ww_Enabled : option bool; ww_OnSuccessEntry : option string;
  ww_SystemAlerts : option bool; ww_DigestMinutes : option Z; ww_Telegram : option TelegramProviderConfig;
  ww_Max : option MaxProviderConfig;
}.

(** http/webhooks.go [webhookTestResult] *)
Record webhookTestResult := mkTestResult { wt_OK : bool; wt_StatusCode : Z; wt_ResponseSnippet : string; wt_Error : string }.

Inductive wresponse :=
| WPlain (r : response)
| WHook (status : Z) (h : webhookDTO)
| WHooks (hs : list webhookDTO) (total : Z)
| WTest (status : Z) (r : webhookTestResult)
| WLogs (ls : list WLog) (total : Z)
| WRetried.

Definition wrefused (status : Z) (msg : string) : wresponse := WPlain (RError status msg).

Section Api.
Context (decode_telegram_config : string → string + TelegramProviderConfig) (decode_max_config : string → string + MaxProviderConfig)
        (json_valid : string → bool) (url_parse : string → option (string * string)).
(** Decoding a body, the SSRF guard, the floods the worker waits out, the test delivery, and the
    age of a log row. *)
Context (decode_webhook : string → string + webhookWriteRequest) (validate_url : option (string → option string))
        (flood_until : Z → option Z) (deliver_test : StoredHook → err + webhookTestResult) (log_created : WLog → Z).

(** http/webhooks.go [toWebhookDTO] *)
Definition toWebhookDTO (h : StoredHook) : webhookDTO :=
  let '(w, m) := h in
  let kind := default "" (NormalizeWebhookKind (wh_kind w)) in
  mkWebhookDTO (wh_id w) (wh_user_id w) (hm_Name m) kind (wh_url w) (wh_method w) (or_object (wh_headers w)) (wh_body_template w)
    (wh_enabled w) (wh_on_success_entry w) (hm_SystemAlerts m) (wh_digest_minutes w)
    (if String.eqb kind "telegram" then
       Some (match decode_telegram_config (MaskTelegramConfig decode_telegram_config (hm_ProviderConfig m)) with
             | inr c => c | inl _ => mkTelegram "" "" "" end)
     else None)
    (if String.eqb kind "max" then
       match ParseMaxProviderConfig decode_max_config (hm_ProviderConfig m) with inr c => Some c | inl _ => None end
     else None)
    None.

(** http/webhooks.go [providerConfigFromWrite] *)
Definition providerConfigFromWrite (req : webhookWriteRequest) : string + string * string :=
  match NormalizeWebhookKind (default ""%string (ww_Kind req)) with
  | None => inl "kind must be http, telegram, or max"%string
  | Some kind =>
      if String.eqb kind "telegram" then
        match ww_Telegram req with None => inl "telegram config is required"%string | Some c => inr (kind, telegram_json c) end
      else if String.eqb kind "max" then
        match ww_Max req with None => inl "max config is required"%string | Some c => inr (kind, max_json c) end
      else inr (kind, "{}"%string)
  end.

(** http/webhooks.go [validateWebhookURL] *)
Definition validateWebhookURL (raw : string) : string + string :=
  let url := trim_space raw in
  if String.eqb url "" then inl "url is required"%string
  else match validate_url with
       | Some refuse => match refuse url with Some e => inl e | None => inr url end
       | None => inr url
       end.

(** http/webhooks.go:145-153 [Server.handleCreateWebhook, the URL] Also lines 264-272 of the update:
    a chat webhook has no address to check here. *)
Definition write_url (kind : string) (req : webhookWriteRequest) : string + string :=
  if String.eqb kind "http" then validateWebhookURL (ww_URL req) else inr (trim_space (ww_URL req)).

Definition write_method (req : webhookWriteRequest) : string :=
  match ww_Method req with Some m => if String.eqb (trim_space m) "" then "POST" else trim_space m | None => "POST" end.

Definition write_headers (req : webhookWriteRequest) : string :=
  if String.eqb (trim_space (ww_Headers req)) "" then "{}" else ww_Headers req.

(** The state of the API, and what of the server the handlers ask for. *)
Record WState := mkWState { wx_api : Api; wx_hooks : HookAdmin }.
Record WServer := mkWServer { sw_webhooks : bool; sw_webhookLogs : bool; sw_quotas : Limits }.

Definition with_hooks (st : WState) (ad : HookAdmin) : WState := mkWState (wx_api st) ad.
Definition waudit (s : Server) (r : ApiRequest) (p : option Principal) (action : string) (id : Z) (st : WState) : WState :=
  mkWState (Record_ s r p action "webhook" id (wx_api st)) (wx_hooks st).

Definition whandler : Type := Server → WServer → Z → ApiRequest → option Principal → WState → WState * wresponse.

Notation unconfigured := "webhook storage is not configured"%string.

(** http/webhooks.go [Server.handleListWebhooks] *)
Definition handleListWebhooks (limit offset : string) : whandler := λ s sw now r p st,
  match requireStore p RoleEditor (sw_webhooks sw) unconfigured with
  | inl e => (st, WPlain e)
  | inr me =>
      match parseLimitOffset limit offset 10000 with
      | inl e => (st, wrefused 400 e)
      | inr (l, o) =>
          let '(rows, total) := ListWebhooks (wx_hooks st) (p_UserID me) l o in
          (st, WHooks ((λ h, toWebhookDTO h.2) <$> rows) total)
      end
  end.

(** http/webhooks.go [Server.handleCreateWebhook] *)
Definition handleCreateWebhook : whandler := λ s sw now r p st,
  match requireStore p RoleEditor (sw_webhooks sw) unconfigured with
  | inl e => (st, WPlain e)
  | inr me =>
      match decode_webhook (q_body r) with
      | inl e => (st, wrefused 400 e)
      | inr req =>
          match providerConfigFromWrite req with
          | inl e => (st, wrefused 400 e)
          | inr (kind, cfg) =>
              let over := (0 <? MaxWebhooksPerEditor (sw_quotas sw)) && negb (IsAdmin me) &&
                          negb (quota_Webhooks (sw_quotas sw) me (ListWebhooks (wx_hooks st) (p_UserID me) 1 0).2) in
              if over then (st, wrefused 429 ("webhook limit reached (" +:+ format_int (MaxWebhooksPerEditor (sw_quotas sw)) +:+ " per editor)"))
              else match write_url kind req with
              | inl e => (st, wrefused 400 e)
              | inr url =>
                  match CreateWebhook decode_telegram_config decode_max_config json_valid url_parse (wx_hooks st)
                          (mkCreateWebhook (p_UserID me) (default "" (ww_Name req)) url (write_method req) (write_headers req)
                             (default "" (ww_BodyTemplate req)) (default "" (ww_Secret req)) (default true (ww_Enabled req))
                             (default "" (ww_OnSuccessEntry req)) kind cfg (default false (ww_SystemAlerts req))
                             (default 0 (ww_DigestMinutes req))) with
                  | (ad, inl e) => (with_hooks st ad, wrefused 400 (err_text e))
                  | (ad, inr h) => (waudit s r p "webhook.create" (wh_id h.1) (with_hooks st ad), WHook 201 (toWebhookDTO h))
                  end
              end
          end
      end
  end.

Definition with_flood (d : webhookDTO) (t : option Z) : webhookDTO :=
  mkWebhookDTO (dw_ID d) (dw_UserID d) (dw_Name d) (dw_Kind d) (dw_URL d) (dw_Method d) (dw_Headers d) (dw_BodyTemplate d)
    (dw_Enabled d) (dw_OnSuccessEntry d) (dw_SystemAlerts d) (dw_DigestMinutes d) (dw_Telegram d) (dw_Max d) t.

(** http/webhooks.go [Server.handleGetWebhook] *)
Definition handleGetWebhook : whandler := λ s sw now r p st,
  match requireStoreID r p RoleEditor (sw_webhooks sw) unconfigured with
  | inl e => (st, WPlain e)
  | inr (me, id) =>
      match GetWebhook (wx_hooks st) (p_UserID me) id with
      | inl e => (st, WPlain (storeError e "webhook not found"))
      | inr h => (st, WHook 200 (with_flood (toWebhookDTO h) (flood_until (wh_id h.1))))
      end
  end.

(** http/webhooks.go [Server.handleUpdateWebhook] *)
Definition handleUpdateWebhook : whandler := λ s sw now r p st,
  match requireStoreID r p RoleEditor (sw_webhooks sw) unconfigured with
  | inl e => (st, WPlain e)
  | inr (me, id) =>
      match decode_webhook (q_body r) with
      | inl e => (st, wrefused 400 e)
      | inr req =>
          match providerConfigFromWrite req with
          | inl e => (st, wrefused 400 e)
          | inr (kind, cfg) =>
              match write_url kind req with
              | inl e => (st, wrefused 400 e)
              | inr url =>
                  match UpdateWebhook decode_telegram_config decode_max_config json_valid url_parse (wx_hooks st)
                          (mkUpdateWebhook id (p_UserID me) (ww_Name req) url (write_method req) (write_headers req)
                             (default "" (ww_BodyTemplate req)) (ww_Secret req) (default true (ww_Enabled req))
                             (default "" (ww_OnSuccessEntry req)) kind cfg (default false (ww_SystemAlerts req))
                             (default 0 (ww_DigestMinutes req))) with
                  | (ad, inl e) => (with_hooks st ad, if err_is_not_found e then wrefused 404 "webhook not found" else wrefused 400 (err_text e))
                  | (ad, inr h) => (waudit s r p "webhook.update" (wh_id h.1) (with_hooks st ad), WHook 200 (toWebhookDTO h))
                  end
              end
          end
      end
  end.

(** http/webhooks.go [Server.handleDeleteWebhook] *)
Definition handleDeleteWebhook : whandler := λ s sw now r p st,
  match requireStoreID r p RoleEditor (sw_webhooks sw) unconfigured with
  | inl e => (st, WPlain e)
  | inr (me, id) =>
      match DeleteWebhook (wx_hooks st) (p_UserID me) id with
      | (ad, Some e) => (with_hooks st ad, WPlain (storeError e "webhook not found"))
      | (ad, None) => (waudit s r p "webhook.delete" id (with_hooks st ad), WPlain RDeleted)
      end
  end.

(** http/webhooks.go [Server.handleTestWebhook] *)
Definition handleTestWebhook : whandler := λ s sw now r p st,
  match requireStoreID r p RoleEditor (sw_webhooks sw) unconfigured with
  | inl e => (st, WPlain e)
  | inr (me, id) =>
      match GetWebhook (wx_hooks st) (p_UserID me) id with
      | inl e => (st, if err_is_not_found e then wrefused 404 "webhook not found" else wrefused 400 (err_text e))
      | inr h => match deliver_test h with
                 | inl e => (st, if err_is_not_found e then wrefused 404 "webhook not found" else wrefused 400 (err_text e))
                 | inr res => (st, WTest (if wt_OK res then 200 else 502) res)
                 end
      end
  end.

(** http/webhooks.go [Server.handleListWebhookLogs] *)
Definition handleListWebhookLogs (limit offset : string) : whandler := λ s sw now r p st,
  match requireStoreID r p RoleEditor (sw_webhookLogs sw && sw_webhooks sw) "webhook log storage is not configured" with
  | inl e => (st, WPlain e)
  | inr (me, id) =>
      match GetWebhook (wx_hooks st) (p_UserID me) id with
      | inl e => (st, WPlain (storeError e "webhook not found"))
      | inr _ =>
          match parseLimitOffset limit offset 10000 with
          | inl e => (st, wrefused 400 e)
          | inr (l, o) => let '(rows, total) := ListWebhookLogs log_created (wx_hooks st) id l o in (st, WLogs rows total)
          end
      end
  end.

(** http/webhooks.go [Server.handleRetryWebhookLog] *)
Definition handleRetryWebhookLog : whandler := λ s sw now r p st,
  match requireStore p RoleEditor (sw_webhookLogs sw) "webhook log storage is not configured" with
  | inl e => (st, WPlain e)
  | inr me =>
      match parsePathInt64 r "logID" with
      | inl e => (st, wrefused 400 e)
      | inr logID =>
          let ad := wx_hooks st in
          match RetryWebhookLogNow now (ha_hooks ad) (p_UserID me) logID with
          | (h, Some e) => (with_hooks st (mkHookAdmin h (ha_more ad) (ha_next ad) (ha_feeds ad)), WPlain (storeError e "webhook log not found"))
          | (h, None) => (with_hooks st (mkHookAdmin h (ha_more ad) (ha_next ad) (ha_feeds ad)), WRetried)
          end
      end
  end.

(** The routes of webhooks. *)
Definition webhook_serve (limit offset : string) : whandler := λ s sw now r p st,
  match route (q_method r) (q_segs r) with
  | None => (st, WPlain (RElsewhere "404"))
  | Some (_, _, name) =>
      if String.eqb name "handleListWebhooks" then handleListWebhooks limit offset s sw now r p st
      else if String.eqb name "handleCreateWebhook" then handleCreateWebhook s sw now r p st
      else if String.eqb name "handleGetWebhook" then handleGetWebhook s sw now r p st
      else if String.eqb name "handleUpdateWebhook" then handleUpdateWebhook s sw now r p st
      else if String.eqb name "handleDeleteWebhook" then handleDeleteWebhook s sw now r p st
      else if String.eqb name "handleTestWebhook" then handleTestWebhook s sw now r p st
      else if String.eqb name "handleListWebhookLogs" then handleListWebhookLogs limit offset s sw now r p st
      else if String.eqb name "handleRetryWebhookLog" then handleRetryWebhookLog s sw now r p st
      else (st, WPlain (RElsewhere name))
  end.

End Api.
