(* ===== verification/WebhookApiSpec.v ===== *)
(** What the webhook routes of [WebhookApi.v] guarantee: every answer and every change
    concerns webhooks of the caller, an editor stays within the quota, the secrets of a
    webhook show in no answer, and what an update does to a bot token. *)

From S2P Require Import Prelude GoStrings Types FeedStore WebhookStore EntryStore Outbound Tables.
From S2P Require Import UserStore ApiAuth WebhookApi.
From S2P Require ClientIP.
From Stdlib Require Import Ascii.

(** * Invariant *)

(** Both halves of a webhook are there, under its own number, and new numbers are fresh. *)
Record hooks_wf (ad : HookAdmin) : Prop := {
  hw_own : ∀ id w, hd_webhooks (ha_hooks ad) !! id = Some w → wh_id w = id ∧ id < ha_next ad ∧ is_Some (ha_more ad !! id);
  hw_more : ∀ id m, ha_more ad !! id = Some m → is_Some (hd_webhooks (ha_hooks ad) !! id);
}.

(** Whose webhook a number is. *)
Definition hook_owner (ad : HookAdmin) (id : Z) : option Z := wh_user_id <$> hd_webhooks (ha_hooks ad) !! id.

(** User [v] finds the same webhooks and the same logs of them. *)
Definition same_hooks_for (v : Z) (ad ad' : HookAdmin) : Prop :=
  (∀ id, own_hook ad' v id = own_hook ad v id) ∧
  (∀ k l, hook_owner ad (wl_webhook_id l) = Some v → hd_logs (ha_hooks ad') !! k = Some l ↔ hd_logs (ha_hooks ad) !! k = Some l).

Lemma same_hooks_refl v ad : same_hooks_for v ad ad.
Proof. by split. Qed.

Lemma own_hook_inv ad u id w m : own_hook ad u id = Some (w, m) ↔
  hd_webhooks (ha_hooks ad) !! id = Some w ∧ ha_more ad !! id = Some m ∧ wh_user_id w = u.
Proof.
  unfold own_hook. split.
  - intros H. destruct (hd_webhooks _ !! id) as [w'|]; [|done]. destruct (ha_more ad !! id) as [m'|]; [|done].
    cbn [mbind option_bind] in H. destruct (Z.eqb_spec (wh_user_id w') u); [|done]. by injection H as -> ->.
  - intros (-> & -> & <-). cbn [mbind option_bind]. by rewrite Z.eqb_refl.
Qed.

(** * The statements, as one type *)

Inductive hook_op :=
| OpCreate (p : CreateWebhookParams)
| OpUpdate (p : UpdateWebhookParams)
| OpDelete (userID id : Z)
| OpRetry (now userID logID : Z).

Definition hop_user (op : hook_op) : Z :=
  match op with OpCreate p => cw_UserID p | OpUpdate p => uw_UserID p | OpDelete u _ | OpRetry _ u _ => u end.

Definition with_hook_db (ad : HookAdmin) (h : HookDb) : HookAdmin := mkHookAdmin h (ha_more ad) (ha_next ad) (ha_feeds ad).

Section Ops.
Context (decode_tg : string → string + TelegramProviderConfig) (decode_max : string → string + MaxProviderConfig)
        (json_valid : string → bool) (url_parse : string → option (string * string)).

Notation Create := (CreateWebhook decode_tg decode_max json_valid url_parse).
Notation Update := (UpdateWebhook decode_tg decode_max json_valid url_parse).

Definition run_hook_op (op : hook_op) (ad : HookAdmin) : HookAdmin :=
  match op with
  | OpCreate p => (Create ad p).1
  | OpUpdate p => (Update ad p).1
  | OpDelete u id => (DeleteWebhook ad u id).1
  | OpRetry now u l => with_hook_db ad (RetryWebhookLogNow now (ha_hooks ad) u l).1
  end.

(** ** Inversions *)

Lemma Create_cases ad p : (Create ad p).1 = ad ∧ (∃ e, (Create ad p).2 = inl e) ∨
  ∃ w m, wh_id w = ha_next ad ∧ wh_user_id w = cw_UserID p ∧ (Create ad p).2 = inr (w, m) ∧
    (Create ad p).1 = mkHookAdmin (with_webhooks (ha_hooks ad) (<[ha_next ad := w]> (hd_webhooks (ha_hooks ad))))
                        (<[ha_next ad := m]> (ha_more ad)) (ha_next ad + 1) (ha_feeds ad).
Proof.
  unfold CreateWebhook. destruct (ResolveWebhookWrite _ _ _ _ _ _ _) as [|[[kind url] cfg]]; [left; eauto|]. cbv zeta.
  destruct (negb _); [left; eauto|]. destruct (NormalizeWebhookOnSuccess _); [|left; eauto].
  destruct (NormalizeWebhookName _); [left; eauto|]. destruct (NormalizeDigestMinutes _); [|left; eauto].
  right. eexists _, _. split; [|split; [|split; [reflexivity|reflexivity]]]; reflexivity.
Qed.

Lemma Update_cases ad p : (Update ad p).1 = ad ∧ (∃ e, (Update ad p).2 = inl e) ∨
  ∃ o om w m, own_hook ad (uw_UserID p) (uw_ID p) = Some (o, om) ∧ wh_id w = wh_id o ∧ wh_user_id w = wh_user_id o ∧
    (Update ad p).2 = inr (w, m) ∧
    (Update ad p).1 = mkHookAdmin (with_webhooks (ha_hooks ad) (<[uw_ID p := w]> (hd_webhooks (ha_hooks ad))))
                        (<[uw_ID p := m]> (ha_more ad)) (ha_next ad) (ha_feeds ad).
Proof.
  unfold UpdateWebhook. cbv zeta. destruct (negb _); [left; eauto|].
  destruct (NormalizeWebhookOnSuccess _); [|left; eauto]. destruct (NormalizeDigestMinutes _); [|left; eauto].
  destruct (own_hook ad _ _) as [[o om]|]; [|left; eauto].
  destruct (resolve_update _ _ _ _ _ _) as [|[[[[kind url] cfg] secret] name]]; [left; eauto|].
  right. eexists o, om, _, _. split; [reflexivity|]. split; [|split; [|split; [reflexivity|reflexivity]]]; reflexivity.
Qed.

Lemma Delete_cases ad u id : DeleteWebhook ad u id = (ad, Some ENotFound) ∨
  ∃ o om, own_hook ad u id = Some (o, om) ∧ (DeleteWebhook ad u id).2 = None ∧
    hd_webhooks (ha_hooks (DeleteWebhook ad u id).1) = delete id (hd_webhooks (ha_hooks ad)) ∧
    hd_logs (ha_hooks (DeleteWebhook ad u id).1) = filter (λ kl, wl_webhook_id kl.2 ≠ id) (hd_logs (ha_hooks ad)) ∧
    ha_more (DeleteWebhook ad u id).1 = delete id (ha_more ad) ∧ ha_next (DeleteWebhook ad u id).1 = ha_next ad.
Proof. unfold DeleteWebhook. destruct (own_hook ad u id) as [[o om]|]; [|by left]. right. eauto 10. Qed.

Lemma Retry_cases now db u lid : RetryWebhookLogNow now db u lid = (db, Some ENotFound) ∨
  ∃ l l' w, hd_logs db !! lid = Some l ∧ hd_webhooks db !! wl_webhook_id l = Some w ∧ wh_user_id w = u ∧
    wl_webhook_id l' = wl_webhook_id l ∧ RetryWebhookLogNow now db u lid = (with_logs db (<[lid := l']> (hd_logs db)), None).
Proof.
  unfold RetryWebhookLogNow. destruct (hd_logs db !! lid) as [l|]; [|by left].
  destruct (hd_webhooks db !! _) as [w|] eqn:W; [|by left]. destruct (_ && _) eqn:C; [|by left].
  right. bool_to_prop. eexists l, _, w. split; [done|]. split; [exact W|]. split; [done|]. by split; [|reflexivity].
Qed.

(** ** What a statement keeps *)

Lemma run_hook_wf op ad : hooks_wf ad → hooks_wf (run_hook_op op ad).
Proof.
  intros [O M]. destruct op as [p|p|u id|now u lid]; cbn [run_hook_op].
  - destruct (Create_cases ad p) as [[-> _]|(w & m & I & _ & _ & ->)]; [by split|].
    split; cbn [ha_hooks with_webhooks hd_webhooks ha_more ha_next]; intros k x [[<- <-]|[N H]]%lookup_insert_Some.
    + rewrite lookup_insert_eq. split; [done|]. split; [lia|eauto].
    + destruct (O _ _ H) as (? & ? & ?). rewrite lookup_insert_ne by done. split; [done|]. split; [lia|done].
    + rewrite lookup_insert_eq. eauto.
    + rewrite lookup_insert_ne by done. eauto.
  - destruct (Update_cases ad p) as [[-> _]|(o & om & w & m & Ow & I & _ & _ & ->)]; [by split|].
    apply own_hook_inv in Ow as (Lo & _ & _). destruct (O _ _ Lo) as (Io & Lt & _).
    split; cbn [ha_hooks with_webhooks hd_webhooks ha_more ha_next]; intros k x [[<- <-]|[N H]]%lookup_insert_Some.
    + rewrite lookup_insert_eq. split; [congruence|]. split; [done|eauto].
    + rewrite lookup_insert_ne by done. eauto.
    + rewrite lookup_insert_eq. eauto.
    + rewrite lookup_insert_ne by done. eauto.
  - destruct (Delete_cases ad u id) as [->|(o & om & Ow & _ & Hw & _ & Hm & Hn)]; [by split|].
    split; rewrite Hw, Hm, ?Hn; intros k x [N H]%lookup_delete_Some; rewrite lookup_delete_ne by done; eauto.
  - destruct (Retry_cases now (ha_hooks ad) u lid) as [->|(l & l' & w & _ & _ & _ & _ & ->)]; by split.
Qed.

Lemma run_hook_same v op ad : hooks_wf ad → hop_user op ≠ v → same_hooks_for v ad (run_hook_op op ad).
Proof.
  intros [O M] N. destruct op as [p|p|u id|now u lid]; cbn [run_hook_op hop_user] in *.
  - destruct (Create_cases ad p) as [[-> _]|(w & m & I & U & _ & ->)]; [by apply same_hooks_refl|]. split; [|done].
    intros id. unfold own_hook. cbn [ha_hooks with_webhooks hd_webhooks ha_more].
    destruct (decide (ha_next ad = id)) as [<-|D]; [|by rewrite !lookup_insert_ne].
    rewrite !lookup_insert_eq. cbn [mbind option_bind]. rewrite U, (proj2 (Z.eqb_neq _ _) N).
    destruct (hd_webhooks (ha_hooks ad) !! ha_next ad) as [x|] eqn:E; [|done]. apply O in E as (_ & ? & _). lia.
  - destruct (Update_cases ad p) as [[-> _]|(o & om & w & m & Ow & I & U & _ & ->)]; [by apply same_hooks_refl|]. split; [|done].
    apply own_hook_inv in Ow as (L & Lm & Uo). intros id. unfold own_hook. cbn [ha_hooks with_webhooks hd_webhooks ha_more].
    destruct (decide (uw_ID p = id)) as [<-|D]; [|by rewrite !lookup_insert_ne].
    rewrite !lookup_insert_eq, L, Lm. cbn [mbind option_bind]. by rewrite U, Uo, (proj2 (Z.eqb_neq _ _) N).
  - destruct (Delete_cases ad u id) as [->|(o & om & Ow & _ & Hw & Hl & Hm & _)]; [by apply same_hooks_refl|].
    apply own_hook_inv in Ow as (L & Lm & Uo). split.
    + intros k. unfold own_hook. rewrite Hw, Hm. destruct (decide (id = k)) as [<-|D]; [|by rewrite !lookup_delete_ne].
      rewrite !lookup_delete_eq, L, Lm. cbn [mbind option_bind]. by rewrite Uo, (proj2 (Z.eqb_neq _ _) N).
    + intros k l Ho. rewrite Hl, map_lookup_filter_Some. split; [by intros []|]. intros H. split; [done|]. intros E. simpl in E.
      unfold hook_owner in Ho. rewrite E, L in Ho. cbn in Ho. congruence.
  - destruct (Retry_cases now (ha_hooks ad) u lid) as [E|(l & l' & w & Hl & Hw & Uo & Wl & E)]; rewrite E.
    + split; done.
    + split; [done|]. intros k x Ho. cbn [fst with_hook_db ha_hooks with_logs hd_logs].
      destruct (decide (lid = k)) as [<-|D]; [|by rewrite lookup_insert_ne]. rewrite lookup_insert_eq, Hl.
      split; intros [= ->]; unfold hook_owner in Ho; rewrite ?Wl, Hw in Ho; cbn in Ho; congruence.
Qed.

End Ops.

(** * Listings *)

Definition hooks_of (ad : HookAdmin) (u : Z) : gmap Z StoredHook := map_imap (λ id _, own_hook ad u id) (ha_more ad).

Lemma lookup_hooks_of ad u id : hooks_of ad u !! id = own_hook ad u id.
Proof.
  unfold hooks_of. rewrite map_lookup_imap. unfold own_hook. destruct (ha_more ad !! id); [done|].
  cbn [mbind option_bind]. by destruct (hd_webhooks _ !! id).
Qed.

Lemma elem_of_user_hooks ad u id h : (id, h) ∈ user_hooks ad u ↔ own_hook ad u id = Some h.
Proof. unfold user_hooks. rewrite merge_sort_Permutation, elem_of_map_to_list. fold (hooks_of ad u). by rewrite lookup_hooks_of. Qed.

Definition hook_count (ad : HookAdmin) (u : Z) : Z := Z.of_nat (length (user_hooks ad u)).

Lemma hook_count_size ad u : hook_count ad u = Z.of_nat (size (hooks_of ad u)).
Proof. unfold hook_count, user_hooks. by rewrite merge_sort_Permutation, length_map_to_list. Qed.

Lemma hook_count_same u ad ad' : same_hooks_for u ad ad' → hook_count ad' u = hook_count ad u.
Proof.
  intros [H _]. rewrite !hook_count_size. do 2 f_equal. apply map_eq. intros id. by rewrite !lookup_hooks_of.
Qed.

(** The total of a page of one is the number of webhooks. *)
Lemma ListWebhooks_total ad u : (ListWebhooks ad u 1 0).2 = hook_count ad u.
Proof. unfold ListWebhooks, page_of, hook_count. cbn [snd]. by destruct (user_hooks ad u). Qed.

Section Api.
Context (decode_tg : string → string + TelegramProviderConfig) (decode_max : string → string + MaxProviderConfig)
        (json_valid : string → bool) (url_parse : string → option (string * string)).
Context (decode_webhook : string → string + webhookWriteRequest) (validate_url : option (string → option string))
        (flood_until : Z → option Z) (deliver_test : StoredHook → err + webhookTestResult) (log_created : WLog → Z).

Notation run := (run_hook_op decode_tg decode_max json_valid url_parse).
Notation serve := (webhook_serve decode_tg decode_max json_valid url_parse decode_webhook validate_url flood_until deliver_test log_created).
Notation DTO := (toWebhookDTO decode_tg decode_max).

(** ** What a request does *)

Definition within_quota (lim : Limits) (me : Principal) (ad : HookAdmin) (op : hook_op) : Prop :=
  match op with OpCreate _ => quota_Webhooks lim me (hook_count ad (p_UserID me)) = true | _ => True end.

Definition hook_effect (lim : Limits) (me : Principal) (ad ad' : HookAdmin) : Prop :=
  ad' = ad ∨ ∃ op, hop_user op = p_UserID me ∧ within_quota lim me ad op ∧ ad' = run op ad.

(** An answer concerns the caller's webhooks. *)
Definition shows_own (u : Z) (ad : HookAdmin) (resp : wresponse) : Prop :=
  match resp with
  | WHook _ d => dw_UserID d = u
  | WHooks ds _ => ∀ d, d ∈ ds → dw_UserID d = u
  | WLogs ls _ => ∀ l, l ∈ ls → hook_owner ad (wl_webhook_id l) = Some u
  | WTest _ res => ∃ id h, own_hook ad u id = Some h ∧ deliver_test h = inr res
  | WPlain _ | WRetried => True
  end.

Lemma DTO_user h : dw_UserID (DTO h) = wh_user_id h.1.
Proof. by destruct h. Qed.

Lemma GetWebhook_own ad u id h : GetWebhook ad u id = inr h → own_hook ad u id = Some h ∧ wh_user_id h.1 = u.
Proof.
  unfold GetWebhook. destruct (own_hook ad u id) as [[w m]|] eqn:E; [|done]. intros [= <-]. split; [done|].
  by apply own_hook_inv in E as (_ & _ & ?).
Qed.

Definition good (lim : Limits) (me : Principal) (st : WState) (out : WState * wresponse) : Prop :=
  hook_effect lim me (wx_hooks st) (wx_hooks out.1) ∧ shows_own (p_UserID me) (wx_hooks st) out.2.

Lemma good_same lim me st resp : shows_own (p_UserID me) (wx_hooks st) resp → good lim me st (st, resp).
Proof. split; [by left|done]. Qed.

Ltac refuse := apply good_same; exact I.
(** The two prologues: nobody else than the caller goes on. *)
Ltac enter := 
  lazymatch goal with
  | |- context [requireStore ?p ?a ?b ?c] =>
      let M := fresh "M" in destruct (requireStore p a b c) as [|?] eqn:M; [refuse|]; apply requireStore_me in M as [[= <-] _]
  | |- context [requireStoreID ?r ?p ?a ?b ?c] =>
      let M := fresh "M" in destruct (requireStoreID r p a b c) as [|[? ?]] eqn:M; [refuse|]; apply requireStoreID_me in M as [[= <-] _]
  end.

Lemma list_good limit offset s sw now r me st : good (sw_quotas sw) me st (handleListWebhooks decode_tg decode_max limit offset s sw now r (Some me) st).
Proof.
  unfold handleListWebhooks. enter. destruct (parseLimitOffset _ _ _) as [|[l o]]; [refuse|].
  destruct (ListWebhooks _ _ l o) as [rows total] eqn:E. apply good_same. intros d ([id h] & -> & H)%list_elem_of_fmap.
  assert (H' : (id, h) ∈ (page_of l o (user_hooks (wx_hooks st) (p_UserID me))).1) by (unfold ListWebhooks in E; by rewrite E).
  apply page_of_sub, elem_of_user_hooks in H'. destruct h as [w m]. cbn [snd]. rewrite DTO_user.
  by apply own_hook_inv in H' as (_ & _ & ?).
Qed.

Lemma create_good s sw now r me st :
  good (sw_quotas sw) me st (handleCreateWebhook decode_tg decode_max json_valid url_parse decode_webhook validate_url s sw now r (Some me) st).
Proof.
  unfold handleCreateWebhook. enter. destruct (decode_webhook _) as [|req]; [refuse|].
  destruct (providerConfigFromWrite req) as [|[kind cfg]]; [refuse|]. rewrite ListWebhooks_total. cbv zeta.
  destruct (_ && negb (quota_Webhooks _ _ _)) eqn:Q; [refuse|]. destruct (write_url _ _ _) as [|url]; [refuse|].
  match goal with |- context [CreateWebhook _ _ _ _ _ ?p] => set (prm := p) end.
  assert (QQ : quota_Webhooks (sw_quotas sw) me (hook_count (wx_hooks st) (p_UserID me)) = true).
  { unfold quota_Webhooks in *. destruct (IsAdmin me); [by rewrite orb_true_r|]. destruct (Z.leb_spec (MaxWebhooksPerEditor (sw_quotas sw)) 0); [done|].
    rewrite (proj2 (Z.ltb_lt _ _)) in Q by done. simpl in Q. by apply negb_false_iff in Q. }
  destruct (Create_cases decode_tg decode_max json_valid url_parse (wx_hooks st) prm) as [[E1 [e E2]]|(w & m & I & U & E2 & E1)];
    destruct (CreateWebhook _ _ _ _ _ prm) as [ad res] eqn:E; cbn [fst snd] in E1, E2; rewrite E2.
  - split; [|exact Logic.I]. left. exact E1.
  - split; [|cbn [snd shows_own]; by rewrite DTO_user]. right. exists (OpCreate prm). split; [done|]. split; [exact QQ|].
    cbn [run_hook_op]. by rewrite E.
Qed.

Lemma get_good s sw now r me st :
  good (sw_quotas sw) me st (handleGetWebhook decode_tg decode_max flood_until s sw now r (Some me) st).
Proof.
  unfold handleGetWebhook. enter. destruct (GetWebhook _ _ _) as [|h] eqn:G; [refuse|]. apply GetWebhook_own in G as [_ U].
  apply good_same. cbn [shows_own with_flood dw_UserID]. by rewrite DTO_user.
Qed.

Lemma update_good s sw now r me st :
  good (sw_quotas sw) me st (handleUpdateWebhook decode_tg decode_max json_valid url_parse decode_webhook validate_url s sw now r (Some me) st).
Proof.
  unfold handleUpdateWebhook. enter. destruct (decode_webhook _) as [|req]; [refuse|].
  destruct (providerConfigFromWrite req) as [|[kind cfg]]; [refuse|]. destruct (write_url _ _ _) as [|url]; [refuse|].
  match goal with |- context [UpdateWebhook _ _ _ _ _ ?p] => set (prm := p) end.
  destruct (Update_cases decode_tg decode_max json_valid url_parse (wx_hooks st) prm) as [[E1 [e E2]]|(o & om & w & m & Ow & I & U & E2 & E1)];
    destruct (UpdateWebhook _ _ _ _ _ prm) as [ad res] eqn:E; cbn [fst snd] in E1, E2; rewrite E2.
  - split; [left; exact E1|]. cbn [snd]. destruct (err_is_not_found e); exact Logic.I.
  - split.
    + right. exists (OpUpdate prm). split; [done|]. split; [exact Logic.I|]. cbn [run_hook_op]. by rewrite E.
    + cbn [snd shows_own]. rewrite DTO_user. cbn [fst]. rewrite U. by apply own_hook_inv in Ow as (_ & _ & ?).
Qed.

Lemma delete_good s sw now r me st : good (sw_quotas sw) me st (handleDeleteWebhook s sw now r (Some me) st).
Proof.
  unfold handleDeleteWebhook. enter. destruct (DeleteWebhook _ _ _) as [ad res] eqn:E.
  split; [|destruct res; exact I]. right. eexists (OpDelete _ _). split; [reflexivity|]. split; [exact I|]. cbn [run_hook_op].
  rewrite E. by destruct res.
Qed.

Lemma test_good s sw now r me st : good (sw_quotas sw) me st (handleTestWebhook deliver_test s sw now r (Some me) st).
Proof.
  unfold handleTestWebhook. enter. destruct (GetWebhook _ _ _) as [e|h] eqn:G; [destruct (err_is_not_found e); refuse|].
  apply GetWebhook_own in G as [O _]. destruct (deliver_test h) as [e|res] eqn:D; [destruct (err_is_not_found e); refuse|].
  apply good_same. by exists z, h.
Qed.

Lemma logs_good limit offset s sw now r me st :
  good (sw_quotas sw) me st (handleListWebhookLogs log_created limit offset s sw now r (Some me) st).
Proof.
  unfold handleListWebhookLogs. enter. destruct (GetWebhook _ _ z) as [e|[w m]] eqn:G; [refuse|].
  apply GetWebhook_own in G as [O _]. apply own_hook_inv in O as (L & _ & U).
  destruct (parseLimitOffset _ _ _) as [|[l o]]; [refuse|].
  destruct (ListWebhookLogs _ _ z l o) as [rows total] eqn:E. apply good_same. intros x H.
  assert (H' : x ∈ (ListWebhookLogs log_created (wx_hooks st) z l o).1) by by rewrite E.
  apply page_of_sub in H'. rewrite merge_sort_Permutation in H'. apply list_elem_of_filter in H' as [-> _].
  unfold hook_owner. rewrite L. by rewrite <-U.
Qed.

Lemma retry_good s sw now r me st : good (sw_quotas sw) me st (handleRetryWebhookLog s sw now r (Some me) st).
Proof.
  unfold handleRetryWebhookLog. enter. destruct (parsePathInt64 r "logID") as [|lid]; [refuse|].
  destruct (RetryWebhookLogNow _ _ _ _) as [h res] eqn:E. split; [|destruct res; exact I].
  right. eexists (OpRetry now _ lid). split; [reflexivity|]. split; [exact I|]. cbn [run_hook_op]. unfold with_hook_db. rewrite E. by destruct res.
Qed.

Lemma serve_good limit offset s sw now r me st : good (sw_quotas sw) me st (serve limit offset s sw now r (Some me) st).
Proof.
  unfold webhook_serve. destruct (route _ _) as [[[] name]|]; [|refuse].
  repeat (match goal with |- context [if ?b then _ else _] => destruct b end);
  [apply list_good|apply create_good|apply get_good|apply update_good|apply delete_good|apply test_good|apply logs_good|apply retry_good|refuse].
Qed.

Lemma hook_effect_wf lim me ad ad' : hooks_wf ad → hook_effect lim me ad ad' → hooks_wf ad'.
Proof. intros W [->|(op & _ & _ & ->)]; [done|]. by apply run_hook_wf. Qed.

(** ** Tenants *)


(** ** The quota *)

Lemma size_insert_le {A} (m : gmap Z A) k x : (size (<[k := x]> m) ≤ S (size m))%nat.
Proof.
  destruct (m !! k) as [y|] eqn:E; [rewrite map_size_insert_Some by eauto; lia|]. by rewrite map_size_insert_None.
Qed.

(** No statement but a creation makes a user's webhooks more, and that one by one. *)
Lemma run_hook_count op ad u : hooks_wf ad →
  hook_count (run op ad) u <= hook_count ad u + match op with OpCreate _ => 1 | _ => 0 end.
Proof.
  intros W. destruct (decide (hop_user op = u)) as [<-|N].
  2:{ rewrite (hook_count_same u ad) by by apply run_hook_same. destruct op; lia. }
  rewrite !hook_count_size. destruct op as [p|p|u id|now u lid]; cbn [run_hook_op hop_user].
  - destruct (Create_cases decode_tg decode_max json_valid url_parse ad p) as [[-> _]|(w & m & I & U & _ & ->)]; [lia|].
    enough (size (hooks_of (mkHookAdmin (with_webhooks (ha_hooks ad) (<[ha_next ad := w]> (hd_webhooks (ha_hooks ad))))
      (<[ha_next ad := m]> (ha_more ad)) (ha_next ad + 1) (ha_feeds ad)) (cw_UserID p)) ≤ S (size (hooks_of ad (cw_UserID p))))%nat by lia.
    rewrite <-(size_insert_le _ (ha_next ad) (w, m)). apply reflexive_eq. f_equal. apply map_eq. intros k.
    rewrite lookup_hooks_of. unfold own_hook. cbn [ha_hooks with_webhooks hd_webhooks ha_more].
    destruct (decide (ha_next ad = k)) as [<-|D].
    + rewrite !lookup_insert_eq. cbn [mbind option_bind]. by rewrite U, Z.eqb_refl.
    + rewrite !lookup_insert_ne by done. by rewrite lookup_hooks_of.
  - destruct (Update_cases decode_tg decode_max json_valid url_parse ad p) as [[-> _]|(o & om & w & m & Ow & I & U & _ & ->)]; [lia|].
    enough (hooks_of (mkHookAdmin (with_webhooks (ha_hooks ad) (<[uw_ID p := w]> (hd_webhooks (ha_hooks ad))))
      (<[uw_ID p := m]> (ha_more ad)) (ha_next ad) (ha_feeds ad)) (uw_UserID p) = <[uw_ID p := (w, m)]> (hooks_of ad (uw_UserID p))) as ->.
    { rewrite map_size_insert_Some by (rewrite lookup_hooks_of; eauto). lia. }
    apply map_eq. intros k. rewrite lookup_hooks_of. unfold own_hook. cbn [ha_hooks with_webhooks hd_webhooks ha_more].
    apply own_hook_inv in Ow as (_ & _ & Uo). destruct (decide (uw_ID p = k)) as [<-|D].
    + rewrite !lookup_insert_eq. cbn [mbind option_bind]. by rewrite U, Uo, Z.eqb_refl.
    + rewrite !lookup_insert_ne by done. by rewrite lookup_hooks_of.
  - destruct (Delete_cases ad u id) as [->|(o & om & Ow & _ & Hw & _ & Hm & _)]; [cbn; lia|].
    enough (hooks_of (DeleteWebhook ad u id).1 u = delete id (hooks_of ad u)) as ->.
    { rewrite map_size_delete. unfold Datatypes.id. repeat case_match; lia. }
    apply map_eq. intros k. rewrite lookup_hooks_of. unfold own_hook. rewrite Hw, Hm. destruct (decide (id = k)) as [<-|D].
    + by rewrite !lookup_delete_eq.
    + rewrite !lookup_delete_ne by done. by rewrite lookup_hooks_of.
  - enough (hooks_of (with_hook_db ad (RetryWebhookLogNow now (ha_hooks ad) u lid).1) u = hooks_of ad u) as -> by lia.
    destruct (Retry_cases now (ha_hooks ad) u lid) as [->|(l & l' & w & _ & _ & _ & _ & ->)]; [by destruct ad|done].
Qed.

(** A request with its caller and its time. *)
Record WEvent := mkWEvent { we_limit : string; we_offset : string; we_now : Z; we_request : ApiRequest; we_me : Principal }.

Definition wstep (s : Server) (sw : WServer) (st : WState) (e : WEvent) : WState :=
  (serve (we_limit e) (we_offset e) s sw (we_now e) (we_request e) (Some (we_me e)) st).1.

(** The quota holds through any traffic: a user who is never an administrator and starts within
    [MaxWebhooksPerEditor] webhooks stays within it, in any sequence of requests of any users. *)
Lemma webhook_quota_kept (s : Server) (sw : WServer) (u : Z) (evs : list WEvent) (st : WState) :
  hooks_wf (wx_hooks st) → 0 < MaxWebhooksPerEditor (sw_quotas sw) →
  Forall (λ e, p_UserID (we_me e) = u → IsAdmin (we_me e) = false) evs →
  hook_count (wx_hooks st) u <= MaxWebhooksPerEditor (sw_quotas sw) →
  hook_count (wx_hooks (foldl (wstep s sw) st evs)) u <= MaxWebhooksPerEditor (sw_quotas sw).
Proof.
  intros W P F. revert st W. induction F as [|e evs H F IH]; intros st W C; [done|]. cbn [foldl].
  destruct (serve_good (we_limit e) (we_offset e) s sw (we_now e) (we_request e) (we_me e) st) as [E _].
  fold (wstep s sw st e) in E. apply IH; [by eapply hook_effect_wf|]. destruct E as [->|(op & U & Q & ->)]; [done|].
  destruct (decide (p_UserID (we_me e) = u)) as [D|D].
  2:{ rewrite (hook_count_same u (wx_hooks st)); [done|]. apply run_hook_same; [done|congruence]. }
  pose proof (run_hook_count op (wx_hooks st) u W) as B. destruct op as [p| | |]; [|lia..].
  cbn [within_quota] in Q. unfold quota_Webhooks in Q. rewrite (H D) in Q. rewrite D in Q. bool_to_prop. lia.
Qed.

(** ** Secrets *)

(** What of a webhook anybody may learn: all but the signing secret and the bot token. *)
Definition hide_secret (w : Webhook) : Webhook :=
  mkWebhook (wh_id w) (wh_user_id w) (wh_url w) (wh_method w) (wh_headers w) (wh_body_template w) "" (wh_enabled w)
    (wh_on_success_entry w) (wh_kind w) (wh_digest_minutes w) (wh_sent_total w) (wh_failed_total w) (wh_last_error w).
Definition public_config (kind cfg : string) : string + string * string :=
  if decide (NormalizeWebhookKind kind = Some "telegram"%string) then
    match ParseTelegramProviderConfig decode_tg cfg with inr c => inr (tg_APIBase c, tg_ChatID c) | inl _ => inl cfg end
  else inl cfg.
Definition public (h : StoredHook) : Webhook * string * bool * (string + string * string) :=
  (hide_secret h.1, hm_Name h.2, hm_SystemAlerts h.2, public_config (wh_kind h.1) (hm_ProviderConfig h.2)).

(** Two stores that differ in secrets only. *)
Record alike (ad ad' : HookAdmin) : Prop := {
  al_hooks : ∀ u id, public <$> own_hook ad u id = public <$> own_hook ad' u id;
  al_owner : ∀ id, hook_owner ad id = hook_owner ad' id;
  al_logs : hd_logs (ha_hooks ad) = hd_logs (ha_hooks ad');
  al_next_log : hd_next_id (ha_hooks ad) = hd_next_id (ha_hooks ad');
  al_next : ha_next ad = ha_next ad';
  al_feeds : ha_feeds ad = ha_feeds ad';
}.

Lemma public_wh h h' : public h = public h' → hide_secret h.1 = hide_secret h'.1 ∧ hm_Name h.2 = hm_Name h'.2 ∧
  hm_SystemAlerts h.2 = hm_SystemAlerts h'.2 ∧ public_config (wh_kind h.1) (hm_ProviderConfig h.2) = public_config (wh_kind h'.1) (hm_ProviderConfig h'.2).
Proof.
  intros H. split; [exact (f_equal (λ x, x.1.1.1) H)|]. split; [exact (f_equal (λ x, x.1.1.2) H)|].
  split; [exact (f_equal (λ x, x.1.2) H)|exact (f_equal snd H)].
Qed.

Lemma hide_secret_eq w w' : hide_secret w = hide_secret w' → wh_id w = wh_id w' ∧ wh_user_id w = wh_user_id w' ∧ wh_url w = wh_url w' ∧
  wh_method w = wh_method w' ∧ wh_headers w = wh_headers w' ∧ wh_body_template w = wh_body_template w' ∧ wh_enabled w = wh_enabled w' ∧
  wh_on_success_entry w = wh_on_success_entry w' ∧ wh_kind w = wh_kind w' ∧ wh_digest_minutes w = wh_digest_minutes w' ∧
  wh_sent_total w = wh_sent_total w' ∧ wh_failed_total w = wh_failed_total w' ∧ wh_last_error w = wh_last_error w'.
Proof. unfold hide_secret. intros [= -> -> -> -> -> -> -> -> -> -> -> -> ->]. repeat split. Qed.

(** An accepted setting has a token. *)
Lemma Parse_token cfg c : ParseTelegramProviderConfig decode_tg cfg = inr c → tg_BotToken c ≠ "".
Proof.
  unfold ParseTelegramProviderConfig. destruct (String.eqb _ _); [done|]. destruct (decode_tg cfg) as [|c0]; [done|]. cbv zeta. cbn [tg_BotToken tg_ChatID].
  destruct (String.eqb_spec (trim_space (tg_BotToken c0)) ""); [done|]. destruct (String.eqb _ _); [done|]. by intros [= <-].
Qed.

Lemma public_mask kind cfg cfg' : NormalizeWebhookKind kind = Some "telegram"%string → public_config kind cfg = public_config kind cfg' →
  MaskTelegramConfig decode_tg cfg = MaskTelegramConfig decode_tg cfg'.
Proof.
  intros K. unfold public_config, MaskTelegramConfig. destruct (decide _); [|done].
  destruct (ParseTelegramProviderConfig decode_tg cfg) as [?|c] eqn:E; destruct (ParseTelegramProviderConfig decode_tg cfg') as [?|c'] eqn:E'; intros H; try discriminate H; [reflexivity|].
  injection H as -> ->. apply Parse_token in E, E'. destruct (String.eqb_spec (tg_BotToken c) ""); [done|]. by destruct (String.eqb_spec (tg_BotToken c') "").
Qed.

Lemma public_other kind cfg cfg' : NormalizeWebhookKind kind ≠ Some "telegram"%string → public_config kind cfg = public_config kind cfg' → cfg = cfg'.
Proof. intros K. unfold public_config. destruct (decide _); [done|]. by intros [= ->]. Qed.

Lemma public_DTO h h' : public h = public h' → DTO h = DTO h'.
Proof.
  intros P. apply public_wh in P as (W & N & A & C). destruct h as [w m], h' as [w' m']. cbn [fst snd] in *.
  apply hide_secret_eq in W as (E1 & E2 & E3 & E4 & E5 & E6 & E7 & E8 & E9 & E10 & _). rewrite <-E9 in C.
  unfold toWebhookDTO. rewrite E1, E2, E3, E4, E5, E6, E7, E8, E10, N, A, <-E9.
  destruct (decide (NormalizeWebhookKind (wh_kind w) = Some "telegram"%string)) as [K|K].
  - rewrite K. cbn [default from_option id]. by rewrite (public_mask _ _ _ K C).
  - by rewrite (public_other _ _ _ K C).
Qed.

Lemma public_shown h h' : public h = public h' → DTO h = DTO h' ∧ wh_id h.1 = wh_id h'.1.
Proof. intros P. split; [by apply public_DTO|]. apply public_wh in P as (W & _). by apply hide_secret_eq in W as (W & _). Qed.

(** *** Listings *)

Lemma sorted_ids (l l' : list Z) : StronglySorted Z.ge l → StronglySorted Z.ge l' → NoDup l → NoDup l' → (∀ i, i ∈ l ↔ i ∈ l') → l = l'.
Proof.
  intros S S' D D' H. eapply (StronglySorted_unique_strong Z.ge); [intros; lia|done|done|]. by apply NoDup_Permutation.
Qed.

Lemma user_hooks_ids_sorted ad u : StronglySorted Z.ge (user_hooks ad u).*1.
Proof.
  assert (S : StronglySorted hook_id_ge (user_hooks ad u)).
  { assert (Total hook_id_ge) by (intros [] []; unfold hook_id_ge; simpl; lia).
    assert (Transitive hook_id_ge) by (intros [] [] []; unfold hook_id_ge; simpl; lia).
    by apply StronglySorted_merge_sort. }
  induction S as [|x l _ IH F]; [constructor|]. cbn [fmap list_fmap]. constructor; [exact IH|].
  apply Forall_fmap. eapply Forall_impl; [exact F|]. intros y. unfold hook_id_ge. simpl. lia.
Qed.

Lemma user_hooks_NoDup ad u : NoDup (user_hooks ad u).*1.
Proof. unfold user_hooks. rewrite merge_sort_Permutation. apply NoDup_fst_map_to_list. Qed.

Lemma elem_of_user_ids ad u id : id ∈ (user_hooks ad u).*1 ↔ is_Some (own_hook ad u id).
Proof.
  rewrite list_elem_of_fmap. split.
  - intros ([i h] & -> & H). apply elem_of_user_hooks in H. eauto.
  - intros [h H]. exists (id, h). split; [done|]. by apply elem_of_user_hooks.
Qed.

Lemma alike_user_hooks ad ad' u : alike ad ad' → (public ∘ snd) <$> user_hooks ad u = (public ∘ snd) <$> user_hooks ad' u.
Proof.
  intros A. assert (E : (user_hooks ad u).*1 = (user_hooks ad' u).*1).
  { apply sorted_ids; [apply user_hooks_ids_sorted..|apply user_hooks_NoDup|apply user_hooks_NoDup|].
    intros i. rewrite !elem_of_user_ids. pose proof (al_hooks _ _ A u i) as H. rewrite <-!not_eq_None_Some.
    destruct (own_hook ad u i), (own_hook ad' u i); done. }
  assert (I : ∀ x, x ∈ user_hooks ad u → own_hook ad u x.1 = Some x.2) by (intros [i h]; apply elem_of_user_hooks).
  assert (I' : ∀ x, x ∈ user_hooks ad' u → own_hook ad' u x.1 = Some x.2) by (intros [i h]; apply elem_of_user_hooks).
  revert E I I'. generalize (user_hooks ad' u). generalize (user_hooks ad u). intros l. induction l as [|[i h] l IH]; intros [|[i' h'] l'] E I I'; try done.
  injection E as <- E. cbn [fmap list_fmap]. f_equal.
  - pose proof (al_hooks _ _ A u i) as H. assert (X : own_hook ad u i = Some h) by (apply (I (i, h)); by left).
    assert (X' : own_hook ad' u i = Some h') by (apply (I' (i, h')); by left). rewrite X, X' in H. by apply (inj Some) in H.
  - apply IH; [done|intros x X; apply I; by right|intros x X; apply I'; by right].
Qed.

Lemma public_DTOs (l l' : list (Z * StoredHook)) : (public ∘ snd) <$> l = (public ∘ snd) <$> l' →
  (λ h, DTO h.2) <$> l = (λ h, DTO h.2) <$> l'.
Proof.
  revert l'. induction l as [|x l IH]; intros [|x' l'] E; try done. cbn [fmap list_fmap] in *. f_equal.
  - apply public_DTO. pose proof (f_equal head E) as H. cbn [head compose] in H. by apply (inj Some) in H.
  - apply IH. exact (f_equal tail E).
Qed.

Lemma alike_list ad ad' u l o : alike ad ad' →
  (λ h, DTO h.2) <$> (ListWebhooks ad u l o).1 = (λ h, DTO h.2) <$> (ListWebhooks ad' u l o).1 ∧
  (ListWebhooks ad u l o).2 = (ListWebhooks ad' u l o).2.
Proof.
  intros A. pose proof (alike_user_hooks ad ad' u A) as E. unfold ListWebhooks, page_of. cbn [fst snd].
  assert (P : (public ∘ snd) <$> take (Z.to_nat (clamp_limit l)) (drop (Z.to_nat (clamp_offset o)) (user_hooks ad u)) =
              (public ∘ snd) <$> take (Z.to_nat (clamp_limit l)) (drop (Z.to_nat (clamp_offset o)) (user_hooks ad' u))).
  { by rewrite !fmap_take, !fmap_drop, E. }
  split; [by apply public_DTOs|]. apply (f_equal length) in E. rewrite !length_fmap in E. rewrite E.
  destruct (take _ _), (take _ (drop _ (user_hooks ad' u))); done.
Qed.

(** *** Settings *)

(** [json.Unmarshal] reads back what [json.Marshal] printed. *)
Definition decodes_printed : Prop := ∀ c, decode_tg (telegram_json c) = inr c.

Lemma telegram_json_brace c : ∃ s, telegram_json c = String "{" s.
Proof. unfold telegram_json. cbn [json_text]. eexists. reflexivity. Qed.

Lemma telegram_json_trim c : trim_space (telegram_json c) ≠ "".
Proof.
  destruct (telegram_json_brace c) as [s E]. apply (trim_space_keeps "{"); [done|done|]. rewrite E. cbn. by left.
Qed.

Lemma Parse_printed c : decode_tg (telegram_json c) = inr c → ParseTelegramProviderConfig decode_tg (telegram_json c) =
  if String.eqb (trim_space (tg_BotToken c)) "" then inl (EMsg "telegram bot_token is required")
  else if String.eqb (trim_space (tg_ChatID c)) "" then inl (EMsg "telegram chat_id is required")
  else inr (mkTelegram (TrimAPIBase (tg_APIBase c)) (trim_space (tg_BotToken c)) (trim_space (tg_ChatID c))).
Proof.
  intros E. unfold ParseTelegramProviderConfig. rewrite (proj2 (String.eqb_neq _ _) (telegram_json_trim c)), E. reflexivity.
Qed.

Lemma Parse_inv cfg c : ParseTelegramProviderConfig decode_tg cfg = inr c →
  ∃ c0, decode_tg cfg = inr c0 ∧ trim_space cfg ≠ "" ∧ trim_space (tg_BotToken c0) ≠ "" ∧ trim_space (tg_ChatID c0) ≠ "" ∧
    c = mkTelegram (TrimAPIBase (tg_APIBase c0)) (trim_space (tg_BotToken c0)) (trim_space (tg_ChatID c0)).
Proof.
  unfold ParseTelegramProviderConfig. destruct (String.eqb_spec (trim_space cfg) ""); [done|]. destruct (decode_tg cfg) as [|c0]; [done|].
  cbv zeta. cbn [tg_BotToken tg_ChatID]. destruct (String.eqb_spec (trim_space (tg_BotToken c0)) ""); [done|].
  destruct (String.eqb_spec (trim_space (tg_ChatID c0)) ""); [done|]. intros [= <-]. by exists c0.
Qed.

(** The settings a write stores, as parsing sees them. *)
Definition config_alike (x y : err + TelegramProviderConfig) : Prop :=
  match x, y with
  | inl e, inl e' => e = e'
  | inr c, inr c' => tg_APIBase c = tg_APIBase c' ∧ tg_ChatID c = tg_ChatID c'
  | _, _ => False
  end.

Lemma config_alike_refl x : config_alike x x.
Proof. by destruct x. Qed.

Definition or_braces (s : string) : string := if String.eqb (trim_space s) "" then "{}"%string else s.

Lemma merge_alike kind inc ex ex' : decodes_printed → public_config kind ex = public_config kind ex' →
  config_alike (ParseTelegramProviderConfig decode_tg (or_braces (MergeTelegramToken decode_tg inc ex)))
               (ParseTelegramProviderConfig decode_tg (or_braces (MergeTelegramToken decode_tg inc ex'))).
Proof.
  intros D. unfold public_config. destruct (decide _) as [K|K]; [|intros [= ->]; apply config_alike_refl].
  destruct (ParseTelegramProviderConfig decode_tg ex) as [?|c] eqn:P; destruct (ParseTelegramProviderConfig decode_tg ex') as [?|c'] eqn:P'; intros H; try discriminate H.
  { injection H as ->. apply config_alike_refl. }
  clear H. apply Parse_inv in P as (c0 & D0 & T0 & B0 & _), P' as (c0' & D0' & T0' & B0' & _).
  unfold MergeTelegramToken. destruct (parseTelegramLoose _ inc) as [|ci]; [apply config_alike_refl|].
  destruct (negb _); [apply config_alike_refl|].
  assert (L : parseTelegramLoose decode_tg ex = inr c0) by (unfold parseTelegramLoose; by rewrite (proj2 (String.eqb_neq _ _) T0)).
  assert (L' : parseTelegramLoose decode_tg ex' = inr c0') by (unfold parseTelegramLoose; by rewrite (proj2 (String.eqb_neq _ _) T0')).
  rewrite L, L'. unfold or_braces. rewrite !(proj2 (String.eqb_neq _ _) (telegram_json_trim _)), !Parse_printed by apply D.
  cbn [tg_BotToken tg_ChatID tg_APIBase]. rewrite (proj2 (String.eqb_neq _ _) B0), (proj2 (String.eqb_neq _ _) B0').
  by destruct (String.eqb _ _).
Qed.

Lemma stored_public cfg c : decodes_printed → ParseTelegramProviderConfig decode_tg cfg = inr c →
  public_config "telegram" (telegram_json c) = inr (TrimAPIBase (tg_APIBase c), tg_ChatID c).
Proof.
  intros D (c0 & _ & _ & B & C & ->)%Parse_inv. unfold public_config. destruct (decide _) as [|N]; [|by destruct N].
  rewrite Parse_printed by apply D. cbn [tg_BotToken tg_ChatID tg_APIBase]. rewrite !trim_space_idemp.
  by rewrite (proj2 (String.eqb_neq _ _) B), (proj2 (String.eqb_neq _ _) C).
Qed.

Notation resolve := (resolve_update decode_tg decode_max json_valid url_parse).
Notation Resolve := (ResolveWebhookWrite decode_tg decode_max json_valid url_parse).

Lemma Resolve_telegram url cfg : Resolve "telegram" url cfg =
  match ParseTelegramProviderConfig decode_tg (or_braces cfg) with
  | inl e => inl e
  | inr c => inr ("telegram"%string, TelegramDisplayURL (tg_APIBase c), telegram_json c)
  end.
Proof. reflexivity. Qed.

Definition resolved_alike (x y : err + string * string * string * string * string) : Prop :=
  match x, y with
  | inl e, inl e' => e = e'
  | inr (k, u, c, _, n), inr (k', u', c', _, n') => k = k' ∧ u = u' ∧ public_config k c = public_config k' c' ∧ n = n'
  | _, _ => False
  end.

Lemma resolve_alike p o o' : decodes_printed → public o = public o' → resolved_alike (resolve p o) (resolve p o').
Proof.
  intros D P. apply public_wh in P as (W & N & _ & C). apply hide_secret_eq in W as (_ & _ & _ & _ & _ & _ & _ & _ & K & _).
  unfold resolve_update. rewrite K, <-N in *. destruct (NormalizeWebhookKind _) as [kindNorm|]; [|done]. cbv zeta.
  destruct (String.eqb_spec kindNorm "telegram") as [->|Ne].
  - pose proof (merge_alike _ (uw_ProviderConfig p) _ _ D C) as M. rewrite !Resolve_telegram.
    match goal with |- resolved_alike (match match ?x with _ => _ end with _ => _ end) (match match ?y with _ => _ end with _ => _ end) =>
      destruct x as [e|c] eqn:P1; destruct y as [e'|c'] eqn:P2 end; [exact M|destruct M|destruct M|].
    destruct M as [A B]. assert (S : public_config "telegram" (telegram_json c) = public_config "telegram" (telegram_json c')).
    { by rewrite (stored_public _ _ D P1), (stored_public _ _ D P2), A, B. }
    destruct (uw_Name p) as [n|]; [destruct (NormalizeWebhookName n); [done|]|]; cbn [resolved_alike]; by rewrite A.
  - destruct (Resolve kindNorm _ _) as [|[[kind url] cfg]]; [done|]. destruct (uw_Name p) as [n|]; [by destruct (NormalizeWebhookName n)|done].
Qed.

(** *** Writes *)

Notation Create := (CreateWebhook decode_tg decode_max json_valid url_parse).
Notation Update := (UpdateWebhook decode_tg decode_max json_valid url_parse).

Definition answers_alike (x y : err + StoredHook) : Prop :=
  match x, y with inl e, inl e' => e = e' | inr h, inr h' => public h = public h' | _, _ => False end.

Lemma own_hook_insert ad id w m next feeds u k :
  own_hook (mkHookAdmin (with_webhooks (ha_hooks ad) (<[id := w]> (hd_webhooks (ha_hooks ad)))) (<[id := m]> (ha_more ad)) next feeds) u k =
  if decide (id = k) then if wh_user_id w =? u then Some (w, m) else None else own_hook ad u k.
Proof.
  unfold own_hook. cbn [ha_hooks with_webhooks hd_webhooks ha_more]. destruct (decide (id = k)) as [<-|D].
  - by rewrite !lookup_insert_eq.
  - by rewrite !lookup_insert_ne.
Qed.

Lemma alike_insert ad ad' id w m w' m' next feeds : alike ad ad' → public (w, m) = public (w', m') →
  alike (mkHookAdmin (with_webhooks (ha_hooks ad) (<[id := w]> (hd_webhooks (ha_hooks ad)))) (<[id := m]> (ha_more ad)) next feeds)
        (mkHookAdmin (with_webhooks (ha_hooks ad') (<[id := w']> (hd_webhooks (ha_hooks ad')))) (<[id := m']> (ha_more ad')) next feeds).
Proof.
  intros A P. pose proof (public_wh _ _ P) as (W & _). apply hide_secret_eq in W as (_ & U & _). cbn [fst] in U.
  split; cbn [ha_hooks with_webhooks hd_webhooks hd_logs hd_next_id ha_next ha_feeds]; try done; try apply A.
  - intros u k. rewrite !own_hook_insert. destruct (decide (id = k)); [|apply A]. rewrite U.
    destruct (_ =? u); [|done]. cbn [fmap option_fmap option_map]. by rewrite P.
  - intros k. unfold hook_owner. cbn [ha_hooks with_webhooks hd_webhooks]. destruct (decide (id = k)) as [<-|D].
    + rewrite !lookup_insert_eq. cbn. by rewrite U.
    + rewrite !lookup_insert_ne by done. apply A.
Qed.

Lemma create_alike ad ad' p : alike ad ad' → alike (Create ad p).1 (Create ad' p).1 ∧ answers_alike (Create ad p).2 (Create ad' p).2.
Proof.
  intros A. unfold CreateWebhook. rewrite <-(al_next _ _ A), <-(al_feeds _ _ A).
  destruct (Resolve _ _ _) as [|[[kind url] cfg]]; [done|]. cbv zeta.
  destruct (negb _); [done|]. destruct (NormalizeWebhookOnSuccess _); [|done].
  destruct (NormalizeWebhookName _); [done|]. destruct (NormalizeDigestMinutes _); [|done].
  split; [by apply alike_insert|done].
Qed.

Lemma update_alike ad ad' p : decodes_printed → alike ad ad' →
  alike (Update ad p).1 (Update ad' p).1 ∧ answers_alike (Update ad p).2 (Update ad' p).2.
Proof.
  intros D A. unfold UpdateWebhook. cbv zeta. destruct (negb _); [done|].
  destruct (NormalizeWebhookOnSuccess _) as [onS|]; [|done]. destruct (NormalizeDigestMinutes _) as [dig|]; [|done].
  pose proof (al_hooks _ _ A (uw_UserID p) (uw_ID p)) as O.
  destruct (own_hook ad _ _) as [o|], (own_hook ad' _ _) as [o'|]; [|done..]. apply (inj Some) in O.
  pose proof (resolve_alike p o o' D O) as R. apply public_wh in O as (W & _). apply hide_secret_eq in W as (E1 & E2 & _ & _ & _ & _ & _ & _ & _ & _ & E3 & E4 & E5).
  destruct (resolve p o) as [e|[[[[kind url] cfg] secret] name]], (resolve p o') as [e'|[[[[kind' url'] cfg'] secret'] name']]; try done.
  { cbn in R. subst e'. done. }
  destruct R as (-> & -> & C & ->). rewrite <-E1, <-E2, <-E3, <-E4, <-E5, <-(al_next _ _ A), <-(al_feeds _ _ A).
  match goal with |- alike (mkHookAdmin (with_webhooks _ (<[_ := ?w]> _)) (<[_ := ?m]> _) _ _, _).1 (mkHookAdmin (with_webhooks _ (<[_ := ?w']> _)) (<[_ := ?m']> _) _ _, _).1 ∧ _ =>
    assert (P : public (w, m) = public (w', m')) end.
  { unfold public, hide_secret. cbn [fst snd wh_kind hm_ProviderConfig hm_Name hm_SystemAlerts]. by rewrite C. }
  split; [by apply alike_insert|exact P].
Qed.

Lemma delete_alike ad ad' u id : alike ad ad' →
  alike (DeleteWebhook ad u id).1 (DeleteWebhook ad' u id).1 ∧ (DeleteWebhook ad u id).2 = (DeleteWebhook ad' u id).2.
Proof.
  intros A. unfold DeleteWebhook. pose proof (al_hooks _ _ A u id) as O.
  destruct (own_hook ad u id) as [o|], (own_hook ad' u id) as [o'|]; [|done..]. split; [|done].
  split; cbn [fst ha_hooks hd_logs hd_next_id ha_next ha_feeds].
  - intros v k. unfold own_hook. cbn [ha_hooks hd_webhooks ha_more]. destruct (decide (id = k)) as [<-|D]; [by rewrite !lookup_delete_eq|].
    rewrite !lookup_delete_ne by done. apply (al_hooks _ _ A v k).
  - intros k. unfold hook_owner. cbn [ha_hooks hd_webhooks]. destruct (decide (id = k)) as [<-|D]; [by rewrite !lookup_delete_eq|].
    rewrite !lookup_delete_ne by done. apply (al_owner _ _ A k).
  - by rewrite (al_logs _ _ A).
  - apply A.
  - apply A.
  - by rewrite (al_feeds _ _ A).
Qed.

Lemma retry_alike ad ad' now u lid : alike ad ad' →
  alike (with_hook_db ad (RetryWebhookLogNow now (ha_hooks ad) u lid).1) (with_hook_db ad' (RetryWebhookLogNow now (ha_hooks ad') u lid).1) ∧
  (RetryWebhookLogNow now (ha_hooks ad) u lid).2 = (RetryWebhookLogNow now (ha_hooks ad') u lid).2.
Proof.
  intros A. unfold RetryWebhookLogNow. rewrite (al_logs _ _ A).
  assert (S : alike (with_hook_db ad (ha_hooks ad)) (with_hook_db ad' (ha_hooks ad'))) by (destruct ad, ad'; exact A).
  destruct (hd_logs (ha_hooks ad') !! lid) as [l|]; [|done]. pose proof (al_owner _ _ A (wl_webhook_id l)) as O. unfold hook_owner in O.
  destruct (hd_webhooks (ha_hooks ad) !! _) as [w|], (hd_webhooks (ha_hooks ad') !! _) as [w'|]; [|done..].
  cbn [fmap option_fmap option_map] in O. apply (inj Some) in O. rewrite O. destruct (_ && _); [|done].
  split; [|done]. split; cbn; try apply A; done.
Qed.

(** No secret in an answer: if two states differ only in the signing secrets and the bot tokens of
    webhooks, every request but a test delivery is answered alike in both, leaves the same audit
    trail, and leaves states that still differ in these only, whoever asks; an update that keeps the
    stored token included. *)
Lemma webhook_secrets_hidden (limit offset : string) (s : Server) (sw : WServer) (now : Z) (r : ApiRequest) (p : option Principal)
    (api : Api) (ad ad' : HookAdmin) :
  decodes_printed → alike ad ad' → (λ x, x.2) <$> route (q_method r) (q_segs r) ≠ Some "handleTestWebhook"%string →
  let out := serve limit offset s sw now r p (mkWState api ad) in
  let out' := serve limit offset s sw now r p (mkWState api ad') in
  out.2 = out'.2 ∧ wx_api out.1 = wx_api out'.1 ∧ alike (wx_hooks out.1) (wx_hooks out'.1).
Proof.
  intros D A T. cbv zeta. unfold webhook_serve. destruct (route _ _) as [[[] name]|]; [|done].
  destruct (String.eqb name "handleListWebhooks").
  { unfold handleListWebhooks. destruct (requireStore _ _ _ _) as [|me]; [done|]. destruct (parseLimitOffset _ _ _) as [|[l o]]; [done|].
    cbn [wx_hooks]. pose proof (alike_list ad ad' (p_UserID me) l o A) as [E1 E2].
    destruct (ListWebhooks ad _ _ _) as [rows total], (ListWebhooks ad' _ _ _) as [rows' total']. cbn [fst snd] in *. by rewrite E1, E2. }
  destruct (String.eqb name "handleCreateWebhook").
  { unfold handleCreateWebhook. destruct (requireStore _ _ _ _) as [|me]; [done|]. destruct (decode_webhook _) as [|req]; [done|].
    destruct (providerConfigFromWrite req) as [|[kind cfg]]; [done|]. cbn [wx_hooks]. cbv zeta.
    rewrite (proj2 (alike_list ad ad' (p_UserID me) 1 0 A)). destruct (_ && _); [done|]. destruct (write_url _ _ _) as [|url]; [done|].
    match goal with |- context [Create ad ?q] => pose proof (create_alike ad ad' q A) as [H1 H2];
      destruct (Create ad q) as [x [e|h]], (Create ad' q) as [x' [e'|h']] end; try done; cbn [fst snd answers_alike] in H1, H2.
    - by subst e'.
    - destruct (public_shown _ _ H2) as [-> ->]. done. }
  destruct (String.eqb name "handleGetWebhook").
  { unfold handleGetWebhook. destruct (requireStoreID _ _ _ _ _) as [|[me id]]; [done|]. cbn [wx_hooks]. unfold GetWebhook.
    pose proof (al_hooks _ _ A (p_UserID me) id) as O. destruct (own_hook ad _ _) as [h|], (own_hook ad' _ _) as [h'|]; [|done..].
    apply (inj Some) in O. destruct (public_shown _ _ O) as [-> ->]. done. }
  destruct (String.eqb name "handleUpdateWebhook").
  { unfold handleUpdateWebhook. destruct (requireStoreID _ _ _ _ _) as [|[me id]]; [done|]. destruct (decode_webhook _) as [|req]; [done|].
    destruct (providerConfigFromWrite req) as [|[kind cfg]]; [done|]. cbn [wx_hooks]. destruct (write_url _ _ _) as [|url]; [done|].
    match goal with |- context [Update ad ?q] => pose proof (update_alike ad ad' q D A) as [H1 H2];
      destruct (Update ad q) as [x [e|h]], (Update ad' q) as [x' [e'|h']] end; try done; cbn [fst snd answers_alike] in H1, H2.
    - by subst e'.
    - destruct (public_shown _ _ H2) as [-> ->]. done. }
  destruct (String.eqb name "handleDeleteWebhook").
  { unfold handleDeleteWebhook. destruct (requireStoreID _ _ _ _ _) as [|[me id]]; [done|]. cbn [wx_hooks].
    pose proof (delete_alike ad ad' (p_UserID me) id A) as [H1 H2]. destruct (DeleteWebhook ad _ _) as [x o], (DeleteWebhook ad' _ _) as [x' o'].
    cbn [fst snd] in *. subst o'. by destruct o. }
  destruct (String.eqb_spec name "handleTestWebhook") as [->|]; [by destruct T|].
  destruct (String.eqb name "handleListWebhookLogs").
  { unfold handleListWebhookLogs. destruct (requireStoreID _ _ _ _ _) as [|[me id]]; [done|]. cbn [wx_hooks]. unfold GetWebhook.
    pose proof (al_hooks _ _ A (p_UserID me) id) as O. destruct (own_hook ad _ _) as [h|], (own_hook ad' _ _) as [h'|]; [|done..].
    destruct (parseLimitOffset _ _ _) as [|[l o]]; [done|]. unfold ListWebhookLogs. rewrite (al_logs _ _ A). by destruct (page_of _ _ _). }
  destruct (String.eqb name "handleRetryWebhookLog").
  { unfold handleRetryWebhookLog. destruct (requireStore _ _ _ _) as [|me]; [done|]. destruct (parsePathInt64 _ _) as [|lid]; [done|].
    cbn [wx_hooks]. pose proof (retry_alike ad ad' now (p_UserID me) lid A) as [H1 H2].
    destruct (RetryWebhookLogNow _ (ha_hooks ad) _ _) as [x o], (RetryWebhookLogNow _ (ha_hooks ad') _ _) as [x' o'].
    cbn [fst snd] in *. subst o'. by destruct o. }
  done.
Qed.

(** ** Bot tokens *)

(** What an update of a messenger webhook does to its settings: the token sent, or the stored one when
    none is sent, with the address and the chat that are sent; the update is refused exactly when
    there is then no token or no chat.  The mask a listing shows counts as a token that is sent. *)
Lemma telegram_token_update (p : UpdateWebhookParams) (o : StoredHook) (ci co : TelegramProviderConfig) :
  decodes_printed → NormalizeWebhookKind (uw_Kind p) = Some "telegram"%string → trim_space (uw_Kind p) ≠ "" →
  uw_Name p = None → uw_ProviderConfig p = telegram_json ci → hm_ProviderConfig o.2 = telegram_json co →
  let token := trim_space (if String.eqb (trim_space (tg_BotToken ci)) "" then tg_BotToken co else tg_BotToken ci) in
  resolve p o =
    if String.eqb token "" then inl (EMsg "telegram bot_token is required")
    else if String.eqb (trim_space (tg_ChatID ci)) "" then inl (EMsg "telegram chat_id is required")
    else inr ("telegram"%string, TelegramDisplayURL (TrimAPIBase (tg_APIBase ci)),
              telegram_json (mkTelegram (TrimAPIBase (tg_APIBase ci)) token (trim_space (tg_ChatID ci))), ""%string, hm_Name o.2).
Proof.
  intros D K Kb N Ei Eo token. unfold resolve_update. rewrite (proj2 (String.eqb_neq _ _) Kb), K, N, Ei, Eo. cbv zeta.
  change (String.eqb "telegram" "telegram") with true. cbn [trim_space]. rewrite Resolve_telegram.
  assert (M : MergeTelegramToken decode_tg (telegram_json ci) (telegram_json co) = telegram_json
    (mkTelegram (tg_APIBase ci) (if String.eqb (trim_space (tg_BotToken ci)) "" then tg_BotToken co else tg_BotToken ci) (tg_ChatID ci))).
  { unfold MergeTelegramToken, parseTelegramLoose. rewrite !(proj2 (String.eqb_neq _ _) (telegram_json_trim _)), !D.
    destruct (String.eqb _ _); cbn [negb]; [done|by destruct ci]. }
  rewrite M. unfold or_braces. rewrite (proj2 (String.eqb_neq _ _) (telegram_json_trim _)), Parse_printed by apply D.
  cbn [tg_BotToken tg_ChatID tg_APIBase]. fold token. destruct (String.eqb token ""); [done|]. by destruct (String.eqb (trim_space (tg_ChatID ci)) "").
Qed.

End Api.

(** * A decoder *)

Definition cons_char (c : ascii) (r : option (string * string)) : option (string * string) :=
  match r with Some (x, rest) => Some (String c x, rest) | None => None end.

(** A string literal, its opening quote read, up to the closing one: what [json_chars] writes. *)
Fixpoint read_chars (s : string) : option (string * string) :=
  match s with
  | "" => None
  | String c s1 =>
      if (byte_of c =? 34)%Z then Some (""%string, s1)
      else if negb (byte_of c =? 92)%Z then cons_char c (read_chars s1)
      else match s1 with
      | String "u" (String "2" (String "0" (String "2" (String d s2)))) =>
          cons_char (ascii_of_N 226) (cons_char (ascii_of_N 128) (cons_char (ascii_of_N (if Ascii.eqb d "8" then 168 else 169)) (read_chars s2)))
      | String "u" (String _ (String _ (String h (String l s2)))) =>
          let v c := (if byte_of c <? 58 then byte_of c - 48 else byte_of c - 87)%Z in
          cons_char (ascii_of_N (Z.to_N (16 * v h + v l))) (read_chars s2)
      | String e s2 =>
          cons_char (if Ascii.eqb e "b" then ascii_of_N 8 else if Ascii.eqb e "f" then ascii_of_N 12 else if Ascii.eqb e "n" then ascii_of_N 10
                else if Ascii.eqb e "r" then ascii_of_N 13 else if Ascii.eqb e "t" then ascii_of_N 9 else e) (read_chars s2)
      | "" => None
      end
  end%string%char.

Lemma read_json_byte c t : read_chars (json_byte c +:+ t) = cons_char c (read_chars t).
Proof. destruct c as [[] [] [] [] [] [] [] []]; reflexivity. Qed.

Lemma read_line_sep d t : d = "8"%char ∨ d = "9"%char → read_chars (String.append "\u202" (String d "") +:+ t) =
  cons_char (ascii_of_N 226) (cons_char (ascii_of_N 128) (cons_char (ascii_of_N (if Ascii.eqb d "8" then 168 else 169)) (read_chars t))).
Proof. intros [-> | ->]; reflexivity. Qed.

(** What is printed is read back, to the byte. *)
Lemma read_json_chars s rest : read_chars (json_chars 0 s +:+ quote_char +:+ rest) = Some (s, rest).
Proof.
  induction s as [s IH] using (well_founded_induction (well_founded_ltof _ String.length)). unfold ltof in IH.
  destruct s as [|a s]; [done|]. cbn [json_chars]. destruct (line_sep (String a s)) as [e|] eqn:L.
  - unfold line_sep in L. destruct s as [|b [|c s]]; [done..|]. destruct (_ && _) eqn:B; [|done]. bool_to_prop.
    assert (A : ∀ x n, byte_of x = Z.of_N n → x = ascii_of_N n).
    { intros x n E. rewrite <-(ascii_N_embedding x). f_equal. unfold byte_of in E. lia. }
    assert (a = ascii_of_N 226) as -> by by apply A. assert (b = ascii_of_N 128) as -> by by apply A.
    cbn [json_chars]. injection L as <-. destruct (byte_of c =? 168)%Z eqn:C; bool_to_prop.
    + assert (c = ascii_of_N 168) as -> by by apply A.
      rewrite <-app_assoc_s, (read_line_sep "8"), IH by first [by left|simpl; lia]. reflexivity.
    + assert (c = ascii_of_N 169) as -> by (apply A; lia).
      rewrite <-app_assoc_s, (read_line_sep "9"), IH by first [by right|simpl; lia]. reflexivity.
  - rewrite <-app_assoc_s, read_json_byte, IH by (simpl; lia). reflexivity.
Qed.

Definition expect (p s : string) : option string := if has_prefix s p then Some (str_drop (String.length p) s) else None.

Lemma expect_app p t : expect p (p +:+ t) = Some t.
Proof.
  unfold expect. assert (has_prefix (p +:+ t) p = true) as ->.
  { unfold has_prefix. induction p as [|c p IH]; [by destruct t|]. simpl. by destruct (ascii_dec c c). }
  f_equal. induction p as [|c p IH]; [by destruct t|exact IH].
Qed.

Definition field (open name : string) : string := open +:+ json_string name +:+ ":" +:+ quote_char.

(** The three settings, in the order they are printed. *)
Definition read_telegram (s : string) : string + TelegramProviderConfig :=
  match (s1 ← expect (field "{" "api_base") s; '(a, s2) ← read_chars s1;
         s3 ← expect (field "," "bot_token") s2; '(t, s4) ← read_chars s3;
         s5 ← expect (field "," "chat_id") s4; '(c, s6) ← read_chars s5;
         if String.eqb s6 "}" then Some (mkTelegram a t c) else None) with
  | Some c => inr c
  | None => inl "invalid character"%string
  end.

Lemma read_telegram_printed : decodes_printed read_telegram.
Proof.
  intros [a t c]. assert (E : telegram_json (mkTelegram a t c) =
    field "{" "api_base" +:+ (json_chars 0 a +:+ quote_char +:+ (field "," "bot_token" +:+ (json_chars 0 t +:+ quote_char +:+
      (field "," "chat_id" +:+ (json_chars 0 c +:+ quote_char +:+ "}"%string)))))).
  { unfold telegram_json, field. cbn [json_text map join String.concat fst snd tg_APIBase tg_BotToken tg_ChatID]. unfold json_string.
    rewrite <-!app_assoc_s. reflexivity. }
  unfold read_telegram. rewrite E, expect_app. cbn [mbind option_bind]. rewrite read_json_chars. cbn [mbind option_bind].
  rewrite expect_app. cbn [mbind option_bind]. rewrite read_json_chars. cbn [mbind option_bind].
  rewrite expect_app. cbn [mbind option_bind]. rewrite read_json_chars. reflexivity.
Qed.

(** * Witnesses *)

Definition w_config (token : string) : TelegramProviderConfig := mkTelegram "" token "-100".
Definition w_tg_hook (secret : string) : Webhook :=
  mkWebhook 1 1 "https://api.telegram.org/bot/sendMessage" "POST" "{}" "" secret true "none" "telegram" 0 0 0 None.
Definition w_http_hook : Webhook := mkWebhook 2 2 "https://h.example" "POST" "{}" "" "s" true "none" "http" 0 0 0 None.
Definition w_admin (secret token : string) : HookAdmin :=
  mkHookAdmin (mkHookDb (<[1 := w_tg_hook secret]> {[ 2 := w_http_hook ]}) {[ 1 := wit_log 1 2 30 50 ]} 2)
    (<[1 := mkHookMore "chat" (telegram_json (w_config token)) false]> {[ 2 := mkHookMore "push" "{}" false ]}) 3
    (mkFeedDb ∅ ∅ ∅ ∅ ∅).
Definition w_read_max (_ : string) : string + MaxProviderConfig := inl "invalid character"%string.
Definition w_url (_ : string) : option (string * string) := Some ("https", "h.example")%string.
Definition w_write (b : string) : string + webhookWriteRequest :=
  if String.eqb b "" then inl "invalid JSON body"%string
  else if String.eqb b "http" then inr (mkWebhookWrite (Some "mine"%string) None "https://h.example" None "" None None None None None None None None)
  else inr (mkWebhookWrite None (Some "telegram"%string) "" None "" None None None None None None (Some (w_config (trim_prefix b "token "))) None).
Definition w_deliver (_ : StoredHook) : err + webhookTestResult := inr (mkTestResult true 200 "" "").
Definition w_serve := webhook_serve read_telegram w_read_max (λ _, true) w_url w_write None (λ _, None) w_deliver wl_id.
Definition w_srv : Server := mkServer true true 0 "" "" [] None.
Definition w_wsrv : WServer := mkWServer true true (mkLimits 0 2 0).
Definition w_req (m : string) (segs : list string) (body : string) : ApiRequest :=
  mkApiRequest (ClientIP.mkRequest "" (λ _, []) "" false) m ("v1"%string :: "webhooks"%string :: segs) None body.
Definition w_editor : Principal := mkPrincipal 1 "editor" "ann" "".
Definition w_api : Api := mkApi (mkUserDb ∅ 1 ∅ 1 ∅ 1) [].

Lemma w_admin_wf secret token : hooks_wf (w_admin secret token).
Proof.
  split; cbn [w_admin ha_hooks hd_webhooks ha_more ha_next].
  - intros id w [[<- <-]|[N [<- <-]%lookup_singleton_Some]]%lookup_insert_Some; (split; [reflexivity|split; [reflexivity|]]).
    + rewrite lookup_insert_eq. eauto.
    + rewrite lookup_insert_ne, lookup_singleton_eq by done. eauto.
  - intros id m [[<- <-]|[N [<- <-]%lookup_singleton_Some]]%lookup_insert_Some.
    + rewrite lookup_insert_eq. eauto.
    + rewrite lookup_insert_ne, lookup_singleton_eq by done. eauto.
Qed.


(** The second creation is refused. *)
Lemma webhook_quota_kept_witness :
  let ev := mkWEvent "" "" 60 (w_req "POST" [] "http") w_editor in
  let step := wstep read_telegram w_read_max (λ _, true) w_url w_write None (λ _, None) w_deliver wl_id w_srv w_wsrv in
  let st := foldl step (mkWState w_api (w_admin "" "1:a")) [ev; ev; ev] in
  hook_count (wx_hooks st) 1 = 2 ∧ hook_count (wx_hooks st) 1 <= 2.
Proof.
  intros ev step st. split; [vm_compute; reflexivity|].
  refine (webhook_quota_kept read_telegram w_read_max (λ _, true) w_url w_write None (λ _, None) w_deliver wl_id w_srv w_wsrv 1
    [ev; ev; ev] (mkWState w_api (w_admin "" "1:a")) (w_admin_wf _ _) eq_refl _ _); [repeat constructor|vm_compute; discriminate].
Defined.

Lemma w_alike : alike read_telegram (w_admin "k1" "1:a") (w_admin "k2" "2:b").
Proof.
  split; try reflexivity.
  - intros u id. unfold own_hook, w_admin. cbn [ha_hooks hd_webhooks ha_more].
    destruct (decide (1 = id)) as [<-|N1]; [rewrite !lookup_insert_eq; cbn [mbind option_bind wh_user_id w_tg_hook]; by destruct (1 =? u)|].
    by rewrite !lookup_insert_ne by done.
  - intros id. unfold hook_owner, w_admin. cbn [ha_hooks hd_webhooks].
    destruct (decide (1 = id)) as [<-|N1]; [by rewrite !lookup_insert_eq|]. by rewrite !lookup_insert_ne by done.
Qed.

(** An update without a token keeps the one stored, and shows the same in both. *)
Lemma webhook_secrets_hidden_witness :
  let ask ad := w_serve "" "" w_srv w_wsrv 60 (w_req "PUT" ["1"]%string "token ") (Some w_editor) (mkWState w_api ad) in
  (ask (w_admin "k1" "1:a")).2 = (ask (w_admin "k2" "2:b")).2 ∧
  hm_ProviderConfig <$> ha_more (wx_hooks (ask (w_admin "k1" "1:a")).1) !! 1 = Some (telegram_json (w_config "1:a")) ∧
  hm_ProviderConfig <$> ha_more (wx_hooks (ask (w_admin "k2" "2:b")).1) !! 1 = Some (telegram_json (w_config "2:b")).
Proof.
  intros ask. split; [|split; vm_compute; reflexivity].
  refine (proj1 (webhook_secrets_hidden read_telegram w_read_max (λ _, true) w_url w_write None (λ _, None) w_deliver wl_id
    "" "" w_srv w_wsrv 60 (w_req "PUT" ["1"]%string "token ") (Some w_editor) w_api _ _ read_telegram_printed w_alike _)).
  vm_compute. discriminate.
Defined.

(** A listing's settings sent back unchanged: the mask becomes the token. *)
Lemma telegram_token_update_witness :
  let old := (w_tg_hook "", mkHookMore "chat" (telegram_json (w_config "1:a")) false) in
  let update c := mkUpdateWebhook 1 1 None "" "POST" "{}" "" None true "" "telegram" (telegram_json c) false 0 in
  let resolve := resolve_update read_telegram w_read_max (λ _, true) w_url in
  dw_Telegram (toWebhookDTO read_telegram w_read_max old) = Some (w_config token_mask) ∧
  resolve (update (w_config "")) old = inr ("telegram"%string, "https://api.telegram.org/bot/sendMessage"%string, telegram_json (w_config "1:a"), ""%string, "chat"%string) ∧
  resolve (update (w_config token_mask)) old = inr ("telegram"%string, "https://api.telegram.org/bot/sendMessage"%string, telegram_json (w_config token_mask), ""%string, "chat"%string).
Proof.
  intros old update resolve. split; [vm_compute; reflexivity|].
  assert (H : ∀ ci, _) by (intros ci; exact (telegram_token_update read_telegram w_read_max (λ _, true) w_url (update ci) old ci (w_config "1:a")
    read_telegram_printed eq_refl ltac:(discriminate) eq_refl eq_refl eq_refl)).
  split; unfold resolve; rewrite H; vm_compute; reflexivity.
Defined.
