(* ===== verification/UiAuth.v ===== *)
(** Signing in and the account pages of the web UI ([http/ui/auth.go], [settings.go],
    [admin.go], [redirect.go], the routes of [handler.go]).  A request is an API request
    with its form values; templates are page names.  [url.Parse], the query encoder,
    cryptography and the random source are parameters. *)

From S2P Require Import Prelude GoStrings NetIP Types UserStore ApiAuth.
From S2P Require ClientIP EntryStore.
From Stdlib Require Import Ascii.

(** * Requests, pages and the handler's settings *)

(** [None] is a form that does not parse. *)
Record UiRequest := mkUi { ur_api : ApiRequest; ur_form : option (string → string); ur_list : string → list string }.

Definition FormValue (r : UiRequest) (key : string) : string :=
  match ur_form r with Some f => f key | None => "" end.

Inductive ui_response :=
| UPage (name : string)
| UError (status : Z) (msg : string)
| URedirect (loc : string)
| ULogin (sid loc : string) (* sets the session cookie *)
| ULogout
| UToken (raw : string) (* sets the cookie of the new token *)
| UFollow (u : User) (categories : list Z) (* then the categories the new user follows *)
| UElsewhere (handler : string).

(** What these pages read of the UI's settings. *)
Record UiConfig := mkUiConfig {
  ui_server : Server; ui_CSRFSecret : string; ui_HSTSEnabled : bool; ui_InboundFeeds : bool; ui_Categories : bool;
}.

(** * Paths *)

(** http/ui/auth.go:507-527 [parsePathID] On the segment; an [int64] is accumulated. *)
Definition ui_parse_id (segment : string) : option Z :=
  match atoiNonNeg (trim_space segment) with
  | Some id => if id <=? 0 then None else Some id
  | None => None
  end.

(** The segments of a rooted path after [path.Clean]. *)
Fixpoint clean_segs (segs done_ : list string) : list string :=
  match segs with
  | [] => rev done_
  | s :: segs =>
      if String.eqb s "" || String.eqb s "." then clean_segs segs done_
      else if String.eqb s ".." then clean_segs segs (tail done_)
      else clean_segs segs (s :: done_)
  end.

(** [path.Clean] of a rooted path. *)
Definition path_clean (p : string) : string := "/" ++ join "/" (clean_segs (split_on slash p) []).

(** http/ui/auth.go [urlQueryEscape] *)
Fixpoint urlQueryEscape (s : string) : string :=
  match s with
  | "" => ""
  | String c s => if is_byte 32 c then ("%20" ++ urlQueryEscape s)%string else String c (urlQueryEscape s)
  end.

(** config/config.go [IsPlaceholderPassword] *)
Definition IsPlaceholderPassword (password : string) : bool := equal_fold (trim_space password) "changeme".

Fixpoint trim_blank (s : string) : string :=
  match s with
  | String c s' => if is_byte 32 c || is_byte 9 c then trim_blank s' else s
  | "" => ""
  end.

(** http/ui/entries.go [stringsTrim] *)
Definition stringsTrim (s : string) : string := str_rev (trim_blank (str_rev (trim_blank s))).

Section Ui.
(** [url.Parse]: the path and the raw query; deleting the failure banner from a query;
    [RequestURI] of a path and a query; cryptography. *)
Context (url_parse : string → option (string * string)) (drop_flash : string → string) (request_uri : string → string → string).
Context (bcrypt_hash : string → err + string) (bcrypt_match : string → string → bool) (sha256_hex : string → string)
        (hmac64 : string → string → string) (format_day : Z → string) (random_hex : Z → err + string).

(** http/ui/redirect.go [localUIPath] *)
Definition localUIPath (raw fallback : string) : string :=
  let raw := trim_space raw in
  if String.eqb raw "" then fallback
  else match url_parse raw with
  | None => fallback
  | Some (path, query) =>
      if negb (has_prefix path "/ui/") then fallback
      else
        let p := path_clean path in
        if negb (has_prefix p "/ui/") then fallback
        else
          let p := if has_suffix path "/" && negb (has_suffix p "/") then (p ++ "/")%string else p in
          request_uri p (drop_flash query)
  end.

(** * Sessions and form tokens *)

(** http/ui/auth.go [Handler.authenticate] The principal and the session id. *)
Definition authenticate (c : UiConfig) (now : Z) (db : UserDb) (r : UiRequest) : UserDb * option (Principal * string) :=
  let s := ui_server c in
  if negb (sv_sessions s) || negb (sv_users s) then (db, None)
  else
    let sid := SessionIDFromRequest (ur_api r) in
    if String.eqb sid "" then (db, None)
    else match LookupSession now db sid with
         | inl _ => (db, None)
         | inr sess =>
             match GetUser db (s_UserID sess) with
             | inl _ => (db, None)
             | inr u =>
                 let ttl := sessionTTL s in
                 let db := if SessionNeedsTouch (s_ExpiresAt sess) now ttl
                           then fst (TouchSession db sid (time_add now ttl)) else db in
                 (db, Some (mkPrincipal (u_ID u) (u_Role u) (u_Username u) "", sid))
             end
         end.

(** http/ui/auth.go [Handler.csrfToken] *)
Definition csrfToken (c : UiConfig) (now : Z) (r : UiRequest) : string :=
  let sid := SessionIDFromRequest (ur_api r) in
  if String.eqb sid "" then CSRFToken hmac64 format_day now (ui_CSRFSecret c) "login"
  else CSRFToken hmac64 format_day now (ui_CSRFSecret c) sid.

(** http/ui/auth.go [Handler.validateCSRF] *)
Definition validateCSRF (c : UiConfig) (now : Z) (r : UiRequest) : bool :=
  match ur_form r with
  | None => false
  | Some _ =>
      let token := FormValue r "csrf_token" in
      let sid := SessionIDFromRequest (ur_api r) in
      let sid := if String.eqb sid "" then "login"%string else sid in
      ValidateCSRF hmac64 format_day now (ui_CSRFSecret c) sid token
  end.

Definition ui_handler : Type := UiConfig → Z → UiRequest → option Principal → Api → Api * ui_response.

Definition request_target (r : UiRequest) : string := q_path (ur_api r).

(** http/ui/auth.go [Handler.requireAuth] The query of the page asked for is part of [uri]. *)
Definition requireAuth (uri : UiRequest → string) (next : ui_handler) : ui_handler := λ c now r _ st,
  match authenticate c now (api_users st) r with
  | (db, None) => (with_db st db, URedirect ("/ui/login?next=" ++ urlQueryEscape (uri r)))
  | (db, Some (p, _)) => next c now r (Some p) (with_db st db)
  end.

(** http/ui/auth.go [requireRole] *)
Definition ui_requireRole (role : string) (next : ui_handler) : ui_handler := λ c now r p st,
  match p with
  | Some q => if RoleAtLeast (p_Role q) role then next c now r p st else (st, UError 403 "forbidden")
  | None => (st, UError 403 "forbidden")
  end.

(** http/ui/auth.go [Handler.handleLoginGet] *)
Definition handleLoginGet : ui_handler := λ c now r p st,
  match authenticate c now (api_users st) r with
  | (db, Some _) => (with_db st db, URedirect "/ui/unread")
  | (db, None) => (with_db st db, UPage "login")
  end.

(** http/ui/auth.go [Handler.handleLoginPost] *)
Definition handleLoginPost (query_next : string) : ui_handler := λ c now r p st,
  if negb (validateCSRF c now r) then (st, UPage "login")
  else
    let username := trim_space (FormValue r "username") in
    let password := FormValue r "password" in
    let found := GetUserByUsername (api_users st) username in
    let u := match found with inr u => u | inl _ => mkUser 0 "" "" "" end in
    let ok := VerifyLogin bcrypt_match (u_PasswordHash u) password in
    if match found with inl _ => true | inr _ => false end || negb ok then (st, UPage "login")
    else match random_hex now with
    | inl _ => (st, UError 500 "internal error")
    | inr sid =>
        match CreateSession (api_users st) (u_ID u) sid (time_add now (sessionTTL (ui_server c))) with
        | (db, inl _) => (with_db st db, UError 500 "internal error")
        | (db, inr _) =>
            let st := with_db st db in
            if IsPlaceholderPassword password then (st, ULogin sid "/ui/settings?pw=placeholder")
            else
              let next := trim_space (FormValue r "next") in
              let next := if String.eqb next "" then trim_space query_next else next in
              (st, ULogin sid (localUIPath next "/ui/unread"))
        end
    end.

(** http/ui/auth.go [Handler.handleLogout] *)
Definition handleLogout : ui_handler := λ c now r p st,
  if validateCSRF c now r then
    let sid := SessionIDFromRequest (ur_api r) in
    if String.eqb sid "" then (st, ULogout) else (with_db st (DeleteSession (api_users st) sid), ULogout)
  else (st, ULogout).

(** * Accounts *)

(** The zero principal when the context has none. *)
Definition principal (p : option Principal) : Principal := default (mkPrincipal 0 "" "" "") p.

Definition record (c : UiConfig) (r : UiRequest) (p : option Principal) (action target : string) (id : Z) (st : Api) : Api :=
  Record_ (ui_server c) (ur_api r) p action target id st.

Definition ui_path_id (r : UiRequest) (segment : UiRequest → string) : option Z := ui_parse_id (segment r).

(** http/ui/admin.go [Handler.handleAdminUsers] *)
Definition handleAdminUsers : ui_handler := λ c now r p st, (st, UPage "admin_users").

(** http/ui/admin.go [Handler.handleAdminUserCreate] *)
Definition handleAdminUserCreate : ui_handler := λ c now r p st,
  if negb (validateCSRF c now r) then (st, UError 403 "forbidden")
  else
    let username := stringsTrim (FormValue r "username") in
    let password := FormValue r "password" in
    let role := FormValue r "role" in
    let role := if String.eqb role "" then RoleReader else role in
    if negb (IsValidRole role) then (st, UError 400 "invalid role")
    else match ValidateNewPassword password with
    | Some e => (st, UError 400 e)
    | None =>
        match HashPassword bcrypt_hash password with
        | inl e => (st, UError 400 (err_text e))
        | inr hash =>
            match CreateUser (api_users st) (mkCreateUser username hash role) with
            | (db, inl e) => (with_db st db, UError 400 (err_text e))
            | (db, inr u) =>
                let st := record c r p "user.create" "user" (u_ID u) (with_db st db) in
                (st, UFollow u (if ui_Categories c then omap parse_int64 (ur_list r "follow_category_ids") else []))
            end
        end
    end.

(** http/ui/admin.go [Handler.handleAdminUserRole] *)
Definition handleAdminUserRole (segment : UiRequest → string) : ui_handler := λ c now r p st,
  if negb (validateCSRF c now r) then (st, UError 403 "forbidden")
  else match ui_path_id r segment with
  | None => (st, UError 400 "invalid id")
  | Some id =>
      let role := FormValue r "role" in
      if negb (IsValidRole role) then (st, UError 400 "invalid role")
      else if (id =? p_UserID (principal p)) && negb (String.eqb role RoleAdmin) then (st, UError 400 "own admin role")
      else match UpdateUser (api_users st) (mkUpdateUser id None (Some role)) with
      | (db, inl e) =>
          (with_db st db, if err_is_not_found e then UError 404 "not found"
                          else if is_last_admin e then UError 409 "last admin" else UError 500 "update user failed")
      | (db, inr _) => (record c r p "user.update" "user" id (with_db st db), URedirect "/ui/admin/users")
      end
  end.

(** http/ui/admin.go [Handler.handleAdminUserPassword] *)
Definition handleAdminUserPassword (segment : UiRequest → string) : ui_handler := λ c now r p st,
  if negb (validateCSRF c now r) then (st, UError 403 "forbidden")
  else match ui_path_id r segment with
  | None => (st, UError 400 "invalid id")
  | Some id =>
      let password := FormValue r "password" in
      match ValidateNewPassword password with
      | Some e => (st, UError 400 e)
      | None =>
          match HashPassword bcrypt_hash password with
          | inl e => (st, UError 400 (err_text e))
          | inr hash =>
              match UpdateUser (api_users st) (mkUpdateUser id (Some hash) None) with
              | (db, inl e) => (with_db st db, if err_is_not_found e then UError 404 "not found" else UError 500 "update user failed")
              | (db, inr _) =>
                  let db := DeleteUserSessions db id in
                  (record c r p "user.update" "user" id (with_db st db),
                   URedirect (if id =? p_UserID (principal p) then "/ui/login" else "/ui/admin/users"))
              end
          end
      end
  end.

(** http/ui/admin.go [Handler.handleAdminUserDelete] *)
Definition handleAdminUserDelete (segment : UiRequest → string) : ui_handler := λ c now r p st,
  if negb (validateCSRF c now r) then (st, UError 403 "forbidden")
  else match ui_path_id r segment with
  | None => (st, UError 400 "invalid id")
  | Some id =>
      if id =? p_UserID (principal p) then (st, UError 400 "cannot delete self")
      else match DeleteUser (api_users st) id with
      | (db, inl e) =>
          (with_db st db, if err_is_not_found e then UError 404 "not found"
                          else if is_last_admin e then UError 409 "last admin" else UError 500 "delete user failed")
      | (db, inr _) => (record c r p "user.delete" "user" id (with_db st db), URedirect "/ui/admin/users")
      end
  end.

(** http/ui/settings.go [Handler.handleSettingsPassword] *)
Definition handleSettingsPassword : ui_handler := λ c now r p st,
  if negb (validateCSRF c now r) then (st, UError 403 "forbidden")
  else
    let id := p_UserID (principal p) in
    let current := FormValue r "current_password" in
    let password := FormValue r "password" in
    match GetUser (api_users st) id with
    | inl _ => (st, UError 500 "update failed")
    | inr u =>
        if negb (String.eqb (u_PasswordHash u) "") && negb (CheckPassword bcrypt_match (u_PasswordHash u) current)
        then (st, UError 400 "settings")
        else match ValidateNewPassword password with
        | Some _ => (st, UError 400 "settings")
        | None =>
            match HashPassword bcrypt_hash password with
            | inl _ => (st, UError 400 "settings")
            | inr hash =>
                match UpdateUser (api_users st) (mkUpdateUser id (Some hash) None) with
                | (db, inl _) => (with_db st db, UError 500 "update failed")
                | (db, inr _) =>
                    let db := if sv_sessions (ui_server c)
                              then DeleteUserSessionsExcept db id (SessionIDFromRequest (ur_api r)) else db in
                    (record c r p "user.password_change" "user" id (with_db st db), URedirect "/ui/settings?pw=changed")
                end
            end
        end
    end.

(** http/ui/settings.go [Handler.handleSettingsLogoutOthers] *)
Definition handleSettingsLogoutOthers : ui_handler := λ c now r p st,
  if negb (validateCSRF c now r) then (st, UError 403 "forbidden")
  else
    let id := p_UserID (principal p) in
    let db := DeleteUserSessionsExcept (api_users st) id (SessionIDFromRequest (ur_api r)) in
    (record c r p "session.logout_others" "user" id (with_db st db), URedirect "/ui/settings?pw=sessions").

(** http/ui/settings.go [Handler.handleAPIKeyCreate] *)
Definition handleAPIKeyCreate : ui_handler := λ c now r p st,
  if negb (validateCSRF c now r) then (st, UError 403 "forbidden")
  else
    let name := trim_space (FormValue r "name") in
    let scope := FormValue r "scope" in
    let scope := if String.eqb scope "" then ScopeAdmin else scope in
    if negb (IsValidScope scope) then (st, UError 400 "invalid scope")
    else
      let v := FormValue r "expires_in_days" in
      let expiry : option (option Z) :=
        if String.eqb v "" || String.eqb v "0" then Some None
        else match parse_int64 v with
             | Some days => if (days <? 0) || (3650 <? days) then None else Some (Some (time_add now (days * 24 * hour)))
             | None => None
             end in
      match expiry with
      | None => (st, UError 400 "invalid expiry")
      | Some expiresAt =>
          match NewAPIToken sha256_hex random_hex now with
          | inl _ => (st, UError 500 "internal error")
          | inr (raw, hash) =>
              match CreateAPIKey (api_users st) (p_UserID (principal p)) name hash scope expiresAt with
              | (db, inl e) => (with_db st db, UError 400 (err_text e))
              | (db, inr k) => (record c r p "api_key.create" "api_key" (k_ID k) (with_db st db), UToken raw)
              end
          end
      end.

(** http/ui/settings.go [Handler.handleAPIKeyDelete] *)
Definition handleAPIKeyDelete (segment : UiRequest → string) : ui_handler := λ c now r p st,
  if negb (validateCSRF c now r) then (st, UError 403 "forbidden")
  else match ui_path_id r segment with
  | None => (st, UError 400 "invalid id")
  | Some id =>
      match DeleteAPIKey (api_users st) (p_UserID (principal p)) id with
      | (db, Some _) => (with_db st db, UError 404 "not found")
      | (db, None) => (record c r p "api_key.delete" "api_key" id (with_db st db), URedirect "/ui/settings")
      end
  end.
End Ui.

(** * Routes *)

(** What is wrapped around a handler: nothing, [requireAuth], and inside it a role. *)
Inductive guard := GPublic | GAuth | GEditor | GAdmin.

Record UiRoute := mkRoute { ro_method : string; ro_pattern : string; ro_guard : guard; ro_handler : string }.

(** http/ui/handler.go:456-602 [Handler.Register] The pages of inbound feeds exist when these are on. *)
Definition ui_routes (inbound : bool) : list UiRoute :=
  [mkRoute "GET" "/ui/static/" GPublic "staticHandler";
   mkRoute "GET" "/favicon.ico" GPublic "redirectFavicon";
   mkRoute "GET" "/ui/login" GPublic "handleLoginGet";
   mkRoute "POST" "/ui/login" GPublic "handleLoginPost";
   mkRoute "POST" "/ui/logout" GPublic "handleLogout";
   mkRoute "GET" "/ui/" GAuth "handleRoot";
   mkRoute "GET" "/ui/unread" GAuth "handleUnread";
   mkRoute "GET" "/ui/starred" GAuth "handleStarred";
   mkRoute "POST" "/ui/unread/mark-read" GAuth "handleUnreadMarkRead";
   mkRoute "GET" "/ui/search" GAuth "handleSearch";
   mkRoute "GET" "/ui/entries/{id}/preview" GAuth "handleEntryPreview";
   mkRoute "GET" "/ui/entries/{id}" GAuth "handleEntryGet";
   mkRoute "POST" "/ui/entries/bulk" GAuth "handleEntriesBulk";
   mkRoute "POST" "/ui/entries/{id}/read" GAuth "handleEntryRead";
   mkRoute "POST" "/ui/entries/{id}/star" GAuth "handleEntryStar";
   mkRoute "GET" "/ui/feeds/detect-type" GEditor "handleFeedDetectType";
   mkRoute "GET" "/ui/feeds/suggest" GEditor "handleFeedSuggest";
   mkRoute "GET" "/ui/feeds" GAuth "handleFeedsList";
   mkRoute "GET" "/ui/feeds/new" GEditor "handleFeedNew";
   mkRoute "POST" "/ui/feeds" GEditor "handleFeedCreate";
   mkRoute "GET" "/ui/feeds/export" GEditor "handleFeedsExport";
   mkRoute "POST" "/ui/feeds/import" GEditor "handleFeedsImport";
   mkRoute "GET" "/ui/feeds/{id}" GAuth "handleFeedShow";
   mkRoute "GET" "/ui/feeds/{id}/edit" GEditor "handleFeedEdit";
   mkRoute "POST" "/ui/feeds/{id}" GEditor "handleFeedUpdate";
   mkRoute "POST" "/ui/feeds/{id}/delete" GEditor "handleFeedDelete";
   mkRoute "GET" "/ui/catalog" GAuth "redirectFeeds";
   mkRoute "GET" "/ui/collections" GAuth "redirectFeeds";
   mkRoute "GET" "/ui/collections/{id}" GAuth "redirectFeeds";
   mkRoute "POST" "/ui/feeds/{id}/subscribe" GAuth "handleSubscribe";
   mkRoute "POST" "/ui/feeds/{id}/unsubscribe" GAuth "handleUnsubscribe";
   mkRoute "POST" "/ui/categories/{id}/follow" GAuth "handleCategoryFollow";
   mkRoute "POST" "/ui/categories/{id}/unfollow" GAuth "handleCategoryUnfollow";
   mkRoute "POST" "/ui/feeds/{id}/refresh" GAuth "handleFeedRefresh";
   mkRoute "POST" "/ui/feeds/{feedID}/mark-read" GAuth "handleFeedMarkRead";
   mkRoute "GET" "/ui/categories" GEditor "handleCategoriesList";
   mkRoute "GET" "/ui/sidebar/categories/{id}/feeds" GAuth "handleSidebarCategoryFeeds";
   mkRoute "GET" "/ui/sidebar/uncategorized/feeds" GAuth "handleSidebarUncategorizedFeeds";
   mkRoute "GET" "/ui/feeds/categories/{id}/tree" GAuth "handleFeedsCategoryTree";
   mkRoute "GET" "/ui/feeds/uncategorized/tree" GAuth "handleFeedsUncategorizedTree";
   mkRoute "POST" "/ui/categories" GEditor "handleCategoryCreate";
   mkRoute "POST" "/ui/categories/{id}" GEditor "handleCategoryUpdate";
   mkRoute "POST" "/ui/categories/{id}/delete" GEditor "handleCategoryDelete";
   mkRoute "POST" "/ui/categories/reorder" GEditor "handleCategoryReorder";
   mkRoute "POST" "/ui/categories/{categoryID}/mark-read" GAuth "handleCategoryMarkRead";
   mkRoute "POST" "/ui/categories/{categoryID}/feeds/bulk-interval" GEditor "handleCategoryBulkInterval";
   mkRoute "POST" "/ui/categories/{categoryID}/feeds/bulk-webhook" GEditor "handleCategoryBulkWebhook";
   mkRoute "POST" "/ui/categories/{categoryID}/feeds/bulk-store-mode" GEditor "handleCategoryBulkStoreMode";
   mkRoute "POST" "/ui/categories/{categoryID}/feeds/bulk-adaptive" GEditor "handleCategoryBulkAdaptive";
   mkRoute "POST" "/ui/categories/{categoryID}/feeds/bulk-hash-entries" GEditor "handleCategoryBulkHashEntries";
   mkRoute "POST" "/ui/categories/{categoryID}/feeds/bulk-refresh" GEditor "handleCategoryBulkRefresh";
   mkRoute "POST" "/ui/categories/{categoryID}/feeds/bulk-pause" GEditor "handleCategoryBulkPause";
   mkRoute "POST" "/ui/categories/{categoryID}/feeds/bulk-move" GEditor "handleCategoryBulkMove";
   mkRoute "GET" "/ui/filters" GEditor "handleFiltersList";
   mkRoute "GET" "/ui/filters/new" GEditor "handleFilterNew";
   mkRoute "POST" "/ui/filters" GEditor "handleFilterCreate";
   mkRoute "GET" "/ui/filters/{id}" GEditor "handleFilterEdit";
   mkRoute "POST" "/ui/filters/{id}" GEditor "handleFilterUpdate";
   mkRoute "POST" "/ui/filters/{id}/delete" GEditor "handleFilterDelete";
   mkRoute "GET" "/ui/filters/{id}/matches" GEditor "handleFilterMatches";
   mkRoute "GET" "/ui/filters/{id}/test" GEditor "handleFilterTest";
   mkRoute "GET" "/ui/labels" GAuth "handleLabelsList";
   mkRoute "GET" "/ui/labels/{id}" GAuth "handleLabelEntries";
   mkRoute "POST" "/ui/labels/{id}/mark-read" GAuth "handleLabelMarkRead";
   mkRoute "POST" "/ui/labels" GAuth "handleLabelCreate";
   mkRoute "POST" "/ui/labels/{id}" GAuth "handleLabelUpdate";
   mkRoute "POST" "/ui/labels/{id}/delete" GAuth "handleLabelDelete";
   mkRoute "GET" "/ui/webhooks" GEditor "handleWebhooksList";
   mkRoute "GET" "/ui/webhooks/new" GEditor "handleWebhookNew";
   mkRoute "POST" "/ui/webhooks" GEditor "handleWebhookCreate";
   mkRoute "GET" "/ui/webhooks/{id}" GEditor "handleWebhookEdit";
   mkRoute "POST" "/ui/webhooks/{id}" GEditor "handleWebhookUpdate";
   mkRoute "POST" "/ui/webhooks/{id}/delete" GEditor "handleWebhookDelete";
   mkRoute "POST" "/ui/webhooks/{id}/pause" GEditor "handleWebhookPause";
   mkRoute "POST" "/ui/webhooks/{id}/unpause" GEditor "handleWebhookUnpause";
   mkRoute "POST" "/ui/webhooks/{id}/test" GEditor "handleWebhookTest";
   mkRoute "GET" "/ui/webhooks/{id}/logs" GEditor "handleWebhookLogs";
   mkRoute "POST" "/ui/webhooks/{id}/retry-all" GEditor "handleWebhookRetryAll";
   mkRoute "POST" "/ui/webhooks/{id}/reset-stats" GEditor "handleWebhookResetStats";
   mkRoute "POST" "/ui/webhook-logs/{id}/retry" GEditor "handleWebhookLogRetry";
   mkRoute "GET" "/ui/settings/bridges" GAdmin "handleSettingsBridges";
   mkRoute "GET" "/ui/settings/bridges/telegram" GAdmin "handleSettingsBridgeTelegram";
   mkRoute "POST" "/ui/settings/bridges/telegram" GAdmin "handleSettingsBridgeTelegramSave";
   mkRoute "GET" "/ui/settings/bridges/max" GAdmin "handleSettingsBridgeMax";
   mkRoute "POST" "/ui/settings/bridges/max" GAdmin "handleSettingsBridgeMaxSave";
   mkRoute "GET" "/ui/settings/bridges/vk" GAdmin "handleSettingsBridgeVK";
   mkRoute "POST" "/ui/settings/bridges/vk" GAdmin "handleSettingsBridgeVKSave";
   mkRoute "GET" "/ui/settings/bridges/rutube" GAdmin "handleSettingsBridgeRutube";
   mkRoute "POST" "/ui/settings/bridges/rutube" GAdmin "handleSettingsBridgeRutubeSave";
   mkRoute "GET" "/ui/settings/telegram" GAdmin "handleSettingsTelegramRedirect";
   mkRoute "GET" "/ui/settings" GAuth "handleSettings";
   mkRoute "POST" "/ui/settings/password" GAuth "handleSettingsPassword";
   mkRoute "POST" "/ui/settings/sessions/logout-others" GAuth "handleSettingsLogoutOthers";
   mkRoute "POST" "/ui/settings/api-keys" GAuth "handleAPIKeyCreate";
   mkRoute "POST" "/ui/settings/api-keys/{id}/delete" GAuth "handleAPIKeyDelete";
   mkRoute "GET" "/ui/admin/users" GAdmin "handleAdminUsers";
   mkRoute "GET" "/ui/admin/audit" GAdmin "handleAdminAudit";
   mkRoute "POST" "/ui/admin/users" GAdmin "handleAdminUserCreate";
   mkRoute "POST" "/ui/admin/users/{id}/role" GAdmin "handleAdminUserRole";
   mkRoute "POST" "/ui/admin/users/{id}/password" GAdmin "handleAdminUserPassword";
   mkRoute "POST" "/ui/admin/users/{id}/delete" GAdmin "handleAdminUserDelete";
   mkRoute "POST" "/ui/admin/feeds/refresh-all" GAdmin "handleAdminRefreshAll";
   mkRoute "POST" "/ui/admin/feeds/reset-circuits" GAdmin "handleAdminFeedsResetCircuits";
   mkRoute "GET" "/ui/admin/feeds" GAdmin "handleAdminFeedsList";
   mkRoute "GET" "/ui/admin/feeds/{id}" GAdmin "handleAdminFeedShow";
   mkRoute "POST" "/ui/admin/feeds/{id}/refresh" GAdmin "handleAdminFeedRefresh";
   mkRoute "POST" "/ui/admin/feeds/{id}/pause" GAdmin "handleAdminFeedPause";
   mkRoute "POST" "/ui/admin/feeds/{id}/unpause" GAdmin "handleAdminFeedUnpause";
   mkRoute "POST" "/ui/admin/feeds/{id}/reset-circuit" GAdmin "handleAdminFeedResetCircuit";
   mkRoute "POST" "/ui/admin/feeds/{id}/delete" GAdmin "handleAdminFeedDelete";
   mkRoute "POST" "/ui/admin/feeds/{id}/hash-entries" GAdmin "handleAdminFeedHashEntries";
   mkRoute "GET" "/ui/version" GAuth "handleVersionJSON";
   mkRoute "GET" "/ui/admin/system" GAdmin "handleAdminSystem";
   mkRoute "POST" "/ui/admin/system/hash-entries" GAdmin "handleAdminHashEntries";
   mkRoute "POST" "/ui/admin/system/workers" GAdmin "handleAdminWorkersSave";
   mkRoute "POST" "/ui/admin/system/retention" GAdmin "handleAdminRetentionSave";
   mkRoute "POST" "/ui/admin/system/retention/cleanup" GAdmin "handleAdminRetentionCleanupNow";
   mkRoute "POST" "/ui/admin/system/workers/pause" GAdmin "handleAdminWorkersPause";
   mkRoute "POST" "/ui/admin/system/workers/resume" GAdmin "handleAdminWorkersResume";
   mkRoute "POST" "/ui/admin/system/restart" GAdmin "handleAdminRestart";
   mkRoute "POST" "/ui/admin/system/update" GAdmin "handleAdminUpdate";
   mkRoute "GET" "/ui/admin/system/update/status" GAdmin "handleAdminUpdateStatus";
   mkRoute "GET" "/ui/admin/system/backup.txt" GAdmin "handleAdminBackupHint"] ++
  (if inbound then
  [mkRoute "GET" "/ui/feeds/new-inbound" GEditor "handleInboundFeedNew";
   mkRoute "POST" "/ui/feeds/inbound" GEditor "handleInboundFeedCreate";
   mkRoute "POST" "/ui/feeds/{id}/inbound-secret" GEditor "handleInboundSecretRotate"] else []).

(** A pattern that ends in a slash matches every path below it. *)
Definition is_subtree (pat : list string) : bool := String.eqb (List.last pat "x") "".

Definition match_pattern (pat segs : list string) : bool :=
  if is_subtree pat
  then (length pat <=? length segs)%nat && match_segs (removelast pat) (take (length pat - 1) segs)
  else match_segs pat segs.

Definition narrower (p q : list string) : bool :=
  if is_subtree q then if is_subtree p then (length q <=? length p)%nat else true
  else negb (is_subtree p) && more_specific p q.

Definition match_ui_route (method : string) (segs : list string) (e : UiRoute) : bool :=
  match_method (ro_method e) method && match_pattern (pat_segs (ro_pattern e)) segs.

Definition ui_route (inbound : bool) (method : string) (segs : list string) : option UiRoute :=
  mux_match (match_ui_route method segs) (λ e e', narrower (pat_segs (ro_pattern e)) (pat_segs (ro_pattern e')))
    (ui_routes inbound).

(** Every pattern is the narrowest of those that match its own text. *)
Example ui_routes_unambiguous :
  forallb (λ e, match ui_route true (ro_method e) (pat_segs (ro_pattern e)) with
                | Some e' => String.eqb (ro_pattern e) (ro_pattern e') && String.eqb (ro_handler e) (ro_handler e')
                | None => false end) (ui_routes true) = true.
Proof. vm_compute. reflexivity. Qed.

Section Mux.
Context (url_parse : string → option (string * string)) (drop_flash : string → string) (request_uri : string → string → string).
Context (bcrypt_hash : string → err + string) (bcrypt_match : string → string → bool) (sha256_hex : string → string)
        (hmac64 : string → string → string) (format_day : Z → string) (random_hex : Z → err + string).
(** The request's URI as the browser sent it, and the [next] of its query. *)
Context (uri : UiRequest → string) (query_next : UiRequest → string).

(** The handlers above by name; those of other pages leave accounts and sessions alone. *)
Definition ui_handle (e : UiRoute) : ui_handler := λ c now r p st,
  let name := ro_handler e in
  let seg := λ r, path_value (pat_segs (ro_pattern e)) (q_segs (ur_api r)) "id" in
  if String.eqb name "handleLoginGet" then handleLoginGet c now r p st
  else if String.eqb name "handleLoginPost"
  then handleLoginPost url_parse drop_flash request_uri bcrypt_match hmac64 format_day random_hex (query_next r) c now r p st
  else if String.eqb name "handleLogout" then handleLogout hmac64 format_day c now r p st
  else if String.eqb name "handleAdminUsers" then handleAdminUsers c now r p st
  else if String.eqb name "handleAdminUserCreate" then handleAdminUserCreate bcrypt_hash hmac64 format_day c now r p st
  else if String.eqb name "handleAdminUserRole" then handleAdminUserRole hmac64 format_day seg c now r p st
  else if String.eqb name "handleAdminUserPassword" then handleAdminUserPassword bcrypt_hash hmac64 format_day seg c now r p st
  else if String.eqb name "handleAdminUserDelete" then handleAdminUserDelete hmac64 format_day seg c now r p st
  else if String.eqb name "handleSettingsPassword" then handleSettingsPassword bcrypt_hash bcrypt_match hmac64 format_day c now r p st
  else if String.eqb name "handleSettingsLogoutOthers" then handleSettingsLogoutOthers hmac64 format_day c now r p st
  else if String.eqb name "handleAPIKeyCreate" then handleAPIKeyCreate sha256_hex hmac64 format_day random_hex c now r p st
  else if String.eqb name "handleAPIKeyDelete" then handleAPIKeyDelete hmac64 format_day seg c now r p st
  else (st, UElsewhere name).

Definition guarded (g : guard) (next : ui_handler) : ui_handler :=
  match g with
  | GPublic => next
  | GAuth => requireAuth uri next
  | GEditor => requireAuth uri (ui_requireRole RoleEditor next)
  | GAdmin => requireAuth uri (ui_requireRole RoleAdmin next)
  end.

(** A whole request to the UI. *)
Definition ui_request (c : UiConfig) (now : Z) (r : UiRequest) (st : Api) : Api * ui_response :=
  match ui_route (ui_InboundFeeds c) (q_method (ur_api r)) (q_segs (ur_api r)) with
  | None => (st, UElsewhere "404")
  | Some e => guarded (ro_guard e) (ui_handle e) c now r None st
  end.
End Mux.

(** * Facts about routes and handlers *)

Definition admin_writers : list string :=
  ["handleAdminUserCreate"; "handleAdminUserRole"; "handleAdminUserPassword"; "handleAdminUserDelete"]%string.

(** The account handlers sit behind their guards, and answer POST only. *)
Definition account_guard (e : UiRoute) : bool :=
  (if bool_decide (ro_handler e ∈ admin_writers)
   then match ro_guard e with GAdmin => String.eqb (ro_method e) "POST" | _ => false end else true) &&
  (if String.eqb (ro_handler e) "handleSettingsPassword"
   then match ro_guard e with GAuth => String.eqb (ro_method e) "POST" | _ => false end else true).

Lemma account_routes b e : e ∈ ui_routes b → account_guard e = true.
Proof.
  intros H. assert (forallb account_guard (ui_routes b) = true) as F by (destruct b; vm_compute; reflexivity).
  rewrite forallb_forall in F. apply F. by apply list_elem_of_In.
Qed.

Lemma ui_route_spec b method segs e :
  ui_route b method segs = Some e → e ∈ ui_routes b ∧ (ro_method e = "POST" → method = "POST").
Proof.
  intros [H M]%mux_match_spec. split; [done|]. unfold match_ui_route in M. apply andb_prop in M as [M _].
  intros P. rewrite P in M. change (String.eqb "POST" method || false = true) in M. rewrite orb_false_r in M. bool_to_prop. done.
Qed.

Section MuxFacts.
Context (url_parse : string → option (string * string)) (drop_flash : string → string) (request_uri : string → string → string).
Context (bcrypt_hash : string → err + string) (bcrypt_match : string → string → bool) (sha256_hex : string → string)
        (hmac64 : string → string → string) (format_day : Z → string) (random_hex : Z → err + string).
Context (uri : UiRequest → string) (query_next : UiRequest → string).

Local Notation handle := (ui_handle url_parse drop_flash request_uri bcrypt_hash bcrypt_match sha256_hex hmac64 format_day
  random_hex query_next).
Local Notation request := (ui_request url_parse drop_flash request_uri bcrypt_hash bcrypt_match sha256_hex hmac64 format_day
  random_hex uri query_next).
Local Notation csrf_ok := (validateCSRF hmac64 format_day).

Lemma authenticate_cookie c now db r :
  match authenticate c now db r with
  | (db', Some (p, sid)) => ud_users db' = ud_users db ∧ by_cookie now db (ur_api r) p ∧ sid = SessionIDFromRequest (ur_api r)
  | (db', None) => db' = db
  end.
Proof.
  unfold authenticate. destruct (_ || _); [done|]. destruct (String.eqb _ _) eqn:E; [done|].
  destruct (LookupSession _ _ _) as [|sess] eqn:L; [done|]. destruct (GetUser _ _) as [|u] eqn:G; [done|].
  apply LookupSession_spec in L as (id & L & I & X). apply GetUser_spec in G. bool_to_prop. split_and!; [| |done].
  - destruct (SessionNeedsTouch _ _ _); [apply TouchSession_users|done].
  - exists id, sess. rewrite I. split_and!; try done. by exists u.
Qed.

(** The caller's own row gets a new hash, their other sessions are gone. *)
Definition own_password (c : UiConfig) (r : UiRequest) (p : Principal) (st st' : Api) : Prop :=
  ∃ u hash, users_of st !! p_UserID p = Some u ∧
    (u_PasswordHash u = "" ∨ ∃ cur, bcrypt_match (u_PasswordHash u) cur = true) ∧
    users_of st' = <[p_UserID p := mkUser (u_ID u) (u_Username u) hash (u_Role u)]> (users_of st) ∧
    (sv_sessions (ui_server c) = true → ∀ id x, ud_sessions (api_users st') !! id = Some x → s_UserID x = p_UserID p →
       s_SessionID x = SessionIDFromRequest (ur_api r)).

Lemma settings_password c now r p st :
  let st' := fst (handleSettingsPassword bcrypt_hash bcrypt_match hmac64 format_day c now r p st) in
  users_of st' = users_of st ∨ (csrf_ok c now r = true ∧ own_password c r (principal p) st st').
Proof.
  unfold handleSettingsPassword. destruct (negb (csrf_ok c now r)) eqn:V; [by left|]. bool_to_prop.
  destruct (GetUser _ _) as [|u] eqn:G; [by left|]. apply GetUser_spec in G.
  destruct (negb (String.eqb (u_PasswordHash u) "") && _) eqn:K; [by left|].
  destruct (ValidateNewPassword _); [by left|]. destruct (HashPassword _ _) as [|hash]; [by left|].
  destruct (UpdateUser _ _) as [db [e|v]] eqn:U.
  - left. apply update_fails in U as ->. done.
  - right. split; [done|]. apply update_password in U as (w & Lw & U). assert (w = u) as -> by congruence.
    exists u, hash. split_and!; [done| | |].
    + apply andb_false_iff in K as [K|K]; bool_to_prop; [by left|right]. unfold CheckPassword in K.
      destruct (_ || _); [done|]. eauto.
    + unfold users_of. cbn. destruct (sv_sessions _); exact U.
    + intros S. rewrite S. cbn. intros id x [_ F]%map_lookup_filter_Some I. simpl in F.
      destruct (decide (s_SessionID x = SessionIDFromRequest (ur_api r))) as [|N]; [done|]. destruct F. done.
Qed.

(** A handler that needs the form token does nothing without it. *)
Lemma needs_token c now r (st : Api) (x : Api * ui_response) (P : Prop) :
  (csrf_ok c now r = true → P) →
  users_of (fst (if negb (csrf_ok c now r) then (st, UError 403 "forbidden") else x)) = users_of st ∨ P.
Proof. intros H. destruct (csrf_ok c now r); [right; auto|by left]. Qed.

Lemma authenticate_users c now db r : ud_users (fst (authenticate c now db r)) = ud_users db.
Proof.
  pose proof (authenticate_cookie c now db r) as A. destruct (authenticate c now db r) as [d [[p sid]|]]; simpl; [apply A|by subst].
Qed.

Lemma CreateSession_users db u s e : ud_users (fst (CreateSession db u s e)) = ud_users db.
Proof. unfold CreateSession. by destruct (rows_where _ _), (ud_users db !! u). Qed.

Lemma session_pages q c now r p st :
  users_of (fst (handleLoginGet c now r p st)) = users_of st ∧
  users_of (fst (handleLoginPost url_parse drop_flash request_uri bcrypt_match hmac64 format_day random_hex q c now r p st)) = users_of st ∧
  users_of (fst (handleLogout hmac64 format_day c now r p st)) = users_of st ∧
  users_of (fst (handleSettingsLogoutOthers hmac64 format_day c now r p st)) = users_of st.
Proof.
  unfold users_of. split_and!.
  - unfold handleLoginGet. pose proof (authenticate_users c now (api_users st) r) as A.
    destruct (authenticate c now (api_users st) r) as [d [?|]]; exact A.
  - unfold handleLoginPost. destruct (negb _); [done|]. destruct (_ || _); [done|]. destruct (random_hex now) as [|sid]; [done|].
    match goal with |- context [CreateSession ?d ?u ?s ?e] =>
      pose proof (CreateSession_users d u s e) as C; destruct (CreateSession d u s e) as [d' [?|?]] end; [exact C|].
    destruct (IsPlaceholderPassword _); exact C.
  - unfold handleLogout. destruct (validateCSRF _ _ c now r); [|done]. by destruct (String.eqb _ _).
  - unfold handleSettingsLogoutOthers. by destruct (negb _).
Qed.

Lemma key_pages seg c now r p st :
  users_of (fst (handleAPIKeyCreate sha256_hex hmac64 format_day random_hex c now r p st)) = users_of st ∧
  users_of (fst (handleAPIKeyDelete hmac64 format_day seg c now r p st)) = users_of st.
Proof.
  unfold users_of. split.
  - unfold handleAPIKeyCreate. destruct (negb (validateCSRF _ _ _ _ _)); [done|]. destruct (negb (IsValidScope _)); [done|].
    match goal with |- context [match ?x with Some _ => _ | None => (st, UError 400 "invalid expiry") end] => destruct x end; [|done].
    destruct (NewAPIToken _ _ _) as [|[raw hash]]; [done|]. unfold CreateAPIKey.
    destruct (rows_where _ _); [|done]. destruct (ud_users (api_users st) !! _); done.
  - unfold handleAPIKeyDelete. destruct (negb (validateCSRF _ _ _ _ _)); [done|]. destruct (ui_path_id _ _); [|done].
    unfold DeleteAPIKey. destruct (ud_keys (api_users st) !! _) as [k|]; [|done]. by destruct (_ =? _).
Qed.

Lemma ui_handle_users e c now r p st :
  let st' := fst (handle e c now r p st) in
  users_of st' = users_of st ∨
  (csrf_ok c now r = true ∧ ro_handler e ∈ admin_writers) ∨
  (ro_handler e = "handleSettingsPassword" ∧ csrf_ok c now r = true ∧ own_password c r (principal p) st st').
Proof.
  unfold ui_handle. cbn zeta.
  destruct (session_pages (query_next r) c now r p st) as (H1 & H2 & H3 & H4).
  destruct (key_pages (λ r, path_value (pat_segs (ro_pattern e)) (q_segs (ur_api r)) "id") c now r p st) as [H5 H6].
  destruct (String.eqb (ro_handler e) "handleLoginGet"); [by left|].
  destruct (String.eqb (ro_handler e) "handleLoginPost"); [by left|].
  destruct (String.eqb (ro_handler e) "handleLogout"); [by left|].
  destruct (String.eqb (ro_handler e) "handleAdminUsers"); [by left|].
  assert (∀ n x, n ∈ admin_writers → String.eqb (ro_handler e) n = true →
    users_of (fst (if negb (csrf_ok c now r) then (st, UError 403 "forbidden") else x)) = users_of st ∨
    csrf_ok c now r = true ∧ ro_handler e ∈ admin_writers) as T.
  { intros n x Hn E. apply needs_token. bool_to_prop. rewrite E. done. }
  destruct (String.eqb (ro_handler e) "handleAdminUserCreate") eqn:E1.
  { edestruct (T "handleAdminUserCreate"%string) as [U|U]; [set_solver|done|left; exact U|right; left; exact U]. }
  destruct (String.eqb (ro_handler e) "handleAdminUserRole") eqn:E2.
  { edestruct (T "handleAdminUserRole"%string) as [U|U]; [set_solver|done|left; exact U|right; left; exact U]. }
  destruct (String.eqb (ro_handler e) "handleAdminUserPassword") eqn:E3.
  { edestruct (T "handleAdminUserPassword"%string) as [U|U]; [set_solver|done|left; exact U|right; left; exact U]. }
  destruct (String.eqb (ro_handler e) "handleAdminUserDelete") eqn:E4.
  { edestruct (T "handleAdminUserDelete"%string) as [U|U]; [set_solver|done|left; exact U|right; left; exact U]. }
  destruct (String.eqb (ro_handler e) "handleSettingsPassword") eqn:E5.
  { bool_to_prop. destruct (settings_password c now r p st) as [U|[V O]]; auto. }
  destruct (String.eqb (ro_handler e) "handleSettingsLogoutOthers"); [by left|].
  destruct (String.eqb (ro_handler e) "handleAPIKeyCreate"); [by left|].
  destruct (String.eqb (ro_handler e) "handleAPIKeyDelete"); by left.
Qed.

Lemma require_auth_cases next c now r p st :
  let st' := fst (requireAuth uri next c now r p st) in
  users_of st' = users_of st ∨
  ∃ q st1, by_cookie now (api_users st) (ur_api r) q ∧ users_of st1 = users_of st ∧
    requireAuth uri next c now r p st = next c now r (Some q) st1.
Proof.
  unfold requireAuth. pose proof (authenticate_cookie c now (api_users st) r) as A.
  destruct (authenticate c now (api_users st) r) as [d [[q sid]|]]; [|left; by subst d].
  right. exists q, (with_db st d). destruct A as (U & B & _). done.
Qed.

(** The pages change accounts for the same callers as the API does.  If a request to
    the UI leaves a different set of accounts behind, it is a POST with the form token of
    its session, its session is alive, and it comes from an administrator, or it
    replaces the caller's own password hash and nothing else, the current password
    having been given where there is one, and signs out the caller's other browsers. *)
Lemma ui_account_changes_authorized c now r st :
  let st' := fst (request c now r st) in
  users_of st' ≠ users_of st →
  q_method (ur_api r) = "POST" ∧ csrf_ok c now r = true ∧
  ∃ p, by_cookie now (api_users st) (ur_api r) p ∧ (p_Role p = RoleAdmin ∨ own_password c r p st st').
Proof.
  unfold ui_request. destruct (ui_route _ _ _) as [e|] eqn:R; [|done]. intros N.
  apply ui_route_spec in R as [Hin HM]. pose proof (account_routes _ _ Hin) as G. unfold account_guard in G.
  apply andb_prop in G as [G1 G2].
  destruct (ro_guard e) eqn:GE; cbn [guarded] in N |- *.
  - destruct (ui_handle_users e c now r None st) as [U|[[V W]|(W & _)]]; [done| |].
    + rewrite bool_decide_true in G1 by done. done.
    + rewrite W in G2. done.
  - destruct (require_auth_cases (handle e) c now r None st) as [U|(q & st1 & B & U & E)]; [done|]. rewrite E in N |- *.
    destruct (ui_handle_users e c now r (Some q) st1) as [U1|[[V W]|(W & V & O)]]; [congruence| |].
    + rewrite bool_decide_true in G1 by done. done.
    + rewrite W in G2. cbn in G2. bool_to_prop. split; [auto|]. split; [done|]. exists q. split; [done|]. right.
      unfold own_password in *. rewrite U in O. exact O.
  - destruct (require_auth_cases (ui_requireRole RoleEditor (handle e)) c now r None st) as [U|(q & st1 & B & U & E)]; [done|].
    rewrite E in N |- *. unfold ui_requireRole in *. destruct (RoleAtLeast _ _); [|done].
    destruct (ui_handle_users e c now r (Some q) st1) as [U1|[[V W]|(W & _)]]; [congruence| |].
    + rewrite bool_decide_true in G1 by done. done.
    + rewrite W in G2. done.
  - destruct (require_auth_cases (ui_requireRole RoleAdmin (handle e)) c now r None st) as [U|(q & st1 & B & U & E)]; [done|].
    rewrite E in N |- *. unfold ui_requireRole in *. destruct (RoleAtLeast (p_Role q) RoleAdmin) eqn:RA; [|done].
    destruct (ui_handle_users e c now r (Some q) st1) as [U1|[[V W]|(W & _)]]; [congruence| |].
    + rewrite bool_decide_true in G1 by done. bool_to_prop. split; [auto|]. split; [done|]. exists q. split; [done|]. left.
      by apply RoleAtLeast_admin.
    + rewrite W in G2. done.
Qed.
End MuxFacts.

(** ** Signing in *)

Lemma CreateSession_inr db u sid e db' s :
  CreateSession db u sid e = (db', inr s) →
  s = mkSession (ud_next_session db) u sid e ∧ ud_users db' = ud_users db ∧
  ud_sessions db' = <[ud_next_session db := s]> (ud_sessions db).
Proof. unfold CreateSession. destruct (rows_where _ _); [|done]. destruct (ud_users db !! u); [|done]. by intros [= <- <-]. Qed.

Lemma LookupSession_row now db i s :
  db_ok db → ud_sessions db !! i = Some s → now < s_ExpiresAt s → LookupSession now db (s_SessionID s) = inr s.
Proof.
  intros W L X. destruct (LookupSession now db (s_SessionID s)) as [e|x] eqn:H.
  - unfold LookupSession in H. destruct (rows_where _ _) eqn:F; [|done].
    pose proof (rows_where_nil _ _ F i s L) as N. simpl in N. rewrite String.eqb_refl in N. simpl in N. bool_to_prop. lia.
  - apply LookupSession_spec in H as (j & Lj & I & _). assert (j = i) as -> by (by eapply (ok_session_ids db W)). congruence.
Qed.

(** C33: signing in opens exactly the session it should.  When the login form answers with
    a session cookie, its form token was valid, a user of the given name exists and the
    password matches that user's hash; no account changed; every request that
    carries the cookie before the session lifetime is over is that user's; and
    the browser is sent to a path of the UI, whatever the form or the query named. *)
Theorem login_opens_session url_parse drop_flash request_uri bcrypt_match hmac64 format_day random_hex
    query_next c now r p st st' sid loc :
  db_ok (api_users st) → sv_users (ui_server c) = true → sv_sessions (ui_server c) = true →
  (∀ t s, random_hex t = inr s → s ≠ "") →
  (∀ p q, has_prefix p "/ui/" = true → has_prefix (request_uri p q) "/ui/" = true) →
  handleLoginPost url_parse drop_flash request_uri bcrypt_match hmac64 format_day random_hex query_next c now r p st =
    (st', ULogin sid loc) →
  validateCSRF hmac64 format_day c now r = true ∧
  (∃ id u, users_of st !! id = Some u ∧ u_Username u = trim_space (FormValue r "username") ∧
     VerifyLogin bcrypt_match (u_PasswordHash u) (FormValue r "password") = true ∧
     ∀ t r', SessionIDFromRequest (ur_api r') = sid → t < now + sessionTTL (ui_server c) →
       snd (authenticate c t (api_users st') r') = Some (mkPrincipal id (u_Role u) (u_Username u) "", sid)) ∧
  users_of st' = users_of st ∧ has_prefix loc "/ui/" = true.
Proof.
  intros W U S R RU. unfold handleLoginPost. destruct (negb (validateCSRF hmac64 format_day c now r)) eqn:V; [done|]. bool_to_prop.
  destruct (GetUserByUsername (api_users st) _) as [e|u] eqn:G; [done|]. cbn [orb].
  destruct (negb (VerifyLogin _ _ _)) eqn:VL; [done|]. bool_to_prop.
  destruct (random_hex now) as [|sid'] eqn:RH; [done|]. apply R in RH.
  destruct (CreateSession _ _ _ _) as [db [e|s]] eqn:C; [done|].
  apply by_name_inr in G as (id & L & NM). autorewrite with go_rw in NM.
  pose proof (CreateSession_ok (api_users st) (u_ID u) sid' (time_add now (sessionTTL (ui_server c))) W) as W'. rewrite C in W'. simpl in W'.
  apply CreateSession_inr in C as (-> & CU & CS). destruct (ok_user _ W id u L) as [I _].
  assert (∀ (t : Z) r', SessionIDFromRequest (ur_api r') = sid' → t < now + sessionTTL (ui_server c) →
    snd (authenticate c t db r') = Some (mkPrincipal id (u_Role u) (u_Username u) "", sid')) as A.
  { intros t r' I' T. unfold authenticate. rewrite U, S, I', (proj2 (String.eqb_neq _ _) RH). cbn [negb orb].
    pose proof (LookupSession_row t db (ud_next_session (api_users st))
      (mkSession (ud_next_session (api_users st)) (u_ID u) sid' (time_add now (sessionTTL (ui_server c)))) W') as LS.
    cbn [s_SessionID s_ExpiresAt] in LS. rewrite LS; [|by rewrite CS, lookup_insert_eq|done].
    unfold GetUser. cbn [s_UserID]. rewrite CU, I, L. simpl. by rewrite I. }
  intros H. split; [done|].
  assert (has_prefix loc "/ui/" = true ∧ api_users st' = db ∧ sid' = sid) as (HL & EQ & <-).
  { destruct (IsPlaceholderPassword _); injection H as <- <- <-; split_and!; try done.
    unfold localUIPath. destruct (String.eqb _ ""); [done|]. destruct (url_parse _) as [[pth qry]|]; [|done].
    destruct (negb (has_prefix pth "/ui/")); [done|]. destruct (negb (has_prefix (path_clean pth) "/ui/")) eqn:PC; [done|].
    bool_to_prop. apply RU. destruct (_ && _); [|done]. by apply has_prefix_app. }
  subst db. split; [|split; [exact CU|exact HL]]. exists id, u. split_and!; done.
Qed.

Lemma update_hash db id hash db' u : UpdateUser db (mkUpdateUser id (Some hash) None) = (db', inr u) → u_PasswordHash u = hash.
Proof.
  unfold UpdateUser, EntryStore.withTx. cbn [uu_PasswordHash uu_Role uu_ID default].
  destruct (ud_users db !! id) as [v|]; [|done]. by intros [= _ <-].
Qed.

(** ** What one types is what one set, unless the API set it *)

(** A password set on the settings page signs its user in: the text as typed passes
    the login check against the hash now stored.  A password set through PUT /v1/me
    does not when white space surrounds it: the API hashes the trimmed text, the
    login form compares the text as typed (bcrypt accepting a hash's own
    password only). *)
Lemma password_set_is_password_typed bcrypt_hash bcrypt_match hmac64 format_day decode_me
    c now r p st st' s r2 p2 st2 st2' u2 req :
  (∀ x h, bcrypt_hash x = inr h → h ≠ "" ∧ ∀ y, bcrypt_match h y = true ↔ y = x) →
  handleSettingsPassword bcrypt_hash bcrypt_match hmac64 format_day c now r p st = (st', URedirect "/ui/settings?pw=changed") →
  decode_me (q_body r2) = inr req → trim_space (mu_Password req) ≠ mu_Password req →
  handleUpdateMe bcrypt_hash bcrypt_match decode_me s now r2 p2 st2 = (st2', RUser 200 u2) →
  (∃ u, users_of st' !! p_UserID (principal p) = Some u ∧
     VerifyLogin bcrypt_match (u_PasswordHash u) (FormValue r "password") = true) ∧
  VerifyLogin bcrypt_match (u_PasswordHash u2) (mu_Password req) = false ∧
  VerifyLogin bcrypt_match (u_PasswordHash u2) (trim_space (mu_Password req)) = true.
Proof.
  intros B H1 D N H2.
  assert (∀ x h, HashPassword bcrypt_hash x = inr h → h ≠ "" ∧ x ≠ "" ∧ ∀ y, bcrypt_match h y = true ↔ y = x) as B'.
  { intros x h. unfold HashPassword. destruct (String.eqb x "") eqn:E; [done|]. intros H. apply B in H as [? ?]. by bool_to_prop. }
  assert (∀ x h, HashPassword bcrypt_hash x = inr h → ∀ y, VerifyLogin bcrypt_match h y = true ↔ y = x) as V.
  { intros x h H y. apply B' in H as (H & X & M). unfold VerifyLogin. rewrite (proj2 (String.eqb_neq h "") H).
    destruct (String.eqb y "") eqn:E; [|apply M]. bool_to_prop. subst y. split; [done|]. by intros <-. }
  split.
  - unfold handleSettingsPassword in H1. destruct (negb (validateCSRF _ _ _ _ _)); [done|].
    destruct (GetUser _ _) as [|u]; [done|]. destruct (_ && _); [done|]. destruct (ValidateNewPassword _); [done|].
    destruct (HashPassword _ _) as [|hash] eqn:HP; [done|]. destruct (UpdateUser _ _) as [db [e|v]] eqn:U; [done|].
    injection H1 as <-. apply update_password in U as (w & Lw & U).
    exists (mkUser (u_ID w) (u_Username w) hash (u_Role w)). split.
    + unfold users_of. cbn. destruct (sv_sessions _); cbn; rewrite U; apply lookup_insert_eq.
    + by apply (V _ _ HP).
  - unfold handleUpdateMe, requireUser in H2. destruct p2 as [me|]; [|done]. destruct (p_UserID me <=? 0); [done|]. destruct (negb (sv_users s)); [done|].
    rewrite D in H2. destruct (String.eqb _ ""); [done|]. destruct (GetUser _ _) as [e|cur]; [|].
    { injection H2 as _ H2. unfold storeError in H2. by destruct (err_is_not_found e). }
    destruct (if String.eqb (u_PasswordHash cur) "" then _ else _) as [x|] eqn:K.
    { injection H2 as _ ->. destruct (String.eqb (u_PasswordHash cur) ""); [destruct (0 <? _)|destruct (negb _)]; done. }
    destruct (ValidateNewPassword _); [done|]. destruct (HashPassword _ _) as [|hash] eqn:HP; [done|].
    destruct (UpdateUser _ _) as [db [e|v]] eqn:U.
    { injection H2 as _ H2. unfold storeError in H2. by destruct (err_is_not_found e). }
    injection H2 as _ ->. apply update_hash in U. rewrite U.
    split; [|by apply (V _ _ HP)]. destruct (VerifyLogin _ _ _) eqn:X; [|done]. apply (V _ _ HP) in X. congruence.
Qed.

(** ** Concrete requests *)

Definition u_config : UiConfig := mkUiConfig w_server "k" false false true.
Definition u_hmac (k m : string) : string := k ++ m.
Definition u_day (t : Z) : string := "d".
Definition u_hex (t : Z) : err + string := inr "5e55"%string.
Definition u_uri (p q : string) : string := p.
Definition u_form (token : string) (key : string) : string :=
  if String.eqb key "csrf_token" then token
  else if String.eqb key "username" then "ann"
  else if String.eqb key "current_password" then "hunter22"
  else if String.eqb key "password" then "hunter22 !" else "".
Definition u_request (segs : list string) (cookie token : string) : UiRequest :=
  mkUi (w_request "POST" segs cookie) (Some (u_form token)) (λ _, []).
Definition u_ann : Principal := mkPrincipal 2 RoleReader "ann" "".
Definition u_me (b : string) : string + meUpdateRequest := inr (mkMeUpdate "hunter22" " password3").
Definition u_parse (s : string) : option (string * string) := Some (s, ""%string).

Lemma ui_account_changes_authorized_witness :
  let r := u_request ["ui"; "settings"; "password"]%string "ann" "kann|d" in
  let res := ui_request u_parse id u_uri w_hash w_match id u_hmac u_day u_hex (λ _, "/"%string) (λ _, ""%string) u_config 60 r w_state in
  users_of (fst res) ≠ users_of w_state ∧
  ∃ p, by_cookie 60 w_db (ur_api r) p ∧ (p_Role p = RoleAdmin ∨ own_password w_match u_config r p w_state (fst res)).
Proof.
  intros r res. assert (users_of (fst res) ≠ users_of w_state) as N.
  { intros E. apply (f_equal (λ m, u_PasswordHash <$> m !! 2)) in E. vm_compute in E. discriminate E. }
  split; [exact N|].
  exact (proj2 (proj2 (ui_account_changes_authorized u_parse id u_uri w_hash w_match id u_hmac u_day u_hex
    (λ _, "/"%string) (λ _, ""%string) u_config 60 r w_state N))).
Defined.

Lemma login_opens_session_witness :
  let r := mkUi (w_request "POST" ["ui"; "login"]%string "") (Some (λ k, if String.eqb k "password" then "hunter22"%string
    else u_form "klogin|d" k)) (λ _, []) in
  let res := handleLoginPost u_parse id u_uri w_match u_hmac u_day u_hex "/ui/starred" u_config 60 r None w_state in
  snd res = ULogin "5e55" "/ui/starred" ∧
  has_prefix "/ui/starred" "/ui/" = true ∧ users_of (fst res) = users_of w_state.
Proof.
  intros r res. assert (snd res = ULogin "5e55" "/ui/starred") as E by (vm_compute; reflexivity).
  split; [exact E|].
  destruct (login_opens_session u_parse id u_uri w_match u_hmac u_day u_hex "/ui/starred" u_config 60 r None w_state
    (fst res) "5e55" "/ui/starred") as (_ & _ & U & P).
  - exact w_db_ok.
  - reflexivity.
  - reflexivity.
  - intros t s [= <-]. discriminate.
  - intros p q H. exact H.
  - rewrite <- E. apply surjective_pairing.
  - split; [exact P|exact U].
Defined.

Lemma password_set_is_password_typed_witness :
  let r := u_request ["ui"; "settings"; "password"]%string "ann" "kann|d" in
  let res := handleSettingsPassword w_hash w_match u_hmac u_day u_config 60 r (Some u_ann) w_state in
  let r2 := w_request "PUT" ["v1"; "me"]%string "ann" in
  let u2 := mkUser 2 "ann" "$password3" RoleReader in
  (∃ u, users_of (fst res) !! 2 = Some u ∧ VerifyLogin w_match (u_PasswordHash u) "hunter22 !" = true) ∧
  VerifyLogin w_match (u_PasswordHash u2) " password3" = false ∧ VerifyLogin w_match (u_PasswordHash u2) "password3" = true.
Proof.
  intros r res r2 u2.
  assert (snd res = URedirect "/ui/settings?pw=changed") as E by (vm_compute; reflexivity).
  set (res2 := handleUpdateMe w_hash w_match u_me w_server 60 r2 (Some u_ann) w_state).
  assert (snd res2 = RUser 200 u2) as E2 by (vm_compute; reflexivity).
  apply (password_set_is_password_typed w_hash w_match u_hmac u_day u_me u_config 60 r (Some u_ann) w_state (fst res)
    w_server r2 (Some u_ann) w_state (fst res2) u2 (mkMeUpdate "hunter22" " password3")).
  - intros x h [= <-]. split; [discriminate|]. intros y. unfold w_match. rewrite String.eqb_eq.
    split; [intros H; injection H as H; symmetry; exact H|by intros ->].
  - rewrite <- E. apply surjective_pairing.
  - reflexivity.
  - vm_compute. discriminate.
  - rewrite <- E2. apply surjective_pairing.
Defined.
