(* ===== verification/FetchSlots.v ===== *)
(** The fetch slots of the messenger bridge ([reader/telegram/slots.go]): a counter
    under a mutex with a condition variable.  Between two holds of the mutex nothing
    of it changes, so that a run is an interleaving of critical sections: a thread's
    pass through the loop of [acquire], a release, a new limit, and the callback that
    [context.AfterFunc] starts once a waiter's context ends. *)

From S2P Require Import Prelude.

(** * State *)

(** reader/telegram/slots.go [ClampConcurrentSlots] *)
Definition ClampConcurrentSlots (n : Z) : Z := Z.min (Z.max n 1) 32.

(** Where a call of [acquire] is: its callback registered and the mutex not yet
    taken, in [cond.Wait] and not signalled, signalled and waiting for the mutex,
    returned with a slot, returned with the context's error. *)
Inductive place := Arrived | Asleep | Woken | Holding | GaveUp.

#[export] Instance place_eq_dec : EqDecision place.
Proof. solve_decision. Defined.

(** reader/telegram/slots.go [fetchSlots] With the calls, the contexts that have ended
    and the callbacks that are due. *)
Record fetchSlots := mkSlots {
  limit : Z; inFlight : Z; calls : gmap nat place; ended : gset nat; due : gset nat;
}.

(** reader/telegram/slots.go [newFetchSlots] *)
Definition newFetchSlots (n : Z) : fetchSlots := mkSlots (ClampConcurrentSlots n) 0 ∅ ∅ ∅.

Definition wake (p : place) : place := match p with Asleep => Woken | _ => p end.

(** [cond.Broadcast] *)
Definition broadcast (s : fetchSlots) : fetchSlots :=
  mkSlots (limit s) (inFlight s) (wake <$> calls s) (ended s) (due s).

Definition put_call (s : fetchSlots) (t : nat) (p : place) : fetchSlots :=
  mkSlots (limit s) (inFlight s) (<[t := p]> (calls s)) (ended s) (due s).

(** reader/telegram/slots.go [fetchSlots.setLimit] *)
Definition setLimit (s : fetchSlots) (n : Z) : fetchSlots :=
  broadcast (mkSlots (ClampConcurrentSlots n) (inFlight s) (calls s) (ended s) (due s)).

(** reader/telegram/slots.go:40-51 [fetchSlots.acquire, under the mutex] From taking the mutex to
    giving it up, on return or in [Wait]. *)
Definition acquire (s : fetchSlots) (t : nat) : fetchSlots :=
  if limit s <=? inFlight s then
    if bool_decide (t ∈ ended s) then put_call s t GaveUp else put_call s t Asleep
  else mkSlots (limit s) (inFlight s + 1) (<[t := Holding]> (calls s)) (ended s) (due s).

(** reader/telegram/slots.go [fetchSlots.release] The call is over; [wakes] is the waiter
    [Signal] picks. *)
Definition release (s : fetchSlots) (t : nat) (wakes : option nat) : fetchSlots :=
  let s := mkSlots (limit s) (inFlight s - 1) (delete t (calls s)) (ended s) (due s) in
  match wakes with Some w => put_call s w Woken | None => s end.

(** [Signal] wakes a waiter when there is one. *)
Definition signals (m : gmap nat place) (wakes : option nat) : Prop :=
  match wakes with
  | Some w => m !! w = Some Asleep
  | None => ∀ w, m !! w ≠ Some Asleep
  end.

(** reader/telegram/slots.go:33-38 [fetchSlots.acquire, the callback] The critical sections of
    all calls, in any order; a callback comes due when the context of a call that has
    not returned ends, or had ended before. *)
Inductive step : fetchSlots → fetchSlots → Prop :=
| step_arrive s t :
    calls s !! t = None →
    step s (mkSlots (limit s) (inFlight s) (<[t := Arrived]> (calls s)) (ended s)
              (if decide (t ∈ ended s) then {[t]} ∪ due s else due s))
| step_acquire s t p :
    calls s !! t = Some p → p = Arrived ∨ p = Woken → step s (acquire s t)
| step_end s t p :
    calls s !! t = Some p → t ∉ ended s →
    step s (mkSlots (limit s) (inFlight s) (calls s) ({[t]} ∪ ended s)
              (if decide (p = Arrived ∨ p = Asleep ∨ p = Woken) then {[t]} ∪ due s else due s))
| step_callback s t :
    t ∈ due s →
    step s (let s := broadcast s in mkSlots (limit s) (inFlight s) (calls s) (ended s) (due s ∖ {[t]}))
| step_release s t wakes :
    calls s !! t = Some Holding → signals (delete t (calls s)) wakes → step s (release s t wakes)
| step_set_limit s n : step s (setLimit s n).

(** * Counting calls *)

Definition is_at (p : place) (q : place) : bool := bool_decide (p = q).

Definition count (p : place) (m : gmap nat place) : Z := Z.of_nat (size (filter (λ kv, kv.2 = p) m)).

Definition ind (p q : place) : Z := if decide (p = q) then 1 else 0.

Lemma count_empty p : count p ∅ = 0.
Proof. unfold count. by rewrite map_filter_empty, map_size_empty. Qed.

Lemma count_nonneg p m : 0 <= count p m.
Proof. unfold count. lia. Qed.

Lemma count_insert_new p m t q : m !! t = None → count p (<[t := q]> m) = count p m + ind p q.
Proof.
  intros L. unfold count, ind. destruct (decide (p = q)) as [<-|N].
  - rewrite map_filter_insert_True by done. rewrite map_size_insert_None; [lia|].
    rewrite map_lookup_filter_None. by left.
  - rewrite map_filter_insert_not'; [lia|simpl; congruence|intros y Ly; simpl; congruence].
Qed.

Lemma count_delete p m t q : m !! t = Some q → count p (delete t m) = count p m - ind p q.
Proof.
  intros L. pose proof (count_insert_new p (delete t m) t q (lookup_delete_eq m t)) as H.
  rewrite insert_delete_id in H by done. lia.
Qed.

Lemma count_insert p m t q r : m !! t = Some r → count p (<[t := q]> m) = count p m - ind p r + ind p q.
Proof.
  intros L. rewrite <- (count_delete p m t r L). rewrite <- (count_insert_new p (delete t m) t q) by apply lookup_delete_eq.
  by rewrite insert_delete_eq.
Qed.

Lemma count_pos p m t : m !! t = Some p → 0 < count p m.
Proof.
  intros L. pose proof (count_delete p m t p L) as H. unfold ind in H. rewrite decide_True in H by done.
  pose proof (count_nonneg p (delete t m)). lia.
Qed.

Lemma count_none p m : (∀ t, m !! t ≠ Some p) → count p m = 0.
Proof.
  intros H. unfold count. assert (filter (λ kv, kv.2 = p) m = ∅) as ->; [|by rewrite map_size_empty].
  apply map_empty. intros t. apply map_lookup_filter_None. right. intros q L. simpl. intros ->. by apply (H t).
Qed.

Lemma wake_no_sleeper (m : gmap nat place) t : (wake <$> m) !! t ≠ Some Asleep.
Proof. rewrite lookup_fmap. destruct (m !! t) as [[]|]; done. Qed.

Lemma count_wake p m : p = Arrived ∨ p = Holding → count p (wake <$> m) = count p m.
Proof.
  intros P. induction m as [|t q m L IH] using map_ind; [by rewrite fmap_empty|].
  rewrite fmap_insert, !count_insert_new, IH by (rewrite ?lookup_fmap, L; done || done). f_equal. unfold ind.
  destruct P as [-> | ->], q; done.
Qed.

(** * The monitor is safe and loses no wake-up *)

Record slots_ok (s : fetchSlots) : Prop := mkSlotsOk {
  so_limit : 1 <= limit s <= 32;
  so_held : inFlight s = count Holding (calls s);
  so_max : inFlight s <= 32;
  so_wake : count Asleep (calls s) = 0 ∨ limit s - inFlight s <= count Woken (calls s);
  so_ended : ∀ t, calls s !! t = Some Asleep → t ∈ ended s → t ∈ due s;
}.

Lemma clamp_range n : 1 <= ClampConcurrentSlots n <= 32.
Proof. unfold ClampConcurrentSlots. lia. Qed.

Lemma new_ok n : slots_ok (newFetchSlots n).
Proof. split; simpl; [apply clamp_range|by rewrite count_empty|lia|left; apply count_empty|]. intros t. by rewrite lookup_empty. Qed.

Lemma broadcast_ok s lim e d : 1 <= lim <= 32 → slots_ok s →
  slots_ok (mkSlots lim (inFlight s) (wake <$> calls s) e d).
Proof.
  intros L [S1 S2 S3 _ _]. split; simpl; [done| |done| |].
  - rewrite count_wake by auto. done.
  - left. apply count_none. apply wake_no_sleeper.
  - intros t H. by apply wake_no_sleeper in H.
Qed.

Lemma acquire_ok s t p : calls s !! t = Some p → p = Arrived ∨ p = Woken → slots_ok s → slots_ok (acquire s t).
Proof.
  intros L P [S1 S2 S3 S4 S5]. unfold acquire, put_call.
  assert (p ≠ Holding ∧ p ≠ Asleep) as [PH PA] by (destruct P; subst; done).
  destruct (limit s <=? inFlight s) eqn:F; bool_to_prop.
  - destruct (bool_decide (t ∈ ended s)) eqn:E; bool_to_prop.
    + split; simpl; [done| |done| |].
      * rewrite (count_insert _ _ t GaveUp p L). unfold ind. rewrite !decide_False by congruence. lia.
      * right. pose proof (count_nonneg Woken (<[t := GaveUp]> (calls s))). lia.
      * intros u [[<- [=]]|[_ Lu]]%lookup_insert_Some. auto.
    + split; simpl; [done| |done| |].
      * rewrite (count_insert _ _ t Asleep p L). unfold ind. rewrite !decide_False by congruence. lia.
      * right. pose proof (count_nonneg Woken (<[t := Asleep]> (calls s))). lia.
      * intros u [[<- _]|[_ Lu]]%lookup_insert_Some; [done|]. auto.
  - split; simpl; [done| | | |].
    + rewrite (count_insert _ _ t Holding p L). unfold ind. rewrite (decide_True _ _ eq_refl), decide_False by congruence. lia.
    + lia.
    + rewrite !(count_insert _ _ t Holding p L). unfold ind.
      rewrite (decide_False (P := Asleep = p)), (decide_False (P := Asleep = Holding)), (decide_False (P := Woken = Holding)) by congruence.
      destruct S4 as [S4|S4]; [left; lia|right]. destruct (decide (Woken = p)); lia.
    + intros u [[<- [=]]|[_ Lu]]%lookup_insert_Some. auto.
Qed.

Lemma release_ok s t wakes :
  calls s !! t = Some Holding → signals (delete t (calls s)) wakes → slots_ok s → slots_ok (release s t wakes).
Proof.
  intros L W [S1 S2 S3 S4 S5].
  assert (count Holding (delete t (calls s)) = inFlight s - 1) as H1.
  { rewrite (count_delete _ _ t Holding L). unfold ind. rewrite decide_True by done. lia. }
  assert (count Asleep (delete t (calls s)) = count Asleep (calls s)) as H2.
  { rewrite (count_delete _ _ t Holding L). unfold ind. rewrite decide_False by done. lia. }
  assert (count Woken (delete t (calls s)) = count Woken (calls s)) as H3.
  { rewrite (count_delete _ _ t Holding L). unfold ind. rewrite decide_False by done. lia. }
  unfold release. destruct wakes as [w|]; unfold put_call; split; simpl in *; try done; try lia.
  - rewrite (count_insert _ _ w Woken Asleep W). unfold ind. rewrite !decide_False by done. lia.
  - rewrite !(count_insert _ _ w Woken Asleep W). unfold ind.
    rewrite (decide_True (P := Asleep = Asleep)), (decide_True (P := Woken = Woken)),
      (decide_False (P := Asleep = Woken)), (decide_False (P := Woken = Asleep)) by done.
    pose proof (count_pos _ _ w W). right. destruct S4; lia.
  - intros u [[<- [=]]|[_ [_ Lu]%lookup_delete_Some]]%lookup_insert_Some. auto.
  - left. by apply count_none.
  - intros u [_ Lu]%lookup_delete_Some. auto.
Qed.

Lemma step_ok s s' : step s s' → slots_ok s → slots_ok s'.
Proof.
  intros ST I. destruct ST as [s t L|s t p L P|s t p L N|s t D|s t w L W|s n].
  - destruct I as [S1 S2 S3 S4 S5]. split; simpl; try done.
    + rewrite count_insert_new by done. unfold ind. rewrite decide_False by done. lia.
    + rewrite !count_insert_new by done. unfold ind. rewrite !decide_False by done. destruct S4; [left|right]; lia.
    + intros u [[<- [=]]|[_ Lu]]%lookup_insert_Some Eu. destruct (decide _); set_solver.
  - by eapply acquire_ok.
  - destruct I as [S1 S2 S3 S4 S5]. split; simpl; try done.
    intros u Lu [->%elem_of_singleton|Eu]%elem_of_union.
    + assert (p = Asleep) as -> by congruence. rewrite decide_True by auto. set_solver.
    + destruct (decide _); set_solver.
  - cbn zeta. apply (broadcast_ok s (limit s)); [apply I|done].
  - by apply release_ok.
  - apply (broadcast_ok s); [apply clamp_range|done].
Qed.

Lemma reachable_ok n s : rtc step (newFetchSlots n) s → slots_ok s.
Proof.
  intros R. pose proof (new_ok n) as I. induction R as [|s s1 s2 ST R IH]; [done|]. apply IH. by eapply step_ok.
Qed.

(** The monitor has no step of its own left: nobody waits for the mutex, no callback is due. *)
Definition quiescent (s : fetchSlots) : Prop :=
  due s = ∅ ∧ ∀ t p, calls s !! t = Some p → p ≠ Arrived ∧ p ≠ Woken.

(** C40: fetch slots in every interleaving.  The counter is the number of calls that hold a
    slot, never more than 32, and a call gets a slot only below the limit of the
    moment.  No wake-up is lost: once the monitor has come to rest, a call sleeps only
    while every slot is taken and its context has not ended; and a sleeping call whose
    context ends is two steps of the monitor from returning, whatever the slots. *)
Theorem slots_lose_no_wakeup n s :
  rtc step (newFetchSlots n) s →
  (inFlight s = count Holding (calls s) ∧ inFlight s <= 32) ∧
  (∀ s', step s s' → inFlight s < inFlight s' → inFlight s < limit s) ∧
  (quiescent s → ∀ t, calls s !! t = Some Asleep → limit s <= inFlight s ∧ t ∉ ended s) ∧
  (∀ t, calls s !! t = Some Asleep → t ∈ ended s →
     ∃ s1 s2, step s s1 ∧ step s1 s2 ∧ (calls s2 !! t = Some GaveUp ∨ calls s2 !! t = Some Holding)).
Proof.
  intros R. pose proof (reachable_ok n s R) as [S1 S2 S3 S4 S5]. split_and!; try done.
  - intros s' ST. destruct ST as [s t L|s t p L P|s t p L N|s t D|s t w L W|s n']; simpl; try lia.
    + unfold acquire. destruct (limit s <=? inFlight s) eqn:F; bool_to_prop; [|done]. destruct (bool_decide _); simpl; lia.
    + destruct w; simpl; lia.
  - intros [D Q] t L. split.
    + pose proof (count_pos _ _ t L). destruct S4 as [S4|S4]; [lia|].
      rewrite (count_none Woken (calls s)) in S4; [lia|]. intros u Lu. by destruct (Q u Woken Lu).
    + intros E. specialize (S5 t L E). rewrite D in S5. set_solver.
  - intros t L E. eexists _, _. split; [apply (step_callback s t); auto|]. split.
    + apply (step_acquire _ t Woken); [|by right]. simpl. by rewrite lookup_fmap, L.
    + unfold acquire. simpl. destruct (limit s <=? inFlight s).
      * rewrite bool_decide_true by done. left. simpl. apply lookup_insert_eq.
      * right. simpl. apply lookup_insert_eq.
Qed.

(** One slot, two calls: the second sleeps, its context ends, the callback runs. *)
Definition slots_a : fetchSlots :=
  mkSlots 1 1 (<[2%nat := Woken]> {[1%nat := Holding]}) {[2%nat]} ∅.

Lemma slots_lose_no_wakeup_witness :
  rtc step (newFetchSlots 0) slots_a ∧ inFlight slots_a = count Holding (calls slots_a).
Proof.
  assert (rtc step (newFetchSlots 0) slots_a) as R.
  { eapply rtc_l; [apply (step_arrive _ 1); reflexivity|]. cbn.
    eapply rtc_l; [apply (step_acquire _ 1 Arrived); [reflexivity|by left]|]. cbn.
    eapply rtc_l; [apply (step_arrive _ 2); reflexivity|]. cbn.
    eapply rtc_l; [apply (step_acquire _ 2 Arrived); [reflexivity|by left]|]. cbn.
    eapply rtc_l; [apply (step_end _ 2 Asleep); [reflexivity|set_solver]|]. cbn.
    eapply rtc_l; [apply (step_callback _ 2); set_solver|].
    match goal with |- rtc step ?x ?y => replace x with y; [apply rtc_refl|] end.
    vm_compute. reflexivity. }
  split; [exact R|]. exact (proj1 (proj1 (slots_lose_no_wakeup 0 slots_a R))).
Defined.
