(* ===== verification/Bridges.v ===== *)
(** The settings of the bridges ([bridgeconfig], [http/ui/bridges.go], the handlers'
    [UpdateConfig]): what the environment gives, what the settings pages save over it, the merge of both, and
    the manager that loads, saves and applies it.  [Duration.String] with [ParseDuration] and the
    JSON of the saved settings are parameters with their round trips as laws.  The pages' sign-in
    and form-token checks are those of [UiAuth.v]; rendering is left out. *)

From S2P Require Import Prelude GoStrings Types FetchSlots Outbound.

(** * Data *)

Definition SettingsKey : string := "bridges".

(** bridgeconfig/settings.go [TelegramStored] *)
Record TelegramStored := mkTgStored {
  ts_UseProxy : bool; ts_ProxyServiceURL : string; ts_ProxyServiceToken : string; ts_ProxyTargetURL : string; ts_StaticProxy : string;
  ts_ConnectTimeout : string; ts_RequestTimeout : string; ts_ProxyRetry : Z; ts_MaxPages : Z; ts_ConcurrentSlots : Z;
}.
(** bridgeconfig/settings.go [MaxStored] *)
Record MaxStored := mkMaxStored {
  ms_APIBaseURL : string; ms_DefaultLimit : Z; ms_DefaultLookback : string; ms_Overlap : string; ms_RateLimitSeconds : Z;
  ms_RequestIntervalMs : Z; ms_ConcurrentSlots : Z; ms_AllowPrivateAPI : bool;
}.
(** bridgeconfig/settings.go [VKStored] *)
Record VKStored := mkVKStored {
  vs_AccessToken : string; vs_APIVersion : string; vs_DefaultCount : Z; vs_DefaultLookback : string; vs_Overlap : string; vs_RateLimitSeconds : Z;
}.
(** bridgeconfig/settings.go [Stored] With [RutubeStored], which is its base URL. *)
Record Stored := mkStoredBridges { so_Telegram : TelegramStored; so_Max : MaxStored; so_VK : VKStored; so_Rutube : string }.

(** bridgeconfig/settings.go [TelegramRuntime] *)
Record TelegramRuntime := mkTgRuntime {
  tr_UseProxy : bool; tr_ProxyServiceURL : string; tr_ProxyServiceToken : string; tr_ProxyTargetURL : string; tr_StaticProxy : string;
  tr_ConnectTimeout : Z; tr_RequestTimeout : Z; tr_ProxyRetry : Z; tr_MaxPages : Z; tr_ConcurrentSlots : Z;
}.
(** bridgeconfig/settings.go [MaxRuntime] *)
Record MaxRuntime := mkMaxRuntime {
  mr_APIBaseURL : string; mr_DefaultLimit : Z; mr_DefaultLookback : Z; mr_Overlap : Z; mr_RateLimitSeconds : Z;
  mr_RequestIntervalMs : Z; mr_ConcurrentSlots : Z; mr_AllowPrivateAPI : bool;
}.
(** bridgeconfig/settings.go [VKRuntime] *)
Record VKRuntime := mkVKRuntime {
  vr_AccessToken : string; vr_APIVersion : string; vr_DefaultCount : Z; vr_DefaultLookback : Z; vr_Overlap : Z; vr_RateLimitSeconds : Z;
}.
(** bridgeconfig/settings.go [Runtime] With [RutubeRuntime], which is its base URL. *)
Record Runtime := mkRuntime { rt_Telegram : TelegramRuntime; rt_Max : MaxRuntime; rt_VK : VKRuntime; rt_Rutube : string }.

(** config/config.go [Config, the fields the bridges are configured with] [TelegramProxyServiceURL] to
    [TelegramConcurrentSlots], [MaxAPIBaseURL] to [MaxAllowPrivateAPI], [VKAccessToken] to [VKRateLimitSeconds] and [RutubeAPIBaseURL]
    are grouped as the runtime groups them; the proxy of Telegram is on when it has an address. *)
Record Config := mkConfig {
  cg_Telegram : TelegramRuntime; cg_Max : MaxRuntime; cg_VK : VKRuntime; cg_Rutube : string;
  cg_FetchUserAgent : string; cg_TLSInsecure : bool; cg_AllowPrivateNetwork : bool;
}.

Definition empty_stored : Stored :=
  mkStoredBridges (mkTgStored false "" "" "" "" "" "" 0 0 0) (mkMaxStored "" 0 "" "" 0 0 0 false) (mkVKStored "" "" 0 "" "" 0) "".

Definition nonempty (s : string) : bool := negb (String.eqb s "").

(** [if v := strings.TrimSpace(s); v != "" { dst = v }] *)
Definition over (dst s : string) : string := if nonempty (trim_space s) then trim_space s else dst.
(** [if n > 0 { dst = n }] *)
Definition positive_over (dst n : Z) : Z := if 0 <? n then n else dst.

Section Bridges.
Context (show_duration : Z → string) (ParseDuration : string → option Z).
Context (marshal : Stored → string) (unmarshal : string → Stored).

(** * The merge *)

(** bridgeconfig/settings.go [parseDuration] *)
Definition parseDuration (s : string) : option Z := if nonempty (trim_space s) then ParseDuration (trim_space s) else None.
Definition duration_over (dst : Z) (s : string) : Z := default dst (parseDuration s).

(** bridgeconfig/settings.go [applyTelegramStored] *)
Definition applyTelegramStored (dst : TelegramRuntime) (s : TelegramStored) : TelegramRuntime :=
  mkTgRuntime
    (if ts_UseProxy s || nonempty (trim_space (ts_ProxyServiceURL s)) || nonempty (trim_space (ts_StaticProxy s)) then true else tr_UseProxy dst)
    (over (tr_ProxyServiceURL dst) (ts_ProxyServiceURL s)) (over (tr_ProxyServiceToken dst) (ts_ProxyServiceToken s))
    (over (tr_ProxyTargetURL dst) (ts_ProxyTargetURL s)) (over (tr_StaticProxy dst) (ts_StaticProxy s))
    (duration_over (tr_ConnectTimeout dst) (ts_ConnectTimeout s)) (duration_over (tr_RequestTimeout dst) (ts_RequestTimeout s))
    (if 0 <=? ts_ProxyRetry s then ts_ProxyRetry s else tr_ProxyRetry dst)
    (positive_over (tr_MaxPages dst) (ts_MaxPages s)) (positive_over (tr_ConcurrentSlots dst) (ts_ConcurrentSlots s)).

(** bridgeconfig/settings.go [applyMaxStored] *)
Definition applyMaxStored (dst : MaxRuntime) (s : MaxStored) : MaxRuntime :=
  mkMaxRuntime (over (mr_APIBaseURL dst) (ms_APIBaseURL s)) (positive_over (mr_DefaultLimit dst) (ms_DefaultLimit s))
    (duration_over (mr_DefaultLookback dst) (ms_DefaultLookback s)) (duration_over (mr_Overlap dst) (ms_Overlap s))
    (positive_over (mr_RateLimitSeconds dst) (ms_RateLimitSeconds s)) (positive_over (mr_RequestIntervalMs dst) (ms_RequestIntervalMs s))
    (positive_over (mr_ConcurrentSlots dst) (ms_ConcurrentSlots s)) (ms_AllowPrivateAPI s).

(** bridgeconfig/settings.go [applyVKStored] *)
Definition applyVKStored (dst : VKRuntime) (s : VKStored) : VKRuntime :=
  mkVKRuntime (over (vr_AccessToken dst) (vs_AccessToken s)) (over (vr_APIVersion dst) (vs_APIVersion s))
    (positive_over (vr_DefaultCount dst) (vs_DefaultCount s)) (duration_over (vr_DefaultLookback dst) (vs_DefaultLookback s))
    (duration_over (vr_Overlap dst) (vs_Overlap s)) (positive_over (vr_RateLimitSeconds dst) (vs_RateLimitSeconds s)).

(** bridgeconfig/settings.go [applyRutubeStored] *)
Definition applyRutubeStored (dst s : string) : string := over dst s.

(** bridgeconfig/settings.go [MergeEnv] *)
Definition MergeEnv (cfg : Config) (s : Stored) : Runtime :=
  let t := cg_Telegram cfg in
  let telegram := mkTgRuntime (nonempty (tr_ProxyServiceURL t) || nonempty (tr_StaticProxy t)) (tr_ProxyServiceURL t) (tr_ProxyServiceToken t)
    (tr_ProxyTargetURL t) (tr_StaticProxy t) (tr_ConnectTimeout t) (tr_RequestTimeout t) (tr_ProxyRetry t) (tr_MaxPages t) (tr_ConcurrentSlots t) in
  mkRuntime (applyTelegramStored telegram (so_Telegram s)) (applyMaxStored (cg_Max cfg) (so_Max s)) (applyVKStored (cg_VK cfg) (so_VK s))
    (applyRutubeStored (cg_Rutube cfg) (so_Rutube s)).

(** bridgeconfig/settings.go [RuntimeToStored] *)
Definition RuntimeToStored (rt : Runtime) : Stored :=
  let t := rt_Telegram rt in let m := rt_Max rt in let v := rt_VK rt in
  mkStoredBridges
    (mkTgStored (tr_UseProxy t) (tr_ProxyServiceURL t) (tr_ProxyServiceToken t) (tr_ProxyTargetURL t) (tr_StaticProxy t)
       (show_duration (tr_ConnectTimeout t)) (show_duration (tr_RequestTimeout t)) (tr_ProxyRetry t) (tr_MaxPages t) (tr_ConcurrentSlots t))
    (mkMaxStored (mr_APIBaseURL m) (mr_DefaultLimit m) (show_duration (mr_DefaultLookback m)) (show_duration (mr_Overlap m))
       (mr_RateLimitSeconds m) (mr_RequestIntervalMs m) (mr_ConcurrentSlots m) (mr_AllowPrivateAPI m))
    (mkVKStored (vr_AccessToken v) (vr_APIVersion v) (vr_DefaultCount v) (show_duration (vr_DefaultLookback v)) (show_duration (vr_Overlap v))
       (vr_RateLimitSeconds v))
    (rt_Rutube rt).

(** bridgeconfig/settings.go [ParseStored] *)
Definition ParseStored (raw : string) : Stored := if String.eqb raw "" then empty_stored else unmarshal raw.

(** * The handlers *)

(** reader/telegram/config.go [Config] *)
Record TelegramConfig := mkTgConfig { tc_settings : TelegramRuntime; tc_UserAgent : string; tc_TLSInsecure : bool }.
(** reader/max/handler.go [Config] *)
Record MaxConfig := mkMaxConfig {
  mc_APIBaseURL : string; mc_DefaultLimit : Z; mc_DefaultLookback : Z; mc_Overlap : Z; mc_RateLimitCooldown : Z; mc_RequestInterval : Z;
  mc_ConcurrentSlots : Z; mc_AllowPrivateAPI : bool; mc_FetchAllowPrivate : bool;
}.
(** reader/vk/config.go [Config] *)
Record VKConfig := mkVKConfig {
  vc_AccessToken : string; vc_APIVersion : string; vc_DefaultCount : Z; vc_DefaultLookback : Z; vc_Overlap : Z; vc_RateLimitCooldown : Z;
}.
(** reader/rutube/config.go [Config] *)
Record RutubeConfig := mkRutubeConfig { rc_APIBaseURL : string; rc_UserAgent : string }.

Definition or_default (n d : Z) : Z := if n <=? 0 then d else n.

(** reader/telegram/handler.go [Handler.UpdateConfig] *)
Definition telegram_UpdateConfig (c : TelegramConfig) : TelegramConfig :=
  let s := tc_settings c in
  mkTgConfig
    (mkTgRuntime (if nonempty (tr_ProxyServiceURL s) || nonempty (tr_StaticProxy s) then true else tr_UseProxy s) (tr_ProxyServiceURL s)
       (tr_ProxyServiceToken s) (tr_ProxyTargetURL s) (tr_StaticProxy s) (or_default (tr_ConnectTimeout s) (10 * second))
       (or_default (tr_RequestTimeout s) (25 * second)) (if tr_ProxyRetry s <? 0 then 0 else tr_ProxyRetry s) (or_default (tr_MaxPages s) 1)
       (ClampConcurrentSlots (tr_ConcurrentSlots s)))
    (tc_UserAgent c) (tc_TLSInsecure c).

(** [guard.ValidateURL], when there is a guard. *)
Context (validate_url : option (string → option err)).

(** reader/max/handler.go [validateAPIBase] *)
Definition validateAPIBase (raw : string) (allowPrivateAPI fetchAllowPrivate : bool) : option err :=
  match validate_url with
  | None => None
  | Some v => if allowPrivateAPI || fetchAllowPrivate then None else v raw
  end.

(** reader/max/handler.go [Handler.UpdateConfig] What the handler is left with, and the error. *)
Definition max_UpdateConfig (old c : MaxConfig) : MaxConfig * option err :=
  let base := trim_right_slash (trim_space (mc_APIBaseURL c)) in
  if String.eqb base "" then (old, None)
  else
    let c := mkMaxConfig base (or_default (mc_DefaultLimit c) 100) (or_default (mc_DefaultLookback c) (24 * hour)) (or_default (mc_Overlap c) (2 * minute))
               (or_default (mc_RateLimitCooldown c) (60 * second)) (if mc_RequestInterval c <? 0 then 0 else mc_RequestInterval c)
               (ClampConcurrentSlots (mc_ConcurrentSlots c)) (mc_AllowPrivateAPI c) (mc_FetchAllowPrivate c) in
    match validateAPIBase base (mc_AllowPrivateAPI c) (mc_FetchAllowPrivate c) with Some e => (old, Some e) | None => (c, None) end.

(** reader/vk/config.go [Config.withDefaults] *)
Definition vk_withDefaults (c : VKConfig) : VKConfig :=
  mkVKConfig (vc_AccessToken c) (if String.eqb (vc_APIVersion c) "" then "5.199" else vc_APIVersion c) (or_default (vc_DefaultCount c) 100)
    (or_default (vc_DefaultLookback c) (24 * hour)) (or_default (vc_Overlap c) (2 * minute)) (or_default (vc_RateLimitCooldown c) (5 * second)).

(** reader/rutube/config.go [Config.withDefaults] *)
Definition rutube_withDefaults (c : RutubeConfig) : RutubeConfig :=
  let base := trim_right_slash (trim_space (rc_APIBaseURL c)) in
  mkRutubeConfig (if String.eqb base "" then "https://rutube.ru/api" else base) (rc_UserAgent c).

(** * The manager *)

(** bridgeconfig/manager.go [Handlers] Each handler as its configuration. *)
Record Handlers := mkHandlers {
  h_Telegram : option TelegramConfig; h_Max : option MaxConfig; h_VK : option VKConfig; h_Rutube : option RutubeConfig;
}.

(** The settings table, whether the manager has it, and the manager. *)
Record Manager := mkManager { mg_table : option (gmap string string); mg_runtime : Runtime; mg_handlers : Handlers }.

Context (env : Config).

(** bridgeconfig/manager.go [durationSeconds] *)
Definition durationSeconds (sec : Z) : Z := if sec <=? 0 then 0 else wrap64 (sec * second).
(** bridgeconfig/manager.go [durationMillis] *)
Definition durationMillis (ms : Z) : Z := if ms <=? 0 then 0 else wrap64 (ms * millisecond).

Definition max_config (m : MaxRuntime) : MaxConfig :=
  mkMaxConfig (mr_APIBaseURL m) (mr_DefaultLimit m) (mr_DefaultLookback m) (mr_Overlap m) (durationSeconds (mr_RateLimitSeconds m))
    (durationMillis (mr_RequestIntervalMs m)) (mr_ConcurrentSlots m) (mr_AllowPrivateAPI m) (cg_AllowPrivateNetwork env).

(** bridgeconfig/manager.go [Manager.apply] The error of the Max handler is dropped. *)
Definition apply (m : Manager) : Manager :=
  let rt := mg_runtime m in let h := mg_handlers m in let v := rt_VK rt in
  mkManager (mg_table m) rt
    (mkHandlers ((λ _, telegram_UpdateConfig (mkTgConfig (rt_Telegram rt) (cg_FetchUserAgent env) (cg_TLSInsecure env))) <$> h_Telegram h)
       ((λ old, (max_UpdateConfig old (max_config (rt_Max rt))).1) <$> h_Max h)
       ((λ _, vk_withDefaults (mkVKConfig (vr_AccessToken v) (vr_APIVersion v) (vr_DefaultCount v) (vr_DefaultLookback v) (vr_Overlap v)
                                 (durationSeconds (vr_RateLimitSeconds v)))) <$> h_VK h)
       ((λ _, rutube_withDefaults (mkRutubeConfig (rt_Rutube rt) (cg_FetchUserAgent env))) <$> h_Rutube h)).

Definition with_runtime (m : Manager) (rt : Runtime) : Manager := mkManager (mg_table m) rt (mg_handlers m).

(** bridgeconfig/manager.go [NewManager] *)
Definition NewManager (table : option (gmap string string)) (h : Handlers) : Manager := mkManager table (MergeEnv env empty_stored) h.

(** bridgeconfig/manager.go [Manager.Load] [fault]: the store answers with an error. *)
Definition Load (fault : bool) (m : Manager) : Manager * option err :=
  match mg_table m with
  | None => (apply (with_runtime m (MergeEnv env empty_stored)), None)
  | Some t =>
      if fault then (m, Some (EMsg "get app setting"))
      else (apply (with_runtime m (MergeEnv env (ParseStored (default ""%string (t !! SettingsKey))))), None)
  end.

(** bridgeconfig/manager.go [Manager.Stored] *)
Definition manager_Stored (m : Manager) : Stored := RuntimeToStored (mg_runtime m).

(** bridgeconfig/manager.go [Manager.Save] *)
Definition Save (fault : bool) (m : Manager) (s : Stored) : Manager * option err :=
  match mg_table m with
  | Some t =>
      if fault then (m, Some (EMsg "set app setting"))
      else (apply (mkManager (Some (<[SettingsKey := marshal s]> t)) (MergeEnv env s) (mg_handlers m)), None)
  | None => (apply (with_runtime m (MergeEnv env s)), None)
  end.

(** * The settings pages *)

(** http/ui/bridges.go [parseIntDefault] *)
Definition parseIntDefault (raw : string) (fallback : Z) : Z := default fallback (parse_int64 (trim_space raw)).

(** A submitted form: a value for each name, empty when there is none. *)
Definition Form : Type := string → string.

(** http/ui/bridges.go [Handler.handleSettingsBridgeTelegramSave, the settings] *)
Definition telegram_form (r : Form) (tg : TelegramStored) : TelegramStored :=
  let tok := trim_space (r "proxy_service_token"%string) in
  mkTgStored (String.eqb (r "use_proxy"%string) "1") (trim_space (r "proxy_service_url"%string)) (if nonempty tok then tok else ts_ProxyServiceToken tg)
    (trim_space (r "proxy_target_url"%string)) (trim_space (r "static_proxy"%string)) (trim_space (r "connect_timeout"%string))
    (trim_space (r "request_timeout"%string)) (parseIntDefault (r "proxy_retry"%string) (ts_ProxyRetry tg)) (parseIntDefault (r "max_pages"%string) (ts_MaxPages tg))
    (Z.min (Z.max (parseIntDefault (r "concurrent_slots"%string) (ts_ConcurrentSlots tg)) 1) 32).

(** http/ui/bridges.go [Handler.handleSettingsBridgeMaxSave, the settings] *)
Definition max_form (r : Form) (mx : MaxStored) : MaxStored :=
  mkMaxStored (trim_space (r "api_base_url"%string)) (parseIntDefault (r "default_limit"%string) (ms_DefaultLimit mx))
    (trim_space (r "default_lookback"%string)) (trim_space (r "overlap"%string)) (parseIntDefault (r "rate_limit_seconds"%string) (ms_RateLimitSeconds mx))
    (Z.min (Z.max (parseIntDefault (r "request_interval_ms"%string) (ms_RequestIntervalMs mx)) 0) 60000)
    (Z.min (Z.max (parseIntDefault (r "concurrent_slots"%string) (ms_ConcurrentSlots mx)) 1) 32)
    (String.eqb (r "allow_private_api"%string) "1").

(** http/ui/bridges.go [Handler.handleSettingsBridgeVKSave, the settings] *)
Definition vk_form (r : Form) (vk : VKStored) : VKStored :=
  let tok := trim_space (r "access_token"%string) in
  mkVKStored (if nonempty tok then tok else vs_AccessToken vk) (trim_space (r "api_version"%string))
    (parseIntDefault (r "default_count"%string) (vs_DefaultCount vk)) (trim_space (r "default_lookback"%string)) (trim_space (r "overlap"%string))
    (parseIntDefault (r "rate_limit_seconds"%string) (vs_RateLimitSeconds vk)).

Inductive BridgePage := PageTelegram | PageMax | PageVK | PageRutube.

(** http/ui/bridges.go [Handler.handleSettingsBridgeRutubeSave, and the other pages] *)
Definition page_form (p : BridgePage) (r : Form) (s : Stored) : Stored :=
  match p with
  | PageTelegram => mkStoredBridges (telegram_form r (so_Telegram s)) (so_Max s) (so_VK s) (so_Rutube s)
  | PageMax => mkStoredBridges (so_Telegram s) (max_form r (so_Max s)) (so_VK s) (so_Rutube s)
  | PageVK => mkStoredBridges (so_Telegram s) (so_Max s) (vk_form r (so_VK s)) (so_Rutube s)
  | PageRutube => mkStoredBridges (so_Telegram s) (so_Max s) (so_VK s) (trim_space (r "api_base_url"%string))
  end.

(** http/ui/bridges.go [Handler.saveBridgeStored] Past the form token; [None] is the redirect that says
    saved and applied. *)
Definition save_page (fault : bool) (p : BridgePage) (r : Form) (m : Manager) : Manager * option err :=
  Save fault m (page_form p r (manager_Stored m)).

End Bridges.

(** * Lemmas *)

(** What a duration is written as reads back, and is not blank. *)
Class DurationText (show_duration : Z → string) (ParseDuration : string → option Z) : Prop := {
  duration_reads_back : ∀ d, in64 d → ParseDuration (show_duration d) = Some d;
  duration_parsed : ∀ s d, ParseDuration s = Some d → in64 d;
  duration_trimmed : ∀ d, trim_space (show_duration d) = show_duration d;
  duration_nonempty : ∀ d, show_duration d ≠ "";
}.

(** The environment's texts carry no white space around them, and its durations are machine integers. *)
Record config_trimmed (env : Config) : Prop := {
  ct_tg : Forall (λ s, trim_space s = s) [tr_ProxyServiceURL (cg_Telegram env); tr_ProxyServiceToken (cg_Telegram env); tr_ProxyTargetURL (cg_Telegram env);
            tr_StaticProxy (cg_Telegram env)];
  ct_rest : Forall (λ s, trim_space s = s) [mr_APIBaseURL (cg_Max env); vr_AccessToken (cg_VK env); vr_APIVersion (cg_VK env); cg_Rutube env];
  ct_durations : Forall in64 [tr_ConnectTimeout (cg_Telegram env); tr_RequestTimeout (cg_Telegram env); mr_DefaultLookback (cg_Max env);
            mr_Overlap (cg_Max env); vr_DefaultLookback (cg_VK env); vr_Overlap (cg_VK env)];
}.

Lemma over_trimmed d s : trim_space d = d → trim_space (over d s) = over d s.
Proof. intros H. unfold over. destruct (nonempty _); [apply trim_space_idemp|done]. Qed.

(** A merged text merges to itself. *)
Lemma over_again d s : trim_space d = d → over d (over d s) = over d s.
Proof.
  intros H. unfold over at 1. rewrite over_trimmed by done. destruct (nonempty (over d s)) eqn:E; [done|].
  unfold over in *. destruct (nonempty (trim_space s)) eqn:F; [congruence|done].
Qed.

Lemma positive_over_again d n : positive_over d (positive_over d n) = positive_over d n.
Proof. unfold positive_over. destruct (0 <? n) eqn:E; [by rewrite E|]. by destruct (0 <? d). Qed.

Section Laws.
Context (show_duration : Z → string) (ParseDuration : string → option Z) `{D : !DurationText show_duration ParseDuration}.
Context (marshal : Stored → string) (unmarshal : string → Stored) (env : Config) (T : config_trimmed env).

Notation merge := (MergeEnv ParseDuration env).
Notation stored := (RuntimeToStored show_duration).

Lemma duration_over_in64 d s : in64 d → in64 (duration_over ParseDuration d s).
Proof.
  intros H. unfold duration_over. destruct (parseDuration ParseDuration s) as [x|] eqn:E; [|done]. unfold parseDuration in E.
  destruct (nonempty _); [|done]. cbn. by apply duration_parsed in E.
Qed.

Lemma duration_over_shown d x : in64 x → duration_over ParseDuration d (show_duration x) = x.
Proof.
  intros H. unfold duration_over, parseDuration. rewrite duration_trimmed. unfold nonempty. rewrite (proj2 (String.eqb_neq _ _) (duration_nonempty x)).
  cbn [negb]. by rewrite duration_reads_back by done.
Qed.

Lemma nonempty_over d s : trim_space d = d → nonempty (over d s) = nonempty (trim_space s) || nonempty d.
Proof. intros H. unfold over. by destruct (nonempty (trim_space s)) eqn:E. Qed.

(** Each bridge's settings, saved as they are shown, merge to what they were. *)
Lemma telegram_again s : rt_Telegram (merge (stored (merge s))) = rt_Telegram (merge s).
Proof.
  destruct T as [Tg _ Du]. rewrite !Forall_cons in Tg. rewrite !Forall_cons in Du. destruct Tg as (U & K & A & P & _), Du as (D1 & D2 & _).
  cbn [merge MergeEnv rt_Telegram stored RuntimeToStored so_Telegram]. unfold MergeEnv, applyTelegramStored. cbn -[trim_space over positive_over duration_over nonempty].
  rewrite !duration_over_shown, !over_again, !positive_over_again, !over_trimmed, !nonempty_over by (done || by apply duration_over_in64).
  f_equal.
  - destruct (ts_UseProxy _), (nonempty (trim_space (ts_ProxyServiceURL _))), (nonempty (trim_space (ts_StaticProxy _))); cbn [orb]; rewrite ?orb_true_r; try done.
    by destruct (nonempty (tr_ProxyServiceURL _)), (nonempty (tr_StaticProxy _)).
  - destruct (0 <=? ts_ProxyRetry _) eqn:E; [by rewrite E|]. by destruct (0 <=? tr_ProxyRetry _).
Qed.

Lemma max_again s : rt_Max (merge (stored (merge s))) = rt_Max (merge s).
Proof.
  destruct T as [_ R Du]. rewrite !Forall_cons in R. rewrite !Forall_cons in Du. destruct R as (A & _), Du as (_ & _ & D1 & D2 & _). unfold MergeEnv, RuntimeToStored, applyMaxStored.
  cbn -[trim_space over positive_over duration_over]. by rewrite !duration_over_shown, !over_again, !positive_over_again by (done || by apply duration_over_in64).
Qed.

Lemma vk_again s : rt_VK (merge (stored (merge s))) = rt_VK (merge s).
Proof.
  destruct T as [_ R Du]. rewrite !Forall_cons in R. rewrite !Forall_cons in Du. destruct R as (_ & A & B & _), Du as (_ & _ & _ & _ & D1 & D2 & _). unfold MergeEnv, RuntimeToStored, applyVKStored.
  cbn -[trim_space over positive_over duration_over]. by rewrite !duration_over_shown, !over_again, !positive_over_again by (done || by apply duration_over_in64).
Qed.

Lemma rutube_again s : rt_Rutube (merge (stored (merge s))) = rt_Rutube (merge s).
Proof.
  destruct T as [_ R _]. rewrite !Forall_cons in R. destruct R as (_ & _ & _ & A & _). unfold MergeEnv, RuntimeToStored, applyRutubeStored.
  cbn -[trim_space over]. by rewrite !over_again.
Qed.

Lemma merge_again s : merge (stored (merge s)) = merge s.
Proof.
  generalize (telegram_again s), (max_again s), (vk_again s), (rutube_again s).
  destruct (merge (stored (merge s))), (merge s). cbn. congruence.
Qed.

(** The runtime is the merge of the environment and what the table holds. *)
Definition saved (m : Manager) : Stored :=
  match mg_table m with Some t => ParseStored unmarshal (default ""%string (t !! SettingsKey)) | None => empty_stored end.
Definition in_sync (m : Manager) : Prop := mg_runtime m = merge (saved m).

End Laws.

Section Manager.
Context (show_duration : Z → string) (ParseDuration : string → option Z) (marshal : Stored → string) (unmarshal : string → Stored)
        (validate_url : option (string → option err)) (env : Config).

Notation load := (Load ParseDuration unmarshal validate_url env).
Notation save := (save_page show_duration ParseDuration marshal validate_url env).

(** Loading brings the manager in step with the table. *)
Lemma load_in_sync m : is_Some (mg_table m) → in_sync ParseDuration unmarshal env (load false m).1.
Proof. intros [t H]. unfold Load. rewrite H. unfold in_sync, saved. cbn. by rewrite H. Qed.

(** With nothing saved the environment is not quite what counts: no retries over the proxy and no
    private address for the Max API, whatever it says. *)
Lemma nothing_saved : let rt := MergeEnv ParseDuration env empty_stored in
  tr_ProxyRetry (rt_Telegram rt) = 0 ∧ mr_AllowPrivateAPI (rt_Max rt) = false ∧ tr_MaxPages (rt_Telegram rt) = tr_MaxPages (cg_Telegram env).
Proof. done. Qed.

(** A configuration the Max handler refuses is dropped without a word: the page reports success and the handler
    goes on with the old one. *)
Lemma refused_max_config_is_silent t h old rt : mg_handlers (mkManager t rt h) = h → h_Max h = Some old →
  (max_UpdateConfig validate_url old (max_config env (rt_Max rt))).2 ≠ None → h_Max (mg_handlers (apply validate_url env (mkManager t rt h))) = Some old.
Proof.
  intros _ H R. unfold apply. cbn [mg_handlers mg_runtime h_Max]. rewrite H. cbn [fmap option_fmap option_map]. f_equal.
  unfold max_UpdateConfig in *. destruct (String.eqb _ _); [done|]. by destruct (validateAPIBase _ _ _ _).
Qed.
End Manager.

(** C25: saved bridge settings survive a restart.  A page saved on a manager in step with the settings
    table, while the store answers, is in the table and in force; a process
    started anew on that table has the same settings, and its Telegram, VK and Rutube handlers the same
    configuration.  While the store does not answer, the page says so and nothing changes at all.
    Either way the manager stays in step. *)
Theorem bridge_settings_survive_restart (show_duration : Z → string) (ParseDuration : string → option Z) (marshal : Stored → string)
  (unmarshal : string → Stored) (validate_url : option (string → option err)) (env : Config) (fault : bool) (p : BridgePage) (r : Form) (m : Manager) (h0 : Handlers)
  (S : in_sync ParseDuration unmarshal env m) (Tb : is_Some (mg_table m))
  (J : let s := page_form p r (manager_Stored show_duration m) in marshal s ≠ "" ∧ unmarshal (marshal s) = s) :
  let '(m', e) := save_page show_duration ParseDuration marshal validate_url env fault p r m in
  let fresh := (Load ParseDuration unmarshal validate_url env false (NewManager ParseDuration env (mg_table m') h0)).1 in
  let same {A} (part : Handlers → option A) := ∀ a b, part (mg_handlers m) = Some a → part h0 = Some b → part (mg_handlers fresh) = part (mg_handlers m') in
  in_sync ParseDuration unmarshal env m' ∧ mg_runtime fresh = mg_runtime m' ∧
  if fault then m' = m ∧ e ≠ None
  else e = None ∧ mg_runtime m' = MergeEnv ParseDuration env (page_form p r (manager_Stored show_duration m)) ∧ same h_Telegram ∧ same h_VK ∧ same h_Rutube.
Proof.
  destruct Tb as [t Ht]. destruct J as [N R]. unfold save_page, Save. rewrite Ht. set (s := page_form _ _ _) in *. destruct fault; cbv zeta.
  - split; [done|]. split; [|done]. unfold Load, NewManager, in_sync, saved in *. cbn [mg_table]. rewrite Ht in *. cbn. by rewrite S.
  - assert (P : ParseStored unmarshal (default ""%string (<[SettingsKey := marshal s]> t !! SettingsKey)) = s).
    { rewrite lookup_insert_eq. cbn [default]. unfold ParseStored, id. by rewrite (proj2 (String.eqb_neq _ _) N). }
    unfold in_sync, saved, Load, NewManager. cbn [apply with_runtime mg_table mg_runtime mg_handlers fst h_Telegram h_VK h_Rutube]. rewrite P.
    split_and!; try done; intros a b A B; rewrite A, B; done.
Qed.

(** A bridge's page changes that bridge only.  Whatever is typed on it, and whether or not the save
    succeeds, the settings of the other three bridges stay what they were, although all four are written
    back as they are shown; this needs a shown duration to read back, and an environment
    without white space around its values. *)
Lemma bridge_page_changes_its_own (show_duration : Z → string) (ParseDuration : string → option Z) `{!DurationText show_duration ParseDuration}
  (marshal : Stored → string) (validate_url : option (string → option err)) (env : Config) (T : config_trimmed env)
  (fault : bool) (p : BridgePage) (r : Form) (m : Manager) (s0 : Stored) (H : mg_runtime m = MergeEnv ParseDuration env s0) :
  let m' := (save_page show_duration ParseDuration marshal validate_url env fault p r m).1 in
  (p ≠ PageTelegram → rt_Telegram (mg_runtime m') = rt_Telegram (mg_runtime m)) ∧ (p ≠ PageMax → rt_Max (mg_runtime m') = rt_Max (mg_runtime m)) ∧
  (p ≠ PageVK → rt_VK (mg_runtime m') = rt_VK (mg_runtime m)) ∧ (p ≠ PageRutube → rt_Rutube (mg_runtime m') = rt_Rutube (mg_runtime m)).
Proof.
  cbv zeta. set (m' := (save_page _ _ _ _ _ _ _ _ _).1).
  assert (E : m' = m ∨ mg_runtime m' = MergeEnv ParseDuration env (page_form p r (RuntimeToStored show_duration (MergeEnv ParseDuration env s0)))).
  { unfold m', save_page, Save, manager_Stored. rewrite H. destruct (mg_table m); [destruct fault; [by left|by right]|by right]. }
  destruct E as [->|E]; [done|]. rewrite E, H. clear E m'. split_and!; intros N.
  - rewrite <- (telegram_again show_duration ParseDuration env T s0). by destruct p.
  - rewrite <- (max_again show_duration ParseDuration env T s0). by destruct p.
  - rewrite <- (vk_again show_duration ParseDuration env T s0). by destruct p.
  - rewrite <- (rutube_again show_duration ParseDuration env T s0). by destruct p.
Qed.

(** * On concrete settings *)

(** Durations written as their nanoseconds. *)
Definition wit_show (d : Z) : string := format_int d.
Definition wit_parse (s : string) : option Z := parse_int64 s.
#[local] Instance wit_durations : DurationText wit_show wit_parse.
Proof.
  split.
  - intros d H. by apply format_parse_int.
  - intros s d H. by apply parse_int64_in64 in H.
  - intros d. apply graphic_trim_space, graphic_format_int.
  - intros d E. unfold wit_show in E. unfold format_int in E. destruct (d <? 0) eqn:N; [done|]. bool_to_prop.
    destruct (fmt_digits_first 20 d "" ltac:(lia) N) as (c & s & F & _). by rewrite F in E.
Qed.

Definition wit_env : Config :=
  mkConfig (mkTgRuntime false "" "" "" "socks5://p" (10 * second) (25 * second) 1 3 2) (mkMaxRuntime "http://max.local" 100 hour minute 60 0 1 true)
    (mkVKRuntime "token" "5.199" 100 hour minute 5) "" "rssam" false false.
Lemma wit_env_trimmed : config_trimmed wit_env.
Proof. split; repeat constructor; by vm_compute. Qed.

Definition wit_form : Form := λ name,
  if String.eqb name "max_pages" then "7"%string else if String.eqb name "connect_timeout" then "5"%string else ""%string.
Definition wit_saved : Stored := page_form PageTelegram wit_form (RuntimeToStored wit_show (MergeEnv wit_parse wit_env empty_stored)).
Definition wit_handlers : Handlers := mkHandlers (Some (mkTgConfig (cg_Telegram wit_env) "" false)) None None None.
Definition wit_manager : Manager := (Load wit_parse (λ _, wit_saved) None wit_env false (NewManager wit_parse wit_env (Some ∅) wit_handlers)).1.

Lemma wit_manager_in_sync : in_sync wit_parse (λ _, wit_saved) wit_env wit_manager ∧ is_Some (mg_table wit_manager).
Proof. split; [apply load_in_sync; by eexists|by eexists]. Qed.

(** The seven pages typed into the form are in force, and still are in a process started anew. *)
Lemma bridge_settings_survive_restart_witness :
  let m' := (save_page wit_show wit_parse (λ _, "saved"%string) None wit_env false PageTelegram wit_form wit_manager).1 in
  let fresh := (Load wit_parse (λ _, wit_saved) None wit_env false (NewManager wit_parse wit_env (mg_table m') wit_handlers)).1 in
  tr_MaxPages (rt_Telegram (mg_runtime m')) = 7 ∧ mg_runtime fresh = mg_runtime m'.
Proof.
  split; [by vm_compute|].
  refine (proj1 (proj2 (bridge_settings_survive_restart wit_show wit_parse (λ _, "saved"%string) (λ _, wit_saved) None wit_env false PageTelegram wit_form
    wit_manager wit_handlers (proj1 wit_manager_in_sync) (proj2 wit_manager_in_sync) _))).
  split; [done|by vm_compute].
Defined.

Lemma bridge_page_changes_its_own_witness :
  let m := NewManager wit_parse wit_env None wit_handlers in
  let m' := (save_page wit_show wit_parse (λ _, "saved"%string) None wit_env false PageTelegram wit_form m).1 in
  tr_ConnectTimeout (rt_Telegram (mg_runtime m')) = 5 ∧ vr_AccessToken (rt_VK (mg_runtime m')) = "token"%string.
Proof.
  split; [by vm_compute|].
  destruct (bridge_page_changes_its_own wit_show wit_parse (λ _, "saved"%string) None wit_env wit_env_trimmed false PageTelegram wit_form
    (NewManager wit_parse wit_env None wit_handlers) empty_stored eq_refl) as (_ & _ & -> & _); [done|]. by vm_compute.
Defined.
