(* ===== verification/Config.v ===== *)
(** The configuration ([config/config.go]): how the environment is read, with every malformed value
    reported, and the bounds a configuration has to meet.  [ParseDuration] and [ParseFloat] are parameters, and error messages are
    data.  Numbers that are not integers are IEEE doubles, as the Standard Library specifies them. *)

From Stdlib Require Import Ascii SpecFloat.
From S2P Require Import Prelude GoStrings NetIP Types FilterEngine UserStore Retention Refresher Worker WebhookWorker HookDispatch Bridges.

(** [os.LookupEnv] *)
Definition Environment : Type := string → option string.
(** [os.Getenv] *)
Definition Getenv (env : Environment) (key : string) : string := default "" (env key).

(** config/config.go [getEnv] *)
Definition getEnv (env : Environment) (key def : string) : string :=
  let v := trim_space (Getenv env key) in if String.eqb v "" then def else v.

(** config/config.go [parseBool] *)
Definition parseBool (v : string) : bool :=
  let v := to_lower (trim_space v) in
  String.eqb v "1" || String.eqb v "true" || String.eqb v "yes" || String.eqb v "y" || String.eqb v "on".

(** config/config.go [parseBoolDefault] *)
Definition parseBoolDefault (v : string) : bool := if String.eqb (trim_space v) "" then true else parseBool v.

(** config/config.go [parseCSV] *)
Definition parseCSV (v : string) : list string :=
  let v := trim_space v in
  if String.eqb v "" then [] else filter (λ p, p ≠ "") (trim_space <$> split_on ","%char v).

(** config/config.go [parseTrustedProxies] *)
Definition parseTrustedProxies (env : Environment) : list string :=
  match env "TRUSTED_PROXIES" with None => ["127.0.0.0/8"; "::1/128"] | Some v => parseCSV v end.

(** What is wrong with a configuration. *)
Inductive cfg_error :=
| NotInteger (key v : string) | NotNumber (key v : string) | NotDuration (key v : string) | NotPrefix (key item : string)
| AuthTokenGone
| Empty (key : string) | Missing (key : string)
| OutOfRange (key : string) (lo hi v : Z) | Unordered (low high : string) (a b : Z) | BadRate (key : string) (v : spec_float)
| BadChoice (key v : string).

(** * Reading the environment *)

(** config/config.go [envReader] A reading with the malformed values and the deprecated names it came across. *)
Definition logged (A : Type) : Type := A * (list cfg_error * list (string * string)).
#[export] Instance logged_ret : MRet logged := λ A a, (a, ([], [])).
#[export] Instance logged_bind : MBind logged := λ A B f x, let y := f x.1 in (y.1, (x.2.1 ++ y.2.1, x.2.2 ++ y.2.2)).
Definition errs {A} (x : logged A) : list cfg_error := x.2.1.

Lemma bind_errs {A B} (f : A → logged B) (x : logged A) : errs (x ≫= f) = [] ↔ errs x = [] ∧ errs (f x.1) = [].
Proof. change (x.2.1 ++ (f x.1).2.1 = [] ↔ x.2.1 = [] ∧ (f x.1).2.1 = []). apply app_nil. Qed.

Section Reading.
Context (ParseDuration : string → option Z) (ParseFloat : string → option spec_float) (env : Environment).

(** A value that is set, or the one to take otherwise; what does not parse is recorded. *)
Definition parsed {A} (v : string) (def : A) (parse : string → option A) (e : cfg_error) : logged A :=
  if String.eqb v "" then mret def else match parse v with Some a => mret a | None => (def, ([e], [])) end.

(** config/config.go:569-582 [envReader.get, deprecated] *)
Fixpoint get_alias (key : string) (aliases : list string) : logged string :=
  match aliases with
  | [] => mret ""
  | a :: aliases => let v := trim_space (Getenv env a) in
      if String.eqb v "" then get_alias key aliases else (v, ([], [(a, key)]))
  end.
(** config/config.go [envReader.get] *)
Definition env_get (key : string) (aliases : list string) : logged string :=
  let v := trim_space (Getenv env key) in if String.eqb v "" then get_alias key aliases else mret v.

(** config/config.go [envReader.int] *)
Definition env_int (key : string) (def : Z) : logged Z :=
  let v := trim_space (Getenv env key) in parsed v def parse_int64 (NotInteger key v).
(** config/config.go [envReader.float] *)
Definition env_float (key : string) (def : spec_float) : logged spec_float :=
  let v := trim_space (Getenv env key) in parsed v def ParseFloat (NotNumber key v).
(** config/config.go [envReader.duration] *)
Definition env_duration (key : string) (def : Z) (aliases : list string) : logged Z :=
  v ← env_get key aliases; parsed v def ParseDuration (NotDuration key v).

(** An address or a prefix; a bare address is its own prefix. *)
Definition parse_prefix (item : string) : option Prefix :=
  match ParsePrefix item with Some p => Some p | None => (λ a, mkPrefix a (bit_len a)) <$> ParseAddr item end.
(** config/config.go [envReader.prefixes] *)
Definition env_prefixes (key : string) : logged (list Prefix) :=
  let items := parseCSV (Getenv env key) in
  (omap (λ item, Masked <$> parse_prefix item) items,
   (omap (λ item, match parse_prefix item with Some _ => None | None => Some (NotPrefix key item) end) items, [])).

(** config/config.go [envReader.storeEntriesMode] *)
Definition storeEntriesMode : logged string :=
  let v := to_lower (trim_space (Getenv env "STORE_ENTRIES_MODE")) in
  if negb (String.eqb v "") then mret v
  else if parseBool (Getenv env "DEDUP_ONLY_STORAGE") then ("dedup_only", ([], [("DEDUP_ONLY_STORAGE", "STORE_ENTRIES_MODE=dedup_only")]))
  else mret "full".

End Reading.

(** * The configuration *)

(** 0.2, 10, 1000 and 10000 as doubles. *)
Definition f_0_2 : spec_float := S754_finite false 7205759403792794 (-55).
Definition f_10 : spec_float := S754_finite false 5629499534213120 (-49).
Definition f_1000 : spec_float := S754_finite false 8796093022208000 (-43).
Definition f_10000 : spec_float := S754_finite false 5497558138880000 (-39).
Definition f_zero : spec_float := S754_zero false.

Definition millisecond : Z := 1000000.
Definition day : Z := 24 * hour.
Definition max_int64 : Z := 2 ^ 63 - 1.

(** config/config.go [Config] The settings of the bridges are grouped as in [Bridges.v]. *)
Record AppConfig := mkAppConfig {
  ac_DatabaseURL : string; ac_DatabaseMaxConns : Z; ac_ListenAddr : string; ac_LogLevel : string; ac_LogFormat : string;
  ac_RunMigrations : bool; ac_AllowDevToken : bool; ac_MetricsToken : string; ac_AdminUsername : string; ac_AdminPassword : string;
  ac_Warnings : list (string * string); ac_FetchAllowedCIDRs : list string; ac_FetchBlockedHosts : list string;
  ac_FetchTimeoutSeconds : Z; ac_FetchViaProxyURL : string; ac_ScraperMaxContentBytes : Z; ac_FeedCircuitBreakerThreshold : Z;
  ac_FeedPollDailyResetEnabled : bool; ac_FeedPollDailyResetTZ : string; ac_MaxstatAccessToken : string; ac_MaxstatAPIBaseURL : string;
  ac_MaxstatDefaultLimit : Z; ac_MaxstatDefaultLookback : Z; ac_MaxstatOverlap : Z; ac_MaxstatRateLimitSeconds : Z;
  ac_DzenSearchURL : string; ac_DzenUserAgent : string; ac_DzenCookie : string; ac_RemovedRetentionDays : Z;
  ac_WebhookLogRetentionDays : Z; ac_FilterMatchRetentionDays : Z; ac_FeedPollLogRetentionDays : Z; ac_DedupRetentionDays : Z;
  ac_FeedSilentDays : Z; ac_FeedSilentInterval : Z; ac_BackupDir : string; ac_BackupMaxAge : Z; ac_AuditLogRetentionDays : Z;
  ac_CleanupInterval : Z; ac_WorkerPoolSize : Z; ac_WebhookWorkerPoolSize : Z; ac_SchedulerTick : Z; ac_MinPollInterval : Z;
  ac_MaxPollInterval : Z; ac_AdaptiveMaxInterval : Z; ac_PollHostConcurrency : Z; ac_WorkerInstanceID : string;
  ac_MaxFilterRulesPerFilter : Z; ac_MaxRegexLength : Z; ac_MaxFeedsPerEditor : Z; ac_MaxWebhooksPerEditor : Z;
  ac_EditorMinPollInterval : Z; ac_WebhookMaxAttempts : Z; ac_WebhookTimeout : Z; ac_WebhookRetryBase : Z; ac_WebhookRetryMax : Z;
  ac_WSEnabled : bool; ac_WSClientBuffer : Z; ac_WSPingInterval : Z; ac_UIEnabled : bool; ac_FTSLanguage : string;
  ac_StoreEntriesMode : string; ac_HSTSEnabled : bool; ac_SessionMaxAge : Z; ac_TrustedProxies : list string; ac_RateLimitEnabled : bool;
  ac_RateLimitRPS : spec_float; ac_RateLimitBurst : Z; ac_LoginRateLimitRPS : spec_float; ac_LoginRateLimitBurst : Z;
  ac_MaxRequestBodyBytes : Z; ac_MaxImportFeeds : Z; ac_CompressEnabled : bool; ac_InboundWebhooks : bool;
  ac_InboundAllowCIDRs : list Prefix; ac_PprofEnabled : bool; ac_PprofListenAddr : string; ac_ShutdownTimeout : Z;
  ac_bridges : Bridges.Config;
}.

(** * Loading *)

Section Load.
Context (ParseDuration : string → option Z) (ParseFloat : string → option spec_float) (env : Environment).

(** config/config.go:166-307 [Load, up to the warnings] *)
Definition read_config : logged AppConfig :=
  DatabaseMaxConns_ ← env_int env "DATABASE_MAX_CONNS" 0;
  FetchTLSInsecureSkipVerify_ ← env_get env "FETCH_TLS_INSECURE" ["FETCH_INSECURE_SKIP_VERIFY"];
  FetchTimeoutSeconds_ ← env_int env "FETCH_TIMEOUT_SECONDS" 15;
  ScraperMaxContentBytes_ ← env_int env "SCRAPER_MAX_CONTENT_BYTES" 1048576;
  FeedCircuitBreakerThreshold_ ← env_int env "FEED_CIRCUIT_BREAKER_THRESHOLD" 10;
  MaxDefaultLimit_ ← env_int env "MAX_DEFAULT_LIMIT" 100;
  MaxDefaultLookback_ ← env_duration ParseDuration env "MAX_DEFAULT_LOOKBACK" (24 * hour) ["MAX_DEFAULT_LOOKBACK_MS"];
  MaxOverlap_ ← env_duration ParseDuration env "MAX_OVERLAP" (2 * minute) ["MAX_OVERLAP_MS"];
  MaxRateLimitSeconds_ ← env_int env "MAX_RATE_LIMIT_SECONDS" 60;
  MaxRequestIntervalMs_ ← env_int env "MAX_REQUEST_INTERVAL_MS" 1000;
  MaxConcurrentSlots_ ← env_int env "MAX_CONCURRENT_SLOTS" 1;
  MaxstatDefaultLimit_ ← env_int env "MAXSTAT_DEFAULT_LIMIT" 100;
  MaxstatDefaultLookback_ ← env_duration ParseDuration env "MAXSTAT_DEFAULT_LOOKBACK" (24 * hour) [];
  MaxstatOverlap_ ← env_duration ParseDuration env "MAXSTAT_OVERLAP" (2 * minute) [];
  MaxstatRateLimitSeconds_ ← env_int env "MAXSTAT_RATE_LIMIT_SECONDS" 1800;
  TelegramProxyConnectTimeout_ ← env_duration ParseDuration env "TELEGRAM_PROXY_CONNECT_TIMEOUT" (10 * second) [];
  TelegramProxyRequestTimeout_ ← env_duration ParseDuration env "TELEGRAM_PROXY_REQUEST_TIMEOUT" (25 * second) [];
  TelegramProxyRetry_ ← env_int env "TELEGRAM_PROXY_RETRY" 1;
  TelegramMaxPages_ ← env_int env "TELEGRAM_MAX_PAGES" 1;
  TelegramConcurrentSlots_ ← env_int env "TELEGRAM_CONCURRENT_SLOTS" 4;
  VKDefaultCount_ ← env_int env "VK_DEFAULT_COUNT" 100;
  VKDefaultLookback_ ← env_duration ParseDuration env "VK_DEFAULT_LOOKBACK" (24 * hour) [];
  VKOverlap_ ← env_duration ParseDuration env "VK_OVERLAP" (2 * minute) [];
  VKRateLimitSeconds_ ← env_int env "VK_RATE_LIMIT_SECONDS" 5;
  RemovedRetentionDays_ ← env_int env "REMOVED_RETENTION_DAYS" 30;
  WebhookLogRetentionDays_ ← env_int env "WEBHOOK_LOG_RETENTION_DAYS" 90;
  FilterMatchRetentionDays_ ← env_int env "FILTER_MATCH_RETENTION_DAYS" 90;
  FeedPollLogRetentionDays_ ← env_int env "FEED_POLL_LOG_RETENTION_DAYS" 14;
  DedupRetentionDays_ ← env_int env "DEDUP_RETENTION_DAYS" 0;
  FeedSilentDays_ ← env_int env "FEED_SILENT_DAYS" 7;
  FeedSilentInterval_ ← env_duration ParseDuration env "FEED_SILENT_INTERVAL" 0 [];
  BackupMaxAge_ ← env_duration ParseDuration env "BACKUP_MAX_AGE" (36 * hour) [];
  AuditLogRetentionDays_ ← env_int env "AUDIT_LOG_RETENTION_DAYS" 180;
  CleanupInterval_ ← env_duration ParseDuration env "CLEANUP_INTERVAL" (24 * hour) [];
  WorkerPoolSize_ ← env_int env "WORKER_POOL_SIZE" 10;
  SchedulerTick_ ← env_duration ParseDuration env "SCHEDULER_TICK" (30 * second) [];
  MinPollInterval_ ← env_duration ParseDuration env "MIN_POLL_INTERVAL" (60 * second) [];
  MaxPollInterval_ ← env_duration ParseDuration env "MAX_POLL_INTERVAL" (24 * hour) [];
  AdaptiveMaxInterval_ ← env_duration ParseDuration env "ADAPTIVE_MAX_INTERVAL" (6 * hour) [];
  PollHostConcurrency_ ← env_int env "POLL_HOST_CONCURRENCY" 0;
  MaxFilterRulesPerFilter_ ← env_int env "MAX_FILTER_RULES_PER_FILTER" 50;
  MaxRegexLength_ ← env_int env "MAX_REGEX_LENGTH" 2048;
  MaxFeedsPerEditor_ ← env_int env "MAX_FEEDS_PER_EDITOR" 0;
  MaxWebhooksPerEditor_ ← env_int env "MAX_WEBHOOKS_PER_EDITOR" 0;
  EditorMinPollInterval_ ← env_duration ParseDuration env "EDITOR_MIN_POLL_INTERVAL" 0 [];
  WebhookMaxAttempts_ ← env_int env "WEBHOOK_MAX_ATTEMPTS" 10;
  WebhookTimeout_ ← env_duration ParseDuration env "WEBHOOK_TIMEOUT" (10 * second) [];
  WebhookRetryBase_ ← env_duration ParseDuration env "WEBHOOK_RETRY_BASE" (5 * second) [];
  WebhookRetryMax_ ← env_duration ParseDuration env "WEBHOOK_RETRY_MAX" hour [];
  WSClientBuffer_ ← env_int env "WS_CLIENT_BUFFER" 100;
  WSPingInterval_ ← env_duration ParseDuration env "WS_PING_INTERVAL" (30 * second) [];
  StoreEntriesMode_ ← storeEntriesMode env;
  SessionMaxAge_ ← env_duration ParseDuration env "SESSION_MAX_AGE" (30 * 24 * hour) [];
  RateLimitRPS_ ← env_float ParseFloat env "RATE_LIMIT_RPS" f_10;
  RateLimitBurst_ ← env_int env "RATE_LIMIT_BURST" 20;
  LoginRateLimitRPS_ ← env_float ParseFloat env "LOGIN_RATE_LIMIT_RPS" f_0_2;
  LoginRateLimitBurst_ ← env_int env "LOGIN_RATE_LIMIT_BURST" 10;
  MaxRequestBodyBytes_ ← env_int env "MAX_REQUEST_BODY_BYTES" 1048576;
  MaxImportFeeds_ ← env_int env "MAX_IMPORT_FEEDS" 500;
  InboundAllowCIDRs_ ← env_prefixes env "INBOUND_WEBHOOK_ALLOW_CIDRS";
  ShutdownTimeout_ ← env_duration ParseDuration env "SHUTDOWN_TIMEOUT" (15 * second) [];
  WebhookWorkerPoolSize_ ← env_int env "WEBHOOK_WORKER_POOL_SIZE" WorkerPoolSize_;
  mret {|
    ac_DatabaseURL := trim_space (Getenv env "DATABASE_URL"); ac_DatabaseMaxConns := DatabaseMaxConns_;
    ac_ListenAddr := getEnv env "LISTEN_ADDR" ":8080"; ac_LogLevel := to_lower (getEnv env "LOG_LEVEL" "info");
    ac_LogFormat := to_lower (getEnv env "LOG_FORMAT" "json"); ac_RunMigrations := parseBool (Getenv env "RUN_MIGRATIONS");
    ac_AllowDevToken := parseBool (Getenv env "ALLOW_DEV_TOKEN"); ac_MetricsToken := trim_space (Getenv env "METRICS_TOKEN");
    ac_AdminUsername := trim_space (Getenv env "ADMIN_USERNAME"); ac_AdminPassword := trim_space (Getenv env "ADMIN_PASSWORD");
    ac_Warnings := []; ac_FetchAllowedCIDRs := parseCSV (Getenv env "FETCH_ALLOWED_CIDRS");
    ac_FetchBlockedHosts := parseCSV (Getenv env "FETCH_BLOCKED_HOSTS"); ac_FetchTimeoutSeconds := FetchTimeoutSeconds_;
    ac_FetchViaProxyURL := trim_space (Getenv env "FETCH_VIA_PROXY"); ac_ScraperMaxContentBytes := ScraperMaxContentBytes_;
    ac_FeedCircuitBreakerThreshold := FeedCircuitBreakerThreshold_;
    ac_FeedPollDailyResetEnabled := parseBoolDefault (Getenv env "FEED_POLL_DAILY_RESET");
    ac_FeedPollDailyResetTZ := getEnv env "FEED_POLL_DAILY_RESET_TZ" "Europe/Moscow";
    ac_MaxstatAccessToken := trim_space (Getenv env "MAXSTAT_ACCESS_TOKEN");
    ac_MaxstatAPIBaseURL := trim_space (getEnv env "MAXSTAT_API_BASE_URL" "https://maxstat.ru/api/v1");
    ac_MaxstatDefaultLimit := MaxstatDefaultLimit_; ac_MaxstatDefaultLookback := MaxstatDefaultLookback_;
    ac_MaxstatOverlap := MaxstatOverlap_; ac_MaxstatRateLimitSeconds := MaxstatRateLimitSeconds_;
    ac_DzenSearchURL := trim_space (getEnv env "DZEN_SEARCH_URL" "https://dzen.ru/news/search");
    ac_DzenUserAgent := trim_space (Getenv env "DZEN_USER_AGENT");
    ac_DzenCookie := trim_space (getEnv env "DZEN_COOKIE" "zen_sso_checked=1"); ac_RemovedRetentionDays := RemovedRetentionDays_;
    ac_WebhookLogRetentionDays := WebhookLogRetentionDays_; ac_FilterMatchRetentionDays := FilterMatchRetentionDays_;
    ac_FeedPollLogRetentionDays := FeedPollLogRetentionDays_; ac_DedupRetentionDays := DedupRetentionDays_;
    ac_FeedSilentDays := FeedSilentDays_; ac_FeedSilentInterval := FeedSilentInterval_;
    ac_BackupDir := trim_space (Getenv env "BACKUP_DIR"); ac_BackupMaxAge := BackupMaxAge_;
    ac_AuditLogRetentionDays := AuditLogRetentionDays_; ac_CleanupInterval := CleanupInterval_; ac_WorkerPoolSize := WorkerPoolSize_;
    ac_WebhookWorkerPoolSize := WebhookWorkerPoolSize_; ac_SchedulerTick := SchedulerTick_; ac_MinPollInterval := MinPollInterval_;
    ac_MaxPollInterval := MaxPollInterval_; ac_AdaptiveMaxInterval := AdaptiveMaxInterval_; ac_PollHostConcurrency := PollHostConcurrency_;
    ac_WorkerInstanceID := trim_space (Getenv env "WORKER_INSTANCE_ID"); ac_MaxFilterRulesPerFilter := MaxFilterRulesPerFilter_;
    ac_MaxRegexLength := MaxRegexLength_; ac_MaxFeedsPerEditor := MaxFeedsPerEditor_; ac_MaxWebhooksPerEditor := MaxWebhooksPerEditor_;
    ac_EditorMinPollInterval := EditorMinPollInterval_; ac_WebhookMaxAttempts := WebhookMaxAttempts_; ac_WebhookTimeout := WebhookTimeout_;
    ac_WebhookRetryBase := WebhookRetryBase_; ac_WebhookRetryMax := WebhookRetryMax_;
    ac_WSEnabled := parseBool (getEnv env "WS_ENABLED" "true"); ac_WSClientBuffer := WSClientBuffer_; ac_WSPingInterval := WSPingInterval_;
    ac_UIEnabled := parseBoolDefault (Getenv env "UI_ENABLED"); ac_FTSLanguage := to_lower (getEnv env "FTS_LANGUAGE" "russian");
    ac_StoreEntriesMode := StoreEntriesMode_; ac_HSTSEnabled := parseBool (Getenv env "HSTS"); ac_SessionMaxAge := SessionMaxAge_;
    ac_TrustedProxies := parseTrustedProxies env; ac_RateLimitEnabled := parseBoolDefault (Getenv env "RATE_LIMIT_ENABLED");
    ac_RateLimitRPS := RateLimitRPS_; ac_RateLimitBurst := RateLimitBurst_; ac_LoginRateLimitRPS := LoginRateLimitRPS_;
    ac_LoginRateLimitBurst := LoginRateLimitBurst_; ac_MaxRequestBodyBytes := MaxRequestBodyBytes_; ac_MaxImportFeeds := MaxImportFeeds_;
    ac_CompressEnabled := parseBoolDefault (Getenv env "COMPRESS_ENABLED");
    ac_InboundWebhooks := parseBool (Getenv env "INBOUND_WEBHOOKS"); ac_InboundAllowCIDRs := InboundAllowCIDRs_;
    ac_PprofEnabled := parseBool (Getenv env "PPROF_ENABLED"); ac_PprofListenAddr := getEnv env "PPROF_LISTEN_ADDR" "127.0.0.1:6060";
    ac_ShutdownTimeout := ShutdownTimeout_;
    ac_bridges := mkConfig
      (mkTgRuntime false (trim_space (Getenv env "TELEGRAM_PROXY_SERVICE_URL")) (trim_space (Getenv env "TELEGRAM_PROXY_SERVICE_TOKEN"))
         (trim_space (Getenv env "TELEGRAM_PROXY_TARGET_URL")) (trim_space (Getenv env "TELEGRAM_STATIC_PROXY"))
         TelegramProxyConnectTimeout_ TelegramProxyRequestTimeout_ TelegramProxyRetry_ TelegramMaxPages_ TelegramConcurrentSlots_)
      (mkMaxRuntime (trim_space (Getenv env "MAX_API_BASE_URL")) MaxDefaultLimit_ MaxDefaultLookback_ MaxOverlap_
         MaxRateLimitSeconds_ MaxRequestIntervalMs_ MaxConcurrentSlots_ (parseBool (Getenv env "MAX_ALLOW_PRIVATE_API")))
      (mkVKRuntime (trim_space (Getenv env "VK_ACCESS_TOKEN")) (getEnv env "VK_API_VERSION" "5.199") VKDefaultCount_ VKDefaultLookback_
         VKOverlap_ VKRateLimitSeconds_)
      (trim_space (getEnv env "RUTUBE_API_BASE_URL" "https://rutube.ru/api")) (getEnv env "FETCH_USER_AGENT" "rssam") (parseBool FetchTLSInsecureSkipVerify_)
      (parseBool (Getenv env "FETCH_ALLOW_PRIVATE_NETWORK"))
  |}.

End Load.

(** * Checking *)

(** config/config.go:343-376 [Validate, the table of numbers] Name, value and bounds. *)
Definition int_ranges (c : AppConfig) : list (string * Z * Z * Z) :=
  [
    ("DATABASE_MAX_CONNS", ac_DatabaseMaxConns c, 0, 500); ("FETCH_TIMEOUT_SECONDS", ac_FetchTimeoutSeconds c, 1, 300);
    ("SCRAPER_MAX_CONTENT_BYTES", ac_ScraperMaxContentBytes c, 1024, 10 * 1024 * 1024);
    ("MAX_DEFAULT_LIMIT", mr_DefaultLimit (cg_Max (ac_bridges c)), 1, 200);
    ("MAX_RATE_LIMIT_SECONDS", mr_RateLimitSeconds (cg_Max (ac_bridges c)), 1, 86400);
    ("MAX_REQUEST_INTERVAL_MS", mr_RequestIntervalMs (cg_Max (ac_bridges c)), 0, 60000);
    ("MAX_CONCURRENT_SLOTS", mr_ConcurrentSlots (cg_Max (ac_bridges c)), 1, 32);
    ("TELEGRAM_PROXY_RETRY", tr_ProxyRetry (cg_Telegram (ac_bridges c)), 0, 20);
    ("TELEGRAM_MAX_PAGES", tr_MaxPages (cg_Telegram (ac_bridges c)), 1, 100);
    ("TELEGRAM_CONCURRENT_SLOTS", tr_ConcurrentSlots (cg_Telegram (ac_bridges c)), 1, 32);
    ("VK_DEFAULT_COUNT", vr_DefaultCount (cg_VK (ac_bridges c)), 1, 100);
    ("VK_RATE_LIMIT_SECONDS", vr_RateLimitSeconds (cg_VK (ac_bridges c)), 1, 86400);
    ("MAXSTAT_DEFAULT_LIMIT", ac_MaxstatDefaultLimit c, 1, 100); ("MAXSTAT_RATE_LIMIT_SECONDS", ac_MaxstatRateLimitSeconds c, 1, 86400);
    ("REMOVED_RETENTION_DAYS", ac_RemovedRetentionDays c, 1, 3650); ("WEBHOOK_LOG_RETENTION_DAYS", ac_WebhookLogRetentionDays c, 1, 3650);
    ("FILTER_MATCH_RETENTION_DAYS", ac_FilterMatchRetentionDays c, 0, 3650); ("FEED_SILENT_DAYS", ac_FeedSilentDays c, 0, 3650);
    ("FEED_POLL_LOG_RETENTION_DAYS", ac_FeedPollLogRetentionDays c, 0, 3650); ("AUDIT_LOG_RETENTION_DAYS", ac_AuditLogRetentionDays c, 0, 3650);
    ("DEDUP_RETENTION_DAYS", ac_DedupRetentionDays c, 0, 3650); ("WORKER_POOL_SIZE", ac_WorkerPoolSize c, 1, 1000);
    ("POLL_HOST_CONCURRENCY", ac_PollHostConcurrency c, 0, 1000); ("WEBHOOK_WORKER_POOL_SIZE", ac_WebhookWorkerPoolSize c, 1, 1000);
    ("MAX_FILTER_RULES_PER_FILTER", ac_MaxFilterRulesPerFilter c, 1, 10000); ("MAX_REGEX_LENGTH", ac_MaxRegexLength c, 1, 1048576);
    ("MAX_FEEDS_PER_EDITOR", ac_MaxFeedsPerEditor c, 0, 100000); ("MAX_WEBHOOKS_PER_EDITOR", ac_MaxWebhooksPerEditor c, 0, 10000);
    ("WEBHOOK_MAX_ATTEMPTS", ac_WebhookMaxAttempts c, 1, 1000); ("WS_CLIENT_BUFFER", ac_WSClientBuffer c, 1, 100000);
    ("RATE_LIMIT_BURST", ac_RateLimitBurst c, 1, 100000); ("LOGIN_RATE_LIMIT_BURST", ac_LoginRateLimitBurst c, 1, 10000);
    ("MAX_REQUEST_BODY_BYTES", ac_MaxRequestBodyBytes c, 1024, 32 * 1024 * 1024); ("MAX_IMPORT_FEEDS", ac_MaxImportFeeds c, 1, 100000)
  ].

(** config/config.go:388-409 [Validate, the table of durations] *)
Definition duration_ranges (c : AppConfig) : list (string * Z * Z * Z) :=
  [
    ("MAX_DEFAULT_LOOKBACK", mr_DefaultLookback (cg_Max (ac_bridges c)), millisecond, 30 * day);
    ("MAX_OVERLAP", mr_Overlap (cg_Max (ac_bridges c)), 0, day);
    ("TELEGRAM_PROXY_CONNECT_TIMEOUT", tr_ConnectTimeout (cg_Telegram (ac_bridges c)), millisecond, 5 * minute);
    ("TELEGRAM_PROXY_REQUEST_TIMEOUT", tr_RequestTimeout (cg_Telegram (ac_bridges c)), millisecond, 5 * minute);
    ("VK_DEFAULT_LOOKBACK", vr_DefaultLookback (cg_VK (ac_bridges c)), millisecond, 30 * day);
    ("VK_OVERLAP", vr_Overlap (cg_VK (ac_bridges c)), 0, day); ("MAXSTAT_DEFAULT_LOOKBACK", ac_MaxstatDefaultLookback c, millisecond, 30 * day);
    ("MAXSTAT_OVERLAP", ac_MaxstatOverlap c, 0, day); ("BACKUP_MAX_AGE", ac_BackupMaxAge c, hour, max_int64);
    ("SESSION_MAX_AGE", ac_SessionMaxAge c, 5 * minute, 365 * day); ("CLEANUP_INTERVAL", ac_CleanupInterval c, millisecond, 7 * day);
    ("SCHEDULER_TICK", ac_SchedulerTick c, millisecond, max_int64); ("MIN_POLL_INTERVAL", ac_MinPollInterval c, millisecond, max_int64);
    ("MAX_POLL_INTERVAL", ac_MaxPollInterval c, millisecond, max_int64);
    ("ADAPTIVE_MAX_INTERVAL", ac_AdaptiveMaxInterval c, millisecond, max_int64);
    ("FEED_SILENT_INTERVAL", ac_FeedSilentInterval c, 0, max_int64);
    ("EDITOR_MIN_POLL_INTERVAL", ac_EditorMinPollInterval c, 0, ac_MaxPollInterval c);
    ("WEBHOOK_TIMEOUT", ac_WebhookTimeout c, millisecond, 300 * second); ("WEBHOOK_RETRY_BASE", ac_WebhookRetryBase c, millisecond, max_int64);
    ("WEBHOOK_RETRY_MAX", ac_WebhookRetryMax c, millisecond, max_int64); ("WS_PING_INTERVAL", ac_WSPingInterval c, millisecond, 10 * minute);
    ("SHUTDOWN_TIMEOUT", ac_ShutdownTimeout c, millisecond, 5 * minute)
  ].

(** config/config.go:378-380,411-418 [Validate, the loops over the tables] *)
Definition check_range (r : string * Z * Z * Z) : list cfg_error :=
  let '(key, v, lo, hi) := r in if (v <? lo) || (hi <? v) then [OutOfRange key lo hi v] else [].

Definition check (bad : bool) (e : cfg_error) : list cfg_error := if bad then [e] else [].

(** config/config.go [Validate] *)
Definition Validate (c : AppConfig) : list cfg_error :=
  let blank (key v : string) := check (String.eqb (trim_space v) "") (Empty key) in
  let unordered low high a b := check ((0 <? a) && (0 <? b) && (b <? a)) (Unordered low high a b) in
  let rate key v top := check (SFleb v f_zero || SFltb top v) (BadRate key v) in
  let choice key v allowed := check (negb (bool_decide (v ∈ allowed))) (BadChoice key v) in
  blank "LISTEN_ADDR" (ac_ListenAddr c) ++ blank "LOG_LEVEL" (ac_LogLevel c) ++ blank "FETCH_USER_AGENT" (cg_FetchUserAgent (ac_bridges c)) ++
  blank "PPROF_LISTEN_ADDR" (ac_PprofListenAddr c) ++
  check (String.eqb (ac_DatabaseURL c) "") (Missing "DATABASE_URL") ++
  (int_ranges c ≫= check_range) ++ (duration_ranges c ≫= check_range) ++
  unordered "MIN_POLL_INTERVAL" "MAX_POLL_INTERVAL" (ac_MinPollInterval c) (ac_MaxPollInterval c) ++
  unordered "WEBHOOK_RETRY_BASE" "WEBHOOK_RETRY_MAX" (ac_WebhookRetryBase c) (ac_WebhookRetryMax c) ++
  rate "RATE_LIMIT_RPS" (ac_RateLimitRPS c) f_10000 ++ rate "LOGIN_RATE_LIMIT_RPS" (ac_LoginRateLimitRPS c) f_1000 ++
  choice "LOG_FORMAT" (ac_LogFormat c) ["json"; "text"] ++
  choice "FTS_LANGUAGE" (ac_FTSLanguage c) [""; "simple"; "russian"; "ru"] ++
  check (negb (bool_decide (to_lower (trim_space (ac_StoreEntriesMode c)) ∈ ["full"; "dedup_only"; "relay"])))
    (BadChoice "STORE_ENTRIES_MODE" (ac_StoreEntriesMode c)).

(** config/config.go [EffectiveDatabaseMaxConns] *)
Definition EffectiveDatabaseMaxConns (c : AppConfig) : Z :=
  if 0 <? ac_DatabaseMaxConns c then ac_DatabaseMaxConns c
  else Z.min (Z.max (wrap64 (ac_WorkerPoolSize c + ac_WebhookWorkerPoolSize c + 8)) 16) 200.

(** [cfg.Warnings = env.warns] *)
Definition with_warnings (c : AppConfig) (ws : list (string * string)) : AppConfig := {|
    ac_DatabaseURL := ac_DatabaseURL c; ac_DatabaseMaxConns := ac_DatabaseMaxConns c; ac_ListenAddr := ac_ListenAddr c;
    ac_LogLevel := ac_LogLevel c; ac_LogFormat := ac_LogFormat c; ac_RunMigrations := ac_RunMigrations c;
    ac_AllowDevToken := ac_AllowDevToken c; ac_MetricsToken := ac_MetricsToken c; ac_AdminUsername := ac_AdminUsername c;
    ac_AdminPassword := ac_AdminPassword c; ac_Warnings := ws; ac_FetchAllowedCIDRs := ac_FetchAllowedCIDRs c;
    ac_FetchBlockedHosts := ac_FetchBlockedHosts c; ac_FetchTimeoutSeconds := ac_FetchTimeoutSeconds c;
    ac_FetchViaProxyURL := ac_FetchViaProxyURL c; ac_ScraperMaxContentBytes := ac_ScraperMaxContentBytes c;
    ac_FeedCircuitBreakerThreshold := ac_FeedCircuitBreakerThreshold c; ac_FeedPollDailyResetEnabled := ac_FeedPollDailyResetEnabled c;
    ac_FeedPollDailyResetTZ := ac_FeedPollDailyResetTZ c; ac_MaxstatAccessToken := ac_MaxstatAccessToken c;
    ac_MaxstatAPIBaseURL := ac_MaxstatAPIBaseURL c; ac_MaxstatDefaultLimit := ac_MaxstatDefaultLimit c;
    ac_MaxstatDefaultLookback := ac_MaxstatDefaultLookback c; ac_MaxstatOverlap := ac_MaxstatOverlap c;
    ac_MaxstatRateLimitSeconds := ac_MaxstatRateLimitSeconds c; ac_DzenSearchURL := ac_DzenSearchURL c;
    ac_DzenUserAgent := ac_DzenUserAgent c; ac_DzenCookie := ac_DzenCookie c; ac_RemovedRetentionDays := ac_RemovedRetentionDays c;
    ac_WebhookLogRetentionDays := ac_WebhookLogRetentionDays c; ac_FilterMatchRetentionDays := ac_FilterMatchRetentionDays c;
    ac_FeedPollLogRetentionDays := ac_FeedPollLogRetentionDays c; ac_DedupRetentionDays := ac_DedupRetentionDays c;
    ac_FeedSilentDays := ac_FeedSilentDays c; ac_FeedSilentInterval := ac_FeedSilentInterval c; ac_BackupDir := ac_BackupDir c;
    ac_BackupMaxAge := ac_BackupMaxAge c; ac_AuditLogRetentionDays := ac_AuditLogRetentionDays c;
    ac_CleanupInterval := ac_CleanupInterval c; ac_WorkerPoolSize := ac_WorkerPoolSize c;
    ac_WebhookWorkerPoolSize := ac_WebhookWorkerPoolSize c; ac_SchedulerTick := ac_SchedulerTick c;
    ac_MinPollInterval := ac_MinPollInterval c; ac_MaxPollInterval := ac_MaxPollInterval c;
    ac_AdaptiveMaxInterval := ac_AdaptiveMaxInterval c; ac_PollHostConcurrency := ac_PollHostConcurrency c;
    ac_WorkerInstanceID := ac_WorkerInstanceID c; ac_MaxFilterRulesPerFilter := ac_MaxFilterRulesPerFilter c;
    ac_MaxRegexLength := ac_MaxRegexLength c; ac_MaxFeedsPerEditor := ac_MaxFeedsPerEditor c;
    ac_MaxWebhooksPerEditor := ac_MaxWebhooksPerEditor c; ac_EditorMinPollInterval := ac_EditorMinPollInterval c;
    ac_WebhookMaxAttempts := ac_WebhookMaxAttempts c; ac_WebhookTimeout := ac_WebhookTimeout c;
    ac_WebhookRetryBase := ac_WebhookRetryBase c; ac_WebhookRetryMax := ac_WebhookRetryMax c; ac_WSEnabled := ac_WSEnabled c;
    ac_WSClientBuffer := ac_WSClientBuffer c; ac_WSPingInterval := ac_WSPingInterval c; ac_UIEnabled := ac_UIEnabled c;
    ac_FTSLanguage := ac_FTSLanguage c; ac_StoreEntriesMode := ac_StoreEntriesMode c; ac_HSTSEnabled := ac_HSTSEnabled c;
    ac_SessionMaxAge := ac_SessionMaxAge c; ac_TrustedProxies := ac_TrustedProxies c; ac_RateLimitEnabled := ac_RateLimitEnabled c;
    ac_RateLimitRPS := ac_RateLimitRPS c; ac_RateLimitBurst := ac_RateLimitBurst c; ac_LoginRateLimitRPS := ac_LoginRateLimitRPS c;
    ac_LoginRateLimitBurst := ac_LoginRateLimitBurst c; ac_MaxRequestBodyBytes := ac_MaxRequestBodyBytes c;
    ac_MaxImportFeeds := ac_MaxImportFeeds c; ac_CompressEnabled := ac_CompressEnabled c; ac_InboundWebhooks := ac_InboundWebhooks c;
    ac_InboundAllowCIDRs := ac_InboundAllowCIDRs c; ac_PprofEnabled := ac_PprofEnabled c; ac_PprofListenAddr := ac_PprofListenAddr c;
    ac_ShutdownTimeout := ac_ShutdownTimeout c; ac_bridges := ac_bridges c
|}.

Section LoadAll.
Context (ParseDuration : string → option Z) (ParseFloat : string → option spec_float) (env : Environment).

(** config/config.go [Load] A configuration, or everything that is wrong with the environment. *)
Definition LoadConfig : list cfg_error + AppConfig :=
  let '(cfg, (es, ws)) := read_config ParseDuration ParseFloat env in
  let es := es ++ check (negb (String.eqb (trim_space (Getenv env "AUTH_TOKEN")) "")) AuthTokenGone in
  match es with
  | _ :: _ => inl es
  | [] => match Validate cfg with [] => inr (with_warnings cfg ws) | es => inl es end
  end.
End LoadAll.

(** * What an accepted configuration guarantees *)

(** The setting is unset, or its text parses. *)
Definition well_read {A} (parse : string → option A) (v : string) : Prop := v = "" ∨ is_Some (parse v).

Lemma parsed_ok {A} v (def : A) parse e : errs (parsed v def parse e) = [] → well_read parse v.
Proof. unfold parsed, well_read. destruct (String.eqb_spec v ""); [by left|]. destruct (parse v); [by eauto|done]. Qed.

Lemma env_int_ok env key def : errs (env_int env key def) = [] → well_read parse_int64 (trim_space (Getenv env key)).
Proof. apply parsed_ok. Qed.
Lemma env_float_ok parse env key def : errs (env_float parse env key def) = [] → well_read parse (trim_space (Getenv env key)).
Proof. apply parsed_ok. Qed.
Lemma env_duration_ok parse env key def aliases :
  errs (env_duration parse env key def aliases) = [] → well_read parse (env_get env key aliases).1.
Proof. unfold env_duration. rewrite bind_errs. intros [_ H]. by apply parsed_ok in H. Qed.
Lemma env_prefixes_ok env key : errs (env_prefixes env key) = [] → Forall (λ item, is_Some (parse_prefix item)) (parseCSV (Getenv env key)).
Proof.
  unfold errs, env_prefixes. cbn. induction (parseCSV _) as [|x l IH]; [constructor|].
  cbn. destruct (parse_prefix x) eqn:E; [|done]. intros H. constructor; [by rewrite E|by apply IH].
Qed.

Lemma env_duration_in64 (parse : string → option Z) env key def aliases :
  (∀ s d, parse s = Some d → in64 d) → in64 def → in64 (env_duration parse env key def aliases).1.
Proof.
  intros L D. change (in64 (parsed (env_get env key aliases).1 def parse (NotDuration key (env_get env key aliases).1)).1).
  unfold parsed. destruct (String.eqb _ _); [done|]. destruct (parse _) as [d|] eqn:E; [by eapply L|done].
Qed.

Lemma getEnv_trimmed env key def : trim_space def = def → trim_space (getEnv env key def) = getEnv env key def.
Proof. unfold getEnv. cbv zeta. destruct (String.eqb _ _); [done|]. intros _. apply trim_space_idemp. Qed.

Definition int_settings : list string :=
  ["DATABASE_MAX_CONNS"; "FETCH_TIMEOUT_SECONDS"; "SCRAPER_MAX_CONTENT_BYTES"; "FEED_CIRCUIT_BREAKER_THRESHOLD"; "MAX_DEFAULT_LIMIT";
   "MAX_RATE_LIMIT_SECONDS"; "MAX_REQUEST_INTERVAL_MS"; "MAX_CONCURRENT_SLOTS"; "MAXSTAT_DEFAULT_LIMIT"; "MAXSTAT_RATE_LIMIT_SECONDS";
   "TELEGRAM_PROXY_RETRY"; "TELEGRAM_MAX_PAGES"; "TELEGRAM_CONCURRENT_SLOTS"; "VK_DEFAULT_COUNT"; "VK_RATE_LIMIT_SECONDS";
   "REMOVED_RETENTION_DAYS"; "WEBHOOK_LOG_RETENTION_DAYS"; "FILTER_MATCH_RETENTION_DAYS"; "FEED_POLL_LOG_RETENTION_DAYS"; "DEDUP_RETENTION_DAYS";
   "FEED_SILENT_DAYS"; "AUDIT_LOG_RETENTION_DAYS"; "WORKER_POOL_SIZE"; "POLL_HOST_CONCURRENCY"; "MAX_FILTER_RULES_PER_FILTER"; "MAX_REGEX_LENGTH";
   "MAX_FEEDS_PER_EDITOR"; "MAX_WEBHOOKS_PER_EDITOR"; "WEBHOOK_MAX_ATTEMPTS"; "WS_CLIENT_BUFFER"; "RATE_LIMIT_BURST"; "LOGIN_RATE_LIMIT_BURST";
   "MAX_REQUEST_BODY_BYTES"; "MAX_IMPORT_FEEDS"; "WEBHOOK_WORKER_POOL_SIZE"].
(** With the names they had before. *)
Definition duration_settings : list (string * list string) :=
  [("MAX_DEFAULT_LOOKBACK", ["MAX_DEFAULT_LOOKBACK_MS"]); ("MAX_OVERLAP", ["MAX_OVERLAP_MS"]); ("MAXSTAT_DEFAULT_LOOKBACK", []);
   ("MAXSTAT_OVERLAP", []); ("TELEGRAM_PROXY_CONNECT_TIMEOUT", []); ("TELEGRAM_PROXY_REQUEST_TIMEOUT", []); ("VK_DEFAULT_LOOKBACK", []);
   ("VK_OVERLAP", []); ("FEED_SILENT_INTERVAL", []); ("BACKUP_MAX_AGE", []); ("CLEANUP_INTERVAL", []); ("SCHEDULER_TICK", []);
   ("MIN_POLL_INTERVAL", []); ("MAX_POLL_INTERVAL", []); ("ADAPTIVE_MAX_INTERVAL", []); ("EDITOR_MIN_POLL_INTERVAL", []); ("WEBHOOK_TIMEOUT", []);
   ("WEBHOOK_RETRY_BASE", []); ("WEBHOOK_RETRY_MAX", []); ("WS_PING_INTERVAL", []); ("SESSION_MAX_AGE", []); ("SHUTDOWN_TIMEOUT", [])].

(** Nothing of the environment is malformed. *)
Record environment_read (ParseDuration : string → option Z) (ParseFloat : string → option spec_float) (env : Environment) : Prop := {
  er_ints : Forall (λ key, well_read parse_int64 (trim_space (Getenv env key))) int_settings;
  er_durations : Forall (λ s, well_read ParseDuration (env_get env s.1 s.2).1) duration_settings;
  er_floats : Forall (λ key, well_read ParseFloat (trim_space (Getenv env key))) ["RATE_LIMIT_RPS"; "LOGIN_RATE_LIMIT_RPS"];
  er_prefixes : Forall (λ item, is_Some (parse_prefix item)) (parseCSV (Getenv env "INBOUND_WEBHOOK_ALLOW_CIDRS"));
}.

Ltac split_errs H := repeat (apply bind_errs in H; let E := fresh "E" in destruct H as [E H]; cbv beta in H).

Lemma read_config_errs ParseDuration ParseFloat env :
  errs (read_config ParseDuration ParseFloat env) = [] → environment_read ParseDuration ParseFloat env.
Proof.
  unfold read_config. intros H. split_errs H. split.
  - repeat (constructor; [by eapply env_int_ok|]). constructor.
  - repeat (constructor; [by eapply env_duration_ok|]). constructor.
  - repeat (constructor; [by eapply env_float_ok|]). constructor.
  - by apply env_prefixes_ok.
Qed.

Lemma read_config_trimmed ParseDuration ParseFloat env : (∀ s d, ParseDuration s = Some d → in64 d) →
  config_trimmed (ac_bridges (read_config ParseDuration ParseFloat env).1).
Proof.
  intros L. split.
  - repeat (constructor; [apply trim_space_idemp|]). constructor.
  - repeat constructor; first [apply trim_space_idemp|by apply getEnv_trimmed].
  - repeat (constructor; [apply env_duration_in64; [done|by vm_compute]|]). constructor.
Qed.

(** ** The checks *)

Lemma check_nil bad e : check bad e = [] ↔ bad = false.
Proof. destruct bad; by cbn. Qed.

Lemma ranges_nil (l : list (string * Z * Z * Z)) : l ≫= check_range = [] → Forall (λ '(key, v, lo, hi), lo <= v <= hi) l.
Proof.
  induction l as [|[[[key v] lo] hi] l IH]; [by constructor|]. cbn. intros [H Hl]%app_nil. constructor; [|by apply IH].
  destruct (Z.ltb_spec v lo), (Z.ltb_spec hi v); [done..|lia].
Qed.

(** Two doubles that are not NaN are ordered. *)
Lemma SFcompare_antisym x y : SFcompare x y = CompOpp <$> SFcompare y x.
Proof.
  destruct x as [sx|sx| |sx mx ex], y as [sy|sy| |sy my ey]; try (destruct sx); try (destruct sy); try done; cbn;
    change (Pos.compare_cont Eq) with Pos.compare; rewrite (Z.compare_antisym ey ex), (Pos.compare_antisym my mx);
    by destruct (ey ?= ex)%Z, (my ?= mx)%positive.
Qed.

Lemma SFltb_leb x y : SFcompare x y ≠ None → SFltb x y = false → SFleb y x = true.
Proof. unfold SFltb, SFleb. rewrite (SFcompare_antisym y x). by destruct (SFcompare x y) as [[]|]. Qed.
Lemma SFleb_ltb x y : SFcompare x y ≠ None → SFleb x y = false → SFltb y x = true.
Proof. unfold SFltb, SFleb. rewrite (SFcompare_antisym y x). by destruct (SFcompare x y) as [[]|]. Qed.

(** A rate that passes is not a number, or is positive and not above the limit. *)
Definition rate_ok (v top : spec_float) : Prop := v = S754_nan ∨ SFltb f_zero v = true ∧ SFleb v top = true.

Lemma rate_checked v m e : SFleb v f_zero || SFltb (S754_finite false m e) v = false → rate_ok v (S754_finite false m e).
Proof.
  intros [A B]%orb_false_iff. assert (v = S754_nan ∨ v ≠ S754_nan) as [->|N] by (destruct v; [right|right|left|right]; done); [by left|right].
  split; [apply SFleb_ltb in A|apply SFltb_leb in B]; try done; destruct v as [[]|[]| |[]]; try done; cbn; by repeat case_match.
Qed.

(** ** The settings the parts are started with *)

(** cmd/rssam/main.go:275-291 [main, the settings of the refresher] *)
Definition refresher_settings (c : AppConfig) : Refresher.Cfg :=
  Refresher.mkCfg (ac_StoreEntriesMode c) (ac_FeedCircuitBreakerThreshold c) (ac_MinPollInterval c) (ac_MaxPollInterval c) (ac_AdaptiveMaxInterval c)
    (wrap64 (ac_FeedSilentDays c * 24 * hour)) (ac_FeedSilentInterval c).
(** cmd/rssam/main.go:293-296 [main, the settings of the filters] *)
Definition filter_settings (c : AppConfig) : FilterEngine.Config := FilterEngine.mkConfig (ac_MaxFilterRulesPerFilter c) (ac_MaxRegexLength c).
(** cmd/rssam/main.go:314-319 [main, the settings of the poll loop] *)
Definition poll_settings (c : AppConfig) : WCfg := mkWCfg (ac_WorkerPoolSize c) (ac_SchedulerTick c) (ac_MinPollInterval c) (ac_MaxPollInterval c).
(** cmd/rssam/main.go:316-317 [main, the settings of the delivery loop] *)
Definition loop_settings (c : AppConfig) : LoopCfg := mkLoopCfg (ac_WebhookWorkerPoolSize c) (ac_SchedulerTick c).
(** cmd/rssam/main.go:323-327 [main, the settings of the deliveries] *)
Definition hook_settings (c : AppConfig) : HookCfg :=
  mkHookCfg (ac_WebhookMaxAttempts c) (ac_WebhookRetryBase c) (ac_WebhookRetryMax c)
    (String.eqb (ac_StoreEntriesMode c) "dedup_only" || String.eqb (ac_StoreEntriesMode c) "relay").
(** cmd/rssam/main.go:329-334 [main, the settings of the cleanup] *)
Definition retention_settings (c : AppConfig) : Retention.RetentionCfg :=
  Retention.mkRetentionCfg (ac_RemovedRetentionDays c) (ac_WebhookLogRetentionDays c) (ac_FilterMatchRetentionDays c) (ac_FeedPollLogRetentionDays c)
    (ac_AuditLogRetentionDays c) (ac_DedupRetentionDays c).
(** cmd/rssam/main.go:416-420 [main, the quotas] *)
Definition quota_settings (c : AppConfig) : UserStore.Limits :=
  UserStore.mkLimits (ac_MaxFeedsPerEditor c) (ac_MaxWebhooksPerEditor c) (ac_EditorMinPollInterval c).

Lemma validate_nil c : Validate c = [] →
  ac_DatabaseURL c ≠ "" ∧
  Forall (λ '(key, v, lo, hi), lo <= v <= hi) (int_ranges c) ∧ Forall (λ '(key, v, lo, hi), lo <= v <= hi) (duration_ranges c) ∧
  (0 < ac_MinPollInterval c → 0 < ac_MaxPollInterval c → ac_MinPollInterval c <= ac_MaxPollInterval c) ∧
  (0 < ac_WebhookRetryBase c → 0 < ac_WebhookRetryMax c → ac_WebhookRetryBase c <= ac_WebhookRetryMax c) ∧
  rate_ok (ac_RateLimitRPS c) f_10000 ∧ rate_ok (ac_LoginRateLimitRPS c) f_1000 ∧
  to_lower (trim_space (ac_StoreEntriesMode c)) ∈ ["full"; "dedup_only"; "relay"].
Proof.
  assert (O : ∀ a b, (0 <? a) && (0 <? b) && (b <? a) = false → 0 < a → 0 < b → a <= b) by (intros; lia).
  unfold Validate. cbv zeta. rewrite !app_nil, !check_nil. intros (_ & _ & _ & _ & D & I & T & P & R & R1 & R2 & _ & _ & M).
  split; [by apply String.eqb_neq|]. split; [by apply ranges_nil|]. split; [by apply ranges_nil|]. split; [by apply O|]. split; [by apply O|].
  split; [by apply rate_checked|]. split; [by apply rate_checked|]. apply negb_false_iff in M. by apply bool_decide_eq_true_1 in M.
Qed.

(** The bounds the parts rely on. *)
Record sound_settings (c : AppConfig) : Prop := {
  ss_poll : 0 < wc_PoolSize (poll_settings c) ∧ 0 < wc_SchedulerTick (poll_settings c) ∧
    0 < wc_MinPollInterval (poll_settings c) <= wc_MaxPollInterval (poll_settings c);
  ss_loop : 0 < lp_WebhookPoolSize (loop_settings c);
  ss_hooks : 0 < hc_MaxAttempts (hook_settings c) ∧ 0 < hc_RetryBase (hook_settings c) <= hc_RetryMax (hook_settings c);
  ss_refresher : Refresher.SilentAfter (refresher_settings c) = ac_FeedSilentDays c * 24 * hour ∧ 0 <= ac_FeedSilentDays c ∧
    0 < Refresher.AdaptiveMaxInterval (refresher_settings c) ∧ 0 <= Refresher.SilentInterval (refresher_settings c);
  ss_filters : 0 < MaxRulesPerFilter (filter_settings c) ∧ 0 < MaxRegexLength (filter_settings c);
  ss_retention : 0 < RemovedRetentionDays (retention_settings c) <= 3650 ∧ 0 < WebhookLogRetentionDays (retention_settings c) <= 3650 ∧
    Forall (λ days, 0 <= days <= 3650) [FilterMatchRetentionDays (retention_settings c); FeedPollLogRetentionDays (retention_settings c);
      AuditLogRetentionDays (retention_settings c); DedupRetentionDays (retention_settings c)];
  ss_quotas : 0 <= MaxFeedsPerEditor (quota_settings c) ∧ 0 <= MaxWebhooksPerEditor (quota_settings c) ∧
    0 <= EditorMinPollInterval (quota_settings c) <= ac_MaxPollInterval c;
  ss_rates : rate_ok (ac_RateLimitRPS c) f_10000 ∧ rate_ok (ac_LoginRateLimitRPS c) f_1000;
  ss_database : ac_DatabaseURL c ≠ "" ∧ 1 <= EffectiveDatabaseMaxConns c <= 500;
  ss_mode : to_lower (trim_space (ac_StoreEntriesMode c)) ∈ ["full"; "dedup_only"; "relay"];
}.

Tactic Notation "row" hyp(H) constr(n) "as" ident(R) :=
  pose proof (Forall_lookup_1 _ _ n _ H eq_refl) as R; cbv beta iota in R.

Lemma validated_sound c : Validate c = [] → sound_settings c.
Proof.
  intros (D & I & T & P & R & R1 & R2 & M)%validate_nil.
  assert (0 < millisecond) by (unfold millisecond; lia).
  split; try done.
  - row I 21%nat as A. row T 11%nat as B. row T 12%nat as C. row T 13%nat as E. cbn. lia.
  - row I 23%nat as A. cbn. lia.
  - row I 28%nat as A. row T 18%nat as B. row T 19%nat as C. cbn. lia.
  - row I 17%nat as A. row T 14%nat as B. row T 15%nat as C. cbn. rewrite wrap64_id by (unfold in64, hour, minute, second; lia). lia.
  - row I 24%nat as A. row I 25%nat as B. cbn. lia.
  - row I 14%nat as A. row I 15%nat as B. row I 16%nat as C. row I 18%nat as E. row I 19%nat as F. row I 20%nat as G. cbn.
    split; [lia|]. split; [lia|]. by repeat (constructor; [lia|]).
  - row I 26%nat as A. row I 27%nat as B. row T 16%nat as C. cbn. lia.
  - split; [done|]. row I 0%nat as A. row I 21%nat as B. row I 23%nat as C. unfold EffectiveDatabaseMaxConns.
    destruct (Z.ltb_spec 0 (ac_DatabaseMaxConns c)); lia.
Qed.

(** C27: a configuration is accepted only when every number, duration, rate and address of the environment
    parses, so that no typing error falls back to a default; and then it meets what the parts rely on: the
    pools and the tick are positive, the poll intervals are positive and ordered, the retries too, the ages
    of the cleanup are at most ten years, the pool of the database has between 1 and 500 connections, and
    the texts and durations of the bridges are in the form the settings pages need. *)
Theorem accepted_configuration (ParseDuration : string → option Z) (ParseFloat : string → option spec_float)
  (L : ∀ s d, ParseDuration s = Some d → in64 d) (env : Environment) (cfg : AppConfig)
  (H : LoadConfig ParseDuration ParseFloat env = inr cfg) :
  environment_read ParseDuration ParseFloat env ∧ trim_space (Getenv env "AUTH_TOKEN") = "" ∧
  sound_settings cfg ∧ config_trimmed (ac_bridges cfg).
Proof.
  unfold LoadConfig in H.
  pose proof (read_config_errs ParseDuration ParseFloat env) as A. pose proof (read_config_trimmed ParseDuration ParseFloat env L) as B.
  destruct (read_config ParseDuration ParseFloat env) as [c [es ws]]. unfold errs in A. cbn [fst snd] in A, B.
  destruct (es ++ _) as [|e l] eqn:E; [|done]. apply app_nil in E as [-> E]. rewrite check_nil in E.
  destruct (Validate c) as [|e l] eqn:V; [|done]. injection H as <-.
  split; [by apply A|]. split; [by apply negb_false_iff, String.eqb_eq in E|]. split; [|exact B].
  apply validated_sound in V. by destruct V.
Qed.

Definition wit_environment : Environment := λ key,
  if String.eqb key "DATABASE_URL" then Some "postgres://db/rssam" else
  if String.eqb key "WORKER_POOL_SIZE" then Some " 25 " else
  if String.eqb key "MAX_OVERLAP_MS" then Some "1000000" else None.
Definition wit_settings : AppConfig := Eval vm_compute in
  match LoadConfig Bridges.wit_parse (λ _, None) wit_environment with inr c => c | inl _ => with_warnings (read_config Bridges.wit_parse (λ _, None) wit_environment).1 [] end.

Lemma accepted_configuration_witness :
  ac_WebhookWorkerPoolSize wit_settings = 25 ∧ ac_Warnings wit_settings = [("MAX_OVERLAP_MS", "MAX_OVERLAP")] ∧
  EffectiveDatabaseMaxConns wit_settings = 58 ∧ sound_settings wit_settings.
Proof.
  destruct (accepted_configuration Bridges.wit_parse (λ _, None) (λ s d, parse_int64_in64 s d) wit_environment wit_settings) as (_ & _ & S & _);
    [by vm_compute|]. split; [by vm_compute|]. split; [by vm_compute|]. split; [by vm_compute|exact S].
Defined.

(** Every fault of the environment is named at once. *)
Example all_faults_reported :
  LoadConfig Bridges.wit_parse (λ _, None) (λ key,
    if String.eqb key "FETCH_TIMEOUT_SECONDS" then Some "15s" else if String.eqb key "RATE_LIMIT_RPS" then Some "many"
    else if String.eqb key "INBOUND_WEBHOOK_ALLOW_CIDRS" then Some "10.0.0.0/8, nowhere" else if String.eqb key "AUTH_TOKEN" then Some "x" else None)
  = inl [NotInteger "FETCH_TIMEOUT_SECONDS" "15s"; NotNumber "RATE_LIMIT_RPS" "many"; NotPrefix "INBOUND_WEBHOOK_ALLOW_CIDRS" "nowhere"; AuthTokenGone].
Proof. by vm_compute. Qed.
(** A rate that is not a number passes the check of its range. *)
Example nan_rate_accepted : rate_ok S754_nan f_10000 ∧ SFleb S754_nan f_zero || SFltb f_10000 S754_nan = false.
Proof. split; [by left|done]. Qed.
