(* ===== verification/GoDuration.v ===== *)
(** The durations of Go's [time] package the settings pages use: [time.ParseDuration], with its fractions computed in doubles as
    the source of the package does, and [Duration.Round].  Numbers of [uint64] wrap where the package's do. *)

From Stdlib Require Import Ascii SpecFloat.
From S2P Require Import Prelude GoStrings.

(** * Doubles *)

(** [float64(n)] of an unsigned number. *)
Definition f64_of (n : Z) : spec_float := binary_normalize 53 1024 n 0 false.
(** [uint64(x)] of a double that is not negative. *)
Definition f64_trunc (x : spec_float) : Z :=
  match x with S754_finite false m e => Z.shiftl (Zpos m) e | _ => 0 end.

(** * Reading *)

Definition uint_max : Z := 2 ^ 63.

(** [time.leadingInt] [None] is an overflow. *)
Fixpoint leadingInt (x : Z) (s : string) : option (Z * string) :=
  match s with
  | String c s' =>
      if is_digit c then
        if uint_max / 10 <? x then None
        else let x := x * 10 + digit_val c in if uint_max <? x then None else leadingInt x s'
      else Some (x, s)
  | "" => Some (x, s)
  end.

(** [time.leadingFraction] The digits, the power of ten they stand over, and the rest; digits that no longer fit are passed over. *)
Fixpoint leadingFraction (x : Z) (scale : spec_float) (overflow : bool) (s : string) : Z * spec_float * string :=
  match s with
  | String c s' =>
      if is_digit c then
        if overflow || ((2 ^ 63 - 1) / 10 <? x) then leadingFraction x scale true s'
        else
          let y := x * 10 + digit_val c in
          if uint_max <? y then leadingFraction x scale true s'
          else leadingFraction y (SFmul 53 1024 scale (f64_of 10)) false s'
      else (x, scale, s)
  | "" => (x, scale, s)
  end.

(** The unit up to the next point or digit. *)
Fixpoint span_unit (s : string) : string * string :=
  match s with
  | String c s' => if is_byte 46 c || is_digit c then ("", s) else let '(u, r) := span_unit s' in (String c u, r)
  | "" => ("", "")
  end.

(** The two signs for micro. *)
Definition micro_sign : string := String (ascii_of_nat 194) (String (ascii_of_nat 181) "s").
Definition greek_mu : string := String (ascii_of_nat 206) (String (ascii_of_nat 188) "s").

(** [time.unitMap] *)
Definition unitMap (u : string) : option Z :=
  if String.eqb u "ns" then Some nanosecond
  else if String.eqb u "us" || String.eqb u micro_sign || String.eqb u greek_mu then Some 1000
  else if String.eqb u "ms" then Some millisecond
  else if String.eqb u "s" then Some second
  else if String.eqb u "m" then Some minute
  else if String.eqb u "h" then Some hour
  else None.

(** One number with its unit: what it adds, and the rest. *)
Definition duration_term (s : string) : option (Z * string) :=
  '(v, s1) ← leadingInt 0 s;
  let pre := negb (String.length s1 =? String.length s)%nat in
  let '(f, scale, s2, post) :=
    match s1 with
    | String c s' =>
        if is_byte 46 c then let '(f, scale, r) := leadingFraction 0 (f64_of 1) false s' in (f, scale, r, negb (String.length r =? String.length s')%nat)
        else (0, f64_of 1, s1, false)
    | "" => (0, f64_of 1, s1, false)
    end in
  if negb pre && negb post then None
  else
    let '(u, s3) := span_unit s2 in
    if String.eqb u "" then None
    else
      unit ← unitMap u;
      if uint_max / unit <? v then None
      else
        let v := v * unit in
        let v := if 0 <? f then v + f64_trunc (SFmul 53 1024 (f64_of f) (SFdiv 53 1024 (f64_of unit) scale)) else v in
        if uint_max <? v then None else Some (v, s3).

(** The terms one after the other; each consumes at least a byte, so the length of the text is fuel enough. *)
Fixpoint duration_terms (fuel : nat) (d : Z) (s : string) : option Z :=
  match s, fuel with
  | "", _ => Some d
  | _, O => None
  | _, S fuel =>
      '(v, s') ← duration_term s;
      let d := (d + v) mod 2 ^ 64 in
      if uint_max <? d then None else duration_terms fuel d s'
  end.

(** [time.ParseDuration] [None] is any of its errors. *)
Definition ParseDuration (s : string) : option Z :=
  let '(neg, s) :=
    match s with
    | String c s' => if is_byte 45 c || is_byte 43 c then (is_byte 45 c, s') else (false, s)
    | "" => (false, s)
    end in
  if String.eqb s "0" then Some 0
  else if String.eqb s "" then None
  else
    d ← duration_terms (String.length s) 0 s;
    if neg : bool then Some (- d) else if 2 ^ 63 - 1 <? d then None else Some d.

(** [Duration.Round] of a duration that is not negative, to a positive one. *)
Definition duration_round (d m : Z) : Z :=
  let r := d mod m in
  if (r + r) mod 2 ^ 64 <? m then d - r
  else let d1 := wrap64 (d + m - r) in if d <? d1 then d1 else max_int64.

Example parses_hours : ParseDuration "12h30m" = Some (12 * hour + 30 * minute). Proof. by vm_compute. Qed.
Example parses_fraction : ParseDuration "-1.5h" = Some (- (90 * minute)). Proof. by vm_compute. Qed.
Example parses_tenth : ParseDuration ".3s" = Some (300 * millisecond). Proof. by vm_compute. Qed.
Example parses_micro : ParseDuration (("2" +:+ micro_sign) +:+ "1ns") = Some 2001. Proof. by vm_compute. Qed.
Example refuses_bare : ParseDuration "90" = None. Proof. by vm_compute. Qed.
Example refuses_overflow : ParseDuration "2562048h" = None. Proof. by vm_compute. Qed.
Example least_duration : ParseDuration "-9223372036854775808ns" = Some (- 2 ^ 63). Proof. by vm_compute. Qed.

(** * Bounds *)

Lemma leadingInt_bounds x s v r : 0 <= x <= uint_max → leadingInt x s = Some (v, r) → 0 <= v <= uint_max.
Proof.
  revert x. induction s as [|c s IH]; intros x B; cbn [leadingInt]; [intros [= <- <-]; done|].
  destruct (is_digit c) eqn:D; [|intros [= <- <-]; done]. case_match_goal; [done|]. cbv zeta. case_match_goal; [done|]. apply IH.
  unfold is_digit, digit_val in *. bool_to_prop. lia.
Qed.

Lemma duration_terms_bounds fuel d s v : 0 <= d <= uint_max → duration_terms fuel d s = Some v → 0 <= v <= uint_max.
Proof.
  revert d s. induction fuel as [|fuel IH]; intros d s B; [destruct s; cbn; [by intros [= <-]|done]|].
  destruct s as [|c s]; [cbn; by intros [= <-]|]. cbn [duration_terms]. destruct (duration_term _) as [[x s']|]; [|done].
  cbn. case_match_goal; [done|]. apply IH. pose proof (Z.mod_pos_bound (d + x) (2 ^ 64)). bool_to_prop. lia.
Qed.

(** What parses fits the type. *)
Lemma ParseDuration_in64 s d : ParseDuration s = Some d → in64 d.
Proof.
  unfold ParseDuration, in64.
  destruct (match s with "" => _ | String _ _ => _ end) as [neg t].
  case_match_goal; [intros [= <-]; lia|]. case_match_goal; [done|].
  destruct (duration_terms _ 0 t) as [v|] eqn:T; [|done]. apply duration_terms_bounds in T; [|unfold uint_max; lia]. cbn.
  unfold uint_max in T. destruct neg; [intros [= <-]; lia|]. case_match_goal; [done|]. intros [= <-]. bool_to_prop. lia.
Qed.

(** * A number in front of its unit *)

Lemma digits_val_ge acc s v : 0 <= acc → digits_val acc s = Some v → acc <= v.
Proof.
  revert acc. induction s as [|c s IH]; intros acc A; cbn [digits_val]; [intros [= ->]; lia|].
  destruct (is_digit c) eqn:D; [|done]. intros E. unfold is_digit, digit_val in *. bool_to_prop. apply IH in E; lia.
Qed.

(** The digits of a number are read up to the first byte that is none. *)
Lemma leadingInt_app x s v rest : 0 <= x → (∀ c t, rest = String c t → is_digit c = false) → digits_val x s = Some v → v <= uint_max →
  leadingInt x (s +:+ rest) = Some (v, rest).
Proof.
  intros X R. revert x X. induction s as [|c s IH]; intros x X; cbn [digits_val].
  - intros [= ->] B. change ("" +:+ rest) with rest. destruct rest as [|c t]; [done|]. cbn [leadingInt]. by rewrite (R c t eq_refl).
  - intros D B. change (String c s +:+ rest) with (String c (s +:+ rest)). cbn [leadingInt]. destruct (is_digit c) eqn:Dc; [|done].
    assert (G : 0 <= digit_val c) by (unfold is_digit, digit_val in *; bool_to_prop; lia).
    pose proof (digits_val_ge (x * 10 + digit_val c) s v ltac:(lia) D) as L. unfold uint_max in *.
    rewrite (proj2 (Z.ltb_ge _ _)) by (change (2 ^ 63) with 9223372036854775808 in *; change (9223372036854775808 / 10) with 922337203685477580; lia).
    cbv zeta. rewrite (proj2 (Z.ltb_ge _ _)) by lia. apply IH; [lia|done|done].
Qed.

Lemma str_length_app s t : String.length (s +:+ t) = (String.length s + String.length t)%nat.
Proof. induction s as [|c s IH]; [done|]. change (S (String.length (s +:+ t)) = S (String.length s) + String.length t)%nat. lia. Qed.

(** A number between 0 and 2^63 without a fraction, in front of a unit of letters. *)
Lemma duration_term_int n u unit rest : 0 <= n → n * unit <= uint_max → 0 < unit → unitMap u = Some unit →
  (∀ c t, u = String c t → is_byte 46 c || is_digit c = false) → u ≠ "" → span_unit (u +:+ rest) = (u, rest) →
  duration_term (format_int n +:+ u +:+ rest) = Some (n * unit, rest).
Proof.
  intros N B U M F E S. unfold duration_term, format_int. rewrite (proj2 (Z.ltb_ge n 0)) by lia.
  assert (K : n <= uint_max) by nia.
  assert (D : digits_val 0 (fmt_digits 20 10 n "") = Some n).
  { rewrite digits_val_fmt; [done|]. change (10 ^ Z.of_nat 20) with (10 ^ 20). unfold uint_max in K. lia. }
  destruct (fmt_digits_first 20 n "" ltac:(lia) N) as (c & t & Hf & Hc). rewrite Hf in *.
  destruct u as [|cu u']; [done|]. specialize (F cu u' eq_refl). apply orb_false_iff in F as [F1 F2].
  rewrite (leadingInt_app 0 _ n (String cu u' +:+ rest)); [|lia| |done|done].
  2:{ change (String cu u' +:+ rest) with (String cu (u' +:+ rest)). intros ? ? [= <- <-]. done. }
  cbn [mbind option_bind]. change (String cu u' +:+ rest) with (String cu (u' +:+ rest)) in *. cbv iota beta. rewrite F1. cbv iota beta zeta.
  assert (P : negb (String.length (String cu (u' +:+ rest)) =? String.length (String c t +:+ String cu (u' +:+ rest)))%nat = true).
  { apply negb_true_iff, Nat.eqb_neq. change (String c t +:+ ?x) with (String c (t +:+ x)). cbn [String.length].
    rewrite !str_length_app. cbn [String.length]. rewrite ?str_length_app. lia. }
  rewrite P. cbv iota beta. cbn [negb andb]. rewrite S. cbv iota beta.
  change (String.eqb (String cu u') "") with false. cbv iota. rewrite M. cbn [mbind option_bind]. cbv zeta.
  rewrite (proj2 (Z.ltb_ge (uint_max / unit) n)) by (apply Z.div_le_lower_bound; lia).
  change (0 <? 0) with false. cbv iota. by rewrite (proj2 (Z.ltb_ge _ _)).
Qed.

Lemma duration_terms_step fuel d s v rest : duration_term s = Some (v, rest) → s ≠ "" → 0 <= d + v <= uint_max →
  duration_terms (S fuel) d s = duration_terms fuel (d + v) rest.
Proof.
  intros T N B. destruct s as [|c s]; [done|]. cbn [duration_terms]. rewrite T. cbn [mbind option_bind]. cbv zeta.
  unfold uint_max in B. rewrite Z.mod_small by lia. by rewrite (proj2 (Z.ltb_ge _ _)) by (unfold uint_max; lia).
Qed.

Lemma duration_terms_end fuel d : duration_terms fuel d "" = Some d.
Proof. by destruct fuel. Qed.

(** A text that starts with a digit and goes on has no sign and is not the bare zero. *)
Lemma ParseDuration_digits c s : is_digit c = true → s ≠ "" →
  ParseDuration (String c s) = (d ← duration_terms (S (String.length s)) 0 (String c s); if 2 ^ 63 - 1 <? d then None else Some d).
Proof.
  intros D N. unfold ParseDuration.
  assert (is_byte 45 c = false ∧ is_byte 43 c = false) as [-> ->] by (unfold is_digit, is_byte in *; bool_to_prop; lia).
  cbv iota beta. cbn [orb]. cbv iota beta.
  assert (Z0 : String.eqb (String c s) "0" = false) by (apply String.eqb_neq; intros [= _ ->]; done).
  rewrite Z0. done.
Qed.

(** [%dh], [%dm] and [%dh%dm] read back. *)
Lemma parse_one n u unit : 0 <= n → n * unit < uint_max → 0 < unit → u = "h" ∧ unit = hour ∨ u = "m" ∧ unit = minute →
  ParseDuration (format_int n +:+ u) = Some (n * unit).
Proof.
  intros N B U Hu.
  assert (T : duration_term (format_int n +:+ u +:+ "") = Some (n * unit, "")).
  { apply duration_term_int; [done|lia|done|..]; destruct Hu as [[-> ->]|[-> ->]]; try done; by intros ? ? [= <- <-]. }
  replace (u +:+ "") with u in T by by destruct Hu as [[-> _]|[-> _]].
  unfold format_int in *. rewrite (proj2 (Z.ltb_ge n 0)) in * by lia.
  destruct (fmt_digits_first 20 n "" ltac:(lia) N) as (c & t & Hf & Hc). rewrite Hf in *. change (String c t +:+ u) with (String c (t +:+ u)) in *.
  rewrite ParseDuration_digits; [|done|destruct t; [by destruct Hu as [[-> _]|[-> _]]|done]].
  rewrite (duration_terms_step _ 0 _ _ _ T), duration_terms_end; [|done|nia]. cbn [mbind option_bind].
  unfold uint_max in B. by rewrite (proj2 (Z.ltb_ge _ _)) by lia.
Qed.

Lemma str_app_assoc a b c : (a +:+ b) +:+ c = a +:+ b +:+ c.
Proof. induction a as [|x a IH]; [done|]. change (String x ((a +:+ b) +:+ c) = String x (a +:+ b +:+ c)). by rewrite IH. Qed.

Lemma parse_two h m : 0 <= h → 0 <= m → h * hour + m * minute < uint_max →
  ParseDuration (format_int h +:+ "h" +:+ format_int m +:+ "m") = Some (h * hour + m * minute).
Proof.
  intros H M B. assert (0 < hour ∧ 0 < minute) as [Ho Mi] by (unfold hour, minute, second; lia).
  assert (T2 : duration_term (format_int m +:+ "m" +:+ "") = Some (m * minute, "")).
  { apply duration_term_int; [done|nia|done|done|by intros ? ? [= <- <-]|done|done]. }
  change ("m" +:+ "") with "m" in T2.
  assert (Dm : ∃ c t, format_int m = String c t ∧ is_digit c = true).
  { unfold format_int. rewrite (proj2 (Z.ltb_ge m 0)) by lia. apply fmt_digits_first; lia. }
  destruct Dm as (cm & tm & Em & Dm). rewrite Em in *.
  assert (T1 : duration_term (format_int h +:+ "h" +:+ String cm tm +:+ "m") = Some (h * hour, String cm tm +:+ "m")).
  { apply duration_term_int; [done|nia|done|done|by intros ? ? [= <- <-]|done|].
    change ("h" +:+ String cm tm +:+ "m") with (String "h" (String cm (tm +:+ "m"))). cbn [span_unit].
    rewrite Dm, orb_true_r. done. }
  unfold format_int in *. rewrite (proj2 (Z.ltb_ge h 0)) in * by lia.
  destruct (fmt_digits_first 20 h "" ltac:(lia) H) as (c & t & Hf & Hc). rewrite Hf in *.
  change (String c t +:+ ?x) with (String c (t +:+ x)) in *. rewrite ParseDuration_digits; [|done|by destruct t].
  rewrite (duration_terms_step _ 0 _ _ _ T1); [|done|nia].
  destruct (String.length _) eqn:L; [by destruct t|].
  rewrite (duration_terms_step _ _ _ _ _ T2), duration_terms_end; [|done|nia]. cbn [mbind option_bind]. rewrite Z.add_0_l.
  unfold uint_max in B. by rewrite (proj2 (Z.ltb_ge _ _)) by lia.
Qed.
