(* ===== verification/EnvFile.v ===== *)
(** The file of settings the pages write ([internal/envfile]): a key is set on its line and everything else is kept; the
    file is replaced whole.  The classes of letters and digits outside ASCII are parameters; a disk may fail at each step. *)

From Stdlib Require Import Ascii.
From S2P Require Import Prelude GoStrings.

Definition newline : ascii := "010".
Definition nl : string := String newline "".

(** * The text *)

(** The rune at the head of the bytes; a malformed byte is U+FFFD. *)
Definition rune_value (l : list Z) : Z :=
  match rune_width l, l with
  | 2%nat, a :: b :: _ => (a - 192) * 64 + (b - 128)
  | 3%nat, a :: b :: c :: _ => ((a - 224) * 64 + (b - 128)) * 64 + (c - 128)
  | 4%nat, a :: b :: c :: d :: _ => (((a - 240) * 64 + (b - 128)) * 64 + (c - 128)) * 64 + (d - 128)
  | _, a :: _ => if a <? 128 then a else 65533
  | _, [] => 65533
  end.

Section Keys.
Context (unicode_letter unicode_digit : Z → bool).

(** [unicode.IsLetter], [unicode.IsDigit] *)
Definition IsLetter (r : Z) : bool :=
  if r <? 128 then ((65 <=? r) && (r <=? 90)) || ((97 <=? r) && (r <=? 122)) else unicode_letter r.
Definition IsDigit (r : Z) : bool := if r <? 128 then (48 <=? r) && (r <=? 57) else unicode_digit r.

Fixpoint key_runes (first : bool) (skip : nat) (l : list Z) : bool :=
  match l with
  | [] => true
  | _ :: l' =>
      match skip with
      | S k => key_runes first k l'
      | O =>
          let r := rune_value l in
          if first && negb (IsLetter r) && negb (r =? 95) then false
          else if negb (IsLetter r) && negb (IsDigit r) && negb (r =? 95) then false
          else key_runes false (rune_width l - 1) l'
      end
  end.

(** envfile/envfile.go [validKey] *)
Definition validKey (k : string) : bool :=
  negb (String.eqb k "") && key_runes true 0 (byte_of <$> String.list_ascii_of_string k).

End Keys.

(** Whether a line gives the key its value. *)
Definition line_names (key line : string) : bool :=
  let trim := trim_space line in
  negb (has_prefix trim "#") && (has_prefix trim (key +:+ "=") || String.eqb trim key).

(** The first line of the key is replaced; without one, a line is added. *)
Fixpoint set_line (key value : string) (lines : list string) : list string :=
  match lines with
  | [] => [(key +:+ "=") +:+ value]
  | line :: lines => if line_names key line then ((key +:+ "=") +:+ value) :: lines else line :: set_line key value lines
  end.

Definition lines_of (text : string) : list string := split_on newline (trim_suffix text nl).

(** envfile/envfile.go [upsert] *)
Definition upsert (text key value : string) : string := join nl (set_line key value (lines_of text)) +:+ nl.

(** * The file *)

Inductive env_error := EmptyPath | ReadFailed | InvalidKey (k : string) | WriteFailed | RenameFailed.

(** What the disk does: reading fails; writing fails, with what is left of the new file; renaming fails, and removing then. *)
Record Disk := mkDisk { dk_read_fails : bool; dk_write_fails : option (option string); dk_rename_fails : bool; dk_remove_fails : bool }.
Definition good_disk : Disk := mkDisk false None false false.

Notation Files := (gmap string string).

Section Saving.
Context (unicode_letter unicode_digit : Z → bool).

(** The keys in the order the map is walked. *)
Fixpoint upsert_all (text : string) (keys : list (string * string)) : env_error + string :=
  match keys with
  | [] => inr text
  | (k, v) :: keys => if validKey unicode_letter unicode_digit k then upsert_all (upsert text k v) keys else inl (InvalidKey k)
  end.

(** envfile/envfile.go [SetKeys] *)
Definition SetKeys (d : Disk) (fs : Files) (path : string) (keys : list (string * string)) : Files * option env_error :=
  if String.eqb path "" then (fs, Some EmptyPath)
  else if dk_read_fails d then (fs, Some ReadFailed)
  else
    let text := default "" (fs !! path) in
    let text := if negb (has_suffix text nl) && negb (String.eqb text "") then text +:+ nl else text in
    match upsert_all text keys with
    | inl e => (fs, Some e)
    | inr text =>
        let tmp := path +:+ ".tmp" in
        match dk_write_fails d with
        | Some rest => (match rest with Some part => <[tmp := part]> fs | None => fs end, Some WriteFailed)
        | None =>
            let fs := <[tmp := text]> fs in
            if dk_rename_fails d then (if dk_remove_fails d then fs else delete tmp fs, Some RenameFailed)
            else (<[path := text]> (delete tmp fs), None)
        end
    end.
End Saving.

Definition ascii_only : Z → bool := λ _, false.

Example sets_keys :
  SetKeys ascii_only ascii_only good_disk {["/e" := join nl ["# FOO=0"; " FOO=1"; "SECRET=keep"]]} "/e" [("WORKER_POOL_SIZE", "20"); ("FOO", "2")]
  = ({["/e" := join nl ["# FOO=0"; "FOO=2"; "SECRET=keep"; "WORKER_POOL_SIZE=20"] +:+ nl]}, None).
Proof. by vm_compute. Qed.
Example creates_file :
  SetKeys ascii_only ascii_only good_disk ∅ "/e" [("CSRF_SECRET", "abc")] = ({["/e" := nl +:+ "CSRF_SECRET=abc" +:+ nl]}, None).
Proof. by vm_compute. Qed.
Example key_with_space : validKey ascii_only ascii_only "A B" = false ∧ validKey ascii_only ascii_only "1A" = false ∧ validKey ascii_only ascii_only "_A1" = true.
Proof. by vm_compute. Qed.

(** * Lines *)

Lemma list_of_app s t : String.list_ascii_of_string (s +:+ t) = String.list_ascii_of_string s ++ String.list_ascii_of_string t.
Proof. induction s as [|c s IH]; [done|]. change (c :: String.list_ascii_of_string (s +:+ t) = c :: (String.list_ascii_of_string s ++ String.list_ascii_of_string t)). by rewrite IH. Qed.

Lemma str_rev_snoc s c : str_rev (s +:+ String c "") = String c (str_rev s).
Proof. unfold str_rev. rewrite list_of_app. cbn [String.list_ascii_of_string]. by rewrite rev_app_distr. Qed.
Lemma str_rev_involutive s : str_rev (str_rev s) = s.
Proof. unfold str_rev. rewrite String.list_ascii_of_string_of_list_ascii, rev_involutive. apply String.string_of_list_ascii_of_string. Qed.

Lemma prefix_one c x s : has_prefix (String x s) (String c "") = Ascii.eqb c x.
Proof. unfold has_prefix. cbn. destruct (ascii_dec c x) as [->|N]; [rewrite Ascii.eqb_refl; by destruct s|by apply Ascii.eqb_neq in N as ->]. Qed.

Lemma trim_suffix_snoc s c : trim_suffix (s +:+ String c "") (String c "") = s.
Proof.
  unfold trim_suffix. rewrite str_rev_snoc. change (str_rev (String c "")) with (String c ""). unfold trim_prefix.
  rewrite prefix_one, Ascii.eqb_refl. cbn [String.length str_drop]. apply str_rev_involutive.
Qed.
Lemma trim_suffix_none s p : has_suffix s p = false → trim_suffix s p = s.
Proof. unfold has_suffix, trim_suffix, trim_prefix. intros ->. apply str_rev_involutive. Qed.

(** A last line without its end is the same line. *)
Lemma lines_of_ended text : lines_of (if negb (has_suffix text nl) && negb (String.eqb text "") then text +:+ nl else text) = lines_of text.
Proof.
  destruct (has_suffix text nl) eqn:E; [done|]. destruct (String.eqb text ""); [done|]. cbn [negb andb]. unfold lines_of.
  unfold nl at 1 2. by rewrite trim_suffix_snoc, trim_suffix_none.
Qed.

Lemma has_byte_app c s t : has_byte c (s +:+ t) = has_byte c s || has_byte c t.
Proof. induction s as [|x s IH]; [done|]. change (Ascii.eqb x c || has_byte c (s +:+ t) = (Ascii.eqb x c || has_byte c s) || has_byte c t). by rewrite IH, orb_assoc. Qed.

(** Keys and values as the pages write them: without white space. *)
Definition plain (s : string) : Prop := forallb graphic (String.list_ascii_of_string s) = true.
(** A key: plain, not empty, no comment and without "=". *)
Definition plain_key (k : string) : Prop := plain k ∧ has_byte "=" k = false ∧ has_prefix k "#" = false ∧ k ≠ "".

Lemma plain_app s t : plain s → plain t → plain (s +:+ t).
Proof. unfold plain. rewrite list_of_app, forallb_app. by intros -> ->. Qed.
Lemma plain_no_newline s : plain s → has_byte newline s = false.
Proof.
  unfold plain. induction s as [|c s IH]; [done|]. cbn. intros [H1 H2]%andb_prop. rewrite IH by done. rewrite orb_false_r.
  apply Ascii.eqb_neq. intros ->. done.
Qed.

Lemma has_prefix_refl p t : has_prefix (p +:+ t) p = true.
Proof. unfold has_prefix. induction p as [|c p IH]; [by destruct t|]. change (String.prefix (String c p) (String c (p +:+ t)) = true). cbn. by destruct (ascii_dec c c). Qed.

Lemma has_prefix_spec s p : has_prefix s p = true → ∃ t, s = p +:+ t.
Proof.
  unfold has_prefix. revert p. induction s as [|c s IH]; intros [|d p]; cbn; try done; [by exists ""|by exists (String c s)|].
  destruct (ascii_dec d c) as [->|]; [|done]. intros (t & ->)%IH. by exists t.
Qed.

(** The key of a line is what stands before its "=". *)
Lemma key_unique k1 k2 t1 t2 : has_byte "=" k1 = false → has_byte "=" k2 = false → (k1 +:+ "=") +:+ t1 = (k2 +:+ "=") +:+ t2 → k1 = k2.
Proof.
  revert k2. induction k1 as [|c k1 IH]; intros [|d k2] H1 H2; [done| | |].
  - intros E. injection E as E _. rewrite <-E in H2. done.
  - intros E. injection E as E _. rewrite E in H1. done.
  - cbn in H1, H2. apply orb_false_iff in H1 as [_ H1], H2 as [_ H2]. intros E. injection E as -> E. f_equal. by eapply IH.
Qed.

Lemma has_byte_key k t : has_byte "=" ((k +:+ "=") +:+ t) = true.
Proof. by rewrite !has_byte_app, !orb_true_r. Qed.

Lemma plain_line k v : plain_key k → plain v → plain ((k +:+ "=") +:+ v).
Proof. intros [K _] V. by apply plain_app; [apply plain_app|]. Qed.

Lemma line_names_iff key line : has_byte "=" key = false →
  line_names key line = true ↔ has_prefix (trim_space line) "#" = false ∧ ((∃ t, trim_space line = (key +:+ "=") +:+ t) ∨ trim_space line = key).
Proof.
  intros _. unfold line_names. rewrite andb_true_iff, negb_true_iff, orb_true_iff, String.eqb_eq. split; intros [H P]; (split; [done|]).
  - destruct P as [P|P]; [left; by apply has_prefix_spec|by right].
  - destruct P as [(t & E)|P]; [left; rewrite E; apply has_prefix_refl|by right].
Qed.

(** A line gives its value to one key only. *)
Lemma line_names_unique k1 k2 line : plain_key k1 → plain_key k2 → line_names k1 line = true → line_names k2 line = true → k1 = k2.
Proof.
  intros (_ & E1 & _) (_ & E2 & _) [_ N1]%line_names_iff [_ N2]%line_names_iff; [|done..].
  destruct N1 as [(t1 & N1)|N1], N2 as [(t2 & N2)|N2]; rewrite N1 in N2.
  - by eapply key_unique.
  - rewrite <-N2, has_byte_key in E2. done.
  - rewrite N2, has_byte_key in E1. done.
  - done.
Qed.

Lemma line_names_new k v : plain_key k → plain v → line_names k ((k +:+ "=") +:+ v) = true.
Proof.
  intros K V. apply line_names_iff; [apply K|]. rewrite graphic_trim_space by by apply plain_line. split; [|eauto].
  destruct K as (_ & _ & C & N). destruct k as [|c k]; [done|]. change ((String c k +:+ "=") +:+ v) with (String c ((k +:+ "=") +:+ v)).
  rewrite prefix_one in *. done.
Qed.

Definition named (key : string) (lines : list string) : list string := filter (λ l, line_names key l = true) lines.

Lemma set_line_named k v lines : plain_key k → plain v → named k (set_line k v lines) = ((k +:+ "=") +:+ v) :: tail (named k lines).
Proof.
  intros K V. unfold named. induction lines as [|l lines IH]; cbn [set_line].
  - rewrite filter_cons_True by by apply line_names_new. done.
  - destruct (line_names k l) eqn:E.
    + rewrite !filter_cons_True by (try done; by apply line_names_new). done.
    + rewrite !filter_cons_False by (by rewrite E). exact IH.
Qed.

(** The other lines stay, in their order. *)
Lemma set_line_others (P : string → Prop) `{!∀ l, Decision (P l)} k v lines : plain_key k → plain v → (∀ l, line_names k l = true → ¬ P l) →
  filter P (set_line k v lines) = filter P lines.
Proof.
  intros K V F. induction lines as [|l lines IH]; cbn [set_line].
  - rewrite filter_cons_False; [done|]. by apply F, line_names_new.
  - destruct (line_names k l) eqn:E.
    + rewrite !filter_cons_False; [done|by apply F|by apply F, line_names_new].
    + destruct (decide (P l)); [rewrite !filter_cons_True by done; by f_equal|by rewrite !filter_cons_False].
Qed.

Lemma set_line_ne k v lines : set_line k v lines ≠ [].
Proof. destruct lines as [|l lines]; [done|]. cbn. by destruct (line_names k l). Qed.

Lemma lines_of_upsert text k v : plain_key k → plain v → lines_of (upsert text k v) = set_line k v (lines_of text).
Proof.
  intros K V. unfold lines_of at 1, upsert. unfold nl at 2 3. rewrite trim_suffix_snoc. apply split_join; [apply set_line_ne|].
  apply Forall_forall. intros l. assert (A : ∀ l, l ∈ lines_of text → has_byte newline l = false) by (intros ?; apply split_on_has_byte).
  revert A. generalize (lines_of text) as ls. induction ls as [|m ls IH]; cbn [set_line]; intros A.
  - intros ->%list_elem_of_singleton. by apply plain_no_newline, plain_line.
  - destruct (line_names k m); intros [->|I]%elem_of_cons.
    + by apply plain_no_newline, plain_line.
    + apply A. by right.
    + apply A. by left.
    + apply IH; [|done]. intros ? ?. apply A. by right.
Qed.

(** ** Tidy lines *)

(** The bytes by which a reader of such files could join lines or take a part of one for a quotation. *)
Definition quoting (c : ascii) : bool :=
  Ascii.eqb c "'" || (byte_of c =? 34) || Ascii.eqb c "\" || (byte_of c =? 13).
Definition blank (c : ascii) : bool := (byte_of c =? 32) || (byte_of c =? 9).

Fixpoint drop_blanks (l : list ascii) : list ascii :=
  match l with c :: l' => if blank c then drop_blanks l' else l | [] => [] end.
Fixpoint line_name (l : list ascii) : list ascii :=
  match l with c :: l => if Ascii.eqb c "=" then [] else c :: line_name l | [] => [] end.

(** A comment without a backslash; or a line of printable ASCII without quotes and backslashes, with no blank in its name.
    Such a line stands for itself, whatever the lines around it. *)
Definition tidy_line (line : string) : bool :=
  let l := drop_blanks (String.list_ascii_of_string line) in
  if match l with c :: _ => Ascii.eqb c "#" || Ascii.eqb c ";" | [] => false end then
    forallb (λ c, negb (Ascii.eqb c "\" || (byte_of c =? 13))) l
  else forallb (λ c, (graphic c || blank c) && negb (quoting c)) l && forallb graphic (line_name l).
Definition tidy (lines : list string) : Prop := Forall (λ l, tidy_line l = true) lines.

(** The name of a variable: ASCII letters, digits and "_", no digit first. *)
Definition name_byte (c : ascii) : bool :=
  let b := byte_of c in ((65 <=? b) && (b <=? 90)) || ((97 <=? b) && (b <=? 122)) || ((48 <=? b) && (b <=? 57)) || (b =? 95).
Definition variable_name (k : string) : Prop :=
  match String.list_ascii_of_string k with
  | c :: l => negb ((48 <=? byte_of c) && (byte_of c <=? 57)) && forallb name_byte (c :: l) = true
  | [] => False
  end.
(** A value that means itself: without white space, quotes and backslashes. *)
Definition bare (v : string) : Prop := forallb (λ c, graphic c && negb (quoting c)) (String.list_ascii_of_string v) = true.

#[export] Instance variable_name_dec k : Decision (variable_name k).
Proof. unfold variable_name. destruct (String.list_ascii_of_string k); apply _. Defined.

Lemma name_byte_graphic c : name_byte c = true → graphic c = true ∧ quoting c = false ∧ Ascii.eqb c "=" = false ∧ Ascii.eqb c "#" = false ∧ Ascii.eqb c ";" = false.
Proof. by destruct c as [[] [] [] [] [] [] [] []]. Qed.
Lemma graphic_no_blank c : graphic c = true → blank c = false.
Proof. unfold graphic, blank. intros ?. bool_to_prop. lia. Qed.

Lemma bare_plain v : bare v → plain v.
Proof. unfold bare, plain. rewrite !forallb_forall. intros H c I. apply H in I. by apply andb_prop in I as [? _]. Qed.

Lemma variable_plain k : variable_name k → plain_key k.
Proof.
  unfold variable_name, plain_key, plain. destruct k as [|c k]; [done|]. cbn [String.list_ascii_of_string]. intros [_ K]%andb_prop.
  assert (A : ∀ s, forallb name_byte (String.list_ascii_of_string s) = true →
    forallb graphic (String.list_ascii_of_string s) = true ∧ has_byte "=" s = false).
  { induction s as [|d s IH]; [done|]. cbn. intros [(-> & _ & -> & _)%name_byte_graphic S]%andb_prop. apply (IH S). }
  destruct (A (String c k) K) as [G E]. split; [exact G|]. split; [done|]. split; [|done]. rewrite prefix_one.
  cbn [forallb] in K. apply andb_prop in K as [(_ & _ & _ & N & _)%name_byte_graphic _]. by rewrite Ascii.eqb_sym.
Qed.

Lemma line_name_app k rest : forallb name_byte k = true → line_name (k ++ "="%char :: rest) = k.
Proof.
  induction k as [|c k IH]; [done|]. cbn [forallb]. intros [H K]%andb_prop. cbn [app line_name].
  apply name_byte_graphic in H as (_ & _ & -> & _). by rewrite IH.
Qed.

(** A line that sets a variable to a bare value is tidy. *)
Lemma tidy_setting k v : variable_name k → bare v → tidy_line ((k +:+ "=") +:+ v) = true.
Proof.
  unfold variable_name, bare, tidy_line. rewrite !list_of_app. destruct (String.list_ascii_of_string k) as [|c l]; [done|].
  intros [_ K]%andb_prop V. assert (K' := K). cbn [forallb] in K'. apply andb_prop in K' as [C _].
  apply name_byte_graphic in C as (G & Q & _ & C1 & C2).
  change (String.list_ascii_of_string "=") with ["="%char]. rewrite <-app_assoc. cbn [app drop_blanks].
  rewrite (graphic_no_blank c G), C1, C2. cbn [orb]. change (c :: l ++ "="%char :: String.list_ascii_of_string v) with ((c :: l) ++ "="%char :: String.list_ascii_of_string v).
  rewrite line_name_app by done. rewrite forallb_forall in K, V. apply andb_true_intro. split; apply forallb_forall; intros x I.
  - apply in_app_or in I as [I|[<-|I]]; [|done|].
    + apply K in I. apply name_byte_graphic in I as (-> & -> & _). done.
    + apply V in I. apply andb_prop in I as [-> ->]. done.
  - apply K in I. by apply name_byte_graphic in I as [? _].
Qed.

(** Setting a key keeps the lines tidy. *)
Lemma tidy_set_line k v lines : variable_name k → bare v → tidy lines → tidy (set_line k v lines).
Proof.
  intros K V. unfold tidy. induction lines as [|l lines IH]; cbn [set_line]; intros F.
  - constructor; [by apply tidy_setting|constructor].
  - apply Forall_cons_1 in F as [L F]. destruct (line_names k l); constructor; auto using tidy_setting.
Qed.

(** * What setting keys does *)

(** Keys that may stand in a file: distinct, each with its value on one line. *)
Definition settable (keys : list (string * string)) : Prop := NoDup keys.*1 ∧ Forall (λ kv, plain_key kv.1 ∧ plain kv.2) keys.

(** Keys that stay what they are in a file, whoever reads it. *)
Definition settable_bare (keys : list (string * string)) : Prop := Forall (λ kv, variable_name kv.1 ∧ bare kv.2) keys.

Section Setting.
Context (unicode_letter unicode_digit : Z → bool).

Lemma upsert_all_tidy text keys text' : settable keys → settable_bare keys → tidy (lines_of text) →
  upsert_all unicode_letter unicode_digit text keys = inr text' → tidy (lines_of text').
Proof.
  revert text. induction keys as [|[k v] keys IH]; intros text [D F] B T H; cbn [upsert_all] in H; [by injection H as <-|].
  destruct (validKey _ _ k); [|done]. cbn in D. apply NoDup_cons in D as [_ D]. apply Forall_cons_1 in F as [[K V] F], B as [[K' V'] B]. cbn in *.
  apply (IH (upsert text k v)); [by split|done| |done]. rewrite lines_of_upsert by done. by apply tidy_set_line.
Qed.

Lemma upsert_all_lines text keys text' : settable keys → upsert_all unicode_letter unicode_digit text keys = inr text' →
  (∀ k v, (k, v) ∈ keys → named k (lines_of text') = ((k +:+ "=") +:+ v) :: tail (named k (lines_of text))) ∧
  (∀ k, plain_key k → k ∉ keys.*1 → named k (lines_of text') = named k (lines_of text)) ∧
  filter (λ l, Forall (λ kv, line_names kv.1 l = false) keys) (lines_of text') = filter (λ l, Forall (λ kv, line_names kv.1 l = false) keys) (lines_of text).
Proof.
  revert text. induction keys as [|[k v] keys IH]; intros text [D F] H; cbn [upsert_all] in H.
  { injection H as <-. split; [by intros ? ? ?%elem_of_nil|done]. }
  destruct (validKey _ _ k); [|done]. cbn in D. apply NoDup_cons in D as [N D]. apply Forall_cons_1 in F as [[K V] F]. cbn in K, V.
  destruct (IH (upsert text k v) (conj D F) H) as (I1 & I2 & I3). rewrite lines_of_upsert in I1, I2, I3 by done.
  assert (O : ∀ k', plain_key k' → k' ≠ k → named k' (set_line k v (lines_of text)) = named k' (lines_of text)).
  { intros k' K' Ne. apply set_line_others; [done..|]. intros l L L'. apply Ne. by eapply line_names_unique. }
  split; [|split].
  - intros k' v' [[= -> ->]|I]%elem_of_cons; [rewrite (I2 k K N); by apply set_line_named|]. rewrite (I1 _ _ I), O; [done| |].
    + rewrite Forall_forall in F. by apply (F _ I).
    + intros ->. apply N. by apply (list_elem_of_fmap_2 fst _ _ I).
  - intros k' K' [Ne Nk]%not_elem_of_cons. rewrite (I2 k' K' Nk). by apply O.
  - assert (C : ∀ ls : list string, filter (λ l, Forall (λ kv, line_names kv.1 l = false) ((k, v) :: keys)) ls =
        filter (λ l, line_names k l = false) (filter (λ l, Forall (λ kv, line_names kv.1 l = false) keys) ls)).
    { intros ls. rewrite list_filter_filter. apply list_filter_iff. intros l. by rewrite Forall_cons. }
    rewrite !C, I3, <-!C. apply set_line_others; [done..|]. intros l L [L' _]%Forall_cons_1. cbn in L'. congruence.
Qed.

(** The file is replaced whole or not at all, and no other file changes but the one it is written through. *)
Lemma set_keys_atomic d fs path keys : let '(fs', e) := SetKeys unicode_letter unicode_digit d fs path keys in
  (∀ p, p ≠ path → p ≠ path +:+ ".tmp" → fs' !! p = fs !! p) ∧
  match e with
  | Some _ => path ≠ path +:+ ".tmp" → fs' !! path = fs !! path
  | None => ∃ text, fs' !! path = Some text ∧ upsert_all unicode_letter unicode_digit
      (let text := default "" (fs !! path) in if negb (has_suffix text nl) && negb (String.eqb text "") then text +:+ nl else text) keys = inr text
  end.
Proof.
  unfold SetKeys. destruct (String.eqb path ""); [done|]. destruct (dk_read_fails d); [done|]. cbv zeta.
  destruct (upsert_all _ _ _ keys) as [e|text] eqn:U; [done|].
  destruct (dk_write_fails d) as [[part|]|]; [|done|].
  - split; [intros p _ P; by rewrite lookup_insert_ne|intros P; by rewrite lookup_insert_ne].
  - destruct (dk_rename_fails d).
    + destruct (dk_remove_fails d).
      * split; [intros p _ P; by rewrite lookup_insert_ne|intros P; by rewrite lookup_insert_ne].
      * split; [intros p _ P|intros P]; by rewrite lookup_delete_ne, lookup_insert_ne by done.
    + split; [intros p Np P; by rewrite lookup_insert_ne, lookup_delete_ne, lookup_insert_ne by done|].
      exists text. by rewrite lookup_insert_eq.
Qed.

End Setting.
