(* ===== verification/SavedSettings.v ===== *)
(** The settings an administrator edits ([http/ui/admin_retention.go], the sizes of the pools in [http/ui/admin.go]): the forms,
    what is written into the file of settings for them, and what the program reads there when it starts again. *)

From Stdlib Require Import Ascii SpecFloat.
From S2P Require Import Prelude GoStrings Types Retention Worker WebhookWorker HookDispatch Bridges GoDuration EnvFile Config.

(** * The forms *)

(** http/ui/admin_retention.go:14-19 [retentionDaysMax, cleanupIntervalMin, cleanupIntervalMax] *)
Definition retentionDaysMax : Z := 3650.
Definition cleanupIntervalMin : Z := minute.
Definition cleanupIntervalMax : Z := 7 * 24 * hour.

(** http/ui/admin_retention.go [retentionForm] *)
Record retentionForm := mkRetentionForm {
  rf_RemovedRetentionDays : Z; rf_WebhookLogRetentionDays : Z; rf_FilterMatchRetentionDays : Z; rf_FeedPollLogRetentionDays : Z;
  rf_AuditLogRetentionDays : Z; rf_DedupRetentionDays : Z; rf_CleanupInterval : Z;
}.

(** http/ui/admin_retention.go [parseRetentionDays] *)
Definition parseRetentionDays (raw : string) (minDays : Z) : string + Z :=
  match parse_int64 (trim_space raw) with
  | None => inl "must be an integer number of days"%string
  | Some n =>
      if (n <? minDays) || (retentionDaysMax <? n) then inl ("must be between " +:+ format_int minDays +:+ " and " +:+ format_int retentionDaysMax)
      else inr n
  end.

(** http/ui/admin_retention.go [parseCleanupInterval] *)
Definition parseCleanupInterval (raw : string) : string + Z :=
  let raw := trim_space raw in
  if String.eqb raw "" then inl "must be set"%string
  else
    match (match parse_int64 raw with Some n => Some (wrap64 (n * hour)) | None => ParseDuration raw end) with
    | None => inl "must be a duration like 24h or 90m"%string
    | Some d => if (d <? cleanupIntervalMin) || (cleanupIntervalMax <? d) then inl "must be between 1m0s and 168h0m0s"%string else inr d
    end.

(** A fault of a field, under the name of its setting. *)
Definition named_fault {A} (key : string) (x : string + A) : string + A :=
  match x with inl e => inl (key +:+ ": " +:+ e) | inr a => inr a end.

#[local] Instance fault_bind : MBind (sum string) := λ A B f x, match x with inl e => inl e | inr a => f a end.

(** http/ui/admin_retention.go [parseRetentionForm] *)
Definition parseRetentionForm (get : string → string) : string + retentionForm :=
  removed ← named_fault "REMOVED_RETENTION_DAYS" (parseRetentionDays (get "removed_retention_days") 1);
  hooklog ← named_fault "WEBHOOK_LOG_RETENTION_DAYS" (parseRetentionDays (get "webhook_log_retention_days") 1);
  matches ← named_fault "FILTER_MATCH_RETENTION_DAYS" (parseRetentionDays (get "filter_match_retention_days") 0);
  polllog ← named_fault "FEED_POLL_LOG_RETENTION_DAYS" (parseRetentionDays (get "feed_poll_log_retention_days") 0);
  audit ← named_fault "AUDIT_LOG_RETENTION_DAYS" (parseRetentionDays (get "audit_log_retention_days") 0);
  dedup ← named_fault "DEDUP_RETENTION_DAYS" (parseRetentionDays (get "dedup_retention_days") 0);
  every ← named_fault "CLEANUP_INTERVAL" (parseCleanupInterval (get "cleanup_interval"));
  inr (mkRetentionForm removed hooklog matches polllog audit dedup every).

(** http/ui/admin_retention.go [formatCleanupInterval] *)
Definition formatCleanupInterval (d : Z) : string :=
  if d <=? 0 then ""
  else
    let d := duration_round d minute in
    let h := Z.quot d hour in
    let m := Z.quot (Z.rem d hour) minute in
    if m =? 0 then format_int h +:+ "h"
    else if h =? 0 then format_int m +:+ "m"
    else format_int h +:+ "h" +:+ format_int m +:+ "m".

(** http/ui/admin_retention.go:127-135 [Handler.handleAdminRetentionSave, the keys] *)
Definition retention_keys (f : retentionForm) : list (string * string) :=
  [("REMOVED_RETENTION_DAYS", format_int (rf_RemovedRetentionDays f));
   ("WEBHOOK_LOG_RETENTION_DAYS", format_int (rf_WebhookLogRetentionDays f));
   ("FILTER_MATCH_RETENTION_DAYS", format_int (rf_FilterMatchRetentionDays f));
   ("FEED_POLL_LOG_RETENTION_DAYS", format_int (rf_FeedPollLogRetentionDays f));
   ("AUDIT_LOG_RETENTION_DAYS", format_int (rf_AuditLogRetentionDays f));
   ("DEDUP_RETENTION_DAYS", format_int (rf_DedupRetentionDays f));
   ("CLEANUP_INTERVAL", formatCleanupInterval (rf_CleanupInterval f))].

(** http/ui/admin.go:353-358 [Handler.handleAdminWorkersSave, the form] [None] is its only fault. *)
Definition parseWorkersForm (get : string → string) : option (Z * Z) :=
  poll ← parse_int64 (trim_space (get "worker_pool_size"));
  hook ← parse_int64 (trim_space (get "webhook_worker_pool_size"));
  if (poll <? 1) || (1000 <? poll) || (hook <? 1) || (1000 <? hook) then None else Some (poll, hook).

(** http/ui/admin.go:360-363 [Handler.handleAdminWorkersSave, the keys] *)
Definition worker_keys (poll hook : Z) : list (string * string) :=
  [("WORKER_POOL_SIZE", format_int poll); ("WEBHOOK_WORKER_POOL_SIZE", format_int hook)].

Example interval_wraps : parseCleanupInterval "5124096" = inr 1526290448384. Proof. by vm_compute. Qed.
Example interval_rounded : formatCleanupInterval (90 * second) = "2m"%string ∧ formatCleanupInterval (12 * hour + 30 * minute) = "12h30m"%string.
Proof. by vm_compute. Qed.

(** * What the forms accept *)

Lemma parseRetentionDays_bounds raw lo n : parseRetentionDays raw lo = inr n → lo <= n <= retentionDaysMax.
Proof. unfold parseRetentionDays. destruct (parse_int64 _) as [m|]; [|done]. case_match_goal; [done|]. intros [= <-]. bool_to_prop. lia. Qed.

Lemma parseCleanupInterval_bounds raw d : parseCleanupInterval raw = inr d → cleanupIntervalMin <= d <= cleanupIntervalMax.
Proof.
  unfold parseCleanupInterval. cbv zeta. destruct (String.eqb _ _); [done|].
  destruct (match parse_int64 _ with Some _ => _ | None => _ end) as [x|]; [|done]. case_match_goal; [done|]. intros [= <-]. bool_to_prop. lia.
Qed.

Record form_sound (f : retentionForm) : Prop := {
  fs_removed : 1 <= rf_RemovedRetentionDays f <= 3650; fs_hooklog : 1 <= rf_WebhookLogRetentionDays f <= 3650;
  fs_matches : 0 <= rf_FilterMatchRetentionDays f <= 3650; fs_polllog : 0 <= rf_FeedPollLogRetentionDays f <= 3650;
  fs_audit : 0 <= rf_AuditLogRetentionDays f <= 3650; fs_dedup : 0 <= rf_DedupRetentionDays f <= 3650;
  fs_every : cleanupIntervalMin <= rf_CleanupInterval f <= cleanupIntervalMax;
}.

Lemma named_fault_inr {A} key (x : string + A) a : named_fault key x = inr a → x = inr a.
Proof. by destruct x as [e|b]; [|intros [= ->]]. Qed.

Lemma parseRetentionForm_sound get f : parseRetentionForm get = inr f → form_sound f.
Proof.
  unfold parseRetentionForm. unfold mbind, fault_bind.
  repeat (case_match_goal; [done|]; match goal with E : named_fault _ _ = inr _ |- _ => apply named_fault_inr in E end).
  intros [= <-]. split; cbn; first [by eapply parseRetentionDays_bounds|by eapply parseCleanupInterval_bounds].
Qed.

(** ** The interval *)

(** Rounding goes to a whole minute, at most half of one away. *)
Lemma duration_round_spec d : 0 <= d <= cleanupIntervalMax → ∃ q, duration_round d minute = q * minute ∧ 0 <= q ∧ 2 * Z.abs (q * minute - d) <= minute.
Proof.
  intros B. unfold duration_round. cbv zeta. pose proof (Z.mod_pos_bound d minute ltac:(done)) as R. pose proof (Z.div_mod d minute ltac:(done)) as D.
  assert (M : minute = 60000000000) by done. assert (X : cleanupIntervalMax = 604800000000000) by done.
  rewrite Z.mod_small by lia. assert (0 <= d / minute) by (apply Z.div_pos; lia). case_match_goal; bool_to_prop.
  - exists (d / minute). lia.
  - rewrite wrap64_id by (unfold in64; lia). rewrite (proj2 (Z.ltb_lt _ _)) by lia. exists (d / minute + 1). lia.
Qed.

(** A whole number of minutes between the bounds. *)
Lemma rounded_bounds d : cleanupIntervalMin <= d <= cleanupIntervalMax → cleanupIntervalMin <= duration_round d minute <= cleanupIntervalMax.
Proof.
  intros B. unfold cleanupIntervalMin in *. assert (M : minute = 60000000000) by done. assert (X : cleanupIntervalMax = 10080 * minute) by done.
  destruct (duration_round_spec d ltac:(lia)) as (q & -> & Q & R). lia.
Qed.

(** What is written for an interval reads back as the interval, rounded to the minute. *)
Lemma parse_format_cleanup d : 0 < d <= cleanupIntervalMax → ParseDuration (formatCleanupInterval d) = Some (duration_round d minute).
Proof.
  intros B. unfold formatCleanupInterval. rewrite (proj2 (Z.leb_gt _ _)) by lia. cbv zeta.
  destruct (duration_round_spec d ltac:(lia)) as (q & -> & Q & R).
  assert (M : minute = 60000000000) by done. assert (H : hour = 60 * minute) by done. assert (X : cleanupIntervalMax = 10080 * minute) by done.
  assert (q * minute < uint_max) by (unfold uint_max; lia). assert (0 <= q * minute) by nia.
  rewrite (Z.quot_div_nonneg (q * minute) hour), Z.rem_mod_nonneg by lia.
  assert (Hq : q * minute / hour = q / 60) by (rewrite H; apply Z.div_mul_cancel_r; lia).
  assert (Hr : q * minute mod hour = q mod 60 * minute) by (rewrite H; apply Z.mul_mod_distr_r; lia).
  rewrite Hq, Hr, Z.quot_mul by lia. pose proof (Z.div_mod q 60 ltac:(lia)) as D. pose proof (Z.mod_pos_bound q 60 ltac:(lia)) as P.
  assert (0 <= q / 60) by (apply Z.div_pos; lia).
  assert (E : q * minute = q / 60 * hour + q mod 60 * minute) by lia. rewrite E in *.
  case_match_goal; bool_to_prop; [|case_match_goal; bool_to_prop].
  - rewrite (parse_one _ _ hour); [f_equal; lia|lia|lia|lia|by left].
  - rewrite (parse_one _ _ minute); [f_equal; lia|lia|lia|lia|by right].
  - apply parse_two; lia.
Qed.

Lemma plain_format_int n : plain (format_int n).
Proof. apply graphic_format_int. Qed.
Lemma plain_format_cleanup d : plain (formatCleanupInterval d).
Proof.
  unfold formatCleanupInterval. cbv zeta. repeat case_match_goal; repeat (apply plain_app; [first [apply plain_format_int|done]|]);
    first [apply plain_format_int|done].
Qed.

Lemma bare_app s t : bare s → bare t → bare (s +:+ t).
Proof. unfold bare. rewrite list_of_app, forallb_app. by intros -> ->. Qed.
Lemma digit_bare c : is_digit c = true → graphic c && negb (quoting c) = true.
Proof. by destruct c as [[] [] [] [] [] [] [] []]. Qed.
Lemma bare_digits fuel n acc : 0 <= n → bare acc → bare (fmt_digits fuel 10 n acc).
Proof.
  revert n acc. induction fuel as [|fuel IH]; intros n acc N A; [done|]. cbn [fmt_digits].
  pose proof (Z.mod_pos_bound n 10 ltac:(lia)) as M. rewrite (proj2 (Z.ltb_lt (n mod 10) 10)) by lia.
  destruct (digit_char_spec (n mod 10) M) as [D _].
  assert (B : bare (String (digit_char (n mod 10)) acc)) by (unfold bare; cbn [String.list_ascii_of_string forallb]; by rewrite digit_bare).
  destruct (n <? 10); [done|]. apply IH; [apply Z.div_pos; lia|done].
Qed.
Lemma bare_format_int n : bare (format_int n).
Proof. unfold format_int. case_match_goal; bool_to_prop; [apply (bare_app "-"); [done|]|]; apply bare_digits; lia || done. Qed.
Lemma bare_format_cleanup d : bare (formatCleanupInterval d).
Proof.
  unfold formatCleanupInterval. cbv zeta. repeat case_match_goal; repeat (apply bare_app; [first [apply bare_format_int|done]|]);
    first [apply bare_format_int|done].
Qed.

(** * The settings read back *)

(** The settings the two pages write. *)
Record SavedSettings := mkSaved {
  sd_Removed : Z; sd_HookLog : Z; sd_Matches : Z; sd_PollLog : Z; sd_Audit : Z; sd_Dedup : Z; sd_Every : Z; sd_Pool : Z; sd_HookPool : Z;
}.

(** A configuration with other values for them. *)
Definition with_saved (c : AppConfig) (s : SavedSettings) : AppConfig := {|
    ac_DatabaseURL := ac_DatabaseURL c; ac_DatabaseMaxConns := ac_DatabaseMaxConns c; ac_ListenAddr := ac_ListenAddr c;
    ac_LogLevel := ac_LogLevel c; ac_LogFormat := ac_LogFormat c; ac_RunMigrations := ac_RunMigrations c;
    ac_AllowDevToken := ac_AllowDevToken c; ac_MetricsToken := ac_MetricsToken c; ac_AdminUsername := ac_AdminUsername c;
    ac_AdminPassword := ac_AdminPassword c; ac_Warnings := ac_Warnings c; ac_FetchAllowedCIDRs := ac_FetchAllowedCIDRs c;
    ac_FetchBlockedHosts := ac_FetchBlockedHosts c; ac_FetchTimeoutSeconds := ac_FetchTimeoutSeconds c;
    ac_FetchViaProxyURL := ac_FetchViaProxyURL c; ac_ScraperMaxContentBytes := ac_ScraperMaxContentBytes c;
    ac_FeedCircuitBreakerThreshold := ac_FeedCircuitBreakerThreshold c; ac_FeedPollDailyResetEnabled := ac_FeedPollDailyResetEnabled c;
    ac_FeedPollDailyResetTZ := ac_FeedPollDailyResetTZ c; ac_MaxstatAccessToken := ac_MaxstatAccessToken c;
    ac_MaxstatAPIBaseURL := ac_MaxstatAPIBaseURL c; ac_MaxstatDefaultLimit := ac_MaxstatDefaultLimit c;
    ac_MaxstatDefaultLookback := ac_MaxstatDefaultLookback c; ac_MaxstatOverlap := ac_MaxstatOverlap c;
    ac_MaxstatRateLimitSeconds := ac_MaxstatRateLimitSeconds c; ac_DzenSearchURL := ac_DzenSearchURL c;
    ac_DzenUserAgent := ac_DzenUserAgent c; ac_DzenCookie := ac_DzenCookie c; ac_RemovedRetentionDays := sd_Removed s;
    ac_WebhookLogRetentionDays := sd_HookLog s; ac_FilterMatchRetentionDays := sd_Matches s; ac_FeedPollLogRetentionDays := sd_PollLog s;
    ac_DedupRetentionDays := sd_Dedup s; ac_FeedSilentDays := ac_FeedSilentDays c; ac_FeedSilentInterval := ac_FeedSilentInterval c;
    ac_BackupDir := ac_BackupDir c; ac_BackupMaxAge := ac_BackupMaxAge c; ac_AuditLogRetentionDays := sd_Audit s;
    ac_CleanupInterval := sd_Every s; ac_WorkerPoolSize := sd_Pool s; ac_WebhookWorkerPoolSize := sd_HookPool s;
    ac_SchedulerTick := ac_SchedulerTick c; ac_MinPollInterval := ac_MinPollInterval c; ac_MaxPollInterval := ac_MaxPollInterval c;
    ac_AdaptiveMaxInterval := ac_AdaptiveMaxInterval c; ac_PollHostConcurrency := ac_PollHostConcurrency c;
    ac_WorkerInstanceID := ac_WorkerInstanceID c; ac_MaxFilterRulesPerFilter := ac_MaxFilterRulesPerFilter c;
    ac_MaxRegexLength := ac_MaxRegexLength c; ac_MaxFeedsPerEditor := ac_MaxFeedsPerEditor c;
    ac_MaxWebhooksPerEditor := ac_MaxWebhooksPerEditor c; ac_EditorMinPollInterval := ac_EditorMinPollInterval c;
    ac_WebhookMaxAttempts := ac_WebhookMaxAttempts c; ac_WebhookTimeout := ac_WebhookTimeout c;
    ac_WebhookRetryBase := ac_WebhookRetryBase c; ac_WebhookRetryMax := ac_WebhookRetryMax c; ac_WSEnabled := ac_WSEnabled c;
    ac_WSClientBuffer := ac_WSClientBuffer c; ac_WSPingInterval := ac_WSPingInterval c; ac_UIEnabled := ac_UIEnabled c;
    ac_FTSLanguage := ac_FTSLanguage c; ac_StoreEntriesMode := ac_StoreEntriesMode c; ac_HSTSEnabled := ac_HSTSEnabled c;
    ac_SessionMaxAge := ac_SessionMaxAge c; ac_TrustedProxies := ac_TrustedProxies c; ac_RateLimitEnabled := ac_RateLimitEnabled c;
    ac_RateLimitRPS := ac_RateLimitRPS c; ac_RateLimitBurst := ac_RateLimitBurst c; ac_LoginRateLimitRPS := ac_LoginRateLimitRPS c;
    ac_LoginRateLimitBurst := ac_LoginRateLimitBurst c; ac_MaxRequestBodyBytes := ac_MaxRequestBodyBytes c;
    ac_MaxImportFeeds := ac_MaxImportFeeds c; ac_CompressEnabled := ac_CompressEnabled c; ac_InboundWebhooks := ac_InboundWebhooks c;
    ac_InboundAllowCIDRs := ac_InboundAllowCIDRs c; ac_PprofEnabled := ac_PprofEnabled c; ac_PprofListenAddr := ac_PprofListenAddr c;
    ac_ShutdownTimeout := ac_ShutdownTimeout c; ac_bridges := ac_bridges c
|}.

(** The values in bounds. *)
Record saved_sound (s : SavedSettings) : Prop := {
  so_retention : 1 <= sd_Removed s <= 3650 ∧ 1 <= sd_HookLog s <= 3650 ∧ 0 <= sd_Matches s <= 3650 ∧ 0 <= sd_PollLog s <= 3650 ∧
    0 <= sd_Audit s <= 3650 ∧ 0 <= sd_Dedup s <= 3650 ∧ millisecond <= sd_Every s <= 7 * day;
  so_pools : 1 <= sd_Pool s <= 1000 ∧ 1 <= sd_HookPool s <= 1000;
}.

Lemma ranges_nil_iff (l : list (string * Z * Z * Z)) : l ≫= check_range = [] ↔ Forall (λ '(key, v, lo, hi), lo <= v <= hi) l.
Proof.
  split; [apply ranges_nil|]. induction 1 as [|[[[key v] lo] hi] l H _ IH]; [done|]. cbn.
  rewrite (proj2 (Z.ltb_ge _ _)), (proj2 (Z.ltb_ge _ _)) by lia. exact IH.
Qed.

Lemma validate_saved c s : Validate c = [] → saved_sound s → Validate (with_saved c s) = [].
Proof.
  intros V [(R1 & R2 & R3 & R4 & R5 & R6 & R7) [P1 P2]]. unfold Validate in *. cbv zeta in *. rewrite !app_nil in *.
  destruct V as (V1 & V2 & V3 & V4 & V5 & I & D & V6 & V7 & V8 & V9 & V10 & V11 & V12).
  do 5 (split; [done|]). split; [|split; [|done]]; [clear D|clear I].
  - apply ranges_nil_iff. apply ranges_nil_iff in I. unfold int_ranges in *.
    repeat (apply Forall_cons in I as [? I]; apply Forall_cons; split; [done|]). done.
  - apply ranges_nil_iff. apply ranges_nil_iff in D. unfold duration_ranges in *.
    repeat (apply Forall_cons in D as [? D]; apply Forall_cons; split; [done|]). done.
Qed.

(** ** Reading after a change *)

(** Two readings that log the same, with values as [P] says. *)
Definition reads_as {A B} (P : A → B → Prop) (x : logged A) (y : logged B) : Prop := P x.1 y.1 ∧ x.2 = y.2.

Lemma reads_bind {A B C D} (P : A → B → Prop) (Q : C → D → Prop) x y (f : A → logged C) (g : B → logged D) :
  reads_as P x y → (∀ a b, P a b → reads_as Q (f a) (g b)) → reads_as Q (x ≫= f) (y ≫= g).
Proof.
  intros [X X2] F. destruct (F _ _ X) as [Y Y2]. split; [exact Y|].
  change ((x.2.1 ++ (f x.1).2.1, x.2.2 ++ (f x.1).2.2) = (y.2.1 ++ (g y.1).2.1, y.2.2 ++ (g y.1).2.2)). by rewrite X2, Y2.
Qed.

(** An environment in which some settings have got other values. *)
Record changed_env (names : list string) (env env' : Environment) : Prop := {
  ce_same : ∀ key, key ∉ names → env' key = env key;
}.

Section Changed.
Context (ParseFloat : string → option spec_float) (names : list string) (env env' : Environment) (Ch : changed_env names env env').

Lemma getenv_same key : bool_decide (key ∈ names) = false → Getenv env' key = Getenv env key.
Proof. intros N%bool_decide_eq_false. unfold Getenv. by rewrite (ce_same _ _ _ Ch). Qed.
Lemma env_same key : bool_decide (key ∈ names) = false → env' key = env key.
Proof. intros N%bool_decide_eq_false. by apply Ch. Qed.

Lemma reads_int_same key def : bool_decide (key ∈ names) = false → reads_as eq (env_int env' key def) (env_int env key def).
Proof. intros N. unfold env_int. by rewrite getenv_same. Qed.
Lemma reads_float_same key def : bool_decide (key ∈ names) = false → reads_as eq (env_float ParseFloat env' key def) (env_float ParseFloat env key def).
Proof. intros N. unfold env_float. by rewrite getenv_same. Qed.

Lemma get_alias_same key aliases : existsb (λ a, bool_decide (a ∈ names)) aliases = false → get_alias env' key aliases = get_alias env key aliases.
Proof.
  induction aliases as [|a aliases IH]; [done|]. cbn [existsb get_alias]. intros [N Na]%orb_false_iff. by rewrite getenv_same, IH.
Qed.
Lemma reads_get_same key aliases : existsb (λ a, bool_decide (a ∈ names)) (key :: aliases) = false →
  reads_as eq (env_get env' key aliases) (env_get env key aliases).
Proof. cbn [existsb]. intros [N Na]%orb_false_iff. unfold env_get. by rewrite getenv_same, get_alias_same. Qed.
Lemma reads_duration_same key def aliases : existsb (λ a, bool_decide (a ∈ names)) (key :: aliases) = false →
  reads_as eq (env_duration ParseDuration env' key def aliases) (env_duration ParseDuration env key def aliases).
Proof. intros N. unfold env_duration. eapply reads_bind; [by apply reads_get_same|]. by intros a b ->. Qed.
Lemma reads_mode_same : bool_decide ("STORE_ENTRIES_MODE" ∈ names) = false → bool_decide ("DEDUP_ONLY_STORAGE" ∈ names) = false →
  reads_as eq (storeEntriesMode env') (storeEntriesMode env).
Proof. intros N M. unfold storeEntriesMode. by rewrite !getenv_same. Qed.
Lemma reads_prefixes_same key : bool_decide (key ∈ names) = false → reads_as eq (env_prefixes env' key) (env_prefixes env key).
Proof. intros N. unfold env_prefixes. by rewrite getenv_same. Qed.

(** A changed setting, where the old one was read without a fault. *)
Lemma reads_int_saved key def' def def0 n : in64 n → env' key = Some (format_int n) → errs (env_int env key def0) = [] →
  reads_as (λ a _, a = n) (env_int env' key def') (env_int env key def).
Proof.
  intros N E H. unfold env_int. assert (W : (env_int env key def).2 = ([], [])).
  { unfold env_int, parsed in *. cbv zeta in *. destruct (String.eqb _ _); [done|]. destruct (parse_int64 _); [done|]. done. }
  unfold reads_as. unfold env_int in W. rewrite W. unfold Getenv. rewrite E. cbn [default from_option id].
  rewrite (graphic_trim_space (format_int n)) by apply plain_format_int. unfold parsed. cbv zeta.
  assert (F : String.eqb (format_int n) "" = false).
  { apply String.eqb_neq. intros X. pose proof (format_parse_int n N) as Y. by rewrite X in Y. }
  by rewrite F, format_parse_int.
Qed.

Lemma reads_duration_saved key def d v : ParseDuration v = Some d → trim_space v = v → v ≠ "" → env' key = Some v →
  errs (env_duration ParseDuration env key def []) = [] →
  reads_as (λ a _, a = d) (env_duration ParseDuration env' key def []) (env_duration ParseDuration env key def []).
Proof.
  intros D T N E H. assert (W : (env_duration ParseDuration env key def []).2 = ([], [])).
  { assert (G : env_get env key [] = mret (trim_space (Getenv env key))).
    { unfold env_get. cbv zeta. by destruct (String.eqb_spec (trim_space (Getenv env key)) "") as [->|]. }
    revert H. unfold env_duration. rewrite G. unfold errs, mbind, logged_bind, mret, logged_ret, parsed. cbn.
    destruct (String.eqb _ _); [done|]. by destruct (ParseDuration (trim_space (Getenv env key))). }
  unfold reads_as. rewrite W. unfold env_duration, env_get. cbv zeta. unfold Getenv. rewrite E. cbn [default from_option id]. rewrite T.
  apply String.eqb_neq in N. rewrite N. cbn. unfold parsed. by rewrite N, D.
Qed.

End Changed.

(** The names each page writes. *)
Definition retention_names : list string :=
  ["REMOVED_RETENTION_DAYS"; "WEBHOOK_LOG_RETENTION_DAYS"; "FILTER_MATCH_RETENTION_DAYS"; "FEED_POLL_LOG_RETENTION_DAYS";
   "AUDIT_LOG_RETENTION_DAYS"; "DEDUP_RETENTION_DAYS"; "CLEANUP_INTERVAL"].
Definition worker_names : list string := ["WORKER_POOL_SIZE"; "WEBHOOK_WORKER_POOL_SIZE"].

(** The values after each. *)
Definition saved_retention (f : retentionForm) (c : AppConfig) : SavedSettings :=
  mkSaved (rf_RemovedRetentionDays f) (rf_WebhookLogRetentionDays f) (rf_FilterMatchRetentionDays f) (rf_FeedPollLogRetentionDays f)
    (rf_AuditLogRetentionDays f) (rf_DedupRetentionDays f) (duration_round (rf_CleanupInterval f) minute) (ac_WorkerPoolSize c) (ac_WebhookWorkerPoolSize c).
Definition saved_workers (poll hook : Z) (c : AppConfig) : SavedSettings :=
  mkSaved (ac_RemovedRetentionDays c) (ac_WebhookLogRetentionDays c) (ac_FilterMatchRetentionDays c) (ac_FeedPollLogRetentionDays c)
    (ac_AuditLogRetentionDays c) (ac_DedupRetentionDays c) (ac_CleanupInterval c) poll hook.

Lemma in64_days n : 0 <= n <= 3650 → in64 n.
Proof. unfold in64. lia. Qed.

(** One reading after the other: the same, or the saved value. *)
Ltac reading Ch saved :=
  eapply reads_bind;
  [first [apply (reads_int_same _ _ _ Ch); reflexivity|apply (reads_duration_same _ _ _ Ch); reflexivity|apply (reads_get_same _ _ _ Ch); reflexivity
         |apply (reads_float_same _ _ _ _ Ch); reflexivity|apply (reads_mode_same _ _ _ Ch); reflexivity
         |apply (reads_prefixes_same _ _ _ Ch); reflexivity|saved]
  |let a := fresh "a" in let b := fresh "b" in intros a b ->; cbv beta].
Ltac saved_int V :=
  eapply reads_int_saved; cycle 1; [apply V; repeat first [apply list_elem_of_here|apply list_elem_of_further]|eassumption|apply in64_days; lia].
Ltac same_texts Ch :=
  match type of Ch with changed_env _ _ ?e =>
    unfold getEnv, parseTrustedProxies; rewrite (env_same _ _ _ Ch "TRUSTED_PROXIES" eq_refl);
    repeat match goal with |- context [Getenv e ?k] => rewrite (getenv_same _ _ _ Ch k eq_refl) end
  end.

Lemma read_workers ParseFloat env env' poll hook : changed_env worker_names env env' → 0 <= poll <= 3650 → 0 <= hook <= 3650 →
  (∀ k v, (k, v) ∈ worker_keys poll hook → env' k = Some v) → errs (read_config ParseDuration ParseFloat env) = [] →
  reads_as (λ c' c, c' = with_saved c (saved_workers poll hook c)) (read_config ParseDuration ParseFloat env') (read_config ParseDuration ParseFloat env).
Proof.
  intros Ch P K V H. unfold read_config in *. split_errs H.
  repeat reading Ch ltac:(idtac; saved_int V).
  split; [|reflexivity]. unfold with_saved, saved_workers. cbn -[parseBool parseBoolDefault parseCSV getEnv Getenv trim_space parseTrustedProxies].
  same_texts Ch. reflexivity.
Qed.

Lemma read_retention ParseFloat env env' f : changed_env retention_names env env' → form_sound f →
  (∀ k v, (k, v) ∈ retention_keys f → env' k = Some v) → errs (read_config ParseDuration ParseFloat env) = [] →
  reads_as (λ c' c, c' = with_saved c (saved_retention f c)) (read_config ParseDuration ParseFloat env') (read_config ParseDuration ParseFloat env).
Proof.
  intros Ch [F1 F2 F3 F4 F5 F6 F7] V H. unfold read_config in *. split_errs H.
  assert (I : ParseDuration (formatCleanupInterval (rf_CleanupInterval f)) = Some (duration_round (rf_CleanupInterval f) minute)).
  { apply parse_format_cleanup. unfold cleanupIntervalMin, minute, second in F7. lia. }
  repeat reading Ch ltac:(idtac; first [saved_int V
    |eapply reads_duration_saved; [exact I|apply graphic_trim_space, plain_format_cleanup|by intros X; rewrite X in I
                                  |apply V; repeat first [apply list_elem_of_here|apply list_elem_of_further]|eassumption]]).
  split; [|reflexivity]. unfold with_saved, saved_retention. cbn -[parseBool parseBoolDefault parseCSV getEnv Getenv trim_space parseTrustedProxies].
  same_texts Ch. reflexivity.
Qed.

(** An accepted configuration stays accepted when settings are saved, and changes in them only. *)
Lemma load_changed ParseFloat names env env' cfg (S : AppConfig → SavedSettings) : changed_env names env env' →
  bool_decide ("AUTH_TOKEN" ∈ names) = false → (∀ c ws, S (with_warnings c ws) = S c) → (∀ c, Validate c = [] → saved_sound (S c)) →
  (errs (read_config ParseDuration ParseFloat env) = [] →
     reads_as (λ c' c, c' = with_saved c (S c)) (read_config ParseDuration ParseFloat env') (read_config ParseDuration ParseFloat env)) →
  LoadConfig ParseDuration ParseFloat env = inr cfg → LoadConfig ParseDuration ParseFloat env' = inr (with_saved cfg (S cfg)).
Proof.
  intros Ch A W So R L. unfold LoadConfig in *. rewrite (getenv_same _ _ _ Ch "AUTH_TOKEN" A).
  destruct (read_config _ _ env) as [c [es ws]], (read_config _ _ env') as [c' [es' ws']].
  destruct (es ++ _) as [|e l] eqn:E; [|done]. destruct (Validate c) as [|e l] eqn:V; [|done]. injection L as <-.
  apply app_nil in E as [-> E]. destruct (R eq_refl) as [R1 R2]. cbn [fst snd] in R1, R2. injection R2 as -> ->. subst c'.
  rewrite E. cbn [app]. rewrite (validate_saved _ _ V (So _ V)), W. done.
Qed.

Lemma saved_retention_sound f c : form_sound f → Validate c = [] → saved_sound (saved_retention f c).
Proof.
  intros [F1 F2 F3 F4 F5 F6 F7] V. pose proof (rounded_bounds _ F7) as B. pose proof (validate_nil c V) as (_ & I & _).
  row I 21%nat as P. row I 23%nat as Q. unfold cleanupIntervalMin, cleanupIntervalMax, hour, minute, second in B.
  split; cbn; [|done]. do 6 (split; [done|]). unfold millisecond, day, hour, minute, second. lia.
Qed.

Lemma saved_workers_sound poll hook c : 1 <= poll <= 1000 → 1 <= hook <= 1000 → Validate c = [] → saved_sound (saved_workers poll hook c).
Proof.
  intros P Q V. pose proof (validate_nil c V) as (_ & I & T & _).
  row I 14%nat as R1. row I 15%nat as R2. row I 16%nat as R3. row I 18%nat as R4. row I 19%nat as R5. row I 20%nat as R6. row T 10%nat as E.
  by split.
Qed.

Lemma parseWorkersForm_bounds get poll hook : parseWorkersForm get = Some (poll, hook) → 1 <= poll <= 1000 ∧ 1 <= hook <= 1000.
Proof.
  unfold parseWorkersForm. destruct (parse_int64 (trim_space (get "worker_pool_size"))) as [p|]; [|done]. destruct (parse_int64 _) as [q|]; [|done]. cbn.
  case_match_goal; [done|]. intros [= <- <-]. bool_to_prop. lia.
Qed.

(** ** The file *)

Lemma valid_retention_keys ul ud f : Forall (λ kv, validKey ul ud kv.1 = true) (retention_keys f).
Proof. unfold retention_keys. repeat (apply Forall_cons; split; [reflexivity|]). by apply Forall_nil. Qed.
Lemma valid_worker_keys ul ud poll hook : Forall (λ kv, validKey ul ud kv.1 = true) (worker_keys poll hook).
Proof. unfold worker_keys. repeat (apply Forall_cons; split; [reflexivity|]). by apply Forall_nil. Qed.

Lemma settable_retention f : settable (retention_keys f).
Proof.
  split; [apply (bool_decide_unpack (NoDup retention_names)); by vm_compute|]. unfold retention_keys.
  repeat (apply Forall_cons; split; [split; [by repeat split|first [apply plain_format_int|apply plain_format_cleanup]]|]). by apply Forall_nil.
Qed.
Lemma bare_retention f : settable_bare (retention_keys f).
Proof.
  unfold settable_bare, retention_keys.
  repeat (apply Forall_cons; split; [split; [reflexivity|first [apply bare_format_int|apply bare_format_cleanup]]|]). by apply Forall_nil.
Qed.
Lemma bare_workers poll hook : settable_bare (worker_keys poll hook).
Proof. unfold settable_bare, worker_keys. repeat (apply Forall_cons; split; [split; [reflexivity|apply bare_format_int]|]). by apply Forall_nil. Qed.
Lemma settable_workers poll hook : settable (worker_keys poll hook).
Proof.
  split; [apply (bool_decide_unpack (NoDup worker_names)); by vm_compute|]. unfold worker_keys.
  repeat (apply Forall_cons; split; [split; [by repeat split|apply plain_format_int]|]). by apply Forall_nil.
Qed.
