(* ===== verification/Pages.v ===== *)
(** The pages of the web UI that change the library ([http/ui/feeds.go], [feeds_detect.go], [feeds_inbound.go],
    [subscriptions.go], [categories.go], [categories_bulk.go], [entries.go]): their handlers over the tables of
    [Catalog.v] and [Reading.v], behind the routes and guards of [UiAuth.v].  A page is what it shows as data.  The
    parameters are those of the JSON API, and the JSON of the settings a Telegram feed carries.  Refreshing by
    hand runs the refresher on the tables ([LibraryPolls.v]).  The import and the cached counts are left out. *)

From S2P Require Import Prelude GoStrings PollSchedule PollWindow Types FeedStore WebhookStore EntryStore Tables FilterStore Catalog CatalogSpec Reading ReadingSpec.
From S2P Require Import NetIP SsrfGuard UserStore ApiAuth LibraryPolls CatalogApi UiAuth.
From S2P Require ClientIP Search Refresher.
From Stdlib Require Import Ascii.

(** * Requests and pages *)

Inductive page :=
| PError (status : Z) (msg : string)
| PRedirect (loc : string)
| PFlash (loc code : string) (n : Z)     (* http/ui/subscriptions.go feedsRedirect *)
| PFailed (loc action : string)          (* http/ui/failure.go failRedirect *)
| PForm (msg : string)                   (* the form of a new feed, with what is wrong *)
| PFeeds (what : string) (n : Z)         (* the list of feeds, with what was done to how many *)
| PEntryRow (e : EntryView)
| PNoContent
| PElsewhere (handler : string).

Record PServer := mkPServer { pv_ui : UiConfig; pv_c : CServer; pv_dedup : bool; pv_guard : option Guard }.

(** The settings of a Telegram feed in its bridge state; the rest of the document is kept as it is. *)
Record BridgeOverride := mkOverride { bo_UseProxy : option bool; bo_ProxyServiceURL : string; bo_StaticProxy : string; bo_rest : string }.

(** How an entered page of discovery answers: what is wrong, or a title and an address. *)
Definition Discover : Type := string → string → bool → string + string * string.

Definition FeedTypeRSS : string := "rss".
Definition FeedTypePage : string := "page".
Definition FeedTypeTelegram : string := "telegram".

(** * Forms *)

(** [r.Form.Has] *)
Definition form_has (r : UiRequest) (key : string) : bool := match ur_list r key with [] => false | _ => true end.

(** http/ui/categories_bulk.go [parseCategoryPathID] *)
Definition parseCategoryPathID (segment : string) : string + Z :=
  let raw := trim_space segment in
  if String.eqb raw "" then inl "category id required"%string
  else match atoiNonNeg raw with None => inl "invalid category id"%string | Some id => inr id end.

(** http/ui/feeds.go [parseFeedWebhookID] *)
Definition parseFeedWebhookID (v : string) : option Z :=
  let v := trim_space v in
  if String.eqb v "" || String.eqb v "0" then None
  else match parse_int64 v with Some id => if id <=? 0 then None else Some id | None => None end.

(** http/ui/feeds.go [parseEntryRetentionDays] *)
Definition parseEntryRetentionDays (v : string) : string + option Z :=
  let v := trim_space v in
  if String.eqb v "" then inr None
  else match parse_int64 v with
  | None => inl "entry_retention_days must be a number"%string
  | Some n =>
      if n =? 0 then inr None
      else if ValidateEntryRetentionDays (Some n) then inr (Some n) else inl "entry_retention_days must be between 1 and 3650"%string
  end.

(** A number of a category in a form: what is none stands for no category. *)
Definition form_category (v : string) : option Z :=
  let v := trim_space v in
  if String.eqb v "" then None else match parse_int64 v with Some n => if 0 <? n then Some n else None | None => None end.

Notation interval_bounds := "interval_minutes must be between 1 and 10080"%string.
Definition interval_ok (n : Z) : bool := negb ((n <? MinFeedIntervalMinutes) || (MaxFeedIntervalMinutes <? n)).

(** http/ui/feeds.go [feedParamsFromForm] *)
Definition feedParamsFromForm (r : UiRequest) : string + CreateFeedParams :=
  let feedURL := trim_space (FormValue r "feed_url") in
  let title := trim_space (FormValue r "title") in
  let interval := if String.eqb (FormValue r "interval_minutes") "" then 60 else default 60 (parse_int64 (FormValue r "interval_minutes")) in
  if String.eqb feedURL "" then inl "feed_url is required"%string
  else if negb (interval_ok interval) then inl interval_bounds
  else match parseEntryRetentionDays (FormValue r "entry_retention_days") with
  | inl e => inl e
  | inr retention =>
      let mode := FormValue r "store_mode" in
      let mode := if String.eqb mode "" && String.eqb (FormValue r "store_hash_only") "1" then "filtered"%string else mode in
      match NormalizeStoreMode mode with
      | None => inl "store_mode must be full, filtered, or relay"%string
      | Some mode =>
          inr (mkCreateFeed feedURL "" title (form_category (FormValue r "category_id")) false interval "" "" "" "" false
                 (String.eqb (FormValue r "tls_insecure") "1") false "" (parseFeedWebhookID (FormValue r "webhook_id")) mode retention
                 (String.eqb (FormValue r "adaptive_interval") "1") None)
      end
  end.

(** proxy/static.go [parseHostPort] The host. *)
Definition parseHostPort (raw : string) : option string :=
  let '(host, port, ok) := cut ":"%char raw in
  if negb ok || String.eqb (trim_space host) "" then None
  else match parse_int64 port with Some n => if 0 <? n then Some host else None | None => None end.

(** proxy/static.go [ParseStaticProxy] The host; [url_host_port] is [url.Parse] with [Hostname] and [Port]. *)
Definition ParseStaticProxy (url_host_port : string → option (string * string)) (raw : string) : option string :=
  let raw := trim_space raw in
  if String.eqb raw "" then None
  else if contains raw "://" then
    match url_host_port raw with
    | None => None
    | Some (host, port) =>
        if String.eqb host "" || String.eqb port "" then None
        else match parse_int64 port with Some n => if 0 <? n then Some host else None | None => None end
    end
  else match cut_last "@"%char raw with
  | Some (user, hostPort) => if String.eqb user "" then parseHostPort raw else parseHostPort hostPort
  | None => parseHostPort raw
  end.

(** storage/categories.go [PostgresStore.CategoryFollowerCounts] The count of one category. *)
Definition CategoryFollowerCounts (fdb : FeedDb) (cat : Z) : Z := Z.of_nat (length (followers fdb cat)).

(** * Handlers *)

Definition page_handler : Type := PServer → Z → UiRequest → option Principal → CState → CState * page.

Definition ui_me (p : option Principal) : Z := p_UserID (UiAuth.principal p).
Definition paudit (c : PServer) (r : UiRequest) (p : option Principal) (action target : string) (id : Z) (st : CState) : CState :=
  caudit (ui_server (pv_ui c)) (ur_api r) p action target id st.

Notation forbidden := (PError 403 "forbidden").

(** * Guards *)

Section Guarded.
(** A state with the accounts in it, and how a guard answers. *)
Context {St R : Type} (api_of : St → Api) (put_api : Api → St → St) (redirect : string → R) (refuse : R) (uri : UiRequest → string).

(** http/ui/auth.go:209-239 [Handler.requireAuth, requireRole] A request behind the guard of its route, which asks for a session
    and then for the role. *)
Definition page_guarded (g : guard) (u : UiConfig) (next : Z → UiRequest → option Principal → St → St * R) (now : Z) (r : UiRequest) (st : St) : St * R :=
  let who role :=
    match authenticate u now (api_users (api_of st)) r with
    | (db, None) => (put_api (with_db (api_of st) db) st, redirect ("/ui/login?next=" +:+ urlQueryEscape (uri r)))
    | (db, Some (p, _)) =>
        let st := put_api (with_db (api_of st) db) st in
        if String.eqb role "" || RoleAtLeast (p_Role p) role then next now r (Some p) st else (st, refuse)
    end in
  match g with
  | GPublic => next now r None st
  | GAuth => who ""%string
  | GEditor => who RoleEditor
  | GAdmin => who RoleAdmin
  end.

End Guarded.

(** The accounts of a state. *)
Definition put_accounts (a : Api) (st : CState) : CState := mkCState a (cx_cat st).

Section Handlers.
Context (url_parse : string → option (string * string)) (drop_flash : string → string) (request_uri : string → string → string).
Context (hmac64 : string → string → string) (format_day : Z → string) (referer : UiRequest → string) (isHX : UiRequest → bool).
Context (validateFeedURL : string → option string) (DetectFeedTypeFromURL : string → string)
        (ValidateBridgeFeedURL : string → string → option string) (discover : option Discover).
Context (decode_override : string → BridgeOverride) (encode_override : BridgeOverride → string).
Context (url_host_port : string → option (string * string)) (lookup : string → option (list string)) (newInboundSecret : Z → string * string).
Context (title_key dedup_key : string → string).
(** The refresher with what the library has not of its world, and when the poll of a feed starts and what it takes. *)
Context {env : Refresher.Env} (poller : Refresher.World) (poll_clock : Z → Z * Z).

Notation csrf c now r := (validateCSRF hmac64 format_day (pv_ui c) now r).

(** http/ui/redirect.go [refererOr] *)
Definition refererOr (r : UiRequest) (fallback : string) : string := localUIPath url_parse drop_flash request_uri (referer r) fallback.

(** ** Subscriptions *)

(** http/ui/subscriptions.go [Handler.handleSubscribe] *)
Definition handleSubscribe (id : string) : page_handler := λ c now r p st,
  if negb (csrf c now r) then (st, forbidden)
  else if negb (sc_subscriptions (pv_c c)) then (st, PError 404 "not found")
  else match ui_parse_id id with
  | None => (st, PError 400 "invalid id")
  | Some feedID =>
      let target := refererOr r "/ui/feeds" in
      match Subscribe (ct_hooks (cx_cat st)) (tables (cx_cat st)) (ui_me p) feedID None with
      | (_, inl e) =>
          (st, if err_is err_already_subscribed e then PRedirect target
               else if err_is_not_found e || err_is err_invalid_reference e then PError 404 "not found"
               else PFailed target "subscribe")
      | (t, inr _) => (paudit c r p "subscription.create" "feed" feedID (with_s st t), PFlash target "subscribed" 0)
      end
  end.

(** http/ui/subscriptions.go [Handler.handleUnsubscribe] *)
Definition handleUnsubscribe (id : string) : page_handler := λ c now r p st,
  if negb (csrf c now r) then (st, forbidden)
  else if negb (sc_subscriptions (pv_c c)) then (st, PError 404 "not found")
  else match ui_parse_id id with
  | None => (st, PError 400 "invalid id")
  | Some feedID =>
      let target := refererOr r "/ui/feeds" in
      match Unsubscribe (tables (cx_cat st)) (ui_me p) feedID with
      | (_, inl e) =>
          (st, if err_is err_follows_category e then PFlash target "follows_category" 0
               else if err_is_not_found e then PError 404 "not found" else PFailed target "unsubscribe")
      | (t, inr _) => (paudit c r p "subscription.delete" "feed" feedID (with_s st t), PFlash target "unsubscribed" 0)
      end
  end.

(** http/ui/subscriptions.go [Handler.handleCategoryFollow] *)
Definition handleCategoryFollow (id : string) : page_handler := λ c now r p st,
  if negb (csrf c now r) then (st, forbidden)
  else match ui_parse_id id with
  | None => (st, PError 400 "invalid id")
  | Some cat =>
      let target := refererOr r "/ui/feeds" in
      match FollowCategory (cx_cat st) (ui_me p) cat with
      | (k, inl e) => (with_cat st k, if err_is_not_found e then PError 404 "not found" else PFailed target "follow category")
      | (k, inr n) => (paudit c r p "category.follow" "category" cat (with_cat st k), PFlash target "followed" n)
      end
  end.

(** http/ui/subscriptions.go [Handler.handleCategoryUnfollow] *)
Definition handleCategoryUnfollow (id : string) : page_handler := λ c now r p st,
  if negb (csrf c now r) then (st, forbidden)
  else match ui_parse_id id with
  | None => (st, PError 400 "invalid id")
  | Some cat =>
      let target := refererOr r "/ui/feeds" in
      match UnfollowCategory (cx_cat st) (ui_me p) cat with
      | (k, inl e) => (with_cat st k, if err_is_not_found e then PRedirect target else PFailed target "unfollow category")
      | (k, inr n) => (paudit c r p "category.unfollow" "category" cat (with_cat st k), PFlash target "unfollowed" n)
      end
  end.

(** ** Categories *)

(** http/ui/categories.go [Handler.saveCategoryPollHours] Whether it went well. *)
Definition saveCategoryPollHours (c : PServer) (now : Z) (r : UiRequest) (cat : Z) (pollHours : string) (k : Catalog) : Catalog * bool :=
  if negb (sc_pollHours (pv_c c)) || negb (form_has r "poll_hours") then (k, true)
  else match SetCategoryPollHours now (ct_feeds k) cat pollHours with
  | (_, Some _) => (k, false)
  | (fdb, None) => (with_tables k (fdb, ct_entries k), true)
  end.

(** http/ui/categories.go [Handler.handleCategoryCreate] *)
Definition handleCategoryCreate : page_handler := λ c now r p st,
  if negb (csrf c now r) then (st, forbidden)
  else
    let title := trim_space (FormValue r "title") in
    if String.eqb title "" then (st, PError 400 "title required")
    else match NormalizePollHours (FormValue r "poll_hours") with
    | None => (st, PError 400 "invalid poll hours")
    | Some hours =>
        let target := refererOr r "/ui/categories" in
        match CreateCategory title_key (cx_cat st) title (trim_space (FormValue r "color")) with
        | (k, inl e) => (with_cat st k, if err_is err_duplicate_category e then PFlash target "category_duplicate" 0 else PError 400 (err_text e))
        | (k, inr x) =>
            let '(k, ok) := saveCategoryPollHours c now r (c_ID x) hours k in
            if ok then (paudit c r p "category.create" "category" (c_ID x) (with_cat st k), PFlash target "category_created" 0)
            else (with_cat st k, PError 500 "poll hours")
        end
    end.

(** http/ui/categories.go [Handler.handleCategoryUpdate] *)
Definition handleCategoryUpdate (id : string) : page_handler := λ c now r p st,
  if negb (csrf c now r) then (st, forbidden)
  else match ui_parse_id id with
  | None => (st, PError 400 "invalid id")
  | Some cat =>
      let title := trim_space (FormValue r "title") in
      if String.eqb title "" then (st, PError 400 "title required")
      else match NormalizePollHours (FormValue r "poll_hours") with
      | None => (st, PError 400 "invalid poll hours")
      | Some hours =>
          match UpdateCategory title_key (cx_cat st) cat title (trim_space (FormValue r "color")) with
          | (k, inl e) => (with_cat st k, if err_is err_duplicate_category e then PFlash "/ui/categories" "category_duplicate" 0 else PError 404 "not found")
          | (k, inr x) =>
              let '(k, ok) := saveCategoryPollHours c now r cat hours k in
              if ok then (paudit c r p "category.update" "category" cat (with_cat st k), PRedirect "/ui/categories")
              else (with_cat st k, PError 500 "poll hours")
          end
      end
  end.

(** http/ui/categories.go [Handler.handleCategoryDelete] *)
Definition handleCategoryDelete (id : string) : page_handler := λ c now r p st,
  if negb (csrf c now r) then (st, forbidden)
  else match ui_parse_id id with
  | None => (st, PError 400 "invalid id")
  | Some cat =>
      let target := refererOr r "/ui/categories" in
      match DeleteCategory (cx_cat st) cat with
      | (k, Some e) => (with_cat st k, if err_is err_category_not_empty e then PFlash target "category_not_empty" 0 else PError 404 "not found")
      | (k, None) => (paudit c r p "category.delete" "category" cat (with_cat st k), PFlash target "category_deleted" 0)
      end
  end.

(** http/ui/categories.go [Handler.handleCategoryMarkRead] *)
Definition handleCategoryMarkRead (id : string) : page_handler := λ c now r p st,
  if negb (csrf c now r) then (st, forbidden)
  else match ui_parse_id id with
  | None => (st, PError 400 "invalid id")
  | Some cat =>
      let target := "/ui/unread?category_id=" +:+ trim_space id in
      match MarkAllCategoryEntriesRead (cx_cat st) (ui_me p) cat with
      | (_, inl _) => (st, PFailed target "mark category read")
      | (db, inr _) => (with_s st (ct_feeds (cx_cat st), db), PRedirect target)
      end
  end.

(** http/ui/categories.go:161-173 [Handler.handleCategoryReorder, the numbers] Blank ones are passed over. *)
Fixpoint parse_order (raw : list string) : option (list Z) :=
  match raw with
  | [] => Some []
  | v :: raw =>
      let v := trim_space v in
      if String.eqb v "" then parse_order raw
      else match parse_int64 v with
           | Some id => if id <=? 0 then None else cons id <$> parse_order raw
           | None => None
           end
  end.

(** http/ui/categories.go [Handler.handleCategoryReorder] *)
Definition handleCategoryReorder : page_handler := λ c now r p st,
  if negb (csrf c now r) then (st, forbidden)
  else match parse_order (ur_list r "order") with
  | None => (st, PError 400 "invalid order")
  | Some [] => (st, PError 400 "order required")
  | Some ids =>
      match ReorderCategories (cx_cat st) ids with
      | (k, Some e) => (with_cat st k, if err_is err_invalid_reference e then PError 400 "invalid order" else PError 500 "reorder failed")
      | (k, None) => (with_cat st k, PNoContent)
      end
  end.

(** ** All the feeds of a category *)

(** A change of all the feeds of a category, with what [done_] makes of the state, and the answers of the errors. *)
Definition bulk (what : string) (id : string) (parse : UiRequest → Z → string + BulkFeedUpdate)
    (after : PServer → Z → UiRequest → Z → Z → list Z → Catalog → Catalog) : page_handler := λ c now r p st,
  if negb (csrf c now r) then (st, forbidden)
  else match parseCategoryPathID id with
  | inl e => (st, PError 400 e)
  | inr cat =>
      match parse r cat with
      | inl e => (st, PError 400 e)
      | inr u =>
          match BulkUpdateFeedsByCategory (cx_cat st) (ui_me p) cat u with
          | (k, inl e) => (with_cat st k, if err_is_not_found e then PError 404 "not found" else PError 400 (err_text e))
          | (k, inr (ids, n)) => (with_cat st (after c now r (ui_me p) cat ids k), PFeeds what n)
          end
      end
  end.

Definition no_update : BulkFeedUpdate := mkBulk None false None None None None false None.
Definition nothing_after : PServer → Z → UiRequest → Z → Z → list Z → Catalog → Catalog := λ _ _ _ _ _ _ k, k.

(** service/feed_refresher.go [FeedRefresher.RescheduleFeed] From now; a feed that is gone is left. *)
Definition RescheduleFeed (c : PServer) (now id interval : Z) (k : Catalog) : Catalog :=
  match sc_refresher (pv_c c) with
  | Some (min, max) => with_tables k ((SetFeedNextCheckAt (ct_feeds k) id (FeedNextCheckAt now interval min max)).1, ct_entries k)
  | None => k
  end.

(** http/ui/categories_bulk.go [Handler.handleCategoryBulkInterval] *)
Definition handleCategoryBulkInterval (id : string) : page_handler :=
  let interval r := parse_int64 (trim_space (FormValue r "interval_minutes")) in
  bulk "interval" id
    (λ r _, match interval r with
            | Some n => if interval_ok n then inr (mkBulk (Some n) false None None None None false None) else inl interval_bounds
            | None => inl interval_bounds
            end)
    (λ c now r _ _ ids k, foldl (λ k f, RescheduleFeed c now f (default 0 (interval r)) k) k ids).

(** http/ui/categories_bulk.go [Handler.handleCategoryBulkWebhook] *)
Definition handleCategoryBulkWebhook (id : string) : page_handler :=
  bulk "webhook" id (λ r _, inr (mkBulk None true (parseFeedWebhookID (FormValue r "webhook_id")) None None None false None)) nothing_after.

(** http/ui/categories_bulk.go [Handler.collapseEntries] The entries a user reads, or everybody's for 0, of a feed or a category;
    [inl] is a failure. *)
Definition collapseEntries (c : PServer) (u : Z) (feed cat : option Z) (onlyHashOnly : bool) (k : Catalog) : Catalog * (err + Z) :=
  if negb (pv_dedup c) then (k, inl (EMsg "dedup store is not configured"))
  else match CollapseEntriesToHashes dedup_key (S (size (ed_entries (ct_entries k)))) (ct_feeds k) (ct_hooks k) (ct_entries k)
               (mkCollapse u feed cat onlyHashOnly true) with
  | Some (db, res) => (with_tables k (ct_feeds k, db), res)
  | None => (k, inr 0)
  end.

(** http/ui/categories_bulk.go [Handler.handleCategoryBulkStoreMode] *)
Definition handleCategoryBulkStoreMode (id : string) : page_handler :=
  bulk "store mode" id
    (λ r _, match NormalizeStoreMode (FormValue r "store_mode") with
            | None => inl "store_mode must be full, filtered, or relay"%string
            | Some m => inr (mkBulk None false None (Some m) None None false None)
            end)
    (λ c _ r u cat _ k, if bool_decide (NormalizeStoreMode (FormValue r "store_mode") = Some "full"%string) || negb (pv_dedup c) then k
                        else (collapseEntries c u None (Some cat) false k).1).

(** A switch of a form. *)
Definition form_switch (on off v : string) : string + bool :=
  let v := trim_space v in
  if String.eqb v on then inr true else if String.eqb v off then inr false else inl "invalid action"%string.

(** http/ui/categories_bulk.go [Handler.handleCategoryBulkAdaptive] *)
Definition handleCategoryBulkAdaptive (id : string) : page_handler :=
  bulk "adaptive interval" id
    (λ r _, match form_switch "enable" "disable" (FormValue r "action") with
            | inl e => inl e
            | inr b => inr (mkBulk None false None None (Some b) None false None)
            end) nothing_after.

(** http/ui/categories_bulk.go [Handler.handleCategoryBulkPause] *)
Definition handleCategoryBulkPause (id : string) : page_handler :=
  bulk "pause" id
    (λ r _, match form_switch "pause" "unpause" (FormValue r "action") with
            | inl e => inl e
            | inr b => inr (mkBulk None false None None None (Some b) false None)
            end) nothing_after.

(** http/ui/categories_bulk.go [Handler.handleCategoryBulkMove] *)
Definition handleCategoryBulkMove (id : string) : page_handler :=
  bulk "move" id
    (λ r cat,
       let v := trim_space (FormValue r "target_category_id") in
       if String.eqb v "" then inr (mkBulk None false None None None None true None)
       else match parse_int64 v with
       | Some t =>
           if t <=? 0 then inl "invalid target category"%string
           else if t =? cat then inl "target category must differ"%string
           else inr (mkBulk None false None None None None true (Some t))
       | None => inl "invalid target category"%string
       end) nothing_after.

(** http/ui/categories_bulk.go [Handler.handleCategoryBulkHashEntries] *)
Definition handleCategoryBulkHashEntries (id : string) : page_handler := λ c now r p st,
  if negb (csrf c now r) then (st, forbidden)
  else match parseCategoryPathID id with
  | inl e => (st, PError 400 e)
  | inr cat =>
      match collapseEntries c (ui_me p) None (Some cat) true (cx_cat st) with
      | (k, inl e) => (with_cat st k, PError 500 (err_text e))
      | (k, inr n) => (with_cat st k, PFeeds "hash entries" n)
      end
  end.

(** http/ui/feeds_helpers.go [feedIDsInCategory] *)
Definition feedIDsInCategory (feeds : list FeedView) (cat : Z) : list Z :=
  (λ v, f_id (feed_row (fv_feed v))) <$> filter (λ v, in_category cat v = true) feeds.

(** http/ui/categories_bulk.go [Handler.handleCategoryBulkRefresh] *)
Definition handleCategoryBulkRefresh (id : string) : page_handler := λ c now r p st,
  if negb (csrf c now r) then (st, forbidden)
  else match parseCategoryPathID id with
  | inl e => (st, PError 400 e)
  | inr cat =>
      let feeds := match ListFeeds (cx_cat st) (ui_me p) 0 0 with inr (fs, _) => fs | inl _ => [] end in
      let ids := feedIDsInCategory feeds cat in
      match sc_refresher (pv_c c) with
      | None => (st, PFeeds "refresh" (Z.of_nat (length ids)))
      | Some _ =>
          let '(k, failed) := on_catalog (refresh_each poll_clock ids) poller (cx_cat st) in
          (with_cat st k, PFeeds "refresh" (Z.of_nat (length ids) - failed))
      end
  end.

(** ** Feeds *)

(** http/ui/feeds.go [Handler.handleFeedRefresh] *)
Definition handleFeedRefresh (id : string) : page_handler := λ c now r p st,
  if negb (csrf c now r) then (st, forbidden)
  else match ui_parse_id id with
  | None => (st, PError 400 "invalid id")
  | Some id =>
      match catalogFeed (cx_cat st) (ui_me p) id with
      | inl _ => (st, PError 404 "not found")
      | inr _ =>
          let target := refererOr r ("/ui/feeds/" +:+ format_int id) in
          match sc_refresher (pv_c c) with
          | None => (st, PRedirect target)
          | Some _ =>
              match on_catalog (refresh_feed poll_clock id) poller (cx_cat st) with
              | (k, inl _) => (with_cat st k, PFailed target "feed refresh")
              | (k, inr _) => (with_cat st k, PRedirect target)
              end
          end
      end
  end.

(** http/ui/feeds.go [Handler.feedQuota] Whether it allows the write. *)
Definition feedQuota (c : PServer) (k : Catalog) (p : option Principal) (interval : Z) (creating : bool) : bool :=
  let l := sc_quotas (pv_c c) in
  let me := UiAuth.principal p in
  quota_PollInterval l me interval &&
  (negb creating || (MaxFeedsPerEditor l <=? 0) || IsAdmin me || quota_Feeds l me (CountOwnedFeeds k (p_UserID me))).

Definition titled (p : CreateFeedParams) (title : string) : CreateFeedParams :=
  if String.eqb (cp_Title p) "" then with_url_title p (cp_FeedURL p) (trim_space title) else p.

(** http/ui/feeds_detect.go [resolveFeedBeforeCreate] *)
Definition resolveFeedBeforeCreate (p : CreateFeedParams) : string + CreateFeedParams :=
  match ValidateBridgeFeedURL (cp_FeedURL p) (cp_FeedType p) with
  | Some e => inl e
  | None =>
      match discover with
      | None => inr p
      | Some d =>
          let found := d (cp_FeedURL p) (cp_FeedType p) (cp_TLSInsecure p) in
          let ft := cp_FeedType p in
          if String.eqb ft FeedTypeRSS then
            match found with
            | inl e => inl e
            | inr (title, url) =>
                if negb (String.eqb url "") && negb (String.eqb url (cp_FeedURL p)) then
                  match validateFeedURL url with Some e => inl e | None => inr (titled (with_url_title p url (cp_Title p)) title) end
                else inr (titled p title)
            end
          else if String.eqb ft FeedTypePage then
            match found with inl e => inl e | inr (title, _) => inr (titled p title) end
          else if bool_decide (ft ∈ [FeedTypeTelegram; "dzen_channel"; "ok_group"; "vk_group"]%string) then
            match found with inl _ => inr p | inr (title, _) => inr (titled p title) end
          else inr p
      end
  end.

(** http/ui/feeds.go [Handler.bridgeStateFromTelegramForm] *)
Definition bridgeStateFromTelegramForm (c : PServer) (r : UiRequest) (existing : BridgeState) : string + BridgeState :=
  let o := decode_override (bs_raw existing FeedTypeTelegram) in
  let static := trim_space (FormValue r "telegram_static_proxy") in
  let o := mkOverride (Some (String.eqb (FormValue r "telegram_use_proxy") "1")) (trim_space (FormValue r "telegram_proxy_service_url")) static (bo_rest o) in
  let saved := bs_with existing FeedTypeTelegram (encode_override o) in
  if String.eqb static "" then inr saved
  else match ParseStaticProxy url_host_port static with
  | None => inl "static proxy"%string
  | Some host => if ValidateHost (pv_guard c) lookup host then inr saved else inl "static proxy refused"%string
  end.

Definition with_type_state (p : CreateFeedParams) (ft : string) (skip : bool) (state : option BridgeState) : CreateFeedParams :=
  mkCreateFeed (cp_FeedURL p) ft (cp_Title p) (cp_CategoryID p) skip (cp_IntervalMinutes p) (cp_ScraperRules p)
    (cp_RewriteRules p) (cp_BlockedRules p) (cp_KeepRules p) (cp_FetchViaProxy p) (cp_TLSInsecure p) (cp_Crawler p) (cp_UserAgent p)
    (cp_WebhookID p) (cp_StoreMode p) (cp_EntryRetentionDays p) (cp_AdaptiveInterval p) state.

(** http/ui/feeds.go:185-201 [Handler.handleFeedCreate, what is to be created] *)
Definition create_params (c : PServer) (r : UiRequest) (params : CreateFeedParams) : string + CreateFeedParams :=
  let skip := String.eqb (FormValue r "subscribe_self") "0" in
  match resolveFeedBeforeCreate (with_type_state params (DetectFeedTypeFromURL (cp_FeedURL params)) skip None) with
  | inl e => inl e
  | inr params =>
      let state := if String.eqb (cp_FeedType params) FeedTypeTelegram
                   then match bridgeStateFromTelegramForm c r ∅ with inl e => inl e | inr s => inr (Some s) end
                   else inr None in
      match state with
      | inl e => inl e
      | inr s =>
          let params := with_type_state params (cp_FeedType params) skip s in
          inr (if String.eqb (cp_Title params) "" then with_url_title params (cp_FeedURL params) (cp_FeedURL params) else params)
      end
  end.

(** http/ui/feeds.go:211-221 [Handler.handleFeedCreate, the errors] *)
Definition create_refused (e : err) : page :=
  if err_is err_already_subscribed e then PForm "already in the catalogue and in your subscriptions"
  else if err_is err_invalid_reference e then PForm "category or webhook not found"
  else PError 400 (err_text e).

(** http/ui/feeds.go [Handler.handleFeedCreate] *)
Definition handleFeedCreate : page_handler := λ c now r p st,
  if negb (csrf c now r) then (st, forbidden)
  else match feedParamsFromForm r with
  | inl e => (st, PError 400 e)
  | inr params =>
      match validateFeedURL (cp_FeedURL params) with
      | Some e => (st, PError 400 e)
      | None =>
          if negb (feedQuota c (cx_cat st) p (cp_IntervalMinutes params) true) then (st, PForm "quota")
          else match create_params c r params with
          | inl e => (st, PForm e)
          | inr params =>
              match CreateFeed now (cx_cat st) (ui_me p) params with
              | (k, inr v) =>
                  let readers := match cp_CategoryID params with
                                 | Some cat => if sc_categories (pv_c c) then CategoryFollowerCounts (ct_feeds k) cat else 0
                                 | None => 0
                                 end in
                  (paudit c r p "feed.create" "feed" (f_id (feed_row (fv_feed v))) (with_cat st k), PFlash "/ui/feeds" "feed_added" readers)
              | (k, inl e) =>
                  if err_is err_duplicate_feed_url e && sc_subscriptions (pv_c c) then
                    match SubscribeByURL k (ui_me p) (cp_FeedURL params) (cp_WebhookID params) with
                    | (k, inr v) => (paudit c r p "subscription.create" "feed" (f_id (feed_row (fv_feed v))) (with_cat st k), PFlash "/ui/feeds" "subscribed" 0)
                    | (k, inl e) => (with_cat st k, create_refused e)
                    end
                  else (with_cat st k, create_refused e)
              end
          end
      end
  end.

(** http/ui/feeds.go:336-348 [Handler.handleFeedUpdate, the parameters] The rules, the proxy, the crawler and
    the user agent are not in the form, and their zero values are passed. *)
Definition page_update (id : Z) (p : CreateFeedParams) (state : option BridgeState) : UpdateFeedParams :=
  mkUpdateFeed id (cp_FeedURL p) (cp_Title p) (cp_CategoryID p) (cp_IntervalMinutes p) "" "" "" "" false (cp_TLSInsecure p) false ""
    (cp_WebhookID p) (cp_StoreMode p) (cp_EntryRetentionDays p) (cp_AdaptiveInterval p) state.

(** http/ui/feeds.go [Handler.handleFeedUpdate] *)
Definition handleFeedUpdate (id : string) : page_handler := λ c now r p st,
  if negb (csrf c now r) then (st, forbidden)
  else match ui_parse_id id with
  | None => (st, PError 400 "invalid id")
  | Some id =>
      match feedParamsFromForm r with
      | inl e => (st, PError 400 e)
      | inr params =>
          if negb (feedQuota c (cx_cat st) p (cp_IntervalMinutes params) false) then (st, PError 422 "quota")
          else
            let row := fd_feeds (ct_feeds (cx_cat st)) !! id in
            let type := match row with Some f => f_type f | None => ""%string end in
            let existing := ps_bridge_state <$> fd_poll (ct_feeds (cx_cat st)) !! id in
            let state := if String.eqb type FeedTypeTelegram || String.eqb (DetectFeedTypeFromURL (cp_FeedURL params)) FeedTypeTelegram
                         then match bridgeStateFromTelegramForm c r (default ∅ existing) with inl e => inl e | inr s => inr (Some s) end
                         else inr existing in
            match state with
            | inl e => (st, PError 422 e)
            | inr state =>
                match UpdateFeed (cx_cat st) (ui_me p) (page_update id params state) with
                | (k, inl e) => (with_cat st k, PError 400 (err_text e))
                | (k, inr _) =>
                    let k := if String.eqb type FeedTypeInbound then k else RescheduleFeed c now id (cp_IntervalMinutes params) k in
                    (paudit c r p "feed.update" "feed" id (with_cat st k), PRedirect ("/ui/feeds/" +:+ format_int id))
                end
            end
      end
  end.

(** http/ui/feeds.go [Handler.handleFeedDelete] *)
Definition handleFeedDelete (id : string) : page_handler := λ c now r p st,
  if negb (csrf c now r) then (st, forbidden)
  else match ui_parse_id id with
  | None => (st, PError 400 "invalid id")
  | Some id =>
      match DeleteFeed (cx_cat st) (ui_me p) id with
      | (k, Some _) => (with_cat st k, PError 404 "not found")
      | (k, None) => (paudit c r p "feed.delete" "feed" id (with_cat st k), PRedirect "/ui/feeds")
      end
  end.

(** http/ui/feeds.go [Handler.handleFeedMarkRead] *)
Definition handleFeedMarkRead (id : string) : page_handler := λ c now r p st,
  if negb (csrf c now r) then (st, forbidden)
  else match ui_parse_id id with
  | None => (st, PError 400 "invalid id")
  | Some feedID =>
      let target := "/ui/unread?feed_id=" +:+ format_int feedID in
      match MarkAllFeedEntriesRead (cx_cat st) (ui_me p) feedID with
      | (_, inl _) => (st, PFailed target "mark feed read")
      | (db, inr _) => (with_s st (ct_feeds (cx_cat st), db), PRedirect target)
      end
  end.

(** http/ui/feeds_inbound.go [Handler.handleInboundFeedCreate] *)
Definition handleInboundFeedCreate : page_handler := λ c now r p st,
  if negb (csrf c now r) then (st, forbidden)
  else
    let title := trim_space (FormValue r "title") in
    let v := trim_space (FormValue r "interval_minutes") in
    if String.eqb title "" then (st, PError 400 "title is required")
    else match parseEntryRetentionDays (FormValue r "entry_retention_days") with
    | inl e => (st, PError 400 e)
    | inr retention =>
        match (if String.eqb v "" then Some InboundDefaultIntervalMinutes else n ← parse_int64 v; if interval_ok n then Some n else None) with
        | None => (st, PError 400 interval_bounds)
        | Some interval =>
            if negb (feedQuota c (cx_cat st) p 60 true) then (st, PError 422 "quota")
            else
              let '(secret, address) := newInboundSecret now in
              match CreateInboundFeed now secret address (cx_cat st) (ui_me p)
                      (mkCreateInbound title (form_category (FormValue r "category_id")) interval retention (String.eqb (FormValue r "subscribe_self") "0")) with
              | (k, inl e) => (with_cat st k, PError 400 (if err_is err_invalid_reference e then "category not found" else err_text e))
              | (k, inr (v, _)) =>
                  let id := f_id (feed_row (fv_feed v)) in
                  (paudit c r p "feed.create" "feed" id (with_cat st k), PRedirect ("/ui/feeds/" +:+ format_int id))
              end
        end
    end.

(** http/ui/feeds_inbound.go [Handler.handleInboundSecretRotate] *)
Definition handleInboundSecretRotate (id : string) : page_handler := λ c now r p st,
  if negb (csrf c now r) then (st, forbidden)
  else match ui_parse_id id with
  | None => (st, PError 400 "invalid id")
  | Some id =>
      match RotateInboundSecret (newInboundSecret now).1 (cx_cat st) id with
      | (k, inl _) => (with_cat st k, PError 404 "not found")
      | (k, inr _) => (paudit c r p "feed.update" "feed" id (with_cat st k), PRedirect ("/ui/feeds/" +:+ format_int id))
      end
  end.

(** ** Entries *)

(** http/ui/entries.go [Handler.handleUnreadMarkRead] *)
Definition handleUnreadMarkRead : page_handler := λ c now r p st,
  if negb (csrf c now r) then (st, forbidden)
  else (with_s st (ct_feeds (cx_cat st), (MarkAllEntriesRead (ct_entries (cx_cat st)) (ui_me p)).1), PRedirect (refererOr r "/ui/unread")).

Definition mark_entry (id : Z) (u : Z) (x : BulkEntryUpdate) (st : CState) : CState * option err :=
  match BulkUpdateEntries (tables (cx_cat st)) u [id] x with
  | (_, inl e) => (st, Some e)
  | (t, inr _) => (with_s st t, None)
  end.

(** http/ui/entries.go [Handler.handleEntryRead] *)
Definition handleEntryRead (id : string) : page_handler := λ c now r p st,
  if negb (csrf c now r) then (st, forbidden)
  else match ui_parse_id id with
  | None => (st, PError 400 "invalid id")
  | Some id =>
      match mark_entry id (ui_me p) (mkBulkEntry (Some EntryStatusRead) None) st with
      | (st, Some _) => (st, PError 500 "update failed")
      | (st, None) =>
          (st, if isHX r then match GetEntry (tables (cx_cat st)) (ui_me p) id with inl _ => PError 404 "not found" | inr e => PEntryRow e end
               else PRedirect (refererOr r ("/ui/unread?entry_id=" +:+ format_int id)))
      end
  end.

(** http/ui/entries.go [Handler.handleEntryStar] *)
Definition handleEntryStar (id : string) : page_handler := λ c now r p st,
  if negb (csrf c now r) then (st, forbidden)
  else match ui_parse_id id with
  | None => (st, PError 400 "invalid id")
  | Some id =>
      match mark_entry id (ui_me p) (mkBulkEntry None (Some (String.eqb (FormValue r "starred") "1"))) st with
      | (st, Some _) => (st, PError 500 "update failed")
      | (st, None) => (st, PRedirect (refererOr r ("/ui/unread?entry_id=" +:+ format_int id)))
      end
  end.

(** http/ui/entries.go:273-290 [Handler.handleEntriesBulk, the action] *)
Definition bulk_action (v : string) : option BulkEntryUpdate :=
  if String.eqb v "read" then Some (mkBulkEntry (Some EntryStatusRead) None)
  else if String.eqb v "unread" then Some (mkBulkEntry (Some EntryStatusUnread) None)
  else if String.eqb v "star" then Some (mkBulkEntry None (Some true))
  else if String.eqb v "unstar" then Some (mkBulkEntry None (Some false))
  else None.

Definition parse_ids (raw : list string) : option (list Z) :=
  mapM (λ v, id ← parse_int64 v; if id <=? 0 then None else Some id) raw.

(** http/ui/entries.go [Handler.handleEntriesBulk] *)
Definition handleEntriesBulk : page_handler := λ c now r p st,
  if negb (csrf c now r) then (st, forbidden)
  else
    let raw := ur_list r "entry_ids" in
    if (Z.of_nat (length raw) =? 0) || (maxBulkEntryIDs <? Z.of_nat (length raw)) then (st, PError 400 "entry_ids required")
    else match parse_ids raw with
    | None => (st, PError 400 "invalid entry id")
    | Some ids =>
        match bulk_action (FormValue r "action") with
        | None => (st, PError 400 "unknown action")
        | Some x =>
            match BulkUpdateEntries (tables (cx_cat st)) (ui_me p) ids x with
            | (_, inl _) => (st, PError 500 "update failed")
            | (t, inr _) => (with_s st t, PRedirect (refererOr r "/ui/unread"))
            end
        end
    end.

(** http/ui/labels.go [Handler.handleLabelMarkRead] *)
Definition handleLabelMarkRead (labels : FilterDb) (id : string) : page_handler := λ c now r p st,
  if negb (csrf c now r) then (st, forbidden)
  else match ui_parse_id id with
  | None => (st, PError 400 "invalid id")
  | Some id =>
      let target := "/ui/labels/" +:+ format_int id in
      match MarkAllLabelEntriesRead labels (ct_entries (cx_cat st)) (ui_me p) id with
      | (_, inl _) => (st, PFailed target "mark label read")
      | (db, inr _) => (with_s st (ct_feeds (cx_cat st), db), PRedirect target)
      end
  end.

(** * Requests *)

(** The handlers above by name; the labels are those of the moment. *)
Definition page_handle (labels : FilterDb) (e : UiRoute) : page_handler := λ c now r p st,
  let named n := String.eqb (ro_handler e) n in
  let seg key := path_value (pat_segs (ro_pattern e)) (q_segs (ur_api r)) key in
  let h : page_handler :=
    if named "handleSubscribe"%string then handleSubscribe (seg "id"%string)
    else if named "handleUnsubscribe"%string then handleUnsubscribe (seg "id"%string)
    else if named "handleCategoryFollow"%string then handleCategoryFollow (seg "id"%string)
    else if named "handleCategoryUnfollow"%string then handleCategoryUnfollow (seg "id"%string)
    else if named "handleCategoryCreate"%string then handleCategoryCreate
    else if named "handleCategoryUpdate"%string then handleCategoryUpdate (seg "id"%string)
    else if named "handleCategoryDelete"%string then handleCategoryDelete (seg "id"%string)
    else if named "handleCategoryReorder"%string then handleCategoryReorder
    else if named "handleCategoryMarkRead"%string then handleCategoryMarkRead (seg "categoryID"%string)
    else if named "handleCategoryBulkInterval"%string then handleCategoryBulkInterval (seg "categoryID"%string)
    else if named "handleCategoryBulkWebhook"%string then handleCategoryBulkWebhook (seg "categoryID"%string)
    else if named "handleCategoryBulkStoreMode"%string then handleCategoryBulkStoreMode (seg "categoryID"%string)
    else if named "handleCategoryBulkAdaptive"%string then handleCategoryBulkAdaptive (seg "categoryID"%string)
    else if named "handleCategoryBulkPause"%string then handleCategoryBulkPause (seg "categoryID"%string)
    else if named "handleCategoryBulkMove"%string then handleCategoryBulkMove (seg "categoryID"%string)
    else if named "handleCategoryBulkHashEntries"%string then handleCategoryBulkHashEntries (seg "categoryID"%string)
    else if named "handleCategoryBulkRefresh"%string then handleCategoryBulkRefresh (seg "categoryID"%string)
    else if named "handleFeedRefresh"%string then handleFeedRefresh (seg "id"%string)
    else if named "handleFeedCreate"%string then handleFeedCreate
    else if named "handleFeedUpdate"%string then handleFeedUpdate (seg "id"%string)
    else if named "handleFeedDelete"%string then handleFeedDelete (seg "id"%string)
    else if named "handleFeedMarkRead"%string then handleFeedMarkRead (seg "feedID"%string)
    else if named "handleInboundFeedCreate"%string then handleInboundFeedCreate
    else if named "handleInboundSecretRotate"%string then handleInboundSecretRotate (seg "id"%string)
    else if named "handleUnreadMarkRead"%string then handleUnreadMarkRead
    else if named "handleEntryRead"%string then handleEntryRead (seg "id"%string)
    else if named "handleEntryStar"%string then handleEntryStar (seg "id"%string)
    else if named "handleEntriesBulk"%string then handleEntriesBulk
    else if named "handleLabelMarkRead"%string then handleLabelMarkRead labels (seg "id"%string)
    else λ _ _ _ _ st, (st, PElsewhere (ro_handler e)) in
  h c now r p st.

(** The request's URI as the browser sent it. *)
Context (uri : UiRequest → string).

(** http/ui/handler.go [Handler.Register] One request to the pages. *)
Definition page_request (labels : FilterDb) (c : PServer) (now : Z) (r : UiRequest) (st : CState) : CState * page :=
  match ui_route (ui_InboundFeeds (pv_ui c)) (q_method (ur_api r)) (q_segs (ur_api r)) with
  | None => (st, PElsewhere "404")
  | Some e => page_guarded cx_api put_accounts PRedirect forbidden uri (ro_guard e) (pv_ui c) (page_handle labels e c) now r st
  end.

End Handlers.
