(* ===== verification/PagesSpec.v ===== *)
(** What the pages guarantee ([Pages.v]): a request that changes the library carries the form token of a live
    session, its effect is a sequence of library steps (or the folding of entries into hashes, or polls), and those are the
    caller's own reading, or one poll, unless the caller is an editor.  And what saving the form of a feed loses. *)

From S2P Require Import Prelude GoStrings PollSchedule PollWindow Types FeedStore WebhookStore EntryStore Tables FilterStore Catalog CatalogSpec Reading ReadingSpec.
From S2P Require Import NetIP SsrfGuard UserStore ApiAuth LibraryPolls CatalogApi CatalogApiSpec UiAuth Pages.
From S2P Require ClientIP Search Refresher RefresherSpec.

(** * Guards *)

(** A request behind a guard runs the handler for the session's user, or answers by itself; what is no account is left alone
    by the guard. *)
Lemma page_guarded_cases {St R} api_of put_api redirect (refuse : R) uri g u (next : Z → UiRequest → option Principal → St → St * R) now r st :
  g ≠ GPublic → let out := page_guarded api_of put_api redirect refuse uri g u next now r st in
  (∃ db resp, out = (put_api (with_db (api_of st) db) st, resp) ∧ (resp = refuse ∨ ∃ loc, resp = redirect loc)) ∨
  ∃ p db, by_cookie now (api_users (api_of st)) (ur_api r) p ∧ out = next now r (Some p) (put_api (with_db (api_of st) db) st) ∧
    (g = GEditor → RoleAtLeast (p_Role p) RoleEditor = true).
Proof.
  intros N. unfold page_guarded. pose proof (authenticate_cookie u now (api_users (api_of st)) r) as A.
  destruct (authenticate _ _ _ _) as [db [[p sid]|]]; [destruct A as (_ & B & _)|].
  2: { left. exists db. destruct g; [done|eauto 8..]. }
  cbv zeta.
  destruct g; [done|..].
  - right. by exists p, db.
  - destruct (String.eqb _ _ || _) eqn:Q; [|left; eauto 8]. right. by exists p, db.
  - destruct (String.eqb _ _ || _) eqn:Q; [|left; eauto 8]. right. by exists p, db.
Qed.

(** * Folding entries into hashes *)

Section Collapse.
Context (dedup_key : string → string) (fdb : FeedDb) (hdb : HookDb).

(** A full batch takes something away. *)
Lemma collapse_batch_shrinks db p : let '(db', n) := collapseEntriesBatch dedup_key fdb hdb db p in
  Z.of_nat collapseEntriesBatchSize <= n → (size (ed_entries db') < size (ed_entries db))%nat.
Proof.
  unfold collapseEntriesBatch. set (m := filter _ (ed_entries db)). set (rows := take _ _).
  destruct rows as [|[i x] rest] eqn:E; [cbn; unfold collapseEntriesBatchSize; lia|]. intros _.
  assert (L : ed_entries db !! i = Some x).
  { assert (In : (i, x) ∈ rows) by (rewrite E; left). apply (sublist_subseteq _ _ (sublist_take _ _)), elem_of_map_to_list in In.
    by apply map_lookup_filter_Some in In as [? _]. }
  cbn [keep_hashes with_dedup delete_entries ed_entries]. apply map_subset_size. split; [apply map_filter_subseteq|].
  intros S. pose proof (lookup_weaken _ _ _ _ L S) as [_ N]%map_lookup_filter_Some. apply N. cbn. by left.
Qed.

Lemma collapse_loop_ends fuel db p total : (size (ed_entries db) < fuel)%nat →
  is_Some (collapse_loop dedup_key fuel fdb hdb db p total).
Proof.
  revert db total. induction fuel as [|fuel IH]; intros db total F; [lia|]. cbn [collapse_loop].
  pose proof (collapse_batch_shrinks db p) as S. destruct (collapseEntriesBatch _ _ _ _ _) as [db' n].
  destruct (Z.ltb_spec n (Z.of_nat collapseEntriesBatchSize)); [by eauto|]. apply IH. specialize (S ltac:(lia)). lia.
Qed.

Lemma collapse_loop_wf fuel db p total db' n : tables_wf hdb (fdb, db) → collapse_loop dedup_key fuel fdb hdb db p total = Some (db', n) →
  tables_wf hdb (fdb, db').
Proof.
  revert db total. induction fuel as [|fuel IH]; intros db total W; [done|]. cbn [collapse_loop]. unfold collapseEntriesBatch.
  case_match; [intros [= <- _]|intros H0; refine (IH _ _ _ H0)]; by apply wf_delete_entries.
Qed.
End Collapse.

(** The bound on the batches is enough: folding always ends. *)
Lemma collapse_ends dedup_key k p :
  is_Some (CollapseEntriesToHashes dedup_key (S (size (ed_entries (ct_entries k)))) (ct_feeds k) (ct_hooks k) (ct_entries k) p).
Proof.
  unfold CollapseEntriesToHashes. destruct (_ && _); [by eauto|].
  destruct (collapse_loop_ends dedup_key (ct_feeds k) (ct_hooks k) (S (size (ed_entries (ct_entries k)))) (ct_entries k) p 0 ltac:(lia)) as [[db n] ->].
  by eexists.
Qed.

(** * Pages as library steps *)

Section Steps.
Context (title_key dedup_key : string → string).
Context {env : Refresher.Env} (poll_clock : Z → Z * Z).

(** A step of the library, the folding of entries into hashes, or a poll of a feed by the refresher as [w] has it. *)
Inductive page_op := PLib (op : lib_op) | PCollapse (p : CollapseEntriesParams) | PPoll (id : Z) (w : Refresher.World).

Definition reader_page_op (u : Z) (op : page_op) : bool := match op with PLib op => reader_step u op | _ => false end.

Notation run := (run_lib_op title_key dedup_key).

Definition run_page_op (c : Catalog) (op : page_op) : Catalog :=
  match op with
  | PLib op => run c op
  | PCollapse p =>
      match CollapseEntriesToHashes dedup_key (S (size (ed_entries (ct_entries c)))) (ct_feeds c) (ct_hooks c) (ct_entries c) p with
      | Some (db, _) => with_tables c (ct_feeds c, db)
      | None => c
      end
  | PPoll id w => refreshed poll_clock c (id, w)
  end.

Lemma wf_run_page_op op c : catalog_wf title_key c → catalog_wf title_key (run_page_op c op).
Proof.
  intros W. destruct op as [op|p|id w]; [by apply wf_run_lib_op| |by apply (refresh_feed_ok title_key poll_clock id w c)].
  cbn [run_page_op]. unfold CollapseEntriesToHashes.
  destruct (_ && _); [apply (wf_entries _ _ (tables c)); [done|apply W|done]|].
  destruct (collapse_loop _ _ _ _ _ _ _) as [[db n]|] eqn:E; [|done]. apply (wf_entries _ _ (ct_feeds c, db)); [done| |done].
  eapply collapse_loop_wf; [|exact E]. apply W.
Qed.

Lemma wf_run_page_ops ops c : catalog_wf title_key c → catalog_wf title_key (fold_left run_page_op ops c).
Proof. revert c. induction ops as [|op ops IH]; intros c W; [done|]. apply IH. by apply wf_run_page_op. Qed.

(** The library went through steps that the user [u] may make, who is an editor if [ed]. *)
Definition page_steps (u : Z) (ed : bool) (c c' : Catalog) : Prop :=
  ∃ ops, c' = fold_left run_page_op ops c ∧ (ed = true ∨ forallb (reader_page_op u) ops = true).

Lemma page_steps_none u ed c : page_steps u ed c c.
Proof. exists []. split; [done|by right]. Qed.
Lemma page_steps_one u ed c op : ed = true ∨ reader_page_op u op = true → page_steps u ed c (run_page_op c op).
Proof. intros H. exists [op]. split; [done|]. cbn [forallb]. rewrite andb_true_r. exact H. Qed.
Lemma page_steps_trans u ed a b c : page_steps u ed a b → page_steps u ed b c → page_steps u ed a c.
Proof.
  intros (o1 & -> & H1) (o2 & -> & H2). exists (o1 ++ o2). split; [by rewrite fold_left_app|]. rewrite forallb_app, andb_true_iff. tauto.
Qed.
Lemma page_steps_own u ed c c' : page_steps u false c c' → page_steps u ed c c'.
Proof. intros (ops & E & [[=]|H]). exists ops. auto. Qed.

Lemma reader_page_ops_untouched u ops c : catalog_wf title_key c → forallb (reader_page_op u) ops = true → untouched u c (fold_left run_page_op ops c).
Proof.
  revert c. induction ops as [|op ops IH]; intros c W R; [apply untouched_refl|]. cbn [forallb] in R. apply andb_true_iff in R as [R1 R2].
  cbn [fold_left]. eapply untouched_trans; [|apply IH; [by apply wf_run_page_op|done]].
  destruct op as [op| |]; [|done..]. by apply reader_step_untouched.
Qed.

Section Requests.
Context (url_parse : string → option (string * string)) (drop_flash : string → string) (request_uri : string → string → string).
Context (hmac64 : string → string → string) (format_day : Z → string) (referer : UiRequest → string) (isHX : UiRequest → bool).
Context (validateFeedURL : string → option string) (DetectFeedTypeFromURL : string → string)
        (ValidateBridgeFeedURL : string → string → option string) (discover : option Discover).
Context (decode_override : string → BridgeOverride) (encode_override : BridgeOverride → string).
Context (url_host_port : string → option (string * string)) (lookup : string → option (list string)) (newInboundSecret : Z → string * string).
Context (poller : Refresher.World).
Context (c : PServer) (now : Z) (r : UiRequest) (p : option Principal) (st : CState).

Notation own h := (page_steps (ui_me p) false (cx_cat st) (cx_cat (h c now r p st).1)).
Notation edits h := (page_steps (ui_me p) true (cx_cat st) (cx_cat (h c now r p st).1)).

Ltac stay := apply page_steps_none.
(** Past the form token and the number in the path. *)
Ltac enter := destruct (negb (validateCSRF _ _ _ _ _)); [stay|].
Ltac numbered x := destruct (ui_parse_id x) as [id'|]; [|stay].

(** A step of the caller's own reading, and a step of an editor. *)
Lemma own_step op : reader_step (ui_me p) op = true → page_steps (ui_me p) false (cx_cat st) (run (cx_cat st) op).
Proof. intros H. apply (page_steps_one (ui_me p) false (cx_cat st) (PLib op)). by right. Qed.
Lemma edit_step k op : page_steps (ui_me p) true k (run k op).
Proof. apply (page_steps_one (ui_me p) true k (PLib op)). by left. Qed.

Lemma own_Subscribe id : own (handleSubscribe url_parse drop_flash request_uri hmac64 format_day referer id).
Proof.
  unfold handleSubscribe. enter. destruct (negb _); [stay|]. numbered id.
  pose proof (own_step (LCatalog (OpSubscribe (ui_me p) id' None)) (Z.eqb_refl _)) as H. cbn [run_lib_op run_cat_op lift_tx] in H.
  cbv zeta. destruct (Subscribe _ _ _ _ _) as [t [e|s]]; [stay|exact H].
Qed.
Lemma own_Unsubscribe id : own (handleUnsubscribe url_parse drop_flash request_uri hmac64 format_day referer id).
Proof.
  unfold handleUnsubscribe. enter. destruct (negb _); [stay|]. numbered id.
  pose proof (own_step (LCatalog (OpUnsubscribe (ui_me p) id')) (Z.eqb_refl _)) as H. cbn [run_lib_op run_cat_op lift_tx] in H.
  cbv zeta. destruct (Unsubscribe _ _ _) as [t [e|[]]]; [stay|exact H].
Qed.
Lemma own_Follow id : own (handleCategoryFollow url_parse drop_flash request_uri hmac64 format_day referer id).
Proof.
  unfold handleCategoryFollow. enter. numbered id.
  pose proof (own_step (LCatalog (OpFollow (ui_me p) id')) (Z.eqb_refl _)) as H. cbn [run_lib_op run_cat_op] in H.
  cbv zeta. destruct (FollowCategory _ _ _) as [k [e|n]]; exact H.
Qed.
Lemma own_Unfollow id : own (handleCategoryUnfollow url_parse drop_flash request_uri hmac64 format_day referer id).
Proof.
  unfold handleCategoryUnfollow. enter. numbered id.
  pose proof (own_step (LCatalog (OpUnfollow (ui_me p) id')) (Z.eqb_refl _)) as H. cbn [run_lib_op run_cat_op] in H.
  cbv zeta. destruct (UnfollowCategory _ _ _) as [k [e|n]]; exact H.
Qed.
Lemma own_CategoryRead id : own (handleCategoryMarkRead hmac64 format_day id).
Proof.
  unfold handleCategoryMarkRead. enter. numbered id.
  pose proof (own_step (LCategoryRead (ui_me p) id') (Z.eqb_refl _)) as H. cbn [run_lib_op] in H.
  cbv zeta. destruct (MarkAllCategoryEntriesRead _ _ _) as [db [e|n]]; [stay|exact H].
Qed.
Lemma own_FeedRead id : own (handleFeedMarkRead hmac64 format_day id).
Proof.
  unfold handleFeedMarkRead. enter. numbered id.
  pose proof (own_step (LFeedRead (ui_me p) id') (Z.eqb_refl _)) as H. cbn [run_lib_op] in H.
  cbv zeta. destruct (MarkAllFeedEntriesRead _ _ _) as [db [e|n]]; [stay|exact H].
Qed.
Lemma own_LabelRead labels id : own (handleLabelMarkRead hmac64 format_day labels id).
Proof.
  unfold handleLabelMarkRead. enter. numbered id.
  pose proof (own_step (LLabelRead labels (ui_me p) id') (Z.eqb_refl _)) as H. cbn [run_lib_op] in H.
  cbv zeta. destruct (MarkAllLabelEntriesRead _ _ _ _) as [db [e|n]]; [stay|exact H].
Qed.
Lemma own_UnreadRead : own (handleUnreadMarkRead url_parse drop_flash request_uri hmac64 format_day referer).
Proof. unfold handleUnreadMarkRead. enter. apply (own_step (LAllRead (ui_me p)) (Z.eqb_refl _)). Qed.

Lemma own_mark id x : page_steps (ui_me p) false (cx_cat st) (cx_cat (mark_entry id (ui_me p) x st).1).
Proof.
  unfold mark_entry. pose proof (own_step (LBulk (ui_me p) [id] x) (Z.eqb_refl _)) as H. cbn [run_lib_op] in H.
  destruct (BulkUpdateEntries _ _ _ _) as [t [e|n]]; [stay|exact H].
Qed.
Lemma own_EntryRead id : own (handleEntryRead url_parse drop_flash request_uri hmac64 format_day referer isHX id).
Proof.
  unfold handleEntryRead. enter. numbered id. pose proof (own_mark id' (mkBulkEntry (Some EntryStatusRead) None)) as H.
  by destruct (mark_entry _ _ _ _) as [st' [e|]].
Qed.
Lemma own_EntryStar id : own (handleEntryStar url_parse drop_flash request_uri hmac64 format_day referer id).
Proof.
  unfold handleEntryStar. enter. numbered id. pose proof (own_mark id' (mkBulkEntry None (Some (String.eqb (FormValue r "starred") "1")))) as H.
  by destruct (mark_entry _ _ _ _) as [st' [e|]].
Qed.
Lemma own_EntriesBulk : own (handleEntriesBulk url_parse drop_flash request_uri hmac64 format_day referer).
Proof.
  unfold handleEntriesBulk. enter. cbv zeta. destruct (_ || _); [stay|]. destruct (parse_ids _) as [ids|]; [|stay]. destruct (bulk_action _) as [x|]; [|stay].
  pose proof (own_step (LBulk (ui_me p) ids x) (Z.eqb_refl _)) as H. cbn [run_lib_op] in H.
  destruct (BulkUpdateEntries _ _ _ _) as [t [e|n]]; [stay|exact H].
Qed.

(** ** Editors *)

Lemma steps_hours k cat hours : page_steps (ui_me p) true k (saveCategoryPollHours c now r cat hours k).1.
Proof.
  unfold saveCategoryPollHours. destruct (_ || _); [stay|]. pose proof (edit_step k (LHours now cat hours)) as H. cbn [run_lib_op] in H.
  destruct (SetCategoryPollHours _ _ _ _) as [fdb [e|]]; [stay|exact H].
Qed.

Lemma edits_CategoryCreate : edits (handleCategoryCreate url_parse drop_flash request_uri hmac64 format_day referer title_key).
Proof.
  unfold handleCategoryCreate. enter. cbv zeta. destruct (String.eqb _ _); [stay|]. destruct (NormalizePollHours _) as [hours|]; [|stay].
  set (title := trim_space _). set (color := trim_space _). pose proof (edit_step (cx_cat st) (LCatalog (OpCreateCategory title color))) as H.
  cbn [run_lib_op run_cat_op] in H. destruct (CreateCategory _ _ _ _) as [k [e|x]]; [exact H|]. cbn [fst] in H.
  pose proof (steps_hours k (c_ID x) hours) as S. destruct (saveCategoryPollHours _ _ _ _ _ _) as [k' []]; exact (page_steps_trans _ _ _ _ _ H S).
Qed.

Lemma edits_CategoryUpdate id : edits (handleCategoryUpdate hmac64 format_day title_key id).
Proof.
  unfold handleCategoryUpdate. enter. numbered id. cbv zeta. destruct (String.eqb _ _); [stay|]. destruct (NormalizePollHours _) as [hours|]; [|stay].
  set (title := trim_space _). set (color := trim_space _). pose proof (edit_step (cx_cat st) (LCatalog (OpUpdateCategory id' title color))) as H.
  cbn [run_lib_op run_cat_op] in H. destruct (UpdateCategory _ _ _ _ _) as [k [e|x]]; [exact H|]. cbn [fst] in H.
  pose proof (steps_hours k id' hours) as S. destruct (saveCategoryPollHours _ _ _ _ _ _) as [k' []]; exact (page_steps_trans _ _ _ _ _ H S).
Qed.

Lemma edits_CategoryDelete id : edits (handleCategoryDelete url_parse drop_flash request_uri hmac64 format_day referer id).
Proof.
  unfold handleCategoryDelete. enter. numbered id. cbv zeta. pose proof (edit_step (cx_cat st) (LCatalog (OpDeleteCategory id'))) as H.
  cbn [run_lib_op run_cat_op] in H. destruct (DeleteCategory _ _) as [k [e|]]; exact H.
Qed.

Lemma edits_Reorder : edits (handleCategoryReorder hmac64 format_day).
Proof.
  unfold handleCategoryReorder. enter. destruct (parse_order _) as [[|i ids]|]; [stay| |stay].
  pose proof (edit_step (cx_cat st) (LCatalog (OpReorder (i :: ids)))) as H.
  cbn [run_lib_op run_cat_op] in H. destruct (ReorderCategories _ _) as [k [e|]]; exact H.
Qed.

Lemma steps_reschedule k id interval : page_steps (ui_me p) true k (RescheduleFeed c now id interval k).
Proof.
  unfold RescheduleFeed. destruct (sc_refresher (pv_c c)) as [[min max]|]; [|stay].
  exact (edit_step k (LReschedule id (FeedNextCheckAt now interval min max))).
Qed.

Lemma steps_collapse u feed cat only k : page_steps (ui_me p) true k (collapseEntries dedup_key c u feed cat only k).1.
Proof.
  unfold collapseEntries. destruct (negb _); [stay|].
  pose proof (page_steps_one (ui_me p) true k (PCollapse (mkCollapse u feed cat only true)) (or_introl eq_refl)) as H. cbn [run_page_op] in H.
  destruct (CollapseEntriesToHashes _ _ _ _ _ _) as [[db res]|]; exact H.
Qed.

Lemma edits_bulk what id parse after : (∀ u cat ids k, page_steps (ui_me p) true k (after c now r u cat ids k)) →
  edits (bulk hmac64 format_day what id parse after).
Proof.
  intros A. unfold bulk. enter. destruct (parseCategoryPathID id) as [|cat]; [stay|]. destruct (parse r cat) as [|u]; [stay|].
  pose proof (edit_step (cx_cat st) (LCatalog (OpBulk (ui_me p) cat u))) as H. cbn [run_lib_op run_cat_op] in H.
  destruct (BulkUpdateFeedsByCategory _ _ _ _) as [k [e|[ids n]]]; [exact H|]. exact (page_steps_trans _ _ _ _ _ H (A _ _ _ _)).
Qed.

Lemma edits_BulkInterval id : edits (handleCategoryBulkInterval hmac64 format_day id).
Proof.
  unfold handleCategoryBulkInterval. cbv zeta. apply edits_bulk. intros u cat ids k. set (n := default 0 _). revert k.
  induction ids as [|f ids IH]; intros k; [stay|]. cbn [foldl]. eapply page_steps_trans; [apply steps_reschedule|apply IH].
Qed.
Lemma edits_BulkStoreMode id : edits (handleCategoryBulkStoreMode hmac64 format_day dedup_key id).
Proof. unfold handleCategoryBulkStoreMode. apply edits_bulk. intros u cat ids k. destruct (_ || _); [stay|apply steps_collapse]. Qed.

Lemma edits_BulkHash id : edits (handleCategoryBulkHashEntries hmac64 format_day dedup_key id).
Proof.
  unfold handleCategoryBulkHashEntries. enter. destruct (parseCategoryPathID id) as [|cat]; [stay|].
  pose proof (steps_collapse (ui_me p) None (Some cat) true (cx_cat st)) as H. destruct (collapseEntries _ _ _ _ _ _ _) as [k [e|n]]; exact H.
Qed.

Lemma edits_BulkRefresh id : edits (handleCategoryBulkRefresh hmac64 format_day poller poll_clock id).
Proof.
  unfold handleCategoryBulkRefresh. enter. destruct (parseCategoryPathID id) as [|cat]; [stay|]. cbv zeta. set (ids := feedIDsInCategory _ _).
  destruct (sc_refresher _) as [b|]; [|stay]. destruct (refresh_each_runs poll_clock ids poller (cx_cat st)) as (runs & H & _).
  destruct (on_catalog _ _ _) as [k n]. cbn [fst with_cat cx_cat] in *. subst k.
  exists ((λ x, PPoll x.1 x.2) <$> runs). split; [|by left]. generalize (cx_cat st). clear. induction runs as [|[id w] runs IH]; intros k; [done|]. apply IH.
Qed.

(** A poll of a feed of the catalogue, which is anybody's. *)
Definition page_poll (u : Z) (k k' : Catalog) : Prop := ∃ id v, catalogFeed k u id = inr v ∧ k' = refreshed poll_clock k (id, poller).

Lemma polls_FeedRefresh id : let k := cx_cat (handleFeedRefresh url_parse drop_flash request_uri hmac64 format_day referer poller poll_clock id c now r p st).1 in
  k = cx_cat st ∨ page_poll (ui_me p) (cx_cat st) k.
Proof.
  unfold handleFeedRefresh. destruct (negb _); [by left|]. destruct (ui_parse_id id) as [n|]; [|by left].
  destruct (catalogFeed _ _ _) as [|v] eqn:V; [by left|]. cbv zeta. destruct (sc_refresher _) as [b|]; [|by left]. right. exists n, v. split; [done|].
  unfold refreshed. cbn [fst snd]. by destruct (on_catalog _ _ _) as [k [e|i]].
Qed.

Lemma edits_FeedCreate : edits (handleFeedCreate hmac64 format_day validateFeedURL DetectFeedTypeFromURL ValidateBridgeFeedURL discover
  decode_override encode_override url_host_port lookup).
Proof.
  unfold handleFeedCreate. enter. destruct (feedParamsFromForm r) as [|q]; [stay|]. destruct (validateFeedURL _); [stay|].
  destruct (negb _); [stay|]. destruct (create_params _ _ _ _ _ _ _ _ _ _ _) as [|params]; [stay|].
  pose proof (edit_step (cx_cat st) (LCatalog (OpCreateFeed now (ui_me p) params))) as H. cbn [run_lib_op run_cat_op] in H.
  destruct (CreateFeed _ _ _ _) as [k [e|v]]; cbn [fst] in H; [|exact H]. destruct (_ && _); [|exact H].
  pose proof (edit_step k (LCatalog (OpSubscribeByURL (ui_me p) (cp_FeedURL params) (cp_WebhookID params)))) as H2. cbn [run_lib_op run_cat_op] in H2.
  destruct (SubscribeByURL _ _ _ _) as [k2 [e2|v]]; exact (page_steps_trans _ _ _ _ _ H H2).
Qed.

Lemma edits_FeedUpdate id : edits (handleFeedUpdate hmac64 format_day DetectFeedTypeFromURL decode_override encode_override url_host_port lookup id).
Proof.
  unfold handleFeedUpdate. enter. numbered id. destruct (feedParamsFromForm r) as [|q]; [stay|]. destruct (negb _); [stay|]. cbv zeta.
  match goal with |- context [match ?x with inl e => (st, PError 422 e) | inr _ => _ end] => destruct x as [|state]; [stay|] end.
  pose proof (edit_step (cx_cat st) (LCatalog (OpUpdateFeed (ui_me p) (page_update id' q state)))) as H. cbn [run_lib_op run_cat_op] in H.
  destruct (UpdateFeed _ _ _) as [k [e|v]]; cbn [fst] in H; [exact H|].
  match goal with |- page_steps _ _ _ (cx_cat (paudit _ _ _ _ _ _ (with_cat st ?k2), _).1) => enough (S : page_steps (ui_me p) true k k2) by exact (page_steps_trans _ _ _ _ _ H S) end.
  destruct (String.eqb _ _); [stay|apply steps_reschedule].
Qed.

Lemma edits_FeedDelete id : edits (handleFeedDelete hmac64 format_day id).
Proof.
  unfold handleFeedDelete. enter. numbered id. pose proof (edit_step (cx_cat st) (LCatalog (OpDeleteFeed (ui_me p) id'))) as H.
  cbn [run_lib_op run_cat_op] in H. destruct (DeleteFeed _ _ _) as [k [e|]]; exact H.
Qed.

Lemma edits_InboundCreate : edits (handleInboundFeedCreate hmac64 format_day newInboundSecret).
Proof.
  unfold handleInboundFeedCreate. enter. cbv zeta. destruct (String.eqb _ _); [stay|]. destruct (parseEntryRetentionDays _) as [|ret]; [stay|].
  match goal with |- context [match ?x with Some _ => _ | None => (st, PError 400 interval_bounds) end] => destruct x as [interval|]; [|stay] end.
  destruct (negb _); [stay|]. destruct (newInboundSecret now) as [secret address]. set (q := mkCreateInbound _ _ _ _ _).
  pose proof (edit_step (cx_cat st) (LCatalog (OpCreateInbound now secret address (ui_me p) q))) as H.
  cbn [run_lib_op run_cat_op] in H. destruct (CreateInboundFeed _ _ _ _ _ _) as [k [e|[v s]]]; exact H.
Qed.

Lemma edits_Rotate id : edits (handleInboundSecretRotate hmac64 format_day newInboundSecret id).
Proof.
  unfold handleInboundSecretRotate. enter. numbered id. pose proof (edit_step (cx_cat st) (LCatalog (OpRotate (newInboundSecret now).1 id'))) as H.
  cbn [run_lib_op run_cat_op] in H. destruct (RotateInboundSecret _ _ _) as [k [e|s]]; exact H.
Qed.

(** ** Every page *)

Notation handle := (page_handle url_parse drop_flash request_uri hmac64 format_day referer isHX validateFeedURL DetectFeedTypeFromURL
  ValidateBridgeFeedURL discover decode_override encode_override url_host_port lookup newInboundSecret title_key dedup_key poller poll_clock).

Definition editor_pages : list string :=
  ["handleCategoryCreate"; "handleCategoryUpdate"; "handleCategoryDelete"; "handleCategoryReorder"; "handleCategoryBulkInterval";
   "handleCategoryBulkWebhook"; "handleCategoryBulkStoreMode"; "handleCategoryBulkAdaptive"; "handleCategoryBulkPause"; "handleCategoryBulkMove";
   "handleCategoryBulkHashEntries"; "handleCategoryBulkRefresh"; "handleFeedCreate"; "handleFeedUpdate"; "handleFeedDelete"; "handleInboundFeedCreate";
   "handleInboundSecretRotate"]%string.
Definition own_pages : list string :=
  ["handleSubscribe"; "handleUnsubscribe"; "handleCategoryFollow"; "handleCategoryUnfollow"; "handleCategoryMarkRead"; "handleFeedMarkRead";
   "handleUnreadMarkRead"; "handleEntryRead"; "handleEntryStar"; "handleEntriesBulk"; "handleLabelMarkRead"]%string.
Definition poll_page : string := "handleFeedRefresh".

(** One page of the table; it is the caller's own, or an editor's. *)
Ltac page_case n :=
  match goal with |- context [if String.eqb (ro_handler ?e) n then _ else _] =>
    let E := fresh in destruct (String.eqb (ro_handler e) n) eqn:E; [apply String.eqb_eq in E; rewrite E|clear E] end.
Ltac mine := right; left; split; [by apply (bool_decide_unpack _); vm_compute|].
Ltac theirs := left; split; [by apply (bool_decide_unpack _); vm_compute|].

Lemma page_handle_steps labels e :
  let k := cx_cat (handle labels e c now r p st).1 in
  (ro_handler e ∈ editor_pages ∧ page_steps (ui_me p) true (cx_cat st) k) ∨
  (ro_handler e ∈ own_pages ∧ page_steps (ui_me p) false (cx_cat st) k) ∨
  (ro_handler e = poll_page ∧ page_poll (ui_me p) (cx_cat st) k) ∨ k = cx_cat st.
Proof.
  unfold page_handle. cbv zeta.
  page_case "handleSubscribe"%string; [mine; apply own_Subscribe|].
  page_case "handleUnsubscribe"%string; [mine; apply own_Unsubscribe|].
  page_case "handleCategoryFollow"%string; [mine; apply own_Follow|].
  page_case "handleCategoryUnfollow"%string; [mine; apply own_Unfollow|].
  page_case "handleCategoryCreate"%string; [theirs; apply edits_CategoryCreate|].
  page_case "handleCategoryUpdate"%string; [theirs; apply edits_CategoryUpdate|].
  page_case "handleCategoryDelete"%string; [theirs; apply edits_CategoryDelete|].
  page_case "handleCategoryReorder"%string; [theirs; apply edits_Reorder|].
  page_case "handleCategoryMarkRead"%string; [mine; apply own_CategoryRead|].
  page_case "handleCategoryBulkInterval"%string; [theirs; apply edits_BulkInterval|].
  page_case "handleCategoryBulkWebhook"%string; [theirs; apply edits_bulk; intros; stay|].
  page_case "handleCategoryBulkStoreMode"%string; [theirs; apply edits_BulkStoreMode|].
  page_case "handleCategoryBulkAdaptive"%string; [theirs; apply edits_bulk; intros; stay|].
  page_case "handleCategoryBulkPause"%string; [theirs; apply edits_bulk; intros; stay|].
  page_case "handleCategoryBulkMove"%string; [theirs; apply edits_bulk; intros; stay|].
  page_case "handleCategoryBulkHashEntries"%string; [theirs; apply edits_BulkHash|].
  page_case "handleCategoryBulkRefresh"%string; [theirs; apply edits_BulkRefresh|].
  page_case "handleFeedRefresh"%string.
  { destruct (polls_FeedRefresh (path_value (pat_segs (ro_pattern e)) (q_segs (ur_api r)) "id"%string)) as [Q|Q]; [by do 3 right|by do 2 right; left]. }
  page_case "handleFeedCreate"%string; [theirs; apply edits_FeedCreate|].
  page_case "handleFeedUpdate"%string; [theirs; apply edits_FeedUpdate|].
  page_case "handleFeedDelete"%string; [theirs; apply edits_FeedDelete|].
  page_case "handleFeedMarkRead"%string; [mine; apply own_FeedRead|].
  page_case "handleInboundFeedCreate"%string; [theirs; apply edits_InboundCreate|].
  page_case "handleInboundSecretRotate"%string; [theirs; apply edits_Rotate|].
  page_case "handleUnreadMarkRead"%string; [mine; apply own_UnreadRead|].
  page_case "handleEntryRead"%string; [mine; apply own_EntryRead|].
  page_case "handleEntryStar"%string; [mine; apply own_EntryStar|].
  page_case "handleEntriesBulk"%string; [mine; apply own_EntriesBulk|].
  page_case "handleLabelMarkRead"%string; [mine; apply own_LabelRead|]. by do 3 right.
Qed.

Lemma bulk_token what id parse after : validateCSRF hmac64 format_day (pv_ui c) now r = false →
  (bulk hmac64 format_day what id parse after c now r p st).1 = st.
Proof. intros V. unfold bulk. by rewrite V. Qed.

(** Without the form token nothing happens. *)
Lemma page_handle_token labels e : validateCSRF hmac64 format_day (pv_ui c) now r = false → (handle labels e c now r p st).1 = st.
Proof.
  intros V. unfold page_handle. cbv zeta.
  repeat match goal with |- context [if String.eqb (ro_handler e) ?n then _ else _] => destruct (String.eqb (ro_handler e) n);
    [first [by apply bulk_token
      |cbv [handleSubscribe handleUnsubscribe handleCategoryFollow handleCategoryUnfollow handleCategoryCreate handleCategoryUpdate
              handleCategoryDelete handleCategoryReorder handleCategoryMarkRead handleCategoryBulkHashEntries handleCategoryBulkRefresh handleFeedRefresh handleFeedCreate handleFeedUpdate
              handleFeedDelete handleFeedMarkRead handleInboundFeedCreate handleInboundSecretRotate handleUnreadMarkRead handleEntryRead
              handleEntryStar handleEntriesBulk handleLabelMarkRead]; by rewrite V]|] end.
  done.
Qed.
End Requests.

(** ** Requests *)

#[export] Instance guard_eq_dec : EqDecision guard.
Proof. solve_decision. Defined.

(** The pages that change something answer POST only, behind a session, and those that edit behind the role. *)
Definition page_guard (e : UiRoute) : bool :=
  (if bool_decide (ro_handler e ∈ editor_pages) then match ro_guard e with GEditor => String.eqb (ro_method e) "POST" | _ => false end else true) &&
  (if bool_decide (ro_handler e ∈ poll_page :: own_pages) then match ro_guard e with GAuth => String.eqb (ro_method e) "POST" | _ => false end else true).

Lemma page_routes b e : e ∈ ui_routes b → page_guard e = true.
Proof.
  intros H. assert (forallb page_guard (ui_routes b) = true) as F by (destruct b; vm_compute; reflexivity).
  rewrite forallb_forall in F. apply F. by apply list_elem_of_In.
Qed.

Section Request.
Context (url_parse : string → option (string * string)) (drop_flash : string → string) (request_uri : string → string → string).
Context (hmac64 : string → string → string) (format_day : Z → string) (referer : UiRequest → string) (isHX : UiRequest → bool).
Context (validateFeedURL : string → option string) (DetectFeedTypeFromURL : string → string)
        (ValidateBridgeFeedURL : string → string → option string) (discover : option Discover).
Context (decode_override : string → BridgeOverride) (encode_override : BridgeOverride → string).
Context (url_host_port : string → option (string * string)) (lookup : string → option (list string)) (newInboundSecret : Z → string * string).
Context (uri : UiRequest → string) (poller : Refresher.World).
Notation handle := (page_handle url_parse drop_flash request_uri hmac64 format_day referer isHX validateFeedURL DetectFeedTypeFromURL
  ValidateBridgeFeedURL discover decode_override encode_override url_host_port lookup newInboundSecret title_key dedup_key poller poll_clock).

(** The pages of the library; those about accounts, filters, webhooks, imports and administration have files of their
    own or show only. *)
Definition library_page (c : PServer) (r : UiRequest) : Prop :=
  ∀ e, ui_route (ui_InboundFeeds (pv_ui c)) (q_method (ur_api r)) (q_segs (ur_api r)) = Some e →
    ro_handler e ∈ editor_pages ++ own_pages ++ [poll_page].

(** C21: the pages change the library for the same callers as the API does.  Take a request to a page of the library
    (subscriptions, categories, feeds, entries, reading, refreshing: [library_page]).  If it leaves a different
    library behind, it is a POST with the form token of its session, the session is alive, and the change is a sequence of
    library steps (or the folding of entries into hashes, or polls) that keeps the tables consistent.  Unless the session's
    user is an editor, either every step is that user's own reading, and feeds, categories, entries and everybody else's
    reading stay; or the request refreshes one feed of the catalogue, which is open to everybody signed in: then it is a
    single poll of that feed, which touches no other feed, no subscription, category or webhook, and forgets no item. *)
Theorem page_changes_authorized (labels : FilterDb) (c : PServer) (now : Z) (r : UiRequest) (st : CState)
  (W : catalog_wf title_key (cx_cat st)) (L : library_page c r) :
  let st' := (page_request url_parse drop_flash request_uri hmac64 format_day referer isHX validateFeedURL DetectFeedTypeFromURL
    ValidateBridgeFeedURL discover decode_override encode_override url_host_port lookup newInboundSecret title_key dedup_key
    poller poll_clock uri labels c now r st).1 in
  cx_cat st' ≠ cx_cat st →
  q_method (ur_api r) = "POST" ∧ validateCSRF hmac64 format_day (pv_ui c) now r = true ∧ catalog_wf title_key (cx_cat st') ∧
  ∃ p, by_cookie now (api_users (cx_api st)) (ur_api r) p ∧ ∃ ops, cx_cat st' = fold_left run_page_op ops (cx_cat st) ∧
    (RoleAtLeast (p_Role p) RoleEditor = true ∨
     (forallb (reader_page_op (p_UserID p)) ops = true ∧ untouched (p_UserID p) (cx_cat st) (cx_cat st')) ∨
     ∃ id v, catalogFeed (cx_cat st) (p_UserID p) id = inr v ∧ ops = [PPoll id poller] ∧ polled id (cx_cat st) (cx_cat st')).
Proof.
  cbv zeta. unfold page_request. destruct (ui_route _ _ _) as [e|] eqn:R; [|done]. intros N.
  apply ui_route_spec in R as [Hin HM]. pose proof (page_routes _ _ Hin) as G. unfold page_guard in G. apply andb_prop in G as [G1 G2].
  assert (Work : ∀ p s1, cx_cat s1 = cx_cat st → cx_cat (handle labels e c now r p s1).1 ≠ cx_cat st →
    validateCSRF hmac64 format_day (pv_ui c) now r = true ∧ let k := cx_cat (handle labels e c now r p s1).1 in ro_method e = "POST"%string ∧
    (ro_guard e = GEditor ∧ page_steps (ui_me p) true (cx_cat st) k ∨
     ro_guard e = GAuth ∧ (page_steps (ui_me p) false (cx_cat st) k ∨ page_poll poller (ui_me p) (cx_cat st) k))).
  { intros p s1 E D. split.
    - destruct (validateCSRF _ _ _ _ _) eqn:V; [done|]. rewrite page_handle_token in D by done. done.
    - cbv zeta. pose proof (page_handle_steps url_parse drop_flash request_uri hmac64 format_day referer isHX validateFeedURL DetectFeedTypeFromURL
        ValidateBridgeFeedURL discover decode_override encode_override url_host_port lookup newInboundSecret poller c now r p s1 labels e) as P. rewrite <-E in D |- *.
      destruct P as [[M P]|[[M P]|[[M P]|P]]]; [| | |done].
      + rewrite bool_decide_true in G1 by done. destruct (ro_guard e); try done. apply String.eqb_eq in G1. split; [done|]. by left.
      + rewrite bool_decide_true in G2 by by right. destruct (ro_guard e); try done. apply String.eqb_eq in G2. split; [done|]. by right; split; [|left].
      + rewrite bool_decide_true in G2 by by rewrite M; left. destruct (ro_guard e); try done. apply String.eqb_eq in G2. split; [done|]. by right; split; [|right]. }
  destruct (decide (ro_guard e = GPublic)) as [P|P].
  { rewrite P in N |- *. cbn [page_guarded] in N |- *. destruct (Work None st eq_refl N) as [_ [_ [[Q _]|[Q _]]]]; congruence. }
  destruct (page_guarded_cases cx_api put_accounts PRedirect (PError 403 "forbidden") uri (ro_guard e) (pv_ui c) (handle labels e c) now r st P)
    as [(db & resp & E & _)|(p & db & B & E & Ed)]; [by rewrite E in N|].
  rewrite E in N |- *. destruct (Work (Some p) (put_accounts (with_db (cx_api st) db) st) eq_refl N) as [V [M S]].
  split; [by apply HM|]. split; [done|]. set (k := cx_cat (handle _ _ _ _ _ _ _).1) in *.
  assert (∃ ops, k = fold_left run_page_op ops (cx_cat st) ∧
    (RoleAtLeast (p_Role p) RoleEditor = true ∨ (forallb (reader_page_op (p_UserID p)) ops = true ∧ untouched (p_UserID p) (cx_cat st) k) ∨
     ∃ id v, catalogFeed (cx_cat st) (p_UserID p) id = inr v ∧ ops = [PPoll id poller] ∧ polled id (cx_cat st) k)) as (ops & K & H).
  { destruct S as [(Q & ops & -> & _)|[Q [(ops & -> & [[=]|S])|(id & v & Hv & ->)]]].
    - exists ops. split; [done|]. left. by apply Ed.
    - exists ops. split; [done|]. right; left. split; [done|by apply reader_page_ops_untouched].
    - exists [PPoll id poller]. split; [done|]. right; right. exists id, v. split; [done|]. split; [done|]. by apply (refresh_feed_ok title_key poll_clock id poller). }
  split; [rewrite K; by apply wf_run_page_ops|]. exists p. split; [done|]. by exists ops.
Qed.
End Request.
End Steps.

(** * Saving the form of a feed *)

(** Saving a feed from its page erases its rules.  The form holds no scraper, rewriting, blocking or keeping rules, no
    proxy, crawler or user agent, and the page passes their zero values to a statement that writes every column: whatever
    the API or an import set there is gone after the page is saved, even when nothing was changed on it. *)
Lemma saving_page_drops_rules (hmac64 : string → string → string) (format_day : Z → string) (DetectFeedTypeFromURL : string → string)
  (decode_override : string → BridgeOverride) (encode_override : BridgeOverride → string) (url_host_port : string → option (string * string))
  (lookup : string → option (list string)) (title_key : string → string) (c : PServer) (now : Z) (r : UiRequest) (p : option Principal)
  (st st' : CState) (id loc : string) (W : catalog_wf title_key (cx_cat st))
  (E : handleFeedUpdate hmac64 format_day DetectFeedTypeFromURL decode_override encode_override url_host_port lookup id c now r p st = (st', PRedirect loc)) :
  ∃ n f m, ui_parse_id id = Some n ∧ fd_feeds (ct_feeds (cx_cat st')) !! n = Some f ∧ ct_more (cx_cat st') !! n = Some m ∧
    f_rewrite_rules f = "" ∧ f_blocked_rules f = "" ∧ f_keep_rules f = "" ∧ fm_ScraperRules m = "" ∧ fm_UserAgent m = "" ∧
    fm_FetchViaProxy m = false ∧ fm_Crawler m = false.
Proof.
  unfold handleFeedUpdate in E. destruct (negb _); [done|]. destruct (ui_parse_id id) as [n|]; [|done]. exists n.
  destruct (feedParamsFromForm r) as [|q]; [done|]. destruct (negb _); [done|]. cbv zeta in E.
  match type of E with context [match ?x with inl e => (st, PError 422 e) | inr _ => _ end] => destruct x as [|state]; [done|] end.
  set (u := page_update n q state) in *. destruct (UpdateFeed _ _ u) as [k [e|v]] eqn:U; [done|].
  assert (K : ∃ f m, fd_feeds (ct_feeds k) !! n = Some f ∧ ct_more k !! n = Some m ∧
    f_rewrite_rules f = "" ∧ f_blocked_rules f = "" ∧ f_keep_rules f = "" ∧ fm_ScraperRules m = "" ∧ fm_UserAgent m = "" ∧
    fm_FetchViaProxy m = false ∧ fm_Crawler m = false).
  { unfold UpdateFeed, withTx in U. destruct (negb _); [done|]. destruct (NormalizeStoreMode _) as [mode|]; [|done].
    destruct (update_feed_tx _ mode u _ _) as [s [e|[]]] eqn:T; [done|]. destruct (feed_view _ _ _); [|done]. injection U as <- _.
    apply (update_feed_tx_spec title_key _ _ _ _ _ W) in T as (_ & _ & _ & row & L & F).
    destruct (proj1 (cw_more _ _ W n) (mk_is_Some _ _ L)) as [m M].
    exists (updated_row u mode row), (updated_more u m). cbn [with_more with_tables ct_feeds ct_more]. rewrite F. change (up_ID u) with n.
    rewrite lookup_insert_eq, lookup_alter_eq, M. done. }
  destruct K as (f & m & K1 & K2 & K). exists f, m. split; [done|]. injection E as <- _.
  assert (S : ∀ k', k' = k ∨ k' = RescheduleFeed c now n (cp_IntervalMinutes q) k → fd_feeds (ct_feeds k') = fd_feeds (ct_feeds k) ∧ ct_more k' = ct_more k).
  { intros k' [->| ->]; [done|]. unfold RescheduleFeed. destruct (sc_refresher (pv_c c)) as [[min max]|]; [|done].
    unfold SetFeedNextCheckAt, update_ps. by destruct (fd_poll (ct_feeds k) !! n). }
  match goal with |- context [paudit _ _ _ _ _ _ (with_cat st ?k')] => destruct (S k') as [S1 S2]; [by case_match; [left|right]|] end.
  cbn [paudit caudit with_cat cx_cat]. rewrite S1, S2. done.
Qed.

(** * Checks on concrete requests *)

Definition wit_page_server : PServer := mkPServer u_config wit_cserver true None.
Definition wit_page (r : UiRequest) (k : Catalog) : CState * page :=
  page_request u_parse id u_uri u_hmac u_day (λ _, ""%string) (λ _, false) (λ _, None) (λ _, "rss"%string) (λ _ _, None) None
    (λ _, mkOverride None "" "" "") (λ _, "{}"%string) (λ _, None) (λ _, None) (λ _, ("s"%string, "0123456789abcdef"%string)) id id
    (env := wit_polls) wit_poller (λ _, (1000, 5)) (λ _, "/ui/feeds"%string) empty_filters wit_page_server 60 r (mkCState (mkApi w_db []) k).

Lemma wit_library_page segs sid token e : ui_route (ui_InboundFeeds u_config) "POST" segs = Some e → ro_handler e ∈ editor_pages ++ own_pages ++ [poll_page] →
  library_page wit_page_server (u_request segs sid token).
Proof. intros R H e' R'. change (ui_route (ui_InboundFeeds u_config) "POST" segs = Some e') in R'. rewrite R in R'. by injection R' as <-. Qed.

(** A reader follows a category from its page, and has a feed refreshed that is not theirs. *)
Lemma page_changes_authorized_witness :
  let r := u_request ["ui"; "categories"; "1"; "follow"]%string "ann" "kann|d" in
  let st' := (wit_page r wit_catalog).1 in
  let r2 := u_request ["ui"; "feeds"; "1"; "refresh"]%string "ann" "kann|d" in
  let st2 := (wit_page r2 wit_catalog).1 in
  fd_subs (ct_feeds (cx_cat st')) !! (2, 1) = Some None ∧ catalog_wf id (cx_cat st') ∧
  size (ed_entries (ct_entries (cx_cat st2))) = S (S (size (ed_entries (ct_entries wit_catalog)))) ∧ catalog_wf id (cx_cat st2) ∧
  ∃ p, by_cookie 60 w_db (ur_api r2) p ∧
    (RoleAtLeast (p_Role p) RoleEditor = true ∨ untouched (p_UserID p) wit_catalog (cx_cat st2) ∨ ∃ id, polled (env := wit_polls) id wit_catalog (cx_cat st2)).
Proof.
  intros r st' r2 st2. assert (F : fd_subs (ct_feeds (cx_cat st')) !! (2, 1) = Some None) by (vm_compute; reflexivity).
  assert (N : cx_cat st' ≠ wit_catalog) by (intros E; rewrite E in F; vm_compute in F; discriminate F).
  assert (F2 : size (ed_entries (ct_entries (cx_cat st2))) = S (S (size (ed_entries (ct_entries wit_catalog))))) by (vm_compute; reflexivity).
  assert (N2 : cx_cat st2 ≠ wit_catalog) by (intros E; rewrite E in F2; vm_compute in F2; discriminate F2).
  assert (L : library_page wit_page_server r) by (eapply wit_library_page; [vm_compute; reflexivity|by apply (bool_decide_unpack _); vm_compute]).
  assert (L2 : library_page wit_page_server r2) by (eapply wit_library_page; [vm_compute; reflexivity|by apply (bool_decide_unpack _); vm_compute]).
  pose proof (λ q, page_changes_authorized id id (env := wit_polls) (λ _, (1000, 5)) u_parse id u_uri u_hmac u_day (λ _, ""%string) (λ _, false) (λ _, None) (λ _, "rss"%string) (λ _ _, None) None
    (λ _, mkOverride None "" "" "") (λ _, "{}"%string) (λ _, None) (λ _, None) (λ _, ("s"%string, "0123456789abcdef"%string)) (λ _, "/ui/feeds"%string)
    wit_poller empty_filters wit_page_server 60 q (mkCState (mkApi w_db []) wit_catalog) wit_catalog_wf) as T.
  split; [exact F|]. split; [exact (proj1 (proj2 (proj2 (T r L N))))|]. split; [exact F2|].
  destruct (T r2 L2 N2) as (_ & _ & W & p & B & ops & _ & H). split; [exact W|]. exists p. split; [exact B|].
  destruct H as [H|[[_ H]|(i & _ & _ & _ & H)]]; [left; exact H|right; left; exact H|right; right; exists i; exact H].
Defined.

(** The page of a feed whose blocking rules came through the API is saved as it was shown. *)
Definition wit_ruled : Catalog :=
  run_cat_op id (OpUpdateFeed 1 (mkUpdateFeed 1 "https://a.example/feed" "A feed" (Some 1) 60 "" "" "title=ads" "" false false false "" None "full" None false None)) wit_catalog.
Definition wit_saved_form : UiRequest :=
  mkUi (w_request "POST" ["ui"; "feeds"; "1"]%string "sid")
    (Some (λ key, if String.eqb key "csrf_token" then "ksid|d" else if String.eqb key "feed_url" then "https://a.example/feed"
                  else if String.eqb key "title" then "A feed" else if String.eqb key "category_id" then "1" else ""))%string (λ _, []).
Definition wit_save : CState * page :=
  handleFeedUpdate u_hmac u_day (λ _, "rss"%string) (λ _, mkOverride None "" "" "") (λ _, "{}"%string) (λ _, None) (λ _, None) "1"
    wit_page_server 60 wit_saved_form (Some (mkPrincipal 1 RoleAdmin "root" "")) (mkCState (mkApi w_db []) wit_ruled).

Lemma saving_page_drops_rules_witness :
  f_blocked_rules <$> fd_feeds (ct_feeds wit_ruled) !! 1 = Some "title=ads"%string ∧
  f_blocked_rules <$> fd_feeds (ct_feeds (cx_cat wit_save.1)) !! 1 = Some ""%string.
Proof.
  split; [vm_compute; reflexivity|].
  destruct (saving_page_drops_rules u_hmac u_day (λ _, "rss"%string) (λ _, mkOverride None "" "" "") (λ _, "{}"%string) (λ _, None) (λ _, None) id wit_page_server
    60 wit_saved_form (Some (mkPrincipal 1 RoleAdmin "root" "")) (mkCState (mkApi w_db []) wit_ruled) wit_save.1 "1" "/ui/feeds/1") as (n & f & m & I & F & _ & _ & B & _).
  - apply (wf_run_cat_op id), wit_catalog_wf.
  - vm_compute. reflexivity.
  - assert (n = 1) as -> by (vm_compute in I; congruence). rewrite F. cbn. by rewrite B.
Defined.
