(* ===== verification/FilterForm.v ===== *)
(** The form of a filter ([http/ui/filters.go], [web/templates/pages/filters_form.html]): how the server reads it, and what a
    browser sends when the page of a stored filter is saved as it was shown.  The theorem says what survives that round
    trip: names, flags, patterns and the targets on offer do, the negation of a rule does not. *)

From S2P Require Import Prelude GoStrings Types FeedStore EntryStore Tables FilterStore FilterStoreSpec UserStore ApiAuth UiAuth.
From S2P Require FilterEngine ClientIP.
From Stdlib Require Import Ascii.

(** * Reading the form *)

Section Read.
(** The rules of a JSON document, if it is one. *)
Context (decode_rules : string → option (list CreateFilterRuleParams)).

(** http/ui/filters.go:324-343 [parseRulesFromForm, the rows of the table] *)
Definition form_rule (patterns negates : list string) (i : nat) (field : string) : option CreateFilterRuleParams :=
  let pattern := trim_space (default ""%string (patterns !! i)) in
  if String.eqb (trim_space field) "" || String.eqb pattern "" then None
  else Some (mkRuleParams field pattern (String.eqb (default ""%string (negates !! i)) "1") "and" (Z.of_nat i)).

(** http/ui/filters.go [parseRulesFromForm] *)
Definition parseRulesFromForm (r : UiRequest) : list CreateFilterRuleParams :=
  let out := omap id (imap (form_rule (ur_list r "rule_pattern") (ur_list r "rule_negate")) (ur_list r "rule_field")) in
  match out with
  | [] => let raw := trim_space (FormValue r "rules_json") in
          if String.eqb raw "" || String.eqb raw "[]" then [] else default [] (decode_rules raw)
  | _ => out
  end.

(** A number of a scope in the form: positive, or left out. *)
Definition form_id (v : string) : option Z :=
  let v := trim_space v in
  if String.eqb v "" then None else id ← parse_int64 v; if 0 <? id then Some id else None.

(** http/ui/filters.go [parseScopeFromForm] *)
Definition parseScopeFromForm (r : UiRequest) : list CreateFilterScopeItemParams :=
  ((λ id, mkScopeParams (Some id) None) <$> omap form_id (ur_list r "scope_feed_id")) ++
  ((λ id, mkScopeParams None (Some id)) <$> omap form_id (ur_list r "scope_category_id")).

(** http/ui/filters.go [parseFilterActionParam] *)
Definition parseFilterActionParam (actionType raw : string) : string :=
  let raw := trim_space raw in
  let actionType := trim_space actionType in
  if String.eqb raw "" || String.eqb actionType "" || String.eqb actionType "delete" then ""
  else
    let prefix := actionType +:+ ":" in
    if has_prefix raw prefix then trim_space (str_drop (String.length prefix) raw)
    else
      let '(kind, _, found) := cut ":"%char raw in
      if found && negb (String.eqb kind "") && (String.eqb kind "label" || String.eqb kind "webhook") then "" else raw.

(** http/ui/filters.go:398-408 [parseActionsFromForm, one row] *)
Definition form_action (params : list string) (i : nat) (t : string) : option CreateFilterActionParams :=
  let t := trim_space t in
  if String.eqb t "" then None
  else Some (mkActionParams t (match params !! i with Some p => parseFilterActionParam t p | None => ""%string end) (Z.of_nat i)).

(** http/ui/filters.go [parseActionsFromForm] *)
Definition parseActionsFromForm (r : UiRequest) : list CreateFilterActionParams :=
  omap id (imap (form_action (ur_list r "action_param")) (ur_list r "action_type")).

(** http/ui/filters.go [filterParamsFromForm] The user is filled in by the handlers. *)
Definition filterParamsFromForm (r : UiRequest) : string + CreateFilterParams :=
  let name := trim_space (FormValue r "name") in
  if String.eqb name "" then inl "name is required"%string
  else
    let flag key := String.eqb (FormValue r key) "1" in
    let order := match parse_int64 (trim_space (FormValue r "order_id")) with Some n => if 0 <=? n then n else 0 | None => 0 end in
    let scope := trim_space (FormValue r "feed_scope") in
    inr (mkCreateFilter 0 name (flag "enabled"%string) (flag "match_any_rule"%string) (flag "inverse"%string) order
           (if String.eqb scope "" then "all"%string else scope)
           (parseRulesFromForm r) (parseScopeFromForm r) (parseActionsFromForm r)).

End Read.

(** * Writing the form *)

(** http/ui/filters.go [filterActionOptionValue] *)
Definition filterActionOptionValue (kind : string) (id : Z) : string := trim_space kind +:+ ":" +:+ format_int id.

(** http/ui/filters.go [filterActionSavedOptionValue] *)
Definition filterActionSavedOptionValue (actionType param : string) : string :=
  let actionType := trim_space actionType in
  let param := trim_space param in
  if String.eqb actionType "" || String.eqb actionType "delete" || String.eqb param "" then "" else actionType +:+ ":" +:+ param.

(** http/ui/filters.go [scopeIDMaps] *)
Definition scopeIDMaps (items : list (Z * ScopeRow)) : gset Z * gset Z :=
  (list_to_set (omap (λ i, si_FeedID i.2) items), list_to_set (omap (λ i, si_CategoryID i.2) items)).

(** http/ui/filters.go:53-66 [Handler.hydrateScopeFeeds, the numbers asked for] Positive, each once. *)
Definition scope_feed_ids (items : list (Z * ScopeRow)) : list Z :=
  foldl (λ ids item, match si_FeedID item.2 with
                     | Some id => if (id <=? 0) || bool_decide (id ∈ ids) then ids else ids ++ [id]
                     | None => ids
                     end) [] items.

(** What the page offers beside the filter: the user's labels and webhooks, the categories, and the feeds it shows. *)
Record FilterChoices := mkChoices { fc_labels : list Z; fc_hooks : list Z; fc_cats : list Z; fc_feeds : list Z }.

(** A text field drops line breaks. *)
Definition is_break (a : ascii) : bool := (byte_of a =? 10) || (byte_of a =? 13).
Fixpoint text_field (s : string) : string :=
  match s with "" => ""%string | String a s => if is_break a then text_field s else String a (text_field s) end.

(** The list of fields shows the one stored, or the first. *)
Definition select_field (field : string) : string := if FilterEngine.isAllowedField field then field else "title".

Definition checkbox (b : bool) : list string := if b then ["1"%string] else [].

(** The list of targets of an action once [syncActionSelect] of [web/static/app.js] has run: an action without a
    target sends the empty choice, a target that is offered is chosen, and one that is not leaves no choice to send. *)
Definition select_target (c : FilterChoices) (a : ActionRow) : list string :=
  let saved := filterActionSavedOptionValue (ac_ActionType a) (ac_ActionParam a) in
  if String.eqb saved "" then [""%string]
  else
    let offered := if String.eqb (ac_ActionType a) "label" then fc_labels c
                   else if String.eqb (ac_ActionType a) "webhook" then fc_hooks c else [] in
    if bool_decide (saved ∈ filterActionOptionValue (ac_ActionType a) <$> offered) then [saved] else [].

(** [web/templates/pages/filters_form.html], as a browser sends it unchanged.  A box that is not ticked sends nothing, and
    a filter without rules shows one empty row. *)
Definition sent_field (c : FilterChoices) (f : StoredFilter) (key : string) : list string :=
  let row := sf_row f in
  let rules := snd <$> sf_Rules f in
  let scoped := negb (String.eqb (ft_FeedScope row) "all" || String.eqb (ft_FeedScope row) "") in
  let named k := String.eqb key k in
  if named "name" then [text_field (ft_Name row)]
  else if named "enabled" then checkbox (ft_Enabled row)
  else if named "match_any_rule" then checkbox (ft_MatchAnyRule row)
  else if named "inverse" then checkbox (ft_Inverse row)
  else if named "order_id" then [format_int (ft_OrderID row)]
  else if named "feed_scope" then [if scoped then ft_FeedScope row else "all"]
  else if named "rule_field" then match rules with [] => ["title"] | _ => select_field ∘ rl_Field <$> rules end
  else if named "rule_pattern" then match rules with [] => [""] | _ => text_field ∘ rl_Pattern <$> rules end
  else if named "rule_negate" then rules ≫= checkbox ∘ rl_Negate
  else if named "scope_feed_id" then if scoped then format_int <$> fc_feeds c else []
  else if named "scope_category_id"
  then if scoped then format_int <$> filter (λ k, k ∈ (scopeIDMaps (sf_ScopeItems f)).2) (fc_cats c) else []
  else if named "action_type" then ac_ActionType ∘ snd <$> sf_Actions f
  else if named "action_param" then (snd <$> sf_Actions f) ≫= select_target c
  else [].

(** The request that saves the page; it goes to the address [segs] with the token and cookies of the page. *)
Definition saved_form (http : ApiRequest) (token : string) (c : FilterChoices) (f : StoredFilter) : UiRequest :=
  mkUi http (Some (λ key, if String.eqb key "csrf_token" then token else default ""%string (head (sent_field c f key)))) (sent_field c f).

(** * What survives the page *)

Lemma omap_imap {A B} (f : nat → A → option B) g l : (∀ i x, l !! i = Some x → f i x = Some (g i x)) → omap id (imap f l) = imap g l.
Proof.
  revert f g. induction l as [|x l IH]; intros f g H; [done|]. rewrite !imap_cons. cbn [omap list_omap].
  rewrite (H 0%nat x eq_refl). cbn [id]. f_equal. apply IH. intros i y L. by apply (H (S i)).
Qed.

Lemma fmap_imap_same {A B C} (f : nat → A → B) (g : B → C) (h : A → C) l :
  g <$> imap f l = h <$> l ↔ ∀ i x, l !! i = Some x → g (f i x) = h x.
Proof.
  rewrite <-(imap_const h l), fmap_imap. revert f h. induction l as [|x l IH]; intros f h; [done|]. rewrite !imap_cons. split.
  - intros [= E1 E2] [|i] y L; [by injection L as <-|]. by apply (proj1 (IH (f ∘ S) h) E2 i y).
  - intros H. f_equal; [by apply (H 0%nat)|]. apply IH. intros i y L. by apply (H (S i)).
Qed.

(** The ticked boxes. *)
Definition ticked (bs : list bool) : nat := length (filter (λ b, b = true) bs).

Lemma ticked_cons b bs : ticked (b :: bs) = ((if b then 1 else 0) + ticked bs)%nat.
Proof. unfold ticked. by destruct b. Qed.

Lemma boxes_sent rules : rules ≫= checkbox ∘ rl_Negate = replicate (ticked (rl_Negate <$> rules)) "1"%string.
Proof.
  induction rules as [|r rules IH]; [done|]. rewrite fmap_cons, ticked_cons. rewrite bind_cons, IH. unfold compose. by destruct (rl_Negate r).
Qed.

(** The first boxes are the ticked ones. *)
Definition ticked_first (bs : list bool) : Prop := ∀ i j, (i < j)%nat → bs !! j = Some true → bs !! i = Some true.

Lemma ticked_first_spec bs : ticked_first bs ↔ ∀ i b, bs !! i = Some b → b = bool_decide (i < ticked bs)%nat.
Proof.
  split.
  - induction bs as [|b bs IH]; intros F i b' L; [done|]. rewrite ticked_cons. destruct b.
    + destruct i as [|i]; [injection L as <-; by rewrite bool_decide_true by lia|].
      rewrite (IH (λ i j Lt T, F (S i) (S j) ltac:(lia) T) i b' L). apply bool_decide_ext. lia.
    + assert (Z : ∀ j, bs !! j ≠ Some true) by (intros j T; discriminate (F 0%nat (S j) ltac:(lia) T)).
      assert (ticked bs = 0%nat) as ->.
      { unfold ticked. apply length_zero_iff_nil. destruct (filter _ bs) as [|x l] eqn:E; [done|].
        assert (x ∈ filter (λ b, b = true) bs) as I by (rewrite E; left). apply list_elem_of_filter in I as [-> I].
        apply list_elem_of_lookup_1 in I as [j I]. by apply Z in I. }
      rewrite bool_decide_false by lia. destruct i as [|i]; [by injection L|]. destruct b'; [by apply Z in L|done].
  - intros H i j Lt T. apply H in T as B. symmetry in B. apply bool_decide_eq_true in B.
    assert (is_Some (bs !! i)) as [b L] by (apply lookup_lt_is_Some; apply lookup_lt_Some in T; lia).
    rewrite L. f_equal. rewrite (H i b L). apply bool_decide_eq_true. lia.
Qed.

(** A line of text as the store keeps it. *)
Definition plain (s : string) : Prop := s ≠ ""%string ∧ trim_space s = s ∧ text_field s = s.

(** What a page can show of a filter: its texts are single lines, and its fields are those of the list. *)
Record showable (f : StoredFilter) : Prop := {
  sh_name : plain (ft_Name (sf_row f));
  sh_order : 0 <= ft_OrderID (sf_row f) < 2 ^ 31;
  sh_scope : ft_FeedScope (sf_row f) ∈ ["all"; "include"; "exclude"]%string;
  sh_rules : ∀ r, r ∈ sf_Rules f → FilterEngine.isAllowedField (rl_Field r.2) = true ∧ plain (rl_Pattern r.2);
  sh_items : ∀ i, i ∈ sf_ScopeItems f → scope_ok i.2 ∧ (∀ id, si_FeedID i.2 = Some id → 0 < id < 2 ^ 63) ∧ (∀ id, si_CategoryID i.2 = Some id → 0 < id < 2 ^ 63);
  sh_actions : ∀ a, a ∈ sf_Actions f → is_action_type (ac_ActionType a.2) = true;
}.

(** The page offers every target of the filter and shows the feeds and categories of its scope. *)
Record offered (c : FilterChoices) (f : StoredFilter) : Prop := {
  of_actions : ∀ a, a ∈ sf_Actions f → ac_ActionParam a.2 = ""%string ∨
    (ac_ActionType a.2 = "label"%string ∧ ∃ id, id ∈ fc_labels c ∧ ac_ActionParam a.2 = format_int id) ∨
    (ac_ActionType a.2 = "webhook"%string ∧ ∃ id, id ∈ fc_hooks c ∧ ac_ActionParam a.2 = format_int id);
  of_feeds : ∀ id, id ∈ fc_feeds c ↔ ∃ i, i ∈ sf_ScopeItems f ∧ si_FeedID i.2 = Some id;
  of_cats : ∀ i id, i ∈ sf_ScopeItems f → si_CategoryID i.2 = Some id → id ∈ fc_cats c;
}.

Section RoundTrip.
Context (decode_rules : string → option (list CreateFilterRuleParams)) (http : ApiRequest) (token : string).
Context (c : FilterChoices) (f : StoredFilter).
Notation form := (saved_form http token c f).
Notation rules := (snd <$> sf_Rules f).

Lemma allowed_trim s : FilterEngine.isAllowedField s = true → trim_space s = s ∧ s ≠ ""%string.
Proof.
  unfold FilterEngine.isAllowedField. rewrite bool_decide_eq_true. rewrite !elem_of_cons, elem_of_nil.
  intros H. repeat destruct H as [->|H]; try (split; [by vm_compute|done]).
Qed.

Lemma saved_rules : showable f →
  parseRulesFromForm decode_rules form =
  imap (λ i r, mkRuleParams (rl_Field r) (rl_Pattern r) (bool_decide (i < ticked (rl_Negate <$> rules))%nat) "and" (Z.of_nat i)) rules.
Proof.
  intros S. unfold parseRulesFromForm, FormValue. cbn [saved_form ur_list ur_form].
  change (sent_field c f "rule_negate") with (rules ≫= checkbox ∘ rl_Negate). rewrite boxes_sent.
  change (sent_field c f "rule_field") with (match rules with [] => ["title"%string] | _ => select_field ∘ rl_Field <$> rules end).
  change (sent_field c f "rule_pattern") with (match rules with [] => [""%string] | _ => text_field ∘ rl_Pattern <$> rules end).
  set (n := ticked _). clearbody n.
  assert (M : omap id (imap (form_rule (text_field ∘ rl_Pattern <$> rules) (replicate n "1"%string)) (select_field ∘ rl_Field <$> rules)) =
    imap (λ i r, mkRuleParams (rl_Field r) (rl_Pattern r) (bool_decide (i < n)%nat) "and" (Z.of_nat i)) rules).
  { rewrite imap_fmap. apply omap_imap. intros i r L. assert (I : r ∈ rules) by (eapply list_elem_of_lookup_2; exact L).
    apply list_elem_of_fmap in I as (kr & -> & I). destruct (sh_rules _ S _ I) as [A (P1 & P2 & P3)].
    unfold form_rule, compose, select_field. rewrite A, list_lookup_fmap, L. cbn [fmap option_fmap option_map from_option default id].
    rewrite P3, P2. destruct (allowed_trim _ A) as [-> N]. apply String.eqb_neq in N as ->. apply String.eqb_neq in P1 as ->. cbn [orb].
    do 2 f_equal. destruct (decide (i < n)%nat) as [Lt|Ge].
    - rewrite lookup_replicate_2 by done. by rewrite bool_decide_true by done.
    - assert (replicate n "1"%string !! i = None) as -> by (apply lookup_replicate_None; lia). by rewrite bool_decide_false by done. }
  revert M. generalize rules. intros [|r rs] M; [done|]. by rewrite M, imap_cons.
Qed.

Lemma format_int_nonempty n : format_int n ≠ ""%string.
Proof.
  unfold format_int. destruct (Z.ltb_spec n 0); [done|]. destruct (fmt_digits_first 20 n "" ltac:(lia) ltac:(lia)) as (a & s & -> & _). done.
Qed.

Lemma option_value t id : (t = "label" ∨ t = "webhook")%string →
  filterActionSavedOptionValue t (format_int id) = filterActionOptionValue t id ∧
  filterActionOptionValue t id ≠ ""%string ∧ parseFilterActionParam t (filterActionOptionValue t id) = format_int id.
Proof.
  intros T. pose proof (graphic_format_int id) as G. pose proof (graphic_trim_space _ G) as Tr.
  pose proof (format_int_nonempty id) as N. apply String.eqb_neq in N.
  assert (Tr2 : trim_space (t +:+ ":" +:+ format_int id) = t +:+ ":" +:+ format_int id).
  { apply graphic_trim_space. destruct T as [-> | ->]; exact G. }
  assert (trim_space t = t) as E by (by destruct T as [-> | ->]; vm_compute).
  unfold filterActionSavedOptionValue, filterActionOptionValue, parseFilterActionParam. rewrite E, Tr, Tr2, N.
  split_and!.
  - by destruct T as [-> | ->].
  - by destruct T as [-> | ->].
  - assert (P : ∀ p s, has_prefix (p +:+ s) p = true).
    { intros p s. unfold has_prefix. induction p as [|a p IH]; [by destruct s|]. change ((if ascii_dec a a then String.prefix p (p +:+ s) else false) = true). destruct (ascii_dec a a) as [_|[]]; [exact IH|done]. }
    destruct T as [-> | ->]; [generalize (P "label:"%string (format_int id))|generalize (P "webhook:"%string (format_int id))];
      revert Tr; generalize (format_int id); intros s Tr H.
    + change ((if has_prefix ("label:" +:+ s) "label:" then trim_space s else
        let '(kind, _, found) := cut ":" ("label:" +:+ s) in
        if found && negb (String.eqb kind "") && (String.eqb kind "label" || String.eqb kind "webhook") then "" else "label:" +:+ s) = s)%string.
      by rewrite H.
    + change ((if has_prefix ("webhook:" +:+ s) "webhook:" then trim_space s else
        let '(kind, _, found) := cut ":" ("webhook:" +:+ s) in
        if found && negb (String.eqb kind "") && (String.eqb kind "label" || String.eqb kind "webhook") then "" else "webhook:" +:+ s) = s)%string.
      by rewrite H.
Qed.

Lemma saved_actions : showable f → offered c f →
  parseActionsFromForm form = imap (λ i a, mkActionParams (ac_ActionType a) (ac_ActionParam a) (Z.of_nat i)) (snd <$> sf_Actions f).
Proof.
  intros S O. unfold parseActionsFromForm. cbn [saved_form ur_list].
  change (sent_field c f "action_type") with (ac_ActionType ∘ snd <$> sf_Actions f).
  change (sent_field c f "action_param") with ((snd <$> sf_Actions f) ≫= select_target c).
  set (acts := snd <$> sf_Actions f).
  assert (T : ∀ a, a ∈ acts → is_action_type (ac_ActionType a) = true ∧
    ∃ v, select_target c a = [v] ∧ parseFilterActionParam (ac_ActionType a) v = ac_ActionParam a).
  { intros a I. apply list_elem_of_fmap in I as (ka & -> & I). pose proof (sh_actions _ S _ I) as A. split; [done|].
    unfold select_target. destruct (of_actions _ _ O _ I) as [E|[(E & id & L & P)|(E & id & L & P)]].
    - exists ""%string. rewrite E. unfold filterActionSavedOptionValue. change (String.eqb (trim_space "") "") with true.
      by rewrite orb_true_r.
    - rewrite E, P in *. destruct (option_value "label" id (or_introl eq_refl)) as (V & N & R). rewrite V. apply String.eqb_neq in N as ->.
      cbn [String.eqb]. exists (filterActionOptionValue "label" id). rewrite bool_decide_true; [done|]. by apply list_elem_of_fmap_2.
    - rewrite E, P in *. destruct (option_value "webhook" id (or_intror eq_refl)) as (V & N & R). rewrite V. apply String.eqb_neq in N as ->.
      exists (filterActionOptionValue "webhook" id). change (String.eqb "webhook" "label") with false. cbv iota.
      change (String.eqb "webhook" "webhook") with true. cbv iota. rewrite bool_decide_true; [done|]. by apply list_elem_of_fmap_2. }
  replace (ac_ActionType ∘ snd <$> sf_Actions f) with (ac_ActionType <$> acts) by (unfold acts; by rewrite <-list_fmap_compose).
  rewrite imap_fmap. apply omap_imap. intros i a L.
  destruct (T a ltac:(eapply list_elem_of_lookup_2; exact L)) as [A (v & V & R)].
  assert ((acts ≫= select_target c) !! i = Some v) as Q.
  { clear -T L V. revert i L. induction acts as [|b l IH]; intros i L; [done|]. rewrite bind_cons.
    destruct (T b ltac:(left)) as [_ (w & W & _)]. rewrite W. destruct i as [|i]; [injection L as ->; by rewrite V in W; injection W as ->|].
    apply IH; [|exact L]. intros d D. apply T. by right. }
  unfold form_action, compose. rewrite Q.
  assert (trim_space (ac_ActionType a) = ac_ActionType a ∧ String.eqb (ac_ActionType a) "" = false) as [-> ->].
  { unfold is_action_type in A. rewrite !orb_true_iff, !String.eqb_eq in A. destruct A as [[-> | ->] | ->]; by vm_compute. }
  by rewrite R.
Qed.

Lemma form_id_format id : 0 < id < 2 ^ 63 → form_id (format_int id) = Some id.
Proof.
  intros B. unfold form_id. rewrite (graphic_trim_space _ (graphic_format_int id)). pose proof (format_int_nonempty id) as N.
  apply String.eqb_neq in N as ->. rewrite format_parse_int by (unfold in64; lia). cbn. by rewrite (proj2 (Z.ltb_lt _ _)) by lia.
Qed.

Lemma form_ids (ids : list Z) : (∀ id, id ∈ ids → 0 < id < 2 ^ 63) → omap form_id (format_int <$> ids) = ids.
Proof.
  intros B. induction ids as [|id ids IH]; [done|]. rewrite fmap_cons. cbn [omap list_omap]. rewrite form_id_format by (apply B; left).
  f_equal. apply IH. intros j I. apply B. by right.
Qed.

(** A scope that counts reads back: the same feeds and categories. *)
Lemma saved_scope : showable f → offered c f → ft_FeedScope (sf_row f) ≠ "all"%string →
  ∀ t, t ∈ parseScopeFromForm form ↔ ∃ i, i ∈ sf_ScopeItems f ∧ t = mkScopeParams (si_FeedID i.2) (si_CategoryID i.2).
Proof.
  intros S O N t. unfold parseScopeFromForm. cbn [saved_form ur_list].
  change (sent_field c f "scope_feed_id") with
    (if negb (String.eqb (ft_FeedScope (sf_row f)) "all" || String.eqb (ft_FeedScope (sf_row f)) "") then format_int <$> fc_feeds c else []).
  change (sent_field c f "scope_category_id") with
    (if negb (String.eqb (ft_FeedScope (sf_row f)) "all" || String.eqb (ft_FeedScope (sf_row f)) "")
     then format_int <$> filter (λ k, k ∈ (scopeIDMaps (sf_ScopeItems f)).2) (fc_cats c) else []).
  assert (negb (String.eqb (ft_FeedScope (sf_row f)) "all" || String.eqb (ft_FeedScope (sf_row f)) "") = true) as ->.
  { pose proof (sh_scope _ S) as H. rewrite !elem_of_cons, elem_of_nil in H. destruct H as [H|[H|[H|[]]]]; rewrite H; by rewrite ?H in N. }
  assert (C : ∀ id, id ∈ (scopeIDMaps (sf_ScopeItems f)).2 ↔ ∃ i, i ∈ sf_ScopeItems f ∧ si_CategoryID i.2 = Some id).
  { intros id. cbn [scopeIDMaps snd]. by rewrite elem_of_list_to_set, list_elem_of_omap. }
  rewrite !form_ids.
  - rewrite elem_of_app, !list_elem_of_fmap. setoid_rewrite list_elem_of_filter. setoid_rewrite C. setoid_rewrite (of_feeds _ _ O). split.
    + intros [(id & -> & i & I & E)|(id & -> & (i & I & E) & _)]; exists i; (split; [done|]);
        destruct (sh_items _ S _ I) as [K _]; unfold scope_ok in K; rewrite E in *.
      * by destruct (si_CategoryID i.2).
      * by destruct (si_FeedID i.2).
    + intros (i & I & ->). destruct (sh_items _ S _ I) as [K _]. unfold scope_ok in K.
      destruct (si_FeedID i.2) as [id|] eqn:E1, (si_CategoryID i.2) as [k|] eqn:E2; try done; [left|right].
      * exists id. eauto.
      * exists k. split; [done|]. split; [eauto|]. exact (of_cats _ _ O _ _ I E2).
  - intros id [(i & I & E)%C _]%list_elem_of_filter. destruct (sh_items _ S _ I) as (_ & _ & B). by apply B.
  - intros id (i & I & E)%(of_feeds _ _ O). destruct (sh_items _ S _ I) as (_ & B & _). by apply B.
Qed.

(** C26: Take a filter the page can show ([showable]: its name and patterns are single lines without outer spaces, its
    order a small number, its fields, scope and actions of the known kinds) and a page that offers all it refers to
    ([offered]: the label or webhook of every action is still there, and so are the feeds and categories of its scope).
    Saving that page as it was shown keeps the filter's name, its flags, its order, its scope, its actions and the
    field and pattern of every rule; it keeps the rules themselves if and only if the negated ones come first and all
    are joined by "and".  Where an action's target is gone from the page, saving is not faithful to the actions either:
    the targets behind it move up (example [lost_target_shifts]).  The form sends one value for each box that is ticked and the server reads the i-th value as
    that of the i-th rule, so that the negations land on the first rules, whichever were marked. *)
Theorem filter_form_round_trip : showable f → offered c f →
  ∃ p, filterParamsFromForm decode_rules form = inr p ∧
    cf_Name p = ft_Name (sf_row f) ∧ cf_Enabled p = ft_Enabled (sf_row f) ∧ cf_MatchAnyRule p = ft_MatchAnyRule (sf_row f) ∧
    cf_Inverse p = ft_Inverse (sf_row f) ∧ cf_OrderID p = ft_OrderID (sf_row f) ∧ cf_FeedScope p = ft_FeedScope (sf_row f) ∧
    (ft_FeedScope (sf_row f) ≠ "all"%string → ∀ t, t ∈ cf_ScopeItems p ↔
       ∃ i, i ∈ sf_ScopeItems f ∧ t = mkScopeParams (si_FeedID i.2) (si_CategoryID i.2)) ∧
    (λ a, (ca_ActionType a, ca_ActionParam a)) <$> cf_Actions p = (λ a, (ac_ActionType a.2, ac_ActionParam a.2)) <$> sf_Actions f ∧
    (λ r, (cr_Field r, cr_Pattern r)) <$> cf_Rules p = (λ r, (rl_Field r, rl_Pattern r)) <$> rules ∧
    cr_Negate <$> cf_Rules p = imap (λ i _, bool_decide (i < ticked (rl_Negate <$> rules))%nat) rules ∧
    ((λ r, (cr_Field r, cr_Pattern r, cr_Negate r, cr_Op r)) <$> cf_Rules p =
       (λ r, (rl_Field r, rl_Pattern r, rl_Negate r, rl_Op r)) <$> rules ↔
     ticked_first (rl_Negate <$> rules) ∧ ∀ r, r ∈ rules → rl_Op r = "and"%string).
Proof.
  intros S O. destruct (sh_name _ S) as (N1 & N2 & N3). unfold filterParamsFromForm, FormValue. cbn [saved_form ur_form].
  change (head (sent_field c f "name")) with (Some (text_field (ft_Name (sf_row f)))). cbn [String.eqb Ascii.eqb Bool.eqb].
  cbn [default from_option id]. rewrite N3, N2. apply String.eqb_neq in N1 as ->. eexists. split; [reflexivity|].
  cbn [cf_Name cf_Enabled cf_MatchAnyRule cf_Inverse cf_OrderID cf_FeedScope cf_ScopeItems cf_Actions cf_Rules].
  rewrite saved_rules, saved_actions by done. split_and!.
  - done.
  - change (sent_field c f "enabled") with (checkbox (ft_Enabled (sf_row f))). by destruct (ft_Enabled _).
  - change (sent_field c f "match_any_rule") with (checkbox (ft_MatchAnyRule (sf_row f))). by destruct (ft_MatchAnyRule _).
  - change (sent_field c f "inverse") with (checkbox (ft_Inverse (sf_row f))). by destruct (ft_Inverse _).
  - change (head (sent_field c f "order_id")) with (Some (format_int (ft_OrderID (sf_row f)))). cbn [default from_option id].
    pose proof (sh_order _ S) as B. rewrite (graphic_trim_space _ (graphic_format_int _)), format_parse_int by (unfold in64; lia).
    by rewrite (proj2 (Z.leb_le _ _)) by lia.
  - pose proof (sh_scope _ S) as H. unfold sent_field. rewrite !elem_of_cons, elem_of_nil in H. by destruct H as [->|[->|[->|[]]]].
  - by apply saved_scope.
  - transitivity ((λ a, (ac_ActionType a, ac_ActionParam a)) <$> (snd <$> sf_Actions f)); [by apply fmap_imap_same|].
    by rewrite <-list_fmap_compose.
  - by apply fmap_imap_same.
  - by rewrite fmap_imap.
  - rewrite fmap_imap_same, ticked_first_spec. split.
    + intros H. split.
      * intros i b L. rewrite list_lookup_fmap in L. destruct (rules !! i) as [r|] eqn:Lr; [|done]. injection L as <-.
        specialize (H i r Lr). cbn in H. congruence.
      * intros r I. apply list_elem_of_lookup_1 in I as [i L]. specialize (H i r L). cbn in H. congruence.
    + intros [F A] i r L. cbn. rewrite (A r) by (eapply list_elem_of_lookup_2; exact L).
      by rewrite <-(F i (rl_Negate r)) by (by rewrite list_lookup_fmap, L).
Qed.
End RoundTrip.

(** * The form of one filter *)

Definition wit_form_filter : StoredFilter :=
  mkStored 1 (mkFilterRow 1 "news" true false false 3 "include" 0 10 10)
    [(1, mkRuleRow 1 "title" "ads" false "and" 0); (2, mkRuleRow 1 "content" "sale" true "and" 1)]
    [(1, mkScopeRow 1 (Some 7) None)] [(1, mkActionRow 1 "label" "2" 0)].
Definition wit_choices : FilterChoices := mkChoices [2] [] [] [7].
Definition wit_http (method : string) (segs : list string) : ApiRequest :=
  mkApiRequest (ClientIP.mkRequest "" (λ _, []) "" false) method segs None "".

Lemma wit_showable : showable wit_form_filter.
Proof.
  constructor.
  - by vm_compute.
  - by vm_compute.
  - right. left.
  - intros r I. repeat (apply elem_of_cons in I as [->|I]; [by vm_compute|]). by apply elem_of_nil in I.
  - intros i I. apply list_elem_of_singleton in I as ->. split; [done|]. split; [intros id [= <-]; lia|done].
  - intros a I. apply list_elem_of_singleton in I as ->. done.
Qed.

Lemma wit_offered : offered wit_choices wit_form_filter.
Proof.
  constructor.
  - intros a I. apply list_elem_of_singleton in I as ->. right; left. split; [done|]. exists 2. split; [left|done].
  - intros id. cbn [fc_feeds wit_choices]. rewrite list_elem_of_singleton. split.
    + intros ->. eexists. split; [left|done].
    + intros (i & I & E). apply list_elem_of_singleton in I as ->. by injection E.
  - intros i id I. apply list_elem_of_singleton in I as ->. done.
Qed.

(** The second rule is the negated one; the page read back negates the first. *)
Lemma filter_form_round_trip_witness :
  showable wit_form_filter ∧ offered wit_choices wit_form_filter ∧
  ∃ p, filterParamsFromForm (λ _, None) (saved_form (wit_http "POST" ["ui"; "filters"; "1"]%string) "t" wit_choices wit_form_filter) = inr p ∧
    cf_Name p = "news"%string ∧ cr_Negate <$> cf_Rules p = [true; false] ∧
    rl_Negate ∘ snd <$> sf_Rules wit_form_filter = [false; true].
Proof.
  split; [exact wit_showable|]. split; [exact wit_offered|].
  destruct (filter_form_round_trip (λ _, None) (wit_http "POST" ["ui"; "filters"; "1"]%string) "t" wit_choices wit_form_filter
    wit_showable wit_offered) as (p & E & N & _ & _ & _ & _ & _ & _ & _ & _ & B & _).
  exists p. split; [exact E|]. split; [exact N|]. split; [rewrite B; vm_compute; reflexivity|reflexivity].
Defined.

(** An action whose target is not offered sends nothing, so that the targets of those behind it move up. *)
Example lost_target_shifts :
  let f := mkStored 1 (sf_row wit_form_filter) [] [] [(1, mkActionRow 1 "webhook" "9" 0); (2, mkActionRow 1 "label" "2" 1)] in
  let r := saved_form (wit_http "POST" ["ui"; "filters"; "1"]%string) "t" wit_choices f in
  ur_list r "action_param" = ["label:2"%string] ∧
  (λ a, (ca_ActionType a, ca_ActionParam a)) <$> parseActionsFromForm r = [("webhook", ""); ("label", "")]%string.
Proof. by vm_compute. Qed.
