(* ===== verification/FilterPages.v ===== *)
(** The pages of filters and labels ([http/ui/filters.go], [http/ui/labels.go]) over the store of [FilterApi.v], behind the
    routes and guards of [UiAuth.v], with the caches of enabled filters.  The theorem on those caches takes the
    API, the pages, the two refreshers of a process and the recorded matches together. *)

From S2P Require Import Prelude GoStrings Types FeedStore EntryStore Tables FilterStore FilterStoreSpec.
From S2P Require Import Catalog CatalogSpec Search TtlCache UserStore ApiAuth UiAuth FilterApi FilterForm Pages PagesSpec.
From S2P Require FilterEngine ClientIP.

(** * The store of labels *)

(** storage/entities.go [LabelStore] What the pages call. *)
Class LabelStorage (S : Type) := {
  st_ListLabels : S → Z → Z → Z → S * (err + list (Z * LabelRow) * Z);
  st_CreateLabel : S → CreateLabelParams → S * (err + Z * LabelRow);
  st_UpdateLabel : S → UpdateLabelParams → S * (err + Z * LabelRow);
  st_DeleteLabel : S → Z → Z → S * option err;
}.

Section Postgres.
Context (collate : relation string) `{!RelDecision collate}.

#[export] Instance postgres_labels : LabelStorage FaultyDb := {
  st_ListLabels s u l o := fcall s "list labels" (λ db, (db, inr (ListLabels collate db u l o)));
  st_CreateLabel s p := fcall s "create label" (λ db, CreateLabel db p);
  st_UpdateLabel s p := fcall s "update label" (λ db, UpdateLabel db p);
  st_DeleteLabel s u id :=
    match fcall s "delete label" (λ db, let '(db, e) := DeleteLabel db u id in
                                        (db, match e with Some e => inl e | None => inr tt end)) with
    | (s, inl e) => (s, Some e)
    | (s, inr _) => (s, None)
    end;
}.
End Postgres.

(** * Pages *)

Inductive fpage :=
| GError (status : Z) (msg : string)
| GRedirect (loc : string)
| GFilters (fs : list StoredFilter)
| GForm (f : option StoredFilter) (scope : gset Z * gset Z) (c : FilterChoices)
| GTest (f : StoredFilter) (preview : list (Z * FilterEngine.MatchResult))
| GMatches (f : StoredFilter) (rows : list (Z * MatchRow * Entry))
| GLabels (ls : list (Z * LabelRow))
| GElsewhere (handler : string).

(** What is configured: the UI, and of its stores the entries, the refresher and the labels. *)
Record FPServer := mkFPServer { fp_ui : UiConfig; fp_sv : FServer; fp_labels : bool }.

Notation no_token := (GError 403 "forbidden").
Notation bad_id := (GError 400 "invalid id").
Notation not_found := (GError 404 "404 page not found").

Section Pages.
Context {regex : Type} (re_compile : string → option regex) (re_match : regex → string → bool).
Context {S : Type} `{!FilterStorage S} `{!LabelStorage S}.
Context (url_parse : string → option (string * string)) (drop_flash : string → string) (request_uri : string → string → string).
Context (hmac64 : string → string → string) (format_day : Z → string) (referer : UiRequest → string).
(** The entry listing of a user, the batched query matcher, the catalogue, the webhooks a user may choose, the rules of a
    JSON document, the limit of the query, and error texts. *)
Context (listEntries : S → Z → Z → err + list Entry)
        (queryMatcher : option (list FilterEngine.QueryMatchItem → list string → option (list (list bool))))
        (catalog : Catalog) (hooks : Z → list Z) (decode_rules : string → option (list CreateFilterRuleParams))
        (query_limit : UiRequest → string) (filter_err_text : FilterEngine.filter_err → string) (err_text : err → string).

Notation FSt := (@FState regex S).
Definition fp_handler : Type := FPServer → Z → UiRequest → option Principal → FSt → FSt * fpage.

Definition put_fapi (a : Api) (st : FSt) : FSt := mkFState a (fx_store st) (fx_cache st) (fx_engine st).
Definition faudit (c : FPServer) (r : UiRequest) (p : option Principal) (action : string) (id : Z) (st : FSt) : FSt :=
  audit (ui_server (fp_ui c)) (ur_api r) p action id st.
Notation csrf c now r := (validateCSRF hmac64 format_day (fp_ui c) now r).

(** The answer for an error of the store that the page shows as its text. *)
Definition failed (e : err) : fpage := GError 400 (err_text e).

(** ** Filters *)

(** http/ui/filters.go [Handler.handleFiltersList] *)
Definition handleFiltersList : fp_handler := λ c now r p st,
  match st_ListFilters (fx_store st) (ui_me p) 1000 0 with
  | (d, inl _) => (with_store st d, GError 500 "list filters failed")
  | (d, inr (fs, _)) => (with_store st d, GFilters fs)
  end.

(** http/ui/filters.go [Handler.hydrateScopeFeeds] *)
Definition hydrateScopeFeeds (userID : Z) (items : list (Z * ScopeRow)) : list FeedView :=
  match scope_feed_ids items with [] => [] | ids => ListFeedsByIDs catalog userID ids end.

(** The categories of the sidebar of every page. *)
Definition sidebar_cats : list Z :=
  match ListCategories catalog 0 0 with inl _ => [] | inr (cs, _) => c_ID <$> cs end.

(** http/ui/filters.go [Handler.prepareFilterFormData] A failing listing of labels offers none. *)
Definition prepareFilterFormData (c : FPServer) (userID : Z) (feeds : list FeedView) (st : FSt) : FSt * FilterChoices :=
  let choices labels := mkChoices labels (hooks userID) sidebar_cats ((λ v, f_id (feed_row (fv_feed v))) <$> feeds) in
  if fp_labels c then
    match st_ListLabels (fx_store st) userID 500 0 with
    | (d, inl _) => (with_store st d, choices [])
    | (d, inr (ls, _)) => (with_store st d, choices (fst <$> ls))
    end
  else (st, choices []).

(** http/ui/filters.go [Handler.handleFilterNew] *)
Definition handleFilterNew : fp_handler := λ c now r p st,
  let '(st, ch) := prepareFilterFormData c (ui_me p) [] st in (st, GForm None (∅, ∅) ch).

(** http/ui/filters.go [Handler.handleFilterEdit] *)
Definition handleFilterEdit (id : string) : fp_handler := λ c now r p st,
  match ui_parse_id id with
  | None => (st, bad_id)
  | Some id =>
      match st_GetFilter (fx_store st) (ui_me p) id with
      | (d, inl _) => (with_store st d, not_found)
      | (d, inr f) =>
          let '(st, ch) := prepareFilterFormData c (ui_me p) (hydrateScopeFeeds (ui_me p) (sf_ScopeItems f)) (with_store st d) in
          (st, GForm (Some f) (scopeIDMaps (sf_ScopeItems f)) ch)
      end
  end.

(** The filter of the form for a user. *)
Definition of_user (userID : Z) (p : CreateFilterParams) : CreateFilterParams :=
  mkCreateFilter userID (cf_Name p) (cf_Enabled p) (cf_MatchAnyRule p) (cf_Inverse p) (cf_OrderID p) (cf_FeedScope p)
    (cf_Rules p) (cf_ScopeItems p) (cf_Actions p).

(** http/ui/filters.go [Handler.handleFilterCreate] *)
Definition handleFilterCreate : fp_handler := λ c now r p st,
  if negb (csrf c now r) then (st, no_token)
  else match filterParamsFromForm decode_rules r with
  | inl e => (st, GError 400 e)
  | inr params =>
      match validateRuleLimits re_compile filter_err_text (cf_Rules params) (fx_engine st) with
      | Some e => (st, GError 400 e)
      | None =>
          match st_CreateFilter (fx_store st) now (of_user (ui_me p) params) with
          | (d, inl e) => (with_store st d, failed e)
          | (d, inr f) =>
              let st := InvalidateFilterCache (fp_sv c) (ui_me p) (with_store st d) in
              (faudit c r p "filter.create" (sf_ID f) st, GRedirect "/ui/filters")
          end
      end
  end.

(** http/ui/filters.go [Handler.handleFilterUpdate] Any failure is a missing page. *)
Definition handleFilterUpdate (segment : string) : fp_handler := λ c now r p st,
  if negb (csrf c now r) then (st, no_token)
  else match ui_parse_id segment with
  | None => (st, bad_id)
  | Some id =>
      match filterParamsFromForm decode_rules r with
      | inl e => (st, GError 400 e)
      | inr params =>
          match validateRuleLimits re_compile filter_err_text (cf_Rules params) (fx_engine st) with
          | Some e => (st, GError 400 e)
          | None =>
              match st_UpdateFilter (fx_store st) now (mkUpdateFilter id (of_user (ui_me p) params)) with
              | (d, inl _) => (with_store st d, not_found)
              | (d, inr _) =>
                  let st := InvalidateFilterCache (fp_sv c) (ui_me p) (with_store st d) in
                  (faudit c r p "filter.update" id st, GRedirect ("/ui/filters/" +:+ trim_space segment))
              end
          end
      end
  end.

(** http/ui/filters.go [Handler.handleFilterDelete] *)
Definition handleFilterDelete (id : string) : fp_handler := λ c now r p st,
  if negb (csrf c now r) then (st, no_token)
  else match ui_parse_id id with
  | None => (st, bad_id)
  | Some id =>
      match st_DeleteFilter (fx_store st) (ui_me p) id with
      | (d, Some _) => (with_store st d, not_found)
      | (d, None) =>
          let st := InvalidateFilterCache (fp_sv c) (ui_me p) (with_store st d) in
          (faudit c r p "filter.delete" id st, GRedirect "/ui/filters")
      end
  end.

(** http/ui/filters.go:219-224 [Handler.handleFilterTest, the limit] *)
Definition preview_limit (v : string) : Z :=
  match parse_int64 (trim_space v) with Some n => if (0 <? n) && (n <=? 100) then n else 20 | None => 20 end.

(** http/ui/filters.go:232-246 [Handler.handleFilterTest, one entry after the other] What does not compile is passed over. *)
Fixpoint preview (eng : FilterEngine.Engine regex) (f : Filter) (es : list Entry) (hits : list (option (gmap string bool)))
    : FilterEngine.Engine regex * list (Z * FilterEngine.MatchResult) :=
  match es with
  | [] => (eng, [])
  | e :: es =>
      let ctx := FilterEngine.mkMatchContext (e_feed_id e) None (default None (head hits)) in
      match FilterEngine.MatchEntryWithContext re_compile re_match eng e ctx [f] with
      | (eng, inr (m :: _)) => let '(eng, rows) := preview eng f es (tail hits) in (eng, (e_id e, FilterEngine.m_details m) :: rows)
      | (eng, _) => preview eng f es (tail hits)
      end
  end.

(** http/ui/filters.go [Handler.handleFilterTest] Failing listings and matchers show an empty preview. *)
Definition handleFilterTest (id : string) : fp_handler := λ c now r p st,
  match ui_parse_id id with
  | None => (st, bad_id)
  | Some id =>
      match st_GetFilter (fx_store st) (ui_me p) id with
      | (d, inl _) => (with_store st d, not_found)
      | (d, inr stored) =>
          let st := with_store st d in
          match fx_engine st with
          | Some eng =>
              if sv_entries (fp_sv c) then
                let es := match listEntries (fx_store st) (ui_me p) (preview_limit (query_limit r)) with inl _ => [] | inr es => es end in
                let f := engine_filter stored in
                let hits := match FilterEngine.QueryHits queryMatcher [f] (FilterEngine.QueryItemFromEntry <$> es) with
                            | inl _ => None | inr h => h end in
                let '(eng, rows) := preview eng f es (from_option (fmap Some) [] hits) in
                (with_engine st eng, GTest stored rows)
              else (st, GTest stored [])
          | None => (st, GTest stored [])
          end
      end
  end.

(** http/ui/filters.go [Handler.handleFilterMatches] The filter has to be the caller's. *)
Definition handleFilterMatches (id : string) : fp_handler := λ c now r p st,
  match ui_parse_id id with
  | None => (st, bad_id)
  | Some id =>
      match st_GetFilter (fx_store st) (ui_me p) id with
      | (d, inl _) => (with_store st d, not_found)
      | (d, inr f) =>
          match st_ListFilterMatches d id 100 0 with
          | (d, inl _) => (with_store st d, GError 500 "list matches failed")
          | (d, inr (rows, _)) => (with_store st d, GMatches f rows)
          end
      end
  end.

(** ** Labels *)

(** http/ui/labels.go [Handler.handleLabelsList] The counts beside the labels are left out. *)
Definition handleLabelsList : fp_handler := λ c now r p st,
  match st_ListLabels (fx_store st) (ui_me p) 1000 0 with
  | (d, inl _) => (with_store st d, GError 500 "list labels failed")
  | (d, inr (ls, _)) => (with_store st d, GLabels ls)
  end.

(** http/ui/labels.go [Handler.handleLabelCreate] *)
Definition handleLabelCreate : fp_handler := λ c now r p st,
  if negb (csrf c now r) then (st, no_token)
  else
    let caption := trim_space (FormValue r "caption") in
    if String.eqb caption "" then (st, GError 400 "caption required")
    else
      let l := mkCreateLabel (ui_me p) caption (trim_space (FormValue r "fg_color")) (trim_space (FormValue r "bg_color")) in
      match st_CreateLabel (fx_store st) l with
      | (d, inl e) => (with_store st d, failed e)
      | (d, inr _) =>
          let ref := localUIPath url_parse drop_flash request_uri (FormValue r "redirect") "" in
          (with_store st d, GRedirect (if String.eqb ref "" then refererOr url_parse drop_flash request_uri referer r "/ui/labels" else ref))
      end.

(** http/ui/labels.go [Handler.handleLabelUpdate] *)
Definition handleLabelUpdate (id : string) : fp_handler := λ c now r p st,
  if negb (csrf c now r) then (st, no_token)
  else match ui_parse_id id with
  | None => (st, bad_id)
  | Some id =>
      let caption := trim_space (FormValue r "caption") in
      if String.eqb caption "" then (st, GError 400 "caption required")
      else
        let l := mkUpdateLabel id (ui_me p) caption (trim_space (FormValue r "fg_color")) (trim_space (FormValue r "bg_color")) in
        match st_UpdateLabel (fx_store st) l with
        | (d, inl _) => (with_store st d, not_found)
        | (d, inr _) => (with_store st d, GRedirect "/ui/labels")
        end
  end.

(** http/ui/labels.go [Handler.handleLabelDelete] *)
Definition handleLabelDelete (id : string) : fp_handler := λ c now r p st,
  if negb (csrf c now r) then (st, no_token)
  else match ui_parse_id id with
  | None => (st, bad_id)
  | Some id =>
      match st_DeleteLabel (fx_store st) (ui_me p) id with
      | (d, Some _) => (with_store st d, not_found)
      | (d, None) => (with_store st d, GRedirect (refererOr url_parse drop_flash request_uri referer r "/ui/labels"))
      end
  end.

(** * Requests *)

(** The handlers above by name. *)
Definition filter_page_handle (e : UiRoute) : fp_handler := λ c now r p st,
  let named n := String.eqb (ro_handler e) n in
  let id := path_value (pat_segs (ro_pattern e)) (q_segs (ur_api r)) "id" in
  let h : fp_handler :=
    if named "handleFiltersList"%string then handleFiltersList
    else if named "handleFilterNew"%string then handleFilterNew
    else if named "handleFilterCreate"%string then handleFilterCreate
    else if named "handleFilterEdit"%string then handleFilterEdit id
    else if named "handleFilterUpdate"%string then handleFilterUpdate id
    else if named "handleFilterDelete"%string then handleFilterDelete id
    else if named "handleFilterMatches"%string then handleFilterMatches id
    else if named "handleFilterTest"%string then handleFilterTest id
    else if named "handleLabelsList"%string then handleLabelsList
    else if named "handleLabelCreate"%string then handleLabelCreate
    else if named "handleLabelUpdate"%string then handleLabelUpdate id
    else if named "handleLabelDelete"%string then handleLabelDelete id
    else λ _ _ _ _ st, (st, GElsewhere (ro_handler e)) in
  h c now r p st.

(** The request's URI as the browser sent it. *)
Context (uri : UiRequest → string).

(** One request to these pages. *)
Definition filter_page (c : FPServer) (now : Z) (r : UiRequest) (st : FSt) : FSt * fpage :=
  match ui_route (ui_InboundFeeds (fp_ui c)) (q_method (ur_api r)) (q_segs (ur_api r)) with
  | None => (st, GElsewhere "404")
  | Some e => page_guarded fx_api put_fapi GRedirect no_token uri (ro_guard e) (fp_ui c) (filter_page_handle e c) now r st
  end.

End Pages.

(** * What a page does to the store *)

Section Facts.
Context {regex : Type} (re_compile : string → option regex) (re_match : regex → string → bool).
Context (fdb : FeedDb) (edb : EntryDb) (collate : relation string) `{!RelDecision collate}.
Context (url_parse : string → option (string * string)) (drop_flash : string → string) (request_uri : string → string → string).
Context (hmac64 : string → string → string) (format_day : Z → string) (referer : UiRequest → string).
Context (listEntries : FaultyDb → Z → Z → err + list Entry)
        (queryMatcher : option (list FilterEngine.QueryMatchItem → list string → option (list (list bool))))
        (catalog : Catalog) (hooks : Z → list Z) (decode_rules : string → option (list CreateFilterRuleParams))
        (query_limit : UiRequest → string) (filter_err_text : FilterEngine.filter_err → string) (err_text : err → string)
        (uri : UiRequest → string)
        (decode_filter : string → string + filterWriteRequest) (decode_test : string → string + filterTestRequest).
#[local] Existing Instances postgres postgres_labels.

Notation FSt := (@FState regex FaultyDb).
Local Notation csrf_ok := (validateCSRF hmac64 format_day).
Notation page := (filter_page (FilterStorage0 := postgres fdb edb) (LabelStorage0 := postgres_labels collate) re_compile re_match url_parse drop_flash
  request_uri hmac64 format_day referer listEntries queryMatcher catalog hooks decode_rules query_limit filter_err_text err_text uri).
Notation serve := (serve_f re_compile re_match fdb edb listEntries queryMatcher decode_filter decode_test filter_err_text).
Notation handle := (filter_page_handle (FilterStorage0 := postgres fdb edb) (LabelStorage0 := postgres_labels collate) re_compile re_match url_parse drop_flash
  request_uri hmac64 format_day referer listEntries queryMatcher catalog hooks decode_rules query_limit filter_err_text err_text).

Definition is_label_op (op : filter_op) : bool :=
  match op with OpCreateLabel _ | OpUpdateLabel _ | OpDeleteLabel _ _ => true | _ => false end.

(** A page changes nothing, or does one operation of its user: of filters, whose cached list goes, or of labels. *)
Definition page_effect (sv : FServer) (me : Z) (st st' : FSt) : Prop :=
  (db_of st' = db_of st ∧ fx_cache st' = fx_cache st) ∨
  ∃ op, op_user op = Some me ∧ db_of st' = run_op fdb edb op (db_of st) ∧
    fx_cache st' = (if negb (is_label_op op) && sv_refresher sv then ttl_invalidate (fx_cache st) me else fx_cache st).

(** What a page may show to a user. *)
Definition page_shows (u : Z) (st : FSt) (resp : fpage) : Prop :=
  match resp with
  | GFilters fs => Forall (λ f, ft_UserID (sf_row f) = u) fs
  | GForm (Some f) _ _ | GTest f _ => ft_UserID (sf_row f) = u
  | GMatches f rows => ft_UserID (sf_row f) = u ∧ ∀ row, row ∈ rows → mt_FilterID row.1.2 = sf_ID f
  | GLabels ls => Forall (λ l, lb_UserID l.2 = u) ls
  | _ => True
  end.

Definition page_ok (sv : FServer) (me : Z) (st : FSt) (out : FSt * fpage) : Prop :=
  page_effect sv me st out.1 ∧ page_shows me st out.2.

Lemma page_none sv me (st st' : FSt) resp : db_of st' = db_of st → fx_cache st' = fx_cache st → page_shows me st resp → page_ok sv me st (st', resp).
Proof. intros D C R. split; [by left|done]. Qed.

(** A call that writes: refused, nothing is written; done, it is the operation. *)
Lemma page_written {A} sv me what (f : FilterDb → FilterDb * (err + A)) op (st : FSt) d (r : err + A) :
  (∀ db db' e, f db = (db', inl e) → db' = db) → (∀ db, run_op fdb edb op db = (f db).1) → op_user op = Some me →
  fcall (fx_store st) what f = (d, r) →
  match r with
  | inl _ => fy_db d = db_of st
  | inr _ => ∀ st', db_of st' = fy_db d →
      fx_cache st' = (if negb (is_label_op op) && sv_refresher sv then ttl_invalidate (fx_cache st) me else fx_cache st) → page_effect sv me st st'
  end.
Proof.
  intros K R U F. destruct r as [e|a].
  - by apply fcall_inl in F as [F _].
  - apply fcall_inr in F. intros st' D C. right. exists op. split; [done|]. split; [|done]. rewrite R, D. unfold db_of. by rewrite F.
Qed.

Lemma invalidated sv u (st : FSt) : db_of (InvalidateFilterCache sv u st) = db_of st ∧
  fx_cache (InvalidateFilterCache sv u st) = (if sv_refresher sv then ttl_invalidate (fx_cache st) u else fx_cache st).
Proof. unfold InvalidateFilterCache. by destruct (sv_refresher sv). Qed.

Lemma page_list c now r p st : page_ok (fp_sv c) (ui_me p) st (handleFiltersList (FilterStorage0 := postgres fdb edb) c now r p st).
Proof.
  unfold handleFiltersList. cbn [st_ListFilters postgres]. destruct (fcall _ _ _) as [d [e|[fs total]]] eqn:F.
  - apply fcall_inl in F as [F _]; [|done]. by apply page_none.
  - apply fcall_inr, pair_inr in F as [F1 F2]. apply page_none; [exact (eq_sym F1)|done|]. apply Forall_forall. intros f I.
    unfold ListFilters in F2. destruct (page_of _ _ _) as [rows tot] eqn:P. injection F2 as <- _.
    apply list_elem_of_fmap in I as ([k row] & -> & I).
    assert (I' : (k, row) ∈ (page_of 1000 0 (t_select (λ r, ft_UserID r =? ui_me p) (key_le ft_OrderID) (fb_filters (fy_db (fx_store st))))).1) by (by rewrite P).
    apply page_of_sub, elem_of_t_select in I' as [_ U]. simpl in *. lia.
Qed.

Lemma form_data c u feeds (st : FSt) :
  let out := prepareFilterFormData (LabelStorage0 := postgres_labels collate) catalog hooks c u feeds st in
  db_of out.1 = db_of st ∧ fx_cache out.1 = fx_cache st.
Proof.
  unfold prepareFilterFormData. destruct (fp_labels c); [|done]. cbn [st_ListLabels postgres_labels].
  pose proof (fcall_read (fx_store st) "list labels" (λ db, inr (ListLabels collate db u 500 0))) as R.
  destruct (fcall _ _ _) as [d [e|[ls t]]]; exact (conj R eq_refl).
Qed.

(** The pages of one filter read it first. *)
Lemma page_of_filter (st : FSt) u id :
  let out := fcall (fx_store st) "get filter" (λ db, (db, GetFilter db u id)) in
  fy_db out.1 = db_of st ∧ ∀ f, out.2 = inr f → ft_UserID (sf_row f) = u ∧ sf_ID f = id.
Proof.
  split; [apply fcall_read|]. intros f E. destruct (fcall _ _ _) as [d r] eqn:F. cbn [snd] in E. subst r.
  apply fcall_inr in F. injection F as _ F. apply GetFilter_owner in F as (U & I & _). done.
Qed.

Lemma page_new c now r p st : page_ok (fp_sv c) (ui_me p) st (handleFilterNew (LabelStorage0 := postgres_labels collate) catalog hooks c now r p st).
Proof.
  unfold handleFilterNew. pose proof (form_data c (ui_me p) [] st) as [D C].
  destruct (prepareFilterFormData _ _ _ _ _ _) as [st' ch]. by apply page_none.
Qed.

Lemma page_edit id c now r p st : page_ok (fp_sv c) (ui_me p) st
  (handleFilterEdit (FilterStorage0 := postgres fdb edb) (LabelStorage0 := postgres_labels collate) catalog hooks id c now r p st).
Proof.
  unfold handleFilterEdit. destruct (ui_parse_id id) as [n|]; [|by apply page_none]. cbn [st_GetFilter postgres].
  pose proof (page_of_filter st (ui_me p) n) as [D O]. destruct (fcall _ _ _) as [d [e|f]]; [by apply page_none|].
  pose proof (form_data c (ui_me p) (hydrateScopeFeeds catalog (ui_me p) (sf_ScopeItems f)) (with_store st d)) as [D' C'].
  destruct (prepareFilterFormData _ _ _ _ _ _) as [st' ch]. cbn [fst] in D', C'. apply page_none; [by rewrite D'|by rewrite C'|]. by apply O.
Qed.

Lemma page_create c now r p st : page_ok (fp_sv c) (ui_me p) st
  (handleFilterCreate (FilterStorage0 := postgres fdb edb) re_compile hmac64 format_day decode_rules filter_err_text err_text c now r p st).
Proof.
  unfold handleFilterCreate. destruct (negb _); [by apply page_none|]. destruct (filterParamsFromForm _ _) as [e|params]; [by apply page_none|].
  destruct (validateRuleLimits _ _ _ _); [by apply page_none|]. cbn [st_CreateFilter postgres]. destruct (fcall _ _ _) as [d res] eqn:F.
  apply (page_written (fp_sv c) (ui_me p) _ _ (OpCreateFilter now (of_user (ui_me p) params))) in F; [|apply create_fails|done|done].
  destruct res as [e|f]; [by apply page_none|]. split; [|done].
  destruct (invalidated (fp_sv c) (ui_me p) (with_store st d)) as [I1 I2]. by apply F.
Qed.

Lemma page_update id c now r p st : page_ok (fp_sv c) (ui_me p) st
  (handleFilterUpdate (FilterStorage0 := postgres fdb edb) re_compile hmac64 format_day decode_rules filter_err_text id c now r p st).
Proof.
  unfold handleFilterUpdate. destruct (negb _); [by apply page_none|]. destruct (ui_parse_id id) as [n|]; [|by apply page_none].
  destruct (filterParamsFromForm _ _) as [e|params]; [by apply page_none|].
  destruct (validateRuleLimits _ _ _ _); [by apply page_none|]. cbn [st_UpdateFilter postgres]. destruct (fcall _ _ _) as [d res] eqn:F.
  apply (page_written (fp_sv c) (ui_me p) _ _ (OpUpdateFilter now (mkUpdateFilter n (of_user (ui_me p) params)))) in F; [|apply filter_update_fails|done|done].
  destruct res as [e|f]; [by apply page_none|]. split; [|done].
  destruct (invalidated (fp_sv c) (ui_me p) (with_store st d)) as [I1 I2]. by apply F.
Qed.

Lemma page_delete id c now r p st : page_ok (fp_sv c) (ui_me p) st
  (handleFilterDelete (FilterStorage0 := postgres fdb edb) hmac64 format_day id c now r p st).
Proof.
  unfold handleFilterDelete. destruct (negb _); [by apply page_none|]. destruct (ui_parse_id id) as [n|]; [|by apply page_none].
  cbn [st_DeleteFilter postgres]. destruct (fcall _ _ _) as [d res] eqn:F.
  apply (page_written (fp_sv c) (ui_me p) _ _ (OpDeleteFilter (ui_me p) n)) in F; [| | |done].
  - destruct res as [e|[]]; [by apply page_none|]. split; [|done].
    destruct (invalidated (fp_sv c) (ui_me p) (with_store st d)) as [I1 I2]. by apply F.
  - intros db db' e. unfold DeleteFilter. repeat case_match; naive_solver.
  - intros db. cbn [run_op]. by destruct (DeleteFilter _ _ _).
Qed.

Lemma page_test id c now r p st : page_ok (fp_sv c) (ui_me p) st
  (handleFilterTest (FilterStorage0 := postgres fdb edb) re_compile re_match listEntries queryMatcher query_limit id c now r p st).
Proof.
  unfold handleFilterTest. destruct (ui_parse_id id) as [n|]; [|by apply page_none]. cbn [st_GetFilter postgres].
  pose proof (page_of_filter st (ui_me p) n) as [D O]. destruct (fcall _ _ _) as [d [e|f]]; [by apply page_none|].
  destruct (O f eq_refl) as [U _]. cbv zeta. destruct (fx_engine _) as [eng|]; [|by apply page_none].
  destruct (sv_entries _); [|by apply page_none]. destruct (preview _ _ _ _ _ _) as [eng' rows]. by apply page_none.
Qed.

Lemma page_matches id c now r p st : page_ok (fp_sv c) (ui_me p) st
  (handleFilterMatches (FilterStorage0 := postgres fdb edb) id c now r p st).
Proof.
  unfold handleFilterMatches. destruct (ui_parse_id id) as [n|]; [|by apply page_none]. cbn [st_GetFilter st_ListFilterMatches postgres].
  pose proof (page_of_filter st (ui_me p) n) as [D O]. destruct (fcall _ _ _) as [d [e|f]]; [by apply page_none|].
  destruct (O f eq_refl) as [U I]. cbn [fst] in D. destruct (fcall d _ _) as [d2 [e|[rows total]]] eqn:F.
  - apply fcall_inl in F as [F _]; [|by intros ? ? ? [=]]. apply page_none; [|done..]. unfold db_of in *. cbn. congruence.
  - apply fcall_inr, pair_inr in F as [F1 F2]. apply page_none; [unfold db_of in *; cbn; congruence|done|]. split; [done|].
    intros [[k m] e] H. assert (H' : (k, m, e) ∈ (ListFilterMatches edb (fy_db d) n 100 0).1) by (by rewrite F2).
    unfold ListFilterMatches in H'. apply page_of_sub, list_elem_of_omap in H' as ([k' m'] & H' & E).
    apply elem_of_t_select in H' as [_ P]. simpl in *. destruct (t_rows _ !! n); [|done]. simpl in E.
    destruct (ed_entries edb !! _); [|done]. simpl in E. injection E as <- <- <-. lia.
Qed.

Lemma page_labels c now r p st : page_ok (fp_sv c) (ui_me p) st (handleLabelsList (LabelStorage0 := postgres_labels collate) c now r p st).
Proof.
  unfold handleLabelsList. cbn [st_ListLabels postgres_labels]. destruct (fcall _ _ _) as [d [e|[ls total]]] eqn:F.
  - apply fcall_inl in F as [F _]; [|done]. by apply page_none.
  - apply fcall_inr, pair_inr in F as [F1 F2]. apply page_none; [exact (eq_sym F1)|done|]. apply Forall_forall. intros [k l] I.
    assert (I' : (k, l) ∈ (ListLabels collate (fy_db (fx_store st)) (ui_me p) 1000 0).1) by (by rewrite F2).
    apply page_of_sub, elem_of_t_select in I' as [_ U]. simpl in *. lia.
Qed.

Lemma page_label_create c now r p st : page_ok (fp_sv c) (ui_me p) st
  (handleLabelCreate (LabelStorage0 := postgres_labels collate) url_parse drop_flash request_uri hmac64 format_day referer err_text c now r p st).
Proof.
  unfold handleLabelCreate. destruct (negb _); [by apply page_none|]. cbv zeta. destruct (String.eqb _ _); [by apply page_none|].
  cbn [st_CreateLabel postgres_labels]. destruct (fcall _ _ _) as [d res] eqn:F.
  apply (page_written (fp_sv c) (ui_me p) _ _ (OpCreateLabel (mkCreateLabel (ui_me p) (trim_space (FormValue r "caption"))
    (trim_space (FormValue r "fg_color")) (trim_space (FormValue r "bg_color"))))) in F; [|intros db db' e; unfold CreateLabel; repeat case_match; naive_solver|done|done].
  destruct res as [e|f]; [by apply page_none|]. split; [by apply F|done].
Qed.

Lemma page_label_update id c now r p st : page_ok (fp_sv c) (ui_me p) st
  (handleLabelUpdate (LabelStorage0 := postgres_labels collate) hmac64 format_day id c now r p st).
Proof.
  unfold handleLabelUpdate. destruct (negb _); [by apply page_none|]. destruct (ui_parse_id id) as [n|]; [|by apply page_none].
  cbv zeta. destruct (String.eqb _ _); [by apply page_none|].
  cbn [st_UpdateLabel postgres_labels]. destruct (fcall _ _ _) as [d res] eqn:F.
  apply (page_written (fp_sv c) (ui_me p) _ _ (OpUpdateLabel (mkUpdateLabel n (ui_me p) (trim_space (FormValue r "caption"))
    (trim_space (FormValue r "fg_color")) (trim_space (FormValue r "bg_color"))))) in F; [|intros db db' e; unfold UpdateLabel; repeat case_match; naive_solver|done|done].
  destruct res as [e|f]; [by apply page_none|]. split; [by apply F|done].
Qed.

Lemma page_label_delete id c now r p st : page_ok (fp_sv c) (ui_me p) st
  (handleLabelDelete (LabelStorage0 := postgres_labels collate) url_parse drop_flash request_uri hmac64 format_day referer id c now r p st).
Proof.
  unfold handleLabelDelete. destruct (negb _); [by apply page_none|]. destruct (ui_parse_id id) as [n|]; [|by apply page_none].
  cbn [st_DeleteLabel postgres_labels]. destruct (fcall _ _ _) as [d res] eqn:F.
  apply (page_written (fp_sv c) (ui_me p) _ _ (OpDeleteLabel (ui_me p) n)) in F; [| | |done].
  - destruct res as [e|[]]; [by apply page_none|]. split; [by apply F|done].
  - intros db db' e. unfold DeleteLabel. repeat case_match; naive_solver.
  - intros db. cbn [run_op]. by destruct (DeleteLabel _ _ _).
Qed.

Lemma filter_page_handle_ok e c now r p st : page_ok (fp_sv c) (ui_me p) st (handle e c now r p st).
Proof.
  unfold filter_page_handle. cbv zeta.
  repeat (case_match; [first [apply page_list|apply page_new|apply page_create|apply page_edit|apply page_update|apply page_delete|apply page_matches
    |apply page_test|apply page_labels|apply page_label_create|apply page_label_update|apply page_label_delete]|]).
  by apply page_none.
Qed.

(** The pages of filters and labels are behind a guard. *)
Definition filter_page_names : list string :=
  ["handleFiltersList"; "handleFilterNew"; "handleFilterCreate"; "handleFilterEdit"; "handleFilterUpdate"; "handleFilterDelete";
   "handleFilterMatches"; "handleFilterTest"; "handleLabelsList"; "handleLabelCreate"; "handleLabelUpdate"; "handleLabelDelete"]%string.
Definition filter_guard (e : UiRoute) : bool :=
  match ro_guard e with GPublic => forallb (λ n, negb (String.eqb (ro_handler e) n)) filter_page_names | _ => true end.

Lemma filter_routes b e : e ∈ ui_routes b → filter_guard e = true.
Proof.
  intros H. assert (F : forallb filter_guard (ui_routes b) = true) by (destruct b; vm_compute; reflexivity).
  rewrite forallb_forall in F. apply F. by apply list_elem_of_In.
Qed.

(** A route without a guard is none of these pages. *)
Lemma filter_page_public b e c now r st : e ∈ ui_routes b → ro_guard e = GPublic → handle e c now r None st = (st, GElsewhere (ro_handler e)).
Proof.
  intros I G. apply filter_routes in I. unfold filter_guard in I. rewrite G, forallb_forall in I.
  assert (N : ∀ n, In n filter_page_names → String.eqb (ro_handler e) n = false) by (intros n Hn; by apply negb_true_iff, I).
  unfold filter_page_handle. cbv zeta. by rewrite !N by (unfold filter_page_names; simpl; tauto).
Qed.

(** One request: nothing, or one operation of the session's user. *)
Lemma filter_page_ok c now r st : let out := page c now r st in
  (db_of out.1 = db_of st ∧ fx_cache out.1 = fx_cache st ∧ match out.2 with GError _ _ | GRedirect _ | GElsewhere _ => True | _ => False end) ∨
  ∃ p, by_cookie now (api_users (fx_api st)) (ur_api r) p ∧ page_ok (fp_sv c) (p_UserID p) st out.
Proof.
  cbv zeta. unfold filter_page. destruct (ui_route _ _ _) as [e|] eqn:R; [|by left]. apply ui_route_spec in R as [I _].
  destruct (decide (ro_guard e = GPublic)) as [P|P].
  { left. rewrite P. cbn [page_guarded]. by erewrite filter_page_public. }
  destruct (page_guarded_cases fx_api put_fapi GRedirect no_token uri (ro_guard e) (fp_ui c) (handle e c) now r st P)
    as [(db & resp & -> & [-> |[loc ->]])|(p & db & B & -> & _)]; [by left|by left|].
  right. exists p. split; [done|]. exact (filter_page_handle_ok e c now r (Some p) (put_fapi (with_db (fx_api st) db) st)).
Qed.

(** Readers and editors are isolated on these pages as well: whatever a user does there, every other user's filters, labels
    and marks stay, and the pages show what is the user's own; the matches are those of a filter of the user, whatever
    fails on the way. *)
Lemma filter_pages_isolated c now r st st' resp : filters_wf (db_of st) → page c now r st = (st', resp) →
  match resp with GError _ _ | GRedirect _ | GElsewhere _ => db_of st' = db_of st ∨ ∃ p, by_cookie now (api_users (fx_api st)) (ur_api r) p
     ∧ ∀ v, v ≠ p_UserID p → same_for v (db_of st) (db_of st')
  | _ => ∃ p, by_cookie now (api_users (fx_api st)) (ur_api r) p ∧ page_shows (p_UserID p) st resp ∧
     ∀ v, v ≠ p_UserID p → same_for v (db_of st) (db_of st')
  end.
Proof.
  intros W E. destruct (filter_page_ok c now r st) as [(D & _ & K)|(p & B & F & S)]; rewrite E in *; cbn [fst snd] in *.
  - by destruct resp; try done; left.
  - assert (V : ∀ v, v ≠ p_UserID p → same_for v (db_of st) (db_of st')).
    { intros v N. destruct F as [[-> _]|(op & U & -> & _)]; [apply same_for_refl|]. eapply run_op_same; [done|exact U|congruence]. }
    destruct resp; eauto.
Qed.

(** ** The refresher's cache *)

Lemma label_op_filters op db : is_label_op op = true → let db' := run_op fdb edb op db in
  fb_filters db' = fb_filters db ∧ fb_rules db' = fb_rules db ∧ fb_scope db' = fb_scope db ∧ fb_actions db' = fb_actions db.
Proof.
  intros L. destruct op as [| | | |p|p|u id|]; try done; cbn [run_op].
  - unfold CreateLabel. repeat case_match; done.
  - unfold UpdateLabel. repeat case_match; done.
  - unfold DeleteLabel. repeat case_match; done.
Qed.

(** A label changes no filter. *)
Lemma label_op_enabled op db u : is_label_op op = true → ListEnabledFilters (run_op fdb edb op db) u 1000 = ListEnabledFilters db u 1000.
Proof.
  intros (E1 & E2 & E3 & E4)%(label_op_filters op db). set (db' := run_op _ _ _ _) in *. clearbody db'. destruct db, db'. cbn in *. by subst.
Qed.

Lemma page_wf sv me st st' : page_effect sv me st st' → filters_wf (db_of st) → filters_wf (db_of st').
Proof. intros [[-> _]|(op & _ & -> & _)] W; [done|]. by apply wf_run_op. Qed.

Lemma page_coherent sv me st st' : sv_refresher sv = true → page_effect sv me st st' → filters_wf (db_of st) → coherent st → coherent st'.
Proof.
  intros R [[E1 E2]|(op & U & E1 & E2)] W C; [intros u it H; rewrite E1; rewrite E2 in H; by apply C|].
  destruct (is_label_op op) eqn:L; cbn [negb andb] in E2.
  - intros u it H. rewrite E2 in H. unfold current. rewrite E1, label_op_enabled by done. by apply C.
  - rewrite R in E2. intros u it H. rewrite E1. rewrite E2 in H. unfold ttl_invalidate in H.
    destruct (me <=? 0); cbn [tc_items] in H; [by rewrite lookup_empty in H|]. apply lookup_delete_Some in H as [N H]. unfold current.
    rewrite (ListEnabled_same u (db_of st)); [by apply C|]. by eapply run_op_same; [|exact U|].
Qed.

(** What happens to the store and the cache: requests to the API and to the pages,
    polls through the same refresher, and the matches they record. *)
Inductive fevent :=
| EvRequest (limit offset : string) (s : Server) (now : Z) (r : ApiRequest) (me : Principal)
| EvPage (now : Z) (r : UiRequest)
| EvPoll (now userID : Z)
| EvMatches (ms : list CreateFilterMatchParams).

Definition fstep (c : FPServer) (st : FSt) (e : fevent) : FSt :=
  match e with
  | EvRequest l o s now r me => fst (serve l o s (fp_sv c) now r (Some me) st)
  | EvPage now r => fst (page c now r st)
  | EvPoll now u => fst (listEnabledFiltersCached (FilterStorage0 := postgres fdb edb) now u st)
  | EvMatches ms => with_store st (mkFaulty (fst (CreateFilterMatches edb (db_of st) ms)) (fy_fails (fx_store st)))
  end.

Lemma fstep_keeps c st e : sv_refresher (fp_sv c) = true → filters_wf (db_of st) → coherent st →
  filters_wf (db_of (fstep c st e)) ∧ coherent (fstep c st e).
Proof.
  intros R W C. destruct e as [l o s now r me|now r|now u|ms]; cbn [fstep].
  - destruct (serve_ok re_compile re_match fdb edb listEntries queryMatcher decode_filter decode_test filter_err_text l o s (fp_sv c) now r (Some me) st W) as [F _]. split; [by eapply effect_wf|by eapply effect_coherent].
  - destruct (filter_page_ok c now r st) as [(D & K & _)|(p & _ & F & _)]; [|split; [by eapply page_wf|by eapply page_coherent]].
    split; [by rewrite D|]. intros u it H. rewrite K in H. rewrite D. by apply C.
  - unfold listEnabledFiltersCached. pose proof (ttl_get_sub (fx_cache st) now u enabledFilterCacheTTL) as Sub.
    destruct (ttl_get _ _ _ _) as [cc [fs|]]; cbn [fst] in Sub; [split; [done|]; intros k it H; apply C, Sub, H|].
    cbn [st_ListEnabledFilters postgres]. destruct (fcall _ _ _) as [d [e|fs]] eqn:F; cbn [fst].
    + apply fcall_inl in F as [F _]; [|by intros ? ? ? [=]]. split; unfold coherent, db_of in *; cbn [fx_store fx_cache]; rewrite F; [done|].
      intros k it H. apply C, Sub, H.
    + apply fcall_inr, pair_inr in F as [F1 F2]. split; unfold coherent, db_of in *; cbn [fx_store fx_cache]; rewrite <-F1; [done|].
      intros k it H. unfold ttl_put in H. cbn [tc_items] in H. apply lookup_insert_Some in H as [[<- <-]|[_ H]]; [|by apply C, Sub].
      cbn [it_val]. by rewrite <-F2.
  - split; [unfold db_of; by apply wf_matches|]. intros k it H. unfold current, db_of. cbn [with_store fx_store fy_db].
    rewrite matches_same_engine by done. by apply C.
Qed.

(** The two refreshers of a process: the one the requests go through, whose cache is [fx_cache], and the worker's, with a
    cache of its own over the same tables and engine (cmd/rssam/main.go, http/server.go). *)
Record Refreshers := mkRefreshers { rf_http : FSt; rf_worker : @ttlCache (list StoredFilter) }.
Definition with_cache (st : FSt) (cc : @ttlCache (list StoredFilter)) : FSt := mkFState (fx_api st) (fx_store st) cc (fx_engine st).
Definition tables (rs : Refreshers) : FilterDb := db_of (rf_http rs).

(** The filters of a user as the poll of a request, of an inbound feed or by hand, gets them. *)
Definition http_filters (now u : Z) (rs : Refreshers) : Refreshers * (err + list StoredFilter) :=
  let '(st, r) := listEnabledFiltersCached (FilterStorage0 := postgres fdb edb) now u (rf_http rs) in (mkRefreshers st (rf_worker rs), r).
(** And as a poll of the worker gets them. *)
Definition worker_filters (now u : Z) (rs : Refreshers) : Refreshers * (err + list StoredFilter) :=
  let '(st, r) := listEnabledFiltersCached (FilterStorage0 := postgres fdb edb) now u (with_cache (rf_http rs) (rf_worker rs)) in
  (mkRefreshers (with_cache st (fx_cache (rf_http rs))) (fx_cache st), r).

(** What happens in a process: the events above, polls of the worker, and what other parts do to the tables, as when the
    deletion of a feed takes the scopes that name it. *)
Inductive revent := RHttp (e : fevent) | RWorker (now u : Z) | RElsewhere (f : FilterDb → FilterDb).
Definition through_http (e : revent) : Prop := match e with RElsewhere _ => False | _ => True end.

Definition rstep (c : FPServer) (rs : Refreshers) (e : revent) : Refreshers :=
  match e with
  | RHttp e => mkRefreshers (fstep c (rf_http rs) e) (rf_worker rs)
  | RWorker now u => fst (worker_filters now u rs)
  | RElsewhere f => mkRefreshers (with_store (rf_http rs) (mkFaulty (f (tables rs)) (fy_fails (fx_store (rf_http rs))))) (rf_worker rs)
  end.

(** Asking for filters: the tables stay, and the answer is the cached one, young enough, or a fresh load, which is kept. *)
Lemma cached_filters now u (st st' : FSt) r : listEnabledFiltersCached (FilterStorage0 := postgres fdb edb) now u st = (st', r) →
  db_of st' = db_of st ∧
  (∀ k it, tc_items (fx_cache st') !! k = Some it → tc_items (fx_cache st) !! k = Some it ∨
     (k = u ∧ it_at it = now ∧ it_val it = ListEnabledFilters (db_of st) u 1000)) ∧
  match r with
  | inr fs => fs = ListEnabledFilters (db_of st) u 1000 ∨
      ∃ it, tc_items (fx_cache st) !! u = Some it ∧ it_val it = fs ∧ time_sub now (it_at it) < enabledFilterCacheTTL
  | inl _ => True
  end.
Proof.
  unfold listEnabledFiltersCached. pose proof (ttl_get_sub (fx_cache st) now u enabledFilterCacheTTL) as Sub.
  assert (V : ∀ fs, (ttl_get (fx_cache st) now u enabledFilterCacheTTL).2 = Some fs →
    ∃ it, tc_items (fx_cache st) !! u = Some it ∧ it_val it = fs ∧ time_sub now (it_at it) < enabledFilterCacheTTL).
  { unfold ttl_get. intros fs. destruct (tc_items (fx_cache st) !! u) as [it|]; [|done]. destruct (Z.leb_spec enabledFilterCacheTTL (time_sub now (it_at it))); [done|].
    intros [= <-]. by exists it. }
  destruct (ttl_get _ _ _ _) as [cc [fs|]]; cbn [fst snd] in *.
  - intros [= <- <-]. split; [done|]. split; [intros k it H; left; by apply Sub|right; by apply V].
  - cbn [st_ListEnabledFilters postgres]. destruct (fcall _ _ _) as [d [e|fs]] eqn:F; intros [= <- <-]; unfold db_of in *; cbn [fx_store fx_cache].
    + apply fcall_inl in F as [F _]; [|by intros ? ? ? [=]]. split; [done|]. split; [|done]. intros k it H. left. by apply Sub.
    + apply fcall_inr, pair_inr in F as [F1 F2]. split; [done|]. split; [|by left]. intros k it H. unfold ttl_put in H. cbn [tc_items] in H.
      apply lookup_insert_Some in H as [[<- <-]|[_ H]]; [by right|left; by apply Sub].
Qed.

Lemma rstep_keeps c rs e : sv_refresher (fp_sv c) = true → through_http e → filters_wf (tables rs) → coherent (rf_http rs) →
  filters_wf (tables (rstep c rs e)) ∧ coherent (rf_http (rstep c rs e)).
Proof.
  intros R T W C. destruct e as [e|now u|f]; [by apply fstep_keeps| |done]. cbn [rstep]. unfold worker_filters.
  destruct (listEnabledFiltersCached _ _ _) as [st r] eqn:L. apply cached_filters in L as (D & _ & _). unfold tables, coherent. cbn [fst rf_http].
  change (db_of (with_cache st _)) with (db_of st). rewrite D. by split.
Qed.

(** What the worker keeps is what a load gave at one of its earlier polls. *)
Lemma worker_kept c rs evs : tc_items (rf_worker rs) = ∅ → ∀ u it, tc_items (rf_worker (foldl (rstep c) rs evs)) !! u = Some it →
  ∃ pre post, evs = pre ++ RWorker (it_at it) u :: post ∧ it_val it = ListEnabledFilters (tables (foldl (rstep c) rs pre)) u 1000.
Proof.
  intros E. induction evs as [|e evs IH] using rev_ind; intros u it H; [cbn [foldl] in H; by rewrite E, lookup_empty in H|].
  assert (Old : tc_items (rf_worker (foldl (rstep c) rs evs)) !! u = Some it →
    ∃ pre post, evs ++ [e] = pre ++ RWorker (it_at it) u :: post ∧ it_val it = ListEnabledFilters (tables (foldl (rstep c) rs pre)) u 1000).
  { intros (pre & post & -> & V)%IH. exists pre, (post ++ [e]). by rewrite <-app_assoc. }
  rewrite foldl_app in H. cbn [foldl] in H. destruct e as [e|now v|f]; cbn [rstep] in H; [by apply Old| |by apply Old].
  unfold worker_filters in H. destruct (listEnabledFiltersCached _ _ _) as [st r] eqn:L. apply cached_filters in L as (_ & K & _).
  cbn [fst rf_worker] in H. apply K in H as [H|(-> & <- & V)]; [by apply Old|]. by exists evs, [].
Qed.

(** C31: The filters a poll applies are the stored ones, or for the worker those of at most five seconds ago.  A process has
    two refreshers, each with a cache of its own.  In any sequence of requests to the API and to the pages of filters and
    labels, polls of both, recorded matches, and changes of the tables from elsewhere, with any storage call failing: what a
    request's poll (by hand, or of an inbound feed) gets is what a fresh load of that user's enabled filters would give the
    engine at that moment, as long as nothing from elsewhere changed them, since each write drops the cached list; what a poll
    of the worker gets, whose cache no write reaches, is what the tables gave at that moment, or at an earlier poll of the
    worker that its clock puts less than five seconds back. *)
Theorem filter_cache_current (c : FPServer) (rs : Refreshers) (evs : list revent) (now u : Z) :
  sv_refresher (fp_sv c) = true → filters_wf (tables rs) → tc_items (fx_cache (rf_http rs)) = ∅ → tc_items (rf_worker rs) = ∅ →
  let after evs := foldl (rstep c) rs evs in
  (∀ rs' fs, Forall through_http evs → http_filters now u (after evs) = (rs', inr fs) →
     engine_filter <$> fs = engine_filter <$> ListEnabledFilters (tables (after evs)) u 1000) ∧
  (∀ rs' fs, worker_filters now u (after evs) = (rs', inr fs) →
     fs = ListEnabledFilters (tables (after evs)) u 1000 ∨
     ∃ pre post t, evs = pre ++ RWorker t u :: post ∧ time_sub now t < enabledFilterCacheTTL ∧ fs = ListEnabledFilters (tables (after pre)) u 1000).
Proof.
  intros R W E Ew. cbv zeta. split; intros rs' fs.
  - intros T H. assert (C : coherent (rf_http rs)) by (intros k it L; by rewrite E, lookup_empty in L).
    assert (K : filters_wf (tables (foldl (rstep c) rs evs)) ∧ coherent (rf_http (foldl (rstep c) rs evs))).
    { clear E Ew H. revert rs W C T. induction evs as [|e evs IH]; intros rs W C T; [done|]. apply Forall_cons_1 in T as [T Ts].
      destruct (rstep_keeps c rs e R T W C). by apply IH. }
    destruct K as [_ K]. unfold http_filters in H. destruct (listEnabledFiltersCached _ _ _) as [st r] eqn:L. injection H as _ ->.
    apply cached_filters in L as (_ & _ & [->|(it & L & <- & _)]); [done|]. by apply K.
  - intros H. unfold worker_filters in H. destruct (listEnabledFiltersCached _ _ _) as [st r] eqn:L. injection H as _ ->.
    apply cached_filters in L as (_ & _ & [->|(it & L & <- & Y)]); [by left|]. right.
    destruct (worker_kept c rs evs Ew u it L) as (pre & post & P & V). by exists pre, post, (it_at it).
Qed.

End Facts.

(** * Concrete requests *)

Definition w_fp_server : FPServer := mkFPServer u_config w_fsrv true.
Definition w_fp_state : @FState string FaultyDb := put_fapi (mkApi w_db []) (w_fstate []).
(** The form of filter 1 under a new name. *)
Definition w_fp_form (session token : string) : UiRequest :=
  saved_form (w_request "POST" ["ui"; "filters"; "1"]%string session) token wit_choices
    (mkStored 1 (mkFilterRow 1 "renamed" true false false 3 "all" 0 10 10) [(1, mkRuleRow 1 "title" "ads" false "and" 0)] [] []).
Definition w_fp_page := filter_page (FilterStorage0 := postgres wit_feed_db w_entries) (LabelStorage0 := postgres_labels eq)
  FilterEngine.lit_compile FilterEngine.lit_match u_parse id u_uri u_hmac u_day (λ _, ""%string) w_list None wit_catalog (λ _, []) (λ _, None)
  (λ _, ""%string) w_text (λ _, "refused"%string) (λ _, "/ui/filters"%string).

(** A reader's session does not reach the filters, an editor's saves them. *)
Example filter_page_roles :
  (w_fp_page w_fp_server 60 (w_fp_form "ann" "kann|d") w_fp_state).2 = GError 403 "forbidden" ∧
  (w_fp_page w_fp_server 60 (w_fp_form "sid" "ksid|d") w_fp_state).2 = GRedirect "/ui/filters/1".
Proof. split; vm_compute; reflexivity. Qed.

Lemma filter_pages_isolated_witness :
  let out := w_fp_page w_fp_server 60 (w_fp_form "sid" "ksid|d") w_fp_state in
  out.2 = GRedirect "/ui/filters/1" ∧
  (db_of out.1 = db_of w_fp_state ∨ ∃ p, by_cookie 60 w_db (ur_api (w_fp_form "sid" "ksid|d")) p ∧ ∀ v, v ≠ p_UserID p → same_for v (db_of w_fp_state) (db_of out.1)).
Proof.
  intros out. assert (R : out.2 = GRedirect "/ui/filters/1") by (vm_compute; reflexivity). split; [exact R|].
  destruct out as [st' resp] eqn:E. cbn [snd] in R. subst resp.
  exact (filter_pages_isolated FilterEngine.lit_compile FilterEngine.lit_match wit_feed_db w_entries eq u_parse id u_uri u_hmac u_day (λ _, ""%string) w_list None
    wit_catalog (λ _, []) (λ _, None) (λ _, ""%string) w_text (λ _, "refused"%string) (λ _, "/ui/filters"%string) w_body w_test w_fp_server 60 (w_fp_form "sid" "ksid|d")
    w_fp_state st' (GRedirect "/ui/filters/1") (w_fstate_wf []) E).
Defined.

(** Both refreshers cache the filters at 50 and the page at 51 renames one: at 53 the refresher of the requests sees the new
    name, the worker the old one. *)
Lemma filter_cache_current_witness :
  let step := rstep FilterEngine.lit_compile FilterEngine.lit_match wit_feed_db w_entries eq u_parse id u_uri u_hmac u_day (λ _, ""%string) w_list None
    wit_catalog (λ _, []) (λ _, None) (λ _, ""%string) w_text (λ _, "refused"%string) (λ _, "/ui/filters"%string) w_body w_test w_fp_server in
  let evs := [RHttp (EvPoll 50 1); RWorker 50 1; RHttp (EvPage 51 (w_fp_form "sid" "ksid|d"));
              RHttp (EvRequest "" "" w_srv 52 (w_freq "DELETE" ["v1"; "filters"; "9"]%string "") w_editor); RHttp (EvMatches [mkMatchParams 1 2 52 ""])] in
  let rs := foldl step (mkRefreshers w_fp_state ttl_new) evs in
  let names (x : Refreshers * (err + list StoredFilter)) := from_option (fmap (ft_Name ∘ sf_row)) [] (match x.2 with inr fs => Some fs | _ => None end) in
  names (http_filters wit_feed_db w_entries 53 1 rs) = ["renamed"]%string ∧
  names (worker_filters wit_feed_db w_entries 53 1 rs) = ["News"]%string ∧
  names (worker_filters wit_feed_db w_entries (50 + 5 * second) 1 rs) = ["renamed"]%string ∧
  (∃ fs, (http_filters wit_feed_db w_entries 53 1 rs).2 = inr fs ∧
     engine_filter <$> fs = engine_filter <$> ListEnabledFilters (tables rs) 1 1000) ∧
  (∃ fs, (worker_filters wit_feed_db w_entries 53 1 rs).2 = inr fs ∧
     (fs = ListEnabledFilters (tables rs) 1 1000 ∨ ∃ pre post t, evs = pre ++ RWorker t 1 :: post ∧ time_sub 53 t < enabledFilterCacheTTL ∧
        fs = ListEnabledFilters (tables (foldl step (mkRefreshers w_fp_state ttl_new) pre)) 1 1000)).
Proof.
  intros step evs rs names.
  assert (N1 : names (http_filters wit_feed_db w_entries 53 1 rs) = ["renamed"]%string) by (vm_compute; reflexivity).
  assert (N2 : names (worker_filters wit_feed_db w_entries 53 1 rs) = ["News"]%string) by (vm_compute; reflexivity).
  split; [exact N1|]. split; [exact N2|]. split; [vm_compute; reflexivity|].
  destruct (filter_cache_current FilterEngine.lit_compile FilterEngine.lit_match wit_feed_db w_entries eq u_parse id u_uri u_hmac u_day (λ _, ""%string) w_list None
    wit_catalog (λ _, []) (λ _, None) (λ _, ""%string) w_text (λ _, "refused"%string) (λ _, "/ui/filters"%string) w_body w_test
    w_fp_server (mkRefreshers w_fp_state ttl_new) evs 53 1 eq_refl (w_fstate_wf []) eq_refl eq_refl) as [H1 H2].
  split.
  - destruct (http_filters wit_feed_db w_entries 53 1 rs) as [rs' [e|fs]] eqn:E; [discriminate N1|]. exists fs. split; [reflexivity|].
    apply (H1 rs' fs); [|exact E]. repeat (constructor; [exact I|]). constructor.
  - destruct (worker_filters wit_feed_db w_entries 53 1 rs) as [rs' [e|fs]] eqn:E; [discriminate N2|]. exists fs. split; [reflexivity|].
    exact (H2 rs' fs E).
Defined.
