(* ===== verification/WebhookPages.v ===== *)
(** The pages of webhooks ([http/ui/webhooks.go], [http/ui/admin_webhooks.go]): the table with its states, the form, the
    buttons and the log of deliveries, over the tables of [WebhookApi.v] and the views of [HookOverview.v].  The times among
    the persistent counters, which no row of the model holds, are parameters, like the test delivery. *)

From S2P Require Import Prelude GoStrings Types FeedStore WebhookStore EntryStore Outbound Tables FilterStore.
From S2P Require Import UserStore ApiAuth UiAuth WebhookApi WebhookApiSpec Pages PagesSpec.
From S2P Require HookOverview ClientIP.

(** * The state of a webhook *)

(** http/ui/admin_webhooks.go [adminWebhookStatuses] *)
Definition adminWebhookStatuses : list string := ["ok"; "queue"; "retrying"; "error"; "disabled"; "idle"]%string.

(** http/ui/admin_webhooks.go [isAdminWebhookStatus] *)
Definition isAdminWebhookStatus (status : string) : bool := bool_decide (status ∈ adminWebhookStatuses).

(** http/ui/admin_webhooks.go [webhookLastOutcomeFailed] *)
Definition webhookLastOutcomeFailed (lastFailed lastSent : option Z) : bool :=
  match lastFailed, lastSent with None, _ => false | Some _, None => true | Some f, Some s => s <? f end.

(** http/ui/admin_webhooks.go [classifyAdminWebhookStatus] *)
Definition classifyAdminWebhookStatus (lastFailed lastSent : option Z) (r : HookOverview.AdminWebhookRow) : string :=
  if negb (wh_enabled (HookOverview.aw_Webhook r)) then "disabled"
  else if webhookLastOutcomeFailed lastFailed lastSent then "error"
  else if 0 <? HookOverview.aw_QueueDueCount r then "queue"
  else if 0 <? HookOverview.aw_RetryingCount r then "retrying"
  else if HookOverview.aw_SentCount r =? 0 then "idle"
  else "ok".

(** http/ui/admin_webhooks.go [adminWebhookRowView] *)
Record adminWebhookRowView := mkHookView { hv_row : HookOverview.AdminWebhookRow; hv_Status : string; hv_FloodPausedUntil : option Z }.

(** http/ui/admin_webhooks.go [countAdminWebhookStatuses] By the status counted. *)
Definition countAdminWebhookStatuses (rows : list adminWebhookRowView) (status : string) : Z :=
  Z.of_nat (length (filter (λ v, hv_Status v = status) rows)).

(** http/ui/admin_webhooks.go [filterAdminWebhookRows] *)
Definition filterAdminWebhookRows (rows : list adminWebhookRowView) (status : string) : list adminWebhookRowView :=
  if String.eqb status "" || String.eqb status "all" then rows else filter (λ v, hv_Status v = status) rows.

(** http/ui/admin_webhooks.go [webhookLabel] *)
Definition webhookLabel (name url : string) (id : Z) : string :=
  let s := trim_space name in
  if negb (String.eqb s "") then s
  else
    let s := trim_space url in
    if negb (String.eqb s "") then s else if 0 <? id then "#" +:+ format_int id else "webhook".

(** http/ui/admin_webhooks.go [webhookLogsSince] *)
Definition webhookLogsSince (now : Z) (period : string) : option Z :=
  if String.eqb period "24h" then Some (now - 24 * hour) else if String.eqb period "7d" then Some (now - 7 * 24 * hour) else None.

(** http/ui/admin_webhooks.go [parseWebhookLogsFilter] From the two query values. *)
Definition parseWebhookLogsFilter (status period : string) : string * string :=
  let status := trim_space status in
  let period := trim_space period in
  (if bool_decide (status ∈ ["pending"; "sent"; "failed"; "dead"]%string) then status else "",
   if String.eqb period "24h" || String.eqb period "7d" then period else "")%string.

(** * Pages *)

(** What the form of a webhook shows: the signing secret of its own webhook, never a bot token. *)
Record HookForm := mkHookForm {
  hf_hook : StoredHook; hf_tokenSet : bool; hf_telegram : TelegramProviderConfig; hf_max : MaxProviderConfig;
  hf_detail : option adminWebhookRowView; hf_feeds : list (Z * string); hf_filters : list (Z * string);
}.

Inductive hpage :=
| HError (status : Z) (msg : string)
| HRedirect (loc : string)
| HFailed (loc action : string)
| HList (rows : list adminWebhookRowView) (filter : string) (summary : HookOverview.AdminWebhookSummary)
| HNew
| HForm (f : HookForm) (flash : option (bool * string))
| HLogs (rows : list HookOverview.WebhookLogRow)
| HPlainLogs (rows : list WLog)
| HElsewhere (handler : string).

(** What is configured. *)
Record HPServer := mkHPServer { hp_ui : UiConfig; hp_admin : bool; hp_quotas : Limits; hp_test : option (Z → Z → err + bool * string) }.

Notation no_token := (HError 403 "forbidden").
Notation bad_id := (HError 400 "invalid id").
Notation not_found := (HError 404 "404 page not found").

Section Pages.
Context (decode_tg : string → string + TelegramProviderConfig) (decode_max : string → string + MaxProviderConfig)
        (json_valid : string → bool) (url_parse : string → option (string * string)).
Context (ui_parse : string → option (string * string)) (drop_flash : string → string) (request_uri : string → string → string).
Context (hmac64 : string → string → string) (format_day : Z → string) (referer : UiRequest → string).
(** The query of a request, the times of the delivery rows and among the counters, the floods waited out, and the tables the
    views read beside the webhooks. *)
Context (query : UiRequest → string → string) (updated_at created_at : Z → Z) (last_failed last_sent : Z → option Z) (flood_until : Z → option Z)
        (entries : gmap Z EntryRow) (filters : FilterDb) (name_le : relation (Z * string)) `{!RelDecision name_le} (log_created : WLog → Z).

Definition hp_handler : Type := HPServer → Z → UiRequest → option Principal → WState → WState * hpage.

Definition put_wapi (a : Api) (st : WState) : WState := mkWState a (wx_hooks st).
Definition haudit (c : HPServer) (r : UiRequest) (p : option Principal) (action : string) (id : Z) (st : WState) : WState :=
  waudit (ui_server (hp_ui c)) (ur_api r) p action id st.
Notation csrf c now r := (validateCSRF hmac64 format_day (hp_ui c) now r).

(** ** Views *)

Definition view_of (r : HookOverview.AdminWebhookRow) : adminWebhookRowView :=
  let id := HookOverview.aw_ID r in
  mkHookView r (classifyAdminWebhookStatus (last_failed id) (last_sent id) r) (flood_until id).

(** A webhook without its counters, as the list shows it when there are none. *)
Definition plain_row (id : Z) (w : Webhook) : HookOverview.AdminWebhookRow := HookOverview.mkAdminHook id w 0 0 0 0 0 None 0 0.

(** http/ui/webhooks.go [Handler.loadAdminWebhooksDashboard] The rows, the filter and the summary. *)
Definition loadAdminWebhooksDashboard (c : HPServer) (now : Z) (r : UiRequest) (userID : Z) (ad : HookAdmin)
    : err + list adminWebhookRowView * string * HookOverview.AdminWebhookSummary :=
  if negb (hp_admin c) then
    let whs := (ListWebhooks ad userID 1000 0).1 in
    inr ((λ h, mkHookView (plain_row h.1 h.2.1) (classifyAdminWebhookStatus None None (plain_row h.1 h.2.1)) None) <$> whs, "",
         HookOverview.mkHookSummary (Z.of_nat (length whs)) 0 0 0 0 0)%string
  else
    match HookOverview.ListAdminWebhooks now updated_at (ha_hooks ad) (ha_feeds ad) filters userID with
    | inl e => inl e
    | inr rows =>
        let status := trim_space (query r "status") in
        let status := if isAdminWebhookStatus status then status else "all"%string in
        inr (filterAdminWebhookRows (view_of <$> rows) status, status, HookOverview.adminWebhookSummary now updated_at (ha_hooks ad) userID)
    end.

(** http/ui/webhooks.go [fillWebhookProviderFields] What does not decode shows empty. *)
Definition fillWebhookProviderFields (h : StoredHook) : bool * TelegramProviderConfig * MaxProviderConfig :=
  let cfg := hm_ProviderConfig h.2 in
  let tg := match decode_tg cfg with inr t => t | inl _ => mkTelegram "" "" "" end in
  (negb (String.eqb (trim_space (tg_BotToken tg)) ""), mkTelegram (tg_APIBase tg) "" (tg_ChatID tg),
   match decode_max cfg with inr m => m | inl _ => mkMax "" "" "" end).

Definition hook_form (h : StoredHook) (detail : option adminWebhookRowView) (feeds filters : list (Z * string)) : HookForm :=
  let '(set, tg, mx) := fillWebhookProviderFields h in mkHookForm h set tg mx detail feeds filters.

(** http/ui/webhooks.go [Handler.loadWebhookDetail] *)
Definition loadWebhookDetail (c : HPServer) (now userID id : Z) (ad : HookAdmin) : err + HookForm :=
  if hp_admin c then
    match HookOverview.GetAdminWebhook now updated_at (ha_hooks ad) (ha_feeds ad) filters userID id with
    | inl e => inl e
    | inr row =>
        match ha_more ad !! id with
        | None => inl ENotFound
        | Some m =>
            inr (hook_form (HookOverview.aw_Webhook row, m) (Some (view_of row))
                   (HookOverview.ListWebhookBindingFeeds (ha_feeds ad) name_le userID id)
                   (HookOverview.ListWebhookBindingFilters filters name_le userID id))
        end
    end
  else match GetWebhook ad userID id with inl e => inl e | inr h => inr (hook_form h None [] []) end.

(** ** The form *)

(** http/ui/webhooks.go [webhookParamsFromForm] The page has no field for the headers; the user is filled in later. *)
Definition webhookParamsFromForm (r : UiRequest) : string + CreateWebhookParams :=
  let kind := trim_space (FormValue r "kind") in
  let method := trim_space (FormValue r "method") in
  let method := if String.eqb method "" then "POST"%string else method in
  let digest := trim_space (FormValue r "digest_minutes") in
  match (if String.eqb digest "" then Some 0 else parse_int64 digest) with
  | None => inl "digest_minutes: integer minutes expected"%string
  | Some n =>
      let params url cfg :=
        mkCreateWebhook 0 (FormValue r "name") url method "" (FormValue r "body_template") (FormValue r "secret")
          (String.eqb (FormValue r "enabled") "1") (FormValue r "on_success_entry") kind cfg (String.eqb (FormValue r "system_alerts") "1") n in
      let url := trim_space (FormValue r "url") in
      match NormalizeWebhookKind kind with
      | None => inl "kind must be http, telegram, or max"%string
      | Some k =>
          if String.eqb k "telegram" then
            inr (params url (telegram_json (mkTelegram (FormValue r "telegram_api_base") (FormValue r "telegram_bot_token") (FormValue r "telegram_chat_id"))))
          else if String.eqb k "max" then
            inr (params url (max_json (mkMax (FormValue r "max_api_base") (FormValue r "max_target") (FormValue r "max_target_id"))))
          else if String.eqb url "" then inl "url is required"%string
          else inr (params url "")
      end
  end.

Definition hook_of_user (userID : Z) (p : CreateWebhookParams) : CreateWebhookParams :=
  mkCreateWebhook userID (cw_Name p) (cw_URL p) (cw_Method p) (cw_Headers p) (cw_BodyTemplate p) (cw_Secret p) (cw_Enabled p) (cw_OnSuccessEntry p)
    (cw_Kind p) (cw_ProviderConfig p) (cw_SystemAlerts p) (cw_DigestMinutes p).

(** ** Handlers *)

(** http/ui/webhooks.go [Handler.handleWebhooksList] *)
Definition handleWebhooksList : hp_handler := λ c now r p st,
  match loadAdminWebhooksDashboard c now r (ui_me p) (wx_hooks st) with
  | inl _ => (st, HError 500 "list webhooks failed")
  | inr (rows, status, summary) => (st, HList rows status summary)
  end.

(** http/ui/webhooks.go [Handler.handleWebhookNew] *)
Definition handleWebhookNew : hp_handler := λ c now r p st, (st, HNew).

(** http/ui/webhooks.go [Handler.handleWebhookEdit] *)
Definition handleWebhookEdit (id : string) : hp_handler := λ c now r p st,
  match ui_parse_id id with
  | None => (st, bad_id)
  | Some id =>
      match loadWebhookDetail c now (ui_me p) id (wx_hooks st) with
      | inl _ => (st, not_found)
      | inr f => (st, HForm f (if String.eqb (query r "stats_reset") "1" then Some (true, "counters reset"%string) else None))
      end
  end.

(** http/ui/webhooks.go [Handler.handleWebhookCreate] *)
Definition handleWebhookCreate : hp_handler := λ c now r p st,
  if negb (csrf c now r) then (st, no_token)
  else match webhookParamsFromForm r with
  | inl e => (st, HError 400 e)
  | inr params =>
      let me := UiAuth.principal p in
      let over := (0 <? MaxWebhooksPerEditor (hp_quotas c)) && negb (IsAdmin me) &&
                  negb (quota_Webhooks (hp_quotas c) me (ListWebhooks (wx_hooks st) (p_UserID me) 1 0).2) in
      if over then (st, HError 429 ("webhook limit reached (" +:+ format_int (MaxWebhooksPerEditor (hp_quotas c)) +:+ " per editor)"))
      else match CreateWebhook decode_tg decode_max json_valid url_parse (wx_hooks st) (hook_of_user (ui_me p) params) with
      | (ad, inl e) => (with_hooks st ad, HError 400 (err_text e))
      | (ad, inr h) => (haudit c r p "webhook.create" (wh_id h.1) (with_hooks st ad), HRedirect "/ui/webhooks")
      end
  end.

(** http/ui/webhooks.go [Handler.handleWebhookUpdate] *)
Definition handleWebhookUpdate (id : string) : hp_handler := λ c now r p st,
  if negb (csrf c now r) then (st, no_token)
  else match ui_parse_id id with
  | None => (st, bad_id)
  | Some id =>
      match webhookParamsFromForm r with
      | inl e => (st, HError 400 e)
      | inr q =>
          match UpdateWebhook decode_tg decode_max json_valid url_parse (wx_hooks st)
                  (mkUpdateWebhook id (ui_me p) (Some (cw_Name q)) (cw_URL q) (cw_Method q) (cw_Headers q) (cw_BodyTemplate q) (Some (cw_Secret q))
                     (cw_Enabled q) (cw_OnSuccessEntry q) (cw_Kind q) (cw_ProviderConfig q) (cw_SystemAlerts q) (cw_DigestMinutes q)) with
          | (ad, inl e) => (with_hooks st ad, HError 400 (err_text e))
          | (ad, inr _) => (haudit c r p "webhook.update" id (with_hooks st ad), HRedirect ("/ui/webhooks/" +:+ format_int id))
          end
      end
  end.

(** http/ui/webhooks.go [Handler.handleWebhookDelete] *)
Definition handleWebhookDelete (id : string) : hp_handler := λ c now r p st,
  if negb (csrf c now r) then (st, no_token)
  else match ui_parse_id id with
  | None => (st, bad_id)
  | Some id =>
      match DeleteWebhook (wx_hooks st) (ui_me p) id with
      | (ad, Some _) => (with_hooks st ad, not_found)
      | (ad, None) => (haudit c r p "webhook.delete" id (with_hooks st ad), HRedirect "/ui/webhooks")
      end
  end.

(** http/ui/webhooks.go [webhooksListRedirect] *)
Definition webhooksListRedirect (r : UiRequest) : string :=
  let status := trim_space (FormValue r "status") in
  if isAdminWebhookStatus status then "/ui/webhooks?status=" +:+ status
  else if String.eqb status "all" then "/ui/webhooks"
  else refererOr ui_parse drop_flash request_uri referer r "/ui/webhooks".

(** http/ui/webhooks.go [Handler.setWebhookEnabled] *)
Definition setWebhookEnabled (enabled : bool) (id : string) : hp_handler := λ c now r p st,
  if negb (csrf c now r) then (st, no_token)
  else match ui_parse_id id with
  | None => (st, bad_id)
  | Some id =>
      match GetWebhook (wx_hooks st) (ui_me p) id with
      | inl _ => (st, not_found)
      | inr _ =>
          match SetWebhookEnabled (ha_hooks (wx_hooks st)) (ui_me p) id enabled with
          | (_, Some e) => (st, HError 500 (err_text e))
          | (h, None) => (with_hooks st (with_hook_db (wx_hooks st) h), HRedirect (webhooksListRedirect r))
          end
      end
  end.

(** http/ui/webhooks.go [Handler.handleWebhookPause] *)
Definition handleWebhookPause (id : string) : hp_handler := setWebhookEnabled false id.
(** http/ui/webhooks.go [Handler.handleWebhookUnpause] *)
Definition handleWebhookUnpause (id : string) : hp_handler := setWebhookEnabled true id.

(** http/ui/webhooks.go [Handler.handleWebhookTest] *)
Definition handleWebhookTest (id : string) : hp_handler := λ c now r p st,
  if negb (csrf c now r) then (st, no_token)
  else match ui_parse_id id with
  | None => (st, bad_id)
  | Some id =>
      match loadWebhookDetail c now (ui_me p) id (wx_hooks st) with
      | inl _ => (st, not_found)
      | inr f =>
          match hp_test c with
          | None => (st, HForm f (Some (false, "no test"%string)))
          | Some test => (st, HForm f (Some (match test (ui_me p) id with inl e => (false, err_text e) | inr res => res end)))
          end
      end
  end.

(** http/ui/webhooks.go [Handler.handleWebhookRetryAll] *)
Definition handleWebhookRetryAll (id : string) : hp_handler := λ c now r p st,
  if negb (csrf c now r) then (st, no_token)
  else match ui_parse_id id with
  | None => (st, bad_id)
  | Some id =>
      match GetWebhook (wx_hooks st) (ui_me p) id with
      | inl _ => (st, not_found)
      | inr _ =>
          let st := if hp_admin c then with_hooks st (with_hook_db (wx_hooks st) (HookOverview.RetryAllWebhookLogs now (ha_hooks (wx_hooks st)) id).1) else st in
          (st, HRedirect ("/ui/webhooks/" +:+ format_int id))
      end
  end.

(** http/ui/webhooks.go [Handler.handleWebhookResetStats] *)
Definition handleWebhookResetStats (id : string) : hp_handler := λ c now r p st,
  if negb (csrf c now r) then (st, no_token)
  else match ui_parse_id id with
  | None => (st, bad_id)
  | Some id =>
      if negb (hp_admin c) then (st, HError 501 "webhook stats are not available")
      else match HookOverview.ResetWebhookStats (ha_hooks (wx_hooks st)) (ui_me p) id with
      | (_, Some e) => (st, if err_is_not_found e then not_found else HError 500 "reset webhook stats failed")
      | (h, None) => (with_hooks st (with_hook_db (wx_hooks st) h), HRedirect ("/ui/webhooks/" +:+ format_int id +:+ "?stats_reset=1"))
      end
  end.

(** http/ui/webhooks.go [Handler.handleWebhookLogs] *)
Definition handleWebhookLogs (id : string) : hp_handler := λ c now r p st,
  match ui_parse_id id with
  | None => (st, bad_id)
  | Some id =>
      match GetWebhook (wx_hooks st) (ui_me p) id with
      | inl _ => (st, not_found)
      | inr _ =>
          let ad := wx_hooks st in
          if hp_admin c then
            let '(status, period) := parseWebhookLogsFilter (query r "status") (query r "period") in
            (st, HLogs (HookOverview.ListWebhookLogRows created_at (ha_hooks ad) (ha_feeds ad) entries filters id status (webhookLogsSince now period) 200 0).1)
          else (st, HPlainLogs (ListWebhookLogs log_created ad id 200 0).1)
      end
  end.

(** http/ui/webhooks.go [Handler.handleWebhookLogRetry] *)
Definition handleWebhookLogRetry (id : string) : hp_handler := λ c now r p st,
  if negb (csrf c now r) then (st, no_token)
  else match ui_parse_id id with
  | None => (st, bad_id)
  | Some id =>
      let target := refererOr ui_parse drop_flash request_uri referer r "/ui/webhooks" in
      match RetryWebhookLogNow now (ha_hooks (wx_hooks st)) (ui_me p) id with
      | (_, Some _) => (st, HFailed target "webhook log retry")
      | (h, None) => (with_hooks st (with_hook_db (wx_hooks st) h), HRedirect target)
      end
  end.

(** * Requests *)

(** The handlers above by name. *)
Definition webhook_page_handle (e : UiRoute) : hp_handler := λ c now r p st,
  let named n := String.eqb (ro_handler e) n in
  let id := path_value (pat_segs (ro_pattern e)) (q_segs (ur_api r)) "id" in
  let h : hp_handler :=
    if named "handleWebhooksList"%string then handleWebhooksList
    else if named "handleWebhookNew"%string then handleWebhookNew
    else if named "handleWebhookCreate"%string then handleWebhookCreate
    else if named "handleWebhookEdit"%string then handleWebhookEdit id
    else if named "handleWebhookUpdate"%string then handleWebhookUpdate id
    else if named "handleWebhookDelete"%string then handleWebhookDelete id
    else if named "handleWebhookPause"%string then handleWebhookPause id
    else if named "handleWebhookUnpause"%string then handleWebhookUnpause id
    else if named "handleWebhookTest"%string then handleWebhookTest id
    else if named "handleWebhookLogs"%string then handleWebhookLogs id
    else if named "handleWebhookRetryAll"%string then handleWebhookRetryAll id
    else if named "handleWebhookResetStats"%string then handleWebhookResetStats id
    else if named "handleWebhookLogRetry"%string then handleWebhookLogRetry id
    else λ _ _ _ _ st, (st, HElsewhere (ro_handler e)) in
  h c now r p st.

(** The request's URI as the browser sent it. *)
Context (uri : UiRequest → string).

(** One request to these pages. *)
Definition webhook_page (c : HPServer) (now : Z) (r : UiRequest) (st : WState) : WState * hpage :=
  match ui_route (ui_InboundFeeds (hp_ui c)) (q_method (ur_api r)) (q_segs (ur_api r)) with
  | None => (st, HElsewhere "404")
  | Some e => page_guarded wx_api put_wapi HRedirect no_token uri (ro_guard e) (hp_ui c) (webhook_page_handle e c) now r st
  end.

End Pages.

(** * What a page does *)

Lemma row_update_wf ad id w w' : hooks_wf ad → hd_webhooks (ha_hooks ad) !! id = Some w → wh_id w' = wh_id w →
  hooks_wf (with_hook_db ad (with_webhooks (ha_hooks ad) (<[id := w']> (hd_webhooks (ha_hooks ad))))).
Proof.
  intros [O M] L I. split; cbn [with_hook_db ha_hooks with_webhooks hd_webhooks ha_more ha_next]; intros k x.
  - intros [[<- <-]|[N H]]%lookup_insert_Some; [|by apply O]. destruct (O _ _ L) as (Q & ? & ?). by rewrite I.
  - intros H. destruct (decide (id = k)) as [<-|N]; [rewrite lookup_insert_eq|rewrite lookup_insert_ne by done]; eauto.
Qed.

Lemma row_update_same v ad id w w' : hd_webhooks (ha_hooks ad) !! id = Some w → wh_user_id w' = wh_user_id w → wh_user_id w ≠ v →
  same_hooks_for v ad (with_hook_db ad (with_webhooks (ha_hooks ad) (<[id := w']> (hd_webhooks (ha_hooks ad))))).
Proof.
  intros L U N. split; [|done]. intros k. unfold own_hook. cbn [with_hook_db ha_hooks with_webhooks hd_webhooks ha_more].
  destruct (decide (id = k)) as [<-|D]; [|by rewrite lookup_insert_ne]. rewrite lookup_insert_eq, L. cbn [mbind option_bind].
  destruct (ha_more ad !! id); [|done]. cbn [mbind option_bind]. by rewrite U, (proj2 (Z.eqb_neq _ _) N).
Qed.

Lemma retry_all_keeps v ad now id u : hook_owner ad id = Some u → u ≠ v → hooks_wf ad →
  let ad' := with_hook_db ad (HookOverview.RetryAllWebhookLogs now (ha_hooks ad) id).1 in hooks_wf ad' ∧ same_hooks_for v ad ad'.
Proof.
  intros O N [W1 W2]. split; [by split|]. split; [done|]. intros k l H.
  cbn [HookOverview.RetryAllWebhookLogs fst with_hook_db ha_hooks with_logs hd_logs]. rewrite lookup_fmap.
  assert (K : ∀ x, wl_webhook_id x = wl_webhook_id l →
    bool_decide (wl_webhook_id x = id) && (bool_decide (wl_status x = Failed) || bool_decide (wl_status x = Dead)) = false).
  { intros x E. rewrite bool_decide_false; [done|]. intros E'. rewrite <-E, E', O in H. congruence. }
  destruct (hd_logs (ha_hooks ad) !! k) as [x|]; [|done]. cbn [fmap option_fmap option_map]. split; intros [= E].
  - destruct (_ && _) eqn:B; [|by rewrite E]. rewrite (K x) in B; [done|]. by rewrite <-E.
  - subst x. by rewrite K.
Qed.

Section Facts.
Context (decode_tg : string → string + TelegramProviderConfig) (decode_max : string → string + MaxProviderConfig)
        (json_valid : string → bool) (url_parse : string → option (string * string)).
Context (ui_parse : string → option (string * string)) (drop_flash : string → string) (request_uri : string → string → string).
Context (hmac64 : string → string → string) (format_day : Z → string) (referer : UiRequest → string).
Context (query : UiRequest → string → string) (updated_at created_at : Z → Z) (last_failed last_sent : Z → option Z) (flood_until : Z → option Z)
        (entries : gmap Z EntryRow) (filters : FilterDb) (name_le : relation (Z * string)) `{!RelDecision name_le} (log_created : WLog → Z)
        (uri : UiRequest → string).

Notation page := (webhook_page decode_tg decode_max json_valid url_parse ui_parse drop_flash request_uri hmac64 format_day referer query updated_at
  created_at last_failed last_sent flood_until entries filters name_le log_created uri).
Notation handle := (webhook_page_handle decode_tg decode_max json_valid url_parse ui_parse drop_flash request_uri hmac64 format_day referer query
  updated_at created_at last_failed last_sent flood_until entries filters name_le log_created).
Notation detail := (loadWebhookDetail decode_tg decode_max updated_at last_failed last_sent flood_until filters name_le).

(** A page of user [me] leaves the webhooks alone, or changes what is the user's own and keeps the tables consistent. *)
Definition own_change (me : Z) (ad ad' : HookAdmin) : Prop :=
  hooks_wf ad → hooks_wf ad' ∧ ∀ v, v ≠ me → same_hooks_for v ad ad'.

(** What a page shows to user [u]: their own webhooks, and no bot token. *)
Definition page_shows (u : Z) (ad : HookAdmin) (resp : hpage) : Prop :=
  match resp with
  | HList rows _ _ => ∀ v, v ∈ rows → wh_user_id (HookOverview.aw_Webhook (hv_row v)) = u
  | HForm f _ => wh_user_id (hf_hook f).1 = u ∧ tg_BotToken (hf_telegram f) = ""%string
  | HLogs rows => ∀ l, l ∈ rows → hook_owner ad (wl_webhook_id (HookOverview.lr_Log l)) = Some u
  | HPlainLogs rows => ∀ l, l ∈ rows → hook_owner ad (wl_webhook_id l) = Some u
  | _ => True
  end.

Definition page_ok (me : Z) (st : WState) (out : WState * hpage) : Prop :=
  own_change me (wx_hooks st) (wx_hooks out.1) ∧ page_shows me (wx_hooks st) out.2.

Lemma own_same me ad : own_change me ad ad.
Proof. intros W. split; [done|]. intros v _. apply same_hooks_refl. Qed.

Lemma own_op me ad op : hop_user op = me → own_change me ad (run_hook_op decode_tg decode_max json_valid url_parse op ad).
Proof. intros U W. split; [by apply run_hook_wf|]. intros v N. apply run_hook_same; [done|congruence]. Qed.

Lemma page_refused me st resp : match resp with HList _ _ _ | HForm _ _ | HLogs _ | HPlainLogs _ => False | _ => True end → page_ok me st (st, resp).
Proof. intros H. split; [apply own_same|by destruct resp]. Qed.

Lemma form_own h d fs gs : hf_hook (hook_form decode_tg decode_max h d fs gs) = h ∧ tg_BotToken (hf_telegram (hook_form decode_tg decode_max h d fs gs)) = ""%string.
Proof. unfold hook_form, fillWebhookProviderFields. done. Qed.

Lemma admin_rows_own now ad u rows : HookOverview.ListAdminWebhooks now updated_at (ha_hooks ad) (ha_feeds ad) filters u = inr rows →
  ∀ r, r ∈ rows → wh_user_id (HookOverview.aw_Webhook r) = u.
Proof.
  unfold HookOverview.ListAdminWebhooks. intros H r I.
  assert (K : ∃ id h targets, (id, h) ∈ HookOverview.user_hooks (ha_hooks ad) u ∧ r = HookOverview.hook_row now updated_at (ha_hooks ad) (ha_feeds ad) targets id h).
  { destruct (HookOverview.user_hooks _ u) as [|x l]; [injection H as <-; by apply elem_of_nil in I|].
    destruct (HookOverview.action_targets _) as [|targets]; [done|]. rewrite <-(inj inr _ _ H) in I. apply list_elem_of_fmap in I as ([id h] & -> & I). eauto. }
  destruct K as (id & h & targets & K & ->). unfold HookOverview.user_hooks in K. rewrite merge_sort_Permutation in K.
  by apply elem_of_map_to_list, map_lookup_filter_Some in K as [_ K].
Qed.

Lemma detail_own c now u id ad f : detail c now u id ad = inr f → wh_user_id (hf_hook f).1 = u ∧ tg_BotToken (hf_telegram f) = ""%string.
Proof.
  unfold loadWebhookDetail. destruct (hp_admin c).
  - unfold HookOverview.GetAdminWebhook. destruct (HookOverview.ListAdminWebhooks _ _ _ _ _ _) as [|rows] eqn:L; [done|].
    destruct (list_find _ rows) as [[i row]|] eqn:F; [|done]. destruct (ha_more ad !! id) as [m|]; [|done]. intros [= <-].
    apply list_find_Some in F as (F & _ & _). split; [|by apply form_own]. rewrite (proj1 (form_own _ _ _ _)). cbn [fst].
    eapply admin_rows_own; [exact L|]. eapply list_elem_of_lookup_2. exact F.
  - destruct (GetWebhook ad u id) as [|h] eqn:G; [done|]. apply GetWebhook_own in G as [_ U]. intros [= <-].
    by rewrite (proj1 (form_own _ _ _ _)).
Qed.

Lemma hp_list c now r p st : page_ok (ui_me p) st
  (handleWebhooksList query updated_at last_failed last_sent flood_until filters c now r p st).
Proof.
  unfold handleWebhooksList, loadAdminWebhooksDashboard. destruct (hp_admin c); cbn [negb].
  - destruct (HookOverview.ListAdminWebhooks _ _ _ _ _ _) as [|rows] eqn:L; [by apply page_refused|]. cbv zeta. split; [apply own_same|].
    intros v I. assert (I' : v ∈ view_of last_failed last_sent flood_until <$> rows).
    { unfold filterAdminWebhookRows in I. destruct (_ || _); [done|]. by apply list_elem_of_filter in I as [_ I]. }
    apply list_elem_of_fmap in I' as (row & -> & I'). by eapply admin_rows_own.
  - split; [apply own_same|]. intros v I. apply list_elem_of_fmap in I as ([id [w m]] & -> & I). cbn [hv_row plain_row HookOverview.aw_Webhook fst snd].
    apply page_of_sub, elem_of_user_hooks, own_hook_inv in I as (_ & _ & ?). done.
Qed.

Lemma hp_edit id c now r p st : page_ok (ui_me p) st
  (handleWebhookEdit decode_tg decode_max query updated_at last_failed last_sent flood_until filters name_le id c now r p st).
Proof.
  unfold handleWebhookEdit. destruct (ui_parse_id id) as [n|]; [|by apply page_refused].
  destruct (detail c now (ui_me p) n (wx_hooks st)) as [|f] eqn:D; [by apply page_refused|]. split; [apply own_same|]. by apply detail_own in D.
Qed.

Lemma hp_create c now r p st : page_ok (ui_me p) st
  (handleWebhookCreate decode_tg decode_max json_valid url_parse hmac64 format_day c now r p st).
Proof.
  unfold handleWebhookCreate. destruct (negb _); [by apply page_refused|]. destruct (webhookParamsFromForm r) as [|q]; [by apply page_refused|].
  cbv zeta. destruct (_ && _); [by apply page_refused|].
  pose proof (own_op (ui_me p) (wx_hooks st) (OpCreate (hook_of_user (ui_me p) q)) eq_refl) as O. cbn [run_hook_op] in O.
  destruct (CreateWebhook _ _ _ _ _ _) as [ad [e|h]]; by split.
Qed.

Lemma hp_update id c now r p st : page_ok (ui_me p) st
  (handleWebhookUpdate decode_tg decode_max json_valid url_parse hmac64 format_day id c now r p st).
Proof.
  unfold handleWebhookUpdate. destruct (negb _); [by apply page_refused|]. destruct (ui_parse_id id) as [n|]; [|by apply page_refused].
  destruct (webhookParamsFromForm r) as [|q]; [by apply page_refused|].
  match goal with |- context [UpdateWebhook _ _ _ _ _ ?u] => pose proof (own_op (ui_me p) (wx_hooks st) (OpUpdate u) eq_refl) as O end.
  cbn [run_hook_op] in O. destruct (UpdateWebhook _ _ _ _ _ _) as [ad [e|h]]; by split.
Qed.

Lemma hp_delete id c now r p st : page_ok (ui_me p) st (handleWebhookDelete hmac64 format_day id c now r p st).
Proof.
  unfold handleWebhookDelete. destruct (negb _); [by apply page_refused|]. destruct (ui_parse_id id) as [n|]; [|by apply page_refused].
  pose proof (own_op (ui_me p) (wx_hooks st) (OpDelete (ui_me p) n) eq_refl) as O. cbn [run_hook_op] in O.
  destruct (DeleteWebhook _ _ _) as [ad [e|]]; by split.
Qed.

Lemma hp_enable b id c now r p st : page_ok (ui_me p) st
  (setWebhookEnabled ui_parse drop_flash request_uri hmac64 format_day referer b id c now r p st).
Proof.
  unfold setWebhookEnabled. destruct (negb _); [by apply page_refused|]. destruct (ui_parse_id id) as [n|]; [|by apply page_refused].
  destruct (GetWebhook _ _ n); [by apply page_refused|]. unfold SetWebhookEnabled.
  destruct (hd_webhooks _ !! n) as [w|] eqn:L; [|by apply page_refused]. destruct (Z.eqb_spec (wh_user_id w) (ui_me p)) as [U|]; [|by apply page_refused].
  split; [|done]. intros W. split; [by eapply row_update_wf|]. intros v N. eapply row_update_same; [exact L|done|congruence].
Qed.

Lemma hp_tested id c now r p st : page_ok (ui_me p) st
  (handleWebhookTest decode_tg decode_max hmac64 format_day updated_at last_failed last_sent flood_until filters name_le id c now r p st).
Proof.
  unfold handleWebhookTest. destruct (negb _); [by apply page_refused|]. destruct (ui_parse_id id) as [n|]; [|by apply page_refused].
  destruct (detail c now (ui_me p) n (wx_hooks st)) as [|f] eqn:D; [by apply page_refused|]. apply detail_own in D.
  destruct (hp_test c); (split; [apply own_same|exact D]).
Qed.

Lemma hp_retry_all id c now r p st : page_ok (ui_me p) st (handleWebhookRetryAll hmac64 format_day id c now r p st).
Proof.
  unfold handleWebhookRetryAll. destruct (negb _); [by apply page_refused|]. destruct (ui_parse_id id) as [n|]; [|by apply page_refused].
  destruct (GetWebhook _ _ n) as [|[w m]] eqn:G; [by apply page_refused|]. apply GetWebhook_own in G as [G _]. apply own_hook_inv in G as (L & _ & U).
  destruct (hp_admin c); [|by apply page_refused]. split; [|done]. intros W.
  assert (O : hook_owner (wx_hooks st) n = Some (ui_me p)) by (unfold hook_owner; rewrite L; cbn; congruence).
  split; [by apply (retry_all_keeps (ui_me p + 1) _ now n (ui_me p) O ltac:(lia) W)|]. intros v N. by apply (retry_all_keeps v _ now n (ui_me p) O).
Qed.

Lemma hp_reset id c now r p st : page_ok (ui_me p) st (handleWebhookResetStats hmac64 format_day id c now r p st).
Proof.
  unfold handleWebhookResetStats. destruct (negb _); [by apply page_refused|]. destruct (ui_parse_id id) as [n|]; [|by apply page_refused].
  destruct (negb _); [by apply page_refused|]. unfold HookOverview.ResetWebhookStats.
  destruct (hd_webhooks _ !! n) as [w|] eqn:L; [|by apply page_refused]. destruct (Z.eqb_spec (wh_user_id w) (ui_me p)) as [U|]; [|by apply page_refused].
  split; [|done]. intros W. split; [by eapply row_update_wf|]. intros v N. eapply row_update_same; [exact L|done|congruence].
Qed.

Lemma hp_logs id c now r p st : page_ok (ui_me p) st (handleWebhookLogs query created_at entries filters log_created id c now r p st).
Proof.
  unfold handleWebhookLogs. destruct (ui_parse_id id) as [n|]; [|by apply page_refused].
  destruct (GetWebhook _ _ n) as [|[w m]] eqn:G; [by apply page_refused|]. apply GetWebhook_own in G as [G _]. apply own_hook_inv in G as (L & _ & U).
  assert (O : hook_owner (wx_hooks st) n = Some (ui_me p)) by (unfold hook_owner; rewrite L; cbn; congruence).
  cbv zeta. destruct (hp_admin c).
  - destruct (parseWebhookLogsFilter _ _) as [status period]. split; [apply own_same|]. intros l I. unfold HookOverview.ListWebhookLogRows in I.
    apply page_of_sub, list_elem_of_fmap in I as ([k x] & -> & I). rewrite merge_sort_Permutation in I.
    apply list_elem_of_filter in I as [K _]. cbn [snd] in *. bool_to_prop. cbn [HookOverview.log_row HookOverview.lr_Log]. by rewrite <-O; f_equal.
  - split; [apply own_same|]. intros l I. unfold ListWebhookLogs in I. apply page_of_sub in I. rewrite merge_sort_Permutation in I.
    by apply list_elem_of_filter in I as [-> _].
Qed.

Lemma hp_log_retry id c now r p st : page_ok (ui_me p) st
  (handleWebhookLogRetry ui_parse drop_flash request_uri hmac64 format_day referer id c now r p st).
Proof.
  unfold handleWebhookLogRetry. destruct (negb _); [by apply page_refused|]. destruct (ui_parse_id id) as [n|]; [|by apply page_refused].
  pose proof (own_op (ui_me p) (wx_hooks st) (OpRetry now (ui_me p) n) eq_refl) as O. cbn [run_hook_op] in O.
  destruct (RetryWebhookLogNow _ _ _ _) as [h [e|]]; [by apply page_refused|by split].
Qed.

Lemma webhook_page_handle_ok e c now r p st : page_ok (ui_me p) st (handle e c now r p st).
Proof.
  unfold webhook_page_handle. cbv zeta.
  repeat (case_match; [first [apply hp_list|by apply page_refused|apply hp_create|apply hp_edit|apply hp_update|apply hp_delete|apply hp_enable
    |apply hp_tested|apply hp_logs|apply hp_retry_all|apply hp_reset|apply hp_log_retry]|]).
  by apply page_refused.
Qed.

(** Every page of webhooks is an editor's. *)
Definition hook_page_names : list string :=
  ["handleWebhooksList"; "handleWebhookNew"; "handleWebhookCreate"; "handleWebhookEdit"; "handleWebhookUpdate"; "handleWebhookDelete";
   "handleWebhookPause"; "handleWebhookUnpause"; "handleWebhookTest"; "handleWebhookLogs"; "handleWebhookRetryAll"; "handleWebhookResetStats";
   "handleWebhookLogRetry"]%string.
Definition hook_guard (e : UiRoute) : bool :=
  match ro_guard e with GEditor => true | _ => forallb (λ n, negb (String.eqb (ro_handler e) n)) hook_page_names end.

Lemma hook_routes b e : e ∈ ui_routes b → hook_guard e = true.
Proof.
  intros H. assert (F : forallb hook_guard (ui_routes b) = true) by (destruct b; vm_compute; reflexivity).
  rewrite forallb_forall in F. apply F. by apply list_elem_of_In.
Qed.

Lemma hook_page_elsewhere e c now r p st : forallb (λ n, negb (String.eqb (ro_handler e) n)) hook_page_names = true →
  handle e c now r p st = (st, HElsewhere (ro_handler e)).
Proof.
  intros I. rewrite forallb_forall in I.
  assert (N : ∀ n, In n hook_page_names → String.eqb (ro_handler e) n = false) by (intros n Hn; by apply negb_true_iff, I).
  unfold webhook_page_handle. cbv zeta. by rewrite !N by (unfold hook_page_names; simpl; tauto).
Qed.

(** Webhooks are their owner's on the pages as well: a request leaves all webhooks and logs alone and shows none, or its session is
    that of an editor whose webhooks alone change and show, and without a bot token. *)
Lemma webhook_pages_isolated (c : HPServer) (now : Z) (r : UiRequest) (st : WState) : hooks_wf (wx_hooks st) →
  let out := page c now r st in
  hooks_wf (wx_hooks out.1) ∧
  (wx_hooks out.1 = wx_hooks st ∧ match out.2 with HList _ _ _ | HForm _ _ | HLogs _ | HPlainLogs _ => False | _ => True end ∨
   ∃ p, by_cookie now (api_users (wx_api st)) (ur_api r) p ∧ RoleAtLeast (p_Role p) RoleEditor = true ∧
     (∀ v, v ≠ p_UserID p → same_hooks_for v (wx_hooks st) (wx_hooks out.1)) ∧ page_shows (p_UserID p) (wx_hooks st) out.2).
Proof.
  intros W. cbv zeta. unfold webhook_page. destruct (ui_route _ _ _) as [e|] eqn:R; [|split; [done|by left]]. apply ui_route_spec in R as [I _].
  apply hook_routes in I. unfold hook_guard in I.
  destruct (decide (ro_guard e = GPublic)) as [P|P].
  { rewrite P in I |- *. cbn [page_guarded]. rewrite hook_page_elsewhere by done. split; [done|by left]. }
  destruct (page_guarded_cases wx_api put_wapi HRedirect no_token uri (ro_guard e) (hp_ui c) (handle e c) now r st P)
    as [(db & resp & -> & [-> |[loc ->]])|(p & db & B & -> & Ed)]; [split; [done|by left]|split; [done|by left]|].
  destruct (decide (ro_guard e = GEditor)) as [G|G].
  - destruct (webhook_page_handle_ok e c now r (Some p) (put_wapi (with_db (wx_api st) db) st)) as [O S]. destruct (O W) as [W' V].
    split; [exact W'|]. right. exists p. split; [done|]. split; [by apply Ed|]. split; [exact V|exact S].
  - assert (I' : forallb (λ n, negb (String.eqb (ro_handler e) n)) hook_page_names = true) by (by destruct (ro_guard e)).
    rewrite hook_page_elsewhere by done. split; [done|by left].
Qed.

(** Saving the page of a webhook erases its headers: the form has no field for them, and the statement writes the column. *)
Lemma saving_webhook_page_drops_headers id c now r p st st' loc :
  handleWebhookUpdate decode_tg decode_max json_valid url_parse hmac64 format_day id c now r p st = (st', HRedirect loc) →
  ∃ n w, ui_parse_id id = Some n ∧ hd_webhooks (ha_hooks (wx_hooks st')) !! n = Some w ∧ wh_headers w = "{}"%string.
Proof.
  unfold handleWebhookUpdate. destruct (negb _); [done|]. destruct (ui_parse_id id) as [n|]; [|done].
  destruct (webhookParamsFromForm r) as [|q] eqn:Q; [done|].
  assert (H : cw_Headers q = ""%string).
  { unfold webhookParamsFromForm in Q. repeat case_match; try done; by injection Q as <-. }
  unfold UpdateWebhook. cbn [uw_Headers uw_ID]. rewrite H. cbv zeta. destruct (negb _); [done|].
  destruct (NormalizeWebhookOnSuccess _); [|done]. destruct (NormalizeDigestMinutes _); [|done]. destruct (own_hook _ _ _) as [[o om]|]; [|done].
  destruct (resolve_update _ _ _ _ _ _) as [|[[[[kind url] cfg] secret] name]]; [done|]. intros E. injection E as <- _.
  exists n. eexists. split; [done|]. cbn [haudit waudit with_hooks wx_hooks ha_hooks with_webhooks hd_webhooks].
  by rewrite lookup_insert_eq.
Qed.

(** One filter of anybody whose webhook action holds a number too large takes the table of webhooks from everybody who has one. *)
Lemma oversized_action_breaks_table c now r p st : hp_admin c = true → HookOverview.user_hooks (ha_hooks (wx_hooks st)) (ui_me p) ≠ [] →
  Exists HookOverview.oversized (map_to_list (t_rows (fb_actions filters))).*2 →
  (handleWebhooksList query updated_at last_failed last_sent flood_until filters c now r p st).2 = HError 500 "list webhooks failed".
Proof.
  intros A N X. unfold handleWebhooksList, loadAdminWebhooksDashboard. rewrite A. cbn [negb]. unfold HookOverview.ListAdminWebhooks.
  destruct (HookOverview.user_hooks _ _); [done|]. apply HookOverview.action_targets_fails in X as [e ->]. done.
Qed.
End Facts.

(** * Concrete requests *)

Definition w_hp_server : HPServer := mkHPServer u_config true (mkLimits 0 2 0) None.
(** User 1's webhook posts with a header; user 2 has another. *)
Definition w_headed : HookAdmin :=
  let h := mkWebhook 1 1 "https://h.example" "POST" ("{" +:+ json_string "X-Key" +:+ ":1}") "" "s" true "none" "http" 0 3 1 None in
  with_hook_db (w_admin "" "1:a") (with_webhooks (ha_hooks (w_admin "" "1:a")) (<[1 := h]> (hd_webhooks (ha_hooks (w_admin "" "1:a"))))).
Definition w_hp_form (segs : list string) (session token : string) : UiRequest :=
  mkUi (w_request "POST" ("ui"%string :: "webhooks"%string :: segs) session)
    (Some (λ key, if String.eqb key "csrf_token" then token else if String.eqb key "kind" then "http"
                  else if String.eqb key "url" then "https://h.example" else if String.eqb key "secret" then "s"
                  else if String.eqb key "enabled" then "1" else "")%string) (λ _, []).
Definition w_hp_page := webhook_page read_telegram w_read_max (λ _, true) w_url u_parse id u_uri u_hmac u_day (λ _, ""%string) (λ _ _, ""%string)
  id id (λ _, None) (λ _, None) (λ _, None) ∅ empty_filters eq wl_id (λ _, "/ui/webhooks"%string).
Definition w_hp_state : WState := mkWState (mkApi w_db []) w_headed.

Lemma webhook_pages_isolated_witness :
  let out := w_hp_page w_hp_server 60 (w_hp_form ["1"; "reset-stats"]%string "sid" "ksid|d") w_hp_state in
  out.2 = HRedirect "/ui/webhooks/1?stats_reset=1" ∧
  (wh_sent_total <$> hd_webhooks (ha_hooks (wx_hooks out.1)) !! 1) = Some 0 ∧ hooks_wf (wx_hooks out.1).
Proof.
  intros out. split; [vm_compute; reflexivity|]. split; [vm_compute; reflexivity|].
  destruct (webhook_pages_isolated read_telegram w_read_max (λ _, true) w_url u_parse id u_uri u_hmac u_day (λ _, ""%string) (λ _ _, ""%string)
    id id (λ _, None) (λ _, None) (λ _, None) ∅ empty_filters eq wl_id (λ _, "/ui/webhooks"%string) w_hp_server 60
    (w_hp_form ["1"; "reset-stats"]%string "sid" "ksid|d") w_hp_state) as [W _]; [|exact W].
  apply (row_update_wf _ 1 (w_tg_hook "")); [apply w_admin_wf|reflexivity|reflexivity].
Defined.

Lemma saving_webhook_page_drops_headers_witness :
  let out := handleWebhookUpdate read_telegram w_read_max (λ _, true) w_url u_hmac u_day "1" w_hp_server 60 (w_hp_form ["1"]%string "sid" "ksid|d")
    (Some (mkPrincipal 1 RoleAdmin "root" "")) w_hp_state in
  ∃ w, hd_webhooks (ha_hooks (wx_hooks out.1)) !! 1 = Some w ∧ wh_headers w = "{}"%string.
Proof.
  intros out. assert (E : out.2 = HRedirect "/ui/webhooks/1") by (vm_compute; reflexivity).
  destruct out as [st' resp] eqn:O. cbn [snd] in E. subst resp.
  destruct (saving_webhook_page_drops_headers read_telegram w_read_max (λ _, true) w_url u_hmac u_day "1" w_hp_server 60
    (w_hp_form ["1"]%string "sid" "ksid|d") (Some (mkPrincipal 1 RoleAdmin "root" "")) w_hp_state st' "/ui/webhooks/1" O) as (n & w & I & L & H).
  exists w. assert (n = 1) as -> by (vm_compute in I; congruence). split; [exact L|exact H].
Defined.
