(* ===== verification/AdminPages.v ===== *)
(** The administrator's pages of feeds and of the system ([http/ui/admin_feeds.go], [admin_retention.go], [admin.go]): the table
    with its states, the buttons of a feed, and what is saved into the file of settings.  Refreshing by hand, a pass of the
    cleanup, the restart and the update of the program are left out. *)

From Stdlib Require Import Ascii SpecFloat.
From S2P Require Import Prelude GoStrings Types FeedStore EntryStore Catalog CatalogSpec.
From S2P Require Import UserStore ApiAuth CatalogApi CatalogApiSpec UiAuth Config GoDuration EnvFile SavedSettings Pages PagesSpec.
From S2P Require Overviews.

(** * The table of feeds *)

(** http/ui/admin_feeds.go [classifyAdminFeedStatus] *)
Definition classifyAdminFeedStatus (row : Overviews.AdminFeedRow) (now : Z) : string :=
  let f := feed_row (Overviews.ar_Feed row) in
  let ps := feed_ps (Overviews.ar_Feed row) in
  if f_manual_paused f || ps_poll_paused ps then "paused"
  else if negb (String.eqb (ps_last_error ps) "") || (0 <? ps_parsing_error_count ps) then "errors"
  else if Overviews.ar_InboundLate row then "silent"
  else if match ps_next_check_at ps with None => true | Some t => negb (now <? t) end then "waiting"
  else "ok".

(** http/ui/admin_feeds.go [adminFeedStatusClass] *)
Definition adminFeedStatusClass (status : string) : string :=
  if String.eqb status "ok" then "feed-status-ok"
  else if String.eqb status "errors" || String.eqb status "silent" then "feed-status-error"
  else if String.eqb status "paused" then "feed-status-paused"
  else if String.eqb status "waiting" then "feed-status-waiting"
  else "feed-status-muted".

(** http/ui/admin_feeds.go:120-123 [adminFeedSortKeys] *)
Definition adminFeedSortKeys : list string :=
  ["name"; "id"; "status"; "last_checked"; "next_check"; "last_entry"; "errors"; "entries"; "unread"].
Definition sort_key (v : string) : string := if bool_decide (v ∈ adminFeedSortKeys) then v else "name".
Definition sort_order (v : string) : string := if String.eqb v "desc" then "desc" else "asc".

(** http/ui/admin_feeds.go [parseAdminFeedsSort] Of the two query values. *)
Definition parseAdminFeedsSort (sort order : string) : string * string := (sort_key (trim_space sort), sort_order (trim_space order)).

(** http/ui/admin_feeds.go [parseAdminFeedsStatus] *)
Definition parseAdminFeedsStatus (v : string) : string :=
  if bool_decide (trim_space v ∈ ["errors"; "paused"; "waiting"; "ok"; "silent"; "layout"; "all"]) then trim_space v else "all".

(** http/ui/admin_feeds.go [adminFeedsListURL] *)
Definition adminFeedsListURL (status sortKey order : string) (page : Z) : string :=
  "/ui/admin/feeds?status=" +:+ parseAdminFeedsStatus status +:+ "&sort=" +:+ sort_key sortKey +:+ "&order=" +:+ sort_order order +:+
  "&page=" +:+ format_int (if page <? 1 then 1 else page).

(** http/ui/admin_feeds.go [adminFeedsSortLink] *)
Definition adminFeedsSortLink (status sortKey order column : string) : string :=
  adminFeedsListURL status column (if String.eqb sortKey column && String.eqb order "asc" then "desc" else "asc") 1.

(** http/ui/auth.go [queryInt] *)
Definition queryInt (v : string) (def lo hi : Z) : Z :=
  match parse_int64 v with Some n => if (n <? lo) || (hi <? n) then def else n | None => def end.

(** http/ui/auth.go [pageOffset] *)
Definition pageOffset (v : string) (pageSize : Z) : Z * Z * Z :=
  let page := queryInt v 1 1 (2 ^ 31 - 1) in (pageSize, (page - 1) * pageSize, page).

(** http/ui/admin_feeds_pagination.go [adminFeedsPageCount] *)
Definition adminFeedsPageCount (total limit : Z) : Z :=
  if total <=? 0 then 1 else let limit := if limit <=? 0 then 50 else limit in Z.quot (total + limit - 1) limit.

(** * Handlers *)

(** The tables, the files, and whether the polls stand still. *)
Record AdmState := mkAdm { ad_c : CState; ad_files : gmap string string; ad_paused : bool }.
Definition with_c (st : AdmState) (c : CState) : AdmState := mkAdm c (ad_files st) (ad_paused st).
Definition with_files (st : AdmState) (fs : gmap string string) : AdmState := mkAdm (ad_c st) fs (ad_paused st).

(** The server, the file of settings, the days after which a feed counts as silent, and whether the workers can be stopped. *)
Record AdmServer := mkAdmServer { as_pv : PServer; as_EnvFilePath : string; as_SilentDays : Z; as_workers : bool }.

Inductive admin_answer :=
| APage (p : page)
| AFeeds (status sort order : string) (page pages total : Z) (rows : list (Overviews.AdminFeedRow * string))
| AJson (status : Z) (ok : bool) (text : string)
| AElsewhere (handler : string).

Definition admin_handler : Type := AdmServer → Z → UiRequest → option Principal → AdmState → AdmState * admin_answer.

Section Handlers.
Context (url_parse : string → option (string * string)) (drop_flash : string → string) (request_uri : string → string → string).
Context (hmac64 : string → string → string) (format_day : Z → string) (referer : UiRequest → string) (query : UiRequest → string → string).
Context (title_le : relation string) `{!RelDecision title_le} (dedup_key : string → string).
(** The order in which a map of settings is walked, the disk, and the file used without a path of its own. *)
Context (walk : list (string * string) → list (string * string)) (unicode_letter unicode_digit : Z → bool) (disk : Z → Disk) (ops_env_file : string).
Context (uri : UiRequest → string).

Notation csrf c now r := (validateCSRF hmac64 format_day (pv_ui (as_pv c)) now r).
Notation no_token := (APage (PError 403 "forbidden")).
Notation refererOr := (refererOr url_parse drop_flash request_uri referer).

(** http/ui/admin.go [Handler.envPath] *)
Definition envPath (c : AdmServer) : string := if String.eqb (trim_space (as_EnvFilePath c)) "" then ops_env_file else as_EnvFilePath c.

Definition env_status (e : env_error) : string :=
  match e with EmptyPath => "empty env path" | ReadFailed => "read" | InvalidKey k => "invalid key " +:+ k | WriteFailed => "write" | RenameFailed => "rename" end.

Definition adm_audit (c : AdmServer) (r : UiRequest) (p : option Principal) (action target : string) (id : Z) (st : AdmState) : AdmState :=
  with_c st (paudit (as_pv c) r p action target id (ad_c st)).

(** Writing settings, and the redirect. *)
Definition save_keys (c : AdmServer) (now : Z) (r : UiRequest) (p : option Principal) (keys : list (string * string)) (st : AdmState)
    : AdmState * admin_answer :=
  match SetKeys unicode_letter unicode_digit (disk now) (ad_files st) (envPath c) (walk keys) with
  | (fs, Some e) => (with_files st fs, APage (PError 500 (env_status e)))
  | (fs, None) => (adm_audit c r p "env.update" "" 0 (with_files st fs), APage (PRedirect "/ui/admin/system?saved=1"))
  end.

(** http/ui/admin_retention.go [Handler.handleAdminRetentionSave] *)
Definition handleAdminRetentionSave : admin_handler := λ c now r p st,
  if negb (csrf c now r) then (st, no_token)
  else match parseRetentionForm (FormValue r) with
  | inl e => (st, APage (PError 400 e))
  | inr f => save_keys c now r p (retention_keys f) st
  end.

(** http/ui/admin.go [Handler.handleAdminWorkersSave] *)
Definition handleAdminWorkersSave : admin_handler := λ c now r p st,
  if negb (csrf c now r) then (st, no_token)
  else match parseWorkersForm (FormValue r) with
  | None => (st, APage (PError 400 "WORKER_POOL_SIZE and WEBHOOK_WORKER_POOL_SIZE must be 1–1000"))
  | Some (poll, hook) => save_keys c now r p (worker_keys poll hook) st
  end.

(** http/ui/admin.go [Handler.setWorkersPaused] *)
Definition setWorkersPaused (paused : bool) : admin_handler := λ c now r p st,
  if negb (csrf c now r) then (st, AJson 403 false "forbidden")
  else if negb (as_workers c) then (st, AJson 400 false "workers cannot be controlled")
  else (adm_audit c r p (if paused then "workers.pause" else "workers.resume") "" 0 (mkAdm (ad_c st) (ad_files st) paused), AJson 200 true "").

(** http/ui/admin_feeds.go [Handler.silentAfter] *)
Definition silentAfter (c : AdmServer) : Z := if as_SilentDays c <=? 0 then 0 else wrap64 (as_SilentDays c * 24 * hour).

(** http/ui/admin_feeds.go:210-241 [Handler.loadAdminFeedsDashboard, the table] *)
Definition handleAdminFeedsList : admin_handler := λ c now r p st,
  let status := parseAdminFeedsStatus (query r "status") in
  let '(sort, order) := parseAdminFeedsSort (query r "sort") (query r "order") in
  let '(limit, offset, page) := pageOffset (query r "page") 50 in
  let '(rows, total) := Overviews.ListAdminFeedsPage title_le now (cx_cat (ad_c st)) (Overviews.mkAdminList status sort order limit offset (silentAfter c)) in
  (st, AFeeds status sort order page (adminFeedsPageCount total limit) total ((λ row, (row, classifyAdminFeedStatus row now)) <$> rows)).

(** http/ui/admin_feeds.go [adminFeedsRedirect] *)
Definition adminFeedsRedirect (r : UiRequest) : string :=
  let v key := trim_space (FormValue r key) in
  if negb (String.eqb (v "status") "") || negb (String.eqb (v "sort") "") || negb (String.eqb (v "order") "") || negb (String.eqb (v "page") "") then
    adminFeedsListURL (v "status") (v "sort") (v "order") (match parse_int64 (v "page") with Some n => if 0 <? n then n else 1 | None => 1 end)
  else refererOr r "/ui/admin/feeds".

(** The feed of the path, for the buttons of one. *)
Definition on_feed (id : string) (c : AdmServer) (now : Z) (r : UiRequest) (st : AdmState) (next : Z → Feed → AdmState * admin_answer)
    : AdmState * admin_answer :=
  if negb (csrf c now r) then (st, no_token)
  else match ui_parse_id id with
  | None => (st, APage (PError 400 "invalid id"))
  | Some id =>
      match GetFeedByID (ct_feeds (cx_cat (ad_c st))) id with
      | inl _ => (st, APage (PError 404 "not found"))
      | inr f => next id f
      end
  end.

(** The rows of feeds after a statement on one. *)
Definition feed_written (r : UiRequest) (action : string) (st : AdmState) (x : FeedDb * option err) : AdmState * admin_answer :=
  match x with
  | (_, Some _) => (st, APage (PFailed (adminFeedsRedirect r) action))
  | (fdb, None) => (with_c st (with_s (ad_c st) (fdb, ct_entries (cx_cat (ad_c st)))), APage (PRedirect (adminFeedsRedirect r)))
  end.

(** http/ui/admin_feeds.go [Handler.handleAdminFeedPause] *)
Definition handleAdminFeedPause (id : string) : admin_handler := λ c now r p st,
  on_feed id c now r st (λ id _, feed_written r "feed pause" st (SetFeedManualPaused (ct_feeds (cx_cat (ad_c st))) id true)).

(** http/ui/admin_feeds.go [Handler.handleAdminFeedUnpause] *)
Definition handleAdminFeedUnpause (id : string) : admin_handler := λ c now r p st,
  on_feed id c now r st (λ id _, feed_written r "feed unpause" st (SetFeedManualPaused (ct_feeds (cx_cat (ad_c st))) id false)).

(** http/ui/admin_feeds.go [Handler.handleAdminFeedResetCircuit] *)
Definition handleAdminFeedResetCircuit (id : string) : admin_handler := λ c now r p st,
  on_feed id c now r st (λ id _, feed_written r "feed circuit reset" st (ResetFeedPollCircuit (ct_feeds (cx_cat (ad_c st))) id)).

(** http/ui/admin_feeds.go [Handler.handleAdminFeedsResetCircuits] *)
Definition handleAdminFeedsResetCircuits : admin_handler := λ c now r p st,
  if negb (csrf c now r) then (st, no_token)
  else feed_written r "feeds circuit reset" st ((ResetErrorFeedPollCircuits (ct_feeds (cx_cat (ad_c st)))).1, None).

(** http/ui/admin_feeds.go [Handler.handleAdminFeedDelete] *)
Definition handleAdminFeedDelete (id : string) : admin_handler := λ c now r p st,
  on_feed id c now r st (λ id _,
    match DeleteFeedByID (cx_cat (ad_c st)) id with
    | (_, Some _) => (st, APage (PError 404 "not found"))
    | (k, None) => (adm_audit c r p "feed.delete" "feed" id (with_c st (with_cat (ad_c st) k)), APage (PRedirect (adminFeedsRedirect r)))
    end).

(** http/ui/admin_feeds.go [Handler.handleAdminFeedHashEntries] *)
Definition handleAdminFeedHashEntries (id : string) : admin_handler := λ c now r p st,
  on_feed id c now r st (λ _ f,
    match collapseEntries dedup_key (as_pv c) 0 (Some (f_id (feed_row f))) None false (cx_cat (ad_c st)) with
    | (k, inl e) => (with_c st (with_cat (ad_c st) k), APage (PError 500 (err_text e)))
    | (k, inr n) =>
        let ref := adminFeedsRedirect r in
        (with_c st (with_cat (ad_c st) k), APage (PRedirect (ref +:+ (if contains ref "?" then "&" else "?") +:+ "hashed=" +:+ format_int n)))
    end).

(** http/ui/admin.go [Handler.handleAdminHashEntries] *)
Definition handleAdminHashEntries : admin_handler := λ c now r p st,
  if negb (csrf c now r) then (st, no_token)
  else match collapseEntries dedup_key (as_pv c) 0 None None true (cx_cat (ad_c st)) with
  | (k, inl e) => (with_c st (with_cat (ad_c st) k), APage (PError 500 (err_text e)))
  | (k, inr n) => (adm_audit c r p "entries.collapse" "" 0 (with_c st (with_cat (ad_c st) k)),
                   APage (PRedirect ("/ui/admin/system?hashed=" +:+ format_int n)))
  end.

Definition admin_page_names : list string :=
  ["handleAdminRetentionSave"; "handleAdminWorkersSave"; "handleAdminWorkersPause"; "handleAdminWorkersResume"; "handleAdminFeedsList";
   "handleAdminFeedPause"; "handleAdminFeedUnpause"; "handleAdminFeedResetCircuit"; "handleAdminFeedsResetCircuits"; "handleAdminFeedDelete";
   "handleAdminFeedHashEntries"; "handleAdminHashEntries"].

(** The handler of a route. *)
Definition admin_page_handle (e : UiRoute) (c : AdmServer) (now : Z) (r : UiRequest) (p : option Principal) (st : AdmState) : AdmState * admin_answer :=
  let named := String.eqb (ro_handler e) in
  let id := path_value (pat_segs (ro_pattern e)) (q_segs (ur_api r)) "id"%string in
  if named "handleAdminRetentionSave"%string then handleAdminRetentionSave c now r p st
  else if named "handleAdminWorkersSave"%string then handleAdminWorkersSave c now r p st
  else if named "handleAdminWorkersPause"%string then setWorkersPaused true c now r p st
  else if named "handleAdminWorkersResume"%string then setWorkersPaused false c now r p st
  else if named "handleAdminFeedsList"%string then handleAdminFeedsList c now r p st
  else if named "handleAdminFeedPause"%string then handleAdminFeedPause id c now r p st
  else if named "handleAdminFeedUnpause"%string then handleAdminFeedUnpause id c now r p st
  else if named "handleAdminFeedResetCircuit"%string then handleAdminFeedResetCircuit id c now r p st
  else if named "handleAdminFeedsResetCircuits"%string then handleAdminFeedsResetCircuits c now r p st
  else if named "handleAdminFeedDelete"%string then handleAdminFeedDelete id c now r p st
  else if named "handleAdminFeedHashEntries"%string then handleAdminFeedHashEntries id c now r p st
  else if named "handleAdminHashEntries"%string then handleAdminHashEntries c now r p st
  else (st, AElsewhere (ro_handler e)).

Definition adm_api (st : AdmState) : Api := cx_api (ad_c st).
Definition put_adm (a : Api) (st : AdmState) : AdmState := with_c st (put_accounts a (ad_c st)).

(** One request to these pages. *)
Definition admin_page (c : AdmServer) (now : Z) (r : UiRequest) (st : AdmState) : AdmState * admin_answer :=
  match ui_route (ui_InboundFeeds (pv_ui (as_pv c))) (q_method (ur_api r)) (q_segs (ur_api r)) with
  | None => (st, AElsewhere "404")
  | Some e => page_guarded adm_api put_adm (λ loc, APage (PRedirect loc)) no_token uri (ro_guard e) (pv_ui (as_pv c)) (admin_page_handle e c) now r st
  end.

End Handlers.

(** * The state of a feed *)

(** The state a row shows is one of the filters of the table, and that filter lists the row. *)
Lemma badge_in_its_filter now sa c id r ps row : 0 <= ps_parsing_error_count ps → Overviews.admin_row now c id r ps = Some row →
  let badge := classifyAdminFeedStatus row now in
  parseAdminFeedsStatus badge = badge ∧ Overviews.adminFeedsStatusWhere now r ps badge sa = true.
Proof.
  unfold Overviews.admin_row. destruct (ct_more c !! id) as [m|]; [|done]. intros N. cbn. intros [= <-].
  unfold classifyAdminFeedStatus. cbn. unfold Overviews.silent_inbound, Overviews.healthy, Overviews.adminFeedsStatusWhere.
  destruct (f_manual_paused r) eqn:M; [cbn; unfold Overviews.paused; by rewrite ?M, orb_true_r|].
  destruct (ps_poll_paused ps) eqn:P; [cbn; unfold Overviews.paused; by rewrite ?P|]. cbn [orb].
  destruct (negb _ || (0 <? _)) eqn:E; [split; [done|]; exact E|]. apply orb_false_iff in E as [E1 E2]. bool_to_prop.
  assert (Z0 : ps_parsing_error_count ps =? 0 = true) by lia. rewrite ?M, ?P, ?E1, ?Z0, ?String.eqb_refl. cbn [negb andb]. rewrite andb_true_r.
  assert (D : Overviews.check_due now ps = match ps_next_check_at ps with None => true | Some t => negb (now <? t) end).
  { unfold Overviews.check_due. destruct (ps_next_check_at ps) as [t|]; [lia|done]. }
  assert (H : Overviews.healthy r ps = true) by (unfold Overviews.healthy; by rewrite M, P, E1, Z0).
  destruct (String.eqb (f_type r) Overviews.FeedTypeInbound && Overviews.inbound_late now r ps) eqn:I.
  - apply andb_prop in I as [I1 I2]. split; [done|]. cbn. unfold Overviews.silent. by rewrite H, I1, I2.
  - rewrite <-D. destruct (Overviews.check_due now ps) eqn:C; (split; [done|]); cbn; by rewrite ?H, ?C.
Qed.

(** * What is saved is what is read *)

(** How the manager of services reads the file, for systemd what its manual says of [EnvironmentFile] (deploy/rssam.service):
    it removes quotes, and a backslash joins lines.  So a line is promised to stand for itself in a [tidy] file only: there
    only the lines of a name count for it, and a single line with a bare value gives it that value.  What is no name is no
    variable. *)
Class EnvLoader (load : list string → Environment) : Prop := {
  load_named k ls ls' : tidy ls → tidy ls' → plain_key k → named k ls = named k ls' → load ls k = load ls' k;
  load_one k v ls : tidy ls → variable_name k → bare v → named k ls = [(k +:+ "=") +:+ v] → load ls k = Some v;
  load_no_name k ls : ¬ plain_key k → load ls k = None;
}.

#[export] Instance plain_key_dec k : Decision (plain_key k).
Proof. unfold plain_key, plain. apply _. Defined.

Definition env_text (c : AdmServer) (ops : string) (fs : gmap string string) : string := default "" (fs !! envPath ops c).

Section Saved.
Context (walk : list (string * string) → list (string * string)) (W : ∀ l, walk l ≡ₚ l) (ul ud : Z → bool) (disk : Z → Disk) (ops : string).
Context (load : list string → Environment) `{!EnvLoader load} (ParseFloat : string → option spec_float).

Lemma settable_walk keys : settable keys → settable (walk keys).
Proof. intros [N F]. split; [by rewrite W|by rewrite W]. Qed.

(** Saved settings are in the file, each on a line of its own, and nothing else of it has changed. *)
Lemma save_keys_lines c now r p keys st st' : settable keys → save_keys walk ul ud disk ops c now r p keys st = (st', APage (PRedirect "/ui/admin/system?saved=1")) →
  let old := lines_of (env_text c ops (ad_files st)) in let new := lines_of (env_text c ops (ad_files st')) in
  (∀ k v, (k, v) ∈ keys → named k new = ((k +:+ "=") +:+ v) :: tail (named k old)) ∧
  (∀ k, plain_key k → k ∉ keys.*1 → named k new = named k old) ∧
  filter (λ l, Forall (λ kv, line_names kv.1 l = false) keys) new = filter (λ l, Forall (λ kv, line_names kv.1 l = false) keys) old.
Proof.
  intros S H. unfold save_keys in H. pose proof (set_keys_atomic ul ud (disk now) (ad_files st) (envPath ops c) (walk keys)) as A.
  destruct (SetKeys _ _ _ _ _ _) as [fs [e|]]; [done|]. destruct A as (_ & text & E & U). injection H as <-. cbv zeta.
  unfold env_text. cbn [ad_files adm_audit with_c with_files]. rewrite E. cbn [default from_option id].
  destruct (upsert_all_lines ul ud _ _ _ (settable_walk keys S) U) as (I1 & I2 & I3). cbv zeta in I1, I2, I3. rewrite lines_of_ended in I1, I2, I3.
  split; [|split].
  - intros k v I. apply I1. by rewrite W.
  - intros k K N. apply I2; [done|]. by rewrite W.
  - rewrite !(list_filter_iff (λ l, Forall (λ kv, line_names kv.1 l = false) keys) (λ l, Forall (λ kv, line_names kv.1 l = false) (walk keys))); [done|..];
      intros l; by rewrite W.
Qed.

(** A tidy file stays tidy. *)
Lemma save_keys_tidy c now r p keys st st' : settable keys → settable_bare keys →
  save_keys walk ul ud disk ops c now r p keys st = (st', APage (PRedirect "/ui/admin/system?saved=1")) →
  tidy (lines_of (env_text c ops (ad_files st))) → tidy (lines_of (env_text c ops (ad_files st'))).
Proof.
  intros S B H T. unfold save_keys in H. pose proof (set_keys_atomic ul ud (disk now) (ad_files st) (envPath ops c) (walk keys)) as A.
  destruct (SetKeys _ _ _ _ _ _) as [fs [e|]]; [done|]. destruct A as (_ & text & E & U). injection H as <-.
  unfold env_text. cbn [ad_files adm_audit with_c with_files]. rewrite E. cbn [default from_option id].
  eapply (upsert_all_tidy ul ud); [by apply settable_walk| | |exact U]; [unfold settable_bare; by rewrite W|]. by rewrite lines_of_ended.
Qed.

Lemma save_keys_env c now r p keys names st st' : settable keys → settable_bare keys → keys.*1 = names →
  tidy (lines_of (env_text c ops (ad_files st))) →
  (∀ k, k ∈ names → (length (named k (lines_of (env_text c ops (ad_files st)))) <= 1)%nat) →
  save_keys walk ul ud disk ops c now r p keys st = (st', APage (PRedirect "/ui/admin/system?saved=1")) →
  let env := load (lines_of (env_text c ops (ad_files st))) in let env' := load (lines_of (env_text c ops (ad_files st'))) in
  changed_env names env env' ∧ ∀ k v, (k, v) ∈ keys → env' k = Some v.
Proof.
  intros S B K T L H. destruct (save_keys_lines _ _ _ _ _ _ _ S H) as (I1 & I2 & _). cbv zeta in *.
  pose proof (save_keys_tidy _ _ _ _ _ _ _ S B H T) as T'. split.
  - split. intros k N. destruct (decide (plain_key k)) as [P|P]; [|by rewrite !load_no_name]. apply load_named; [done..|]. apply I2; [done|by rewrite K].
  - intros k v I. assert (In : k ∈ names) by (rewrite <-K; by apply (list_elem_of_fmap_2 fst _ _ I)). specialize (L k In).
    unfold settable_bare in B. rewrite Forall_forall in B. destruct (B _ I) as [P V]. apply load_one; [done..|]. rewrite (I1 _ _ I). f_equal.
    destruct (named k _) as [|l [|m ls]]; [done|done|cbn in L; lia].
Qed.

(** C28: what the administrator saves is what the program runs with after a restart, and does not keep it from starting, when
    the file of settings is tidy: each line of it is a comment without a backslash, or printable ASCII without quotes,
    backslashes and blanks in its name.  The manager of services that reads the file is a parameter with the laws of
    [EnvLoader], which are promised for tidy files only; systemd's removal of quotes and joining of lines are so left out, and
    a file that uses them is out of scope.  If the configuration of the file is accepted and the file has at most one line
    for each of the settings, then after a form of the retention page, or of the sizes of the pools, has been saved, the file
    is tidy still and its configuration is accepted; it is the old one with the entered values in place of the old, the
    interval of the cleanup rounded to the minute.  So the checks of the forms imply those of the start, and the text written
    for each value parses to it. *)
Theorem saved_settings_accepted (hmac64 : string → string → string) (format_day : Z → string) (c : AdmServer) (now : Z) (r : UiRequest)
  (p : option Principal) (st st' : AdmState) (cfg : AppConfig)
  (Tidy : tidy (lines_of (env_text c ops (ad_files st))))
  (One : ∀ k, k ∈ retention_names ++ worker_names → (length (named k (lines_of (env_text c ops (ad_files st)))) <= 1)%nat)
  (Accepted : LoadConfig ParseDuration ParseFloat (load (lines_of (env_text c ops (ad_files st)))) = inr cfg) :
  let restarted := LoadConfig ParseDuration ParseFloat (load (lines_of (env_text c ops (ad_files st')))) in
  let done := APage (PRedirect "/ui/admin/system?saved=1") in
  (handleAdminRetentionSave hmac64 format_day walk ul ud disk ops c now r p st = (st', done) →
     tidy (lines_of (env_text c ops (ad_files st'))) ∧
     ∃ f, parseRetentionForm (FormValue r) = inr f ∧ restarted = inr (with_saved cfg (saved_retention f cfg))) ∧
  (handleAdminWorkersSave hmac64 format_day walk ul ud disk ops c now r p st = (st', done) →
     tidy (lines_of (env_text c ops (ad_files st'))) ∧
     ∃ poll hook, parseWorkersForm (FormValue r) = Some (poll, hook) ∧ restarted = inr (with_saved cfg (saved_workers poll hook cfg))).
Proof.
  cbv zeta. split.
  - unfold handleAdminRetentionSave. destruct (negb _); [done|]. destruct (parseRetentionForm _) as [e|f] eqn:F; [done|]. intros H.
    split; [by apply (save_keys_tidy _ _ _ _ _ _ _ (settable_retention f) (bare_retention f) H)|]. exists f. split; [done|]. apply parseRetentionForm_sound in F.
    destruct (save_keys_env c now r p _ retention_names st st' (settable_retention f) (bare_retention f) eq_refl Tidy (λ k I, One k (proj2 (elem_of_app _ _ _) (or_introl I))) H) as [Ch V].
    apply (load_changed ParseFloat retention_names _ _ _ (saved_retention f) Ch eq_refl); [done|by intros ? ?; apply saved_retention_sound| |done].
    by apply read_retention.
  - unfold handleAdminWorkersSave. destruct (negb _); [done|]. destruct (parseWorkersForm _) as [[poll hook]|] eqn:F; [|done]. intros H.
    split; [by apply (save_keys_tidy _ _ _ _ _ _ _ (settable_workers poll hook) (bare_workers poll hook) H)|]. exists poll, hook. split; [done|]. apply parseWorkersForm_bounds in F as [P Q].
    destruct (save_keys_env c now r p _ worker_names st st' (settable_workers poll hook) (bare_workers poll hook) eq_refl Tidy (λ k I, One k (proj2 (elem_of_app _ _ _) (or_intror I))) H) as [Ch V].
    apply (load_changed ParseFloat worker_names _ _ _ (saved_workers poll hook) Ch eq_refl); [done|by intros ? ?; apply saved_workers_sound| |done].
    apply read_workers; [done|lia|lia|done].
Qed.

End Saved.

(** * Who may change what *)

(** These pages are the administrators'. *)
Definition admin_guard (e : UiRoute) : bool :=
  if bool_decide (ro_handler e ∈ admin_page_names) then match ro_guard e with GAdmin => true | _ => false end else true.

Lemma admin_routes b e : e ∈ ui_routes b → admin_guard e = true.
Proof.
  intros H. assert (forallb admin_guard (ui_routes b) = true) as F by (destruct b; vm_compute; reflexivity).
  rewrite forallb_forall in F. apply F. by apply list_elem_of_In.
Qed.

(** What these pages change: the library, the files, and whether the polls stand still. *)
Definition managed (st : AdmState) : Catalog * gmap string string * bool := (cx_cat (ad_c st), ad_files st, ad_paused st).

Section Authorized.
Context (url_parse : string → option (string * string)) (drop_flash : string → string) (request_uri : string → string → string).
Context (hmac64 : string → string → string) (format_day : Z → string) (referer : UiRequest → string) (query : UiRequest → string → string).
Context (title_le : relation string) `{!RelDecision title_le} (dedup_key : string → string).
Context (walk : list (string * string) → list (string * string)) (ul ud : Z → bool) (disk : Z → Disk) (ops : string) (uri : UiRequest → string).
Notation handle := (admin_page_handle url_parse drop_flash request_uri hmac64 format_day referer query title_le dedup_key walk ul ud disk ops).
Notation request := (admin_page url_parse drop_flash request_uri hmac64 format_day referer query title_le dedup_key walk ul ud disk ops uri).

Lemma admin_handle_other e c now r p st : ro_handler e ∉ admin_page_names → handle e c now r p st = (st, AElsewhere (ro_handler e)).
Proof.
  intros N. unfold admin_page_handle. cbv zeta.
  assert (F : ∀ n, n ∈ admin_page_names → String.eqb (ro_handler e) n = false) by (intros n I; apply String.eqb_neq; intros E; by rewrite E in N).
  by rewrite !F by (unfold admin_page_names; repeat first [apply list_elem_of_here|apply list_elem_of_further]).
Qed.

Lemma admin_handle_token e c now r p st : validateCSRF hmac64 format_day (pv_ui (as_pv c)) now r = false →
  managed (handle e c now r p st).1 = managed st.
Proof.
  intros V. unfold admin_page_handle. cbv zeta.
  repeat match goal with |- context [if String.eqb (ro_handler e) ?n then _ else _] => destruct (String.eqb (ro_handler e) n);
    [first [by unfold handleAdminFeedsList; repeat case_match
      |cbv [handleAdminRetentionSave handleAdminWorkersSave setWorkersPaused handleAdminFeedPause handleAdminFeedUnpause
            handleAdminFeedResetCircuit handleAdminFeedsResetCircuits handleAdminFeedDelete handleAdminFeedHashEntries
            handleAdminHashEntries on_feed]; by rewrite V]|] end.
  done.
Qed.

(** The pages of the administrator change something only for a request with the form token of its session, whose user is one. *)
Lemma admin_pages_authorized c now r st : let st' := (request c now r st).1 in managed st' ≠ managed st →
  validateCSRF hmac64 format_day (pv_ui (as_pv c)) now r = true ∧
  ∃ p, by_cookie now (api_users (adm_api st)) (ur_api r) p ∧ RoleAtLeast (p_Role p) RoleAdmin = true.
Proof.
  cbv zeta. unfold admin_page. destruct (ui_route _ _ _) as [e|] eqn:R; [|done]. intros N.
  apply ui_route_spec in R as [Hin _]. pose proof (admin_routes _ _ Hin) as G. unfold admin_guard in G.
  destruct (decide (ro_handler e ∈ admin_page_names)) as [I|I].
  - rewrite bool_decide_true in G by done. destruct (ro_guard e); try done. cbn [page_guarded] in N.
    pose proof (authenticate_cookie (pv_ui (as_pv c)) now (api_users (adm_api st)) r) as A.
    destruct (authenticate _ _ _ _) as [db [[p sid]|]]; [|done]. destruct A as (_ & B & _). cbv zeta in N.
    destruct (String.eqb RoleAdmin "" || RoleAtLeast (p_Role p) RoleAdmin) eqn:Q; [|done]. split; [|exists p; by split].
    destruct (validateCSRF _ _ _ _ _) eqn:V; [done|]. by rewrite (admin_handle_token _ _ _ _ _ _ V) in N.
  - exfalso. apply N. unfold page_guarded. destruct (ro_guard e); [by rewrite admin_handle_other|..];
      (destruct (authenticate _ _ _ _) as [db [[p sid]|]]; [|done]); cbv zeta; (destruct (_ || _); [|done]); by rewrite admin_handle_other.
Qed.
End Authorized.

(** * Checks on a concrete file *)

(** A manager that takes the last line of a key, as systemd does; of quotes and joined lines it knows nothing. *)
Definition last_wins (ls : list string) : Environment := λ k,
  if decide (plain_key k) then
    line ← last (named k ls);
    if has_prefix (trim_space line) (k +:+ "=") then Some (str_drop (String.length (k +:+ "=")) (trim_space line)) else None
  else None.

Lemma str_drop_app p t : str_drop (String.length p) (p +:+ t) = t.
Proof. induction p as [|c p IH]; [by destruct t|exact IH]. Qed.

#[export] Instance last_wins_loads : EnvLoader last_wins.
Proof.
  split.
  - intros k ls ls' _ _ K E. unfold last_wins. by rewrite E.
  - intros k v ls _ K%variable_plain V%bare_plain E. unfold last_wins. rewrite decide_True, E by done. cbn [last mbind option_bind].
    by rewrite (graphic_trim_space ((k +:+ "=") +:+ v)), has_prefix_refl, str_drop_app by by apply plain_line.
  - intros k ls K. unfold last_wins. by rewrite decide_False.
Qed.

Definition wit_adm_server : AdmServer := mkAdmServer wit_page_server "/opt/rssam/.env" 7 true.
Definition wit_adm : AdmState :=
  mkAdm (mkCState (mkApi w_db []) wit_catalog)
    {["/opt/rssam/.env" := join nl ["DATABASE_URL=postgres://db"; "# CLEANUP_INTERVAL=1h"; "CLEANUP_INTERVAL=24h"; "FEED_SILENT_DAYS=7"]]} false.
Definition wit_adm_form : UiRequest :=
  mkUi (w_request "POST" ["ui"; "admin"; "system"; "retention"]%string "sid")
    (Some (λ key, if String.eqb key "csrf_token" then "ksid|d" else if String.eqb key "cleanup_interval" then " 90m " else "20"))%string (λ _, []).
Definition wit_adm_saved : AdmState * admin_answer :=
  Eval vm_compute in handleAdminRetentionSave u_hmac u_day id ascii_only ascii_only (λ _, good_disk) "/opt/rssam/.env" wit_adm_server 60 wit_adm_form
    (Some (mkPrincipal 1 RoleAdmin "root" "")) wit_adm.
Definition wit_adm_config : AppConfig :=
  Eval vm_compute in match LoadConfig ParseDuration (λ _, None) (last_wins (lines_of (env_text wit_adm_server "/opt/rssam/.env" (ad_files wit_adm)))) with
                     | inr cfg => cfg | inl _ => with_warnings (read_config ParseDuration (λ _, None) (λ _, None)).1 [] end.

Lemma saved_settings_accepted_witness :
  ad_files wit_adm_saved.1 !! "/opt/rssam/.env" = Some (join nl ["DATABASE_URL=postgres://db"; "# CLEANUP_INTERVAL=1h"; "CLEANUP_INTERVAL=1h30m";
    "FEED_SILENT_DAYS=7"; "REMOVED_RETENTION_DAYS=20"; "WEBHOOK_LOG_RETENTION_DAYS=20"; "FILTER_MATCH_RETENTION_DAYS=20";
    "FEED_POLL_LOG_RETENTION_DAYS=20"; "AUDIT_LOG_RETENTION_DAYS=20"; "DEDUP_RETENTION_DAYS=20"] +:+ nl) ∧
  ∃ f, rf_CleanupInterval f = 90 * minute ∧
    LoadConfig ParseDuration (λ _, None) (last_wins (lines_of (env_text wit_adm_server "/opt/rssam/.env" (ad_files wit_adm_saved.1)))) =
      inr (with_saved wit_adm_config (saved_retention f wit_adm_config)).
Proof.
  split; [vm_compute; reflexivity|].
  destruct (saved_settings_accepted id (λ l, Permutation_refl l) ascii_only ascii_only (λ _, good_disk) "/opt/rssam/.env" last_wins (λ _, None) u_hmac u_day
    wit_adm_server 60 wit_adm_form (Some (mkPrincipal 1 RoleAdmin "root" "")) wit_adm wit_adm_saved.1 wit_adm_config) as [R _].
  - unfold tidy. apply (bool_decide_unpack _); vm_compute; reflexivity.
  - assert (F : Forall (λ k, (length (named k (lines_of (env_text wit_adm_server "/opt/rssam/.env" (ad_files wit_adm)))) <= 1)%nat)
      (retention_names ++ worker_names)) by (apply (bool_decide_unpack _); vm_compute; reflexivity).
    rewrite Forall_forall in F. exact F.
  - vm_compute. reflexivity.
  - destruct R as (_ & f & F & E); [vm_compute; reflexivity|]. exists f. split; [|exact E]. vm_compute in F. injection F as <-. reflexivity.
Defined.

(** With two lines for a key the first is changed, and the last is read. *)
Example second_line_wins :
  let fs := (SetKeys ascii_only ascii_only good_disk {["/e" := join nl ["WORKER_POOL_SIZE=5"; "WORKER_POOL_SIZE=6"]]} "/e" (worker_keys 20 20)).1 in
  last_wins (lines_of (default "" (fs !! "/e"))) "WORKER_POOL_SIZE" = Some "6"%string.
Proof. by vm_compute. Qed.
