(* ===== verification/Migrations.v ===== *)
(** The migrations of the database ([migrations/migrate.go]): the scripts in the order of their names, each in a transaction
    that also records it.  What PostgreSQL makes of a script is a parameter; any statement may fail, and a commit may be lost
    or may be done without its answer coming back.  The lock that keeps two migrators apart makes their runs a sequence. *)

From S2P Require Import Prelude GoStrings.

Section Migrations.
(** A database but for the table of migrations, and what a script makes of it. *)
Context {Data : Type} (exec : string → Data → option Data).

(** The table of applied scripts, if it is there. *)
Record MigDb := mkMig { mg_versions : option (gset string); mg_data : Data }.

(** The embedded files, directories among them. *)
Record DirEntry := mkEntry { de_name : string; de_dir : bool; de_body : string }.

(** How a statement or a commit ends. *)
Inductive ending := Done | Failed | Unanswered.

(** A run takes one ending after the other; when there are none left, all goes well. *)
Definition endings : Type := list ending.
Definition next_ending (o : endings) : ending * endings := match o with [] => (Done, []) | e :: o => (e, o) end.

(** A statement on its own: without an answer it may have been done. *)
Definition statement (o : endings) (f : MigDb → option MigDb) (db : MigDb) : MigDb * bool * endings :=
  match next_ending o with
  | (Done, o) => match f db with Some db' => (db', true, o) | None => (db, false, o) end
  | (Failed, o) => (db, false, o)
  | (Unanswered, o) => (default db (f db), false, o)
  end.

(** migrations/migrate.go [ensureMigrationsTable] *)
Definition ensureMigrationsTable (db : MigDb) : option MigDb := Some (mkMig (Some (default ∅ (mg_versions db))) (mg_data db)).

Definition name_le (x y : string) : Prop := String.leb x y = true.
#[local] Instance name_le_dec : RelDecision name_le. Proof. intros x y. unfold name_le. apply _. Defined.

(** migrations/migrate.go [listSQLFiles] *)
Definition listSQLFiles (files : list DirEntry) : list string :=
  merge_sort name_le (de_name <$> filter (λ e, de_dir e = false ∧ has_suffix (de_name e) ".sql" = true) files).

(** migrations/migrate.go [markApplied] *)
Definition markApplied (name : string) (db : MigDb) : option MigDb :=
  v ← mg_versions db; Some (mkMig (Some ({[name]} ∪ v)) (mg_data db)).

(** migrations/migrate.go [applyOne] The script and its record, or neither: an error before the commit leaves both undone. *)
Definition applyOne (name sql : string) (db : MigDb) : option MigDb :=
  v ← mg_versions db; d ← exec sql (mg_data db);
  if bool_decide (name ∈ v) then None else Some (mkMig (Some ({[name]} ∪ v)) d).

Section Run.
Context (body : string → option string).

(** migrations/migrate.go:71-96 [Apply, the loop] *)
Fixpoint apply_files (o : endings) (applied : gset string) (files : list string) (db : MigDb) : MigDb * bool * endings :=
  match files with
  | [] => (db, true, o)
  | name :: files =>
      if bool_decide (name ∈ applied) then apply_files o applied files db
      else match body name with
      | None => (db, false, o)
      | Some text =>
          let sql := trim_space text in
          let '(db, ok, o) := statement o (if String.eqb sql "" then markApplied name else applyOne name sql) db in
          if ok : bool then apply_files o applied files db else (db, false, o)
      end
  end.

(** migrations/migrate.go [Apply] The report of the plan of one migration, which only reads, counts with that migration. *)
Definition Apply (o : endings) (files : list DirEntry) (db : MigDb) : MigDb * bool :=
  let '(lock, o) := next_ending o in
  match lock with
  | Done =>
      let '(db, ok, o) := statement o ensureMigrationsTable db in
      if negb ok then (db, false)
      else
        let names := listSQLFiles files in
        match names with
        | [] => (db, true)
        | _ =>
            let '(read, o) := next_ending o in
            match read, mg_versions db with
            | Done, Some applied => let '(db, ok, _) := apply_files o applied names db in (db, ok)
            | _, _ => (db, false)
            end
        end
  | _ => (db, false)
  end.

(** migrations/migrate.go [Pending] Without faults. *)
Definition Pending (files : list DirEntry) (db : MigDb) : list string :=
  match mg_versions db with
  | None => listSQLFiles files
  | Some applied => filter (λ n, n ∉ applied) (listSQLFiles files)
  end.
(** ** What the scripts make of a database *)

(** The scripts of some files, one after the other. *)
Fixpoint run_scripts (names : list string) (d : Data) : option Data :=
  match names with
  | [] => Some d
  | name :: names =>
      text ← body name; d ← (if String.eqb (trim_space text) "" then Some d else exec (trim_space text) d); run_scripts names d
  end.

Lemma run_scripts_snoc names name d : run_scripts (names ++ [name]) d = d ← run_scripts names d; run_scripts [name] d.
Proof.
  revert d. induction names as [|n names IH]; intros d; [done|]. cbn [run_scripts app]. destruct (body n) as [text|]; [|done].
  cbn [mbind option_bind]. destruct (if String.eqb _ _ then _ else _) as [d1|]; [|done]. apply IH.
Qed.

Lemma run_scripts_app names names2 d : run_scripts (names ++ names2) d = d ← run_scripts names d; run_scripts names2 d.
Proof.
  revert d. induction names as [|n names IH]; intros d; [done|]. cbn [run_scripts app]. destruct (body n) as [text|]; [|done].
  cbn [mbind option_bind]. destruct (if String.eqb _ _ then _ else _) as [d1|]; [|done]. apply IH.
Qed.

(** The scripts of [applied], and no other, have made the database of [d0], and are recorded. *)
Definition migrated (d0 : Data) (applied : list string) (db : MigDb) : Prop :=
  mg_versions db = Some (list_to_set applied) ∧ run_scripts applied d0 = Some (mg_data db).

(** A statement does what it does, or nothing. *)
Lemma statement_cases o f db : let '(db', ok, _) := statement o f db in (db' = db ∧ ok = false) ∨ f db = Some db' .
Proof. unfold statement. destruct (next_ending o) as [[] o']; destruct (f db) as [db'|]; auto. Qed.

Lemma one_file d0 applied name text db db' : migrated d0 applied db → body name = Some text → 
  (if String.eqb (trim_space text) "" then markApplied name else applyOne name (trim_space text)) db = Some db' → migrated d0 (applied ++ [name]) db'.
Proof.
  intros [V R] B H. unfold migrated. rewrite run_scripts_snoc, R. cbn [mbind option_bind run_scripts]. rewrite B. cbn [mbind option_bind].
  assert (E : list_to_set (applied ++ [name]) = {[name]} ∪ (list_to_set applied : gset string)) by set_solver.
  destruct (String.eqb (trim_space text) "").
  - unfold markApplied in H. rewrite V in H. injection H as <-. cbn. by rewrite E.
  - unfold applyOne in H. rewrite V in H. cbn [mbind option_bind] in H. destruct (exec _ _) as [d|]; [|done]. cbn [mbind option_bind] in *.
    case_bool_decide; [done|]. injection H as <-. cbn. by rewrite E.
Qed.

Lemma skip_applied o applied pre rest db : Forall (λ n, n ∈ applied) pre → apply_files o applied (pre ++ rest) db = apply_files o applied rest db.
Proof. induction 1 as [|n pre I _ IH]; [done|]. cbn [app apply_files]. by rewrite bool_decide_true. Qed.

(** The loop goes some way through the files that are left, in order; if nothing fails, to the end. *)
Lemma apply_files_spec d0 o applied did files db : migrated d0 did db → Forall (λ n, n ∉ applied) files →
  let '(db', ok, _) := apply_files o applied files db in
  ∃ k, migrated d0 (did ++ take k files) db' ∧ (ok = true → take k files = files).
Proof.
  intros M. revert o did db M. induction files as [|n files IH]; intros o did db M F; cbn [apply_files].
  - exists 0%nat. by rewrite app_nil_r.
  - apply Forall_cons in F as [Fn F]. rewrite bool_decide_false by done. assert (Z0 : ∃ k, migrated d0 (did ++ take k (n :: files)) db ∧ (false = true → take k (n :: files) = n :: files)).
    { exists 0%nat. cbn [take]. by rewrite app_nil_r. }
    destruct (body n) as [text|] eqn:B; [|exact Z0]. cbv zeta.
    pose proof (statement_cases o (if String.eqb (trim_space text) "" then markApplied n else applyOne n (trim_space text)) db) as St.
    destruct (statement _ _ _) as [[db1 ok] o1]. destruct St as [[-> ->]|St]; [exact Z0|]. apply (one_file _ _ _ _ _ _ M B) in St.
    destruct ok.
    + specialize (IH o1 _ _ St F). destruct (apply_files _ _ files db1) as [[db2 ok2] o2]. destruct IH as (k & I1 & I2).
      exists (S k). cbn [take]. rewrite <-app_assoc in I1. split; [exact I1|]. intros E. by rewrite (I2 E).
    + exists 1%nat. cbn [take]. rewrite take_0. by split.
Qed.

(** Without faults, and with scripts that run, it gets to the end. *)
Lemma apply_files_runs d0 applied did files db : migrated d0 did db → Forall (λ n, n ∉ applied) files → NoDup (did ++ files) →
  is_Some (run_scripts (did ++ files) d0) → (apply_files [] applied files db).1.2 = true.
Proof.
  revert did db. induction files as [|n files IH]; intros did db M F N R; [done|]. cbn [apply_files].
  apply Forall_cons in F as [Fn F]. rewrite bool_decide_false by done.
  destruct M as [V E]. rewrite run_scripts_app, E in R. cbn [mbind option_bind run_scripts] in R.
  destruct (body n) as [text|] eqn:B; [|by destruct R]. cbn [mbind option_bind] in R. cbv zeta.
  assert (Nn : n ∉ did) by (apply NoDup_app in N as (_ & N & _); intros I; apply (N n I); left).
  assert (S : ∃ db1, (if String.eqb (trim_space text) "" then markApplied n else applyOne n (trim_space text)) db = Some db1).
  { destruct (String.eqb (trim_space text) "").
    - unfold markApplied. rewrite V. by eexists.
    - unfold applyOne. rewrite V. cbn [mbind option_bind]. destruct (exec _ _) as [d|]; [|by destruct R]. cbn [mbind option_bind].
      rewrite bool_decide_false by (by rewrite elem_of_list_to_set). by eexists. }
  destruct S as [db1 S]. unfold statement. cbn [next_ending]. rewrite S.
  apply (IH (did ++ [n])); [by eapply one_file|done|by rewrite <-app_assoc|]. rewrite <-app_assoc. cbn [app].
  rewrite run_scripts_app, E. cbn [mbind option_bind run_scripts]. by rewrite B.
Qed.

(** ** Runs *)

Context (files : list DirEntry) (U : NoDup (de_name <$> files)) (d0 : Data).
Notation names := (listSQLFiles files).

(** Some of the files have been applied, the first by name. *)
Definition partly_migrated (db : MigDb) : Prop := (mg_versions db = None ∧ mg_data db = d0) ∨ ∃ k, migrated d0 (take k names) db.

Lemma names_NoDup : NoDup names.
Proof.
  unfold listSQLFiles. rewrite merge_sort_Permutation. clear -U. induction files as [|e l IH]; [constructor|]. cbn in U. apply NoDup_cons in U as [N U].
  specialize (IH U). rewrite filter_cons. case_decide; [|done]. cbn. apply NoDup_cons. split; [|done].
  intros (e' & E & [_ I]%list_elem_of_filter)%list_elem_of_fmap. apply N. rewrite E. by apply list_elem_of_fmap_2.
Qed.

Lemma names_sorted : Sorted name_le names.
Proof. apply Sorted_merge_sort. intros x y. unfold name_le. by destruct (String.leb_total x y); [left|right]. Qed.

Lemma unmigrated db : mg_versions db = None → mg_data db = d0 → migrated d0 [] (mkMig (Some ∅) (mg_data db)).
Proof. intros _ <-. by split. Qed.

(** The table is made when it is not there. *)
Lemma ensured db : partly_migrated db → ∃ k, migrated d0 (take k names) (mkMig (Some (default ∅ (mg_versions db))) (mg_data db)).
Proof.
  intros [[V E]|(k & V & R)]; [exists 0%nat|exists k]; rewrite V; cbn; [by apply unmigrated|by split].
Qed.

Lemma rest_unapplied k : Forall (λ n, n ∈ (list_to_set (take k names) : gset string)) (take k names) ∧
  Forall (λ n, n ∉ (list_to_set (take k names) : gset string)) (drop k names).
Proof.
  pose proof names_NoDup as N. rewrite <-(take_drop k names) in N. apply NoDup_app in N as (_ & N & _).
  split; apply Forall_forall; intros n I; rewrite elem_of_list_to_set; [done|]. intros I2. by apply (N n I2).
Qed.

Definition finished (db : MigDb) : Prop := migrated d0 names db ∧ Pending files db = [].

(** A run that stops because of a fault. *)
Ltac stops P N := split; [exact P|split; [discriminate|let E := fresh in intros E; destruct (N E); discriminate]].

Lemma apply_step db o : partly_migrated db → let '(db', ok) := Apply o files db in
  partly_migrated db' ∧ (ok = true → names ≠ [] → finished db') ∧ (o = [] → is_Some (run_scripts names d0) → ok = true).
Proof.
  intros P. unfold Apply. destruct (next_ending o) as [lock o1] eqn:O1.
  assert (N : o = [] → lock = Done ∧ o1 = []) by (intros ->; by injection O1 as <- <-).
  destruct lock; [|stops P N..].
  unfold statement. destruct (next_ending o1) as [e o2] eqn:O2.
  assert (N2 : o = [] → e = Done ∧ o2 = []) by (intros E; destruct (N E) as [_ ->]; by injection O2 as <- <-).
  destruct (ensured _ P) as [k M]. unfold ensureMigrationsTable. cbn [default from_option id]. set (db1 := mkMig (Some _) _) in *.
  assert (P1 : partly_migrated db1) by (right; by exists k).
  destruct e; cbn [negb]; [|stops P N2|stops P1 N2].
  destruct names as [|n ns] eqn:En; [by split|]. rewrite <-En in *. clear n ns En.
  destruct (next_ending o2) as [rd o3] eqn:O3.
  assert (N3 : o = [] → rd = Done ∧ o3 = []) by (intros E; destruct (N2 E) as [_ ->]; by injection O3 as <- <-).
  destruct rd; [|stops P1 N3..].
  destruct M as [V R]. rewrite V. destruct (rest_unapplied k) as [I J].
  assert (A : apply_files o3 (list_to_set (take k names)) names db1 = apply_files o3 (list_to_set (take k names)) (drop k names) db1).
  { rewrite <-(take_drop k names) at 2. by apply skip_applied. }
  rewrite A. clear A. pose proof (apply_files_spec d0 o3 _ (take k names) (drop k names) db1 (conj V R) J) as Sp.
  pose proof (λ E, apply_files_runs d0 (list_to_set (take k names)) (take k names) (drop k names) db1 (conj V R) J E) as Ru. rewrite take_drop in Ru.
  destruct (apply_files o3 _ _ db1) as [[db2 ok] o4] eqn:AE. destruct Sp as (m & Mm & Full). split; [|split].
  - right. exists (length (take k names ++ take m (drop k names))). set (X := _ ++ _) in *.
    assert (E : names = X ++ drop m (drop k names)) by (unfold X; by rewrite <-(assoc_L (++)), !take_drop). by rewrite E, take_app_length.
  - intros E _. rewrite (Full E), take_drop in Mm. split; [done|]. unfold Pending. destruct Mm as [-> _].
    apply elem_of_nil_inv. intros n [Nn In]%list_elem_of_filter. apply Nn. by rewrite elem_of_list_to_set.
  - intros E S. destruct (N3 E) as [_ ->]. rewrite AE in Ru. by apply Ru; [apply names_NoDup|].
Qed.

(** The database after some starts of the program, of which any may have gone wrong anywhere. *)
Definition started (runs : list endings) : MigDb := fold_left (λ db o, (Apply o files db).1) runs (mkMig None d0).

Lemma started_partly runs : partly_migrated (started runs).
Proof.
  unfold started. assert (P : partly_migrated (mkMig None d0)) by by left. revert P. generalize (mkMig None d0) as db.
  induction runs as [|o runs IH]; intros db P; [done|]. cbn [fold_left]. apply IH. pose proof (apply_step db o P) as S.
  destruct (Apply o files db). apply S.
Qed.

(** C29: migrations pick up where they stopped.  Whatever statements of earlier starts failed, and whatever commits went through
    without their answer, the database is at every moment what the scripts of the first so many files, in the order of their
    names, make of the first database, each run once and recorded; a start that reports success has brought it to the end; and
    a start in which nothing fails reports success, when the scripts run at all. *)
Theorem migrations_resume (runs : list endings) (o : endings) :
  partly_migrated (started runs) ∧
  let '(db, ok) := Apply o files (started runs) in
  (ok = true → names ≠ [] → finished db) ∧ (o = [] → is_Some (run_scripts names d0) → ok = true).
Proof.
  split; [apply started_partly|]. pose proof (apply_step _ o (started_partly runs)) as S. destruct (Apply o files _). apply S.
Qed.
End Run.
End Migrations.


(** * Three scripts, one of them empty *)

Definition wit_scripts : list DirEntry :=
  [mkEntry "0002_b.sql" false " "; mkEntry "0003_c.sql" false "create c"; mkEntry "migrate.go" false "package"; mkEntry "0001_a.sql" false "create a"].
Definition wit_body (n : string) : option string := de_body <$> list_find (λ e, de_name e = n) wit_scripts ≫= λ x, Some x.2.
Definition wit_exec (sql : string) (d : list string) : option (list string) := Some (d ++ [sql]).

(** The second start loses the answer of a commit, the third fails at once, the fourth finishes. *)
Lemma migrations_resume_witness :
  let db := started wit_exec wit_body wit_scripts [] [[Done; Failed]; [Done; Done; Done; Unanswered]; [Failed]] in
  Pending wit_scripts db = ["0002_b.sql"; "0003_c.sql"]%string ∧ mg_data db = ["create a"]%string ∧
  (Apply wit_exec wit_body [] wit_scripts db).2 = true ∧ mg_data (Apply wit_exec wit_body [] wit_scripts db).1 = ["create a"; "create c"]%string.
Proof.
  assert (U : NoDup (de_name <$> wit_scripts)) by (apply (bool_decide_unpack _); vm_compute; reflexivity).
  pose proof (migrations_resume wit_exec wit_body wit_scripts U [] [[Done; Failed]; [Done; Done; Done; Unanswered]; [Failed]] []) as [_ H].
  split; [vm_compute; reflexivity|]. split; [vm_compute; reflexivity|]. split; [|vm_compute; reflexivity].
  destruct (Apply wit_exec wit_body [] wit_scripts _) as [db ok]. destruct H as [_ H]. apply H; [reflexivity|]. vm_compute. eexists. reflexivity.
Defined.
